(* ===== verification/_CoqProject ===== *)
-Q . S2P
Prelude.v
CoreTypes.v
ArchData.v
Harvesting.v
CoordinateManager.v
RowHarvestManagers.v
BlackholeManager.v
Managers.v
CoordTheory.v
CoordTable.v
CoordPhases.v
RowCoords.v
WormholeCoords.v
BlackholeCoords.v
BlackholePhases.v
CoordProperties.v
CoreQueries.v
RiscType.v
SemVer.v
DisjointSet.v
Tlb.v
ArchTlbs.v
TlbWindow.v
DeviceMemcpy.v
SimTlbAllocator.v
BoardTypes.v
ClusterState.v
ClusterBoards.v
TextUtils.v
EthConnections.v
LoadChips.v
DescriptorCreate.v
ConstrainedDescriptor.v
MockCluster.v
RobustMutex.v
LockManager.v
DeviceAccess.v
ArcQueue.v
ArcQueueTheory.v
ArcQueueProperties.v
PcieProtocol.v
PcieDma.v
EthBroadcast.v
EthHeaders.v
EthBroadcastProperties.v
TelemetryReader.v
TelemetryProperties.v
FirmwareFeatures.v
FirmwareInfo.v
FirmwareProperties.v
FirmwareSensors.v
RemoteQueue.v
RemoteTheory.v
RemoteWrite.v
RemoteRead.v
RemoteProtocol.v
SocArch.v
SocDescriptor.v
SocAddresses.v
SocChannels.v
SocSerialize.v
SocExamples.v
ArchRegisters.v
WormholeFirmware.v
WormholeMailbox.v
BlackholeFirmware.v
TTDevice.v
TlbManager.v
TTDeviceProperties.v
ArchDevices.v
Topology.v
Discover.v
TopologyArchs.v
TopologyTheory.v
TopologyWalk.v
TopologyProperties.v
TopologyExamples.v
LocalChip.v
Cluster.v
ClusterProperties.v
