(* ===== verification/Prelude.v ===== *)
(** * tt-umd: a verification development for the Tenstorrent user mode driver

    The driver gives a process on the host access to the chips of a cluster:
    chips on PCIe, and chips behind their Ethernet links. This library models
    what the driver computes and how it talks to firmware, locks and hardware,
    and proves the properties that make these parts correct. All source names
    below are relative to [src/device] and its headers in [src/device/api].

    ** How the code is modelled

    A C++ function is a function into [result] (below: exceptions, and
    [UndefinedBehaviour] for what has no defined value, so that a theorem that a
    call returns [Ok] excludes both); a method that changes its object returns
    the new object. Integers are Z with their wrap-around written out ([u32],
    [u64], [i32]). A routine that talks to a device is a computation over a
    [World] ([DeviceAccess.M]): before every single word access the device
    moves, by a transition [env] that is a parameter, so what is proved holds
    for all interleavings with firmware that keeps an interface (a [Class]:
    [ArcFirmware], [RoutingFirmware] with the [WriteResponses] that it counts,
    [DmaEngine], the [mailbox_step]s). A loop
    with no structural bound has fuel, and a result [None] when it is used up;
    theorems give the fuel that is enough ([patience]: polls until a clock that
    ticks passes a timeout; [beats] of a heartbeat; the chips of a network for
    the walk; one step per byte for chunked transfers). Unordered containers are
    iterated in an order that is a parameter ([ClusterState.Unordered]).

    ** The parts

    - Coordinates. [CoreTypes], [ArchData] (the tables of [arch/*.hpp]),
      [Harvesting]; [CoordinateManager] with [RowHarvestManagers] (Wormhole,
      Quasar), [BlackholeManager] and [Managers] (creation) model
      [coordinates/*.cpp]. [CoordTheory] and [CoordTable] specify the three maps
      of a manager by one relation, the table of names; [CoordPhases],
      [RowCoords], [WormholeCoords], [BlackholeCoords] and [BlackholePhases] show
      that [initialize] builds it; [CoordProperties] and [CoreQueries] are the
      contract: creation never throws, translations round trip, names are
      unique, queries split the cores.
    - Value types. [RiscType] (selections and soft reset registers), [SemVer],
      [DisjointSet], [BoardTypes], [TextUtils].
    - TLB windows. [Tlb] (register layouts), [ArchTlbs] (windows of an
      architecture, the configuration register), [TlbWindow] ([pcie/]: chunked
      transfers through one window that is reconfigured on the way),
      [DeviceMemcpy] (the widths of copies), [SimTlbAllocator]. A transfer of any
      size has the effect of one access, and windows are never shared.
    - The cluster descriptor. [ClusterState], [ClusterBoards], [EthConnections],
      [LoadChips], [DescriptorCreate] (from YAML), [ConstrainedDescriptor] (the
      visible devices) and [MockCluster] model [cluster_descriptor.cpp]: a
      descriptor that is created is well formed, and a restriction is an
      isomorphic copy of the visible part. The lists of unhealthy devices of a
      descriptor are not in its record; discovery returns them beside it.
    - Locks. [RobustMutex] ([utils/robust_mutex.cpp]): the mutex in shared
      memory as a step relation of all threads of all processes, which may die
      at any point; it excludes, is never used uninitialised, and survives its
      owner. [LockManager]: every purpose has a mutex of its own. The routines
      that hold a lock are modelled alone with the device.
    - Protocols. [DeviceAccess] (the word accesses), [PcieProtocol]
      ([tt_device/protocol/pcie_protocol.cpp] and [pcie_dma/]) with [PcieDma]:
      DMA in chunks through the staging buffer and a window moves exactly the
      bytes asked for or refuses what is misaligned, over any engine that runs the
      programs in its registers.
      [RemoteProtocol]: writes to rectangles of cores of a remote chip become
      broadcasts, to exactly the Tensix cores of the rectangle, of this chip and
      of those that the headers do not tell from it ([EthHeaders.aliased]).
    - ARC firmware. [ArcQueue], [ArcQueueTheory], [ArcQueueProperties] (the
      message queue of Blackhole refines two FIFO queues); [WormholeFirmware] and
      [WormholeMailbox] (the mailbox of Wormhole, training, clocks);
      [BlackholeFirmware]; [TelemetryReader] and [TelemetryProperties];
      [FirmwareFeatures], [FirmwareInfo], [FirmwareProperties] and
      [FirmwareSensors] ([firmware/]: which word of the telemetry a getter
      decodes, for every version).
    - Remote chips. [EthBroadcast], [EthHeaders], [EthBroadcastProperties]
      ([tt_device/ethernet_broadcast.cpp]: which chips and cores a broadcast
      reaches); [RemoteQueue], [RemoteTheory], [RemoteWrite], [RemoteRead]
      ([tt_device/remote_communication*.cpp]): a write through the queues of the
      routing firmware refines one write of the bytes, the flush returns when
      their responses are back, reads stay in bounds.
    - Devices. [SocArch], [SocDescriptor], [SocAddresses], [SocChannels],
      [SocSerialize], [SocExamples] (the description of a chip, on top of its
      coordinate manager); [ArchRegisters] (the registers of all architectures,
      hang detection); [TTDevice], [TTDeviceProperties] and [ArchDevices]
      ([tt_device/*.cpp], over any protocol and the firmware): a write to a range
      is one hardware write or one write to each working Tensix core of it.
    - Chips. [TlbManager] ([chip_helpers/tlb_manager.cpp] and the accesses of
      [chip/local_chip.cpp]): whatever was asked of the windows before, an access
      reaches the core it is for. [LocalChip] ([chip/*.cpp]): memory barriers,
      which return only when every flag has been seen, opening and closing.
    - The facade. [Cluster] ([cluster.cpp]): the chips of a descriptor, the calls
      for one chip and for all, over an interface of what chips do
      ([SiliconChips]); [ClusterProperties]: the constructor builds the cluster
      that was discovered, every remote chip behind a gateway on its board; a
      reset in software reaches the working Tensix cores and nothing else, one by
      Ethernet the whole Tensix grid; a new descriptor is taken only for the
      same chips.
    - Discovery. [Topology], [Discover], [TopologyArchs] model [topology/*.cpp]
      over an interface of devices ([Devices]) and of the architectures'
      overrides ([TopologyArch]); [TopologyTheory], [TopologyWalk],
      [TopologyProperties], [TopologyExamples]: discovery ends, no lookup of its
      own fails, and in a stable network of Wormholes, 6U Galaxies apart, it finds
      the chips and links there are.

    ** What is not modelled

    The driver of the kernel behind [pcie/pci_device.cpp] and [tt-kmd-lib]
    (ioctls, sysfs, huge pages, IOMMU), warm reset, SPI flash, JTAG, CPU sets and
    NUMA, the simulators' back ends and their messages, logging: they are input
    and output with nothing between, or talk to code that is not in the
    repository. Bindings, tools, examples and tests use the parts above. Signals
    (the SIGBUS-safe accesses), allocation failures and the destructors' effects
    on the kernel are left out of the parts that are modelled. *)

From Stdlib Require Import ZArith Lia.
From stdpp Require Import base gmap list list_numbers strings numbers option.

Local Open Scope Z_scope.

(** ** Errors and the result monad

    [UMD_THROW(error::RuntimeError, ...)] and [UMD_ASSERT] raise
    [RuntimeError]; [std::vector::at], [std::map::at] raise [OutOfRange]
    (std::out_of_range); [std::stoull] may also raise [InvalidArgument].
    A C++ expression without a defined value (an out-of-bounds
    [operator[]] of a vector, an over-wide shift) is [UndefinedBehaviour]:
    a theorem that a call returns [Ok] also excludes it. *)
Inductive error :=
  | RuntimeError (what : string)
  | OutOfRange
  | InvalidArgument
  | UndefinedBehaviour.

Inductive result (A : Type) :=
  | Ok (a : A)
  | Err (e : error).
Arguments Ok {A} a.
Arguments Err {A} e.

#[global] Instance error_eq_dec : EqDecision error.
Proof. solve_decision. Defined.
#[global] Instance result_eq_dec `{EqDecision A} : EqDecision (result A).
Proof. solve_decision. Defined.

#[global] Instance result_ret : MRet result := @Ok.
#[global] Instance result_bind : MBind result := λ A B f m,
  match m with Ok a => f a | Err e => Err e end.
#[global] Instance result_fmap : FMap result := λ A B f m,
  match m with Ok a => Ok (f a) | Err e => Err e end.

Definition throw {A} (what : string) : result A := Err (RuntimeError what).
(** [UMD_ASSERT(cond, error::RuntimeError, what)]. *)
Definition umd_assert (b : bool) (what : string) : result unit :=
  if b then Ok tt else throw what.

Definition is_Ok {A} (m : result A) : Prop := ∃ a, m = Ok a.

Declare Scope umd_scope.
Delimit Scope umd_scope with umd.
Notation "'assert!' b 'else' w ;; k" :=
  (mbind (M:=result) (λ _, k) (umd_assert b w))
  (at level 100, b at level 99, w at level 99, k at level 200, right associativity)
  : umd_scope.

(** A range-for loop whose body may throw. *)
Fixpoint for_each {A S} (l : list A) (f : A → S → result S) (s : S) : result S :=
  match l with
  | [] => Ok s
  | a :: l => s' ← f a s; for_each l f s'
  end.

(** ** Machine integers *)

Definition u8 (z : Z) : Z := z `mod` 2 ^ 8.
Definition u16 (z : Z) : Z := z `mod` 2 ^ 16.
Definition u32 (z : Z) : Z := z `mod` 2 ^ 32.
Definition u64 (z : Z) : Z := z `mod` 2 ^ 64.
(** Conversion to [int] (two's complement). *)
Definition i32 (z : Z) : Z := (z + 2 ^ 31) `mod` 2 ^ 32 - 2 ^ 31.

(** [mask & (1 << i)] read as a condition, where [mask] is a [size_t] and
    [1 << i] an [int]: at 31 the int is negative and sign-extends, from 32 on
    the shift is undefined. *)
Definition test_mask (mask i : Z) : result bool :=
  if bool_decide (0 ≤ i < 31) then Ok (negb (Z.land mask (Z.shiftl 1 i) =? 0))
  else if i =? 31 then Ok (negb (Z.land mask (2 ^ 64 - 2 ^ 31) =? 0))
  else Err UndefinedBehaviour.

(** ** Containers *)

(** [v.at(i)] and [v[i]] for a [size_t] index. *)
Definition vec_at {A} (v : list A) (i : Z) : result A :=
  match v !! Z.to_nat i with Some a => Ok a | None => Err OutOfRange end.
Definition vec_idx {A} (v : list A) (i : Z) : result A :=
  match v !! Z.to_nat i with Some a => Ok a | None => Err UndefinedBehaviour end.
(** [v.size()]. *)
Definition vec_size {A} (v : list A) : Z := Z.of_nat (length v).

(** [m.insert({k, v})] of a std::map keeps the entry that is there. *)
Definition map_insert_new `{Countable K} {V} (k : K) (v : V) (m : gmap K V) : gmap K V :=
  match m !! k with Some _ => m | None => <[k := v]> m end.

(** ** Lemmas: loops *)

Lemma for_each_app {A S} (l1 l2 : list A) (f : A → S → result S) s :
  for_each (l1 ++ l2) f s = (s' ← for_each l1 f s; for_each l2 f s').
Proof. revert s. induction l1 as [|a l1 IH]; intros s; [done|]; simpl.
  destruct (f a s); simpl; [apply IH|done].
Qed.

(** The rule for a range-for loop: an invariant over the elements already
    visited; the loop then returns a value (no iteration throws). *)
Lemma for_each_inv {A S} (P : list A → S → Prop) (l : list A) (f : A → S → result S) s :
  P [] s →
  (∀ done a rest s, l = done ++ a :: rest → P done s → ∃ s', f a s = Ok s' ∧ P (done ++ [a]) s') →
  ∃ s', for_each l f s = Ok s' ∧ P l s'.
Proof.
  intros H0 Hstep.
  cut (∀ rest done s, l = done ++ rest → P done s → ∃ s', for_each rest f s = Ok s' ∧ P l s').
  { intros H. by apply (H l []). }
  clear H0 s. induction rest as [|a rest IH]; intros done s Hl HP; simpl.
  - rewrite app_nil_r in Hl. subst. eauto.
  - destruct (Hstep done a rest s Hl HP) as (s' & -> & HP'); simpl.
    apply (IH (done ++ [a]) s'); [|done]. by rewrite <- app_assoc.
Qed.

(** The same for a loop known to return: no iteration threw. *)
Lemma for_each_preserves {A S} (P : list A → S → Prop) (l : list A) (f : A → S → result S) s s' :
  for_each l f s = Ok s' → P [] s →
  (∀ done a rest s s', l = done ++ a :: rest → P done s → f a s = Ok s' → P (done ++ [a]) s') →
  P l s'.
Proof.
  intros Hs H0 Hstep.
  cut (∀ rest done s, l = done ++ rest → P done s → for_each rest f s = Ok s' → P l s').
  { intros H. by apply (H l [] s). }
  clear H0 Hs s. induction rest as [|a rest IH]; intros done s Hl HP Hs; simpl in Hs.
  - rewrite app_nil_r in Hl. subst. by injection Hs as <-.
  - destruct (f a s) as [s1|] eqn:Ef; [|done]. apply (IH (done ++ [a]) s1); [by rewrite <- app_assoc| |done].
    by eapply Hstep.
Qed.

Lemma seqZ_snoc (m n : Z) : 0 ≤ n → seqZ m (n + 1) = seqZ m n ++ [m + n].
Proof.
  intros. by rewrite seqZ_app by lia.
Qed.

(** The rule for [for (i = m; i < m + n; i++)]. *)
Lemma for_each_seqZ {S} (P : Z → S → Prop) (m n : Z) (f : Z → S → result S) s :
  0 ≤ n → P m s →
  (∀ i s, m ≤ i < m + n → P i s → ∃ s', f i s = Ok s' ∧ P (i + 1) s') →
  ∃ s', for_each (seqZ m n) f s = Ok s' ∧ P (m + n) s'.
Proof.
  intros Hn H0 Hstep. revert n Hn Hstep. refine (natlike_ind _ _ _).
  - intros _. rewrite seqZ_nil by lia. rewrite Z.add_0_r. eauto.
  - intros n Hn IH Hstep. destruct IH as (s1 & Hs1 & HP1).
    { intros i s' Hi. apply Hstep. lia. }
    destruct (Hstep (m + n) s1 ltac:(lia) HP1) as (s2 & Hs2 & HP2).
    exists s2. rewrite <- Z.add_1_r, seqZ_snoc, for_each_app, Hs1 by done; simpl.
    rewrite Hs2; simpl. by rewrite Z.add_assoc.
Qed.

(** ** Lemmas: rank

    [rank sel n]: how many of [0 .. n-1] satisfy [sel]. A loop that skips the
    others and counts gives index [i] the number [rank sel i]. *)
Definition rank (sel : Z → bool) (n : Z) : Z := vec_size (List.filter sel (seqZ 0 n)).

Lemma vec_size_app {A} (l k : list A) : vec_size (l ++ k) = vec_size l + vec_size k.
Proof. unfold vec_size. rewrite length_app. lia. Qed.

Lemma rank_fold sel n : vec_size (List.filter sel (seqZ 0 n)) = rank sel n.
Proof. done. Qed.
Lemma rank_0 sel : rank sel 0 = 0.
Proof. done. Qed.
Lemma rank_S sel n : 0 ≤ n → rank sel (n + 1) = rank sel n + (if sel n then 1 else 0).
Proof.
  intros. unfold rank. rewrite seqZ_snoc, List.filter_app, vec_size_app by done.
  rewrite Z.add_0_l; simpl. by destruct (sel n).
Qed.

(** Induction along a range of [Z] indices. *)
Lemma Z_range_ind (P : Z → Prop) (m : Z) :
  P m → (∀ n, m ≤ n → P n → P (n + 1)) → ∀ n, m ≤ n → P n.
Proof.
  intros H0 HS n Hn. replace n with (m + (n - m)) by lia.
  assert (0 ≤ n - m) as Hk by lia. revert Hk. generalize (n - m).
  refine (natlike_ind _ _ _); [by rewrite Z.add_0_r|].
  intros k Hk IH. rewrite <- Z.add_1_r, Z.add_assoc. apply HS; [lia|done].
Qed.

Lemma rank_bounds sel n : 0 ≤ n → 0 ≤ rank sel n ≤ n.
Proof.
  revert n. apply Z_range_ind; [done|]. intros n Hn IH. rewrite rank_S by done.
  destruct (sel n); lia.
Qed.
Lemma rank_mono sel m n : 0 ≤ m ≤ n → rank sel m ≤ rank sel n.
Proof.
  intros [Hm Hn]. revert n Hn. apply Z_range_ind; [done|].
  intros n Hn IH. rewrite rank_S by lia. destruct (sel n); lia.
Qed.
Lemma rank_lt sel m n : 0 ≤ m < n → sel m = true → rank sel m < rank sel n.
Proof.
  intros Hm Hs. pose proof (rank_mono sel (m + 1) n ltac:(lia)) as H.
  rewrite rank_S, Hs in H by lia. lia.
Qed.
Lemma rank_inj sel m n :
  0 ≤ m → 0 ≤ n → sel m = true → sel n = true → rank sel m = rank sel n → m = n.
Proof.
  intros Hm Hn Hsm Hsn E. destruct (Z.lt_trichotomy m n) as [?|[?|?]]; [|done|].
  - pose proof (rank_lt sel m n ltac:(lia) Hsm). lia.
  - pose proof (rank_lt sel n m ltac:(lia) Hsn). lia.
Qed.
Lemma rank_surj sel n k :
  0 ≤ n → 0 ≤ k < rank sel n → ∃ i, 0 ≤ i < n ∧ sel i = true ∧ rank sel i = k.
Proof.
  revert n. apply (Z_range_ind (λ n, 0 ≤ k < rank sel n → _)).
  - rewrite rank_0. lia.
  - intros n Hn IH Hk. rewrite rank_S in Hk by lia.
    destruct (decide (k < rank sel n)) as [|Hge].
    + destruct IH as (i & ? & ? & ?); [lia|]. exists i. by repeat split; try lia.
    + destruct (sel n) eqn:E; [|lia]. exists n. by repeat split; try lia.
Qed.
Lemma rank_negb sel n : 0 ≤ n → rank (λ i, negb (sel i)) n = n - rank sel n.
Proof.
  revert n. apply Z_range_ind; [done|]. intros n Hn IH. rewrite !rank_S, IH by done.
  destruct (sel n); simpl; lia.
Qed.
Lemma rank_ext sel sel' n :
  0 ≤ n → (∀ i, 0 ≤ i < n → sel i = sel' i) → rank sel n = rank sel' n.
Proof.
  revert n. apply (Z_range_ind (λ n, (∀ i, _) → _)); [done|].
  intros n Hn IH Hext. rewrite !rank_S by done.
  rewrite IH by (intros; apply Hext; lia). by rewrite (Hext n) by lia.
Qed.
Lemma rank_all sel n : 0 ≤ n → (∀ i, 0 ≤ i < n → sel i = true) → rank sel n = n.
Proof.
  revert n. apply (Z_range_ind (λ n, (∀ i, _) → _)); [done|].
  intros n Hn IH Hall. rewrite rank_S, IH, (Hall n) by (intros; apply Hall || lia; lia). lia.
Qed.
(** Beyond the last selected index the count stays. *)
Lemma rank_stable sel n m :
  0 ≤ n ≤ m → (∀ i, n ≤ i < m → sel i = false) → rank sel m = rank sel n.
Proof.
  intros [Hn Hm]. revert m Hm. apply (Z_range_ind (λ m, (∀ i, _) → _)); [done|].
  intros m Hm IH H. rewrite rank_S by lia.
  rewrite IH by (intros; apply H; lia). rewrite (H m) by lia. lia.
Qed.

(** ** Lemmas: masks, indices *)

Lemma test_mask_spec mask i : 0 ≤ i < 31 → test_mask mask i = Ok (Z.testbit mask i).
Proof.
  intros Hi. unfold test_mask. rewrite bool_decide_eq_true_2 by done. f_equal.
  rewrite Z.shiftl_1_l.
  assert (Z.land mask (2 ^ i) = if Z.testbit mask i then 2 ^ i else 0) as ->.
  { apply Z.bits_inj'. intros j Hj. rewrite Z.land_spec, Z.pow2_bits_eqb by lia.
    destruct (Z.eqb_spec i j) as [<-|Hne].
    - destruct (Z.testbit mask i); by rewrite ?Z.bits_0, ?Z.pow2_bits_true by lia.
    - rewrite andb_false_r. destruct (Z.testbit mask i); [|by rewrite Z.bits_0].
      by rewrite Z.pow2_bits_false by lia. }
  destruct (Z.testbit mask i); [|done].
  destruct (Z.eqb_spec (2 ^ i) 0); [|done]. pose proof (Z.pow_pos_nonneg 2 i). lia.
Qed.

(** Fields of a word that do not overlap. *)
Lemma lor_above a b n : 0 ≤ n → 0 ≤ a < 2 ^ n → Z.lor a (Z.shiftl b n) = a + b * 2 ^ n.
Proof.
  intros Hn Ha. rewrite <- Z.shiftl_mul_pow2 by done. symmetry. rewrite <- Z.lxor_lor.
  - apply Z.add_nocarry_lxor. apply Z.bits_inj'. intros i Hi.
    rewrite Z.land_spec, Z.bits_0, Z.shiftl_spec by done.
    destruct (Z.lt_ge_cases i n).
    + by rewrite (Z.testbit_neg_r b) by lia; rewrite andb_false_r.
    + rewrite <- (Z.mod_small a (2 ^ n)) by done. by rewrite Z.mod_pow2_bits_high by lia.
  - apply Z.bits_inj'. intros i Hi. rewrite Z.land_spec, Z.bits_0, Z.shiftl_spec by done.
    destruct (Z.lt_ge_cases i n).
    + by rewrite (Z.testbit_neg_r b) by lia; rewrite andb_false_r.
    + rewrite <- (Z.mod_small a (2 ^ n)) by done. by rewrite Z.mod_pow2_bits_high by lia.
Qed.

(** Bounding an integer by its bits. *)
Lemma bits_bound m n : 0 ≤ n → (∀ j, n ≤ j → Z.testbit m j = false) → 0 ≤ m < 2 ^ n.
Proof.
  intros Hn Hb. replace m with (m `mod` 2 ^ n); [apply Z.mod_pos_bound, Z.pow_pos_nonneg; lia|].
  apply Z.bits_inj'. intros j Hj. destruct (decide (j < n)).
  - by rewrite Z.mod_pow2_bits_low by lia.
  - rewrite Z.mod_pow2_bits_high by lia. by rewrite Hb by lia.
Qed.

Lemma u64_small z : 0 ≤ z < 2 ^ 64 → u64 z = z.
Proof. apply Z.mod_small. Qed.
Lemma u64_add_l a c : u64 (u64 a + c) = u64 (a + c).
Proof. apply Z.add_mod_idemp_l. lia. Qed.
Lemma u32_small z : 0 ≤ z < 2 ^ 32 → u32 z = z.
Proof. apply Z.mod_small. Qed.

Lemma vec_idx_Some {A} (v : list A) i a : v !! Z.to_nat i = Some a → vec_idx v i = Ok a.
Proof. intros H. unfold vec_idx. by rewrite H. Qed.
Lemma vec_at_Some {A} (v : list A) i a : v !! Z.to_nat i = Some a → vec_at v i = Ok a.
Proof. intros H. unfold vec_at. by rewrite H. Qed.
Lemma vec_lookup {A} (v : list A) i : 0 ≤ i < vec_size v → ∃ a, v !! Z.to_nat i = Some a.
Proof. unfold vec_size. intros. apply lookup_lt_is_Some. lia. Qed.

Lemma map_insert_new_lookup `{Countable K} {V} (k k' : K) (v : V) (m : gmap K V) :
  map_insert_new k v m !! k' =
  match m !! k' with Some v' => Some v' | None => if decide (k = k') then Some v else None end.
Proof.
  unfold map_insert_new. destruct (m !! k) eqn:E.
  - destruct (m !! k') eqn:E'; [done|]. rewrite decide_False by congruence. done.
  - rewrite lookup_insert. destruct (decide (k = k')) as [<-|].
    + by rewrite E.
    + by destruct (m !! k').
Qed.

(** ** Lemmas: strings *)

Lemma substring_prefix (a b : string) : String.substring 0 (String.length a) (a +:+ b) = a.
Proof. induction a as [|c a IH]; simpl; [by destruct b|by rewrite IH]. Qed.

Lemma string_length_app (a b : string) : String.length (a +:+ b) = (String.length a + String.length b)%nat.
Proof. induction a as [|c a IH]; simpl; [done|by rewrite IH]. Qed.

Lemma string_app_assoc (a b c : string) : a +:+ (b +:+ c) = (a +:+ b) +:+ c.
Proof. induction a as [|x a IH]; [done|exact (f_equal (String x) IH)]. Qed.
Lemma string_app_nil (a : string) : a +:+ "" = a.
Proof. induction a as [|x a IH]; [done|exact (f_equal (String x) IH)]. Qed.

(** Follows a successful run of a [result] computation step by step. *)
Ltac result_step H :=
  match type of H with
  | mbind (M:=result) _ ?m = Ok _ => let E := fresh "E" in destruct m eqn:E; cbn [mbind result_bind] in H; [|discriminate H]
  | (if ?b then _ else _) = Ok _ => let E := fresh "E" in destruct b eqn:E; try discriminate H
  end.
Ltac result_steps H := repeat (result_step H; cbn beta iota in H).

Create HintDb umd.
#[export] Hint Resolve rank_bounds rank_mono u64_small : umd.
