(* ===== verification/CoreTypes.v ===== *)
(** * Coordinates, core types and coordinate systems

    Models [types/xy_pair.hpp], [types/core_coordinates.hpp] and
    [types/arch.hpp]: the pairs, [CoreType], [CoordSystem], [CoreCoord] with
    the orderings std::map keys them by, and their printed forms. *)

From Stdlib Require Import ZArith Lia Ascii.
From stdpp Require Import base gmap list strings pretty numbers.
From S2P Require Import Prelude.

Local Open Scope Z_scope.

(** ** tt::xy_pair *)

Record xy_pair := XY { xy_x : Z; xy_y : Z }.

#[global] Instance xy_pair_eq_dec : EqDecision xy_pair.
Proof. solve_decision. Defined.
#[global] Instance xy_pair_countable : Countable xy_pair.
Proof.
  refine (inj_countable' (λ p, (xy_x p, xy_y p)) (λ q, XY q.1 q.2) _).
  by intros [].
Defined.

(** [operator<(xy_pair, xy_pair)]. *)
Definition xy_ltb (a b : xy_pair) : bool :=
  (xy_x a <? xy_x b) || ((xy_x a =? xy_x b) && (xy_y a <? xy_y b)).

(** std::to_string of an unsigned integer. *)
Definition to_string (z : Z) : string := pretty (Z.to_N z).

(** [xy_pair::str()]. *)
Definition xy_str (p : xy_pair) : string :=
  to_string (xy_x p) +:+ "-" +:+ to_string (xy_y p).

(** [cxy_pair]: a pair on a chip. *)
Record cxy_pair := CXY { cxy_chip : Z; cxy_xy : xy_pair }.

(** [operator<(cxy_pair, cxy_pair)]. *)
Definition cxy_ltb (l r : cxy_pair) : bool :=
  (cxy_chip l <? cxy_chip r)
  || ((cxy_chip l =? cxy_chip r) && (xy_x (cxy_xy l) <? xy_x (cxy_xy r)))
  || ((cxy_chip l =? cxy_chip r) && (xy_x (cxy_xy l) =? xy_x (cxy_xy r))
      && (xy_y (cxy_xy l) <? xy_y (cxy_xy r))).

(** [cxy_pair::str()]. *)
Definition cxy_str (p : cxy_pair) : string :=
  to_string (cxy_chip p) +:+ ":" +:+ xy_str (cxy_xy p).

(** ** CoreType and CoordSystem *)

Inductive CoreType :=
  | ARC | DRAM | ACTIVE_ETH | IDLE_ETH | PCIE | TENSIX | ROUTER_ONLY
  | SECURITY | L2CPU | DISPATCH | HARVESTED | ETH | WORKER | COUNT | UNSPECIFIED.

Inductive CoordSystem := LOGICAL | NOC0 | TRANSLATED | NOC1 | LITERAL.

(** The enumerators' integer values. *)
Definition CoreType_value (t : CoreType) : Z :=
  match t with
  | ARC => 0 | DRAM => 1 | ACTIVE_ETH => 2 | IDLE_ETH => 3 | PCIE => 4
  | TENSIX => 5 | ROUTER_ONLY => 6 | SECURITY => 7 | L2CPU => 8
  | DISPATCH => 9 | HARVESTED => 10 | ETH => 11 | WORKER => 12 | COUNT => 13
  | UNSPECIFIED => 14
  end.
Definition CoreType_of_value (z : Z) : CoreType :=
  match z with
  | 0 => ARC | 1 => DRAM | 2 => ACTIVE_ETH | 3 => IDLE_ETH | 4 => PCIE
  | 5 => TENSIX | 6 => ROUTER_ONLY | 7 => SECURITY | 8 => L2CPU
  | 9 => DISPATCH | 10 => HARVESTED | 11 => ETH | 12 => WORKER | 13 => COUNT
  | _ => UNSPECIFIED
  end.
Definition CoordSystem_value (s : CoordSystem) : Z :=
  match s with LOGICAL => 0 | NOC0 => 1 | TRANSLATED => 2 | NOC1 => 3 | LITERAL => 4 end.
Definition CoordSystem_of_value (z : Z) : CoordSystem :=
  match z with 0 => LOGICAL | 1 => NOC0 | 2 => TRANSLATED | 3 => NOC1 | _ => LITERAL end.

#[global] Instance CoreType_eq_dec : EqDecision CoreType.
Proof. solve_decision. Defined.
#[global] Instance CoreType_countable : Countable CoreType.
Proof. refine (inj_countable' CoreType_value CoreType_of_value _). by intros []. Defined.
#[global] Instance CoordSystem_eq_dec : EqDecision CoordSystem.
Proof. solve_decision. Defined.
#[global] Instance CoordSystem_countable : Countable CoordSystem.
Proof. refine (inj_countable' CoordSystem_value CoordSystem_of_value _). by intros []. Defined.

(** [to_str(CoreType)]. *)
Definition CoreType_to_str (t : CoreType) : string :=
  match t with
  | ARC => "ARC" | DRAM => "DRAM" | ACTIVE_ETH => "ACTIVE_ETH"
  | IDLE_ETH => "IDLE_ETH" | PCIE => "PCIE" | TENSIX => "TENSIX"
  | ROUTER_ONLY => "ROUTER_ONLY" | SECURITY => "SECURITY" | L2CPU => "L2CPU"
  | DISPATCH => "DISPATCH" | HARVESTED => "HARVESTED" | ETH => "ETH"
  | WORKER => "WORKER" | UNSPECIFIED => "UNSPECIFIED" | COUNT => "UNKNOWN"
  end.

(** [type_shorthand(CoreType)]; ['\0'] is the null character. *)
Definition type_shorthand (t : CoreType) : ascii :=
  match t with
  | ARC => "a" | DRAM => "d" | ACTIVE_ETH | IDLE_ETH | ETH => "e"
  | PCIE => "p" | TENSIX | WORKER => "t" | ROUTER_ONLY => "r"
  | SECURITY => "s" | L2CPU => "l" | UNSPECIFIED => "000"
  | DISPATCH | HARVESTED | COUNT => "?"
  end%char.

(** [to_str(CoordSystem)]. *)
Definition CoordSystem_to_str (s : CoordSystem) : string :=
  match s with
  | LOGICAL => "LOGICAL" | NOC0 => "NOC0" | TRANSLATED => "TRANSLATED"
  | NOC1 => "NOC1" | LITERAL => "LITERAL"
  end.

(** ** CoreCoord *)

Record CoreCoord := MkCoreCoord {
  cc_x : Z;
  cc_y : Z;
  core_type : CoreType;
  coord_system : CoordSystem;
}.

#[global] Instance CoreCoord_eq_dec : EqDecision CoreCoord.
Proof. solve_decision. Defined.
#[global] Instance CoreCoord_countable : Countable CoreCoord.
Proof.
  refine (inj_countable'
    (λ c, (cc_x c, cc_y c, core_type c, coord_system c))
    (λ q, MkCoreCoord q.1.1.1 q.1.1.2 q.1.2 q.2) _).
  by intros [].
Defined.

(** The constructor that takes an [xy_pair], and [to_pair()]. *)
Definition CoreCoord_of_pair (p : xy_pair) (t : CoreType) (s : CoordSystem) : CoreCoord :=
  MkCoreCoord (xy_x p) (xy_y p) t s.
(** [CoreCoord(core)] with the default type and system. *)
Definition CoreCoord_literal (p : xy_pair) : CoreCoord :=
  CoreCoord_of_pair p UNSPECIFIED LITERAL.
Definition to_pair (c : CoreCoord) : xy_pair := XY (cc_x c) (cc_y c).

(** [CoreCoord::operator==]. *)
Definition CoreCoord_eqb (a b : CoreCoord) : bool :=
  (cc_x a =? cc_x b) && (cc_y a =? cc_y b)
  && (CoreType_value (core_type a) =? CoreType_value (core_type b))
  && (CoordSystem_value (coord_system a) =? CoordSystem_value (coord_system b)).

(** [CoreCoord::operator<]. *)
Definition CoreCoord_ltb (a o : CoreCoord) : bool :=
  if negb (cc_x a =? cc_x o) then cc_x a <? cc_x o
  else if negb (cc_y a =? cc_y o) then cc_y a <? cc_y o
  else if negb (CoreType_value (core_type a) =? CoreType_value (core_type o))
  then CoreType_value (core_type a) <? CoreType_value (core_type o)
  else CoordSystem_value (coord_system a) <? CoordSystem_value (coord_system o).

(** [std::pair<tt_xy_pair, CoordSystem>::operator<], as std::map uses it for
    [from_noc0_map] and [to_core_type_map]. *)
Definition xy_system_ltb (a b : xy_pair * CoordSystem) : bool :=
  xy_ltb a.1 b.1
  || (negb (xy_ltb b.1 a.1) && (CoordSystem_value a.2 <? CoordSystem_value b.2)).

(** [CoreCoord::str()]. *)
Definition CoreCoord_str (c : CoreCoord) : string :=
  if decide (coord_system c = LITERAL) then xy_str (to_pair c)
  else
    (if decide (type_shorthand (core_type c) = "000"%char) then ""
     else String (type_shorthand (core_type c)) "")
    +:+ to_string (cc_x c) +:+ "-" +:+ to_string (cc_y c)
    +:+ " (" +:+ CoordSystem_to_str (coord_system c) +:+ ")".

(** ** tt::ARCH *)

Inductive ARCH := WORMHOLE_B0 | BLACKHOLE | QUASAR | Invalid.

#[global] Instance ARCH_eq_dec : EqDecision ARCH.
Proof. solve_decision. Defined.

(** [to_lower] of common.hpp (the "C" locale's tolower). *)
Definition ascii_to_lower (c : ascii) : ascii :=
  let n := nat_of_ascii c in
  if bool_decide (65 ≤ n ≤ 90)%nat then ascii_of_nat (n + 32) else c.
Fixpoint to_lower (s : string) : string :=
  match s with
  | EmptyString => EmptyString
  | String c s => String (ascii_to_lower c) (to_lower s)
  end.

Definition arch_from_str (arch_str : string) : ARCH :=
  let l := to_lower arch_str in
  if decide (l = "wormhole" ∨ l = "wormhole_b0") then WORMHOLE_B0
  else if decide (l = "blackhole") then BLACKHOLE
  else if decide (l = "quasar") then QUASAR
  else Invalid.

Definition arch_to_str (a : ARCH) : string :=
  match a with
  | WORMHOLE_B0 => "wormhole_b0" | BLACKHOLE => "blackhole"
  | QUASAR => "quasar" | Invalid => "Invalid"
  end.

(** ** The orders std::map keys by *)

(** What std::map asks of its comparator (irreflexive, transitive), and that
    two keys it cannot tell apart are equal: then a std::map with this
    comparator is a finite map keyed by equality, as the models here have it. *)
Class MapKeyOrder {A} (ltb : A → A → bool) : Prop := {
  key_irrefl : ∀ a, ltb a a = false;
  key_trans : ∀ a b c, ltb a b = true → ltb b c = true → ltb a c = true;
  key_eq : ∀ a b, ltb a b = false → ltb b a = false → a = b;
}.

Lemma CoreType_value_inj a b : CoreType_value a = CoreType_value b → a = b.
Proof. by destruct a, b. Qed.
Lemma CoordSystem_value_inj a b : CoordSystem_value a = CoordSystem_value b → a = b.
Proof. by destruct a, b. Qed.

#[global] Instance xy_ltb_order : MapKeyOrder xy_ltb.
Proof.
  split; unfold xy_ltb.
  - intros []; simpl; lia.
  - intros [] [] []; simpl; lia.
  - intros [] []; simpl; intros; f_equal; lia.
Qed.

#[global] Instance xy_system_ltb_order : MapKeyOrder xy_system_ltb.
Proof.
  split; unfold xy_system_ltb, xy_ltb.
  - intros [[] s]; simpl; lia.
  - intros [[] s1] [[] s2] [[] s3]; simpl; lia.
  - intros [[] s1] [[] s2]; simpl; intros.
    rewrite (CoordSystem_value_inj s1 s2) by lia. repeat f_equal; lia.
Qed.

(** The early returns of [CoreCoord::operator<], as one lexicographic test. *)
Lemma CoreCoord_ltb_lex a o :
  CoreCoord_ltb a o =
  xy_ltb (to_pair a) (to_pair o)
  || (bool_decide (to_pair a = to_pair o)
      && ((CoreType_value (core_type a) <? CoreType_value (core_type o))
          || ((CoreType_value (core_type a) =? CoreType_value (core_type o))
              && (CoordSystem_value (coord_system a) <? CoordSystem_value (coord_system o))))).
Proof.
  destruct a as [x y t s], o as [x' y' t' s']; unfold CoreCoord_ltb, xy_ltb; simpl.
  destruct (Z.eqb_spec x x') as [->|]; simpl; [destruct (Z.eqb_spec y y') as [->|]; simpl|].
  - rewrite bool_decide_eq_true_2 by done.
    destruct (Z.eqb_spec (CoreType_value t) (CoreType_value t')); simpl; lia.
  - rewrite bool_decide_eq_false_2 by (unfold to_pair; simpl; congruence). lia.
  - rewrite bool_decide_eq_false_2 by (unfold to_pair; simpl; congruence). lia.
Qed.

#[global] Instance CoreCoord_ltb_order : MapKeyOrder CoreCoord_ltb.
Proof.
  split.
  - intros a. rewrite CoreCoord_ltb_lex, key_irrefl, bool_decide_eq_true_2 by done. lia.
  - intros a b c. rewrite !CoreCoord_ltb_lex.
    destruct (bool_decide_reflect (to_pair a = to_pair b)) as [->|];
      destruct (bool_decide_reflect (to_pair b = to_pair c)) as [->|]; simpl;
      rewrite ?key_irrefl, ?orb_false_r; simpl; intros H1 H2;
      rewrite ?H1, ?H2; try done; try lia.
    by rewrite (key_trans (ltb:=xy_ltb) _ _ _ H1 H2).
  - intros [x y t s] [x' y' t' s']. rewrite !CoreCoord_ltb_lex. unfold xy_ltb, to_pair; simpl.
    repeat case_bool_decide; simplify_eq/=; intros; try (exfalso; congruence).
    + rewrite (CoreType_value_inj t t') by lia.
      rewrite (CoordSystem_value_inj s s') by lia. done.
    + destruct H. f_equal; lia.
Qed.

Lemma CoreCoord_eqb_eq a b : CoreCoord_eqb a b = true ↔ a = b.
Proof.
  destruct a as [? ? t1 s1], b as [? ? t2 s2]; unfold CoreCoord_eqb; simpl.
  rewrite !andb_true_iff, !Z.eqb_eq. split.
  - intros [[[-> ->] ->%CoreType_value_inj] ->%CoordSystem_value_inj]. done.
  - by intros [= -> -> -> ->].
Qed.

(** The named architectures print to names that parse back to them, in any case
    the caller writes them (the parse lowers its input first). *)
Lemma arch_str_roundtrip a : arch_from_str (arch_to_str a) = a.
Proof. by destruct a. Qed.
