(* ===== verification/ArchData.v ===== *)
(** * Architecture tables

    The per-architecture constants of [arch/wormhole_implementation.hpp],
    [arch/blackhole_implementation.hpp] and [arch/grendel_implementation.hpp]
    (Quasar) that describe the grid: core locations, grid sizes, harvesting
    layout and where each translated region starts. *)

From Stdlib Require Import ZArith Lia.
From stdpp Require Import base list numbers.
From S2P Require Import Prelude CoreTypes.

Local Open Scope Z_scope.

(** [flatten_vector] of common.hpp. *)
Definition flatten_vector (vv : list (list xy_pair)) : list xy_pair := concat vv.

Module wormhole.
Definition GRID_SIZE : xy_pair := XY 10 12.
Definition NOC0_X_TO_NOC1_X : list Z := [9; 8; 7; 6; 5; 4; 3; 2; 1; 0].
Definition NOC0_Y_TO_NOC1_Y : list Z := [11; 10; 9; 8; 7; 6; 5; 4; 3; 2; 1; 0].
Definition TENSIX_GRID_SIZE : xy_pair := XY 8 10.
Definition TENSIX_CORES_NOC0 : list xy_pair :=
  [XY 1 1; XY 2 1; XY 3 1; XY 4 1; XY 6 1; XY 7 1; XY 8 1; XY 9 1;
   XY 1 2; XY 2 2; XY 3 2; XY 4 2; XY 6 2; XY 7 2; XY 8 2; XY 9 2;
   XY 1 3; XY 2 3; XY 3 3; XY 4 3; XY 6 3; XY 7 3; XY 8 3; XY 9 3;
   XY 1 4; XY 2 4; XY 3 4; XY 4 4; XY 6 4; XY 7 4; XY 8 4; XY 9 4;
   XY 1 5; XY 2 5; XY 3 5; XY 4 5; XY 6 5; XY 7 5; XY 8 5; XY 9 5;
   XY 1 7; XY 2 7; XY 3 7; XY 4 7; XY 6 7; XY 7 7; XY 8 7; XY 9 7;
   XY 1 8; XY 2 8; XY 3 8; XY 4 8; XY 6 8; XY 7 8; XY 8 8; XY 9 8;
   XY 1 9; XY 2 9; XY 3 9; XY 4 9; XY 6 9; XY 7 9; XY 8 9; XY 9 9;
   XY 1 10; XY 2 10; XY 3 10; XY 4 10; XY 6 10; XY 7 10; XY 8 10; XY 9 10;
   XY 1 11; XY 2 11; XY 3 11; XY 4 11; XY 6 11; XY 7 11; XY 8 11; XY 9 11].
Definition NUM_DRAM_BANKS : Z := 6.
Definition NUM_NOC_PORTS_PER_DRAM_BANK : Z := 3.
Definition DRAM_GRID_SIZE : xy_pair := XY NUM_DRAM_BANKS NUM_NOC_PORTS_PER_DRAM_BANK.
Definition DRAM_CORES_NOC0 : list (list xy_pair) :=
  [[XY 0 0; XY 0 1; XY 0 11];
   [XY 0 5; XY 0 6; XY 0 7];
   [XY 5 0; XY 5 1; XY 5 11];
   [XY 5 2; XY 5 9; XY 5 10];
   [XY 5 3; XY 5 4; XY 5 8];
   [XY 5 5; XY 5 6; XY 5 7]].
Definition NUM_ETH_CHANNELS : Z := 16.
Definition ETH_CORES_NOC0 : list xy_pair :=
  [XY 9 0; XY 1 0; XY 8 0; XY 2 0; XY 7 0; XY 3 0; XY 6 0; XY 4 0;
   XY 9 6; XY 1 6; XY 8 6; XY 2 6; XY 7 6; XY 3 6; XY 6 6; XY 4 6].
Definition ARC_GRID_SIZE : xy_pair := XY 1 1.
Definition ARC_CORES_NOC0 : list xy_pair :=
  [XY 0 10].
Definition PCIE_GRID_SIZE : xy_pair := XY 1 1.
Definition PCIE_CORES_NOC0 : list xy_pair :=
  [XY 0 3].
Definition ROUTER_CORES_NOC0 : list xy_pair :=
  [XY 0 2; XY 0 4; XY 0 8; XY 0 9].
Definition SECURITY_CORES_NOC0 : list xy_pair :=
  [].
Definition L2CPU_CORES_NOC0 : list xy_pair :=
  [].
Definition HARVESTING_NOC_LOCATIONS : list Z := [11; 1; 10; 2; 9; 3; 8; 4; 7; 5].
Definition tensix_translated_coordinate_start_x : Z := 18.
Definition tensix_translated_coordinate_start_y : Z := 18.
Definition eth_translated_coordinate_start_x : Z := 18.
Definition eth_translated_coordinate_start_y : Z := 16.
Definition translated_coordinate_start_x : Z := 16.
Definition translated_coordinate_start_y : Z := 16.
Definition TENSIX_L1_SIZE : Z := 1499136.
Definition ETH_L1_SIZE : Z := 262144.
Definition DRAM_BANK_SIZE : Z := 2147483648.
Definition T6_X_LOCATIONS : list Z := [1; 2; 3; 4; 6; 7; 8; 9].
Definition T6_Y_LOCATIONS : list Z := [1; 2; 3; 4; 5; 7; 8; 9; 10; 11].
Definition TRANSLATED_TO_VIRTUAL_X : list Z := [0; 5; 1; 2; 3; 4; 6; 7; 8; 9].
Definition TRANSLATED_TO_VIRTUAL_Y : list Z := [0; 6; 1; 2; 3; 4; 5; 7; 8; 9; 10; 11].
End wormhole.

Module blackhole.
Definition GRID_SIZE : xy_pair := XY 17 12.
Definition NOC0_X_TO_NOC1_X : list Z := [16; 15; 14; 13; 12; 11; 10; 9; 8; 7; 6; 5; 4; 3; 2; 1; 0].
Definition NOC0_Y_TO_NOC1_Y : list Z := [11; 10; 9; 8; 7; 6; 5; 4; 3; 2; 1; 0].
Definition TENSIX_GRID_SIZE : xy_pair := XY 14 10.
Definition TENSIX_CORES_NOC0 : list xy_pair :=
  [XY 1 2; XY 2 2; XY 3 2; XY 4 2; XY 5 2; XY 6 2; XY 7 2; XY 10 2;
   XY 11 2; XY 12 2; XY 13 2; XY 14 2; XY 15 2; XY 16 2; XY 1 3; XY 2 3;
   XY 3 3; XY 4 3; XY 5 3; XY 6 3; XY 7 3; XY 10 3; XY 11 3; XY 12 3;
   XY 13 3; XY 14 3; XY 15 3; XY 16 3; XY 1 4; XY 2 4; XY 3 4; XY 4 4;
   XY 5 4; XY 6 4; XY 7 4; XY 10 4; XY 11 4; XY 12 4; XY 13 4; XY 14 4;
   XY 15 4; XY 16 4; XY 1 5; XY 2 5; XY 3 5; XY 4 5; XY 5 5; XY 6 5;
   XY 7 5; XY 10 5; XY 11 5; XY 12 5; XY 13 5; XY 14 5; XY 15 5; XY 16 5;
   XY 1 6; XY 2 6; XY 3 6; XY 4 6; XY 5 6; XY 6 6; XY 7 6; XY 10 6;
   XY 11 6; XY 12 6; XY 13 6; XY 14 6; XY 15 6; XY 16 6; XY 1 7; XY 2 7;
   XY 3 7; XY 4 7; XY 5 7; XY 6 7; XY 7 7; XY 10 7; XY 11 7; XY 12 7;
   XY 13 7; XY 14 7; XY 15 7; XY 16 7; XY 1 8; XY 2 8; XY 3 8; XY 4 8;
   XY 5 8; XY 6 8; XY 7 8; XY 10 8; XY 11 8; XY 12 8; XY 13 8; XY 14 8;
   XY 15 8; XY 16 8; XY 1 9; XY 2 9; XY 3 9; XY 4 9; XY 5 9; XY 6 9;
   XY 7 9; XY 10 9; XY 11 9; XY 12 9; XY 13 9; XY 14 9; XY 15 9; XY 16 9;
   XY 1 10; XY 2 10; XY 3 10; XY 4 10; XY 5 10; XY 6 10; XY 7 10; XY 10 10;
   XY 11 10; XY 12 10; XY 13 10; XY 14 10; XY 15 10; XY 16 10; XY 1 11; XY 2 11;
   XY 3 11; XY 4 11; XY 5 11; XY 6 11; XY 7 11; XY 10 11; XY 11 11; XY 12 11;
   XY 13 11; XY 14 11; XY 15 11; XY 16 11].
Definition NUM_DRAM_BANKS : Z := 8.
Definition NUM_NOC_PORTS_PER_DRAM_BANK : Z := 3.
Definition DRAM_GRID_SIZE : xy_pair := XY NUM_DRAM_BANKS NUM_NOC_PORTS_PER_DRAM_BANK.
Definition DRAM_CORES_NOC0 : list (list xy_pair) :=
  [[XY 0 0; XY 0 1; XY 0 11];
   [XY 0 2; XY 0 10; XY 0 3];
   [XY 0 9; XY 0 4; XY 0 8];
   [XY 0 5; XY 0 7; XY 0 6];
   [XY 9 0; XY 9 1; XY 9 11];
   [XY 9 2; XY 9 10; XY 9 3];
   [XY 9 9; XY 9 4; XY 9 8];
   [XY 9 5; XY 9 7; XY 9 6]].
Definition NUM_ETH_CHANNELS : Z := 14.
Definition ETH_CORES_NOC0 : list xy_pair :=
  [XY 1 1; XY 16 1; XY 2 1; XY 15 1; XY 3 1; XY 14 1; XY 4 1; XY 13 1;
   XY 5 1; XY 12 1; XY 6 1; XY 11 1; XY 7 1; XY 10 1].
Definition ARC_GRID_SIZE : xy_pair := XY 1 1.
Definition ARC_CORES_NOC0 : list xy_pair :=
  [XY 8 0].
Definition PCIE_GRID_SIZE : xy_pair := XY 2 1.
Definition PCIE_CORES_NOC0 : list xy_pair :=
  [XY 2 0; XY 11 0].
Definition ROUTER_CORES_NOC0 : list xy_pair :=
  [XY 1 0; XY 3 0; XY 4 0; XY 5 0; XY 6 0; XY 7 0; XY 10 0; XY 12 0;
   XY 13 0; XY 14 0; XY 15 0; XY 16 0; XY 8 1; XY 8 10; XY 8 8; XY 8 6;
   XY 8 4; XY 8 11].
Definition SECURITY_CORES_NOC0 : list xy_pair :=
  [XY 8 2].
Definition L2CPU_CORES_NOC0 : list xy_pair :=
  [XY 8 3; XY 8 5; XY 8 7; XY 8 9].
Definition HARVESTING_NOC_LOCATIONS : list Z := [1; 16; 2; 15; 3; 14; 4; 13; 5; 12; 6; 11; 7; 10].
Definition eth_translated_coordinate_start_x : Z := 20.
Definition eth_translated_coordinate_start_y : Z := 25.
Definition pcie_translated_coordinate_start_x : Z := 19.
Definition pcie_translated_coordinate_start_y : Z := 24.
Definition dram_translated_coordinate_start_x : Z := 17.
Definition dram_translated_coordinate_start_y : Z := 12.
Definition TENSIX_L1_SIZE : Z := 1572864.
Definition ETH_L1_SIZE : Z := 262144.
Definition DRAM_BANK_SIZE : Z := 4294967296.
End blackhole.

Module grendel.
Definition GRID_SIZE : xy_pair := XY 12 8.
Definition NOC0_X_TO_NOC1_X : list Z := [16; 15; 14; 13; 12; 11; 10; 9; 8; 7; 6; 5; 4; 3; 2; 1; 0].
Definition NOC0_Y_TO_NOC1_Y : list Z := [11; 10; 9; 8; 7; 6; 5; 4; 3; 2; 1; 0].
Definition TENSIX_GRID_SIZE : xy_pair := XY 8 4.
Definition TENSIX_CORES_NOC0 : list xy_pair :=
  [XY 2 2; XY 3 2; XY 4 2; XY 5 2; XY 6 2; XY 7 2; XY 8 2; XY 9 2;
   XY 2 3; XY 3 3; XY 4 3; XY 5 3; XY 6 3; XY 7 3; XY 8 3; XY 9 3;
   XY 2 4; XY 3 4; XY 4 4; XY 5 4; XY 6 4; XY 7 4; XY 8 4; XY 9 4;
   XY 2 5; XY 3 5; XY 4 5; XY 5 5; XY 6 5; XY 7 5; XY 8 5; XY 9 5].
Definition NUM_DRAM_BANKS : Z := 8.
Definition NUM_NOC_PORTS_PER_DRAM_BANK : Z := 3.
Definition DRAM_GRID_SIZE : xy_pair := XY NUM_DRAM_BANKS NUM_NOC_PORTS_PER_DRAM_BANK.
Definition DRAM_CORES_NOC0 : list (list xy_pair) :=
  [[XY 0 0; XY 0 1; XY 0 11];
   [XY 0 2; XY 0 10; XY 0 3];
   [XY 0 9; XY 0 4; XY 0 8];
   [XY 0 5; XY 0 7; XY 0 6];
   [XY 9 0; XY 9 1; XY 9 11];
   [XY 9 2; XY 9 10; XY 9 3];
   [XY 9 9; XY 9 4; XY 9 8];
   [XY 9 5; XY 9 7; XY 9 6]].
Definition NUM_ETH_CHANNELS : Z := 14.
Definition ETH_CORES_NOC0 : list xy_pair :=
  [XY 1 1; XY 16 1; XY 2 1; XY 15 1; XY 3 1; XY 14 1; XY 4 1; XY 13 1;
   XY 5 1; XY 12 1; XY 6 1; XY 11 1; XY 7 1; XY 10 1].
Definition ARC_GRID_SIZE : xy_pair := XY 1 1.
Definition ARC_CORES_NOC0 : list xy_pair :=
  [XY 8 0].
Definition PCIE_GRID_SIZE : xy_pair := XY 2 1.
Definition PCIE_CORES_NOC0 : list xy_pair :=
  [XY 2 0; XY 11 0].
Definition ROUTER_CORES_NOC0 : list xy_pair :=
  [XY 1 0; XY 3 0; XY 4 0; XY 5 0; XY 6 0; XY 7 0; XY 10 0; XY 12 0;
   XY 13 0; XY 14 0; XY 15 0; XY 16 0; XY 8 1; XY 8 10; XY 8 8; XY 8 6;
   XY 8 4; XY 8 11].
Definition SECURITY_CORES_NOC0 : list xy_pair :=
  [XY 8 2].
Definition L2CPU_CORES_NOC0 : list xy_pair :=
  [XY 8 3; XY 8 5; XY 8 7; XY 8 9].
Definition DISPATCH_CORES_NOC0 : list xy_pair :=
  [].
Definition HARVESTING_NOC_LOCATIONS : list Z := [1; 16; 2; 15; 3; 14; 4; 13; 5; 12; 6; 11; 7; 10].
Definition eth_translated_coordinate_start_x : Z := 20.
Definition eth_translated_coordinate_start_y : Z := 25.
Definition pcie_translated_coordinate_start_x : Z := 19.
Definition pcie_translated_coordinate_start_y : Z := 24.
Definition dram_translated_coordinate_start_x : Z := 17.
Definition dram_translated_coordinate_start_y : Z := 12.
Definition TENSIX_L1_SIZE : Z := 1572864.
Definition ETH_L1_SIZE : Z := 262144.
Definition DRAM_BANK_SIZE : Z := 4294967296.
End grendel.

