(* ===== verification/Harvesting.v ===== *)
(** * Harvesting masks

    [HarvestingMasks] of [types/cluster_descriptor_types.hpp], the mask queries
    of CoordinateManager ([get_num_harvested], [get_harvested_indices]) and the
    conversions between the hardware's physical layout and NOC0 order. The
    second half is the theory the managers' proofs use: [rank sel i] counts the
    selected indices below [i], the logical index a kept row or column gets. *)

From Stdlib Require Import ZArith Lia.
From stdpp Require Import base gmap list list_numbers sorting strings numbers.
From S2P Require Import Prelude CoreTypes ArchData.

Local Open Scope Z_scope.

(** ** Harvesting masks *)

(** [HarvestingMasks]: five size_t masks. *)
Record HarvestingMasks := MkMasks {
  tensix_harvesting_mask : Z;
  dram_harvesting_mask : Z;
  eth_harvesting_mask : Z;
  pcie_harvesting_mask : Z;
  l2cpu_harvesting_mask : Z;
}.

#[global] Instance HarvestingMasks_eq_dec : EqDecision HarvestingMasks.
Proof. solve_decision. Defined.

(** [HarvestingMasks::operator|]. *)
Definition masks_or (a b : HarvestingMasks) : HarvestingMasks :=
  {| tensix_harvesting_mask := Z.lor (tensix_harvesting_mask a) (tensix_harvesting_mask b);
     dram_harvesting_mask := Z.lor (dram_harvesting_mask a) (dram_harvesting_mask b);
     eth_harvesting_mask := Z.lor (eth_harvesting_mask a) (eth_harvesting_mask b);
     pcie_harvesting_mask := Z.lor (pcie_harvesting_mask a) (pcie_harvesting_mask b);
     l2cpu_harvesting_mask := Z.lor (l2cpu_harvesting_mask a) (l2cpu_harvesting_mask b) |}.

(** The [while (mask > 0)] loop of [get_num_harvested]; a size_t is zero after
    at most 64 right shifts, so [fuel = 64] is the whole loop. *)
Fixpoint get_num_harvested_loop (fuel : nat) (mask num_harvested : Z) : Z :=
  match fuel with
  | O => num_harvested
  | S fuel =>
      if 0 <? mask
      then get_num_harvested_loop fuel (Z.shiftr mask 1) (num_harvested + Z.land mask 1)
      else num_harvested
  end.
Definition get_num_harvested (harvesting_mask : Z) : Z :=
  get_num_harvested_loop 64 harvesting_mask 0.

(** The loop of [get_harvested_indices], with the indices in push order. *)
Fixpoint get_harvested_indices_loop (fuel : nat) (mask index : Z) (indices : list Z) : list Z :=
  match fuel with
  | O => indices
  | S fuel =>
      if 0 <? mask
      then get_harvested_indices_loop fuel (Z.shiftr mask 1) (index + 1)
             (if negb (Z.land mask 1 =? 0) then indices ++ [index] else indices)
      else indices
  end.
Definition get_harvested_indices (harvesting_mask : Z) : list Z :=
  get_harvested_indices_loop 64 harvesting_mask 0 [].

(** ** Harvesting mask shuffles *)

(** [ArchitectureImplementation::create(arch)->get_harvesting_noc_locations()];
    create() returns a null pointer for [Invalid]. *)
Definition get_harvesting_noc_locations (arch : ARCH) : result (list Z) :=
  match arch with
  | WORMHOLE_B0 => Ok wormhole.HARVESTING_NOC_LOCATIONS
  | BLACKHOLE => Ok blackhole.HARVESTING_NOC_LOCATIONS
  | QUASAR => Ok grendel.HARVESTING_NOC_LOCATIONS
  | Invalid => Err UndefinedBehaviour
  end.

(** std::find on a vector, as an index ([size()] when absent). *)
Fixpoint find_index (v : Z) (l : list Z) : Z :=
  match l with
  | [] => 0
  | a :: l => if decide (a = v) then 0 else 1 + find_index v l
  end.

(** [mask |= (1 << n)] with an int shift, read back as uint32_t. *)
Definition or_shl1 (mask n : Z) : result Z :=
  if bool_decide (0 ≤ n < 32) then Ok (Z.lor mask (Z.shiftl 1 n)) else Err UndefinedBehaviour.

(** The loop shared by the two shuffles: bit [pos] of the layout sets bit
    [target pos] of the mask. A uint32_t is zero after at most 32 right shifts. *)
Fixpoint shuffle_loop (fuel : nat) (target : Z → result Z) (layout pos mask : Z) : result Z :=
  match fuel with
  | O => Ok mask
  | S fuel =>
      if 0 <? layout then
        mask ← (if negb (Z.land layout 1 =? 0)
                then position ← target pos; or_shl1 mask position
                else Ok mask);
        shuffle_loop fuel target (Z.shiftr layout 1) (pos + 1) mask
      else Ok mask
  end.

Definition shuffle_tensix_harvesting_mask (arch : ARCH) (physical_layout : Z) : result Z :=
  harvesting_locations ← get_harvesting_noc_locations arch;
  let sorted_harvesting_locations := merge_sort Z.le harvesting_locations in
  shuffle_loop 32 (λ pos,
    location ← vec_idx harvesting_locations pos;
    Ok (find_index location sorted_harvesting_locations)) physical_layout 0 0.

Definition shuffle_tensix_harvesting_mask_to_noc0_coords (arch : ARCH) (logical_layout : Z)
    : result Z :=
  harvesting_locations ← get_harvesting_noc_locations arch;
  let sorted_harvesting_locations := merge_sort Z.le harvesting_locations in
  shuffle_loop 32 (λ pos, vec_idx sorted_harvesting_locations pos) logical_layout 0 0.

Definition shuffle_l2cpu_harvesting_mask (arch : ARCH) (enabled : Z) : result Z :=
  if decide (arch = BLACKHOLE) then
    let disabled_bit b := negb (Z.land (u32 (Z.lnot enabled)) b =? 0) in
    Ok (Z.lor (Z.lor (Z.lor
          (if disabled_bit 1 then Z.shiftl 1 0 else 0)
          (if disabled_bit 2 then Z.shiftl 1 3 else 0))
          (if disabled_bit 4 then Z.shiftl 1 1 else 0))
          (if disabled_bit 8 then Z.shiftl 1 2 else 0))
  else throw "L2CPU cores currently only present in Blackhole.".

(** ** What the loops compute *)

Lemma land_1_bit0 z : Z.land z 1 = if Z.testbit z 0 then 1 else 0.
Proof.
  change 1 with (Z.ones 1) at 1. rewrite Z.land_ones, Z.pow_1_r by lia.
  rewrite <- Z.bit0_mod. by destruct (Z.testbit z 0).
Qed.

Lemma seqZ_0_cons n : 0 ≤ n → seqZ 0 (n + 1) = 0 :: map (Z.add 1) (seqZ 0 n).
Proof.
  intros. rewrite seqZ_cons by lia.
  replace (Z.pred (n + 1)) with n by lia. f_equal.
  change (map (Z.add 1) (seqZ 0 n)) with (Z.add 1 <$> seqZ 0 n).
  by rewrite fmap_add_seqZ.
Qed.

Lemma filter_map_shift (mask : Z) (l : list Z) :
  Forall (λ i, 0 ≤ i) l →
  List.filter (Z.testbit mask) (map (Z.add 1) l) =
  map (Z.add 1) (List.filter (Z.testbit (Z.shiftr mask 1)) l).
Proof.
  induction 1 as [|i l Hi Hl IH]; [done|]; simpl.
  rewrite IH, Z.shiftr_spec, (Z.add_comm i 1) by done. by destruct (Z.testbit mask (1 + i)).
Qed.

Lemma seqZ_nonneg m n : 0 ≤ m → Forall (λ i, 0 ≤ i) (seqZ m n).
Proof. intros. apply Forall_forall. intros i Hi. apply list_elem_of_In, elem_of_seqZ in Hi. lia. Qed.

Lemma shiftr1_bound (z : Z) (n : nat) :
  0 ≤ z < 2 ^ Z.of_nat (S n) → 0 ≤ Z.shiftr z 1 < 2 ^ Z.of_nat n.
Proof.
  rewrite Nat2Z.inj_succ, Z.pow_succ_r by lia. rewrite Z.shiftr_div_pow2, Z.pow_1_r by lia.
  intros. split; [apply Z.div_pos; lia|apply Z.div_lt_upper_bound; lia].
Qed.

Lemma get_harvested_indices_loop_spec fuel mask index indices :
  0 ≤ mask < 2 ^ Z.of_nat fuel →
  get_harvested_indices_loop fuel mask index indices =
  indices ++ map (Z.add index) (List.filter (Z.testbit mask) (seqZ 0 (Z.of_nat fuel))).
Proof.
  revert mask index indices. induction fuel as [|fuel IH]; intros mask index indices Hm.
  { simpl. by rewrite app_nil_r. }
  cbn [get_harvested_indices_loop]. destruct (Z.ltb_spec 0 mask) as [Hpos|Hz].
  - rewrite IH by (by apply shiftr1_bound).
    rewrite (Nat2Z.inj_succ fuel), <- Z.add_1_r, seqZ_0_cons by lia.
    cbn [List.filter]. rewrite filter_map_shift by (by apply seqZ_nonneg).
    rewrite land_1_bit0. rewrite <- (map_ext (λ i, Z.add index (Z.add 1 i))) by (intros; lia).
    rewrite <- (map_map (Z.add 1) (Z.add index)).
    destruct (Z.testbit mask 0); simpl; [|done]. by rewrite <- app_assoc, Z.add_0_r.
  - replace mask with 0 by lia.
    assert (∀ l, List.filter (Z.testbit 0) l = []) as ->.
    { induction l as [|i l IHl]; [done|]; simpl. by rewrite Z.bits_0. }
    simpl. by rewrite app_nil_r.
Qed.

Lemma get_num_harvested_loop_indices fuel mask index indices n :
  get_num_harvested_loop fuel mask (vec_size indices + n) =
  vec_size (get_harvested_indices_loop fuel mask index indices) + n.
Proof.
  revert mask index indices n. induction fuel as [|fuel IH]; intros mask index indices n; [done|].
  cbn [get_num_harvested_loop get_harvested_indices_loop]. destruct (0 <? mask); [|done].
  rewrite <- (IH _ (index + 1)). f_equal. rewrite land_1_bit0.
  destruct (Z.testbit mask 0); simpl; rewrite ?vec_size_app; unfold vec_size; simpl; lia.
Qed.

Lemma get_num_harvested_length mask :
  get_num_harvested mask = vec_size (get_harvested_indices mask).
Proof.
  pose proof (get_num_harvested_loop_indices 64 mask 0 [] 0) as H.
  change (vec_size [] + 0) with 0 in H. rewrite Z.add_0_r in H. exact H.
Qed.

(** [get_harvested_indices] lists the set bits of a size_t in increasing order. *)
Lemma get_harvested_indices_spec mask :
  0 ≤ mask < 2 ^ 64 →
  get_harvested_indices mask = List.filter (Z.testbit mask) (seqZ 0 64).
Proof.
  intros. unfold get_harvested_indices. rewrite get_harvested_indices_loop_spec by done.
  rewrite app_nil_l, (map_ext (Z.add 0) id) by (intros; apply Z.add_0_l). apply map_id.
Qed.

Lemma testbit_bound mask n i : 0 ≤ mask < 2 ^ n → Z.testbit mask i = true → 0 ≤ n → 0 ≤ i < n.
Proof.
  intros Hm Hi Hn. destruct (decide (0 ≤ i)); [|rewrite Z.testbit_neg_r in Hi by lia; done].
  split; [done|]. destruct (decide (i < n)) as [|Hge]; [done|]. exfalso.
  rewrite <- (Z.mod_small mask (2 ^ n)), Z.mod_pow2_bits_high in Hi by lia. done.
Qed.

Lemma elem_of_harvested mask i :
  0 ≤ mask < 2 ^ 64 → i ∈ get_harvested_indices mask ↔ Z.testbit mask i = true.
Proof.
  intros Hm. rewrite get_harvested_indices_spec by done.
  rewrite list_elem_of_In, List.filter_In, <- list_elem_of_In, elem_of_seqZ.
  split; [by intros []|]. intros Hi. split; [|done].
  pose proof (testbit_bound mask 64 i Hm Hi). lia.
Qed.

(** The number of harvested units is the rank of the mask at any width that holds it. *)
Lemma get_num_harvested_rank mask n :
  0 ≤ n ≤ 64 → 0 ≤ mask < 2 ^ n → get_num_harvested mask = rank (Z.testbit mask) n.
Proof.
  intros Hn Hm. assert (0 ≤ mask < 2 ^ 64).
  { split; [lia|]. pose proof (Z.pow_le_mono_r 2 n 64). lia. }
  rewrite get_num_harvested_length, get_harvested_indices_spec by done.
  rewrite rank_fold.
  apply rank_stable; [lia|]. intros i Hi. destruct (Z.testbit mask i) eqn:E; [|done].
  pose proof (testbit_bound mask n i Hm E). lia.
Qed.

(** ** What the shuffles compute *)

Lemma or_shl1_spec mask n :
  0 ≤ n < 32 →
  ∃ m, or_shl1 mask n = Ok m ∧ ∀ j, 0 ≤ j → Z.testbit m j = Z.testbit mask j || (n =? j).
Proof.
  intros Hn. exists (Z.lor mask (Z.shiftl 1 n)). unfold or_shl1.
  rewrite bool_decide_eq_true_2 by done. split; [done|]. intros j Hj.
  by rewrite Z.lor_spec, Z.shiftl_1_l, Z.pow2_bits_eqb by lia.
Qed.

Lemma testbit_shiftr1 z i : 0 ≤ i → Z.testbit (Z.shiftr z 1) i = Z.testbit z (i + 1).
Proof. intros. by rewrite Z.shiftr_spec. Qed.

(** The loop sets exactly the targets of the set bits. *)
Lemma shuffle_loop_spec fuel (target : Z → result Z) (t : Z → Z) layout pos mask :
  0 ≤ layout < 2 ^ Z.of_nat fuel →
  (∀ i, 0 ≤ i → Z.testbit layout i = true → target (pos + i) = Ok (t (pos + i)) ∧ 0 ≤ t (pos + i) < 32) →
  ∃ m, shuffle_loop fuel target layout pos mask = Ok m ∧
       ∀ j, 0 ≤ j → (Z.testbit m j = true ↔
         Z.testbit mask j = true ∨ ∃ i, 0 ≤ i ∧ Z.testbit layout i = true ∧ t (pos + i) = j).
Proof.
  revert layout pos mask. induction fuel as [|fuel IH]; intros layout pos mask Hl Ht.
  { exists mask. split; [done|]. intros j Hj. split; [by left|]. intros [|(i & Hi & Hb & _)]; [done|].
    replace layout with 0 in Hb by (simpl in Hl; lia). by rewrite Z.bits_0 in Hb. }
  cbn [shuffle_loop]. destruct (Z.ltb_spec 0 layout) as [Hpos|Hz]; cycle 1.
  { exists mask. split; [done|]. intros j Hj. split; [by left|]. intros [|(i & Hi & Hb & _)]; [done|].
    replace layout with 0 in Hb by lia. by rewrite Z.bits_0 in Hb. }
  rewrite land_1_bit0.
  assert (∃ m1, (if negb ((if Z.testbit layout 0 then 1 else 0) =? 0)
                 then position ← target pos; or_shl1 mask position else Ok mask) = Ok m1 ∧
          ∀ j, 0 ≤ j → Z.testbit m1 j = Z.testbit mask j || (Z.testbit layout 0 && (t pos =? j)))
    as (m1 & -> & Hm1).
  { destruct (Z.testbit layout 0) eqn:E0; simpl.
    - destruct (Ht 0 ltac:(lia) E0) as [Htp Hb]. rewrite Z.add_0_r in Htp, Hb. rewrite Htp; simpl.
      by apply or_shl1_spec.
    - exists mask. split; [done|]. intros. by rewrite orb_false_r. }
  simpl. destruct (IH (Z.shiftr layout 1) (pos + 1) m1) as (m & Hm & Hspec).
  { by apply shiftr1_bound. }
  { intros i Hi. rewrite testbit_shiftr1 by done. intros Hb.
    rewrite <- Z.add_assoc, (Z.add_comm 1). apply Ht; [lia|done]. }
  exists m. split; [done|]. intros j Hj. rewrite Hspec, Hm1, orb_true_iff, andb_true_iff, Z.eqb_eq by done.
  split.
  - intros [[|[Hb Hp]]|(i & Hi & Hb & Hp)]; [by left| |]; right.
    + exists 0. by rewrite Z.add_0_r.
    + exists (i + 1). rewrite testbit_shiftr1 in Hb by done. split; [lia|].
      split; [done|]. rewrite <- Hp. f_equal. lia.
  - intros [|(i & Hi & Hb & Hp)]; [by left; left|]. destruct (decide (i = 0)) as [->|].
    + left; right. by rewrite Z.add_0_r in Hp.
    + right. exists (i - 1). rewrite testbit_shiftr1 by lia. rewrite Z.sub_add.
      split; [lia|]. split; [done|]. rewrite <- Hp. f_equal. lia.
Qed.

(** A set bit whose target read is out of bounds. *)
Lemma shuffle_loop_error fuel (target : Z → result Z) layout pos mask i :
  0 ≤ layout < 2 ^ Z.of_nat fuel → 0 ≤ i → Z.testbit layout i = true →
  target (pos + i) = Err UndefinedBehaviour →
  (∀ j, 0 ≤ j → target (pos + j) = Err UndefinedBehaviour ∨ is_Ok (target (pos + j))) →
  shuffle_loop fuel target layout pos mask = Err UndefinedBehaviour.
Proof.
  revert layout pos mask i. induction fuel as [|fuel IH]; intros layout pos mask i Hl Hi Hb Ht Hall.
  { replace layout with 0 in Hb by (simpl in Hl; lia). by rewrite Z.bits_0 in Hb. }
  cbn [shuffle_loop]. destruct (Z.ltb_spec 0 layout) as [Hpos|Hz]; cycle 1.
  { replace layout with 0 in Hb by lia. by rewrite Z.bits_0 in Hb. }
  assert (∀ m, i ≠ 0 → shuffle_loop fuel target (Z.shiftr layout 1) (pos + 1) m = Err UndefinedBehaviour)
    as Hrest.
  { intros m Hne. apply (IH _ _ _ (i - 1)); [by apply shiftr1_bound|lia| | |].
    - rewrite testbit_shiftr1 by lia. by rewrite Z.sub_add.
    - rewrite <- Ht. f_equal. lia.
    - intros j Hj. rewrite <- Z.add_assoc. apply Hall. lia. }
  rewrite land_1_bit0. destruct (Z.testbit layout 0) eqn:E0; simpl.
  - pose proof (Hall 0 ltac:(lia)) as H0. rewrite Z.add_0_r in H0. destruct H0 as [->|[z Hz]]; [done|].
    rewrite Hz; simpl. destruct (decide (i = 0)) as [->|Hne].
    { rewrite Z.add_0_r in Ht. congruence. }
    unfold or_shl1. case_bool_decide; [by apply Hrest|done].
  - apply Hrest. intros ->. congruence.
Qed.

Lemma find_index_spec v l :
  v ∈ l → 0 ≤ find_index v l < vec_size l ∧ l !! Z.to_nat (find_index v l) = Some v.
Proof.
  unfold vec_size. induction l as [|a l IH]; simpl; intros Hv; [by apply not_elem_of_nil in Hv|].
  destruct (decide (a = v)) as [->|]; [split; [lia|done]|].
  apply elem_of_cons in Hv as [|Hv]; [congruence|].
  destruct (IH Hv) as [Hb Hl]. split; [lia|].
  by replace (Z.to_nat (1 + find_index v l)) with (S (Z.to_nat (find_index v l))) by lia.
Qed.

Lemma NoDup_get_harvested_indices mask : 0 ≤ mask < 2 ^ 64 → NoDup (get_harvested_indices mask).
Proof.
  intros. rewrite get_harvested_indices_spec by done. apply NoDup_ListNoDup.
  apply List.NoDup_filter, NoDup_ListNoDup, NoDup_seqZ.
Qed.

(** A bijection between the set bits of two masks preserves their number. *)
Lemma get_num_harvested_bij (a b : Z) (t : Z → Z) :
  0 ≤ a < 2 ^ 64 → 0 ≤ b < 2 ^ 64 →
  (∀ i i', Z.testbit a i = true → Z.testbit a i' = true → t i = t i' → i = i') →
  (∀ j, Z.testbit b j = true ↔ ∃ i, Z.testbit a i = true ∧ t i = j) →
  get_num_harvested b = get_num_harvested a.
Proof.
  intros Ha Hb Hinj Himg. rewrite !get_num_harvested_length. unfold vec_size.
  assert (get_harvested_indices b ≡ₚ t <$> get_harvested_indices a) as ->.
  { apply NoDup_Permutation; [by apply NoDup_get_harvested_indices| |].
    - apply NoDup_fmap_2_strong; [|by apply NoDup_get_harvested_indices].
      intros i i'. rewrite !elem_of_harvested by done. apply Hinj.
    - intros j. rewrite elem_of_harvested, Himg, list_elem_of_fmap by done.
      split; intros (i & Hi & Hj); exists i.
      + by rewrite elem_of_harvested.
      + rewrite elem_of_harvested in Hj by done. done. }
  by rewrite length_fmap.
Qed.

Lemma harvesting_noc_locations_wf arch locations :
  get_harvesting_noc_locations arch = Ok locations →
  NoDup locations ∧ Forall (λ x, 0 ≤ x < 32) locations ∧ vec_size locations ≤ 32.
Proof.
  destruct arch; intros [= <-]; (split; [|split]); [apply (bool_decide_unpack _); by vm_compute..].
Qed.

(** In a sorted list without repetitions an element is where the number of smaller ones says. *)
Lemma sorted_position s p (x : Z) :
  StronglySorted Z.le s → NoDup s → s !! p = Some x → length (filter (λ l, l < x) s) = p.
Proof.
  intros Hs. revert p. induction Hs as [|a s Hs IH Ha]; intros p Hnd Hp; [done|]. apply list.NoDup_cons in Hnd as [Hn Hnd].
  destruct p as [|p]; cbn in Hp.
  - injection Hp as ->. rewrite filter_cons_False by lia. destruct (filter _ s) as [|b l] eqn:E; [done|].
    assert (b ∈ filter (λ l, l < x) s) as [Hb Hin]%list_elem_of_filter by (rewrite E; left).
    rewrite list.Forall_forall in Ha. specialize (Ha b Hin). lia.
  - pose proof (list_elem_of_lookup_2 _ _ _ Hp) as Hin. rewrite list.Forall_forall in Ha. pose proof (Ha x Hin).
    assert (a ≠ x) by (by intros ->). rewrite filter_cons_True by lia. cbn. f_equal. by apply IH.
Qed.

Section shuffle.
Context (locations : list Z).
Context (Hnodup : NoDup locations).
Context (Hrange : Forall (λ x, 0 ≤ x < 32) locations).
Context (Hsize : vec_size locations ≤ 32).
Abbreviation sorted := (merge_sort Z.le locations).
Abbreviation n := (vec_size locations).

(** Where the shuffle sends bit [pos]. *)
Definition shuffle_position (pos : Z) : Z :=
  match locations !! Z.to_nat pos with Some l => find_index l sorted | None => 0 end.

Lemma sorted_size : vec_size sorted = n.
Proof. unfold vec_size. by rewrite (merge_sort_Permutation Z.le locations). Qed.

Lemma shuffle_position_spec pos :
  0 ≤ pos < n →
  ∃ l, locations !! Z.to_nat pos = Some l ∧ find_index l sorted = shuffle_position pos ∧
       0 ≤ shuffle_position pos < n ∧ sorted !! Z.to_nat (shuffle_position pos) = Some l.
Proof.
  intros Hi. destruct (vec_lookup _ _ Hi) as [l Hl]. exists l. unfold shuffle_position. rewrite Hl.
  destruct (find_index_spec l sorted) as [Hb Hat].
  { rewrite merge_sort_Permutation. by eapply list_elem_of_lookup_2. }
  rewrite sorted_size in Hb. auto.
Qed.

Lemma shuffle_position_inj i j :
  0 ≤ i < n → 0 ≤ j < n → shuffle_position i = shuffle_position j → i = j.
Proof.
  intros Hi Hj E. destruct (shuffle_position_spec i Hi) as (l & Hl & _ & _ & Hat).
  destruct (shuffle_position_spec j Hj) as (l' & Hl' & _ & _ & Hat').
  rewrite E in Hat. assert (l = l') as <- by congruence.
  pose proof (NoDup_lookup _ _ _ _ Hnodup Hl Hl'). lia.
Qed.

Lemma layout_bit_bound layout i : 0 ≤ layout < 2 ^ n → Z.testbit layout i = true → 0 ≤ i < n.
Proof. intros Hl Hb. apply (testbit_bound layout); [done|done|unfold vec_size; lia]. Qed.

Lemma layout_32 layout : 0 ≤ layout < 2 ^ n → 0 ≤ layout < 2 ^ Z.of_nat 32.
Proof. pose proof (Z.pow_le_mono_r 2 n (Z.of_nat 32)). change (Z.of_nat 32) with 32 in *. lia. Qed.

Lemma shuffle_mask_spec physical :
  0 ≤ physical < 2 ^ n →
  ∃ mask, shuffle_loop 32 (λ pos, location ← vec_idx locations pos;
            Ok (find_index location sorted)) physical 0 0 = Ok mask ∧
    0 ≤ mask < 2 ^ n ∧
    ∀ j, Z.testbit mask j = true ↔ ∃ i, Z.testbit physical i = true ∧ shuffle_position i = j.
Proof.
  intros Hp. destruct (shuffle_loop_spec 32 (λ pos, location ← vec_idx locations pos;
    Ok (find_index location sorted)) shuffle_position physical 0 0) as (mask & Hm & Hbits).
  { by apply layout_32. }
  { intros i _ Hb. apply layout_bit_bound in Hb; [|done]. rewrite Z.add_0_l.
    destruct (shuffle_position_spec i Hb) as (l & Hl & E & Hr & _).
    rewrite (vec_idx_Some _ _ _ Hl); simpl. rewrite E. split; [done|lia]. }
  assert (Hiff : ∀ j, Z.testbit mask j = true ↔
    ∃ i, Z.testbit physical i = true ∧ shuffle_position i = j).
  { intros j. destruct (decide (0 ≤ j)) as [Hj|Hj].
    - rewrite Hbits, Z.bits_0 by done. setoid_rewrite Z.add_0_l. split.
      + intros [|(i & _ & ?)]; [done|by exists i].
      + intros (i & Hb & E). right. exists i. by pose proof (layout_bit_bound _ _ Hp Hb) as [? _].
    - rewrite Z.testbit_neg_r by lia. split; [done|]. intros (i & Hb & E).
      destruct (shuffle_position_spec i (layout_bit_bound _ _ Hp Hb)) as (? & ? & ? & ? & ?). lia. }
  exists mask. split; [done|]. split; [|done].
  apply bits_bound; [unfold vec_size; lia|]. intros j Hj. destruct (Z.testbit mask j) eqn:E; [|done].
  apply Hiff in E as (i & Hb & E).
  destruct (shuffle_position_spec i (layout_bit_bound _ _ Hp Hb)) as (? & ? & ? & ? & ?). lia.
Qed.

(** The position is the number of locations below. *)
Definition below (x : Z) : Z := Z.of_nat (length (filter (λ l, l < x) locations)).
Lemma shuffle_position_below i x : 0 ≤ i < n → locations !! Z.to_nat i = Some x → shuffle_position i = below x.
Proof.
  intros Hi Hx. destruct (shuffle_position_spec i Hi) as (l & Hl & _ & Hp & Hs). rewrite Hl in Hx. injection Hx as ->.
  apply sorted_position in Hs.
  - unfold below. rewrite <- (merge_sort_Permutation Z.le locations). lia.
  - apply (StronglySorted_merge_sort Z.le).
  - by rewrite merge_sort_Permutation.
Qed.

Lemma shuffle_noc0_spec mask :
  0 ≤ mask < 2 ^ n →
  ∃ noc0, shuffle_loop 32 (λ pos, vec_idx sorted pos) mask 0 0 = Ok noc0 ∧
    ∀ x, 0 ≤ x → (Z.testbit noc0 x = true ↔
      ∃ i, Z.testbit mask i = true ∧ sorted !! Z.to_nat i = Some x).
Proof.
  intros Hp. set (t i := default 0 (sorted !! Z.to_nat i)).
  assert (Ht : ∀ i, 0 ≤ i < n → sorted !! Z.to_nat i = Some (t i) ∧ 0 ≤ t i < 32).
  { intros i Hi. rewrite <- sorted_size in Hi. destruct (vec_lookup _ _ Hi) as [l Hl].
    unfold t. rewrite Hl; simpl. split; [done|].
    assert (l ∈ locations) as Hin.
    { rewrite <- (merge_sort_Permutation Z.le). by eapply list_elem_of_lookup_2. }
    rewrite List.Forall_forall in Hrange. apply Hrange. by apply list_elem_of_In. }
  destruct (shuffle_loop_spec 32 (λ pos, vec_idx sorted pos) t mask 0 0) as (noc0 & Hm & Hbits).
  { by apply layout_32. }
  { intros i _ Hb. apply layout_bit_bound in Hb; [|done]. rewrite Z.add_0_l.
    destruct (Ht i Hb) as [Hl ?]. by rewrite (vec_idx_Some _ _ _ Hl). }
  exists noc0. split; [done|]. intros x Hx. rewrite Hbits, Z.bits_0 by done.
  setoid_rewrite Z.add_0_l. split.
  - intros [|(i & _ & Hb & <-)]; [done|]. exists i. split; [done|].
    apply Ht. by eapply layout_bit_bound.
  - intros (i & Hb & Hl). right. exists i.
    pose proof (layout_bit_bound _ _ Hp Hb) as [? ?]. unfold t. by rewrite Hl.
Qed.
End shuffle.

(** C36: [shuffle_tensix_harvesting_mask] turns a physical layout into a mask over
    the positions that the NOC locations have in ascending order, and
    [shuffle_tensix_harvesting_mask_to_noc0_coords] turns that mask into one over
    NOC0 coordinates: both return for every layout the architecture has rows
    (columns) for; bit [j] of the mask is set exactly when a harvested unit is at
    a location that has [j] smaller ones; the number of harvested units is
    preserved, and NOC0 coordinate [x] ends up set exactly when the physical
    bit of [x]'s location was. *)
Theorem tensix_shuffle_correct arch locations physical :
  get_harvesting_noc_locations arch = Ok locations →
  0 ≤ physical < 2 ^ vec_size locations →
  ∃ mask noc0,
    shuffle_tensix_harvesting_mask arch physical = Ok mask ∧
    0 ≤ mask < 2 ^ vec_size locations ∧
    (∀ j, Z.testbit mask j = true ↔
       ∃ pos x, Z.testbit physical pos = true ∧ locations !! Z.to_nat pos = Some x ∧ below locations x = j) ∧
    get_num_harvested mask = get_num_harvested physical ∧
    shuffle_tensix_harvesting_mask_to_noc0_coords arch mask = Ok noc0 ∧
    (∀ x, 0 ≤ x → (Z.testbit noc0 x = true ↔
       ∃ pos, Z.testbit physical pos = true ∧ locations !! Z.to_nat pos = Some x)).
Proof.
  intros Harch Hp. destruct (harvesting_noc_locations_wf _ _ Harch) as (Hnd & Hrng & Hlen).
  unfold shuffle_tensix_harvesting_mask, shuffle_tensix_harvesting_mask_to_noc0_coords.
  rewrite Harch; cbn [mbind result_bind].
  destruct (shuffle_mask_spec _ Hlen _ Hp) as (mask & -> & Hm & Hbits).
  destruct (shuffle_noc0_spec _ Hrng Hlen _ Hm) as (noc0 & Hnoc0 & Hx).
  exists mask, noc0. split; [done|]. split; [done|]. split; [|split; [|split; [done|]]].
  - intros j. rewrite Hbits. split.
    + intros (i & Hb & <-). pose proof (layout_bit_bound _ _ _ Hp Hb) as Hi.
      destruct (shuffle_position_spec _ i Hi) as (l & Hl & _). exists i, l. split; [done|]. split; [done|].
      symmetry. by apply shuffle_position_below.
    + intros (i & x & Hb & Hl & <-). exists i. split; [done|]. apply shuffle_position_below; [done| |done].
      by apply (layout_bit_bound _ physical).
  - pose proof (layout_32 _ Hlen _ Hp). pose proof (layout_32 _ Hlen _ Hm).
    apply (get_num_harvested_bij _ _ (shuffle_position locations)); [lia|lia| |done].
    intros i j Hi Hj. apply (shuffle_position_inj _ Hnd); by apply (layout_bit_bound _ physical).
  - intros x Hxn. rewrite Hx by done. setoid_rewrite Hbits. split.
    + intros (_ & (i & Hb & <-) & Hs). exists i. split; [done|].
      destruct (shuffle_position_spec _ i (layout_bit_bound _ _ _ Hp Hb)) as (l & ? & _ & _ & ?). congruence.
    + intros (i & Hb & Hl). exists (shuffle_position locations i). split; [eauto|].
      destruct (shuffle_position_spec _ i (layout_bit_bound _ _ _ Hp Hb)) as (l & ? & _ & _ & ?). congruence.
Qed.

Lemma tensix_shuffle_correct_witness :
  ∃ mask noc0, shuffle_tensix_harvesting_mask WORMHOLE_B0 5 = Ok mask ∧
    0 ≤ mask < 2 ^ vec_size wormhole.HARVESTING_NOC_LOCATIONS ∧
    (∀ j, Z.testbit mask j = true ↔ ∃ pos x, Z.testbit 5 pos = true ∧
       wormhole.HARVESTING_NOC_LOCATIONS !! Z.to_nat pos = Some x ∧ below wormhole.HARVESTING_NOC_LOCATIONS x = j) ∧
    get_num_harvested mask = get_num_harvested 5 ∧
    shuffle_tensix_harvesting_mask_to_noc0_coords WORMHOLE_B0 mask = Ok noc0 ∧
    (∀ x, 0 ≤ x → (Z.testbit noc0 x = true ↔ ∃ pos, Z.testbit 5 pos = true ∧
       wormhole.HARVESTING_NOC_LOCATIONS !! Z.to_nat pos = Some x)).
Proof.
  apply (tensix_shuffle_correct WORMHOLE_B0 wormhole.HARVESTING_NOC_LOCATIONS 5);
    [reflexivity|vm_compute; split; [discriminate|reflexivity]].
Defined.
