(* ===== verification/CoordinateManager.v ===== *)
(** * CoordinateManager: the base class

    Models [coordinates/coordinate_manager.cpp]: the state (three maps plus the
    layout it was built from), the operations that fill the maps, the
    translation API and the core queries. The virtual methods are a record of
    operations ([VirtualOps]); a derived class supplies the ones it overrides. *)

From Stdlib Require Import ZArith Lia.
From stdpp Require Import base gmap list list_numbers sorting strings numbers.
From S2P Require Import Prelude CoreTypes ArchData Harvesting.

Local Open Scope Z_scope.

(** ** State *)

(** The three std::maps. *)
Record TranslationMaps := MkMaps {
  to_noc0_map : gmap CoreCoord xy_pair;
  from_noc0_map : gmap (xy_pair * CoordSystem) CoreCoord;
  to_core_type_map : gmap (xy_pair * CoordSystem) CoreCoord;
}.
Definition empty_maps : TranslationMaps := MkMaps ∅ ∅ ∅.

(** The constructor arguments. *)
Record Layout := MkLayout {
  tensix_grid_size : xy_pair;
  tensix_cores : list xy_pair;
  dram_grid_size : xy_pair;
  dram_cores : list xy_pair;
  eth_cores : list xy_pair;
  arc_grid_size : xy_pair;
  arc_cores : list xy_pair;
  pcie_grid_size : xy_pair;
  pcie_cores : list xy_pair;
  router_cores : list xy_pair;
  security_cores : list xy_pair;
  l2cpu_cores : list xy_pair;
  dispatch_cores : list xy_pair;
  noc0_x_to_noc1_x : list Z;
  noc0_y_to_noc1_y : list Z;
}.

Record CoordinateManager := MkCM {
  maps : TranslationMaps;
  noc_translation_enabled : bool;
  harvesting_masks : HarvestingMasks;
  layout : Layout;
}.

(** [num_eth_channels(eth_cores.size())]. *)
Definition num_eth_channels (cm : CoordinateManager) : Z := vec_size (eth_cores (layout cm)).

Definition set_maps (cm : CoordinateManager) (m : TranslationMaps) : CoordinateManager :=
  MkCM m (noc_translation_enabled cm) (harvesting_masks cm) (layout cm).

(** [harvesting_masks.tensix_harvesting_mask = mask]. *)
Definition set_tensix_mask (cm : CoordinateManager) (mask : Z) : CoordinateManager :=
  let h := harvesting_masks cm in
  MkCM (maps cm) (noc_translation_enabled cm)
    (MkMasks mask (dram_harvesting_mask h) (eth_harvesting_mask h)
       (pcie_harvesting_mask h) (l2cpu_harvesting_mask h))
    (layout cm).

(** The constructor's initialiser list. *)
Definition CoordinateManager_ctor (noc_translation_enabled : bool)
    (harvesting_masks : HarvestingMasks) (layout : Layout) : CoordinateManager :=
  MkCM empty_maps noc_translation_enabled harvesting_masks layout.

(** ** Filling the maps *)

(** [add_core_translation]: three map inserts that keep existing entries. *)
Definition add_translation (core_coord : CoreCoord) (noc0_pair : xy_pair)
    (m : TranslationMaps) : TranslationMaps :=
  {| to_noc0_map := map_insert_new core_coord noc0_pair (to_noc0_map m);
     from_noc0_map :=
       map_insert_new (noc0_pair, coord_system core_coord) core_coord (from_noc0_map m);
     to_core_type_map :=
       if decide (coord_system core_coord = LOGICAL) then to_core_type_map m
       else map_insert_new (to_pair core_coord, coord_system core_coord) core_coord
              (to_core_type_map m) |}.
Definition add_core_translation (core_coord : CoreCoord) (noc0_pair : xy_pair)
    (cm : CoordinateManager) : CoordinateManager :=
  set_maps cm (add_translation core_coord noc0_pair (maps cm)).

(** [to_noc0_map[c]]: std::map's operator[] inserts a value-initialised pair
    (0, 0) for a key that is not there. *)
Definition to_noc0_subscript (c : CoreCoord) (cm : CoordinateManager)
    : xy_pair * CoordinateManager :=
  let m := maps cm in
  match to_noc0_map m !! c with
  | Some p => (p, cm)
  | None =>
      (XY 0 0, set_maps cm (MkMaps (<[c := XY 0 0]> (to_noc0_map m))
                              (from_noc0_map m) (to_core_type_map m)))
  end.

Definition cores_of (l : Layout) (t : CoreType) : list xy_pair :=
  match t with
  | TENSIX => tensix_cores l | DRAM => dram_cores l | ETH => eth_cores l
  | ARC => arc_cores l | PCIE => pcie_cores l | ROUTER_ONLY => router_cores l
  | SECURITY => security_cores l | L2CPU => l2cpu_cores l | DISPATCH => dispatch_cores l
  | _ => []
  end.

(** The core types a manager stores, in the order its member functions visit them. *)
Definition all_core_types : list CoreType :=
  [TENSIX; DRAM; ETH; ARC; PCIE; ROUTER_ONLY; SECURITY; L2CPU; DISPATCH].

(** One loop of [identity_map_noc0_cores] / [fill_*_default]: every core of a
    list translated to itself in a given system. *)
Definition identity_map (t : CoreType) (s : CoordSystem) (cores : list xy_pair)
    (cm : CoordinateManager) : CoordinateManager :=
  foldl (λ cm core, add_core_translation (CoreCoord_of_pair core t s) core cm) cm cores.

Definition identity_map_noc0_cores (cm : CoordinateManager) : CoordinateManager :=
  foldl (λ cm t, identity_map t NOC0 (cores_of (layout cm) t) cm) cm all_core_types.

(** The pure virtual fill_* methods: what a derived class maps TRANSLATED
    coordinates to when NOC translation is enabled. *)
Record FillOps := MkFillOps {
  fill_tensix_noc0_translated_mapping : CoordinateManager → result CoordinateManager;
  fill_dram_noc0_translated_mapping : CoordinateManager → result CoordinateManager;
  fill_eth_noc0_translated_mapping : CoordinateManager → result CoordinateManager;
  fill_pcie_noc0_translated_mapping : CoordinateManager → result CoordinateManager;
  fill_arc_noc0_translated_mapping : CoordinateManager → result CoordinateManager;
}.

Definition fill_tensix_default_noc0_translated_mapping (cm : CoordinateManager)
    : CoordinateManager :=
  identity_map TENSIX TRANSLATED (tensix_cores (layout cm)) cm.
Definition fill_eth_default_noc0_translated_mapping (cm : CoordinateManager)
    : result CoordinateManager :=
  for_each (seqZ 0 (num_eth_channels cm)) (λ eth_channel cm,
    noc0_pair ← vec_idx (eth_cores (layout cm)) eth_channel;
    Ok (add_core_translation (CoreCoord_of_pair noc0_pair ETH TRANSLATED) noc0_pair cm)) cm.
Definition fill_pcie_default_noc0_translated_mapping (cm : CoordinateManager)
    : CoordinateManager :=
  identity_map PCIE TRANSLATED (pcie_cores (layout cm)) cm.

(** The shape shared by [fill_dram_default_...] and [fill_arc_default_...]: for
    every logical coordinate of the grid, look its NOC0 pair up with operator[]
    and map the TRANSLATED coordinate to it. *)
Definition fill_grid_default (t : CoreType) (grid_size : xy_pair) (cm : CoordinateManager)
    : result CoordinateManager :=
  for_each (seqZ 0 (xy_x grid_size)) (λ x cm,
    for_each (seqZ 0 (xy_y grid_size)) (λ y cm,
      let '(noc0_pair, cm) := to_noc0_subscript (MkCoreCoord x y t LOGICAL) cm in
      Ok (add_core_translation (CoreCoord_of_pair noc0_pair t TRANSLATED) noc0_pair cm)) cm) cm.
Definition fill_dram_default_noc0_translated_mapping (cm : CoordinateManager)
    : result CoordinateManager :=
  fill_grid_default DRAM (dram_grid_size (layout cm)) cm.
Definition fill_arc_default_noc0_translated_mapping (cm : CoordinateManager)
    : result CoordinateManager :=
  fill_grid_default ARC (arc_grid_size (layout cm)) cm.

(** ** translate_*_coords of the base class *)

(** The reset at the top of [translate_tensix_coords] (and of Blackhole's):
    a mask with more bits than the grid has rows (columns) is dropped. *)
Definition drop_oversized_tensix_mask (limit : Z) (cm : CoordinateManager) : CoordinateManager :=
  if limit <? get_num_harvested (tensix_harvesting_mask (harvesting_masks cm))
  then set_tensix_mask cm 0 else cm.

Definition translate_tensix_coords (V : FillOps) (cm : CoordinateManager)
    : result CoordinateManager :=
  let cm := drop_oversized_tensix_mask (xy_y (tensix_grid_size (layout cm))) cm in
  let grid_size_x := xy_x (tensix_grid_size (layout cm)) in
  let grid_size_y := xy_y (tensix_grid_size (layout cm)) in
  s ← for_each (seqZ 0 grid_size_y) (λ y '(cm, logical_y),
        harvested ← test_mask (tensix_harvesting_mask (harvesting_masks cm)) y;
        if negb harvested then
          cm ← for_each (seqZ 0 grid_size_x) (λ x cm,
                 tensix_core ← vec_at (tensix_cores (layout cm)) (u64 (y * grid_size_x + x));
                 Ok (add_core_translation (MkCoreCoord x logical_y TENSIX LOGICAL)
                       tensix_core cm)) cm;
          Ok (cm, u64 (logical_y + 1))
        else Ok (cm, logical_y)) (cm, 0);
  if noc_translation_enabled s.1
  then fill_tensix_noc0_translated_mapping V s.1
  else Ok (fill_tensix_default_noc0_translated_mapping s.1).

(** The logical loops of [translate_dram_coords], [translate_arc_coords] and
    [translate_pcie_coords]. *)
Definition add_logical_grid (t : CoreType) (grid_size : xy_pair) (cores : list xy_pair)
    (cm : CoordinateManager) : result CoordinateManager :=
  for_each (seqZ 0 (xy_x grid_size)) (λ x cm,
    for_each (seqZ 0 (xy_y grid_size)) (λ y cm,
      core ← vec_idx cores (u64 (x * xy_y grid_size + y));
      Ok (add_core_translation (MkCoreCoord x y t LOGICAL) core cm)) cm) cm.

Definition translate_dram_coords (V : FillOps) (cm : CoordinateManager)
    : result CoordinateManager :=
  cm ← add_logical_grid DRAM (dram_grid_size (layout cm)) (dram_cores (layout cm)) cm;
  if noc_translation_enabled cm
  then fill_dram_noc0_translated_mapping V cm
  else fill_dram_default_noc0_translated_mapping cm.

Definition translate_eth_coords (V : FillOps) (cm : CoordinateManager)
    : result CoordinateManager :=
  cm ← for_each (seqZ 0 (vec_size (eth_cores (layout cm)))) (λ eth_channel cm,
         eth_core ← vec_idx (eth_cores (layout cm)) eth_channel;
         Ok (add_core_translation (MkCoreCoord 0 eth_channel ETH LOGICAL) eth_core cm)) cm;
  if noc_translation_enabled cm
  then fill_eth_noc0_translated_mapping V cm
  else fill_eth_default_noc0_translated_mapping cm.

Definition translate_arc_coords (V : FillOps) (cm : CoordinateManager)
    : result CoordinateManager :=
  cm ← add_logical_grid ARC (arc_grid_size (layout cm)) (arc_cores (layout cm)) cm;
  if noc_translation_enabled cm
  then fill_arc_noc0_translated_mapping V cm
  else fill_arc_default_noc0_translated_mapping cm.

Definition translate_pcie_coords (V : FillOps) (cm : CoordinateManager)
    : result CoordinateManager :=
  cm ← add_logical_grid PCIE (pcie_grid_size (layout cm)) (pcie_cores (layout cm)) cm;
  if noc_translation_enabled cm
  then fill_pcie_noc0_translated_mapping V cm
  else Ok (fill_pcie_default_noc0_translated_mapping cm).

Definition translate_router_coords (cm : CoordinateManager) : CoordinateManager :=
  identity_map ROUTER_ONLY TRANSLATED (router_cores (layout cm)) cm.
Definition translate_security_coords (cm : CoordinateManager) : CoordinateManager :=
  identity_map SECURITY TRANSLATED (security_cores (layout cm)) cm.
Definition translate_l2cpu_coords (cm : CoordinateManager) : CoordinateManager :=
  identity_map L2CPU TRANSLATED (l2cpu_cores (layout cm)) cm.
Definition translate_dispatch_coords (cm : CoordinateManager) : CoordinateManager :=
  identity_map DISPATCH TRANSLATED (dispatch_cores (layout cm)) cm.

(** [add_noc1_to_noc0_mapping]. *)
Definition map_noc0_to_noc1_cores (t : CoreType) (cm : CoordinateManager)
    : result CoordinateManager :=
  for_each (cores_of (layout cm) t) (λ core cm,
    noc1_x ← vec_at (noc0_x_to_noc1_x (layout cm)) (xy_x core);
    noc1_y ← vec_at (noc0_y_to_noc1_y (layout cm)) (xy_y core);
    Ok (add_core_translation (MkCoreCoord noc1_x noc1_y t NOC1) core cm)) cm.
Definition add_noc1_to_noc0_mapping (cm : CoordinateManager) : result CoordinateManager :=
  if (vec_size (noc0_x_to_noc1_x (layout cm)) =? 0)
     || (vec_size (noc0_y_to_noc1_y (layout cm)) =? 0)
  then Ok cm
  else for_each all_core_types map_noc0_to_noc1_cores cm.

(** The base class's constructor checks. *)
Definition assert_coordinate_manager_constructor (cm : CoordinateManager) : result unit :=
  if negb (dram_harvesting_mask (harvesting_masks cm) =? 0)
  then throw "DRAM harvesting is supported only for Blackhole."
  else if negb (eth_harvesting_mask (harvesting_masks cm) =? 0)
  then throw "ETH harvesting is supported only for Blackhole."
  else Ok tt.

(** ** The virtual interface and initialize() *)

Record VirtualOps := MkVirtualOps {
  v_assert : CoordinateManager → result unit;
  v_translate_tensix_coords : CoordinateManager → result CoordinateManager;
  v_translate_dram_coords : CoordinateManager → result CoordinateManager;
  v_translate_eth_coords : CoordinateManager → result CoordinateManager;
  v_translate_arc_coords : CoordinateManager → result CoordinateManager;
  v_translate_pcie_coords : CoordinateManager → result CoordinateManager;
  v_translate_router_coords : CoordinateManager → CoordinateManager;
  v_translate_security_coords : CoordinateManager → CoordinateManager;
  v_translate_l2cpu_coords : CoordinateManager → result CoordinateManager;
  v_translate_dispatch_coords : CoordinateManager → CoordinateManager;
  v_get_tensix_cores : CoordinateManager → result (list CoreCoord);
  v_get_harvested_tensix_cores : CoordinateManager → result (list CoreCoord);
  v_get_dram_cores : CoordinateManager → result (list CoreCoord);
  v_get_harvested_dram_cores : CoordinateManager → result (list CoreCoord);
  v_get_eth_cores : CoordinateManager → result (list CoreCoord);
  v_get_harvested_eth_cores : CoordinateManager → result (list CoreCoord);
  v_get_pcie_cores : CoordinateManager → result (list CoreCoord);
  v_get_harvested_pcie_cores : CoordinateManager → result (list CoreCoord);
  v_get_l2cpu_cores : CoordinateManager → result (list CoreCoord);
  v_get_dispatch_cores : CoordinateManager → result (list CoreCoord);
  v_get_tensix_grid_size : CoordinateManager → xy_pair;
  v_get_dram_grid_size : CoordinateManager → xy_pair;
  v_get_harvested_tensix_grid_size : CoordinateManager → xy_pair;
  v_get_harvested_dram_grid_size : CoordinateManager → xy_pair;
}.

Definition initialize (V : VirtualOps) (cm : CoordinateManager) : result CoordinateManager :=
  _ ← v_assert V cm;
  let cm := identity_map_noc0_cores cm in
  cm ← v_translate_tensix_coords V cm;
  cm ← v_translate_dram_coords V cm;
  cm ← v_translate_eth_coords V cm;
  cm ← v_translate_arc_coords V cm;
  cm ← v_translate_pcie_coords V cm;
  let cm := v_translate_router_coords V cm in
  let cm := v_translate_security_coords V cm in
  cm ← v_translate_l2cpu_coords V cm;
  let cm := v_translate_dispatch_coords V cm in
  add_noc1_to_noc0_mapping cm.

(** ** The translation API *)

(** [translate_coord_to(CoreCoord, CoordSystem)]. *)
Definition translate_coord_to (cm : CoordinateManager) (core_coord : CoreCoord)
    (target_coord_system : CoordSystem) : result CoreCoord :=
  if decide (coord_system core_coord = LITERAL)
  then throw "Cannot translate from LITERAL coord system."
  else if decide (target_coord_system = LITERAL)
  then throw "Cannot translate to LITERAL coord system."
  else match to_noc0_map (maps cm) !! core_coord with
  | None => throw "No core coordinate found at location"
  | Some noc0_coord =>
      match from_noc0_map (maps cm) !! (noc0_coord, target_coord_system) with
      | None => throw "No core coordinate found for system"
      | Some coord => Ok coord
      end
  end.

(** [get_coord_at]. *)
Definition get_coord_at (cm : CoordinateManager) (core : xy_pair) (system : CoordSystem)
    : result CoreCoord :=
  if decide (system = LITERAL)
  then throw "LITERAL coords are not used in CoordinateManager."
  else if decide (system = LOGICAL)
  then throw "Coordinate is ambiguous for logical coordinate system."
  else match to_core_type_map (maps cm) !! (core, system) with
  | None => throw "No core type found for system"
  | Some coord => Ok coord
  end.

(** [translate_coord_to(tt_xy_pair, CoordSystem, CoordSystem)]. *)
Definition translate_pair_to (cm : CoordinateManager) (core : xy_pair)
    (input_coord_system target_coord_system : CoordSystem) : result CoreCoord :=
  if decide (input_coord_system = LITERAL)
  then throw "Cannot translate from LITERAL coord system."
  else if decide (target_coord_system = LITERAL) then Ok (CoreCoord_literal core)
  else core_coord ← get_coord_at cm core input_coord_system;
       translate_coord_to cm core_coord target_coord_system.

(** ** Core queries *)

(** [get_noc0_pairs] and [get_all_noc0_cores]. *)
Definition get_noc0_pairs (cm : CoordinateManager) (t : CoreType) : result (list xy_pair) :=
  match t with
  | TENSIX | DRAM | ETH | ARC | PCIE | ROUTER_ONLY | SECURITY | L2CPU | DISPATCH =>
      Ok (cores_of (layout cm) t)
  | _ => throw "Core type is not supported for getting NOC0 pairs."
  end.
Definition noc0_core (t : CoreType) (core : xy_pair) : CoreCoord :=
  CoreCoord_of_pair core t NOC0.
Definition get_all_noc0_cores (cm : CoordinateManager) (t : CoreType)
    : result (list CoreCoord) :=
  noc0_pairs ← get_noc0_pairs cm t; Ok (map (noc0_core t) noc0_pairs).

(** The double loop of [get_tensix_cores] / [get_harvested_tensix_cores] of the
    base class: the rows [y] for which [keep y], in row order. *)
Definition tensix_rows (cm : CoordinateManager) (keep : Z → bool) : result (list CoreCoord) :=
  let grid := tensix_grid_size (layout cm) in
  for_each (seqZ 0 (xy_y grid)) (λ y acc,
    if keep y then
      for_each (seqZ 0 (xy_x grid)) (λ x acc,
        core ← vec_idx (tensix_cores (layout cm)) (u64 (y * xy_x grid + x));
        Ok (acc ++ [noc0_core TENSIX core])) acc
    else Ok acc) [].
Definition get_tensix_cores (cm : CoordinateManager) : result (list CoreCoord) :=
  let harvested_y_coords :=
    get_harvested_indices (tensix_harvesting_mask (harvesting_masks cm)) in
  tensix_rows cm (λ y, bool_decide (y ∉ harvested_y_coords)).
Definition get_harvested_tensix_cores (cm : CoordinateManager) : result (list CoreCoord) :=
  let harvested_y_coords :=
    get_harvested_indices (tensix_harvesting_mask (harvesting_masks cm)) in
  tensix_rows cm (λ y, bool_decide (y ∈ harvested_y_coords)).
Definition get_dram_cores (cm : CoordinateManager) := get_all_noc0_cores cm DRAM.
Definition get_eth_cores (cm : CoordinateManager) := get_all_noc0_cores cm ETH.
Definition get_pcie_cores (cm : CoordinateManager) := get_all_noc0_cores cm PCIE.
Definition get_l2cpu_cores (cm : CoordinateManager) := get_all_noc0_cores cm L2CPU.
Definition get_dispatch_cores (cm : CoordinateManager) := get_all_noc0_cores cm DISPATCH.
(** [get_harvested_{dram,eth,pcie}_cores] of the base class: [return {};]. *)
Definition get_no_harvested_cores (cm : CoordinateManager) : result (list CoreCoord) := Ok [].

Definition get_cores (V : VirtualOps) (cm : CoordinateManager) (t : CoreType)
    : result (list CoreCoord) :=
  match t with
  | TENSIX => v_get_tensix_cores V cm
  | DRAM => v_get_dram_cores V cm
  | ETH => v_get_eth_cores V cm
  | PCIE => v_get_pcie_cores V cm
  | L2CPU => v_get_l2cpu_cores V cm
  | DISPATCH => v_get_dispatch_cores V cm
  | ARC | ROUTER_ONLY | SECURITY => get_all_noc0_cores cm t
  | _ => throw "Unsupported core type for get_cores()."
  end.

Definition get_harvested_cores (V : VirtualOps) (cm : CoordinateManager) (t : CoreType)
    : result (list CoreCoord) :=
  match t with
  | TENSIX => v_get_harvested_tensix_cores V cm
  | DRAM => v_get_harvested_dram_cores V cm
  | ETH => v_get_harvested_eth_cores V cm
  | PCIE => v_get_harvested_pcie_cores V cm
  | ARC | ROUTER_ONLY | SECURITY | L2CPU | DISPATCH => Ok []
  | _ => throw "Unsupported core type for get_harvested_cores()."
  end.

Definition get_dram_grid_size (cm : CoordinateManager) : xy_pair := dram_grid_size (layout cm).
(** [get_tensix_grid_size] of the row-harvested architectures. *)
Definition get_tensix_grid_size_rows (cm : CoordinateManager) : xy_pair :=
  let g := tensix_grid_size (layout cm) in
  XY (xy_x g) (u64 (xy_y g - get_num_harvested (tensix_harvesting_mask (harvesting_masks cm)))).
Definition get_harvested_tensix_grid_size (cm : CoordinateManager) : xy_pair :=
  XY (xy_x (tensix_grid_size (layout cm)))
     (get_num_harvested (tensix_harvesting_mask (harvesting_masks cm))).
Definition get_harvested_dram_grid_size (cm : CoordinateManager) : xy_pair := XY 0 0.

Definition get_grid_size (V : VirtualOps) (cm : CoordinateManager) (t : CoreType)
    : result xy_pair :=
  match t with
  | TENSIX => Ok (v_get_tensix_grid_size V cm)
  | DRAM => Ok (v_get_dram_grid_size V cm)
  | ARC => Ok (arc_grid_size (layout cm))
  | PCIE => Ok (pcie_grid_size (layout cm))
  | ETH | ROUTER_ONLY | SECURITY | L2CPU | DISPATCH => Ok (XY 0 0)
  | _ => throw "Unsupported core type for get_grid_size()."
  end.

Definition get_harvested_grid_size (V : VirtualOps) (cm : CoordinateManager) (t : CoreType)
    : result xy_pair :=
  match t with
  | TENSIX => Ok (v_get_harvested_tensix_grid_size V cm)
  | DRAM => Ok (v_get_harvested_dram_grid_size V cm)
  | ARC | PCIE | ETH | ROUTER_ONLY | SECURITY | L2CPU | DISPATCH => Ok (XY 0 0)
  | _ => throw "Unsupported core type for get_harvested_grid_size()."
  end.

(** [get_num_eth_channels] and [get_num_harvested_eth_channels] (uint32_t). *)
Definition get_num_eth_channels (cm : CoordinateManager) : Z :=
  u32 (num_eth_channels cm - get_num_harvested (eth_harvesting_mask (harvesting_masks cm))).
Definition get_num_harvested_eth_channels (cm : CoordinateManager) : Z :=
  u32 (get_num_harvested (eth_harvesting_mask (harvesting_masks cm))).
