(* ===== verification/RowHarvestManagers.v ===== *)
(** * WormholeCoordinateManager and QuasarCoordinateManager

    The derived classes that harvest Tensix rows: they keep the base class's
    loops and supply the [fill_*] methods
    ([coordinates/wormhole_coordinate_manager.cpp],
    [coordinates/quasar_coordinate_manager.cpp]). *)

From Stdlib Require Import ZArith Lia.
From stdpp Require Import base gmap list list_numbers numbers.
From S2P Require Import Prelude CoreTypes ArchData Harvesting CoordinateManager.

Local Open Scope Z_scope.

(** The base class's defaults, with the fills and grid size of a derived class. *)
Definition base_virtual_ops (F : FillOps) : VirtualOps :=
  {| v_assert := assert_coordinate_manager_constructor;
     v_translate_tensix_coords := translate_tensix_coords F;
     v_translate_dram_coords := translate_dram_coords F;
     v_translate_eth_coords := translate_eth_coords F;
     v_translate_arc_coords := translate_arc_coords F;
     v_translate_pcie_coords := translate_pcie_coords F;
     v_translate_router_coords := translate_router_coords;
     v_translate_security_coords := translate_security_coords;
     v_translate_l2cpu_coords := λ cm, Ok (translate_l2cpu_coords cm);
     v_translate_dispatch_coords := translate_dispatch_coords;
     v_get_tensix_cores := get_tensix_cores;
     v_get_harvested_tensix_cores := get_harvested_tensix_cores;
     v_get_dram_cores := get_dram_cores;
     v_get_harvested_dram_cores := get_no_harvested_cores;
     v_get_eth_cores := get_eth_cores;
     v_get_harvested_eth_cores := get_no_harvested_cores;
     v_get_pcie_cores := get_pcie_cores;
     v_get_harvested_pcie_cores := get_no_harvested_cores;
     v_get_l2cpu_cores := get_l2cpu_cores;
     v_get_dispatch_cores := get_dispatch_cores;
     v_get_tensix_grid_size := get_tensix_grid_size_rows;
     v_get_dram_grid_size := get_dram_grid_size;
     v_get_harvested_tensix_grid_size := get_harvested_tensix_grid_size;
     v_get_harvested_dram_grid_size := get_harvested_dram_grid_size |}.

Module Wormhole.

Definition fill_tensix_noc0_translated_mapping (cm : CoordinateManager)
    : result CoordinateManager :=
  let num_harvested_y := get_num_harvested (tensix_harvesting_mask (harvesting_masks cm)) in
  let grid := tensix_grid_size (layout cm) in
  cm ← for_each (seqZ 0 (u64 (xy_y grid - num_harvested_y))) (λ y cm,
         for_each (seqZ 0 (xy_x grid)) (λ x cm,
           let '(noc0_pair, cm) := to_noc0_subscript (MkCoreCoord x y TENSIX LOGICAL) cm in
           let translated_x := u64 (x + wormhole.tensix_translated_coordinate_start_x) in
           let translated_y := u64 (y + wormhole.tensix_translated_coordinate_start_y) in
           Ok (add_core_translation
                 (MkCoreCoord translated_x translated_y TENSIX TRANSLATED) noc0_pair cm)) cm) cm;
  let translated_y :=
    u64 (wormhole.tensix_translated_coordinate_start_y + xy_y grid - num_harvested_y) in
  s ← for_each (seqZ 0 (xy_y grid)) (λ y '(cm, translated_y),
        harvested ← test_mask (tensix_harvesting_mask (harvesting_masks cm)) y;
        if (harvested : bool) then
          cm ← for_each (seqZ 0 (xy_x grid)) (λ x cm,
                 noc0_core ← vec_idx (tensix_cores (layout cm)) (u64 (y * xy_x grid + x));
                 let translated_x := u64 (x + wormhole.tensix_translated_coordinate_start_x) in
                 Ok (add_core_translation
                       (MkCoreCoord translated_x translated_y TENSIX TRANSLATED) noc0_core cm)) cm;
          Ok (cm, u64 (translated_y + 1))
        else Ok (cm, translated_y)) (cm, translated_y);
  Ok s.1.

(** The coordinate arithmetic of [fill_eth_noc0_translated_mapping]. *)
Definition eth_translated_coord (eth_core : xy_pair) : CoreCoord :=
  let x := if 5 <? xy_x eth_core then u64 (xy_x eth_core - 1) else xy_x eth_core in
  let x := u64 (u64 (x - 1) + wormhole.eth_translated_coordinate_start_x) in
  let y := if xy_y eth_core =? 6 then 1 else xy_y eth_core in
  let y := u64 (y + wormhole.eth_translated_coordinate_start_y) in
  MkCoreCoord x y ETH TRANSLATED.

Definition fill_eth_noc0_translated_mapping (cm : CoordinateManager)
    : result CoordinateManager :=
  Ok (foldl (λ cm eth_core, add_core_translation (eth_translated_coord eth_core) eth_core cm)
        cm (eth_cores (layout cm))).

Definition fills : FillOps :=
  {| CoordinateManager.fill_tensix_noc0_translated_mapping := fill_tensix_noc0_translated_mapping;
     fill_dram_noc0_translated_mapping := fill_dram_default_noc0_translated_mapping;
     CoordinateManager.fill_eth_noc0_translated_mapping := fill_eth_noc0_translated_mapping;
     fill_pcie_noc0_translated_mapping :=
       λ cm, Ok (fill_pcie_default_noc0_translated_mapping cm);
     fill_arc_noc0_translated_mapping := fill_arc_default_noc0_translated_mapping |}.

Definition ops : VirtualOps := base_virtual_ops fills.

End Wormhole.

Module Quasar.

Definition fills : FillOps :=
  {| fill_tensix_noc0_translated_mapping :=
       λ cm, Ok (fill_tensix_default_noc0_translated_mapping cm);
     fill_dram_noc0_translated_mapping := fill_dram_default_noc0_translated_mapping;
     fill_eth_noc0_translated_mapping := fill_eth_default_noc0_translated_mapping;
     fill_pcie_noc0_translated_mapping :=
       λ cm, Ok (fill_pcie_default_noc0_translated_mapping cm);
     fill_arc_noc0_translated_mapping := fill_arc_default_noc0_translated_mapping |}.

Definition ops : VirtualOps := base_virtual_ops fills.

End Quasar.
