(* ===== verification/BlackholeManager.v ===== *)
(** * BlackholeCoordinateManager

    The derived class that harvests Tensix columns, a DRAM bank, ETH channels,
    a PCIe core and L2CPU cores
    ([coordinates/blackhole_coordinate_manager.cpp]). *)

From Stdlib Require Import ZArith Lia.
From stdpp Require Import base gmap list list_numbers sorting strings numbers.
From S2P Require Import Prelude CoreTypes ArchData Harvesting CoordinateManager.

Local Open Scope Z_scope.

Definition assert_coordinate_manager_constructor (cm : CoordinateManager) : result unit :=
  if 1 <? get_num_harvested (dram_harvesting_mask (harvesting_masks cm))
  then throw "At most DRAM bank can be harvested on Blackhole."
  else
    let num_harvested_eth_cores :=
      get_num_harvested (eth_harvesting_mask (harvesting_masks cm)) in
    if (vec_size (eth_cores (layout cm)) =? blackhole.NUM_ETH_CHANNELS)
       && negb (num_harvested_eth_cores =? 2)
       && negb (num_harvested_eth_cores =? blackhole.NUM_ETH_CHANNELS)
    then throw "Exactly 2 or 14 ETH cores should be harvested on full Blackhole."
    else Ok tt.

(** The order std::sort gives pairs (die_x_index, x). *)
Definition pair_le (a b : Z * Z) : Prop := a.1 < b.1 ∨ (a.1 = b.1 ∧ a.2 ≤ b.2).
#[global] Instance pair_le_dec : RelDecision pair_le.
Proof. intros [] []; unfold pair_le; apply _. Defined.

Definition fill_tensix_noc0_translated_mapping (cm : CoordinateManager)
    : result CoordinateManager :=
  let cm := drop_oversized_tensix_mask (xy_x (tensix_grid_size (layout cm))) cm in
  let grid_size_x := xy_x (tensix_grid_size (layout cm)) in
  let grid_size_y := xy_y (tensix_grid_size (layout cm)) in
  s ← for_each (seqZ 0 grid_size_x) (λ x '(cm, logical_x, die_harvested),
        harvested ← test_mask (tensix_harvesting_mask (harvesting_masks cm)) x;
        if (harvested : bool) then
          noc0_core ← vec_idx (tensix_cores (layout cm)) x;
          let die_x_index := find_index (xy_x noc0_core) blackhole.HARVESTING_NOC_LOCATIONS in
          Ok (cm, logical_x, die_harvested ++ [(die_x_index, x)])
        else
          cm ← for_each (seqZ 0 grid_size_y) (λ y cm,
                 tensix_core ← vec_idx (tensix_cores (layout cm)) (u64 (x + y * grid_size_x));
                 translated_core ←
                   vec_idx (tensix_cores (layout cm)) (u64 (logical_x + y * grid_size_x));
                 Ok (add_core_translation
                       (CoreCoord_of_pair translated_core TENSIX TRANSLATED) tensix_core cm)) cm;
          Ok (cm, u64 (logical_x + 1), die_harvested)) (cm, 0, []);
  let '(cm, _, die_harvested) := s in
  s ← for_each (merge_sort pair_le die_harvested) (λ '(_, x_index_harvested) '(cm, x_index),
        cm ← for_each (seqZ 0 grid_size_y) (λ y cm,
               noc0_core ←
                 vec_idx (tensix_cores (layout cm)) (u64 (x_index_harvested + y * grid_size_x));
               translated_core ←
                 vec_idx (tensix_cores (layout cm)) (u64 (x_index + y * grid_size_x));
               Ok (add_core_translation
                     (CoreCoord_of_pair translated_core TENSIX TRANSLATED) noc0_core cm)) cm;
        Ok (cm, u64 (x_index - 1))) (cm, u64 (grid_size_x - 1));
  Ok s.1.

Definition translate_tensix_coords (cm : CoordinateManager) : result CoordinateManager :=
  let cm := drop_oversized_tensix_mask (xy_x (tensix_grid_size (layout cm))) cm in
  let grid_size_x := xy_x (tensix_grid_size (layout cm)) in
  let grid_size_y := xy_y (tensix_grid_size (layout cm)) in
  s ← for_each (seqZ 0 grid_size_x) (λ x '(cm, logical_x),
        harvested ← test_mask (tensix_harvesting_mask (harvesting_masks cm)) x;
        if negb harvested then
          cm ← for_each (seqZ 0 grid_size_y) (λ y cm,
                 tensix_core ← vec_idx (tensix_cores (layout cm)) (u64 (x + y * grid_size_x));
                 Ok (add_core_translation (MkCoreCoord logical_x y TENSIX LOGICAL)
                       tensix_core cm)) cm;
          Ok (cm, u64 (logical_x + 1))
        else Ok (cm, logical_x)) (cm, 0);
  if noc_translation_enabled s.1
  then fill_tensix_noc0_translated_mapping s.1
  else Ok (fill_tensix_default_noc0_translated_mapping s.1).

(** The logical loop of [translate_dram_coords] and [translate_pcie_coords]:
    bank (column) [x] of the grid is skipped when its mask bit is set. *)
Definition add_harvested_grid (t : CoreType) (mask : Z) (grid_size : xy_pair)
    (cores : list xy_pair) (cm : CoordinateManager) : result CoordinateManager :=
  s ← for_each (seqZ 0 (xy_x grid_size)) (λ x '(cm, logical_x),
        harvested ← test_mask mask x;
        if negb harvested then
          cm ← for_each (seqZ 0 (xy_y grid_size)) (λ y cm,
                 core ← vec_idx cores (u64 (x * xy_y grid_size + y));
                 Ok (add_core_translation (MkCoreCoord logical_x y t LOGICAL) core cm)) cm;
          Ok (cm, u64 (logical_x + 1))
        else Ok (cm, logical_x)) (cm, 0);
  Ok s.1.

(** [map_dram_banks(start_bank, end_bank, x_coord, y_coord_start)]. *)
Definition map_dram_banks (start_bank end_bank x_coord y_coord : Z) (cm : CoordinateManager)
    : result CoordinateManager :=
  s ← for_each (seqZ start_bank (end_bank - start_bank)) (λ bank s,
        for_each (seqZ 0 blackhole.NUM_NOC_PORTS_PER_DRAM_BANK) (λ port '(cm, translated_y),
          let '(noc0_pair, cm) := to_noc0_subscript (MkCoreCoord bank port DRAM LOGICAL) cm in
          Ok (add_core_translation (MkCoreCoord x_coord translated_y DRAM TRANSLATED)
                noc0_pair cm, u64 (translated_y + 1))) s) (cm, y_coord);
  Ok s.1.

Definition fill_dram_noc0_translated_mapping (cm : CoordinateManager)
    : result CoordinateManager :=
  let grid := dram_grid_size (layout cm) in
  let banks := blackhole.NUM_DRAM_BANKS in
  let half := banks / 2 in
  let ports := blackhole.NUM_NOC_PORTS_PER_DRAM_BANK in
  let x0 := blackhole.dram_translated_coordinate_start_x in
  let y0 := blackhole.dram_translated_coordinate_start_y in
  if xy_x grid <? banks then fill_grid_default DRAM grid cm
  else match get_harvested_indices (dram_harvesting_mask (harvesting_masks cm)) with
  | [] =>
      cm ← map_dram_banks 0 half x0 y0 cm;
      map_dram_banks half banks (x0 + 1) y0 cm
  | harvested_bank :: _ =>
      cm ← (if harvested_bank <? half then
              let mirror_east_bank := harvested_bank + half - 1 in
              cm ← map_dram_banks 0 (half - 1) (x0 + 1) y0 cm;
              cm ← map_dram_banks (half - 1) mirror_east_bank x0 y0 cm;
              cm ← map_dram_banks (mirror_east_bank + 1) (banks - 1) x0
                     (y0 + (mirror_east_bank - (half - 1)) * ports) cm;
              map_dram_banks mirror_east_bank (mirror_east_bank + 1) x0
                (y0 + (half - 1) * ports) cm
            else
              let mirror_west_bank := harvested_bank - half in
              cm ← map_dram_banks 0 mirror_west_bank x0 y0 cm;
              cm ← map_dram_banks (mirror_west_bank + 1) half x0
                     (y0 + mirror_west_bank * ports) cm;
              cm ← map_dram_banks mirror_west_bank (mirror_west_bank + 1) x0
                     (y0 + (half - 1) * ports) cm;
              map_dram_banks half (banks - 1) (x0 + 1) y0 cm);
      let noc0_index := u64 (harvested_bank * xy_y grid) in
      let harvested_bank_translated_y := u64 (y0 + (xy_x grid / 2 - 1) * xy_y grid) in
      for_each (seqZ 0 (xy_y grid)) (λ noc_port cm,
        noc0_core ← vec_idx (dram_cores (layout cm)) (u64 (noc0_index + noc_port));
        Ok (add_core_translation
              (MkCoreCoord (x0 + 1) (u64 (harvested_bank_translated_y + noc_port))
                 DRAM TRANSLATED) noc0_core cm)) cm
  end.

Definition translate_dram_coords (cm : CoordinateManager) : result CoordinateManager :=
  cm ← add_harvested_grid DRAM (dram_harvesting_mask (harvesting_masks cm))
         (dram_grid_size (layout cm)) (dram_cores (layout cm)) cm;
  if noc_translation_enabled cm
  then fill_dram_noc0_translated_mapping cm
  else fill_dram_default_noc0_translated_mapping cm.

Definition fill_eth_noc0_translated_mapping (cm : CoordinateManager)
    : result CoordinateManager :=
  let mask := eth_harvesting_mask (harvesting_masks cm) in
  let size := vec_size (eth_cores (layout cm)) in
  let num_harvested_channels := if size =? 0 then 0 else get_num_harvested mask in
  cm ← for_each (seqZ 0 (u64 (size - num_harvested_channels))) (λ eth_channel cm,
         let translated_x := u64 (eth_channel + blackhole.eth_translated_coordinate_start_x) in
         let translated_y := blackhole.eth_translated_coordinate_start_y in
         let '(noc0_pair, cm) := to_noc0_subscript (MkCoreCoord 0 eth_channel ETH LOGICAL) cm in
         Ok (add_core_translation (MkCoreCoord translated_x translated_y ETH TRANSLATED)
               noc0_pair cm)) cm;
  for_each (seqZ 0 size) (λ eth_channel cm,
    harvested ← test_mask mask eth_channel;
    if (harvested : bool) then
      noc0_pair ← vec_idx (eth_cores (layout cm)) eth_channel;
      Ok (add_core_translation (CoreCoord_of_pair noc0_pair ETH TRANSLATED) noc0_pair cm)
    else Ok cm) cm.

Definition translate_eth_coords (cm : CoordinateManager) : result CoordinateManager :=
  s ← for_each (seqZ 0 (vec_size (eth_cores (layout cm)))) (λ eth_channel '(cm, unharvested),
        harvested ← test_mask (eth_harvesting_mask (harvesting_masks cm)) eth_channel;
        if negb harvested then
          eth_core ← vec_idx (eth_cores (layout cm)) eth_channel;
          Ok (add_core_translation (MkCoreCoord 0 unharvested ETH LOGICAL) eth_core cm,
              u64 (unharvested + 1))
        else Ok (cm, unharvested)) (cm, 0);
  if noc_translation_enabled s.1
  then fill_eth_noc0_translated_mapping s.1
  else fill_eth_default_noc0_translated_mapping s.1.

Definition fill_pcie_noc0_translated_mapping (cm : CoordinateManager)
    : result CoordinateManager :=
  let mask := pcie_harvesting_mask (harvesting_masks cm) in
  let grid_x := xy_x (pcie_grid_size (layout cm)) in
  cm ← for_each (seqZ 0 (u64 (grid_x - get_num_harvested mask))) (λ x cm,
         let '(noc0_pair, cm) := to_noc0_subscript (MkCoreCoord x 0 PCIE LOGICAL) cm in
         let translated :=
           if x =? 0 then XY blackhole.pcie_translated_coordinate_start_x
                             blackhole.pcie_translated_coordinate_start_y
           else noc0_pair in
         Ok (add_core_translation (CoreCoord_of_pair translated PCIE TRANSLATED)
               noc0_pair cm)) cm;
  for_each (seqZ 0 grid_x) (λ x cm,
    harvested ← test_mask mask x;
    if (harvested : bool) then
      noc0_pair ← vec_idx (pcie_cores (layout cm)) x;
      Ok (add_core_translation (CoreCoord_of_pair noc0_pair PCIE TRANSLATED) noc0_pair cm)
    else Ok cm) cm.

Definition translate_pcie_coords (cm : CoordinateManager) : result CoordinateManager :=
  cm ← add_harvested_grid PCIE (pcie_harvesting_mask (harvesting_masks cm))
         (pcie_grid_size (layout cm)) (pcie_cores (layout cm)) cm;
  if noc_translation_enabled cm
  then fill_pcie_noc0_translated_mapping cm
  else Ok (fill_pcie_default_noc0_translated_mapping cm).

Definition translate_l2cpu_coords (cm : CoordinateManager) : result CoordinateManager :=
  s ← for_each (seqZ 0 (vec_size (l2cpu_cores (layout cm)))) (λ index '(cm, unharvested),
        l2cpu_core ← vec_idx (l2cpu_cores (layout cm)) index;
        let cm := add_core_translation (CoreCoord_of_pair l2cpu_core L2CPU TRANSLATED)
                    l2cpu_core cm in
        harvested ← test_mask (l2cpu_harvesting_mask (harvesting_masks cm)) index;
        if (harvested : bool) then Ok (cm, unharvested)
        else
          let unharvested := u64 (unharvested + 1) in
          Ok (add_core_translation (MkCoreCoord 0 (u64 (unharvested - 1)) L2CPU LOGICAL)
                l2cpu_core cm, unharvested)) (cm, 0);
  Ok s.1.

(** ** Core queries *)

(** The double loop of [get_tensix_cores] / [get_harvested_tensix_cores]: rows
    first, keeping the columns [x] with [keep x]. *)
Definition tensix_columns (cm : CoordinateManager) (keep : Z → bool) : result (list CoreCoord) :=
  let grid := tensix_grid_size (layout cm) in
  for_each (seqZ 0 (xy_y grid)) (λ y acc,
    for_each (seqZ 0 (xy_x grid)) (λ x acc,
      core ← vec_idx (tensix_cores (layout cm)) (u64 (y * xy_x grid + x));
      Ok (if keep x then acc ++ [noc0_core TENSIX core] else acc)) acc) [].
Definition get_tensix_cores (cm : CoordinateManager) : result (list CoreCoord) :=
  let harvested_x_coords :=
    get_harvested_indices (tensix_harvesting_mask (harvesting_masks cm)) in
  tensix_columns cm (λ x, bool_decide (x ∉ harvested_x_coords)).
Definition get_harvested_tensix_cores (cm : CoordinateManager) : result (list CoreCoord) :=
  let harvested_x_coords :=
    get_harvested_indices (tensix_harvesting_mask (harvesting_masks cm)) in
  tensix_columns cm (λ x, bool_decide (x ∈ harvested_x_coords)).

Definition dram_banks (cm : CoordinateManager) (keep : Z → bool) : result (list CoreCoord) :=
  let grid := dram_grid_size (layout cm) in
  for_each (seqZ 0 (xy_x grid)) (λ x acc,
    if keep x then
      for_each (seqZ 0 (xy_y grid)) (λ y acc,
        core ← vec_idx (dram_cores (layout cm)) (u64 (x * xy_y grid + y));
        Ok (acc ++ [noc0_core DRAM core])) acc
    else Ok acc) [].
Definition get_dram_cores (cm : CoordinateManager) : result (list CoreCoord) :=
  let harvested_banks := get_harvested_indices (dram_harvesting_mask (harvesting_masks cm)) in
  dram_banks cm (λ x, bool_decide (x ∉ harvested_banks)).
Definition get_harvested_dram_cores (cm : CoordinateManager) : result (list CoreCoord) :=
  let harvested_banks := get_harvested_indices (dram_harvesting_mask (harvesting_masks cm)) in
  dram_banks cm (λ x, bool_decide (x ∈ harvested_banks)).

Definition eth_channels (cm : CoordinateManager) (keep : Z → bool) : result (list CoreCoord) :=
  for_each (seqZ 0 (num_eth_channels cm)) (λ eth_channel acc,
    core ← vec_idx (eth_cores (layout cm)) eth_channel;
    Ok (if keep eth_channel then acc ++ [noc0_core ETH core] else acc)) [].
Definition get_eth_cores (cm : CoordinateManager) : result (list CoreCoord) :=
  let harvested_channels := get_harvested_indices (eth_harvesting_mask (harvesting_masks cm)) in
  eth_channels cm (λ c, bool_decide (c ∉ harvested_channels)).
Definition get_harvested_eth_cores (cm : CoordinateManager) : result (list CoreCoord) :=
  let harvested_channels := get_harvested_indices (eth_harvesting_mask (harvesting_masks cm)) in
  eth_channels cm (λ c, bool_decide (c ∈ harvested_channels)).

(** The single loop of [get_pcie_cores], [get_l2cpu_cores] and their harvested
    variants: the cores whose mask bit equals [want], up to [bound]. *)
Definition cores_by_mask (t : CoreType) (mask : Z) (want : bool) (bound : Z)
    (cores : list xy_pair) : result (list CoreCoord) :=
  for_each (seqZ 0 bound) (λ x acc,
    harvested ← test_mask mask x;
    if bool_decide (harvested = want) then
      core ← vec_idx cores x;
      Ok (acc ++ [noc0_core t core])
    else Ok acc) [].
Definition get_pcie_cores (cm : CoordinateManager) : result (list CoreCoord) :=
  cores_by_mask PCIE (pcie_harvesting_mask (harvesting_masks cm)) false
    (xy_x (pcie_grid_size (layout cm))) (pcie_cores (layout cm)).
Definition get_harvested_pcie_cores (cm : CoordinateManager) : result (list CoreCoord) :=
  cores_by_mask PCIE (pcie_harvesting_mask (harvesting_masks cm)) true
    (xy_x (pcie_grid_size (layout cm))) (pcie_cores (layout cm)).
Definition get_l2cpu_cores (cm : CoordinateManager) : result (list CoreCoord) :=
  cores_by_mask L2CPU (l2cpu_harvesting_mask (harvesting_masks cm)) false
    (vec_size (l2cpu_cores (layout cm))) (l2cpu_cores (layout cm)).
Definition get_harvested_l2cpu_cores (cm : CoordinateManager) : result (list CoreCoord) :=
  cores_by_mask L2CPU (l2cpu_harvesting_mask (harvesting_masks cm)) true
    (vec_size (l2cpu_cores (layout cm))) (l2cpu_cores (layout cm)).

Definition get_harvested_tensix_grid_size (cm : CoordinateManager) : xy_pair :=
  XY (get_num_harvested (tensix_harvesting_mask (harvesting_masks cm)))
     (xy_y (tensix_grid_size (layout cm))).
Definition get_harvested_dram_grid_size (cm : CoordinateManager) : xy_pair :=
  XY (get_num_harvested (dram_harvesting_mask (harvesting_masks cm)))
     (xy_y (dram_grid_size (layout cm))).
Definition get_tensix_grid_size (cm : CoordinateManager) : xy_pair :=
  let g := tensix_grid_size (layout cm) in
  XY (u64 (xy_x g - get_num_harvested (tensix_harvesting_mask (harvesting_masks cm)))) (xy_y g).
Definition get_dram_grid_size (cm : CoordinateManager) : xy_pair :=
  let g := dram_grid_size (layout cm) in
  XY (u64 (xy_x g - get_num_harvested (dram_harvesting_mask (harvesting_masks cm)))) (xy_y g).

(** The fills as the base class's [translate_arc_coords] reaches them. *)
Definition fills : FillOps :=
  {| CoordinateManager.fill_tensix_noc0_translated_mapping := fill_tensix_noc0_translated_mapping;
     CoordinateManager.fill_dram_noc0_translated_mapping := fill_dram_noc0_translated_mapping;
     CoordinateManager.fill_eth_noc0_translated_mapping := fill_eth_noc0_translated_mapping;
     CoordinateManager.fill_pcie_noc0_translated_mapping := fill_pcie_noc0_translated_mapping;
     CoordinateManager.fill_arc_noc0_translated_mapping :=
       fill_arc_default_noc0_translated_mapping |}.

Definition ops : VirtualOps :=
  {| v_assert := assert_coordinate_manager_constructor;
     v_translate_tensix_coords := translate_tensix_coords;
     v_translate_dram_coords := translate_dram_coords;
     v_translate_eth_coords := translate_eth_coords;
     v_translate_arc_coords := CoordinateManager.translate_arc_coords fills;
     v_translate_pcie_coords := translate_pcie_coords;
     v_translate_router_coords := CoordinateManager.translate_router_coords;
     v_translate_security_coords := CoordinateManager.translate_security_coords;
     v_translate_l2cpu_coords := translate_l2cpu_coords;
     v_translate_dispatch_coords := CoordinateManager.translate_dispatch_coords;
     v_get_tensix_cores := get_tensix_cores;
     v_get_harvested_tensix_cores := get_harvested_tensix_cores;
     v_get_dram_cores := get_dram_cores;
     v_get_harvested_dram_cores := get_harvested_dram_cores;
     v_get_eth_cores := get_eth_cores;
     v_get_harvested_eth_cores := get_harvested_eth_cores;
     v_get_pcie_cores := get_pcie_cores;
     v_get_harvested_pcie_cores := get_harvested_pcie_cores;
     v_get_l2cpu_cores := get_l2cpu_cores;
     v_get_dispatch_cores := CoordinateManager.get_dispatch_cores;
     v_get_tensix_grid_size := get_tensix_grid_size;
     v_get_dram_grid_size := get_dram_grid_size;
     v_get_harvested_tensix_grid_size := get_harvested_tensix_grid_size;
     v_get_harvested_dram_grid_size := get_harvested_dram_grid_size |}.
