(* ===== verification/Managers.v ===== *)
(** * Creating a coordinate manager

    [CoordinateManager::create_coordinate_manager], both overloads
    ([coordinates/coordinate_manager.cpp]): the dispatch on the architecture
    and the standard layouts. *)

From Stdlib Require Import ZArith Lia.
From stdpp Require Import base gmap list strings numbers.
From S2P Require Import Prelude CoreTypes ArchData Harvesting CoordinateManager.
From S2P Require RowHarvestManagers BlackholeManager.

Local Open Scope Z_scope.

(** The dynamic class of the object a std::shared_ptr<CoordinateManager> holds. *)
Inductive ManagerClass := WormholeCM | QuasarCM | BlackholeCM.
#[global] Instance ManagerClass_eq_dec : EqDecision ManagerClass.
Proof. solve_decision. Defined.

Definition virtual_ops (k : ManagerClass) : VirtualOps :=
  match k with
  | WormholeCM => RowHarvestManagers.Wormhole.ops
  | QuasarCM => RowHarvestManagers.Quasar.ops
  | BlackholeCM => BlackholeManager.ops
  end.

(** A manager object: its class and its fields. *)
Record Manager := MkManager { manager_class : ManagerClass; manager : CoordinateManager }.

(** The derived constructors: the base constructor, then [initialize()]. *)
Definition construct (k : ManagerClass) (noc_translation_enabled : bool)
    (harvesting_masks : HarvestingMasks) (l : Layout) : result Manager :=
  cm ← initialize (virtual_ops k)
         (CoordinateManager_ctor noc_translation_enabled harvesting_masks l);
  Ok (MkManager k cm).

(** The overload that takes the layout. *)
Definition create_coordinate_manager_layout (arch : ARCH) (noc_translation_enabled : bool)
    (harvesting_masks : HarvestingMasks) (l : Layout) : result Manager :=
  match arch with
  | WORMHOLE_B0 => construct WormholeCM noc_translation_enabled harvesting_masks l
  | QUASAR => construct QuasarCM noc_translation_enabled harvesting_masks l
  | BLACKHOLE => construct BlackholeCM noc_translation_enabled harvesting_masks l
  | Invalid => throw "Unexpected architecture"
  end.

Definition wormhole_layout : Layout :=
  {| tensix_grid_size := wormhole.TENSIX_GRID_SIZE;
     tensix_cores := wormhole.TENSIX_CORES_NOC0;
     dram_grid_size := wormhole.DRAM_GRID_SIZE;
     dram_cores := flatten_vector wormhole.DRAM_CORES_NOC0;
     eth_cores := wormhole.ETH_CORES_NOC0;
     arc_grid_size := wormhole.ARC_GRID_SIZE;
     arc_cores := wormhole.ARC_CORES_NOC0;
     pcie_grid_size := wormhole.PCIE_GRID_SIZE;
     pcie_cores := wormhole.PCIE_CORES_NOC0;
     router_cores := wormhole.ROUTER_CORES_NOC0;
     security_cores := wormhole.SECURITY_CORES_NOC0;
     l2cpu_cores := wormhole.L2CPU_CORES_NOC0;
     dispatch_cores := [];
     noc0_x_to_noc1_x := wormhole.NOC0_X_TO_NOC1_X;
     noc0_y_to_noc1_y := wormhole.NOC0_Y_TO_NOC1_Y |}.
Definition quasar_layout : Layout :=
  {| tensix_grid_size := grendel.TENSIX_GRID_SIZE;
     tensix_cores := grendel.TENSIX_CORES_NOC0;
     dram_grid_size := grendel.DRAM_GRID_SIZE;
     dram_cores := flatten_vector grendel.DRAM_CORES_NOC0;
     eth_cores := grendel.ETH_CORES_NOC0;
     arc_grid_size := grendel.ARC_GRID_SIZE;
     arc_cores := grendel.ARC_CORES_NOC0;
     pcie_grid_size := grendel.PCIE_GRID_SIZE;
     pcie_cores := grendel.PCIE_CORES_NOC0;
     router_cores := grendel.ROUTER_CORES_NOC0;
     security_cores := grendel.SECURITY_CORES_NOC0;
     l2cpu_cores := grendel.L2CPU_CORES_NOC0;
     dispatch_cores := grendel.DISPATCH_CORES_NOC0;
     noc0_x_to_noc1_x := grendel.NOC0_X_TO_NOC1_X;
     noc0_y_to_noc1_y := grendel.NOC0_Y_TO_NOC1_Y |}.
Definition blackhole_layout : Layout :=
  {| tensix_grid_size := blackhole.TENSIX_GRID_SIZE;
     tensix_cores := blackhole.TENSIX_CORES_NOC0;
     dram_grid_size := blackhole.DRAM_GRID_SIZE;
     dram_cores := flatten_vector blackhole.DRAM_CORES_NOC0;
     eth_cores := blackhole.ETH_CORES_NOC0;
     arc_grid_size := blackhole.ARC_GRID_SIZE;
     arc_cores := blackhole.ARC_CORES_NOC0;
     pcie_grid_size := blackhole.PCIE_GRID_SIZE;
     pcie_cores := blackhole.PCIE_CORES_NOC0;
     router_cores := blackhole.ROUTER_CORES_NOC0;
     security_cores := blackhole.SECURITY_CORES_NOC0;
     l2cpu_cores := blackhole.L2CPU_CORES_NOC0;
     dispatch_cores := [];
     noc0_x_to_noc1_x := blackhole.NOC0_X_TO_NOC1_X;
     noc0_y_to_noc1_y := blackhole.NOC0_Y_TO_NOC1_Y |}.

(** The overload that takes the board type and ASIC location (both unused). *)
Definition create_coordinate_manager (arch : ARCH) (noc_translation_enabled : bool)
    (harvesting_masks : HarvestingMasks) : result Manager :=
  match arch with
  | WORMHOLE_B0 =>
      create_coordinate_manager_layout arch noc_translation_enabled harvesting_masks wormhole_layout
  | QUASAR =>
      create_coordinate_manager_layout arch noc_translation_enabled harvesting_masks quasar_layout
  | BLACKHOLE =>
      create_coordinate_manager_layout arch noc_translation_enabled harvesting_masks blackhole_layout
  | Invalid => throw "Unexpected architecture"
  end.
