(* ===== verification/CoordTheory.v ===== *)
(** * The coordinate tables: specification and loop rules

    A manager's three maps are specified by one relation, the coordinate table:
    [T c p] says that core coordinate [c] names the core at NOC0 position [p].
    [TableLaws] is what a table promises its users; [maps_ok T] says that the
    maps agree with each other and stay inside the table; [runs] is the
    judgement the proofs of the translate_* and fill_* methods compose: the
    method returns, stays inside the table and keeps and adds entries. *)

From Stdlib Require Import ZArith Lia.
From stdpp Require Import base gmap list list_numbers numbers.
From S2P Require Import Prelude CoreTypes ArchData Harvesting CoordinateManager.

Local Open Scope Z_scope.

Definition Table := CoreCoord → xy_pair → Prop.

(** What a coordinate table promises: a coordinate names one core; a core has
    one name per system; outside LOGICAL the place and system fix the name. *)
Class TableLaws (T : Table) := {
  table_functional : ∀ c p p', T c p → T c p' → p = p';
  table_injective : ∀ c c' p,
    T c p → T c' p → coord_system c = coord_system c' → c = c';
  table_place : ∀ c c' p p',
    T c p → T c' p' → coord_system c = coord_system c' → coord_system c ≠ LOGICAL →
    to_pair c = to_pair c' → c = c';
}.

Definition has (cm : CoordinateManager) (c : CoreCoord) (p : xy_pair) : Prop :=
  to_noc0_map (maps cm) !! c = Some p.

(** The three maps agree with each other and lie inside the table. *)
Record maps_ok (T : Table) (m : TranslationMaps) : Prop := {
  ok_sound : ∀ c p, to_noc0_map m !! c = Some p → T c p;
  ok_from : ∀ p s c,
    from_noc0_map m !! (p, s) = Some c ↔ to_noc0_map m !! c = Some p ∧ coord_system c = s;
  ok_type : ∀ q s c,
    to_core_type_map m !! (q, s) = Some c ↔
    (∃ p, to_noc0_map m !! c = Some p) ∧ to_pair c = q ∧ coord_system c = s ∧ s ≠ LOGICAL;
}.

Lemma maps_ok_empty T : maps_ok T empty_maps.
Proof.
  split; simpl; [intros ??|intros ???|intros ???]; rewrite !lookup_empty; [done| |]; split; try done.
  - by intros [].
  - intros ((? & ?) & _). done.
Qed.

Lemma maps_ok_weaken (T T' : Table) m :
  (∀ c p, T c p → T' c p) → maps_ok T m → maps_ok T' m.
Proof. intros HT [H1 H2 H3]. split; eauto. Qed.

Section add_translation.
Context `{TableLaws T} (c : CoreCoord) (p : xy_pair) (m : TranslationMaps).
Context (HT : T c p) (Hok : maps_ok T m).

Lemma add_translation_to c' p' :
  to_noc0_map (add_translation c p m) !! c' = Some p' ↔
  to_noc0_map m !! c' = Some p' ∨ (c' = c ∧ p' = p).
Proof.
  simpl. rewrite map_insert_new_lookup. destruct (to_noc0_map m !! c') as [p0|] eqn:E.
  - split; [by left|]. intros [?|[-> ->]]; [done|].
    f_equal. eapply table_functional; [by eapply ok_sound|done].
  - destruct (decide (c = c')) as [<-|Hne]; split.
    + intros [= <-]. by right.
    + by intros [?|[_ ->]].
    + done.
    + by intros [?|[-> _]].
Qed.

Lemma add_translation_from p' s c' :
  from_noc0_map (add_translation c p m) !! (p', s) = Some c' ↔
  to_noc0_map (add_translation c p m) !! c' = Some p' ∧ coord_system c' = s.
Proof.
  rewrite add_translation_to. cbn [from_noc0_map add_translation].
  rewrite map_insert_new_lookup.
  destruct (from_noc0_map m !! (p', s)) as [c0|] eqn:E.
  - pose proof (proj1 (ok_from _ _ Hok _ _ _) E) as [Hc0 Hs]. split.
    + intros [= <-]. auto.
    + intros [[Hc'|[-> ->]] Hs']; f_equal.
      * apply (table_injective (T:=T) c0 c' p'); [by eapply ok_sound..|congruence].
      * apply (table_injective (T:=T) c0 c p); [by eapply ok_sound|done|congruence].
  - assert (to_noc0_map m !! c' = Some p' → coord_system c' = s → False) as Hno.
    { intros ??. rewrite (proj2 (ok_from _ _ Hok p' s c')) in E; done. }
    destruct (decide ((p, coord_system c) = (p', s))) as [[= -> <-]|Hne].
    + split.
      * intros [= <-]. split; [by right|done].
      * intros [[?|[-> _]] ?]; [|done]. by exfalso; apply Hno.
    + split; [done|]. intros [[Hc'|[-> ->]] <-]; [|done]. by exfalso; apply Hno.
Qed.

Lemma add_translation_type q s c' :
  to_core_type_map (add_translation c p m) !! (q, s) = Some c' ↔
  (∃ p', to_noc0_map (add_translation c p m) !! c' = Some p') ∧
  to_pair c' = q ∧ coord_system c' = s ∧ s ≠ LOGICAL.
Proof.
  setoid_rewrite add_translation_to. cbn [to_core_type_map add_translation].
  destruct (decide (coord_system c = LOGICAL)) as [Hl|Hl].
  { rewrite (ok_type _ _ Hok). split.
    { intros ((p' & Hp') & ? & ? & ?). split; [|done]. exists p'. by left. }
    intros ((p' & [Hp'|[-> _]]) & Hq & Hs & Hns); [eauto|congruence]. }
  rewrite map_insert_new_lookup.
  destruct (to_core_type_map m !! (q, s)) as [c0|] eqn:E.
  - destruct (proj1 (ok_type _ _ Hok _ _ _) E) as ((p0 & Hp0) & Hq & Hs & Hns). split.
    + intros [= <-]. eauto 6.
    + intros ((p' & [Hc'|[-> ->]]) & Hq' & Hs' & _); f_equal.
      * apply (table_place (T:=T) c0 c' p0 p'); [by eapply ok_sound..|congruence| |]; congruence.
      * apply (table_place (T:=T) c0 c p0 p); [by eapply ok_sound|done|congruence| |]; congruence.
  - assert (∀ p', to_noc0_map m !! c' = Some p' → to_pair c' = q → coord_system c' = s →
      s ≠ LOGICAL → False) as Hno.
    { intros p' ????. rewrite (proj2 (ok_type _ _ Hok q s c')) in E; [done|eauto]. }
    destruct (decide ((to_pair c, coord_system c) = (q, s))) as [[= <- <-]|Hne].
    + split.
      * intros [= <-]. split; [exists p; by right|done].
      * intros ((p' & [Hc'|[-> _]]) & ? & ? & ?); [|done]. exfalso. by eapply Hno.
    + split; [done|]. intros ((p' & [Hc'|[-> ->]]) & <- & <- & Hns); [|done].
      exfalso. by eapply Hno.
Qed.

(** Adding an entry of the table keeps the maps in agreement. *)
Lemma add_translation_ok : maps_ok T (add_translation c p m).
Proof.
  split.
  - intros c' p' [Hc'|[-> ->]]%add_translation_to; [by eapply ok_sound|done].
  - apply add_translation_from.
  - apply add_translation_type.
Qed.
End add_translation.

(** ** The judgement for the methods that fill the maps *)

Definition extends (cm cm' : CoordinateManager) : Prop := ∀ c p, has cm c p → has cm' c p.
Definition covers (cm : CoordinateManager) (A : Table) : Prop := ∀ c p, A c p → has cm c p.

#[global] Instance extends_preorder : PreOrder extends.
Proof. split; [by intros cm c p|]. intros cm1 cm2 cm3 H1 H2 c p Hc. by apply H2, H1. Qed.

Lemma covers_extends cm cm' A : extends cm cm' → covers cm A → covers cm' A.
Proof. intros He Hc c p HA. by apply He, Hc. Qed.

Lemma covers_weaken cm (A B : Table) : (∀ c p, B c p → A c p) → covers cm A → covers cm B.
Proof. intros HBA Hc c p HB. by apply Hc, HBA. Qed.

(** Transport [covers] along the chain of [extends] hypotheses. *)
Ltac covers_later :=
  first [assumption | eapply covers_extends; [eassumption|]; covers_later].

Section runs.
Context (T : Table) `{!TableLaws T} (L : Layout) (M : HarvestingMasks) (b : bool).

(** A manager of the given configuration whose maps agree. *)
Record good (cm : CoordinateManager) : Prop := {
  good_layout : layout cm = L;
  good_masks : harvesting_masks cm = M;
  good_noc : noc_translation_enabled cm = b;
  good_maps : maps_ok T (maps cm);
}.

(** [cm'] is a good manager that keeps [cm]'s entries and has those of [A]. *)
Record steps (cm cm' : CoordinateManager) (A : Table) : Prop := {
  steps_good : good cm';
  steps_extends : extends cm cm';
  steps_covers : covers cm' A;
}.

Definition runs (r : result CoordinateManager) (cm : CoordinateManager) (A : Table) : Prop :=
  ∃ cm', r = Ok cm' ∧ steps cm cm' A.

Lemma steps_refl cm (A : Table) : good cm → covers cm A → steps cm cm A.
Proof. by split. Qed.

Lemma steps_weaken cm cm' (A B : Table) :
  (∀ c p, B c p → A c p) → steps cm cm' A → steps cm cm' B.
Proof. intros HAB [H1 H2 H3]. split; [done|done|]. intros c p HB. by apply H3, HAB. Qed.

Lemma steps_trans cm1 cm2 cm3 (A B : Table) :
  steps cm1 cm2 A → steps cm2 cm3 B → steps cm1 cm3 (λ c p, A c p ∨ B c p).
Proof.
  intros [? ? HA] [? He HB]. split; [done|by etrans|].
  intros c p [?|?]; [by apply He, HA|by apply HB].
Qed.

Lemma steps_add cm c p (A : Table) :
  good cm → T c p → (∀ c' p', A c' p' → c' = c ∧ p' = p) →
  steps cm (add_core_translation c p cm) A.
Proof.
  intros [HL HM Hb Hm] HT HA. split.
  - split; [done..|]. by apply add_translation_ok.
  - intros c' p' Hc'. apply add_translation_to; [done..|by left].
  - intros c' p' [-> ->]%HA. apply add_translation_to; [done..|by right].
Qed.

Lemma runs_Ok cm cm' A : steps cm cm' A → runs (Ok cm') cm A.
Proof. intros Hs. by exists cm'. Qed.

Lemma runs_weaken r cm (A B : Table) : (∀ c p, B c p → A c p) → runs r cm A → runs r cm B.
Proof. intros HAB (cm' & -> & Hs). exists cm'. split; [done|]. by eapply steps_weaken. Qed.

Lemma runs_bind r f cm (A B : Table) :
  runs r cm A → (∀ cm', steps cm cm' A → runs (f cm') cm' B) →
  runs (r ≫= f) cm (λ c p, A c p ∨ B c p).
Proof.
  intros (cm' & -> & Hs) Hf. destruct (Hf cm' Hs) as (cm'' & Hr & Hs').
  exists cm''. split; [done|]. by eapply steps_trans.
Qed.

(** A counted loop whose state is a manager plus data that depends only on
    the index ([mk]). *)
Lemma loop_steps_from {X} (mk : CoordinateManager → Z → X) (m n : Z) (f : Z → X → result X)
    (A : Z → Table) cm :
  good cm → 0 ≤ n →
  (∀ i cm1, m ≤ i < m + n → good cm1 → extends cm cm1 →
     ∃ cm2, f i (mk cm1 i) = Ok (mk cm2 (i + 1)) ∧ steps cm1 cm2 (A i)) →
  ∃ cm', for_each (seqZ m n) f (mk cm m) = Ok (mk cm' (m + n)) ∧
         steps cm cm' (λ c p, ∃ i, m ≤ i < m + n ∧ A i c p).
Proof.
  intros Hg Hn Hf.
  destruct (for_each_seqZ (λ i x, ∃ cm1, x = mk cm1 i ∧
    steps cm cm1 (λ c p, ∃ i', m ≤ i' < i ∧ A i' c p)) m n f (mk cm m)) as (x & Hx & HP);
    [done| | |].
  - exists cm. split; [done|]. apply steps_refl; [done|]. intros c p (i & Hi & _). lia.
  - intros i x Hi (cm1 & -> & [Hg1 He1 Hc1]).
    destruct (Hf i cm1) as (cm2 & Hr & [Hg2 He2 Hc2]); [lia|done..|].
    exists (mk cm2 (i + 1)). split; [done|]. exists cm2. split; [done|].
    split; [done|by etrans|]. intros c p (i' & Hi' & HA).
    destruct (decide (i' = i)) as [->|]; [by apply Hc2|].
    apply He2, Hc1. exists i'. split; [lia|done].
  - destruct HP as (cm' & -> & Hs). exists cm'. by rewrite Hx.
Qed.

Lemma loop_steps {X} (mk : CoordinateManager → Z → X) (n : Z) (f : Z → X → result X)
    (A : Z → Table) cm :
  good cm → 0 ≤ n →
  (∀ i cm1, 0 ≤ i < n → good cm1 → extends cm cm1 →
     ∃ cm2, f i (mk cm1 i) = Ok (mk cm2 (i + 1)) ∧ steps cm1 cm2 (A i)) →
  ∃ cm', for_each (seqZ 0 n) f (mk cm 0) = Ok (mk cm' n) ∧
         steps cm cm' (λ c p, ∃ i, 0 ≤ i < n ∧ A i c p).
Proof. apply (loop_steps_from mk 0 n). Qed.

Lemma runs_loop n f (A : Z → Table) cm :
  good cm → 0 ≤ n →
  (∀ i cm1, 0 ≤ i < n → good cm1 → extends cm cm1 → runs (f i cm1) cm1 (A i)) →
  runs (for_each (seqZ 0 n) f cm) cm (λ c p, ∃ i, 0 ≤ i < n ∧ A i c p).
Proof. intros Hg Hn Hf. apply (loop_steps (λ cm _, cm)); [done..|exact Hf]. Qed.

Lemma runs_for_each {X} (l : list X) f (A : X → Table) cm :
  good cm →
  (∀ x cm1, x ∈ l → good cm1 → extends cm cm1 → runs (f x cm1) cm1 (A x)) →
  runs (for_each l f cm) cm (λ c p, ∃ x, x ∈ l ∧ A x c p).
Proof.
  intros Hg Hf.
  destruct (for_each_inv (λ done cm1, steps cm cm1 (λ c p, ∃ x, x ∈ done ∧ A x c p)) l f cm)
    as (cm' & Hr & Hs); [| |by exists cm'].
  - apply steps_refl; [done|]. intros c p (x & Hx & _). by apply not_elem_of_nil in Hx.
  - intros done x rest cm1 -> [Hg1 He1 Hc1].
    destruct (Hf x cm1) as (cm2 & Hr & [Hg2 He2 Hc2]); [set_solver|trivial..|].
    exists cm2. split; [trivial|]. split; [trivial|by etrans|].
    intros c p (y & [Hy|Hy]%elem_of_app & HA).
    + apply He2, Hc1. eauto.
    + apply list_elem_of_singleton in Hy as ->. by apply Hc2.
Qed.

Lemma steps_foldl {X} (l : list X) (c_of : X → CoreCoord) (p_of : X → xy_pair) cm :
  good cm → (∀ x, x ∈ l → T (c_of x) (p_of x)) →
  steps cm (foldl (λ cm x, add_core_translation (c_of x) (p_of x) cm) cm l)
    (λ c p, ∃ x, x ∈ l ∧ c = c_of x ∧ p = p_of x).
Proof.
  revert cm. induction l as [|x l IH]; intros cm Hg HT; simpl.
  { apply steps_refl; [done|]. intros c p (x & Hx & _). by apply not_elem_of_nil in Hx. }
  assert (steps cm (add_core_translation (c_of x) (p_of x) cm)
    (λ c p, c = c_of x ∧ p = p_of x)) as Hs.
  { apply steps_add; [done|apply HT; by left|done]. }
  eapply steps_weaken; [|eapply steps_trans; [exact Hs|apply IH]].
  - simpl. intros c p (y & [->|Hy]%elem_of_cons & Hc); [by left|right; eauto].
  - apply Hs.
  - intros y Hy. apply HT. by right.
Qed.

Lemma steps_identity_map t s cores cm :
  good cm → (∀ p, p ∈ cores → T (CoreCoord_of_pair p t s) p) →
  steps cm (identity_map t s cores cm) (λ c p, p ∈ cores ∧ c = CoreCoord_of_pair p t s).
Proof.
  intros Hg HT. eapply steps_weaken; [|by apply (steps_foldl cores (λ p, CoreCoord_of_pair p t s) id)].
  simpl. intros c p [Hp ->]. by exists p.
Qed.

Lemma subscript_has c p cm : has cm c p → to_noc0_subscript c cm = (p, cm).
Proof. unfold has, to_noc0_subscript. by intros ->. Qed.
End runs.
