(* ===== verification/CoordTable.v ===== *)
(** * The tables of the managers

    Which names a core has: NOC0 (its position), NOC1 (through the two
    coordinate tables), LOGICAL (the rank of its harvestable unit among the
    kept ones) and TRANSLATED (per architecture). [Naming] states what the
    logical and translated names must satisfy for the table to obey
    [TableLaws]; the architectures' files discharge it. *)

From Stdlib Require Import ZArith Lia.
From stdpp Require Import base gmap list list_numbers numbers.
From S2P Require Import Prelude CoreTypes ArchData Harvesting CoordinateManager CoordTheory.

Local Open Scope Z_scope.

(** ** Well-formed layouts *)

Definition all_cores (L : Layout) : list xy_pair := concat (map (cores_of L) all_core_types).

Definition grid_matches (grid : xy_pair) (cores : list xy_pair) : Prop :=
  0 ≤ xy_x grid ≤ 31 ∧ 0 ≤ xy_y grid ≤ 31 ∧ vec_size cores = xy_x grid * xy_y grid.
#[global] Instance grid_matches_dec grid cores : Decision (grid_matches grid cores).
Proof. unfold grid_matches. apply _. Defined.

(** The NOC1 tables are absent, or cover every core without repetition. *)
Definition noc1_tables_ok (L : Layout) : Prop :=
  noc0_x_to_noc1_x L = [] ∨ noc0_y_to_noc1_y L = [] ∨
  (NoDup (noc0_x_to_noc1_x L) ∧ NoDup (noc0_y_to_noc1_y L) ∧
   Forall (λ p, xy_x p < vec_size (noc0_x_to_noc1_x L) ∧ xy_y p < vec_size (noc0_y_to_noc1_y L))
     (all_cores L)).
#[global] Instance noc1_tables_ok_dec L : Decision (noc1_tables_ok L).
Proof. unfold noc1_tables_ok. apply _. Defined.

(** No core twice, every core in the NOC0 grid (at most 17 x 12), core lists of
    the size of their grids, grids within the width of the mask tests. *)
Definition wf_layout (L : Layout) : Prop :=
  NoDup (all_cores L) ∧
  Forall (λ p, 0 ≤ xy_x p < 17 ∧ 0 ≤ xy_y p < 12) (all_cores L) ∧
  noc1_tables_ok L ∧
  grid_matches (tensix_grid_size L) (tensix_cores L) ∧
  grid_matches (dram_grid_size L) (dram_cores L) ∧
  grid_matches (arc_grid_size L) (arc_cores L) ∧
  grid_matches (pcie_grid_size L) (pcie_cores L) ∧
  vec_size (eth_cores L) ≤ 31 ∧
  vec_size (l2cpu_cores L) ≤ 31.
#[global] Instance wf_layout_dec L : Decision (wf_layout L).
Proof. unfold wf_layout. apply _. Defined.

Lemma elem_of_concat_map {A B} (f : A → list B) (l : list A) b :
  b ∈ concat (map f l) ↔ ∃ a, a ∈ l ∧ b ∈ f a.
Proof.
  rewrite list_elem_of_In, in_concat. setoid_rewrite in_map_iff. split.
  - intros (x & (a & <- & Ha) & Hb). exists a. by rewrite !list_elem_of_In.
  - intros (a & Ha & Hb). exists (f a). rewrite <- !list_elem_of_In. split; [|done].
    exists a. by rewrite <- list_elem_of_In.
Qed.

Lemma NoDup_concat_map {A B} (f : A → list B) (l : list A) :
  NoDup (concat (map f l)) →
  (∀ a, a ∈ l → NoDup (f a)) ∧
  (∀ a a' b, a ∈ l → a' ∈ l → b ∈ f a → b ∈ f a' → a = a').
Proof.
  induction l as [|x l IH]; simpl; intros Hnd.
  { split; intros a; [|intros a' b]; intros Ha; by apply not_elem_of_nil in Ha. }
  apply list.NoDup_app in Hnd as (Hx & Hdisj & Hl). destruct (IH Hl) as [IH1 IH2]. split.
  - intros a [->|Ha]%elem_of_cons; auto.
  - intros a a' b [->|Ha]%elem_of_cons [->|Ha']%elem_of_cons Hb Hb'; [done| | |by eapply IH2].
    + exfalso. apply (Hdisj b Hb), elem_of_concat_map. eauto.
    + exfalso. apply (Hdisj b Hb'), elem_of_concat_map. eauto.
Qed.

Lemma cores_of_types L t p : p ∈ cores_of L t → t ∈ all_core_types.
Proof.
  destruct t; simpl; intros Hp; try (by apply not_elem_of_nil in Hp);
    apply list_elem_of_In; simpl; tauto.
Qed.

Section wf.
Context (L : Layout) (Hwf : wf_layout L).

Lemma wf_NoDup t : NoDup (cores_of L t).
Proof.
  destruct Hwf as (Hnd & _). apply NoDup_concat_map in Hnd as [Hnd _].
  destruct (decide (t ∈ all_core_types)) as [|Ht]; [by apply Hnd|].
  destruct (cores_of L t) as [|p l] eqn:E; [apply NoDup_nil_2|].
  exfalso. apply Ht, (cores_of_types L t p). rewrite E. by left.
Qed.

Lemma wf_type t t' p : p ∈ cores_of L t → p ∈ cores_of L t' → t = t'.
Proof.
  intros Hp Hp'. destruct Hwf as (Hnd & _). apply NoDup_concat_map in Hnd as [_ Hnd].
  by apply (Hnd t t' p); [eapply cores_of_types..| |].
Qed.

Lemma all_cores_of t p : p ∈ cores_of L t → p ∈ all_cores L.
Proof. intros Hp. apply elem_of_concat_map. exists t. by split; [eapply cores_of_types|]. Qed.

Lemma wf_bounds t p : p ∈ cores_of L t → 0 ≤ xy_x p < 17 ∧ 0 ≤ xy_y p < 12.
Proof.
  intros Hp. destruct Hwf as (_ & Hb & _). rewrite list.Forall_forall in Hb.
  apply Hb. by eapply all_cores_of.
Qed.

(** The NOC1 name of a core. *)
Definition noc1_of (p : xy_pair) : option xy_pair :=
  x ← noc0_x_to_noc1_x L !! Z.to_nat (xy_x p);
  y ← noc0_y_to_noc1_y L !! Z.to_nat (xy_y p);
  Some (XY x y).

Lemma noc1_of_inj t t' p p' q :
  p ∈ cores_of L t → p' ∈ cores_of L t' → noc1_of p = Some q → noc1_of p' = Some q → p = p'.
Proof.
  unfold noc1_of. intros Hp Hp' H1 H2.
  apply bind_Some in H1 as (x & Hx & (y & Hy & [= <-])%bind_Some).
  apply bind_Some in H2 as (x' & Hx' & (y' & Hy' & [= -> ->])%bind_Some).
  destruct Hwf as (_ & _ & [E|[E|(Hndx & Hndy & _)]] & _).
  { by rewrite E in Hx. } { by rewrite E in Hy. }
  pose proof (NoDup_lookup _ _ _ _ Hndx Hx Hx'). pose proof (NoDup_lookup _ _ _ _ Hndy Hy Hy').
  pose proof (wf_bounds _ _ Hp). pose proof (wf_bounds _ _ Hp').
  destruct p, p'; simpl in *. f_equal; lia.
Qed.
End wf.

(** ** Logical names by rank *)

(** Unit [i] (a row, column, bank or channel) is in use when its bit is clear. *)
Definition kept (mask i : Z) : bool := negb (Z.testbit mask i).

(** How the cores of one type are arranged: [ug_outer] harvestable units of
    [ug_inner] cores, the logical place of the [j]-th core of the [k]-th kept
    unit, and the index of core [(i, j)] in the type's core list. *)
Record UnitGrid := MkUnitGrid {
  ug_mask : Z;
  ug_outer : Z;
  ug_inner : Z;
  ug_place : Z → Z → xy_pair;
  ug_index : Z → Z → Z;
}.

Definition unit_core (g : UnitGrid) (cores : list xy_pair) (i j : Z) (p : xy_pair) : Prop :=
  0 ≤ i < ug_outer g ∧ 0 ≤ j < ug_inner g ∧ cores !! Z.to_nat (ug_index g i j) = Some p.

Definition grid_naming (g : UnitGrid) (cores : list xy_pair) (q p : xy_pair) : Prop :=
  ∃ i j, unit_core g cores i j p ∧ kept (ug_mask g) i = true ∧
         q = ug_place g (rank (kept (ug_mask g)) i) j.

Record unit_grid_ok (g : UnitGrid) (cores : list xy_pair) : Prop := {
  ugo_place : ∀ k j k' j', ug_place g k j = ug_place g k' j' → k = k' ∧ j = j';
  ugo_index : ∀ i j, 0 ≤ i < ug_outer g → 0 ≤ j < ug_inner g →
    0 ≤ ug_index g i j < vec_size cores;
  ugo_index_inj : ∀ i j i' j', 0 ≤ i < ug_outer g → 0 ≤ j < ug_inner g →
    0 ≤ i' < ug_outer g → 0 ≤ j' < ug_inner g → ug_index g i j = ug_index g i' j' → i = i' ∧ j = j';
  ugo_index_surj : ∀ k, 0 ≤ k < vec_size cores → ∃ i j,
    0 ≤ i < ug_outer g ∧ 0 ≤ j < ug_inner g ∧ ug_index g i j = k;
  ugo_outer : 0 ≤ ug_outer g ≤ 31;
  ugo_inner : 0 ≤ ug_inner g ≤ 31;
  ugo_size : vec_size cores ≤ 961;
  ugo_NoDup : NoDup cores;
}.

Section unit_grid.
Context (g : UnitGrid) (cores : list xy_pair) (Hg : unit_grid_ok g cores).

Lemma unit_core_inj i j i' j' p :
  unit_core g cores i j p → unit_core g cores i' j' p → i = i' ∧ j = j'.
Proof.
  intros (Hi & Hj & Hp) (Hi' & Hj' & Hp').
  apply (ugo_index_inj _ _ Hg); [done..|].
  pose proof (NoDup_lookup _ _ _ _ (ugo_NoDup _ _ Hg) Hp Hp').
  pose proof (ugo_index _ _ Hg _ _ Hi Hj). pose proof (ugo_index _ _ Hg _ _ Hi' Hj'). lia.
Qed.
Lemma unit_core_functional i j p p' : unit_core g cores i j p → unit_core g cores i j p' → p = p'.
Proof. intros (_ & _ & Hp) (_ & _ & Hp'). congruence. Qed.
Lemma unit_core_at i j : 0 ≤ i < ug_outer g → 0 ≤ j < ug_inner g → ∃ p, unit_core g cores i j p.
Proof.
  intros Hi Hj. destruct (vec_lookup cores (ug_index g i j)) as [p Hp].
  { by apply (ugo_index _ _ Hg). }
  by exists p.
Qed.
Lemma unit_core_elem i j p : unit_core g cores i j p → p ∈ cores.
Proof. intros (_ & _ & Hp). by eapply list_elem_of_lookup_2. Qed.
Lemma unit_core_of p : p ∈ cores → ∃ i j, unit_core g cores i j p.
Proof.
  intros (k & Hk)%list_elem_of_lookup_1. pose proof (lookup_lt_Some _ _ _ Hk).
  destruct (ugo_index_surj _ _ Hg (Z.of_nat k)) as (i & j & Hi & Hj & E); [unfold vec_size; lia|].
  exists i, j. split; [done|]. split; [done|]. by rewrite E, Nat2Z.id.
Qed.

Lemma grid_naming_functional q p p' :
  grid_naming g cores q p → grid_naming g cores q p' → p = p'.
Proof.
  intros (i & j & Hp & Hk & ->) (i' & j' & Hp' & Hk' & E).
  apply (ugo_place _ _ Hg) in E as [E ->].
  assert (i = i') as ->; [|by eapply unit_core_functional].
  destruct Hp as (Hi & _), Hp' as (Hi' & _). by apply (rank_inj (kept (ug_mask g))); [lia..| | |].
Qed.
Lemma grid_naming_injective q q' p :
  grid_naming g cores q p → grid_naming g cores q' p → q = q'.
Proof.
  intros (i & j & Hp & _ & ->) (i' & j' & Hp' & _ & ->).
  by destruct (unit_core_inj _ _ _ _ _ Hp Hp') as [-> ->].
Qed.
(** A core of a harvested unit has no logical name. *)
Lemma grid_naming_harvested i j q p :
  unit_core g cores i j p → grid_naming g cores q p → Z.testbit (ug_mask g) i = false.
Proof.
  intros Hp (i' & j' & Hp' & Hk & _).
  destruct (unit_core_inj _ _ _ _ _ Hp Hp') as [-> _]. unfold kept in Hk.
  by destruct (Z.testbit (ug_mask g) i').
Qed.
End unit_grid.

(** ** The table *)

Definition NameRel := CoreType → xy_pair → xy_pair → Prop.

(** The logical names the unit grids give. *)
Definition logical_names (L : Layout) (grids : CoreType → option UnitGrid) : NameRel := λ t q p,
  match grids t with Some g => grid_naming g (cores_of L t) q p | None => False end.

Definition table (L : Layout) (logical translated : NameRel) : Table := λ c p,
  p ∈ cores_of L (core_type c) ∧
  match coord_system c with
  | NOC0 => to_pair c = p
  | NOC1 => noc1_of L p = Some (to_pair c)
  | LOGICAL => logical (core_type c) (to_pair c) p
  | TRANSLATED => translated (core_type c) (to_pair c) p
  | LITERAL => False
  end.

(** What the logical and translated names of a layout must satisfy. *)
Class Naming (L : Layout) (grids : CoreType → option UnitGrid) (translated : NameRel) := {
  naming_wf : wf_layout L;
  naming_grid : ∀ t g, grids t = Some g → unit_grid_ok g (cores_of L t);
  translated_injective : ∀ t q q' p,
    p ∈ cores_of L t → translated t q p → translated t q' p → q = q';
  translated_place : ∀ t t' q p p',
    p ∈ cores_of L t → p' ∈ cores_of L t' → translated t q p → translated t' q p' →
    p = p';
}.

Lemma CoreCoord_ext c c' :
  to_pair c = to_pair c' → core_type c = core_type c' → coord_system c = coord_system c' → c = c'.
Proof. destruct c, c'; unfold to_pair; simpl. by intros [= -> ->] -> ->. Qed.

#[export] Instance table_laws `{Naming L grids translated} :
  TableLaws (table L (logical_names L grids) translated).
Proof.
  pose proof (naming_wf (L:=L)) as Hwf. unfold table, logical_names. split.
  - intros c p p' [Hp HT] [Hp' HT']. destruct (coord_system c); [| | | |done].
    + destruct (grids (core_type c)) eqn:E; [|done].
      eapply grid_naming_functional; [by eapply naming_grid|done..].
    + congruence.
    + eapply (translated_place (L:=L)); [exact Hp|exact Hp'|done..].
    + by eapply noc1_of_inj; [exact Hwf|exact Hp|exact Hp'|..].
  - intros c c' p [Hp HT] [Hp' HT'] Es.
    pose proof (wf_type _ Hwf _ _ _ Hp Hp') as Et. apply CoreCoord_ext; [|done..].
    rewrite <- Es, <- Et in HT'. destruct (coord_system c); [| | | |done].
    + destruct (grids (core_type c)) eqn:E; [|done].
      eapply grid_naming_injective; [by eapply naming_grid|done..].
    + congruence.
    + eapply (translated_injective (L:=L)); [exact Hp|done..].
    + congruence.
  - intros c c' p p' [Hp HT] [Hp' HT'] Es Hl Eq. apply CoreCoord_ext; [done| |done].
    rewrite <- Es, <- Eq in HT'. enough (p = p') as <- by (by eapply wf_type).
    destruct (coord_system c); [done| | | |done].
    + congruence.
    + eapply (translated_place (L:=L)); [exact Hp|exact Hp'|done..].
    + by eapply noc1_of_inj; [exact Hwf|exact Hp|exact Hp'|..].
Qed.

(** Row-major indices. *)
Lemma row_major_inj m i j i' j' :
  0 ≤ j < m → 0 ≤ j' < m → i * m + j = i' * m + j' → i = i' ∧ j = j'.
Proof. intros. assert (i = i') as -> by nia. lia. Qed.
Lemma row_major_surj n m k : 0 ≤ k < n * m → 0 ≤ m → ∃ i j, 0 ≤ i < n ∧ 0 ≤ j < m ∧ i * m + j = k.
Proof.
  intros Hk Hm. assert (0 < m) by (destruct (decide (m = 0)) as [->|]; lia). exists (k / m), (k `mod` m).
  pose proof (Z.div_mod k m ltac:(lia)). pose proof (Z.mod_pos_bound k m ltac:(lia)).
  split; [|split; [done|lia]]. split; [apply Z.div_pos; lia|].
  apply Z.div_lt_upper_bound; [lia|]. rewrite Z.mul_comm. lia.
Qed.

(** The arrangements the managers use: banks (columns of [inner] cores stored
    together), rows and columns of a row-major grid, and single cores. *)
Definition bank_grid (mask : Z) (grid : xy_pair) : UnitGrid :=
  MkUnitGrid mask (xy_x grid) (xy_y grid) XY (λ i j, i * xy_y grid + j).
Definition row_grid (mask : Z) (grid : xy_pair) : UnitGrid :=
  MkUnitGrid mask (xy_y grid) (xy_x grid) (λ k j, XY j k) (λ i j, i * xy_x grid + j).
Definition column_grid (mask : Z) (grid : xy_pair) : UnitGrid :=
  MkUnitGrid mask (xy_x grid) (xy_y grid) XY (λ i j, i + j * xy_x grid).
Definition channel_grid (mask size : Z) : UnitGrid :=
  MkUnitGrid mask size 1 (λ k j, XY j k) (λ i _, i).

Lemma bank_grid_ok mask grid cores :
  grid_matches grid cores → NoDup cores → unit_grid_ok (bank_grid mask grid) cores.
Proof.
  intros (Hx & Hy & Hs) Hnd. split; simpl; [| | | |lia|lia|nia|done].
  - by intros ???? [= -> ->].
  - intros. nia.
  - intros ???? _ ? _ ?. by apply row_major_inj.
  - rewrite Hs. intros. apply row_major_surj; lia.
Qed.
Lemma row_grid_ok mask grid cores :
  grid_matches grid cores → NoDup cores → unit_grid_ok (row_grid mask grid) cores.
Proof.
  intros (Hx & Hy & Hs) Hnd. split; simpl; [| | | |lia|lia|nia|done].
  - by intros ???? [= -> ->].
  - intros. nia.
  - intros ???? _ ? _ ?. by apply row_major_inj.
  - rewrite Hs. intros. apply row_major_surj; lia.
Qed.
Lemma column_grid_ok mask grid cores :
  grid_matches grid cores → NoDup cores → unit_grid_ok (column_grid mask grid) cores.
Proof.
  intros (Hx & Hy & Hs) Hnd. split; simpl; [| | | |lia|lia|nia|done].
  - by intros ???? [= -> ->].
  - intros. nia.
  - intros i j i' j' ???? E. apply and_comm, (row_major_inj (xy_x grid)); lia.
  - rewrite Hs. intros k Hk. destruct (row_major_surj (xy_y grid) (xy_x grid) k) as (i & j & ?); [lia..|].
    exists j, i. lia.
Qed.
Lemma channel_grid_ok mask size cores :
  size = vec_size cores → size ≤ 31 → NoDup cores → unit_grid_ok (channel_grid mask size) cores.
Proof.
  intros -> Hs Hnd. split; simpl; [| | | |unfold vec_size in *; lia|lia|lia|done].
  - by intros ???? [= -> ->].
  - intros. lia.
  - intros. lia.
  - intros k Hk. exists k, 0. lia.
Qed.
