(* ===== verification/CoordPhases.v ===== *)
(** * The phases of initialize() that the managers share

    Every phase runs to completion on a manager whose maps agree with the
    table, stays inside the table and adds its slice of it: the names of one
    core type in one coordinate system. *)

From Stdlib Require Import ZArith Lia.
From stdpp Require Import base gmap list list_numbers numbers.
From S2P Require Import Prelude CoreTypes ArchData Harvesting CoordinateManager.
From S2P Require Import CoordTheory CoordTable.

Local Open Scope Z_scope.

Section phases.
Context (L : Layout) (M : HarvestingMasks) (b : bool).
Context (grids : CoreType → option UnitGrid) (translated : NameRel).
Context `{HN : !Naming L grids translated}.
Abbreviation T := (table L (logical_names L grids) translated).
Abbreviation good := (good T L M b).
Abbreviation steps := (steps T L M b).
Abbreviation runs := (runs T L M b).

(** The entries of one core type in one coordinate system. *)
Definition slice (t : CoreType) (s : CoordSystem) : Table := λ c p,
  core_type c = t ∧ coord_system c = s ∧ T c p.

Lemma T_NOC0 t p : p ∈ cores_of L t → T (CoreCoord_of_pair p t NOC0) p.
Proof. intros. split; [done|]. by destruct p. Qed.
Lemma T_TRANSLATED t q p :
  p ∈ cores_of L t → translated t q p → T (CoreCoord_of_pair q t TRANSLATED) p.
Proof. intros. split; [done|]. by destruct q. Qed.
Lemma T_LOGICAL t g q p :
  grids t = Some g → grid_naming g (cores_of L t) q p → T (CoreCoord_of_pair q t LOGICAL) p.
Proof.
  intros Hg Hn. pose proof Hn as (i & j & Hc & _). split; [by eapply unit_core_elem|].
  unfold logical_names; simpl. rewrite Hg. by destruct q.
Qed.

Lemma slice_LOGICAL t g c p :
  grids t = Some g → slice t LOGICAL c p →
  ∃ q, grid_naming g (cores_of L t) q p ∧ c = CoreCoord_of_pair q t LOGICAL.
Proof.
  intros Hg (<- & Es & Hp & HT). rewrite Es in HT. unfold logical_names in HT. rewrite Hg in HT.
  exists (to_pair c). split; [done|]. destruct c; simpl in *. by subst.
Qed.
Lemma slice_TRANSLATED t c p :
  slice t TRANSLATED c p →
  ∃ q, p ∈ cores_of L t ∧ translated t q p ∧ c = CoreCoord_of_pair q t TRANSLATED.
Proof.
  intros (<- & Es & Hp & HT). rewrite Es in HT.
  exists (to_pair c). split; [done|]. split; [done|]. destruct c; simpl in *. by subst.
Qed.
(** A manager that covers the logical slice knows each kept core by its name. *)
Lemma has_logical t g i j p cm :
  grids t = Some g → covers cm (slice t LOGICAL) → unit_core g (cores_of L t) i j p →
  kept (ug_mask g) i = true →
  has cm (CoreCoord_of_pair (ug_place g (rank (kept (ug_mask g)) i) j) t LOGICAL) p.
Proof.
  intros Hg Hc Hp Hk. apply Hc. split; [done|]. split; [done|]. eapply T_LOGICAL; [done|].
  by exists i, j.
Qed.

(** ** NOC0 and NOC1 *)

Lemma steps_identity_map_noc0 cm :
  good cm → steps cm (identity_map_noc0_cores cm) (λ c p, coord_system c = NOC0 ∧ T c p).
Proof.
  intros Hg. unfold identity_map_noc0_cores.
  assert (∀ types cm, good cm →
    steps cm (foldl (λ cm t, identity_map t NOC0 (cores_of (layout cm) t) cm) cm types)
      (λ c p, core_type c ∈ types ∧ coord_system c = NOC0 ∧ T c p)) as H.
  { clear cm Hg. induction types as [|t types IH]; intros cm Hg; simpl.
    { apply steps_refl; [done|]. intros c p [Hc _]. by apply not_elem_of_nil in Hc. }
    pose proof (steps_identity_map T L M b t NOC0 (cores_of (layout cm) t) cm Hg) as Hs.
    rewrite (good_layout _ _ _ _ _ Hg) in Hs |- *. specialize (Hs (T_NOC0 t)).
    eapply steps_weaken; [|eapply steps_trans; [exact Hs|apply IH, Hs]].
    simpl. intros c p ([<-|Hc]%elem_of_cons & Es & HT); [left|by right].
    destruct HT as [Hp HT]. rewrite Es in HT. split; [done|]. by destruct c; simpl in *; subst. }
  eapply steps_weaken; [|by apply H]. intros c p [Es HT]. split; [|done].
  destruct HT as [Hp _]. by eapply cores_of_types.
Qed.

Lemma runs_noc1 cm :
  good cm → runs (add_noc1_to_noc0_mapping cm) cm (λ c p, coord_system c = NOC1 ∧ T c p).
Proof.
  intros Hg. unfold add_noc1_to_noc0_mapping. rewrite (good_layout _ _ _ _ _ Hg).
  destruct ((vec_size (noc0_x_to_noc1_x L) =? 0) || (vec_size (noc0_y_to_noc1_y L) =? 0)) eqn:E.
  - apply runs_Ok, steps_refl; [done|]. intros c p (Es & Hp & HT). exfalso. rewrite Es in HT.
    unfold noc1_of in HT. apply orb_true_iff in E.
    apply bind_Some in HT as (x & Hx & (y & Hy & _)%bind_Some).
    unfold vec_size in E. rewrite !Z.eqb_eq in E.
    pose proof (lookup_lt_Some _ _ _ Hx). pose proof (lookup_lt_Some _ _ _ Hy). lia.
  - apply (runs_weaken _ _ _ _ _ _ (λ c p, ∃ t, t ∈ all_core_types ∧
      (∃ core, core ∈ cores_of L t ∧ (p = core ∧ ∃ q, noc1_of L core = Some q ∧
         c = CoreCoord_of_pair q t NOC1)))).
    { intros c p (Es & Hp & HT). rewrite Es in HT. exists (core_type c).
      split; [by eapply cores_of_types|]. exists p. split; [done|]. split; [done|].
      exists (to_pair c). split; [done|]. destruct c; simpl in *. by subst. }
    apply runs_for_each; [apply _|done|]. intros t cm1 _ Hg1 _.
    unfold map_noc0_to_noc1_cores. rewrite (good_layout _ _ _ _ _ Hg1).
    apply runs_for_each; [apply _|done|]. intros p cm2 Hp Hg2 _. rewrite (good_layout _ _ _ _ _ Hg2).
    destruct (noc1_of L p) as [q|] eqn:Hq.
    + pose proof Hq as Hq'. unfold noc1_of in Hq'.
      apply bind_Some in Hq' as (x & Hx & (y & Hy & [= <-])%bind_Some).
      rewrite (vec_at_Some _ _ _ Hx), (vec_at_Some _ _ _ Hy); simpl.
      apply runs_Ok, steps_add; [apply _|done|split; [done|exact Hq]|].
      by intros c p' (-> & q & [= <-] & ->).
    + exfalso. apply orb_false_iff in E as [Ex Ey]. rewrite Z.eqb_neq in Ex, Ey.
      destruct (naming_wf (L:=L)) as (_ & Hb & Hn & _). unfold noc1_of in Hq.
      pose proof (wf_bounds _ (naming_wf (L:=L)) _ _ Hp) as [Hbx Hby].
      destruct Hn as [E|[E|(_ & _ & Hr)]]; [by rewrite E in Ex|by rewrite E in Ey|].
      rewrite list.Forall_forall in Hr. destruct (Hr p) as [Hx Hy]; [by eapply all_cores_of|].
      destruct (vec_lookup (noc0_x_to_noc1_x L) (xy_x p)) as [x Hx']; [lia|].
      destruct (vec_lookup (noc0_y_to_noc1_y L) (xy_y p)) as [y Hy']; [lia|].
      rewrite Hx', Hy' in Hq. done.
Qed.

(** ** LOGICAL *)

Lemma steps_logical_core t g i j p cm (A : Table) :
  grids t = Some g → good cm → unit_core g (cores_of L t) i j p →
  kept (ug_mask g) i = true →
  (∀ c' p', A c' p' →
     c' = CoreCoord_of_pair (ug_place g (rank (kept (ug_mask g)) i) j) t LOGICAL ∧ p' = p) →
  steps cm (add_core_translation
              (CoreCoord_of_pair (ug_place g (rank (kept (ug_mask g)) i) j) t LOGICAL) p cm) A.
Proof.
  intros Hg Hgood Hp Hk HA. apply steps_add; [apply _|done| |done].
  eapply T_LOGICAL; [done|]. by exists i, j.
Qed.

(** The slice of a type, unit by unit. *)
Lemma slice_LOGICAL_units t g c p :
  grids t = Some g → slice t LOGICAL c p →
  ∃ i, 0 ≤ i < ug_outer g ∧ kept (ug_mask g) i = true ∧
  ∃ j, 0 ≤ j < ug_inner g ∧ unit_core g (cores_of L t) i j p ∧
    c = CoreCoord_of_pair (ug_place g (rank (kept (ug_mask g)) i) j) t LOGICAL.
Proof.
  intros Hg Hs. destruct (slice_LOGICAL _ _ _ _ Hg Hs) as (q & (i & j & Hc & Hk & ->) & ->).
  pose proof Hc as (Hi & Hj & _). exists i. split; [done|]. split; [done|].
  exists j. split; [done|]. by split.
Qed.

Lemma rank_kept_u64 mask i n :
  0 ≤ i < n → n ≤ 31 → kept mask i = true →
  u64 (rank (kept mask) i + 1) = rank (kept mask) (i + 1).
Proof.
  intros Hi Hn Hk. rewrite rank_S, Hk by lia. apply u64_small.
  pose proof (rank_bounds (kept mask) i). lia.
Qed.

(** The logical loop of the harvestable types: units in order, a harvested
    unit is skipped, the kept ones are numbered consecutively. *)
Lemma kept_units_loop t g (mask_of : CoordinateManager → Z) body cm :
  grids t = Some g → good cm →
  (∀ cm1, good cm1 → mask_of cm1 = ug_mask g) →
  (∀ i j p cm1, good cm1 → unit_core g (cores_of L t) i j p →
     body i (rank (kept (ug_mask g)) i) j cm1 =
     Ok (add_core_translation
           (CoreCoord_of_pair (ug_place g (rank (kept (ug_mask g)) i) j) t LOGICAL) p cm1)) →
  ∃ cm', for_each (seqZ 0 (ug_outer g)) (λ i '(cm, k),
      harvested ← test_mask (mask_of cm) i;
      if negb harvested then
        cm ← for_each (seqZ 0 (ug_inner g)) (λ j cm, body i k j cm) cm;
        Ok (cm, u64 (k + 1))
      else Ok (cm, k)) (cm, 0) = Ok (cm', rank (kept (ug_mask g)) (ug_outer g)) ∧
    steps cm cm' (slice t LOGICAL).
Proof.
  intros Hg Hgood Hmask Hbody. pose proof (naming_grid _ _ Hg) as Hok.
  pose proof (ugo_outer _ _ Hok) as Hn. set (k i := rank (kept (ug_mask g)) i).
  edestruct (loop_steps T L M b (λ cm i, (cm, k i)) (ug_outer g)) as (cm' & Hr & Hs);
    [exact Hgood|lia| |].
  2:{ exists cm'. split; [exact Hr|]. eapply steps_weaken; [|exact Hs].
      intros c p Hsl. destruct (slice_LOGICAL_units _ _ _ _ Hg Hsl) as (i & Hi & HA).
      exists i. split; [done|]. exact HA. }
  intros i cm1 Hi Hg1 _. cbn beta iota. rewrite (Hmask _ Hg1), test_mask_spec by lia.
  cbn [mbind result_bind]. fold (kept (ug_mask g) i). destruct (kept (ug_mask g) i) eqn:Hk.
  - edestruct (runs_loop T L M b (ug_inner g)) as (cm2 & Hr2 & Hs2);
      [exact Hg1|apply (ugo_inner _ _ Hok)| |].
    2:{ exists cm2. rewrite Hr2; simpl. unfold k. rewrite (rank_kept_u64 _ _ (ug_outer g)) by (done || lia).
        split; [done|]. eapply steps_weaken; [|exact Hs2].
        intros c p (_ & j & Hj & HA). exists j. split; [done|]. exact HA. }
    intros j cm2 Hj Hg2 _. destruct (unit_core_at _ _ Hok i j Hi Hj) as [p Hp].
    unfold k. rewrite (Hbody _ _ _ _ Hg2 Hp). apply runs_Ok, (steps_logical_core _ _ _ _ _ _ _ Hg Hg2 Hp Hk).
    intros c' p' [Hp' ->]. split; [done|]. by eapply unit_core_functional.
  - exists cm1. unfold k. rewrite rank_S, Hk, Z.add_0_r by lia. split; [done|].
    apply steps_refl; [done|]. intros c p [Hk' _]. done.
Qed.

(** Without harvesting, logical names are positions. *)
Definition unharvested (g : UnitGrid) : Prop :=
  ∀ i, 0 ≤ i < ug_outer g → kept (ug_mask g) i = true.

Lemma unharvested_rank g i :
  unharvested g → 0 ≤ i < ug_outer g → rank (kept (ug_mask g)) i = i.
Proof. intros Hu Hi. apply rank_all; [lia|]. intros j Hj. apply Hu. lia. Qed.

(** The logical loop without harvesting. *)
Lemma runs_unharvested t g body cm :
  grids t = Some g → good cm → unharvested g →
  (∀ i cm1, 0 ≤ i < ug_outer g → good cm1 →
     runs (body i cm1) cm1 (λ c p, ∃ j, 0 ≤ j < ug_inner g ∧ unit_core g (cores_of L t) i j p ∧
       c = CoreCoord_of_pair (ug_place g i j) t LOGICAL)) →
  runs (for_each (seqZ 0 (ug_outer g)) body cm) cm (slice t LOGICAL).
Proof.
  intros Hg Hgood Hu Hbody. pose proof (ugo_outer _ _ (naming_grid _ _ Hg)).
  eapply runs_weaken; [|apply runs_loop; [done|lia|intros i cm1 Hi Hg1 _; by apply Hbody]].
  intros c p Hs. destruct (slice_LOGICAL_units _ _ _ _ Hg Hs) as (i & Hi & _ & HA).
  rewrite unharvested_rank in HA by done. by exists i.
Qed.

Lemma runs_add_logical_grid t mask grid cm :
  grids t = Some (bank_grid mask grid) → good cm → unharvested (bank_grid mask grid) →
  runs (add_logical_grid t grid (cores_of L t) cm) cm (slice t LOGICAL).
Proof.
  intros Hg Hgood Hu. pose proof (naming_grid _ _ Hg) as Hok.
  apply (runs_unharvested _ _ _ _ Hg Hgood Hu). intros x cm1 Hx Hg1.
  apply (runs_loop T L M b (xy_y grid)); [done|apply (ugo_inner _ _ Hok)|].
  intros y cm2 Hy Hg2 _. destruct (unit_core_at _ _ Hok x y Hx Hy) as [p Hp].
  pose proof (ugo_index _ _ Hok _ _ Hx Hy). pose proof (ugo_size _ _ Hok).
  pose proof Hp as (_ & _ & Hp'). simpl in Hp'.
  rewrite u64_small by (simpl in *; lia). rewrite (vec_idx_Some _ _ _ Hp'); simpl.
  pose proof (steps_logical_core _ _ x y p cm2 (λ c p, unit_core (bank_grid mask grid) (cores_of L t) x y p
       ∧ c = CoreCoord_of_pair (XY x y) t LOGICAL) Hg Hg2 Hp (Hu _ Hx)) as Hs.
  rewrite unharvested_rank in Hs by done. apply runs_Ok, Hs.
  intros c' p' [Hp2 ->]. split; [done|]. by eapply unit_core_functional.
Qed.

Lemma runs_eth_logical mask cm :
  grids ETH = Some (channel_grid mask (vec_size (eth_cores L))) → good cm →
  unharvested (channel_grid mask (vec_size (eth_cores L))) →
  runs (for_each (seqZ 0 (vec_size (eth_cores L))) (λ eth_channel cm,
          eth_core ← vec_idx (eth_cores (layout cm)) eth_channel;
          Ok (add_core_translation (MkCoreCoord 0 eth_channel ETH LOGICAL) eth_core cm)) cm)
    cm (slice ETH LOGICAL).
Proof.
  intros Hg Hgood Hu. pose proof (naming_grid _ _ Hg) as Hok.
  apply (runs_unharvested _ _ _ _ Hg Hgood Hu). intros i cm1 Hi Hg1.
  rewrite (good_layout _ _ _ _ _ Hg1).
  destruct (unit_core_at _ _ Hok i 0 Hi ltac:(simpl; lia)) as [p Hp].
  pose proof Hp as (_ & _ & Hp'). simpl in Hp'. rewrite (vec_idx_Some _ _ _ Hp'); simpl.
  pose proof (steps_logical_core _ _ i 0 p cm1 (λ c p, ∃ j, 0 ≤ j < 1 ∧
    unit_core (channel_grid mask (vec_size (eth_cores L))) (cores_of L ETH) i j p ∧
    c = CoreCoord_of_pair (XY j i) ETH LOGICAL) Hg Hg1 Hp (Hu _ Hi)) as Hs.
  rewrite unharvested_rank in Hs by done. apply runs_Ok, Hs.
  intros c' p' (j & Hj & Hp2 & ->). assert (j = 0) as -> by lia.
  split; [done|]. by eapply unit_core_functional.
Qed.

(** ** TRANSLATED by default *)

Definition identity_translated (t : CoreType) : Prop :=
  ∀ p, p ∈ cores_of L t → translated t p p.

Lemma slice_identity t c p :
  identity_translated t → slice t TRANSLATED c p →
  p ∈ cores_of L t ∧ c = CoreCoord_of_pair p t TRANSLATED.
Proof.
  intros Hid Hs. destruct (slice_TRANSLATED _ _ _ Hs) as (q & Hp & Hq & ->).
  split; [done|]. f_equal. eapply (translated_injective (L:=L)); [exact Hp|done|by apply Hid].
Qed.

Lemma steps_identity_translated t cm :
  identity_translated t → good cm →
  steps cm (identity_map t TRANSLATED (cores_of L t) cm) (slice t TRANSLATED).
Proof.
  intros Hid Hg. eapply steps_weaken; [|apply steps_identity_map; [apply _|done|]].
  - intros c p Hs. by apply slice_identity.
  - intros p Hp. apply T_TRANSLATED; [done|]. by apply Hid.
Qed.

Lemma steps_identity_core t p cm (A : Table) :
  identity_translated t → good cm → p ∈ cores_of L t →
  (∀ c' p', A c' p' → c' = CoreCoord_of_pair p t TRANSLATED ∧ p' = p) →
  steps cm (add_core_translation (CoreCoord_of_pair p t TRANSLATED) p cm) A.
Proof.
  intros Hid Hg Hp HA. apply steps_add; [apply _|done| |done].
  apply T_TRANSLATED; [done|]. by apply Hid.
Qed.

Lemma runs_fill_grid_default t mask grid cm :
  grids t = Some (bank_grid mask grid) → identity_translated t →
  good cm → unharvested (bank_grid mask grid) → covers cm (slice t LOGICAL) →
  runs (fill_grid_default t grid cm) cm (slice t TRANSLATED).
Proof.
  intros Hg Hid Hgood Hu Hcov. pose proof (naming_grid _ _ Hg) as Hok.
  apply (runs_weaken _ _ _ _ _ _ (λ c p, ∃ x, 0 ≤ x < xy_x grid ∧ ∃ y, 0 ≤ y < xy_y grid ∧
    (unit_core (bank_grid mask grid) (cores_of L t) x y p ∧ c = CoreCoord_of_pair p t TRANSLATED))).
  { intros c p Hs. destruct (slice_identity _ _ _ Hid Hs) as [Hp ->].
    destruct (unit_core_of _ _ Hok p Hp) as (i & j & Hc). pose proof Hc as (Hi & Hj & _).
    exists i. split; [done|]. by exists j. }
  apply runs_loop; [done|apply (ugo_outer _ _ Hok)|]. intros x cm1 Hx Hg1 He1.
  apply runs_loop; [done|apply (ugo_inner _ _ Hok)|]. intros y cm2 Hy Hg2 He2.
  destruct (unit_core_at _ _ Hok x y Hx Hy) as [p Hp].
  pose proof (has_logical _ _ _ _ _ _ Hg Hcov Hp (Hu _ Hx)) as Hhas.
  rewrite unharvested_rank in Hhas by done. apply He1, He2 in Hhas.
  change (MkCoreCoord x y t LOGICAL) with (CoreCoord_of_pair (XY x y) t LOGICAL).
  rewrite (subscript_has _ p); [|exact Hhas].
  apply runs_Ok, steps_identity_core; [done|done|by eapply unit_core_elem|].
  intros c' p' [Hp' ->]. pose proof (unit_core_functional _ _ _ _ _ _ Hp Hp') as ->. done.
Qed.

Lemma runs_fill_eth_default cm :
  identity_translated ETH → good cm →
  runs (fill_eth_default_noc0_translated_mapping cm) cm (slice ETH TRANSLATED).
Proof.
  intros Hid Hgood. unfold fill_eth_default_noc0_translated_mapping, num_eth_channels.
  rewrite (good_layout _ _ _ _ _ Hgood).
  eapply runs_weaken; [|apply (runs_loop T L M b _ _ (λ i c p,
    eth_cores L !! Z.to_nat i = Some p ∧ c = CoreCoord_of_pair p ETH TRANSLATED))];
    [|done|unfold vec_size; lia|].
  - intros c p Hs. destruct (slice_identity _ _ _ Hid Hs) as [Hp ->].
    apply list_elem_of_lookup in Hp as [k Hk]. exists (Z.of_nat k).
    pose proof (lookup_lt_Some _ _ _ Hk). unfold vec_size. simpl in *. rewrite Nat2Z.id. split; [lia|done].
  - intros i cm1 Hi Hg1 _. rewrite (good_layout _ _ _ _ _ Hg1).
    destruct (vec_lookup _ _ Hi) as [p Hp]. rewrite (vec_idx_Some _ _ _ Hp); simpl.
    apply runs_Ok, steps_identity_core; [done|done|by eapply list_elem_of_lookup_2|].
    intros c' p' [Hp' ->]. split; [|congruence]. congruence.
Qed.

(** ** The two slices of a type *)

Definition named (t : CoreType) : Table := λ c p, slice t LOGICAL c p ∨ slice t TRANSLATED c p.

Lemma no_harvesting_unharvested n m place idx : unharvested (MkUnitGrid 0 n m place idx).
Proof. intros i _. unfold kept. by rewrite Z.bits_0. Qed.

(** A fill method that completes the type's translated slice. *)
Definition fills_slice (t : CoreType) (fill : CoordinateManager → result CoordinateManager) : Prop :=
  ∀ cm, good cm → covers cm (slice t LOGICAL) → runs (fill cm) cm (slice t TRANSLATED).

Lemma runs_named t (r : result CoordinateManager) fill default cm :
  runs r cm (slice t LOGICAL) → (b = true → fills_slice t fill) → (b = false → fills_slice t default) →
  runs (r ≫= λ cm, if noc_translation_enabled cm then fill cm else default cm) cm (named t).
Proof.
  intros Hr Hfill Hdef. apply (runs_bind T L M b r _ cm _ _ Hr). intros cm' [Hg _ Hc].
  destruct (noc_translation_enabled cm') eqn:E; rewrite (good_noc _ _ _ _ _ Hg) in E;
    [by apply Hfill|by apply Hdef].
Qed.

Lemma fill_grid_default_slice t grid :
  grids t = Some (bank_grid 0 grid) → identity_translated t →
  fills_slice t (fill_grid_default t grid).
Proof.
  intros Hg Hid cm Hgood Hc. apply (runs_fill_grid_default t 0);
    [done|done|done|apply no_harvesting_unharvested|done].
Qed.
Lemma fill_eth_default_slice :
  identity_translated ETH →
  fills_slice ETH fill_eth_default_noc0_translated_mapping.
Proof. intros Hid cm Hgood _. by apply runs_fill_eth_default. Qed.
Lemma fill_pcie_default_slice :
  identity_translated PCIE →
  fills_slice PCIE (λ cm, Ok (fill_pcie_default_noc0_translated_mapping cm)).
Proof.
  intros Hid cm Hgood _. apply runs_Ok. unfold fill_pcie_default_noc0_translated_mapping.
  rewrite (good_layout _ _ _ _ _ Hgood). by apply (steps_identity_translated PCIE).
Qed.
Lemma fill_tensix_default_slice :
  identity_translated TENSIX →
  fills_slice TENSIX (λ cm, Ok (fill_tensix_default_noc0_translated_mapping cm)).
Proof.
  intros Hid cm Hgood _. apply runs_Ok. unfold fill_tensix_default_noc0_translated_mapping.
  rewrite (good_layout _ _ _ _ _ Hgood). by apply (steps_identity_translated TENSIX).
Qed.

(** A type whose fill method is the default of the base class. *)
Lemma fills_layout t (f : xy_pair → CoordinateManager → result CoordinateManager) g :
  fills_slice t (f (g L)) → fills_slice t (λ cm, f (g (layout cm)) cm).
Proof. intros Hf cm Hg Hc. rewrite (good_layout _ _ _ _ _ Hg). by apply Hf. Qed.

(** The identity-mapped types, in the form the translate_* methods have. *)
Lemma steps_identity_type t cm :
  identity_translated t → good cm →
  steps cm (identity_map t TRANSLATED (cores_of (layout cm) t) cm) (slice t TRANSLATED).
Proof.
  intros Hid Hg. rewrite (good_layout _ _ _ _ _ Hg).
  by apply steps_identity_translated.
Qed.

(** Every entry of the table belongs to a phase. *)
Lemma table_phases cm :
  covers cm (λ c p, coord_system c = NOC0 ∧ T c p) →
  covers cm (λ c p, coord_system c = NOC1 ∧ T c p) →
  (∀ t g, grids t = Some g → covers cm (slice t LOGICAL)) →
  (∀ t, t ∈ all_core_types → covers cm (slice t TRANSLATED)) →
  covers cm T.
Proof.
  intros H0 H1 Hl Ht c p HT. pose proof HT as [Hp HT']. unfold logical_names in HT'.
  destruct (coord_system c) eqn:Es; [|by apply H0| |by apply H1|done].
  - destruct (grids (core_type c)) eqn:Eg; [|done]. by apply (Hl _ _ Eg).
  - apply (Ht (core_type c)); [by eapply cores_of_types|done].
Qed.
End phases.
