(* ===== verification/RowCoords.v ===== *)
(** * The tables of the Wormhole and Quasar managers

    [initialize] of a row-harvested manager builds exactly the table whose
    logical Tensix names are ranks among the kept rows; Wormhole's translated
    Tensix names put the kept rows first and the harvested rows behind them. *)

From Stdlib Require Import ZArith Lia.
From stdpp Require Import base gmap list list_numbers numbers.
From S2P Require Import Prelude CoreTypes ArchData Harvesting CoordinateManager.
From S2P Require Import RowHarvestManagers Managers CoordTheory CoordTable CoordPhases.

Local Open Scope Z_scope.

(** The mask [initialize] works with: one with more bits than rows (columns)
    is dropped. *)
Definition effective_masks (limit : Z) (M : HarvestingMasks) : HarvestingMasks :=
  if limit <? get_num_harvested (tensix_harvesting_mask M)
  then MkMasks 0 (dram_harvesting_mask M) (eth_harvesting_mask M)
         (pcie_harvesting_mask M) (l2cpu_harvesting_mask M)
  else M.

Lemma drop_good T L M b limit cm :
  good T L M b cm →
  good T L (effective_masks limit M) b (drop_oversized_tensix_mask limit cm).
Proof.
  intros [HL HM Hb Hm]. unfold drop_oversized_tensix_mask, effective_masks. rewrite HM.
  destruct (limit <? get_num_harvested (tensix_harvesting_mask M)); [|done].
  split; simpl; [done| |done|done]. by rewrite HM.
Qed.

Lemma drop_extends limit cm : extends cm (drop_oversized_tensix_mask limit cm).
Proof. intros c p Hc. unfold drop_oversized_tensix_mask. destruct (limit <? _); exact Hc. Qed.

(** Where unit [i] of [n] lands when the kept units come first. *)
Definition unit_position (mask n i : Z) : Z :=
  if kept mask i then rank (kept mask) i else rank (kept mask) n + rank (Z.testbit mask) i.

Lemma kept_testbit mask i : kept mask i = negb (Z.testbit mask i).
Proof. done. Qed.
Lemma rank_kept mask n : 0 ≤ n → rank (kept mask) n = n - rank (Z.testbit mask) n.
Proof. intros. by rewrite <- rank_negb. Qed.

Lemma unit_position_inj mask n i j :
  0 ≤ i < n → 0 ≤ j < n → unit_position mask n i = unit_position mask n j → i = j.
Proof.
  intros Hi Hj. unfold unit_position.
  pose proof (rank_bounds (Z.testbit mask) i ltac:(lia)).
  pose proof (rank_bounds (Z.testbit mask) j ltac:(lia)).
  destruct (kept mask i) eqn:Ei, (kept mask j) eqn:Ej; intros E.
  - by apply (rank_inj (kept mask)); [lia|lia| | |].
  - pose proof (rank_lt (kept mask) i n Hi Ei). lia.
  - pose proof (rank_lt (kept mask) j n Hj Ej). lia.
  - rewrite kept_testbit, negb_false_iff in Ei, Ej.
    apply (rank_inj (Z.testbit mask)); [lia|lia|done|done|lia].
Qed.
Lemma unit_position_bounds mask n i : 0 ≤ i < n → 0 ≤ unit_position mask n i < n.
Proof.
  intros Hi. unfold unit_position. pose proof (rank_bounds (kept mask) i ltac:(lia)).
  destruct (kept mask i) eqn:Ei.
  - pose proof (rank_lt (kept mask) i n Hi Ei). pose proof (rank_bounds (kept mask) n ltac:(lia)). lia.
  - rewrite kept_testbit, negb_false_iff in Ei. rewrite rank_kept by lia.
    pose proof (rank_lt (Z.testbit mask) i n Hi Ei).
    pose proof (rank_bounds (Z.testbit mask) n ltac:(lia)).
    pose proof (rank_bounds (Z.testbit mask) i ltac:(lia)). lia.
Qed.

(** ** The tables *)

Definition row_grids (L : Layout) (M : HarvestingMasks) (t : CoreType) : option UnitGrid :=
  match t with
  | TENSIX => Some (row_grid (tensix_harvesting_mask M) (tensix_grid_size L))
  | DRAM => Some (bank_grid 0 (dram_grid_size L))
  | ETH => Some (channel_grid 0 (vec_size (eth_cores L)))
  | ARC => Some (bank_grid 0 (arc_grid_size L))
  | PCIE => Some (bank_grid 0 (pcie_grid_size L))
  | _ => None
  end.

Definition wormhole_translated (L : Layout) (M : HarvestingMasks) (b : bool) : NameRel := λ t q p,
  match b, t with
  | true, TENSIX =>
      let mask := tensix_harvesting_mask M in
      let grid := tensix_grid_size L in
      ∃ y x, unit_core (row_grid mask grid) (tensix_cores L) y x p ∧
        q = XY (wormhole.tensix_translated_coordinate_start_x + x)
               (wormhole.tensix_translated_coordinate_start_y + unit_position mask (xy_y grid) y)
  | true, ETH => q = to_pair (Wormhole.eth_translated_coord p)
  | _, _ => q = p
  end.
Definition quasar_translated : NameRel := λ t q p, q = p.

(** The masks a row-harvested manager accepts: no DRAM or ETH harvesting
    (its constructor throws), no bit beyond the rows of the grid. *)
Definition row_masks_ok (L : Layout) (M : HarvestingMasks) : Prop :=
  dram_harvesting_mask M = 0 ∧ eth_harvesting_mask M = 0 ∧
  0 ≤ tensix_harvesting_mask (effective_masks (xy_y (tensix_grid_size L)) M)
    < 2 ^ xy_y (tensix_grid_size L).

(** Wormhole's ETH cores sit in rows 0 and 6, not in the DRAM column 5. *)
Definition wormhole_eth_ok (L : Layout) : Prop :=
  Forall (λ p, xy_x p ≠ 5 ∧ (xy_y p = 0 ∨ xy_y p = 6)) (eth_cores L).

Lemma row_grids_ok L M t g :
  wf_layout L → row_grids L M t = Some g → unit_grid_ok g (cores_of L t).
Proof.
  intros Hwf. pose proof (wf_NoDup _ Hwf t) as Hnd.
  destruct Hwf as (_ & _ & _ & Ht & Hd & Ha & Hp & He & _).
  destruct t; intros [= <-]; simpl in *;
    auto using bank_grid_ok, row_grid_ok, channel_grid_ok.
Qed.

Lemma eth_translated_coord_eq p :
  0 ≤ xy_x p < 17 → xy_x p ≠ 5 → xy_y p = 0 ∨ xy_y p = 6 →
  to_pair (Wormhole.eth_translated_coord p) =
  XY (xy_x p + (if 5 <? xy_x p then 16 else 17)) (if xy_y p =? 6 then 17 else 16).
Proof.
  intros Hx Hne Hy. unfold Wormhole.eth_translated_coord, to_pair; simpl.
  rewrite u64_add_l. unfold wormhole.eth_translated_coordinate_start_x. f_equal.
  - destruct (Z.ltb_spec 5 (xy_x p)); [rewrite (u64_small (xy_x p - 1)) by lia|];
      rewrite u64_small by lia; lia.
  - by destruct Hy as [-> | ->].
Qed.

Section wormhole_naming.
Context (L : Layout) (M : HarvestingMasks) (b : bool).
Context (Hwf : wf_layout L) (Heth : wormhole_eth_ok L).

Lemma wormhole_eth_place p :
  p ∈ cores_of L ETH →
  to_pair (Wormhole.eth_translated_coord p) =
  XY (xy_x p + (if 5 <? xy_x p then 16 else 17)) (if xy_y p =? 6 then 17 else 16).
Proof.
  intros Hp. unfold wormhole_eth_ok in Heth. rewrite list.Forall_forall in Heth.
  pose proof (wf_bounds _ Hwf _ _ Hp). destruct (Heth p Hp). apply eth_translated_coord_eq; tauto.
Qed.

(** The three regions of Wormhole's translated space. *)
Lemma wormhole_region t q p :
  p ∈ cores_of L t → wormhole_translated L M true t q p →
  (t = TENSIX ∧ 18 ≤ xy_y q) ∨ (t = ETH ∧ 16 ≤ xy_y q < 18) ∨
  (t ≠ TENSIX ∧ t ≠ ETH ∧ q = p ∧ xy_y q < 12).
Proof.
  intros Hp. pose proof (wf_bounds _ Hwf _ _ Hp).
  destruct t; simpl; try (intros ->; right; right; repeat split; [done..|lia]).
  - intros (y & x & (Hy & _) & ->). left. split; [done|]. simpl.
    pose proof (unit_position_bounds (tensix_harvesting_mask M) _ _ Hy).
    unfold wormhole.tensix_translated_coordinate_start_y. simpl in *. lia.
  - rewrite wormhole_eth_place by done. intros ->. right; left. split; [done|]. simpl.
    destruct (xy_y p =? 6); lia.
Qed.

Lemma wormhole_tensix_place q p p' :
  wormhole_translated L M true TENSIX q p → wormhole_translated L M true TENSIX q p' → p = p'.
Proof.
  intros (y & x & Hc & ->) (y' & x' & Hc' & [= E1 E2]).
  assert (x = x') as <- by lia. apply Z.add_cancel_l in E2.
  apply unit_position_inj in E2 as <-; [|apply Hc|apply Hc'].
  by eapply unit_core_functional.
Qed.

Lemma wormhole_eth_inj q p p' :
  p ∈ cores_of L ETH → p' ∈ cores_of L ETH →
  wormhole_translated L M true ETH q p → wormhole_translated L M true ETH q p' → p = p'.
Proof.
  intros Hp Hp'. simpl. rewrite !wormhole_eth_place by done. intros -> [= Ex Ey].
  unfold wormhole_eth_ok in Heth. rewrite list.Forall_forall in Heth.
  destruct (Heth p Hp), (Heth p' Hp'), p as [x y], p' as [x' y']; simpl in *.
  destruct (Z.ltb_spec 5 x), (Z.ltb_spec 5 x'), (Z.eqb_spec y 6), (Z.eqb_spec y' 6); f_equal; lia.
Qed.

#[export] Instance wormhole_naming : Naming L (row_grids L M) (wormhole_translated L M b).
Proof.
  split; [done|by intros; eapply row_grids_ok| |].
  - intros t q q' p Hp. destruct b; [|by intros -> ->].
    destruct t; try (by intros -> ->).
    intros (y & x & Hc & ->) (y' & x' & Hc' & ->).
    pose proof (row_grids_ok L M TENSIX _ Hwf eq_refl) as naming_ok.
    by destruct (unit_core_inj _ _ naming_ok _ _ _ _ _ Hc Hc') as [-> ->].
  - intros t t' q p p' Hp Hp'. destruct b; [|by intros -> ->]. intros HT HT'.
    pose proof (wormhole_region _ _ _ Hp HT). pose proof (wormhole_region _ _ _ Hp' HT').
    destruct H as [[-> ?]|[[-> ?]|(? & ? & E & ?)]], H0 as [[-> ?]|[[-> ?]|(? & ? & E' & ?)]]; try lia.
    + by eapply wormhole_tensix_place.
    + by eapply wormhole_eth_inj.
    + congruence.
Qed.
End wormhole_naming.

#[export] Instance quasar_naming L M (Hwf : wf_layout L) :
  Naming L (row_grids L M) quasar_translated.
Proof.
  split; [done|by intros; eapply row_grids_ok| |].
  - by intros t q q' p _ -> ->.
  - by intros t t' q p p' _ _ -> ->.
Qed.

(** ** The phases of the base class *)

Section row_phases.
Context (L : Layout) (M0 : HarvestingMasks) (b : bool) (translated : NameRel).
Abbreviation ROWS := (xy_y (tensix_grid_size L)).
Abbreviation COLS := (xy_x (tensix_grid_size L)).
Abbreviation M := (effective_masks ROWS M0).
Context `{HN : !Naming L (row_grids L M) translated}.
Abbreviation T := (table L (logical_names L (row_grids L M)) translated).
Abbreviation good0 := (good T L M0 b).
Abbreviation good := (good T L M b).
Abbreviation steps := (steps T L M b).
Abbreviation runs := (runs T L M b).
Abbreviation slice := (slice L (row_grids L M) translated).
Abbreviation named := (named L (row_grids L M) translated).
Abbreviation fills_slice := (fills_slice L M b (row_grids L M) translated).

Lemma row_index_u64 i j p :
  unit_core (row_grid (tensix_harvesting_mask M) (tensix_grid_size L)) (tensix_cores L) i j p →
  u64 (i * COLS + j) = i * COLS + j.
Proof.
  intros (Hi & Hj & _). pose proof (naming_grid TENSIX _ eq_refl) as Hok.
  pose proof (ugo_index _ _ Hok _ _ Hi Hj). pose proof (ugo_size _ _ Hok).
  apply u64_small. simpl in *. lia.
Qed.

Lemma translate_tensix_row F cm :
  good0 cm → (b = false → identity_translated L translated TENSIX) →
  (b = true → fills_slice TENSIX (fill_tensix_noc0_translated_mapping F)) →
  ∃ cm', translate_tensix_coords F cm = Ok cm' ∧ good cm' ∧ extends cm cm' ∧ covers cm' (named TENSIX).
Proof.
  intros Hg0 Hid Hfill. unfold translate_tensix_coords. rewrite (good_layout _ _ _ _ _ Hg0).
  pose proof (drop_good _ _ _ _ ROWS _ Hg0) as Hg.
  pose proof (drop_extends ROWS cm) as Hext.
  revert Hg Hext. generalize (drop_oversized_tensix_mask ROWS cm). intros cm0 Hg Hext.
  rewrite (good_layout _ _ _ _ _ Hg).
  edestruct (kept_units_loop L M b (row_grids L M) translated TENSIX
    (row_grid (tensix_harvesting_mask M) (tensix_grid_size L))
    (λ cm, tensix_harvesting_mask (harvesting_masks cm))
    (λ y logical_y x cm, tensix_core ← vec_at (tensix_cores (layout cm)) (u64 (y * COLS + x));
      Ok (add_core_translation (MkCoreCoord x logical_y TENSIX LOGICAL) tensix_core cm)) cm0)
    as (cm1 & Hr & [Hg1 He1 Hc1]); [done|done| | |].
  - intros cm2 Hg2. by rewrite (good_masks _ _ _ _ _ Hg2).
  - intros y x p cm2 Hg2 Hp. rewrite (good_layout _ _ _ _ _ Hg2), (row_index_u64 _ _ _ Hp).
    destruct Hp as (_ & _ & Hp). simpl in Hp. by rewrite (vec_at_Some _ _ _ Hp).
  - cbn [ug_outer ug_inner row_grid] in Hr. rewrite Hr. cbn [mbind result_bind fst].
    destruct (noc_translation_enabled cm1) eqn:Eb; rewrite (good_noc _ _ _ _ _ Hg1) in Eb.
    + destruct (Hfill Eb cm1 Hg1 Hc1) as (cm2 & -> & [Hg2 He2 Hc2]). exists cm2.
      split; [done|]. split; [done|]. split; [by do 2 (etrans; [done|])|].
      intros c p [?|?]; [by apply He2, Hc1|by apply Hc2].
    + unfold fill_tensix_default_noc0_translated_mapping. rewrite (good_layout _ _ _ _ _ Hg1).
      edestruct (steps_identity_translated L M b (row_grids L M) translated TENSIX cm1)
        as [Hg2 He2 Hc2]; [by apply Hid|done|].
      eexists. split; [done|]. split; [exact Hg2|]. split; [by do 2 (etrans; [done|])|].
      intros c p [?|?]; [by apply He2, Hc1|by apply Hc2].
Qed.

Context (F : FillOps).
Context (Hfill_dram : b = true → fills_slice DRAM (fill_dram_noc0_translated_mapping F)).
Context (Hfill_eth : b = true → fills_slice ETH (fill_eth_noc0_translated_mapping F)).
Context (Hfill_pcie : b = true → fills_slice PCIE (fill_pcie_noc0_translated_mapping F)).
Context (Hfill_arc : b = true → fills_slice ARC (fill_arc_noc0_translated_mapping F)).
Context (Hfill_tensix : b = true → fills_slice TENSIX (fill_tensix_noc0_translated_mapping F)).
Context (Hdefault : b = false → ∀ t, identity_translated L translated t).
Context (Hidentity : ∀ t, t ∈ [ROUTER_ONLY; SECURITY; L2CPU; DISPATCH] →
  identity_translated L translated t).

Lemma translate_dram_row cm : good cm → runs (translate_dram_coords F cm) cm (named DRAM).
Proof.
  intros Hg. unfold translate_dram_coords. rewrite (good_layout _ _ _ _ _ Hg).
  apply runs_named; [|done|].
  - eapply (runs_add_logical_grid L M b (row_grids L M) translated DRAM);
      [done|done|apply no_harvesting_unharvested].
  - intros Hb. by apply (fills_layout L M b _ _ DRAM (fill_grid_default DRAM) dram_grid_size),
      fill_grid_default_slice, Hdefault.
Qed.
Lemma translate_arc_row cm : good cm → runs (translate_arc_coords F cm) cm (named ARC).
Proof.
  intros Hg. unfold translate_arc_coords. rewrite (good_layout _ _ _ _ _ Hg).
  apply runs_named; [|done|].
  - eapply (runs_add_logical_grid L M b (row_grids L M) translated ARC);
      [done|done|apply no_harvesting_unharvested].
  - intros Hb. by apply (fills_layout L M b _ _ ARC (fill_grid_default ARC) arc_grid_size),
      fill_grid_default_slice, Hdefault.
Qed.
Lemma translate_pcie_row cm : good cm → runs (translate_pcie_coords F cm) cm (named PCIE).
Proof.
  intros Hg. unfold translate_pcie_coords. rewrite (good_layout _ _ _ _ _ Hg).
  apply runs_named; [|done|].
  - eapply (runs_add_logical_grid L M b (row_grids L M) translated PCIE);
      [done|done|apply no_harvesting_unharvested].
  - intros Hb. by apply fill_pcie_default_slice, Hdefault.
Qed.
Lemma translate_eth_row cm : good cm → runs (translate_eth_coords F cm) cm (named ETH).
Proof.
  intros Hg. unfold translate_eth_coords. rewrite (good_layout _ _ _ _ _ Hg).
  apply runs_named; [|done|].
  - eapply (runs_eth_logical L M b (row_grids L M) translated 0);
      [done|done|apply no_harvesting_unharvested].
  - intros Hb. by apply fill_eth_default_slice, Hdefault.
Qed.

Lemma identity_type t cm :
  t ∈ [ROUTER_ONLY; SECURITY; L2CPU; DISPATCH] → good cm →
  steps cm (identity_map t TRANSLATED (cores_of (layout cm) t) cm) (slice t TRANSLATED).
Proof. intros Ht Hg. apply steps_identity_type; [apply _|by apply Hidentity|done]. Qed.

Theorem initialize_row :
  row_masks_ok L M0 →
  ∃ cm, initialize (base_virtual_ops F) (CoordinateManager_ctor b M0 L) = Ok cm ∧
    good cm ∧ ∀ c p, has cm c p ↔ T c p.
Proof.
  intros (Hdram & Heth & _).
  assert (Hg0 : good0 (CoordinateManager_ctor b M0 L)) by (split; [done..|apply maps_ok_empty]).
  unfold initialize. cbn [v_assert base_virtual_ops].
  unfold assert_coordinate_manager_constructor. cbn [harvesting_masks CoordinateManager_ctor].
  rewrite Hdram, Heth. cbn -[translate_tensix_coords translate_dram_coords translate_eth_coords
    translate_arc_coords translate_pcie_coords add_noc1_to_noc0_mapping identity_map_noc0_cores
    CoordinateManager_ctor translate_router_coords translate_security_coords
    translate_l2cpu_coords translate_dispatch_coords].
  destruct (steps_identity_map_noc0 L M0 b (row_grids L M) translated _ Hg0) as [Hg1 _ Hc1].
  destruct (translate_tensix_row F _ Hg1) as (cm2 & -> & Hg2 & He2 & Hc2);
    [intros; by apply Hdefault|done|]. cbn [mbind result_bind].
  destruct (translate_dram_row _ Hg2) as (cm3 & -> & [Hg3 He3 Hc3]). cbn [mbind result_bind].
  destruct (translate_eth_row _ Hg3) as (cm4 & -> & [Hg4 He4 Hc4]). cbn [mbind result_bind].
  destruct (translate_arc_row _ Hg4) as (cm5 & -> & [Hg5 He5 Hc5]). cbn [mbind result_bind].
  destruct (translate_pcie_row _ Hg5) as (cm6 & -> & [Hg6 He6 Hc6]). cbn [mbind result_bind].
  destruct (identity_type ROUTER_ONLY _ ltac:(set_solver) Hg6) as [Hg7 He7 Hc7].
  destruct (identity_type SECURITY _ ltac:(set_solver) Hg7) as [Hg8 He8 Hc8].
  destruct (identity_type L2CPU _ ltac:(set_solver) Hg8) as [Hg9 He9 Hc9].
  destruct (identity_type DISPATCH _ ltac:(set_solver) Hg9) as [Hga Hea Hca].
  destruct (runs_noc1 L M b (row_grids L M) translated _ Hga) as (cmb & Hr & [Hgb Heb Hcb]).
  exists cmb. split; [exact Hr|]. split; [done|]. intros c p. split.
  { intros Hc. eapply ok_sound; [apply Hgb|exact Hc]. }
  revert c p. apply (table_phases L (row_grids L M) translated); [covers_later|covers_later| |].
  - intros t g Hgrid. destruct t; try done;
      (eapply (covers_weaken _ (named _)); [by left|covers_later]).
  - intros t Ht. unfold all_core_types in Ht.
    repeat (apply elem_of_cons in Ht as [->|Ht]);
      try (eapply (covers_weaken _ (named _)); [by right|covers_later]); try covers_later.
    by apply not_elem_of_nil in Ht.
Qed.
End row_phases.
