(* ===== verification/WormholeCoords.v ===== *)
(** * WormholeCoordinateManager builds its table

    The fill methods of Wormhole and Quasar complete the translated slices;
    [initialize] therefore builds exactly the tables of [RowCoords]. *)

From Stdlib Require Import ZArith Lia.
From stdpp Require Import base gmap list list_numbers numbers.
From S2P Require Import Prelude CoreTypes ArchData Harvesting CoordinateManager.
From S2P Require Import RowHarvestManagers Managers CoordTheory CoordTable CoordPhases RowCoords.

Local Open Scope Z_scope.

Section wormhole_fills.
Context (L : Layout) (M0 : HarvestingMasks) (b : bool) (Hb : b = true).
Abbreviation ROWS := (xy_y (tensix_grid_size L)).
Abbreviation COLS := (xy_x (tensix_grid_size L)).
Abbreviation M := (effective_masks ROWS M0).
Abbreviation mask := (tensix_harvesting_mask M).
Context (Hwf : wf_layout L) (Heth : wormhole_eth_ok L) (Hmask : 0 ≤ mask < 2 ^ ROWS).
Abbreviation translated := (wormhole_translated L M b).
Abbreviation T := (table L (logical_names L (row_grids L M)) translated).
Abbreviation good := (good T L M b).
Abbreviation slice := (slice L (row_grids L M) translated).
Abbreviation g := (row_grid mask (tensix_grid_size L)).

#[local] Instance wormhole_HN : Naming L (row_grids L M) translated.
Proof. by apply wormhole_naming. Qed.
#[local] Instance wormhole_HT : TableLaws T := table_laws.

Lemma rows_bound : 0 ≤ ROWS ≤ 31.
Proof. apply (ugo_outer g _ (naming_grid TENSIX _ eq_refl)). Qed.
Lemma cols_bound : 0 ≤ COLS ≤ 31.
Proof. apply (ugo_inner g _ (naming_grid TENSIX _ eq_refl)). Qed.

Lemma num_harvested_rows : get_num_harvested mask = rank (Z.testbit mask) ROWS.
Proof. pose proof rows_bound. apply get_num_harvested_rank; [lia|done]. Qed.
Lemma num_kept_rows : u64 (ROWS - get_num_harvested mask) = rank (kept mask) ROWS.
Proof.
  pose proof rows_bound. rewrite num_harvested_rows, rank_kept by lia.
  pose proof (rank_bounds (Z.testbit mask) ROWS ltac:(lia)). apply u64_small. lia.
Qed.

(** The translated name of core [x] of row [i], wherever it is added. *)
Lemma steps_translated_core i x p ty cm (A : Table) :
  good cm → unit_core g (tensix_cores L) i x p → ty = 18 + unit_position mask ROWS i →
  (∀ c' p', A c' p' → c' = MkCoreCoord (18 + x) ty TENSIX TRANSLATED ∧ p' = p) →
  steps T L M b cm (add_core_translation
    (MkCoreCoord (u64 (x + wormhole.tensix_translated_coordinate_start_x)) ty TENSIX TRANSLATED) p cm) A.
Proof.
  intros Hg Hc Hty HA. pose proof Hc as (Hi & Hx & _). simpl in Hx. pose proof cols_bound.
  unfold wormhole.tensix_translated_coordinate_start_x.
  rewrite u64_small, Z.add_comm by lia. apply steps_add; [apply _|done| |done].
  split; [by eapply unit_core_elem|]. cbn -[Z.add]. rewrite Hb. exists i, x. by subst.
Qed.

Lemma runs_kept_rows cm :
  good cm → covers cm (slice TENSIX LOGICAL) →
  runs T L M b (for_each (seqZ 0 (rank (kept mask) ROWS)) (λ y cm,
       for_each (seqZ 0 COLS) (λ x cm,
         let '(noc0_pair, cm) := to_noc0_subscript (MkCoreCoord x y TENSIX LOGICAL) cm in
         let translated_x := u64 (x + wormhole.tensix_translated_coordinate_start_x) in
         let translated_y := u64 (y + wormhole.tensix_translated_coordinate_start_y) in
         Ok (add_core_translation
               (MkCoreCoord translated_x translated_y TENSIX TRANSLATED) noc0_pair cm)) cm) cm) cm
    (λ c p, ∃ y, 0 ≤ y < rank (kept mask) ROWS ∧ ∃ x, 0 ≤ x < COLS ∧ ∃ i,
       unit_core g (tensix_cores L) i x p ∧ kept mask i = true ∧ rank (kept mask) i = y ∧
       c = MkCoreCoord (18 + x) (18 + y) TENSIX TRANSLATED).
Proof.
  intros Hgood Hcov. pose proof rows_bound. pose proof cols_bound.
  pose proof (rank_bounds (kept mask) ROWS ltac:(lia)).
  pose proof (naming_grid TENSIX g eq_refl : unit_grid_ok g (tensix_cores L)) as Hok.
  apply runs_loop; [done|lia|]. intros y cm1 Hy Hg1 He1.
  destruct (rank_surj (kept mask) ROWS y) as (i & Hi & Hk & Hrank); [lia..|].
  apply runs_loop; [done|lia|]. intros x cm2 Hx Hg2 He2.
  destruct (unit_core_at g _ Hok i x Hi Hx) as [p Hp].
  pose proof (has_logical L (row_grids L M) translated TENSIX g i x p cm eq_refl Hcov Hp Hk) as Hhas.
  apply He1, He2 in Hhas. simpl in Hhas. rewrite Hrank in Hhas.
  change (MkCoreCoord x y TENSIX LOGICAL) with (CoreCoord_of_pair (XY x y) TENSIX LOGICAL).
  rewrite (subscript_has _ p); [|exact Hhas].
  unfold wormhole.tensix_translated_coordinate_start_y. rewrite (u64_small (y + 18)) by lia.
  apply runs_Ok, (steps_translated_core i); [done|done| |].
  - unfold unit_position. rewrite Hk. lia.
  - intros c p' (i' & Hp' & Hk' & Hr' & ->). rewrite <- Hr' in Hrank.
    apply rank_inj in Hrank as ->; [|lia|apply Hp'|done..].
    split; [f_equal; lia|]. by eapply unit_core_functional.
Qed.

Lemma runs_harvested_rows cm :
  good cm →
  ∃ cm' k, for_each (seqZ 0 ROWS) (λ y '(cm, translated_y),
      harvested ← test_mask (tensix_harvesting_mask (harvesting_masks cm)) y;
      if (harvested : bool) then
        cm ← for_each (seqZ 0 COLS) (λ x cm,
               noc0_core ← vec_idx (tensix_cores (layout cm)) (u64 (y * COLS + x));
               let translated_x := u64 (x + wormhole.tensix_translated_coordinate_start_x) in
               Ok (add_core_translation
                     (MkCoreCoord translated_x translated_y TENSIX TRANSLATED) noc0_core cm)) cm;
        Ok (cm, u64 (translated_y + 1))
      else Ok (cm, translated_y)) (cm, 18 + rank (kept mask) ROWS) = Ok (cm', k) ∧
    steps T L M b cm cm' (λ c p, ∃ i, 0 ≤ i < ROWS ∧ Z.testbit mask i = true ∧
      ∃ x, 0 ≤ x < COLS ∧ unit_core g (tensix_cores L) i x p ∧
      c = MkCoreCoord (18 + x) (18 + unit_position mask ROWS i) TENSIX TRANSLATED).
Proof.
  intros Hgood. pose proof rows_bound. pose proof cols_bound.
  pose proof (naming_grid TENSIX g eq_refl : unit_grid_ok g (tensix_cores L)) as Hok.
  set (st i := 18 + rank (kept mask) ROWS + rank (Z.testbit mask) i).
  assert (st 0 = 18 + rank (kept mask) ROWS) as <- by (unfold st; rewrite rank_0; lia).
  pose proof (rank_bounds (kept mask) ROWS ltac:(lia)).
  edestruct (loop_steps T L M b (λ cm i, (cm, st i)) ROWS) as (cm' & Hr & Hs);
    [exact Hgood|lia| |].
  2:{ exists cm'. eexists. split; [exact Hr|]. exact Hs. }
  intros i cm1 Hi Hg1 _. cbn beta iota. rewrite (good_masks _ _ _ _ _ Hg1), test_mask_spec by lia.
  pose proof (rank_bounds (Z.testbit mask) i ltac:(lia)).
  cbn [mbind result_bind]. unfold st. rewrite rank_S by lia.
  destruct (Z.testbit mask i) eqn:Hk; cycle 1.
  { exists cm1. rewrite Z.add_0_r. split; [done|]. apply steps_refl; [done|]. by intros c p [? _]. }
  assert (kept mask i = false) as Hk' by (unfold kept; by rewrite Hk).
  edestruct (runs_loop T L M b COLS) as (cm2 & Hr2 & Hs2); [exact Hg1|lia| |].
  2:{ exists cm2. rewrite Hr2; simpl. rewrite u64_small by lia. split; [f_equal; f_equal; lia|].
      eapply steps_weaken; [|exact Hs2]. intros c p (_ & x & Hx & HA). exists x.
      split; [done|]. exact HA. }
  intros x cm2 Hx Hg2 _. cbn beta. destruct (unit_core_at g _ Hok i x Hi Hx) as [p Hp].
  rewrite (good_layout _ _ _ _ _ Hg2), (row_index_u64 L M0 translated _ _ _ Hp). pose proof Hp as (_ & _ & Hp'). cbn [ug_index row_grid] in Hp'.
  rewrite (vec_idx_Some _ _ _ Hp'). cbn [mbind result_bind].
  apply runs_Ok, (steps_translated_core i); [done|done| |].
  - unfold unit_position. rewrite Hk'. lia.
  - intros c p' [Hp2 ->]. split; [f_equal|by eapply unit_core_functional].
    unfold unit_position. rewrite Hk'. lia.
Qed.

Lemma fill_tensix_wormhole :
  fills_slice L M b (row_grids L M) translated TENSIX Wormhole.fill_tensix_noc0_translated_mapping.
Proof.
  intros cm Hg Hc. unfold Wormhole.fill_tensix_noc0_translated_mapping. cbv zeta.
  rewrite (good_masks _ _ _ _ _ Hg), (good_layout _ _ _ _ _ Hg), num_kept_rows.
  destruct (runs_kept_rows cm Hg Hc) as (cm1 & Hr1 & [Hg1 He1 Hc1]).
  cbv zeta in Hr1. rewrite Hr1; cbn [mbind result_bind].
  rewrite ?(good_layout _ _ _ _ _ Hg1), num_harvested_rows.
  pose proof rows_bound. pose proof (rank_bounds (Z.testbit mask) ROWS ltac:(lia)).
  replace (u64 (wormhole.tensix_translated_coordinate_start_y + ROWS - rank (Z.testbit mask) ROWS))
    with (18 + rank (kept mask) ROWS); cycle 1.
  { rewrite rank_kept by lia. unfold wormhole.tensix_translated_coordinate_start_y.
    rewrite u64_small; lia. }
  destruct (runs_harvested_rows cm1 Hg1) as (cm2 & k & Hr2 & [Hg2 He2 Hc2]).
  cbv zeta in Hr2. rewrite Hr2; cbn [mbind result_bind fst]. apply runs_Ok. split; [done|by etrans|].
  intros c p Hs. destruct (slice_TRANSLATED _ _ _ _ _ _ Hs) as (q & Hp & Hq & ->).
  unfold wormhole_translated in Hq. rewrite Hb in Hq. destruct Hq as (i & x & Hcore & ->).
  pose proof Hcore as (Hi & Hx & _). destruct (kept mask i) eqn:Hk.
  - apply He2, Hc1. exists (rank (kept mask) i). split.
    { pose proof (rank_bounds (kept mask) i ltac:(lia)). pose proof (rank_lt (kept mask) i ROWS Hi Hk). lia. }
    exists x. split; [done|]. exists i. split; [done|]. split; [done|]. split; [done|].
    unfold unit_position. by rewrite Hk.
  - apply Hc2. exists i. split; [done|]. unfold kept in Hk. apply negb_false_iff in Hk.
    split; [done|]. by exists x.
Qed.

Lemma fill_eth_wormhole :
  fills_slice L M b (row_grids L M) translated ETH Wormhole.fill_eth_noc0_translated_mapping.
Proof.
  intros cm Hg _. unfold Wormhole.fill_eth_noc0_translated_mapping.
  rewrite (good_layout _ _ _ _ _ Hg). apply runs_Ok.
  eapply steps_weaken; [|apply (steps_foldl T L M b (eth_cores L) Wormhole.eth_translated_coord id);
    [done|]].
  - intros c p Hs. destruct (slice_TRANSLATED _ _ _ _ _ _ Hs) as (q & Hp & Hq & ->).
    unfold wormhole_translated in Hq. rewrite Hb in Hq. subst q. by exists p.
  - intros p Hp. split; [done|]. cbn. by rewrite Hb.
Qed.
End wormhole_fills.

(** ** initialize() *)

Definition wormhole_table (L : Layout) (M : HarvestingMasks) (b : bool) : Table :=
  table L (logical_names L (row_grids L M)) (wormhole_translated L M b).
Definition quasar_table (L : Layout) (M : HarvestingMasks) : Table :=
  table L (logical_names L (row_grids L M)) quasar_translated.

(** A manager object whose maps hold exactly the table. *)
Record implements (T : Table) (L : Layout) (M : HarvestingMasks) (b : bool)
    (cm : CoordinateManager) : Prop := {
  impl_layout : layout cm = L;
  impl_masks : harvesting_masks cm = M;
  impl_noc : noc_translation_enabled cm = b;
  impl_maps : maps_ok T (maps cm);
  impl_table : ∀ c p, has cm c p ↔ T c p;
}.

Lemma create_wormhole L M b :
  wf_layout L → wormhole_eth_ok L → row_masks_ok L M →
  let M' := effective_masks (xy_y (tensix_grid_size L)) M in
  ∃ cm, create_coordinate_manager_layout WORMHOLE_B0 b M L = Ok (MkManager WormholeCM cm) ∧
        implements (wormhole_table L M' b) L M' b cm.
Proof.
  intros Hwf Heth Hmasks M'. pose proof Hmasks as (_ & _ & Htensix).
  pose proof (wormhole_naming L M' b Hwf Heth) as HN.
  assert (∀ t, t ≠ TENSIX → t ≠ ETH → identity_translated L (wormhole_translated L M' b) t) as Hid.
  { intros t ?? p Hp. unfold wormhole_translated. by destruct b, t. }
  destruct (initialize_row L M b (wormhole_translated L M' b) Wormhole.fills) as (cm & Hi & Hg & Hcov);
    [| | | | | | |done|].
  - intros _. apply (fills_layout L M' b _ _ DRAM (fill_grid_default DRAM) dram_grid_size),
      fill_grid_default_slice; [done|done|by apply Hid].
  - intros Hb. by apply fill_eth_wormhole.
  - intros _. by apply fill_pcie_default_slice, Hid.
  - intros _. apply (fills_layout L M' b _ _ ARC (fill_grid_default ARC) arc_grid_size),
      fill_grid_default_slice; [done|done|by apply Hid].
  - intros Hb. by apply fill_tensix_wormhole.
  - intros -> t p Hp. done.
  - intros t Ht. by apply Hid; intros ->; apply list_elem_of_In in Ht; simpl in Ht; destruct_or! Ht.
  - exists cm. unfold create_coordinate_manager_layout, construct.
    change (virtual_ops WormholeCM) with (base_virtual_ops Wormhole.fills). rewrite Hi.
    split; [done|]. destruct Hg. by split.
Qed.

Lemma create_quasar L M b :
  wf_layout L → row_masks_ok L M →
  let M' := effective_masks (xy_y (tensix_grid_size L)) M in
  ∃ cm, create_coordinate_manager_layout QUASAR b M L = Ok (MkManager QuasarCM cm) ∧
        implements (quasar_table L M') L M' b cm.
Proof.
  intros Hwf Hmasks M'. pose proof (quasar_naming L M' Hwf) as HN.
  assert (∀ t, identity_translated L quasar_translated t) as Hid by done.
  destruct (initialize_row L M b quasar_translated Quasar.fills) as (cm & Hi & Hg & Hcov);
    [intros _..|done|done|done|].
  - by apply (fills_layout L M' b _ _ DRAM (fill_grid_default DRAM) dram_grid_size), fill_grid_default_slice.
  - by apply fill_eth_default_slice.
  - by apply fill_pcie_default_slice.
  - by apply (fills_layout L M' b _ _ ARC (fill_grid_default ARC) arc_grid_size), fill_grid_default_slice.
  - by apply fill_tensix_default_slice.
  - exists cm. unfold create_coordinate_manager_layout, construct.
    change (virtual_ops QuasarCM) with (base_virtual_ops Quasar.fills). rewrite Hi.
    split; [done|]. destruct Hg. by split.
Qed.
