(* ===== verification/BlackholeCoords.v ===== *)
(** * The table of the Blackhole manager

    Logical names are ranks among the kept columns, banks, channels and cores.
    With NOC translation the translated names are: Tensix columns permuted
    (harvested columns last, in die order), DRAM banks in two columns of four
    with the harvested bank last, ETH channels in a row, the first PCIE core at
    its fixed place. *)

From Stdlib Require Import ZArith Lia.
From stdpp Require Import base gmap list list_numbers sorting numbers.
From S2P Require Import Prelude CoreTypes ArchData Harvesting CoordinateManager.
From S2P Require Import BlackholeManager CoordTheory CoordTable CoordPhases RowCoords.

Local Open Scope Z_scope.

Definition blackhole_grids (L : Layout) (M : HarvestingMasks) (t : CoreType) : option UnitGrid :=
  match t with
  | TENSIX => Some (column_grid (tensix_harvesting_mask M) (tensix_grid_size L))
  | DRAM => Some (bank_grid (dram_harvesting_mask M) (dram_grid_size L))
  | ETH => Some (channel_grid (eth_harvesting_mask M) (vec_size (eth_cores L)))
  | ARC => Some (bank_grid 0 (arc_grid_size L))
  | PCIE => Some (bank_grid (pcie_harvesting_mask M) (pcie_grid_size L))
  | L2CPU => Some (channel_grid (l2cpu_harvesting_mask M) (vec_size (l2cpu_cores L)))
  | _ => None
  end.

(** ** Tensix columns *)

(** Column [x] of the NOC0 grid, as the pair the fill method sorts by. *)
Definition die_column (L : Layout) (x : Z) : Z * Z :=
  (match tensix_cores L !! Z.to_nat x with
   | Some core => find_index (xy_x core) blackhole.HARVESTING_NOC_LOCATIONS
   | None => 0
   end, x).
Definition harvested_columns (L : Layout) (mask n : Z) : list (Z * Z) :=
  map (die_column L) (List.filter (Z.testbit mask) (seqZ 0 n)).
Definition sorted_columns (L : Layout) (mask n : Z) : list (Z * Z) :=
  merge_sort pair_le (harvested_columns L mask n).

(** The column whose coordinates column [x] gets. *)
Definition column_target (L : Layout) (mask n x c : Z) : Prop :=
  (kept mask x = true ∧ c = rank (kept mask) x) ∨
  (∃ k d, sorted_columns L mask n !! k = Some (d, x) ∧ c = n - 1 - Z.of_nat k).

Lemma harvested_columns_S L mask n :
  0 ≤ n → harvested_columns L mask (n + 1) =
  harvested_columns L mask n ++ (if Z.testbit mask n then [die_column L n] else []).
Proof.
  intros. unfold harvested_columns. rewrite seqZ_snoc, List.filter_app, map_app by done.
  f_equal. rewrite Z.add_0_l. simpl. by destruct (Z.testbit mask n).
Qed.

Lemma sorted_columns_size L mask n :
  vec_size (sorted_columns L mask n) = rank (Z.testbit mask) n.
Proof.
  unfold sorted_columns, rank, vec_size. rewrite merge_sort_Permutation.
  unfold harvested_columns. by rewrite length_map.
Qed.

Lemma sorted_columns_elem L mask n d x :
  (d, x) ∈ sorted_columns L mask n ↔ 0 ≤ x < n ∧ Z.testbit mask x = true ∧ d = (die_column L x).1.
Proof.
  unfold sorted_columns. rewrite merge_sort_Permutation. unfold harvested_columns.
  rewrite list_elem_of_In, in_map_iff. setoid_rewrite List.filter_In.
  setoid_rewrite <- list_elem_of_In. setoid_rewrite elem_of_seqZ. split.
  - intros (y & E & Hy & Hb). injection E as <- <-. split; [lia|done].
  - intros (Hx & Hb & ->). exists x. split; [done|]. split; [lia|done].
Qed.

Lemma sorted_columns_NoDup L mask n : NoDup (sorted_columns L mask n).*2.
Proof.
  unfold sorted_columns.
  assert ((merge_sort pair_le (harvested_columns L mask n)).*2 ≡ₚ (harvested_columns L mask n).*2) as ->
    by (by rewrite merge_sort_Permutation).
  unfold harvested_columns. change (fmap snd) with (map (@snd Z Z)). rewrite map_map. simpl.
  rewrite map_id. apply NoDup_ListNoDup, List.NoDup_filter, NoDup_ListNoDup, NoDup_seqZ.
Qed.

Lemma sorted_columns_inj L mask n k k' d d' x :
  sorted_columns L mask n !! k = Some (d, x) → sorted_columns L mask n !! k' = Some (d', x) → k = k'.
Proof.
  intros Hk Hk'. apply (NoDup_lookup (sorted_columns L mask n).*2 k k' x).
  - apply sorted_columns_NoDup.
  - by rewrite list_lookup_fmap, Hk.
  - by rewrite list_lookup_fmap, Hk'.
Qed.

Lemma sorted_columns_lookup L mask n k d x :
  sorted_columns L mask n !! k = Some (d, x) →
  0 ≤ x < n ∧ Z.testbit mask x = true ∧ Z.of_nat k < rank (Z.testbit mask) n.
Proof.
  intros Hk. pose proof (lookup_lt_Some _ _ _ Hk) as Hlt.
  apply list_elem_of_lookup_2, sorted_columns_elem in Hk as (? & ? & _).
  rewrite <- (sorted_columns_size L). unfold vec_size. split; [done|]. split; [done|lia].
Qed.

Lemma column_target_functional L mask n x c c' :
  column_target L mask n x c → column_target L mask n x c' → c = c'.
Proof.
  intros [[Hk ->]|(k & d & Hk & ->)] [[Hk' ->]|(k' & d' & Hk' & ->)].
  - done.
  - apply sorted_columns_lookup in Hk' as (_ & Hb & _). unfold kept in Hk. by rewrite Hb in Hk.
  - apply sorted_columns_lookup in Hk as (_ & Hb & _). unfold kept in Hk'. by rewrite Hb in Hk'.
  - by rewrite (sorted_columns_inj _ _ _ _ _ _ _ _ Hk Hk').
Qed.

Lemma column_target_bounds L mask n x c : 0 ≤ x < n → column_target L mask n x c → 0 ≤ c < n.
Proof.
  intros Hx [[Hk ->]|(k & d & Hk & ->)].
  - pose proof (rank_bounds (kept mask) x ltac:(lia)). lia.
  - apply sorted_columns_lookup in Hk as (_ & _ & Hlt).
    pose proof (rank_bounds (Z.testbit mask) n ltac:(lia)). lia.
Qed.

Lemma column_target_inj L mask n x x' c :
  0 ≤ x < n → 0 ≤ x' < n → column_target L mask n x c → column_target L mask n x' c → x = x'.
Proof.
  intros Hx Hx' [[Hk ->]|(k & d & Hk & ->)] [[Hk' E]|(k' & d' & Hk' & E)].
  - by apply (rank_inj (kept mask)); [lia|lia| | |].
  - apply sorted_columns_lookup in Hk' as (_ & _ & Hlt).
    pose proof (rank_lt (kept mask) x n Hx Hk) as Hr. rewrite (rank_kept mask n) in Hr by lia. lia.
  - apply sorted_columns_lookup in Hk as (_ & _ & Hlt).
    pose proof (rank_lt (kept mask) x' n Hx' Hk') as Hr. rewrite (rank_kept mask n) in Hr by lia. lia.
  - assert (k = k') as -> by lia. congruence.
Qed.

Lemma column_target_total L mask n x : 0 ≤ x < n → ∃ c, column_target L mask n x c.
Proof.
  intros Hx. destruct (kept mask x) eqn:Hk; [by eexists; left|].
  unfold kept in Hk. apply negb_false_iff in Hk.
  assert (((die_column L x).1, x) ∈ sorted_columns L mask n) as Hin by (by apply sorted_columns_elem).
  apply list_elem_of_lookup_1 in Hin as [k Hin]. eexists. right. by exists k, (die_column L x).1.
Qed.

(** ** DRAM banks *)

(** The (column, row) of the translated DRAM block that the [k]-th kept bank
    gets, given the harvested bank; the harvested bank is at (1, 3). *)
Definition dram_slot (harvested : option Z) (k : Z) : Z * Z :=
  match harvested with
  | None => if k <? 4 then (0, k) else (1, k - 4)
  | Some h =>
      if h <? 4 then
        if k <? 3 then (1, k)
        else if k <? h + 3 then (0, k - 3) else if k =? h + 3 then (0, 3) else (0, k - 4)
      else
        let mirror := h - 4 in
        if k <? mirror then (0, k) else if k =? mirror then (0, 3)
        else if k <? 4 then (0, k - 1) else (1, k - 4)
  end.

Definition harvested_bank (mask : Z) : option Z := head (get_harvested_indices mask).

Definition bank_slot (mask i : Z) : Z * Z :=
  if kept mask i then dram_slot (harvested_bank mask) (rank (kept mask) i) else (1, 3).

Definition dram_place (slot : Z * Z) (port : Z) : xy_pair :=
  XY (blackhole.dram_translated_coordinate_start_x + slot.1)
     (blackhole.dram_translated_coordinate_start_y
        + blackhole.NUM_NOC_PORTS_PER_DRAM_BANK * slot.2 + port).

(** At most one bit: the mask the constructor accepts. *)
Definition dram_mask_ok (mask : Z) : Prop :=
  0 ≤ mask < 2 ^ 8 ∧ get_num_harvested mask ≤ 1.

Lemma dram_mask_cases mask :
  dram_mask_ok mask →
  (harvested_bank mask = None ∧ get_harvested_indices mask = [] ∧ ∀ i, Z.testbit mask i = false) ∨
  (∃ h, 0 ≤ h < 8 ∧ harvested_bank mask = Some h ∧ get_harvested_indices mask = [h] ∧
        ∀ i, Z.testbit mask i = true ↔ i = h).
Proof.
  intros [Hm Hn]. assert (0 ≤ mask < 2 ^ 64) as Hm64 by lia.
  rewrite get_num_harvested_length in Hn. pose proof (λ i, elem_of_harvested mask i Hm64) as Helem.
  unfold harvested_bank. destruct (get_harvested_indices mask) as [|h l] eqn:E.
  - left. split; [done|]. split; [done|]. intros i. destruct (Z.testbit mask i) eqn:Hb; [|done].
    apply Helem in Hb. by apply not_elem_of_nil in Hb.
  - right. destruct l; [|unfold vec_size in Hn; simpl in Hn; lia].
    assert (Z.testbit mask h = true) as Hh by (apply Helem; by left).
    exists h. split; [by apply (testbit_bound mask)|]. split; [done|]. split; [done|].
    intros i. rewrite <- Helem. apply list_elem_of_singleton.
Qed.

Lemma dram_mask_count mask :
  dram_mask_ok mask →
  rank (kept mask) 8 = match harvested_bank mask with Some _ => 7 | None => 8 end.
Proof.
  intros Hok. rewrite rank_kept by lia.
  assert (rank (Z.testbit mask) 8 = vec_size (get_harvested_indices mask)) as ->.
  { destruct Hok as [Hm _]. rewrite <- (get_num_harvested_rank mask 8); [|lia|done].
    apply get_num_harvested_length. }
  by destruct (dram_mask_cases mask Hok) as [(-> & -> & _)|(h & _ & -> & -> & _)].
Qed.

(** Exactly the harvested bank is left out of the ranks. *)
Lemma dram_rank_bound mask i :
  dram_mask_ok mask → 0 ≤ i < 8 → kept mask i = true →
  0 ≤ rank (kept mask) i < match harvested_bank mask with Some _ => 7 | None => 8 end.
Proof.
  intros Hok Hi Hk. pose proof (rank_bounds (kept mask) i ltac:(lia)).
  pose proof (rank_lt (kept mask) i 8 Hi Hk) as Hlt.
  destruct (dram_mask_cases mask Hok) as [(-> & _)|(h & Hh & -> & _ & Hb)].
  - pose proof (rank_bounds (kept mask) 8 ltac:(lia)). lia.
  - rewrite (rank_kept mask 8) in Hlt by lia.
    pose proof (rank_lt (Z.testbit mask) h 8 Hh (proj2 (Hb h) eq_refl)).
    pose proof (rank_bounds (Z.testbit mask) h ltac:(lia)). lia.
Qed.

Lemma dram_slot_inj h k k' :
  0 ≤ k < match h with Some _ => 7 | None => 8 end →
  0 ≤ k' < match h with Some _ => 7 | None => 8 end →
  match h with Some h => 0 ≤ h < 8 | None => True end →
  dram_slot h k = dram_slot h k' → k = k'.
Proof.
  destruct h as [h|]; simpl; intros Hk Hk' Hh.
  - destruct (Z.ltb_spec h 4).
    + destruct (Z.ltb_spec k 3), (Z.ltb_spec k' 3), (Z.ltb_spec k (h + 3)), (Z.ltb_spec k' (h + 3)),
        (Z.eqb_spec k (h + 3)), (Z.eqb_spec k' (h + 3)); intros [=]; lia.
    + destruct (Z.ltb_spec k (h - 4)), (Z.ltb_spec k' (h - 4)), (Z.eqb_spec k (h - 4)),
        (Z.eqb_spec k' (h - 4)), (Z.ltb_spec k 4), (Z.ltb_spec k' 4); intros [=]; lia.
  - destruct (Z.ltb_spec k 4), (Z.ltb_spec k' 4); intros [=]; lia.
Qed.

Lemma dram_slot_range h k :
  0 ≤ k < match h with Some _ => 7 | None => 8 end →
  match h with Some h => 0 ≤ h < 8 | None => True end →
  0 ≤ (dram_slot h k).1 < 2 ∧ 0 ≤ (dram_slot h k).2 < 4 ∧
  (h ≠ None → dram_slot h k ≠ (1, 3)).
Proof.
  destruct h as [h|]; simpl; intros Hk Hh.
  - destruct (Z.ltb_spec h 4).
    + destruct (Z.ltb_spec k 3), (Z.ltb_spec k (h + 3)), (Z.eqb_spec k (h + 3)); simpl;
        (split; [lia|split; [lia|]]); intros _ [=]; lia.
    + destruct (Z.ltb_spec k (h - 4)), (Z.eqb_spec k (h - 4)), (Z.ltb_spec k 4); simpl;
        (split; [lia|split; [lia|]]); intros _ [=]; lia.
  - destruct (Z.ltb_spec k 4); simpl; (split; [lia|split; [lia|]]); done.
Qed.

Lemma harvested_bank_range mask :
  dram_mask_ok mask → match harvested_bank mask with Some h => 0 ≤ h < 8 | None => True end.
Proof. intros Hok. by destruct (dram_mask_cases mask Hok) as [(-> & _)|(h & ? & -> & _)]. Qed.

Lemma bank_slot_inj mask i j :
  dram_mask_ok mask → 0 ≤ i < 8 → 0 ≤ j < 8 → bank_slot mask i = bank_slot mask j → i = j.
Proof.
  intros Hok Hi Hj. unfold bank_slot.
  pose proof (dram_mask_cases mask Hok) as Hc. pose proof (harvested_bank_range mask Hok) as Hh.
  assert (∀ i, kept mask i = false → harvested_bank mask ≠ None) as Hsome.
  { intros k Hk. unfold kept in Hk. apply negb_false_iff in Hk.
    destruct Hc as [(_ & _ & Hb)|(h & _ & -> & _)]; [by rewrite Hb in Hk|done]. }
  destruct (kept mask i) eqn:Ei, (kept mask j) eqn:Ej; intros E.
  - apply (rank_inj (kept mask)); [lia|lia|done|done|].
    by eapply dram_slot_inj; [by apply dram_rank_bound..|exact Hh|].
  - exfalso. by eapply (dram_slot_range (harvested_bank mask));
      [by apply (dram_rank_bound mask i)|exact Hh|by eapply Hsome|].
  - exfalso. by eapply (dram_slot_range (harvested_bank mask));
      [by apply (dram_rank_bound mask j)|exact Hh|by eapply Hsome|].
  - unfold kept in Ei, Ej. apply negb_false_iff in Ei, Ej.
    destruct Hc as [(_ & _ & Hb)|(h & _ & _ & _ & Hb)]; [by rewrite Hb in Ei|].
    apply Hb in Ei, Ej. congruence.
Qed.

Lemma bank_slot_range mask i :
  dram_mask_ok mask → 0 ≤ i < 8 → 0 ≤ (bank_slot mask i).1 < 2 ∧ 0 ≤ (bank_slot mask i).2 < 4.
Proof.
  intros Hok Hi. unfold bank_slot. destruct (kept mask i) eqn:Ei; [|simpl; lia].
  destruct (dram_slot_range (harvested_bank mask) (rank (kept mask) i)) as (? & ? & _);
    [by apply dram_rank_bound|by apply harvested_bank_range|done].
Qed.

(** ** The translated names *)

Definition blackhole_translated (L : Layout) (M : HarvestingMasks) (b : bool) : NameRel := λ t q p,
  match b, t with
  | true, TENSIX =>
      let mask := tensix_harvesting_mask M in
      let grid := tensix_grid_size L in
      ∃ x y c, unit_core (column_grid mask grid) (tensix_cores L) x y p ∧
        column_target L mask (xy_x grid) x c ∧
        tensix_cores L !! Z.to_nat (c + y * xy_x grid) = Some q
  | true, DRAM =>
      let mask := dram_harvesting_mask M in
      if xy_x (dram_grid_size L) <? blackhole.NUM_DRAM_BANKS then q = p
      else ∃ i j, unit_core (bank_grid mask (dram_grid_size L)) (dram_cores L) i j p ∧
             q = dram_place (bank_slot mask i) j
  | true, ETH =>
      let mask := eth_harvesting_mask M in
      ∃ i, unit_core (channel_grid mask (vec_size (eth_cores L))) (eth_cores L) i 0 p ∧
        q = if kept mask i
            then XY (blackhole.eth_translated_coordinate_start_x + rank (kept mask) i)
                    blackhole.eth_translated_coordinate_start_y
            else p
  | true, PCIE =>
      let mask := pcie_harvesting_mask M in
      ∃ i, unit_core (bank_grid mask (pcie_grid_size L)) (pcie_cores L) i 0 p ∧
        q = if kept mask i && (rank (kept mask) i =? 0)
            then XY blackhole.pcie_translated_coordinate_start_x
                    blackhole.pcie_translated_coordinate_start_y
            else p
  | _, _ => q = p
  end.

(** The layouts and masks [BlackholeCoordinateManager] is used with: one row of
    PCIE cores, the full 8 x 3 DRAM grid or a smaller one without harvesting,
    DRAM harvesting only under NOC translation, masks within their units. *)
Definition blackhole_layout_ok (L : Layout) : Prop :=
  0 < xy_y (tensix_grid_size L) ∧ xy_y (pcie_grid_size L) = 1 ∧
  xy_x (dram_grid_size L) ≤ 8 ∧
  (xy_x (dram_grid_size L) = 8 → xy_y (dram_grid_size L) = 3).
Definition eth_mask_ok (L : Layout) (mask : Z) : Prop :=
  eth_cores L = [] ∨
  (0 ≤ mask < 2 ^ vec_size (eth_cores L) ∧
   (vec_size (eth_cores L) = 14 → get_num_harvested mask = 2 ∨ get_num_harvested mask = 14)).
Definition blackhole_masks_ok (L : Layout) (M : HarvestingMasks) (b : bool) : Prop :=
  0 ≤ tensix_harvesting_mask (effective_masks (xy_x (tensix_grid_size L)) M)
    < 2 ^ xy_x (tensix_grid_size L) ∧
  eth_mask_ok L (eth_harvesting_mask M) ∧
  dram_mask_ok (dram_harvesting_mask M) ∧
  (b = false ∨ xy_x (dram_grid_size L) ≠ 8 → dram_harvesting_mask M = 0) ∧
  0 ≤ pcie_harvesting_mask M < 2 ^ xy_x (pcie_grid_size L).

Lemma blackhole_grids_ok L M t g :
  wf_layout L → blackhole_grids L M t = Some g → unit_grid_ok g (cores_of L t).
Proof.
  intros Hwf. pose proof (wf_NoDup _ Hwf t) as Hnd.
  destruct Hwf as (_ & _ & _ & Ht & Hd & Ha & Hp & He & Hl).
  destruct t; intros [= <-]; simpl in *;
    auto using bank_grid_ok, column_grid_ok, channel_grid_ok.
Qed.

Section blackhole_naming.
Context (L : Layout) (M : HarvestingMasks) (b : bool).
Context (Hwf : wf_layout L) (Hbh : blackhole_layout_ok L).
Context (Hdram : dram_mask_ok (dram_harvesting_mask M)).

Lemma blackhole_tensix_elem q p : blackhole_translated L M true TENSIX q p → q ∈ cores_of L TENSIX.
Proof. intros (x & y & c & _ & _ & Hq). by eapply list_elem_of_lookup_2. Qed.

(** The translated places of a full DRAM grid. *)
Lemma blackhole_dram_region q p :
  blackhole.NUM_DRAM_BANKS ≤ xy_x (dram_grid_size L) → blackhole_translated L M true DRAM q p → 12 ≤ xy_y q < 24.
Proof.
  intros Hn. simpl. rewrite (proj2 (Z.ltb_ge _ _) Hn). intros (i & j & (Hi & Hj & _) & ->).
  destruct Hbh as (_ & _ & Hle & Hports). simpl in Hi, Hj.
  unfold blackhole.NUM_DRAM_BANKS in *. assert (xy_x (dram_grid_size L) = 8) as E8 by lia.
  rewrite Hports in Hj by done. rewrite E8 in Hi.
  destruct (bank_slot_range _ i Hdram Hi) as [_ ?]. unfold dram_place; cbn [xy_y].
  unfold blackhole.dram_translated_coordinate_start_y, blackhole.NUM_NOC_PORTS_PER_DRAM_BANK. lia.
Qed.

(** A translated place is a core position of the same type, or lies in a
    region of its own. *)
Lemma blackhole_region t q p :
  p ∈ cores_of L t → blackhole_translated L M true t q p →
  q ∈ cores_of L t ∨ (t = DRAM ∧ 12 ≤ xy_y q < 24) ∨ (t = PCIE ∧ xy_y q = 24) ∨
  (t = ETH ∧ xy_y q = 25).
Proof.
  intros Hp. destruct t; try (intros ->; by left).
  - intros HT. destruct (Z.lt_ge_cases (xy_x (dram_grid_size L)) blackhole.NUM_DRAM_BANKS) as [Hlt|Hge].
    + simpl in HT. rewrite (proj2 (Z.ltb_lt _ _) Hlt) in HT. subst q. by left.
    + right; left. split; [done|]. by eapply blackhole_dram_region.
  - intros (i & _ & ->). destruct (kept _ i && _); [|by left]. right; right; left. done.
  - intros HT. left. by eapply blackhole_tensix_elem.
  - intros (i & _ & ->). destruct (kept _ i); [|by left]. right; right; right. done.
Qed.

Lemma blackhole_region_type t t' q p p' :
  p ∈ cores_of L t → p' ∈ cores_of L t' →
  blackhole_translated L M true t q p → blackhole_translated L M true t' q p' → t = t'.
Proof.
  intros Hp Hp' HT HT'.
  assert (∀ t, q ∈ cores_of L t → xy_y q < 12) as Hb by (intros ? Hq; apply (wf_bounds _ Hwf) in Hq; lia).
  destruct (blackhole_region _ _ _ Hp HT) as [Hq|[[-> ?]|[[-> ?]|[-> ?]]]],
    (blackhole_region _ _ _ Hp' HT') as [Hq'|[[-> ?]|[[-> ?]|[-> ?]]]];
    try done; try (by eapply wf_type);
    try (apply Hb in Hq); try (apply Hb in Hq'); lia.
Qed.

Lemma blackhole_tensix_place q p p' :
  blackhole_translated L M true TENSIX q p → blackhole_translated L M true TENSIX q p' → p = p'.
Proof.
  intros (x & y & c & Hc & Ht & Hq) (x' & y' & c' & Hc' & Ht' & Hq').
  pose proof Hc as (Hx & Hy & _). pose proof Hc' as (Hx' & Hy' & _). simpl in *.
  pose proof (column_target_bounds _ _ _ _ _ Hx Ht). pose proof (column_target_bounds _ _ _ _ _ Hx' Ht').
  pose proof (NoDup_lookup _ _ _ _ (wf_NoDup _ Hwf TENSIX) Hq Hq').
  assert (0 ≤ y * xy_x (tensix_grid_size L) ∧ 0 ≤ y' * xy_x (tensix_grid_size L)) as [? ?] by nia.
  destruct (row_major_inj (xy_x (tensix_grid_size L)) y c y' c'); [lia..|]. subst y' c'.
  assert (x = x') as <- by (by eapply column_target_inj).
  by eapply unit_core_functional.
Qed.

Lemma blackhole_dram_place q p p' :
  blackhole_translated L M true DRAM q p → blackhole_translated L M true DRAM q p' → p = p'.
Proof.
  simpl. destruct (Z.ltb_spec (xy_x (dram_grid_size L)) blackhole.NUM_DRAM_BANKS); [by intros -> ->|].
  intros (i & j & Hc & ->) (i' & j' & Hc' & E).
  pose proof Hc as (Hi & Hj & _). pose proof Hc' as (Hi' & Hj' & _). simpl in Hi, Hj, Hi', Hj'.
  destruct Hbh as (_ & _ & Hle & Hports).
  unfold blackhole.NUM_DRAM_BANKS in *. assert (xy_x (dram_grid_size L) = 8) as E8 by lia.
  rewrite Hports in Hj, Hj' by done. rewrite E8 in Hi, Hi'. clear Hports.
  injection E as Ex Ey. unfold blackhole.NUM_NOC_PORTS_PER_DRAM_BANK in Ey.
  assert (bank_slot (dram_harvesting_mask M) i = bank_slot (dram_harvesting_mask M) i') as Es.
  { apply injective_projections; lia. }
  apply (bank_slot_inj _ _ _ Hdram) in Es; [|done..]. subst i'.
  assert (j = j') as <- by lia. by eapply unit_core_functional.
Qed.

Lemma blackhole_eth_place q p p' :
  p ∈ cores_of L ETH → p' ∈ cores_of L ETH →
  blackhole_translated L M true ETH q p → blackhole_translated L M true ETH q p' → p = p'.
Proof.
  intros Hp Hp' (i & Hc & ->) (i' & Hc' & E).
  apply (wf_bounds _ Hwf) in Hp, Hp'.
  pose proof Hc as (Hi & _). pose proof Hc' as (Hi' & _). simpl in Hi, Hi'.
  destruct (kept _ i) eqn:Hk, (kept _ i') eqn:Hk'.
  - injection E as E. assert (i = i') as <-.
    { apply (rank_inj (kept (eth_harvesting_mask M))); [lia|lia|done|done|lia]. }
    by eapply unit_core_functional.
  - subst p'. simpl in Hp'. unfold blackhole.eth_translated_coordinate_start_y in *. lia.
  - subst p. simpl in Hp. unfold blackhole.eth_translated_coordinate_start_y in *. lia.
  - done.
Qed.

Lemma blackhole_pcie_place q p p' :
  p ∈ cores_of L PCIE → p' ∈ cores_of L PCIE →
  blackhole_translated L M true PCIE q p → blackhole_translated L M true PCIE q p' → p = p'.
Proof.
  intros Hp Hp' (i & Hc & ->) (i' & Hc' & E).
  apply (wf_bounds _ Hwf) in Hp, Hp'.
  pose proof Hc as (Hi & _). pose proof Hc' as (Hi' & _). simpl in Hi, Hi'.
  destruct (kept _ i && _) eqn:Hk, (kept _ i' && _) eqn:Hk'.
  - apply andb_true_iff in Hk as [Hk Hr], Hk' as [Hk' Hr']. apply Z.eqb_eq in Hr, Hr'.
    assert (i = i') as <-.
    { apply (rank_inj (kept (pcie_harvesting_mask M))); [lia|lia|done|done|lia]. }
    by eapply unit_core_functional.
  - subst p'. simpl in Hp'. unfold blackhole.pcie_translated_coordinate_start_y in *. lia.
  - subst p. simpl in Hp. unfold blackhole.pcie_translated_coordinate_start_y in *. lia.
  - done.
Qed.

Lemma blackhole_translated_inj t q q' p :
  blackhole_translated L M true t q p → blackhole_translated L M true t q' p → q = q'.
Proof.
  pose proof (λ t g, blackhole_grids_ok L M t g Hwf) as Hok.
  destruct t; try (by intros -> ->).
  - simpl. destruct (_ <? _); [by intros -> ->|]. intros (i & j & Hc & ->) (i' & j' & Hc' & ->).
    by destruct (unit_core_inj _ _ (Hok DRAM _ eq_refl) _ _ _ _ _ Hc Hc') as [-> ->].
  - intros (i & Hc & ->) (i' & Hc' & ->).
    by destruct (unit_core_inj _ _ (Hok PCIE _ eq_refl) _ _ _ _ _ Hc Hc') as [-> _].
  - intros (x & y & c & Hc & Ht & Hq) (x' & y' & c' & Hc' & Ht' & Hq').
    destruct (unit_core_inj _ _ (Hok TENSIX _ eq_refl) _ _ _ _ _ Hc Hc') as [-> ->].
    rewrite (column_target_functional _ _ _ _ _ _ Ht Ht') in Hq. congruence.
  - intros (i & Hc & ->) (i' & Hc' & ->).
    by destruct (unit_core_inj _ _ (Hok ETH _ eq_refl) _ _ _ _ _ Hc Hc') as [-> _].
Qed.

Lemma blackhole_naming : Naming L (blackhole_grids L M) (blackhole_translated L M b).
Proof.
  split; [done|by intros; eapply blackhole_grids_ok| |].
  - intros t q q' p _. destruct b; [apply blackhole_translated_inj|by intros -> ->].
  - intros t t' q p p' Hp Hp'. destruct b; [|by intros -> ->]. intros HT HT'.
    assert (t = t') as <- by (by eapply blackhole_region_type).
    destruct t; try (cbn in HT, HT'; congruence).
    + by eapply blackhole_dram_place.
    + by eapply blackhole_pcie_place.
    + by eapply blackhole_tensix_place.
    + by eapply blackhole_eth_place.
Qed.
End blackhole_naming.
