(* ===== verification/BlackholePhases.v ===== *)
(** * BlackholeCoordinateManager builds its table

    Every overridden method runs to completion and completes its slices of the
    table of [BlackholeCoords]; [initialize] builds exactly that table. *)

From Stdlib Require Import ZArith Lia.
From stdpp Require Import base gmap list list_numbers sorting numbers.
From S2P Require Import Prelude CoreTypes ArchData Harvesting CoordinateManager.
From S2P Require Import BlackholeManager Managers CoordTheory CoordTable CoordPhases RowCoords.
From S2P Require Import BlackholeCoords WormholeCoords.

Local Open Scope Z_scope.

Section blackhole_phases.
Context (L : Layout) (M0 : HarvestingMasks) (b : bool).
Abbreviation ROWS := (xy_y (tensix_grid_size L)).
Abbreviation COLS := (xy_x (tensix_grid_size L)).
Abbreviation M := (effective_masks COLS M0).
Abbreviation translated := (blackhole_translated L M b).
Abbreviation grids := (blackhole_grids L M).
Abbreviation T := (table L (logical_names L grids) translated).
Abbreviation good0 := (good T L M0 b).
Abbreviation good := (good T L M b).
Abbreviation steps := (steps T L M b).
Abbreviation runs := (runs T L M b).
Abbreviation slice := (slice L grids translated).
Abbreviation named := (named L grids translated).
Abbreviation fills_slice := (fills_slice L M b grids translated).
Context (Hwf : wf_layout L) (Hbh : blackhole_layout_ok L).
Context (Hmasks : blackhole_masks_ok L M0 b).

Lemma effective_dram : dram_harvesting_mask M = dram_harvesting_mask M0.
Proof. unfold effective_masks. by destruct (_ <? _). Qed.
Lemma effective_eth : eth_harvesting_mask M = eth_harvesting_mask M0.
Proof. unfold effective_masks. by destruct (_ <? _). Qed.
Lemma effective_pcie : pcie_harvesting_mask M = pcie_harvesting_mask M0.
Proof. unfold effective_masks. by destruct (_ <? _). Qed.
Lemma effective_l2cpu : l2cpu_harvesting_mask M = l2cpu_harvesting_mask M0.
Proof. unfold effective_masks. by destruct (_ <? _). Qed.

#[local] Instance blackhole_HN : Naming L grids translated.
Proof.
apply blackhole_naming; [done|done|]. rewrite effective_dram. apply Hmasks.
Qed.
#[local] Instance blackhole_HT : TableLaws T := table_laws.

Lemma grid_ok t g : grids t = Some g → unit_grid_ok g (cores_of L t).
Proof. apply naming_grid. Qed.

(** ** Tensix *)

Abbreviation tmask := (tensix_harvesting_mask M).
Abbreviation tg := (column_grid tmask (tensix_grid_size L)).

Lemma tensix_bounds : 0 ≤ COLS ≤ 31 ∧ 0 ≤ ROWS ≤ 31.
Proof.
pose proof (grid_ok TENSIX tg eq_refl) as Hok.
split; [apply (ugo_outer _ _ Hok)|apply (ugo_inner _ _ Hok)].
Qed.

Lemma column_index_u64 x y : 0 ≤ x < COLS → 0 ≤ y < ROWS →
u64 (x + y * COLS) = x + y * COLS ∧
∃ p, tensix_cores L !! Z.to_nat (x + y * COLS) = Some p ∧ unit_core tg (tensix_cores L) x y p.
Proof.
intros Hx Hy. pose proof (grid_ok TENSIX tg eq_refl) as Hok.
pose proof (ugo_index _ _ Hok _ _ Hx Hy) as Hi. pose proof (ugo_size _ _ Hok).
split; [apply u64_small; simpl in *; lia|].
destruct (unit_core_at _ _ Hok x y Hx Hy) as (p & Hp). exists p. split; [apply Hp|done].
Qed.

Lemma tensix_logical cm0 :
good cm0 →
∃ cm, for_each (seqZ 0 COLS) (λ x '(cm, logical_x),
    harvested ← test_mask (tensix_harvesting_mask (harvesting_masks cm)) x;
    if negb harvested then
      cm ← for_each (seqZ 0 ROWS) (λ y cm,
             tensix_core ← vec_idx (tensix_cores (layout cm)) (u64 (x + y * COLS));
             Ok (add_core_translation (MkCoreCoord logical_x y TENSIX LOGICAL)
                   tensix_core cm)) cm;
      Ok (cm, u64 (logical_x + 1))
    else Ok (cm, logical_x)) (cm0, 0) = Ok (cm, rank (kept tmask) COLS) ∧
  steps cm0 cm (slice TENSIX LOGICAL).
Proof.
intros Hg. apply (kept_units_loop L M b grids translated TENSIX tg
  (λ cm, tensix_harvesting_mask (harvesting_masks cm))
  (λ x logical_x y cm, tensix_core ← vec_idx (tensix_cores (layout cm)) (u64 (x + y * COLS));
    Ok (add_core_translation (MkCoreCoord logical_x y TENSIX LOGICAL) tensix_core cm)));
  [done|done| |].
- intros cm1 Hg1. by rewrite (good_masks _ _ _ _ _ Hg1).
- intros x y p cm1 Hg1 (Hx & Hy & Hp). rewrite (good_layout _ _ _ _ _ Hg1).
  destruct (column_index_u64 x y Hx Hy) as [-> _]. simpl in Hp. by rewrite (vec_idx_Some _ _ _ Hp).
Qed.

(** One column's worth of translated names. *)
Lemma runs_column x c cm :
b = true → good cm → 0 ≤ x < COLS → column_target L tmask COLS x c → 
runs (for_each (seqZ 0 ROWS) (λ y cm,
        tensix_core ← vec_idx (tensix_cores (layout cm)) (u64 (x + y * COLS));
        translated_core ← vec_idx (tensix_cores (layout cm)) (u64 (c + y * COLS));
        Ok (add_core_translation
              (CoreCoord_of_pair translated_core TENSIX TRANSLATED) tensix_core cm)) cm) cm
  (λ c' p, ∃ y, 0 ≤ y < ROWS ∧ unit_core tg (tensix_cores L) x y p ∧
     ∃ q, tensix_cores L !! Z.to_nat (c + y * COLS) = Some q ∧
     c' = CoreCoord_of_pair q TENSIX TRANSLATED).
Proof.
intros Hb Hg Hx Ht. pose proof tensix_bounds.
pose proof (column_target_bounds _ _ _ _ _ Hx Ht) as Hc.
apply runs_loop; [done|lia|]. intros y cm1 Hy Hg1 _.
rewrite (good_layout _ _ _ _ _ Hg1).
destruct (column_index_u64 x y Hx Hy) as [-> (p & Hp & Hpc)].
destruct (column_index_u64 c y Hc Hy) as [-> (q & Hq & _)].
rewrite (vec_idx_Some _ _ _ Hp), (vec_idx_Some _ _ _ Hq). cbn [mbind result_bind].
apply runs_Ok, steps_add; [apply _|done| |].
- apply T_TRANSLATED; [by eapply unit_core_elem|]. rewrite Hb. by exists x, y, c.
- intros c' p' (Hp' & q' & Hq' & ->). split; [congruence|by eapply unit_core_functional].
Qed.

Lemma fill_kept_columns cm :
b = true → good cm →
∃ cm', for_each (seqZ 0 COLS) (λ x '(cm, logical_x, die_harvested),
    harvested ← test_mask (tensix_harvesting_mask (harvesting_masks cm)) x;
    if (harvested : bool) then
      noc0_core ← vec_idx (tensix_cores (layout cm)) x;
      let die_x_index := find_index (xy_x noc0_core) blackhole.HARVESTING_NOC_LOCATIONS in
      Ok (cm, logical_x, die_harvested ++ [(die_x_index, x)])
    else
      cm ← for_each (seqZ 0 ROWS) (λ y cm,
             tensix_core ← vec_idx (tensix_cores (layout cm)) (u64 (x + y * COLS));
             translated_core ←
               vec_idx (tensix_cores (layout cm)) (u64 (logical_x + y * COLS));
             Ok (add_core_translation
                   (CoreCoord_of_pair translated_core TENSIX TRANSLATED) tensix_core cm)) cm;
      Ok (cm, u64 (logical_x + 1), die_harvested)) (cm, 0, []) =
    Ok (cm', rank (kept tmask) COLS, harvested_columns L tmask COLS) ∧
  steps cm cm' (λ c p, ∃ x, 0 ≤ x < COLS ∧ kept tmask x = true ∧
    ∃ y, 0 ≤ y < ROWS ∧ unit_core tg (tensix_cores L) x y p ∧
    ∃ q, tensix_cores L !! Z.to_nat (rank (kept tmask) x + y * COLS) = Some q ∧
    c = CoreCoord_of_pair q TENSIX TRANSLATED).
Proof.
intros Hb Hg. pose proof tensix_bounds.
edestruct (loop_steps T L M b
  (λ cm x, (cm, rank (kept tmask) x, harvested_columns L tmask x)) COLS) as (cm' & Hr & Hs);
  [exact Hg|lia| |exists cm'; split; [exact Hr|exact Hs]].
intros x cm1 Hx Hg1 _. cbn beta iota. rewrite (good_masks _ _ _ _ _ Hg1), test_mask_spec by lia.
cbn [mbind result_bind]. rewrite harvested_columns_S, rank_S by lia. rewrite (kept_testbit tmask x).
destruct (Z.testbit tmask x) eqn:Hk; cbn [negb].
- rewrite (good_layout _ _ _ _ _ Hg1). destruct Hbh as (Hrows & _).
  destruct (column_index_u64 x 0 Hx ltac:(lia)) as [_ (p & Hp & _)].
  rewrite Z.mul_0_l, Z.add_0_r in Hp. rewrite (vec_idx_Some _ _ _ Hp). cbn [mbind result_bind].
  exists cm1. rewrite Z.add_0_r. unfold die_column. rewrite Hp. split; [done|].
  apply steps_refl; [done|]. by intros c q (? & _).
- assert (kept tmask x = true) as Hk' by (unfold kept; by rewrite Hk).
  destruct (runs_column x (rank (kept tmask) x) cm1 Hb Hg1 Hx) as (cm2 & Hr2 & Hs2); [by left|].
  rewrite Hr2. cbn [mbind result_bind]. exists cm2. rewrite app_nil_r.
  pose proof (rank_bounds (kept tmask) x ltac:(lia)). rewrite u64_small by lia. split; [done|].
  eapply steps_weaken; [|exact Hs2]. intros c p (_ & HA). exact HA.
Qed.

Lemma fill_harvested_columns cm :
b = true → good cm →
∃ cm' k, for_each (sorted_columns L tmask COLS) (λ '(_, x_index_harvested) '(cm, x_index),
    cm ← for_each (seqZ 0 ROWS) (λ y cm,
           noc0_core ←
             vec_idx (tensix_cores (layout cm)) (u64 (x_index_harvested + y * COLS));
           translated_core ←
             vec_idx (tensix_cores (layout cm)) (u64 (x_index + y * COLS));
           Ok (add_core_translation
                 (CoreCoord_of_pair translated_core TENSIX TRANSLATED) noc0_core cm)) cm;
    Ok (cm, u64 (x_index - 1))) (cm, u64 (COLS - 1)) = Ok (cm', k) ∧
  steps cm cm' (λ c p, ∃ k d x, sorted_columns L tmask COLS !! k = Some (d, x) ∧
    ∃ y, 0 ≤ y < ROWS ∧ unit_core tg (tensix_cores L) x y p ∧
    ∃ q, tensix_cores L !! Z.to_nat (COLS - 1 - Z.of_nat k + y * COLS) = Some q ∧
    c = CoreCoord_of_pair q TENSIX TRANSLATED).
Proof.
intros Hb Hg. pose proof tensix_bounds.
destruct (for_each_inv (λ done s, s.2 = u64 (COLS - 1 - vec_size done) ∧
  steps cm s.1 (λ c p, ∃ k d x, done !! k = Some (d, x) ∧
    ∃ y, 0 ≤ y < ROWS ∧ unit_core tg (tensix_cores L) x y p ∧
    ∃ q, tensix_cores L !! Z.to_nat (COLS - 1 - Z.of_nat k + y * COLS) = Some q ∧
    c = CoreCoord_of_pair q TENSIX TRANSLATED)) (sorted_columns L tmask COLS)
  (λ '(_, x_index_harvested) '(cm, x_index),
    cm ← for_each (seqZ 0 ROWS) (λ y cm,
           noc0_core ←
             vec_idx (tensix_cores (layout cm)) (u64 (x_index_harvested + y * COLS));
           translated_core ←
             vec_idx (tensix_cores (layout cm)) (u64 (x_index + y * COLS));
           Ok (add_core_translation
                 (CoreCoord_of_pair translated_core TENSIX TRANSLATED) noc0_core cm)) cm;
    Ok (cm, u64 (x_index - 1))) (cm, u64 (COLS - 1))) as ([cm' k] & Hr & _ & Hs).
- split; [by rewrite Z.sub_0_r|]. apply steps_refl; [done|]. intros c p (k & d & x & Hk & _). done.
- intros done [d x] rest [cm1 xi] Hsplit [Hxi Hs1]. cbn [fst snd] in *. subst xi.
  assert (sorted_columns L tmask COLS !! length done = Some (d, x)) as Hat.
  { rewrite Hsplit. by rewrite list_lookup_middle. }
  pose proof (sorted_columns_lookup _ _ _ _ _ _ Hat) as (Hx & Hbit & Hlt).
  pose proof (rank_bounds (Z.testbit tmask) COLS ltac:(lia)).
  assert (column_target L tmask COLS x (COLS - 1 - vec_size done)) as Ht.
  { right. by exists (length done), d. }
  rewrite (u64_small (COLS - 1 - vec_size done)) by (unfold vec_size; lia).
  destruct (runs_column x _ cm1 Hb (steps_good _ _ _ _ _ _ _ Hs1) Hx Ht) as (cm2 & Hr2 & Hs2).
  rewrite Hr2. cbn [mbind result_bind]. eexists. split; [reflexivity|]. cbn [fst snd].
  split; [f_equal; rewrite vec_size_app; unfold vec_size; simpl; lia|].
  eapply steps_weaken; [|eapply steps_trans; [exact Hs1|exact Hs2]].
  simpl. intros c p (k & d' & x' & Hk & HA).
  apply lookup_app_Some in Hk as [Hk|[Hge Hk]]; [left; eauto|].
  apply list_lookup_singleton_Some in Hk as [Hk [= -> ->]]. right.
  replace (Z.of_nat k) with (vec_size done) in HA by (unfold vec_size; lia). exact HA.
- exists cm', k. split; [exact Hr|exact Hs].
Qed.

Lemma effective_idem : effective_masks COLS M = M.
Proof.
destruct tensix_bounds as [[Hc _] _]. unfold effective_masks.
destruct (COLS <? get_num_harvested (tensix_harvesting_mask M0)) eqn:E; cbn [tensix_harvesting_mask].
- change (get_num_harvested 0) with 0. by rewrite (proj2 (Z.ltb_ge _ _) Hc).
- by rewrite E.
Qed.

Lemma fill_tensix_blackhole :
b = true → fills_slice TENSIX fill_tensix_noc0_translated_mapping.
Proof.
intros Hb cm Hg _. unfold fill_tensix_noc0_translated_mapping. cbv zeta.
rewrite (good_layout _ _ _ _ _ Hg).
pose proof (drop_good _ _ _ _ COLS _ Hg) as Hg'. rewrite effective_idem in Hg'.
pose proof (drop_extends COLS cm) as Hext.
revert Hg' Hext. generalize (drop_oversized_tensix_mask COLS cm). intros cm0 Hg0 Hext.
rewrite (good_layout _ _ _ _ _ Hg0).
destruct (fill_kept_columns cm0 Hb Hg0) as (cm1 & Hr1 & [Hg1 He1 Hc1]).
cbv zeta in Hr1. rewrite Hr1. cbn [mbind result_bind].
destruct (fill_harvested_columns cm1 Hb Hg1) as (cm2 & k & Hr2 & [Hg2 He2 Hc2]).
change (merge_sort pair_le (harvested_columns L tmask COLS)) with (sorted_columns L tmask COLS).
rewrite Hr2. cbn [mbind result_bind fst]. apply runs_Ok.
split; [done|by do 2 (etrans; [done|])|].
intros c p Hs. destruct (slice_TRANSLATED _ _ _ _ _ _ Hs) as (q & Hp & Hq & ->).
rewrite Hb in Hq. destruct Hq as (x & y & col & Hcore & Ht & Hq).
pose proof Hcore as (Hx & Hy & _). destruct Ht as [[Hk ->]|(i & d & Hk & ->)].
- apply He2, Hc1. exists x. split; [done|]. split; [done|]. exists y. split; [done|]. eauto.
- apply Hc2. exists i, d, x. split; [done|]. exists y. split; [done|]. eauto.
Qed.

Lemma translate_tensix_blackhole cm :
good0 cm →
∃ cm', translate_tensix_coords cm = Ok cm' ∧ good cm' ∧ extends cm cm' ∧ covers cm' (named TENSIX).
Proof.
intros Hg0. unfold translate_tensix_coords. cbv zeta. rewrite (good_layout _ _ _ _ _ Hg0).
pose proof (drop_good _ _ _ _ COLS _ Hg0) as Hg. pose proof (drop_extends COLS cm) as Hext.
revert Hg Hext. generalize (drop_oversized_tensix_mask COLS cm). intros cm0 Hg Hext.
rewrite (good_layout _ _ _ _ _ Hg).
destruct (tensix_logical cm0 Hg) as (cm1 & Hr1 & [Hg1 He1 Hc1]).
rewrite Hr1. cbn [mbind result_bind fst].
assert (∃ cm2, (if noc_translation_enabled cm1 then fill_tensix_noc0_translated_mapping cm1
  else Ok (fill_tensix_default_noc0_translated_mapping cm1)) = Ok cm2 ∧
  steps cm1 cm2 (slice TENSIX TRANSLATED)) as (cm2 & -> & [Hg2 He2 Hc2]).
{ destruct (noc_translation_enabled cm1) eqn:Eb; rewrite (good_noc _ _ _ _ _ Hg1) in Eb.
  - by apply fill_tensix_blackhole.
  - apply (fill_tensix_default_slice L M b grids translated); [|done|done].
    intros p Hp. by rewrite Eb. }
exists cm2. split; [done|]. split; [done|]. split; [by do 2 (etrans; [done|])|].
intros c p [?|?]; [by apply He2, Hc1|by apply Hc2].
Qed.

(** ** ETH *)

Abbreviation emask := (eth_harvesting_mask M).
Abbreviation esize := (vec_size (eth_cores L)).
Abbreviation eg := (channel_grid emask esize).

Lemma eth_bound : 0 ≤ esize ≤ 31.
Proof. apply (ugo_outer _ _ (grid_ok ETH eg eq_refl)). Qed.

Lemma eth_core_at i : 0 ≤ i < esize →
∃ p, eth_cores L !! Z.to_nat i = Some p ∧ unit_core eg (eth_cores L) i 0 p.
Proof.
intros Hi. destruct (unit_core_at _ _ (grid_ok ETH eg eq_refl) i 0 Hi ltac:(simpl; lia)) as [p Hp].
exists p. split; [apply Hp|done].
Qed.

Lemma eth_logical cm :
good cm →
∃ cm', for_each (seqZ 0 esize) (λ eth_channel '(cm, unharvested),
    harvested ← test_mask (eth_harvesting_mask (harvesting_masks cm)) eth_channel;
    if negb harvested then
      eth_core ← vec_idx (eth_cores (layout cm)) eth_channel;
      Ok (add_core_translation (MkCoreCoord 0 unharvested ETH LOGICAL) eth_core cm,
          u64 (unharvested + 1))
    else Ok (cm, unharvested)) (cm, 0) = Ok (cm', rank (kept emask) esize) ∧
  steps cm cm' (slice ETH LOGICAL).
Proof.
intros Hg. pose proof eth_bound.
edestruct (loop_steps T L M b (λ cm i, (cm, rank (kept emask) i)) esize) as (cm' & Hr & Hs);
  [exact Hg|lia| |].
2:{ exists cm'. split; [exact Hr|]. eapply steps_weaken; [|exact Hs].
    intros c p Hsl. destruct (slice_LOGICAL_units L grids translated ETH eg c p eq_refl Hsl)
      as (i & Hi & HA). exists i. split; [done|]. exact HA. }
intros i cm1 Hi Hg1 _. cbn beta iota. rewrite (good_masks _ _ _ _ _ Hg1), test_mask_spec by lia.
cbn [mbind result_bind]. fold (kept emask i). destruct (kept emask i) eqn:Hk.
- rewrite (good_layout _ _ _ _ _ Hg1). destruct (eth_core_at i Hi) as (p & Hp & Hc).
  rewrite (vec_idx_Some _ _ _ Hp). cbn [mbind result_bind].
  rewrite (rank_kept_u64 _ _ esize) by (done || lia). eexists. split; [reflexivity|].
  apply (steps_logical_core L M b grids translated ETH eg i 0 p); [done|done|done|done|].
  intros c p' (_ & j & Hj & Hc' & ->). simpl in Hj. assert (j = 0) as -> by lia.
  split; [done|by eapply unit_core_functional].
- exists cm1. rewrite rank_S, Hk, Z.add_0_r by lia. split; [done|].
  apply steps_refl; [done|]. intros c p (Hk' & _). simpl in Hk'. congruence.
Qed.

Lemma eth_num_kept :
u64 (esize - (if esize =? 0 then 0 else get_num_harvested emask)) = rank (kept emask) esize.
Proof.
pose proof eth_bound. destruct Hmasks as (_ & He & _). rewrite <- effective_eth in He.
destruct (Z.eqb_spec esize 0) as [->|Hne]; [done|].
destruct He as [He|[He _]]; [by rewrite He in Hne|].
rewrite (get_num_harvested_rank emask esize), rank_kept by lia.
pose proof (rank_bounds (Z.testbit emask) esize ltac:(lia)). apply u64_small. lia.
Qed.

(** ** The two loops of the ETH and PCIE fill methods *)

Section channels.
Context (t : CoreType) (g : UnitGrid) (Hgrid : grids t = Some g).
Context (Hindex : ∀ i, ug_index g i 0 = i) (Hinner : ug_inner g = 1).
Abbreviation n := (ug_outer g).
Abbreviation mask := (ug_mask g).

Lemma channel_core_at i : 0 ≤ i < n →
  ∃ p, cores_of L t !! Z.to_nat i = Some p ∧ unit_core g (cores_of L t) i 0 p.
Proof.
  intros Hi. destruct (unit_core_at _ _ (grid_ok t g Hgrid) i 0 Hi ltac:(lia)) as [p Hp].
  exists p. split; [|done]. pose proof Hp as (_ & _ & Hp'). by rewrite Hindex in Hp'.
Qed.

Lemma runs_kept_channels (tname : Z → xy_pair → CoreCoord) cm :
  good cm → covers cm (slice t LOGICAL) →
  (∀ i p, unit_core g (cores_of L t) i 0 p → kept mask i = true →
     T (tname (rank (kept mask) i) p) p) →
  runs (for_each (seqZ 0 (rank (kept mask) n)) (λ k cm,
          let '(noc0_pair, cm) :=
            to_noc0_subscript (CoreCoord_of_pair (ug_place g k 0) t LOGICAL) cm in
          Ok (add_core_translation (tname k noc0_pair) noc0_pair cm)) cm) cm
    (λ c p, ∃ k, 0 ≤ k < rank (kept mask) n ∧ ∃ i, unit_core g (cores_of L t) i 0 p ∧
       kept mask i = true ∧ rank (kept mask) i = k ∧ c = tname k p).
Proof.
  intros Hg Hcov HT. pose proof (grid_ok t g Hgrid) as Hok. pose proof (ugo_outer _ _ Hok).
  pose proof (rank_bounds (kept mask) n ltac:(lia)).
  apply runs_loop; [done|lia|]. intros k cm1 Hk Hg1 He1.
  destruct (rank_surj (kept mask) n k) as (i & Hi & Hki & Hrank); [lia..|].
  destruct (channel_core_at i Hi) as (p & _ & Hp).
  pose proof (has_logical L grids translated t g i 0 p cm Hgrid Hcov Hp Hki) as Hhas.
  apply He1 in Hhas. rewrite Hrank in Hhas. rewrite (subscript_has _ p) by exact Hhas.
  apply runs_Ok, steps_add; [apply _|done| |].
  - rewrite <- Hrank. by apply HT.
  - intros c p' (i' & Hp' & Hk' & Hr' & ->). rewrite <- Hr' in Hrank.
    apply rank_inj in Hrank as ->; [|lia|apply Hp'|done..].
    pose proof (unit_core_functional _ _ _ _ _ _ Hp Hp') as ->. done.
Qed.

Lemma runs_harvested_channels cm :
  good cm →
  (∀ i p, unit_core g (cores_of L t) i 0 p → kept mask i = false →
     T (CoreCoord_of_pair p t TRANSLATED) p) →
  runs (for_each (seqZ 0 n) (λ i cm,
          harvested ← test_mask mask i;
          if (harvested : bool) then
            noc0_pair ← vec_idx (cores_of (layout cm) t) i;
            Ok (add_core_translation (CoreCoord_of_pair noc0_pair t TRANSLATED) noc0_pair cm)
          else Ok cm) cm) cm
    (λ c p, ∃ i, 0 ≤ i < n ∧ unit_core g (cores_of L t) i 0 p ∧ kept mask i = false ∧
       c = CoreCoord_of_pair p t TRANSLATED).
Proof.
  intros Hg HT. pose proof (ugo_outer _ _ (grid_ok t g Hgrid)).
  apply runs_loop; [done|lia|]. intros i cm1 Hi Hg1 _.
  rewrite test_mask_spec by lia. cbn [mbind result_bind]. unfold kept in HT |- *.
  destruct (Z.testbit mask i) eqn:Hk.
  - rewrite (good_layout _ _ _ _ _ Hg1). destruct (channel_core_at i Hi) as (p & Hp & Hc).
    rewrite (vec_idx_Some _ _ _ Hp). cbn [mbind result_bind].
    apply runs_Ok, steps_add; [apply _|done| |].
    + apply (HT i p Hc). by rewrite Hk.
    + intros c p' (Hc' & _ & ->). pose proof (unit_core_functional _ _ _ _ _ _ Hc Hc') as ->. done.
  - apply runs_Ok, steps_refl; [done|]. by intros c p (_ & ? & _).
Qed.
End channels.

Lemma fill_eth_blackhole : b = true → fills_slice ETH fill_eth_noc0_translated_mapping.
Proof.
intros Hb cm Hg Hcov. unfold fill_eth_noc0_translated_mapping. cbv zeta.
rewrite (good_layout _ _ _ _ _ Hg), (good_masks _ _ _ _ _ Hg), eth_num_kept.
pose proof eth_bound.
set (tname k (p : xy_pair) := MkCoreCoord (u64 (k + blackhole.eth_translated_coordinate_start_x))
       blackhole.eth_translated_coordinate_start_y ETH TRANSLATED).
assert (∀ i p, unit_core eg (eth_cores L) i 0 p →
  tname (rank (kept emask) i) p = CoreCoord_of_pair
    (XY (blackhole.eth_translated_coordinate_start_x + rank (kept emask) i)
        blackhole.eth_translated_coordinate_start_y) ETH TRANSLATED) as Hname.
{ intros i p (Hi & _). simpl in Hi. pose proof (rank_bounds (kept emask) i ltac:(lia)).
  unfold tname, CoreCoord_of_pair. f_equal. unfold blackhole.eth_translated_coordinate_start_x.
  rewrite u64_small; cbn [xy_x]; lia. }
destruct (runs_kept_channels ETH eg eq_refl ltac:(done) eq_refl tname cm Hg Hcov)
  as (cm1 & Hr1 & [Hg1 He1 Hc1]).
{ intros i p Hc Hk. rewrite Hname by done. apply T_TRANSLATED; [by eapply unit_core_elem|].
  rewrite Hb. exists i. split; [exact Hc|]. simpl in Hk. by rewrite Hk. }
change (for_each (seqZ 0 (rank (kept emask) esize)) _ cm) with
  (for_each (seqZ 0 (rank (kept (ug_mask eg)) (ug_outer eg))) (λ k cm,
     let '(noc0_pair, cm) := to_noc0_subscript (CoreCoord_of_pair (ug_place eg k 0) ETH LOGICAL) cm in
     Ok (add_core_translation (tname k noc0_pair) noc0_pair cm)) cm).
rewrite Hr1. cbn [mbind result_bind].
destruct (runs_harvested_channels ETH eg eq_refl ltac:(done) eq_refl cm1 Hg1)
  as (cm2 & Hr2 & [Hg2 He2 Hc2]).
{ intros i p Hc Hk. apply T_TRANSLATED; [by eapply unit_core_elem|].
  rewrite Hb. exists i. split; [exact Hc|]. simpl in Hk. by rewrite Hk. }
exists cm2. split; [exact Hr2|]. split; [done|by etrans|].
intros c p Hs. destruct (slice_TRANSLATED _ _ _ _ _ _ Hs) as (q & Hp & Hq & ->).
rewrite Hb in Hq. destruct Hq as (i & Hc & ->). pose proof Hc as (Hi & _). simpl in Hi.
destruct (kept emask i) eqn:Hk.
- rewrite <- (Hname i p Hc). apply He2, Hc1. exists (rank (kept emask) i).
  pose proof (rank_lt (kept emask) i esize Hi Hk). pose proof (rank_bounds (kept emask) i ltac:(lia)).
  split; [simpl; lia|]. by exists i.
- apply Hc2. by exists i.
Qed.

(** [translate_*_coords] from its logical loop and its fill. *)
Lemma named_blackhole t (r : result CoordinateManager) fill default cm :
runs r cm (slice t LOGICAL) → (b = true → fills_slice t fill) → (b = false → fills_slice t default) →
runs (r ≫= λ cm, if noc_translation_enabled cm then fill cm else default cm) cm (named t).
Proof. apply runs_named. Qed.

Lemma not_translated_identity : b = false → ∀ t, identity_translated L translated t.
Proof. intros -> t p Hp. done. Qed.

Lemma translate_eth_blackhole cm : good cm → runs (translate_eth_coords cm) cm (named ETH).
Proof.
intros Hg. unfold translate_eth_coords. rewrite (good_layout _ _ _ _ _ Hg).
destruct (eth_logical cm Hg) as (cm1 & Hr1 & Hs1). rewrite Hr1. cbn [mbind result_bind fst].
apply (named_blackhole ETH (Ok cm1)).
- by apply runs_Ok.
- apply fill_eth_blackhole.
- intros Hb. by apply (fill_eth_default_slice L M b grids translated), not_translated_identity.
Qed.

Lemma runs_add_harvested_grid t mask grid cm :
grids t = Some (bank_grid mask grid) → good cm →
runs (add_harvested_grid t mask grid (cores_of L t) cm) cm (slice t LOGICAL).
Proof.
intros Hgrid Hg. unfold add_harvested_grid. pose proof (grid_ok t _ Hgrid) as Hok.
destruct (kept_units_loop L M b grids translated t (bank_grid mask grid) (λ _, mask)
  (λ x logical_x y cm, core ← vec_idx (cores_of L t) (u64 (x * xy_y grid + y));
    Ok (add_core_translation (MkCoreCoord logical_x y t LOGICAL) core cm)) cm) as (cm1 & Hr1 & Hs1);
  [done|done|done| |].
- intros x y p cm1 _ (Hx & Hy & Hp).
  pose proof (ugo_index _ _ Hok _ _ Hx Hy). pose proof (ugo_size _ _ Hok). simpl in *.
  rewrite u64_small by lia. by rewrite (vec_idx_Some _ _ _ Hp).
- cbn [ug_outer ug_inner bank_grid] in Hr1. rewrite Hr1. by apply runs_Ok.
Qed.

(** ** PCIE *)

Abbreviation pmask := (pcie_harvesting_mask M).
Abbreviation pg := (bank_grid pmask (pcie_grid_size L)).
Abbreviation pcols := (xy_x (pcie_grid_size L)).

Lemma pcie_num_kept : u64 (pcols - get_num_harvested pmask) = rank (kept pmask) pcols.
Proof.
pose proof (ugo_outer _ _ (grid_ok PCIE pg eq_refl)) as Hp. simpl in Hp.
destruct Hmasks as (_ & _ & _ & _ & Hm). rewrite <- effective_pcie in Hm.
rewrite (get_num_harvested_rank pmask pcols), rank_kept by lia.
pose proof (rank_bounds (Z.testbit pmask) pcols ltac:(lia)). apply u64_small. lia.
Qed.

Lemma fill_pcie_blackhole : b = true → fills_slice PCIE fill_pcie_noc0_translated_mapping.
Proof.
intros Hb cm Hg Hcov. unfold fill_pcie_noc0_translated_mapping. cbv zeta.
rewrite (good_layout _ _ _ _ _ Hg), (good_masks _ _ _ _ _ Hg), pcie_num_kept.
destruct Hbh as (_ & Hone & _).
assert (∀ i, ug_index pg i 0 = i) as Hindex by (intros i; simpl; rewrite Hone; lia).
set (tname k (p : xy_pair) := CoreCoord_of_pair
       (if k =? 0 then XY blackhole.pcie_translated_coordinate_start_x
                          blackhole.pcie_translated_coordinate_start_y else p) PCIE TRANSLATED).
destruct (runs_kept_channels PCIE pg eq_refl Hindex Hone tname cm Hg Hcov)
  as (cm1 & Hr1 & [Hg1 He1 Hc1]).
{ intros i p Hc Hk. apply T_TRANSLATED; [by eapply unit_core_elem|].
  rewrite Hb. exists i. split; [exact Hc|]. simpl in Hk. by rewrite Hk. }
change (for_each (seqZ 0 (rank (kept pmask) pcols)) _ cm) with
  (for_each (seqZ 0 (rank (kept (ug_mask pg)) (ug_outer pg))) (λ k cm,
     let '(noc0_pair, cm) := to_noc0_subscript (CoreCoord_of_pair (ug_place pg k 0) PCIE LOGICAL) cm in
     Ok (add_core_translation (tname k noc0_pair) noc0_pair cm)) cm).
rewrite Hr1. cbn [mbind result_bind].
destruct (runs_harvested_channels PCIE pg eq_refl Hindex Hone cm1 Hg1)
  as (cm2 & Hr2 & [Hg2 He2 Hc2]).
{ intros i p Hc Hk. apply T_TRANSLATED; [by eapply unit_core_elem|].
  rewrite Hb. exists i. split; [exact Hc|]. simpl in Hk. by rewrite Hk. }
exists cm2. split; [exact Hr2|]. split; [done|by etrans|].
intros c p Hs. destruct (slice_TRANSLATED _ _ _ _ _ _ Hs) as (q & Hp & Hq & ->).
rewrite Hb in Hq. destruct Hq as (i & Hc & ->). pose proof Hc as (Hi & _). simpl in Hi.
destruct (kept pmask i) eqn:Hk; cbn [andb].
- apply He2, Hc1. exists (rank (kept pmask) i).
  pose proof (rank_lt (kept pmask) i pcols Hi Hk). pose proof (rank_bounds (kept pmask) i ltac:(lia)).
  split; [simpl; lia|]. by exists i.
- apply Hc2. by exists i.
Qed.

Lemma translate_pcie_blackhole cm : good cm → runs (translate_pcie_coords cm) cm (named PCIE).
Proof.
intros Hg. unfold translate_pcie_coords.
rewrite (good_layout _ _ _ _ _ Hg), (good_masks _ _ _ _ _ Hg).
apply named_blackhole.
- by apply (runs_add_harvested_grid PCIE).
- apply fill_pcie_blackhole.
- intros Hb. by apply (fill_pcie_default_slice L M b grids translated), not_translated_identity.
Qed.

(** ** ARC and L2CPU *)

Lemma translate_arc_blackhole cm :
good cm → runs (CoordinateManager.translate_arc_coords fills cm) cm (named ARC).
Proof.
intros Hg. unfold CoordinateManager.translate_arc_coords. rewrite (good_layout _ _ _ _ _ Hg).
assert (fills_slice ARC fill_arc_default_noc0_translated_mapping) as Hfill.
{ apply (fills_layout L M b grids translated ARC (fill_grid_default ARC) arc_grid_size),
    fill_grid_default_slice; [apply _|done|]. intros p Hp. simpl. by destruct b. }
apply named_blackhole; [|done|done].
apply (runs_add_logical_grid L M b grids translated ARC 0);
  [done|done|apply no_harvesting_unharvested].
Qed.

Abbreviation lmask := (l2cpu_harvesting_mask M).
Abbreviation lsize := (vec_size (l2cpu_cores L)).
Abbreviation lg := (channel_grid lmask lsize).

Lemma l2cpu_step i p cm :
good cm → unit_core lg (l2cpu_cores L) i 0 p → kept lmask i = true →
steps cm (add_core_translation (MkCoreCoord 0 (rank (kept lmask) i) L2CPU LOGICAL) p cm)
  (λ c p', unit_core lg (l2cpu_cores L) i 0 p' ∧
     c = CoreCoord_of_pair (XY 0 (rank (kept lmask) i)) L2CPU LOGICAL).
Proof.
intros Hg Hc Hk. apply (steps_logical_core L M b grids translated L2CPU lg i 0 p); [done..|].
intros c p' [Hc' ->]. split; [done|by eapply unit_core_functional].
Qed.

Lemma translate_l2cpu_blackhole cm : good cm → runs (translate_l2cpu_coords cm) cm (named L2CPU).
Proof.
intros Hg. unfold translate_l2cpu_coords. rewrite (good_layout _ _ _ _ _ Hg).
pose proof (grid_ok L2CPU lg eq_refl) as Hok. pose proof (ugo_outer _ _ Hok) as Hn. simpl in Hn.
assert (identity_translated L translated L2CPU) as Hid by (intros p Hp; simpl; by destruct b).
edestruct (loop_steps T L M b (λ cm i, (cm, rank (kept lmask) i)) lsize) as (cm' & Hr & Hs);
  [exact Hg|lia| |].
2:{ exists cm'. cbv beta in Hr. rewrite rank_0 in Hr. rewrite Hr. split; [done|].
    apply (steps_weaken _ _ _ _ _ _ (λ c p, ∃ i, 0 ≤ i < lsize ∧
      ((unit_core lg (l2cpu_cores L) i 0 p ∧ c = CoreCoord_of_pair p L2CPU TRANSLATED) ∨
       (kept lmask i = true ∧ unit_core lg (l2cpu_cores L) i 0 p ∧
          c = CoreCoord_of_pair (XY 0 (rank (kept lmask) i)) L2CPU LOGICAL)))); [|exact Hs].
    intros c p [Hsl|Hsl].
    - destruct (slice_LOGICAL_units L grids translated L2CPU lg c p eq_refl Hsl)
        as (i & Hi & Hk & j & Hj & Hc & ->). simpl in Hj. assert (j = 0) as -> by lia.
      exists i. split; [done|]. right. done.
    - destruct (slice_identity _ _ _ _ _ _ Hid Hsl) as [Hp ->].
      destruct (unit_core_of _ _ Hok p Hp) as (i & j & Hc). pose proof Hc as (Hi & Hj & _).
      simpl in Hi, Hj. assert (j = 0) as -> by lia. exists i. split; [done|]. by left. }
intros i cm1 Hi Hg1 _. cbn beta iota. rewrite (good_layout _ _ _ _ _ Hg1).
destruct (channel_core_at L2CPU lg eq_refl ltac:(done) eq_refl i Hi) as (p & Hp & Hc).
cbn [cores_of] in Hp. rewrite (vec_idx_Some _ _ _ Hp). cbn [mbind result_bind].
pose proof (steps_identity_core L M b grids translated L2CPU p cm1
  (λ c p', unit_core lg (l2cpu_cores L) i 0 p' ∧ c = CoreCoord_of_pair p' L2CPU TRANSLATED)
  Hid Hg1 (unit_core_elem _ _ _ _ _ Hc)) as Hs1.
destruct Hs1 as [Hg2 He2 Hc2].
{ intros c p' [Hc' ->]. pose proof (unit_core_functional _ _ _ _ _ _ Hc Hc') as ->. done. }
revert Hg2 He2 Hc2. generalize (add_core_translation (CoreCoord_of_pair p L2CPU TRANSLATED) p cm1).
intros cm2 Hg2 He2 Hc2. cbv zeta. rewrite (good_masks _ _ _ _ _ Hg2), test_mask_spec by lia.
cbn [mbind result_bind]. rewrite rank_S, (kept_testbit lmask i) by lia.
destruct (Z.testbit lmask i) eqn:Hk; cbn [negb].
- exists cm2. rewrite Z.add_0_r. split; [done|]. split; [done|done|].
  intros c p' [HA|[? _]]; [by apply Hc2|done].
- pose proof (rank_bounds (kept lmask) i ltac:(lia)).
  rewrite (u64_small (rank (kept lmask) i + 1)), Z.add_simpl_r, u64_small by lia.
  eexists. split; [reflexivity|].
  destruct (l2cpu_step i p cm2 Hg2 Hc) as [Hg3 He3 Hc3]; [unfold kept; by rewrite Hk|].
  split; [done|by etrans|]. intros c p' [HA|[_ HA]]; [by apply He3, Hc2|by apply Hc3].
Qed.

(** ** DRAM *)

Abbreviation dmask := (dram_harvesting_mask M).
Abbreviation dgrid := (dram_grid_size L).
Abbreviation dg := (bank_grid dmask dgrid).

Lemma dmask_ok : dram_mask_ok dmask.
Proof. rewrite effective_dram. apply Hmasks. Qed.

Section full_dram.
Context (Hb : b = true) (Hfull : xy_x dgrid = 8).

Lemma dram_ports : xy_y dgrid = 3.
Proof. destruct Hbh as (_ & _ & _ & Hports). by apply Hports. Qed.

Lemma T_dram i j p :
  unit_core dg (dram_cores L) i j p →
  T (CoreCoord_of_pair (dram_place (bank_slot dmask i) j) DRAM TRANSLATED) p.
Proof.
  intros Hc. apply T_TRANSLATED; [by eapply unit_core_elem|]. rewrite Hb. simpl.
  rewrite Hfull. by exists i, j.
Qed.

(** The entries one call of [map_dram_banks] adds: the cores of the kept
    banks numbered [s .. e-1], at their slots. *)
Definition bank_entries (s e : Z) : Table := λ c p,
  ∃ k, s ≤ k < e ∧ ∃ j, 0 ≤ j < 3 ∧ ∃ i, unit_core dg (dram_cores L) i j p ∧
    kept dmask i = true ∧ rank (kept dmask) i = k ∧
    c = CoreCoord_of_pair (dram_place (dram_slot (harvested_bank dmask) k) j) DRAM TRANSLATED.

Lemma runs_map_dram_banks s e x y cm :
  good cm → covers cm (slice DRAM LOGICAL) →
  0 ≤ s ≤ e → e ≤ rank (kept dmask) 8 → 0 ≤ y < 100 →
  (∀ k j, s ≤ k < e → 0 ≤ j < 3 →
     dram_place (dram_slot (harvested_bank dmask) k) j = XY x (y + (k - s) * 3 + j)) →
  runs (map_dram_banks s e x y cm) cm (bank_entries s e).
Proof.
  intros Hg Hcov Hse He Hy Hplace. unfold map_dram_banks. pose proof dram_ports as Hports.
  pose proof (grid_ok DRAM dg eq_refl) as Hok.
  pose proof (rank_bounds (kept dmask) 8 ltac:(lia)).
  edestruct (loop_steps_from T L M b (λ cm k, (cm, y + (k - s) * 3)) s (e - s))
    as (cm' & Hr & Hs); [exact Hg|lia| |].
  2:{ rewrite Z.sub_diag, Z.mul_0_l, Z.add_0_r in Hr. rewrite Hr. apply runs_Ok.
      cbn [fst]. rewrite Zplus_minus in Hs. exact Hs. }
  intros k cm1 Hk Hg1 He1.
  destruct (rank_surj (kept dmask) 8 k) as (i & Hi & Hki & Hrank); [lia..|].
  edestruct (loop_steps T L M b (λ cm j, (cm, y + (k - s) * 3 + j)) 3) as (cm2 & Hr2 & Hs2);
    [exact Hg1|lia| |].
  2:{ rewrite Z.add_0_r in Hr2. exists cm2. unfold blackhole.NUM_NOC_PORTS_PER_DRAM_BANK.
      rewrite Hr2. split; [f_equal; f_equal; lia|exact Hs2]. }
  intros j cm2 Hj Hg2 He2. cbn beta iota.
  destruct (unit_core_at _ _ Hok i j) as [p Hp]; [simpl; lia..|].
  pose proof (has_logical L grids translated DRAM dg i j p cm eq_refl Hcov Hp Hki) as Hhas.
  apply He1, He2 in Hhas. cbn in Hhas. rewrite Hrank in Hhas.
  change (MkCoreCoord k j DRAM LOGICAL) with (CoreCoord_of_pair (XY k j) DRAM LOGICAL).
  rewrite (subscript_has _ p) by exact Hhas. rewrite u64_small by lia.
  eexists. split; [f_equal; f_equal; lia|].
  change (MkCoreCoord x ?y' DRAM TRANSLATED) with (CoreCoord_of_pair (XY x y') DRAM TRANSLATED).
  rewrite <- Hplace by lia. apply steps_add; [apply _|done| |].
  - pose proof (T_dram i j p Hp) as HT. unfold bank_slot in HT. by rewrite Hki, Hrank in HT.
  - intros c p' (i' & Hp' & Hk' & Hr' & ->). rewrite <- Hr' in Hrank.
    apply rank_inj in Hrank as ->; [|lia|apply Hp'|done..].
    pose proof (unit_core_functional _ _ _ _ _ _ Hp Hp') as ->. done.
Qed.

(** The harvested bank's cores, behind the kept ones. *)
Lemma runs_harvested_bank h cm :
  good cm → 0 ≤ h < 8 → Z.testbit dmask h = true →
  runs (for_each (seqZ 0 (xy_y dgrid)) (λ noc_port cm,
    noc0_core ← vec_idx (dram_cores (layout cm)) (u64 (u64 (h * xy_y dgrid) + noc_port));
    Ok (add_core_translation
          (MkCoreCoord (blackhole.dram_translated_coordinate_start_x + 1)
             (u64 (u64 (blackhole.dram_translated_coordinate_start_y
                          + (xy_x dgrid / 2 - 1) * xy_y dgrid) + noc_port))
             DRAM TRANSLATED) noc0_core cm)) cm) cm
    (λ c p, ∃ j, 0 ≤ j < 3 ∧ unit_core dg (dram_cores L) h j p ∧
       c = CoreCoord_of_pair (dram_place (1, 3) j) DRAM TRANSLATED).
Proof.
  intros Hg Hh Hbit. rewrite dram_ports, Hfull. pose proof (grid_ok DRAM dg eq_refl) as Hok.
  apply runs_loop; [done|lia|]. intros j cm1 Hj Hg1 _. rewrite (good_layout _ _ _ _ _ Hg1).
  destruct (unit_core_at _ _ Hok h j) as [p Hp]; [cbn; rewrite ?dram_ports; lia..|].
  pose proof Hp as (_ & _ & Hp'). cbn [ug_index bank_grid cores_of] in Hp'. rewrite dram_ports in Hp'.
  rewrite (u64_small (h * 3)), (u64_small (h * 3 + j)), (vec_idx_Some _ _ _ Hp') by lia.
  cbn [mbind result_bind]. rewrite (u64_small (_ + (8 / 2 - 1) * 3)) by done.
  change ((8 / 2 - 1) * 3) with 9.
  rewrite u64_small by (unfold blackhole.dram_translated_coordinate_start_y; lia).
  apply runs_Ok, steps_add; [apply _|done| |].
  - pose proof (T_dram h j p Hp) as HT. unfold bank_slot, kept in HT. rewrite Hbit in HT. exact HT.
  - intros c p' [Hc ->]. pose proof (unit_core_functional _ _ _ _ _ _ Hp Hc) as ->. done.
Qed.

Lemma rank_kept_banks :
  rank (kept dmask) 8 = match harvested_bank dmask with Some _ => 7 | None => 8 end.
Proof. apply dram_mask_count, dmask_ok. Qed.

Lemma bank_entries_intro s e i j p :
  unit_core dg (dram_cores L) i j p → kept dmask i = true → s ≤ rank (kept dmask) i < e →
  bank_entries s e (CoreCoord_of_pair (dram_place (bank_slot dmask i) j) DRAM TRANSLATED) p.
Proof.
  intros Hc Hk Hr. pose proof Hc as (_ & Hj & _). cbn in Hj. rewrite dram_ports in Hj.
  exists (rank (kept dmask) i). split; [done|]. exists j. split; [done|]. exists i.
  split; [done|]. split; [done|]. split; [done|]. unfold bank_slot. by rewrite Hk.
Qed.

(** Two consecutive calls. *)
Lemma runs_then (r1 : result CoordinateManager) f2 cm (A1 A2 : Table) :
  runs r1 cm A1 →
  (∀ cm1, good cm1 → extends cm cm1 → runs (f2 cm1) cm1 A2) →
  runs (r1 ≫= f2) cm (λ c p, A1 c p ∨ A2 c p).
Proof.
  intros H1 H2. apply (runs_bind T L M b _ f2); [done|]. intros cm1 [Hg1 He1 _]. by apply H2.
Qed.

Ltac slot_arith :=
  intros k j Hk Hj; unfold dram_place, dram_slot;
  repeat match goal with
  | |- context [?a <? ?b] => destruct (Z.ltb_spec a b); [|try lia]; try lia
  | |- context [?a =? ?b] => destruct (Z.eqb_spec a b); [|try lia]; try lia
  end;
  cbn [fst snd];
  unfold blackhole.NUM_NOC_PORTS_PER_DRAM_BANK, blackhole.dram_translated_coordinate_start_x,
    blackhole.dram_translated_coordinate_start_y; f_equal; lia.

Lemma fill_all_banks cm :
  good cm → covers cm (slice DRAM LOGICAL) → harvested_bank dmask = None →
  runs (cm ← map_dram_banks 0 4 17 12 cm; map_dram_banks 4 8 18 12 cm) cm
    (λ c p, bank_entries 0 4 c p ∨ bank_entries 4 8 c p).
Proof.
  intros Hg Hcov Hh. pose proof rank_kept_banks as Hrank. rewrite Hh in Hrank.
  apply (runs_then _ (map_dram_banks 4 8 18 12)).
  - apply runs_map_dram_banks; [done|done|lia|lia|lia|]. rewrite Hh. slot_arith.
  - intros cm1 Hg1 He1. apply runs_map_dram_banks; [done|by eapply covers_extends|lia|lia|lia|].
    rewrite Hh. slot_arith.
Qed.

Lemma fill_west_harvested h cm :
  good cm → covers cm (slice DRAM LOGICAL) → harvested_bank dmask = Some h → 0 ≤ h < 4 →
  runs (cm ← map_dram_banks 0 3 18 12 cm;
        cm ← map_dram_banks 3 (h + 3) 17 12 cm;
        cm ← map_dram_banks (h + 4) 7 17 (12 + h * 3) cm;
        map_dram_banks (h + 3) (h + 4) 17 21 cm) cm
    (λ c p, bank_entries 0 3 c p ∨ bank_entries 3 (h + 3) c p ∨ bank_entries (h + 4) 7 c p ∨
            bank_entries (h + 3) (h + 4) c p).
Proof.
  intros Hg Hcov Hh Hr. pose proof rank_kept_banks as Hrank. rewrite Hh in Hrank.
  apply runs_then; [|intros cm1 Hg1 He1; apply runs_then; [|intros cm2 Hg2 He2; apply runs_then;
    [|intros cm3 Hg3 He3]]]; (apply runs_map_dram_banks; [done|covers_later|lia|lia|lia|]);
    rewrite Hh; slot_arith.
Qed.

Lemma fill_east_harvested h cm :
  good cm → covers cm (slice DRAM LOGICAL) → harvested_bank dmask = Some h → 4 ≤ h < 8 →
  runs (cm ← map_dram_banks 0 (h - 4) 17 12 cm;
        cm ← map_dram_banks (h - 4 + 1) 4 17 (12 + (h - 4) * 3) cm;
        cm ← map_dram_banks (h - 4) (h - 4 + 1) 17 21 cm;
        map_dram_banks 4 7 18 12 cm) cm
    (λ c p, bank_entries 0 (h - 4) c p ∨ bank_entries (h - 4 + 1) 4 c p ∨
            bank_entries (h - 4) (h - 4 + 1) c p ∨ bank_entries 4 7 c p).
Proof.
  intros Hg Hcov Hh Hr. pose proof rank_kept_banks as Hrank. rewrite Hh in Hrank.
  apply runs_then; [|intros cm1 Hg1 He1; apply runs_then; [|intros cm2 Hg2 He2; apply runs_then;
    [|intros cm3 Hg3 He3]]]; (apply runs_map_dram_banks; [done|covers_later|lia|lia|lia|]);
    rewrite Hh; slot_arith.
Qed.

(** The harvested bank follows the kept ones. *)
Lemma fill_with_harvested h r cm (A : Table) :
  good cm → harvested_bank dmask = Some h → 0 ≤ h < 8 → Z.testbit dmask h = true →
  runs r cm A →
  runs (r ≫= λ cm, for_each (seqZ 0 (xy_y dgrid)) (λ noc_port cm,
    noc0_core ← vec_idx (dram_cores (layout cm)) (u64 (u64 (h * xy_y dgrid) + noc_port));
    Ok (add_core_translation
          (MkCoreCoord (blackhole.dram_translated_coordinate_start_x + 1)
             (u64 (u64 (blackhole.dram_translated_coordinate_start_y
                          + (xy_x dgrid / 2 - 1) * xy_y dgrid) + noc_port))
             DRAM TRANSLATED) noc0_core cm)) cm) cm
    (λ c p, A c p ∨ ∃ j, 0 ≤ j < 3 ∧ unit_core dg (dram_cores L) h j p ∧
       c = CoreCoord_of_pair (dram_place (1, 3) j) DRAM TRANSLATED).
Proof.
  intros Hg Hh Hr Hbit Hruns. apply runs_then; [done|]. intros cm1 Hg1 _.
  by apply runs_harvested_bank.
Qed.

(** Every name of the translated DRAM slice is a slot. *)
Lemma slice_dram_slots c p :
  slice DRAM TRANSLATED c p →
  ∃ i j, unit_core dg (dram_cores L) i j p ∧ 0 ≤ i < 8 ∧
    c = CoreCoord_of_pair (dram_place (bank_slot dmask i) j) DRAM TRANSLATED.
Proof.
  intros Hs. destruct (slice_TRANSLATED _ _ _ _ _ _ Hs) as (q & Hp & Hq & ->).
  rewrite Hb in Hq. simpl in Hq. rewrite Hfull in Hq. destruct Hq as (i & j & Hc & ->).
  exists i, j. split; [done|]. split; [|done]. destruct Hc as (Hi & _). simpl in Hi. lia.
Qed.

(** The four calls around a harvested bank, as the fill method makes them. *)
Definition harvested_calls (h : Z) (cm : CoordinateManager) : result CoordinateManager :=
  let half := blackhole.NUM_DRAM_BANKS / 2 in
  let ports := blackhole.NUM_NOC_PORTS_PER_DRAM_BANK in
  let x0 := blackhole.dram_translated_coordinate_start_x in
  let y0 := blackhole.dram_translated_coordinate_start_y in
  if h <? half then
    cm ← map_dram_banks 0 (half - 1) (x0 + 1) y0 cm;
    cm ← map_dram_banks (half - 1) (h + half - 1) x0 y0 cm;
    cm ← map_dram_banks (h + half - 1 + 1) (blackhole.NUM_DRAM_BANKS - 1) x0
           (y0 + (h + half - 1 - (half - 1)) * ports) cm;
    map_dram_banks (h + half - 1) (h + half - 1 + 1) x0 (y0 + (half - 1) * ports) cm
  else
    cm ← map_dram_banks 0 (h - half) x0 y0 cm;
    cm ← map_dram_banks (h - half + 1) half x0 (y0 + (h - half) * ports) cm;
    cm ← map_dram_banks (h - half) (h - half + 1) x0 (y0 + (half - 1) * ports) cm;
    map_dram_banks half (blackhole.NUM_DRAM_BANKS - 1) (x0 + 1) y0 cm.

Lemma runs_harvested_calls h cm :
  good cm → covers cm (slice DRAM LOGICAL) → harvested_bank dmask = Some h → 0 ≤ h < 8 →
  runs (harvested_calls h cm) cm (λ c p, ∃ i j, 0 ≤ i < 8 ∧ kept dmask i = true ∧
    unit_core dg (dram_cores L) i j p ∧
    c = CoreCoord_of_pair (dram_place (bank_slot dmask i) j) DRAM TRANSLATED).
Proof.
  intros Hg Hcov Hh Hr. unfold harvested_calls. cbv zeta.
  change (blackhole.NUM_DRAM_BANKS / 2) with 4.
  destruct (Z.ltb_spec h 4).
  - replace (h + 4 - 1) with (h + 3) by lia. replace (h + 3 + 1) with (h + 4) by lia.
    replace (h + 3 - (4 - 1)) with h by lia.
    eapply runs_weaken; [|exact (fill_west_harvested h cm Hg Hcov Hh ltac:(lia))].
    intros c p (i & j & Hi & Hk & Hc & ->).
    pose proof (dram_rank_bound dmask i dmask_ok Hi Hk) as Hri. rewrite Hh in Hri.
    pose proof (λ s e, bank_entries_intro s e i j p Hc Hk) as Hin. cbn beta.
    destruct (decide (rank (kept dmask) i < 3)); [left; apply Hin; lia|right].
    destruct (decide (rank (kept dmask) i < h + 3)); [left; apply Hin; lia|right].
    destruct (decide (rank (kept dmask) i < h + 4)); [right|left]; apply Hin; lia.
  - eapply runs_weaken; [|exact (fill_east_harvested h cm Hg Hcov Hh ltac:(lia))].
    intros c p (i & j & Hi & Hk & Hc & ->).
    pose proof (dram_rank_bound dmask i dmask_ok Hi Hk) as Hri. rewrite Hh in Hri.
    pose proof (λ s e, bank_entries_intro s e i j p Hc Hk) as Hin. cbn beta.
    destruct (decide (rank (kept dmask) i < h - 4)); [left; apply Hin; lia|right].
    destruct (decide (rank (kept dmask) i < h - 4 + 1)); [right; left; apply Hin; lia|].
    destruct (decide (rank (kept dmask) i < 4)); [left|right; right]; apply Hin; lia.
Qed.

Lemma fill_dram_full : fills_slice DRAM fill_dram_noc0_translated_mapping.
Proof.
  intros cm Hg Hcov. unfold fill_dram_noc0_translated_mapping. cbv zeta.
  rewrite (good_layout _ _ _ _ _ Hg), (good_masks _ _ _ _ _ Hg).
  rewrite (proj2 (Z.ltb_ge (xy_x dgrid) blackhole.NUM_DRAM_BANKS)) by (rewrite Hfull; done).
  destruct (dram_mask_cases dmask dmask_ok) as [(Hh & -> & Hz)|(h & Hr & Hh & -> & Hz)].
  - eapply runs_weaken; [|exact (fill_all_banks cm Hg Hcov Hh)].
    intros c p Hs. destruct (slice_dram_slots c p Hs) as (i & j & Hc & Hi & ->).
    assert (kept dmask i = true) as Hk by (unfold kept; by rewrite Hz).
    pose proof (dram_rank_bound dmask i dmask_ok Hi Hk) as Hri. rewrite Hh in Hri.
    pose proof (λ s e, bank_entries_intro s e i j p Hc Hk) as Hin.
    destruct (decide (rank (kept dmask) i < 4)); [left|right]; apply Hin; lia.
  - eapply runs_weaken;
      [|exact (fill_with_harvested h (harvested_calls h cm) cm _ Hg Hh Hr (proj2 (Hz h) eq_refl)
                 (runs_harvested_calls h cm Hg Hcov Hh Hr))].
    intros c p Hs. destruct (slice_dram_slots c p Hs) as (i & j & Hc & Hi & ->). cbn beta.
    destruct (kept dmask i) eqn:Hk; [left; by exists i, j|right].
    unfold bank_slot. rewrite Hk. unfold kept in Hk. apply negb_false_iff, Hz in Hk as ->.
    exists j. split; [|done]. destruct Hc as (_ & Hj & _). simpl in Hj. by rewrite dram_ports in Hj.
Qed.
End full_dram.

(** A smaller DRAM grid, or one without translation, is not harvested. *)
Lemma small_dram : b = false ∨ xy_x dgrid ≠ 8 → dmask = 0.
Proof. rewrite effective_dram. apply Hmasks. Qed.

Lemma fill_dram_unharvested :
dmask = 0 → identity_translated L translated DRAM →
fills_slice DRAM (λ cm, fill_grid_default DRAM (dram_grid_size (layout cm)) cm).
Proof.
intros Hz Hid. apply (fills_layout L M b grids translated DRAM (fill_grid_default DRAM) dram_grid_size).
apply fill_grid_default_slice; [apply _| |done]. unfold blackhole_grids. by rewrite Hz.
Qed.

Lemma translate_dram_blackhole cm : good cm → runs (translate_dram_coords cm) cm (named DRAM).
Proof.
intros Hg. unfold translate_dram_coords.
rewrite (good_layout _ _ _ _ _ Hg), (good_masks _ _ _ _ _ Hg). apply named_blackhole.
- by apply (runs_add_harvested_grid DRAM).
- intros Hb. destruct (decide (xy_x dgrid = 8)) as [Hfull|Hne]; [by apply fill_dram_full|].
  intros cm1 Hg1 Hc1. unfold fill_dram_noc0_translated_mapping. cbv zeta.
  destruct Hbh as (_ & _ & Hle & _).
  assert ((xy_x (dram_grid_size (layout cm1)) <? blackhole.NUM_DRAM_BANKS) = true) as ->.
  { rewrite (good_layout _ _ _ _ _ Hg1). unfold blackhole.NUM_DRAM_BANKS. lia. }
  apply (fill_dram_unharvested); [by apply small_dram; right| |done|done].
  intros p Hp. rewrite Hb. simpl.
  rewrite (proj2 (Z.ltb_lt _ _)); [done|unfold blackhole.NUM_DRAM_BANKS; lia].
- intros Hb. apply fill_dram_unharvested; [by apply small_dram; left|].
  by apply not_translated_identity.
Qed.

Lemma identity_blackhole t cm :
t ∈ [ROUTER_ONLY; SECURITY; DISPATCH] → good cm →
steps cm (identity_map t TRANSLATED (cores_of (layout cm) t) cm) (slice t TRANSLATED).
Proof.
intros Ht Hg. apply steps_identity_type; [apply _| |done]. intros p Hp.
apply list_elem_of_In in Ht. simpl in Ht. destruct_or! Ht; subst t; simpl; by destruct b.
Qed.

Lemma blackhole_assert :
assert_coordinate_manager_constructor (CoordinateManager_ctor b M0 L) = Ok tt.
Proof.
destruct Hmasks as (_ & He & [_ Hd] & _). unfold assert_coordinate_manager_constructor.
cbn [harvesting_masks layout CoordinateManager_ctor]. rewrite (proj2 (Z.ltb_ge _ _) Hd).
destruct (Z.eqb_spec (vec_size (eth_cores L)) blackhole.NUM_ETH_CHANNELS) as [E|]; [|done].
destruct He as [He|[_ He]]; [by rewrite He in E|]. by destruct (He E) as [-> | ->].
Qed.

Theorem initialize_blackhole :
∃ cm, initialize ops (CoordinateManager_ctor b M0 L) = Ok cm ∧ good cm ∧ ∀ c p, has cm c p ↔ T c p.
Proof.
assert (Hg0 : good0 (CoordinateManager_ctor b M0 L)) by (split; [done..|apply maps_ok_empty]).
unfold initialize. cbn [v_assert ops]. rewrite blackhole_assert.
cbn -[translate_tensix_coords translate_dram_coords translate_eth_coords
  CoordinateManager.translate_arc_coords translate_pcie_coords add_noc1_to_noc0_mapping
  identity_map_noc0_cores CoordinateManager_ctor CoordinateManager.translate_router_coords
  CoordinateManager.translate_security_coords translate_l2cpu_coords
  CoordinateManager.translate_dispatch_coords].
destruct (steps_identity_map_noc0 L M0 b grids translated _ Hg0) as [Hg1 _ Hc1].
destruct (translate_tensix_blackhole _ Hg1) as (cm2 & -> & Hg2 & He2 & Hc2). cbn [mbind result_bind].
destruct (translate_dram_blackhole _ Hg2) as (cm3 & -> & [Hg3 He3 Hc3]). cbn [mbind result_bind].
destruct (translate_eth_blackhole _ Hg3) as (cm4 & -> & [Hg4 He4 Hc4]). cbn [mbind result_bind].
destruct (translate_arc_blackhole _ Hg4) as (cm5 & -> & [Hg5 He5 Hc5]). cbn [mbind result_bind].
destruct (translate_pcie_blackhole _ Hg5) as (cm6 & -> & [Hg6 He6 Hc6]). cbn [mbind result_bind].
destruct (identity_blackhole ROUTER_ONLY _ ltac:(set_solver) Hg6) as [Hg7 He7 Hc7].
destruct (identity_blackhole SECURITY _ ltac:(set_solver) Hg7) as [Hg8 He8 Hc8].
unfold CoordinateManager.translate_router_coords, CoordinateManager.translate_security_coords.
cbn [cores_of] in *.
destruct (translate_l2cpu_blackhole _ Hg8) as (cm9 & -> & [Hg9 He9 Hc9]). cbn [mbind result_bind].
destruct (identity_blackhole DISPATCH _ ltac:(set_solver) Hg9) as [Hga Hea Hca].
destruct (runs_noc1 L M b grids translated _ Hga) as (cmb & Hr & [Hgb Heb Hcb]).
exists cmb. split; [exact Hr|]. split; [done|]. intros c p. split.
{ intros Hc. eapply ok_sound; [apply Hgb|exact Hc]. }
revert c p. apply (table_phases L grids translated); [covers_later|covers_later| |].
- intros t g Hgrid. destruct t; try done;
    (eapply (covers_weaken _ (named _)); [by left|covers_later]).
- intros t Ht. unfold all_core_types in Ht.
  repeat (apply elem_of_cons in Ht as [->|Ht]);
    try (eapply (covers_weaken _ (named _)); [by right|covers_later]); try covers_later.
  by apply not_elem_of_nil in Ht.
Qed.
End blackhole_phases.

Definition blackhole_table (L : Layout) (M : HarvestingMasks) (b : bool) : Table :=
  table L (logical_names L (blackhole_grids L M)) (blackhole_translated L M b).

Lemma create_blackhole L M b :
  wf_layout L → blackhole_layout_ok L → blackhole_masks_ok L M b →
  let M' := effective_masks (xy_x (tensix_grid_size L)) M in
  ∃ cm, create_coordinate_manager_layout BLACKHOLE b M L = Ok (MkManager BlackholeCM cm) ∧
        implements (blackhole_table L M' b) L M' b cm.
Proof.
  intros Hwf Hbh Hmasks M'.
  destruct (initialize_blackhole L M b Hwf Hbh Hmasks) as (cm & Hi & [] & Hcov).
  exists cm. unfold create_coordinate_manager_layout, construct.
  change (virtual_ops BlackholeCM) with ops. rewrite Hi. by split.
Qed.
