(* ===== verification/CoordProperties.v ===== *)
(** * What a created coordinate manager promises

    The contract of [create_coordinate_manager] for all architectures: the
    table a manager implements, and what its translation API does with it. *)

From Stdlib Require Import ZArith Lia.
From stdpp Require Import base gmap list list_numbers strings numbers.
From S2P Require Import Prelude CoreTypes ArchData Harvesting CoordinateManager Managers.
From S2P Require Import CoordTheory CoordTable CoordPhases RowCoords WormholeCoords.
From S2P Require Import BlackholeCoords BlackholePhases.

Local Open Scope Z_scope.

(** ** The table of each architecture *)

(** The configurations the constructors accept. *)
Definition supported (arch : ARCH) (L : Layout) (M : HarvestingMasks) (b : bool) : Prop :=
  wf_layout L ∧
  match arch with
  | WORMHOLE_B0 => wormhole_eth_ok L ∧ row_masks_ok L M
  | QUASAR => row_masks_ok L M
  | BLACKHOLE => blackhole_layout_ok L ∧ blackhole_masks_ok L M b
  | Invalid => False
  end.

Definition masks_in_use (arch : ARCH) (L : Layout) (M : HarvestingMasks) : HarvestingMasks :=
  match arch with
  | BLACKHOLE => effective_masks (xy_x (tensix_grid_size L)) M
  | _ => effective_masks (xy_y (tensix_grid_size L)) M
  end.

Definition unit_grids (arch : ARCH) (L : Layout) (M : HarvestingMasks) : CoreType → option UnitGrid :=
  match arch with
  | BLACKHOLE => blackhole_grids L (masks_in_use arch L M)
  | _ => row_grids L (masks_in_use arch L M)
  end.

Definition translated_names (arch : ARCH) (L : Layout) (M : HarvestingMasks) (b : bool) : NameRel :=
  match arch with
  | WORMHOLE_B0 => wormhole_translated L (masks_in_use arch L M) b
  | BLACKHOLE => blackhole_translated L (masks_in_use arch L M) b
  | _ => quasar_translated
  end.

Definition coordinate_table (arch : ARCH) (L : Layout) (M : HarvestingMasks) (b : bool) : Table :=
  table L (logical_names L (unit_grids arch L M)) (translated_names arch L M b).

Definition class_of (arch : ARCH) : ManagerClass :=
  match arch with WORMHOLE_B0 => WormholeCM | BLACKHOLE => BlackholeCM | _ => QuasarCM end.

Lemma supported_naming arch L M b :
  supported arch L M b → Naming L (unit_grids arch L M) (translated_names arch L M b).
Proof.
  intros [Hwf H]. destruct arch; [| | |done].
  - destruct H as [? ?]. by apply wormhole_naming.
  - destruct H as [Hbh (_ & _ & Hd & _)]. apply blackhole_naming; [done|done|].
    cbn [masks_in_use]. unfold effective_masks. by destruct (_ <? _).
  - exact (quasar_naming L _ Hwf).
Qed.

Lemma create_implements arch L M b :
  supported arch L M b →
  ∃ cm, create_coordinate_manager_layout arch b M L = Ok (MkManager (class_of arch) cm) ∧
        implements (coordinate_table arch L M b) L (masks_in_use arch L M) b cm.
Proof.
  intros [Hwf H]. destruct arch; [| | |done].
  - destruct H as [? ?]. by apply create_wormhole.
  - destruct H as [? ?]. by apply create_blackhole.
  - by apply create_quasar.
Qed.

(** ** The translation API over a table *)

Section api.
Context (T : Table) `{!TableLaws T} (L : Layout) (M : HarvestingMasks) (b : bool).
Context (cm : CoordinateManager) (Hcm : implements T L M b cm).

Lemma from_spec p s c : from_noc0_map (maps cm) !! (p, s) = Some c ↔ T c p ∧ coord_system c = s.
Proof.
  rewrite (ok_from _ _ (impl_maps _ _ _ _ _ Hcm)), <- (impl_table _ _ _ _ _ Hcm). done.
Qed.
Lemma type_spec q s c :
  to_core_type_map (maps cm) !! (q, s) = Some c ↔
  (∃ p, T c p) ∧ to_pair c = q ∧ coord_system c = s ∧ s ≠ LOGICAL.
Proof.
  rewrite (ok_type _ _ (impl_maps _ _ _ _ _ Hcm)).
  setoid_rewrite <- (impl_table _ _ _ _ _ Hcm). done.
Qed.

Lemma translate_coord_to_spec (HL : ∀ c p, T c p → coord_system c ≠ LITERAL) c s c' :
  translate_coord_to cm c s = Ok c' ↔ ∃ p, T c p ∧ T c' p ∧ coord_system c' = s.
Proof.
  unfold translate_coord_to. pose proof (impl_table _ _ _ _ _ Hcm) as Ht. unfold has in Ht.
  destruct (decide (coord_system c = LITERAL)) as [El|El].
  { split; [done|]. intros (p & Hp & _). by apply HL in Hp. }
  destruct (decide (s = LITERAL)) as [->|Es].
  { split; [done|]. intros (p & _ & Hp & E). by apply HL in Hp. }
  destruct (to_noc0_map (maps cm) !! c) as [p|] eqn:Ep.
  - apply Ht in Ep. destruct (from_noc0_map (maps cm) !! (p, s)) as [c0|] eqn:Ec.
    + apply from_spec in Ec as [Hc0 <-]. split.
      * intros [= <-]. by exists p.
      * intros (p' & Hp' & Hc' & E). assert (p' = p) as -> by (by apply (table_functional (T:=T) c)).
        f_equal. by apply (table_injective (T:=T) c0 c' p).
    + split; [done|]. intros (p' & Hp' & Hc' & E).
      assert (p' = p) as -> by (by apply (table_functional (T:=T) c)).
      rewrite (proj2 (from_spec p s c')) in Ec; done.
  - split; [done|]. intros (p & Hp & _). apply Ht in Hp. congruence.
Qed.

Lemma get_coord_at_spec (HL : ∀ c p, T c p → coord_system c ≠ LITERAL) q s c :
  get_coord_at cm q s = Ok c ↔
  s ≠ LOGICAL ∧ to_pair c = q ∧ coord_system c = s ∧ ∃ p, T c p.
Proof.
  unfold get_coord_at. destruct (decide (s = LITERAL)) as [->|Es].
  { split; [done|]. intros (_ & _ & E & p & Hp). by apply HL in Hp. }
  destruct (decide (s = LOGICAL)) as [->|El]; [split; [done|by intros [? _]]|].
  destruct (to_core_type_map (maps cm) !! (q, s)) as [c0|] eqn:E.
  - pose proof (proj1 (type_spec _ _ _) E) as ((p & Hp) & Hq & Hs & _). split.
    + intros [= <-]. eauto.
    + intros (_ & Hq' & Hs' & p' & Hp'). f_equal.
      eapply (table_place (T:=T)); [exact Hp|exact Hp'|congruence|congruence|congruence].
  - split; [done|]. intros (_ & Hq & Hs & Hp).
    rewrite (proj2 (type_spec q s c)) in E; done.
Qed.
End api.

Lemma coordinate_table_not_literal arch L M b c p :
  coordinate_table arch L M b c p → coord_system c ≠ LITERAL.
Proof. intros [_ HT] E. by rewrite E in HT. Qed.

(** Every core of a layout has a translated name. *)
Lemma translated_total arch L M b t p :
  supported arch L M b → p ∈ cores_of L t → ∃ q, translated_names arch L M b t q p.
Proof.
  intros Hs Hp. pose proof (supported_naming _ _ _ _ Hs) as HN.
  assert (∀ g, unit_grids arch L M t = Some g → ∃ i j, unit_core g (cores_of L t) i j p) as Hcore.
  { intros g Hg. eapply unit_core_of; [by eapply naming_grid|done]. }
  destruct arch; [| |by exists p|by destruct Hs].
  - unfold translated_names, wormhole_translated. destruct b; [|by exists p].
    destruct t; try (by exists p); [|by eexists].
    destruct (Hcore _ eq_refl) as (i & j & Hc). by eexists _, i, j.
  - unfold translated_names, blackhole_translated. destruct b; [|by exists p].
    destruct t; try (by exists p).
    + destruct (_ <? _); [by exists p|]. destruct (Hcore _ eq_refl) as (i & j & Hc). by eexists _, i, j.
    + destruct (Hcore _ eq_refl) as (i & j & Hc). pose proof Hc as (_ & Hj & _).
      destruct Hs as (_ & (_ & Hone & _) & _). cbn in Hj. rewrite Hone in Hj.
      assert (j = 0) as -> by lia. by eexists _, i.
    + destruct (Hcore _ eq_refl) as (x & y & Hc). pose proof Hc as (Hx & Hy & _). cbn in Hx, Hy.
      destruct (column_target_total L (tensix_harvesting_mask (masks_in_use BLACKHOLE L M)) _ x Hx) as [c Ht].
      pose proof (column_target_bounds _ _ _ _ _ Hx Ht) as Hcb.
      pose proof (blackhole_grids_ok L (masks_in_use BLACKHOLE L M) TENSIX _ (proj1 Hs) eq_refl) as Hok.
      destruct (unit_core_at _ _ Hok c y Hcb Hy) as (q & _ & _ & Hq).
      exists q, x, y, c. done.
    + destruct (Hcore _ eq_refl) as (i & j & Hc). pose proof Hc as (_ & Hj & _). cbn in Hj.
      assert (j = 0) as -> by lia. by eexists _, i.
Qed.

(** ** The standard layouts *)

Lemma wormhole_layout_wf : wf_layout wormhole_layout.
Proof. apply (bool_decide_unpack _). vm_compute. exact I. Qed.
Lemma blackhole_layout_wf : wf_layout blackhole_layout.
Proof. apply (bool_decide_unpack _). vm_compute. exact I. Qed.

(** The layout-less overload uses the standard layout. *)
Lemma create_standard_wormhole b M :
  create_coordinate_manager WORMHOLE_B0 b M =
  create_coordinate_manager_layout WORMHOLE_B0 b M wormhole_layout.
Proof. done. Qed.
Lemma create_standard_blackhole b M :
  create_coordinate_manager BLACKHOLE b M =
  create_coordinate_manager_layout BLACKHOLE b M blackhole_layout.
Proof. done. Qed.

(** Two Wormhole rows harvested; two Blackhole columns, a DRAM bank, two ETH
    channels, a PCIE core and an L2CPU core harvested. *)
Definition wormhole_example_masks : HarvestingMasks := MkMasks 5 0 0 0 0.
Definition blackhole_example_masks : HarvestingMasks := MkMasks 3 4 3 2 1.

Lemma supported_wormhole b : supported WORMHOLE_B0 wormhole_layout wormhole_example_masks b.
Proof.
  split; [apply wormhole_layout_wf|]. split.
  - apply (bool_decide_unpack (Forall _ _)). vm_compute. exact I.
  - split; [done|]. split; [done|]. vm_compute. by split.
Qed.
Lemma supported_blackhole : supported BLACKHOLE blackhole_layout blackhole_example_masks true.
Proof.
  split; [apply blackhole_layout_wf|]. split.
  - split; [done|]. split; [done|]. split; [done|]. done.
  - split; [vm_compute; by split|]. split; [right; split; [by vm_compute|by left]|].
    split; [split; [by vm_compute|by vm_compute]|]. split; [|by vm_compute].
    by intros [?|?].
Qed.

(** ** Properties *)

(** C1: creating a manager for a supported configuration returns, and the maps
    of the returned manager hold exactly the architecture's coordinate table:
    ranks of kept rows, columns, banks and channels as logical names, the
    architecture's translated names, NOC0 and NOC1 positions - and nothing else. *)
Theorem create_coordinate_manager_correct arch L M b :
  supported arch L M b →
  ∃ cm, create_coordinate_manager_layout arch b M L = Ok (MkManager (class_of arch) cm) ∧
        layout cm = L ∧ harvesting_masks cm = masks_in_use arch L M ∧
        noc_translation_enabled cm = b ∧
        (∀ c p, to_noc0_map (maps cm) !! c = Some p ↔ coordinate_table arch L M b c p) ∧
        (∀ p s c, from_noc0_map (maps cm) !! (p, s) = Some c ↔
           coordinate_table arch L M b c p ∧ coord_system c = s) ∧
        (∀ q s c, to_core_type_map (maps cm) !! (q, s) = Some c ↔
           (∃ p, coordinate_table arch L M b c p) ∧ to_pair c = q ∧ coord_system c = s ∧ s ≠ LOGICAL).
Proof.
  intros Hs. destruct (create_implements _ _ _ _ Hs) as (cm & Hc & Hi). exists cm.
  split; [done|]. split; [apply Hi|]. split; [apply Hi|]. split; [apply Hi|]. split; [apply Hi|].
  split; intros; [by eapply from_spec|by eapply type_spec].
Qed.

(** C2: translating a core coordinate returns exactly the name the same core has
    in the target system, keeps the core type, and translating back gives the
    coordinate one started from; a coordinate and its translation name the
    same NOC0 core. *)
Theorem translate_coord_to_round_trip arch L M b m c s c' :
  supported arch L M b →
  create_coordinate_manager_layout arch b M L = Ok m →
  translate_coord_to (manager m) c s = Ok c' →
  coord_system c' = s ∧ core_type c' = core_type c ∧
  translate_coord_to (manager m) c' (coord_system c) = Ok c ∧
  translate_coord_to (manager m) c NOC0 = translate_coord_to (manager m) c' NOC0.
Proof.
  intros Hs Hm Htr. pose proof (supported_naming _ _ _ _ Hs) as HN.
  destruct (create_implements _ _ _ _ Hs) as (cm & Hc & Hi). rewrite Hc in Hm.
  injection Hm as <-. cbn [manager] in *.
  pose proof (λ c s c', translate_coord_to_spec _ L _ b cm Hi
    (coordinate_table_not_literal arch L M b) c s c') as Hspec.
  apply Hspec in Htr as (p & Hp & Hp' & <-). pose proof (naming_wf (L:=L)) as Hwf.
  split; [done|]. split; [|split].
  - destruct Hp as [Hin _], Hp' as [Hin' _]. by eapply wf_type.
  - apply Hspec. by exists p.
  - assert (coordinate_table arch L M b (CoreCoord_of_pair p (core_type c) NOC0) p) as H0.
    { destruct Hp as [Hin _]. split; [done|]. by destruct p. }
    transitivity (Ok (CoreCoord_of_pair p (core_type c) NOC0)); [|symmetry];
      apply Hspec; by exists p.
Qed.

(** C24: harvesting. A core of a unit that is in use has as logical name the rank
    of its unit among the units in use (so the logical coordinates are dense and
    in order); a core of a harvested unit has no logical name: translating it
    to LOGICAL throws. *)
Theorem logical_names_are_ranks arch L M b m t g i j p :
  supported arch L M b →
  create_coordinate_manager_layout arch b M L = Ok m →
  unit_grids arch L M t = Some g → unit_core g (cores_of L t) i j p →
  translate_coord_to (manager m) (CoreCoord_of_pair p t NOC0) LOGICAL =
  if Z.testbit (ug_mask g) i then throw "No core coordinate found for system"
  else Ok (CoreCoord_of_pair (ug_place g (rank (kept (ug_mask g)) i) j) t LOGICAL).
Proof.
  intros Hs Hm Hg Hcore. pose proof (supported_naming _ _ _ _ Hs) as HN.
  destruct (create_implements _ _ _ _ Hs) as (cm & Hc & Hi). rewrite Hc in Hm.
  injection Hm as <-. cbn [manager].
  assert (coordinate_table arch L M b (CoreCoord_of_pair p t NOC0) p) as H0.
  { split; [by eapply unit_core_elem|]. by destruct p. }
  destruct (Z.testbit (ug_mask g) i) eqn:Hbit.
  - unfold translate_coord_to. cbn [coord_system CoreCoord_of_pair]. rewrite decide_False by done.
    rewrite decide_False by done. pose proof (impl_table _ _ _ _ _ Hi) as Ht. unfold has in Ht.
    apply Ht in H0. rewrite H0.
    destruct (from_noc0_map (maps cm) !! (p, LOGICAL)) as [c0|] eqn:E; [|done]. exfalso.
    apply (from_spec _ _ _ _ _ Hi) in E as [[Hin HT] Es]. rewrite Es in HT.
    assert (core_type c0 = t) as Et.
    { eapply wf_type; [exact (naming_wf (L:=L))|exact Hin|by eapply unit_core_elem]. }
    unfold logical_names in HT. rewrite Et, Hg in HT.
    pose proof (grid_naming_harvested _ _ (naming_grid _ _ Hg) _ _ _ _ Hcore HT). congruence.
  - apply (translate_coord_to_spec _ _ _ _ _ Hi (coordinate_table_not_literal arch L M b)).
    exists p. split; [done|]. split; [|done].
    eapply T_LOGICAL; [done|]. exists i, j. split; [done|]. unfold kept. by rewrite Hbit.
Qed.

(** Every core of the layout has a translated name, found from its NOC0 name
    and leading back to it, and no two cores share a translated place: NOC
    translation permutes the cores. *)
Lemma translated_names_permute arch L M b m t t' p p' c :
  supported arch L M b →
  create_coordinate_manager_layout arch b M L = Ok m →
  p ∈ cores_of L t → p' ∈ cores_of L t' →
  (∃ q, translate_coord_to (manager m) (CoreCoord_of_pair p t NOC0) TRANSLATED =
        Ok (CoreCoord_of_pair q t TRANSLATED) ∧
        translate_pair_to (manager m) q TRANSLATED NOC0 = Ok (CoreCoord_of_pair p t NOC0)) ∧
  (translate_coord_to (manager m) (CoreCoord_of_pair p t NOC0) TRANSLATED = Ok c →
   ∀ c', translate_coord_to (manager m) (CoreCoord_of_pair p' t' NOC0) TRANSLATED = Ok c' →
   to_pair c = to_pair c' → p = p' ∧ t = t').
Proof.
  intros Hs Hm Hin Hin'. pose proof (supported_naming _ _ _ _ Hs) as HN.
  destruct (create_implements _ _ _ _ Hs) as (cm & Hc & Hi). rewrite Hc in Hm.
  injection Hm as <-. cbn [manager].
  pose proof (λ c s c', translate_coord_to_spec _ L _ b cm Hi
    (coordinate_table_not_literal arch L M b) c s c') as Hspec.
  assert (∀ t p, p ∈ cores_of L t → coordinate_table arch L M b (CoreCoord_of_pair p t NOC0) p) as H0.
  { intros t0 p0 Hp0. split; [done|]. by destruct p0. }
  split.
  - destruct (translated_total arch L M b t p Hs Hin) as [q Hq]. exists q.
    assert (coordinate_table arch L M b (CoreCoord_of_pair q t TRANSLATED) p) as HT.
    { split; [done|]. by destruct q. }
    split; [apply Hspec; by exists p; auto|].
    unfold translate_pair_to. rewrite !decide_False by done.
    rewrite (proj2 (get_coord_at_spec _ _ _ _ _ Hi (coordinate_table_not_literal arch L M b) q TRANSLATED
      (CoreCoord_of_pair q t TRANSLATED))); [|by destruct q; eauto].
    cbn [mbind result_bind]. apply Hspec. by exists p; auto.
  - intros (p1 & Hp1 & Hq1 & Es1)%Hspec c' (p2 & Hp2 & Hq2 & Es2)%Hspec E.
    pose proof (table_functional _ _ _ (H0 _ _ Hin) Hp1) as <-.
    pose proof (table_functional _ _ _ (H0 _ _ Hin') Hp2) as <-.
    assert (c = c') as <- by (eapply table_place; [exact Hq1|exact Hq2|congruence|congruence|done]).
    assert (p = p') as <- by (by apply (table_functional (T:=coordinate_table arch L M b) c)).
    split; [done|]. by eapply wf_type; [apply (naming_wf (L:=L))| |].
Qed.

(** Looking a place up by system ([get_coord_at]) finds the one core
    coordinate with that place, and the place-based translation is the
    coordinate-based one applied to it. *)
Lemma get_coord_at_unique arch L M b m c s :
  supported arch L M b →
  create_coordinate_manager_layout arch b M L = Ok m →
  coord_system c ≠ LOGICAL →
  is_Ok (translate_coord_to (manager m) c NOC0) →
  get_coord_at (manager m) (to_pair c) (coord_system c) = Ok c ∧
  (s ≠ LITERAL → translate_pair_to (manager m) (to_pair c) (coord_system c) s =
                 translate_coord_to (manager m) c s).
Proof.
  intros Hs Hm Hl Hok. pose proof (supported_naming _ _ _ _ Hs) as HN.
  destruct (create_implements _ _ _ _ Hs) as (cm & Hc & Hi). rewrite Hc in Hm.
  injection Hm as <-. cbn [manager] in *.
  destruct Hok as [c0 Hok]. apply (translate_coord_to_spec _ _ _ _ _ Hi
    (coordinate_table_not_literal arch L M b)) in Hok as (p & Hp & _).
  assert (get_coord_at cm (to_pair c) (coord_system c) = Ok c) as Hat.
  { apply (get_coord_at_spec _ _ _ _ _ Hi (coordinate_table_not_literal arch L M b)). eauto. }
  split; [done|]. intros Hs'. unfold translate_pair_to.
  rewrite decide_False by (by eapply coordinate_table_not_literal).
  rewrite decide_False by done. by rewrite Hat.
Qed.

(** ** Witnesses *)

Lemma create_coordinate_manager_correct_witness :
  ∃ cm, create_coordinate_manager BLACKHOLE true blackhole_example_masks = Ok (MkManager BlackholeCM cm) ∧
        (to_noc0_map (maps cm) !! MkCoreCoord 0 0 TENSIX LOGICAL = Some (XY 3 2) ↔
         coordinate_table BLACKHOLE blackhole_layout blackhole_example_masks true
           (MkCoreCoord 0 0 TENSIX LOGICAL) (XY 3 2)).
Proof.
  destruct (create_coordinate_manager_correct BLACKHOLE blackhole_layout blackhole_example_masks true
    supported_blackhole) as (cm & Hc & _ & _ & _ & Ht & _).
  exists cm. rewrite create_standard_blackhole. split; [exact Hc|apply Ht].
Defined.

(** Core (2, 2) of an example Wormhole manager sits in the second, kept, row. *)
Lemma example_manager :
  ∃ m, create_coordinate_manager_layout WORMHOLE_B0 true wormhole_example_masks wormhole_layout = Ok m.
Proof. destruct (create_implements _ _ _ _ (supported_wormhole true)) as (cm & -> & _). eauto. Qed.

Lemma example_core :
  unit_core (row_grid 5 (XY 8 10)) (cores_of wormhole_layout TENSIX) 1 1 (XY 2 2).
Proof. by split. Qed.

Lemma example_noc0 m :
  create_coordinate_manager_layout WORMHOLE_B0 true wormhole_example_masks wormhole_layout = Ok m →
  translate_coord_to (manager m) (CoreCoord_of_pair (XY 2 2) TENSIX NOC0) NOC0 =
  Ok (CoreCoord_of_pair (XY 2 2) TENSIX NOC0).
Proof.
  intros Hm. destruct (create_implements _ _ _ _ (supported_wormhole true)) as (cm & Hc & Hi).
  rewrite Hc in Hm. injection Hm as <-.
  pose proof (supported_naming _ _ _ _ (supported_wormhole true)) as HN.
  apply (translate_coord_to_spec _ _ _ _ _ Hi (coordinate_table_not_literal _ _ _ _)).
  assert (XY 2 2 ∈ cores_of wormhole_layout TENSIX) as Hin by (eapply unit_core_elem, example_core).
  assert (coordinate_table WORMHOLE_B0 wormhole_layout wormhole_example_masks true
    (CoreCoord_of_pair (XY 2 2) TENSIX NOC0) (XY 2 2)) as HT by (split; [exact Hin|reflexivity]).
  exists (XY 2 2). split; [exact HT|split; [exact HT|reflexivity]].
Qed.

Lemma translate_coord_to_round_trip_witness :
  ∃ m, create_coordinate_manager_layout WORMHOLE_B0 true wormhole_example_masks wormhole_layout = Ok m ∧
       translate_coord_to (manager m) (CoreCoord_of_pair (XY 2 2) TENSIX NOC0) NOC0 =
       Ok (CoreCoord_of_pair (XY 2 2) TENSIX NOC0).
Proof.
  destruct example_manager as [m Hm]. exists m. split; [exact Hm|].
  destruct (translate_coord_to_round_trip WORMHOLE_B0 wormhole_layout wormhole_example_masks true m _ NOC0 _
    (supported_wormhole true) Hm (example_noc0 m Hm)) as (_ & _ & H & _). exact H.
Defined.

Lemma logical_names_are_ranks_witness :
  ∃ m, create_coordinate_manager_layout WORMHOLE_B0 true wormhole_example_masks wormhole_layout = Ok m ∧
       translate_coord_to (manager m) (CoreCoord_of_pair (XY 2 2) TENSIX NOC0) LOGICAL =
       Ok (MkCoreCoord 1 0 TENSIX LOGICAL).
Proof.
  destruct example_manager as [m Hm]. exists m. split; [exact Hm|].
  exact (logical_names_are_ranks WORMHOLE_B0 wormhole_layout wormhole_example_masks true m TENSIX
    (row_grid 5 (XY 8 10)) 1 1 (XY 2 2) (supported_wormhole true) Hm eq_refl example_core).
Defined.

Lemma translated_names_permute_witness :
  ∃ m q, create_coordinate_manager_layout WORMHOLE_B0 true wormhole_example_masks wormhole_layout = Ok m ∧
         translate_coord_to (manager m) (CoreCoord_of_pair (XY 2 2) TENSIX NOC0) TRANSLATED =
         Ok (CoreCoord_of_pair q TENSIX TRANSLATED).
Proof.
  destruct example_manager as [m Hm]. exists m.
  pose proof (unit_core_elem _ _ _ _ _ example_core) as Hin.
  destruct (translated_names_permute WORMHOLE_B0 wormhole_layout wormhole_example_masks true m
    TENSIX TENSIX (XY 2 2) (XY 2 2) (CoreCoord_literal (XY 0 0)) (supported_wormhole true) Hm Hin Hin)
    as [(q & Hq & _) _]. exists q. split; [exact Hm|exact Hq].
Defined.

Lemma get_coord_at_unique_witness :
  ∃ m, create_coordinate_manager_layout WORMHOLE_B0 true wormhole_example_masks wormhole_layout = Ok m ∧
       get_coord_at (manager m) (XY 2 2) NOC0 = Ok (CoreCoord_of_pair (XY 2 2) TENSIX NOC0).
Proof.
  destruct example_manager as [m Hm]. exists m. split; [exact Hm|].
  destruct (get_coord_at_unique WORMHOLE_B0 wormhole_layout wormhole_example_masks true m
    (CoreCoord_of_pair (XY 2 2) TENSIX NOC0) NOC0 (supported_wormhole true) Hm) as [H _];
    [discriminate|eexists; apply (example_noc0 m Hm)|exact H].
Defined.
