(* ===== verification/CoreQueries.v ===== *)
(** * The core queries of a created manager

    [get_cores] and [get_harvested_cores] split the cores of a type into the
    units in use and the harvested ones, consistently with the logical names. *)

From Stdlib Require Import ZArith Lia.
From stdpp Require Import base gmap list list_numbers strings numbers.
From S2P Require Import Prelude CoreTypes ArchData Harvesting CoordinateManager Managers.
From S2P Require Import CoordTheory CoordTable RowCoords WormholeCoords BlackholeCoords.
From S2P Require Import BlackholePhases CoordProperties.
From S2P Require Import RowHarvestManagers.
From S2P Require BlackholeManager.

Local Open Scope Z_scope.

(** ** Loops that collect *)

Lemma collect_loop {A B} (l : list A) (f : A → list B → result (list B)) (g : A → list B) acc :
  (∀ a acc, a ∈ l → f a acc = Ok (acc ++ g a)) →
  for_each l f acc = Ok (acc ++ concat (map g l)).
Proof.
  revert acc. induction l as [|a l IH]; intros acc Hf; simpl; [by rewrite app_nil_r|].
  rewrite Hf by (by left). cbn [mbind result_bind]. rewrite IH, app_assoc; [done|].
  intros. apply Hf. by right.
Qed.

(** The cores of the selected units of a grid. *)
Definition unit_cores (g : UnitGrid) (t : CoreType) (cores : list xy_pair) (sel : Z → bool)
    (l : list CoreCoord) : Prop :=
  ∀ c, c ∈ l ↔ ∃ i j p, unit_core g cores i j p ∧ sel i = true ∧ c = noc0_core t p.

Definition core_or_origin (cores : list xy_pair) (k : Z) : xy_pair :=
  default (XY 0 0) (cores !! Z.to_nat k).

Lemma vec_idx_default cores k : 0 ≤ k < vec_size cores → vec_idx cores k = Ok (core_or_origin cores k).
Proof.
  intros Hk. destruct (vec_lookup _ _ Hk) as [p Hp]. unfold core_or_origin.
  rewrite Hp. by apply vec_idx_Some.
Qed.

Section query_loops.
Context (g : UnitGrid) (t : CoreType) (cores : list xy_pair) (Hg : unit_grid_ok g cores).

Lemma core_at i j : 0 ≤ i < ug_outer g → 0 ≤ j < ug_inner g →
  vec_idx cores (u64 (ug_index g i j)) = Ok (core_or_origin cores (ug_index g i j)) ∧
  unit_core g cores i j (core_or_origin cores (ug_index g i j)).
Proof.
  intros Hi Hj. pose proof (ugo_index _ _ Hg _ _ Hi Hj) as Hk. pose proof (ugo_size _ _ Hg).
  rewrite u64_small by lia. split; [by apply vec_idx_default|].
  destruct (unit_core_at _ _ Hg i j Hi Hj) as (p & _ & _ & Hp).
  split; [done|]. split; [done|]. unfold core_or_origin. by rewrite Hp.
Qed.

Lemma elem_concat_seqZ {B} (n : Z) (f : Z → list B) b :
  b ∈ concat (map f (seqZ 0 n)) ↔ ∃ i, 0 ≤ i < n ∧ b ∈ f i.
Proof.
  rewrite elem_of_concat_map. setoid_rewrite elem_of_seqZ. split.
  - intros (i & Hi & Hb). exists i. split; [lia|done].
  - intros (i & Hi & Hb). exists i. split; [lia|done].
Qed.

(** Units outside, cores inside ([tensix_rows], [dram_banks]). *)
Lemma units_loop (sel : Z → bool) :
  ∃ l, for_each (seqZ 0 (ug_outer g)) (λ i acc,
    if sel i then
      for_each (seqZ 0 (ug_inner g)) (λ j acc,
        core ← vec_idx cores (u64 (ug_index g i j));
        Ok (acc ++ [noc0_core t core])) acc
    else Ok acc) [] = Ok l ∧ unit_cores g t cores sel l.
Proof.
  set (row i := map (λ j, noc0_core t (core_or_origin cores (ug_index g i j))) (seqZ 0 (ug_inner g))).
  exists (concat (map (λ i, if sel i then row i else []) (seqZ 0 (ug_outer g)))). split.
  - rewrite (collect_loop _ _ (λ i, if sel i then row i else [])); [done|].
    intros i acc Hi%elem_of_seqZ. destruct (sel i); [|by rewrite app_nil_r].
    rewrite (collect_loop _ _ (λ j, [noc0_core t (core_or_origin cores (ug_index g i j))])).
    + f_equal. f_equal. unfold row. rewrite <- flat_map_concat_map. clear. induction (seqZ _ _); simpl; congruence.
    + intros j acc' Hj%elem_of_seqZ. destruct (core_at i j) as [-> _]; [lia..|done].
  - intros c. rewrite elem_concat_seqZ. split.
    + intros (i & Hi & Hc). destruct (sel i) eqn:Es; [|by apply not_elem_of_nil in Hc].
      apply list_elem_of_In, in_map_iff in Hc as (j & <- & Hj).
      apply list_elem_of_In, elem_of_seqZ in Hj.
      exists i, j, (core_or_origin cores (ug_index g i j)).
      split; [apply core_at; lia|done].
    + intros (i & j & p & Hc & Es & ->). pose proof Hc as (Hi & Hj & Hp). exists i. split; [done|].
      rewrite Es. apply list_elem_of_In, in_map_iff. exists j. split.
      * unfold core_or_origin. by rewrite Hp.
      * apply list_elem_of_In, elem_of_seqZ. lia.
Qed.

(** Cores outside, units inside, every core read ([tensix_columns]). *)
Lemma inner_units_loop (sel : Z → bool) (index : Z → Z → Z) :
  (∀ i j, index j i = ug_index g i j) →
  ∃ l, for_each (seqZ 0 (ug_inner g)) (λ j acc,
    for_each (seqZ 0 (ug_outer g)) (λ i acc,
      core ← vec_idx cores (u64 (index j i));
      Ok (if sel i then acc ++ [noc0_core t core] else acc)) acc) [] = Ok l ∧
    unit_cores g t cores sel l.
Proof.
  intros Hindex.
  set (cell j i := if sel i then [noc0_core t (core_or_origin cores (ug_index g i j))] else []).
  exists (concat (map (λ j, concat (map (cell j) (seqZ 0 (ug_outer g)))) (seqZ 0 (ug_inner g)))). split.
  - rewrite (collect_loop _ _ (λ j, concat (map (cell j) (seqZ 0 (ug_outer g))))); [done|].
    intros j acc Hj%elem_of_seqZ. apply collect_loop. intros i acc' Hi%elem_of_seqZ.
    rewrite Hindex. destruct (core_at i j) as [-> _]; [lia..|]. unfold cell. cbn [mbind result_bind].
    by destruct (sel i); rewrite ?app_nil_r.
  - intros c. rewrite elem_concat_seqZ. split.
    + intros (j & Hj & (i & Hi & Hc)%elem_concat_seqZ). unfold cell in Hc.
      destruct (sel i) eqn:Es; [|by apply not_elem_of_nil in Hc].
      apply list_elem_of_singleton in Hc as ->.
      exists i, j, (core_or_origin cores (ug_index g i j)). split; [by apply core_at|done].
    + intros (i & j & p & Hc & Es & ->). pose proof Hc as (Hi & Hj & Hp). exists j. split; [done|].
      apply elem_concat_seqZ. exists i. split; [done|]. unfold cell, core_or_origin.
      rewrite Es, Hp. by left.
Qed.

(** Single-core units ([eth_channels], [cores_by_mask]). *)
Lemma channels_loop (sel : Z → bool) (f : Z → list CoreCoord → result (list CoreCoord)) :
  ug_inner g = 1 →
  (∀ i p acc, unit_core g cores i 0 p → f i acc = Ok (if sel i then acc ++ [noc0_core t p] else acc)) →
  ∃ l, for_each (seqZ 0 (ug_outer g)) f [] = Ok l ∧ unit_cores g t cores sel l.
Proof.
  intros Hone Hf.
  set (cell i := if sel i then [noc0_core t (core_or_origin cores (ug_index g i 0))] else []).
  exists (concat (map cell (seqZ 0 (ug_outer g)))). split.
  - rewrite (collect_loop _ _ cell); [done|]. intros i acc Hi%elem_of_seqZ.
    destruct (core_at i 0) as [_ Hc]; [lia..|]. rewrite (Hf _ _ _ Hc). unfold cell.
    by destruct (sel i); rewrite ?app_nil_r.
  - intros c. rewrite elem_concat_seqZ. split.
    + intros (i & Hi & Hc). unfold cell in Hc. destruct (sel i) eqn:Es; [|by apply not_elem_of_nil in Hc].
      apply list_elem_of_singleton in Hc as ->.
      exists i, 0, (core_or_origin cores (ug_index g i 0)). split; [apply core_at; lia|done].
    + intros (i & j & p & Hc & Es & ->). pose proof Hc as (Hi & Hj & Hp).
      assert (j = 0) as -> by lia. exists i. split; [done|]. unfold cell, core_or_origin.
      rewrite Es, Hp. by left.
Qed.

Lemma all_cores_query (sel : Z → bool) :
  (∀ i, 0 ≤ i < ug_outer g → sel i = true) → unit_cores g t cores sel (map (noc0_core t) cores).
Proof.
  intros Hsel c. rewrite list_elem_of_In, in_map_iff. setoid_rewrite <- list_elem_of_In. split.
  - intros (p & <- & Hp). destruct (unit_core_of _ _ Hg p Hp) as (i & j & Hc).
    exists i, j, p. split; [done|]. split; [|done]. by apply Hsel, Hc.
  - intros (i & j & p & Hc & _ & ->). exists p. split; [done|by eapply unit_core_elem].
Qed.
Lemma no_cores_query (sel : Z → bool) :
  (∀ i, 0 ≤ i < ug_outer g → sel i = false) → unit_cores g t cores sel [].
Proof.
  intros Hsel c. split; [intros Hc; by apply not_elem_of_nil in Hc|].
  intros (i & j & p & (Hi & _) & Hs & _). by rewrite Hsel in Hs.
Qed.
End query_loops.

(** The membership tests on [get_harvested_indices]. *)
Lemma harvested_sel mask i :
  0 ≤ mask < 2 ^ 64 → bool_decide (i ∈ get_harvested_indices mask) = Z.testbit mask i.
Proof.
  intros Hm. destruct (Z.testbit mask i) eqn:E; [apply bool_decide_eq_true_2|apply bool_decide_eq_false_2];
    rewrite elem_of_harvested, E; done.
Qed.
Lemma kept_sel mask i :
  0 ≤ mask < 2 ^ 64 → bool_decide (i ∉ get_harvested_indices mask) = kept mask i.
Proof. intros Hm. rewrite bool_decide_not, harvested_sel; done. Qed.
Lemma unit_cores_ext g t cores sel sel' l :
  (∀ i, 0 ≤ i < ug_outer g → sel i = sel' i) → unit_cores g t cores sel l → unit_cores g t cores sel' l.
Proof.
  intros Hs Hl c. rewrite (Hl c). split; intros (i & j & p & Hc & Hi & ->); exists i, j, p;
    (split; [done|]; split; [|done]); pose proof Hc as (Hr & _).
  - by rewrite <- Hs.
  - by rewrite Hs.
Qed.

(** ** The queries of the two families *)

(** Both queries return, and select the units in use and the harvested ones. *)
Definition queries_split (V : VirtualOps) (cm : CoordinateManager) (t : CoreType) (g : UnitGrid) : Prop :=
  ∃ used harvested,
    get_cores V cm t = Ok used ∧ get_harvested_cores V cm t = Ok harvested ∧
    unit_cores g t (cores_of (layout cm) t) (kept (ug_mask g)) used ∧
    unit_cores g t (cores_of (layout cm) t) (Z.testbit (ug_mask g)) harvested.

Lemma no_harvesting_kept i : kept 0 i = true.
Proof. unfold kept. by rewrite Z.bits_0. Qed.

Section row_queries.
Context (F : FillOps) (cm : CoordinateManager) (Hwf : wf_layout (layout cm)).
Abbreviation L := (layout cm).
Abbreviation M := (harvesting_masks cm).

Lemma unharvested_query t (cores : list xy_pair) g :
  cores = cores_of L t → ug_mask g = 0 → unit_grid_ok g cores →
  get_cores (base_virtual_ops F) cm t = Ok (map (noc0_core t) cores) →
  get_harvested_cores (base_virtual_ops F) cm t = Ok [] →
  queries_split (base_virtual_ops F) cm t g.
Proof.
  intros -> Hm Hok Hget Hharv. eexists _, _. split; [exact Hget|]. split; [exact Hharv|]. split.
  - apply all_cores_query; [done|]. intros i _. rewrite Hm. apply no_harvesting_kept.
  - apply no_cores_query. intros i _. rewrite Hm. apply Z.bits_0.
Qed.

Lemma row_queries t g :
  row_grids L M t = Some g → 0 ≤ ug_mask g < 2 ^ 64 →
  queries_split (base_virtual_ops F) cm t g.
Proof.
  intros Hg Hm. pose proof (row_grids_ok L M t g Hwf Hg) as Hok.
  destruct t; try done; injection Hg as <-; try by eapply unharvested_query.
  destruct (units_loop _ TENSIX (tensix_cores L) Hok
    (λ y, bool_decide (y ∉ get_harvested_indices (tensix_harvesting_mask M)))) as (used & Hu & Hsu).
  destruct (units_loop _ TENSIX (tensix_cores L) Hok
    (λ y, bool_decide (y ∈ get_harvested_indices (tensix_harvesting_mask M)))) as (harv & Hh & Hsh).
  exists used, harv. split; [exact Hu|]. split; [exact Hh|]. split.
  - eapply unit_cores_ext; [|exact Hsu]. intros i _. by apply kept_sel.
  - eapply unit_cores_ext; [|exact Hsh]. intros i _. by apply harvested_sel.
Qed.
End row_queries.

Section blackhole_queries.
Context (cm : CoordinateManager) (Hwf : wf_layout (layout cm)).
Context (Hone : xy_y (pcie_grid_size (layout cm)) = 1).
Abbreviation L := (layout cm).
Abbreviation M := (harvesting_masks cm).
Abbreviation V := BlackholeManager.ops.

(** [cores_by_mask], the loop of the PCIE and L2CPU queries. *)
Lemma cores_by_mask_split t g want :
  unit_grid_ok g (cores_of L t) → ug_inner g = 1 → (∀ i, ug_index g i 0 = i) →
  ∃ l, BlackholeManager.cores_by_mask t (ug_mask g) want (ug_outer g) (cores_of L t) = Ok l ∧
       unit_cores g t (cores_of L t) (λ i, bool_decide (Z.testbit (ug_mask g) i = want)) l.
Proof.
  intros Hok Hinner Hindex. apply channels_loop; [done|done|].
  intros i p acc (Hi & _ & Hp). pose proof (ugo_outer _ _ Hok).
  rewrite test_mask_spec by lia. cbn [mbind result_bind]. rewrite Hindex in Hp.
  rewrite (vec_idx_Some _ _ _ Hp). by case_bool_decide.
Qed.

Lemma mask_want_kept mask i : bool_decide (Z.testbit mask i = false) = kept mask i.
Proof. unfold kept. by destruct (Z.testbit mask i). Qed.
Lemma mask_want_harvested mask i : bool_decide (Z.testbit mask i = true) = Z.testbit mask i.
Proof. by destruct (Z.testbit mask i). Qed.

Lemma blackhole_tensix_query g :
  blackhole_grids L M TENSIX = Some g → 0 ≤ ug_mask g < 2 ^ 64 → queries_split V cm TENSIX g.
Proof.
  intros Hg Hm. pose proof (blackhole_grids_ok L M TENSIX g Hwf Hg) as Hok. injection Hg as <-.
  assert (∀ x y, y * xy_x (tensix_grid_size L) + x = x + y * xy_x (tensix_grid_size L)) as Hidx by lia.
  destruct (inner_units_loop _ TENSIX (tensix_cores L) Hok
    (λ x, bool_decide (x ∉ get_harvested_indices (tensix_harvesting_mask M)))
    (λ y x, y * xy_x (tensix_grid_size L) + x) Hidx) as (used & Hu & Hsu).
  destruct (inner_units_loop _ TENSIX (tensix_cores L) Hok
    (λ x, bool_decide (x ∈ get_harvested_indices (tensix_harvesting_mask M)))
    (λ y x, y * xy_x (tensix_grid_size L) + x) Hidx) as (harv & Hh & Hsh).
  exists used, harv. split; [exact Hu|]. split; [exact Hh|]. split.
  - eapply unit_cores_ext; [|exact Hsu]. intros i _. by apply kept_sel.
  - eapply unit_cores_ext; [|exact Hsh]. intros i _. by apply harvested_sel.
Qed.

Lemma blackhole_dram_query g :
  blackhole_grids L M DRAM = Some g → 0 ≤ ug_mask g < 2 ^ 64 → queries_split V cm DRAM g.
Proof.
  intros Hg Hm. pose proof (blackhole_grids_ok L M DRAM g Hwf Hg) as Hok. injection Hg as <-.
  destruct (units_loop _ DRAM (dram_cores L) Hok
    (λ x, bool_decide (x ∉ get_harvested_indices (dram_harvesting_mask M)))) as (used & Hu & Hsu).
  destruct (units_loop _ DRAM (dram_cores L) Hok
    (λ x, bool_decide (x ∈ get_harvested_indices (dram_harvesting_mask M)))) as (harv & Hh & Hsh).
  exists used, harv. split; [exact Hu|]. split; [exact Hh|]. split.
  - eapply unit_cores_ext; [|exact Hsu]. intros i _. by apply kept_sel.
  - eapply unit_cores_ext; [|exact Hsh]. intros i _. by apply harvested_sel.
Qed.

Lemma blackhole_eth_query g :
  blackhole_grids L M ETH = Some g → 0 ≤ ug_mask g < 2 ^ 64 → queries_split V cm ETH g.
Proof.
  intros Hg Hm. pose proof (blackhole_grids_ok L M ETH g Hwf Hg) as Hok. injection Hg as <-.
  assert (∀ sel, ∃ l, BlackholeManager.eth_channels cm sel = Ok l ∧
    unit_cores (channel_grid (eth_harvesting_mask M) (vec_size (eth_cores L))) ETH (eth_cores L) sel l)
    as Hloop.
  { intros sel. apply (channels_loop _ ETH (eth_cores L) Hok); [done|].
    intros i p acc (_ & _ & Hp). cbn in Hp. by rewrite (vec_idx_Some _ _ _ Hp). }
  destruct (Hloop (λ c, bool_decide (c ∉ get_harvested_indices (eth_harvesting_mask M))))
    as (used & Hu & Hsu).
  destruct (Hloop (λ c, bool_decide (c ∈ get_harvested_indices (eth_harvesting_mask M))))
    as (harv & Hh & Hsh).
  exists used, harv. split; [exact Hu|]. split; [exact Hh|]. split.
  - eapply unit_cores_ext; [|exact Hsu]. intros i _. by apply kept_sel.
  - eapply unit_cores_ext; [|exact Hsh]. intros i _. by apply harvested_sel.
Qed.

Lemma blackhole_pcie_query g :
  blackhole_grids L M PCIE = Some g → queries_split V cm PCIE g.
Proof.
  intros Hg. pose proof (blackhole_grids_ok L M PCIE g Hwf Hg) as Hok. injection Hg as <-.
  assert (∀ i, ug_index (bank_grid (pcie_harvesting_mask M) (pcie_grid_size L)) i 0 = i) as Hindex
    by (intros i; cbn; rewrite Hone; lia).
  destruct (cores_by_mask_split PCIE _ false Hok Hone Hindex) as (used & Hu & Hsu).
  destruct (cores_by_mask_split PCIE _ true Hok Hone Hindex) as (harv & Hh & Hsh).
  exists used, harv. split; [exact Hu|]. split; [exact Hh|]. split.
  - eapply unit_cores_ext; [|exact Hsu]. intros i _. apply mask_want_kept.
  - eapply unit_cores_ext; [|exact Hsh]. intros i _. apply mask_want_harvested.
Qed.

Lemma blackhole_queries t g :
  blackhole_grids L M t = Some g → 0 ≤ ug_mask g < 2 ^ 64 → t ≠ L2CPU → queries_split V cm t g.
Proof.
  intros Hg Hm Ht. destruct t; try done.
  - injection Hg as <-. eexists _, _. split; [done|]. split; [done|]. split.
    + apply all_cores_query; [by apply (blackhole_grids_ok L M ARC)|intros; apply no_harvesting_kept].
    + apply no_cores_query. intros. apply Z.bits_0.
  - by apply blackhole_dram_query.
  - by apply blackhole_pcie_query.
  - by apply blackhole_tensix_query.
  - by apply blackhole_eth_query.
Qed.

(** The L2CPU cores in use, and the harvested ones [get_harvested_cores] leaves out. *)
Lemma blackhole_l2cpu_query :
  let g := channel_grid (l2cpu_harvesting_mask M) (vec_size (l2cpu_cores L)) in
  ∃ used harvested,
    get_cores V cm L2CPU = Ok used ∧ get_harvested_cores V cm L2CPU = Ok [] ∧
    BlackholeManager.get_harvested_l2cpu_cores cm = Ok harvested ∧
    unit_cores g L2CPU (l2cpu_cores L) (kept (ug_mask g)) used ∧
    unit_cores g L2CPU (l2cpu_cores L) (Z.testbit (ug_mask g)) harvested.
Proof.
  intros g. pose proof (blackhole_grids_ok L M L2CPU g Hwf eq_refl) as Hok.
  destruct (cores_by_mask_split L2CPU g false Hok eq_refl ltac:(done)) as (used & Hu & Hsu).
  destruct (cores_by_mask_split L2CPU g true Hok eq_refl ltac:(done)) as (harv & Hh & Hsh).
  exists used, harv. split; [exact Hu|]. split; [done|]. split; [exact Hh|]. split.
  - eapply unit_cores_ext; [|exact Hsu]. intros i _. apply mask_want_kept.
  - eapply unit_cores_ext; [|exact Hsh]. intros i _. apply mask_want_harvested.
Qed.
End blackhole_queries.

(** ** Properties *)

Lemma implemented_queries_split arch L M b cm t g :
  supported arch L M b →
  implements (coordinate_table arch L M b) L (masks_in_use arch L M) b cm →
  unit_grids arch L M t = Some g → 0 ≤ ug_mask g < 2 ^ 64 →
  (arch, t) ≠ (BLACKHOLE, L2CPU) →
  queries_split (virtual_ops (class_of arch)) cm t g.
Proof.
  intros Hs Hi Hg Hmask Hne. destruct Hs as [Hwf Hs].
  assert (wf_layout (layout cm)) as Hwf' by (by rewrite (impl_layout _ _ _ _ _ Hi)).
  pose proof (impl_layout _ _ _ _ _ Hi) as EL. pose proof (impl_masks _ _ _ _ _ Hi) as EM.
  clear Hi. subst L.
  destruct arch; [| | |done]; cbn [unit_grids] in Hg; rewrite <- EM in Hg.
  - by apply row_queries.
  - destruct Hs as [(_ & Hone & _) _]. apply blackhole_queries; [done..|congruence].
  - by apply row_queries.
Qed.

(** For every core type with logical names, [get_cores] returns the NOC0
    coordinates of exactly the cores of units in use and [get_harvested_cores]
    those of the harvested units - Blackhole's L2CPU type apart. *)
Lemma core_queries_split arch L M b m t g :
  supported arch L M b →
  create_coordinate_manager_layout arch b M L = Ok m →
  unit_grids arch L M t = Some g → 0 ≤ ug_mask g < 2 ^ 64 →
  (arch, t) ≠ (BLACKHOLE, L2CPU) →
  queries_split (virtual_ops (class_of arch)) (manager m) t g.
Proof.
  intros Hs Hm Hg Hmask Hne. destruct (create_implements _ _ _ _ Hs) as (cm & Hc & Hi).
  rewrite Hc in Hm. injection Hm as <-. by eapply implemented_queries_split.
Qed.

(** Blackhole's L2CPU type: [get_cores] leaves the harvested L2CPU cores out
    but [get_harvested_cores] returns none of them: as soon as one L2CPU core is
    harvested the two queries no longer cover the layout, although the class
    has a method ([get_harvested_l2cpu_cores]) that lists the missing ones. *)
Lemma harvested_l2cpu_not_listed L M b m i p :
  supported BLACKHOLE L M b →
  create_coordinate_manager_layout BLACKHOLE b M L = Ok m →
  l2cpu_cores L !! Z.to_nat i = Some p → 0 ≤ i → Z.testbit (l2cpu_harvesting_mask M) i = true →
  ∃ used harvested,
    get_cores BlackholeManager.ops (manager m) L2CPU = Ok used ∧
    get_harvested_cores BlackholeManager.ops (manager m) L2CPU = Ok [] ∧
    BlackholeManager.get_harvested_l2cpu_cores (manager m) = Ok harvested ∧
    (noc0_core L2CPU p ∉ used) ∧ (noc0_core L2CPU p ∈ harvested).
Proof.
  intros Hs Hm Hp Hpos Hbit. destruct (create_implements _ _ _ _ Hs) as (cm & Hc & Hi).
  rewrite Hc in Hm. injection Hm as <-. cbn [manager]. destruct Hs as [Hwf Hs].
  assert (wf_layout (layout cm)) as Hwf' by (by rewrite (impl_layout _ _ _ _ _ Hi)).
  destruct (blackhole_l2cpu_query cm Hwf') as (used & harv & Hu & Hn & Hh & Hsu & Hsh).
  exists used, harv. split; [done|]. split; [done|]. split; [done|].
  rewrite (impl_layout _ _ _ _ _ Hi), (impl_masks _ _ _ _ _ Hi) in Hsu, Hsh.
  cbn [masks_in_use ug_mask channel_grid] in Hsu, Hsh. rewrite effective_l2cpu in Hsu, Hsh.
  set (g := channel_grid (l2cpu_harvesting_mask M) (vec_size (l2cpu_cores L))) in *.
  assert (unit_core g (l2cpu_cores L) i 0 p) as Hcore.
  { pose proof (lookup_lt_Some _ _ _ Hp). split; [cbn; unfold vec_size; lia|]. split; [cbn; lia|done]. }
  assert (unit_grid_ok g (l2cpu_cores L)) as Hok.
  { apply channel_grid_ok; [done|apply Hwf|by apply (wf_NoDup L Hwf L2CPU)]. }
  split.
  - intros (i' & j & p' & Hc' & Hk & E)%Hsu. assert (p' = p) as ->.
    { injection E as E1 E2. destruct p, p'; simpl in *; congruence. }
    destruct (unit_core_inj _ _ Hok _ _ _ _ _ Hcore Hc') as [<- _]. unfold kept in Hk.
    by rewrite Hbit in Hk.
  - apply Hsh. by exists i, 0, p.
Qed.

(** ** Witnesses *)

Lemma core_queries_split_witness :
  ∃ m, create_coordinate_manager_layout WORMHOLE_B0 true wormhole_example_masks wormhole_layout = Ok m ∧
       queries_split (virtual_ops WormholeCM) (manager m) TENSIX (row_grid 5 (XY 8 10)).
Proof.
  destruct example_manager as [m Hm]. exists m. split; [exact Hm|].
  apply (core_queries_split WORMHOLE_B0 wormhole_layout wormhole_example_masks true m TENSIX
    (row_grid 5 (XY 8 10)) (supported_wormhole true) Hm eq_refl); [split; reflexivity || discriminate|discriminate].
Defined.

Lemma harvested_l2cpu_not_listed_witness :
  ∃ m (used harvested : list CoreCoord),
    create_coordinate_manager BLACKHOLE true blackhole_example_masks = Ok m ∧
    get_cores BlackholeManager.ops (manager m) L2CPU = Ok used ∧
    get_harvested_cores BlackholeManager.ops (manager m) L2CPU = Ok [] ∧
    (noc0_core L2CPU (XY 8 3) ∉ used) ∧ (noc0_core L2CPU (XY 8 3) ∈ harvested).
Proof.
  destruct (create_implements _ _ _ _ supported_blackhole) as (cm & Hc & _).
  destruct (harvested_l2cpu_not_listed blackhole_layout blackhole_example_masks true _ 0 (XY 8 3)
    supported_blackhole Hc eq_refl ltac:(done) eq_refl) as (used & harv & H1 & H2 & _ & H3 & H4).
  exists (MkManager BlackholeCM cm), used, harv. rewrite create_standard_blackhole.
  exact (conj Hc (conj H1 (conj H2 (conj H3 H4)))).
Defined.
