(* ===== verification/RiscType.v ===== *)
(** * RISC selection flags and soft reset registers

    [types/risc_type.hpp], [types/risc_type.cpp] and the soft-reset conversions
    of the architecture implementations ([arch/wormhole_implementation.cpp],
    [arch/blackhole_implementation.cpp], [arch/grendel_implementation.cpp]). *)

From Stdlib Require Import ZArith Lia.
From stdpp Require Import base list strings numbers.
From S2P Require Import Prelude.

Local Open Scope Z_scope.

(** ** The flags (a uint64_t enum) *)

Definition bit (n : Z) : Z := Z.shiftl 1 n.
(** [(value & flag) != RiscType::NONE]. *)
Definition has_flag (value flag : Z) : bool := negb (Z.land value flag =? 0).
Definition lor_all (l : list Z) : Z := foldr Z.lor 0 l.

Definition RISC_NONE : Z := 0.
Definition RISC_ALL : Z := bit 0.
Definition ALL_TRISCS : Z := bit 1.
Definition ALL_DATA_MOVEMENT : Z := bit 2.
Definition BRISC : Z := bit 3.
Definition TRISC0 : Z := bit 4.
Definition TRISC1 : Z := bit 5.
Definition TRISC2 : Z := bit 6.
Definition NCRISC : Z := bit 7.
Definition ALL_TENSIX_TRISCS : Z := lor_all [TRISC0; TRISC1; TRISC2].
Definition ALL_TENSIX_DMS : Z := Z.lor BRISC NCRISC.
Definition ALL_TENSIX : Z := Z.lor ALL_TENSIX_TRISCS ALL_TENSIX_DMS.
(** [NEO<neo>_TRISC<trisc>] and [DM<n>]. *)
Definition NEO_TRISC (neo trisc : Z) : Z := bit (8 + 4 * neo + trisc).
Definition DM (n : Z) : Z := bit (24 + n).
Definition ALL_NEO_TRISCS_OF (neo : Z) : Z :=
  lor_all [NEO_TRISC neo 0; NEO_TRISC neo 1; NEO_TRISC neo 2; NEO_TRISC neo 3].
Definition ALL_NEO_TRISCS : Z :=
  lor_all [ALL_NEO_TRISCS_OF 0; ALL_NEO_TRISCS_OF 1; ALL_NEO_TRISCS_OF 2; ALL_NEO_TRISCS_OF 3].
Definition ALL_NEO_DMS : Z := lor_all [DM 0; DM 1; DM 2; DM 3; DM 4; DM 5; DM 6; DM 7].
Definition ALL_NEO : Z := Z.lor ALL_NEO_TRISCS ALL_NEO_DMS.
Definition ALL_NEO_DMS_UNCORE : Z := bit 32.
Definition NEO_DM_UNCORE : Z := bit 33.

(** [operator~] on the uint64_t value. *)
Definition risc_not (v : Z) : Z := Z.lxor (u64 v) (2 ^ 64 - 1).

(** ** RiscTypeToString *)

(** The chain of ifs: the flags it tests, in order, with their names. *)
Definition printed_flags : list (Z * string) :=
  [(RISC_ALL, "ALL"); (ALL_TRISCS, "ALL_TRISCS"); (ALL_DATA_MOVEMENT, "ALL_DATA_MOVEMENT");
   (BRISC, "BRISC"); (TRISC0, "TRISC0"); (TRISC1, "TRISC1"); (TRISC2, "TRISC2"); (NCRISC, "NCRISC");
   (NEO_TRISC 0 0, "NEO0_TRISC0"); (NEO_TRISC 0 1, "NEO0_TRISC1");
   (NEO_TRISC 0 2, "NEO0_TRISC2"); (NEO_TRISC 0 3, "NEO0_TRISC3");
   (NEO_TRISC 1 0, "NEO1_TRISC0"); (NEO_TRISC 1 1, "NEO1_TRISC1");
   (NEO_TRISC 1 2, "NEO1_TRISC2"); (NEO_TRISC 1 3, "NEO1_TRISC3");
   (NEO_TRISC 2 0, "NEO2_TRISC0"); (NEO_TRISC 2 1, "NEO2_TRISC1");
   (NEO_TRISC 2 2, "NEO2_TRISC2"); (NEO_TRISC 2 3, "NEO2_TRISC3");
   (NEO_TRISC 3 0, "NEO3_TRISC0"); (NEO_TRISC 3 1, "NEO3_TRISC1"); (NEO_TRISC 3 2, "NEO3_TRISC2");
   (DM 0, "DM0"); (DM 1, "DM1"); (DM 2, "DM2"); (DM 3, "DM3");
   (DM 4, "DM4"); (DM 5, "DM5"); (DM 6, "DM6"); (DM 7, "DM7");
   (ALL_NEO_DMS_UNCORE, "ALL_NEO_DMS_UNCORE"); (NEO_DM_UNCORE, "NEO_DM_UNCORE")]%string.

Definition RiscTypeToString (value : Z) : string :=
  let output := foldl (λ output '(flag, name),
    if has_flag value flag then output +:+ name +:+ " | " else output) "" printed_flags in
  match output with
  | "" => "NONE"
  | _ => String.substring 0 (String.length output - 3) output
  end%string.

(** ** invert_selected_options *)

Definition invert_selected_options (selected : Z) : Z :=
  Z.land (risc_not selected) (lor_all [RISC_ALL; ALL_TENSIX; ALL_NEO]).

(** ** Soft reset registers *)

(** The chain of [if (from & a) to |= b]. *)
Definition copy_flags (table : list (Z * Z)) (from : Z) : Z → Z :=
  λ to, foldl (λ to '(a, b), if has_flag from a then Z.lor to b else to) to table.

(** Wormhole and Blackhole: the same tables and register bits. *)
Definition tensix_soft_reset : list (Z * Z) :=
  [(BRISC, bit 11); (TRISC0, bit 12); (TRISC1, bit 13); (TRISC2, bit 14); (NCRISC, bit 18)].
Definition swap_table (t : list (Z * Z)) : list (Z * Z) := map (λ '(a, b), (b, a)) t.

(** The architecture-agnostic options, expanded in order on the growing value. *)
Definition expand_flags (table : list (Z * Z)) (risc_type : Z) : Z :=
  foldl (λ r '(a, b), if has_flag r a then Z.lor r b else r) risc_type table.

Module tensix.
(** [get_soft_reset_reg_value] of Wormhole and Blackhole, whose code differs in
    the architecture the message names. *)
Definition get_soft_reset_reg_value (arch_name : string) (risc_type : Z) : result Z :=
  if has_flag risc_type ALL_NEO
  then throw ("NEO risc cores should not be used on " +:+ arch_name +:+ " architecture.")
  else
    let risc_type := expand_flags [(RISC_ALL, ALL_TENSIX); (ALL_TRISCS, ALL_TENSIX_TRISCS);
                                   (ALL_DATA_MOVEMENT, ALL_TENSIX_DMS)] risc_type in
    Ok (copy_flags tensix_soft_reset risc_type 0).

(** [get_soft_reset_risc_type]. *)
Definition get_soft_reset_risc_type (reg : Z) : Z :=
  expand_flags [(ALL_TENSIX, RISC_ALL); (ALL_TENSIX_TRISCS, ALL_TRISCS);
                (ALL_TENSIX_DMS, ALL_DATA_MOVEMENT)]
    (copy_flags (swap_table tensix_soft_reset) reg RISC_NONE).
End tensix.

(** The two architectures, with their register constants (the same bits). *)
Module wormhole_reset.
Definition get_soft_reset_reg_value : Z → result Z := tensix.get_soft_reset_reg_value "Wormhole".
Definition get_soft_reset_risc_type : Z → Z := tensix.get_soft_reset_risc_type.
End wormhole_reset.
Module blackhole_reset.
Definition get_soft_reset_reg_value : Z → result Z := tensix.get_soft_reset_reg_value "Blackhole".
Definition get_soft_reset_risc_type : Z → Z := tensix.get_soft_reset_risc_type.
End blackhole_reset.

Module grendel_reset.
(** The register bits: [SOFT_RESET_DM3..DM6] and [SOFT_RESET_TRISC0..3] are
    the same bits 11..14. *)
Definition SOFT_RESET_DM (n : Z) : Z := bit (8 + n).
Definition SOFT_RESET_TRISC (n : Z) : Z := bit (11 + n).

Definition soft_reset : list (Z * Z) :=
  [(DM 0, SOFT_RESET_DM 0); (DM 1, SOFT_RESET_DM 1); (DM 2, SOFT_RESET_DM 2);
   (DM 3, SOFT_RESET_DM 3); (DM 4, SOFT_RESET_DM 4); (DM 5, SOFT_RESET_DM 5);
   (DM 6, SOFT_RESET_DM 6); (DM 7, SOFT_RESET_DM 7);
   (ALL_NEO_TRISCS_OF 0, SOFT_RESET_TRISC 0); (ALL_NEO_TRISCS_OF 1, SOFT_RESET_TRISC 1);
   (ALL_NEO_TRISCS_OF 2, SOFT_RESET_TRISC 2); (ALL_NEO_TRISCS_OF 3, SOFT_RESET_TRISC 3)].

Definition get_soft_reset_reg_value (risc_type : Z) : result Z :=
  if has_flag risc_type ALL_TENSIX
  then throw "TENSIX risc cores should not be used on Grendel architecture."
  else
    let risc_type := expand_flags [(RISC_ALL, ALL_NEO); (ALL_TRISCS, ALL_NEO_TRISCS);
                                   (ALL_DATA_MOVEMENT, ALL_NEO_DMS)] risc_type in
    Ok (copy_flags soft_reset risc_type 0).

Definition get_soft_reset_risc_type (reg : Z) : Z :=
  expand_flags [(ALL_NEO, RISC_ALL); (ALL_NEO_TRISCS, ALL_TRISCS);
                (ALL_NEO_DMS, ALL_DATA_MOVEMENT)]
    (copy_flags (swap_table soft_reset) reg RISC_NONE).
End grendel_reset.

(** ** Flags are sets of bits *)

Lemma has_flag_bit v n : 0 ≤ n → has_flag v (bit n) = Z.testbit v n.
Proof.
  intros Hn. unfold has_flag, bit. rewrite Z.shiftl_1_l.
  assert (Z.land v (2 ^ n) = if Z.testbit v n then 2 ^ n else 0) as ->.
  { apply Z.bits_inj'. intros j Hj. rewrite Z.land_spec, Z.pow2_bits_eqb by lia.
    destruct (Z.eqb_spec n j) as [<-|Hne].
    - destruct (Z.testbit v n); by rewrite ?Z.bits_0, ?Z.pow2_bits_true by lia.
    - rewrite andb_false_r. destruct (Z.testbit v n); [|by rewrite Z.bits_0].
      by rewrite Z.pow2_bits_false by lia. }
  destruct (Z.testbit v n); [|done]. destruct (Z.eqb_spec (2 ^ n) 0); [|done].
  pose proof (Z.pow_pos_nonneg 2 n). lia.
Qed.

Lemma has_flag_mask v m f : Z.land f m = f → has_flag (Z.land v m) f = has_flag v f.
Proof.
  intros Hf. unfold has_flag. rewrite <- Z.land_assoc, (Z.land_comm m), Hf. done.
Qed.

(** A property of the low eight bits, checked on every value. *)
Lemma low_byte_check (P : Z → bool) :
  forallb P (seqZ 0 256) = true → ∀ v, P (Z.land v 255) = true.
Proof.
  intros HP v. rewrite forallb_forall in HP. apply HP, list_elem_of_In, elem_of_seqZ.
  change 255 with (Z.ones 8). rewrite Z.land_ones by lia. pose proof (Z.mod_pos_bound v (2 ^ 8)). lia.
Qed.

Lemma expand_mask table v m :
  Forall (λ ab, Z.land ab.1 m = ab.1 ∧ Z.land ab.2 m = ab.2) table →
  Z.land (expand_flags table v) m = expand_flags table (Z.land v m).
Proof.
  unfold expand_flags. intros Ht. revert v. induction Ht as [|[a b] table [Ha Hb] Ht IH]; intros v; [done|].
  simpl in *. rewrite IH, has_flag_mask by done. f_equal.
  destruct (has_flag v a); [|done]. by rewrite Z.land_lor_distr_l, Hb.
Qed.

Lemma copy_mask table v m to :
  Forall (λ ab, Z.land ab.1 m = ab.1) table →
  copy_flags table (Z.land v m) to = copy_flags table v to.
Proof.
  unfold copy_flags. intros Ht. revert to. induction Ht as [|[a b] table Ha Ht IH]; intros to; [done|].
  simpl in *. by rewrite IH, has_flag_mask by done.
Qed.

(** The register value depends on the low byte of the selection only. *)
Lemma tensix_reg_low name v :
  has_flag v ALL_NEO = false →
  tensix.get_soft_reset_reg_value name v = tensix.get_soft_reset_reg_value name (Z.land v 255).
Proof.
  intros Hneo. unfold tensix.get_soft_reset_reg_value. rewrite Hneo.
  assert (has_flag (Z.land v 255) ALL_NEO = false) as ->.
  { unfold has_flag. rewrite <- Z.land_assoc. change (Z.land 255 ALL_NEO) with 0. by rewrite Z.land_0_r. }
  f_equal. rewrite <- expand_mask by (repeat constructor). symmetry. apply copy_mask. repeat constructor.
Qed.

(** What a selection asks for: the flag itself or a group it belongs to. *)
Definition selects_tensix (v a : Z) : bool :=
  has_flag v a || has_flag v RISC_ALL
  || (has_flag a ALL_TENSIX_TRISCS && has_flag v ALL_TRISCS)
  || (has_flag a ALL_TENSIX_DMS && has_flag v ALL_DATA_MOVEMENT).

Definition tensix_reg_correct (v : Z) (r : result Z) : bool :=
  match r with
  | Ok r =>
      forallb (λ '(a, b), Bool.eqb (has_flag r b) (selects_tensix v a)) tensix_soft_reset
      && (Z.land r (lor_all (map snd tensix_soft_reset)) =? r)
  | Err _ => false
  end.

Lemma selects_low v a :
  Z.land a 255 = a → selects_tensix (Z.land v 255) a = selects_tensix v a.
Proof. intros Ha. unfold selects_tensix. by rewrite !has_flag_mask by done. Qed.

(** C33: [get_soft_reset_reg_value] of Wormhole and Blackhole: selecting a NEO core
    throws; otherwise the register value has the soft-reset bit of exactly the
    Tensix RISCs the selection names - itself, ALL, or through its group. *)
Lemma tensix_soft_reset_reg_correct name v :
  if has_flag v ALL_NEO
  then tensix.get_soft_reset_reg_value name v =
       throw ("NEO risc cores should not be used on " +:+ name +:+ " architecture.")
  else ∃ r, tensix.get_soft_reset_reg_value name v = Ok r ∧
       Z.land r (lor_all (map snd tensix_soft_reset)) = r ∧
       ∀ a b, (a, b) ∈ tensix_soft_reset → has_flag r b = selects_tensix v a.
Proof.
  destruct (has_flag v ALL_NEO) eqn:Hneo.
  { unfold tensix.get_soft_reset_reg_value. by rewrite Hneo. }
  pose proof (low_byte_check (λ w, tensix_reg_correct w (tensix.get_soft_reset_reg_value name w))
    ltac:(vm_compute; reflexivity) v) as Hc. cbn beta in Hc. rewrite <- tensix_reg_low in Hc by done.
  destruct (tensix.get_soft_reset_reg_value name v) as [r|]; [|done]. exists r. split; [done|].
  apply andb_true_iff in Hc as [Hall Hmask]. split; [by apply Z.eqb_eq|].
  intros a b Hin. rewrite forallb_forall in Hall. apply list_elem_of_In in Hin.
  specialize (Hall _ Hin). apply Bool.eqb_prop in Hall. rewrite Hall. apply selects_low.
  simpl in Hin. destruct_or! Hin; try done; injection Hin as <- <-; done.
Qed.

(** ** The register read back *)

(** The reading depends on the five register bits only. *)
Lemma tensix_risc_type_bits r :
  tensix.get_soft_reset_risc_type r =
  tensix.get_soft_reset_risc_type
    (foldr (λ b acc, if has_flag r b then Z.lor b acc else acc) 0 (map snd tensix_soft_reset)).
Proof.
  unfold tensix.get_soft_reset_risc_type. f_equal. unfold copy_flags. cbn [swap_table tensix_soft_reset map foldl foldr snd].
  destruct (has_flag r (bit 11)), (has_flag r (bit 12)), (has_flag r (bit 13)), (has_flag r (bit 14)),
    (has_flag r (bit 18)); reflexivity.
Qed.

(** C34: [get_soft_reset_risc_type] reports exactly the Tensix RISCs whose register
    bits are set, and reports the group options ALL, ALL_TRISCS and
    ALL_DATA_MOVEMENT as soon as one member is in reset. *)
Lemma tensix_soft_reset_read_back r :
  let t := tensix.get_soft_reset_risc_type r in
  (∀ a b, (a, b) ∈ tensix_soft_reset → has_flag t a = has_flag r b) ∧
  has_flag t RISC_ALL = existsb (λ '(_, b), has_flag r b) tensix_soft_reset ∧
  has_flag t ALL_TRISCS = has_flag t ALL_TENSIX_TRISCS ∧
  has_flag t ALL_DATA_MOVEMENT = has_flag t ALL_TENSIX_DMS ∧
  has_flag t ALL_NEO = false.
Proof.
  cbv zeta. rewrite tensix_risc_type_bits. cbn [tensix_soft_reset map foldr snd existsb].
  destruct (has_flag r (bit 11)) eqn:E1, (has_flag r (bit 12)) eqn:E2, (has_flag r (bit 13)) eqn:E3,
    (has_flag r (bit 14)) eqn:E4, (has_flag r (bit 18)) eqn:E5;
  (split; [intros a b Hin; apply list_elem_of_In in Hin; simpl in Hin; destruct_or! Hin; try done;
    injection Hin as <- <-; rewrite ?E1, ?E2, ?E3, ?E4, ?E5; reflexivity|]);
  by vm_compute.
Qed.

(** Writing a reported state back does not restore it: as soon as one Tensix
    RISC is in reset, the reported selection contains ALL and its register
    value has every soft-reset bit. *)
Lemma tensix_write_back_resets_all name r :
  existsb (λ '(_, b), has_flag r b) tensix_soft_reset = true →
  tensix.get_soft_reset_reg_value name (tensix.get_soft_reset_risc_type r) =
  Ok (lor_all (map snd tensix_soft_reset)).
Proof.
  rewrite tensix_risc_type_bits. cbn [tensix_soft_reset map foldr snd existsb].
  destruct (has_flag r (bit 11)), (has_flag r (bit 12)), (has_flag r (bit 13)), (has_flag r (bit 14)),
    (has_flag r (bit 18)); intros H; try discriminate H; by vm_compute.
Qed.
Lemma tensix_write_back_resets_all_witness :
  tensix.get_soft_reset_reg_value "Wormhole" (tensix.get_soft_reset_risc_type (bit 11)) =
  Ok (lor_all (map snd tensix_soft_reset)).
Proof. apply (tensix_write_back_resets_all "Wormhole" (bit 11)). reflexivity. Defined.

(** On Grendel the bits of DM3 .. DM6 are those of the four NEO TRISC groups:
    selecting DM3 alone reads back as NEO0's TRISCs in reset as well. *)
Lemma grendel_reset_bits_overlap :
  ∃ r, grendel_reset.get_soft_reset_reg_value (DM 3) = Ok r ∧
       has_flag (grendel_reset.get_soft_reset_risc_type r) (NEO_TRISC 0 0) = true ∧
       grendel_reset.SOFT_RESET_DM 3 = grendel_reset.SOFT_RESET_TRISC 0.
Proof. eexists. split; [reflexivity|]. by split. Qed.

(** ** invert_selected_options *)

Definition invertible_mask : Z := lor_all [RISC_ALL; ALL_TENSIX; ALL_NEO].

(** C37: [invert_selected_options] selects exactly the per-core options (and ALL)
    that were not selected; inverting twice gives the selection back on
    these options. *)
Lemma invert_selected_options_complement v i :
  0 ≤ v < 2 ^ 64 → 0 ≤ i →
  Z.testbit (invert_selected_options v) i = Z.testbit invertible_mask i && negb (Z.testbit v i) ∧
  invert_selected_options (invert_selected_options v) = Z.land v invertible_mask.
Proof.
  intros Hv Hi.
  assert (∀ w i, 0 ≤ w < 2 ^ 64 → 0 ≤ i →
    Z.testbit (invert_selected_options w) i = Z.testbit invertible_mask i && negb (Z.testbit w i)) as Hbit.
  { clear. intros w i Hw Hi. unfold invert_selected_options, risc_not. rewrite u64_small by done.
    rewrite Z.land_spec, Z.lxor_spec. fold invertible_mask. rewrite andb_comm.
    destruct (Z.testbit invertible_mask i) eqn:Em; [|done]. simpl.
    assert (0 ≤ i < 64) as Hi64.
    { split; [done|]. destruct (decide (i < 64)) as [|Hge]; [done|]. exfalso.
      rewrite Z.bits_above_log2 in Em; [done|by vm_compute|]. change (Z.log2 invertible_mask) with 31. lia. }
    change (2 ^ 64 - 1) with (Z.ones 64). rewrite Z.ones_spec_low by lia. by destruct (Z.testbit w i). }
  split; [by apply Hbit|]. apply Z.bits_inj'. intros j Hj.
  assert (0 ≤ invert_selected_options v < 2 ^ 64) as Hr.
  { apply bits_bound; [done|]. intros k Hk. rewrite Hbit by (done || lia).
    rewrite (Z.bits_above_log2 invertible_mask); [done|by vm_compute|].
    change (Z.log2 invertible_mask) with 31. lia. }
  rewrite Hbit, Hbit, Z.land_spec by done. by destruct (Z.testbit v j), (Z.testbit invertible_mask j).
Qed.
Lemma invert_selected_options_complement_witness :
  Z.testbit (invert_selected_options 16) 4 = Z.testbit invertible_mask 4 && negb (Z.testbit 16 4).
Proof. apply (invert_selected_options_complement 16 4); lia. Defined.

(** ** The printed form *)

(** The names of the flags of a selection, in the order they are tested. *)
Definition flag_names (v : Z) : list string :=
  map snd (List.filter (λ f, has_flag v f.1) printed_flags).

Definition with_bars (l : list string) : string := foldr (λ n s, n +:+ " | " +:+ s) "" l.

Lemma print_fold (l : list (Z * string)) v s :
  foldl (λ output '(flag, name), if has_flag v flag then output +:+ name +:+ " | " else output) s l =
  s +:+ with_bars (map snd (List.filter (λ f, has_flag v f.1) l)).
Proof.
  revert s. induction l as [|[f n] l IH]; intros s; simpl; [by rewrite string_app_nil|].
  rewrite IH. destruct (has_flag v f); simpl; [|done]. by rewrite <- !string_app_assoc.
Qed.

Lemma with_bars_concat n l : with_bars (n :: l) = String.concat " | " (n :: l) +:+ " | ".
Proof.
  revert n. induction l as [|m l IH]; intros n; [done|].
  change (with_bars (n :: m :: l)) with (n +:+ " | " +:+ with_bars (m :: l)). rewrite IH.
  change (String.concat " | " (n :: m :: l)) with (n +:+ " | " +:+ String.concat " | " (m :: l)).
  by rewrite <- !string_app_assoc.
Qed.

(** C38: [RiscTypeToString] prints the names of the selected options separated
    by " | ", and "NONE" when no printed option is selected: the append-and-trim
    loop is the joined list of names. *)
Lemma RiscTypeToString_correct v :
  RiscTypeToString v =
  match flag_names v with [] => "NONE"%string | names => String.concat " | " names end.
Proof.
  unfold RiscTypeToString, flag_names. rewrite print_fold. cbv zeta.
  generalize (map snd (List.filter (λ f, has_flag v f.1) printed_flags)). clear v.
  intros [|n l]; [done|]. change ("" +:+ ?s) with s.
  rewrite with_bars_concat. set (s := String.concat " | " (n :: l)).
  assert (String.substring 0 (String.length (s +:+ " | ") - 3) (s +:+ " | ") = s) as E.
  { rewrite string_length_app. simpl String.length. rewrite Nat.add_sub. apply substring_prefix. }
  destruct (s +:+ " | ") as [|c t] eqn:Es; [|exact E].
  destruct s; discriminate.
Qed.

(** NEO3_TRISC3 is missing from the chain of tests. *)
Lemma NEO3_TRISC3_not_printed : RiscTypeToString (NEO_TRISC 3 3) = "NONE"%string.
Proof. reflexivity. Qed.
