(* ===== verification/SemVer.v ===== *)
(** * Versions

    [utils/semver.hpp]: SemVer and FirmwareBundleVersion - parsing, printing,
    ordering, the firmware tags and the hash. Components are uint64_t. *)

From Stdlib Require Import ZArith Lia Ascii.
From stdpp Require Import base list strings pretty numbers.
From S2P Require Import Prelude CoreTypes.

Local Open Scope Z_scope.

Record SemVer := MkSemVer { major : Z; minor : Z; patch : Z; pre_release : Z }.

#[global] Instance SemVer_eq_dec : EqDecision SemVer.
Proof. solve_decision. Defined.

(** Every component is a uint64_t. *)
Definition semver_wf (v : SemVer) : Prop :=
  0 ≤ major v < 2 ^ 64 ∧ 0 ≤ minor v < 2 ^ 64 ∧ 0 ≤ patch v < 2 ^ 64 ∧ 0 ≤ pre_release v < 2 ^ 64.

(** ** Printing *)

Definition str (v : SemVer) : string :=
  let base := to_string (major v) +:+ "." +:+ to_string (minor v) +:+ "." +:+ to_string (patch v) in
  if pre_release v =? 0 then base else base +:+ "-rc." +:+ to_string (pre_release v).

(** ** Parsing *)

Definition is_digit (c : ascii) : bool := (48 <=? N_of_ascii c)%N && (N_of_ascii c <=? 57)%N.
Definition digit_value (c : ascii) : Z := Z.of_N (N_of_ascii c) - 48.
Definition is_space (c : ascii) : bool :=
  (N_of_ascii c =? 32)%N || ((9 <=? N_of_ascii c) && (N_of_ascii c <=? 13))%N.

(** The longest run of digits, read in base 10; [None] when there is none. *)
Fixpoint read_digits (acc : option Z) (s : string) : option Z :=
  match s with
  | String c s =>
      if is_digit c then read_digits (Some (default 0 acc * 10 + digit_value c)) s else acc
  | EmptyString => acc
  end.

Fixpoint skip_spaces (s : string) : string :=
  match s with
  | String c s' => if is_space c then skip_spaces s' else s
  | EmptyString => s
  end.

(** [std::stoull(token)] in base 10: leading white space, an optional sign
    (strtoull negates modulo 2^64), then digits; what follows is ignored. *)
Definition stoull (token : string) : result Z :=
  let '(negative, digits) :=
    match skip_spaces token with
    | String "-" s => (true, s)
    | String "+" s => (false, s)
    | s => (false, s)
    end in
  match read_digits None digits with
  | None => Err InvalidArgument
  | Some n => if 2 ^ 64 - 1 <? n then Err OutOfRange else Ok (if negative : bool then u64 (- n) else n)
  end.

(** [std::getline(iss, token, '.')] on what is left of the stream: [None] when
    no character can be extracted. *)
Fixpoint split_dot (s : string) : string * string :=
  match s with
  | EmptyString => (EmptyString, EmptyString)
  | String c s =>
      if Ascii.eqb c "." then (EmptyString, s)
      else let '(token, rest) := split_dot s in (String c token, rest)
  end.
Definition getline (rest : string) : option (string * string) :=
  match rest with EmptyString => None | _ => Some (split_dot rest) end.

(** [version.erase(version_str.find("-rc."), 3)]; [None] when it is not found. *)
Fixpoint erase_rc (s : string) : option string :=
  match s with
  | String "-" (String "r" (String "c" (String "." rest))) => Some (String "." rest)
  | String c s => String c <$> erase_rc s
  | EmptyString => None
  end.

Definition parse (version_str : string) : result SemVer :=
  let erased := erase_rc version_str in
  let ispos := bool_decide (is_Some erased) in
  match getline (default version_str erased) with
  | None => Ok (MkSemVer 0 0 0 0)
  | Some (token, rest) =>
      major ← stoull token;
      match getline rest with
      | None => Ok (MkSemVer major 0 0 0)
      | Some (token, rest) =>
          minor ← stoull token;
          match getline rest with
          | None => Ok (MkSemVer major minor 0 0)
          | Some (token, rest) =>
              patch ← stoull token;
              match getline rest with
              | Some (token, _) =>
                  if ispos then pre_release ← stoull token; Ok (MkSemVer major minor patch pre_release)
                  else Ok (MkSemVer major minor patch 0)
              | None => Ok (MkSemVer major minor patch 0)
              end
          end
      end
  end.

(** ** Firmware tags *)

Definition from_wormhole_eth_firmware_tag (version : Z) : SemVer :=
  MkSemVer (Z.land (Z.shiftr version 16) 0xFF) (Z.land (Z.shiftr version 12) 0xF)
           (Z.land version 0xFFF) 0.
Definition from_blackhole_eth_firmware_tag (version : Z) : SemVer :=
  MkSemVer (Z.land (Z.shiftr version 16) 0xFFFF) (Z.land (Z.shiftr version 8) 0xFF)
           (Z.land version 0xFF) 0.
Definition from_firmware_bundle_tag (tag : Z) : SemVer :=
  MkSemVer (Z.land (Z.shiftr tag 24) 0xFF) (Z.land (Z.shiftr tag 16) 0xFF)
           (Z.land (Z.shiftr tag 8) 0xFF) (Z.land tag 0xFF).

(** ** Ordering *)

(** std::tie's lexicographic [<]. *)
Fixpoint lex_ltb (a b : list Z) : bool :=
  match a, b with
  | x :: a, y :: b => (x <? y) || ((x =? y) && lex_ltb a b)
  | _, _ => false
  end.
Definition order_key (v : SemVer) : list Z :=
  [major v; minor v; patch v; if pre_release v =? 0 then 256 else pre_release v].

Definition semver_ltb (v w : SemVer) : bool := lex_ltb (order_key v) (order_key w).
Definition semver_eqb (v w : SemVer) : bool :=
  (major v =? major w) && (minor v =? minor w) && (patch v =? patch w)
  && (pre_release v =? pre_release w).

(** [compare_firmware_bundle]: legacy majors (80 and above) count as 0. *)
Definition normalize_bundle (v : SemVer) : SemVer :=
  if 80 <=? major v then MkSemVer 0 (minor v) (patch v) 0
  else MkSemVer (major v) (minor v) (patch v) 0.
Definition compare_firmware_bundle (v w : SemVer) : Z :=
  if semver_ltb (normalize_bundle v) (normalize_bundle w) then -1
  else if semver_ltb (normalize_bundle w) (normalize_bundle v) then 1 else 0.
Definition bundle_ltb (v w : SemVer) : bool := compare_firmware_bundle v w <? 0.
Definition bundle_eqb (v w : SemVer) : bool := compare_firmware_bundle v w =? 0.

(** std::hash<SemVer>, with the standard library's integer hash a parameter. *)
Definition semver_hash (h : Z → Z) (v : SemVer) : Z :=
  let combine seed hi :=
    Z.lxor seed (u64 (hi + 0x9e3779b9 + u64 (Z.shiftl seed 6) + Z.shiftr seed 2)) in
  combine (combine (combine (h (major v)) (h (minor v))) (h (patch v))) (h (pre_release v)).

(** ** Numerals *)

Fixpoint all_chars (P : ascii → bool) (s : string) : bool :=
  match s with EmptyString => true | String c s => P c && all_chars P s end.
Definition not_dash (c : ascii) : bool := negb (Ascii.eqb c "-").

Lemma all_chars_app P a b : all_chars P (a +:+ b) = all_chars P a && all_chars P b.
Proof.
  induction a as [|c a IH]; [done|].
  change (String c a +:+ b) with (String c (a +:+ b)). simpl. by rewrite IH, andb_assoc.
Qed.
Lemma all_chars_impl (P Q : ascii → bool) s :
  (∀ c, P c = true → Q c = true) → all_chars P s = true → all_chars Q s = true.
Proof.
  intros HPQ. induction s as [|c s IH]; [done|]. simpl. rewrite !andb_true_iff.
  intros [? ?]. split; [by apply HPQ|by apply IH].
Qed.

Lemma digit_char x :
  is_digit (pretty_N_char (x `mod` 10)) = true ∧
  digit_value (pretty_N_char (x `mod` 10)) = Z.of_N (x `mod` 10).
Proof.
  pose proof (N.mod_lt x 10 ltac:(lia)). revert H. generalize (x `mod` 10)%N. intros d Hd.
  assert (d = 0 ∨ d = 1 ∨ d = 2 ∨ d = 3 ∨ d = 4 ∨ d = 5 ∨ d = 6 ∨ d = 7 ∨ d = 8 ∨ d = 9)%N
    as Hcases by lia.
  destruct_or! Hcases; subst; by vm_compute.
Qed.

Lemma pretty_go_digits x s :
  all_chars is_digit s = true → all_chars is_digit (pretty_N_go x s) = true.
Proof.
  revert s. induction (N.lt_wf_0 x) as [x _ IH]. intros s Hs.
  destruct (decide (x = 0)%N) as [->|Hx]; [by rewrite pretty_N_go_0|].
  rewrite pretty_N_go_step by lia. apply IH; [apply N.div_lt; lia|].
  simpl. by rewrite (proj1 (digit_char x)).
Qed.

Lemma read_pretty_go x s :
  read_digits None (pretty_N_go x s) =
  read_digits (if decide (x = 0)%N then None else Some (Z.of_N x)) s.
Proof.
  revert s. induction (N.lt_wf_0 x) as [x _ IH]. intros s.
  destruct (decide (x = 0)%N) as [->|Hx]; [by rewrite pretty_N_go_0|].
  rewrite pretty_N_go_step, IH by (try apply N.div_lt; lia).
  destruct (digit_char x) as [Hd Hv]. simpl. rewrite Hd, Hv.
  pose proof (N.div_mod x 10 ltac:(lia)) as Hdm.
  destruct (decide (x `div` 10 = 0)%N) as [E|]; unfold default; simpl; f_equal; f_equal; lia.
Qed.

Lemma to_string_digits z : all_chars is_digit (to_string z) = true.
Proof.
  unfold to_string, pretty, pretty_N. destruct (decide _); [done|]. by apply pretty_go_digits.
Qed.

Lemma read_to_string z : 0 ≤ z → read_digits None (to_string z) = Some z.
Proof.
  intros Hz. unfold to_string, pretty, pretty_N. destruct (decide (Z.to_N z = 0)%N) as [E|Hne].
  - by assert (z = 0) as -> by lia.
  - rewrite read_pretty_go, decide_False by done. simpl. f_equal. lia.
Qed.

Lemma to_string_nonempty z : to_string z ≠ EmptyString.
Proof.
  unfold to_string, pretty, pretty_N. destruct (decide (Z.to_N z = 0)%N) as [E|Hne]; [done|].
  intros E. pose proof (read_pretty_go (Z.to_N z) "") as H. rewrite E, decide_False in H; done.
Qed.

Lemma digit_not_special c :
  is_digit c = true → is_space c = false ∧ Ascii.eqb c "-" = false ∧ Ascii.eqb c "+" = false ∧
  Ascii.eqb c "." = false.
Proof.
  destruct c as [b0 b1 b2 b3 b4 b5 b6 b7].
  destruct b0, b1, b2, b3, b4, b5, b6, b7; vm_compute; intros H; try discriminate H; auto.
Qed.

Lemma stoull_to_string z : 0 ≤ z < 2 ^ 64 → stoull (to_string z) = Ok z.
Proof.
  intros Hz. unfold stoull.
  pose proof (to_string_digits z) as Hd. pose proof (to_string_nonempty z) as Hne.
  pose proof (read_to_string z ltac:(lia)) as Hread.
  destruct (to_string z) as [|c s]; [done|]. simpl in Hd. apply andb_true_iff in Hd as [Hc _].
  destruct (digit_not_special c Hc) as (Hsp & Hm & Hp & _). cbn [skip_spaces]. rewrite Hsp.
  assert ((match String c s with String "-" s0 => (true, s0) | String "+" s0 => (false, s0)
           | s0 => (false, s0) end) = (false, String c s)) as ->.
  { destruct c as [b0 b1 b2 b3 b4 b5 b6 b7].
    destruct b0, b1, b2, b3, b4, b5, b6, b7; try reflexivity; discriminate. }
  rewrite Hread. destruct (Z.ltb_spec (2 ^ 64 - 1) z); [lia|done].
Qed.

(** ** Tokens *)

Lemma split_dot_token a r : all_chars is_digit a = true → split_dot (a +:+ "." +:+ r) = (a, r).
Proof.
  induction a as [|c a IH]; [done|]. simpl all_chars. rewrite andb_true_iff. intros [Hc Ha].
  change (String c a +:+ "." +:+ r) with (String c (a +:+ "." +:+ r)). cbn [split_dot].
  destruct (digit_not_special c Hc) as (_ & _ & _ & ->). by rewrite IH.
Qed.
Lemma split_dot_last a : all_chars is_digit a = true → split_dot a = (a, EmptyString).
Proof.
  induction a as [|c a IH]; [done|]. simpl all_chars. rewrite andb_true_iff. intros [Hc Ha].
  cbn [split_dot]. destruct (digit_not_special c Hc) as (_ & _ & _ & ->). by rewrite IH.
Qed.
Lemma getline_token z r : getline (to_string z +:+ "." +:+ r) = Some (to_string z, r).
Proof.
  unfold getline. pose proof (split_dot_token (to_string z) r (to_string_digits z)) as H.
  destruct (to_string z +:+ "." +:+ r) eqn:E; [|by rewrite H].
  pose proof (to_string_nonempty z). by destruct (to_string z).
Qed.
Lemma getline_last z : getline (to_string z) = Some (to_string z, EmptyString).
Proof.
  unfold getline. pose proof (split_dot_last _ (to_string_digits z)) as H.
  pose proof (to_string_nonempty z). by destruct (to_string z); [|rewrite H].
Qed.

Lemma erase_rc_none s : all_chars not_dash s = true → erase_rc s = None.
Proof.
  induction s as [|c s IH]; [done|]. simpl all_chars. rewrite andb_true_iff. intros [Hc Hs].
  specialize (IH Hs). unfold not_dash in Hc.
  destruct c as [b0 b1 b2 b3 b4 b5 b6 b7].
  destruct b0, b1, b2, b3, b4, b5, b6, b7; cbn [erase_rc]; rewrite ?IH; try reflexivity; discriminate.
Qed.
Lemma erase_rc_found a t :
  all_chars not_dash a = true → erase_rc (a +:+ "-rc." +:+ t) = Some (a +:+ "." +:+ t).
Proof.
  induction a as [|c a IH]; [done|]. simpl all_chars. rewrite andb_true_iff. intros [Hc Ha].
  specialize (IH Ha). change (String c a +:+ ?s) with (String c (a +:+ s)). unfold not_dash in Hc.
  destruct c as [b0 b1 b2 b3 b4 b5 b6 b7].
  destruct b0, b1, b2, b3, b4, b5, b6, b7; cbn [erase_rc]; rewrite ?IH; try reflexivity; discriminate.
Qed.
Lemma to_string_not_dash z : all_chars not_dash (to_string z) = true.
Proof.
  eapply all_chars_impl; [|apply to_string_digits]. intros c Hc.
  unfold not_dash. by destruct (digit_not_special c Hc) as (_ & -> & _).
Qed.

(** ** Properties *)

(** Parsing the printed form of a version gives the version back, for every
    version of uint64_t components, with or without a release candidate. *)
Lemma parse_str_round_trip v : semver_wf v → parse (str v) = Ok v.
Proof.
  destruct v as [a b c p]. intros (Ha & Hb & Hc & Hp). simpl in *. unfold str, parse. simpl.
  set (base := to_string a +:+ "." +:+ to_string b +:+ "." +:+ to_string c).
  assert (all_chars not_dash base = true) as Hbase.
  { unfold base. by rewrite !all_chars_app, !to_string_not_dash. }
  destruct (Z.eqb_spec p 0) as [->|Hne].
  - rewrite erase_rc_none by done. rewrite bool_decide_eq_false_2 by (by intros []).
    unfold default, base. simpl. rewrite getline_token, stoull_to_string by done. cbn [mbind result_bind].
    rewrite getline_token, stoull_to_string by done. cbn [mbind result_bind].
    by rewrite getline_last, stoull_to_string.
  - rewrite erase_rc_found by done. rewrite bool_decide_eq_true_2 by done.
    unfold default, base. simpl. rewrite <- !string_app_assoc.
    rewrite getline_token, stoull_to_string by done. cbn [mbind result_bind].
    rewrite getline_token, stoull_to_string by done. cbn [mbind result_bind].
    rewrite getline_token, stoull_to_string by done. cbn [mbind result_bind].
    by rewrite getline_last, stoull_to_string.
Qed.
Lemma parse_str_round_trip_witness : parse (str (MkSemVer 80 10 0 3)) = Ok (MkSemVer 80 10 0 3).
Proof. apply parse_str_round_trip. by repeat split. Defined.

(** Lexicographic comparison of lists of the same length. *)
Lemma lex_trichotomy a b :
  length a = length b → lex_ltb a b = true ∨ a = b ∨ lex_ltb b a = true.
Proof.
  revert b. induction a as [|x a IH]; intros [|y b] Hl; try done; [by right; left|].
  simpl. destruct (Z.lt_trichotomy x y) as [?|[->|?]].
  - left. rewrite (proj2 (Z.ltb_lt x y)); done.
  - rewrite Z.ltb_irrefl, Z.eqb_refl. simpl. destruct (IH b) as [?|[->|?]]; auto.
  - right; right. rewrite (proj2 (Z.ltb_lt y x)); done.
Qed.
Lemma lex_irrefl a : lex_ltb a a = false.
Proof. induction a as [|x a IH]; simpl; [done|]. by rewrite Z.ltb_irrefl, IH, andb_false_r. Qed.
Lemma lex_trans a b c : lex_ltb a b = true → lex_ltb b c = true → lex_ltb a c = true.
Proof.
  revert b c. induction a as [|x a IH]; intros [|y b] [|z c]; simpl; try done.
  rewrite !orb_true_iff, !andb_true_iff, !Z.ltb_lt, !Z.eqb_eq.
  intros [?|[-> ?]] [?|[-> ?]]; [left; lia|left; lia|left; lia|right; eauto].
Qed.

(** A release candidate number that fits the comparison's scale. *)
Definition rc_in_range (v : SemVer) : Prop := 0 ≤ pre_release v < 256.

(** C31: [operator<] of SemVer is a strict total order that agrees with
    [operator==] on versions whose release candidate number is below 256, and
    a release candidate precedes the release it announces. *)
Lemma semver_strict_total_order v w u :
  rc_in_range v → rc_in_range w →
  semver_ltb v v = false ∧
  (semver_ltb v w = true → semver_ltb w u = true → semver_ltb v u = true) ∧
  (semver_ltb v w = true ∨ semver_eqb v w = true ∨ semver_ltb w v = true) ∧
  (semver_eqb v w = true ↔ v = w) ∧
  (0 < pre_release v → semver_ltb v (MkSemVer (major v) (minor v) (patch v) 0) = true).
Proof.
  intros Hv Hw. unfold rc_in_range in *. split; [apply lex_irrefl|]. split; [apply lex_trans|].
  assert (semver_eqb v w = true ↔ v = w) as Heq.
  { destruct v, w. unfold semver_eqb. simpl. rewrite !andb_true_iff, !Z.eqb_eq. split.
    - by intros [[[-> ->] ->] ->].
    - by intros [= -> -> -> ->]. }
  split; [|split; [done|]].
  - rewrite Heq. destruct (lex_trichotomy (order_key v) (order_key w) eq_refl) as [?|[E|?]]; auto.
    right; left. destruct v as [a b c p], w as [a' b' c' p']. unfold order_key in E. simpl in *.
    injection E as -> -> -> Ep. f_equal.
    destruct (Z.eqb_spec p 0), (Z.eqb_spec p' 0); lia.
  - intros Hp. destruct v as [a b c p]. unfold semver_ltb, order_key. simpl in *.
    rewrite !Z.ltb_irrefl, !Z.eqb_refl. simpl. rewrite (proj2 (Z.eqb_neq p 0)) by lia.
    by rewrite (proj2 (Z.ltb_lt p 256)) by lia.
Qed.
Lemma semver_strict_total_order_witness :
  semver_ltb (MkSemVer 1 2 3 1) (MkSemVer 1 2 3 0) = true.
Proof.
  apply (semver_strict_total_order (MkSemVer 1 2 3 1) (MkSemVer 1 2 3 0) (MkSemVer 0 0 0 0));
    unfold rc_in_range; simpl; lia.
Defined.

(** From 256 on a release candidate no longer precedes its release. *)
Lemma large_rc_not_before_release :
  semver_ltb (MkSemVer 1 0 0 300) (MkSemVer 1 0 0 0) = false ∧
  semver_ltb (MkSemVer 1 0 0 0) (MkSemVer 1 0 0 300) = true.
Proof. by split. Qed.

(** The three compared components, legacy majors as 0. *)
Definition bundle_key (v : SemVer) : list Z :=
  [if 80 <=? major v then 0 else major v; minor v; patch v].
Lemma bundle_ltb_key v w :
  semver_ltb (normalize_bundle v) (normalize_bundle w) = lex_ltb (bundle_key v) (bundle_key w).
Proof.
  unfold semver_ltb, normalize_bundle, order_key, bundle_key.
  by destruct (80 <=? major v), (80 <=? major w).
Qed.

(** C32: [compare_firmware_bundle] is a three-way comparison: it is a total
    preorder (-1, 0 and 1 are exclusive, antisymmetric and transitive), equal
    exactly when the normalised components are, and a bundle of a legacy major
    precedes every non-legacy one whose major is at least 1. *)
Lemma compare_firmware_bundle_total v w u :
  (compare_firmware_bundle v w = -1 ∨ compare_firmware_bundle v w = 0 ∨ compare_firmware_bundle v w = 1) ∧
  compare_firmware_bundle w v = - compare_firmware_bundle v w ∧
  (compare_firmware_bundle v w = 0 ↔ bundle_key v = bundle_key w) ∧
  (compare_firmware_bundle v w = -1 → compare_firmware_bundle w u = -1 → compare_firmware_bundle v u = -1) ∧
  (80 ≤ major v → 1 ≤ major w < 80 → compare_firmware_bundle v w = -1).
Proof.
  unfold compare_firmware_bundle. rewrite !bundle_ltb_key.
  pose proof (lex_trichotomy (bundle_key v) (bundle_key w) eq_refl) as Htri.
  pose proof (lex_irrefl (bundle_key v)) as Hv. pose proof (lex_irrefl (bundle_key w)) as Hw.
  pose proof (lex_trans (bundle_key v) (bundle_key w) (bundle_key v)) as Hvwv.
  split; [by destruct (lex_ltb (bundle_key v) (bundle_key w)), (lex_ltb (bundle_key w) (bundle_key v)); auto|].
  split; [|split; [|split]].
  - destruct (lex_ltb (bundle_key v) (bundle_key w)) eqn:E1, (lex_ltb (bundle_key w) (bundle_key v)) eqn:E2;
      try done. by rewrite Hv in Hvwv; discriminate Hvwv.
  - split.
    + destruct Htri as [->|[?|H2]]; [done|done|]. rewrite H2.
      by destruct (lex_ltb (bundle_key v) (bundle_key w)).
    + intros ->. by rewrite lex_irrefl.
  - destruct (lex_ltb (bundle_key v) (bundle_key w)) eqn:E1;
      [|by destruct (lex_ltb (bundle_key w) (bundle_key v))].
    destruct (lex_ltb (bundle_key w) (bundle_key u)) eqn:E2;
      [|by destruct (lex_ltb (bundle_key u) (bundle_key w))].
    by rewrite (lex_trans _ _ _ E1 E2).
  - intros H80 H1. unfold bundle_key. rewrite (proj2 (Z.leb_le 80 (major v))) by lia.
    rewrite (proj2 (Z.leb_gt 80 (major w))) by lia. simpl. by rewrite (proj2 (Z.ltb_lt 0 (major w))) by lia.
Qed.

(** The comment promises legacy bundles to be smaller than any non-legacy one;
    against major 0 they need not be. *)
Lemma legacy_not_below_major_0 :
  compare_firmware_bundle (MkSemVer 80 5 0 0) (MkSemVer 0 1 0 0) = 1.
Proof. reflexivity. Qed.

(** Equal bundles need not have equal hashes: [operator==] ignores the release
    candidate, the hash does not. *)
Lemma bundle_equal_hash_differs :
  bundle_eqb (MkSemVer 19 4 0 0) (MkSemVer 19 4 0 1) = true ∧
  semver_hash id (MkSemVer 19 4 0 0) ≠ semver_hash id (MkSemVer 19 4 0 1).
Proof. by split. Qed.

(** The firmware tags are packed fields: the components of an ETH or bundle
    tag stay in their ranges and the tag is their concatenation, so reading a
    tag loses nothing. *)
Lemma firmware_tag_fields tag :
  0 ≤ tag < 2 ^ 32 →
  (let v := from_firmware_bundle_tag tag in
   tag = major v * 2 ^ 24 + minor v * 2 ^ 16 + patch v * 2 ^ 8 + pre_release v ∧ semver_wf v) ∧
  (let v := from_blackhole_eth_firmware_tag tag in
   tag = major v * 2 ^ 16 + minor v * 2 ^ 8 + patch v ∧ semver_wf v) ∧
  (let v := from_wormhole_eth_firmware_tag tag in
   tag `mod` 2 ^ 24 = major v * 2 ^ 16 + minor v * 2 ^ 12 + patch v ∧ semver_wf v).
Proof.
  intros Ht. unfold from_firmware_bundle_tag, from_blackhole_eth_firmware_tag, from_wormhole_eth_firmware_tag.
  change 0xFF with (Z.ones 8). change 0xF with (Z.ones 4). change 0xFFF with (Z.ones 12).
  change 0xFFFF with (Z.ones 16). rewrite !Z.land_ones, !Z.shiftr_div_pow2 by lia.
  unfold semver_wf. cbn [major minor patch pre_release].
  change (2 ^ 24) with 16777216. change (2 ^ 16) with 65536. change (2 ^ 8) with 256.
  change (2 ^ 12) with 4096. change (2 ^ 4) with 16. change (2 ^ 64) with 18446744073709551616.
  change (2 ^ 32) with 4294967296 in Ht.
  Z.to_euclidean_division_equations. lia.
Qed.
Lemma firmware_tag_fields_witness :
  0x13040001 `mod` 2 ^ 24 = (let v := from_wormhole_eth_firmware_tag 0x13040001 in
    major v * 2 ^ 16 + minor v * 2 ^ 12 + patch v).
Proof. apply (firmware_tag_fields 0x13040001). lia. Defined.
