(* ===== verification/DisjointSet.v ===== *)
(** * DisjointSet

    [common/disjoint_set.hpp], the union-find structure that groups chips into
    connected components. Items are ints; [parent] is an unordered_map whose
    operator[] inserts 0 for a key that is not there. *)

From Stdlib Require Import ZArith Lia Relations.
From stdpp Require Import base gmap list numbers.
From S2P Require Import Prelude.

Local Open Scope Z_scope.

Abbreviation Parent := (gmap Z Z).

(** [parent[item]]. *)
Definition parent_at (item : Z) (parent : Parent) : Z * Parent :=
  match parent !! item with
  | Some p => (p, parent)
  | None => (0, <[item := 0]> parent)
  end.

Definition add_item (item : Z) (parent : Parent) : Parent := <[item := item]> parent.

(** [while (parent[item] != item) item = parent[item];] - [None] when the fuel
    runs out; parents never exceed their items, so an item's own value is
    enough (lemma [get_set_root]). *)
Fixpoint get_set_loop (fuel : nat) (item : Z) (parent : Parent) : option (Z * Parent) :=
  match fuel with
  | O => None
  | S fuel =>
      let '(p, parent) := parent_at item parent in
      if p =? item then Some (item, parent)
      else let '(item', parent) := parent_at item parent in get_set_loop fuel item' parent
  end.
Definition get_set (item : Z) (parent : Parent) : option (Z * Parent) :=
  get_set_loop (S (S (Z.to_nat item))) item parent.

Definition merge (item1 item2 : Z) (parent : Parent) : option Parent :=
  '(set1, parent) ← get_set item1 parent;
  '(set2, parent) ← get_set item2 parent;
  Some (<[set1 := Z.min set1 set2]> (<[set2 := Z.min set1 set2]> parent)).

Definition are_same_set (item1 item2 : Z) (parent : Parent) : option (bool * Parent) :=
  '(set1, parent) ← get_set item1 parent;
  '(set2, parent) ← get_set item2 parent;
  Some (set1 =? set2, parent).

(** [get_num_sets]: the number of distinct results of [get_set] over the keys. *)
Definition get_num_sets (parent : Parent) : option nat :=
  sets ← foldr (λ item acc, sets ← acc; '(s, _) ← get_set item parent; Some ({[s]} ∪ sets))
           (Some (∅ : gset Z)) (elements (dom parent));
  Some (size sets).

(** ** Invariant and roots *)

(** Parents are items, and never larger than their children. *)
Definition dsu_ok (parent : Parent) : Prop :=
  ∀ k v, parent !! k = Some v → 0 ≤ v ≤ k ∧ is_Some (parent !! v).

Inductive root_of (parent : Parent) : Z → Z → Prop :=
  | root_self x : parent !! x = Some x → root_of parent x x
  | root_step x y r : parent !! x = Some y → y ≠ x → root_of parent y r → root_of parent x r.

Definition same_set (parent : Parent) (x y : Z) : Prop :=
  ∃ r, root_of parent x r ∧ root_of parent y r.

Lemma root_of_functional parent x r r' : root_of parent x r → root_of parent x r' → r = r'.
Proof.
  intros Hr. revert r'. induction Hr as [x Hx|x y r Hx Hne Hr IH]; intros r' Hr'.
  - inversion Hr'; [done|congruence].
  - inversion Hr' as [|? y' ? Hx' Hne' Hy']; simplify_eq. by apply IH.
Qed.
Lemma root_of_fixed parent x r : root_of parent x r → parent !! r = Some r.
Proof. by induction 1. Qed.
Lemma root_of_root parent x r : root_of parent x r → root_of parent r r.
Proof. intros. apply root_self. by eapply root_of_fixed. Qed.
Lemma root_of_le parent x r : dsu_ok parent → root_of parent x r → 0 ≤ r ≤ x.
Proof.
  intros Hok. induction 1 as [x Hx|x y r Hx Hne Hr IH].
  - apply Hok in Hx as [? _]. lia.
  - apply Hok in Hx as [? _]. lia.
Qed.
Lemma root_of_dom parent x r : root_of parent x r → is_Some (parent !! x).
Proof. by inversion 1. Qed.

(** The loop reaches the root, without touching the map. *)
Lemma get_set_loop_root parent fuel x :
  dsu_ok parent → is_Some (parent !! x) → (Z.to_nat x < fuel)%nat →
  ∃ r, get_set_loop fuel x parent = Some (r, parent) ∧ root_of parent x r.
Proof.
  intros Hok. revert x. induction fuel as [|fuel IH]; intros x [p Hp] Hf; [lia|].
  cbn [get_set_loop]. unfold parent_at at 1. rewrite Hp.
  destruct (Z.eqb_spec p x) as [->|Hne].
  - exists x. split; [done|by apply root_self].
  - unfold parent_at. rewrite Hp. destruct (Hok _ _ Hp) as [Hb Hs].
    destruct (IH p Hs ltac:(lia)) as (r & Hr & Hroot).
    exists r. split; [done|by eapply root_step].
Qed.

Lemma get_set_root parent x :
  dsu_ok parent → is_Some (parent !! x) →
  ∃ r, get_set x parent = Some (r, parent) ∧ root_of parent x r.
Proof. intros Hok Hx. apply get_set_loop_root; [done|done|lia]. Qed.

Lemma get_set_spec parent x r :
  dsu_ok parent → is_Some (parent !! x) → root_of parent x r → get_set x parent = Some (r, parent).
Proof.
  intros Hok Hx Hr. destruct (get_set_root parent x Hok Hx) as (r' & Hg & Hr').
  by rewrite (root_of_functional _ _ _ _ Hr Hr').
Qed.

(** ** add_item *)

Lemma add_item_ok parent x : 0 ≤ x → dsu_ok parent → dsu_ok (add_item x parent).
Proof.
  unfold add_item. intros Hx Hok k v Hk. apply lookup_insert_Some in Hk as [[<- <-]|[Hne Hk]].
  - split; [lia|]. apply lookup_insert_is_Some'. by left.
  - destruct (Hok _ _ Hk) as [? Hs]. split; [done|]. apply lookup_insert_is_Some'. by right.
Qed.

(** ** merge *)

Section merge.
Context (parent : Parent) (Hok : dsu_ok parent) (a b r1 r2 : Z).
Context (Ha : root_of parent a r1) (Hb : root_of parent b r2).
Definition merged : Parent := <[r1 := Z.min r1 r2]> (<[r2 := Z.min r1 r2]> parent).

Lemma merge_eq : merge a b parent = Some merged.
Proof.
  unfold merge. rewrite (get_set_spec _ a r1 Hok (root_of_dom _ _ _ Ha) Ha); simpl.
  by rewrite (get_set_spec _ b r2 Hok (root_of_dom _ _ _ Hb) Hb).
Qed.

Lemma merged_lookup k :
  merged !! k = if decide (k = r1 ∨ k = r2) then Some (Z.min r1 r2) else parent !! k.
Proof.
  unfold merged. rewrite !lookup_insert.
  repeat case_decide; try done; exfalso; lia.
Qed.

Lemma merged_dom k : is_Some (parent !! k) ↔ is_Some (merged !! k).
Proof.
  rewrite merged_lookup. destruct (decide (k = r1 ∨ k = r2)) as [Hk|]; [|done].
  split; [by eexists|]. intros _. destruct Hk as [-> | ->].
  - by rewrite (root_of_fixed _ _ _ Ha).
  - by rewrite (root_of_fixed _ _ _ Hb).
Qed.

Lemma merged_ok : dsu_ok merged.
Proof.
  pose proof (root_of_le _ _ _ Hok (root_of_root _ _ _ Ha)) as H1.
  pose proof (root_of_le _ _ _ Hok (root_of_root _ _ _ Hb)) as H2.
  intros k v. rewrite merged_lookup. destruct (decide (k = r1 ∨ k = r2)) as [Hk|Hk].
  - intros [= <-]. split; [lia|]. apply merged_dom.
    destruct (Z.min_spec r1 r2) as [[_ ->]|[_ ->]];
      [by rewrite (root_of_fixed _ _ _ Ha)|by rewrite (root_of_fixed _ _ _ Hb)].
  - intros Hv. destruct (Hok _ _ Hv) as [? Hs]. split; [done|]. by apply merged_dom.
Qed.

(** The new root: the two merged roots become their minimum, others stay. *)
Definition new_root (r : Z) : Z := if decide (r = r1 ∨ r = r2) then Z.min r1 r2 else r.

Lemma merged_min_root : root_of merged (Z.min r1 r2) (Z.min r1 r2).
Proof.
  apply root_self. rewrite merged_lookup.
  destruct (decide (Z.min r1 r2 = r1 ∨ Z.min r1 r2 = r2)) as [|Hn]; [done|]. lia.
Qed.

Lemma merged_root x r : root_of parent x r → root_of merged x (new_root r).
Proof.
  induction 1 as [x Hx|x y r Hx Hne Hr IH]; unfold new_root in *.
  - destruct (decide (x = r1 ∨ x = r2)) as [Hx'|Hx'].
    + destruct (decide (x = Z.min r1 r2)) as [->|Hxm]; [by apply merged_min_root|].
      eapply root_step; [|by apply not_eq_sym|apply merged_min_root].
      rewrite merged_lookup. by rewrite decide_True.
    + apply root_self. rewrite merged_lookup. by rewrite decide_False.
  - eapply root_step; [|exact Hne|exact IH]. rewrite merged_lookup, decide_False; [done|].
    intros [-> | ->].
    + rewrite (root_of_fixed _ _ _ Ha) in Hx. congruence.
    + rewrite (root_of_fixed _ _ _ Hb) in Hx. congruence.
Qed.

Lemma merged_root_inv x r' : root_of merged x r' → ∃ r, root_of parent x r ∧ r' = new_root r.
Proof.
  intros Hr'. assert (is_Some (parent !! x)) as Hs by (by eapply merged_dom, root_of_dom).
  destruct (get_set_root parent x Hok Hs) as (r & _ & Hr). exists r. split; [done|].
  eapply root_of_functional; [done|by apply merged_root].
Qed.

Lemma new_root_eq r r' :
  new_root r = new_root r' ↔ r = r' ∨ (r = r1 ∧ r' = r2) ∨ (r = r2 ∧ r' = r1).
Proof.
  unfold new_root. repeat case_decide; lia.
Qed.
End merge.

Lemma same_set_root parent x y r : root_of parent x r → same_set parent x y ↔ root_of parent y r.
Proof.
  intros Hx. split; [|by exists r]. intros (r' & Hx' & Hy).
  by rewrite (root_of_functional _ _ _ _ Hx Hx').
Qed.

(** [merge] relates exactly what was related before or linked by the pair. *)
Lemma same_set_merged parent a b r1 r2 x y :
  dsu_ok parent → root_of parent a r1 → root_of parent b r2 →
  same_set (merged parent r1 r2) x y ↔
    same_set parent x y ∨ (same_set parent x a ∧ same_set parent y b)
    ∨ (same_set parent x b ∧ same_set parent y a).
Proof.
  intros Hok Ha Hb. split.
  - intros (r' & Hx & Hy).
    apply (merged_root_inv _ Hok a b _ _ Ha Hb) in Hx as (rx & Hx & ->).
    apply (merged_root_inv _ Hok a b _ _ Ha Hb) in Hy as (ry & Hy & He).
    apply new_root_eq in He as [->|[[-> ->]|[-> ->]]]; unfold same_set; eauto 10.
  - intros H.
    assert (∃ rx ry, root_of parent x rx ∧ root_of parent y ry ∧
              (rx = ry ∨ (rx = r1 ∧ ry = r2) ∨ (rx = r2 ∧ ry = r1))) as (rx & ry & Hx & Hy & He).
    { destruct H as [(r & ? & ?)|[[(r & ? & Hr) (r' & ? & Hr')]|[(r & ? & Hr) (r' & ? & Hr')]]].
      - eauto 10.
      - rewrite (root_of_functional _ _ _ _ Ha Hr), (root_of_functional _ _ _ _ Hb Hr'). eauto 10.
      - rewrite (root_of_functional _ _ _ _ Hb Hr), (root_of_functional _ _ _ _ Ha Hr'). eauto 10. }
    apply new_root_eq in He. exists (new_root r1 r2 rx). split; [by eapply merged_root|].
    rewrite He. by eapply merged_root.
Qed.

Lemma same_set_refl parent x : dsu_ok parent → is_Some (parent !! x) → same_set parent x x.
Proof. intros Hok Hx. destruct (get_set_root _ _ Hok Hx) as (r & _ & ?). by exists r. Qed.
Lemma same_set_sym parent x y : same_set parent x y → same_set parent y x.
Proof. intros (r & ? & ?). by exists r. Qed.
Lemma same_set_trans parent x y z : same_set parent x y → same_set parent y z → same_set parent x z.
Proof. intros (r & Hx & Hy) Hyz. exists r. split; [done|]. by apply (same_set_root _ y z r Hy). Qed.
Lemma same_set_dom parent x y : same_set parent x y → is_Some (parent !! x) ∧ is_Some (parent !! y).
Proof. intros (r & ? & ?). split; by eapply root_of_dom. Qed.

(** The root of a class is its smallest member. *)
Lemma root_of_min parent x y r : dsu_ok parent → root_of parent x r → same_set parent x y → r ≤ y.
Proof.
  intros Hok Hx Hxy. apply (same_set_root _ _ _ _ Hx) in Hxy. by eapply root_of_le in Hxy as [_ ?].
Qed.

(** ** A history of calls

    The cluster descriptor adds every chip, then merges the two ends of every
    connection; [build] is such a run. *)
Definition build (items : list Z) (links : list (Z * Z)) : option Parent :=
  foldl (λ parent '(x, y), parent ← parent; merge x y parent)
    (Some (foldl (λ parent item, add_item item parent) ∅ items)) links.

Definition linked (links : list (Z * Z)) (x y : Z) : Prop := (x, y) ∈ links.

Lemma add_items_lookup items parent k :
  foldl (λ parent item, add_item item parent) parent items !! k
  = if decide (k ∈ items) then Some k else parent !! k.
Proof.
  revert parent. induction items as [|x items IH]; intros parent; simpl; [done|].
  rewrite IH. unfold add_item. rewrite lookup_insert.
  destruct (decide (k ∈ items)), (decide (x = k)); rewrite ?decide_True by set_solver;
    rewrite ?decide_False by set_solver; congruence.
Qed.

Definition connected (links : list (Z * Z)) : Z → Z → Prop := clos_refl_sym_trans Z (linked links).

Lemma connected_mono links link x y : connected links x y → connected (links ++ [link]) x y.
Proof.
  induction 1; [apply rst_step; unfold linked in *; set_solver|apply rst_refl|by apply rst_sym|by eapply rst_trans].
Qed.

(** What a run establishes of the map it leaves. *)
Record partition (items : list Z) (links : list (Z * Z)) (parent : Parent) : Prop := {
  partition_ok : dsu_ok parent;
  partition_links : ∀ x y, linked links x y → x ∈ items ∧ y ∈ items;
  partition_dom : ∀ k, is_Some (parent !! k) ↔ k ∈ items;
  partition_same : ∀ x y, x ∈ items → y ∈ items → same_set parent x y ↔ connected links x y
}.

Lemma partition_items items :
  (∀ x, x ∈ items → 0 ≤ x) →
  partition items [] (foldl (λ parent item, add_item item parent) ∅ items).
Proof.
  intros Hpos. pose proof (add_items_lookup items ∅) as Hl. split.
  - intros k v Hk. rewrite Hl in Hk. case_decide as Hin; [|done]. injection Hk as <-.
    split; [by apply Hpos in Hin; lia|]. rewrite Hl, decide_True by done. by eexists.
  - intros x y H. by apply elem_of_nil in H.
  - intros k. rewrite Hl. case_decide; [naive_solver|]. split; [|done]. by intros [? ?].
  - intros x y Hx Hy.
    assert (∀ z, z ∈ items → root_of (foldl (λ parent item, add_item item parent) ∅ items) z z) as Hr.
    { intros z Hz. apply root_self. by rewrite Hl, decide_True. }
    rewrite (same_set_root _ _ _ _ (Hr x Hx)). split.
    + intros Hyx. rewrite (root_of_functional _ _ _ _ Hyx (Hr y Hy)). apply rst_refl.
    + intros Hc. enough (x = y) as -> by auto.
      clear Hx Hy. induction Hc as [? ? H| | |]; [by apply elem_of_nil in H|done|done|congruence].
Qed.

Lemma partition_merge items links parent a b :
  partition items links parent → a ∈ items → b ∈ items →
  ∃ parent', merge a b parent = Some parent' ∧ partition items (links ++ [(a, b)]) parent'.
Proof.
  intros [Hok Hlinks Hdom Hsame] Ha Hb.
  destruct (get_set_root parent a Hok) as (r1 & _ & Hr1); [by apply Hdom|].
  destruct (get_set_root parent b Hok) as (r2 & _ & Hr2); [by apply Hdom|].
  exists (merged parent r1 r2). split; [by apply merge_eq|].
  assert (∀ x y, same_set parent x y → connected (links ++ [(a, b)]) x y) as Hold.
  { intros x y Hxy. destruct (same_set_dom _ _ _ Hxy). apply connected_mono, Hsame; [by apply Hdom..|done]. }
  assert (connected (links ++ [(a, b)]) a b) as Hab by (apply rst_step; unfold linked; set_solver).
  split.
  - by apply (merged_ok _ Hok a b).
  - intros x y Hxy. unfold linked in Hxy. apply elem_of_app in Hxy as [Hxy|Hxy]; [by apply Hlinks|].
    by apply list_elem_of_singleton in Hxy as [= -> ->].
  - intros k. rewrite <-(merged_dom _ a b _ _ Hr1 Hr2 k). apply Hdom.
  - intros x y Hx Hy. rewrite (same_set_merged _ a b) by done. split.
    + intros [Hxy|[[Hxa Hyb]|[Hxb Hya]]]; [by apply Hold|..].
      * eapply rst_trans; [by apply Hold|]. eapply rst_trans; [done|]. by apply rst_sym, Hold.
      * eapply rst_trans; [by apply Hold|]. eapply rst_trans; [by apply rst_sym|]. by apply rst_sym, Hold.
    + rewrite <-(same_set_merged _ a b _ _ _ _ Hok Hr1 Hr2). intros Hc.
      assert (∀ u v, connected (links ++ [(a, b)]) u v →
                u = v ∨ same_set (merged parent r1 r2) u v) as Hall.
      { clear x y Hx Hy Hc. intros u v. induction 1 as [u v Huv|u|u v _ IH|u v w _ IH1 _ IH2].
        - right. apply (same_set_merged _ a b); [done..|]. unfold linked in Huv.
          apply elem_of_app in Huv as [Huv|Huv].
          + left. destruct (Hlinks _ _ Huv). apply Hsame; [done..|]. by apply rst_step.
          + apply list_elem_of_singleton in Huv as [= -> ->]. right; left.
            split; apply same_set_refl; try done; by apply Hdom.
        - by left.
        - destruct IH; [by left|right; by apply same_set_sym].
        - destruct IH1 as [->|]; destruct IH2 as [->|]; auto. right. by eapply same_set_trans. }
      destruct (Hall x y Hc) as [->|]; [|done].
      apply same_set_refl; [by apply (merged_ok _ Hok a b)|]. by apply (merged_dom _ a b), Hdom.
Qed.

Lemma build_partition items links :
  (∀ x, x ∈ items → 0 ≤ x) → (∀ x y, linked links x y → x ∈ items ∧ y ∈ items) →
  ∃ parent, build items links = Some parent ∧ partition items links parent.
Proof.
  intros Hpos. induction links as [|[a b] links IH] using rev_ind; intros Hlinks.
  - eexists. split; [done|]. by apply partition_items.
  - destruct IH as (parent & Hb & Hp).
    { intros x y Hxy. apply Hlinks. unfold linked in *. set_solver. }
    destruct (Hlinks a b) as [Ha Hb']; [unfold linked; set_solver|].
    destruct (partition_merge _ _ _ a b Hp Ha Hb') as (parent' & Hm & Hp').
    exists parent'. split; [|done]. unfold build in *. rewrite foldl_app, Hb. exact Hm.
Qed.

Section partition_queries.
Context (items : list Z) (links : list (Z * Z)) (parent : Parent) (Hp : partition items links parent).

(** [r] is the smallest item of the component of [x]. *)
Definition component_min (x r : Z) : Prop :=
  r ∈ items ∧ connected links x r ∧ ∀ y, y ∈ items → connected links x y → r ≤ y.

Lemma partition_root x : x ∈ items → ∃ r, get_set x parent = Some (r, parent) ∧ root_of parent x r.
Proof using Hp. intros Hx. apply get_set_root; [apply Hp|by apply (partition_dom _ _ _ Hp)]. Qed.

Lemma root_component_min x r : x ∈ items → root_of parent x r → component_min x r.
Proof using Hp.
  intros Hx Hr. assert (r ∈ items) as Hri.
  { apply (partition_dom _ _ _ Hp). exists r. by eapply root_of_fixed. }
  assert (same_set parent x r) as Hs by (exists r; split; [done|by eapply root_of_root]).
  split; [done|]. split; [by apply (partition_same _ _ _ Hp)|]. intros y Hy Hc.
  eapply root_of_min; [apply Hp|done|]. by apply (partition_same _ _ _ Hp).
Qed.

Lemma component_min_unique x r r' : component_min x r → component_min x r' → r = r'.
Proof using. intros (? & ? & Hr) (? & ? & Hr'). apply Z.le_antisymm; auto. Qed.

Lemma partition_are_same_set x y :
  x ∈ items → y ∈ items →
  ∃ b, are_same_set x y parent = Some (b, parent) ∧ (b = true ↔ connected links x y).
Proof using Hp.
  intros Hx Hy. destruct (partition_root x Hx) as (rx & Hgx & Hrx).
  destruct (partition_root y Hy) as (ry & Hgy & Hry).
  exists (rx =? ry). unfold are_same_set. rewrite Hgx; simpl. rewrite Hgy. split; [done|].
  rewrite Z.eqb_eq, <-(partition_same _ _ _ Hp) by done. rewrite (same_set_root _ _ _ _ Hrx).
  split; [by intros ->|]. intros. by eapply root_of_functional.
Qed.

(** The loop of [get_num_sets] over a list of items collects their roots. *)
Lemma collect_roots keys :
  (∀ x, x ∈ keys → x ∈ items) →
  ∃ sets : gset Z,
    foldr (λ item acc, sets ← acc; '(s, _) ← get_set item parent; Some ({[s]} ∪ sets))
      (Some ∅) keys = Some sets
    ∧ ∀ r, r ∈ sets ↔ ∃ x, x ∈ keys ∧ root_of parent x r.
Proof using Hp.
  induction keys as [|k keys IH]; intros Hk.
  - exists ∅. split; [done|]. set_solver.
  - destruct IH as (sets & Hs & Hin); [set_solver|].
    destruct (partition_root k) as (rk & Hgk & Hrk); [set_solver|].
    exists ({[rk]} ∪ sets). simpl. rewrite Hs; simpl. rewrite Hgk. split; [done|].
    intros r. rewrite elem_of_union, elem_of_singleton, Hin. split.
    + intros [->|(x & ? & ?)]; [exists k|exists x]; set_solver.
    + intros (x & [->|Hx]%elem_of_cons & Hr); [left; by eapply root_of_functional|eauto].
Qed.

Lemma partition_num_sets :
  ∃ roots : gset Z, get_num_sets parent = Some (size roots)
    ∧ ∀ r, r ∈ roots ↔ component_min r r.
Proof using Hp.
  destruct (collect_roots (elements (dom parent))) as (sets & Hs & Hin).
  { intros x Hx. apply (partition_dom _ _ _ Hp), elem_of_dom. set_solver. }
  exists sets. unfold get_num_sets. rewrite Hs. split; [done|]. intros r. rewrite Hin. split.
  - intros (x & Hx & Hr). apply root_component_min; [|by eapply root_of_root].
    apply (partition_dom _ _ _ Hp). exists r. by eapply root_of_fixed.
  - intros Hr. pose proof (proj1 Hr) as Hri. exists r. split.
    { apply elem_of_elements, elem_of_dom. by apply (partition_dom _ _ _ Hp). }
    destruct (partition_root r Hri) as (r' & _ & Hr'). 
    by rewrite (component_min_unique _ _ _ Hr (root_component_min r r' Hri Hr')) at 2.
Qed.
End partition_queries.

(** C37: after adding non-negative items and merging the two ends of every link
    between them, [are_same_set] answers exactly whether two items are connected
    by links (in either direction, through any number of links), [get_set]
    terminates with the smallest item of the component and neither call changes
    the structure. *)
Theorem disjoint_set_components items links :
  (∀ x, x ∈ items → 0 ≤ x) → (∀ x y, linked links x y → x ∈ items ∧ y ∈ items) →
  ∃ parent, build items links = Some parent ∧
    (∀ x y, x ∈ items → y ∈ items →
       ∃ b, are_same_set x y parent = Some (b, parent) ∧ (b = true ↔ connected links x y)) ∧
    ∀ x, x ∈ items → ∃ r, get_set x parent = Some (r, parent) ∧ component_min items links x r.
Proof.
  intros Hpos Hlinks. destruct (build_partition _ _ Hpos Hlinks) as (parent & Hb & Hp).
  exists parent. split; [done|]. split; [by apply partition_are_same_set|].
  intros x Hx. destruct (partition_root _ _ _ Hp x Hx) as (r & ? & Hr). exists r. split; [done|].
  by eapply root_component_min.
Qed.

Lemma disjoint_set_components_witness :
  ∃ parent, build [3; 1; 7; 5] [(7, 3); (5, 7)] = Some parent ∧
    (∀ x y, x ∈ [3; 1; 7; 5] → y ∈ [3; 1; 7; 5] →
       ∃ b, are_same_set x y parent = Some (b, parent) ∧ (b = true ↔ connected [(7, 3); (5, 7)] x y)) ∧
    ∀ x, x ∈ [3; 1; 7; 5] →
      ∃ r, get_set x parent = Some (r, parent) ∧ component_min [3; 1; 7; 5] [(7, 3); (5, 7)] x r.
Proof.
  apply (disjoint_set_components [3; 1; 7; 5] [(7, 3); (5, 7)]); unfold linked; set_solver by lia.
Defined.

(** C29: [get_num_sets] after such a run is the number of connected components,
    counted by the smallest item of each. *)
Lemma get_num_sets_counts_components items links :
  (∀ x, x ∈ items → 0 ≤ x) → (∀ x y, linked links x y → x ∈ items ∧ y ∈ items) →
  ∃ parent (roots : gset Z), build items links = Some parent ∧
    get_num_sets parent = Some (size roots) ∧ ∀ r, r ∈ roots ↔ component_min items links r r.
Proof.
  intros Hpos Hlinks. destruct (build_partition _ _ Hpos Hlinks) as (parent & Hb & Hp).
  destruct (partition_num_sets _ _ _ Hp) as (roots & ? & ?). by exists parent, roots.
Qed.

Lemma get_num_sets_counts_components_witness :
  ∃ parent (roots : gset Z), build [3; 1; 7; 5] [(7, 3); (5, 7)] = Some parent ∧
    get_num_sets parent = Some (size roots) ∧
    ∀ r, r ∈ roots ↔ component_min [3; 1; 7; 5] [(7, 3); (5, 7)] r r.
Proof.
  apply (get_num_sets_counts_components [3; 1; 7; 5] [(7, 3); (5, 7)]); unfold linked; set_solver by lia.
Defined.

(** An item that was never added is silently put into the component of item 0:
    [parent[item]] default-inserts 0. *)
Lemma get_set_missing_item parent x :
  0 < x → parent !! x = None → parent !! 0 = None →
  get_set x parent = Some (0, <[0 := 0]> (<[x := 0]> parent)).
Proof.
  intros Hx Hn H0. unfold get_set. cbn [get_set_loop]. unfold parent_at at 1. rewrite Hn.
  destruct (Z.eqb_spec 0 x); [lia|]. unfold parent_at. rewrite lookup_insert_eq. cbn [get_set_loop].
  unfold parent_at. rewrite lookup_insert_ne, H0 by lia. by rewrite Z.eqb_refl.
Qed.
