(* ===== verification/Tlb.v ===== *)
(** * Tlb

    [types/tlb.hpp], [types/tlb.cpp]: the configuration of a TLB window and its
    packing into the bits of a configuration register, and the register layouts
    of the three architectures ([arch/*_implementation.hpp]).

    A register layout gives the first bit of every field; a field ends where the
    next one starts. The registers are up to 128 bits, carried as two 64-bit
    words. [decode] is the reading of a register the layouts document. *)

From Stdlib Require Import ZArith Lia.
From stdpp Require Import base list numbers strings.
From S2P Require Import Prelude CoreTypes.

Local Open Scope Z_scope.

Record tlb_offsets := MkOffsets {
  o_local_offset : Z; o_x_end : Z; o_y_end : Z; o_x_start : Z; o_y_start : Z;
  o_noc_sel : Z; o_mcast : Z; o_ordering : Z; o_linked : Z; o_static_vc : Z; o_static_vc_end : Z
}.

Record tlb_data := MkTlbData {
  local_offset : Z; x_end : Z; y_end : Z; x_start : Z; y_start : Z;
  noc_sel : Z; mcast : Z; ordering : Z; linked : Z; static_vc : Z
}.

#[global] Instance tlb_data_eq_dec : EqDecision tlb_data.
Proof. solve_decision. Defined.

(** [tlb_data{}]. *)
Definition tlb_data_default : tlb_data := MkTlbData 0 0 0 0 0 0 0 0 0 0.
Definition Relaxed : Z := 0.
Definition Strict : Z := 1.
Definition Posted : Z := 2.

Definition set_local_offset (d : tlb_data) (v : Z) : tlb_data :=
  MkTlbData v (x_end d) (y_end d) (x_start d) (y_start d) (noc_sel d) (mcast d) (ordering d)
    (linked d) (static_vc d).

(** [value > ((1ULL << (hi - lo)) - 1)], the offsets being uint32_t. *)
Definition exceeds (value lo hi : Z) : result bool :=
  let width := u32 (hi - lo) in
  if width <? 64 then Ok (u64 (Z.shiftl 1 width) - 1 <? value) else Err UndefinedBehaviour.

Definition check (d : tlb_data) (o : tlb_offsets) : result bool :=
  b0 ← exceeds (local_offset d) (o_local_offset o) (o_x_end o);
  b1 ← exceeds (x_end d) (o_x_end o) (o_y_end o);
  b2 ← exceeds (y_end d) (o_y_end o) (o_x_start o);
  b3 ← exceeds (x_start d) (o_x_start o) (o_y_start o);
  b4 ← exceeds (y_start d) (o_y_start o) (o_noc_sel o);
  b5 ← exceeds (noc_sel d) (o_noc_sel o) (o_mcast o);
  b6 ← exceeds (mcast d) (o_mcast o) (o_ordering o);
  b7 ← exceeds (ordering d) (o_ordering o) (o_linked o);
  b8 ← exceeds (linked d) (o_linked o) (o_static_vc o);
  b9 ← exceeds (static_vc d) (o_static_vc o) (o_static_vc_end o);
  Ok (b0 || b1 || b2 || b3 || b4 || b5 || b6 || b7 || b8 || b9).

(** [pack_bits(lower, upper, value, offset_pos)]. *)
Definition pack_bits (value offset_pos : Z) (lu : Z * Z) : result (Z * Z) :=
  let '(lower, upper) := lu in
  if offset_pos <? 64 then
    let lower := Z.lor lower (u64 (Z.shiftl value offset_pos)) in
    Ok (lower, if offset_pos =? 0 then upper else Z.lor upper (Z.shiftr value (64 - offset_pos)))
  else if offset_pos - 64 <? 64
  then Ok (lower, Z.lor upper (u64 (Z.shiftl value (offset_pos - 64))))
  else Err UndefinedBehaviour.

Definition apply_offset (d : tlb_data) (o : tlb_offsets) : result (Z * Z) :=
  bad ← check d o;
  if (bad : bool) then throw "Invalid offsets for TLB index."
  else
    w ← pack_bits (local_offset d) (o_local_offset o) (0, 0);
    w ← pack_bits (x_end d) (o_x_end o) w;
    w ← pack_bits (y_end d) (o_y_end o) w;
    w ← pack_bits (x_start d) (o_x_start o) w;
    w ← pack_bits (y_start d) (o_y_start o) w;
    w ← pack_bits (noc_sel d) (o_noc_sel o) w;
    w ← pack_bits (mcast d) (o_mcast o) w;
    w ← pack_bits (ordering d) (o_ordering o) w;
    w ← pack_bits (linked d) (o_linked o) w;
    pack_bits (static_vc d) (o_static_vc o) w.

(** ** The register layouts *)

Module wormhole_tlb.
Definition TLB_1M_OFFSET : tlb_offsets := MkOffsets 0 16 22 28 34 40 41 42 44 45 46.
Definition TLB_2M_OFFSET : tlb_offsets := MkOffsets 0 15 21 27 33 39 40 41 43 44 45.
Definition TLB_16M_OFFSET : tlb_offsets := MkOffsets 0 12 18 24 30 36 37 38 40 41 42.
End wormhole_tlb.

Module blackhole_tlb.
Definition TLB_2M_OFFSET : tlb_offsets := MkOffsets 0 43 49 55 61 67 69 70 72 73 75.
Definition TLB_4G_OFFSET : tlb_offsets := MkOffsets 0 32 38 44 50 56 58 59 61 62 64.
End blackhole_tlb.

Module grendel_tlb.
Definition TLB_2M_OFFSET : tlb_offsets := MkOffsets 0 43 49 55 61 67 69 70 72 73 75.
Definition TLB_4G_OFFSET : tlb_offsets := MkOffsets 0 32 38 44 50 56 58 59 61 62 64.
End grendel_tlb.

Definition all_layouts : list tlb_offsets :=
  [wormhole_tlb.TLB_1M_OFFSET; wormhole_tlb.TLB_2M_OFFSET; wormhole_tlb.TLB_16M_OFFSET;
   blackhole_tlb.TLB_2M_OFFSET; blackhole_tlb.TLB_4G_OFFSET;
   grendel_tlb.TLB_2M_OFFSET; grendel_tlb.TLB_4G_OFFSET].

(** ** Specification: what a register holds *)

(** The bits [lo..hi) of a register. *)
Definition register_field (w lo hi : Z) : Z := Z.shiftr w lo `mod` 2 ^ (hi - lo).

Definition decode (o : tlb_offsets) (w : Z) : tlb_data :=
  MkTlbData (register_field w (o_local_offset o) (o_x_end o)) (register_field w (o_x_end o) (o_y_end o))
    (register_field w (o_y_end o) (o_x_start o)) (register_field w (o_x_start o) (o_y_start o))
    (register_field w (o_y_start o) (o_noc_sel o)) (register_field w (o_noc_sel o) (o_mcast o))
    (register_field w (o_mcast o) (o_ordering o)) (register_field w (o_ordering o) (o_linked o))
    (register_field w (o_linked o) (o_static_vc o)) (register_field w (o_static_vc o) (o_static_vc_end o)).

(** The bits a layout covers, and the values that fit them. *)
Definition field_bounds (o : tlb_offsets) : list (Z * Z) :=
  [(o_local_offset o, o_x_end o); (o_x_end o, o_y_end o); (o_y_end o, o_x_start o);
   (o_x_start o, o_y_start o); (o_y_start o, o_noc_sel o); (o_noc_sel o, o_mcast o);
   (o_mcast o, o_ordering o); (o_ordering o, o_linked o); (o_linked o, o_static_vc o);
   (o_static_vc o, o_static_vc_end o)].
Definition field_values (d : tlb_data) : list Z :=
  [local_offset d; x_end d; y_end d; x_start d; y_start d; noc_sel d; mcast d; ordering d;
   linked d; static_vc d].

Definition layout_wf (o : tlb_offsets) : Prop :=
  o_local_offset o = 0 ∧ Forall (λ '(lo, hi), 0 ≤ lo < hi ∧ hi - lo < 64 ∧ hi ≤ 128) (field_bounds o).

(** A C++ [tlb_data] has uint64_t fields. *)
Definition tlb_data_u64 (d : tlb_data) : Prop := Forall (λ v, 0 ≤ v < 2 ^ 64) (field_values d).

#[global] Instance tlb_data_u64_dec d : Decision (tlb_data_u64 d).
Proof. unfold tlb_data_u64. apply _. Defined.

Definition fits (d : tlb_data) (o : tlb_offsets) : Prop :=
  Forall2 (λ v '(lo, hi), 0 ≤ v < 2 ^ (hi - lo)) (field_values d) (field_bounds o).

#[global] Instance fits_dec d o : Decision (fits d o).
Proof. unfold fits. apply Forall2_dec. intros v [lo hi]. apply _. Defined.

Lemma all_layouts_wf : Forall layout_wf all_layouts.
Proof. repeat constructor; simpl; lia. Qed.

(** ** Packing *)

(** The value of the two register words. *)
Definition word_of (lu : Z * Z) : Z := lu.1 + 2 ^ 64 * lu.2.
Definition words_ok (lu : Z * Z) : Prop := 0 ≤ lu.1 < 2 ^ 64 ∧ 0 ≤ lu.2 < 2 ^ 64.

Lemma u64_shiftl v n : 0 ≤ n < 64 → u64 (Z.shiftl v n) = Z.shiftl (v `mod` 2 ^ (64 - n)) n.
Proof.
  intros Hn. unfold u64. rewrite !Z.shiftl_mul_pow2 by lia.
  rewrite <- Z.mul_mod_distr_r by (try apply Z.pow_nonzero; lia).
  by rewrite <- Z.pow_add_r by lia; replace (64 - n + n) with 64 by lia.
Qed.

(** One call of [pack_bits]: the value lands above the bits already there. *)
Lemma pack_bits_spec v pos lu :
  words_ok lu → word_of lu < 2 ^ pos → 0 ≤ pos < 128 → 0 ≤ v < 2 ^ 64 → v * 2 ^ pos < 2 ^ 128 →
  ∃ lu', pack_bits v pos lu = Ok lu' ∧ words_ok lu' ∧ word_of lu' = word_of lu + v * 2 ^ pos.
Proof.
  destruct lu as [lower upper]. unfold words_ok, word_of; cbn [fst snd].
  intros [Hl Hu] Hw Hp Hv Hvp. unfold pack_bits. destruct (Z.ltb_spec pos 64) as [Hlt|Hge].
  - assert (2 ^ pos <= 2 ^ 64) by (apply Z.pow_le_mono_r; lia).
    assert (upper = 0) as -> by nia. rewrite u64_shiftl, lor_above by lia.
    set (m := 2 ^ (64 - pos)). assert (m * 2 ^ pos = 2 ^ 64) as Hm.
    { unfold m. rewrite <- Z.pow_add_r by lia. f_equal. lia. }
    assert (0 < m) by (apply Z.pow_pos_nonneg; lia). assert (0 < 2 ^ pos) by (apply Z.pow_pos_nonneg; lia).
    pose proof (Z.mod_pos_bound v m ltac:(lia)) as Hmod. pose proof (Z.div_mod v m ltac:(lia)) as Hdm.
    assert ((if pos =? 0 then 0 else Z.lor 0 (Z.shiftr v (64 - pos))) = v `div` m) as ->.
    { destruct (Z.eqb_spec pos 0) as [->|]; [|by rewrite Z.lor_0_l, Z.shiftr_div_pow2 by lia].
      symmetry. apply Z.div_small. done. }
    assert (v `div` m < 2 ^ 64) by (apply Z.div_lt_upper_bound; nia).
    assert (0 ≤ v `div` m) by (apply Z.div_pos; lia).
    eexists. split; [done|]; cbn [fst snd]. split; [split; nia|]. nia.
  - rewrite (proj2 (Z.ltb_lt _ _)) by lia.
    assert (2 ^ pos = 2 ^ 64 * 2 ^ (pos - 64)) as Hsplit by (rewrite <- Z.pow_add_r by lia; f_equal; lia).
    assert (0 < 2 ^ (pos - 64)) by (apply Z.pow_pos_nonneg; lia).
    assert (u64 (Z.shiftl v (pos - 64)) = Z.shiftl v (pos - 64)) as ->.
    { unfold u64. rewrite Z.shiftl_mul_pow2 by lia. apply Z.mod_small. nia. }
    assert (upper < 2 ^ (pos - 64)) by (apply (Z.mul_lt_mono_pos_l (2 ^ 64)); lia).
    rewrite lor_above by lia. eexists. split; [done|]; cbn [fst snd].
    set (r := 2 ^ (128 - pos)). assert (2 ^ (pos - 64) * r = 2 ^ 64) as Hr.
    { unfold r. rewrite <- Z.pow_add_r by lia. f_equal. lia. }
    assert (v < r).
    { apply (Z.mul_lt_mono_pos_r (2 ^ pos)); [lia|]. unfold r. rewrite <- Z.pow_add_r by lia.
      by replace (128 - pos + pos) with 128 by lia. }
    split; [split; nia|]. rewrite Hsplit. ring.
Qed.

(** The fields of a register, one above the other. *)
Fixpoint packed (vs : list Z) (bounds : list (Z * Z)) : Z :=
  match vs, bounds with
  | v :: vs, (lo, hi) :: bounds => v * 2 ^ lo + packed vs bounds
  | _, _ => 0
  end.

(** Packing a list of fields in order. *)
Definition pack_all (vs : list Z) (bounds : list (Z * Z)) (lu : Z * Z) : result (Z * Z) :=
  for_each (zip vs bounds) (λ '(v, (lo, _)), pack_bits v lo) lu.

(** Fields one above the other, each starting where the previous one ends. *)
Fixpoint chained (start : Z) (bounds : list (Z * Z)) : Prop :=
  match bounds with
  | [] => True
  | (lo, hi) :: rest => lo = start ∧ 0 ≤ lo < hi ∧ hi - lo < 64 ∧ hi ≤ 128 ∧ chained hi rest
  end.

Lemma layout_chained o : layout_wf o → chained 0 (field_bounds o).
Proof.
  intros [H0 Hf]. unfold field_bounds in *. rewrite !Forall_cons in Hf. simpl in *.
  destruct_and! Hf. repeat split; lia.
Qed.

Definition values_fit (vs : list Z) (bounds : list (Z * Z)) : Prop :=
  Forall2 (λ v '(lo, hi), 0 ≤ v < 2 ^ (hi - lo)) vs bounds.

Lemma pack_all_spec bounds : ∀ vs start lu,
  chained start bounds → values_fit vs bounds → words_ok lu → word_of lu < 2 ^ start →
  ∃ lu', pack_all vs bounds lu = Ok lu' ∧ words_ok lu' ∧ word_of lu' = word_of lu + packed vs bounds.
Proof.
  induction bounds as [|[lo hi] bounds IH]; intros vs start lu Hc Hf Hok Hlt.
  - apply Forall2_nil_inv_r in Hf as ->. exists lu. split; [done|]. split; [done|]. simpl. lia.
  - apply Forall2_cons_inv_r in Hf as (v & vs' & Hv & Hf & ->).
    destruct Hc as (-> & Hlo & Hw & H128 & Hc).
    assert (2 ^ hi = 2 ^ (hi - start) * 2 ^ start) as Hhi.
    { rewrite <- Z.pow_add_r by lia. f_equal. lia. }
    assert (2 ^ hi ≤ 2 ^ 128) by (apply Z.pow_le_mono_r; lia).
    assert (2 ^ (hi - start) < 2 ^ 64) by (apply Z.pow_lt_mono_r; lia).
    assert (0 < 2 ^ start) by (apply Z.pow_pos_nonneg; lia).
    destruct (pack_bits_spec v start lu) as (lu1 & Hp & Hok1 & Hw1); [done|done|lia|lia|nia|].
    destruct (IH vs' hi lu1 Hc Hf Hok1) as (lu2 & Hp2 & Hok2 & Hw2); [rewrite Hw1; nia|].
    exists lu2. unfold pack_all in *. simpl. rewrite Hp; simpl. split; [done|]. split; [done|]. lia.
Qed.

Lemma packed_bounds bounds : ∀ vs start,
  chained start bounds → values_fit vs bounds →
  ∃ k, packed vs bounds = k * 2 ^ start ∧ 0 ≤ k.
Proof.
  induction bounds as [|[lo hi] bounds IH]; intros vs start Hc Hf.
  - apply Forall2_nil_inv_r in Hf as ->. exists 0. done.
  - apply Forall2_cons_inv_r in Hf as (v & vs' & Hv & Hf & ->).
    destruct Hc as (-> & Hlo & Hw & H128 & Hc). destruct (IH vs' hi Hc Hf) as (k & Hk & Hk0).
    exists (v + k * 2 ^ (hi - start)). simpl. rewrite Hk.
    replace (2 ^ hi) with (2 ^ (hi - start) * 2 ^ start) by (rewrite <- Z.pow_add_r by lia; f_equal; lia).
    split; [ring|]. assert (0 < 2 ^ (hi - start)) by (apply Z.pow_pos_nonneg; lia). nia.
Qed.

(** Every field of the packed value reads back. *)
Lemma packed_fields bounds : ∀ vs start w,
  chained start bounds → values_fit vs bounds → 0 ≤ w < 2 ^ start →
  map (λ '(lo, hi), register_field (w + packed vs bounds) lo hi) bounds = vs.
Proof.
  induction bounds as [|[lo hi] bounds IH]; intros vs start w Hc Hf Hw.
  - by apply Forall2_nil_inv_r in Hf as ->.
  - apply Forall2_cons_inv_r in Hf as (v & vs' & Hv & Hf & ->).
    destruct Hc as (-> & Hlo & Hwd & H128 & Hc). cbn [map packed].
    assert (2 ^ hi = 2 ^ (hi - start) * 2 ^ start) as Hhi.
    { rewrite <- Z.pow_add_r by lia. f_equal. lia. }
    assert (0 < 2 ^ start) by (apply Z.pow_pos_nonneg; lia). f_equal.
    + destruct (packed_bounds bounds vs' hi Hc Hf) as (k & -> & Hk).
      unfold register_field. rewrite Z.shiftr_div_pow2 by lia. rewrite Hhi.
      replace (w + (v * 2 ^ start + k * (2 ^ (hi - start) * 2 ^ start)))
        with (w + (v + k * 2 ^ (hi - start)) * 2 ^ start) by ring.
      rewrite Z.div_add, (Z.div_small w) by lia. rewrite Z.add_0_l, Z.mod_add by (apply Z.pow_nonzero; lia).
      by apply Z.mod_small.
    + rewrite Z.add_assoc. apply (IH vs' hi); [done..|]. rewrite Hhi. nia.
Qed.

Lemma packed_lt bounds e : ∀ vs start w,
  chained start bounds → values_fit vs bounds → 0 ≤ w < 2 ^ start → start ≤ e →
  Forall (λ '(_, hi), hi ≤ e) bounds → w + packed vs bounds < 2 ^ e.
Proof.
  induction bounds as [|[lo hi] bounds IH]; intros vs start w Hc Hf Hw Hs He.
  - apply Forall2_nil_inv_r in Hf as ->. simpl. rewrite Z.add_0_r.
    eapply Z.lt_le_trans; [apply Hw|]. apply Z.pow_le_mono_r; lia.
  - apply Forall2_cons_inv_r in Hf as (v & vs' & Hv & Hf & ->).
    destruct Hc as (-> & Hlo & Hwd & H128 & Hc). apply Forall_cons in He as [Hhe He]. cbn [packed].
    assert (2 ^ hi = 2 ^ (hi - start) * 2 ^ start) as Hhi.
    { rewrite <- Z.pow_add_r by lia. f_equal. lia. }
    assert (0 < 2 ^ start) by (apply Z.pow_pos_nonneg; lia).
    rewrite Z.add_assoc. apply (IH vs' hi); [done..| |done|done]. rewrite Hhi. nia.
Qed.

(** ** [check] and [apply_offset] *)

Lemma exceeds_spec v lo hi :
  0 ≤ lo < hi → hi - lo < 64 → exceeds v lo hi = Ok (2 ^ (hi - lo) - 1 <? v).
Proof.
  intros Hlo Hw. unfold exceeds. assert (u32 (hi - lo) = hi - lo) as -> by (apply Z.mod_small; lia).
  rewrite (proj2 (Z.ltb_lt _ _)) by lia. do 2 f_equal.
  unfold u64. rewrite Z.shiftl_1_l, Z.mod_small; [done|].
  split; [by apply Z.pow_nonneg|]. apply Z.pow_lt_mono_r; lia.
Qed.

Definition exceeds_any (vs : list Z) (bounds : list (Z * Z)) : bool :=
  existsb (λ '(v, (lo, hi)), 2 ^ (hi - lo) - 1 <? v) (zip vs bounds).

Lemma check_spec d o : layout_wf o → check d o = Ok (exceeds_any (field_values d) (field_bounds o)).
Proof.
  intros Hwf%layout_chained. unfold field_bounds in Hwf. cbn [chained] in Hwf. destruct_and! Hwf.
  unfold check. rewrite !exceeds_spec by lia. cbn [mbind result_bind].
  unfold exceeds_any, field_values, field_bounds. cbn [zip zip_with existsb].
  by rewrite orb_false_r, !orb_assoc.
Qed.

Lemma exceeds_any_false vs bounds :
  Forall (λ v, 0 ≤ v < 2 ^ 64) vs → length vs = length bounds →
  exceeds_any vs bounds = false ↔ values_fit vs bounds.
Proof.
  intros Hv. revert bounds. induction Hv as [|v vs Hv Hvs IH]; intros [|[lo hi] bounds] Hl;
    try discriminate Hl; unfold exceeds_any, values_fit in *; simpl.
  - split; [by constructor|done].
  - rewrite orb_false_iff, IH by (simpl in Hl; lia). rewrite Forall2_cons, Z.ltb_ge.
    split; intros [? ?]; (split; [lia|done]).
Qed.

Lemma apply_offset_pack d o :
  layout_wf o →
  apply_offset d o =
  if exceeds_any (field_values d) (field_bounds o) then throw "Invalid offsets for TLB index."
  else pack_all (field_values d) (field_bounds o) (0, 0).
Proof.
  intros Hwf. unfold apply_offset. rewrite check_spec by done. cbn [mbind result_bind].
  destruct (exceeds_any _ _); [done|].
  unfold pack_all, field_values, field_bounds. cbn [zip zip_with for_each].
  repeat (match goal with |- mbind ?f ?m = _ => destruct m; [cbn [mbind result_bind]|done] end).
  by destruct (pack_bits _ _ _).
Qed.

Lemma decode_fields o d w :
  map (λ '(lo, hi), register_field w lo hi) (field_bounds o) = field_values d → decode o w = d.
Proof.
  destruct d. unfold field_bounds, field_values, decode. cbn [map local_offset x_end y_end x_start y_start
    noc_sel mcast ordering linked static_vc].
  by intros [= -> -> -> -> -> -> -> -> -> ->].
Qed.

(** Packing succeeds exactly when every field fits, and then reads back. *)
Lemma apply_offset_fits d o :
  layout_wf o → fits d o →
  ∃ lu, apply_offset d o = Ok lu ∧ words_ok lu ∧ decode o (word_of lu) = d
        ∧ word_of lu < 2 ^ o_static_vc_end o.
Proof.
  intros Hwf Hfit. pose proof (layout_chained o Hwf) as Hc.
  assert (tlb_data_u64 d) as Hu.
  { unfold tlb_data_u64. unfold fits in Hfit. pose proof (layout_chained o Hwf) as Hc'.
    unfold field_values, field_bounds in *. cbn [chained] in Hc'. destruct_and! Hc'.
    rewrite !Forall2_cons in Hfit. destruct_and! Hfit. rewrite !Forall_cons, Forall_nil.
    assert (∀ w, w < 64 → 2 ^ w ≤ 2 ^ 64) as Hle by (intros; apply Z.pow_le_mono_r; lia).
    repeat split; try lia; eapply Z.lt_le_trans; try apply Hle; try lia; eauto. }
  rewrite apply_offset_pack by done. rewrite (proj2 (exceeds_any_false _ (field_bounds o) Hu eq_refl) Hfit).
  destruct (pack_all_spec (field_bounds o) (field_values d) 0 (0, 0) Hc Hfit) as (lu & Hp & Hok & Hw).
  { split; simpl; lia. } { done. }
  exists lu. split; [done|]. split; [done|]. rewrite Hw. change (word_of (0, 0)) with 0.
  split; [|apply (packed_lt (field_bounds o) (o_static_vc_end o) _ 0); [done|done|lia|..];
    unfold field_bounds in *; cbn [chained] in Hc; rewrite ?Forall_cons, ?Forall_nil; lia].
  pose proof (packed_fields (field_bounds o) (field_values d) 0 0 Hc Hfit ltac:(lia)) as Hf.
  by apply decode_fields.
Qed.

Lemma apply_offset_throws d o :
  layout_wf o → tlb_data_u64 d → ¬ fits d o →
  apply_offset d o = throw "Invalid offsets for TLB index.".
Proof.
  intros Hwf Hu Hn. rewrite apply_offset_pack by done.
  destruct (exceeds_any _ _) eqn:He; [done|]. by apply exceeds_any_false in He.
Qed.

(** For every register layout of the three architectures,
    [tlb_data::apply_offset] throws exactly when some field of the configuration
    does not fit its bits; otherwise the two words it returns are 64-bit words
    and the register they form reads back, field by field, as the
    configuration. *)
Lemma apply_offset_round_trip o d :
  o ∈ all_layouts → tlb_data_u64 d →
  if decide (fits d o)
  then ∃ lu, apply_offset d o = Ok lu ∧ words_ok lu ∧ decode o (word_of lu) = d
  else apply_offset d o = throw "Invalid offsets for TLB index.".
Proof.
  intros Ho Hu. assert (layout_wf o) as Hwf.
  { pose proof all_layouts_wf as Hall. rewrite list.Forall_forall in Hall. by apply Hall. }
  case_decide as Hfit; [|by apply apply_offset_throws].
  destruct (apply_offset_fits d o Hwf Hfit) as (lu & ? & ? & ? & _). by exists lu.
Qed.

Lemma apply_offset_round_trip_witness :
  let d := MkTlbData 5 18 17 0 0 1 0 Strict 0 1 in
  if decide (fits d wormhole_tlb.TLB_16M_OFFSET)
  then ∃ lu, apply_offset d wormhole_tlb.TLB_16M_OFFSET = Ok lu ∧ words_ok lu
             ∧ decode wormhole_tlb.TLB_16M_OFFSET (word_of lu) = d
  else apply_offset d wormhole_tlb.TLB_16M_OFFSET = throw "Invalid offsets for TLB index.".
Proof.
  intros d. apply (apply_offset_round_trip wormhole_tlb.TLB_16M_OFFSET d).
  - apply list_elem_of_In. simpl. tauto.
  - apply (bool_decide_unpack _). by vm_compute.
Defined.
