(* ===== verification/ArchTlbs.v ===== *)
(** * ArchTlbs

    [arch/architecture_tlbs.cpp]: the TLB windows of an architecture, grouped in
    size classes, and the configuration of the window with a given index; and
    the write of a window's configuration register, [PCIDevice::configure_tlb]
    ([pcie/pci_device.cpp]), into the configuration space, a map from byte
    addresses (multiples of 4) to 32-bit words. *)

From Stdlib Require Import ZArith Lia.
From stdpp Require Import base list numbers strings gmap.
From S2P Require Import Prelude CoreTypes Tlb.

Local Open Scope Z_scope.

Definition ONE_MB : Z := Z.shiftl 1 20.
Definition ONE_GB : Z := 1024 * ONE_MB.

Record TlbSizeClass := MkSizeClass {
  sc_size : Z; sc_count : Z; sc_base_index : Z; sc_bar_offset : Z; sc_in_bar4 : bool;
  sc_register_layout : tlb_offsets
}.

Record ArchitectureTlbs := MkArchTlbs {
  size_classes : list TlbSizeClass; cached_window_size : Z; use_static_vc : bool;
  static_cfg_addr : Z; cfg_reg_size_bytes : Z
}.

Record tlb_configuration := MkTlbConfiguration {
  tc_size : Z; tc_base : Z; tc_cfg_addr : Z; tc_index_offset : Z; tc_tlb_offset : Z; tc_offset : tlb_offsets
}.

(** [tlb_index < base_index || tlb_index >= base_index + count] is false. *)
Definition in_class (tlb_index : Z) (c : TlbSizeClass) : bool :=
  (sc_base_index c <=? tlb_index) && (tlb_index <? u32 (sc_base_index c + sc_count c)).

Fixpoint find_class (tlb_index : Z) (cs : list TlbSizeClass) : option TlbSizeClass :=
  match cs with
  | [] => None
  | c :: cs => if in_class tlb_index c then Some c else find_class tlb_index cs
  end.

Definition get_configuration (t : ArchitectureTlbs) (tlb_index : Z) : result tlb_configuration :=
  match find_class tlb_index (size_classes t) with
  | Some c =>
      let index_offset := tlb_index - sc_base_index c in
      Ok (MkTlbConfiguration (sc_size c) (sc_bar_offset c)
            (u64 (static_cfg_addr t + u64 (sc_base_index c * cfg_reg_size_bytes t)))
            index_offset
            (u64 (sc_bar_offset c + u64 (index_offset * sc_size c)))
            (sc_register_layout c))
  | None => throw ("No TLB window with index " +:+ to_string tlb_index +:+ ".")
  end.

(** ** The three architectures *)

Module wormhole_windows.
Definition STATIC_TLB_SIZE : Z := 1 * 1024 * 1024.
Definition STATIC_TLB_CFG_ADDR : Z := 0x1fc00000.
Definition TLB_CFG_REG_SIZE_BYTES : Z := 8.
Definition TLB_COUNT_1M : Z := 156.
Definition TLB_COUNT_2M : Z := 10.
Definition TLB_COUNT_16M : Z := 20.
Definition TLB_BASE_1M : Z := 0.
Definition TLB_BASE_2M : Z := TLB_COUNT_1M * Z.shiftl 1 20.
Definition TLB_BASE_16M : Z := TLB_BASE_2M + TLB_COUNT_2M * Z.shiftl 1 21.
Definition TLB_BASE_INDEX_1M : Z := 0.
Definition TLB_BASE_INDEX_2M : Z := TLB_COUNT_1M.
Definition TLB_BASE_INDEX_16M : Z := TLB_BASE_INDEX_2M + TLB_COUNT_2M.
Definition DYNAMIC_TLB_1M_BASE : Z := TLB_BASE_1M.
Definition DYNAMIC_TLB_2M_BASE : Z := TLB_BASE_2M.
Definition DYNAMIC_TLB_16M_BASE : Z := TLB_BASE_16M.

Definition wormhole_tlbs : ArchitectureTlbs :=
  MkArchTlbs
    [MkSizeClass ONE_MB TLB_COUNT_1M TLB_BASE_INDEX_1M DYNAMIC_TLB_1M_BASE false wormhole_tlb.TLB_1M_OFFSET;
     MkSizeClass (2 * ONE_MB) TLB_COUNT_2M TLB_BASE_INDEX_2M DYNAMIC_TLB_2M_BASE false wormhole_tlb.TLB_2M_OFFSET;
     MkSizeClass (16 * ONE_MB) TLB_COUNT_16M TLB_BASE_INDEX_16M DYNAMIC_TLB_16M_BASE false wormhole_tlb.TLB_16M_OFFSET]
    STATIC_TLB_SIZE true STATIC_TLB_CFG_ADDR TLB_CFG_REG_SIZE_BYTES.
End wormhole_windows.

Module blackhole_windows.
Definition STATIC_TLB_SIZE : Z := 2 * 1024 * 1024.
Definition STATIC_TLB_CFG_ADDR : Z := 0x1fc00000.
Definition TLB_COUNT_2M : Z := 202.
Definition TLB_BASE_2M : Z := 0.
Definition TLB_BASE_INDEX_2M : Z := 0.
Definition TLB_CFG_REG_SIZE_BYTES : Z := 12.
Definition TLB_COUNT_4G : Z := 8.
Definition TLB_BASE_4G : Z := 0.
Definition TLB_BASE_INDEX_4G : Z := TLB_COUNT_2M.
Definition DYNAMIC_TLB_4G_BASE : Z := TLB_BASE_4G.
Definition DYNAMIC_TLB_2M_BASE : Z := TLB_BASE_2M.

Definition blackhole_tlbs : ArchitectureTlbs :=
  MkArchTlbs
    [MkSizeClass (2 * ONE_MB) TLB_COUNT_2M TLB_BASE_INDEX_2M DYNAMIC_TLB_2M_BASE false blackhole_tlb.TLB_2M_OFFSET;
     MkSizeClass (4 * ONE_GB) TLB_COUNT_4G TLB_BASE_INDEX_4G DYNAMIC_TLB_4G_BASE true blackhole_tlb.TLB_4G_OFFSET]
    STATIC_TLB_SIZE false STATIC_TLB_CFG_ADDR TLB_CFG_REG_SIZE_BYTES.
End blackhole_windows.

Module grendel_windows.
Definition STATIC_TLB_SIZE : Z := 2 * 1024 * 1024.
Definition STATIC_TLB_CFG_ADDR : Z := 0x1fc00000.
Definition TLB_COUNT_2M : Z := 202.
Definition TLB_BASE_2M : Z := 0.
Definition TLB_BASE_INDEX_2M : Z := 0.
Definition TLB_CFG_REG_SIZE_BYTES : Z := 12.
Definition TLB_COUNT_4G : Z := 8.
Definition TLB_BASE_4G : Z := 0.
Definition TLB_BASE_INDEX_4G : Z := TLB_COUNT_2M.
Definition DYNAMIC_TLB_4G_BASE : Z := TLB_BASE_4G.
Definition DYNAMIC_TLB_2M_BASE : Z := TLB_BASE_2M.

Definition grendel_tlbs : ArchitectureTlbs :=
  MkArchTlbs
    [MkSizeClass (2 * ONE_MB) TLB_COUNT_2M TLB_BASE_INDEX_2M DYNAMIC_TLB_2M_BASE false grendel_tlb.TLB_2M_OFFSET;
     MkSizeClass (4 * ONE_GB) TLB_COUNT_4G TLB_BASE_INDEX_4G DYNAMIC_TLB_4G_BASE true grendel_tlb.TLB_4G_OFFSET]
    STATIC_TLB_SIZE true STATIC_TLB_CFG_ADDR TLB_CFG_REG_SIZE_BYTES.
End grendel_windows.

Definition get_architecture_tlbs (arch : ARCH) : result ArchitectureTlbs :=
  match arch with
  | WORMHOLE_B0 => Ok wormhole_windows.wormhole_tlbs
  | BLACKHOLE => Ok blackhole_windows.blackhole_tlbs
  | QUASAR => Ok grendel_windows.grendel_tlbs
  | Invalid => throw ("No TLB layout defined for " +:+ arch_to_str arch +:+ " architecture.")
  end.

(** ** configure_tlb *)

(** The configuration space: 32-bit words at byte addresses. *)
Abbreviation ConfigSpace := (gmap Z Z).

(** The three 32-bit words of a register value. *)
Definition config_words (lower_64 upper_64 : Z) : list Z :=
  [u32 lower_64; u32 (Z.shiftr lower_64 32); u32 upper_64].

(** [tlb_reg_ptr[i] = config_words[i]]. *)
Definition write_config_words (addr : Z) (words : list Z) (m : ConfigSpace) : ConfigSpace :=
  foldl (λ m '(i, w), <[addr + 4 * i := w]> m) m (zip (seqZ 0 (vec_size words)) words).

Definition num_config_words (arch : ARCH) : nat :=
  match arch with BLACKHOLE => 3 | _ => 2 end.

(** [configure_tlb(tlb_index, tlb_config, verify)]; the optional read-back poll
    is not modelled. *)
Definition configure_tlb (arch : ARCH) (tlb_index : Z) (tlb_config : tlb_data) (m : ConfigSpace)
  : result ConfigSpace :=
  tlbs ← get_architecture_tlbs arch;
  conf ← get_configuration tlbs tlb_index;
  '(lower_64, upper_64) ← apply_offset tlb_config (tc_offset conf);
  let tlb_register_addr := u64 (tlb_index * cfg_reg_size_bytes tlbs) in
  Ok (write_config_words tlb_register_addr (take (num_config_words arch) (config_words lower_64 upper_64)) m).

(** ** Window layout *)

(** The end of the index space: one past the last window of the last class. *)
Definition num_windows (t : ArchitectureTlbs) : Z :=
  foldr (λ c n, sc_count c + n) 0 (size_classes t).

(** A class follows another: indices and, within one BAR, offsets. *)
Definition class_before (a b : TlbSizeClass) : Prop :=
  sc_base_index a + sc_count a ≤ sc_base_index b
  ∧ (sc_in_bar4 a = sc_in_bar4 b → sc_bar_offset a + sc_count a * sc_size a ≤ sc_bar_offset b).

Definition class_wf (c : TlbSizeClass) : Prop :=
  0 < sc_count c ∧ 0 ≤ sc_base_index c ∧ sc_base_index c + sc_count c < 2 ^ 32
  ∧ 0 < sc_size c ∧ 0 ≤ sc_bar_offset c ∧ sc_bar_offset c `mod` sc_size c = 0
  ∧ sc_bar_offset c + sc_count c * sc_size c < 2 ^ 64 ∧ layout_wf (sc_register_layout c).

(** The classes of [cs] cover the indices from [start] on, without gaps. *)
Fixpoint covers_from (start : Z) (cs : list TlbSizeClass) : Prop :=
  match cs with
  | [] => True
  | c :: cs => sc_base_index c = start ∧ covers_from (start + sc_count c) cs
  end.

Definition tlbs_wf (t : ArchitectureTlbs) : Prop :=
  Forall class_wf (size_classes t) ∧ covers_from 0 (size_classes t)
  ∧ ForallOrdPairs class_before (size_classes t)
  ∧ cfg_reg_size_bytes t `mod` 4 = 0 ∧ 8 ≤ cfg_reg_size_bytes t ≤ 12.

Lemma get_architecture_tlbs_wf arch t : get_architecture_tlbs arch = Ok t → tlbs_wf t.
Proof.
  destruct arch; simpl; intros [= <-]; unfold tlbs_wf; cbn [size_classes cfg_reg_size_bytes];
    (split; [repeat (apply Forall_cons; split; [|]); [..|by constructor];
      unfold class_wf; cbn [sc_count sc_base_index sc_size sc_bar_offset sc_register_layout];
      repeat (split; [by vm_compute|]); repeat constructor; by vm_compute|]);
    (split; [by repeat split|]); (split; [|by vm_compute]);
    repeat constructor; unfold class_before; by vm_compute.
Qed.

Lemma in_class_spec i c : class_wf c → in_class i c = true ↔ sc_base_index c ≤ i < sc_base_index c + sc_count c.
Proof.
  intros Hc. unfold class_wf in Hc. unfold in_class.
  assert (u32 (sc_base_index c + sc_count c) = sc_base_index c + sc_count c) as ->
    by (apply Z.mod_small; lia). lia.
Qed.

Lemma find_class_Some i cs c : find_class i cs = Some c → c ∈ cs ∧ in_class i c = true.
Proof.
  induction cs as [|c' cs IH]; simpl; [done|]. destruct (in_class i c') eqn:He.
  - intros [= ->]. split; [left|done].
  - intros H. destruct (IH H). split; [by right|done].
Qed.

Lemma find_class_covers i cs : ∀ start,
  Forall class_wf cs → covers_from start cs → start ≤ i →
  is_Some (find_class i cs) ↔ i < start + foldr (λ c n, sc_count c + n) 0 cs.
Proof.
  induction cs as [|c cs IH]; intros start Hwf Hc Hi; simpl.
  - rewrite Z.add_0_r. split; [by intros []|lia].
  - apply Forall_cons in Hwf as [Hwc Hwf]. destruct Hc as [Hs Hc].
    pose proof (in_class_spec i c Hwc) as Hin.
    assert (0 ≤ foldr (λ c n, sc_count c + n) 0 cs).
    { clear -Hwf. induction Hwf as [|c cs Hw _ IH]; simpl; [lia|]. unfold class_wf in Hw. lia. }
    destruct (in_class i c) eqn:He.
    + split; [|by eexists]. intros _. apply proj1 in Hin. specialize (Hin eq_refl). lia.
    + assert (start + sc_count c ≤ i).
      { destruct (Z.lt_ge_cases i (start + sc_count c)); [|done].
        assert (false = true) by (apply Hin; lia). done. }
      rewrite (IH (start + sc_count c)) by done. lia.
Qed.

(** Two windows: disjoint unless they are in different BARs. *)
Definition window_range (i : Z) (c : TlbSizeClass) : Z * Z :=
  let base := sc_bar_offset c + (i - sc_base_index c) * sc_size c in (base, base + sc_size c).

Lemma class_windows_apart i j ci cj :
  class_wf ci → class_wf cj → in_class i ci = true → in_class j cj = true →
  sc_in_bar4 ci = sc_in_bar4 cj → class_before ci cj →
  (window_range i ci).2 ≤ (window_range j cj).1.
Proof.
  intros Hwi Hwj Hi%in_class_spec Hj%in_class_spec Hb [_ Hbefore]; try done.
  specialize (Hbefore Hb). unfold class_wf, window_range in *; simpl. nia.
Qed.

Lemma same_class_apart i j c :
  class_wf c → i < j → (window_range i c).2 ≤ (window_range j c).1.
Proof. intros Hw Hij. unfold class_wf, window_range in *; simpl. nia. Qed.

(** In every architecture the windows with indices below the sum of the class
    counts - and no others - have a configuration; a window lies at an offset
    of its BAR that is a multiple of its size, without wrap-around, and two
    windows of the same BAR never overlap. *)
Lemma get_configuration_windows arch t i :
  get_architecture_tlbs arch = Ok t → 0 ≤ i →
  (i < num_windows t ↔ ∃ conf, get_configuration t i = Ok conf) ∧
  ∀ c, find_class i (size_classes t) = Some c →
    (∃ conf, get_configuration t i = Ok conf ∧ tc_size conf = sc_size c
       ∧ tc_offset conf = sc_register_layout c ∧ (tc_tlb_offset conf, tc_tlb_offset conf + tc_size conf) = window_range i c
       ∧ tc_tlb_offset conf `mod` tc_size conf = 0) ∧
    ∀ j c', i ≠ j → find_class j (size_classes t) = Some c' → sc_in_bar4 c = sc_in_bar4 c' →
      (window_range i c).2 ≤ (window_range j c').1 ∨ (window_range j c').2 ≤ (window_range i c).1.
Proof.
  intros Ht Hi. apply get_architecture_tlbs_wf in Ht as (Hwf & Hcov & Hord & _).
  pose proof (find_class_covers i _ 0 Hwf Hcov Hi) as Hsome. rewrite Z.add_0_l in Hsome.
  rewrite list.Forall_forall in Hwf. split.
  - unfold num_windows. rewrite <- Hsome. unfold get_configuration.
    destruct (find_class i (size_classes t)); [naive_solver|].
    split; [by intros []|by intros (? & ?)].
  - intros c Hc. pose proof (find_class_Some _ _ _ Hc) as [Hin Hic]. pose proof (Hwf _ Hin) as Hwc. split.
    + unfold get_configuration. rewrite Hc. eexists. split; [done|]. cbn [tc_size tc_offset tc_tlb_offset].
      split; [done|]. split; [done|]. apply (in_class_spec i c Hwc) in Hic. unfold class_wf in Hwc.
      assert (0 ≤ (i - sc_base_index c) * sc_size c) by nia.
      assert ((i - sc_base_index c) * sc_size c + sc_size c ≤ sc_count c * sc_size c) by nia.
      unfold window_range, u64. rewrite !(Z.mod_small _ (2 ^ 64)) by (rewrite ?Z.mod_small; lia). split; [done|].
      rewrite Z.mod_add by lia. tauto.
    + intros j c' Hij Hc' Hbar. pose proof (find_class_Some _ _ _ Hc') as [Hin' Hjc].
      pose proof (Hwf _ Hin') as Hwc'.
      destruct (ForallOrdPairs_In Hord c c') as [->|[Hb|Hb]]; [by apply list_elem_of_In..| | |].
      * destruct (Z.lt_ge_cases i j); [left|right]; apply same_class_apart; (done || lia).
      * left. by apply class_windows_apart.
      * right. by apply class_windows_apart.
Qed.

Lemma get_configuration_windows_witness :
  (185 < num_windows wormhole_windows.wormhole_tlbs ↔
     ∃ conf, get_configuration wormhole_windows.wormhole_tlbs 185 = Ok conf).
Proof. apply (get_configuration_windows WORMHOLE_B0 wormhole_windows.wormhole_tlbs 185); [reflexivity|lia]. Defined.

(** ** Configuring a window *)

(** The register of window [i] as the words of the configuration space. *)
Definition register_addr (t : ArchitectureTlbs) (i : Z) : Z := u64 (i * cfg_reg_size_bytes t).
Definition register_words (n : nat) (addr : Z) (m : ConfigSpace) : option (list Z) :=
  mapM (λ i, m !! (addr + 4 * i)) (seqZ 0 (Z.of_nat n)).
Definition register_value (ws : list Z) : Z := foldr (λ w acc, w + 2 ^ 32 * acc) 0 ws.
Definition read_register (arch : ARCH) (t : ArchitectureTlbs) (i : Z) (m : ConfigSpace) : option Z :=
  register_value <$> register_words (num_config_words arch) (register_addr t i) m.

Lemma split_words w : 0 ≤ w < 2 ^ 64 → u32 w + 2 ^ 32 * u32 (Z.shiftr w 32) = w.
Proof.
  intros Hw. unfold u32. rewrite Z.shiftr_div_pow2 by lia.
  pose proof (Z.div_mod w (2 ^ 32) ltac:(lia)).
  rewrite (Z.mod_small (w `div` 2 ^ 32)); [lia|].
  split; [apply Z.div_pos; lia|]. apply Z.div_lt_upper_bound; lia.
Qed.

Lemma register_words_written arch lu addr m :
  words_ok lu → word_of lu < 2 ^ (32 * Z.of_nat (num_config_words arch)) →
  register_value <$> register_words (num_config_words arch) addr
    (write_config_words addr (take (num_config_words arch) (config_words lu.1 lu.2)) m)
  = Some (word_of lu).
Proof.
  destruct lu as [lower upper]. intros [Hl Hu] Hw. unfold word_of in *. cbn [fst snd] in *.
  pose proof (split_words lower Hl) as Hs.
  assert (num_config_words arch = 2%nat ∨ num_config_words arch = 3%nat) as [Hn|Hn] by (destruct arch; auto);
    rewrite Hn in Hw |- *; unfold register_words, write_config_words, config_words, vec_size; cbn [take length].
  - change (seqZ 0 (Z.of_nat 2)) with [0; 1].
    cbn [zip zip_with foldl].
    rewrite (mapM_Some_2 _ _ [u32 lower; u32 (lower ≫ 32)]); [cbn; f_equal; lia|].
    repeat constructor; rewrite ?lookup_insert_ne by lia; by rewrite lookup_insert_eq.
  - change (seqZ 0 (Z.of_nat 3)) with [0; 1; 2]. cbn [zip zip_with foldl].
    rewrite (mapM_Some_2 _ _ [u32 lower; u32 (lower ≫ 32); u32 upper]).
    + cbn. assert (u32 upper = upper) as -> by (apply Z.mod_small; lia). f_equal. lia.
    + repeat constructor; rewrite ?lookup_insert_ne by lia; by rewrite lookup_insert_eq.
Qed.

(** Words of different registers are different words. *)
Lemma register_words_other n n' addr addr' vs m :
  (length vs ≤ n')%nat → addr + 4 * Z.of_nat n ≤ addr' ∨ addr' + 4 * Z.of_nat n' ≤ addr →
  register_words n addr (write_config_words addr' vs m) = register_words n addr m.
Proof.
  intros Hlen Hap. unfold register_words. apply Forall_mapM_ext, list.Forall_forall.
  intros i Hi. apply elem_of_seqZ in Hi. unfold write_config_words.
  assert (∀ (l : list (Z * Z)) (m : ConfigSpace), (∀ j w, (j, w) ∈ l → addr + 4 * i ≠ addr' + 4 * j) →
    foldl (λ m '(j, w), <[addr' + 4 * j := w]> m) m l !! (addr + 4 * i) = m !! (addr + 4 * i)) as Hgen.
  { clear. induction l as [|[j w] l IH]; intros m Hne; [done|]; simpl. rewrite IH.
    - apply lookup_insert_ne. specialize (Hne j w). intros ?. by apply Hne; [left|].
    - intros j' w' Hin. apply (Hne j' w'). by right. }
  apply Hgen. intros j w Hj%elem_of_zip_l. apply elem_of_seqZ in Hj. unfold vec_size in Hj. lia.
Qed.

Lemma configure_tlb_fits arch t i conf d m :
  get_architecture_tlbs arch = Ok t → 0 ≤ i → get_configuration t i = Ok conf → fits d (tc_offset conf) →
  ∃ lu, configure_tlb arch i d m =
    Ok (write_config_words (register_addr t i) (take (num_config_words arch) (config_words lu.1 lu.2)) m)
    ∧ words_ok lu ∧ decode (tc_offset conf) (word_of lu) = d
    ∧ word_of lu < 2 ^ o_static_vc_end (tc_offset conf).
Proof.
  intros Ht Hi Hconf Hfit. pose proof (get_architecture_tlbs_wf _ _ Ht) as (Hwf & _).
  assert (layout_wf (tc_offset conf)) as Hlay.
  { unfold get_configuration in Hconf. destruct (find_class i (size_classes t)) eqn:Hc; [|done].
    injection Hconf as <-. apply find_class_Some in Hc as [Hin _].
    rewrite list.Forall_forall in Hwf. by apply Hwf. }
  destruct (apply_offset_fits d _ Hlay Hfit) as ([lower upper] & Ha & Hok & Hdec & Hlt).
  exists (lower, upper). split; [|done]. unfold configure_tlb. rewrite Ht; cbn [mbind result_bind].
  rewrite Hconf; cbn [mbind result_bind]. by rewrite Ha.
Qed.

(** The architectures whose registers [configure_tlb] writes completely. *)
Definition writes_whole_register (arch : ARCH) : Prop := arch = WORMHOLE_B0 ∨ arch = BLACKHOLE.

Lemma register_fits arch t i conf :
  writes_whole_register arch → get_architecture_tlbs arch = Ok t → get_configuration t i = Ok conf →
  o_static_vc_end (tc_offset conf) ≤ 32 * Z.of_nat (num_config_words arch).
Proof.
  intros Harch Ht Hconf. unfold get_configuration in Hconf.
  destruct (find_class i (size_classes t)) as [c|] eqn:Hc; [|done]. injection Hconf as <-.
  cbn [tc_offset]. apply find_class_Some in Hc as [Hin _]. apply list_elem_of_In in Hin.
  destruct Harch as [-> | ->]; injection Ht as <-; simpl in Hin; destruct_or! Hin; try done; subst c;
    by vm_compute.
Qed.

Lemma num_windows_bound arch t : get_architecture_tlbs arch = Ok t → 0 ≤ num_windows t < 1024.
Proof. destruct arch; simpl; intros [= <-]; by vm_compute. Qed.

Lemma register_addr_eq arch t i :
  get_architecture_tlbs arch = Ok t → 0 ≤ i < num_windows t → register_addr t i = i * cfg_reg_size_bytes t.
Proof.
  intros Ht Hi. pose proof (num_windows_bound _ _ Ht).
  pose proof (get_architecture_tlbs_wf _ _ Ht) as (_ & _ & _ & _ & Hb).
  apply Z.mod_small. nia.
Qed.

(** On Wormhole and Blackhole, configuring a window with values that fit its
    register layout writes a register that reads back as exactly this
    configuration, and leaves the registers of all other windows as they were. *)
Lemma configure_tlb_correct arch t i conf d m :
  writes_whole_register arch → get_architecture_tlbs arch = Ok t → 0 ≤ i < num_windows t →
  get_configuration t i = Ok conf → fits d (tc_offset conf) →
  ∃ m', configure_tlb arch i d m = Ok m'
    ∧ (∃ w, read_register arch t i m' = Some w ∧ decode (tc_offset conf) w = d)
    ∧ ∀ j, 0 ≤ j < num_windows t → j ≠ i → read_register arch t j m' = read_register arch t j m.
Proof.
  intros Harch Ht Hi Hconf Hfit.
  destruct (configure_tlb_fits arch t i conf d m Ht ltac:(lia) Hconf Hfit) as (lu & Hc & Hok & Hdec & Hlt).
  eexists. split; [exact Hc|]. pose proof (register_fits arch t i conf Harch Ht Hconf) as Hbits. split.
  - exists (word_of lu). split; [|done]. apply register_words_written; [done|].
    eapply Z.lt_le_trans; [exact Hlt|]. apply Z.pow_le_mono_r; lia.
  - intros j Hj Hji. unfold read_register. f_equal.
    apply (register_words_other _ (num_config_words arch)).
    { rewrite length_take. lia. }
    rewrite !(register_addr_eq arch) by done.
    assert (4 * Z.of_nat (num_config_words arch) ≤ cfg_reg_size_bytes t).
    { destruct Harch as [-> | ->]; injection Ht as <-; by vm_compute. }
    pose proof (get_architecture_tlbs_wf _ _ Ht) as (_ & _ & _ & _ & Hb). nia.
Qed.

Lemma configure_tlb_correct_witness :
  let t := blackhole_windows.blackhole_tlbs in
  let d := MkTlbData 3 5 6 1 2 1 1 Posted 0 1 in
  ∃ m', configure_tlb BLACKHOLE 203 d ∅ = Ok m'
    ∧ (∃ w, read_register BLACKHOLE t 203 m' = Some w ∧ decode blackhole_tlb.TLB_4G_OFFSET w = d)
    ∧ ∀ j, 0 ≤ j < num_windows t → j ≠ 203 → read_register BLACKHOLE t j m' = read_register BLACKHOLE t j ∅.
Proof.
  intros t d.
  apply (configure_tlb_correct BLACKHOLE t 203
    (MkTlbConfiguration (4 * ONE_GB) 0 (0x1fc00000 + 202 * 12) 1 (4 * ONE_GB) blackhole_tlb.TLB_4G_OFFSET));
    [by right|done|by vm_compute|reflexivity|].
  apply (bool_decide_unpack _). by vm_compute.
Defined.

(** On Quasar [configure_tlb] writes two words of the 75-bit register: the
    configuration of a 2 MB window loses, among others, its multicast flag. *)
Lemma quasar_register_truncated m :
  let unicast := MkTlbData 0 1 1 0 0 0 0 Strict 0 0 in
  let multicast := MkTlbData 0 1 1 0 0 0 1 Strict 0 0 in
  ∃ m', configure_tlb QUASAR 0 unicast m = Ok m' ∧ configure_tlb QUASAR 0 multicast m = Ok m'.
Proof. eexists. split; reflexivity. Qed.
