(* ===== verification/TlbWindow.v ===== *)
(** * TlbWindow

    [pcie/tlb_window.cpp], [pcie/silicon_tlb_window.cpp],
    [pcie/silicon_tlb_handle.cpp]: moving a buffer of any size to or from an
    address of a core's memory through one TLB window, which is reconfigured
    for every chunk.

    The device behind the window is an interface ([NocDevice]): reads and writes
    of bytes at a NOC target (the configuration of a window without its address)
    and an address. Where an access through the window goes is decided, as in
    the hardware, by the window's configuration register, not by the
    configuration the driver keeps: the register's address field, scaled by the
    window size, is the prefix of the addresses of the window. *)

From Stdlib Require Import ZArith Lia FunctionalExtensionality.
From stdpp Require Import base list numbers strings gmap.
From S2P Require Import Prelude CoreTypes Tlb ArchTlbs.

Local Open Scope Z_scope.

(** ** The device *)

Class NocDevice (D : Type) := {
  dev_write : tlb_data → Z → list Z → D → D;
  dev_read : tlb_data → Z → nat → D → list Z
}.

(** Accesses are sequences of byte accesses at increasing addresses. *)
Class NocDeviceLaws (D : Type) `{NocDevice D} : Prop := {
  dev_write_nil : ∀ t a d, dev_write t a [] d = d;
  dev_write_app : ∀ t a b1 b2 d,
    dev_write t a (b1 ++ b2) d = dev_write t (a + vec_size b1) b2 (dev_write t a b1 d);
  dev_read_length : ∀ t a n d, length (dev_read t a n d) = n;
  dev_read_app : ∀ t a n m d,
    dev_read t a (n + m) d = dev_read t a n d ++ dev_read t (a + Z.of_nat n) m d
}.

(** Plain memory: bytes written elsewhere do not change what is read, and
    writing back what is there changes nothing. *)
Class PlainMemory (D : Type) `{NocDevice D} : Prop := {
  dev_read_other : ∀ t a b d a' n,
    a' + Z.of_nat n ≤ a ∨ a + vec_size b ≤ a' → dev_read t a' n (dev_write t a b d) = dev_read t a' n d;
  dev_read_same : ∀ t a b d, dev_read t a (length b) (dev_write t a b d) = b;
  dev_write_read : ∀ t a n d, dev_write t a (dev_read t a n d) d = d
}.

(** ** The window's state *)

Record TlbHandle := MkTlbHandle {
  tlb_id : Z; tlb_size : Z; tlb_arch : ARCH; tlb_config : tlb_data
}.

Record Window (D : Type) := MkWindow {
  tlb_handle : TlbHandle; offset_from_aligned_addr : Z; config_space : ConfigSpace; device : D
}.
Arguments MkWindow {D}.
Arguments tlb_handle {D}.
Arguments offset_from_aligned_addr {D}.
Arguments config_space {D}.
Arguments device {D}.

Section operations.
Context {D : Type} `{NocDevice D}.

Definition set_device (w : Window D) (d : D) : Window D :=
  MkWindow (tlb_handle w) (offset_from_aligned_addr w) (config_space w) d.

(** [SiliconTlbHandle::configure]. *)
Definition handle_configure (new_config : tlb_data) (w : Window D) : result (Window D) :=
  let h := tlb_handle w in
  if tlb_size h =? 0 then Err UndefinedBehaviour
  else
    let cfg_data := set_local_offset new_config (local_offset new_config `div` tlb_size h) in
    m ← configure_tlb (tlb_arch h) (tlb_id h) cfg_data (config_space w);
    Ok (MkWindow (MkTlbHandle (tlb_id h) (tlb_size h) (tlb_arch h) new_config)
          (offset_from_aligned_addr w) m (device w)).

(** [x & ~(size - 1)] on 64 bits. *)
Definition align_down (x size : Z) : Z := Z.land x (2 ^ 64 - 1 - u64 (size - 1)).

(** [TlbWindow::configure(const tlb_data&)]. *)
Definition configure (new_config : tlb_data) (w : Window D) : result (Window D) :=
  let aligned := align_down (local_offset new_config) (tlb_size (tlb_handle w)) in
  w ← handle_configure (set_local_offset new_config aligned) w;
  Ok (MkWindow (tlb_handle w) (u64 (local_offset new_config - aligned)) (config_space w) (device w)).

(** [get_size], [validate], [get_total_offset]. *)
Definition get_size (w : Window D) : Z := u64 (tlb_size (tlb_handle w) - offset_from_aligned_addr w).
Definition validate (offset size : Z) (w : Window D) : result unit :=
  if get_size w <? u64 (offset + size) then Err OutOfRange else Ok tt.
Definition get_total_offset (w : Window D) (offset : Z) : Z := u64 (offset + offset_from_aligned_addr w).

(** [make_tlb_config]. *)
Definition make_tlb_config (arch : ARCH) (addr : Z) (core_end : xy_pair) (noc_id ord : Z)
    (core_start : option xy_pair) : tlb_data :=
  let svc := match arch with BLACKHOLE => 0 | _ => 1 end in
  match core_start with
  | None => MkTlbData addr (xy_x core_end) (xy_y core_end) 0 0 noc_id 0 ord 0 svc
  | Some s => MkTlbData addr (xy_x core_end) (xy_y core_end) (xy_x s) (xy_y s) noc_id 1 ord 0 svc
  end.

(** Where the hardware sends an access through the window: the target its
    register holds, and the address of the window's first byte. *)
Definition hw_window (w : Window D) : result (tlb_data * Z) :=
  let h := tlb_handle w in
  tlbs ← get_architecture_tlbs (tlb_arch h);
  conf ← get_configuration tlbs (tlb_id h);
  match read_register (tlb_arch h) tlbs (tlb_id h) (config_space w) with
  | Some reg =>
      let d := decode (tc_offset conf) reg in
      Ok (set_local_offset d 0, local_offset d * tc_size conf)
  | None => Err UndefinedBehaviour
  end.

(** ** Copies through the window *)

(** Wormhole's [memcpy_to_device]: words only, so a partial first or last word
    is read, modified and written back. [o] is the offset in the window (the
    window's base pointer is page aligned), [base] the window's address. The
    whole-word copy [umd::memcpy_to_device] is a device write. *)
Definition memcpy_to_device (t : tlb_data) (base o : Z) (src : list Z) (d : D) : D :=
  let mis := o `mod` 4 in
  let '(o, src, d) :=
    if mis =? 0 then (o, src, d)
    else
      let dp := o - mis in
      let tmp := dev_read t (base + dp) 4 d in
      let leading_len := Nat.min (4 - Z.to_nat mis) (length src) in
      let tmp := take (Z.to_nat mis) tmp ++ take leading_len src ++ drop (Z.to_nat mis + leading_len) tmp in
      (dp + 4, drop leading_len src, dev_write t (base + dp) tmp d) in
  let middle_bytes := (length src / 4 * 4)%nat in
  let d := dev_write t (base + o) (take middle_bytes src) d in
  let o := o + Z.of_nat middle_bytes in
  let trailing_len := (length src mod 4)%nat in
  if (trailing_len =? 0)%nat then d
  else
    let tmp := dev_read t (base + o) 4 d in
    dev_write t (base + o) (drop middle_bytes src ++ drop trailing_len tmp) d.

(** Wormhole's [memcpy_from_device]. *)
Definition memcpy_from_device (t : tlb_data) (base o : Z) (num_bytes : nat) (d : D) : list Z :=
  let mis := o `mod` 4 in
  let '(o, n, lead) :=
    if mis =? 0 then (o, num_bytes, [])
    else
      let sp := o - mis in
      let tmp := dev_read t (base + sp) 4 d in
      let leading_len := Nat.min (4 - Z.to_nat mis) num_bytes in
      (sp + 4, (num_bytes - leading_len)%nat, take leading_len (drop (Z.to_nat mis) tmp)) in
  let middle_bytes := (n / 4 * 4)%nat in
  let middle := dev_read t (base + o) middle_bytes d in
  let trailing_len := (n mod 4)%nat in
  if (trailing_len =? 0)%nat then lead ++ middle
  else lead ++ middle ++ take trailing_len (dev_read t (base + (o + Z.of_nat middle_bytes)) 4 d).

(** [SiliconTlbWindow::write_block], [read_block]. *)
Definition write_block (offset : Z) (data : list Z) (w : Window D) : result (Window D) :=
  let o := get_total_offset w offset in
  _ ← validate offset (vec_size data) w;
  '(t, base) ← hw_window w;
  Ok (set_device w
        match tlb_arch (tlb_handle w) with
        | WORMHOLE_B0 => memcpy_to_device t base o data (device w)
        | _ => dev_write t (base + o) data (device w)
        end).

Definition read_block (offset : Z) (size : nat) (w : Window D) : result (list Z) :=
  let o := get_total_offset w offset in
  _ ← validate offset (Z.of_nat size) w;
  '(t, base) ← hw_window w;
  Ok match tlb_arch (tlb_handle w) with
     | WORMHOLE_B0 => memcpy_from_device t base o size (device w)
     | _ => dev_read t (base + o) size (device w)
     end.

(** [write_register], [read_register]: [size / 4] word accesses, in order. *)
Fixpoint write_regs (t : tlb_data) (dest : Z) (n : nat) (src : list Z) (d : D) : D :=
  match n with
  | O => d
  | S n => write_regs t (dest + 4) n (drop 4 src) (dev_write t dest (take 4 src) d)
  end.

Fixpoint read_regs (t : tlb_data) (src : Z) (n : nat) (d : D) : list Z :=
  match n with
  | O => []
  | S n => dev_read t src 4 d ++ read_regs t (src + 4) n d
  end.

Definition write_register (offset : Z) (data : list Z) (w : Window D) : result (Window D) :=
  _ ← validate offset (vec_size data) w;
  '(t, base) ← hw_window w;
  Ok (set_device w (write_regs t (base + get_total_offset w offset) (length data / 4) data (device w))).

Definition read_register (offset : Z) (size : nat) (w : Window D) : result (list Z) :=
  _ ← validate offset (Z.of_nat size) w;
  '(t, base) ← hw_window w;
  Ok (read_regs t (base + get_total_offset w offset) (size / 4) (device w)).

(** ** Chunked transfers *)

(** [transfer_and_reconfigure] with a writing operation. The loop runs at most
    once per byte; a run that would not finish is an error here. *)
Fixpoint transfer_out (fuel : nat) (op : list Z → Window D → result (Window D)) (config : tlb_data)
    (buffer : list Z) (w : Window D) : result (Window D) :=
  match buffer, fuel with
  | [], _ => Ok w
  | _, O => Err UndefinedBehaviour
  | _, S fuel =>
      w ← configure config w;
      let transfer_size := Z.min (vec_size buffer) (get_size w) in
      w ← op (take (Z.to_nat transfer_size) buffer) w;
      transfer_out fuel op (set_local_offset config (u64 (local_offset config + transfer_size)))
        (drop (Z.to_nat transfer_size) buffer) w
  end.

(** The same with a reading operation; the bytes read are returned. *)
Fixpoint transfer_in (fuel : nat) (op : nat → Window D → result (list Z)) (config : tlb_data)
    (size : nat) (w : Window D) : result (list Z * Window D) :=
  match size, fuel with
  | O, _ => Ok ([], w)
  | _, O => Err UndefinedBehaviour
  | _, S fuel =>
      w ← configure config w;
      let transfer_size := Z.min (Z.of_nat size) (get_size w) in
      bytes ← op (Z.to_nat transfer_size) w;
      '(rest, w) ← transfer_in fuel op (set_local_offset config (u64 (local_offset config + transfer_size)))
                     (size - Z.to_nat transfer_size) w;
      Ok (bytes ++ rest, w)
  end.

Definition config_for (w : Window D) := make_tlb_config (tlb_arch (tlb_handle w)).

Definition write_block_reconfigure (mem : list Z) (core : xy_pair) (addr noc_id ord : Z) (w : Window D) :=
  transfer_out (length mem) (write_block 0) (config_for w addr core noc_id ord None) mem w.
Definition write_register_reconfigure (mem : list Z) (core : xy_pair) (addr noc_id ord : Z) (w : Window D) :=
  transfer_out (length mem) (write_register 0) (config_for w addr core noc_id ord None) mem w.
Definition noc_multicast_write_reconfigure (src : list Z) (core_start core_end : xy_pair) (addr noc_id ord : Z)
    (w : Window D) :=
  transfer_out (length src) (write_block 0) (config_for w addr core_end noc_id ord (Some core_start)) src w.
Definition read_block_reconfigure (core : xy_pair) (addr : Z) (size : nat) (noc_id ord : Z) (w : Window D) :=
  transfer_in size (read_block 0) (config_for w addr core noc_id ord None) size w.
Definition read_register_reconfigure (core : xy_pair) (addr : Z) (size : nat) (noc_id ord : Z) (w : Window D) :=
  transfer_in size (read_register 0) (config_for w addr core noc_id ord None) size w.

End operations.

(** ** Alignment *)

Lemma align_down_spec x k :
  0 ≤ k < 64 → 0 ≤ x < 2 ^ 64 → align_down x (2 ^ k) = x `div` 2 ^ k * 2 ^ k.
Proof.
  intros Hk Hx. assert (0 < 2 ^ k < 2 ^ 64) as Hp.
  { split; [apply Z.pow_pos_nonneg; lia|apply Z.pow_lt_mono_r; lia]. }
  unfold align_down, u64. rewrite (Z.mod_small (2 ^ k - 1)) by lia.
  assert (2 ^ 64 - 1 - (2 ^ k - 1) = Z.shiftl (Z.ones (64 - k)) k) as ->.
  { rewrite Z.shiftl_mul_pow2, Z.ones_equiv by lia.
    assert (2 ^ (64 - k) * 2 ^ k = 2 ^ 64) by (rewrite <- Z.pow_add_r by lia; f_equal; lia). lia. }
  rewrite <- Z.shiftr_div_pow2, <- Z.shiftl_mul_pow2 by lia.
  apply Z.bits_inj'. intros i Hi. rewrite Z.land_spec, !Z.shiftl_spec by done.
  destruct (Z.lt_ge_cases i k).
  { rewrite !(Z.testbit_neg_r _ (i - k)) by lia. by rewrite andb_false_r. }
  rewrite Z.shiftr_spec by lia. replace (i - k + k) with i by lia.
  destruct (Z.lt_ge_cases i 64).
  - rewrite Z.ones_spec_low by lia. by rewrite andb_true_r.
  - rewrite <- (Z.mod_small x (2 ^ 64)), Z.mod_pow2_bits_high by lia. done.
Qed.

(** ** The word copies are byte copies *)

Section plain_memory.
Context {D : Type} `{NocDeviceLaws D, !PlainMemory D}.

(** Rewriting a region with what surrounds the new bytes left as it was. *)
Lemma dev_write_splice t a n m (src : list Z) (d : D) :
  (n + length src + m)%nat = 4%nat →
  dev_write t a (take n (dev_read t a 4 d) ++ src ++ drop (n + length src) (dev_read t a 4 d)) d
  = dev_write t (a + Z.of_nat n) src d.
Proof.
  intros Hlen.
  assert (dev_read t a 4 d = dev_read t a n d ++ dev_read t (a + Z.of_nat n) (length src) d
            ++ dev_read t (a + Z.of_nat n + vec_size src) m d) as Hr by
    (by rewrite <- Hlen, <- Nat.add_assoc, !dev_read_app).
  assert (take n (dev_read t a 4 d) = dev_read t a n d) as ->.
  { rewrite Hr. apply take_app_length'. by rewrite dev_read_length. }
  assert (drop (n + length src) (dev_read t a 4 d) = dev_read t (a + Z.of_nat n + vec_size src) m d) as ->.
  { rewrite Hr, app_assoc. apply drop_app_length'. by rewrite length_app, !dev_read_length. }
  rewrite !dev_write_app. rewrite dev_write_read. unfold vec_size. rewrite dev_read_length.
  rewrite <- (dev_read_other t (a + Z.of_nat n) src d) by (unfold vec_size; lia).
  apply dev_write_read.
Qed.

Lemma trailing_write t a src (d : D) :
  (length src < 4)%nat →
  dev_write t a (src ++ drop (length src) (dev_read t a 4 d)) d = dev_write t a src d.
Proof.
  intros Hlen. pose proof (dev_write_splice t a 0 (4 - length src) src d ltac:(lia)) as Hs.
  simpl in Hs. by rewrite Z.add_0_r in Hs.
Qed.

Lemma memcpy_to_device_aligned t base o src (d : D) :
  o `mod` 4 = 0 → memcpy_to_device t base o src d = dev_write t (base + o) src d.
Proof.
  intros Ho. unfold memcpy_to_device. rewrite Ho. cbn [Z.eqb].
  set (mid := (length src / 4 * 4)%nat).
  pose proof (Nat.div_mod_eq (length src) 4) as Hdm.
  assert (mid + length src mod 4 = length src)%nat as Hmid by lia.
  assert (length src mod 4 < 4)%nat by (apply Nat.mod_upper_bound; lia).
  assert (length (take mid src) = mid) as Hlt by (rewrite length_take; lia).
  destruct (Nat.eqb_spec (length src mod 4) 0) as [Hz|Hz].
  - by rewrite firstn_all2 by lia.
  - assert (length (drop mid src) = length src mod 4)%nat as Hld by (rewrite length_drop; lia).
    rewrite <- Hld. rewrite trailing_write by lia.
    rewrite <- (take_drop mid src) at 3. rewrite dev_write_app. unfold vec_size. rewrite Hlt.
    by rewrite Z.add_assoc.
Qed.

(** Wormhole's [memcpy_to_device], which can only write whole words and so
    reads, modifies and writes back a partial first or last word, has the effect
    of writing exactly the bytes of the buffer - on plain memory, whatever the
    alignment and length. *)
Lemma memcpy_to_device_correct t base o src (d : D) :
  0 ≤ o → memcpy_to_device t base o src d = dev_write t (base + o) src d.
Proof.
  intros Ho. pose proof (Z.mod_pos_bound o 4 ltac:(lia)) as Hm.
  destruct (Z.eqb_spec (o `mod` 4) 0) as [Hz|Hz]; [by apply memcpy_to_device_aligned|].
  set (lead := Nat.min (4 - Z.to_nat (o `mod` 4)) (length src)).
  assert ((o - o `mod` 4 + 4) `mod` 4 = 0) as Hal.
  { pose proof (Z.div_mod o 4 ltac:(lia)). replace (o - o `mod` 4 + 4) with ((o `div` 4 + 1) * 4) by lia.
    apply Z.mod_mul. lia. }
  pose proof (memcpy_to_device_aligned t base (o - o `mod` 4 + 4) (drop lead src)
    (dev_write t (base + o) (take lead src) d) Hal) as Hrest.
  unfold memcpy_to_device in *. rewrite Hal in Hrest. cbn [Z.eqb] in Hrest.
  rewrite (proj2 (Z.eqb_neq _ _) Hz). fold lead.
  assert (length (take lead src) = lead) as Hlen by (rewrite length_take; lia).
  pose proof (dev_write_splice t (base + (o - o `mod` 4)) (Z.to_nat (o `mod` 4))
    (4 - Z.to_nat (o `mod` 4) - lead) (take lead src) d ltac:(lia)) as Hs. rewrite Hlen in Hs.
  rewrite Hs. rewrite Z2Nat.id by lia. replace (base + (o - o `mod` 4) + o `mod` 4) with (base + o) by lia.
  rewrite Hrest. destruct (decide (lead = length src)) as [Hall|Hall].
  - rewrite Hall, drop_all, firstn_all, dev_write_nil. done.
  - rewrite <- (take_drop lead src) at 3. rewrite dev_write_app. unfold vec_size. rewrite Hlen.
    f_equal. lia.
Qed.
End plain_memory.

Section reads.
Context {D : Type} `{NocDeviceLaws D}.

(** A part of a word that was read is what reading the part gives. *)
Lemma dev_read_part t a n m k (d : D) :
  (n + m + k)%nat = 4%nat →
  take m (drop n (dev_read t a 4 d)) = dev_read t (a + Z.of_nat n) m d.
Proof.
  intros Hlen. rewrite <- Hlen, <- Nat.add_assoc, !dev_read_app.
  rewrite drop_app_length' by (by rewrite dev_read_length).
  apply take_app_length'. by rewrite dev_read_length.
Qed.

Lemma memcpy_from_device_aligned t base o n (d : D) :
  o `mod` 4 = 0 → memcpy_from_device t base o n d = dev_read t (base + o) n d.
Proof.
  intros Ho. unfold memcpy_from_device. rewrite Ho. cbn [Z.eqb].
  set (mid := (n / 4 * 4)%nat). pose proof (Nat.div_mod_eq n 4) as Hdm.
  assert (mid + n mod 4 = n)%nat as Hmid by lia.
  assert (n mod 4 < 4)%nat by (apply Nat.mod_upper_bound; lia).
  destruct (Nat.eqb_spec (n mod 4) 0) as [Hz|Hz].
  - simpl. f_equal. lia.
  - pose proof (dev_read_part t (base + (o + Z.of_nat mid)) 0 (n mod 4) (4 - n mod 4) d ltac:(lia)) as Hp.
    rewrite drop_0 in Hp. rewrite Hp, Z.add_0_r, app_nil_l.
    transitivity (dev_read t (base + o) (mid + n mod 4) d); [|by rewrite Hmid].
    by rewrite dev_read_app, Z.add_assoc.
Qed.

Lemma memcpy_from_device_spec t base o n (d : D) :
  0 ≤ o → memcpy_from_device t base o n d = dev_read t (base + o) n d.
Proof.
  intros Ho. pose proof (Z.mod_pos_bound o 4 ltac:(lia)) as Hm.
  destruct (Z.eqb_spec (o `mod` 4) 0) as [Hz|Hz]; [by apply memcpy_from_device_aligned|].
  set (lead := Nat.min (4 - Z.to_nat (o `mod` 4)) n).
  assert ((o - o `mod` 4 + 4) `mod` 4 = 0) as Hal.
  { pose proof (Z.div_mod o 4 ltac:(lia)). replace (o - o `mod` 4 + 4) with ((o `div` 4 + 1) * 4) by lia.
    apply Z.mod_mul. lia. }
  pose proof (memcpy_from_device_aligned t base (o - o `mod` 4 + 4) (n - lead) d Hal) as Hrest.
  unfold memcpy_from_device in *. rewrite Hal in Hrest. cbn [Z.eqb] in Hrest.
  rewrite (proj2 (Z.eqb_neq _ _) Hz). fold lead.
  pose proof (dev_read_part t (base + (o - o `mod` 4)) (Z.to_nat (o `mod` 4)) lead
    (4 - Z.to_nat (o `mod` 4) - lead) d ltac:(lia)) as Hp.
  rewrite Hp, Z2Nat.id by lia. replace (base + (o - o `mod` 4) + o `mod` 4) with (base + o) by lia.
  destruct (decide (lead = n)) as [Hall|Hall].
  - rewrite Hall. replace (n - n)%nat with 0%nat by lia. simpl.
    assert (dev_read t (base + (o - o `mod` 4 + 4)) 0 d = []) as ->
      by (apply nil_length_inv, dev_read_length).
    by rewrite app_nil_r.
  - transitivity (dev_read t (base + o) (lead + (n - lead)) d); [|f_equal; lia]. rewrite dev_read_app.
    replace (base + o + Z.of_nat lead) with (base + (o - o `mod` 4 + 4)) by lia. rewrite <- Hrest.
    match goal with |- (if ?b then _ else _) = _ => by destruct b end.
Qed.

(** Register accesses are word accesses at consecutive addresses. *)
Lemma write_regs_spec t n : ∀ a src (d : D),
  (4 * n)%nat = length src → write_regs t a n src d = dev_write t a src d.
Proof.
  induction n as [|n IH]; intros a src d Hl; simpl.
  - destruct src; [by rewrite dev_write_nil|discriminate Hl].
  - rewrite IH by (rewrite length_drop; lia).
    rewrite <- (take_drop 4 src) at 3. rewrite dev_write_app. unfold vec_size.
    rewrite length_take. by replace (Z.of_nat (4 `min` length src)) with 4 by lia.
Qed.

Lemma read_regs_spec t n : ∀ a (d : D), read_regs t a n d = dev_read t a (4 * n) d.
Proof.
  induction n as [|n IH]; intros a d; simpl.
  - symmetry. apply nil_length_inv, dev_read_length.
  - rewrite IH. replace (S (n + S (n + S (n + S (n + 0))))) with (4 + 4 * n)%nat by lia.
    by rewrite dev_read_app.
Qed.
End reads.

(** ** One configured window *)

Lemma class_size_pow2 arch t c :
  get_architecture_tlbs arch = Ok t → c ∈ size_classes t → ∃ k, 2 ≤ k < 64 ∧ sc_size c = 2 ^ k.
Proof.
  intros Ht Hin. apply list_elem_of_In in Hin.
  destruct arch; simpl in Ht; try discriminate Ht; injection Ht as <-; simpl in Hin;
    destruct_or! Hin; try done; subst c; cbn [sc_size];
    [by exists 20|by exists 21|by exists 24|by exists 21|by exists 32|by exists 21|by exists 32].
Qed.

Lemma fits_smaller d o u v :
  fits (set_local_offset d v) o → 0 ≤ u ≤ v → fits (set_local_offset d u) o.
Proof.
  intros Hf Hu. unfold fits, set_local_offset, field_values, field_bounds in *. cbn in *.
  rewrite Forall2_cons in Hf |- *. destruct Hf as [Hv Hf]. split; [lia|done].
Qed.

Lemma set_local_offset_twice d u v : set_local_offset (set_local_offset d u) v = set_local_offset d v.
Proof. done. Qed.

Section window.
Context {D : Type} `{NocDeviceLaws D}.
Context (arch : ARCH) (Harch : writes_whole_register arch).
Context (t : ArchitectureTlbs) (Ht : get_architecture_tlbs arch = Ok t).
Context (i : Z) (Hi : 0 ≤ i) (c : TlbSizeClass) (Hc : find_class i (size_classes t) = Some c).

(** A window object of index [i]: its size is that of its class. *)
Definition window_of (w : Window D) : Prop :=
  tlb_id (tlb_handle w) = i ∧ tlb_size (tlb_handle w) = sc_size c ∧ tlb_arch (tlb_handle w) = arch.

(** The registers of the other windows are left alone. *)
Definition same_other_registers (m m' : ConfigSpace) : Prop :=
  ∀ j, 0 ≤ j < num_windows t → j ≠ i → ArchTlbs.read_register arch t j m' = ArchTlbs.read_register arch t j m.

Lemma window_index : 0 ≤ i < num_windows t.
Proof using Hc Hi Ht.
  split; [done|]. destruct (get_architecture_tlbs_wf _ _ Ht) as (Hwf & Hcov & _).
  pose proof (find_class_covers i _ 0 Hwf Hcov Hi) as Hs. rewrite Z.add_0_l in Hs. apply Hs. by eexists.
Qed.

Lemma window_configuration :
  ∃ conf, get_configuration t i = Ok conf ∧ tc_size conf = sc_size c ∧ tc_offset conf = sc_register_layout c.
Proof using Hc. unfold get_configuration. rewrite Hc. by eexists. Qed.

(** What [configure] establishes. *)
Record configured (cfg : tlb_data) (w w' : Window D) : Prop := {
  configured_window : window_of w';
  configured_device : device w' = device w;
  configured_offset : offset_from_aligned_addr w' = local_offset cfg `mod` sc_size c;
  configured_hw : hw_window w' =
    Ok (set_local_offset cfg 0, local_offset cfg `div` sc_size c * sc_size c);
  configured_others : same_other_registers (config_space w) (config_space w')
}.

Lemma configure_spec cfg w :
  window_of w → 0 ≤ local_offset cfg < 2 ^ 64 →
  fits (set_local_offset cfg (local_offset cfg `div` sc_size c)) (sc_register_layout c) →
  ∃ w', configure cfg w = Ok w' ∧ configured cfg w w'.
Proof using Harch Hc Hi Ht.
  intros (Hid & Hsz & Ha) Hlo Hfit.
  destruct (class_size_pow2 arch t c Ht) as (k & Hk & Hck); [by apply (find_class_Some i)|].
  assert (0 < sc_size c) as Hpos by (rewrite Hck; apply Z.pow_pos_nonneg; lia).
  assert (sc_size c < 2 ^ 64) as Hlt64 by (rewrite Hck; apply Z.pow_lt_mono_r; lia).
  set (p := local_offset cfg `div` sc_size c) in *.
  assert (align_down (local_offset cfg) (sc_size c) = p * sc_size c) as Hal.
  { unfold p. rewrite Hck. apply align_down_spec; lia. }
  pose proof (Z.div_mod (local_offset cfg) (sc_size c) ltac:(lia)) as Hdm. fold p in Hdm.
  pose proof (Z.mod_pos_bound (local_offset cfg) (sc_size c) Hpos) as Hmod.
  destruct window_configuration as (conf & Hconf & Hcs & Hco).
  destruct (configure_tlb_fits arch t i conf (set_local_offset cfg p) (config_space w) Ht Hi Hconf)
    as (lu & Hcfg & Hok & Hdec & Hlt); [by rewrite Hco|].
  eexists. split.
  - unfold configure, handle_configure. rewrite Hsz, Hal, (proj2 (Z.eqb_neq _ _)) by lia.
    change (local_offset (set_local_offset cfg (p * sc_size c))) with (p * sc_size c).
    rewrite Z.div_mul, Ha, Hid, set_local_offset_twice, Hcfg by lia. cbn [mbind result_bind tlb_handle config_space device]. reflexivity.
  - pose proof (register_fits arch t i conf Harch Ht Hconf) as Hbits.
    constructor; cbn [tlb_handle config_space device offset_from_aligned_addr].
    + unfold window_of; cbn. auto.
    + done.
    + unfold u64. rewrite Z.mod_small by lia. lia.
    + unfold hw_window; cbn [tlb_handle config_space tlb_arch tlb_id].
      rewrite Ht; cbn [mbind result_bind]. rewrite Hconf; cbn [mbind result_bind].
      unfold ArchTlbs.read_register. rewrite register_words_written; [|done|].
      * by rewrite Hdec, Hcs.
      * eapply Z.lt_le_trans; [exact Hlt|]. apply Z.pow_le_mono_r; lia.
    + intros j Hj Hji. unfold ArchTlbs.read_register. f_equal.
      apply (register_words_other _ (num_config_words arch)).
      { rewrite length_take. lia. }
      pose proof window_index. rewrite !(register_addr_eq arch) by done.
      assert (4 * Z.of_nat (num_config_words arch) ≤ cfg_reg_size_bytes t).
      { destruct Harch as [-> | ->]; injection Ht as <-; by vm_compute. }
      pose proof (get_architecture_tlbs_wf _ _ Ht) as (_ & _ & _ & _ & Hb). nia.
Qed.

(** The addresses of a transfer can all be configured: none wraps around, and
    the last one (hence every one) has an address prefix that fits the
    register. *)
Definition reachable (cfg : tlb_data) (addr len : Z) : Prop :=
  0 ≤ addr ∧ addr + len ≤ 2 ^ 64 ∧
  (0 < len → fits (set_local_offset cfg ((addr + len - 1) `div` sc_size c)) (sc_register_layout c)).

Lemma class_size_facts : 0 < sc_size c < 2 ^ 64 ∧ sc_size c `mod` 4 = 0.
Proof using Hc Ht.
  destruct (class_size_pow2 arch t c Ht) as (k & Hk & Hck); [by apply (find_class_Some i)|].
  rewrite Hck. split.
  - split; [apply Z.pow_pos_nonneg; lia|apply Z.pow_lt_mono_r; lia].
  - replace (2 ^ k) with (2 ^ (k - 2) * 4); [apply Z.mod_mul; lia|].
    change 4 with (2 ^ 2). rewrite <- Z.pow_add_r by lia. f_equal. lia.
Qed.

(** One step of a transfer at [addr]: the window reaches [addr], and the chunk
    fits in what is left of the window. *)
Lemma configure_chunk cfg w addr len :
  window_of w → 0 < len → reachable cfg addr len → local_offset cfg = addr →
  ∃ w', configure cfg w = Ok w' ∧ configured cfg w w' ∧
    get_size w' = sc_size c - addr `mod` sc_size c ∧ 0 < get_size w' ∧
    hw_window w' = Ok (set_local_offset cfg 0, addr - addr `mod` sc_size c) ∧
    offset_from_aligned_addr w' = addr `mod` sc_size c.
Proof using Harch Hc Hi Ht.
  intros Hw Hlen (Ha & Hub & Hfit) Hlo. destruct class_size_facts as [Hs _].
  pose proof (Z.mod_pos_bound addr (sc_size c) ltac:(lia)) as Hmod.
  pose proof (Z.div_mod addr (sc_size c) ltac:(lia)) as Hdm.
  destruct (configure_spec cfg w Hw) as (w' & Hcfg & Hconf).
  { lia. }
  { rewrite Hlo. eapply fits_smaller; [by apply Hfit|].
    split; [apply Z.div_pos; lia|apply Z.div_le_mono; lia]. }
  exists w'. split; [done|]. split; [done|]. destruct Hconf as [(Hid & Hsz & Har) _ Hoff Hhw _].
  rewrite Hlo in Hoff, Hhw. unfold get_size. rewrite Hsz, Hoff. unfold u64. rewrite Z.mod_small by lia.
  split; [done|]. split; [lia|]. split; [|done]. rewrite Hhw. do 2 f_equal. lia.
Qed.

Lemma reachable_rest cfg addr len n :
  reachable cfg addr len → 0 ≤ n < len → reachable (set_local_offset cfg (u64 (addr + n))) (addr + n) (len - n).
Proof using.
  intros (Ha & Hub & Hfit) Hn. repeat split; [lia..|]. intros _. rewrite set_local_offset_twice.
  replace (addr + n + (len - n) - 1) with (addr + len - 1) by lia. apply Hfit. lia.
Qed.

Lemma same_other_trans m1 m2 m3 :
  same_other_registers m1 m2 → same_other_registers m2 m3 → same_other_registers m1 m3.
Proof using. intros H12 H23 j Hj Hji. rewrite (H23 j Hj Hji). by apply H12. Qed.

(** What an operation of the window does at offset 0, for lengths (and offsets
    in the window) that are multiples of [g]. *)
Definition writes_bytes (g : Z) (op : list Z → Window D → result (Window D)) : Prop :=
  ∀ data w tgt base, window_of w → hw_window w = Ok (tgt, base) →
    vec_size data ≤ get_size w → get_size w ≤ sc_size c → 0 ≤ offset_from_aligned_addr w < sc_size c →
    (g | vec_size data) → (g | offset_from_aligned_addr w) → 
    op data w = Ok (set_device w (dev_write tgt (base + offset_from_aligned_addr w) data (device w))).

Definition reads_bytes (g : Z) (op : nat → Window D → result (list Z)) : Prop :=
  ∀ n w tgt base, window_of w → hw_window w = Ok (tgt, base) →
    Z.of_nat n ≤ get_size w → get_size w ≤ sc_size c → 0 ≤ offset_from_aligned_addr w < sc_size c →
    (g | Z.of_nat n) → (g | offset_from_aligned_addr w) →
    op n w = Ok (dev_read tgt (base + offset_from_aligned_addr w) n (device w)).

Lemma divide_min g a b : (g | a) → (g | b) → (g | Z.min a b).
Proof using. intros. destruct (Z.min_spec a b) as [[_ ->]|[_ ->]]; done. Qed.

Lemma divide_mod_size g a : (g | a) → (g | sc_size c) → (g | a `mod` sc_size c).
Proof using Hc Ht.
  intros Ha Hs. destruct class_size_facts as [? _]. rewrite Z.mod_eq by lia.
  apply Z.divide_sub_r; [done|]. by apply Z.divide_mul_l.
Qed.

Lemma transfer_out_spec g op : (g | sc_size c) → writes_bytes g op →
  ∀ fuel cfg buffer w addr,
    (length buffer ≤ fuel)%nat → window_of w → local_offset cfg = addr →
    reachable cfg addr (vec_size buffer) → (g | addr) → (g | vec_size buffer) →
    ∃ w', transfer_out fuel op cfg buffer w = Ok w' ∧ window_of w'
      ∧ device w' = dev_write (set_local_offset cfg 0) addr buffer (device w)
      ∧ same_other_registers (config_space w) (config_space w').
Proof using H0 Harch Hc Hi Ht.
  intros Hg Hop. induction fuel as [|fuel IH]; intros cfg buffer w addr Hfuel Hw Hlo Hr Hga Hgb.
  { destruct buffer; [|simpl in Hfuel; lia]. exists w. rewrite dev_write_nil. by split_and!. }
  destruct (decide (buffer = [])) as [->|Hne].
  { exists w. rewrite dev_write_nil. by split_and!. }
  assert (0 < vec_size buffer) as Hlen by (destruct buffer; [done|unfold vec_size; simpl; lia]).
  destruct (configure_chunk cfg w addr _ Hw Hlen Hr Hlo) as (w1 & Hcfg & Hconf & Hsz & Hpos & Hhw & Hoff).
  destruct class_size_facts as [Hs _]. pose proof (Z.mod_pos_bound addr (sc_size c) ltac:(lia)) as Hmod.
  pose proof (divide_mod_size g addr Hga Hg) as Hgoff.
  set (n := Z.min (vec_size buffer) (get_size w1)).
  assert ((g | n)) as Hgn.
  { apply divide_min; [done|]. rewrite Hsz. by apply Z.divide_sub_r. }
  assert (0 < n ≤ vec_size buffer) as Hn by lia.
  assert (vec_size (take (Z.to_nat n) buffer) = n) as Htake.
  { unfold vec_size in *. rewrite length_take. lia. }
  pose proof (Hop (take (Z.to_nat n) buffer) w1 _ _ (configured_window _ _ _ Hconf) Hhw) as Hstep.
  rewrite Htake, Hoff in Hstep. rewrite Hsz in Hstep.
  specialize (Hstep ltac:(lia) ltac:(lia) ltac:(lia) Hgn Hgoff).
  replace (addr - addr `mod` sc_size c + addr `mod` sc_size c) with addr in Hstep by lia.
  rewrite (configured_device _ _ _ Hconf) in Hstep.
  set (w2 := set_device w1 (dev_write (set_local_offset cfg 0) addr (take (Z.to_nat n) buffer) (device w))) in *.
  assert (vec_size (drop (Z.to_nat n) buffer) = vec_size buffer - n) as Hdrop.
  { unfold vec_size in *. rewrite length_drop. lia. }
  assert (∃ w', transfer_out fuel op (set_local_offset cfg (u64 (addr + n))) (drop (Z.to_nat n) buffer) w2 = Ok w'
    ∧ window_of w' ∧ device w' = dev_write (set_local_offset cfg 0) (addr + n) (drop (Z.to_nat n) buffer) (device w2)
    ∧ same_other_registers (config_space w2) (config_space w')) as (w' & Hrest & Hw' & Hdev & Hoth).
  { destruct (decide (n = vec_size buffer)) as [Hall|Hmore].
    - exists w2. rewrite drop_ge by (unfold vec_size in *; lia). rewrite dev_write_nil.
      split; [by destruct fuel|]. split; [exact (configured_window _ _ _ Hconf)|done].
    - destruct (IH (set_local_offset cfg (u64 (addr + n))) (drop (Z.to_nat n) buffer) w2 (addr + n))
        as (w' & Ho & Hw' & Hd & Hsame).
      + rewrite length_drop. lia.
      + exact (configured_window _ _ _ Hconf).
      + destruct Hr as (? & ? & _). apply Z.mod_small. lia.
      + rewrite Hdrop. apply reachable_rest; [done|lia].
      + by apply Z.divide_add_r.
      + rewrite Hdrop. by apply Z.divide_sub_r.
      + exists w'. by rewrite set_local_offset_twice in Hd. }
  exists w'. split.
  - destruct buffer as [|b bs]; [done|]. cbn [transfer_out]. rewrite Hcfg. cbn [mbind result_bind].
    fold n. rewrite Hstep. cbn [mbind result_bind]. by rewrite Hlo.
  - split; [done|]. split.
    + rewrite Hdev. unfold w2, set_device; cbn [device].
      rewrite <- (take_drop (Z.to_nat n) buffer) at 3. rewrite dev_write_app. by rewrite Htake.
    + eapply same_other_trans; [exact (configured_others _ _ _ Hconf)|exact Hoth].
Qed.

Lemma transfer_in_spec g op : (g | sc_size c) → reads_bytes g op →
  ∀ fuel cfg size w addr,
    (size ≤ fuel)%nat → window_of w → local_offset cfg = addr →
    reachable cfg addr (Z.of_nat size) → (g | addr) → (g | Z.of_nat size) →
    ∃ w', transfer_in fuel op cfg size w = Ok (dev_read (set_local_offset cfg 0) addr size (device w), w')
      ∧ window_of w' ∧ device w' = device w ∧ same_other_registers (config_space w) (config_space w').
Proof using H0 Harch Hc Hi Ht.
  intros Hg Hop. assert (∀ tgt a d, dev_read tgt a 0 d = []) as Hread0
    by (intros; apply nil_length_inv, dev_read_length).
  induction fuel as [|fuel IH]; intros cfg size w addr Hfuel Hw Hlo Hr Hga Hgb.
  { assert (size = 0%nat) as -> by lia. exists w. rewrite Hread0. by split_and!. }
  destruct (decide (size = 0%nat)) as [->|Hne].
  { exists w. rewrite Hread0. by split_and!. }
  destruct (configure_chunk cfg w addr (Z.of_nat size) Hw ltac:(lia) Hr Hlo)
    as (w1 & Hcfg & Hconf & Hsz & Hpos & Hhw & Hoff).
  destruct class_size_facts as [Hs _]. pose proof (Z.mod_pos_bound addr (sc_size c) ltac:(lia)) as Hmod.
  pose proof (divide_mod_size g addr Hga Hg) as Hgoff.
  set (n := Z.min (Z.of_nat size) (get_size w1)).
  assert ((g | n)) as Hgn.
  { apply divide_min; [done|]. rewrite Hsz. by apply Z.divide_sub_r. }
  assert (0 < n ≤ Z.of_nat size) as Hn by lia.
  pose proof (Hop (Z.to_nat n) w1 _ _ (configured_window _ _ _ Hconf) Hhw) as Hstep.
  rewrite Z2Nat.id, Hoff, Hsz in Hstep by lia.
  specialize (Hstep ltac:(lia) ltac:(lia) ltac:(lia) Hgn Hgoff).
  replace (addr - addr `mod` sc_size c + addr `mod` sc_size c) with addr in Hstep by lia.
  rewrite (configured_device _ _ _ Hconf) in Hstep.
  assert (∃ w', transfer_in fuel op (set_local_offset cfg (u64 (addr + n))) (size - Z.to_nat n) w1
      = Ok (dev_read (set_local_offset cfg 0) (addr + n) (size - Z.to_nat n) (device w), w')
    ∧ window_of w' ∧ device w' = device w
    ∧ same_other_registers (config_space w1) (config_space w')) as (w' & Hrest & Hw' & Hdev & Hoth).
  { destruct (decide (n = Z.of_nat size)) as [Hall|Hmore].
    - replace (size - Z.to_nat n)%nat with 0%nat by lia. exists w1. rewrite Hread0.
      split; [by destruct fuel|]. split; [exact (configured_window _ _ _ Hconf)|].
      split; [exact (configured_device _ _ _ Hconf)|done].
    - destruct (IH (set_local_offset cfg (u64 (addr + n))) (size - Z.to_nat n)%nat w1 (addr + n))
        as (w' & Ho & Hw' & Hd & Hsame).
      + lia.
      + exact (configured_window _ _ _ Hconf).
      + destruct Hr as (? & ? & _). apply Z.mod_small. lia.
      + rewrite Nat2Z.inj_sub, Z2Nat.id by lia. apply reachable_rest; [done|lia].
      + by apply Z.divide_add_r.
      + rewrite Nat2Z.inj_sub, Z2Nat.id by lia. by apply Z.divide_sub_r.
      + exists w'. rewrite set_local_offset_twice, (configured_device _ _ _ Hconf) in Ho.
        rewrite (configured_device _ _ _ Hconf) in Hd. by split_and!. }
  exists w'. split.
  - destruct size as [|size]; [done|]. cbn [transfer_in]. rewrite Hcfg. cbn [mbind result_bind].
    fold n. rewrite Hstep. cbn [mbind result_bind]. rewrite Hlo, Hrest. cbn [mbind result_bind].
    do 2 f_equal. transitivity (dev_read (set_local_offset cfg 0) addr (Z.to_nat n + (S size - Z.to_nat n)) (device w)).
    + rewrite dev_read_app. by rewrite Z2Nat.id by lia.
    + f_equal. lia.
  - split; [done|]. split; [done|]. eapply same_other_trans; [exact (configured_others _ _ _ Hconf)|exact Hoth].
Qed.

Lemma validate_ok (w : Window D) n : 0 ≤ n ≤ get_size w → get_size w ≤ sc_size c → validate 0 n w = Ok tt.
Proof using Hc Ht.
  intros Hn Hs. unfold validate. destruct class_size_facts as [Hsz _].
  assert (u64 (0 + n) = n) as -> by (apply Z.mod_small; lia).
  by rewrite (proj2 (Z.ltb_ge _ _)) by lia.
Qed.

Lemma total_offset (w : Window D) :
  0 ≤ offset_from_aligned_addr w < sc_size c → get_total_offset w 0 = offset_from_aligned_addr w.
Proof using Hc Ht. intros. destruct class_size_facts as [Hsz _]. apply Z.mod_small. lia. Qed.

Lemma write_block_bytes `{!PlainMemory D} : writes_bytes 1 (write_block 0).
Proof using H0 Hc Ht.
  intros data w tgt base Hw Hhw Hlen Hsz Hoff _ _. unfold write_block.
  rewrite (validate_ok w) by (unfold vec_size in *; lia). cbn [mbind result_bind]. rewrite Hhw. cbn [mbind result_bind].
  rewrite total_offset by done. do 2 f_equal.
  destruct (tlb_arch (tlb_handle w)); try done. apply memcpy_to_device_correct. lia.
Qed.

Lemma read_block_bytes : reads_bytes 1 (read_block 0).
Proof using H0 Hc Ht.
  intros n w tgt base Hw Hhw Hlen Hsz Hoff _ _. unfold read_block.
  rewrite (validate_ok w) by lia. cbn [mbind result_bind]. rewrite Hhw. cbn [mbind result_bind].
  rewrite total_offset by done. f_equal.
  destruct (tlb_arch (tlb_handle w)); try done. apply memcpy_from_device_spec. lia.
Qed.

Lemma write_register_bytes : writes_bytes 4 (write_register 0).
Proof using H0 Hc Ht.
  intros data w tgt base Hw Hhw Hlen Hsz Hoff Hg _. unfold write_register.
  rewrite (validate_ok w) by (unfold vec_size in *; lia). cbn [mbind result_bind]. rewrite Hhw. cbn [mbind result_bind].
  rewrite total_offset by done. do 2 f_equal. apply write_regs_spec.
  unfold vec_size in Hg. destruct Hg as [k Hk]. pose proof (Nat.div_mod_eq (length data) 4).
  assert (length data mod 4 = 0)%nat; [|lia]. apply Nat2Z.inj. rewrite Nat2Z.inj_mod, Hk. apply Z.mod_mul. lia.
Qed.

Lemma read_register_bytes : reads_bytes 4 (read_register 0).
Proof using H0 Hc Ht.
  intros n w tgt base Hw Hhw Hlen Hsz Hoff Hg _. unfold read_register.
  rewrite (validate_ok w) by lia. cbn [mbind result_bind]. rewrite Hhw. cbn [mbind result_bind].
  rewrite total_offset by done. f_equal. rewrite read_regs_spec. f_equal.
  destruct Hg as [k Hk]. pose proof (Nat.div_mod_eq n 4).
  assert (n mod 4 = 0)%nat; [|lia]. apply Nat2Z.inj. rewrite Nat2Z.inj_mod, Hk. apply Z.mod_mul. lia.
Qed.
End window.

(** ** A byte memory per target, an instance of the interface *)

Definition ByteMemory : Type := tlb_data → Z → Z.

#[global] Instance byte_memory : NocDevice ByteMemory := {
  dev_write t a b d := λ t' a',
    if decide (t' = t ∧ a ≤ a' < a + vec_size b) then nth (Z.to_nat (a' - a)) b 0 else d t' a';
  dev_read t a n d := map (d t) (seqZ a (Z.of_nat n))
}.

Lemma byte_write_in t a b d a' :
  a ≤ a' < a + vec_size b → dev_write t a b d t a' = nth (Z.to_nat (a' - a)) b 0.
Proof. intros. cbn [dev_write byte_memory]. by rewrite decide_True. Qed.
Lemma byte_write_out t a b d t' a' :
  t' ≠ t ∨ ¬ (a ≤ a' < a + vec_size b) → dev_write t a b d t' a' = d t' a'.
Proof. intros Hout. cbn [dev_write byte_memory]. rewrite decide_False; [done|]. tauto. Qed.

#[global] Instance byte_memory_laws : NocDeviceLaws ByteMemory.
Proof.
  split.
  - intros t a d. extensionality t'; extensionality a'. apply byte_write_out.
    right. unfold vec_size; simpl; lia.
  - intros t a b1 b2 d. extensionality t'; extensionality a'.
    assert (vec_size (b1 ++ b2) = vec_size b1 + vec_size b2) as Hlen.
    { unfold vec_size. rewrite length_app. lia. }
    destruct (decide (t' = t)) as [->|Ht]; [|by rewrite !byte_write_out by tauto].
    destruct (decide (a ≤ a' < a + vec_size b1)) as [H1|H1].
    { rewrite byte_write_in, byte_write_out, byte_write_in by (unfold vec_size in *; lia).
      apply app_nth1. unfold vec_size in *. lia. }
    destruct (decide (a + vec_size b1 ≤ a' < a + vec_size b1 + vec_size b2)) as [H2|H2].
    { rewrite !byte_write_in by (unfold vec_size in *; lia).
      rewrite app_nth2 by (unfold vec_size in *; lia). f_equal. unfold vec_size in *. lia. }
    by rewrite !byte_write_out by (unfold vec_size in *; lia).
  - intros t a n d. cbn [dev_read byte_memory]. rewrite length_map, length_seqZ. lia.
  - intros t a n m d. cbn [dev_read byte_memory]. by rewrite Nat2Z.inj_add, seqZ_app, map_app by lia.
Qed.

#[global] Instance byte_memory_plain : PlainMemory ByteMemory.
Proof.
  split.
  - intros t a b d a' n Hap. cbn [dev_read byte_memory]. apply map_ext_in. intros x Hx.
    apply list_elem_of_In, elem_of_seqZ in Hx. apply byte_write_out. right. unfold vec_size in *. lia.
  - intros t a b d. cbn [dev_read byte_memory]. apply list_eq. intros k.
    change (map ?f ?l) with (f <$> l). rewrite list_lookup_fmap.
    destruct (decide (k < length b)%nat) as [Hk|Hk].
    + rewrite lookup_seqZ_lt by lia. cbn [fmap option_fmap option_map].
      rewrite byte_write_in by (unfold vec_size; lia). replace (Z.to_nat (a + Z.of_nat k - a)) with k by lia.
      symmetry. destruct (nth_lookup_or_length b k 0); [done|lia].
    + rewrite lookup_seqZ_ge by lia. by rewrite lookup_ge_None_2 by lia.
  - intros t a n d. extensionality t'; extensionality a'.
    destruct (decide (t' = t ∧ a ≤ a' < a + Z.of_nat n)) as [[-> Hin]|Hout].
    + rewrite byte_write_in by (unfold vec_size; rewrite dev_read_length; lia).
      apply nth_lookup_Some. cbn [dev_read byte_memory]. change (map ?f ?l) with (f <$> l).
      rewrite list_lookup_fmap, lookup_seqZ_lt by lia. cbn. do 2 f_equal. lia.
    + apply byte_write_out. unfold vec_size. rewrite dev_read_length.
      destruct (decide (t' = t)) as [->|]; [right; tauto|by left].
Qed.

(** ** The transfers *)

Section transfers.
Context {D : Type} `{NocDeviceLaws D} (arch : ARCH) (Harch : writes_whole_register arch).
Context (t : ArchitectureTlbs) (Ht : get_architecture_tlbs arch = Ok t).
Context (i : Z) (Hi : 0 ≤ i) (c : TlbSizeClass) (Hc : find_class i (size_classes t) = Some c).

(** The outcome of a transfer that leaves the device in state [d]. *)
Definition moved (w w' : Window D) (d : D) : Prop :=
  window_of arch i c w' ∧ device w' = d ∧ same_other_registers arch t i (config_space w) (config_space w').

Lemma moved_trans w w' w'' d d' : moved w w' d → moved w' w'' d' → moved w w'' d'.
Proof using.
  intros (_ & _ & Ho1) (Hw & Hd & Ho2). split_and!; [done..|]. by eapply same_other_trans.
Qed.

(** On Wormhole and Blackhole, [write_block_reconfigure] and
    [noc_multicast_write_reconfigure] through any TLB window terminate without
    an error for a target and addresses that the window's register can hold;
    together their chunks write exactly the bytes of the buffer, at the
    addresses from [addr] on, to the target asked for, and no register of
    another window changes. *)
Lemma write_block_reconfigure_correct `{!PlainMemory D} w mem core start addr noc ord :
  window_of arch i c w →
  let cfg s := make_tlb_config arch addr core noc ord s in
  (reachable c (cfg None) addr (vec_size mem) →
   ∃ w', write_block_reconfigure mem core addr noc ord w = Ok w' ∧
     moved w w' (dev_write (set_local_offset (cfg None) 0) addr mem (device w))) ∧
  (reachable c (cfg (Some start)) addr (vec_size mem) →
   ∃ w', noc_multicast_write_reconfigure mem start core addr noc ord w = Ok w' ∧
     moved w w' (dev_write (set_local_offset (cfg (Some start)) 0) addr mem (device w))).
Proof using H0 Harch Hc Hi Ht.
  intros Hw cfg. assert (tlb_arch (tlb_handle w) = arch) as Ha by apply Hw.
  unfold write_block_reconfigure, noc_multicast_write_reconfigure, config_for. rewrite Ha.
  split; intros Hr;
    (edestruct (transfer_out_spec arch Harch t Ht i Hi c Hc 1 (write_block 0))
      as (w' & Ho & Hw' & Hd & Hs);
      [apply Z.divide_1_l|by eapply write_block_bytes|reflexivity|exact Hw| |exact Hr|apply Z.divide_1_l..|];
      [done|by exists w']).
Qed.

(** C39: [read_block_reconfigure] returns exactly the bytes at the addresses from
    [addr] on, in order, without changing the device. *)
Lemma read_block_reconfigure_correct w core addr n noc ord :
  window_of arch i c w →
  let cfg := make_tlb_config arch addr core noc ord None in
  reachable c cfg addr (Z.of_nat n) →
  ∃ w', read_block_reconfigure core addr n noc ord w
          = Ok (dev_read (set_local_offset cfg 0) addr n (device w), w')
    ∧ moved w w' (device w).
Proof using H0 Harch Hc Hi Ht.
  intros Hw cfg Hr. assert (tlb_arch (tlb_handle w) = arch) as Ha by apply Hw.
  unfold read_block_reconfigure, config_for. rewrite Ha.
  edestruct (transfer_in_spec arch Harch t Ht i Hi c Hc 1 (read_block 0)) as (w' & Ho & Hw' & Hd & Hs);
    [apply Z.divide_1_l|by eapply read_block_bytes|reflexivity|exact Hw| |exact Hr|apply Z.divide_1_l..|];
    [done|by exists w'].
Qed.

(** For word-aligned addresses and lengths the register variants move exactly
    the same bytes by 32-bit accesses. *)
Lemma register_reconfigure_correct w mem core addr noc ord :
  window_of arch i c w → (4 | addr) → (4 | vec_size mem) →
  let cfg := make_tlb_config arch addr core noc ord None in
  reachable c cfg addr (vec_size mem) →
  (∃ w', write_register_reconfigure mem core addr noc ord w = Ok w' ∧
     moved w w' (dev_write (set_local_offset cfg 0) addr mem (device w))) ∧
  ∃ w', read_register_reconfigure core addr (length mem) noc ord w
          = Ok (dev_read (set_local_offset cfg 0) addr (length mem) (device w), w')
    ∧ moved w w' (device w).
Proof using H0 Harch Hc Hi Ht.
  intros Hw Hga Hgl cfg Hr. assert (tlb_arch (tlb_handle w) = arch) as Ha by apply Hw.
  unfold write_register_reconfigure, read_register_reconfigure, config_for. rewrite Ha.
  assert ((4 | sc_size c)) as Hg4.
  { apply Z.mod_divide; [lia|]. eapply class_size_facts; done. }
  split.
  - edestruct (transfer_out_spec arch Harch t Ht i Hi c Hc 4 (write_register 0)) as (w' & Ho & Hw' & Hd & Hs);
      [done|by eapply write_register_bytes|reflexivity|exact Hw| |exact Hr|done|done|]; [done|by exists w'].
  - edestruct (transfer_in_spec arch Harch t Ht i Hi c Hc 4 (read_register 0)) as (w' & Ho & Hw' & Hd & Hs);
      [done|by eapply read_register_bytes|reflexivity|exact Hw| |exact Hr|done|done|]; [done|by exists w'].
Qed.
End transfers.

(** A Wormhole 1 MB window, and a transfer of three bytes across the end of the
    window it first aims at. *)
Definition example_window : Window ByteMemory :=
  MkWindow (MkTlbHandle 5 ONE_MB WORMHOLE_B0 tlb_data_default) 0 ∅ (λ _ _, 0).

Definition example_class : TlbSizeClass := MkSizeClass ONE_MB 156 0 0 false wormhole_tlb.TLB_1M_OFFSET.

Lemma example_reachable start :
  reachable example_class
    (make_tlb_config WORMHOLE_B0 (2 ^ 20 - 2) (XY 18 19) 1 Strict start) (2 ^ 20 - 2) 4 ↔
  match start with None => True | Some s => 0 ≤ xy_x s < 64 ∧ 0 ≤ xy_y s < 64 end.
Proof.
  unfold reachable. destruct start as [[x y]|]; cbn -[Z.pow Z.div].
  - unfold fits, field_values, field_bounds; cbn -[Z.pow Z.div]. rewrite !Forall2_cons.
    split; [intros (_ & _ & Hf); specialize (Hf ltac:(lia)); lia|].
    intros Hs. split; [lia|]. split; [lia|]. intros _. split_and!; try done; try lia; by constructor.
  - split; [done|]. intros _. split; [lia|]. split; [lia|]. intros _.
    apply (bool_decide_unpack _). by vm_compute.
Qed.

Lemma write_block_reconfigure_correct_witness :
  ∃ w', write_block_reconfigure [1; 2; 3; 4] (XY 18 19) (2 ^ 20 - 2) 1 Strict example_window = Ok w' ∧
    moved WORMHOLE_B0 wormhole_windows.wormhole_tlbs 5
      example_class example_window w'
      (dev_write (set_local_offset (make_tlb_config WORMHOLE_B0 (2 ^ 20 - 2) (XY 18 19) 1 Strict None) 0)
         (2 ^ 20 - 2) [1; 2; 3; 4] (device example_window)).
Proof.
  refine (proj1 (write_block_reconfigure_correct (D:=ByteMemory) WORMHOLE_B0 (or_introl eq_refl)
    wormhole_windows.wormhole_tlbs eq_refl 5 ltac:(lia) example_class eq_refl example_window [1; 2; 3; 4]
    (XY 18 19) (XY 0 0) (2 ^ 20 - 2) 1 Strict _) _).
  - by split_and!.
  - by apply example_reachable.
Defined.

Lemma read_block_reconfigure_correct_witness :
  ∃ w', read_block_reconfigure (XY 18 19) (2 ^ 20 - 2) 4 1 Strict example_window = Ok ([0; 0; 0; 0], w')
    ∧ moved WORMHOLE_B0 wormhole_windows.wormhole_tlbs 5
        example_class example_window w' (device example_window).
Proof.
  change [0; 0; 0; 0] with (dev_read (set_local_offset
    (make_tlb_config WORMHOLE_B0 (2 ^ 20 - 2) (XY 18 19) 1 Strict None) 0) (2 ^ 20 - 2) 4 (device example_window)).
  apply (read_block_reconfigure_correct (D:=ByteMemory) WORMHOLE_B0 (or_introl eq_refl)
    wormhole_windows.wormhole_tlbs eq_refl 5 ltac:(lia) example_class eq_refl example_window (XY 18 19) (2 ^ 20 - 2) 4 1 Strict).
  - by split_and!.
  - by apply example_reachable.
Defined.

Lemma register_reconfigure_correct_witness :
  ∃ w', write_register_reconfigure [1; 2; 3; 4] (XY 18 19) 4096 0 Strict example_window = Ok w' ∧
    moved WORMHOLE_B0 wormhole_windows.wormhole_tlbs 5
      example_class example_window w'
      (dev_write (set_local_offset (make_tlb_config WORMHOLE_B0 4096 (XY 18 19) 0 Strict None) 0)
         4096 [1; 2; 3; 4] (device example_window)).
Proof.
  refine (proj1 (register_reconfigure_correct (D:=ByteMemory) WORMHOLE_B0 (or_introl eq_refl)
    wormhole_windows.wormhole_tlbs eq_refl 5 ltac:(lia) example_class eq_refl example_window [1; 2; 3; 4]
    (XY 18 19) 4096 0 Strict _ _ _ _)).
  - by split_and!.
  - by exists 1024.
  - by exists 1.
  - split; [lia|]. split; [by vm_compute|]. intros _. apply (bool_decide_unpack _). by vm_compute.
Defined.

Lemma memcpy_to_device_correct_witness :
  memcpy_to_device tlb_data_default 4096 5 [9; 8; 7; 6; 5] (λ _ _, 1) =
  dev_write (D:=ByteMemory) tlb_data_default (4096 + 5) [9; 8; 7; 6; 5] (λ _ _, 1).
Proof. apply (memcpy_to_device_correct (D:=ByteMemory) tlb_data_default 4096 5); lia. Defined.

(** ** The simulation's window *)

(** [get_base_address]. *)
Definition get_base_address {D} (w : Window D) : Z :=
  u64 (local_offset (tlb_config (tlb_handle w)) + offset_from_aligned_addr w).

(** On silicon the handle keeps the aligned address, and [get_base_address] is
    the address the window was configured for. *)
Lemma silicon_base_address {D} `{NocDevice D} cfg (w w' : Window D) k :
  0 ≤ k < 64 → tlb_size (tlb_handle w) = 2 ^ k → 0 ≤ local_offset cfg < 2 ^ 64 →
  configure cfg w = Ok w' → get_base_address w' = local_offset cfg.
Proof.
  intros Hk Hsz Hlo. assert (0 < 2 ^ k) by (apply Z.pow_pos_nonneg; lia).
  pose proof (Z.div_mod (local_offset cfg) (2 ^ k) ltac:(lia)).
  pose proof (Z.mod_pos_bound (local_offset cfg) (2 ^ k) ltac:(lia)).
  assert (0 ≤ local_offset cfg `div` 2 ^ k) by (apply Z.div_pos; lia).
  unfold configure, handle_configure. rewrite Hsz, align_down_spec, (proj2 (Z.eqb_neq _ _)) by lia.
  destruct (configure_tlb _ _ _ _); [|done]. cbn [mbind result_bind]. intros [= <-].
  unfold get_base_address; cbn -[Z.pow u64].
  assert (∀ z, 0 ≤ z < 2 ^ 64 → u64 z = z) as Hu by (intros; by apply Z.mod_small).
  rewrite (Hu (local_offset cfg - _)) by nia. rewrite Hu by nia. lia.
Qed.

Module RtlSim.
(** [RtlSimTlbHandle::configure]: the handle keeps the address in units of the
    window size. *)
Definition handle_configure {D} (new_config : tlb_data) (w : Window D) : Window D :=
  let h := tlb_handle w in
  let d := set_local_offset new_config (local_offset new_config `div` tlb_size h) in
  let d := MkTlbData (local_offset d) (x_end d) (y_end d) (x_start d) (y_start d) (noc_sel d) (mcast d) 0
             (linked d) 0 in
  MkWindow (MkTlbHandle (tlb_id h) (tlb_size h) (tlb_arch h) d) (offset_from_aligned_addr w)
    (config_space w) (device w).

Definition configure {D} (new_config : tlb_data) (w : Window D) : Window D :=
  let aligned := align_down (local_offset new_config) (tlb_size (tlb_handle w)) in
  let w := handle_configure (set_local_offset new_config aligned) w in
  MkWindow (tlb_handle w) (u64 (local_offset new_config - aligned)) (config_space w) (device w).

(** The device address of [translate_and_write], [translate_and_read]. *)
Definition device_addr {D} (offset : Z) (w : Window D) : Z :=
  u64 (u64 (local_offset (tlb_config (tlb_handle w)) * tlb_size (tlb_handle w)) + get_total_offset w offset).

(** The simulated window reaches the configured address ... *)
Lemma device_addr_configured {D} cfg (w : Window D) k :
  0 ≤ k < 64 → tlb_size (tlb_handle w) = 2 ^ k → 0 ≤ local_offset cfg < 2 ^ 64 →
  device_addr 0 (configure cfg w) = local_offset cfg.
Proof.
  intros Hk Hsz Hlo. assert (0 < 2 ^ k) by (apply Z.pow_pos_nonneg; lia).
  pose proof (Z.div_mod (local_offset cfg) (2 ^ k) ltac:(lia)).
  pose proof (Z.mod_pos_bound (local_offset cfg) (2 ^ k) ltac:(lia)).
  assert (0 ≤ local_offset cfg `div` 2 ^ k) by (apply Z.div_pos; lia).
  unfold device_addr, get_total_offset, configure, handle_configure; cbn -[Z.pow].
  rewrite Hsz, align_down_spec by lia. rewrite Z.div_mul by lia.
  assert (∀ z, 0 ≤ z < 2 ^ 64 → u64 z = z) as Hu by (intros; by apply Z.mod_small).
  rewrite (Hu (local_offset cfg - _)) by nia. rewrite Z.add_0_l.
  rewrite (Hu (local_offset cfg - _)), (Hu (_ * _)) by nia. rewrite Hu by nia. lia.
Qed.

(** ... but [get_base_address], shared with silicon, adds the address in window
    units to an offset in bytes. *)
Lemma base_address_wrong :
  get_base_address (configure (MkTlbData (2 ^ 21) 1 1 0 0 0 0 0 0 0) example_window) = 2.
Proof. reflexivity. Qed.
End RtlSim.
