(* ===== verification/DeviceMemcpy.v ===== *)
(** * DeviceMemcpy

    [pcie/device_memcpy.cpp]: copies between host memory and memory of the
    device mapped through a TLB window, in stores and loads of the widths that
    the processor offers, with the guard on the time of each
    ([api/umd/device/utils/op_timeout_guard.hpp]).

    The mapped memory is a target of a [NocDevice] at the addresses of the
    mapping. The widths of the accesses matter to the device, so the copies
    keep the [log] of the accesses they make. *)

From Stdlib Require Import ZArith Lia.
From stdpp Require Import base list numbers.
From S2P Require Import Prelude Tlb TlbWindow.

Local Open Scope Z_scope.

(** ** The guard *)

(** What the k-th check of a transfer sees: the time the operation took, and
    the answer of the callback, were it asked. *)
Record OpTiming := MkOpTiming { elapsed : Z; false_alarm : bool }.

(** [OpTimeoutGuard], without its action: the budget (0 disables the check) and
    whether there is a callback. *)
Record OpTimeoutGuard := MkGuard { budget : Z; has_false_alarm : bool }.

(** [record_and_check]: whether the overrun is confirmed. *)
Definition overrun (g : OpTimeoutGuard) (op : OpTiming) : bool :=
  if (budget g =? 0) || (elapsed op <=? budget g) then false
  else negb (has_false_alarm g && false_alarm op).

(** The processor the library is compiled for, which selects the code of the
    wide accesses. *)
Inductive Target := X86_64 | GnuOther | OtherCompiler.

Section copies.
Context {D : Type} `{NocDevice D} (tgt : tlb_data).
Context (guard : OpTimeoutGuard) (timing : nat → OpTiming).

(** The state of a transfer: the device, the checks made, the accesses made
    (address and width). *)
Record Transfer := MkTransfer { dev : D; checks : nat; log : list (Z * nat) }.

(** A transfer ends, or the action of the guard throws [DeviceTimeoutError]
    with the bytes of the operation and the bytes remaining. *)
Inductive copy_result (A : Type) :=
  | Copied (a : A) (t : Transfer)
  | DeviceTimeoutError (op_bytes remaining : nat) (a : A) (t : Transfer).
Arguments Copied {A}.
Arguments DeviceTimeoutError {A}.

Definition and_then {A} (m : copy_result A) (k : A → Transfer → copy_result A) : copy_result A :=
  match m with
  | Copied a t => k a t
  | DeviceTimeoutError n r a t => DeviceTimeoutError n r a t
  end.

Definition check {A} (bytes remaining : nat) (a : A) (t : Transfer) : copy_result A :=
  let t' := MkTransfer (dev t) (S (checks t)) (log t) in
  if overrun guard (timing (checks t)) then DeviceTimeoutError bytes remaining a t' else Copied a t'.

(** ** Phases *)

(** A phase of a copy: a loop that moves [accesses * width] bytes per iteration
    while that many are left and, in a phase that aligns, while the device's
    address is not a multiple of [align]. *)
Record Phase := MkPhase {
  align : option Z;
  accesses : nat;
  width : nat;
  checked : bool;
  (* the pointers and the size move before the check *)
  moved_first : bool;
  (* an [if], not a [while] *)
  at_most_once : bool
}.

Definition phase_bytes (p : Phase) : nat := accesses p * width p.
Definition phase_continues (p : Phase) (device_addr : Z) (size : nat) : bool :=
  (phase_bytes p <=? size)%nat &&
  match align p with Some a => negb (device_addr `mod` a =? 0) | None => true end.

(** The two directions of a copy: the position, with its device address and the
    size left, a number of accesses of a width, and what has been copied when
    the check after them throws, from the positions before and after. *)
Record Direction (Pos : Type) := MkDirection {
  device_addr : Pos → Z;
  size_left : Pos → nat;
  move : nat → nat → Pos → Transfer → Pos * Transfer;
  thrown : Phase → Pos → Pos → Pos
}.
Arguments device_addr {Pos}.
Arguments size_left {Pos}.
Arguments move {Pos}.
Arguments thrown {Pos}.

Section direction.
Context {Pos : Type} (dir : Direction Pos).

Definition check_phase (p : Phase) (pos next : Pos) (t : Transfer) : copy_result Pos :=
  if checked p then
    let bytes := phase_bytes p in
    match check bytes (if moved_first p then size_left dir pos - bytes else size_left dir pos)%nat next t with
    | Copied next t => Copied next t
    | DeviceTimeoutError n r _ t => DeviceTimeoutError n r (thrown dir p pos next) t
    end
  else Copied next t.

Fixpoint phase_loop (fuel : nat) (p : Phase) (pos : Pos) (t : Transfer) : copy_result Pos :=
  match fuel with
  | O => Copied pos t
  | S fuel =>
      if phase_continues p (device_addr dir pos) (size_left dir pos) then
        let '(next, t) := move dir (accesses p) (width p) pos t in
        and_then (check_phase p pos next t) (phase_loop fuel p)
      else Copied pos t
  end.

Definition run_phase (p : Phase) (pos : Pos) (t : Transfer) : copy_result Pos :=
  phase_loop (if at_most_once p then 1 else size_left dir pos) p pos t.

Fixpoint run_phases (ps : list Phase) (pos : Pos) (t : Transfer) : copy_result Pos :=
  match ps with
  | [] => Copied pos t
  | p :: ps => and_then (run_phase p pos t) (run_phases ps)
  end.
End direction.

(** ** Stores and loads *)

(** [n] stores of [w] bytes one after the other. *)
Fixpoint stores (n w : nat) (d : Z) (s : list Z) (t : Transfer) : Transfer :=
  match n with
  | O => t
  | S n => stores n w (d + Z.of_nat w) (drop w s)
             (MkTransfer (dev_write tgt d (take w s) (dev t)) (checks t) (log t ++ [(d, w)]))
  end.

(** The position is the device's address and the source left; what was stored
    is on the device when the check throws. *)
Definition to_device : Direction (Z * list Z) := {|
  device_addr := fst;
  size_left pos := length pos.2;
  move n w pos t :=
    ((pos.1 + Z.of_nat (n * w), drop (n * w) pos.2), stores n w pos.1 pos.2 t);
  thrown _ _ next := next
|}.

(** [n] loads of [w] bytes one after the other. *)
Fixpoint loads (n w : nat) (s : Z) (t : Transfer) : list Z * Transfer :=
  match n with
  | O => ([], t)
  | S n =>
      let bytes := dev_read tgt s w (dev t) in
      let '(rest, t) := loads n w (s + Z.of_nat w) (MkTransfer (dev t) (checks t) (log t ++ [(s, w)])) in
      (bytes ++ rest, t)
  end.

(** The position is the device's address, the size left and the bytes stored in
    host memory so far. When the check throws, what was loaded has reached host
    memory only in the phases that move first. *)
Definition from_device : Direction (Z * nat * list Z) := {|
  device_addr pos := pos.1.1;
  size_left pos := pos.1.2;
  move n w pos t :=
    let '(bytes, t) := loads n w pos.1.1 t in
    ((pos.1.1 + Z.of_nat (n * w), (pos.1.2 - n * w)%nat, pos.2 ++ bytes), t);
  thrown p pos next := if moved_first p then next else pos
|}.
End copies.

Arguments MkTransfer {D}.
Arguments dev {D}.
Arguments checks {D}.
Arguments log {D}.
Arguments Copied {D A}.
Arguments DeviceTimeoutError {D A}.
Arguments device_addr {D Pos}.
Arguments size_left {D Pos}.
Arguments move {D Pos}.
Arguments thrown {D Pos}.

#[global] Instance target_eq_dec : EqDecision Target.
Proof. solve_decision. Defined.

(** ** The phases *)

Definition byte_phase (align : option Z) : Phase := MkPhase align 1 1 true true false.

(** The wide accesses in the middle: AVX2 on x86; on others the address is
    first aligned to 16 bytes, and only the words after it are checked. *)
Definition wide_phases (target : Target) : list Phase :=
  match target with
  | X86_64 =>
      [MkPhase None 8 32 true false false;
       MkPhase None 1 32 true false false;
       MkPhase None 1 16 true false true]
  | GnuOther =>
      [MkPhase (Some 16) 1 4 false false false;
       MkPhase None 8 32 false false false;
       MkPhase None 1 32 false false false;
       MkPhase None 1 16 false false true]
  | OtherCompiler => []
  end.

Definition copy_phases (target : Target) : list Phase :=
  byte_phase (Some 4) :: wide_phases target ++ [MkPhase None 1 4 true false false; byte_phase None].

Section entry_points.
Context {D : Type} `{NocDevice D} (tgt : tlb_data).
Context (guard : OpTimeoutGuard) (timing : nat → OpTiming).

(** [memcpy_to_device]. *)
Definition memcpy_to_device (target : Target) (dest : Z) (src : list Z) (t : Transfer) : copy_result (Z * list Z) :=
  run_phases guard timing (to_device tgt) (copy_phases target) (dest, src) t.

(** [memcpy_from_device]. *)
Definition memcpy_from_device (target : Target) (src : Z) (size : nat) (t : Transfer) : copy_result (Z * nat * list Z) :=
  run_phases guard timing (from_device tgt) (copy_phases target) (src, size, []) t.

(** [write16_to_device], [write32_to_device]: one store, checked. *)
Definition write_word_to_device (w : nat) (dest : Z) (value : list Z) (t : Transfer) : copy_result unit :=
  check guard timing w 0 tt (stores tgt 1 w dest value t).

(** [read16_from_device], [read32_from_device]. *)
Definition read_word_from_device (w : nat) (src : Z) (t : Transfer) : copy_result (list Z) :=
  let '(bytes, t) := loads tgt 1 w src t in check guard timing w 0 bytes t.
End entry_points.

(** ** What a copy does *)

(** Accesses one after the other from [d] to [d']. *)
Fixpoint consecutive (d : Z) (l : list (Z * nat)) (d' : Z) : Prop :=
  match l with
  | [] => d = d'
  | (a, w) :: l => a = d ∧ consecutive (d + Z.of_nat w) l d'
  end.

Lemma consecutive_app l1 l2 : ∀ d1 d2 d3,
  consecutive d1 l1 d2 → consecutive d2 l2 d3 → consecutive d1 (l1 ++ l2) d3.
Proof. induction l1 as [|[a w] l1 IH]; simpl; [by intros ? ? ? ->|]. intros ? ? ? [? ?] ?. split; [done|]. by eapply IH. Qed.

(** An access that the device takes: bytes anywhere, words and wide accesses at
    multiples of 4, and outside x86 the wide ones at multiples of 16. *)
Definition well_aligned (target : Target) (access : Z * nat) : Prop :=
  let '(a, w) := access in
  w = 1%nat ∨ (a `mod` 4 = 0 ∧ (target = GnuOther → w ≠ 4%nat → a `mod` 16 = 0)).

Section theory.
Context {D : Type} `{NocDeviceLaws D} (tgt : tlb_data).

(** From [t] to [t'] the device was given accesses from [d] to [d'], all
    satisfying [P], and [f] of its state. *)
Record accessed (P : Z * nat → Prop) (f : D → D) (d : Z) (t : Transfer) (d' : Z) (t' : Transfer) : Prop := {
  accessed_dev : dev t' = f (dev t);
  accessed_log : ∃ l, log t' = log t ++ l ∧ consecutive d l d' ∧ Forall P l;
  accessed_checks : (checks t ≤ checks t')%nat
}.

Lemma accessed_refl P d t : accessed P id d t d t.
Proof. split; [done| |done]. exists []. by rewrite app_nil_r. Qed.

Lemma accessed_trans P f g d1 t1 d2 t2 d3 t3 :
  accessed P f d1 t1 d2 t2 → accessed P g d2 t2 d3 t3 → accessed P (g ∘ f) d1 t1 d3 t3.
Proof.
  intros [H1 (l1 & E1 & C1 & F1) N1] [H2 (l2 & E2 & C2 & F2) N2]. split; [by rewrite H2, H1| |lia].
  exists (l1 ++ l2). rewrite E2, E1, app_assoc. split; [done|]. split; [by eapply consecutive_app|].
  by apply Forall_app.
Qed.

Lemma accessed_ext P f g d t d' t' : accessed P f d t d' t' → f (dev t) = g (dev t) → accessed P g d t d' t'.
Proof. intros [] E. split; [congruence|done..]. Qed.

Lemma accessed_impl (P Q : Z * nat → Prop) f d t d' t' :
  (∀ x, P x → Q x) → accessed P f d t d' t' → accessed Q f d t d' t'.
Proof. intros HPQ [E (l & ? & ? & HF) ?]. split; [done| |done]. exists l. split_and!; [done..|]. by eapply Forall_impl. Qed.

(** Nothing but the number of checks changes in a check. *)
Lemma accessed_check P f d t d' t' :
  accessed P f d t d' t' → accessed P f d t d' (MkTransfer (dev t') (S (checks t')) (log t')).
Proof. intros []. split; [done..|cbn; lia]. Qed.

Lemma mod_step m d n : 0 < m → (m | n) → d `mod` m = 0 → (d + n) `mod` m = 0.
Proof. intros Hm [k ->] Hd. by rewrite Z.mod_add, Hd by lia. Qed.

(** The accesses of one width at multiples of [m]. *)
Definition at_width (w : nat) (m : Z) (x : Z * nat) : Prop := x.2 = w ∧ x.1 `mod` m = 0.

Lemma stores_spec m n w : 0 < m → (m | Z.of_nat w) → ∀ d s t,
  (n * w ≤ length s)%nat → d `mod` m = 0 →
  accessed (at_width w m) (dev_write tgt d (take (n * w) s)) d t (d + Z.of_nat (n * w)) (stores tgt n w d s t).
Proof.
  intros Hm Hw. induction n as [|n IH]; intros d s t Hs Hd.
  { cbn [stores]. rewrite Nat.mul_0_l, Z.add_0_r, take_0. eapply accessed_ext; [apply accessed_refl|].
    by rewrite dev_write_nil. }
  cbn [stores]. set (t1 := MkTransfer _ _ _).
  assert (accessed (at_width w m) (dev_write tgt d (take w s)) d t (d + Z.of_nat w) t1) as H1.
  { split; [done| |done]. exists [(d, w)]. split; [done|]. split; [done|]. apply Forall_singleton. done. }
  specialize (IH (d + Z.of_nat w) (drop w s) t1). rewrite length_drop in IH.
  specialize (IH ltac:(lia) (mod_step m d _ Hm Hw Hd)).
  pose proof (accessed_trans _ _ _ _ _ _ _ _ _ H1 IH) as H2.
  replace (d + Z.of_nat w + Z.of_nat (n * w)) with (d + Z.of_nat (S n * w)) in H2 by lia.
  eapply accessed_ext; [exact H2|]. cbn [compose].
  replace (take (S n * w) s) with (take w s ++ take (n * w) (drop w s))
    by (replace (S n * w)%nat with (w + n * w)%nat by lia; by rewrite take_take_drop).
  rewrite dev_write_app. do 2 f_equal. unfold vec_size. rewrite length_take. lia.
Qed.

End theory.

(** ** The phases in either direction *)

(** A copy that stopped: an overrun was confirmed at the last check, and the
    error says how much was left before or after the operation. *)
Definition stopped {D} (guard : OpTimeoutGuard) (timing : nat → OpTiming) (op_bytes remaining left : nat)
    (t' : Transfer (D:=D)) : Prop :=
  (left ≤ remaining ≤ left + op_bytes)%nat ∧ overrun guard (timing (pred (checks t'))) = true.

(** The condition of a phase is false after it, and what a phase keeps of the
    alignment. *)
Definition aligned_or_short (m : Z) (K : nat) (d : Z) (n : nat) : Prop := d `mod` m = 0 ∨ (n < K)%nat.

Lemma phase_continues_bytes p d n : phase_continues p d n = true → (phase_bytes p ≤ n)%nat.
Proof. unfold phase_continues. intros [?%Nat.leb_le _]%andb_true_iff. done. Qed.

Lemma at_width_4 target w x : at_width w 4 x → (target = GnuOther → w = 4%nat) → well_aligned target x.
Proof. destruct x as [a ?]. intros [E Ha] Hg. cbn in E, Ha. subst. right. split; [done|]. intros HT Hw. by specialize (Hg HT). Qed.

Lemma mod_16_4 a : a `mod` 16 = 0 → a `mod` 4 = 0.
Proof. intros [k ->]%Z.mod_divide; [|lia]. replace (k * 16) with (k * 4 * 4) by lia. by apply Z.mod_mul. Qed.

Lemma at_width_16 target w x : at_width w 16 x → well_aligned target x.
Proof. destruct x as [a ?]. intros [E Ha]. cbn in E, Ha. right. split; [by apply mod_16_4|done]. Qed.

Section phases.
Context {D Pos : Type} (guard : OpTimeoutGuard) (timing : nat → OpTiming) (dir : Direction (D:=D) Pos).

(** [moved P pos t pos' t']: the copy went from [pos] to [pos'] by accesses that
    satisfy [P]; [broken P pos t x t']: it threw, having copied [x]. *)
Context (moved broken : (Z * nat → Prop) → Pos → Transfer (D:=D) → Pos → Transfer (D:=D) → Prop).

Record DirectionLaws : Prop := {
  moved_refl P pos t : moved P pos t pos t;
  moved_trans P a ta b tb c tc : moved P a ta b tb → moved P b tb c tc → moved P a ta c tc;
  moved_broken P a ta b tb c tc : moved P a ta b tb → broken P b tb c tc → broken P a ta c tc;
  moved_impl (P Q : Z * nat → Prop) a ta b tb : (∀ x, P x → Q x) → moved P a ta b tb → moved Q a ta b tb;
  broken_impl (P Q : Z * nat → Prop) a ta b tb : (∀ x, P x → Q x) → broken P a ta b tb → broken Q a ta b tb;
  moved_check P a ta b tb : moved P a ta b tb → moved P a ta b (MkTransfer (dev tb) (S (checks tb)) (log tb));
  broken_check P a ta b tb : broken P a ta b tb → broken P a ta b (MkTransfer (dev tb) (S (checks tb)) (log tb));
  moved_move p m pos t : 0 < m → (m | Z.of_nat (width p)) → (phase_bytes p ≤ size_left dir pos)%nat →
    device_addr dir pos `mod` m = 0 →
    let '(next, t') := move dir (accesses p) (width p) pos t in
    moved (at_width (width p) m) pos t next t' ∧ broken (at_width (width p) m) pos t (thrown dir p pos next) t' ∧
    device_addr dir next = device_addr dir pos + Z.of_nat (phase_bytes p) ∧
    size_left dir next = (size_left dir pos - phase_bytes p)%nat ∧
    (thrown dir p pos next = next ∨ moved_first p = false ∧ thrown dir p pos next = pos)
}.
Context (laws : DirectionLaws).

Definition copy_spec (P : Z * nat → Prop) (Q : Pos → Prop) (pos : Pos) (t : Transfer) (r : copy_result Pos) : Prop :=
  match r with
  | Copied pos' t' => moved P pos t pos' t' ∧ Q pos'
  | DeviceTimeoutError n remaining x t' => broken P pos t x t' ∧ stopped guard timing n remaining (size_left dir x) t'
  end.

Lemma copy_spec_ret P (Q : Pos → Prop) pos t : Q pos → copy_spec P Q pos t (Copied pos t).
Proof using laws. intros. split; [apply (moved_refl laws)|done]. Qed.

Lemma copy_spec_bind P Q R pos t r k :
  copy_spec P Q pos t r → (∀ pos' t', Q pos' → copy_spec P R pos' t' (k pos' t')) → copy_spec P R pos t (and_then r k).
Proof using laws.
  intros Hr Hk. destruct r as [pos' t'|n rem x t']; [|exact Hr]. destruct Hr as [Hs HQ]. cbn [and_then].
  specialize (Hk pos' t' HQ). destruct (k pos' t') as [p2 t2|n rem x t2]; destruct Hk as [Hs2 ?]; split; try done.
  - by eapply (moved_trans laws).
  - by eapply (moved_broken laws).
Qed.

Lemma copy_spec_weaken (P P' : Z * nat → Prop) (Q Q' : Pos → Prop) pos t r :
  (∀ x, P x → P' x) → (∀ pos, Q pos → Q' pos) → copy_spec P Q pos t r → copy_spec P' Q' pos t r.
Proof using laws.
  intros HP HQ. destruct r; intros [? ?]; split; auto; [by eapply (moved_impl laws)|by eapply (broken_impl laws)].
Qed.

Definition at_alignment (m : Z) (K : nat) (pos : Pos) : Prop :=
  aligned_or_short m K (device_addr dir pos) (size_left dir pos).

(** One iteration of a phase. *)
Lemma phase_step p m pos t :
  0 < m → (m | Z.of_nat (width p)) → (phase_bytes p ≤ size_left dir pos)%nat → device_addr dir pos `mod` m = 0 →
  let '(next, t') := move dir (accesses p) (width p) pos t in
  copy_spec (at_width (width p) m)
    (λ pos', device_addr dir pos' = device_addr dir pos + Z.of_nat (phase_bytes p) ∧
             size_left dir pos' = (size_left dir pos - phase_bytes p)%nat) pos t
    (check_phase guard timing dir p pos next t').
Proof using laws.
  intros Hm Hw Hn Hd. pose proof (moved_move laws p m pos t Hm Hw Hn Hd) as Hmv.
  destruct (move dir (accesses p) (width p) pos t) as [next t'] eqn:Emv.
  destruct Hmv as (HR & HE & Hda & Hsz & Hth).
  unfold check_phase. destruct (checked p); [|by split].
  unfold check. destruct (overrun guard (timing (checks t'))) eqn:Ho; cbn [copy_spec].
  - split; [by apply (broken_check laws)|]. split; [|done].
    destruct Hth as [-> |[-> ->]]; [destruct (moved_first p)|]; lia.
  - split; [by apply (moved_check laws)|done].
Qed.

(** The loop of a phase keeps what is known of the alignment; afterwards its
    condition is false. *)
Lemma phase_loop_spec p m K fuel : 0 < m → (m | Z.of_nat (width p)) → (0 < K ≤ phase_bytes p)%nat → ∀ pos t,
  at_alignment m K pos →
  copy_spec (at_width (width p) m)
    (λ pos', at_alignment m K pos' ∧ (size_left dir pos ≤ fuel → phase_continues p (device_addr dir pos') (size_left dir pos') = false)%nat)
    pos t (phase_loop guard timing dir fuel p pos t).
Proof using laws.
  intros Hm Hw Hb. induction fuel as [|fuel IH]; intros pos t Hfit.
  { cbn [phase_loop]. apply copy_spec_ret. split; [done|]. intros Hs.
    unfold phase_continues. apply andb_false_iff. left. apply Nat.leb_gt. lia. }
  cbn [phase_loop]. destruct (phase_continues p _ _) eqn:Hc; [|by apply copy_spec_ret].
  apply phase_continues_bytes in Hc as Hn. destruct Hfit as [Hd|?]; [|lia].
  pose proof (phase_step p m pos t Hm Hw Hn Hd) as Hstep.
  destruct (move dir (accesses p) (width p) pos t) as [next t'].
  eapply copy_spec_bind; [exact Hstep|]. intros pos' t2 [Hda Hsz].
  eapply copy_spec_weaken; [| |apply IH].
  - done.
  - intros pos2 [? Hex]. split; [done|]. intros ?. apply Hex. lia.
  - left. rewrite Hda. apply mod_step; [done| |done]. unfold phase_bytes. rewrite Nat2Z.inj_mul. by apply Z.divide_mul_r.
Qed.

Definition phase_done (p : Phase) (pos : Pos) : Prop :=
  at_most_once p = false → phase_continues p (device_addr dir pos) (size_left dir pos) = false.

Lemma run_phase_spec p m K : 0 < m → (m | Z.of_nat (width p)) → (0 < K ≤ phase_bytes p)%nat → ∀ pos t,
  at_alignment m K pos →
  copy_spec (at_width (width p) m) (λ pos', at_alignment m K pos' ∧ phase_done p pos') pos t
    (run_phase guard timing dir p pos t).
Proof using laws.
  intros Hm Hw Hb pos t Hfit. unfold run_phase.
  eapply copy_spec_weaken; [| |by apply phase_loop_spec]; [done|].
  intros pos' [? Hex]. split; [done|]. intros Ho. rewrite Ho in Hex. by apply Hex.
Qed.

(** Several phases of the same alignment. *)
Lemma run_phases_spec (P : Z * nat → Prop) m K ps :
  Forall (λ p, (m | Z.of_nat (width p)) ∧ (0 < K ≤ phase_bytes p)%nat ∧ ∀ x, at_width (width p) m x → P x) ps → 0 < m →
  ∀ pos t, at_alignment m K pos → copy_spec P (at_alignment m K) pos t (run_phases guard timing dir ps pos t).
Proof using laws.
  intros Hps Hm. induction Hps as [|p ps (Hw & Hb & HP) _ IH]; intros pos t Hfit; [by apply copy_spec_ret|].
  cbn [run_phases]. eapply (copy_spec_bind _ (at_alignment m K)); [|by intros; apply IH].
  eapply copy_spec_weaken; [exact HP| |by eapply run_phase_spec]. by intros ? [? _].
Qed.

Lemma run_phases_app ps qs pos t :
  run_phases guard timing dir (ps ++ qs) pos t =
  and_then (run_phases guard timing dir ps pos t) (run_phases guard timing dir qs).
Proof using.
  revert pos t. induction ps as [|p ps IH]; intros pos t; [done|]. cbn [run_phases app].
  destruct (run_phase guard timing dir p pos t); [apply IH|done].
Qed.

(** A phase that aligns to [n]. *)
Lemma aligning_phase_spec p m n K pos t (P : Z * nat → Prop) :
  align p = Some n → at_most_once p = false → phase_bytes p = K → 
  0 < m → (m | Z.of_nat (width p)) → (0 < K)%nat → (∀ x, at_width (width p) m x → P x) → at_alignment m K pos →
  copy_spec P (at_alignment n K) pos t (run_phase guard timing dir p pos t).
Proof using laws.
  intros Ha Hone HK Hm Hw Hb HP Hfit.
  eapply copy_spec_weaken; [exact HP| |apply (run_phase_spec p m K); try done; lia].
  intros pos' [_ Hd]. specialize (Hd Hone). unfold phase_continues in Hd. rewrite Ha in Hd.
  apply andb_false_iff in Hd as [?%Nat.leb_gt|Hd%negb_false_iff]; [right; lia|]. apply Z.eqb_eq in Hd. by left.
Qed.

(** The phases between the first and the last one. *)
Lemma wide_phases_spec target pos t :
  at_alignment 4 4 pos →
  copy_spec (well_aligned target) (at_alignment 4 4) pos t
    (run_phases guard timing dir (wide_phases target ++ [MkPhase None 1 4 true false false]) pos t).
Proof using laws.
  intros Hfit. destruct (decide (target = GnuOther)) as [->|Hne].
  - cbn [wide_phases app]. change (?p :: ?q :: ?r :: ?u :: ?l) with ([p] ++ [q; r; u] ++ l).
    rewrite run_phases_app. apply (copy_spec_bind _ (at_alignment 16 4)).
    { cbn [run_phases]. apply (copy_spec_bind _ (at_alignment 16 4)); [|intros; by apply copy_spec_ret].
      apply (aligning_phase_spec _ 4 16 4); try first [done|lia|by exists 1]. intros x Hx. by eapply at_width_4. }
    intros p1 t1 H1. rewrite run_phases_app. apply (copy_spec_bind _ (at_alignment 16 4)).
    { apply run_phases_spec; [|lia|done].
      repeat constructor; cbn [width]; try (cbn; lia); try (intros; by eapply at_width_16).
      all: first [by exists 2|by exists 1]. }
    intros p2 t2 H2. apply run_phases_spec; [|lia|].
    + repeat constructor; [by exists 1|cbn; lia..|]. intros x Hx. by eapply at_width_4.
    + destruct H2; [left; by apply mod_16_4|by right].
  - apply run_phases_spec; [|lia|done]. destruct target; [|done|]; cbn [wide_phases app];
      repeat constructor; cbn [width]; try (cbn; lia); try (intros; by eapply at_width_4).
    all: first [by exists 8|by exists 4|by exists 1].
Qed.

Lemma copy_phases_spec target pos t :
  copy_spec (well_aligned target) (λ pos', size_left dir pos' = 0%nat) pos t
    (run_phases guard timing dir (copy_phases target) pos t).
Proof using laws.
  assert (∀ w x, at_width w 1 x → w = 1%nat → well_aligned target x) as H1.
  { intros w [a ?] [E _] ->. by left. }
  unfold copy_phases. cbn [run_phases]. apply (copy_spec_bind _ (at_alignment 4 4)).
  { eapply copy_spec_weaken; [| |apply (aligning_phase_spec _ 1 4 1 _ _ (well_aligned target))]; try first [done|lia|by exists 1].
    - intros pos' [?|?]; [by left|right; lia].
    - intros x Hx. by eapply H1.
    - left. apply Z.mod_1_r. }
  intros p1 t1 Hp1.
  replace (wide_phases target ++ _) with ((wide_phases target ++ [MkPhase None 1 4 true false false]) ++ [byte_phase None])
    by (by rewrite <- app_assoc).
  rewrite run_phases_app. eapply copy_spec_bind; [by apply wide_phases_spec|]. intros p2 t2 _. cbn [run_phases].
  apply (copy_spec_bind _ (λ pos', size_left dir pos' = 0%nat)); [|intros; by apply copy_spec_ret].
  eapply copy_spec_weaken; [| |apply (run_phase_spec _ 1 1)]; [| |lia|by exists 1|cbn; lia|left; apply Z.mod_1_r].
  - intros x Hx. by eapply H1.
  - intros pos' [_ Hd]. specialize (Hd eq_refl). apply andb_false_iff in Hd as [Hd%Nat.leb_gt|Hd]; [|done].
    unfold phase_bytes in Hd. cbn in Hd. lia.
Qed.
End phases.

(** ** The two copies *)

Section copies_correct.
Context {D : Type} `{NocDeviceLaws D} (tgt : tlb_data).
Context (guard : OpTimeoutGuard) (timing : nat → OpTiming).

(** To the device: the part of the source that is gone was stored. *)
Definition stored (P : Z * nat → Prop) (pos : Z * list Z) (t : Transfer) (pos' : Z * list Z) (t' : Transfer) : Prop :=
  ∃ prefix, pos.2 = prefix ++ pos'.2 ∧ pos'.1 = pos.1 + vec_size prefix ∧
    accessed P (dev_write tgt pos.1 prefix) pos.1 t pos'.1 t'.

Lemma to_device_laws : DirectionLaws (to_device (D:=D) tgt) stored stored.
Proof.
  assert (∀ P a ta b tb c tc, stored P a ta b tb → stored P b tb c tc → stored P a ta c tc) as Htrans.
  { intros P [a s1] ta [b s2] tb [c s3] tc (p1 & E1 & E2 & H1) (p2 & E3 & E4 & H2). cbn in *. subst.
    exists (p1 ++ p2). cbn. rewrite app_assoc. split; [done|]. unfold vec_size in *. rewrite length_app. split; [lia|].
    eapply accessed_ext; [by eapply accessed_trans|]. cbn [compose]. by rewrite dev_write_app. }
  assert (∀ P Q a ta b tb, (∀ x, P x → Q x) → stored P a ta b tb → stored Q a ta b tb) as Himpl.
  { intros P Q a ta b tb HPQ (p & ? & ? & ?). exists p. split_and!; [done..|]. by eapply accessed_impl. }
  assert (∀ P a ta b tb, stored P a ta b tb → stored P a ta b (MkTransfer (dev tb) (S (checks tb)) (log tb))) as Hcheck.
  { intros P a ta b tb (p & ? & ? & ?). exists p. split_and!; [done..|]. by apply accessed_check. }
  split; eauto.
  - intros P [d s] t. exists []. split; [done|]. split; [unfold vec_size; cbn; lia|].
    eapply accessed_ext; [apply accessed_refl|]. by rewrite dev_write_nil.
  - intros p m [d s] t Hm Hw Hn Hd. cbn in *. fold (phase_bytes p).
    assert (stored (at_width (width p) m) (d, s) t (d + Z.of_nat (phase_bytes p), drop (phase_bytes p) s)
      (stores tgt (accesses p) (width p) d s t)) as Hst.
    { exists (take (phase_bytes p) s). cbn. rewrite take_drop. split; [done|]. split.
      - unfold vec_size. rewrite length_take. lia.
      - by apply stores_spec. }
    split_and!; try done; [|by left]. by rewrite length_drop.
Qed.

(** From the device: the bytes in host memory are those of the device, which a
    read leaves as it is. A copy that threw may have accessed more. *)
Definition loaded (P : Z * nat → Prop) (pos : Z * nat * list Z) (t : Transfer) (pos' : Z * nat * list Z) (t' : Transfer) : Prop :=
  ∃ n, pos.1.2 = (n + pos'.1.2)%nat ∧ pos'.1.1 = pos.1.1 + Z.of_nat n ∧
    pos'.2 = pos.2 ++ dev_read tgt pos.1.1 n (dev t) ∧ accessed P id pos.1.1 t pos'.1.1 t'.

Definition partly_loaded (P : Z * nat → Prop) (pos : Z * nat * list Z) (t : Transfer) (x : Z * nat * list Z) (t' : Transfer) : Prop :=
  ∃ n, pos.1.2 = (n + x.1.2)%nat ∧ x.2 = pos.2 ++ dev_read tgt pos.1.1 n (dev t) ∧
    ∃ d', accessed P id pos.1.1 t d' t'.

Lemma loads_spec m n w : 0 < m → (m | Z.of_nat w) → ∀ s t, s `mod` m = 0 →
  let '(bytes, t') := loads tgt n w s t in
  bytes = dev_read tgt s (n * w) (dev t) ∧ accessed (at_width w m) id s t (s + Z.of_nat (n * w)) t'.
Proof.
  intros Hm Hw. induction n as [|n IH]; intros s t Hs.
  { cbn [loads]. rewrite Nat.mul_0_l, Z.add_0_r. split; [|apply accessed_refl].
    symmetry. apply nil_length_inv, dev_read_length. }
  cbn [loads]. set (t1 := MkTransfer _ _ _).
  assert (accessed (at_width w m) id s t (s + Z.of_nat w) t1) as H1.
  { split; [done| |done]. exists [(s, w)]. split; [done|]. split; [done|]. apply Forall_singleton. done. }
  specialize (IH (s + Z.of_nat w) t1 (mod_step m s _ Hm Hw Hs)).
  destruct (loads tgt n w (s + Z.of_nat w) t1) as [rest t2]. destruct IH as [-> H2]. split.
  - replace (S n * w)%nat with (w + n * w)%nat by lia. by rewrite dev_read_app.
  - pose proof (accessed_trans _ _ _ _ _ _ _ _ _ H1 H2) as H3.
    by replace (s + Z.of_nat w + Z.of_nat (n * w)) with (s + Z.of_nat (S n * w)) in H3 by lia.
Qed.

Lemma loaded_partly P pos t pos' t' : loaded P pos t pos' t' → partly_loaded P pos t pos' t'.
Proof. intros (n & ? & ? & ? & ?). exists n. split_and!; [done..|by eexists]. Qed.

Lemma from_device_laws : DirectionLaws (from_device (D:=D) tgt) loaded partly_loaded.
Proof.
  assert (∀ (a b : list Z) s n m (d : D), (a ++ dev_read tgt s n d) ++ dev_read tgt (s + Z.of_nat n) m d = a ++ dev_read tgt s (n + m) d) as Hread.
  { intros. by rewrite dev_read_app, app_assoc. }
  split.
  - intros P [[s n] b] t. exists 0%nat. cbn. split; [done|]. split; [lia|]. split; [|apply accessed_refl].
    rewrite (nil_length_inv (dev_read tgt s 0 (dev t))) by apply dev_read_length. by rewrite app_nil_r.
  - intros P [[s1 n1] b1] ta [[s2 n2] b2] tb [[s3 n3] b3] tc (k1 & E1 & E2 & E3 & H1) (k2 & E4 & E5 & E6 & H2). cbn in *. subst.
    exists (k1 + k2)%nat. cbn. split; [lia|]. split; [lia|]. split; [|by eapply accessed_trans in H2; [|exact H1]].
    rewrite (accessed_dev _ _ _ _ _ _ H1). by apply Hread.
  - intros P [[s1 n1] b1] ta [[s2 n2] b2] tb [[s3 n3] b3] tc (k1 & E1 & E2 & E3 & H1) (k2 & E4 & E6 & (d' & H2)). cbn in *. subst.
    exists (k1 + k2)%nat. cbn. split; [lia|]. split; [|exists d'; by eapply accessed_trans in H2; [|exact H1]].
    rewrite (accessed_dev _ _ _ _ _ _ H1). by apply Hread.
  - intros P Q a ta b tb HPQ (p & ? & ? & ? & ?). exists p. split_and!; [done..|]. by eapply accessed_impl.
  - intros P Q a ta b tb HPQ (p & ? & ? & (d' & ?)). exists p. split_and!; [done..|]. exists d'. by eapply accessed_impl.
  - intros P a ta b tb (p & ? & ? & ? & ?). exists p. split_and!; [done..|]. by apply accessed_check.
  - intros P a ta b tb (p & ? & ? & (d' & ?)). exists p. split_and!; [done..|]. exists d'. by apply accessed_check.
  - intros p m [[s n] b] t Hm Hw Hn Hd. cbn in *. pose proof (loads_spec m (accesses p) (width p) Hm Hw s t Hd) as Hl.
    destruct (loads tgt (accesses p) (width p) s t) as [bytes t']. destruct Hl as [-> Ha]. fold (phase_bytes p) in Ha |- *.
    assert (loaded (at_width (width p) m) (s, n, b) t
      (s + Z.of_nat (phase_bytes p), (n - phase_bytes p)%nat, b ++ dev_read tgt s (phase_bytes p) (dev t)) t') as Hmoved.
    { exists (phase_bytes p). cbn. split_and!; [lia|done..]. }
    split; [exact Hmoved|]. split.
    { destruct (moved_first p); [by apply loaded_partly|]. exists 0%nat. cbn. split; [done|].
      rewrite (nil_length_inv (dev_read tgt s 0 (dev t))) by apply dev_read_length. split; [by rewrite app_nil_r|]. by eexists. }
    cbn. split_and!; [done..|]. destruct (moved_first p); [by left|by right].
Qed.

(** C29: A copy to mapped device memory, in whatever mix of byte, word and vector
    stores, is a write of exactly its bytes to exactly its range: the accesses follow one
    another from the first address to the last, none is misaligned for the device, and
    the copy ends. It is cut short only by a confirmed overrun; then a prefix
    was written, and the error's count of bytes remaining is off by at most the last operation. *)
Theorem memcpy_to_device_writes target dest src t :
  match memcpy_to_device tgt guard timing target dest src t with
  | Copied (_, rest) t' =>
      rest = [] ∧ accessed (well_aligned target) (dev_write tgt dest src) dest t (dest + vec_size src) t'
  | DeviceTimeoutError n remaining (_, rest) t' =>
      ∃ prefix, src = prefix ++ rest ∧
        accessed (well_aligned target) (dev_write tgt dest prefix) dest t (dest + vec_size prefix) t' ∧
        stopped guard timing n remaining (length rest) t'
  end.
Proof.
  pose proof (copy_phases_spec guard timing _ _ _ to_device_laws target (dest, src) t) as Hs. fold (memcpy_to_device tgt guard timing target dest src t) in Hs.
  destruct (memcpy_to_device tgt guard timing target dest src t) as [[d rest] t'|n rem [d rest] t'];
    destruct Hs as [(p & E & Ed & Ha) Hq]; cbn in *; subst.
  - apply nil_length_inv in Hq as ->. split; [done|]. by rewrite app_nil_r.
  - exists p. by split_and!.
Qed.

(** C30: A copy from mapped device memory returns what one read of the whole range
    returns, by accesses that cover the range in order and are aligned for the device; when no
    overrun is confirmed it ends. Otherwise host memory holds a prefix. *)
Theorem memcpy_from_device_reads target src size t :
  match memcpy_from_device tgt guard timing target src size t with
  | Copied (_, _, bytes) t' =>
      bytes = dev_read tgt src size (dev t) ∧ accessed (well_aligned target) id src t (src + Z.of_nat size) t'
  | DeviceTimeoutError n remaining (_, unread, bytes) t' =>
      ∃ k, size = (k + unread)%nat ∧ bytes = dev_read tgt src k (dev t) ∧ dev t' = dev t ∧ stopped guard timing n remaining unread t'
  end.
Proof.
  pose proof (copy_phases_spec guard timing _ _ _ from_device_laws target (src, size, []) t) as Hs.
  fold (memcpy_from_device tgt guard timing target src size t) in Hs.
  destruct (memcpy_from_device tgt guard timing target src size t) as [[[s left] bytes] t'|n rem [[s left] bytes] t'].
  - destruct Hs as [(k & E & Ed & Eb & Ha) Hq]. cbn in *. subst. rewrite Nat.add_0_r. done.
  - destruct Hs as [(k & E & Eb & (d' & Ha)) Hq]. cbn in *. exists k. split_and!; [done..| |done].
    by rewrite (accessed_dev _ _ _ _ _ _ Ha).
Qed.
End copies_correct.

(** ** A copy *)

(** 301 bytes to an odd address, by a guard that would throw at the first slow
    access, with no slow access. *)
Definition demo_guard : OpTimeoutGuard := MkGuard 500 false.
Definition demo_timing (k : nat) : OpTiming := MkOpTiming 3 false.
Definition demo_bytes : list Z := seqZ 0 301.
Definition demo_target : tlb_data := MkTlbData 0 1 2 0 0 0 0 0 0 1.
Definition demo_transfer : Transfer (D:=ByteMemory) := MkTransfer (λ _ _, 7) 0 [].

(** Three bytes, one block of 256, one of 32, two words and two bytes. *)
Example demo_accesses :
  match memcpy_to_device demo_target demo_guard demo_timing X86_64 1001 demo_bytes demo_transfer with
  | Copied _ t => map snd (log t) = replicate 3 1%nat ++ replicate 9 32%nat ++ [4; 4; 1; 1]%nat
  | _ => False
  end.
Proof. vm_compute. reflexivity. Qed.

Lemma memcpy_to_device_writes_witness :
  ∃ t', memcpy_to_device demo_target demo_guard demo_timing X86_64 1001 demo_bytes demo_transfer = Copied (1302, []) t' ∧
    dev t' = dev_write demo_target 1001 demo_bytes (dev demo_transfer).
Proof.
  pose proof (memcpy_to_device_writes demo_target demo_guard demo_timing X86_64 1001 demo_bytes demo_transfer) as Hw.
  assert (∃ t', memcpy_to_device demo_target demo_guard demo_timing X86_64 1001 demo_bytes demo_transfer = Copied (1302, []) t')
    as [t' Ht'] by (eexists; vm_compute; reflexivity).
  exists t'. split; [exact Ht'|]. rewrite Ht' in Hw. destruct Hw as [_ Hw]. exact (accessed_dev _ _ _ _ _ _ Hw).
Defined.

Lemma memcpy_from_device_reads_witness :
  ∃ t', memcpy_from_device demo_target demo_guard demo_timing GnuOther 1001 21 demo_transfer = Copied (1022, 0%nat, replicate 21 7) t' ∧
    dev_read demo_target 1001 21 (dev demo_transfer) = replicate 21 7.
Proof.
  pose proof (memcpy_from_device_reads demo_target demo_guard demo_timing GnuOther 1001 21 demo_transfer) as Hr.
  assert (∃ t', memcpy_from_device demo_target demo_guard demo_timing GnuOther 1001 21 demo_transfer = Copied (1022, 0%nat, replicate 21 7) t')
    as [t' Ht'] by (eexists; vm_compute; reflexivity).
  exists t'. split; [exact Ht'|]. rewrite Ht' in Hr. destruct Hr as [Hr _]. symmetry. exact Hr.
Defined.
