(* ===== verification/SimTlbAllocator.v ===== *)
(** * SimTlbAllocator

    [chip_helpers/simulation_tlb_allocator.cpp]: the allocator of TLB window
    indices for simulated devices, a client of the window tables ([ArchTlbs]).
    Its mutex makes every allocation and release one step. *)

From Stdlib Require Import ZArith Lia.
From stdpp Require Import base list numbers strings gmap relations.
From S2P Require Import Prelude CoreTypes Tlb ArchTlbs.

Local Open Scope Z_scope.

Record TlbPool := MkPool { pool_layout : TlbSizeClass; allocated : list bool }.

Record SimulationTlbAllocator := MkAllocator {
  bar0_base : Z; bar4_base : Z; architecture : ARCH; tlb_reg_size_bytes : Z;
  pools : list TlbPool; next_bypass_tlb_id : Z
}.

Definition set_pools (ps : list TlbPool) (s : SimulationTlbAllocator) : SimulationTlbAllocator :=
  MkAllocator (bar0_base s) (bar4_base s) (architecture s) (tlb_reg_size_bytes s) ps (next_bypass_tlb_id s).

(** ** Construction *)

Definition new_pool (c : TlbSizeClass) : TlbPool := MkPool c (replicate (Z.to_nat (sc_count c)) false).

Definition initialize_architecture_config (s : SimulationTlbAllocator) : result SimulationTlbAllocator :=
  match architecture s with
  | WORMHOLE_B0 | BLACKHOLE =>
      tlbs ← get_architecture_tlbs (architecture s);
      Ok (MkAllocator (bar0_base s) (bar4_base s) (architecture s) (cfg_reg_size_bytes tlbs)
            (pools s ++ map new_pool (size_classes tlbs)) (next_bypass_tlb_id s))
  | _ => Ok s
  end.

Definition new_allocator (bar0 : Z) (arch : ARCH) (bar4 : Z) : result SimulationTlbAllocator :=
  initialize_architecture_config (MkAllocator bar0 bar4 arch 8 [] 0).

(** ** Allocation *)

(** The first slot of a pool that is free. *)
Fixpoint first_free (slots : list bool) : option nat :=
  match slots with
  | [] => None
  | false :: _ => Some O
  | true :: slots => S <$> first_free slots
  end.

(** The loop over the pools; [None] when it ends without a slot. *)
Fixpoint allocate_in (size : Z) (ps : list TlbPool) : option (Z * list TlbPool) :=
  match ps with
  | [] => None
  | p :: ps =>
      let rest := '(i, ps') ← allocate_in size ps; Some (i, p :: ps') in
      if sc_size (pool_layout p) <? size then rest
      else match first_free (take (Z.to_nat (sc_count (pool_layout p))) (allocated p)) with
           | Some i =>
               Some (i32 (u64 (sc_base_index (pool_layout p) + Z.of_nat i)),
                     MkPool (pool_layout p) (<[i := true]> (allocated p)) :: ps)
           | None => rest
           end
  end.

Definition allocate_tlb_index (size : Z) (s : SimulationTlbAllocator) : Z * SimulationTlbAllocator :=
  match architecture s with
  | QUASAR =>
      (next_bypass_tlb_id s,
       MkAllocator (bar0_base s) (bar4_base s) (architecture s) (tlb_reg_size_bytes s) (pools s)
         (i32 (next_bypass_tlb_id s + 1)))
  | _ =>
      match allocate_in size (pools s) with
      | Some (i, ps) => (i, set_pools ps s)
      | None => (-1, s)
      end
  end.

(** [find_pool_for_index], and the update of the pool it finds. *)
Fixpoint find_pool (idx : Z) (ps : list TlbPool) : option TlbPool :=
  match ps with
  | [] => None
  | p :: ps => if in_class idx (pool_layout p) then Some p else find_pool idx ps
  end.
Definition find_pool_for_index (tlb_index : Z) (s : SimulationTlbAllocator) : option TlbPool :=
  if tlb_index <? 0 then None else find_pool tlb_index (pools s).

Fixpoint release (idx : Z) (ps : list TlbPool) : list TlbPool :=
  match ps with
  | [] => []
  | p :: ps =>
      if in_class idx (pool_layout p)
      then MkPool (pool_layout p) (<[Z.to_nat (idx - sc_base_index (pool_layout p)) := false]> (allocated p)) :: ps
      else p :: release idx ps
  end.
Definition deallocate_tlb_index (tlb_index : Z) (s : SimulationTlbAllocator) : SimulationTlbAllocator :=
  if tlb_index <? 0 then s else set_pools (release tlb_index (pools s)) s.

(** ** Addresses *)

Definition invalid_index {A} : result A := throw "Invalid simulation TLB index.".

Definition get_tlb_size_from_index (tlb_index : Z) (s : SimulationTlbAllocator) : result Z :=
  match find_pool_for_index tlb_index s with
  | Some pool => Ok (sc_size (pool_layout pool))
  | None => invalid_index
  end.

(** The BAR0 regions of the pools before the one of the index. *)
Fixpoint region_offset (idx : Z) (ps : list TlbPool) : Z :=
  match ps with
  | [] => 0
  | p :: ps =>
      if in_class idx (pool_layout p) then 0
      else u64 ((if sc_in_bar4 (pool_layout p) then 0 else u64 (sc_count (pool_layout p) * sc_size (pool_layout p)))
                + region_offset idx ps)
  end.

Definition get_tlb_address_from_index (tlb_index : Z) (s : SimulationTlbAllocator) : result Z :=
  match find_pool_for_index tlb_index s with
  | None => invalid_index
  | Some pool =>
      let slot := u64 (tlb_index - sc_base_index (pool_layout pool)) in
      if sc_in_bar4 (pool_layout pool)
      then Ok (u64 (bar4_base s + u64 (slot * sc_size (pool_layout pool))))
      else Ok (u64 (bar0_base s + region_offset tlb_index (pools s) + u64 (slot * sc_size (pool_layout pool))))
  end.

Definition get_tlb_reg_address_from_index (tlb_index : Z) (s : SimulationTlbAllocator) : result Z :=
  match find_pool_for_index tlb_index s with
  | None => invalid_index
  | Some _ => Ok (u64 (bar0_base s + 0x1fc00000 + u64 (tlb_index * tlb_reg_size_bytes s)))
  end.

(** ** Invariant *)

(** The pools of the classes [cs], whose indices start at [start]. *)
Record pools_ok (start : Z) (ps : list TlbPool) : Prop := {
  po_wf : Forall class_wf (map pool_layout ps);
  po_covers : covers_from start (map pool_layout ps);
  po_slots : Forall (λ p, length (allocated p) = Z.to_nat (sc_count (pool_layout p))) ps
}.

(** The window is allocated. *)
Definition live (ps : list TlbPool) (i : Z) : Prop :=
  ∃ p, find_pool i ps = Some p ∧ allocated p !! Z.to_nat (i - sc_base_index (pool_layout p)) = Some true.

(** A window of at least the size exists. *)
Definition window (ps : list TlbPool) (i size : Z) : Prop :=
  ∃ p, find_pool i ps = Some p ∧ size ≤ sc_size (pool_layout p).

Lemma pools_ok_cons start p ps :
  pools_ok start (p :: ps) ↔
  class_wf (pool_layout p) ∧ sc_base_index (pool_layout p) = start ∧
  length (allocated p) = Z.to_nat (sc_count (pool_layout p)) ∧ pools_ok (start + sc_count (pool_layout p)) ps.
Proof.
  split.
  - intros [Hw Hc Hs]. cbn in Hw, Hc. apply Forall_cons in Hw as [? ?]. apply Forall_cons in Hs as [? ?].
    destruct Hc as [? ?]. by split_and!.
  - intros (? & ? & ? & [Hw Hc Hs]). split; cbn; [by constructor|done|by constructor].
Qed.

Lemma find_pool_ge start ps i p : pools_ok start ps → find_pool i ps = Some p → start ≤ i.
Proof.
  revert start. induction ps as [|q ps IH]; intros start; [done|]. rewrite pools_ok_cons. intros (Hw & Hb & _ & Hps).
  cbn [find_pool]. pose proof (in_class_spec i _ Hw) as Hi. destruct (in_class i _).
  - intros _. apply proj1 in Hi. specialize (Hi eq_refl). lia.
  - intros Hf. specialize (IH _ Hps Hf). unfold class_wf in Hw. lia.
Qed.

(** The windows of the first pool and of the others. *)
Lemma live_cons start p ps i :
  pools_ok start (p :: ps) →
  live (p :: ps) i ↔ (in_class i (pool_layout p) = true ∧ allocated p !! Z.to_nat (i - start) = Some true) ∨ live ps i.
Proof.
  rewrite pools_ok_cons. intros (Hw & <- & _ & Hps). unfold live. cbn [find_pool].
  pose proof (in_class_spec i _ Hw) as Hi. destruct (in_class i _) eqn:E.
  - split; [intros (q & [= <-] & ?); by left|]. intros [[_ ?]|(q & Hq & _)]; [by exists p|].
    apply (find_pool_ge _ _ _ _ Hps) in Hq. apply proj1 in Hi. specialize (Hi eq_refl). lia.
  - split; [by right|]. by intros [[? _]|?].
Qed.

Lemma window_cons start p ps i size :
  pools_ok start (p :: ps) →
  window (p :: ps) i size ↔ (in_class i (pool_layout p) = true ∧ size ≤ sc_size (pool_layout p)) ∨ window ps i size.
Proof.
  rewrite pools_ok_cons. intros (Hw & <- & _ & Hps). unfold window. cbn [find_pool].
  pose proof (in_class_spec i _ Hw) as Hi. destruct (in_class i _) eqn:E.
  - split; [intros (q & [= <-] & ?); by left|]. intros [[_ ?]|(q & Hq & _)]; [by exists p|].
    apply (find_pool_ge _ _ _ _ Hps) in Hq. apply proj1 in Hi. specialize (Hi eq_refl). lia.
  - split; [by right|]. by intros [[? _]|?].
Qed.

Lemma live_ge start ps i : pools_ok start ps → live ps i → start ≤ i.
Proof. intros Hps (p & Hp & _). by eapply find_pool_ge. Qed.
Lemma window_ge start ps i size : pools_ok start ps → window ps i size → start ≤ i.
Proof. intros Hps (p & Hp & _). by eapply find_pool_ge. Qed.

Lemma first_free_spec slots :
  match first_free slots with
  | Some k => slots !! k = Some false ∧ ∀ j, (j < k)%nat → slots !! j = Some true
  | None => ∀ j, (j < length slots)%nat → slots !! j = Some true
  end.
Proof.
  induction slots as [|[] slots IH]; cbn.
  - lia.
  - destruct (first_free slots) as [k|]; cbn.
    + destruct IH as [IH1 IH2]. split; [done|]. intros [|j] Hj; [done|]. apply IH2. lia.
    + intros [|j] Hj; [done|]. apply IH. lia.
  - split; [done|lia].
Qed.

(** ** The loops *)

Lemma release_spec start ps i :
  pools_ok start ps → pools_ok start (release i ps) ∧ ∀ j, live (release i ps) j ↔ live ps j ∧ j ≠ i.
Proof.
  revert start. induction ps as [|p ps IH]; intros start Hps.
  { split; [done|]. intros j. split; [|tauto]. by intros (q & [=] & _). }
  pose proof Hps as Hps0. apply pools_ok_cons in Hps0 as (Hw & Hb & Hl & Hps'). cbn [release].
  pose proof (in_class_spec i _ Hw) as Hi. destruct (in_class i _) eqn:E.
  - assert (pools_ok start (MkPool (pool_layout p) (<[Z.to_nat (i - sc_base_index (pool_layout p)) := false]> (allocated p)) :: ps)) as Hok.
    { apply pools_ok_cons. cbn. by rewrite length_insert. }
    split; [done|]. intros j. rewrite !(live_cons start) by done. cbn [pool_layout allocated]. rewrite Hb.
    apply proj1 in Hi. specialize (Hi eq_refl). pose proof (in_class_spec j _ Hw) as Hj.
    split.
    + intros [[Hjc Ha]|Hlive].
      * apply Hj in Hjc as Hjr. destruct (decide (j = i)) as [->|Hne].
        { rewrite list_lookup_insert_eq in Ha by (rewrite Hl; lia). done. }
        rewrite list_lookup_insert_ne in Ha by lia. split; [by left|done].
      * split; [by right|]. apply (live_ge _ _ _ Hps') in Hlive. lia.
    + intros [[[Hjc Ha]|Hlive] Hne]; [|by right]. apply Hj in Hjc as Hjr. left.
      split; [done|]. rewrite list_lookup_insert_ne by lia. done.
  - destruct (IH _ Hps') as [Hok Hlive]. assert (pools_ok start (p :: release i ps)) as Hok'.
    { by apply pools_ok_cons. }
    split; [done|]. intros j. rewrite !(live_cons start), Hlive by done. split; [|tauto].
    intros [[Hjc Ha]|?]; [|tauto]. split; [by left|]. by intros ->; rewrite E in Hjc.
Qed.

Lemma allocate_in_spec start ps size :
  pools_ok start ps → 0 ≤ start → (∀ i s, window ps i s → i < 2 ^ 31) →
  match allocate_in size ps with
  | Some (i, ps') =>
      pools_ok start ps' ∧ map pool_layout ps' = map pool_layout ps ∧ window ps i size ∧ ¬ live ps i ∧
      (∀ j, live ps' j ↔ j = i ∨ live ps j) ∧ (∀ j, window ps j size → j < i → live ps j)
  | None => ∀ j, window ps j size → live ps j
  end.
Proof.
  revert start. induction ps as [|p ps IH]; intros start Hps H0 Hrange; [by intros j (q & [=] & _)|].
  pose proof Hps as Hps0. apply pools_ok_cons in Hps0 as (Hw & Hb & Hl & Hps').
  assert (0 < sc_count (pool_layout p)) as Hcount by (unfold class_wf in Hw; lia).
  assert (∀ j, in_class j (pool_layout p) = true → start ≤ j < start + sc_count (pool_layout p)) as Hin.
  { intros j Hj. apply in_class_spec in Hj; [|done]. lia. }
  specialize (IH (start + sc_count (pool_layout p)) Hps' ltac:(lia)
    ltac:(intros i s Hi; apply (Hrange i s), (window_cons start); by auto)).
  set (rest := '(i, ps') ← allocate_in size ps; Some (i, p :: ps')).
  assert ((∀ j, in_class j (pool_layout p) = true → size ≤ sc_size (pool_layout p) → live (p :: ps) j) →
    match rest with
    | Some (i, ps') =>
        pools_ok start ps' ∧ map pool_layout ps' = map pool_layout (p :: ps) ∧ window (p :: ps) i size ∧ ¬ live (p :: ps) i ∧
        (∀ j, live ps' j ↔ j = i ∨ live (p :: ps) j) ∧ (∀ j, window (p :: ps) j size → j < i → live (p :: ps) j)
    | None => ∀ j, window (p :: ps) j size → live (p :: ps) j
    end) as Hrest.
  { intros Hfull. subst rest. destruct (allocate_in size ps) as [[i ps']|]; cbn [mbind option_bind].
    - destruct IH as (Hok & Hmap & Hwin & Hnl & Hlive & Hlow).
      assert (pools_ok start (p :: ps')) as Hok' by by apply pools_ok_cons.
      pose proof (window_ge _ _ _ _ Hps' Hwin) as Hge. split; [done|]. split; [cbn; by f_equal|].
      split; [apply (window_cons start); by auto|]. split; [|split].
      + rewrite (live_cons start) by done. intros [[Hc _]|?]; [|done]. apply Hin in Hc. lia.
      + intros j. rewrite !(live_cons start), Hlive by done. tauto.
      + intros j Hj Hlt. apply (window_cons start) in Hj; [|done]. destruct Hj as [[Hc Hs]|Hj]; [by apply Hfull|].
        apply (live_cons start); [done|]. right. by apply Hlow.
    - intros j Hj. apply (window_cons start) in Hj; [|done]. destruct Hj as [[Hc Hs]|Hj]; [by apply Hfull|].
      apply (live_cons start); [done|]. right. by apply IH. }
  cbn [allocate_in]. fold rest. destruct (Z.ltb_spec (sc_size (pool_layout p)) size) as [Hlt|Hge].
  { apply Hrest. intros; lia. }
  rewrite take_ge by lia. pose proof (first_free_spec (allocated p)) as Hff. destruct (first_free _) as [k|].
  2:{ apply Hrest. intros j Hj _. apply (live_cons start); [done|]. left. split; [done|]. apply Hff. apply Hin in Hj. lia. }
  clear Hrest rest IH. destruct Hff as [Hk Hlow]. pose proof (lookup_lt_Some _ _ _ Hk) as Hklt.
  assert (in_class (start + Z.of_nat k) (pool_layout p) = true) as Hkc by (apply in_class_spec; [done|lia]).
  assert (window (p :: ps) (start + Z.of_nat k) size) as Hwin by (apply (window_cons start); by auto).
  pose proof (Hrange _ _ Hwin) as Hr.
  assert (i32 (u64 (sc_base_index (pool_layout p) + Z.of_nat k)) = start + Z.of_nat k) as ->.
  { rewrite Hb. unfold u64, i32. change (2 ^ 31) with 2147483648 in *. rewrite (Z.mod_small _ (2 ^ 64)) by lia.
    rewrite Z.mod_small by lia. lia. }
  assert (pools_ok start (MkPool (pool_layout p) (<[k:=true]> (allocated p)) :: ps)) as Hok.
  { apply pools_ok_cons. cbn. by rewrite length_insert. }
  split; [done|]. split; [done|]. split; [done|]. split; [|split].
  - rewrite (live_cons start) by done. replace (start + Z.of_nat k - start) with (Z.of_nat k) by lia. rewrite Nat2Z.id.
    intros [[_ Ha]|Hl']; [congruence|]. apply (live_ge _ _ _ Hps') in Hl'. apply Hin in Hkc. lia.
  - intros j. rewrite !(live_cons start) by done. cbn [pool_layout allocated].
    destruct (decide (j = start + Z.of_nat k)) as [->|Hne].
    + replace (start + Z.of_nat k - start) with (Z.of_nat k) by lia.
      rewrite Nat2Z.id, list_lookup_insert_eq by done. tauto.
    + split; [intros [[Hc Ha]|?]|intros [?|[[Hc Ha]|?]]]; try tauto.
      * apply Hin in Hc as Hc'. rewrite list_lookup_insert_ne in Ha by lia. tauto.
      * apply Hin in Hc as Hc'. left. split; [done|]. by rewrite list_lookup_insert_ne by lia.
  - intros j Hj Hlt. apply (window_cons start) in Hj; [|done]. apply (live_cons start); [done|].
    destruct Hj as [[Hc Hs]|Hj]; [|apply (window_ge _ _ _ _ Hps') in Hj; lia].
    left. split; [done|]. apply Hlow. apply Hin in Hc. lia.
Qed.

(** ** The allocator as a state machine

    The clients' view: the allocator with the windows its clients hold. An
    allocation that returns an index hands the window out; a deallocation, of
    any index whatsoever, gives it back. *)

Inductive allocator_step : SimulationTlbAllocator * gset Z → SimulationTlbAllocator * gset Z → Prop :=
  | step_allocated size s held i s' :
      0 ≤ size → allocate_tlb_index size s = (i, s') → 0 ≤ i →
      allocator_step (s, held) (s', {[ i ]} ∪ held)
  | step_exhausted size s held i s' :
      0 ≤ size → allocate_tlb_index size s = (i, s') → i < 0 → allocator_step (s, held) (s', held)
  | step_deallocated tlb_index s held :
      allocator_step (s, held) (deallocate_tlb_index tlb_index s, held ∖ {[ tlb_index ]}).

(** The states of a client of a new allocator. *)
Definition allocator_reachable (bar0 : Z) (arch : ARCH) (bar4 : Z) (s : SimulationTlbAllocator) (held : gset Z) : Prop :=
  ∃ s0, new_allocator bar0 arch bar4 = Ok s0 ∧ rtc allocator_step (s0, ∅) (s, held).

Record allocator_ok (bar0 : Z) (arch : ARCH) (bar4 : Z) (t : ArchitectureTlbs)
    (s : SimulationTlbAllocator) (held : gset Z) : Prop := {
  al_arch : architecture s = arch;
  al_bar0 : bar0_base s = bar0;
  al_bar4 : bar4_base s = bar4;
  al_reg : tlb_reg_size_bytes s = cfg_reg_size_bytes t;
  al_layout : map pool_layout (pools s) = size_classes t;
  al_pools : pools_ok 0 (pools s);
  al_held : ∀ i, i ∈ held ↔ live (pools s) i
}.

(** The architectures with window pools. *)
Definition pooled (arch : ARCH) : Prop := arch = WORMHOLE_B0 ∨ arch = BLACKHOLE.

Lemma find_pool_class i ps : find_class i (map pool_layout ps) = pool_layout <$> find_pool i ps.
Proof. induction ps as [|p ps IH]; [done|]. cbn. by destruct (in_class i (pool_layout p)). Qed.

Lemma window_class i size ps :
  window ps i size ↔ ∃ c, find_class i (map pool_layout ps) = Some c ∧ size ≤ sc_size c.
Proof.
  rewrite find_pool_class. unfold window. destruct (find_pool i ps); cbn; naive_solver.
Qed.

Lemma not_live_new cs i : ¬ live (map new_pool cs) i.
Proof.
  intros (p & Hf & Ha). assert (p ∈ map new_pool cs) as Hp.
  { revert Hf. clear. induction cs as [|c cs IH]; [done|]. cbn. destruct (in_class i c).
    - intros [= <-]. left.
    - intros. right. by apply IH. }
  apply list_elem_of_fmap in Hp as (c & -> & _). cbn in Ha. by apply lookup_replicate in Ha as [? _].
Qed.

Lemma new_allocator_ok bar0 arch bar4 t s :
  pooled arch → get_architecture_tlbs arch = Ok t → new_allocator bar0 arch bar4 = Ok s →
  allocator_ok bar0 arch bar4 t s ∅.
Proof.
  intros Harch Ht Hs. pose proof (get_architecture_tlbs_wf _ _ Ht) as (Hwf & Hcov & _).
  assert (s = MkAllocator bar0 bar4 arch (cfg_reg_size_bytes t) (map new_pool (size_classes t)) 0) as ->.
  { destruct Harch as [-> | ->]; injection Ht as <-; by injection Hs as <-. }
  assert (map pool_layout (map new_pool (size_classes t)) = size_classes t) as Hmap.
  { rewrite map_map. apply map_id. }
  split; cbn; try done.
  - split; [by rewrite Hmap|by rewrite Hmap|].
    apply Forall_map, Forall_true. intros c. cbn. by rewrite length_replicate.
  - intros i. split; [set_solver|]. by intros ?%not_live_new.
Qed.

Lemma window_bound t ps i size :
  Forall class_wf (size_classes t) → num_windows t < 2 ^ 31 → pools_ok 0 ps →
  map pool_layout ps = size_classes t → window ps i size → i < 2 ^ 31.
Proof.
  intros Hwf Hn Hok Hmap Hw. pose proof (window_ge _ _ _ _ Hok Hw) as Hge.
  apply window_class in Hw as (c & Hc & _). rewrite Hmap in Hc.
  destruct Hok as [_ Hcov _]. rewrite Hmap in Hcov.
  assert (is_Some (find_class i (size_classes t))) as Hs by by eexists.
  apply (find_class_covers i _ 0 Hwf Hcov Hge) in Hs. unfold num_windows in Hn. lia.
Qed.

Lemma num_windows_small arch t : get_architecture_tlbs arch = Ok t → num_windows t < 2 ^ 31.
Proof. destruct arch; intros [= <-]; by vm_compute. Qed.

(** What an allocation does in a state that satisfies the invariant. *)
Lemma allocate_ok bar0 arch bar4 t s held size :
  pooled arch → get_architecture_tlbs arch = Ok t → allocator_ok bar0 arch bar4 t s held →
  let '(i, s') := allocate_tlb_index size s in
  (i = -1 ∧ s' = s ∧ ∀ j c, find_class j (size_classes t) = Some c → size ≤ sc_size c → j ∈ held) ∨
  (0 ≤ i ∧ allocator_ok bar0 arch bar4 t s' ({[ i ]} ∪ held) ∧ i ∉ held ∧
   (∃ c, find_class i (size_classes t) = Some c ∧ size ≤ sc_size c) ∧
   ∀ j c, find_class j (size_classes t) = Some c → size ≤ sc_size c → j < i → j ∈ held).
Proof.
  intros Harch Ht [? ? ? ? Hlay Hok Hheld].
  pose proof (get_architecture_tlbs_wf _ _ Ht) as (Hwf & _).
  assert (allocate_tlb_index size s =
    match allocate_in size (pools s) with Some (i, ps) => (i, set_pools ps s) | None => (-1, s) end) as ->.
  { unfold allocate_tlb_index. destruct Harch; by simplify_eq; destruct (architecture s). }
  pose proof (allocate_in_spec 0 (pools s) size Hok ltac:(lia)
    (λ i s, window_bound t _ i s Hwf (num_windows_small _ _ Ht) Hok Hlay)) as Hspec.
  assert (∀ j c, find_class j (size_classes t) = Some c → size ≤ sc_size c → window (pools s) j size) as Hwin.
  { intros j c Hc Hs. apply window_class. rewrite Hlay. by exists c. }
  destruct (allocate_in size (pools s)) as [[i ps]|].
  - destruct Hspec as (Hok' & Hmap & Hw & Hnl & Hlive & Hlow). right.
    split; [by apply (window_ge _ _ _ _ Hok Hw)|]. split; [|split_and!].
    + split; cbn; try done; [by rewrite Hmap|]. intros j. rewrite Hlive, <- Hheld. set_solver.
    + by rewrite Hheld.
    + apply window_class in Hw. by rewrite Hlay in Hw.
    + intros j c Hc Hs Hlt. apply Hheld, Hlow; [by eapply Hwin|done].
  - left. split; [done|]. split; [done|]. intros j c Hc Hs. apply Hheld, Hspec. by eapply Hwin.
Qed.

Lemma deallocate_ok bar0 arch bar4 t s held i :
  allocator_ok bar0 arch bar4 t s held →
  allocator_ok bar0 arch bar4 t (deallocate_tlb_index i s) (held ∖ {[ i ]}).
Proof.
  intros [? ? ? ? Hlay Hok Hheld]. unfold deallocate_tlb_index.
  assert (∀ ps, map pool_layout (release i ps) = map pool_layout ps) as Hmap.
  { intros ps. induction ps as [|p ps IH]; [done|]. cbn. destruct (in_class _ _); cbn; [done|by rewrite IH]. }
  destruct (release_spec 0 _ i Hok) as [Hok' Hlive]. destruct (Z.ltb_spec i 0) as [Hneg|Hpos].
  - split; try done. intros j. rewrite elem_of_difference, elem_of_singleton, Hheld.
    split; [tauto|]. intros Hl. split; [done|]. apply (live_ge _ _ _ Hok) in Hl. lia.
  - split; cbn; try done; [by rewrite Hmap|]. intros j.
    by rewrite elem_of_difference, elem_of_singleton, Hheld, Hlive.
Qed.

Lemma allocator_reachable_ok bar0 arch bar4 t s held :
  pooled arch → get_architecture_tlbs arch = Ok t → allocator_reachable bar0 arch bar4 s held →
  allocator_ok bar0 arch bar4 t s held.
Proof.
  intros Harch Ht (s0 & Hs0 & Hsteps). pose proof (new_allocator_ok _ _ _ _ _ Harch Ht Hs0) as Hok.
  remember (s0, ∅) as x eqn:Hx. remember (s, held) as y eqn:Hy.
  assert (allocator_ok bar0 arch bar4 t x.1 x.2) as Hokx by by rewrite Hx.
  clear Hs0 Hok Hx s0. cut (allocator_ok bar0 arch bar4 t y.1 y.2); [by rewrite Hy|].
  clear Hy s held. induction Hsteps as [|x y z Hstep _ IH]; [done|]. apply IH. clear IH.
  destruct Hstep as [size s held i s' _ Ha Hi|size s held i s' _ Ha Hi|i s held]; cbn in Hokx |- *.
  3: by apply deallocate_ok.
  all: pose proof (allocate_ok _ _ _ _ _ _ size Harch Ht Hokx) as Hspec; rewrite Ha in Hspec;
    destruct Hspec as [(-> & -> & _)|(Hi' & Hok' & _)]; (done || lia).
Qed.

(** C32: SAFETY of the window allocator. In every state that clients of a new
    Wormhole or Blackhole allocator can reach by allocations and deallocations (of
    valid, free or invalid indices), an allocation of [size] bytes either hands
    out a window that no client holds and that is large enough, and no window
    with a lower index would do; or it returns -1, leaves the allocator as it
    is, and then every window that is large enough is held. *)
Theorem allocate_tlb_index_safe bar0 arch bar4 t s held size :
  pooled arch → get_architecture_tlbs arch = Ok t → allocator_reachable bar0 arch bar4 s held → 0 ≤ size →
  let '(i, s') := allocate_tlb_index size s in
  (i = -1 ∧ s' = s ∧ ∀ j c, find_class j (size_classes t) = Some c → size ≤ sc_size c → j ∈ held) ∨
  (i ∉ held ∧ allocator_reachable bar0 arch bar4 s' ({[ i ]} ∪ held) ∧
   (∃ c, find_class i (size_classes t) = Some c ∧ size ≤ sc_size c) ∧
   ∀ j c, find_class j (size_classes t) = Some c → size ≤ sc_size c → j < i → j ∈ held).
Proof.
  intros Harch Ht Hreach Hsize. pose proof (allocator_reachable_ok _ _ _ _ _ _ Harch Ht Hreach) as Hok.
  pose proof (allocate_ok _ _ _ _ _ _ size Harch Ht Hok) as Hspec.
  destruct (allocate_tlb_index size s) as [i s'] eqn:Ha.
  destruct Hspec as [Hfail|(Hi & _ & Hnew & Hwin & Hlow)]; [by left|right].
  split_and!; [done| |done|done]. destruct Hreach as (s0 & Hs0 & Hsteps). exists s0. split; [done|].
  eapply rtc_r; [done|].
  by apply (step_allocated size).
Qed.

(** A Blackhole allocator whose eight 4 GB windows are held: index 202 is the
    first of them, and a request of more than 2 MB then fails. *)
Definition take_windows (n : nat) (size : Z) (s : SimulationTlbAllocator) : SimulationTlbAllocator :=
  Nat.iter n (λ s, (allocate_tlb_index size s).2) s.

Lemma allocate_tlb_index_safe_witness :
  ∃ s0, new_allocator 0 BLACKHOLE 0 = Ok s0 ∧
    let '(i, s') := allocate_tlb_index 0x200001 s0 in
    (i = -1 ∧ s' = s0 ∧ ∀ j c, find_class j (size_classes blackhole_windows.blackhole_tlbs) = Some c →
       0x200001 ≤ sc_size c → j ∈ (∅ : gset Z)) ∨
    (i ∉ (∅ : gset Z) ∧ allocator_reachable 0 BLACKHOLE 0 s' ({[ i ]} ∪ ∅) ∧
     (∃ c, find_class i (size_classes blackhole_windows.blackhole_tlbs) = Some c ∧ 0x200001 ≤ sc_size c) ∧
     ∀ j c, find_class j (size_classes blackhole_windows.blackhole_tlbs) = Some c →
       0x200001 ≤ sc_size c → j < i → j ∈ (∅ : gset Z)).
Proof.
  eexists. split; [reflexivity|].
  apply (allocate_tlb_index_safe 0 BLACKHOLE 0 blackhole_windows.blackhole_tlbs).
  - by right.
  - reflexivity.
  - eexists. split; [reflexivity|]. apply rtc_refl.
  - lia.
Defined.

Example exhausted_4g :
  (λ s, map (λ n, (allocate_tlb_index 0x200001 (take_windows n 0x200001 s)).1) [0; 7; 8]%nat) <$>
    new_allocator 0 BLACKHOLE 0 = Ok [202; 209; -1].
Proof. vm_compute. reflexivity. Qed.

(** ** Addresses *)

(** The BAR0 bytes of the classes before the one of the index. *)
Lemma region_offset_bar arch t i c ps :
  pooled arch → get_architecture_tlbs arch = Ok t → map pool_layout ps = size_classes t →
  find_class i (size_classes t) = Some c → sc_in_bar4 c = false → region_offset i ps = sc_bar_offset c.
Proof.
  intros Harch Ht Hmap Hc Hbar.
  destruct Harch as [-> | ->]; injection Ht as <-; revert Hmap Hc;
    cbn [size_classes wormhole_windows.wormhole_tlbs blackhole_windows.blackhole_tlbs]; intros Hmap Hc.
  - destruct ps as [|p1 [|p2 [|p3 [|]]]]; try discriminate Hmap. injection Hmap as H1 H2 H3.
    cbn [region_offset]. rewrite H1, H2, H3. cbn [find_class] in Hc.
    repeat (destruct (in_class i _); [injection Hc as <-; vm_compute; reflexivity|]). discriminate Hc.
  - destruct ps as [|p1 [|p2 [|]]]; try discriminate Hmap. injection Hmap as H1 H2.
    cbn [region_offset]. rewrite H1, H2. cbn [find_class] in Hc.
    repeat (destruct (in_class i _); [injection Hc as <-; first [discriminate Hbar|vm_compute; reflexivity]|]).
    discriminate Hc.
Qed.

(** The windows in BAR4 start at its first byte. *)
Lemma bar4_classes arch t c :
  pooled arch → get_architecture_tlbs arch = Ok t → c ∈ size_classes t → sc_in_bar4 c = true → sc_bar_offset c = 0.
Proof.
  intros Harch Ht. revert c.
  cut (Forall (λ c, sc_in_bar4 c = true → sc_bar_offset c = 0) (size_classes t)).
  { rewrite list.Forall_forall. auto. }
  destruct Harch as [-> | ->]; injection Ht as <-; repeat constructor; by vm_compute.
Qed.

(** The allocator's address arithmetic agrees with the architecture's window
    table. In every reachable state the index of a window has the size of its
    class, the address of the window in the BAR that its class lies in, and a
    configuration register at the register base; an index without a window is
    rejected by all three with the same error. *)
Lemma simulation_addresses_agree bar0 arch bar4 t s held i :
  pooled arch → get_architecture_tlbs arch = Ok t → allocator_reachable bar0 arch bar4 s held →
  match get_configuration t i with
  | Ok conf =>
      ∃ c, find_class i (size_classes t) = Some c ∧ get_tlb_size_from_index i s = Ok (tc_size conf) ∧
        get_tlb_address_from_index i s = Ok (u64 ((if sc_in_bar4 c then bar4 else bar0) + tc_tlb_offset conf)) ∧
        get_tlb_reg_address_from_index i s = Ok (u64 (bar0 + static_cfg_addr t + u64 (i * cfg_reg_size_bytes t)))
  | Err _ =>
      get_tlb_size_from_index i s = invalid_index ∧ get_tlb_address_from_index i s = invalid_index ∧
      get_tlb_reg_address_from_index i s = invalid_index
  end.
Proof.
  intros Harch Ht Hreach.
  destruct (allocator_reachable_ok _ _ _ _ _ _ Harch Ht Hreach) as [_ Hb0 Hb4 Hreg Hlay Hok _].
  pose proof (get_architecture_tlbs_wf _ _ Ht) as (Hwf & _).
  unfold get_configuration, get_tlb_size_from_index, get_tlb_address_from_index, get_tlb_reg_address_from_index.
  assert (find_pool_for_index i s = find_pool i (pools s)) as ->.
  { unfold find_pool_for_index. destruct (Z.ltb_spec i 0); [|done].
    destruct (find_pool i (pools s)) eqn:Hf; [|done]. apply (find_pool_ge _ _ _ _ Hok) in Hf. lia. }
  pose proof (find_pool_class i (pools s)) as Hfc. rewrite Hlay in Hfc.
  destruct (find_pool i (pools s)) as [p|] eqn:Hp; cbn in Hfc; rewrite Hfc; [|done].
  eexists. split; [done|]. cbn [tc_size tc_tlb_offset]. split; [done|]. rewrite Hb0, Hb4, Hreg.
  destruct (find_class_Some _ _ _ Hfc) as [Hin Hic]. rewrite list.Forall_forall in Hwf.
  specialize (Hwf _ Hin). apply in_class_spec in Hic; [|done]. unfold class_wf in Hwf.
  rewrite (u64_small (i - _)) by lia. split.
  - destruct (sc_in_bar4 (pool_layout p)) eqn:Hbar.
    + assert (sc_bar_offset (pool_layout p) = 0) as ->.
      { by apply (bar4_classes arch t _ Harch Ht). }
      rewrite Z.add_0_l. unfold u64. by rewrite Z.mod_mod by lia.
    + erewrite region_offset_bar by done. f_equal. unfold u64.
      by rewrite (Z.add_mod_idemp_r bar0 (_ + _)), Z.add_assoc by lia.
  - by destruct Harch as [-> | ->]; injection Ht as <-.
Qed.

Lemma simulation_addresses_agree_witness :
  ∃ s0, new_allocator 0x1000 WORMHOLE_B0 0 = Ok s0 ∧
    get_tlb_address_from_index 170 s0 = Ok 0xf001000 ∧
    match get_configuration wormhole_windows.wormhole_tlbs 170 with
    | Ok conf =>
        ∃ c, find_class 170 (size_classes wormhole_windows.wormhole_tlbs) = Some c ∧
          get_tlb_size_from_index 170 s0 = Ok (tc_size conf) ∧
          get_tlb_address_from_index 170 s0 =
            Ok (u64 ((if sc_in_bar4 c then 0 else 0x1000) + tc_tlb_offset conf)) ∧
          get_tlb_reg_address_from_index 170 s0 = Ok (u64 (0x1000 + static_cfg_addr wormhole_windows.wormhole_tlbs
            + u64 (170 * cfg_reg_size_bytes wormhole_windows.wormhole_tlbs)))
    | Err _ => get_tlb_size_from_index 170 s0 = invalid_index ∧ get_tlb_address_from_index 170 s0 = invalid_index ∧
        get_tlb_reg_address_from_index 170 s0 = invalid_index
    end.
Proof.
  eexists. split; [reflexivity|]. split; [vm_compute; reflexivity|].
  apply (simulation_addresses_agree 0x1000 WORMHOLE_B0 0 wormhole_windows.wormhole_tlbs _ ∅).
  - by left.
  - reflexivity.
  - eexists. split; [reflexivity|]. apply rtc_refl.
Defined.
