(* ===== verification/BoardTypes.v ===== *)
(** * BoardTypes

    [types/cluster_descriptor_types.hpp]: board types, their names and ids, what
    the driver expects of the chips of a board, and the coordinates of a chip in
    a cluster. *)

From Stdlib Require Import ZArith Lia.
From stdpp Require Import base list numbers strings gmap.
From S2P Require Import Prelude CoreTypes.

Local Open Scope Z_scope.

(** UBB_WORMHOLE is UBB. *)
Inductive BoardType :=
  | N150 | N300 | P100 | P150 | P300 | GALAXY | UBB | UBB_BLACKHOLE | QUASAR_BOARD | UNKNOWN.

#[global] Instance BoardType_eq_dec : EqDecision BoardType.
Proof. solve_decision. Defined.

Definition BoardType_value (b : BoardType) : Z :=
  match b with
  | N150 => 3 | N300 => 4 | P100 => 5 | P150 => 6 | P300 => 7 | GALAXY => 8 | UBB => 9
  | UBB_BLACKHOLE => 10 | QUASAR_BOARD => 11 | UNKNOWN => 12
  end.

(** [map.find(key)] of a constant table. *)
Fixpoint assoc {A B} `{EqDecision A} (key : A) (table : list (A * B)) : option B :=
  match table with
  | [] => None
  | (k, v) :: table => if decide (k = key) then Some v else assoc key table
  end.

(** ** Names *)

Definition board_type_name_map : list (string * BoardType) :=
  [("n150", N150); ("n300", N300); ("p100", P100); ("p150", P150); ("p300", P300); ("ubb", UBB);
   ("ubb_blackhole", UBB_BLACKHOLE); ("ubb_wormhole", UBB); ("quasar", QUASAR_BOARD);
   ("unknown", UNKNOWN);
   ("p150a", P150); ("p150c", P150); ("p300a", P300); ("p300c", P300)].

Definition board_type_canonical_name_map : list (BoardType * string) :=
  [(N150, "n150"); (N300, "n300"); (P100, "p100"); (P150, "p150"); (P300, "p300"); (UBB, "ubb");
   (UBB_BLACKHOLE, "ubb_blackhole"); (QUASAR_BOARD, "quasar"); (UNKNOWN, "unknown")].

Definition board_type_to_string (b : BoardType) : result string :=
  match assoc b board_type_canonical_name_map with
  | Some s => Ok s
  | None => throw "Unknown board type passed for conversion to string."
  end.

Definition board_type_from_string (board_type_str : string) : BoardType :=
  let lowered := to_lower board_type_str in
  match assoc lowered board_type_name_map with Some b => b | None => UNKNOWN end.

(** ** Board ids *)

Definition board_upi_map : list (Z * BoardType) :=
  [(0x36, P100); (0x43, P100); (0x40, P150); (0x41, P150); (0x42, P150); (0x44, P300); (0x45, P300);
   (0x46, P300); (0x18, N150); (0x14, N300); (0x35, UBB); (0x47, UBB_BLACKHOLE); (0x50, QUASAR_BOARD)].

Definition get_board_type_from_board_id (board_id : Z) : result BoardType :=
  let upi := Z.land (Z.shiftr board_id 36) 0xFFFFF in
  match assoc upi board_upi_map with
  | Some b => Ok b
  | None => throw "No existing board type for board ID"  (* the id, in hex, follows *)
  end.

(** ** Blackhole chip types, expected counts *)

Inductive BlackholeChipType := Type1 | Type2.

Definition get_blackhole_chip_type (board_type : BoardType) (asic_location : Z) : result BlackholeChipType :=
  if negb (asic_location =? 0) && negb (bool_decide (board_type = P300))
  then throw "Remote chip is supported only for Blackhole P300 board."
  else
    match board_type with
    | P100 => Ok Type1
    | P150 => Ok Type2
    | P300 =>
        if asic_location =? 0 then Ok Type2
        else if asic_location =? 1 then Ok Type1
        else throw ("Invalid ASIC location for Blackhole P300 board: " +:+ to_string asic_location)
    | _ => throw "Invalid board type for Blackhole architecture."
    end.

Definition get_number_of_chips_from_board_type (board_type : BoardType) : result Z :=
  match board_type with
  | N150 => Ok 1
  | N300 => Ok 2
  | P100 | P150 => Ok 1
  | P300 => Ok 2
  | UBB | UBB_BLACKHOLE => Ok 32
  | QUASAR_BOARD => Ok 1
  | _ => throw "Unknown board type."
  end.

Definition expected_tensix_harvested_units_map : list (BoardType * Z) :=
  [(N150, 1); (N300, 2); (P100, 2); (P150, 2); (P300, 2); (UBB, 0); (UBB_BLACKHOLE, 1)].
Definition expected_dram_harvested_units_map : list (BoardType * Z) :=
  [(N150, 0); (N300, 0); (P100, 1); (P150, 0); (P300, 0); (UBB, 0); (UBB_BLACKHOLE, 0)].
Definition expected_eth_harvested_units_map : list (BoardType * Z) :=
  [(N150, 0); (N300, 0); (P100, 14); (P150, 2); (P300, 2); (UBB, 0); (UBB_BLACKHOLE, 2)].

(** ** Cluster coordinates *)

Record EthCoord := MkEthCoord { cluster_id : Z; ec_x : Z; ec_y : Z; ec_rack : Z; ec_shelf : Z }.

#[global] Instance EthCoord_eq_dec : EqDecision EthCoord.
Proof. solve_decision. Defined.

Definition EthCoord_eqb (a o : EthCoord) : bool :=
  (cluster_id a =? cluster_id o) && (ec_x a =? ec_x o) && (ec_y a =? ec_y o) && (ec_rack a =? ec_rack o)
  && (ec_shelf a =? ec_shelf o).

Definition EthCoord_ltb (a o : EthCoord) : bool :=
  if negb (cluster_id a =? cluster_id o) then cluster_id a <? cluster_id o
  else if negb (ec_x a =? ec_x o) then ec_x a <? ec_x o
  else if negb (ec_y a =? ec_y o) then ec_y a <? ec_y o
  else if negb (ec_rack a =? ec_rack o) then ec_rack a <? ec_rack o
  else ec_shelf a <? ec_shelf o.

(** ** Properties *)

#[global] Instance EthCoord_ltb_order : MapKeyOrder EthCoord_ltb.
Proof.
  split; unfold EthCoord_ltb.
  - intros []; simpl. rewrite !Z.eqb_refl. simpl. lia.
  - intros [] [] []; simpl. repeat case_match; lia.
  - intros [] []; simpl. repeat case_match; intros; try lia. f_equal; lia.
Qed.

(** Lowering leaves a canonical name as it is; aliases and other cases are read. *)
Lemma board_type_from_canonical b s :
  assoc b board_type_canonical_name_map = Some s → board_type_from_string s = b.
Proof. destruct b; intros [= <-]; reflexivity. Qed.

(** A board type other than GALAXY prints to a name that reads back as the
    board type, in lower, upper or mixed case; GALAXY has no name and throws. *)
Lemma board_type_string_round_trip b :
  (b ≠ GALAXY →
   ∃ s, board_type_to_string b = Ok s ∧ ∀ s', to_lower s' = to_lower s → board_type_from_string s' = b) ∧
  (b = GALAXY → board_type_to_string b = throw "Unknown board type passed for conversion to string.").
Proof.
  split; [|by intros ->]. intros Hb.
  destruct (assoc b board_type_canonical_name_map) as [s|] eqn:Hs; [|by destruct b].
  exists s. unfold board_type_to_string. rewrite Hs. split; [done|]. intros s' Hs'.
  rewrite <- (board_type_from_canonical b s Hs). unfold board_type_from_string. by rewrite Hs'.
Qed.
Lemma board_type_string_round_trip_witness :
  ∃ s, board_type_to_string UBB_BLACKHOLE = Ok s
       ∧ ∀ s', to_lower s' = to_lower s → board_type_from_string s' = UBB_BLACKHOLE.
Proof. apply (board_type_string_round_trip UBB_BLACKHOLE). discriminate. Defined.

(** The board type depends on 20 bits of the board id. *)
Lemma board_type_of_upi upi serial :
  0 ≤ upi < 2 ^ 20 → 0 ≤ serial < 2 ^ 36 →
  get_board_type_from_board_id (Z.shiftl upi 36 + serial) = get_board_type_from_board_id (Z.shiftl upi 36).
Proof.
  intros Hu Hs. unfold get_board_type_from_board_id.
  assert (Z.shiftr (Z.shiftl upi 36 + serial) 36 = upi) as ->.
  { rewrite Z.shiftr_div_pow2, Z.shiftl_mul_pow2 by lia. rewrite Z.div_add_l, Z.div_small by lia. lia. }
  by rewrite Z.shiftr_shiftl_l by lia.
Qed.
