(* ===== verification/ClusterState.v ===== *)
(** * ClusterState

    The data of [ClusterDescriptor] ([api/umd/device/cluster_descriptor.hpp]),
    its getters and the queries on it ([cluster_descriptor.cpp]).

    The maps keyed by chip are finite maps; the nested map
    rack / shelf / y / x to chip is flattened to one map keyed by the four.
    Range-for loops over unordered containers run in an order the C++ library
    does not specify: it is a parameter ([Unordered]), of which only that every
    element is visited once is known. *)

From Stdlib Require Import ZArith Lia.
From stdpp Require Import base list numbers strings gmap sets.
From S2P Require Import Prelude CoreTypes Harvesting SemVer BoardTypes.

Local Open Scope Z_scope.

(** ** Iteration order *)

Class Unordered := {
  set_iter : gset Z → list Z;
  map_iter : ∀ {V}, gmap Z V → list (Z * V)
}.

Class UnorderedLaws `{Unordered} : Prop := {
  set_iter_perm : ∀ s, set_iter s ≡ₚ elements s;
  map_iter_perm : ∀ V (m : gmap Z V), map_iter m ≡ₚ map_to_list m
}.

Lemma elem_of_set_iter `{UnorderedLaws} s x : x ∈ set_iter s ↔ x ∈ s.
Proof. by rewrite set_iter_perm, elem_of_elements. Qed.
Lemma NoDup_set_iter `{UnorderedLaws} s : NoDup (set_iter s).
Proof. rewrite set_iter_perm. apply NoDup_elements. Qed.
Lemma elem_of_map_iter `{UnorderedLaws} {V} (m : gmap Z V) k v : (k, v) ∈ map_iter m ↔ m !! k = Some v.
Proof. by rewrite map_iter_perm, elem_of_map_to_list. Qed.
Lemma NoDup_map_iter `{UnorderedLaws} {V} (m : gmap Z V) : NoDup (map_iter m).*1.
Proof. rewrite map_iter_perm. apply NoDup_fst_map_to_list. Qed.

(** One order, for examples. *)
Definition sorted_order : Unordered := {| set_iter := elements; map_iter := λ V m, map_to_list m |}.
Lemma sorted_order_laws : @UnorderedLaws sorted_order.
Proof. by split. Qed.

(** ** Data *)

(** Outgoing links of the channels of a chip: channel to (chip, channel). *)
Abbreviation ChannelLinks := (gmap Z (Z * Z)).

Record EthLinks := MkLinks {
  ethernet_connections : gmap Z ChannelLinks;
  ethernet_connections_to_remote_devices : gmap Z ChannelLinks;
  active_eth_channels : gmap Z (gset Z);
  idle_eth_channels : gmap Z (gset Z)
}.

Record Boards := MkBoards {
  chip_to_board_id : gmap Z Z;
  board_to_chips : gmap Z (gset Z);
  chip_board_type : gmap Z BoardType
}.

Record Placement := MkPlacement {
  chip_locations : gmap Z EthCoord;
  coords_to_chip_ids : gmap (Z * Z * Z * Z) Z
}.

Record ChipTables := MkTables {
  chip_arch : gmap Z ARCH;
  chip_unique_ids : gmap Z Z;
  authentic_chip_unique_ids : bool;
  noc_translation_enabled : gmap Z bool;
  chip_to_bus_id : gmap Z Z;
  chip_pci_bdfs : gmap Z string;
  harvesting_masks_map : gmap Z HarvestingMasks;
  asic_locations : gmap Z Z
}.

Inductive IODeviceType := PCIe | JTAG | UNDEFINED.

Record ClusterDescriptor := MkDesc {
  all_chips : gset Z;
  chips_with_mmio : gmap Z Z;
  tables : ChipTables;
  placement : Placement;
  boards : Boards;
  links : EthLinks;
  closest_mmio_chip_cache : gmap Z Z;
  chips_grouped_by_closest_mmio : gmap Z (gset Z);
  io_device_type : IODeviceType;
  fw_bundle_version : option SemVer;
  eth_fw_version : option SemVer
}.

Definition empty_links : EthLinks := MkLinks ∅ ∅ ∅ ∅.
Definition empty_boards : Boards := MkBoards ∅ ∅ ∅.
Definition empty_placement : Placement := MkPlacement ∅ ∅.
Definition empty_tables : ChipTables := MkTables ∅ ∅ false ∅ ∅ ∅ ∅ ∅.
(** [ClusterDescriptor() = default]. *)
Definition empty_descriptor : ClusterDescriptor :=
  MkDesc ∅ ∅ empty_tables empty_placement empty_boards empty_links ∅ ∅ PCIe None None.

Definition set_placement (p : Placement) (d : ClusterDescriptor) : ClusterDescriptor :=
  MkDesc (all_chips d) (chips_with_mmio d) (tables d) p (boards d) (links d) (closest_mmio_chip_cache d)
    (chips_grouped_by_closest_mmio d) (io_device_type d) (fw_bundle_version d) (eth_fw_version d).
Definition set_links (l : EthLinks) (d : ClusterDescriptor) : ClusterDescriptor :=
  MkDesc (all_chips d) (chips_with_mmio d) (tables d) (placement d) (boards d) l (closest_mmio_chip_cache d)
    (chips_grouped_by_closest_mmio d) (io_device_type d) (fw_bundle_version d) (eth_fw_version d).
Definition set_cache (c : gmap Z Z) (d : ClusterDescriptor) : ClusterDescriptor :=
  MkDesc (all_chips d) (chips_with_mmio d) (tables d) (placement d) (boards d) (links d) c
    (chips_grouped_by_closest_mmio d) (io_device_type d) (fw_bundle_version d) (eth_fw_version d).
Definition set_grouped (g : gmap Z (gset Z)) (d : ClusterDescriptor) : ClusterDescriptor :=
  MkDesc (all_chips d) (chips_with_mmio d) (tables d) (placement d) (boards d) (links d)
    (closest_mmio_chip_cache d) g (io_device_type d) (fw_bundle_version d) (eth_fw_version d).

(** [m.at(k)], [m[k].insert(x)], [m[k].erase(x)]. *)
Definition map_at {V} (k : Z) (m : gmap Z V) : result V :=
  match m !! k with Some v => Ok v | None => Err OutOfRange end.
Definition set_at (k : Z) (m : gmap Z (gset Z)) : gset Z := default ∅ (m !! k).
Definition map_set_insert (k x : Z) (m : gmap Z (gset Z)) : gmap Z (gset Z) := <[k := {[x]} ∪ set_at k m]> m.
Definition map_set_erase (k x : Z) (m : gmap Z (gset Z)) : gmap Z (gset Z) := <[k := set_at k m ∖ {[x]}]> m.

(** ** Queries *)

Definition ethernet_core_has_active_ethernet_link (l : EthLinks) (local_chip local_channel : Z) : bool :=
  match ethernet_connections l !! local_chip with
  | Some channels => bool_decide (is_Some (channels !! local_channel))
  | None => false
  end
  || match ethernet_connections_to_remote_devices l !! local_chip with
     | Some channels => bool_decide (is_Some (channels !! local_channel))
     | None => false
     end.

(** [return {}] of a tuple is (0, 0). *)
Definition get_chip_and_channel_of_remote_ethernet_core (d : ClusterDescriptor) (local_chip local_channel : Z)
  : result (Z * Z) :=
  if negb (bool_decide (local_chip ∈ all_chips d)) then Ok (0, 0)
  else
    channels ← map_at local_chip (ethernet_connections (links d));
    match (channels : ChannelLinks) !! local_channel with
    | None => Ok (0, 0)
    | Some (connected_chip, connected_channel) =>
        if bool_decide (connected_chip ∈ all_chips d) then Ok (connected_chip, connected_channel) else Ok (0, 0)
    end.

Section iterating.
Context `{Unordered}.

Definition get_directly_connected_ethernet_channels_between_chips (d : ClusterDescriptor) (first second : Z)
  : result (list (Z * Z)) :=
  if negb (bool_decide (first ∈ all_chips d)) || negb (bool_decide (second ∈ all_chips d)) then Ok []
  else
    channels ← map_at first (ethernet_connections (links d));
    Ok (omap (λ '(channel, (chip, other)), if chip =? second then Some (channel, other) else None)
          (map_iter channels)).

End iterating.

Definition is_chip_mmio_capable (d : ClusterDescriptor) (chip_id : Z) : bool :=
  bool_decide (is_Some (chips_with_mmio d !! chip_id)).
Definition is_chip_remote (d : ClusterDescriptor) (chip_id : Z) : bool := negb (is_chip_mmio_capable d chip_id).

Definition get_chip_location (d : ClusterDescriptor) (chip : Z) : EthCoord :=
  default (MkEthCoord 0 0 0 0 0) (chip_locations (placement d) !! chip).
Definition get_board_type (d : ClusterDescriptor) (chip_id : Z) : result BoardType :=
  match chip_board_type (boards d) !! chip_id with
  | Some b => Ok b
  | None => throw "Chip does not have a board type in the cluster descriptor"
  end.
Definition get_arch_of (d : ClusterDescriptor) (chip_id : Z) : result ARCH :=
  match chip_arch (tables d) !! chip_id with
  | Some a => Ok a
  | None => throw "Chip does not have an architecture in the cluster descriptor"
  end.
Definition get_active_eth_channels (d : ClusterDescriptor) (chip_id : Z) : gset Z :=
  set_at chip_id (active_eth_channels (links d)).
Definition get_idle_eth_channels (d : ClusterDescriptor) (chip_id : Z) : gset Z :=
  set_at chip_id (idle_eth_channels (links d)).
Definition get_harvesting_masks (d : ClusterDescriptor) (chip_id : Z) : HarvestingMasks :=
  default (MkMasks 0 0 0 0 0) (harvesting_masks_map (tables d) !! chip_id).
Definition get_asic_location (d : ClusterDescriptor) (chip_id : Z) : Z :=
  default 0 (asic_locations (tables d) !! chip_id).
Definition get_bus_id (d : ClusterDescriptor) (chip_id : Z) : Z :=
  default 0 (chip_to_bus_id (tables d) !! chip_id).
Definition get_board_id_for_chip (b : Boards) (chip : Z) : result Z :=
  match chip_to_board_id b !! chip with
  | Some board => Ok board
  | None => throw "Chip to board mapping for chip not found."
  end.
Definition get_board_chips (b : Boards) (board_id : Z) : result (gset Z) :=
  match board_to_chips b !! board_id with
  | Some chips => Ok chips
  | None => throw "Board to chips mapping for board not found."
  end.
Definition get_number_of_chips (d : ClusterDescriptor) : nat := size (all_chips d).

Section local_first.
Context `{Unordered}.

(** [get_arch()]: of the first chip. *)
Definition get_arch (d : ClusterDescriptor) : result ARCH :=
  match set_iter (all_chips d) with
  | [] => throw "Unable to determine architecture because no chips were detected."
  | chip :: _ =>
      arch ← get_arch_of d chip;
      match arch with Invalid => throw "Chip has invalid architecture." | _ => Ok arch end
  end.

Definition get_chips_local_first (d : ClusterDescriptor) (chips : gset Z) : result (list Z) :=
  if forallb (λ chip, bool_decide (chip ∈ all_chips d)) (set_iter chips)
  then Ok (filter (λ chip, Is_true (is_chip_mmio_capable d chip)) (set_iter chips)
           ++ filter (λ chip, Is_true (is_chip_remote d chip)) (set_iter chips))
  else throw "Chip not found in cluster descriptor.".

End local_first.

(** [ubb_tray_id], [get_tray_id]. *)
Definition ubb_tray_id (tray_bus_ids : list Z) (bus_id : Z) : option Z :=
  let bus_high := Z.land bus_id 0xF0 in
  let k := find_index bus_high tray_bus_ids in
  if k =? vec_size tray_bus_ids then None else Some (u8 (k + 1)).

Definition wormhole_UBB_TRAY_BUS_IDS : list Z := [0xC0; 0x80; 0x00; 0x40].
Definition blackhole_UBB_TRAY_BUS_IDS : list Z := [0x00; 0x40; 0xC0; 0x80].

Definition get_tray_id (d : ClusterDescriptor) (chip_id : Z) : result (option Z) :=
  board_type ← get_board_type d chip_id;
  Ok match board_type with
     | UBB => ubb_tray_id wormhole_UBB_TRAY_BUS_IDS (get_bus_id d chip_id)
     | UBB_BLACKHOLE => ubb_tray_id blackhole_UBB_TRAY_BUS_IDS (get_bus_id d chip_id)
     | _ => None
     end.
