(* ===== verification/ClusterBoards.v ===== *)
(** * ClusterBoards

    The boards of a [ClusterDescriptor] and the grouping of chips by the MMIO
    capable chip of their board ([cluster_descriptor.cpp]: add_chip_to_board,
    get_chips_from_same_boards, get_closest_mmio_capable_chip,
    fill_chips_grouped_by_closest_mmio, verify_board_info_for_chips). *)

From Stdlib Require Import ZArith Lia.
From stdpp Require Import base list numbers strings gmap sets.
From S2P Require Import Prelude CoreTypes Harvesting BoardTypes ClusterState.

Local Open Scope Z_scope.

Definition add_chip_to_board (chip_id board_id : Z) (b : Boards) : result Boards :=
  let conflict := match chip_to_board_id b !! chip_id with
                  | Some other => negb (other =? board_id)
                  | None => false
                  end in
  if conflict then throw "Chip is already mapped to board"
  else Ok (MkBoards (<[chip_id := board_id]> (chip_to_board_id b))
             (map_set_insert board_id chip_id (board_to_chips b)) (chip_board_type b)).

Section operations.
Context `{Unordered}.

Definition get_chips_from_same_boards (b : Boards) (chips : gset Z) : result (gset Z) :=
  for_each (set_iter chips)
    (λ chip acc, board_id ← get_board_id_for_chip b chip;
                 on_board ← get_board_chips b board_id;
                 Ok (acc ∪ on_board)) ∅.

Definition get_closest_mmio_capable_chip (chip : Z) (d : ClusterDescriptor) : result (Z * ClusterDescriptor) :=
  if is_chip_mmio_capable d chip then Ok (chip, d)
  else
    match closest_mmio_chip_cache d !! chip with
    | Some closest => Ok (closest, d)
    | None =>
        board_id ← get_board_id_for_chip (boards d) chip;
        on_board ← get_board_chips (boards d) board_id;
        match List.find (is_chip_mmio_capable d) (set_iter on_board) with
        | Some candidate => Ok (candidate, set_cache (<[chip := candidate]> (closest_mmio_chip_cache d)) d)
        | None => throw "Closest MMIO capable chip not found for chip."
        end
    end.

Definition group_chip (chip : Z) (d : ClusterDescriptor) : result ClusterDescriptor :=
  if is_chip_mmio_capable d chip
  then Ok (set_grouped (map_set_insert chip chip (chips_grouped_by_closest_mmio d)) d)
  else if bool_decide (chip_locations (placement d) = ∅) then Ok d
  else
    '(closest, d) ← get_closest_mmio_capable_chip chip d;
    Ok (set_grouped (map_set_insert closest chip (chips_grouped_by_closest_mmio d)) d).

Definition fill_chips_grouped_by_closest_mmio (d : ClusterDescriptor) : result ClusterDescriptor :=
  for_each (set_iter (all_chips d)) group_chip d.

Definition verify_board_info_for_chips (check_chip_count : bool) (d : ClusterDescriptor) : result bool :=
  let assigned := forallb (λ chip, negb (negb (bool_decide (chip_to_board_id (boards d) = ∅))
                                         && bool_decide (chip_to_board_id (boards d) !! chip = None)))
                    (set_iter (all_chips d)) in
  if check_chip_count then
    for_each (map_to_list (board_to_chips (boards d)))
      (λ '(board_id, chips) good,
         board_type ← get_board_type_from_board_id board_id;
         expected ← get_number_of_chips_from_board_type board_type;
         if negb (Z.of_nat (size (chips : gset Z)) =? expected)
         then _ ← board_type_to_string board_type; Ok false
         else Ok good) assigned
  else Ok assigned.

End operations.

(** ** Boards: the two maps are inverse *)

Definition boards_ok (b : Boards) : Prop :=
  ∀ chip board, chip_to_board_id b !! chip = Some board ↔ chip ∈ set_at board (board_to_chips b).

Lemma elem_of_map_set_insert k x m k' x' :
  x' ∈ set_at k' (map_set_insert k x m) ↔ (k' = k ∧ x' = x) ∨ x' ∈ set_at k' m.
Proof.
  unfold map_set_insert, set_at at 1. destruct (decide (k = k')) as [<-|Hne].
  - rewrite lookup_insert_eq. simpl. set_solver.
  - rewrite lookup_insert_ne by done. fold (set_at k' m). naive_solver.
Qed.
Lemma elem_of_map_set_erase k x m k' x' :
  x' ∈ set_at k' (map_set_erase k x m) ↔ x' ∈ set_at k' m ∧ ¬ (k' = k ∧ x' = x).
Proof.
  unfold map_set_erase, set_at at 1. destruct (decide (k = k')) as [<-|Hne].
  - rewrite lookup_insert_eq. simpl. set_solver.
  - rewrite lookup_insert_ne by done. fold (set_at k' m). naive_solver.
Qed.

Lemma boards_ok_empty : boards_ok empty_boards.
Proof. intros chip board. unfold set_at, empty_boards; simpl. rewrite !lookup_empty. set_solver. Qed.

Lemma add_chip_to_board_cases chip board b :
  boards_ok b →
  match chip_to_board_id b !! chip with
  | Some other => if decide (other = board) then ∃ b', add_chip_to_board chip board b = Ok b' ∧ boards_ok b'
                    ∧ chip_to_board_id b' = chip_to_board_id b
                  else add_chip_to_board chip board b = throw "Chip is already mapped to board"
  | None => ∃ b', add_chip_to_board chip board b = Ok b' ∧ boards_ok b'
              ∧ get_board_id_for_chip b' chip = Ok board
              ∧ (∀ c, c ≠ chip → get_board_id_for_chip b' c = get_board_id_for_chip b c)
              ∧ ∃ chips, get_board_chips b' board = Ok chips ∧ chip ∈ chips
  end.
Proof.
  intros Hok. unfold add_chip_to_board.
  assert (∀ r, chip_to_board_id b !! chip = r → (r = None ∨ r = Some board) →
    boards_ok (MkBoards (<[chip := board]> (chip_to_board_id b))
                 (map_set_insert board chip (board_to_chips b)) (chip_board_type b))) as Hinv.
  { intros r Hr Hcase c' b'. cbn [chip_to_board_id board_to_chips]. rewrite elem_of_map_set_insert.
    specialize (Hok c' b'). destruct (decide (chip = c')) as [<-|Hne].
    - rewrite lookup_insert_eq. rewrite Hr in Hok. naive_solver.
    - rewrite lookup_insert_ne by done. naive_solver. }
  destruct (chip_to_board_id b !! chip) as [other|] eqn:Hc.
  - case_decide as Heq.
    + subst other. rewrite Z.eqb_refl. cbn [negb]. eexists. split; [done|].
      split; [by eapply Hinv; [reflexivity|right]|]. cbn. by apply insert_id.
    + by rewrite (proj2 (Z.eqb_neq _ _)).
  - eexists. split; [done|]. split; [by eapply Hinv; [reflexivity|left]|].
    unfold get_board_id_for_chip, get_board_chips; cbn. rewrite lookup_insert_eq. split; [done|]. split.
    + intros c Hne. by rewrite lookup_insert_ne.
    + unfold map_set_insert. rewrite lookup_insert_eq. eexists. split; [done|]. set_solver.
Qed.

(** C38: [add_chip_to_board] throws exactly when the chip is on another board
    already; otherwise the chip is on the board, no other chip moves, and the
    two maps stay inverse to each other. *)
Lemma add_chip_to_board_correct chip board b :
  boards_ok b →
  match chip_to_board_id b !! chip with
  | Some other => if decide (other = board) then ∃ b', add_chip_to_board chip board b = Ok b' ∧ boards_ok b'
                    ∧ chip_to_board_id b' = chip_to_board_id b
                  else add_chip_to_board chip board b = throw "Chip is already mapped to board"
  | None => ∃ b', add_chip_to_board chip board b = Ok b' ∧ boards_ok b'
              ∧ get_board_id_for_chip b' chip = Ok board
              ∧ (∀ c, c ≠ chip → get_board_id_for_chip b' c = get_board_id_for_chip b c)
              ∧ ∃ chips, get_board_chips b' board = Ok chips ∧ chip ∈ chips
  end.
Proof. apply add_chip_to_board_cases. Qed.
Lemma add_chip_to_board_correct_witness :
  ∃ b', add_chip_to_board 3 7 empty_boards = Ok b' ∧ boards_ok b'
    ∧ get_board_id_for_chip b' 3 = Ok 7
    ∧ (∀ c, c ≠ 3 → get_board_id_for_chip b' c = get_board_id_for_chip empty_boards c)
    ∧ ∃ chips, get_board_chips b' 7 = Ok chips ∧ 3 ∈ chips.
Proof. apply (add_chip_to_board_correct 3 7 empty_boards). apply boards_ok_empty. Defined.

(** ** The closest MMIO capable chip *)

(** [m] is an MMIO capable chip on the board of [chip]. *)
Definition mmio_on_board (d : ClusterDescriptor) (chip m : Z) : Prop :=
  is_chip_mmio_capable d m = true ∧
  ∃ board, chip_to_board_id (boards d) !! chip = Some board ∧ m ∈ set_at board (board_to_chips (boards d)).

Definition cache_ok (d : ClusterDescriptor) : Prop :=
  ∀ chip m, closest_mmio_chip_cache d !! chip = Some m → mmio_on_board d chip m.

(** [d'] is [d] with more entries in the cache. *)
Definition cache_extended (d d' : ClusterDescriptor) : Prop :=
  d' = set_cache (closest_mmio_chip_cache d') d ∧ closest_mmio_chip_cache d ⊆ closest_mmio_chip_cache d'.

Lemma find_Some_elem (f : Z → bool) l x : List.find f l = Some x → x ∈ l ∧ f x = true.
Proof. intros H%List.find_some. by rewrite list_elem_of_In. Qed.
Lemma find_is_Some (f : Z → bool) l x : x ∈ l → f x = true → is_Some (List.find f l).
Proof.
  intros Hx Hf. destruct (List.find f l) eqn:He; [done|].
  apply list_elem_of_In in Hx. by rewrite (List.find_none _ _ He _ Hx) in Hf.
Qed.

Section closest.
Context `{UnorderedLaws}.

Lemma get_closest_spec d chip :
  cache_ok d →
  match get_closest_mmio_capable_chip chip d with
  | Ok (m, d') =>
      (if is_chip_mmio_capable d chip then m = chip ∧ d' = d else
         mmio_on_board d chip m ∧ closest_mmio_chip_cache d' !! chip = Some m)
      ∧ cache_ok d' ∧ cache_extended d d'
  | Err _ => is_chip_mmio_capable d chip = false ∧ ¬ ∃ m, mmio_on_board d chip m
  end.
Proof.
  intros Hok. assert (cache_extended d d) as Hsame by (split; [by destruct d|done]).
  unfold get_closest_mmio_capable_chip. destruct (is_chip_mmio_capable d chip) eqn:Hm; [done|].
  destruct (closest_mmio_chip_cache d !! chip) as [m|] eqn:Hc; [split_and!; [by apply Hok|done|done|done]|].
  unfold get_board_id_for_chip. destruct (chip_to_board_id (boards d) !! chip) as [board|] eqn:Hb; cbn [mbind result_bind].
  2:{ split; [done|]. intros (m & _ & board & ? & _). congruence. }
  unfold get_board_chips. destruct (board_to_chips (boards d) !! board) as [chips|] eqn:Hch; cbn [mbind result_bind].
  2:{ split; [done|]. intros (m & _ & board' & Hb' & Hin). simplify_eq.
      unfold set_at in Hin. rewrite Hch in Hin. simpl in Hin. set_solver. }
  destruct (List.find _ _) as [m|] eqn:Hf.
  - apply find_Some_elem in Hf as [Hin Hmm]. apply elem_of_set_iter in Hin.
    assert (mmio_on_board d chip m) as Hmb.
    { split; [done|]. exists board. split; [done|]. unfold set_at. by rewrite Hch. }
    cbn. rewrite lookup_insert_eq. split_and!; [done|done| |].
    + intros c m'. cbn. destruct (decide (chip = c)) as [<-|Hne].
      * rewrite lookup_insert_eq. by intros [= <-].
      * rewrite lookup_insert_ne by done. apply Hok.
    + split; [by destruct d|]. cbn. by apply insert_subseteq.
  - split; [done|]. intros (m & Hmm & board' & Hb' & Hin). simplify_eq.
    unfold set_at in Hin. rewrite Hch in Hin. simpl in Hin. apply elem_of_set_iter in Hin.
    destruct (find_is_Some (is_chip_mmio_capable d) _ _ Hin Hmm) as [? ?]. congruence.
Qed.

(** C38: [get_closest_mmio_capable_chip] returns the chip itself when it is MMIO
    capable, else an MMIO capable chip of its board; it throws only if the board
    has none. It changes nothing but the cache, and asking again - also after
    other questions - gives the same answer. *)
Lemma get_closest_mmio_capable_chip_correct d chip :
  cache_ok d →
  ((∃ e, get_closest_mmio_capable_chip chip d = Err e) ↔
     is_chip_mmio_capable d chip = false ∧ ¬ ∃ m, mmio_on_board d chip m) ∧
  ∀ m d', get_closest_mmio_capable_chip chip d = Ok (m, d') →
    (m = chip ∨ mmio_on_board d chip m) ∧ is_chip_mmio_capable d m = true ∧ cache_ok d' ∧ cache_extended d d' ∧
    ∀ d'', cache_extended d' d'' → get_closest_mmio_capable_chip chip d'' = Ok (m, d'').
Proof.
  intros Hok. pose proof (get_closest_spec d chip Hok) as Hs. split.
  - destruct (get_closest_mmio_capable_chip chip d) as [[m d']|e].
    + split; [by intros [? ?]|]. intros [Hm Hn]. rewrite Hm in Hs. destruct Hs as [[Hmb _] _]. destruct Hn. by exists m.
    + split; [done|]. intros _. by exists e.
  - intros m d' Heq. rewrite Heq in Hs. destruct Hs as (Hm & Hok' & Hext).
    assert (is_chip_mmio_capable d m = true ∧ (m = chip ∨ mmio_on_board d chip m)) as [Hmm Hcase].
    { destruct (is_chip_mmio_capable d chip) eqn:Hc; [by destruct Hm as [-> _]; auto|].
      destruct Hm as [Hmb _]. split; [apply Hmb|by right]. }
    split_and!; [done|done|done|done|].
    intros d'' [Hd'' Hsub]. unfold get_closest_mmio_capable_chip.
    assert (is_chip_mmio_capable d'' chip = is_chip_mmio_capable d chip) as ->.
    { destruct Hext as [Hd' _]. rewrite Hd'', Hd'. done. }
    destruct (is_chip_mmio_capable d chip); [by destruct Hm as [-> _]|].
    destruct Hm as [_ Hc]. by rewrite (lookup_weaken _ _ _ _ Hc Hsub).
Qed.

(** ** Grouping *)

(** The chip a chip is grouped under, once the cache is filled. *)
Definition owner (d : ClusterDescriptor) (chip : Z) : option Z :=
  if is_chip_mmio_capable d chip then Some chip else closest_mmio_chip_cache d !! chip.

(** What the loop has done after visiting [done]. *)
Record grouped_so_far (d0 : ClusterDescriptor) (visited : list Z) (d : ClusterDescriptor) : Prop := {
  gsf_frame : ∃ g c, d = set_grouped g (set_cache c d0);
  gsf_cache : cache_ok d;
  gsf_owned : ∀ c, c ∈ visited → is_Some (owner d c);
  gsf_groups : ∀ m c, c ∈ set_at m (chips_grouped_by_closest_mmio d) ↔ c ∈ visited ∧ owner d c = Some m
}.

(** Every remote chip has an MMIO capable chip on its board. *)
Definition all_reachable (d : ClusterDescriptor) : Prop :=
  ∀ c, c ∈ all_chips d → is_chip_mmio_capable d c = false → ∃ m, mmio_on_board d c m.

Lemma group_chip_step d0 visited chip d :
  chip_locations (placement d0) ≠ ∅ → grouped_so_far d0 visited d →
  (is_chip_mmio_capable d0 chip = false → ∃ m, mmio_on_board d0 chip m) →
  ∃ d', group_chip chip d = Ok d' ∧ grouped_so_far d0 (visited ++ [chip]) d'.
Proof.
  intros Hloc [(g & k & Hfr) Hca Hown Hgr] Hreach.
  assert (∀ c, is_chip_mmio_capable d c = is_chip_mmio_capable d0 c) as Hmm by (intros; by rewrite Hfr).
  assert (∀ c m, mmio_on_board d c m ↔ mmio_on_board d0 c m) as Hmb by (intros; by rewrite Hfr).
  unfold group_chip. destruct (is_chip_mmio_capable d chip) eqn:Hc.
  - eexists. split; [done|]. split.
    + eexists _, k. by rewrite Hfr.
    + exact Hca.
    + intros c [Hin|Hin]%elem_of_app; [by apply Hown|]. apply list_elem_of_singleton in Hin as ->.
      unfold owner. change (is_chip_mmio_capable _ chip) with (is_chip_mmio_capable d chip). rewrite Hc. by eexists.
    + intros m c. cbn [chips_grouped_by_closest_mmio set_grouped]. rewrite elem_of_map_set_insert, Hgr, elem_of_app, list_elem_of_singleton.
      change (owner (set_grouped _ d) c) with (owner d c).
      assert (owner d chip = Some chip) by (unfold owner; by rewrite Hc). naive_solver.
  - rewrite bool_decide_eq_false_2 by (by rewrite Hfr).
    pose proof (get_closest_spec d chip Hca) as Hs. rewrite Hc in Hs.
    destruct (get_closest_mmio_capable_chip chip d) as [[m d']|e].
    2:{ destruct Hs as [_ Hn]. destruct Hn. destruct Hreach as [m Hm]; [by rewrite <- Hmm|]. exists m. by apply Hmb. }
    destruct Hs as ([_ Hcm] & Hca' & Hd' & Hsub). cbn [mbind result_bind]. eexists. split; [done|].
    assert (∀ c o, owner d c = Some o → owner d' c = Some o) as Hkeep.
    { intros c o. unfold owner. rewrite Hd'. change (is_chip_mmio_capable (set_cache _ d) c) with (is_chip_mmio_capable d c).
      destruct (is_chip_mmio_capable d c); [done|]. intros Ho. by eapply lookup_weaken. }
    assert (owner d' chip = Some m) as Hom.
    { unfold owner. rewrite Hd'. change (is_chip_mmio_capable (set_cache _ d) chip) with (is_chip_mmio_capable d chip). by rewrite Hc, <- Hd'. }
    split.
    + eexists _, (closest_mmio_chip_cache d').
      transitivity (set_grouped (map_set_insert m chip (chips_grouped_by_closest_mmio d'))
        (set_cache (closest_mmio_chip_cache d') d)); [by rewrite <- Hd'|by rewrite Hfr].
    + exact Hca'.
    + intros c [Hin|Hin]%elem_of_app.
      * destruct (Hown c Hin) as [o Ho]. exists o. by apply Hkeep.
      * apply list_elem_of_singleton in Hin as ->. by exists m.
    + intros m' c. cbn [chips_grouped_by_closest_mmio set_grouped]. rewrite elem_of_map_set_insert, elem_of_app, list_elem_of_singleton.
      change (owner (set_grouped _ d') c) with (owner d' c).
      assert (chips_grouped_by_closest_mmio d' = chips_grouped_by_closest_mmio d) as -> by (by rewrite Hd').
      rewrite Hgr. split.
      * intros [[-> ->]|[Hin Ho]]; [by auto|]. split; [by left|]. by apply Hkeep.
      * intros [[Hin| ->] Ho]; [|left; split; [congruence|done]].
        right. split; [done|]. destruct (Hown c Hin) as [o Ho']. rewrite Ho'. by rewrite (Hkeep c o Ho') in Ho.
Qed.

Lemma cache_ok_empty d : closest_mmio_chip_cache d = ∅ → cache_ok d.
Proof. intros Hc c m. by rewrite Hc, lookup_empty. Qed.

(** With locations known and an MMIO capable chip on the board of every
    remote chip, [fill_chips_grouped_by_closest_mmio] does not throw and
    partitions the chips: every chip is in exactly one group, the group's key is
    the chip itself if it is MMIO capable and else an MMIO capable chip of its
    board, and the later answers of [get_closest_mmio_capable_chip] agree with
    the groups. Nothing but the groups and the cache changes. *)
Lemma fill_chips_grouped_correct d :
  chip_locations (placement d) ≠ ∅ → all_reachable d → cache_ok d → chips_grouped_by_closest_mmio d = ∅ →
  ∃ d', fill_chips_grouped_by_closest_mmio d = Ok d' ∧
    (∃ g k, d' = set_grouped g (set_cache k d)) ∧
    (∀ c, c ∈ all_chips d → ∃ m, c ∈ set_at m (chips_grouped_by_closest_mmio d') ∧
       (∀ m', c ∈ set_at m' (chips_grouped_by_closest_mmio d') → m' = m) ∧
       (if is_chip_mmio_capable d c then m = c else mmio_on_board d c m) ∧
       get_closest_mmio_capable_chip c d' = Ok (m, d')) ∧
    (∀ m c, c ∈ set_at m (chips_grouped_by_closest_mmio d') → c ∈ all_chips d).
Proof.
  intros Hloc Hreach Hca Hemp. unfold fill_chips_grouped_by_closest_mmio.
  destruct (for_each_inv (grouped_so_far d) (set_iter (all_chips d)) group_chip d) as (d' & -> & [(g & k & Hfr) Hca' Hown Hgr]).
  - split; [|done| |].
    + exists (chips_grouped_by_closest_mmio d), (closest_mmio_chip_cache d). by destruct d.
    + intros c []%not_elem_of_nil.
    + intros m c. rewrite Hemp. unfold set_at. rewrite lookup_empty. simpl. set_solver.
  - intros visited c rest s Hl Hs. apply group_chip_step; [done|done|]. intros Hm. apply Hreach; [|done].
    apply elem_of_set_iter. rewrite Hl. set_solver.
  - assert (∀ c, is_chip_mmio_capable d' c = is_chip_mmio_capable d c) as Hmm by (intros; by rewrite Hfr).
    exists d'. split; [done|]. split; [by exists g, k|]. split.
    + intros c Hc. apply elem_of_set_iter in Hc. destruct (Hown c Hc) as [m Hm].
      exists m. split; [by apply Hgr|]. split; [intros m' Hin%Hgr; naive_solver|].
      unfold owner in Hm. rewrite Hmm in Hm. unfold get_closest_mmio_capable_chip. rewrite Hmm.
      destruct (is_chip_mmio_capable d c); [naive_solver|]. rewrite Hm. split; [|done].
      specialize (Hca' c m Hm). by rewrite Hfr in Hca'.
    + intros m c [Hin _]%Hgr. by apply elem_of_set_iter.
Qed.
End closest.

(** A board with one MMIO capable chip (0) and a remote one (1). *)
Definition two_chip_board : ClusterDescriptor :=
  MkDesc {[0; 1]} {[0 := 0]} empty_tables
    (MkPlacement {[0 := MkEthCoord 0 0 0 0 0; 1 := MkEthCoord 0 1 0 0 0]} ∅)
    (MkBoards {[0 := 9; 1 := 9]} {[9 := {[0; 1]}]} ∅) empty_links ∅ ∅ PCIe None None.

Lemma get_closest_mmio_capable_chip_correct_witness :
  @get_closest_mmio_capable_chip sorted_order 1
    (set_cache {[1 := 0]} two_chip_board) = Ok (0, set_cache {[1 := 0]} two_chip_board).
Proof.
  refine (proj2 (proj2 (proj2 (proj2 (proj2 (@get_closest_mmio_capable_chip_correct sorted_order sorted_order_laws
    two_chip_board 1 _) 0 (set_cache {[1 := 0]} two_chip_board) _)))) _ _).
  - by apply cache_ok_empty.
  - by vm_compute.
  - by split.
Defined.

Lemma fill_chips_grouped_correct_witness :
  ∃ d', @fill_chips_grouped_by_closest_mmio sorted_order two_chip_board = Ok d' ∧
    (∃ g k, d' = set_grouped g (set_cache k two_chip_board)) ∧
    (∀ c, c ∈ all_chips two_chip_board → ∃ m, c ∈ set_at m (chips_grouped_by_closest_mmio d') ∧
       (∀ m', c ∈ set_at m' (chips_grouped_by_closest_mmio d') → m' = m) ∧
       (if is_chip_mmio_capable two_chip_board c then m = c else mmio_on_board two_chip_board c m) ∧
       @get_closest_mmio_capable_chip sorted_order c d' = Ok (m, d')) ∧
    (∀ m c, c ∈ set_at m (chips_grouped_by_closest_mmio d') → c ∈ all_chips two_chip_board).
Proof.
  refine (@fill_chips_grouped_correct sorted_order sorted_order_laws two_chip_board _ _ _ _).
  - by apply (bool_decide_unpack _); vm_compute.
  - intros c Hc Hm. exists 0. split; [by vm_compute|]. exists 9.
    assert (c = 0 ∨ c = 1) as [-> | ->] by (change (c ∈ ({[0; 1]} : gset Z)) in Hc; set_solver);
    (split; [by vm_compute|apply (bool_decide_unpack _); by vm_compute]).
  - by apply cache_ok_empty.
  - done.
Defined.
