(* ===== verification/TextUtils.v ===== *)
(** * TextUtils

    The string helpers of [common/utils.hpp] (split_string_by_comma,
    is_integer_string, is_bdf_string) and the number readers of the standard
    library used beside them ([std::stoi], [std::stoul] in base 16). *)

From Stdlib Require Import ZArith Lia Ascii.
From stdpp Require Import base list strings numbers.
From S2P Require Import Prelude CoreTypes SemVer.

Local Open Scope Z_scope.

(** ** split_string_by_comma *)

Definition comma : ascii := ",".
(** The characters of [find_last_not_of(" \n\r\t")]. *)
Definition is_blank (c : ascii) : bool :=
  (N_of_ascii c =? 32)%N || (N_of_ascii c =? 10)%N || (N_of_ascii c =? 13)%N || (N_of_ascii c =? 9)%N.

(** [token.erase(token.find_last_not_of(...) + 1)]. *)
Fixpoint erase_trailing (s : string) : string :=
  match s with
  | EmptyString => EmptyString
  | String c s =>
      match erase_trailing s with
      | EmptyString => if is_blank c then EmptyString else String c EmptyString
      | s' => String c s'
      end
  end.
(** [token.erase(0, token.find_first_not_of(...))]. *)
Fixpoint erase_leading (s : string) : string :=
  match s with
  | EmptyString => EmptyString
  | String c s' => if is_blank c then erase_leading s' else s
  end.
Definition trim (s : string) : string := erase_leading (erase_trailing s).

(** What [std::getline(ss, token, ',')] takes off the stream. *)
Fixpoint split_comma (s : string) : string * string :=
  match s with
  | EmptyString => (EmptyString, EmptyString)
  | String c s =>
      if Ascii.eqb c comma then (EmptyString, s)
      else let '(token, rest) := split_comma s in (String c token, rest)
  end.

(** The loop takes at least one character a time. *)
Fixpoint split_loop (fuel : nat) (rest : string) : list string :=
  match fuel, rest with
  | _, EmptyString | O, _ => []
  | S fuel, _ =>
      let '(token, rest) := split_comma rest in
      match trim token with
      | EmptyString => split_loop fuel rest
      | token => token :: split_loop fuel rest
      end
  end.
Definition split_string_by_comma (input_string : string) : list string :=
  split_loop (String.length input_string) input_string.

(** ** Tests *)

Definition is_integer_string (s : string) : bool :=
  match s with EmptyString => false | _ => all_chars is_digit s end.

Fixpoint contains_char (c : ascii) (s : string) : bool :=
  match s with EmptyString => false | String c' s => Ascii.eqb c' c || contains_char c s end.
Definition is_hex_digit (c : ascii) : bool :=
  is_digit c || ((97 <=? N_of_ascii c) && (N_of_ascii c <=? 102))%N || ((65 <=? N_of_ascii c) && (N_of_ascii c <=? 70))%N.
Definition is_bdf_char (c : ascii) : bool := is_hex_digit c || Ascii.eqb c "." || Ascii.eqb c ":".
Definition is_bdf_string (s : string) : bool :=
  (contains_char ":" s || contains_char "." s) && all_chars is_bdf_char s.

(** ** Reading numbers *)

Definition signed_text (s : string) : bool * string :=
  match skip_spaces s with
  | String "-" s => (true, s)
  | String "+" s => (false, s)
  | s => (false, s)
  end.

(** [std::stoi(token)]: [strtol] in base 10, then the range of [int]. *)
Definition stoi (token : string) : result Z :=
  let '(negative, digits) := signed_text token in
  match read_digits None digits with
  | None => Err InvalidArgument
  | Some n =>
      let z := if negative : bool then - n else n in
      if (- 2 ^ 31 <=? z) && (z <? 2 ^ 31) then Ok z else Err OutOfRange
  end.

Definition hex_value (c : ascii) : Z :=
  if is_digit c then digit_value c
  else if (97 <=? N_of_ascii c)%N then Z.of_N (N_of_ascii c) - 87 else Z.of_N (N_of_ascii c) - 55.
Fixpoint read_hex (acc : option Z) (s : string) : option Z :=
  match s with
  | String c s => if is_hex_digit c then read_hex (Some (default 0 acc * 16 + hex_value c)) s else acc
  | EmptyString => acc
  end.
(** An optional 0x is skipped when a digit follows. *)
Definition skip_0x (s : string) : string :=
  match s with
  | String "0" (String "x" (String c s')) | String "0" (String "X" (String c s')) =>
      if is_hex_digit c then String c s' else s
  | _ => s
  end.
(** [std::stoul(token, nullptr, 16)]. *)
Definition stoul_16 (token : string) : result Z :=
  let '(negative, digits) := signed_text token in
  match read_hex None (skip_0x digits) with
  | None => Err InvalidArgument
  | Some n => if 2 ^ 64 - 1 <? n then Err OutOfRange else Ok (if negative : bool then u64 (- n) else n)
  end.

(** ** What splitting gives *)

(** A field without commas, and the text of several fields. *)
Definition field_ok (s : string) : Prop := all_chars (λ c, negb (Ascii.eqb c comma)) s = true.
Fixpoint join_commas (fields : list string) : string :=
  match fields with
  | [] => EmptyString
  | [s] => s
  | s :: fields => s +:+ String comma (join_commas fields)
  end.
Definition nonempty (s : string) : bool := match s with EmptyString => false | _ => true end.

(** A token: not empty, without blanks at its ends. *)
Definition token_ok (s : string) : Prop := s ≠ EmptyString ∧ erase_leading s = s ∧ erase_trailing s = s.

Lemma erase_trailing_idem s : erase_trailing (erase_trailing s) = erase_trailing s.
Proof.
  induction s as [|c s IH]; [done|]. simpl. destruct (erase_trailing s) as [|c' s'] eqn:E.
  - destruct (is_blank c) eqn:Hb; simpl; by rewrite ?Hb.
  - simpl in *. by rewrite IH.
Qed.

Lemma erase_leading_suffix s : erase_trailing s = s → erase_trailing (erase_leading s) = erase_leading s.
Proof.
  induction s as [|c s IH]; [done|]. intros Hs. simpl. destruct (is_blank c) eqn:Hb; [|done].
  apply IH. simpl in Hs. destruct (erase_trailing s) as [|c' s'] eqn:E; [|congruence].
  by rewrite Hb in Hs.
Qed.
Lemma erase_leading_idem s : erase_leading (erase_leading s) = erase_leading s.
Proof. induction s as [|c s IH]; [done|]. simpl. destruct (is_blank c) eqn:Hb; [done|]. simpl. by rewrite Hb. Qed.

Lemma trim_token s : trim s ≠ EmptyString → token_ok (trim s).
Proof.
  intros Hne. split; [done|]. unfold trim. split; [apply erase_leading_idem|].
  apply erase_leading_suffix, erase_trailing_idem.
Qed.

Lemma erase_trailing_blank s : all_chars is_blank s = true → erase_trailing s = EmptyString.
Proof. induction s as [|c s IH]; [done|]. simpl. rewrite andb_true_iff. intros [Hb Hs]. by rewrite IH, Hb. Qed.
Lemma erase_trailing_app s r : all_chars is_blank r = true → erase_trailing (s +:+ r) = erase_trailing s.
Proof.
  intros Hr. induction s as [|c s IH]; [by apply erase_trailing_blank|].
  change (String c s +:+ r) with (String c (s +:+ r)). simpl. by rewrite IH.
Qed.
Lemma erase_leading_app l s : all_chars is_blank l = true → erase_leading (l +:+ s) = erase_leading s.
Proof.
  intros Hl. induction l as [|c l IH]; [done|]. simpl in Hl. apply andb_prop in Hl as [Hb Hl].
  change (String c l +:+ s) with (String c (l +:+ s)). simpl. rewrite Hb. by apply IH.
Qed.
Lemma erase_trailing_prefix l s :
  s ≠ EmptyString → erase_trailing s = s → erase_trailing (l +:+ s) = l +:+ s.
Proof.
  intros Hne Hs. induction l as [|c l IH]; [done|]. change (String c l +:+ s) with (String c (l +:+ s)).
  simpl. rewrite IH. destruct (l +:+ s) eqn:E; [|done]. by destruct l, s.
Qed.

Lemma trim_padded l t r :
  all_chars is_blank l = true → all_chars is_blank r = true → token_ok t → trim (l +:+ t +:+ r) = t.
Proof.
  intros Hl Hr (Hne & Hlead & Htrail). unfold trim.
  rewrite string_app_assoc, erase_trailing_app by done. rewrite erase_trailing_prefix by done.
  by rewrite erase_leading_app.
Qed.

Lemma split_comma_field s rest : field_ok s → split_comma (s +:+ String comma rest) = (s, rest).
Proof.
  induction s as [|c s IH]; intros Hs; [done|]. unfold field_ok in Hs; simpl in Hs. apply andb_prop in Hs as [Hc Hs].
  change (String c s +:+ String comma rest) with (String c (s +:+ String comma rest)). simpl.
  rewrite (negb_true_iff _) in Hc. by rewrite Hc, IH.
Qed.
Lemma split_comma_last s : field_ok s → split_comma s = (s, EmptyString).
Proof.
  induction s as [|c s IH]; intros Hs; [done|]. unfold field_ok in Hs; simpl in Hs. apply andb_prop in Hs as [Hc Hs].
  simpl. rewrite (negb_true_iff _) in Hc. by rewrite Hc, IH.
Qed.

Lemma split_loop_step fuel s :
  s ≠ EmptyString →
  split_loop (S fuel) s =
    (let '(token, rest) := split_comma s in
     match trim token with
     | EmptyString => split_loop fuel rest
     | token => token :: split_loop fuel rest
     end).
Proof. by destruct s. Qed.

Lemma split_loop_join fields fuel :
  Forall field_ok fields → (String.length (join_commas fields) ≤ fuel)%nat →
  split_loop fuel (join_commas fields) = List.filter nonempty (map trim fields).
Proof.
  intros HF. revert fuel. induction HF as [|s fields Hs HF IH]; intros fuel Hfuel; [by destruct fuel|].
  destruct fields as [|s' fields].
  - cbn [join_commas map] in *. destruct fuel as [|fuel]; [destruct s; [done|simpl in Hfuel; lia]|].
    destruct (decide (s = EmptyString)) as [->|Hne]; [done|].
    rewrite split_loop_step, split_comma_last by done. cbn [List.filter].
    destruct (trim s); [by destruct fuel|]. cbn. f_equal. by destruct fuel.
  - set (rest := join_commas (s' :: fields)) in *.
    change (join_commas (s :: s' :: fields)) with (s +:+ String comma rest) in *.
    rewrite string_length_app in Hfuel. simpl in Hfuel. destruct fuel as [|fuel]; [lia|].
    rewrite split_loop_step, split_comma_field by (done || by destruct s).
    cbn [map List.filter]. rewrite IH by lia. destruct (trim s); done.
Qed.

(** Splitting a comma-separated text gives its fields, trimmed, without the
    empty ones: padding a token with blanks changes nothing, and every token of
    the result is non-empty and has no blanks at its ends. *)
Lemma split_string_by_comma_fields fields :
  Forall field_ok fields →
  split_string_by_comma (join_commas fields) = List.filter nonempty (map trim fields) ∧
  Forall token_ok (split_string_by_comma (join_commas fields)) ∧
  ∀ l t r, all_chars is_blank l = true → all_chars is_blank r = true → token_ok t → trim (l +:+ t +:+ r) = t.
Proof.
  intros HF. assert (split_string_by_comma (join_commas fields) = List.filter nonempty (map trim fields)) as Heq.
  { by apply split_loop_join. }
  rewrite Heq. split; [done|]. split; [|apply trim_padded].
  apply list.Forall_forall. intros s Hin%list_elem_of_In%List.filter_In. destruct Hin as [Hin Hne].
  apply List.in_map_iff in Hin as (f & <- & _). apply trim_token. by destruct (trim f).
Qed.
Lemma split_string_by_comma_fields_witness :
  split_string_by_comma " 0000:02:00.0 , 3,, 1" = ["0000:02:00.0"; "3"; "1"].
Proof. refine (proj1 (split_string_by_comma_fields [" 0000:02:00.0 "; " 3"; EmptyString; " 1"] _)). by repeat constructor. Defined.

(** No token is both an index and a BDF. *)
Lemma integer_not_bdf s : is_integer_string s = true → is_bdf_string s = false.
Proof.
  intros Hi. assert (all_chars is_digit s = true) as Hd by (by destruct s). clear Hi. unfold is_bdf_string.
  assert (∀ c, is_digit c = true → Ascii.eqb c ":" = false ∧ Ascii.eqb c "." = false) as Hc.
  { intros c Hc. destruct (Ascii.eqb_spec c ":") as [->|]; [done|]. by destruct (Ascii.eqb_spec c ".") as [->|]. }
  assert (contains_char ":" s = false ∧ contains_char "." s = false) as [-> ->]; [|done].
  induction s as [|c s IH]; [done|]. simpl in *. apply andb_prop in Hd as [Hd Hs].
  destruct (Hc c Hd) as [-> ->]. by apply IH.
Qed.

(** ** Documents

    The part of yaml-cpp the cluster and SoC descriptors use, as an interface: a node
    type with indexing, kind tests, iteration and conversions, which fail with
    an error of the library's. Nothing is assumed of the conversions but that
    [as<int>] and its like return values of their type.

    [document] is a small tree that meets the interface, for examples. *)

Local Open Scope Z_scope.

Class YAML := {
  Node : Type;
  y_get : Node → string → Node;
  IsDefined : Node → bool;
  IsSequence : Node → bool;
  IsMap : Node → bool;
  (** Range-for over a sequence, iteration of a map. *)
  y_items : Node → list Node;
  y_pairs : Node → list (Node * Node);
  as_int : Node → result Z;
  as_u32 : Node → result Z;
  as_u64 : Node → result Z;
  as_bool : Node → result bool;
  as_string : Node → result string;
  (** [as<std::vector<YAML::Node>>], [as<std::vector<int>>]. *)
  as_nodes : Node → result (list Node);
  as_ints : Node → result (list Z);
  (** [as<std::vector<std::string>>], [as<std::vector<uint32_t>>]. *)
  as_strings : Node → result (list string);
  as_u32s : Node → result (list Z);
  (** [as<std::map<int, A>>], in key order. *)
  as_map : ∀ {A}, (Node → result A) → Node → result (list (Z * A))
}.

Definition is_int (z : Z) : Prop := - 2 ^ 31 ≤ z < 2 ^ 31.

Class YAMLLaws `{YAML} : Prop := {
  as_int_range : ∀ n z, as_int n = Ok z → is_int z;
  as_u64_range : ∀ n z, as_u64 n = Ok z → 0 ≤ z < 2 ^ 64
}.

(** ** A document tree *)

Inductive document :=
  | DUndefined
  | DInt (z : Z)
  | DBool (b : bool)
  | DText (s : string)
  | DSequence (items : list document)
  | DMap (pairs : list (document * document)).

Definition bad_conversion {A} : result A := throw "bad conversion".

Definition doc_get (n : document) (key : string) : document :=
  match n with
  | DMap pairs =>
      match List.find (λ '(k, _), match k with DText s => bool_decide (s = key) | _ => false end) pairs with
      | Some (_, v) => v
      | None => DUndefined
      end
  | _ => DUndefined
  end.

Definition doc_int (lo hi : Z) (n : document) : result Z :=
  match n with
  | DInt z => if (lo <=? z) && (z <? hi) then Ok z else bad_conversion
  | _ => bad_conversion
  end.

Definition doc_seq {A} (f : document → result A) (n : document) : result (list A) :=
  match n with
  | DSequence items => foldr (λ x acc, a ← f x; acc ← acc; Ok (a :: acc)) (Ok []) items
  | _ => bad_conversion
  end.

#[global] Instance doc_yaml : YAML := {
  Node := document;
  y_get := doc_get;
  IsDefined n := match n with DUndefined => false | _ => true end;
  IsSequence n := match n with DSequence _ => true | _ => false end;
  IsMap n := match n with DMap _ => true | _ => false end;
  y_items n := match n with DSequence l => l | _ => [] end;
  y_pairs n := match n with DMap l => l | _ => [] end;
  as_int := doc_int (- 2 ^ 31) (2 ^ 31);
  as_u32 := doc_int 0 (2 ^ 32);
  as_u64 := doc_int 0 (2 ^ 64);
  as_bool n := match n with DBool b => Ok b | _ => bad_conversion end;
  as_string n := match n with DText s => Ok s | _ => bad_conversion end;
  as_nodes := doc_seq Ok;
  as_ints := doc_seq (doc_int (- 2 ^ 31) (2 ^ 31));
  as_strings := doc_seq (λ n, match n with DText s => Ok s | _ => bad_conversion end);
  as_u32s := doc_seq (doc_int 0 (2 ^ 32));
  as_map A f n :=
    match n with
    | DMap pairs =>
        foldr (λ '(k, v) acc, k ← doc_int (- 2 ^ 31) (2 ^ 31) k; v ← f v; acc ← acc; Ok ((k, v) :: acc)) (Ok []) pairs
    | _ => bad_conversion
    end
}.

#[global] Instance doc_yaml_laws : YAMLLaws.
Proof.
  split; intros n z; cbn -[Z.pow]; destruct n; cbn -[Z.pow]; try done;
    destruct (_ && _) eqn:E; try done; intros [= <-]; unfold is_int; lia.
Qed.
