(* ===== verification/EthConnections.v ===== *)
(** * EthConnections

    [load_ethernet_connections_from_connectivity_descriptor] and
    [merge_cluster_ids] of [cluster_descriptor.cpp]: the Ethernet links of a
    cluster from its connectivity descriptor, the active and idle channels of
    every chip, and the cluster a chip belongs to. *)

From Stdlib Require Import ZArith Lia Relations.
From stdpp Require Import base list numbers strings gmap sets.
From S2P Require Import Prelude CoreTypes ArchData Harvesting DisjointSet BoardTypes ClusterState ClusterBoards TextUtils.

Local Open Scope Z_scope.

(** ** Links *)

Definition set_connections (m : gmap Z ChannelLinks) (l : EthLinks) : EthLinks :=
  MkLinks m (ethernet_connections_to_remote_devices l) (active_eth_channels l) (idle_eth_channels l).
Definition set_idle (m : gmap Z (gset Z)) (l : EthLinks) : EthLinks :=
  MkLinks (ethernet_connections l) (ethernet_connections_to_remote_devices l) (active_eth_channels l) m.

(** The channel sets hold [uint32_t]. *)
Definition mark_active (chip channel : Z) (l : EthLinks) : EthLinks :=
  MkLinks (ethernet_connections l) (ethernet_connections_to_remote_devices l)
    (map_set_insert chip (u32 channel) (active_eth_channels l))
    (map_set_erase chip (u32 channel) (idle_eth_channels l)).

(** [create(arch)->get_num_eth_channels()]; [create] of an invalid architecture
    is a null pointer. *)
Definition num_eth_channels (arch : ARCH) : result Z :=
  match arch with
  | WORMHOLE_B0 => Ok wormhole.NUM_ETH_CHANNELS
  | BLACKHOLE => Ok blackhole.NUM_ETH_CHANNELS
  | QUASAR => Ok grendel.NUM_ETH_CHANNELS
  | Invalid => Err UndefinedBehaviour
  end.

(** The number of channels a chip starts with. *)
Definition channel_count (d : ClusterDescriptor) (chip : Z) : result Z :=
  num_harvested_channels ←
    (if bool_decide (harvesting_masks_map (tables d) = ∅) then Ok 0
     else masks ← map_at chip (harvesting_masks_map (tables d));
          Ok (i32 (get_num_harvested (eth_harvesting_mask masks))));
  arch ← map_at chip (chip_arch (tables d));
  n ← num_eth_channels arch;
  Ok (i32 (u32 (n - num_harvested_channels))).

Definition preload_idle (d : ClusterDescriptor) (chip : Z) (l : EthLinks) : result EthLinks :=
  num_channels ← channel_count d chip;
  Ok (foldl (λ l i, set_idle (map_set_insert chip i (idle_eth_channels l)) l) l (seqZ 0 num_channels)).

(** One end of a link: at [local], the connection to [remote]. *)
Definition add_end (local remote : Z * Z) (m : gmap Z ChannelLinks) : result (gmap Z ChannelLinks) :=
  channels ← map_at local.1 m;
  match (channels : ChannelLinks) !! local.2 with
  | Some other =>
      if (other.1 =? remote.1) && (other.2 =? remote.2) then Ok m
      else throw "Duplicate eth connection found in cluster desc yaml"
  | None => Ok (<[local.1 := <[local.2 := remote]> channels]> m)
  end.

Definition connect (end_0 end_1 : Z * Z) (l : EthLinks) : result EthLinks :=
  m ← add_end end_0 end_1 (ethernet_connections l);
  m ← add_end end_1 end_0 m;
  Ok (mark_active end_1.1 end_1.2 (mark_active end_0.1 end_0.2 (set_connections m l))).

Definition connect_remote (local : Z * Z) (remote : Z * Z) (l : EthLinks) : EthLinks :=
  let m := ethernet_connections_to_remote_devices l in
  let channels := default ∅ (m !! local.1) in
  mark_active local.1 local.2
    (MkLinks (ethernet_connections l) (<[local.1 := <[local.2 := remote]> channels]> m)
       (active_eth_channels l) (idle_eth_channels l)).

Section load.
Context `{Unordered} `{YAML}.

Definition parse_link (connected_endpoints : Node) : result ((Z * Z) * (Z * Z)) :=
  _ ← umd_assert (IsSequence connected_endpoints) "Invalid YAML";
  endpoints ← as_nodes connected_endpoints;
  _ ← umd_assert (vec_size endpoints <=? 3) "Ethernet connections in YAML should always contain two endpoints";
  end_0 ← vec_at endpoints 0;
  chip_0 ← as_int (y_get end_0 "chip");
  channel_0 ← as_int (y_get end_0 "chan");
  end_1 ← vec_at endpoints 1;
  chip_1 ← as_int (y_get end_1 "chip");
  channel_1 ← as_int (y_get end_1 "chan");
  Ok ((chip_0, channel_0), (chip_1, channel_1)).

Definition parse_remote_link (connected_endpoints : Node) : result ((Z * Z) * (Z * Z)) :=
  _ ← umd_assert (IsSequence connected_endpoints) "Invalid YAML";
  endpoints ← as_nodes connected_endpoints;
  _ ← umd_assert (vec_size endpoints =? 2) "Remote ethernet connections in YAML should always contain two endpoints";
  end_0 ← vec_at endpoints 0;
  chip_0 ← as_int (y_get end_0 "chip");
  channel_0 ← as_int (y_get end_0 "chan");
  end_1 ← vec_at endpoints 1;
  chip_1 ← as_u64 (y_get end_1 "remote_chip_id");
  channel_1 ← as_int (y_get end_1 "chan");
  Ok ((chip_0, channel_0), (chip_1, channel_1)).

Definition load_remote_links (yaml : Node) (l : EthLinks) : result EthLinks :=
  let remote := y_get yaml "ethernet_connections_to_remote_devices" in
  if IsDefined remote then
    nodes ← as_nodes remote;
    for_each nodes (λ n l, '(local, far) ← parse_remote_link n; Ok (connect_remote local far l)) l
  else Ok l.

Definition load_ethernet_connections_from_connectivity_descriptor (yaml : Node) (d : ClusterDescriptor)
  : result ClusterDescriptor :=
  _ ← umd_assert (IsSequence (y_get yaml "ethernet_connections")) "Invalid YAML";
  l ← for_each (set_iter (all_chips d)) (preload_idle d) (links d);
  nodes ← as_nodes (y_get yaml "ethernet_connections");
  l ← for_each nodes (λ n l, '(end_0, end_1) ← parse_link n; connect end_0 end_1 l) l;
  l ← load_remote_links yaml l;
  Ok (set_links l d).

(** ** merge_cluster_ids

    [None]: the search for a chip's set does not end. *)

(** The pairs of chips merged, in the order of the two loops. *)
Definition connected_chips (m : gmap Z ChannelLinks) : list (Z * Z) :=
  '(chip, channels) ← map_iter m;
  map (λ '(_, (dest, _)), (chip, dest)) (map_iter (channels : ChannelLinks)).

Definition set_cluster_id (c : Z) (e : EthCoord) : EthCoord :=
  MkEthCoord c (ec_x e) (ec_y e) (ec_rack e) (ec_shelf e).

Definition merge_cluster_ids (d : ClusterDescriptor) : option ClusterDescriptor :=
  chip_sets ← build (map_iter (chip_locations (placement d))).*1 (connected_chips (ethernet_connections (links d)));
  '(_, locations) ←
    foldl (λ acc chip,
      '(chip_sets, locations) ← acc;
      '(set, chip_sets) ← get_set chip chip_sets;
      Some (chip_sets, <[chip := set_cluster_id set (default (MkEthCoord 0 0 0 0 0) (locations !! chip))]> locations))
      (Some (chip_sets, chip_locations (placement d))) (map_iter (chip_locations (placement d))).*1;
  Some (set_placement (MkPlacement locations (coords_to_chip_ids (placement d))) d).

End load.

(** ** Ends of links *)

(** [b] is the other end of a listed link at [a]. *)
Definition ends (L : list ((Z * Z) * (Z * Z))) (a b : Z * Z) : Prop := (a, b) ∈ L ∨ (b, a) ∈ L.

(** No channel is in two different links. *)
Definition consistent (L : list ((Z * Z) * (Z * Z))) : Prop := ∀ a b b', ends L a b → ends L a b' → b = b'.
Definition known (chips : gset Z) (L : list ((Z * Z) * (Z * Z))) : Prop := ∀ a b, ends L a b → a.1 ∈ chips.

Definition connection (m : gmap Z ChannelLinks) (a : Z * Z) : option (Z * Z) :=
  channels ← m !! a.1; (channels : ChannelLinks) !! a.2.

Lemma ends_sym L a b : ends L a b → ends L b a.
Proof. unfold ends. tauto. Qed.
Lemma ends_snoc L e0 e1 a b : ends (L ++ [(e0, e1)]) a b ↔ ends L a b ∨ (a = e0 ∧ b = e1) ∨ (a = e1 ∧ b = e0).
Proof. unfold ends. rewrite !elem_of_app, !list_elem_of_singleton. naive_solver. Qed.
Lemma consistent_prefix L L' : consistent (L ++ L') → consistent L.
Proof. unfold consistent, ends. intros H a b b' Hb Hb'. apply (H a); set_solver. Qed.
Lemma known_prefix chips L L' : known chips (L ++ L') → known chips L.
Proof. unfold known, ends. intros H a b Hb. apply (H a b). set_solver. Qed.

Lemma connection_insert m a b c (channels : ChannelLinks) :
  m !! a.1 = Some channels →
  connection (<[a.1 := <[a.2 := b]> channels]> m) c = if decide (c = a) then Some b else connection m c.
Proof.
  intros Hm. unfold connection. destruct a as [chip ch], c as [chip' ch']; cbn in *.
  destruct (decide (chip = chip')) as [<-|Hne].
  - rewrite lookup_insert_eq, Hm. cbn. destruct (decide (ch = ch')) as [<-|Hne].
    + rewrite lookup_insert_eq. by rewrite decide_True.
    + rewrite lookup_insert_ne by done. rewrite decide_False; [done|congruence].
  - rewrite lookup_insert_ne by done. rewrite decide_False; [done|congruence].
Qed.

(** What [add_end] does. *)
Lemma add_end_spec a b m :
  match add_end a b m with
  | Ok m' => is_Some (m !! a.1) ∧ (connection m a = Some b ∨ connection m a = None)
             ∧ (∀ c, connection m' c = if decide (c = a) then Some b else connection m c) ∧ dom m' = dom m
  | Err _ => m !! a.1 = None ∨ ∃ other, connection m a = Some other ∧ other ≠ b
  end.
Proof.
  unfold add_end, map_at. destruct (m !! a.1) as [channels|] eqn:Hm; cbn [mbind result_bind]; [|by left].
  assert (connection m a = channels !! a.2) as Hc by (unfold connection; by rewrite Hm).
  destruct (channels !! a.2) as [other|] eqn:Ho.
  - destruct (_ && _) eqn:E.
    + apply andb_prop in E as [E1%Z.eqb_eq E2%Z.eqb_eq].
      assert (other = b) as -> by (destruct other, b; by f_equal).
      split_and!; [done|by left| |done]. intros c. by case_decide as Hd; [subst|].
    + right. exists other. split; [done|]. intros ->. by rewrite !Z.eqb_refl in E.
  - split_and!; [done|by right|intros c; by apply connection_insert|].
    rewrite dom_insert_L. apply elem_of_dom_2 in Hm. set_solver.
Qed.

(** The links [l] of chips with [n] channels each, for the links listed and the
    links to devices outside the cluster. *)
Record links_of (chips : gset Z) (n : Z → Z) (done far : list ((Z * Z) * (Z * Z))) (l : EthLinks) : Prop := {
  lsf_connection : ∀ a b, connection (ethernet_connections l) a = Some b ↔ ends done a b;
  lsf_dom : dom (ethernet_connections l) = chips;
  lsf_remote : ∀ a b, connection (ethernet_connections_to_remote_devices l) a = Some b → (a, b) ∈ far;
  lsf_remote_some : ∀ a b, (a, b) ∈ far → is_Some (connection (ethernet_connections_to_remote_devices l) a);
  lsf_active : ∀ chip c, c ∈ set_at chip (active_eth_channels l) ↔
                 ∃ h b, (ends done (chip, h) b ∨ ((chip, h), b) ∈ far) ∧ c = u32 h;
  lsf_idle : ∀ chip c, c ∈ set_at chip (idle_eth_channels l) ↔
               (chip ∈ chips ∧ 0 ≤ c < n chip) ∧ c ∉ set_at chip (active_eth_channels l)
}.

Lemma lsf_consistent chips n done far l : links_of chips n done far l → consistent done ∧ known chips done.
Proof.
  intros H. split.
  - intros a b b' Hb%(lsf_connection _ _ _ _ _ H) Hb'%(lsf_connection _ _ _ _ _ H). congruence.
  - intros a b Hb%(lsf_connection _ _ _ _ _ H). rewrite <- (lsf_dom _ _ _ _ _ H). apply elem_of_dom.
    unfold connection in Hb. destruct (_ !! a.1); [by eexists|done].
Qed.

Lemma elem_of_mark_active chip channel l k x :
  x ∈ set_at k (active_eth_channels (mark_active chip channel l)) ↔
    (k = chip ∧ x = u32 channel) ∨ x ∈ set_at k (active_eth_channels l).
Proof. apply elem_of_map_set_insert. Qed.
Lemma elem_of_mark_idle chip channel l k x :
  x ∈ set_at k (idle_eth_channels (mark_active chip channel l)) ↔
    x ∈ set_at k (idle_eth_channels l) ∧ ¬ (k = chip ∧ x = u32 channel).
Proof. apply elem_of_map_set_erase. Qed.

Lemma connect_step chips n done far e0 e1 l :
  links_of chips n done far l →
  match connect e0 e1 l with
  | Ok l' => links_of chips n (done ++ [(e0, e1)]) far l'
  | Err _ => ¬ (consistent (done ++ [(e0, e1)]) ∧ known chips (done ++ [(e0, e1)]))
  end.
Proof.
  intros [Hc Hd Hr Hrs Ha Hi]. unfold connect.
  assert (ends (done ++ [(e0, e1)]) e0 e1) as Hnew by (apply ends_snoc; tauto).
  assert (∀ (m : gmap Z ChannelLinks) a b, dom m = chips → ends (done ++ [(e0, e1)]) a b → m !! a.1 = None →
    ¬ (consistent (done ++ [(e0, e1)]) ∧ known chips (done ++ [(e0, e1)]))) as Hunk.
  { intros m a b Hm Hab Hn [_ Hk]. apply Hk in Hab. rewrite <- Hm in Hab. apply elem_of_dom in Hab as [? ?]. congruence. }
  pose proof (add_end_spec e0 e1 (ethernet_connections l)) as H1.
  destruct (add_end e0 e1 _) as [m1|]; cbn [mbind result_bind].
  2:{ destruct H1 as [Hn|(o & Ho & Hne)]; [by eapply Hunk|]. intros [Hcon _]. apply Hne, (Hcon e0); [|done].
      apply ends_snoc. left. by apply Hc. }
  destruct H1 as (_ & Hold1 & Hm1 & Hd1).
  pose proof (add_end_spec e1 e0 m1) as H2.
  destruct (add_end e1 e0 m1) as [m2|]; cbn [mbind result_bind].
  2:{ destruct H2 as [Hn|(o & Ho & Hne)]; [apply (Hunk m1 e1 e0); [congruence|by apply ends_sym|done]|].
      intros [Hcon _]. rewrite Hm1 in Ho. case_decide as He; [congruence|].
      apply Hne, (Hcon e1); [|by apply ends_sym]. apply ends_snoc. left. by apply Hc. }
  destruct H2 as (_ & Hold2 & Hm2 & Hd2).
  assert (∀ chip c, c ∈ set_at chip (active_eth_channels (mark_active e1.1 e1.2 (mark_active e0.1 e0.2 (set_connections m2 l))))
    ↔ (chip = e1.1 ∧ c = u32 e1.2) ∨ (chip = e0.1 ∧ c = u32 e0.2) ∨ c ∈ set_at chip (active_eth_channels l)) as Hact.
  { intros. by rewrite !elem_of_mark_active. }
  split.
  - intros a b. cbn [ethernet_connections mark_active set_connections]. rewrite Hm2, Hm1, ends_snoc, <- Hc.
    rewrite Hm1 in Hold2. repeat case_decide; subst; try naive_solver.
  - cbn. congruence.
  - exact Hr.
  - exact Hrs.
  - intros chip c. rewrite Hact, Ha. setoid_rewrite ends_snoc. destruct e0 as [c0 h0], e1 as [c1 h1]; cbn. naive_solver.
  - intros chip c. rewrite Hact, !elem_of_mark_idle. cbn [set_connections idle_eth_channels]. rewrite Hi. tauto.
Qed.

Lemma connect_all chips n far L l :
  links_of chips n [] far l →
  match for_each L (λ '(e0, e1), connect e0 e1) l with
  | Ok l' => links_of chips n L far l'
  | Err _ => ¬ (consistent L ∧ known chips L)
  end.
Proof.
  intros H0. induction L as [|[e0 e1] L IH] using rev_ind; [done|]. rewrite for_each_app.
  destruct (for_each L _ l) as [l'|]; cbn [mbind result_bind].
  2:{ intros [Hc Hk]. apply IH. split; [by eapply consistent_prefix|by eapply known_prefix]. }
  cbn [for_each]. pose proof (connect_step chips n L far e0 e1 l' IH) as Hs.
  destruct (connect e0 e1 l'); done.
Qed.

Lemma connect_remote_step chips n done far a b l :
  links_of chips n done far l → links_of chips n done (far ++ [(a, b)]) (connect_remote a b l).
Proof.
  intros [Hc Hd Hr Hrs Ha Hi].
  assert (∀ c, connection (ethernet_connections_to_remote_devices (connect_remote a b l)) c
    = if decide (c = a) then Some b else connection (ethernet_connections_to_remote_devices l) c) as Hcon.
  { intros [chip h]. destruct a as [ca ha]. unfold connection, connect_remote; cbn.
    destruct (decide (chip = ca)) as [->|Hne].
    - rewrite lookup_insert_eq. cbn. destruct (decide (h = ha)) as [->|Hne'].
      + by rewrite lookup_insert_eq, decide_True.
      + rewrite lookup_insert_ne, decide_False by congruence. by destruct (_ !! ca).
    - by rewrite lookup_insert_ne, decide_False by congruence. }
  assert (∀ chip c, c ∈ set_at chip (active_eth_channels (connect_remote a b l)) ↔
    (chip = a.1 ∧ c = u32 a.2) ∨ c ∈ set_at chip (active_eth_channels l)) as Hact.
  { intros. unfold connect_remote. by rewrite elem_of_mark_active. }
  split; [exact Hc|exact Hd| | | |].
  - intros c f. rewrite Hcon, elem_of_app, list_elem_of_singleton. case_decide; naive_solver.
  - intros c f. rewrite Hcon, elem_of_app, list_elem_of_singleton. case_decide; naive_solver.
  - intros chip c. rewrite Hact, Ha. setoid_rewrite elem_of_app. setoid_rewrite list_elem_of_singleton.
    destruct a as [ca ha]; cbn. split.
    + intros [[-> ->]|(h & f & Hin & ->)]; [exists ha, b|exists h, f]; tauto.
    + intros (h & f & [Hin|[Hin|Hin]] & ->); [right; exists h, f; tauto|right; exists h, f; tauto|].
      left. by simplify_eq.
  - intros chip c. rewrite Hact. unfold connect_remote. rewrite elem_of_mark_idle. cbn [idle_eth_channels]. rewrite Hi. tauto.
Qed.

Lemma connect_remote_all chips n done far R l :
  links_of chips n done far l →
  links_of chips n done (far ++ R) (foldl (λ l '(a, b), connect_remote a b l) l R).
Proof.
  revert far l. induction R as [|[a b] R IH]; intros far l Hl; [by rewrite app_nil_r|].
  cbn [foldl]. rewrite (app_assoc far [(a, b)] R : far ++ (a, b) :: R = (far ++ [(a, b)]) ++ R). by apply IH, connect_remote_step.
Qed.

(** ** The idle channels preloaded *)

Lemma elem_of_preloaded chip n l k x :
  0 ≤ n →
  let l' := foldl (λ l i, set_idle (map_set_insert chip i (idle_eth_channels l)) l) l (seqZ 0 n) in
  (x ∈ set_at k (idle_eth_channels l') ↔ (k = chip ∧ 0 ≤ x < n) ∨ x ∈ set_at k (idle_eth_channels l))
  ∧ l' = set_idle (idle_eth_channels l') l.
Proof.
  intros Hn. revert n Hn. refine (natlike_ind _ _ _).
  - cbn. split; [|by destruct l]. split; [by right|]. intros [[_ ?]|?]; [lia|done].
  - intros n Hn IH. rewrite <- Z.add_1_r, seqZ_snoc, foldl_app by done. cbn [foldl]. cbn zeta in IH.
    set (l' := foldl _ _ _) in *. destruct IH as [IH1 IH2]. split; [|by rewrite IH2].
    cbn [set_idle idle_eth_channels]. rewrite elem_of_map_set_insert, IH1. split.
    + intros [[-> ->]|[[-> ?]|?]]; [left; split; [done|lia]..|by right].
    + intros [[-> ?]|?]; [|tauto]. destruct (decide (x = 0 + n)); [by left|right; left; split; [done|lia]].
Qed.

(** What [load_chips_from_connectivity_descriptor] leaves. *)
Definition fresh_links (d : ClusterDescriptor) : Prop :=
  links d = MkLinks (gset_to_gmap ∅ (all_chips d)) ∅ ∅ ∅.

Lemma connection_fresh d a : fresh_links d → connection (ethernet_connections (links d)) a = None.
Proof.
  intros ->. cbn. unfold connection. destruct (gset_to_gmap _ _ !! a.1) as [c|] eqn:E; cbn; [|done].
  by apply lookup_gset_to_gmap_Some in E as [_ <-].
Qed.

Lemma set_at_empty k : set_at k ∅ = ∅.
Proof. unfold set_at. by rewrite lookup_empty. Qed.

Section theory.
Context `{UnorderedLaws} `{YAML}.

Lemma preload_all d n :
  fresh_links d → (∀ chip, chip ∈ all_chips d → channel_count d chip = Ok (n chip)) →
  ∃ l, for_each (set_iter (all_chips d)) (preload_idle d) (links d) = Ok l ∧ links_of (all_chips d) n [] [] l.
Proof.
  intros Hf Hn.
  destruct (for_each_inv (λ visited l, l = set_idle (idle_eth_channels l) (links d) ∧
      ∀ k x, x ∈ set_at k (idle_eth_channels l) ↔ k ∈ visited ∧ 0 ≤ x < n k)
    (set_iter (all_chips d)) (preload_idle d) (links d)) as (l & -> & Hl & Hi).
  - rewrite Hf. split; [done|]. intros k x. cbn. rewrite set_at_empty. set_solver.
  - intros visited chip rest l Hl [Hfr Hi]. unfold preload_idle. rewrite Hn; [cbn [mbind result_bind]|].
    2:{ apply elem_of_set_iter. rewrite Hl. set_solver. }
    eexists. split; [done|]. destruct (Z.lt_ge_cases (n chip) 0).
    + rewrite seqZ_nil by lia. cbn [foldl]. split; [done|]. intros k x. rewrite Hi, elem_of_app, list_elem_of_singleton.
      split; [tauto|]. intros [[?| ->] ?]; [done|lia].
    + destruct (elem_of_preloaded chip (n chip) l 0 0) as [_ Hfr']; [done|]. split.
      * rewrite Hfr'. cbn [idle_eth_channels set_idle]. by rewrite Hfr.
      * intros k x. destruct (elem_of_preloaded chip (n chip) l k x) as [-> _]; [done|].
        rewrite Hi, elem_of_app, list_elem_of_singleton. naive_solver.
  - exists l. split; [done|]. pose proof (connection_fresh d) as Hcf. split; rewrite Hl; cbn [set_idle
      ethernet_connections ethernet_connections_to_remote_devices active_eth_channels idle_eth_channels].
    + intros a b. rewrite Hcf by done. split; [done|]. unfold ends. set_solver.
    + rewrite Hf. apply dom_gset_to_gmap.
    + intros a b. rewrite Hf. unfold connection; cbn. by rewrite lookup_empty.
    + intros a b []%not_elem_of_nil.
    + intros chip c. rewrite Hf; cbn. rewrite set_at_empty. unfold ends. set_solver.
    + intros chip c. rewrite Hi, elem_of_set_iter, Hf; cbn. rewrite set_at_empty. set_solver.
Qed.

Lemma parse_links_loop nodes L l :
  Forall2 (λ node link, parse_link node = Ok link) nodes L →
  for_each nodes (λ n l, '(end_0, end_1) ← parse_link n; connect end_0 end_1 l) l
  = for_each L (λ '(e0, e1), connect e0 e1) l.
Proof.
  intros HF. revert l. induction HF as [|node [a b] nodes L Hp HF IH]; intros l; [done|]. cbn [for_each].
  rewrite Hp. cbn [mbind result_bind]. by destruct (connect a b l); cbn [mbind result_bind].
Qed.

(** The links to devices outside the cluster that the document lists. *)
Definition remote_links (yaml : Node) (R : list ((Z * Z) * (Z * Z))) : Prop :=
  let remote := y_get yaml "ethernet_connections_to_remote_devices" in
  if IsDefined remote
  then ∃ nodes, as_nodes remote = Ok nodes ∧ Forall2 (λ node link, parse_remote_link node = Ok link) nodes R
  else R = [].

Lemma load_remote_links_eq yaml R l :
  remote_links yaml R → load_remote_links yaml l = Ok (foldl (λ l '(a, b), connect_remote a b l) l R).
Proof.
  unfold remote_links, load_remote_links. destruct (IsDefined _); [|by intros ->].
  intros (nodes & -> & HF). cbn [mbind result_bind]. revert l.
  induction HF as [|node [a b] nodes R Hp HF IH]; intros l; [done|]. cbn [for_each foldl]. rewrite Hp. apply IH.
Qed.

Lemma load_links_spec d n yaml nodes L R :
  fresh_links d → (∀ chip, chip ∈ all_chips d → channel_count d chip = Ok (n chip)) →
  IsSequence (y_get yaml "ethernet_connections") = true →
  as_nodes (y_get yaml "ethernet_connections") = Ok nodes →
  Forall2 (λ node link, parse_link node = Ok link) nodes L → remote_links yaml R →
  (is_Ok (load_ethernet_connections_from_connectivity_descriptor yaml d) ↔ consistent L ∧ known (all_chips d) L) ∧
  ∀ d', load_ethernet_connections_from_connectivity_descriptor yaml d = Ok d' →
    ∃ l, d' = set_links l d ∧ links_of (all_chips d) n L R l.
Proof.
  intros Hf Hn Hseq Hnodes HF HR. unfold load_ethernet_connections_from_connectivity_descriptor.
  rewrite Hseq, Hnodes. cbn [umd_assert mbind result_bind].
  destruct (preload_all d n Hf Hn) as (l0 & -> & Hl0). cbn [mbind result_bind].
  rewrite (parse_links_loop _ _ _ HF). pose proof (connect_all _ _ _ L _ Hl0) as HL.
  destruct (for_each L _ l0) as [l1|e]; cbn [mbind result_bind].
  - rewrite (load_remote_links_eq _ _ _ HR). cbn [mbind result_bind]. split.
    + split; [intros _; by eapply lsf_consistent|by eexists].
    + intros d' [= <-]. eexists. split; [done|]. by apply (connect_remote_all _ _ _ []).
  - split; [|done]. split; [by intros [? ?]|]. intros Hc. by destruct HL.
Qed.

(** C40: Loading the Ethernet links succeeds exactly when every listed chip is
    known and no channel is in two different links. Then the connections are
    the listed links in both directions, the active channels of a chip are those
    with a connection, in the cluster or out of it, and the idle ones are the
    chip's other channels. *)
Theorem load_ethernet_connections_correct d n yaml nodes L R :
  fresh_links d → (∀ chip, chip ∈ all_chips d → channel_count d chip = Ok (n chip)) →
  IsSequence (y_get yaml "ethernet_connections") = true →
  as_nodes (y_get yaml "ethernet_connections") = Ok nodes →
  Forall2 (λ node link, parse_link node = Ok link) nodes L → remote_links yaml R →
  (is_Ok (load_ethernet_connections_from_connectivity_descriptor yaml d) ↔ consistent L ∧ known (all_chips d) L) ∧
  ∀ d', load_ethernet_connections_from_connectivity_descriptor yaml d = Ok d' →
    ∃ l, d' = set_links l d ∧ links_of (all_chips d) n L R l.
Proof. apply load_links_spec. Qed.

(** ** Clusters *)

Definition adjacent (m : gmap Z ChannelLinks) (x y : Z) : Prop :=
  ∃ h h', connection m (x, h) = Some (y, h').

Lemma linked_connected_chips m x y : linked (connected_chips m) x y ↔ adjacent m x y.
Proof.
  unfold linked, connected_chips, adjacent, connection; cbn. rewrite list_elem_of_bind. split.
  - intros ([chip channels] & Hin & Hm%elem_of_map_iter). apply list_elem_of_fmap in Hin as ([h [y' h']] & Heq & Hh%elem_of_map_iter).
    simplify_eq. exists h, h'. by rewrite Hm.
  - intros (h & h' & Hc). destruct (m !! x) as [channels|] eqn:Hm; [|done]. exists (x, channels). split.
    + apply list_elem_of_fmap. exists (h, (y, h')). split; [done|]. by apply elem_of_map_iter.
    + by apply elem_of_map_iter.
Qed.

Definition same_cluster (m : gmap Z ChannelLinks) : Z → Z → Prop := clos_refl_sym_trans Z (adjacent m).

Lemma clos_rst_mono (R R' : Z → Z → Prop) x y :
  (∀ a b, R a b → R' a b) → clos_refl_sym_trans Z R x y → clos_refl_sym_trans Z R' x y.
Proof. intros HR. induction 1; [by apply rst_step, HR|apply rst_refl|by apply rst_sym|by eapply rst_trans]. Qed.

Lemma connected_same_cluster m x y : connected (connected_chips m) x y ↔ same_cluster m x y.
Proof. split; apply clos_rst_mono; intros a b; apply linked_connected_chips. Qed.

(** The loop that writes the cluster ids. *)
Lemma write_cluster_ids items links parent chips (locations : gmap Z EthCoord) :
  partition items links parent → (∀ c, c ∈ chips → c ∈ items) → NoDup chips → (∀ c, c ∈ chips → is_Some (locations !! c)) →
  ∃ locations', foldl (λ acc chip,
      '(chip_sets, locations) ← acc;
      '(set, chip_sets) ← get_set chip chip_sets;
      Some (chip_sets, <[chip := set_cluster_id set (default (MkEthCoord 0 0 0 0 0) (locations !! chip))]> locations))
      (Some (parent, locations)) chips = Some (parent, locations') ∧
    (∀ c, c ∉ chips → locations' !! c = locations !! c) ∧
    ∀ c e, c ∈ chips → locations !! c = Some e →
      ∃ r, locations' !! c = Some (set_cluster_id r e) ∧ component_min items links c r.
Proof.
  intros Hp. revert locations. induction chips as [|chip chips IH]; intros locations Hin Hnd Hs.
  - exists locations. split; [done|]. split; [done|]. intros c e []%not_elem_of_nil.
  - apply NoDup_cons in Hnd as [Hni Hnd]. cbn [foldl].
    destruct (partition_root _ _ _ Hp chip) as (r & Hg & Hr); [set_solver|].
    destruct (Hs chip) as [e He]; [set_solver|]. cbn [mbind option_bind].
    rewrite Hg, He. cbn [mbind option_bind from_option id].
    destruct (IH (<[chip := set_cluster_id r e]> locations)) as (locations' & -> & Hout & Hset); [set_solver|done| |].
    { intros c Hc. apply lookup_insert_is_Some'. right. apply Hs. set_solver. }
    exists locations'. split; [done|]. split.
    + intros c Hc. rewrite Hout by set_solver. apply lookup_insert_ne. set_solver.
    + intros c e' [->|Hc]%elem_of_cons He'.
      * rewrite He in He'. injection He' as <-. exists r. rewrite Hout, lookup_insert_eq by done.
        split; [done|]. eapply root_component_min; [done|set_solver|done].
      * apply Hset; [done|]. rewrite lookup_insert_ne; [done|]. by intros ->.
Qed.

(** When every connected chip has a location, [merge_cluster_ids] terminates
    and only the cluster ids change: the id of a chip is the smallest chip it is
    connected to, directly or through others. Hence two chips have the same id
    exactly when they are connected. *)
Lemma merge_cluster_ids_correct d :
  let locs := chip_locations (placement d) in
  let conns := ethernet_connections (links d) in
  (∀ c, is_Some (locs !! c) → 0 ≤ c) →
  (∀ a b, connection conns a = Some b → is_Some (locs !! a.1) ∧ is_Some (locs !! b.1)) →
  ∃ locs', merge_cluster_ids d = Some (set_placement (MkPlacement locs' (coords_to_chip_ids (placement d))) d) ∧
    (∀ c, locs !! c = None → locs' !! c = None) ∧
    (∀ c e, locs !! c = Some e → ∃ r, locs' !! c = Some (set_cluster_id r e) ∧
       same_cluster conns c r ∧ ∀ y, is_Some (locs !! y) → same_cluster conns c y → r ≤ y) ∧
    ∀ c1 c2 e1 e2, locs' !! c1 = Some e1 → locs' !! c2 = Some e2 →
      (cluster_id e1 = cluster_id e2 ↔ same_cluster conns c1 c2).
Proof.
  intros locs conns Hpos Hloc. unfold merge_cluster_ids. fold locs conns. set (items := (map_iter locs).*1).
  assert (∀ c, c ∈ items ↔ is_Some (locs !! c)) as Hit.
  { intros c. unfold items. rewrite list_elem_of_fmap. split.
    - intros ([k e] & -> & Hin%elem_of_map_iter). by exists e.
    - intros [e He]. exists (c, e). split; [done|]. by apply elem_of_map_iter. }
  destruct (build_partition items (connected_chips conns)) as (parent & Hb & Hp).
  { intros c Hc%Hit. by apply Hpos. }
  { intros x y (h & h' & Hc)%linked_connected_chips. rewrite !Hit. apply (Hloc _ _ Hc). }
  rewrite Hb. cbn [mbind option_bind].
  destruct (write_cluster_ids items (connected_chips conns) parent items locs Hp) as (locs' & Hw & Hout & Hset);
    [done|apply NoDup_map_iter|intros c; apply Hit|].
  rewrite Hw. cbn [mbind option_bind].
  assert (∀ c e, locs !! c = Some e → ∃ r, locs' !! c = Some (set_cluster_id r e) ∧ component_min items (connected_chips conns) c r) as Hset'.
  { intros c e He. apply Hset; [|done]. apply Hit. by exists e. }
  exists locs'. split; [done|]. split_and!.
  - intros c Hc. rewrite Hout; [done|]. rewrite Hit, Hc. by intros [? ?].
  - intros c e He. destruct (Hset' c e He) as (r & Hr & _ & Hcon & Hmin). exists r. split; [done|].
    split; [by apply connected_same_cluster|]. intros y Hy Hyc. apply Hmin; [by apply Hit|]. by apply connected_same_cluster.
  - assert (∀ c e', locs' !! c = Some e' → component_min items (connected_chips conns) c (cluster_id e')) as Hid.
    { intros c e' He'. destruct (locs !! c) as [e|] eqn:He.
      - destruct (Hset' c e He) as (r & Hr & Hmin). by simplify_eq.
      - rewrite Hout in He'; [congruence|]. rewrite Hit, He. by intros [? ?]. }
    intros c1 c2 e1 e2 Hm1%Hid Hm2%Hid. rewrite <- connected_same_cluster. split.
    + intros Heq. eapply rst_trans; [apply Hm1|]. rewrite Heq. apply rst_sym, Hm2.
    + intros Hc. eapply component_min_unique; [exact Hm1|]. destruct Hm2 as (Hin & Hcon & Hmin). split; [done|]. split.
      * by eapply rst_trans.
      * intros y Hy Hyc. apply Hmin; [done|]. eapply rst_trans; [apply rst_sym, Hc|done].
Qed.
End theory.

(** ** Two chips with one link *)

Definition endpoint (chip chan : Z) : document :=
  DMap [(DText "chip", DInt chip); (DText "chan", DInt chan)].
Definition two_linked_yaml : document :=
  DMap [(DText "ethernet_connections", DSequence [DSequence [endpoint 0 8; endpoint 1 0]])].
Definition two_chips (l : EthLinks) (p : Placement) : ClusterDescriptor :=
  MkDesc {[0; 1]} {[0 := 0]} (MkTables {[0 := WORMHOLE_B0; 1 := WORMHOLE_B0]} ∅ false ∅ ∅ ∅ ∅ ∅) p empty_boards l
    ∅ ∅ PCIe None None.
Definition two_fresh : ClusterDescriptor := two_chips (MkLinks (gset_to_gmap ∅ {[0; 1]}) ∅ ∅ ∅) empty_placement.

Lemma in_two_chips (c : Z) : c ∈ ({[0; 1]} : gset Z) → c = 0 ∨ c = 1.
Proof. set_solver. Qed.

Lemma load_ethernet_connections_correct_witness :
  is_Ok (@load_ethernet_connections_from_connectivity_descriptor sorted_order doc_yaml two_linked_yaml two_fresh).
Proof.
  refine (proj2 (proj1 (@load_ethernet_connections_correct sorted_order sorted_order_laws doc_yaml two_fresh (λ _, 16)
    two_linked_yaml [DSequence [endpoint 0 8; endpoint 1 0]] [((0, 8), (1, 0))] [] _ _ _ _ _ _)) _).
  - done.
  - intros chip [-> | ->]%in_two_chips; by vm_compute.
  - done.
  - done.
  - by repeat constructor.
  - done.
  - unfold consistent, known, ends. split.
    + intros a b b'. rewrite !list_elem_of_singleton. intros [?|?] [?|?]; congruence.
    + intros a b. rewrite !list_elem_of_singleton. intros [?|?]; simplify_eq; cbn; set_solver.
Defined.

Definition two_linked : ClusterDescriptor :=
  two_chips (MkLinks {[0 := {[8 := (1, 0)]}; 1 := {[0 := (0, 8)]}]} ∅ ∅ ∅)
    (MkPlacement {[0 := MkEthCoord 0 0 0 0 0; 1 := MkEthCoord 1 1 0 0 0]} ∅).

Lemma merge_cluster_ids_correct_witness :
  ∃ locs' : gmap Z EthCoord, @merge_cluster_ids sorted_order two_linked = Some (set_placement (MkPlacement locs' ∅) two_linked).
Proof.
  assert (∀ c, is_Some (chip_locations (placement two_linked) !! c) ↔ c = 0 ∨ c = 1) as Hl.
  { intros c. rewrite <- elem_of_dom. cbn. rewrite dom_insert, dom_singleton. set_solver. }
  destruct (@merge_cluster_ids_correct sorted_order sorted_order_laws two_linked) as (locs' & Hm & _).
  - intros c [-> | ->]%Hl; lia.
  - intros [x h] [y h'] Hc. rewrite !Hl. unfold connection in Hc; cbn in Hc.
    apply bind_Some in Hc as (channels & [[<- <-]|[_ [<- <-]%lookup_singleton_Some]]%lookup_insert_Some & [_ Hc]%lookup_singleton_Some);
      simplify_eq; cbn; lia.
  - exists locs'. exact Hm.
Defined.
