(* ===== verification/LoadChips.v ===== *)
(** * LoadChips

    [load_chips_from_connectivity_descriptor] and [load_harvesting_information]
    of [cluster_descriptor.cpp]: the chips of a cluster with their
    architectures, locations, boards, ids and harvesting. *)

From Stdlib Require Import ZArith Lia Ascii.
From stdpp Require Import base list numbers strings gmap sets.
From S2P Require Import Prelude CoreTypes Harvesting BoardTypes ClusterState ClusterBoards TextUtils EthConnections.

Local Open Scope Z_scope.

(** ** Field updates *)

Definition set_chips (c : gset Z) (d : ClusterDescriptor) : ClusterDescriptor :=
  MkDesc c (chips_with_mmio d) (tables d) (placement d) (boards d) (links d) (closest_mmio_chip_cache d)
    (chips_grouped_by_closest_mmio d) (io_device_type d) (fw_bundle_version d) (eth_fw_version d).
Definition set_mmio (m : gmap Z Z) (d : ClusterDescriptor) : ClusterDescriptor :=
  MkDesc (all_chips d) m (tables d) (placement d) (boards d) (links d) (closest_mmio_chip_cache d)
    (chips_grouped_by_closest_mmio d) (io_device_type d) (fw_bundle_version d) (eth_fw_version d).
Definition set_tables (t : ChipTables) (d : ClusterDescriptor) : ClusterDescriptor :=
  MkDesc (all_chips d) (chips_with_mmio d) t (placement d) (boards d) (links d) (closest_mmio_chip_cache d)
    (chips_grouped_by_closest_mmio d) (io_device_type d) (fw_bundle_version d) (eth_fw_version d).
Definition set_boards (b : Boards) (d : ClusterDescriptor) : ClusterDescriptor :=
  MkDesc (all_chips d) (chips_with_mmio d) (tables d) (placement d) b (links d) (closest_mmio_chip_cache d)
    (chips_grouped_by_closest_mmio d) (io_device_type d) (fw_bundle_version d) (eth_fw_version d).

Definition set_chip_arch (m : gmap Z ARCH) (t : ChipTables) : ChipTables :=
  MkTables m (chip_unique_ids t) (authentic_chip_unique_ids t) (noc_translation_enabled t) (chip_to_bus_id t)
    (chip_pci_bdfs t) (harvesting_masks_map t) (asic_locations t).
Definition set_unique_ids (m : gmap Z Z) (authentic : bool) (t : ChipTables) : ChipTables :=
  MkTables (chip_arch t) m authentic (noc_translation_enabled t) (chip_to_bus_id t)
    (chip_pci_bdfs t) (harvesting_masks_map t) (asic_locations t).
Definition set_bus_ids (m : gmap Z Z) (t : ChipTables) : ChipTables :=
  MkTables (chip_arch t) (chip_unique_ids t) (authentic_chip_unique_ids t) (noc_translation_enabled t) m
    (chip_pci_bdfs t) (harvesting_masks_map t) (asic_locations t).
Definition set_bdfs (m : gmap Z string) (t : ChipTables) : ChipTables :=
  MkTables (chip_arch t) (chip_unique_ids t) (authentic_chip_unique_ids t) (noc_translation_enabled t)
    (chip_to_bus_id t) m (harvesting_masks_map t) (asic_locations t).
Definition set_harvesting (en : gmap Z bool) (m : gmap Z HarvestingMasks) (t : ChipTables) : ChipTables :=
  MkTables (chip_arch t) (chip_unique_ids t) (authentic_chip_unique_ids t) en
    (chip_to_bus_id t) (chip_pci_bdfs t) m (asic_locations t).
Definition set_asic_locations (m : gmap Z Z) (t : ChipTables) : ChipTables :=
  MkTables (chip_arch t) (chip_unique_ids t) (authentic_chip_unique_ids t) (noc_translation_enabled t)
    (chip_to_bus_id t) (chip_pci_bdfs t) (harvesting_masks_map t) m.

Section load.
Context `{Unordered} `{YAML}.

(** ** The sections of the document, in the order they are read *)

Definition add_chip_arch (entry : Node * Node) (d : ClusterDescriptor) : result ClusterDescriptor :=
  chip_id ← as_int entry.1;
  arch_str ← as_string entry.2;
  Ok (set_links (set_connections (map_insert_new chip_id ∅ (ethernet_connections (links d))) (links d))
       (set_tables (set_chip_arch (map_insert_new chip_id (arch_from_str arch_str) (chip_arch (tables d))) (tables d))
         (set_chips ({[chip_id]} ∪ all_chips d) d))).

Definition add_location (entry : Node * Node) (p : Placement) : result Placement :=
  chip_id ← as_int entry.1;
  chip_rack_coords ← as_ints entry.2;
  _ ← umd_assert (vec_size chip_rack_coords =? 4) "Galaxy (x, y, rack, shelf) coords must be size 4";
  x ← vec_at chip_rack_coords 0;
  y ← vec_at chip_rack_coords 1;
  rack ← vec_at chip_rack_coords 2;
  shelf ← vec_at chip_rack_coords 3;
  Ok (MkPlacement (map_insert_new chip_id (MkEthCoord chip_id x y rack shelf) (chip_locations p))
       (<[(rack, shelf, y, x) := chip_id]> (coords_to_chip_ids p))).

(** A map entry lists a chip with its PCIe id; only its first pair is read. *)
Definition add_mmio_chip (chip : Node) (m : gmap Z Z) : result (gmap Z Z) :=
  if IsMap chip then
    chip_map ← as_map as_int chip;
    match chip_map with
    | [] => Err UndefinedBehaviour
    | (first, second) :: _ => Ok (map_insert_new first second m)
    end
  else
    chip_val ← as_int chip;
    Ok (map_insert_new chip_val chip_val m).

Definition add_board_chip (board_id : Z) (board_type : BoardType) (chip : Node) (b : Boards) : result Boards :=
  chip ← as_int chip;
  b ← add_chip_to_board chip board_id b;
  Ok (MkBoards (chip_to_board_id b) (board_to_chips b) (map_insert_new chip board_type (chip_board_type b))).

Definition add_board (boardEntry : Node) (b : Boards) : result Boards :=
  if negb (IsSequence boardEntry) || negb (vec_size (y_items boardEntry) =? 3)
  then throw "Each board entry should be a sequence of 3 maps."
  else
    e0 ← vec_at (y_items boardEntry) 0;
    e1 ← vec_at (y_items boardEntry) 1;
    e2 ← vec_at (y_items boardEntry) 2;
    board_id ← as_u64 (y_get e0 "board_id");
    board_type_str ← as_string (y_get e1 "board_type");
    for_each (y_items (y_get e2 "chips")) (add_board_chip board_id (board_type_from_string board_type_str)) b.

Definition load_boards (boardsNode : Node) (b : Boards) : result Boards :=
  if negb (IsDefined boardsNode) then Ok b
  else if negb (IsSequence boardsNode) then throw "Invalid or missing 'boards' node."
  else for_each (y_items boardsNode) add_board b.

(** [static_cast<uint64_t>(chip) << 32]. *)
Definition synthetic_id (chip : Z) : Z := u64 (Z.shiftl (u64 chip) 32).

Definition load_unique_ids (node : Node) (chips : gset Z) (t : ChipTables) : result ChipTables :=
  if IsDefined node then
    ids ← as_map as_u64 node;
    Ok (set_unique_ids (foldl (λ m '(chip, id), map_insert_new chip id m) (chip_unique_ids t) ids) true t)
  else
    Ok (set_unique_ids (foldl (λ m chip, map_insert_new chip (synthetic_id chip) m) (chip_unique_ids t) (set_iter chips))
          (authentic_chip_unique_ids t) t).

Definition parse_bus_id (bus_str : string) : result Z :=
  if negb (bool_decide (String.substring 0 2 bus_str = "0x"))
  then throw "Bus string without 0x prefix for chip"
  else
    id ← stoul_16 (String.substring 2 (String.length bus_str - 2) bus_str);
    Ok (u16 id).

Definition load_bus_ids (node : Node) (m : gmap Z Z) : result (gmap Z Z) :=
  if IsDefined node then
    ids ← as_map as_string node;
    for_each ids (λ '(chip, bus_str) m, bus_id ← parse_bus_id bus_str; Ok (map_insert_new chip bus_id m)) m
  else Ok m.

(** The map's values are [uint8_t]. *)
Definition load_asic_locations (node : Node) (m : gmap Z Z) : result (gmap Z Z) :=
  if IsDefined node then
    locations ← as_map as_u64 node;
    Ok (foldl (λ m '(chip, location), map_insert_new chip (u8 location) m) m locations)
  else Ok m.

Definition load_bdfs (node : Node) (mmio : gmap Z Z) (m : gmap Z string) : result (gmap Z string) :=
  if IsDefined node then
    bdfs ← as_map as_string node;
    for_each bdfs (λ '(chip, bdf) m,
      if bool_decide (mmio !! chip = None) then throw "Chip has PCI BDF specified but is not MMIO mapped."
      else Ok (map_insert_new chip bdf m)) m
  else Ok m.

Definition load_chips_from_connectivity_descriptor (yaml : Node) (d : ClusterDescriptor) : result ClusterDescriptor :=
  d ← for_each (y_pairs (y_get yaml "arch")) add_chip_arch d;
  p ← for_each (y_pairs (y_get yaml "chips")) add_location (placement d);
  m ← for_each (y_items (y_get yaml "chips_with_mmio")) add_mmio_chip (chips_with_mmio d);
  b ← load_boards (y_get yaml "boards") (boards d);
  t ← load_unique_ids (y_get yaml "chip_unique_ids") (all_chips d) (tables d);
  bus ← load_bus_ids (y_get yaml "chip_to_bus_id") (chip_to_bus_id t);
  asic ← load_asic_locations (y_get yaml "asic_locations") (asic_locations t);
  bdfs ← load_bdfs (y_get yaml "chip_pci_bdfs") m (chip_pci_bdfs t);
  Ok (set_tables (set_bdfs bdfs (set_asic_locations asic (set_bus_ids bus t)))
       (set_boards b (set_mmio m (set_placement p d)))).

(** ** Harvesting *)

Definition optional_mask (node : Node) (otherwise : Z) : result Z :=
  if IsDefined node then as_u32 node else Ok otherwise.

Definition load_chip_harvesting (entry : Z * Node) (t : ChipTables) : result ChipTables :=
  let '(chip, info) := entry in
  translation ← as_bool (y_get info "noc_translation");
  let enabled := map_insert_new chip translation (noc_translation_enabled t) in
  tensix ← as_u32 (y_get info "harvest_mask");
  dram ← optional_mask (y_get info "dram_harvesting_mask") 0;
  eth ← optional_mask (y_get info "eth_harvesting_mask") 0;
  pcie ← optional_mask (y_get info "pcie_harvesting_mask") 0;
  l2cpu ← optional_mask (y_get info "l2cpu_harvesting_mask") 0;
  Ok (set_harvesting enabled (map_insert_new chip (MkMasks tensix dram eth pcie l2cpu) (harvesting_masks_map t)) t).

Definition load_harvesting_information (yaml : Node) (d : ClusterDescriptor) : result ClusterDescriptor :=
  if IsDefined (y_get yaml "harvesting") then
    entries ← as_map Ok (y_get yaml "harvesting");
    t ← for_each entries load_chip_harvesting (tables d);
    Ok (set_tables t d)
  else Ok d.

End load.

(** ** What loading establishes *)

Lemma map_insert_new_dom {V} k (v : V) (m : gmap Z V) : dom (map_insert_new k v m) = {[k]} ∪ dom m.
Proof.
  unfold map_insert_new. destruct (m !! k) eqn:E; [|by rewrite dom_insert_L].
  apply elem_of_dom_2 in E. set_solver.
Qed.

Lemma gset_to_gmap_insert_new (k : Z) (s : gset Z) :
  map_insert_new k (∅ : ChannelLinks) (gset_to_gmap ∅ s) = gset_to_gmap ∅ ({[k]} ∪ s).
Proof.
  apply map_eq. intros i. rewrite map_insert_new_lookup. apply option_eq. intros v.
  rewrite lookup_gset_to_gmap_Some, elem_of_union, elem_of_singleton.
  destruct (gset_to_gmap ∅ s !! i) as [c|] eqn:E.
  - apply lookup_gset_to_gmap_Some in E as [Hi <-]. naive_solver.
  - rewrite lookup_gset_to_gmap_None in E. case_decide; naive_solver.
Qed.

(** Synthetic ids tell chips apart. *)
Lemma synthetic_id_inj a b : is_int a → is_int b → synthetic_id a = synthetic_id b → a = b.
Proof.
  unfold synthetic_id, u64, is_int. intros Ha Hb. rewrite !Z.shiftl_mul_pow2 by lia.
  change (2 ^ 64) with (2 ^ 32 * 2 ^ 32). rewrite !Z.mul_mod_distr_r by lia.
  rewrite !Z.mod_mod_divide by apply Z.divide_factor_l.
  intros H%Z.mul_cancel_r; [|lia]. change (2 ^ 32) with 4294967296 in H. change (2 ^ 31) with 2147483648 in *.
  Z.div_mod_to_equations. lia.
Qed.

Lemma add_chip_to_board_ok chip board b b' : boards_ok b → add_chip_to_board chip board b = Ok b' → boards_ok b'.
Proof.
  intros Hok Hadd. pose proof (add_chip_to_board_cases chip board b Hok) as H.
  destruct (chip_to_board_id b !! chip) as [other|].
  - case_decide; [destruct H as (b'' & Hb & ? & _); by assert (b'' = b') as <- by congruence|]. by rewrite Hadd in H.
  - destruct H as (b'' & Hb & ? & _). by assert (b'' = b') as <- by congruence.
Qed.

Section theory.
Context `{UnorderedLaws} `{YAML} `{!YAMLLaws}.

(** The chips of the arch section. *)
Definition listed (entries : list (Node * Node)) (c : Z) : Prop := ∃ e, e ∈ entries ∧ as_int e.1 = Ok c.

(** Everything but what the first loop fills is as in [d]. *)
Record chips_loaded (entries : list (Node * Node)) (d : ClusterDescriptor) : Prop := {
  cl_chips : ∀ c, c ∈ all_chips d ↔ listed entries c;
  cl_arch : dom (chip_arch (tables d)) = all_chips d;
  cl_links : fresh_links d;
  cl_frame : ∃ arch, d = set_links (links d) (set_tables (set_chip_arch arch empty_tables) (set_chips (all_chips d) empty_descriptor))
}.

Lemma add_chip_arch_step visited e d d' :
  chips_loaded visited d → add_chip_arch e d = Ok d' → chips_loaded (visited ++ [e]) d'.
Proof.
  intros [Hc Ha Hl [arch Hf]] Hs. unfold add_chip_arch in Hs. result_steps Hs. injection Hs as <-. split.
  - intros c. cbn [all_chips set_links set_tables set_chips]. rewrite elem_of_union, elem_of_singleton, Hc.
    unfold listed. setoid_rewrite elem_of_app. setoid_rewrite list_elem_of_singleton. split.
    + intros [->|(e' & ? & ?)]; [exists e|exists e']; by auto.
    + intros (e' & [?| ->] & ?); [right; by exists e'|left; congruence].
  - cbn [all_chips tables chip_arch set_links set_tables set_chips set_chip_arch]. by rewrite map_insert_new_dom, Ha.
  - unfold fresh_links in *. cbn [links all_chips set_links set_tables set_chips]. rewrite Hl. unfold set_connections; cbn.
    by rewrite gset_to_gmap_insert_new.
  - eexists. rewrite Hf. cbn. reflexivity.
Qed.

Lemma load_archs entries d :
  for_each entries add_chip_arch empty_descriptor = Ok d → chips_loaded entries d.
Proof.
  intros Hd. apply (for_each_preserves chips_loaded _ _ _ _ Hd).
  - split; [|done| |by exists ∅].
    + intros c. unfold listed. cbn. set_solver.
    + unfold fresh_links. cbn. by rewrite gset_to_gmap_empty.
  - intros visited e rest s s' _. apply add_chip_arch_step.
Qed.

Lemma load_boards_ok node b b' : boards_ok b → load_boards node b = Ok b' → boards_ok b'.
Proof.
  intros Hok. unfold load_boards. destruct (negb (IsDefined node)); [by intros [= <-]|].
  destruct (negb (IsSequence node)); [done|]. intros Hs.
  apply (for_each_preserves (λ _, boards_ok) _ _ _ _ Hs Hok). clear Hs Hok b b'. intros _ e _ b b' _ Hok.
  unfold add_board. destruct (_ || _); [done|]. intros Hs. result_steps Hs.
  apply (for_each_preserves (λ _, boards_ok) _ _ _ _ Hs Hok). clear. intros _ c _ b b' _ Hok Hs.
  unfold add_board_chip in Hs. result_steps Hs. injection Hs as <-.
  match goal with E : add_chip_to_board _ _ _ = Ok ?x |- _ => pose proof (add_chip_to_board_ok _ _ _ _ Hok E) as Hx end.
  exact Hx.
Qed.

Lemma synthetic_ids_lookup chips (m : gmap Z Z) c :
  m = ∅ →
  foldl (λ m chip, map_insert_new chip (synthetic_id chip) m) m chips !! c =
  if decide (c ∈ chips) then Some (synthetic_id c) else None.
Proof.
  intros ->. induction chips as [|chip chips IH] using rev_ind; [done|]. rewrite foldl_app. cbn [foldl].
  rewrite map_insert_new_lookup, IH. destruct (decide (c ∈ chips)).
  - rewrite decide_True by set_solver. done.
  - destruct (decide (chip = c)) as [->|Hne]; [by rewrite decide_True by set_solver|].
    rewrite decide_False; [done|]. set_solver.
Qed.

Lemma map_insert_new_forall {V} (P : Z → V → Prop) k v (m : gmap Z V) :
  P k v → map_Forall P m → map_Forall P (map_insert_new k v m).
Proof.
  intros Hv Hm i x. rewrite map_insert_new_lookup. destruct (m !! i) eqn:E; [intros [= <-]; by apply Hm|].
  case_decide; [by intros [= <-]; subst|done].
Qed.

Lemma load_bus_ids_range node m m' :
  load_bus_ids node m = Ok m' → map_Forall (λ _ b, 0 ≤ b < 2 ^ 16) m → map_Forall (λ _ b, 0 ≤ b < 2 ^ 16) m'.
Proof.
  unfold load_bus_ids. destruct (IsDefined node); [|by intros [= <-]]. intros Hs Hm. result_steps Hs.
  apply (for_each_preserves (λ _, map_Forall (λ _ b, 0 ≤ b < 2 ^ 16)) _ _ _ _ Hs Hm).
  intros _ [chip bus] _ s s' _ Hms Hb. result_steps Hb. injection Hb as <-. apply map_insert_new_forall; [|done].
  match goal with E : parse_bus_id _ = Ok _ |- _ => unfold parse_bus_id in E; result_steps E; injection E as <- end.
  apply Z.mod_pos_bound. lia.
Qed.

Lemma load_asic_locations_range node m m' :
  load_asic_locations node m = Ok m' → map_Forall (λ _ b, 0 ≤ b < 2 ^ 8) m → map_Forall (λ _ b, 0 ≤ b < 2 ^ 8) m'.
Proof.
  unfold load_asic_locations. destruct (IsDefined node); [|by intros [= <-]]. intros Hs Hm. result_steps Hs.
  injection Hs as <-. clear E. revert m Hm. induction a as [|[chip loc] a IH]; intros m Hm; [done|]. cbn [foldl]. apply IH.
  apply map_insert_new_forall; [|done]. apply Z.mod_pos_bound. lia.
Qed.

Lemma load_bdfs_mmio node mmio m m' :
  load_bdfs node mmio m = Ok m' → map_Forall (λ c _, is_Some (mmio !! c)) m → map_Forall (λ c _, is_Some (mmio !! c)) m'.
Proof.
  unfold load_bdfs. destruct (IsDefined node); [|by intros [= <-]]. intros Hs Hm. result_steps Hs.
  apply (for_each_preserves (λ _, map_Forall (λ c _, is_Some (mmio !! c))) _ _ _ _ Hs Hm).
  intros _ [chip bdf] _ s s' _ Hms Hb. result_steps Hb. injection Hb as <-. apply map_insert_new_forall; [|done].
  apply bool_decide_eq_false in E0. by apply not_eq_None_Some.
Qed.

(** What [load_chips_from_connectivity_descriptor] establishes for a document. *)
Record loaded (yaml : Node) (d : ClusterDescriptor) : Prop := {
  ld_chips : ∀ c, c ∈ all_chips d ↔ listed (y_pairs (y_get yaml "arch")) c;
  ld_arch : dom (chip_arch (tables d)) = all_chips d;
  ld_links : fresh_links d;
  ld_boards : boards_ok (boards d);
  ld_grouped : chips_grouped_by_closest_mmio d = ∅ ∧ closest_mmio_chip_cache d = ∅;
  ld_bdfs : ∀ c, is_Some (chip_pci_bdfs (tables d) !! c) → is_chip_mmio_capable d c = true;
  ld_buses : ∀ c, 0 ≤ get_bus_id d c < 2 ^ 16;
  ld_asics : ∀ c, 0 ≤ get_asic_location d c < 2 ^ 8;
  ld_ids : IsDefined (y_get yaml "chip_unique_ids") = false →
    dom (chip_unique_ids (tables d)) = all_chips d ∧
    ∀ a b i, chip_unique_ids (tables d) !! a = Some i → chip_unique_ids (tables d) !! b = Some i → a = b
}.

Lemma listed_is_int entries c : listed entries c → is_int c.
Proof. intros (e & _ & He). by eapply as_int_range. Qed.

Lemma load_unique_ids_synthetic entries node d t :
  chips_loaded entries d → load_unique_ids node (all_chips d) (tables d) = Ok t →
  chip_arch t = chip_arch (tables d) ∧ chip_to_bus_id t = ∅ ∧ chip_pci_bdfs t = ∅ ∧ asic_locations t = ∅ ∧
  (IsDefined node = false → dom (chip_unique_ids t) = all_chips d ∧
    ∀ a b i, chip_unique_ids t !! a = Some i → chip_unique_ids t !! b = Some i → a = b).
Proof.
  intros [Hc Ha _ [arch Hf]]. unfold load_unique_ids.
  assert (chip_unique_ids (tables d) = ∅) as Hemp by (by rewrite Hf).
  assert (∀ ids au, chip_to_bus_id (set_unique_ids ids au (tables d)) = ∅ ∧ chip_pci_bdfs (set_unique_ids ids au (tables d)) = ∅
    ∧ asic_locations (set_unique_ids ids au (tables d)) = ∅) as Hrest by (intros; by rewrite Hf).
  destruct (IsDefined node); intros Hs; [result_steps Hs; injection Hs as <-|injection Hs as <-].
  - split; [done|]. split_and!; try apply Hrest. done.
  - split; [done|]. split_and!; try apply Hrest. intros _. cbn [chip_unique_ids set_unique_ids].
    assert (∀ c, foldl (λ m chip, map_insert_new chip (synthetic_id chip) m) (chip_unique_ids (tables d))
      (set_iter (all_chips d)) !! c = if decide (c ∈ all_chips d) then Some (synthetic_id c) else None) as Hl.
    { intros c. rewrite synthetic_ids_lookup by done. by apply decide_ext, elem_of_set_iter. }
    split.
    + apply set_eq. intros c. rewrite elem_of_dom, Hl. case_decide; [naive_solver|]. split; [by intros [? ?]|done].
    + intros a b i. rewrite !Hl. repeat case_decide; try done. intros [= <-] [= Hi]. symmetry in Hi.
      apply synthetic_id_inj; [| |done]; eapply listed_is_int, Hc; done.
Qed.

Lemma load_chips_spec yaml d :
  load_chips_from_connectivity_descriptor yaml empty_descriptor = Ok d → loaded yaml d.
Proof.
  unfold load_chips_from_connectivity_descriptor. intros Hs.
  destruct (for_each _ add_chip_arch _) as [d1|] eqn:Ha; cbn [mbind result_bind] in Hs; [|done].
  apply load_archs in Ha. pose proof Ha as [Hc Hd Hl [arch Hf]].
  destruct (for_each _ add_location _) as [p|]; cbn [mbind result_bind] in Hs; [|done].
  destruct (for_each _ add_mmio_chip _) as [m|]; cbn [mbind result_bind] in Hs; [|done].
  destruct (load_boards _ _) as [b|] eqn:Hb; cbn [mbind result_bind] in Hs; [|done].
  apply load_boards_ok in Hb; [|rewrite Hf; apply boards_ok_empty].
  destruct (load_unique_ids _ _ _) as [t|] eqn:Ht; cbn [mbind result_bind] in Hs; [|done].
  apply (load_unique_ids_synthetic _ _ _ _ Ha) in Ht as (Harch & Hbus0 & Hbdf0 & Hasic0 & Hids).
  destruct (load_bus_ids _ _) as [bus|] eqn:Hbus; cbn [mbind result_bind] in Hs; [|done].
  apply load_bus_ids_range in Hbus; [|rewrite Hbus0; apply map_Forall_empty].
  destruct (load_asic_locations _ _) as [asic|] eqn:Hasic; cbn [mbind result_bind] in Hs; [|done].
  apply load_asic_locations_range in Hasic; [|rewrite Hasic0; apply map_Forall_empty].
  destruct (load_bdfs _ _ _) as [bdfs|] eqn:Hbdf; cbn [mbind result_bind] in Hs; [|done].
  apply load_bdfs_mmio in Hbdf; [|rewrite Hbdf0; apply map_Forall_empty].
  injection Hs as <-. split; try done.
  - cbn. by rewrite Harch.
  - cbn. by rewrite Hf.
  - intros c [bdf Hc']. apply bool_decide_eq_true. apply (Hbdf _ _ Hc').
  - intros c. unfold get_bus_id; cbn -[Z.pow]. destruct (bus !! c) as [z|] eqn:E; [by apply (Hbus _ _ E)|simpl; lia].
  - intros c. unfold get_asic_location; cbn -[Z.pow]. destruct (asic !! c) as [z|] eqn:E; [by apply (Hasic _ _ E)|simpl; lia].
Qed.

(** A descriptor that loads has exactly the chips of the arch section, each
    with an architecture and no links yet; its two board maps are inverse; only
    MMIO capable chips have a BDF; bus ids and ASIC locations are in the range
    of their types; and without ids of their own in the document, chips get
    different synthetic ids. *)
Lemma load_chips_correct yaml d :
  load_chips_from_connectivity_descriptor yaml empty_descriptor = Ok d → loaded yaml d.
Proof. apply load_chips_spec. Qed.
End theory.

(** ** A document with two chips of one board *)

Definition two_chip_yaml : document :=
  DMap [(DText "arch", DMap [(DInt 0, DText "wormhole_b0"); (DInt 1, DText "Wormhole_B0")]);
        (DText "chips", DMap [(DInt 0, DSequence [DInt 0; DInt 0; DInt 0; DInt 0]);
                              (DInt 1, DSequence [DInt 1; DInt 0; DInt 0; DInt 0])]);
        (DText "chips_with_mmio", DSequence [DMap [(DInt 0, DInt 0)]]);
        (DText "boards", DSequence [DSequence [DMap [(DText "board_id", DInt 0x14000000000)];
                                               DMap [(DText "board_type", DText "n300")];
                                               DMap [(DText "chips", DSequence [DInt 0; DInt 1])]]]);
        (DText "chip_to_bus_id", DMap [(DInt 0, DText "0x00b1")]);
        (DText "ethernet_connections", DSequence [DSequence [endpoint 0 8; endpoint 1 0]])].

Definition two_chip_loaded : ClusterDescriptor :=
  match @load_chips_from_connectivity_descriptor sorted_order doc_yaml two_chip_yaml empty_descriptor with
  | Ok d => d
  | Err _ => empty_descriptor
  end.

Lemma load_chips_correct_witness : @loaded doc_yaml two_chip_yaml two_chip_loaded.
Proof. apply (@load_chips_correct sorted_order sorted_order_laws doc_yaml doc_yaml_laws). by vm_compute. Defined.
