(* ===== verification/DescriptorCreate.v ===== *)
(** * DescriptorCreate

    [create_from_yaml_content] of [cluster_descriptor.cpp], and the checks it
    ends with: verify_same_architecture, verify_harvesting_information,
    verify_cluster_descriptor_info. *)

From Stdlib Require Import ZArith Lia.
From stdpp Require Import base list numbers strings gmap sets.
From S2P Require Import Prelude CoreTypes Harvesting SemVer BoardTypes ClusterState ClusterBoards TextUtils EthConnections LoadChips.

Local Open Scope Z_scope.

Section create.
Context `{Unordered}.

(** ** Verification *)

(** [std::all_of], with a predicate that may throw. *)
Fixpoint all_of (f : Z → result bool) (l : list Z) : result bool :=
  match l with
  | [] => Ok true
  | x :: l => b ← f x; if (b : bool) then all_of f l else Ok false
  end.

Definition verify_same_architecture (d : ClusterDescriptor) : result bool :=
  match set_iter (all_chips d) with
  | [] => Ok true
  | first :: _ =>
      arch ← get_arch_of d first;
      if decide (arch = Invalid) then throw "Chip has invalid architecture."
      else
        all_same_arch ← all_of (λ chip_id, a ← get_arch_of d chip_id; Ok (bool_decide (a = arch))) (set_iter (all_chips d));
        if (all_same_arch : bool) then Ok true
        else throw "Chips with differing architectures detected. This is unsupported."
  end.

(** The expected number of harvested units of a board. *)
Definition expected_units (table : list (BoardType * Z)) (b : BoardType) : Z := default 0 (assoc b table).

(** A mismatch is logged with the board's name, which may throw. *)
Definition report_mismatch (b : BoardType) : result bool := _ ← board_type_to_string b; Ok false.

Definition verify_chip_harvesting (d : ClusterDescriptor) (chip : Z) (good : bool) : result bool :=
  let masks := get_harvesting_masks d chip in
  board_type ← get_board_type d chip;
  let actual := get_num_harvested (tensix_harvesting_mask masks) in
  good ←
    (if expected_units expected_tensix_harvested_units_map board_type =? actual then Ok good
     else
       let is_fw_older_than_19_5 :=
         match fw_bundle_version d with None => true | Some v => bundle_ltb v (MkSemVer 19 5 0 0) end in
       if bool_decide (board_type = P150) && is_fw_older_than_19_5 && (actual =? 0) then Ok good
       else report_mismatch board_type);
  good ←
    (if expected_units expected_dram_harvested_units_map board_type =? get_num_harvested (dram_harvesting_mask masks)
     then Ok good else report_mismatch board_type);
  if expected_units expected_eth_harvested_units_map board_type =? get_num_harvested (eth_harvesting_mask masks)
  then Ok good else report_mismatch board_type.

Definition verify_harvesting_information (d : ClusterDescriptor) : result bool :=
  for_each (set_iter (all_chips d)) (verify_chip_harvesting d) true.

Definition verify_cluster_descriptor_info (check_board_chip_count : bool) (d : ClusterDescriptor) : result bool :=
  boards_good ← verify_board_info_for_chips check_board_chip_count d;
  arch_good ← verify_same_architecture d;
  harvesting_good ← verify_harvesting_information d;
  Ok (boards_good && arch_good && harvesting_good).

(** ** Creation *)

Context `{YAML}.

(** The loop of the union-find search that would not end has no effect, which
    C++ leaves undefined. *)
Definition create_from_yaml_content (yaml : Node) : result ClusterDescriptor :=
  d ← load_chips_from_connectivity_descriptor yaml empty_descriptor;
  d ← load_harvesting_information yaml d;
  d ← load_ethernet_connections_from_connectivity_descriptor yaml d;
  d ← (match merge_cluster_ids d with Some d => Ok d | None => Err UndefinedBehaviour end);
  d ← fill_chips_grouped_by_closest_mmio d;
  _ ← verify_cluster_descriptor_info true d;
  Ok d.

End create.

(** ** The checks *)

Section checks.
Context `{UnorderedLaws}.

Lemma all_of_true f l : all_of f l = Ok true ↔ ∀ x, x ∈ l → f x = Ok true.
Proof.
  induction l as [|x l IH]; cbn [all_of].
  - split; [set_solver|done].
  - destruct (f x) as [[|]|e] eqn:E; cbn [mbind result_bind].
    + rewrite IH. split; [intros Hl y [->|?]%elem_of_cons; auto|set_solver].
    + split; [done|]. intros Hl. specialize (Hl x ltac:(set_solver)). congruence.
    + split; [done|]. intros Hl. specialize (Hl x ltac:(set_solver)). congruence.
Qed.

(** The chips have one valid architecture. *)
Definition same_architecture (d : ClusterDescriptor) : Prop :=
  all_chips d = ∅ ∨ ∃ arch, arch ≠ Invalid ∧ ∀ c, c ∈ all_chips d → get_arch_of d c = Ok arch.

Lemma verify_same_architecture_spec d : is_Ok (verify_same_architecture d) ↔ same_architecture d.
Proof.
  unfold verify_same_architecture, same_architecture.
  destruct (set_iter (all_chips d)) as [|first rest] eqn:E.
  { split; [intros _; left|by eexists]. apply set_eq. intros c. rewrite <- elem_of_set_iter, E. set_solver. }
  assert (∀ c, c ∈ first :: rest ↔ c ∈ all_chips d) as Hin by (intros c; by rewrite <- E, elem_of_set_iter).
  assert (first ∈ all_chips d) as Hfirst by (apply Hin; set_solver). split.
  - intros [r Hr]. destruct (get_arch_of d first) as [arch|] eqn:Ha; cbn [mbind result_bind] in Hr; [|done].
    case_decide; [done|]. right. exists arch. split; [done|].
    destruct (all_of _ _) as [b|] eqn:Hall; cbn [mbind result_bind] in Hr; [|done]. destruct b; [|done].
    intros c Hc. apply Hin in Hc. pose proof (proj1 (all_of_true _ _) Hall c Hc) as H'. cbn beta in H'.
    destruct (get_arch_of d c) as [a|]; [|done]. cbn [mbind result_bind] in H'. injection H' as H'.
    by apply bool_decide_eq_true in H' as ->.
  - intros [He|(arch & Hne & Hall)]; [set_solver|]. rewrite (Hall first Hfirst). cbn [mbind result_bind].
    rewrite decide_False by done. eexists.
    rewrite (proj2 (all_of_true _ _)); [done|]. intros c Hc%Hin. rewrite (Hall c Hc). cbn. by rewrite bool_decide_eq_true_2.
Qed.
End checks.

(** ** What every created descriptor satisfies *)

Section wellformed.
Context `{UnorderedLaws} `{YAML} `{!YAMLLaws}.

Lemma load_harvesting_frame yaml d d' :
  load_harvesting_information yaml d = Ok d' → ∃ en m, d' = set_tables (set_harvesting en m (tables d)) d.
Proof.
  unfold load_harvesting_information. destruct (IsDefined _); intros Hs.
  - result_steps Hs. injection Hs as <-.
    match goal with E : for_each _ load_chip_harvesting _ = Ok ?t |- _ =>
      assert (∃ en m, t = set_harvesting en m (tables d)) as (en & m & ->) end; [|by exists en, m].
    eapply (for_each_preserves (λ _ t, ∃ en m, t = set_harvesting en m (tables d))); [eassumption| |].
    + exists (noc_translation_enabled (tables d)), (harvesting_masks_map (tables d)). by destruct (tables d).
    + intros _ [chip info] _ t t' _ (en & m & ->) Hc. unfold load_chip_harvesting in Hc. result_steps Hc.
      injection Hc as <-. by eexists _, _.
  - injection Hs as <-. exists (noc_translation_enabled (tables d)), (harvesting_masks_map (tables d)).
    by destruct d as [? ? []].
Qed.

(** The counts and links a successful load of the links has read. *)
Lemma load_links_inv yaml d d' :
  fresh_links d → load_ethernet_connections_from_connectivity_descriptor yaml d = Ok d' →
  ∃ n L R l, d' = set_links l d ∧ links_of (all_chips d) n L R l.
Proof.
  intros Hf Hs.
  pose proof Hs as Hs'. unfold load_ethernet_connections_from_connectivity_descriptor in Hs'.
  destruct (IsSequence _) eqn:Hseq; cbn [umd_assert mbind result_bind] in Hs'; [|done].
  destruct (for_each _ (preload_idle d) _) as [l0|] eqn:Hpre; cbn [mbind result_bind] in Hs'; [|done].
  destruct (as_nodes _) as [nodes|] eqn:Hnodes; cbn [mbind result_bind] in Hs'; [|done].
  destruct (for_each nodes _ _) as [l1|] eqn:Hloop; cbn [mbind result_bind] in Hs'; [|done].
  set (n := λ chip, match channel_count d chip with Ok k => k | Err _ => 0 end).
  assert (∀ chip, chip ∈ all_chips d → channel_count d chip = Ok (n chip)) as Hn.
  { intros chip Hc. apply elem_of_set_iter in Hc. revert Hc.
    apply (for_each_preserves (λ visited _, ∀ c, c ∈ visited → channel_count d c = Ok (n c)) _ _ _ _ Hpre).
    - set_solver.
    - intros visited c _ s s' _ IH Hc k [?|Hk]%elem_of_app; [by apply IH|].
      apply list_elem_of_singleton in Hk as ->. unfold preload_idle in Hc. unfold n.
      by destruct (channel_count d c). }
  assert (∃ L, Forall2 (λ node link, parse_link node = Ok link) nodes L) as [L HL].
  { clear -Hloop. revert l0 Hloop. induction nodes as [|node nodes IH]; intros l0 Hl; [by exists []|]. cbn [for_each] in Hl.
    destruct (parse_link node) as [[a b]|] eqn:Hp; cbn [mbind result_bind] in Hl; [|done].
    destruct (connect a b l0) as [l2|]; cbn [mbind result_bind] in Hl; [|done].
    destruct (IH l2 Hl) as [L HL]. exists ((a, b) :: L). by constructor. }
  assert (∃ R, remote_links yaml R) as [R HR].
  { unfold load_remote_links in Hs'. unfold remote_links. destruct (IsDefined _); [|by exists []].
    destruct (as_nodes (y_get yaml "ethernet_connections_to_remote_devices")) as [rn|]; cbn [mbind result_bind] in Hs'; [|done].
    destruct (for_each rn _ _) as [l2|] eqn:Hr; cbn [mbind result_bind] in Hs'; [|done].
    clear -Hr. cut (∃ R, Forall2 (λ node link, parse_remote_link node = Ok link) rn R).
    { intros [R HF]. by exists R, rn. }
    revert l1 Hr. induction rn as [|node rn IH]; intros l1 Hl; [by exists []|]. cbn [for_each] in Hl.
    destruct (parse_remote_link node) as [[a b]|] eqn:Hp; cbn [mbind result_bind] in Hl; [|done].
    destruct (IH _ Hl) as [R HF]. exists ((a, b) :: R). by constructor. }
  destruct (load_links_spec d n yaml nodes L R Hf Hn Hseq Hnodes HL HR) as [_ Hres].
  destruct (Hres d' Hs) as (l & -> & Hl). by exists n, L, R, l.
Qed.

Lemma merge_cluster_ids_frame d d' : merge_cluster_ids d = Some d' → ∃ p, d' = set_placement p d.
Proof.
  unfold merge_cluster_ids. intros Hm. apply bind_Some in Hm as (sets & _ & Hm).
  apply bind_Some in Hm as ([s locs] & _ & [= <-]). by eexists.
Qed.

(** What grouping has done after visiting some chips, wherever it succeeds. *)
Record groups_ok (d0 : ClusterDescriptor) (visited : list Z) (d : ClusterDescriptor) : Prop := {
  go_frame : ∃ g k, d = set_grouped g (set_cache k d0);
  go_cache : cache_ok d;
  go_members : ∀ m c, c ∈ set_at m (chips_grouped_by_closest_mmio d) →
    c ∈ visited ∧ if is_chip_mmio_capable d0 c then m = c else mmio_on_board d0 c m;
  go_grouped : ∀ c, c ∈ visited → is_chip_mmio_capable d0 c = true ∨ chip_locations (placement d0) ≠ ∅ →
    ∃ m, c ∈ set_at m (chips_grouped_by_closest_mmio d)
}.

Lemma groups_insert d0 visited d d1 c m :
  groups_ok d0 visited d → (∃ k, d1 = set_cache k d) → cache_ok d1 →
  (if is_chip_mmio_capable d0 c then m = c else mmio_on_board d0 c m) →
  groups_ok d0 (visited ++ [c]) (set_grouped (map_set_insert m c (chips_grouped_by_closest_mmio d)) d1).
Proof.
  intros [(g & k & Hf) Hc Hm Hg] [k1 ->] Hc1 Hcase. split.
  - eexists _, k1. rewrite Hf. cbn. reflexivity.
  - exact Hc1.
  - intros m' c'. cbn [chips_grouped_by_closest_mmio set_grouped]. rewrite elem_of_map_set_insert, elem_of_app, list_elem_of_singleton.
    intros [[-> ->]|[Hin ?]%Hm]; [split; [by right|done]|split; [by left|done]].
  - intros c' Hin Hcond. cbn [chips_grouped_by_closest_mmio set_grouped]. setoid_rewrite elem_of_map_set_insert.
    apply elem_of_app in Hin as [Hin|Hin]; [destruct (Hg c' Hin Hcond) as [m' Hm']; exists m'; by right|].
    apply list_elem_of_singleton in Hin as ->. exists m. by left.
Qed.

Lemma group_chip_ok d0 visited c d d' :
  groups_ok d0 visited d → group_chip c d = Ok d' → groups_ok d0 (visited ++ [c]) d'.
Proof.
  intros Hd Hs. pose proof Hd as [(g & k & Hf) Hc Hm Hg].
  assert (is_chip_mmio_capable d c = is_chip_mmio_capable d0 c) as Hmm by (by rewrite Hf).
  unfold group_chip in Hs. destruct (is_chip_mmio_capable d c) eqn:Hcap.
  - injection Hs as <-. apply (groups_insert d0 visited d d c c Hd); [|done|by rewrite <- Hmm].
    exists (closest_mmio_chip_cache d). by destruct d.
  - case_bool_decide as Hloc.
    + injection Hs as <-. split; [by exists g, k|done| |].
      * intros m c' [? ?]%Hm. split; [set_solver|done].
      * intros c' Hin Hcond. apply elem_of_app in Hin as [Hin|Hin]; [by apply Hg|].
        apply list_elem_of_singleton in Hin as ->. rewrite Hf in Hloc. destruct Hcond; [congruence|done].
    + pose proof (get_closest_spec d c Hc) as Hspec. rewrite Hcap in Hspec.
      destruct (get_closest_mmio_capable_chip c d) as [[m d1]|]; cbn [mbind result_bind] in Hs; [|done].
      injection Hs as <-. destruct Hspec as ([Hmb _] & Hc1 & Hd1 & _).
      assert (chips_grouped_by_closest_mmio d1 = chips_grouped_by_closest_mmio d) as -> by (by rewrite Hd1).
      apply groups_insert; [done|by eexists|done|]. rewrite <- Hmm. by rewrite Hf in Hmb.
Qed.

Lemma fill_groups_ok d d' :
  cache_ok d → chips_grouped_by_closest_mmio d = ∅ → fill_chips_grouped_by_closest_mmio d = Ok d' →
  groups_ok d (set_iter (all_chips d)) d'.
Proof.
  intros Hc Hg Hs. apply (for_each_preserves (groups_ok d) _ _ _ _ Hs).
  - split; [|done| |].
    + exists (chips_grouped_by_closest_mmio d), (closest_mmio_chip_cache d). by destruct d.
    + intros m c. rewrite Hg, set_at_empty. set_solver.
    + intros c []%not_elem_of_nil.
  - intros visited c _ s s' _. apply group_chip_ok.
Qed.

(** A well-formed descriptor. *)
Record descriptor_ok (d : ClusterDescriptor) : Prop := {
  dk_arch : same_architecture d;
  dk_symmetric : ∀ a b, connection (ethernet_connections (links d)) a = Some b →
    connection (ethernet_connections (links d)) b = Some a;
  dk_known : ∀ a b, connection (ethernet_connections (links d)) a = Some b → a.1 ∈ all_chips d;
  dk_active : ∀ a b, connection (ethernet_connections (links d)) a = Some b → u32 a.2 ∈ get_active_eth_channels d a.1;
  dk_idle : ∀ c, get_active_eth_channels d c ∩ get_idle_eth_channels d c = ∅;
  dk_boards : boards_ok (boards d);
  dk_members : ∀ m c, c ∈ set_at m (chips_grouped_by_closest_mmio d) →
    c ∈ all_chips d ∧ if is_chip_mmio_capable d c then m = c else mmio_on_board d c m;
  dk_grouped : ∀ c, c ∈ all_chips d → is_chip_mmio_capable d c = true ∨ chip_locations (placement d) ≠ ∅ →
    ∃ m, c ∈ set_at m (chips_grouped_by_closest_mmio d)
}.

(** C39: Every descriptor [create_from_yaml_content] returns is well formed: all
    its chips have the same valid architecture, its links are symmetric and
    between its chips, a linked channel is active and no channel is both active
    and idle, the board maps are inverse, and the chips are grouped by an MMIO
    capable chip of their board. *)
Theorem create_from_yaml_content_ok yaml d : create_from_yaml_content yaml = Ok d → descriptor_ok d.
Proof.
  unfold create_from_yaml_content. intros Hs.
  destruct (load_chips_from_connectivity_descriptor _ _) as [d1|] eqn:E1; cbn [mbind result_bind] in Hs; [|done].
  apply load_chips_spec in E1 as [_ _ Hfresh Hboards [Hg Hcache] _ _ _ _].
  destruct (load_harvesting_information _ _) as [d2|] eqn:E2; cbn [mbind result_bind] in Hs; [|done].
  apply load_harvesting_frame in E2 as (en & m & ->).
  destruct (load_ethernet_connections_from_connectivity_descriptor _ _) as [d3|] eqn:E3; cbn [mbind result_bind] in Hs; [|done].
  apply load_links_inv in E3 as (n & L & R & l & -> & Hl); [|exact Hfresh].
  destruct (merge_cluster_ids _) as [d4|] eqn:E4; cbn [mbind result_bind] in Hs; [|done].
  apply merge_cluster_ids_frame in E4 as [p ->].
  destruct (fill_chips_grouped_by_closest_mmio _) as [d5|] eqn:E5; cbn [mbind result_bind] in Hs; [|done].
  destruct (verify_cluster_descriptor_info _ _) as [v|] eqn:E6; cbn [mbind result_bind] in Hs; [|done].
  injection Hs as <-. apply fill_groups_ok in E5; [|by apply cache_ok_empty|done].
  destruct E5 as [(g & k & ->) _ Hm Hgr]. pose proof (lsf_connection _ _ _ _ _ Hl) as Hcon.
  split.
  - apply verify_same_architecture_spec. unfold verify_cluster_descriptor_info in E6. result_steps E6.
    by eexists.
  - intros a b Hab. apply Hcon, ends_sym, Hcon, Hab.
  - intros a b Hab%Hcon. eapply (lsf_consistent _ _ _ _ _ Hl); done.
  - intros a b Hab%Hcon. unfold get_active_eth_channels. apply (lsf_active _ _ _ _ _ Hl).
    destruct a as [c h]. exists h, b. split; [by left|done].
  - intros c. apply set_eq. intros x. rewrite elem_of_intersection. unfold get_active_eth_channels, get_idle_eth_channels.
    cbn [links set_grouped set_cache set_placement set_links]. rewrite (lsf_idle _ _ _ _ _ Hl). set_solver.
  - exact Hboards.
  - intros m' c [Hin Hc]%Hm. split; [|done]. by apply elem_of_set_iter in Hin.
  - intros c Hin Hcond. apply Hgr; [by apply elem_of_set_iter|done].
Qed.
End wellformed.

Definition two_chip_descriptor : ClusterDescriptor :=
  match @create_from_yaml_content sorted_order doc_yaml two_chip_yaml with Ok d => d | Err _ => empty_descriptor end.

Lemma create_from_yaml_content_ok_witness : descriptor_ok two_chip_descriptor.
Proof.
  apply (@create_from_yaml_content_ok sorted_order sorted_order_laws doc_yaml doc_yaml_laws two_chip_yaml).
  by vm_compute.
Defined.
