(* ===== verification/ConstrainedDescriptor.v ===== *)
(** * ConstrainedDescriptor

    [create_constrained_cluster_descriptor] of [cluster_descriptor.cpp]: the
    cluster restricted to some visible chips, and [apply_chip_id_remapping],
    which renumbers them from 0. The restriction is proved to be an isomorphic
    copy of the visible part of the cluster.

    The nested loops over the links of all chips are loops over [flat_links],
    the links in the order the two loops visit them. *)

From Stdlib Require Import ZArith Lia.
From stdpp Require Import base list numbers strings gmap sets.
From S2P Require Import Prelude CoreTypes ClusterState TextUtils Harvesting BoardTypes ClusterBoards EthConnections LoadChips DescriptorCreate.


(** ** Visible devices

    [get_target_chip_ids_from_visible_devices] of [cluster_descriptor.cpp]: the
    chips the TT_VISIBLE_DEVICES variable selects, by chip id or by PCI
    bus/device/function (BDF). *)

Local Open Scope Z_scope.

Section visible.
Context `{Unordered}.

(** The chips of one token, added to the ones found so far. *)
Definition add_token (d : ClusterDescriptor) (device_token : string) (target_chip_ids : gset Z) : result (gset Z) :=
  if is_bdf_string device_token then
    let matching := List.filter (λ '(_, bdf), bool_decide (bdf = device_token)) (map_iter (chip_pci_bdfs (tables d))) in
    match matching with
    | [] => throw "Invalid BDF in TT_VISIBLE_DEVICES"
    | _ => Ok (foldl (λ s '(chip, _), {[chip]} ∪ s) target_chip_ids matching)
    end
  else if is_integer_string device_token then
    id ← stoi device_token;
    if bool_decide (id ∈ all_chips d) then Ok ({[id]} ∪ target_chip_ids)
    else throw "Invalid chip ID in TT_VISIBLE_DEVICES"
  else throw "Invalid device identifier in TT_VISIBLE_DEVICES".

(** [None]: the variable is not set. *)
Definition get_target_chip_ids_from_visible_devices (env : option string) (d : ClusterDescriptor) : result (gset Z) :=
  match env with
  | None | Some EmptyString => Ok (all_chips d)
  | Some tt_visible_devices_str => for_each (split_string_by_comma tt_visible_devices_str) (add_token d) ∅
  end.

End visible.

(** The chips a token names. *)
Definition names (d : ClusterDescriptor) (token : string) (chip : Z) : Prop :=
  if is_bdf_string token then chip_pci_bdfs (tables d) !! chip = Some token
  else is_integer_string token = true ∧ stoi token = Ok chip ∧ chip ∈ all_chips d.

Section theory.
Context `{UnorderedLaws}.

Lemma foldl_insert {V} (l : list (Z * V)) (s : gset Z) x :
  x ∈ foldl (λ s '(chip, _), {[chip]} ∪ s) s l ↔ x ∈ s ∨ ∃ v, (x, v) ∈ l.
Proof.
  revert s. induction l as [|[chip v] l IH]; intros s; cbn [foldl]; [set_solver|]. rewrite IH. set_solver.
Qed.

Lemma add_token_spec d token s :
  match add_token d token s with
  | Ok s' => (∃ c, names d token c) ∧ ∀ c, c ∈ s' ↔ names d token c ∨ c ∈ s
  | Err _ => ¬ ∃ c, names d token c
  end.
Proof.
  unfold add_token, names. destruct (is_bdf_string token).
  - assert (∀ c bdf, (c, bdf) ∈ List.filter (λ '(_, bdf), bool_decide (bdf = token)) (map_iter (chip_pci_bdfs (tables d)))
      ↔ bdf = token ∧ chip_pci_bdfs (tables d) !! c = Some bdf) as Hm.
    { intros c bdf. rewrite list_elem_of_In, List.filter_In, <- list_elem_of_In, elem_of_map_iter, bool_decide_eq_true. tauto. }
    destruct (List.filter _ _) as [|[c0 b0] l] eqn:E.
    + intros [c Hc]. assert ((c, token) ∈ ([] : list (Z * string))) as []%not_elem_of_nil by (by apply Hm).
    + split.
      * exists c0. destruct (proj1 (Hm c0 b0)) as [-> ?]; [set_solver|done].
      * intros c. rewrite foldl_insert. setoid_rewrite Hm. split; [intros [?|(v & -> & ?)]; auto|].
        intros [?|?]; [right; by exists token|by left].
  - destruct (is_integer_string token).
    + destruct (stoi token) as [id|]; cbn [mbind result_bind]; [|by intros (c & _ & ? & _)].
      case_bool_decide as Hid.
      * split; [by exists id|]. intros c. rewrite elem_of_union, elem_of_singleton. naive_solver.
      * intros (c & _ & [= <-] & ?). done.
    + by intros (c & ? & _).
Qed.

(** The selection of a non-empty TT_VISIBLE_DEVICES is the chips its tokens
    name, by id or by BDF; it throws exactly when a token names no chip. Without
    the variable every chip is selected. *)
Lemma visible_devices_correct d env :
  match env with
  | None | Some EmptyString => get_target_chip_ids_from_visible_devices env d = Ok (all_chips d)
  | Some text =>
      match get_target_chip_ids_from_visible_devices env d with
      | Ok s => (∀ t, t ∈ split_string_by_comma text → ∃ c, names d t c) ∧
                ∀ c, c ∈ s ↔ ∃ t, t ∈ split_string_by_comma text ∧ names d t c
      | Err _ => ∃ t, t ∈ split_string_by_comma text ∧ ¬ ∃ c, names d t c
      end
  end.
Proof.
  destruct env as [[|c text]|]; [done| |done]. unfold get_target_chip_ids_from_visible_devices.
  generalize (split_string_by_comma (String c text)). intros tokens.
  induction tokens as [|t tokens IH] using rev_ind; [cbn; set_solver|]. rewrite for_each_app.
  destruct (for_each tokens _ _) as [s|]; cbn [mbind result_bind].
  2:{ destruct IH as (t' & ? & ?). exists t'. split; [set_solver|done]. }
  cbn [for_each]. pose proof (add_token_spec d t s) as Hs.
  destruct (add_token d t s) as [s'|]; cbn [mbind result_bind].
  - destruct IH as [IH1 IH2], Hs as [Hs1 Hs2]. split.
    + intros t' [?|Ht]%elem_of_app; [by apply IH1|]. by apply list_elem_of_singleton in Ht as ->.
    + intros c'. rewrite Hs2, IH2. setoid_rewrite elem_of_app. setoid_rewrite list_elem_of_singleton. naive_solver.
  - exists t. split; [set_solver|done].
Qed.
End theory.

(** Three chips, the second of them with a BDF. *)
Definition three_chips : ClusterDescriptor :=
  MkDesc {[0; 1; 2]} {[0 := 0; 1 := 1]} (MkTables ∅ ∅ false ∅ ∅ {[1 := "0000:02:00.0"]} ∅ ∅) empty_placement empty_boards
    empty_links ∅ ∅ PCIe None None.

Lemma visible_devices_correct_witness :
  ∃ s, @get_target_chip_ids_from_visible_devices sorted_order (Some "0000:02:00.0, 2") three_chips = Ok s ∧ 1 ∈ s ∧ 0 ∉ s.
Proof.
  pose proof (@visible_devices_correct sorted_order sorted_order_laws three_chips (Some "0000:02:00.0, 2")) as H.
  cbv beta iota in H. change (split_string_by_comma "0000:02:00.0, 2") with ["0000:02:00.0"; "2"] in H.
  assert (names three_chips "0000:02:00.0" 1) as H1 by (by vm_compute).
  assert (names three_chips "2" 2) as H2 by (split_and!; [done|done|apply (bool_decide_unpack _); by vm_compute]).
  destruct (get_target_chip_ids_from_visible_devices _ _) as [s|e].
  - exists s. destruct H as [_ H]. split; [done|]. rewrite !H. split.
    + exists "0000:02:00.0". split; [set_solver|done].
    + intros (t & [->|[->|[]%not_elem_of_nil]%elem_of_cons]%elem_of_cons & Hn); [by vm_compute in Hn|].
      by destruct Hn as (_ & [=] & _).
  - destruct H as (t & [->|[->|[]%not_elem_of_nil]%elem_of_cons]%elem_of_cons & []); [by exists 1|by exists 2].
Defined.
Local Open Scope Z_scope.

(** [m[a.1][a.2] = b]. *)
Definition put (a b : Z * Z) (m : gmap Z ChannelLinks) : gmap Z ChannelLinks :=
  <[a.1 := <[a.2 := b]> (default ∅ (m !! a.1))]> m.

Section constrain.
Context `{Unordered}.

Definition flat_links (m : gmap Z ChannelLinks) : list ((Z * Z) * (Z * Z)) :=
  '(chip, channels) ← map_iter m; map (λ '(h, b), ((chip, h), b)) (map_iter (channels : ChannelLinks)).

(** ** The visible chips *)

(** Whether the chips of the same boards become visible too: not if a visible
    chip is on a board of more than two. *)
Fixpoint expand_to_same_boards (b : Boards) (chips : list Z) : result bool :=
  match chips with
  | [] => Ok true
  | chip :: chips =>
      board_id ← get_board_id_for_chip b chip;
      on_board ← get_board_chips b board_id;
      if (2 <? size (on_board : gset Z))%nat then Ok false else expand_to_same_boards b chips
  end.

Definition get_visible_chips (target_chip_ids : gset Z) (env : option string) (full : ClusterDescriptor) : result (gset Z) :=
  visible ← (if bool_decide (target_chip_ids ≠ ∅) then Ok target_chip_ids
             else get_target_chip_ids_from_visible_devices env full);
  if bool_decide (chip_to_board_id (boards full) = ∅) then Ok visible
  else
    expand ← expand_to_same_boards (boards full) (set_iter visible);
    if (expand : bool) then get_chips_from_same_boards (boards full) visible else Ok visible.

(** ** Filtering *)

(** [filter_chip_collection], of a map and of a set. *)
Definition filter_chips {V} (chips : gset Z) (m : gmap Z V) : gmap Z V := filter (λ kv, kv.1 ∈ chips) m.

(** One link of the full cluster: kept, turned into a link to a device outside
    the cluster, or dropped. *)
Definition filter_link (visible : gset Z) (unique_ids : gmap Z Z) (s : gmap Z ChannelLinks * gmap Z ChannelLinks)
    (link : (Z * Z) * (Z * Z)) : gmap Z ChannelLinks * gmap Z ChannelLinks :=
  let '(conns, remote) := s in
  let '(a, b) := link in
  if negb (bool_decide (a.1 ∈ visible)) then (conns, remote)
  else if bool_decide (b.1 ∈ visible) then (put a b conns, remote)
  else (conns, put a (default (u64 b.1) (unique_ids !! b.1), b.2) remote).

Definition filter_links (visible : gset Z) (unique_ids : gmap Z Z) (l : EthLinks) : EthLinks :=
  let '(conns, remote) := foldl (filter_link visible unique_ids) (∅, ∅) (flat_links (ethernet_connections l)) in
  let remote := foldl (λ m '(a, b), if bool_decide (a.1 ∈ visible) then put a b m else m) remote
                  (flat_links (ethernet_connections_to_remote_devices l)) in
  MkLinks conns remote (filter_chips visible (active_eth_channels l)) (filter_chips visible (idle_eth_channels l)).

(** [board_to_chips[board_id].insert(chip_id)] for every chip with a board. *)
Definition rebuild_boards (m : gmap Z Z) : gmap Z (gset Z) :=
  foldl (λ b '(chip_id, board_id), map_set_insert board_id chip_id b) ∅ (map_iter m).

Definition filter_tables (visible : gset Z) (t : ChipTables) : ChipTables :=
  MkTables (filter_chips visible (chip_arch t)) (filter_chips visible (chip_unique_ids t)) (authentic_chip_unique_ids t)
    (filter_chips visible (noc_translation_enabled t)) (filter_chips visible (chip_to_bus_id t))
    (filter_chips visible (chip_pci_bdfs t)) (filter_chips visible (harvesting_masks_map t))
    (filter_chips visible (asic_locations t)).

(** The descriptor built before renumbering. *)
Definition filter_descriptor (visible : gset Z) (full : ClusterDescriptor) : ClusterDescriptor :=
  let chip_boards := filter_chips visible (chip_to_board_id (boards full)) in
  MkDesc (all_chips full ∩ visible) (filter_chips visible (chips_with_mmio full))
    (filter_tables visible (tables full))
    (MkPlacement (filter_chips visible (chip_locations (placement full)))
       (filter (λ kv, kv.2 ∈ visible) (coords_to_chip_ids (placement full))))
    (MkBoards chip_boards (rebuild_boards chip_boards) (filter_chips visible (chip_board_type (boards full))))
    (filter_links visible (chip_unique_ids (tables full)) (links full))
    ∅ ((λ group, group ∩ visible) <$> filter_chips visible (chips_grouped_by_closest_mmio full))
    (io_device_type full) (fw_bundle_version full) (eth_fw_version full).

(** ** Renumbering *)

Section remap.
Context (old_to_new : gmap Z Z).

(** [remap_map_keys] into an empty map. *)
Definition remap_map_keys {V} (src : gmap Z V) : gmap Z V :=
  foldl (λ dst '(k, v), match old_to_new !! k with Some k' => map_insert_new k' v dst | None => dst end) ∅ (map_iter src).

Definition remap_mmio (src : gmap Z Z) : gmap Z Z :=
  foldl (λ dst '(old_id, mmio_val),
    match old_to_new !! old_id with
    | Some new_id => map_insert_new new_id (default new_id (old_to_new !! mmio_val)) dst
    | None => dst
    end) ∅ (map_iter src).

Definition remap_link (link : (Z * Z) * (Z * Z)) (m : gmap Z ChannelLinks) : result (gmap Z ChannelLinks) :=
  let '(a, b) := link in
  match old_to_new !! a.1 with
  | None => Ok m
  | Some new_chip_id => b' ← map_at b.1 old_to_new; Ok (put (new_chip_id, a.2) (b', b.2) m)
  end.

Definition remap_group (entry : Z * gset Z) (m : gmap Z (gset Z)) : result (gmap Z (gset Z)) :=
  let '(chip_id, chip_group) := entry in
  match old_to_new !! chip_id with
  | None => Ok m
  | Some new_chip_id =>
      for_each (set_iter chip_group) (λ g m, g' ← map_at g old_to_new; Ok (map_set_insert new_chip_id g' m)) m
  end.

Definition remap_tables (t : ChipTables) : ChipTables :=
  MkTables (remap_map_keys (chip_arch t)) (remap_map_keys (chip_unique_ids t)) (authentic_chip_unique_ids t)
    (remap_map_keys (noc_translation_enabled t)) (remap_map_keys (chip_to_bus_id t))
    (remap_map_keys (chip_pci_bdfs t)) (remap_map_keys (harvesting_masks_map t)) (remap_map_keys (asic_locations t)).

(** [apply_chip_id_remapping] to a descriptor that has only its chips, device
    type and versions. *)
Definition apply_chip_id_remapping (remapped desc : ClusterDescriptor) : result ClusterDescriptor :=
  let chip_boards := remap_map_keys (chip_to_board_id (boards desc)) in
  conns ← for_each (flat_links (ethernet_connections (links desc))) remap_link ∅;
  coords ← for_each (map_to_list (coords_to_chip_ids (placement desc)))
             (λ '(coord, chip_id) m, chip' ← map_at chip_id old_to_new; Ok (<[coord := chip']> m)) ∅;
  groups ← for_each (map_iter (chips_grouped_by_closest_mmio desc)) remap_group ∅;
  Ok (MkDesc (all_chips remapped) (remap_mmio (chips_with_mmio desc)) (remap_tables (tables desc))
        (MkPlacement (remap_map_keys (chip_locations (placement desc))) coords)
        (MkBoards chip_boards (rebuild_boards chip_boards) (remap_map_keys (chip_board_type (boards desc))))
        (MkLinks conns (remap_map_keys (ethernet_connections_to_remote_devices (links desc)))
           (remap_map_keys (active_eth_channels (links desc))) (remap_map_keys (idle_eth_channels (links desc))))
        (closest_mmio_chip_cache remapped) groups
        (io_device_type remapped) (fw_bundle_version remapped) (eth_fw_version remapped)).

End remap.

(** [old_to_new[ordered_chips[i]] = i]. *)
Definition new_ids (ordered_chips : list Z) : gmap Z Z :=
  foldl (λ m '(i, chip), <[chip := i]> m) ∅ (zip (seqZ 0 (vec_size ordered_chips)) ordered_chips).

Definition renumber (visible : gset Z) (desc : ClusterDescriptor) : result ClusterDescriptor :=
  ordered_chips ← get_chips_local_first desc visible;
  let old_to_new := new_ids ordered_chips in
  let fresh := MkDesc (map_img old_to_new) ∅ empty_tables empty_placement empty_boards empty_links ∅ ∅
                 (io_device_type desc) (fw_bundle_version desc) (eth_fw_version desc) in
  apply_chip_id_remapping old_to_new fresh desc.

Definition create_constrained_cluster_descriptor (full : ClusterDescriptor) (target_chip_ids : gset Z)
    (env : option string) : result ClusterDescriptor :=
  visible_chips ← get_visible_chips target_chip_ids env full;
  let desc := filter_descriptor visible_chips full in
  if (size visible_chips <? size (all_chips full))%nat then
    remapped ← renumber visible_chips desc;
    _ ← verify_cluster_descriptor_info true remapped;
    Ok remapped
  else Ok desc.

End constrain.

(** ** Maps of links *)

Lemma connection_put a b m c : connection (put a b m) c = if decide (c = a) then Some b else connection m c.
Proof.
  unfold connection, put. destruct a as [ca ha], c as [chip h]; cbn.
  destruct (decide (chip = ca)) as [->|Hne].
  - rewrite lookup_insert_eq. cbn. destruct (decide (h = ha)) as [->|Hne'].
    + by rewrite lookup_insert_eq, decide_True.
    + rewrite lookup_insert_ne, decide_False by congruence. by destruct (m !! ca).
  - by rewrite lookup_insert_ne, decide_False by congruence.
Qed.

Lemma connection_empty a : connection ∅ a = None.
Proof. unfold connection. by rewrite lookup_empty. Qed.

Section links.
Context `{UnorderedLaws}.

Lemma elem_of_flat_links m a b : (a, b) ∈ flat_links m ↔ connection m a = Some b.
Proof.
  unfold flat_links, connection. rewrite list_elem_of_bind. split.
  - intros ([chip channels] & Hin & Hm%elem_of_map_iter). apply list_elem_of_fmap in Hin as ([h b'] & Heq & Hh%elem_of_map_iter).
    simplify_eq. cbn. by rewrite Hm.
  - intros Hc. destruct a as [chip h]; cbn in Hc. destruct (m !! chip) as [channels|] eqn:Hm; [|done].
    exists (chip, channels). split; [|by apply elem_of_map_iter]. apply list_elem_of_fmap. exists (h, b).
    split; [done|]. by apply elem_of_map_iter.
Qed.

(** A loop over the links of a map sees no end twice. *)
Lemma flat_links_functional m a b b' : (a, b) ∈ flat_links m → (a, b') ∈ flat_links m → b = b'.
Proof. rewrite !elem_of_flat_links. congruence. Qed.

Definition outside (ids : gmap Z Z) (b : Z * Z) : Z * Z := (default (u64 b.1) (ids !! b.1), b.2).

Lemma filter_link_loop V ids L :
  (∀ a b b', (a, b) ∈ L → (a, b') ∈ L → b = b') →
  let s := foldl (filter_link V ids) (∅, ∅) L in
  (∀ a b, connection s.1 a = Some b ↔ (a, b) ∈ L ∧ a.1 ∈ V ∧ b.1 ∈ V) ∧
  (∀ a x, connection s.2 a = Some x ↔ ∃ b, (a, b) ∈ L ∧ a.1 ∈ V ∧ b.1 ∉ V ∧ x = outside ids b).
Proof.
  cbn zeta. induction L as [|[a b] L IH] using rev_ind; intros Hfun.
  { cbn. split; intros; rewrite connection_empty; set_solver. }
  rewrite foldl_app. cbn [foldl]. destruct IH as [IH1 IH2]; [intros c x x' ? ?; apply (Hfun c); set_solver|].
  destruct (foldl _ _ L) as [conns remote]. cbn [fst snd] in *.
  assert (∀ x, (a, x) ∈ L → x = b) as Hold by (intros x Hx; apply (Hfun a); set_solver).
  unfold filter_link. destruct (bool_decide_reflect (a.1 ∈ V)) as [Ha|Ha]; cbn [negb].
  2:{ split; [intros c x; rewrite IH1|intros c x; rewrite IH2]; setoid_rewrite elem_of_app; setoid_rewrite list_elem_of_singleton; naive_solver. }
  destruct (bool_decide_reflect (b.1 ∈ V)) as [Hb|Hb]; cbn [fst snd]; split; intros c x;
    setoid_rewrite elem_of_app; setoid_rewrite list_elem_of_singleton.
  - rewrite connection_put. case_decide as Hc; [subst c|rewrite IH1; naive_solver].
    split; [intros [= <-]; by auto|]. intros ([Hx|[= ->]] & _); [by rewrite (Hold x Hx)|done].
  - rewrite IH2. split; [naive_solver|]. intros (y & [?|?] & ? & ? & ?); [by exists y|]. naive_solver.
  - rewrite IH1. naive_solver.
  - rewrite connection_put. case_decide as Hc; [subst c|rewrite IH2; naive_solver].
    split; [intros [= <-]; exists b; by auto|]. intros (y & [Hy|[= ->]] & _ & _ & ->); [by rewrite (Hold y Hy)|done].
Qed.

Lemma put_loop (V : gset Z) L m :
  (∀ a b b', (a, b) ∈ L → (a, b') ∈ L → b = b') →
  ∀ c x, connection (foldl (λ m '(a, b), if bool_decide (a.1 ∈ V) then put a b m else m) m L) c = Some x ↔
    ((c, x) ∈ L ∧ c.1 ∈ V) ∨ (connection m c = Some x ∧ (∀ y, (c, y) ∈ L → c.1 ∉ V)).
Proof.
  induction L as [|[a b] L IH] using rev_ind; intros Hfun c x; [cbn; set_solver|].
  rewrite foldl_app. cbn [foldl]. setoid_rewrite elem_of_app. setoid_rewrite list_elem_of_singleton.
  assert (∀ c b b', (c, b) ∈ L → (c, b') ∈ L → b = b') as Hfun' by (intros c' y y' ? ?; apply (Hfun c'); set_solver).
  assert (∀ x, (a, x) ∈ L → x = b) as Hold by (intros y Hy; apply (Hfun a); set_solver).
  specialize (IH Hfun' c x). case_bool_decide as Ha.
  - rewrite connection_put. case_decide as Hc; [subst c|rewrite IH; naive_solver].
    split; [intros [= ->]; left; by auto|]. intros [[[Hx|[= ->]] _]|[_ Hn]]; [by rewrite (Hold x Hx)|done|].
    exfalso. by apply (Hn b); [right|].
  - rewrite IH. split; [intros [?|[? Hy]]; [naive_solver|]|].
    + right. split; [done|]. intros y [?|[= -> ->]]; [by eapply Hy|done].
    + intros [[[?|[= -> ->]] ?]|[? Hy]]; [by left|done|]. right. split; [done|]. intros y Hin. apply (Hy y). by left.
Qed.

Lemma filter_links_active V ids l : active_eth_channels (filter_links V ids l) = filter_chips V (active_eth_channels l).
Proof. unfold filter_links. by destruct (foldl _ _ _). Qed.
Lemma filter_links_idle V ids l : idle_eth_channels (filter_links V ids l) = filter_chips V (idle_eth_channels l).
Proof. unfold filter_links. by destruct (foldl _ _ _). Qed.

(** The links of the filtered descriptor. *)
Lemma filter_links_spec (V : gset Z) ids l :
  let l' := filter_links V ids l in
  (∀ a b, connection (ethernet_connections l') a = Some b ↔
     connection (ethernet_connections l) a = Some b ∧ a.1 ∈ V ∧ b.1 ∈ V) ∧
  (∀ a x, connection (ethernet_connections_to_remote_devices l') a = Some x ↔
     a.1 ∈ V ∧ (connection (ethernet_connections_to_remote_devices l) a = Some x ∨
       (connection (ethernet_connections_to_remote_devices l) a = None ∧
        ∃ b, connection (ethernet_connections l) a = Some b ∧ b.1 ∉ V ∧ x = outside ids b))).
Proof.
  cbn zeta. unfold filter_links.
  pose proof (filter_link_loop V ids (flat_links (ethernet_connections l)) (flat_links_functional _)) as [H1 H2].
  destruct (foldl (filter_link V ids) _ _) as [conns remote]. cbn [fst snd ethernet_connections ethernet_connections_to_remote_devices] in *.
  setoid_rewrite elem_of_flat_links in H1. setoid_rewrite elem_of_flat_links in H2. split; [exact H1|].
  intros a x. rewrite put_loop by apply flat_links_functional. setoid_rewrite elem_of_flat_links. rewrite H2.
  destruct (connection (ethernet_connections_to_remote_devices l) a) as [r|]; naive_solver.
Qed.
End links.

(** ** New ids *)

Lemma zip_snoc {A B} (l : list A) (k : list B) a b : length l = length k → zip (l ++ [a]) (k ++ [b]) = zip l k ++ [(a, b)].
Proof. intros Hl. by rewrite zip_with_app by done. Qed.

Lemma new_ids_lookup ordered c i :
  NoDup ordered → new_ids ordered !! c = Some i ↔ 0 ≤ i ∧ ordered !! Z.to_nat i = Some c.
Proof.
  revert i. induction ordered as [|x ordered IH] using rev_ind; intros i Hnd.
  { unfold new_ids. cbn. split; [done|]. intros [_ Hi]. by destruct (Z.to_nat i). }
  apply list.NoDup_app in Hnd as (Hnd & Hx & _).
  assert (new_ids (ordered ++ [x]) = <[x := vec_size ordered]> (new_ids ordered)) as ->.
  { unfold new_ids. rewrite vec_size_app. change (vec_size [x]) with 1. rewrite seqZ_snoc by (unfold vec_size; lia).
    rewrite zip_snoc, foldl_app; [by rewrite Z.add_0_l|]. rewrite length_seqZ. unfold vec_size. lia. }
  rewrite lookup_insert. destruct (decide (x = c)) as [->|Hne].
  - split.
    + intros [= <-]. unfold vec_size. split; [lia|]. rewrite Nat2Z.id, lookup_app_r, Nat.sub_diag by lia. done.
    + intros [Hi Hc]. f_equal. destruct (decide (Z.to_nat i < length ordered)%nat) as [Hlt|Hge].
      * rewrite lookup_app_l in Hc by done. destruct (Hx c); [by eapply list_elem_of_lookup_2|set_solver].
      * rewrite lookup_app_r in Hc by lia. unfold vec_size. destruct (Z.to_nat i - length ordered)%nat eqn:E; [lia|done].
  - rewrite IH by done. split; intros [Hi Hc]; (split; [done|]).
    + by apply lookup_app_l_Some.
    + apply lookup_app_Some in Hc as [Hc|[_ Hc]]; [done|]. apply list_lookup_singleton_Some in Hc as [_ Hc]. congruence.
Qed.

Section renumbering.
Context `{UnorderedLaws} (f : gmap Z Z).
Context (Hinj : ∀ a b i, f !! a = Some i → f !! b = Some i → a = b).

Lemma remap_loop {V W} (val : Z → V → W) (l : list (Z * V)) k' w :
  NoDup l.*1 →
  foldl (λ dst '(k, v), match f !! k with Some k' => map_insert_new k' (val k' v) dst | None => dst end) ∅ l !! k' = Some w
  ↔ ∃ k v, (k, v) ∈ l ∧ f !! k = Some k' ∧ w = val k' v.
Proof using Hinj H0.
  revert w. induction l as [|[k v] l IH] using rev_ind; intros w Hnd; [cbn; set_solver|].
  rewrite fmap_app in Hnd. apply list.NoDup_app in Hnd as (Hnd & Hk & _).
  pose proof (λ w, IH w Hnd) as IH'. clear IH. rename IH' into IH.
  rewrite foldl_app. cbn [foldl]. setoid_rewrite elem_of_app. setoid_rewrite list_elem_of_singleton.
  destruct (f !! k) as [i|] eqn:Hf.
  2:{ rewrite IH. split; [intros (k1 & v1 & ? & ?); exists k1, v1; by auto|].
      intros (k1 & v1 & [?|[= -> ->]] & Hk1 & ->); [by exists k1, v1|congruence]. }
  rewrite map_insert_new_lookup. destruct (foldl _ _ l !! k') as [w'|] eqn:E.
  - rewrite IH. split; [intros (k1 & v1 & ? & ?); exists k1, v1; by auto|].
    intros (k1 & v1 & [?|[= -> ->]] & Hk1 & ->); [by exists k1, v1|].
    destruct (proj1 (IH w') eq_refl) as (k2 & v2 & Hin & Hk2 & _). assert (k2 = k) as -> by (by eapply Hinj).
    exfalso. apply (Hk k); [|set_solver]. apply list_elem_of_fmap. by exists (k, v2).
  - case_decide as Hi.
    + subst i. split; [intros [= <-]; exists k, v; by auto|]. intros (k1 & v1 & [Hin|[= -> ->]] & Hk1 & ->); [|done].
      assert (k1 = k) as -> by (by eapply Hinj). exfalso. apply (Hk k); [|set_solver]. apply list_elem_of_fmap. by exists (k, v1).
    + split; [done|]. intros (k1 & v1 & [Hin|[= -> ->]] & Hk1 & ->); [|congruence].
      exfalso. by assert (None = Some (val k' v1)) by (apply IH; by exists k1, v1).
Qed.

Lemma remap_lookup {V} (m : gmap Z V) c i : f !! c = Some i → remap_map_keys f m !! i = m !! c.
Proof using Hinj H0.
  intros Hc. apply option_eq. intros v. unfold remap_map_keys.
  rewrite (remap_loop (λ _ v, v)) by apply NoDup_map_iter. setoid_rewrite elem_of_map_iter. split.
  - intros (k & v' & Hk & Hfk & ->). by rewrite <- (Hinj _ _ _ Hfk Hc).
  - intros Hv. by exists c, v.
Qed.

Lemma remap_filtered {V} (chips : gset Z) (m : gmap Z V) c i :
  f !! c = Some i → c ∈ chips → remap_map_keys f (filter_chips chips m) !! i = m !! c.
Proof using Hinj H0.
  intros Hc Hin. rewrite (remap_lookup _ c i Hc). unfold filter_chips. rewrite map_lookup_filter.
  destruct (m !! c); cbn; [|done]. by rewrite option_guard_True.
Qed.

Lemma remap_mmio_filtered (chips : gset Z) (m : gmap Z Z) c i :
  f !! c = Some i → c ∈ chips → is_Some (remap_mmio f (filter_chips chips m) !! i) ↔ is_Some (m !! c).
Proof using Hinj H0.
  intros Hc Hin. unfold remap_mmio, is_Some.
  setoid_rewrite (remap_loop (λ k' v, default k' (f !! v))); [|apply NoDup_map_iter]. setoid_rewrite elem_of_map_iter.
  unfold filter_chips. setoid_rewrite map_lookup_filter_Some. split.
  - intros (w & k & v & [Hk _] & Hfk & _). rewrite <- (Hinj _ _ _ Hfk Hc). by exists v.
  - intros [v Hv]. by exists (default i (f !! v)), c, v.
Qed.

(** Links: every end of a link must have a new id. *)
Lemma remap_links L :
  (∀ a b b', (a, b) ∈ L → (a, b') ∈ L → b = b') → (∀ a b, (a, b) ∈ L → is_Some (f !! b.1)) →
  ∃ m, for_each L (remap_link f) ∅ = Ok m ∧
    ∀ a' b', connection m a' = Some b' ↔
      ∃ a b, (a, b) ∈ L ∧ f !! a.1 = Some a'.1 ∧ a.2 = a'.2 ∧ f !! b.1 = Some b'.1 ∧ b.2 = b'.2.
Proof using Hinj H0.
  intros Hfun Hends. refine (for_each_inv (λ done m, ∀ a' b', connection m a' = Some b' ↔
      ∃ a b, (a, b) ∈ done ∧ f !! a.1 = Some a'.1 ∧ a.2 = a'.2 ∧ f !! b.1 = Some b'.1 ∧ b.2 = b'.2) _ _ _ _ _).
  - intros a' b'. rewrite connection_empty. set_solver.
  - intros done [a b] rest m -> IH. unfold remap_link.
    destruct (f !! a.1) as [i|] eqn:Ha.
    2:{ exists m. split; [done|]. intros a' b'. rewrite IH. setoid_rewrite elem_of_app. setoid_rewrite list_elem_of_singleton.
        split; [intros (x & y & ? & ?); exists x, y; by auto|].
        intros (x & y & [?|[= -> ->]] & Hx & ?); [by exists x, y|congruence]. }
    destruct (Hends a b) as [j Hj]; [set_solver|]. unfold map_at. rewrite Hj. cbn [mbind result_bind].
    eexists. split; [done|]. intros a' b'. rewrite connection_put. setoid_rewrite elem_of_app. setoid_rewrite list_elem_of_singleton.
    case_decide as Heq.
    + subst a'. cbn. split.
      * intros [= <-]. exists a, b. by auto.
      * intros (x & y & Hin & Hx & Hx2 & Hy & Hy2).
        assert (x = a) as -> by (destruct x, a; cbn in *; f_equal; [by eapply Hinj|done]).
        assert (y = b) as -> by (apply (Hfun a); set_solver). destruct b'; cbn in *. congruence.
    + rewrite IH. split; [intros (x & y & ? & ?); exists x, y; by auto|].
      intros (x & y & [?|[= -> ->]] & Hx & Hx2 & ?); [by exists x, y|]. destruct Heq. destruct a'; cbn in *. congruence.
Qed.

Lemma remap_coords (m : gmap (Z * Z * Z * Z) Z) :
  (∀ k c, m !! k = Some c → is_Some (f !! c)) →
  ∃ m' : gmap (Z * Z * Z * Z) Z,
    for_each (map_to_list m) (λ '(coord, chip_id) m, chip' ← map_at chip_id f; Ok (<[coord := chip']> m)) ∅ = Ok m' ∧
    ∀ k i, m' !! k = Some i ↔ ∃ c, m !! k = Some c ∧ f !! c = Some i.
Proof using Hinj H0.
  intros Hdom.
  destruct (for_each_inv (λ done (m' : gmap (Z * Z * Z * Z) Z), ∀ k i, m' !! k = Some i ↔ ∃ c, (k, c) ∈ done ∧ f !! c = Some i)
    (map_to_list m) (λ '(coord, chip_id) m, chip' ← map_at chip_id f; Ok (<[coord := chip']> m)) ∅) as (m' & Hm' & Hs).
  - intros k i. rewrite lookup_empty. set_solver.
  - intros done [k c] rest m' Hl IH. assert (m !! k = Some c) as Hk by (apply elem_of_map_to_list; rewrite Hl; set_solver).
    destruct (Hdom k c Hk) as [i Hi]. unfold map_at. rewrite Hi. cbn [mbind result_bind]. eexists. split; [done|].
    intros k' i'. rewrite lookup_insert. setoid_rewrite elem_of_app. setoid_rewrite list_elem_of_singleton. case_decide as Heq.
    + subst k'. split; [intros [= <-]; exists c; by auto|]. intros (c' & [Hin|[= ->]] & Hc'); [|congruence].
      assert (m !! k = Some c') as Hk' by (apply elem_of_map_to_list; rewrite Hl; set_solver). congruence.
    + rewrite IH. split; [intros (c' & ? & ?); exists c'; by auto|]. intros (c' & [?|[= -> ->]] & ?); [by exists c'|done].
  - exists m'. split; [done|]. intros k i. rewrite Hs. by setoid_rewrite elem_of_map_to_list.
Qed.

Lemma remap_members new_id (group : gset Z) m :
  (∀ c, c ∈ group → is_Some (f !! c)) →
  ∃ m', for_each (set_iter group) (λ g m, g' ← map_at g f; Ok (map_set_insert new_id g' m)) m = Ok m' ∧
    ∀ k x, x ∈ set_at k m' ↔ x ∈ set_at k m ∨ (k = new_id ∧ ∃ c, c ∈ group ∧ f !! c = Some x).
Proof using Hinj H0.
  intros Hdom.
  destruct (for_each_inv (λ done m', ∀ k x, x ∈ set_at k m' ↔ x ∈ set_at k m ∨ (k = new_id ∧ ∃ c, c ∈ done ∧ f !! c = Some x))
    (set_iter group) (λ g m, g' ← map_at g f; Ok (map_set_insert new_id g' m)) m) as (m' & Hm' & Hs).
  - intros k x. set_solver.
  - intros done c rest m' Hl IH. destruct (Hdom c) as [i Hi]; [apply elem_of_set_iter; rewrite Hl; set_solver|].
    unfold map_at. rewrite Hi. cbn [mbind result_bind]. eexists. split; [done|].
    intros k x. rewrite elem_of_map_set_insert, IH. setoid_rewrite elem_of_app. setoid_rewrite list_elem_of_singleton. split.
    + intros [[-> ->]|[?|(-> & c' & ? & ?)]]; [right; split; [done|]; exists c; by auto|by left|].
      right. split; [done|]. exists c'. by auto.
    + intros [?|(-> & c' & [?| ->] & Hc')]; [by right; left|right; right; split; [done|]; by exists c'|].
      left. split; [done|]. congruence.
  - exists m'. split; [done|]. intros k x. rewrite Hs. by setoid_rewrite elem_of_set_iter.
Qed.

Lemma remap_groups (groups : gmap Z (gset Z)) :
  (∀ m c, is_Some (f !! m) → c ∈ set_at m groups → is_Some (f !! c)) →
  ∃ groups', for_each (map_iter groups) (remap_group f) ∅ = Ok groups' ∧
    ∀ m' x, x ∈ set_at m' groups' ↔ ∃ m c, f !! m = Some m' ∧ f !! c = Some x ∧ c ∈ set_at m groups.
Proof using Hinj H0.
  intros Hdom.
  destruct (for_each_inv (λ done groups', ∀ m' x, x ∈ set_at m' groups' ↔
      ∃ m c group, (m, group) ∈ done ∧ f !! m = Some m' ∧ f !! c = Some x ∧ c ∈ group)
    (map_iter groups) (remap_group f) ∅) as (groups' & Hg' & Hs).
  - intros m' x. rewrite set_at_empty. set_solver.
  - intros done [m group] rest groups' Hl IH. cbn [remap_group].
    assert (groups !! m = Some group) as Hm by (apply elem_of_map_iter; rewrite Hl; set_solver).
    destruct (f !! m) as [m1|] eqn:Hf.
    + destruct (remap_members m1 group groups') as (g' & -> & Hg').
      { intros c Hc. apply (Hdom m); [by exists m1|]. unfold set_at. by rewrite Hm. }
      exists g'. split; [done|]. intros m' x. rewrite Hg', IH. setoid_rewrite elem_of_app. setoid_rewrite list_elem_of_singleton. split.
      * intros [(m2 & c & gr & ? & ?)|(-> & c & ? & ?)]; [exists m2, c, gr|exists m, c, group]; by auto.
      * intros (m2 & c & gr & [?|[= -> ->]] & Hm2 & Hx & Hc); [left; by exists m2, c, gr|].
        right. split; [congruence|]. by exists c.
    + exists groups'. split; [done|]. intros m' x. rewrite IH. setoid_rewrite elem_of_app. setoid_rewrite list_elem_of_singleton. split.
      * intros (m2 & c & gr & ? & ?). exists m2, c, gr. by auto.
      * intros (m2 & c & gr & [?|[= -> ->]] & Hm2 & ?); [by exists m2, c, gr|congruence].
  - exists groups'. split; [done|]. intros m' x. rewrite Hs. split.
    + intros (m & c & group & Hin%elem_of_map_iter & ? & ? & ?). exists m, c. unfold set_at. rewrite Hin. by auto.
    + intros (m & c & ? & ? & Hc). unfold set_at in Hc. destruct (groups !! m) as [group|] eqn:E; [|cbn in Hc; set_solver].
      exists m, c, group. split; [by apply elem_of_map_iter|by auto].
Qed.
End renumbering.

Lemma rebuild_boards_ok `{UnorderedLaws} (m : gmap Z Z) types : boards_ok (MkBoards m (rebuild_boards m) types).
Proof.
  intros chip board. cbn [chip_to_board_id board_to_chips]. unfold rebuild_boards.
  rewrite <- elem_of_map_iter. generalize (map_iter m) as l. intros l.
  induction l as [|[c b] l IH] using rev_ind; [cbn; rewrite set_at_empty; set_solver|].
  rewrite foldl_app. cbn [foldl]. rewrite elem_of_map_set_insert, elem_of_app, list_elem_of_singleton, IH. naive_solver.
Qed.

(** ** The restricted cluster is a copy of the visible part *)

(** [d] is the part of [full] on the chips [V], renumbered by [f]. *)
Record restricted (V : gset Z) (full : ClusterDescriptor) (f : gmap Z Z) (d : ClusterDescriptor) : Prop := {
  rs_dom : ∀ c, is_Some (f !! c) ↔ c ∈ V;
  rs_inj : ∀ a b i, f !! a = Some i → f !! b = Some i → a = b;
  rs_chips : ∀ i, i ∈ all_chips d ↔ 0 ≤ i < Z.of_nat (size V);
  rs_image : ∀ i, i ∈ all_chips d ↔ ∃ c, f !! c = Some i;
  rs_local_first : ∀ a b i j, f !! a = Some i → f !! b = Some j →
    is_chip_mmio_capable full a = true → is_chip_mmio_capable full b = false → i < j;
  rs_mmio : ∀ c i, f !! c = Some i → is_chip_mmio_capable d i = is_chip_mmio_capable full c;
  rs_tables : ∀ c i, f !! c = Some i →
    chip_arch (tables d) !! i = chip_arch (tables full) !! c ∧
    chip_unique_ids (tables d) !! i = chip_unique_ids (tables full) !! c ∧
    noc_translation_enabled (tables d) !! i = noc_translation_enabled (tables full) !! c ∧
    chip_to_bus_id (tables d) !! i = chip_to_bus_id (tables full) !! c ∧
    chip_pci_bdfs (tables d) !! i = chip_pci_bdfs (tables full) !! c ∧
    harvesting_masks_map (tables d) !! i = harvesting_masks_map (tables full) !! c ∧
    asic_locations (tables d) !! i = asic_locations (tables full) !! c;
  rs_location : ∀ c i, f !! c = Some i → chip_locations (placement d) !! i = chip_locations (placement full) !! c;
  rs_coords : ∀ k i, coords_to_chip_ids (placement d) !! k = Some i ↔
    ∃ c, coords_to_chip_ids (placement full) !! k = Some c ∧ f !! c = Some i;
  rs_board : ∀ c i, f !! c = Some i →
    chip_to_board_id (boards d) !! i = chip_to_board_id (boards full) !! c ∧
    chip_board_type (boards d) !! i = chip_board_type (boards full) !! c;
  rs_boards_ok : boards_ok (boards d);
  rs_links : ∀ i h j h', connection (ethernet_connections (links d)) (i, h) = Some (j, h') ↔
    ∃ c c', f !! c = Some i ∧ f !! c' = Some j ∧ connection (ethernet_connections (links full)) (c, h) = Some (c', h');
  rs_remote : ∀ c i h x, f !! c = Some i →
    connection (ethernet_connections_to_remote_devices (links d)) (i, h) = Some x ↔
      connection (ethernet_connections_to_remote_devices (links full)) (c, h) = Some x ∨
      (connection (ethernet_connections_to_remote_devices (links full)) (c, h) = None ∧
       ∃ b, connection (ethernet_connections (links full)) (c, h) = Some b ∧ b.1 ∉ V ∧
            x = outside (chip_unique_ids (tables full)) b);
  rs_channels : ∀ c i, f !! c = Some i →
    get_active_eth_channels d i = get_active_eth_channels full c ∧ get_idle_eth_channels d i = get_idle_eth_channels full c;
  rs_groups : ∀ m m' c c', f !! m = Some m' → f !! c = Some c' →
    c' ∈ set_at m' (chips_grouped_by_closest_mmio d) ↔ c ∈ set_at m (chips_grouped_by_closest_mmio full)
}.

Lemma filter_ext_in (P Q : Z → bool) (l : list Z) :
  (∀ c, c ∈ l → P c = Q c) → filter (λ c, Is_true (P c)) l = filter (λ c, Is_true (Q c)) l.
Proof.
  induction l as [|c l IH]; intros HPQ; [done|]. rewrite !filter_cons.
  rewrite (IH (λ x Hx, HPQ x (list_elem_of_further _ _ _ Hx))). by rewrite (HPQ c (list_elem_of_here _ _)).
Qed.

Section restriction.
Context `{UnorderedLaws}.

(** The order of the visible chips: MMIO capable ones first. *)
Definition ordered (V : gset Z) (full : ClusterDescriptor) : list Z :=
  filter (λ c, Is_true (is_chip_mmio_capable full c)) (set_iter V)
  ++ filter (λ c, Is_true (is_chip_remote full c)) (set_iter V).

Lemma elem_of_ordered V full c : c ∈ ordered V full ↔ c ∈ V.
Proof.
  unfold ordered, is_chip_remote. rewrite elem_of_app, !list_elem_of_filter, elem_of_set_iter.
  destruct (is_chip_mmio_capable full c); cbn; tauto.
Qed.

Lemma NoDup_ordered V full : NoDup (ordered V full).
Proof.
  unfold ordered, is_chip_remote. apply list.NoDup_app. split_and!; try apply list.NoDup_filter, NoDup_set_iter.
  intros c. rewrite !list_elem_of_filter. destruct (is_chip_mmio_capable full c); cbn; tauto.
Qed.

Lemma length_ordered V full : length (ordered V full) = size V.
Proof.
  assert (ordered V full ≡ₚ elements V) as ->; [|done].
  apply NoDup_Permutation; [apply NoDup_ordered|apply NoDup_elements|].
  intros c. by rewrite elem_of_ordered, elem_of_elements.
Qed.

Lemma is_mmio_filtered V full c : c ∈ V → is_chip_mmio_capable (filter_descriptor V full) c = is_chip_mmio_capable full c.
Proof.
  intros Hc. unfold is_chip_mmio_capable. apply bool_decide_ext. cbn. unfold filter_chips, is_Some.
  setoid_rewrite map_lookup_filter_Some. naive_solver.
Qed.

Lemma get_chips_local_first_filtered V full :
  V ⊆ all_chips full → get_chips_local_first (filter_descriptor V full) V = Ok (ordered V full).
Proof.
  intros HV. unfold get_chips_local_first.
  assert (forallb (λ chip, bool_decide (chip ∈ all_chips (filter_descriptor V full))) (set_iter V) = true) as ->.
  { apply List.forallb_forall. intros c Hc%list_elem_of_In%elem_of_set_iter. apply bool_decide_eq_true. cbn. set_solver. }
  unfold ordered, is_chip_remote. do 2 f_equal; apply filter_ext_in; intros c Hc%elem_of_set_iter;
    by rewrite is_mmio_filtered.
Qed.

Definition new_id_map (V : gset Z) (full : ClusterDescriptor) : gmap Z Z := new_ids (ordered V full).

Lemma new_id_lookup V full c i :
  new_id_map V full !! c = Some i ↔ 0 ≤ i ∧ ordered V full !! Z.to_nat i = Some c.
Proof. apply new_ids_lookup, NoDup_ordered. Qed.

Lemma new_id_dom V full c : is_Some (new_id_map V full !! c) ↔ c ∈ V.
Proof.
  rewrite <- (elem_of_ordered V full c), list_elem_of_lookup. split.
  - intros [i [_ Hi]%new_id_lookup]. by exists (Z.to_nat i).
  - intros [i Hi]. exists (Z.of_nat i). apply new_id_lookup. rewrite Nat2Z.id. split; [lia|done].
Qed.

Lemma new_id_inj V full a b i : new_id_map V full !! a = Some i → new_id_map V full !! b = Some i → a = b.
Proof. rewrite !new_id_lookup. intros [_ Ha] [_ Hb]. congruence. Qed.

Lemma new_id_range V full i : (∃ c, new_id_map V full !! c = Some i) ↔ 0 ≤ i < Z.of_nat (size V).
Proof.
  setoid_rewrite new_id_lookup. rewrite <- (length_ordered V full). split.
  - intros (c & Hi & Hc%lookup_lt_Some). lia.
  - intros Hi. destruct (lookup_lt_is_Some_2 (ordered V full) (Z.to_nat i)) as [c Hc]; [lia|]. exists c. split; [lia|done].
Qed.

Lemma new_id_local_first V full a b i j :
  new_id_map V full !! a = Some i → new_id_map V full !! b = Some j →
  is_chip_mmio_capable full a = true → is_chip_mmio_capable full b = false → i < j.
Proof.
  rewrite !new_id_lookup. unfold ordered. intros [Hi Ha] [Hj Hb] Hma Hmb.
  apply lookup_app_Some in Ha as [Ha|[_ Ha]].
  2:{ apply list_elem_of_lookup_2, list_elem_of_filter in Ha as [Ha _]. unfold is_chip_remote in Ha. by rewrite Hma in Ha. }
  apply lookup_app_Some in Hb as [Hb|[Hb _]].
  1:{ apply list_elem_of_lookup_2, list_elem_of_filter in Hb as [Hb _]. by rewrite Hmb in Hb. }
  apply lookup_lt_Some in Ha. lia.
Qed.

(** Renumbering the filtered cluster succeeds and gives the restricted one. *)
Lemma renumber_restricted V full :
  V ⊆ all_chips full →
  ∃ d, renumber V (filter_descriptor V full) = Ok d ∧ restricted V full (new_id_map V full) d.
Proof.
  intros HV. unfold renumber. rewrite get_chips_local_first_filtered by done. cbn [mbind result_bind].
  change (new_ids (ordered V full)) with (new_id_map V full). pose proof (new_id_inj V full) as Hinj.
  pose proof (new_id_dom V full) as Hdom. pose proof (new_id_range V full) as Hrange.
  pose proof (new_id_local_first V full) as Hfirst. set (f := new_id_map V full) in *.
  assert (∀ c i, f !! c = Some i → c ∈ V) as HfV by (intros c i Hc; apply Hdom; by exists i).
  destruct (filter_links_spec V (chip_unique_ids (tables full)) (links full)) as [Hlinks Hremote].
  unfold apply_chip_id_remapping.
  destruct (remap_links f Hinj (flat_links (ethernet_connections (links (filter_descriptor V full))))) as (conns & -> & Hconns).
  { apply flat_links_functional. }
  { intros a b (_ & _ & Hb)%elem_of_flat_links%Hlinks. by apply Hdom. }
  destruct (remap_coords f Hinj (coords_to_chip_ids (placement (filter_descriptor V full)))) as (coords & -> & Hcoords).
  { intros k c [_ Hc]%map_lookup_filter_Some. by apply Hdom. }
  destruct (remap_groups f Hinj (chips_grouped_by_closest_mmio (filter_descriptor V full))) as (groups & -> & Hgroups).
  { intros m c _ Hc. apply Hdom. revert Hc. unfold set_at. cbn. rewrite lookup_fmap.
    destruct (filter_chips V _ !! m); cbn; set_solver. }
  cbn [mbind result_bind]. eexists. split; [reflexivity|]. split.
  - done.
  - done.
  - intros i. rewrite <- Hrange. cbn [all_chips]. rewrite elem_of_map_img. done.
  - intros i. cbn [all_chips]. rewrite elem_of_map_img. done.
  - done.
  - intros c i Hc. unfold is_chip_mmio_capable. apply bool_decide_ext.
    apply (remap_mmio_filtered f Hinj V _ c i); [done|by eapply HfV].
  - intros c i Hc. split_and!; apply (remap_filtered f Hinj V _ c i Hc (HfV c i Hc)).
  - intros c i Hc. apply (remap_filtered f Hinj V _ c i Hc (HfV c i Hc)).
  - intros k i. cbn [placement coords_to_chip_ids]. rewrite Hcoords. cbn [placement coords_to_chip_ids filter_descriptor].
    setoid_rewrite map_lookup_filter_Some. cbn [snd]. split.
    + intros (c & [? _] & ?). by exists c.
    + intros (c & ? & Hc). exists c. split; [|done]. split; [done|by eapply HfV].
  - intros c i Hc. split; apply (remap_filtered f Hinj V _ c i Hc (HfV c i Hc)).
  - apply rebuild_boards_ok.
  - intros i h j h'. cbn [links ethernet_connections]. rewrite Hconns. setoid_rewrite elem_of_flat_links.
    cbn [filter_descriptor links]. setoid_rewrite Hlinks. split.
    + intros ([c hc] & [c' hc'] & (Hab & _ & _) & Hi & Hh & Hj & Hh'). cbn in *. subst. by exists c, c'.
    + intros (c & c' & Hc & Hc' & Hab). exists (c, h), (c', h'). cbn. split_and!; eauto.
  - intros c i h x Hc. unfold connection at 1. cbn [fst snd links ethernet_connections_to_remote_devices].
    rewrite (remap_lookup f Hinj _ c i Hc).
    specialize (Hremote (c, h) x). unfold connection at 1 in Hremote. cbn [fst snd] in Hremote.
    cbn [filter_descriptor links]. rewrite Hremote. pose proof (HfV c i Hc). tauto.
  - intros c i Hc. unfold get_active_eth_channels, get_idle_eth_channels, set_at. cbn [links active_eth_channels idle_eth_channels].
    cbn [filter_descriptor links]. rewrite filter_links_active, filter_links_idle.
    split; f_equal; apply (remap_filtered f Hinj V _ c i Hc (HfV c i Hc)).
  - intros m m' c c' Hm Hc. cbn [chips_grouped_by_closest_mmio]. rewrite Hgroups.
    assert (∀ k x, k ∈ V → x ∈ set_at k (chips_grouped_by_closest_mmio (filter_descriptor V full)) ↔
      x ∈ set_at k (chips_grouped_by_closest_mmio full) ∧ x ∈ V) as Hgr.
    { intros k x Hk. unfold set_at. cbn. rewrite lookup_fmap. unfold filter_chips. rewrite map_lookup_filter.
      destruct (_ !! k); cbn; [|set_solver]. rewrite option_guard_True by done. cbn. set_solver. }
    split.
    + intros (m1 & c1 & Hm1 & Hc1 & Hin). rewrite (Hinj _ _ _ Hm1 Hm), (Hinj _ _ _ Hc1 Hc) in Hin.
      apply Hgr in Hin as [? _]; [done|by eapply HfV].
    + intros Hin. exists m, c. split_and!; [done|done|]. apply Hgr; [by eapply HfV|]. split; [done|by eapply HfV].
Qed.

(** C38: Restricting a cluster to some of its chips never throws before the final
    verification and gives an isomorphic copy of the visible part: the chips are
    renumbered 0, 1, ... with the MMIO capable ones first; every table, location,
    board, channel set and group is the original's at the renamed chip; two chips
    are linked exactly as the originals were; and a link to a chip that is not
    visible becomes a link to an outside device with that chip's unique id. *)
Theorem create_constrained_correct full target env V :
  get_visible_chips target env full = Ok V → V ⊆ all_chips full → V ≠ all_chips full →
  ∃ f d, restricted V full f d ∧
    create_constrained_cluster_descriptor full target env = (_ ← verify_cluster_descriptor_info true d; Ok d).
Proof.
  intros Hvis HV Hne. destruct (renumber_restricted V full HV) as (d & Hd & Hr). exists (new_id_map V full), d.
  split; [done|]. unfold create_constrained_cluster_descriptor. rewrite Hvis. cbn [mbind result_bind].
  assert (size V < size (all_chips full))%nat as Hsize by (apply subset_size; set_solver).
  rewrite (proj2 (Nat.ltb_lt _ _) Hsize), Hd. done.
Qed.
End restriction.

Lemma create_constrained_correct_witness :
  ∃ f d, restricted {[1; 2]} three_chips f d ∧
    @create_constrained_cluster_descriptor sorted_order three_chips {[1; 2]} None =
      (_ ← @verify_cluster_descriptor_info sorted_order true d; Ok d).
Proof.
  refine (@create_constrained_correct sorted_order sorted_order_laws three_chips {[1; 2]} None {[1; 2]} _ _ _).
  - by vm_compute.
  - apply (bool_decide_unpack _); by vm_compute.
  - apply (bool_decide_unpack _); by vm_compute.
Defined.
