(* ===== verification/MockCluster.v ===== *)
(** * MockCluster

    [create_mock_cluster], [fill_mock_hardcoded_data] and the generators of mock
    board ids and BDFs of [cluster_descriptor.cpp]. *)

From Stdlib Require Import ZArith Lia Ascii.
From stdpp Require Import base list numbers strings pretty gmap sets.
From S2P Require Import Prelude CoreTypes Harvesting SemVer BoardTypes ClusterState ClusterBoards EthConnections LoadChips DescriptorCreate.

Local Open Scope Z_scope.

(** ** Generators *)

Definition hex_char (d : Z) : ascii :=
  ascii_of_N (Z.to_N (if d <? 10 then 48 + d else 87 + d)).
(** [{:02x}] of a byte. *)
Definition hex_byte (b : Z) : string := String (hex_char (b `div` 16)) (String (hex_char (b `mod` 16)) EmptyString).

(** [/] and [%] of [int] truncate. *)
Definition generate_mock_bdf (logical_id : Z) : string :=
  let bus := u8 (0x04 + Z.quot logical_id 8) in
  let device := u8 (Z.rem logical_id 8) in
  "0000:" +:+ hex_byte bus +:+ ":" +:+ hex_byte device +:+ ".0".

Definition generate_mock_board_id (logical_id : Z) (board_type : BoardType) : Z :=
  match board_type with
  | N150 => u64 (Z.shiftl 0x18 36 + logical_id)
  | _ => u64 (Z.shiftl 0x40 36 + logical_id)
  end.

Definition kSimUniqueIdBase : Z := 0x5AA5000000000000.
Definition kMockBusIds : list Z := [0x00b1; 0x00ca; 0x0031; 0x004b].

Definition fill_mock_hardcoded_data (logical_id : Z) (t : ChipTables) : result ChipTables :=
  let t := set_unique_ids (map_insert_new logical_id (u64 (kSimUniqueIdBase + u64 logical_id)) (chip_unique_ids t))
             (authentic_chip_unique_ids t) t in
  bus_id ← (if 0 <=? Z.rem logical_id 4 then vec_idx kMockBusIds (Z.rem logical_id 4) else Err UndefinedBehaviour);
  let t := set_bus_ids (map_insert_new logical_id bus_id (chip_to_bus_id t)) t in
  let t := set_bdfs (map_insert_new logical_id (generate_mock_bdf logical_id) (chip_pci_bdfs t)) t in
  Ok (set_asic_locations (map_insert_new logical_id 0 (asic_locations t)) t).

(** ** create_mock_cluster *)

Definition mock_board_type (arch : ARCH) : BoardType := match arch with WORMHOLE_B0 => N150 | _ => UNKNOWN end.
Definition mock_harvesting (arch : ARCH) : HarvestingMasks :=
  match arch with BLACKHOLE => MkMasks 0 0 0x120 0 0 | _ => MkMasks 0 0 0 0 0 end.

Section create.
Context `{Unordered}.

(** The insertions of the loop body that come before the boards. *)
Definition mock_tables (arch : ARCH) (translation : bool) (logical_id : Z) (t : ChipTables) : ChipTables :=
  set_harvesting (map_insert_new logical_id translation (noc_translation_enabled t))
    (map_insert_new logical_id (mock_harvesting arch) (harvesting_masks_map t))
    (set_unique_ids (map_insert_new logical_id (u64 logical_id) (chip_unique_ids t)) (authentic_chip_unique_ids t)
      (set_chip_arch (map_insert_new logical_id arch (chip_arch t)) t)).

Definition add_mock_chip (arch : ARCH) (translation : bool) (logical_id : Z) (d : ClusterDescriptor)
  : result ClusterDescriptor :=
  let board_type := mock_board_type arch in
  let p := placement d in
  let p := MkPlacement (map_insert_new logical_id (MkEthCoord 0 logical_id 0 0 0) (chip_locations p))
             (<[(0, 0, 0, logical_id) := logical_id]> (coords_to_chip_ids p)) in
  let b := boards d in
  let b := MkBoards (chip_to_board_id b) (board_to_chips b) (map_insert_new logical_id board_type (chip_board_type b)) in
  b ← add_chip_to_board logical_id (generate_mock_board_id logical_id board_type) b;
  t ← fill_mock_hardcoded_data logical_id (mock_tables arch translation logical_id (tables d));
  Ok (set_tables t (set_boards b (set_mmio (map_insert_new logical_id logical_id (chips_with_mmio d))
        (set_placement p (set_chips ({[logical_id]} ∪ all_chips d) d))))).

Definition create_mock_cluster (logical_device_ids : gset Z) (arch : ARCH) (noc_translation_enabled : bool)
  : result ClusterDescriptor :=
  d ← for_each (set_iter logical_device_ids) (add_mock_chip arch noc_translation_enabled) empty_descriptor;
  d ← fill_chips_grouped_by_closest_mmio d;
  _ ← verify_cluster_descriptor_info true d;
  Ok d.

End create.

(** ** The chips of a mock cluster *)

(** What the loop has made of the chips visited. *)
Record mocked (arch : ARCH) (visited : list Z) (d : ClusterDescriptor) : Prop := {
  mk_chips : ∀ c, c ∈ all_chips d ↔ c ∈ visited;
  mk_mmio : ∀ c, chips_with_mmio d !! c = if decide (c ∈ visited) then Some c else None;
  mk_arch : ∀ c, chip_arch (tables d) !! c = if decide (c ∈ visited) then Some arch else None;
  mk_ids : ∀ c, chip_unique_ids (tables d) !! c = if decide (c ∈ visited) then Some (u64 c) else None;
  mk_bdfs : ∀ c, chip_pci_bdfs (tables d) !! c = if decide (c ∈ visited) then Some (generate_mock_bdf c) else None;
  mk_masks : ∀ c, harvesting_masks_map (tables d) !! c = if decide (c ∈ visited) then Some (mock_harvesting arch) else None;
  mk_types : ∀ c, chip_board_type (boards d) !! c = if decide (c ∈ visited) then Some (mock_board_type arch) else None;
  mk_boards : ∀ c, chip_to_board_id (boards d) !! c =
    if decide (c ∈ visited) then Some (generate_mock_board_id c (mock_board_type arch)) else None;
  mk_on_board : ∀ b chips, board_to_chips (boards d) !! b = Some chips ↔
    ∃ c, c ∈ visited ∧ b = generate_mock_board_id c (mock_board_type arch) ∧ chips = {[c]};
  mk_fresh : chips_grouped_by_closest_mmio d = ∅ ∧ closest_mmio_chip_cache d = ∅ ∧ fw_bundle_version d = None
}.

(** The ids a mock cluster can have. *)
Definition mock_id (c : Z) : Prop := 0 ≤ c < 2 ^ 31.

Lemma mock_board_id_inj a b t : mock_id a → mock_id b → generate_mock_board_id a t = generate_mock_board_id b t → a = b.
Proof.
  unfold mock_id, generate_mock_board_id, u64. intros Ha Hb.
  change (Z.shiftl 0x18 36) with 1649267441664. change (Z.shiftl 0x40 36) with 4398046511104.
  change (2 ^ 31) with 2147483648 in *. change (2 ^ 64) with 18446744073709551616.
  destruct t; rewrite !Z.mod_small by lia; lia.
Qed.

Lemma map_insert_new_visited {V} (m : gmap Z V) (g : Z → V) visited c :
  c ∉ visited → (∀ k, m !! k = if decide (k ∈ visited) then Some (g k) else None) →
  ∀ k, map_insert_new c (g c) m !! k = if decide (k ∈ visited ++ [c]) then Some (g k) else None.
Proof.
  intros Hc Hm k. rewrite map_insert_new_lookup, Hm. destruct (decide (k ∈ visited)).
  - by rewrite decide_True by set_solver.
  - destruct (decide (c = k)) as [->|]; [by rewrite decide_True by set_solver|]. rewrite decide_False; [done|]. set_solver.
Qed.

Lemma add_mock_chip_step arch tr visited c d :
  mock_id c → (∀ k, k ∈ visited → mock_id k) → c ∉ visited → mocked arch visited d →
  ∃ d', add_mock_chip arch tr c d = Ok d' ∧ mocked arch (visited ++ [c]) d'.
Proof.
  intros Hid Hids Hc [H1 H2 H3 H4 H5 H6 H7 H8 H9 H10]. unfold add_mock_chip, add_chip_to_board.
  cbn [chip_to_board_id board_to_chips chip_board_type]. rewrite H8, decide_False by done. cbn [mbind result_bind].
  unfold fill_mock_hardcoded_data.
  assert (Z.rem c 4 = c mod 4) as Hrem by (unfold mock_id in Hid; apply Z.rem_mod_nonneg; lia).
  pose proof (Z.mod_pos_bound c 4 ltac:(lia)). rewrite Hrem, (proj2 (Z.leb_le _ _)) by lia.
  destruct (vec_lookup kMockBusIds (c mod 4)) as [bus Hbus]; [by change (vec_size kMockBusIds) with 4|].
  rewrite (vec_idx_Some _ _ _ Hbus). cbn [mbind result_bind]. eexists. split; [reflexivity|].
  split; cbn [all_chips chips_with_mmio tables boards chip_arch chip_unique_ids chip_pci_bdfs harvesting_masks_map
    chip_board_type chip_to_board_id board_to_chips set_tables set_boards set_mmio set_placement set_chips set_asic_locations
    set_bdfs set_bus_ids set_unique_ids set_harvesting set_chip_arch mock_tables chips_grouped_by_closest_mmio
    closest_mmio_chip_cache fw_bundle_version].
  - intros k. rewrite elem_of_union, elem_of_singleton, H1, elem_of_app, list_elem_of_singleton. tauto.
  - by apply (map_insert_new_visited _ (λ k, k)).
  - by apply (map_insert_new_visited _ (λ _, arch)).
  - intros k. rewrite map_insert_new_lookup. rewrite (map_insert_new_visited _ u64 visited c Hc H4 k).
    case_decide; [done|]. case_decide; [set_solver|done].
  - by apply (map_insert_new_visited _ generate_mock_bdf).
  - by apply (map_insert_new_visited _ (λ _, mock_harvesting arch)).
  - by apply (map_insert_new_visited _ (λ _, mock_board_type arch)).
  - intros k. rewrite lookup_insert, H8. destruct (decide (c = k)) as [->|].
    + by rewrite decide_True by set_solver.
    + apply decide_ext. set_solver.
  - intros b chips. unfold map_set_insert.
    assert (set_at (generate_mock_board_id c (mock_board_type arch)) (board_to_chips (boards d)) = ∅) as Hnew.
    { unfold set_at. destruct (board_to_chips (boards d) !! _) as [old|] eqn:E; [|done].
      apply H9 in E as (k & Hk & Heq & _). apply mock_board_id_inj in Heq; [|done|by apply Hids]. by subst k. }
    rewrite Hnew, lookup_insert_Some, H9. setoid_rewrite elem_of_app. setoid_rewrite list_elem_of_singleton. split.
    + intros [[<- <-]|[_ (k & ? & ? & ?)]]; [exists c; split; [by right|split; [done|set_solver]]|exists k; by auto].
    + intros (k & [Hk| ->] & -> & ->); [right|left; split; [done|set_solver]]. split; [|by exists k].
      intros Heq%mock_board_id_inj; [by subst k|done|by apply Hids].
  - done.
Qed.

(** ** The checks at the end *)

Lemma mock_board_upi c arch :
  mock_id c → get_board_type_from_board_id (generate_mock_board_id c (mock_board_type arch)) =
  Ok (match arch with WORMHOLE_B0 => N150 | _ => P150 end).
Proof.
  intros Hc. unfold mock_id in Hc. change (2 ^ 31) with 2147483648 in Hc.
  assert (∀ k, 0 ≤ k < 2 ^ 20 → Z.land (Z.shiftr (u64 (Z.shiftl k 36 + c)) 36) 0xFFFFF = k) as Hupi.
  { intros k Hk. change (2 ^ 20) with 1048576 in Hk. change 0xFFFFF with (Z.ones 20).
    unfold u64. rewrite Z.shiftl_mul_pow2, Z.shiftr_div_pow2, Z.land_ones by lia.
    change (2 ^ 36) with 68719476736. change (2 ^ 64) with 18446744073709551616. change (2 ^ 20) with 1048576.
    rewrite (Z.mod_small (k * _ + c)), Z.div_add_l, Z.div_small, Z.add_0_r by lia. by rewrite Z.mod_small by lia. }
  unfold get_board_type_from_board_id, generate_mock_board_id.
  destruct arch; cbn [mock_board_type]; rewrite Hupi by lia; by vm_compute.
Qed.

Section checks.
Context `{UnorderedLaws}.

Lemma mocked_boards_ok arch d l : mocked arch l d → (∀ c, c ∈ l → mock_id c) → boards_ok (boards d).
Proof.
  intros Hd Hids c b. rewrite (mk_boards _ _ _ Hd). unfold set_at. split.
  - case_decide; [|done]. intros [= <-].
    rewrite (proj2 (mk_on_board _ _ _ Hd _ {[c]})); [set_solver|by exists c].
  - destruct (board_to_chips (boards d) !! b) as [chips|] eqn:E; cbn; [|set_solver].
    apply (mk_on_board _ _ _ Hd) in E as (k & Hk & -> & ->). intros ->%elem_of_singleton. by rewrite decide_True.
Qed.

Lemma mock_verify_boards arch d l :
  mocked arch l d → (∀ c, c ∈ l → mock_id c) → ∃ good, verify_board_info_for_chips true d = Ok good.
Proof.
  intros Hd Hids. unfold verify_board_info_for_chips. cbv zeta.
  match goal with |- context [for_each _ ?f ?s] =>
    destruct (for_each_inv (λ _ _, True) (map_to_list (board_to_chips (boards d))) f s) as (good & Hg & _) end;
    [done| |by exists good].
  intros done [b chips] rest good Hl _.
  destruct (proj1 (mk_on_board _ _ _ Hd b chips)) as (c & Hc & -> & ->).
  { apply elem_of_map_to_list. rewrite Hl. set_solver. }
  rewrite mock_board_upi by by apply Hids. cbn [mbind result_bind].
  exists good. split; [|done]. destruct arch; cbn [get_number_of_chips_from_board_type mbind result_bind];
    by rewrite size_singleton.
Qed.

Lemma mock_verify_harvesting arch d l :
  mocked arch l d → (∀ c, c ∈ all_chips d → c ∈ l) → ∃ good, verify_harvesting_information d = Ok good.
Proof.
  intros Hd Hl. unfold verify_harvesting_information.
  destruct (for_each_inv (λ _ _, True) (set_iter (all_chips d)) (verify_chip_harvesting d) true) as (good & Hg & _);
    [done| |by exists good].
  intros done c rest good Hit _. unfold verify_chip_harvesting, get_board_type.
  rewrite (mk_types _ _ _ Hd), decide_True.
  2:{ apply Hl, elem_of_set_iter. rewrite Hit. set_solver. }
  cbn [mbind result_bind].
  assert (report_mismatch (mock_board_type arch) = Ok false) as Hrep by (destruct arch; by vm_compute).
  rewrite Hrep. repeat case_match; cbn [mbind result_bind] in *; simplify_eq; by eexists.
Qed.

Lemma mock_fill arch d l :
  mocked arch l d → ∃ g, fill_chips_grouped_by_closest_mmio d = Ok (set_grouped g d).
Proof.
  intros Hd.
  destruct (for_each_inv (λ _ d', ∃ g, d' = set_grouped g d) (set_iter (all_chips d)) group_chip d) as (d' & Hf & g & ->).
  - exists (chips_grouped_by_closest_mmio d). by destruct d.
  - intros done c rest d' Hl [g ->]. unfold group_chip.
    assert (is_chip_mmio_capable d c = true) as Hm.
    { apply bool_decide_eq_true. rewrite (mk_mmio _ _ _ Hd), decide_True; [by eexists|].
      apply (mk_chips _ _ _ Hd), elem_of_set_iter. rewrite Hl. set_solver. }
    change (is_chip_mmio_capable (set_grouped g d) c) with (is_chip_mmio_capable d c). rewrite Hm.
    eexists. split; [done|]. by eexists.
  - by exists g.
Qed.

(** A mock cluster of any chips is created without an exception: it has
    exactly these chips, all of the given architecture, each MMIO capable, alone
    in its group and alone on a board; the unique id of a chip is its logical
    id, not the simulated ASIC id the code means to give it. *)
Lemma create_mock_cluster_correct ids arch translation :
  arch ≠ Invalid → (∀ c, c ∈ ids → mock_id c) →
  ∃ d, create_mock_cluster ids arch translation = Ok d ∧ all_chips d = ids ∧ boards_ok (boards d) ∧
    ∀ c, c ∈ ids →
      get_arch_of d c = Ok arch ∧ is_chip_mmio_capable d c = true ∧
      (∀ m, c ∈ set_at m (chips_grouped_by_closest_mmio d) ↔ m = c) ∧
      get_board_chips (boards d) (generate_mock_board_id c (mock_board_type arch)) = Ok {[c]} ∧
      chip_pci_bdfs (tables d) !! c = Some (generate_mock_bdf c) ∧
      chip_unique_ids (tables d) !! c = Some c ∧ c ≠ u64 (kSimUniqueIdBase + u64 c).
Proof.
  intros Harch Hids. unfold create_mock_cluster.
  assert (∀ c, c ∈ set_iter ids → mock_id c) as Hids' by (intros c Hc; by apply Hids, elem_of_set_iter).
  destruct (for_each_inv (mocked arch) (set_iter ids) (add_mock_chip arch translation) empty_descriptor) as (d & -> & Hd).
  - split; try (intros c; cbn; rewrite lookup_empty; by rewrite decide_False by set_solver); try done.
    + cbn. set_solver.
    + intros b chips. cbn. rewrite lookup_empty. split; [done|]. intros (c & []%not_elem_of_nil & _).
  - intros visited c rest d Hl Hd. apply add_mock_chip_step; [|intros k Hk| |done].
    + apply Hids'. rewrite Hl. set_solver.
    + apply Hids'. rewrite Hl. set_solver.
    + pose proof (NoDup_set_iter ids) as Hnd. rewrite Hl in Hnd. apply list.NoDup_app in Hnd as (_ & Hnd & _).
      intros Hin. apply (Hnd c Hin). set_solver.
  - cbn [mbind result_bind]. destruct (mock_fill arch d _ Hd) as [g Hg]. pose proof Hg as Hfill. rewrite Hg.
    cbn [mbind result_bind]. destruct (mk_fresh _ _ _ Hd) as (Hgr & Hca & Hfw).
    apply fill_groups_ok in Hfill as [_ _ Hmem Hgrouped]; [|by apply cache_ok_empty|done].
    change (verify_cluster_descriptor_info true (set_grouped g d)) with (verify_cluster_descriptor_info true d).
    assert (all_chips d = ids) as Hall.
    { apply set_eq. intros c. by rewrite (mk_chips _ _ _ Hd), elem_of_set_iter. }
    assert (∀ c, c ∈ ids → is_chip_mmio_capable d c = true) as Hmm.
    { intros c Hc. apply bool_decide_eq_true. rewrite (mk_mmio _ _ _ Hd), decide_True by by apply elem_of_set_iter. by eexists. }
    assert (∀ c, c ∈ ids → get_arch_of d c = Ok arch) as Harchs.
    { intros c Hc. unfold get_arch_of. by rewrite (mk_arch _ _ _ Hd), decide_True by by apply elem_of_set_iter. }
    unfold verify_cluster_descriptor_info.
    destruct (mock_verify_boards arch d _ Hd Hids') as [b1 ->]. cbn [mbind result_bind].
    destruct (proj2 (verify_same_architecture_spec d)) as [b2 ->].
    { right. exists arch. rewrite Hall. by split. }
    cbn [mbind result_bind]. destruct (mock_verify_harvesting arch d _ Hd) as [b3 ->].
    { intros c. by rewrite (mk_chips _ _ _ Hd). }
    cbn [mbind result_bind]. eexists. split; [reflexivity|]. split; [exact Hall|]. split; [exact (mocked_boards_ok _ _ _ Hd Hids')|].
    intros c Hc. assert (c ∈ set_iter ids) as Hit by by apply elem_of_set_iter. split_and!.
    + by apply Harchs.
    + by apply Hmm.
    + intros m. split; [intros [_ Hm]%Hmem; by rewrite (Hmm c Hc) in Hm|]. intros ->.
      destruct (Hgrouped c) as [m Hm]; [by rewrite Hall|left; by apply Hmm|].
      pose proof (Hmem _ _ Hm) as [_ Hm']. rewrite (Hmm c Hc) in Hm'. by subst m.
    + unfold get_board_chips. cbn [boards set_grouped].
      by rewrite (proj2 (mk_on_board _ _ _ Hd _ {[c]}) (ex_intro _ c (conj Hit (conj eq_refl eq_refl)))).
    + cbn [tables set_grouped]. by rewrite (mk_bdfs _ _ _ Hd), decide_True.
    + cbn [tables set_grouped]. rewrite (mk_ids _ _ _ Hd), decide_True by done. f_equal.
      specialize (Hids c Hc). unfold mock_id in Hids. apply Z.mod_small. lia.
    + specialize (Hids c Hc). unfold mock_id in Hids. unfold u64, kSimUniqueIdBase.
      change (2 ^ 31) with 2147483648 in Hids. change (2 ^ 64) with 18446744073709551616.
      rewrite (Z.mod_small c) by lia. rewrite Z.mod_small by lia. lia.
Qed.
End checks.

Lemma create_mock_cluster_correct_witness :
  ∃ d, @create_mock_cluster sorted_order {[0; 1]} WORMHOLE_B0 true = Ok d ∧ chip_unique_ids (tables d) !! 1 = Some 1.
Proof.
  destruct (@create_mock_cluster_correct sorted_order sorted_order_laws {[0; 1]} WORMHOLE_B0 true) as (d & Hd & _ & _ & Hc).
  - done.
  - intros c [-> | ->]%in_two_chips; unfold mock_id; lia.
  - exists d. split; [done|]. destruct (Hc 1) as (_ & _ & _ & _ & _ & Hid & _); [set_solver|done].
Defined.
