(* ===== verification/RobustMutex.v ===== *)
(** * RobustMutex

    [utils/robust_mutex.cpp]: a mutex shared by the threads of all processes, in
    a file of shared memory, that survives the death of its owner. Each step of a
    method that other threads can observe is a step of the model; threads
    interleave, fail and die with their process at any point. [flock], [shm_open]
    and robust pthread mutexes behave as POSIX documents them.

    An actor is a thread with a [RobustMutex] of its own, all of the same name. *)

From Stdlib Require Import ZArith Lia.
From stdpp Require Import base list numbers relations gmap strings.
From S2P Require Import Prelude.

Local Open Scope Z_scope.

(** ** The shared file *)

Definition INITIALIZED_FLAG : Z := 0x5454554d444d5458.

(** A thread, by the ids of its process and its own. *)
Definition Actor : Type := Z * Z.

(** A robust, process-shared pthread mutex, or the memory of one that was not
    initialised. An owner that took it over has to make it consistent. *)
Inductive pthread_mutex := Raw | Free | Locked (owner : Actor) (consistent : bool) | OwnerDied | NotRecoverable.

Definition EBUSY : Z := 16.
Definition EINVAL : Z := 22.
Definition EPERM : Z := 1.
Definition EOWNERDEAD : Z := 130.
Definition ENOTRECOVERABLE : Z := 131.

(** Return value and new state; [None] is undefined behaviour. *)
Definition pthread_mutex_trylock (a : Actor) (m : pthread_mutex) : option (Z * pthread_mutex) :=
  match m with
  | Raw => None
  | Free => Some (0, Locked a true)
  | OwnerDied => Some (EOWNERDEAD, Locked a false)
  | Locked _ _ => Some (EBUSY, m)
  | NotRecoverable => Some (ENOTRECOVERABLE, m)
  end.
Definition pthread_mutex_consistent (a : Actor) (m : pthread_mutex) : option (Z * pthread_mutex) :=
  match m with
  | Raw => None
  | Locked b false => if decide (a = b) then Some (0, Locked a true) else Some (EINVAL, m)
  | _ => Some (EINVAL, m)
  end.
Definition pthread_mutex_unlock (a : Actor) (m : pthread_mutex) : option (Z * pthread_mutex) :=
  match m with
  | Raw => None
  | Locked b consistent => if decide (a = b) then Some (0, if consistent then Free else NotRecoverable) else Some (EPERM, m)
  | _ => Some (EPERM, m)
  end.

(** [pthread_mutex_wrapper] and the size of the file that holds it. *)
Record Wrapper := MkWrapper { file_size : Z; mutex : pthread_mutex; initialized : Z; owner_tid : Z; owner_pid : Z }.
Definition set_mutex (m : pthread_mutex) (f : Wrapper) : Wrapper := MkWrapper (file_size f) m (initialized f) (owner_tid f) (owner_pid f).
Definition set_owner (tid pid : Z) (f : Wrapper) : Wrapper := MkWrapper (file_size f) (mutex f) (initialized f) tid pid.

(** ** Threads *)

(** Where a thread is, after which of its steps. *)
Inductive Pc :=
  | Outside                        (* no mutex *)
  | Opened                         (* [open_shm_file] *)
  | Flocked                        (* [flock] *)
  | Critical                       (* [multithread_mutex_]: in the critical section *)
  | Resized (was_resized : bool)   (* [resize_shm_file] *)
  | Mapped                         (* [open_pthread_mutex] *)
  | MutexInitialized               (* [pthread_mutex_init] *)
  | Leaving (ok : bool)            (* the end of the critical section, or an exception *)
  | LeavingFlock (ok : bool)       (* [multithread_mutex_] unlocked *)
  | Closing                        (* [flock] released *)
  | Ready                          (* initialised *)
  | Probing                        (* [lock]: the timed attempt *)
  | Waiting                        (* [lock]: the attempt that blocks *)
  | Recovering                     (* the previous owner died *)
  | Acquired                       (* not yet recorded *)
  | Holding                        (* [lock] has returned *)
  | Unlocking                      (* [unlock]: the record is cleared *)
  | Leaked                         (* destroyed while it was held *)
  | Dead.
#[global] Instance Pc_eq_dec : EqDecision Pc.
Proof. solve_decision. Defined.

Record Shared := MkShared {
  file : option Wrapper;
  flock_owner : option Actor;
  multithread_mutex : gmap Z Actor;   (* by process *)
  active_locks : Actor → Z;
  pc : Actor → Pc
}.

Definition at_pc (a : Actor) (p : Pc) (g : Shared) : Shared :=
  MkShared (file g) (flock_owner g) (multithread_mutex g) (active_locks g) (λ b, if decide (b = a) then p else pc g b).
Definition set_file (f : Wrapper) (g : Shared) : Shared :=
  MkShared (Some f) (flock_owner g) (multithread_mutex g) (active_locks g) (pc g).
Definition set_flock (o : option Actor) (g : Shared) : Shared :=
  MkShared (file g) o (multithread_mutex g) (active_locks g) (pc g).
Definition set_multithread (m : gmap Z Actor) (g : Shared) : Shared :=
  MkShared (file g) (flock_owner g) m (active_locks g) (pc g).
Definition add_active (a : Actor) (n : Z) (g : Shared) : Shared :=
  MkShared (file g) (flock_owner g) (multithread_mutex g) (λ b, if decide (b = a) then active_locks g b + n else active_locks g b) (pc g).

(** ** The steps *)

Section Steps.
(** [sizeof(pthread_mutex_wrapper)]. *)
Context (target_file_size : Z).

(** [open_shm_file]: the file is created empty, or is there. *)
Definition open_shm_file (a : Actor) (g : Shared) : Shared :=
  at_pc a Opened match file g with Some _ => g | None => set_file (MkWrapper 0 Raw 0 0 0) g end.
(** [resize_shm_file]: a file that grows is filled with zeros; of another file
    the model keeps what the fields hold. *)
Definition resize_shm_file (a : Actor) (f : Wrapper) (g : Shared) : Shared :=
  if file_size f =? target_file_size then at_pc a (Resized false) g
  else at_pc a (Resized true) (set_file (MkWrapper target_file_size (mutex f) (initialized f) (owner_tid f) (owner_pid f)) g).
(** [initialize_pthread_mutex_first_use], after [pthread_mutex_init]. *)
Definition set_initialized (a : Actor) (f : Wrapper) (g : Shared) : Shared :=
  at_pc a (Leaving true) (set_file (MkWrapper (file_size f) (mutex f) INITIALIZED_FLAG 0 0) g).
Definition record_acquisition (a : Actor) (f : Wrapper) (g : Shared) : Shared :=
  at_pc a Holding (add_active a 1 (set_file (set_owner a.2 a.1 f) g)).
(** [close_mutex]: the mapping of a mutex that is held is not undone, which would
    keep the kernel from marking it. *)
Definition close_mutex (a : Actor) (g : Shared) : Pc := if active_locks g a =? 0 then Outside else Leaked.
(** What the return value of an attempt means; [again]: where a thread goes that
    finds the mutex taken. Other values throw. *)
Definition after_attempt (again : Pc) (res : Z) : Pc :=
  if res =? 0 then Acquired else if res =? EOWNERDEAD then Recovering else if res =? EBUSY then again else Ready.

(** The death of a process: its threads end, [flock] and the memory of the
    process are gone, and the kernel marks the robust mutex. *)
Definition crash (pid : Z) (g : Shared) : Shared :=
  MkShared
    (option_map (λ f, set_mutex (match mutex f with
                                 | Locked b c => if decide (b.1 = pid) then OwnerDied else Locked b c
                                 | m => m end) f) (file g))
    (match flock_owner g with Some b => if decide (b.1 = pid) then None else Some b | None => None end)
    (delete pid (multithread_mutex g)) (active_locks g)
    (λ b, if decide (b.1 = pid) then Dead else pc g b).

Inductive step : Shared → Shared → Prop :=
  (* initialize() *)
  | step_open a g : pc g a = Outside → step g (open_shm_file a g)
  | step_open_fails a g : pc g a = Opened → step g (at_pc a Outside g)
  | step_flock a g : pc g a = Opened → flock_owner g = None → step g (at_pc a Flocked (set_flock (Some a) g))
  | step_enter a g : pc g a = Flocked → multithread_mutex g !! a.1 = None →
      step g (at_pc a Critical (set_multithread (<[a.1 := a]> (multithread_mutex g)) g))
  | step_enter_fails a g : pc g a = Flocked → step g (at_pc a Outside (set_flock None g))
  | step_resize a g f : pc g a = Critical → file g = Some f → step g (resize_shm_file a f g)
  | step_map a g b : pc g a = Resized b → step g (at_pc a Mapped g)
  | step_throws a g : (pc g a = Critical ∨ (∃ b, pc g a = Resized b) ∨ pc g a = Mapped) → step g (at_pc a (Leaving false) g)
  | step_initialized a g f : pc g a = Mapped → file g = Some f → initialized f = INITIALIZED_FLAG → step g (at_pc a (Leaving true) g)
  | step_mutex_init a g f : pc g a = Mapped → file g = Some f → initialized f ≠ INITIALIZED_FLAG →
      step g (at_pc a MutexInitialized (set_file (set_mutex Free f) g))
  | step_set_flag a g f : pc g a = MutexInitialized → file g = Some f → step g (set_initialized a f g)
  | step_leave a g ok : pc g a = Leaving ok →
      step g (at_pc a (LeavingFlock ok) (set_multithread (delete a.1 (multithread_mutex g)) g))
  | step_unflock a g ok : pc g a = LeavingFlock ok →
      step g (at_pc a (if ok : bool then Closing else Outside) (set_flock None g))
  | step_close a g : pc g a = Closing → step g (at_pc a Ready g)
  (* lock(): a timed attempt, then one that blocks; both wait until they return *)
  | step_lock a g : pc g a = Ready → step g (at_pc a Probing g)
  | step_attempt a g f res m : pc g a = Probing → file g = Some f → pthread_mutex_trylock a (mutex f) = Some (res, m) →
      step g (at_pc a (after_attempt Waiting res) (set_file (set_mutex m f) g))
  | step_blocked a g f res m : pc g a = Waiting → file g = Some f → pthread_mutex_trylock a (mutex f) = Some (res, m) →
      step g (at_pc a (after_attempt Waiting res) (set_file (set_mutex m f) g))
  (* probe_lock(0) *)
  | step_probe a g f res m : pc g a = Ready → file g = Some f → pthread_mutex_trylock a (mutex f) = Some (res, m) →
      step g (at_pc a (after_attempt Ready res) (set_file (set_mutex m f) g))
  | step_recover a g f m : pc g a = Recovering → file g = Some f → pthread_mutex_consistent a (mutex f) = Some (0, m) →
      step g (at_pc a Acquired (set_file (set_mutex m f) g))
  | step_record a g f : pc g a = Acquired → file g = Some f → step g (record_acquisition a f g)
  (* unlock() *)
  | step_clear a g f : pc g a = Holding → file g = Some f →
      step g (at_pc a Unlocking (add_active a (-1) (set_file (set_owner 0 0 f) g)))
  | step_unlock a g f res m : pc g a = Unlocking → file g = Some f → pthread_mutex_unlock a (mutex f) = Some (res, m) →
      step g (at_pc a Ready (set_file (set_mutex m f) g))
  (* the destructor; the death of a process *)
  | step_destroy a g : pc g a = Ready ∨ pc g a = Holding → step g (at_pc a (close_mutex a g) g)
  | step_crash pid g : step g (crash pid g).

(** Before anyone has opened the file, which may be there from earlier runs of
    which no thread is left. *)
Definition start (g : Shared) : Prop :=
  (∀ a, pc g a = Outside ∧ active_locks g a = 0) ∧ flock_owner g = None ∧ multithread_mutex g = ∅ ∧
  match file g with
  | None => True
  | Some f => initialized f = INITIALIZED_FLAG → mutex f = Free ∨ mutex f = OwnerDied
  end.
Definition reachable (g : Shared) : Prop := ∃ g0, start g0 ∧ rtc step g0 g.

(** ** The invariant *)

(** The thread has run [initialize]. *)
Definition past_init (p : Pc) : bool :=
  match p with Closing | Ready | Probing | Waiting | Recovering | Acquired | Holding | Unlocking | Leaked => true | _ => false end.
(** It owns the mutex. *)
Definition owns (p : Pc) : bool := match p with Recovering | Acquired | Holding | Unlocking | Leaked => true | _ => false end.
Definition made_consistent (p : Pc) : bool := match p with Recovering => false | _ => true end.
(** It holds [flock], and [multithread_mutex_] of its process. *)
Definition holds_flock (p : Pc) : bool :=
  match p with Flocked | Critical | Resized _ | Mapped | MutexInitialized | Leaving _ | LeavingFlock _ => true | _ => false end.
Definition in_critical (p : Pc) : bool :=
  match p with Critical | Resized _ | Mapped | MutexInitialized | Leaving _ => true | _ => false end.
(** It has opened the file. *)
Definition has_file (p : Pc) : bool := match p with Outside | Dead => false | _ => true end.

(** The file has its size. *)
Definition sized (p : Pc) : bool :=
  match p with Resized _ | Mapped | MutexInitialized | Leaving true | LeavingFlock true => true | _ => past_init p end.
Definition recorded (p : Pc) : bool := match p with Holding | Leaked => true | _ => false end.

(** What holds of the file. *)
Definition file_ok (g : Shared) (f : Wrapper) : Prop :=
  (initialized f = INITIALIZED_FLAG → mutex f ≠ Raw ∧ mutex f ≠ NotRecoverable) ∧
  (∀ a c, initialized f = INITIALIZED_FLAG → mutex f = Locked a c → owns (pc g a) = true).
(** What holds of a thread. *)
Record thread_ok (g : Shared) (f : Wrapper) (a : Actor) : Prop := {
  thread_flock : holds_flock (pc g a) = true → flock_owner g = Some a;
  thread_critical : in_critical (pc g a) = true → multithread_mutex g !! a.1 = Some a;
  thread_initialized : past_init (pc g a) = true ∨ pc g a = Leaving true ∨ pc g a = LeavingFlock true → initialized f = INITIALIZED_FLAG;
  thread_sized : sized (pc g a) = true → file_size f = target_file_size;
  thread_owns : owns (pc g a) = true → mutex f = Locked a (made_consistent (pc g a));
  thread_first : pc g a = MutexInitialized → mutex f = Free ∧ initialized f ≠ INITIALIZED_FLAG;
  thread_active : pc g a ≠ Dead → active_locks g a = if recorded (pc g a) then 1 else 0
}.
Definition invariant (g : Shared) : Prop :=
  match file g with
  | None => ∀ a, has_file (pc g a) = false ∧ (pc g a ≠ Dead → active_locks g a = 0)
  | Some f => file_ok g f ∧ ∀ a, thread_ok g f a
  end.

(** A step of [a] from [g], whose file is [f], to [g'] with [f'], as the other
    threads see it. *)
Record unseen (a : Actor) (g : Shared) (f : Wrapper) (g' : Shared) (f' : Wrapper) : Prop := {
  unseen_pc b : b ≠ a → pc g' b = pc g b;
  unseen_active b : b ≠ a → active_locks g' b = active_locks g b;
  unseen_flock b : b ≠ a → flock_owner g = Some b → flock_owner g' = Some b;
  unseen_critical (b : Actor) : b ≠ a → multithread_mutex g !! b.1 = Some b → multithread_mutex g' !! b.1 = Some b;
  unseen_initialized : initialized f = INITIALIZED_FLAG → initialized f' = INITIALIZED_FLAG;
  unseen_sized : file_size f = target_file_size → file_size f' = target_file_size;
  unseen_mutex b : b ≠ a → owns (pc g b) = true → mutex f' = mutex f;
  unseen_first b : b ≠ a → pc g b = MutexInitialized → mutex f' = mutex f ∧ initialized f' = initialized f
}.
Lemma invariant_unseen a g f g' f' :
  file g = Some f → invariant g → file g' = Some f' → unseen a g f g' f' →
  (initialized f' = INITIALIZED_FLAG → mutex f' ≠ Raw ∧ mutex f' ≠ NotRecoverable) →
  (∀ b c, initialized f' = INITIALIZED_FLAG → mutex f' = Locked b c →
     if decide (b = a) then owns (pc g' a) = true else initialized f = INITIALIZED_FLAG ∧ mutex f = Locked b c) →
  thread_ok g' f' a → invariant g'.
Proof.
  unfold invariant. intros -> [[Hf1 Hf2] Ht] -> Hu Hnew Hlocked Ha. split.
  - split; [done|]. intros b c Hi Hl. specialize (Hlocked b c Hi Hl). destruct (decide (b = a)) as [->|Hb]; [done|].
    rewrite (unseen_pc _ _ _ _ _ Hu) by done. by eapply Hf2; apply Hlocked.
  - intros b. destruct (decide (b = a)) as [->|Hb]; [done|]. destruct (Ht b) as [T1 T2 T3 T4 T5 T6 T7].
    pose proof (unseen_pc _ _ _ _ _ Hu b Hb) as Hpc. constructor; rewrite ?Hpc, ?(unseen_active _ _ _ _ _ Hu b Hb); intros Hp.
    + by eapply unseen_flock, T1.
    + by eapply unseen_critical, T2.
    + by eapply unseen_initialized, T3.
    + by eapply unseen_sized, T4.
    + rewrite (unseen_mutex _ _ _ _ _ Hu b Hb Hp). auto.
    + destruct (unseen_first _ _ _ _ _ Hu b Hb Hp) as [-> ->]. auto.
    + auto.
Qed.

Lemma at_pc_same a p g : pc (at_pc a p g) a = p.
Proof. cbn. by rewrite decide_True. Qed.

Lemma file_of a g : invariant g → has_file (pc g a) = true → ∃ f, file g = Some f.
Proof. unfold invariant. destruct (file g) as [f|]; [by exists f|]. intros Hg. by destruct (Hg a) as [-> _]. Qed.
Lemma invariant_thread a g f : invariant g → file g = Some f → thread_ok g f a.
Proof. unfold invariant. intros Hg Hf. rewrite Hf in Hg. apply Hg. Qed.
Lemma invariant_file g f : invariant g → file g = Some f → file_ok g f.
Proof. unfold invariant. intros Hg Hf. rewrite Hf in Hg. apply Hg. Qed.

(** A step that changes neither the file nor the count of locks. *)
Lemma invariant_moves a p g g' :
  invariant g → has_file (pc g a) = true → file g' = file g → active_locks g' = active_locks g →
  (∀ b, pc g' b = if decide (b = a) then p else pc g b) →
  (∀ b, b ≠ a → flock_owner g = Some b → flock_owner g' = Some b) →
  (∀ b : Actor, b ≠ a → multithread_mutex g !! b.1 = Some b → multithread_mutex g' !! b.1 = Some b) →
  (holds_flock p = true → flock_owner g' = Some a) →
  (in_critical p = true → multithread_mutex g' !! a.1 = Some a) →
  (∀ f, file g = Some f → thread_ok g f a → initialized f = INITIALIZED_FLAG ∨ (past_init p = false ∧ p ≠ Leaving true ∧ p ≠ LeavingFlock true)) →
  (sized p = true → sized (pc g a) = true) → owns p = owns (pc g a) → (owns p = true → made_consistent p = made_consistent (pc g a)) →
  p ≠ MutexInitialized → recorded p = recorded (pc g a) → pc g a ≠ Dead →
  invariant g'.
Proof.
  intros Hinv Hfile Hf Hact Hpc Hfl Hmm Hp1 Hp2 Hp3 Hp4 Hp5 Hp6 Hp7 Hp8 Hp9.
  destruct (file_of a g Hinv Hfile) as [f Ef]. pose proof (invariant_thread a g f Hinv Ef) as Ht.
  destruct (invariant_file g f Hinv Ef) as [Hf1 Hf2].
  assert (pc g' a = p) as Ha by (by rewrite Hpc, decide_True).
  eapply (invariant_unseen a g f g' f); [done|done|by rewrite Hf| | | |].
  - constructor; auto; intros; rewrite ?Hpc, ?decide_False by done; auto. by rewrite Hact.
  - done.
  - intros b c Hi Hl. destruct (decide (b = a)) as [->|Hb]; [|done]. rewrite Ha, Hp5. by eapply Hf2.
  - destruct Ht as [T1 T2 T3 T4 T5 T6 T7]. constructor; rewrite ?Ha; auto.
    + intros Hx. destruct (Hp3 f Ef (Build_thread_ok _ _ _ T1 T2 T3 T4 T5 T6 T7)) as [|(N1 & N2 & N3)]; [done|]. destruct_or! Hx; congruence.
    + intros Ho. rewrite (Hp6 Ho). apply T5. by rewrite <- Hp5.
    + done.
    + intros _. rewrite Hact, Hp8. by apply T7.
Qed.

Lemma open_invariant a g : invariant g → pc g a = Outside → invariant (open_shm_file a g).
Proof.
  intros Hinv Hp. unfold open_shm_file. destruct (file g) as [f|] eqn:Ef.
  - pose proof (invariant_thread a g f Hinv Ef) as [T1 T2 T3 T4 T5 T6 T7]. destruct (invariant_file g f Hinv Ef) as [Hf1 Hf2]. rewrite Hp in *.
    eapply (invariant_unseen a g f _ f); [done|done|exact Ef| | | |].
    + constructor; cbn; intros; rewrite ?decide_False by done; auto.
    + done.
    + intros b c Hi Hl. destruct (decide (b = a)) as [->|]; [|done]. specialize (Hf2 a c Hi Hl). by rewrite Hp in Hf2.
    + constructor; rewrite ?at_pc_same; try done; [by intros [|[|]]|]. intros _. by apply T7.
  - unfold invariant in *. rewrite Ef in Hinv. cbn. split; [split; cbn; done|]. intros b. destruct (Hinv b) as [Hb Ha].
    constructor; cbn; (destruct (decide (b = a)) as [->|]; [|destruct (pc g b) as [| | | | | | | [] | [] | | | | | | | | | |] eqn:Eb]); try done.
    all: try (intros; destruct_or!; done).
    all: intros Hd; apply Ha; by rewrite ?Hp, ?Eb.
Qed.

(** An attempt to take the mutex. *)
Lemma attempt_invariant a again g f res m :
  invariant g → file g = Some f → pc g a ∈ [Probing; Waiting; Ready] → again ∈ [Waiting; Ready] →
  pthread_mutex_trylock a (mutex f) = Some (res, m) →
  invariant (at_pc a (after_attempt again res) (set_file (set_mutex m f) g)).
Proof.
  intros Hinv Ef Hp Hag Htry. pose proof (invariant_thread a g f Hinv Ef) as [T1 T2 T3 T4 T5 T6 T7].
  destruct (invariant_file g f Hinv Ef) as [Hf1 Hf2].
  assert (initialized f = INITIALIZED_FLAG ∧ file_size f = target_file_size ∧ active_locks g a = 0) as (Hi & Hs & Hact).
  { rewrite !elem_of_cons, elem_of_nil in Hp. destruct Hp as [Hp|[Hp|[Hp|[]]]]; rewrite Hp in *; split_and!; auto; by apply T7. }
  specialize (Hf1 Hi). destruct Hf1 as [Hraw Hnr].
  assert (pc g a ≠ MutexInitialized ∧ owns (pc g a) = false) as [Hnf Hno].
  { rewrite !elem_of_cons, elem_of_nil in Hp. by destruct Hp as [Hp|[Hp|[Hp|[]]]]; rewrite Hp. }
  eapply (invariant_unseen a g f _ (set_mutex m f)); [done|done|done| | | |]; cbn.
  - constructor; cbn; intros; rewrite ?decide_False by done; auto.
    + pose proof (thread_owns _ _ _ (invariant_thread b g f Hinv Ef) ltac:(done)) as Ho. rewrite Ho in Htry |- *. by simplify_eq/=.
    + destruct (thread_first _ _ _ (invariant_thread b g f Hinv Ef)); [done|]. congruence.
  - intros _. destruct (mutex f); cbn in Htry; by simplify_eq/=.
  - intros b c _ Hl. destruct (decide (b = a)) as [->|Hb].
    + rewrite decide_True by done. destruct (mutex f) as [| |o c'| |] eqn:Em; cbn in Htry; simplify_eq/=; try done.
      specialize (Hf2 a c Hi eq_refl). congruence.
    + split; [done|]. destruct (mutex f) as [| |o c'| |]; cbn in Htry; by simplify_eq/=.
  - assert (after_attempt again res ∈ [Acquired; Recovering; Waiting; Ready]) as Hin.
    { unfold after_attempt. rewrite !elem_of_cons in *. destruct (_ =? _); [auto|]. destruct (_ =? _); [auto|]. destruct (_ =? _); tauto. }
    constructor; rewrite ?at_pc_same; cbn; auto.
    + rewrite !elem_of_cons, elem_of_nil in Hin. by destruct Hin as [->|[->|[->|[->|[]]]]].
    + rewrite !elem_of_cons, elem_of_nil in Hin. by destruct Hin as [->|[->|[->|[->|[]]]]].
    + intros Ho. destruct (mutex f) as [| |o c'| |]; cbn in Htry; simplify_eq/=; try done.
      unfold after_attempt in Ho. cbn in Ho. rewrite !elem_of_cons, elem_of_nil in Hag. by destruct Hag as [->|[->|[]]].
    + intros Hm. rewrite Hm, !elem_of_cons, elem_of_nil in Hin. by destruct Hin as [?|[?|[?|[?|[]]]]].
    + intros _. rewrite Hact. rewrite !elem_of_cons, elem_of_nil in Hin. by destruct Hin as [->|[->|[->|[->|[]]]]].
Qed.

(** A step of an owner [a], which stays one, or the release. *)
Lemma owner_invariant a p g f g' f' :
  invariant g → file g = Some f → owns (pc g a) = true → pc g a ≠ Leaked →
  file g' = Some f' → initialized f' = initialized f → file_size f' = file_size f →
  flock_owner g' = flock_owner g → multithread_mutex g' = multithread_mutex g →
  (∀ b, pc g' b = if decide (b = a) then p else pc g b) → (∀ b, b ≠ a → active_locks g' b = active_locks g b) →
  active_locks g' a = (if recorded p then 1 else 0) → past_init p = true →
  mutex f' = (if owns p then Locked a (made_consistent p) else Free) → invariant g'.
Proof.
  intros Hinv Ef Ho Hnl Ef' Hi Hs Hfl Hmm Hpc Hact Hacta Hpast Hm.
  pose proof (invariant_thread a g f Hinv Ef) as [T1 T2 T3 T4 T5 T6 T7]. destruct (invariant_file g f Hinv Ef) as [Hf1 Hf2].
  assert (past_init (pc g a) = true) as Hpa by (by destruct (pc g a)).
  assert (sized (pc g a) = true) as Hsa by (by destruct (pc g a) as [| | | | | | |[]|[]| | | | | | | | | |]).
  assert (pc g' a = p) as Ha by (by rewrite Hpc, decide_True).
  assert (initialized f = INITIALIZED_FLAG) as Hinit by auto.
  eapply (invariant_unseen a g f g' f'); [done|done|done| | | |].
  - constructor; intros; rewrite ?Hfl, ?Hmm, ?Hi, ?Hs; auto.
    + by rewrite Hpc, decide_False.
    + pose proof (thread_owns _ _ _ (invariant_thread b g f Hinv Ef) ltac:(done)) as Hob. rewrite (T5 Ho) in Hob. congruence.
    + destruct (thread_first _ _ _ (invariant_thread b g f Hinv Ef)); [done|]. congruence.
  - intros _. rewrite Hm. by destruct (owns p).
  - intros b c _ Hl. rewrite Hm in Hl. destruct (owns p) eqn:Eo; [|done]. injection Hl as <- <-. by rewrite decide_True, Ha.
  - constructor; rewrite ?Ha, ?Hi, ?Hs; auto.
    + by destruct p.
    + by destruct p.
    + intros Hop. by rewrite Hm, Hop.
    + by intros ->.
Qed.

(** In the critical section a thread is alone. *)
Lemma alone a b g f : invariant g → file g = Some f → holds_flock (pc g a) = true → holds_flock (pc g b) = true → a = b.
Proof.
  intros Hinv Ef Ha Hb. pose proof (thread_flock _ _ _ (invariant_thread a g f Hinv Ef) Ha) as H1.
  pose proof (thread_flock _ _ _ (invariant_thread b g f Hinv Ef) Hb) as H2. congruence.
Qed.

Lemma resize_invariant a g f : invariant g → file g = Some f → pc g a = Critical → invariant (resize_shm_file a f g).
Proof.
  intros Hinv Ef Hp. pose proof (invariant_thread a g f Hinv Ef) as [T1 T2 T3 T4 T5 T6 T7].
  destruct (invariant_file g f Hinv Ef) as [Hf1 Hf2]. rewrite Hp in *. unfold resize_shm_file.
  destruct (file_size f =? target_file_size) eqn:Es.
  - apply Z.eqb_eq in Es. eapply (invariant_unseen a g f _ f); [done|done|done| | | |]; cbn.
    + constructor; cbn; intros; rewrite ?decide_False by done; auto.
    + done.
    + intros b c Hi Hl. specialize (Hf2 b c Hi Hl). destruct (decide (b = a)) as [->|]; [by rewrite Hp in Hf2|done].
    + constructor; rewrite ?at_pc_same; cbn; auto; [by intros [|[|]]|done].
  - eapply (invariant_unseen a g f _ _); [done|done|done| | | |]; cbn.
    + constructor; cbn; intros; rewrite ?decide_False by done; auto.
    + done.
    + intros b c Hi Hl. specialize (Hf2 b c Hi Hl). destruct (decide (b = a)) as [->|]; [by rewrite Hp in Hf2|done].
    + constructor; rewrite ?at_pc_same; cbn; auto; [by intros [|[|]]|done].
Qed.

(** A step of the first use of the mutex. *)
Lemma first_use_invariant a p g f f' :
  invariant g → file g = Some f → holds_flock (pc g a) = true → initialized f ≠ INITIALIZED_FLAG → sized (pc g a) = true →
  in_critical (pc g a) = true → mutex f' = Free → file_size f' = file_size f →
  (p = MutexInitialized ∧ initialized f' = initialized f) ∨ (p = Leaving true ∧ initialized f' = INITIALIZED_FLAG) →
  invariant (at_pc a p (set_file f' g)).
Proof.
  intros Hinv Ef Hfl Hi Hs Hc Hm Hsize Hp. pose proof (invariant_thread a g f Hinv Ef) as [T1 T2 T3 T4 T5 T6 T7].
  assert (∀ b, owns (pc g b) = true → False) as Hno.
  { intros b Hb. apply Hi, (thread_initialized _ _ _ (invariant_thread b g f Hinv Ef)). left. by destruct (pc g b). }
  assert (active_locks g a = 0) as Hact by (by rewrite T7; destruct (pc g a)).
  apply (invariant_unseen a g f _ f'); [done|done|done| | | |].
  - constructor; cbn; intros; rewrite ?decide_False by done; auto.
    + done.
    + congruence.
    + exfalso; eauto.
    + assert (a = b) by (by apply (alone a b g f); [..|rewrite H0]). congruence.
  - by rewrite Hm.
  - intros b c _ Hl. congruence.
  - constructor; rewrite ?at_pc_same; cbn; rewrite ?Hsize; auto.
    + destruct Hp as [[-> _]|[-> ?]]; [|done]. by intros [|[|]].
    + by destruct Hp as [[-> _]|[-> ?]].
    + intros ->. destruct Hp as [[_ ->]|[]]; done.
    + intros _. by destruct Hp as [[-> _]|[-> ?]].
Qed.

Lemma crash_invariant pid g : invariant g → invariant (crash pid g).
Proof.
  unfold invariant, crash. destruct (file g) as [f|]; cbn.
  - intros [[Hf1 Hf2] Ht]. split; [split; cbn|].
    + intros Hi. destruct (Hf1 Hi). destruct (mutex f); try done. by case_decide.
    + intros a c Hi Hl. destruct (mutex f) as [| |b c'| |] eqn:Em; try done. case_decide as Hd; [done|]. simplify_eq.
      rewrite decide_False by done. by eapply Hf2.
    + intros a. destruct (Ht a) as [T1 T2 T3 T4 T5 T6 T7]. constructor; cbn; (case_decide as Hd; [try done; by intros [|[|]]|]); auto.
      * intros Hp. rewrite T1 by done. by rewrite decide_False.
      * intros Hp. by rewrite lookup_delete_ne, T2.
      * intros Hp. rewrite T5 by done. by rewrite decide_False.
      * intros Hp. destruct (T6 Hp) as [-> ?]. done.
  - intros Hg a. destruct (Hg a) as [H1 H2]. by case_decide.
Qed.

Lemma start_invariant g : start g → invariant g.
Proof.
  intros (Hpc & _ & _ & Hf). unfold invariant. destruct (file g) as [f|].
  - split; [split|].
    + intros Hi. destruct (Hf Hi) as [-> | ->]; done.
    + intros a c Hi Hl. destruct (Hf Hi); congruence.
    + intros a. destruct (Hpc a) as [Hp Ha]. constructor; rewrite Hp; try done. by intros [|[|]].
  - intros a. by destruct (Hpc a) as [-> ->].
Qed.

(** What a thread holds is no other thread's. *)
Lemma flock_held a g : invariant g → holds_flock (pc g a) = true → flock_owner g = Some a.
Proof.
  intros Hinv Ha. destruct (file_of a g Hinv) as [f Ef]; [by destruct (pc g a)|]. by apply (thread_flock _ _ _ (invariant_thread a g f Hinv Ef)).
Qed.
Lemma critical_held a g : invariant g → in_critical (pc g a) = true → multithread_mutex g !! a.1 = Some a.
Proof.
  intros Hinv Ha. destruct (file_of a g Hinv) as [f Ef]; [by destruct (pc g a)|]. by apply (thread_critical _ _ _ (invariant_thread a g f Hinv Ef)).
Qed.

(** The invariant after a step that only moves [a] to [p]. *)
#[local] Ltac moves a p :=
  apply (invariant_moves a p _ _ ltac:(eassumption)); cbn; try done; try congruence;
  try (intros _; apply flock_held; [eassumption|]); try (intros _; apply critical_held; [eassumption|]);
  repeat match goal with H : pc _ a = _ |- _ => rewrite H end; cbn; try done;
  try (by intros; right); try (by intros f0 _ Ht0; left; apply (thread_initialized _ _ _ Ht0); repeat match goal with H : pc _ a = _ |- _ => rewrite H end; auto).

Lemma active_held a g : invariant g → pc g a ≠ Dead → active_locks g a = if recorded (pc g a) then 1 else 0.
Proof.
  intros Hinv Hd. unfold invariant in Hinv. destruct (file g) as [f|].
  - by apply (thread_active _ _ _ (proj2 Hinv a)).
  - destruct (Hinv a) as [Hp Ha]. rewrite (Ha Hd). by destruct (pc g a).
Qed.
Lemma owner_holds a g f : invariant g → file g = Some f → owns (pc g a) = true → mutex f = Locked a (made_consistent (pc g a)).
Proof. intros Hinv Ef. apply (thread_owns _ _ _ (invariant_thread a g f Hinv Ef)). Qed.

(** The invariant after a step of the owner [a]. *)
#[local] Ltac owner a p g f :=
  pose proof (owner_holds a g f ltac:(eassumption) ltac:(eassumption)) as Hm; pose proof (active_held a g ltac:(eassumption)) as Hact;
  match goal with H : pc g a = _ |- _ => rewrite H in Hm, Hact end; specialize (Hm eq_refl); specialize (Hact ltac:(done)); cbn in Hact;
  repeat match goal with H : _ = Some (_, _) |- _ => rewrite Hm in H; cbn in H; rewrite ?decide_True in H by done; simplify_eq end;
  eapply (owner_invariant a p g f); cbn; rewrite ?decide_True by done; rewrite ?Hact; try done;
  try (by match goal with H : pc g a = _ |- _ => rewrite H end); try (by intros; case_decide).

Lemma step_invariant g g' : invariant g → step g g' → invariant g'.
Proof.
  intros Hinv Hs. destruct Hs as [a g Hp|a g Hp|a g Hp Hn|a g Hp Hn|a g Hp|a g f Hp Ef|a g b Hp|a g Hp|a g f Hp Ef Hi|a g f Hp Ef Hi
    |a g f Hp Ef|a g ok Hp|a g ok Hp|a g Hp|a g Hp|a g f res m Hp Ef Ht|a g f res m Hp Ef Ht|a g f res m Hp Ef Ht|a g f m Hp Ef Hc
    |a g f Hp Ef|a g f Hp Ef|a g f res m Hp Ef Hu|a g Hp|pid g].
  - by apply open_invariant.
  - moves a Outside.
  - moves a Flocked.
  - moves a Critical.
    + intros b Hb Hm. rewrite lookup_insert_ne; [done|]. congruence.
    + intros _. by rewrite lookup_insert_eq.
  - moves a Outside. intros b Hb Hf. rewrite (flock_held a g Hinv) in Hf; [congruence|by rewrite Hp].
  - by apply resize_invariant.
  - moves a Mapped.
  - destruct Hp as [Hp|[[b Hp]|Hp]]; moves a (Leaving false).
  - moves a (Leaving true). intros f0 Ef0 _. left. congruence.
  - apply first_use_invariant with f; rewrite ?Hp; auto.
  - destruct (thread_first _ _ _ (invariant_thread a g f Hinv Ef) Hp). apply first_use_invariant with f; rewrite ?Hp; auto.
  - moves a (LeavingFlock ok).
    + intros b Hb Hm. rewrite lookup_delete_ne; [done|]. intros Heq. rewrite <- Heq, (critical_held a g Hinv) in Hm; [congruence|by rewrite Hp].
    + destruct ok; [|by intros; right]. intros f0 _ Ht0. left. apply (thread_initialized _ _ _ Ht0). auto.
  - assert (∀ b, b ≠ a → flock_owner g = Some b → None = Some b).
    { intros b Hb Hf. rewrite (flock_held a g Hinv) in Hf; [congruence|by rewrite Hp]. }
    destruct ok; [moves a Closing|moves a Outside].
  - moves a Ready.
  - moves a Probing.
  - apply (attempt_invariant a Waiting g f res m); rewrite ?Hp; set_solver.
  - apply (attempt_invariant a Waiting g f res m); rewrite ?Hp; set_solver.
  - apply (attempt_invariant a Ready g f res m); rewrite ?Hp; set_solver.
  - owner a Acquired g f.
  - owner a Holding g f.
  - owner a Unlocking g f.
  - owner a Ready g f.
  - pose proof (active_held a g Hinv) as Hact. unfold close_mutex.
    destruct Hp as [Hp|Hp]; rewrite Hp in Hact; rewrite Hact by done; [moves a Outside|moves a Leaked].
  - by apply crash_invariant.
Qed.

Lemma reachable_invariant g : reachable g → invariant g.
Proof. intros (g0 & Hg0 & Hs). apply start_invariant in Hg0. induction Hs; eauto using step_invariant. Qed.

(** C6: THE MUTEX EXCLUDES, WHATEVER DIES. In every state that the threads of all
    processes reach, however they interleave and wherever processes die: at most
    one thread owns the mutex; at most one is in the critical section of
    [initialize]; a thread that has run [initialize] has a file of the right size
    with an initialised mutex that can be used ([pthread_mutex_t] memory is never
    used raw, and the mutex never becomes unrecoverable), which no thread is
    about to initialise again. *)
Theorem robust_mutex_exclusive g :
  reachable g →
  (∀ a b, owns (pc g a) = true → owns (pc g b) = true → a = b) ∧
  (∀ a b, in_critical (pc g a) = true → in_critical (pc g b) = true → a = b) ∧
  (∀ a, past_init (pc g a) = true →
     ∃ f, file g = Some f ∧ file_size f = target_file_size ∧ initialized f = INITIALIZED_FLAG ∧ mutex f ≠ Raw ∧ mutex f ≠ NotRecoverable) ∧
  (∀ a b, past_init (pc g a) = true → pc g b ≠ MutexInitialized).
Proof.
  intros Hr. apply reachable_invariant in Hr. split_and!.
  - intros a b Ha Hb. destruct (file_of a g Hr) as [f Ef]; [by destruct (pc g a)|].
    pose proof (owner_holds a g f Hr Ef Ha). pose proof (owner_holds b g f Hr Ef Hb). congruence.
  - intros a b Ha Hb. destruct (file_of a g Hr) as [f Ef]; [by destruct (pc g a)|].
    by apply (alone a b g f); [..|destruct (pc g a)|destruct (pc g b)].
  - intros a Ha. destruct (file_of a g Hr) as [f Ef]; [by destruct (pc g a)|]. exists f.
    destruct (invariant_thread a g f Hr Ef) as [_ _ Hi Hs _ _ _]. specialize (Hi (or_introl Ha)).
    destruct (invariant_file g f Hr Ef) as [Hf _]. destruct (Hf Hi). split_and!; auto. apply Hs. by destruct (pc g a).
  - intros a b Ha Hb. destruct (file_of a g Hr) as [f Ef]; [by destruct (pc g a)|].
    destruct (thread_first _ _ _ (invariant_thread b g f Hr Ef) Hb) as [_ []]. apply (thread_initialized _ _ _ (invariant_thread a g f Hr Ef)). auto.
Qed.

(** A thread in or before [lock], also one that is blocked in it. *)
Definition locking (p : Pc) : Prop := p = Ready ∨ p = Probing ∨ p = Waiting.

(** Its attempt takes a mutex that no thread owns. *)
Lemma attempt_takes a g f :
  file g = Some f → pc g a = Probing ∨ pc g a = Waiting → mutex f = Free ∨ mutex f = OwnerDied →
  ∃ g', rtc step g g' ∧ pc g' a = Acquired ∧ (∀ b, b ≠ a → pc g' b = pc g b) ∧
    file g' = Some (MkWrapper (file_size f) (Locked a true) (initialized f) (owner_tid f) (owner_pid f)).
Proof.
  intros Ef Hp Hm.
  assert (∀ res m, pthread_mutex_trylock a (mutex f) = Some (res, m) → step g (at_pc a (after_attempt Waiting res) (set_file (set_mutex m f) g))) as H2.
  { intros res m Ht. destruct Hp; [by apply step_attempt|by apply step_blocked]. }
  destruct Hm as [Hm|Hm]; rewrite Hm in H2; specialize (H2 _ _ eq_refl).
  - eexists. split; [eapply rtc_l, rtc_refl; exact H2|]. cbn. rewrite decide_True by done.
    split_and!; try done. intros b Hb. by rewrite !decide_False.
  - match type of H2 with step _ ?x => set (g2 := x) in H2 end.
    pose proof (step_recover a g2 (set_mutex (Locked a false) f) (Locked a true) (at_pc_same a Recovering _) eq_refl) as H3. cbn in H3.
    rewrite decide_True in H3 by done. specialize (H3 eq_refl).
    eexists. split; [eapply rtc_l, rtc_l, rtc_refl; [exact H2|exact H3]|]. cbn. rewrite decide_True by done.
    split_and!; try done. intros b Hb. by rewrite !decide_False.
Qed.
Lemma takes a g f :
  file g = Some f → locking (pc g a) → mutex f = Free ∨ mutex f = OwnerDied →
  ∃ g', rtc step g g' ∧ pc g' a = Holding ∧ (∀ b, b ≠ a → pc g' b = pc g b) ∧
    file g' = Some (MkWrapper (file_size f) (Locked a true) (initialized f) a.2 a.1).
Proof.
  intros Ef Hp Hm.
  assert (∃ g0, rtc step g g0 ∧ file g0 = Some f ∧ (pc g0 a = Probing ∨ pc g0 a = Waiting) ∧ ∀ b, b ≠ a → pc g0 b = pc g b)
    as (g0 & Hs0 & Ef0 & Hp0 & Ho0).
  { destruct Hp as [Hp|Hp]; [|by exists g; split; [apply rtc_refl|]].
    exists (at_pc a Probing g). split; [eapply rtc_l, rtc_refl; by apply step_lock|]. split; [done|]. split; [left; apply at_pc_same|].
    intros b Hb. cbn. by rewrite decide_False. }
  destruct (attempt_takes a g0 f Ef0 Hp0 Hm) as (g1 & Hs & Hp1 & Ho & Ef1).
  exists (record_acquisition a (MkWrapper (file_size f) (Locked a true) (initialized f) (owner_tid f) (owner_pid f)) g1). split_and!.
  - eapply rtc_r; [etrans; [exact Hs0|exact Hs]|]. by apply step_record.
  - apply at_pc_same.
  - intros b Hb. cbn. rewrite decide_False by done. rewrite Ho by done. auto.
  - done.
Qed.

(** C13: THE MUTEX SURVIVES ITS OWNER. When the process of the thread that owns the
    mutex dies, anywhere, every thread of another process that is about to call
    [lock], is in its first attempt or is blocked in it, takes the mutex by steps of its own
    alone, makes it consistent on the way, and records itself as the owner; and what it took it can release. *)
Theorem robust_mutex_survives pid a g :
  reachable g → locking (pc g a) → a.1 ≠ pid → (∀ b, owns (pc g b) = true → b.1 = pid) →
  ∃ g1 g2 f,
    rtc step (crash pid g) g1 ∧ pc g1 a = Holding ∧ (∀ b, b ≠ a → pc g1 b = pc (crash pid g) b) ∧
    file g1 = Some f ∧ mutex f = Locked a true ∧ owner_pid f = a.1 ∧ owner_tid f = a.2 ∧
    rtc step g1 g2 ∧ pc g2 a = Ready ∧ file g2 = Some (set_owner 0 0 (set_mutex Free f)).
Proof.
  intros Hr Hp Hne Hown. apply reachable_invariant in Hr. pose proof (crash_invariant pid g Hr) as Hc.
  assert (locking (pc (crash pid g) a)) as Hpc by (cbn; by rewrite decide_False).
  destruct (file_of a _ Hc) as [f Ef]; [by destruct Hpc as [->|[->| ->]]|].
  assert (mutex f = Free ∨ mutex f = OwnerDied) as Hm.
  { destruct (invariant_file _ f Hc Ef) as [Hf1 Hf2].
    assert (initialized f = INITIALIZED_FLAG) as Hi by (apply (thread_initialized _ _ _ (invariant_thread a _ f Hc Ef)); left; by destruct Hpc as [->|[->| ->]]).
    destruct (Hf1 Hi). destruct (mutex f) as [| |b c| |] eqn:Em; auto; try done.
    specialize (Hf2 b c Hi eq_refl). cbn in Hf2. case_decide as Hd; [done|]. by apply Hown in Hf2. }
  destruct (takes a _ f Ef Hpc Hm) as (g1 & Hs & Hp1 & Ho & Ef1).
  pose proof (step_clear a g1 _ Hp1 Ef1) as H1.
  match type of H1 with step _ ?x => set (g2 := x) in H1 end.
  pose proof (step_unlock a g2 _ 0 Free (at_pc_same a Unlocking _) eq_refl) as H2. cbn in H2. rewrite decide_True in H2 by done.
  specialize (H2 eq_refl). eexists g1, _, _. split_and!; [done..|eapply rtc_l, rtc_l, rtc_refl; [exact H1|exact H2]|apply at_pc_same|done].
Qed.
(** ** A schedule *)

(** The next step of [a] on its way through [initialize] and [lock]. *)
Definition next (a : Actor) (g : Shared) : option Shared :=
  match pc g a, file g with
  | Outside, _ => Some (open_shm_file a g)
  | Opened, _ => if decide (flock_owner g = None) then Some (at_pc a Flocked (set_flock (Some a) g)) else None
  | Flocked, _ =>
      if decide (multithread_mutex g !! a.1 = None) then Some (at_pc a Critical (set_multithread (<[a.1 := a]> (multithread_mutex g)) g)) else None
  | Critical, Some f => Some (resize_shm_file a f g)
  | Resized _, _ => Some (at_pc a Mapped g)
  | Mapped, Some f =>
      Some (if decide (initialized f = INITIALIZED_FLAG) then at_pc a (Leaving true) g else at_pc a MutexInitialized (set_file (set_mutex Free f) g))
  | MutexInitialized, Some f => Some (set_initialized a f g)
  | Leaving ok, _ => Some (at_pc a (LeavingFlock ok) (set_multithread (delete a.1 (multithread_mutex g)) g))
  | LeavingFlock ok, _ => Some (at_pc a (if ok : bool then Closing else Outside) (set_flock None g))
  | Closing, _ => Some (at_pc a Ready g)
  | Ready, _ => Some (at_pc a Probing g)
  | Probing, Some f | Waiting, Some f =>
      '(res, m) ← pthread_mutex_trylock a (mutex f); Some (at_pc a (after_attempt Waiting res) (set_file (set_mutex m f) g))
  | Acquired, Some f => Some (record_acquisition a f g)
  | _, _ => None
  end.
Fixpoint schedule (actors : list Actor) (g : Shared) : option Shared :=
  match actors with [] => Some g | a :: rest => g' ← next a g; schedule rest g' end.

Lemma next_step a g g' : next a g = Some g' → step g g'.
Proof.
  unfold next. intros H. destruct (pc g a) eqn:Hp; destruct (file g) as [f|] eqn:Ef; try done.
  all: repeat case_decide; try (destruct (pthread_mutex_trylock a (mutex f)) as [[res m]|] eqn:Et; cbn in H); try done; simplify_eq/=.
  all: first [solve [eapply step_open; eassumption] | solve [eapply step_flock; eassumption] | solve [eapply step_enter; eassumption] | solve [eapply step_resize; eassumption] | solve [eapply step_map; eassumption] | solve [eapply step_initialized; eassumption] | solve [eapply step_mutex_init; eassumption] | solve [eapply step_set_flag; eassumption]
    | solve [eapply step_leave; eassumption] | solve [eapply step_unflock; eassumption] | solve [eapply step_close; eassumption] | solve [eapply step_lock; eassumption] | solve [eapply step_attempt; eassumption] | solve [eapply step_blocked; eassumption] | solve [eapply step_record; eassumption]].
Qed.
Lemma schedule_steps actors g g' : schedule actors g = Some g' → rtc step g g'.
Proof.
  revert g. induction actors as [|a rest IH]; intros g; cbn; [by intros [= ->]|].
  destruct (next a g) as [g1|] eqn:E; cbn; [|done]. intros H. apply rtc_l with g1; [by apply next_step in E|auto].
Qed.
Lemma next_others a b g g' : next a g = Some g' → b ≠ a → pc g' b = pc g b.
Proof.
  unfold next. intros H Hb. destruct (pc g a) eqn:Hp; destruct (file g) as [f|] eqn:Ef; try done.
  all: repeat case_decide; try (destruct (pthread_mutex_trylock a (mutex f)) as [[res m]|] eqn:Et; cbn in H); try done; simplify_eq/=.
  all: unfold open_shm_file, resize_shm_file; rewrite ?Ef; try (destruct (_ =? _)); cbn; by rewrite decide_False.
Qed.
Lemma schedule_others actors b g g' : schedule actors g = Some g' → b ∉ actors → pc g' b = pc g b.
Proof.
  revert g. induction actors as [|a rest IH]; intros g; cbn; [by intros [= ->]|].
  destruct (next a g) as [g1|] eqn:E; cbn; [|done]. intros H [Hb Hr]%not_elem_of_cons.
  rewrite (IH g1 H Hr). by apply next_others with a.
Qed.
End Steps.

(** Two processes: [(1, 10)] initialises the mutex and holds it; [(2, 20)] waits
    to enter, then finds the mutex initialised and blocks in [lock]. *)
Definition nobody : Shared := MkShared None None ∅ (λ _, 0) (λ _, Outside).
Definition two_processes : list Actor :=
  replicate 4 (1, 10) ++ [(2, 20)] ++ replicate 9 (1, 10) ++ replicate 10 (2, 20).
Definition held : Shared := default nobody (schedule 64 two_processes nobody).

Lemma nobody_start : start nobody.
Proof. done. Qed.
Lemma held_runs : schedule 64 two_processes nobody = Some held.
Proof.
  unfold held. assert (is_Some (schedule 64 two_processes nobody)) as [g Hg]; [|by rewrite Hg].
  apply not_eq_None_Some. by vm_compute.
Qed.
Lemma held_reachable : reachable 64 held.
Proof. exists nobody. split; [apply nobody_start|]. eapply schedule_steps, held_runs. Qed.
Lemma held_owner b : owns (pc held b) = true → b.1 = 1.
Proof.
  destruct (decide (b ∈ two_processes)) as [Hb|Hb].
  - unfold two_processes in Hb. rewrite !elem_of_app, !elem_of_replicate, list_elem_of_singleton in Hb.
    assert (b = (1, 10) ∨ b = (2, 20)) as [-> | ->] by naive_solver; [done|]. by vm_compute.
  - rewrite (schedule_others 64 _ b _ _ held_runs Hb). done.
Qed.

Lemma robust_mutex_exclusive_witness :
  reachable 64 held ∧ pc held (1, 10) = Holding ∧ (∀ a, owns (pc held a) = true → a = (1, 10)).
Proof.
  split; [exact held_reachable|split; [by vm_compute|]]. intros a Ha.
  apply (proj1 (robust_mutex_exclusive 64 held held_reachable) a (1, 10) Ha). by vm_compute.
Defined.

Lemma robust_mutex_survives_witness :
  pc held (1, 10) = Holding ∧ pc held (2, 20) = Waiting ∧ ∃ g1, rtc (step 64) (crash 1 held) g1 ∧ pc g1 (2, 20) = Holding.
Proof.
  assert (pc held (2, 20) = Waiting) as Hw by (by vm_compute). split; [by vm_compute|]. split; [exact Hw|].
  destruct (robust_mutex_survives 64 1 (2, 20) held held_reachable (or_intror (or_intror Hw)) ltac:(done) held_owner) as (g1 & _ & _ & H1 & H2 & _).
  by exists g1.
Defined.
