(* ===== verification/LockManager.v ===== *)
(** * LockManager

    [utils/lock_manager.cpp]: the robust mutexes of a process by name; the name
    says what a mutex protects, and of which device. The mutexes themselves are
    in [RobustMutex]: here, how one is found, made and dropped. *)

From Stdlib Require Import ZArith Lia Ascii.
From stdpp Require Import base list numbers strings gmap pretty.
From S2P Require Import Prelude CoreTypes SemVer ClusterState.

Local Open Scope Z_scope.

Inductive MutexType := ARC_MSG | REMOTE_ARC_MSG | NON_MMIO | MEM_BARRIER | CREATE_ETH_MAP | CHIP_IN_USE | PCIE_DMA.

Definition MUTEX_TYPE_TO_STRING (t : MutexType) : string :=
  match t with
  | ARC_MSG => "ARC_MSG" | REMOTE_ARC_MSG => "REMOTE_ARC_MSG" | NON_MMIO => "NON_MMIO" | MEM_BARRIER => "MEM_BARRIER"
  | CREATE_ETH_MAP => "CREATE_ETH_MAP" | CHIP_IN_USE => "CHIP_IN_USE" | PCIE_DMA => "PCIE_DMA"
  end.
Definition CHIP_SPECIFIC_MUTEX_TYPES : list MutexType := [ARC_MSG; REMOTE_ARC_MSG; NON_MMIO; MEM_BARRIER; CHIP_IN_USE; PCIE_DMA].
Definition SYSTEM_WIDE_MUTEX_TYPES : list MutexType := [ARC_MSG; CREATE_ETH_MAP].
Definition DeviceTypeToString (t : IODeviceType) : string :=
  match t with PCIe => "PCIe" | JTAG => "JTAG" | UNDEFINED => "Undefined" end.

(** The name of a mutex of a device; [device_id] is an int. *)
Definition device_mutex_name (mutex_prefix : string) (device_id : Z) (device_type : IODeviceType) : string :=
  mutex_prefix +:+ "_" +:+ pretty device_id +:+ "_" +:+ DeviceTypeToString device_type.

(** A mutex in the map: [initialize] has mapped it. *)
Record ManagedMutex := MkManaged { mapped : bool }.
Abbreviation LockManager := (gmap string ManagedMutex).

(** [initialize] is what happens in [RobustMutex::initialize]. The mutex is in
    the map before it is initialised, and stays when that throws. *)
Definition initialize_mutex_internal (initialize : result unit) (mutex_name : string) (mutexes : LockManager) : result unit * LockManager :=
  match mutexes !! mutex_name with
  | Some _ => (Ok tt, mutexes)
  | None =>
      match initialize with
      | Ok _ => (Ok tt, <[mutex_name := MkManaged true]> mutexes)
      | Err e => (Err e, <[mutex_name := MkManaged false]> mutexes)
      end
  end.
Definition clear_mutex_internal (mutex_name : string) (mutexes : LockManager) : LockManager :=
  match mutexes !! mutex_name with None => mutexes | Some _ => delete mutex_name mutexes end.
(** The mutex that is locked. One without a mapping is a null pointer. *)
Definition acquire_mutex_internal (mutex_name : string) (mutexes : LockManager) : result string :=
  match mutexes !! mutex_name with
  | None => throw ("Mutex not initialized: " +:+ mutex_name)
  | Some m => if mapped m then Ok mutex_name else Err UndefinedBehaviour
  end.

Definition initialize_mutex (initialize : result unit) (mutex_prefix : string) (device_id : Z) (device_type : IODeviceType)
  : LockManager → result unit * LockManager :=
  initialize_mutex_internal initialize (device_mutex_name mutex_prefix device_id device_type).
Definition clear_mutex (mutex_prefix : string) (device_id : Z) (device_type : IODeviceType) : LockManager → LockManager :=
  clear_mutex_internal (device_mutex_name mutex_prefix device_id device_type).
Definition acquire_mutex (mutex_prefix : string) (device_id : Z) (device_type : IODeviceType) : LockManager → result string :=
  acquire_mutex_internal (device_mutex_name mutex_prefix device_id device_type).
Definition initialize_system_mutex (initialize : result unit) (mutex_type : MutexType) : LockManager → result unit * LockManager :=
  initialize_mutex_internal initialize (MUTEX_TYPE_TO_STRING mutex_type).
Definition clear_system_mutex (mutex_type : MutexType) : LockManager → LockManager := clear_mutex_internal (MUTEX_TYPE_TO_STRING mutex_type).
Definition acquire_system_mutex (mutex_type : MutexType) : LockManager → result string := acquire_mutex_internal (MUTEX_TYPE_TO_STRING mutex_type).

(** ** Names *)

Definition not_underscore (c : ascii) : bool := negb (bool_decide (c = "_"%char)).

Lemma last_underscore p1 p2 u1 u2 :
  all_chars not_underscore u1 = true → all_chars not_underscore u2 = true →
  p1 +:+ "_" +:+ u1 = p2 +:+ "_" +:+ u2 → p1 = p2 ∧ u1 = u2.
Proof.
  intros H1 H2. revert p2. induction p1 as [|c p1 IH]; intros [|c' p2] H.
  - change (String "_" u1 = String "_" u2) in H. by injection H as ->.
  - change (String "_" u1 = String c' (p2 +:+ String "_" u2)) in H. injection H as _ ->. exfalso.
    rewrite all_chars_app in H1. apply andb_true_iff in H1 as [_ H1]. by cbn in H1.
  - change (String c (p1 +:+ String "_" u1) = String "_" u2) in H. injection H as _ <-. exfalso.
    rewrite all_chars_app in H2. apply andb_true_iff in H2 as [_ H2]. by cbn in H2.
  - change (String c (p1 +:+ "_" +:+ u1) = String c' (p2 +:+ "_" +:+ u2)) in H. injection H as -> H. by destruct (IH p2 H) as [-> ->].
Qed.

Lemma digit_not_underscore c : is_digit c = true → not_underscore c = true.
Proof. intros H. unfold not_underscore. apply negb_true_iff, bool_decide_eq_false. by intros ->. Qed.
Lemma pretty_not_underscore (z : Z) : all_chars not_underscore (pretty z) = true.
Proof.
  assert (∀ n : N, all_chars not_underscore (pretty n) = true) as Hn.
  { intros n. pose proof (to_string_digits (Z.of_N n)) as Hd. unfold to_string in Hd. rewrite N2Z.id in Hd.
    eapply all_chars_impl; [|exact Hd]. apply digit_not_underscore. }
  destruct z as [|p|p]; cbn -[pretty]; [done|apply (Hn (N.pos p))|]. unfold pretty, pretty_Z. rewrite all_chars_app. apply (Hn (N.pos p)).
Qed.
Lemma device_type_not_underscore t : all_chars not_underscore (DeviceTypeToString t) = true.
Proof. by destruct t. Qed.
Lemma append_assoc3 (a b c : string) : (a +:+ b) +:+ c = a +:+ b +:+ c.
Proof. induction a as [|x a IH]; [done|]. change (String x ((a +:+ b) +:+ c) = String x (a +:+ b +:+ c)). by rewrite IH. Qed.

Lemma device_mutex_name_inj p1 p2 i1 i2 t1 t2 :
  device_mutex_name p1 i1 t1 = device_mutex_name p2 i2 t2 → p1 = p2 ∧ i1 = i2 ∧ t1 = t2.
Proof.
  unfold device_mutex_name. intros H.
  assert (∀ p i t, p +:+ "_" +:+ pretty i +:+ "_" +:+ DeviceTypeToString t = (p +:+ "_" +:+ pretty (i : Z)) +:+ "_" +:+ DeviceTypeToString t) as Ha.
  { intros. by rewrite !append_assoc3. }
  rewrite !Ha in H. apply last_underscore in H as [H Ht]; [|apply device_type_not_underscore..].
  apply last_underscore in H as [-> Hi]; [|apply pretty_not_underscore..]. apply (inj pretty) in Hi as ->.
  split_and!; [done..|]. by destruct t1, t2.
Qed.
Lemma system_name_apart t p i d : MUTEX_TYPE_TO_STRING t ≠ device_mutex_name p i d.
Proof.
  intros H. assert (∃ q u, MUTEX_TYPE_TO_STRING t = q +:+ "_" +:+ u ∧ all_chars not_underscore u = true ∧ ∀ d, u ≠ DeviceTypeToString d)
    as (q & u & Hq & Hu & Hd).
  { destruct t; [exists "ARC", "MSG"|exists "REMOTE_ARC", "MSG"|exists "NON", "MMIO"|exists "MEM", "BARRIER"|exists "CREATE_ETH", "MAP"
      |exists "CHIP_IN", "USE"|exists "PCIE", "DMA"]; (split; [done|split; [done|by intros []]]). }
  rewrite Hq in H. unfold device_mutex_name in H. rewrite <- (append_assoc3 "_" (pretty i)), <- (append_assoc3 p) in H.
  apply last_underscore in H as [_ H]; [|done|apply device_type_not_underscore]. by apply (Hd d).
Qed.

(** ** A history of a lock manager *)

(** What a mutex is for. *)
Inductive Purpose := SystemWide (mutex_type : MutexType) | OfDevice (mutex_prefix : string) (device_id : Z) (device_type : IODeviceType).
#[global] Instance MutexType_eq_dec : EqDecision MutexType.
Proof. solve_decision. Defined.
#[local] Instance IODeviceType_eq_decision : EqDecision IODeviceType.
Proof. solve_decision. Defined.
#[global] Instance Purpose_eq_dec : EqDecision Purpose.
Proof. solve_decision. Defined.
Definition name_of (p : Purpose) : string :=
  match p with SystemWide t => MUTEX_TYPE_TO_STRING t | OfDevice p i t => device_mutex_name p i t end.

Lemma name_of_inj p q : name_of p = name_of q → p = q.
Proof.
  destruct p as [t|p i t], q as [t'|p' i' t']; cbn; intros H.
  - by destruct t, t'.
  - by apply system_name_apart in H.
  - symmetry in H. by apply system_name_apart in H.
  - by apply device_mutex_name_inj in H as (-> & -> & ->).
Qed.

Inductive Operation := Initialize (initialize : result unit) | Clear.
Definition operate (o : Purpose * Operation) (mutexes : LockManager) : LockManager :=
  match o.2 with
  | Initialize r => snd (initialize_mutex_internal r (name_of o.1) mutexes)
  | Clear => clear_mutex_internal (name_of o.1) mutexes
  end.

(** What the operations of one purpose make of its mutex: the first
    initialisation since it was cleared counts. *)
Definition own_operation (m : option bool) (o : Operation) : option bool :=
  match o, m with
  | Clear, _ => None
  | Initialize r, None => Some (match r with Ok _ => true | Err _ => false end)
  | Initialize _, Some b => Some b
  end.
Definition own_history (p : Purpose) (ops : list (Purpose * Operation)) : option bool :=
  foldl own_operation None (filter (λ o, o.1 = p) ops).*2.

Lemma operate_own p o m : mapped <$> (operate o m !! name_of p) =
  if decide (o.1 = p) then own_operation (mapped <$> m !! name_of p) o.2 else mapped <$> m !! name_of p.
Proof.
  destruct o as [q [r|]]; unfold operate, initialize_mutex_internal, clear_mutex_internal; cbn.
  - destruct (m !! name_of q) as [x|] eqn:E.
    + cbn. case_decide as Hp; [|done]. subst. by rewrite E.
    + case_decide as Hp.
      * subst. rewrite E. destruct r; cbn; by rewrite lookup_insert_eq.
      * assert (name_of q ≠ name_of p) by (intros H; by apply name_of_inj in H). destruct r; cbn; by rewrite lookup_insert_ne.
  - destruct (m !! name_of q) as [x|] eqn:E; case_decide as Hp; subst; rewrite ?E, ?lookup_delete_eq; try done.
    rewrite lookup_delete_ne; [done|]. intros H. by apply name_of_inj in H.
Qed.

(** C16: EACH MUTEX IS ITS OWN. Whatever has been initialised and cleared, for
    whatever purposes, in whatever order: [acquire_mutex] for a purpose locks the
    mutex of exactly this purpose when it was initialised with success and not
    cleared since, and throws when it was not initialised; operations for other
    purposes - other types, prefixes, device numbers, kinds of device - do not
    matter, and no two purposes lock the same mutex. After an initialisation that
    threw, the mutex that is locked has no memory. *)
Theorem acquire_by_own_history p ops :
  let mutexes := foldl (λ m o, operate o m) ∅ ops in
  acquire_mutex_internal (name_of p) mutexes =
    match own_history p ops with
    | Some true => Ok (name_of p)
    | Some false => Err UndefinedBehaviour
    | None => throw ("Mutex not initialized: " +:+ name_of p)
    end ∧
  ∀ q, acquire_mutex_internal (name_of q) mutexes = Ok (name_of p) → q = p.
Proof.
  cbv zeta.
  assert (∀ l m, mapped <$> (foldl (λ m o, operate o m) m l !! name_of p) =
    foldl own_operation (mapped <$> m !! name_of p) (filter (λ o : Purpose * Operation, o.1 = p) l).*2) as Hl.
  { induction l as [|o l IH]; intros m; cbn [foldl]; [done|]. rewrite IH, operate_own, filter_cons. by case_decide. }
  split.
  - specialize (Hl ops ∅). rewrite lookup_empty in Hl. unfold own_history. change (mapped <$> None) with (@None bool) in Hl. rewrite <- Hl.
    unfold acquire_mutex_internal. destruct (_ !! _) as [[[]]|]; done.
  - intros q. unfold acquire_mutex_internal. destruct (_ !! _) as [m|]; [|done]. destruct (mapped m); [|done]. intros [= H]. by apply name_of_inj.
Qed.

(** A prefix with underscores, and a negative number. *)
Example names : device_mutex_name "TT_ARC_MSG" (-1) JTAG = "TT_ARC_MSG_-1_JTAG".
Proof. reflexivity. Qed.
Example reinitialised_after_throw :
  let m := snd (initialize_mutex (throw "shm_open() failed") "ARC_MSG" 0 PCIe ∅) in
  initialize_mutex (Ok tt) "ARC_MSG" 0 PCIe m = (Ok tt, m) ∧ acquire_mutex "ARC_MSG" 0 PCIe m = Err UndefinedBehaviour.
Proof. by split. Qed.
