(* ===== verification/DeviceAccess.v ===== *)
(** * DeviceAccess

    The device as the host's code sees it through the [DeviceProtocol] and
    [PcieInterface] interfaces ([tt_device/protocol/*.hpp]), one 32-bit word at a time, and
    the code directly above them: [BlackholeArcApb]
    ([tt_device/firmware/blackhole_arc_apb.cpp]) and [utils::check_timeout]
    ([common/utils.hpp]).

    A host routine is a state-passing computation over the [World]: the memory
    of the tiles, the BAR0 registers and the state of the device's firmware with
    the clock. Before every single word access the device moves, by the
    transition [env]: it may change any memory and it advances the clock. So a
    theorem about a routine is about every interleaving with the firmware that
    its hypotheses on [env] admit. [None] means that the fuel of a polling loop
    did not suffice; a theorem that a routine returns excludes it. *)

From Stdlib Require Import ZArith Lia.
From stdpp Require Import base list numbers strings.
From S2P Require Import Prelude CoreTypes ArchData.

Local Open Scope Z_scope.

Inductive NocId := NOC0 | NOC1 | SYSTEM_NOC.
#[global] Instance NocId_eq_dec : EqDecision NocId.
Proof. solve_decision. Defined.

Record World (F : Type) := MkWorld { mem : xy_pair → Z → Z; bar : Z → Z; firmware : F }.
Arguments MkWorld {F} _ _ _.
Arguments mem {F} _.
Arguments bar {F} _.
Arguments firmware {F} _.

Definition upd_mem {F} (c : xy_pair) (a v : Z) (w : World F) : World F :=
  MkWorld (λ c' a', if decide (c' = c ∧ a' = a) then v else mem w c' a') (bar w) (firmware w).
Definition upd_bar {F} (a v : Z) (w : World F) : World F :=
  MkWorld (mem w) (λ a', if decide (a' = a) then v else bar w a') (firmware w).

(** ** Computations *)

Definition M (F A : Type) := World F → option (result A * World F).
#[global] Instance M_ret F : MRet (M F) := λ A a w, Some (Ok a, w).
#[global] Instance M_bind F : MBind (M F) := λ A B f m w,
  match m w with
  | Some (Ok a, w') => f a w'
  | Some (Err e, w') => Some (Err e, w')
  | None => None
  end.
(** A pure computation that may throw. *)
Definition lift {F A} (r : result A) : M F A := λ w, Some (r, w).
Definition raise {F A} (what : string) : M F A := lift (throw what).

(** The outcome of a computation and the world it leaves satisfy the
    postcondition; [out_of_fuel] if it runs out of fuel. *)
Definition wpf {F A} (out_of_fuel : Prop) (m : M F A) (Q : result A → World F → Prop) (w : World F) : Prop :=
  match m w with Some (r, w') => Q r w' | None => out_of_fuel end.
(** The weakest precondition (the computation returns) and the liberal one. *)
Abbreviation wp := (wpf False).
Abbreviation wlp := (wpf True).

(** The computation returns from every world. *)
Definition returns {F A} (m : M F A) : Prop := ∀ w, is_Some (m w).

Section Wp.
Context {F : Type} (b : Prop).
Implicit Types (w : World F).

Lemma wp_ret {A} (a : A) (Q : result A → World F → Prop) w : Q (Ok a) w → wpf b (mret a) Q w.
Proof. done. Qed.
Lemma wp_lift {A} (r : result A) (Q : result A → World F → Prop) w : Q r w → wpf b (lift r) Q w.
Proof. done. Qed.
Lemma wp_bind {A B} (m : M F A) (f : A → M F B) Q w :
  wpf b m (λ r w', match r with Ok a => wpf b (f a) Q w' | Err e => Q (Err e) w' end) w → wpf b (m ≫= f) Q w.
Proof. unfold wpf, mbind, M_bind. destruct (m w) as [[[a|e] w']|]; done. Qed.
(** A bind after a pure computation that does not throw. *)
Lemma wp_bind_lift {A B} (r : result A) (a : A) (f : A → M F B) Q w :
  r = Ok a → wpf b (f a) Q w → wpf b (lift r ≫= f) Q w.
Proof. by intros ->. Qed.
Lemma wp_mono {A} (m : M F A) (P Q : result A → World F → Prop) w :
  wpf b m P w → (∀ r w', P r w' → Q r w') → wpf b m Q w.
Proof. unfold wpf. destruct (m w) as [[r w']|]; [|done]. auto. Qed.
End Wp.

Section Returns.
Context {F : Type}.

Lemma wp_returns {A} (m : M F A) Q w : wp m Q w → ∃ r w', m w = Some (r, w') ∧ Q r w'.
Proof. unfold wpf. destruct (m w) as [[r w']|]; [|done]. eauto. Qed.
Lemma returns_lift {A} (r : result A) : returns (F:=F) (lift r).
Proof. by eexists. Qed.
Lemma returns_bind {A B} (m : M F A) (f : A → M F B) : returns m → (∀ a, returns (f a)) → returns (m ≫= f).
Proof.
  intros Hm Hf w. unfold mbind, M_bind. destruct (Hm w) as [[[a|e] w'] ->]; [apply Hf|by eexists].
Qed.
End Returns.

(** ** Computations of an object of the host

    A member function that uses the device and updates its object. *)

Definition H (F R A : Type) := R → World F → option (result A * R * World F).
#[global] Instance H_ret F R : MRet (H F R) := λ A a r w, Some (Ok a, r, w).
#[global] Instance H_bind F R : MBind (H F R) := λ A B f m r w,
  match m r w with
  | Some (Ok a, r', w') => f a r' w'
  | Some (Err e, r', w') => Some (Err e, r', w')
  | None => None
  end.
Definition hlift {F R A} (res : result A) : H F R A := λ r w, Some (res, r, w).
Definition hraise {F R A} (what : string) : H F R A := hlift (throw what).
(** A computation that does not touch the object. *)
Definition on_device {F R A} (m : M F A) : H F R A := λ r w,
  match m w with Some (res, w') => Some (res, r, w') | None => None end.
Definition get_object {F R} : H F R R := λ r w, Some (Ok r, r, w).
Definition put_object {F R} (r : R) : H F R unit := λ _ w, Some (Ok tt, r, w).

(** The outcome of a member function satisfies the postcondition. *)
Definition hwpf {F R A} (out_of_fuel : Prop) (m : H F R A) (Q : result A → R → World F → Prop) (r : R) (w : World F) : Prop :=
  match m r w with Some (res, r', w') => Q res r' w' | None => out_of_fuel end.

Section Hwp.
Context {F R : Type} (b : Prop).
Implicit Types (r : R) (w : World F).

Lemma hwp_ret {A} (a : A) (Q : result A → R → World F → Prop) r w : Q (Ok a) r w → hwpf b (mret a) Q r w.
Proof. done. Qed.
Lemma hwp_lift {A} (res : result A) (Q : result A → R → World F → Prop) r w : Q res r w → hwpf b (hlift res) Q r w.
Proof. done. Qed.
Lemma hwp_bind {A B} (m : H F R A) (f : A → H F R B) Q r w :
  hwpf b m (λ res r' w', match res with Ok a => hwpf b (f a) Q r' w' | Err e => Q (Err e) r' w' end) r w →
  hwpf b (m ≫= f) Q r w.
Proof. unfold hwpf, mbind, H_bind. destruct (m r w) as [[[[a|e] r'] w']|]; done. Qed.
Lemma hwp_device {A} (m : M F A) (Q : result A → R → World F → Prop) r w :
  wpf b m (λ res w', Q res r w') w → hwpf b (on_device m) Q r w.
Proof. unfold hwpf, wpf, on_device. by destruct (m w) as [[res w']|]. Qed.
Lemma hwp_get (Q : result R → R → World F → Prop) r w : Q (Ok r) r w → hwpf b get_object Q r w.
Proof. done. Qed.
Lemma hwp_put (Q : result unit → R → World F → Prop) r r' w : Q (Ok tt) r' w → hwpf b (put_object r') Q r w.
Proof. done. Qed.
Lemma hwp_mono {A} (m : H F R A) (P Q : result A → R → World F → Prop) r w :
  hwpf b m P r w → (∀ res r' w', P res r' w' → Q res r' w') → hwpf b m Q r w.
Proof. unfold hwpf. destruct (m r w) as [[[res r'] w']|]; [|done]. auto. Qed.
End Hwp.

Section Device.
Context {F : Type}.
(** The device's move before an access; the tile that a coordinate reaches over
    a NOC; the clock, in nanoseconds. *)
Context (env : World F → World F) (locate : NocId → xy_pair → xy_pair) (now : F → Z).
Implicit Types (w : World F).

(** [device_protocol->read_data] and [read_ctrl] of one word. *)
Definition read_data (core : xy_pair) (addr : Z) (noc_id : NocId) : M F Z := λ w,
  let w := env w in Some (Ok (mem w (locate noc_id core) addr), w).
Definition write_data (core : xy_pair) (addr v : Z) (noc_id : NocId) : M F unit := λ w,
  Some (Ok tt, upd_mem (locate noc_id core) addr v (env w)).
(** [pcie_interface->bar_read32] and [bar_write32]. *)
Definition bar_read32 (addr : Z) : M F Z := λ w, let w := env w in Some (Ok (bar w addr), w).
Definition bar_write32 (addr v : Z) : M F unit := λ w, Some (Ok tt, upd_bar addr v (env w)).
(** A transfer of consecutive words, in order. *)
Fixpoint read_dwords (core : xy_pair) (addr : Z) (n : nat) (noc_id : NocId) : M F (list Z) :=
  match n with
  | O => mret []
  | S n => v ← read_data core addr noc_id; vs ← read_dwords core (addr + 4) n noc_id; mret (v :: vs)
  end.
Fixpoint write_dwords (core : xy_pair) (addr : Z) (vs : list Z) (noc_id : NocId) : M F unit :=
  match vs with
  | [] => mret tt
  | v :: vs => write_data core addr v noc_id;; write_dwords core (addr + 4) vs noc_id
  end.
(** [std::chrono::steady_clock::now()]. *)
Definition steady_clock_now : M F Z := λ w, Some (Ok (now (firmware w)), w).

Lemma wp_read_data b core addr noc (Q : result Z → World F → Prop) w :
  Q (Ok (mem (env w) (locate noc core) addr)) (env w) → wpf b (read_data core addr noc) Q w.
Proof. done. Qed.
Lemma wp_write_data b core addr v noc (Q : result unit → World F → Prop) w :
  Q (Ok tt) (upd_mem (locate noc core) addr v (env w)) → wpf b (write_data core addr v noc) Q w.
Proof. done. Qed.
Lemma wp_now b (Q : result Z → World F → Prop) w : Q (Ok (now (firmware w))) w → wpf b steady_clock_now Q w.
Proof. done. Qed.
Lemma returns_read_dwords core addr n noc : returns (read_dwords core addr n noc).
Proof.
  revert addr. induction n as [|n IH]; intros addr; [by eexists|].
  apply returns_bind; [by eexists|]. intros v. apply returns_bind; [apply IH|by eexists].
Qed.
Lemma returns_write_dwords core addr vs noc : returns (write_dwords core addr vs noc).
Proof.
  revert addr. induction vs as [|v vs IH]; intros addr; [by eexists|].
  apply returns_bind; [by eexists|]. intros _. apply IH.
Qed.

(** ** Timeouts *)

(** Has the timeout, in milliseconds, elapsed at a time? Zero never does. *)
Definition timed_out (start_time timeout time : Z) : bool :=
  negb (timeout =? 0) && (timeout <? (time - start_time) ÷ 1000000).
(** The nanoseconds after which a poll times out. *)
Definition patience (timeout_ms : Z) : Z := (timeout_ms + 1) * 1000000.

Lemma not_timed_out start timeout_ms time :
  0 < timeout_ms → timed_out start timeout_ms time = false → time - start < patience timeout_ms.
Proof.
  unfold timed_out, patience. intros Ht. destruct (Z.eqb_spec timeout_ms 0); [lia|]. cbn [negb andb].
  intros Hq%Z.ltb_ge. destruct (Z.lt_ge_cases (time - start) 0); [lia|].
  rewrite Z.quot_div_nonneg in Hq by lia. pose proof (Z.div_mod (time - start) 1000000 ltac:(lia)).
  pose proof (Z.mod_pos_bound (time - start) 1000000 ltac:(lia)). lia.
Qed.

(** [utils::check_timeout] with its default action, which throws. *)
Definition check_timeout (start_time timeout : Z) (error_msg : string) : M F unit :=
  time ← steady_clock_now;
  if timed_out start_time timeout time then raise error_msg else mret tt.

Lemma wp_check_timeout b start timeout msg (Q : result unit → World F → Prop) w :
  Q (if timed_out start timeout (now (firmware w)) then throw msg else Ok tt) w →
  wpf b (check_timeout start timeout msg) Q w.
Proof.
  intros HQ. apply wp_bind, wp_now. destruct (timed_out _ _ _); [by apply wp_lift|by apply wp_ret].
Qed.

(** ** BlackholeArcApb *)

(** The device is reached over JTAG or over PCIe. *)
Inductive Route := JTAG_route | PCIE_route.
Context (arc_route : Route).

Definition get_pcie_x_coordinate : M F Z :=
  v ← bar_read32 (0x1FD04000 + 0x44); mret (Z.land v 0x3F).
Definition is_arc_available_over_axi : M F bool := x ← get_pcie_x_coordinate; mret (x =? 11).

(** Accesses of [sizeof(uint32_t)] bytes, the size of all callers. *)
Definition arc_apb_read (arc_addr_offset : Z) (arc_core : xy_pair) (noc_id : NocId) : M F Z :=
  if 0xFFFFFFFF <? arc_addr_offset then raise "Address is out of ARC XBAR address range."
  else
    let over_noc := read_data arc_core (0x80000000 + arc_addr_offset) noc_id in
    match arc_route with
    | JTAG_route => over_noc
    | PCIE_route =>
        axi ← is_arc_available_over_axi;
        if axi : bool then bar_read32 (0x1FF00000 + arc_addr_offset) else over_noc
    end.
Definition arc_apb_write (v arc_addr_offset : Z) (arc_core : xy_pair) (noc_id : NocId) : M F unit :=
  if 0xFFFFFFFF <? arc_addr_offset then raise "Address is out of ARC XBAR address range."
  else
    let over_noc := write_data arc_core (0x80000000 + arc_addr_offset) v noc_id in
    match arc_route with
    | JTAG_route => over_noc
    | PCIE_route =>
        axi ← is_arc_available_over_axi;
        if axi : bool then bar_write32 (0x1FF00000 + arc_addr_offset) v else over_noc
    end.

Lemma returns_arc_apb_read off core noc : returns (arc_apb_read off core noc).
Proof.
  unfold arc_apb_read. destruct (_ <? _); [by eexists|]. destruct arc_route; [by eexists|].
  apply returns_bind; [by eexists|]. intros []; by eexists.
Qed.
Lemma returns_arc_apb_write v off core noc : returns (arc_apb_write v off core noc).
Proof.
  unfold arc_apb_write. destruct (_ <? _); [by eexists|]. destruct arc_route; [by eexists|].
  apply returns_bind; [by eexists|]. intros []; by eexists.
Qed.
End Device.

(** ** Coordinates of the ARC core *)

(** [blackhole::get_arc_core] ([arch/blackhole_implementation.cpp]). *)
Definition get_arc_core (noc_translation_enabled use_noc1 : bool) : result xy_pair :=
  arc ← vec_idx blackhole.ARC_CORES_NOC0 0;
  if noc_translation_enabled || negb use_noc1 then Ok arc
  else
    x ← vec_idx blackhole.NOC0_X_TO_NOC1_X (xy_x arc);
    y ← vec_idx blackhole.NOC0_Y_TO_NOC1_Y (xy_y arc);
    Ok (XY x y).
