(* ===== verification/ArcQueue.v ===== *)
(** * ArcQueue

    [arc/blackhole_arc_message_queue.cpp]: the host's side of the message
    queues in the ARC core's memory, shared with the firmware. A queue has an
    8-word header (the pointers), [size] request entries and [size] response
    entries of 8 words; the pointers wrap at twice the size. *)

From Stdlib Require Import ZArith Lia.
From stdpp Require Import base list list_numbers numbers strings relations.
From S2P Require Import Prelude CoreTypes ArchData DeviceAccess.

Local Open Scope Z_scope.

Record BlackholeArcMessageQueue := MkQueue {
  base_address : Z; size : Z; noc_translation_enabled : bool
}.

Definition header_len : Z := 8.
Definition entry_len : Z := 8.
Definition request_wptr_offset : Z := 0.
Definition response_rptr_offset : Z := 1.
Definition request_rptr_offset : Z := 4.
Definition response_wptr_offset : Z := 5.

Definition ARC_RESET_UNIT_OFFSET : Z := 0x30000.
Definition SCRATCH_RAM_11 : Z := ARC_RESET_UNIT_OFFSET + 0x42C.
Definition ARC_MSG_QUEUE_HEADER_SIZE : Z := 32.
Definition ARC_QUEUE_ENTRY_SIZE : Z := 32.
Definition ARC_FW_INT_ADDR : Z := ARC_RESET_UNIT_OFFSET + 0x100.
Definition ARC_FW_INT_VAL : Z := 65536.
Definition ARC_MSG_RESPONSE_OK_LIMIT : Z := 240.

(** [abs((int)a - (int)b)]: the difference must be an [int] with an opposite. *)
Definition int_distance (a b : Z) : result Z :=
  let d := i32 a - i32 b in
  if bool_decide (- 2 ^ 31 < d < 2 ^ 31) then Ok (Z.abs d) else Err UndefinedBehaviour.
(** [a % b] of unsigned operands. *)
Definition urem (a b : Z) : result Z := if b =? 0 then Err UndefinedBehaviour else Ok (a `mod` b).

Section Queue.
Context {F : Type} (env : World F → World F) (locate : NocId → xy_pair → xy_pair) (now : F → Z) (arc_route : Route).
Context (q : BlackholeArcMessageQueue).

Definition queue_arc_core (noc_id : NocId) : result xy_pair :=
  get_arc_core (noc_translation_enabled q) (bool_decide (noc_id = NOC1)).

Definition word_address (offset : Z) : Z := u64 (base_address q + offset * 4).
Definition read_words (num_words : nat) (offset : Z) (noc_id : NocId) : M F (list Z) :=
  arc_core ← lift (queue_arc_core noc_id);
  read_dwords env locate arc_core (word_address offset) num_words noc_id.
Definition read_word (offset : Z) (noc_id : NocId) : M F Z :=
  arc_core ← lift (queue_arc_core noc_id);
  read_data env locate arc_core (word_address offset) noc_id.
Definition write_words (data : list Z) (offset : Z) (noc_id : NocId) : M F unit :=
  arc_core ← lift (queue_arc_core noc_id);
  write_dwords env locate arc_core (word_address offset) data noc_id.

Definition trigger_fw_int (noc_id : NocId) : M F unit :=
  arc_core ← lift (queue_arc_core noc_id);
  arc_apb_write env locate arc_route ARC_FW_INT_VAL ARC_FW_INT_ADDR arc_core noc_id.

Definition timeout_message : string := "Timeout waiting for ARC msg request queue.".

(** [abs((int)rptr - (int)wptr) % (2 * size) != size]. *)
Definition request_queue_has_room (rptr wptr : Z) : result bool :=
  distance ← int_distance rptr wptr;
  occupied ← urem distance (u64 (2 * size q));
  Ok (negb (occupied =? size q)).

(** The two polling loops. *)
Fixpoint wait_for_room (fuel : nat) (request_queue_wptr start timeout_ms : Z) (noc_id : NocId) : M F unit :=
  match fuel with
  | O => λ _, None
  | S fuel =>
      request_queue_rptr ← read_word request_rptr_offset noc_id;
      room ← lift (request_queue_has_room request_queue_rptr request_queue_wptr);
      if room : bool then mret tt
      else
        check_timeout now start timeout_ms timeout_message;;
        wait_for_room fuel request_queue_wptr start timeout_ms noc_id
  end.
Fixpoint wait_for_response (fuel : nat) (response_queue_rptr start timeout_ms : Z) (noc_id : NocId) : M F unit :=
  match fuel with
  | O => λ _, None
  | S fuel =>
      response_queue_wptr ← read_word response_wptr_offset noc_id;
      if negb (response_queue_rptr =? response_queue_wptr) then mret tt
      else
        check_timeout now start timeout_ms timeout_message;;
        wait_for_response fuel response_queue_rptr start timeout_ms noc_id
  end.

Definition push_request (fuel : nat) (request : list Z) (timeout_ms : Z) (noc_id : NocId) : M F unit :=
  request_queue_wptr ← read_word request_wptr_offset noc_id;
  start ← steady_clock_now now;
  wait_for_room fuel request_queue_wptr start timeout_ms noc_id;;
  slot ← lift (urem request_queue_wptr (size q));
  let request_entry_offset := u32 (u64 (header_len + u64 (slot * entry_len))) in
  write_words request request_entry_offset noc_id;;
  request_queue_wptr ← lift (urem (u32 (request_queue_wptr + 1)) (u64 (2 * size q)));
  write_words [u32 request_queue_wptr] request_wptr_offset noc_id;;
  trigger_fw_int noc_id.

Definition pop_response (fuel : nat) (timeout_ms : Z) (noc_id : NocId) : M F (list Z) :=
  response_queue_rptr ← read_word response_rptr_offset noc_id;
  start ← steady_clock_now now;
  wait_for_response fuel response_queue_rptr start timeout_ms noc_id;;
  slot ← lift (urem response_queue_rptr (size q));
  let response_entry_offset := u32 (u64 (header_len + u64 (u64 (size q + slot) * entry_len))) in
  response ← read_words (Z.to_nat entry_len) response_entry_offset noc_id;
  response_queue_rptr ← lift (urem (u32 (response_queue_rptr + 1)) (u64 (2 * size q)));
  write_words [u32 response_queue_rptr] response_rptr_offset noc_id;;
  mret response.

(** The request of a message: the type and seven arguments, zero when unused. *)
Definition make_request (message_type : Z) (args : list Z) : list Z :=
  u32 message_type :: args ++ replicate (7 - length args) 0.

(** The exit code, or the error, that a response stands for. *)
Definition response_status (message_type : Z) (response : list Z) : result Z :=
  first ← vec_idx response 0;
  let status := Z.land first 0xFF in
  if status <? ARC_MSG_RESPONSE_OK_LIMIT then Ok (Z.shiftr first 16)
  else if status =? 0xFF then
    throw ("Message code: " +:+ to_string message_type +:+ " not recognized by ARC firmware.")
  else throw ("Unknown message error code: " +:+ to_string status).

(** The exit code with [return_values] (which the source also assigns before
    it throws). *)
Definition send_message (fuel : nat) (message_type : Z) (args : list Z) (timeout_ms : Z) (noc_id : NocId)
  : M F (Z * list Z) :=
  if 7 <? vec_size args then
    raise ("Blackhole ARC messages are limited to 7 arguments, but: " +:+ to_string (vec_size args) +:+ " were provided.")
  else
    push_request fuel (make_request message_type args) timeout_ms noc_id;;
    response ← pop_response fuel timeout_ms noc_id;
    let return_values := drop 1 response in
    exit_code ← lift (response_status message_type response);
    mret (exit_code, return_values).
End Queue.

(** ** Finding the queue

    The descriptor at the address in [SCRATCH_RAM_11]: the base address of the
    first queue in bits 0-31 and the number of entries in bits 32-39. *)

Definition queue_from_descriptor (queue_control_block queue_index : Z) (noc_translation_enabled : bool)
  : BlackholeArcMessageQueue :=
  let queue_base_addr := u32 (Z.land queue_control_block 0xFFFFFFFF) in
  let num_entries_per_queue := u32 (Z.land (Z.shiftr queue_control_block 32) 0xFF) in
  let msg_queue_size := u32 (u32 (u32 (2 * num_entries_per_queue) * ARC_QUEUE_ENTRY_SIZE) + ARC_MSG_QUEUE_HEADER_SIZE) in
  let msg_queue_base := u32 (u64 (queue_base_addr + u64 (queue_index * msg_queue_size))) in
  MkQueue msg_queue_base num_entries_per_queue noc_translation_enabled.

Section Find.
Context {F : Type} (env : World F → World F) (locate : NocId → xy_pair → xy_pair) (arc_route : Route).
(** [jtag_interface->mmio_read32]: a word of the ARC's address space. *)
Context (mmio_read32 : Z → M F Z).

(** Both interfaces are not null: the device has a [DeviceProtocol] and a
    [BlackholeArcApb]; over JTAG there is a [JtagInterface]. *)
Definition get_blackhole_arc_message_queue (translation : bool) (queue_index : Z) (noc_id : NocId)
  : M F BlackholeArcMessageQueue :=
  arc_core ← lift (get_arc_core translation (bool_decide (noc_id = NOC1)));
  queue_control_block_addr ← arc_apb_read env locate arc_route SCRATCH_RAM_11 arc_core noc_id;
  queue_control_block ←
    match arc_route with
    | JTAG_route =>
        lower ← mmio_read32 queue_control_block_addr;
        upper ← mmio_read32 (u32 (queue_control_block_addr + 4));
        mret (Z.lor lower (u64 (Z.shiftl upper 32)))
    | PCIE_route =>
        words ← read_dwords env locate arc_core queue_control_block_addr 2 noc_id;
        mret (nth 0 words 0 + 2 ^ 32 * nth 1 words 0)
    end;
  mret (queue_from_descriptor queue_control_block queue_index translation).
End Find.
