(* ===== verification/ArcQueueTheory.v ===== *)
(** * ArcQueueTheory

    The message queue refines a pair of FIFO queues. The firmware appears as an
    interface, [ArcFirmware]: it takes requests in order, answers them in order,
    and writes nothing that the host owns. Everything is proved for all
    interleavings of the host's word accesses with such a firmware. *)

From Stdlib Require Import ZArith Lia.
From stdpp Require Import base list list_numbers numbers strings relations.
From S2P Require Import Prelude CoreTypes ArchData DeviceAccess ArcQueue.


(** ** The ring buffer

    The representation of a queue by a ring of [size] entries of 8 words with
    double-wrapping pointers: pointers lie in [0, 2 * size), the entry of a
    pointer is the pointer modulo the size, and the pointers' distance is the
    number of entries (which tells a full ring from an empty one). *)

Local Open Scope Z_scope.

(** The words of a memory area, by word offset. *)
Abbreviation Words := (Z → Z).

(** The entry in a slot of the ring that starts at [start]. *)
Definition entry (W : Words) (start slot : Z) : list Z := map (λ j, W (start + 8 * slot + j)) (seqZ 0 8).

(** The ring at [start] with these pointers holds the queue [es]. *)
Record ring (W : Words) (size start rptr wptr : Z) (es : list (list Z)) : Prop := {
  rg_rptr : 0 ≤ rptr < 2 * size;
  rg_size : vec_size es ≤ size;
  rg_wptr : wptr = (rptr + vec_size es) `mod` (2 * size);
  rg_entries : ∀ k e, es !! k = Some e → entry W start ((rptr + Z.of_nat k) `mod` size) = e
}.

Lemma entry_ext W W' start slot :
  (∀ j, 0 ≤ j < 8 → W' (start + 8 * slot + j) = W (start + 8 * slot + j)) → entry W' start slot = entry W start slot.
Proof.
  intros H. unfold entry. apply list_fmap_ext. intros i j Hj. apply lookup_seqZ in Hj as [-> Hi].
  apply H. lia.
Qed.

Lemma mod_mod_double a size : 0 < size → (a `mod` (2 * size)) `mod` size = a `mod` size.
Proof. intros. rewrite Z.mul_comm, Z.rem_mul_r by lia. rewrite Z.mul_comm, Z.mod_add by lia. by rewrite Z.mod_mod by lia. Qed.

(** Two positions less than [size] apart have different slots. *)
Lemma slots_differ size a b : 0 < size → 0 < b - a < size → a `mod` size ≠ b `mod` size.
Proof.
  intros Hs Hab E. assert ((b - a) `mod` size = 0) as H.
  { rewrite Zminus_mod, E, Z.sub_diag. by rewrite Z.mod_0_l by lia. }
  rewrite Z.mod_small in H by lia. lia.
Qed.

Section Ring.
Context (W : Words) (size start : Z) (Hsize : 0 < size).

(** A change of words outside of the occupied slots. *)
Lemma ring_ext W' rptr wptr es :
  ring W size start rptr wptr es →
  (∀ k j, 0 ≤ k < vec_size es → 0 ≤ j < 8 →
    W' (start + 8 * ((rptr + k) `mod` size) + j) = W (start + 8 * ((rptr + k) `mod` size) + j)) →
  ring W' size start rptr wptr es.
Proof.
  intros [? ? ? He] Hext. split; try done. intros k e Hk. rewrite <- (He k e Hk).
  apply entry_ext. intros j Hj. apply Hext; [|done]. apply lookup_lt_Some in Hk. unfold vec_size. lia.
Qed.

Lemma ring_wptr_range rptr wptr es : ring W size start rptr wptr es → 0 ≤ wptr < 2 * size.
Proof. intros [? ? -> _]. apply Z.mod_pos_bound. lia. Qed.

(** The writer fills the slot of its pointer and advances the pointer. *)
Lemma ring_enqueue W' rptr wptr es e :
  ring W size start rptr wptr es → vec_size es < size →
  (∀ slot j, 0 ≤ slot < size → slot ≠ wptr `mod` size → 0 ≤ j < 8 →
    W' (start + 8 * slot + j) = W (start + 8 * slot + j)) →
  entry W' start (wptr `mod` size) = e →
  ring W' size start rptr ((wptr + 1) `mod` (2 * size)) (es ++ [e]).
Proof.
  intros [Hr Hs -> He] Hroom Hext Hnew. pose proof (Zle_0_nat (length es)) as Hlen. unfold vec_size in *.
  split; [done|unfold vec_size; rewrite length_app; cbn; lia| |].
  - unfold vec_size. rewrite length_app; cbn. rewrite Z.add_mod_idemp_l by lia. f_equal. lia.
  - intros k e' Hk. apply lookup_app_Some in Hk as [Hk|[Hge Hk]].
    + rewrite <- (He k e' Hk). apply lookup_lt_Some in Hk. apply entry_ext. intros j Hj.
      apply Hext; [apply Z.mod_pos_bound; lia| |done]. rewrite mod_mod_double by done.
      apply slots_differ; lia.
    + assert (k = length es) as ->.
      { apply lookup_lt_Some in Hk. cbn in Hk. lia. }
      rewrite Nat.sub_diag in Hk. injection Hk as <-. rewrite <- Hnew, mod_mod_double by done. done.
Qed.

(** The reader finds the oldest entry in the slot of its pointer. *)
Lemma ring_head rptr wptr e es : ring W size start rptr wptr (e :: es) → entry W start (rptr `mod` size) = e.
Proof. intros [_ _ _ He]. rewrite <- (He 0%nat e eq_refl). by rewrite Z.add_0_r. Qed.

Lemma ring_dequeue rptr wptr e es :
  ring W size start rptr wptr (e :: es) → ring W size start ((rptr + 1) `mod` (2 * size)) wptr es.
Proof.
  intros [Hr Hs -> He]. unfold vec_size in *; cbn in *. split.
  - apply Z.mod_pos_bound. lia.
  - unfold vec_size. lia.
  - unfold vec_size. rewrite Z.add_mod_idemp_l by lia. f_equal. lia.
  - intros k e' Hk. rewrite <- (He (S k) e' Hk), <- Z.add_mod_idemp_l, mod_mod_double, Z.add_mod_idemp_l by lia.
    do 2 f_equal. lia.
Qed.

Lemma ring_empty rptr wptr es : ring W size start rptr wptr es → rptr = wptr ↔ es = [].
Proof.
  intros [Hr Hs -> _]. unfold vec_size in *. split; intros H.
  - destruct es as [|e es]; [done|]. exfalso. cbn [length] in *.
    apply (slots_differ (2 * size) rptr (rptr + Z.of_nat (S (length es)))); [lia|lia|].
    rewrite <- H. apply Z.mod_small. lia.
  - subst. cbn. rewrite Z.add_0_r, Z.mod_small by lia. done.
Qed.

(** The host's test: the distance of the pointers is the size just when the ring is full. *)
Lemma ring_distance rptr wptr es :
  ring W size start rptr wptr es →
  Z.abs (rptr - wptr) `mod` (2 * size) = size ↔ vec_size es = size.
Proof.
  intros [Hr Hs -> _]. pose proof (Zle_0_nat (length es)) as Hlen. unfold vec_size in *.
  destruct (Z.lt_ge_cases (rptr + Z.of_nat (length es)) (2 * size)).
  - rewrite (Z.mod_small (rptr + _)) by lia. rewrite Z.mod_small by lia. lia.
  - assert ((rptr + Z.of_nat (length es)) `mod` (2 * size) = rptr + Z.of_nat (length es) - 2 * size) as ->.
    { symmetry. apply Z.mod_unique_pos with 1; lia. }
    rewrite Z.mod_small by lia. lia.
Qed.
End Ring.

(** The test of the code decides whether the request ring is full, without
    overflow, for the sizes that a queue descriptor can hold. *)
Lemma request_queue_has_room_spec W q start rptr wptr es :
  0 < size q ≤ 255 → ring W (size q) start rptr wptr es →
  request_queue_has_room q rptr wptr = Ok (bool_decide (vec_size es < size q)).
Proof.
  intros Hq Hring. pose proof (rg_rptr _ _ _ _ _ _ Hring). pose proof (ring_wptr_range _ _ _ _ _ _ Hring).
  pose proof (rg_size _ _ _ _ _ _ Hring). pose proof (ring_distance _ _ _ (proj1 Hq) _ _ _ Hring) as Hd.
  unfold request_queue_has_room, int_distance, urem.
  assert (∀ a, 0 ≤ a < 2 * size q → i32 a = a) as Hi.
  { intros a Ha. unfold i32. rewrite Z.mod_small by lia. lia. }
  rewrite !Hi by done. rewrite bool_decide_eq_true_2 by lia. cbn [mbind result_bind].
  rewrite u64_small by lia. destruct (Z.eqb_spec (2 * size q) 0); [lia|]. cbn [mbind result_bind]. f_equal.
  destruct (Z.eqb_spec (Z.abs (rptr - wptr) `mod` (2 * size q)) (size q)) as [E|E];
    [rewrite bool_decide_eq_false_2|rewrite bool_decide_eq_true_2]; try done; lia.
Qed.
Local Open Scope Z_scope.

(** ** The abstract queues

    Requests that wait, requests that the firmware is working on, responses. *)

Record Queues := MkQueues { requests : list (list Z); in_progress : list (list Z); responses : list (list Z) }.

(** The firmware's two moves. *)
Inductive firmware_step (answers : list Z → list Z → Prop) : Queues → Queues → Prop :=
  | firmware_takes e rq fl rs : firmware_step answers (MkQueues (e :: rq) fl rs) (MkQueues rq (fl ++ [e]) rs)
  | firmware_answers e r rq fl rs :
      answers e r → firmware_step answers (MkQueues rq (e :: fl) rs) (MkQueues rq fl (rs ++ [r])).

(** The host's move. *)
Definition pushed (request : list Z) (s : Queues) : Queues :=
  MkQueues (requests s ++ [request]) (in_progress s) (responses s).

(** The words of the queue in the memory of the ARC core. *)
Definition queue_word {F} (q : BlackholeArcMessageQueue) (core : xy_pair) (w : World F) (k : Z) : Z :=
  mem w core (base_address q + 4 * k).

(** The memory holds the queues: the request ring starts at word 8, the
    response ring follows it. *)
Record represents {F} (q : BlackholeArcMessageQueue) (core : xy_pair) (w : World F) (rq rs : list (list Z)) : Prop := {
  rep_requests : ring (queue_word q core w) (size q) header_len
    (queue_word q core w request_rptr_offset) (queue_word q core w request_wptr_offset) rq;
  rep_responses : ring (queue_word q core w) (size q) (header_len + 8 * size q)
    (queue_word q core w response_rptr_offset) (queue_word q core w response_wptr_offset) rs
}.

(** The words that only the host writes: its two pointers, the request entries. *)
Definition host_word (q : BlackholeArcMessageQueue) (k : Z) : Prop :=
  k = request_wptr_offset ∨ k = response_rptr_offset ∨ header_len ≤ k < header_len + 8 * size q.
Definition host_words_kept {F} (q : BlackholeArcMessageQueue) (core : xy_pair) (w w' : World F) : Prop :=
  ∀ k, host_word q k → queue_word q core w' k = queue_word q core w k.

(** What the firmware of the ARC promises to the host. *)
Class ArcFirmware {F} (env : World F → World F) (q : BlackholeArcMessageQueue) (core : xy_pair)
    (answers : list Z → list Z → Prop) := {
  in_flight : F → list (list Z);
  firmware_obeys w rq rs :
    represents q core w rq rs →
    ∃ rq' rs', rtc (firmware_step answers) (MkQueues rq (in_flight (firmware w)) rs)
                 (MkQueues rq' (in_flight (firmware (env w))) rs') ∧
      represents q core (env w) rq' rs' ∧ host_words_kept q core w (env w)
}.

(** The queue lies below the APB window of the ARC core and has a size that
    its descriptor can hold. *)
Record queue_ok (q : BlackholeArcMessageQueue) : Prop := {
  qk_size : 0 < size q ≤ 255;
  qk_base : 0 ≤ base_address q;
  qk_end : base_address q + 4 * (8 + 16 * size q) ≤ 0x80000000
}.

Section Refinement.
Context {F : Type} (env : World F → World F) (locate : NocId → xy_pair → xy_pair) (now : F → Z) (arc_route : Route).
Context (q : BlackholeArcMessageQueue) (noc : NocId) (arc_core : xy_pair) (answers : list Z → list Z → Prop).
Context (Hcore : queue_arc_core q noc = Ok arc_core) (Hq : queue_ok q).
Let core := locate noc arc_core.
Context {fw : ArcFirmware env q core answers}.
Implicit Types (w : World F) (s : Queues).

(** The world is in a state of the abstract queues. *)
Definition holds w s : Prop :=
  represents q core w (requests s) (responses s) ∧ in_progress s = in_flight (firmware w).
Definition fw_steps : Queues → Queues → Prop := rtc (firmware_step answers).

Lemma fw_steps_trans s1 s2 s3 : fw_steps s1 s2 → fw_steps s2 s3 → fw_steps s1 s3.
Proof. unfold fw_steps. intros H1 H2. by etrans. Qed.

Lemma holds_env w s : holds w s → ∃ s', fw_steps s s' ∧ holds (env w) s' ∧ host_words_kept q core w (env w).
Proof.
  destruct s as [rq fl rs]. intros [Hrep Hfl]. cbn in *. subst fl.
  destruct (firmware_obeys w rq rs Hrep) as (rq' & rs' & Hsteps & Hrep' & Hkept).
  by exists (MkQueues rq' (in_flight (firmware (env w))) rs').
Qed.

Lemma kept_trans w1 w2 w3 :
  host_words_kept q core w1 w2 → host_words_kept q core w2 w3 → host_words_kept q core w1 w3.
Proof. intros H1 H2 k Hk. by rewrite H2, H1. Qed.

Lemma word_address_eq k : 0 ≤ k < 8 + 16 * size q → word_address q k = base_address q + 4 * k.
Proof. intros Hk. destruct Hq. unfold word_address. rewrite u64_small by lia. lia. Qed.

Lemma queue_word_upd w k k' v :
  queue_word q core (upd_mem core (base_address q + 4 * k) v w) k' = if decide (k' = k) then v else queue_word q core w k'.
Proof.
  unfold queue_word. cbn. destruct (decide (k' = k)) as [->|Hne]; [by rewrite decide_True|].
  rewrite decide_False; [done|]. intros [_ ?]. lia.
Qed.

(** The writes of the host: a word of the free request slot, and its two pointers. *)
Lemma holds_upd_free w s j v :
  holds w s → vec_size (requests s) < size q → 0 ≤ j < 8 →
  holds (upd_mem core (base_address q + 4 * (8 + 8 * (queue_word q core w 0 `mod` size q) + j)) v w) s.
Proof.
  intros [[Hreq Hresp] Hfl] Hroom Hj. destruct Hq as [Hs _ _].
  pose proof (Z.mod_pos_bound (queue_word q core w 0) (size q) ltac:(lia)) as Hslot.
  unfold request_rptr_offset, request_wptr_offset, response_rptr_offset, response_wptr_offset, header_len in *.
  split; [|done]. split;
    unfold request_rptr_offset, request_wptr_offset, response_rptr_offset, response_wptr_offset, header_len;
    rewrite !queue_word_upd, !decide_False by lia.
  - eapply ring_ext; [done|]. intros k j' Hk Hj'. rewrite queue_word_upd, decide_False; [done|].
    assert ((queue_word q core w 4 + k) `mod` size q ≠ queue_word q core w 0 `mod` size q) as Hne.
    { destruct Hreq as [? ? -> _]. rewrite mod_mod_double by lia. apply slots_differ; lia. }
    pose proof (Z.mod_pos_bound (queue_word q core w 4 + k) (size q) ltac:(lia)). lia.
  - eapply ring_ext; [done|]. intros k j' Hk Hj'. rewrite queue_word_upd, decide_False; [done|].
    pose proof (Z.mod_pos_bound (queue_word q core w 1 + k) (size q) ltac:(lia)). lia.
Qed.

Lemma holds_push w s request :
  holds w s → vec_size (requests s) < size q →
  entry (queue_word q core w) 8 (queue_word q core w 0 `mod` size q) = request →
  holds (upd_mem core (base_address q + 4 * 0) ((queue_word q core w 0 + 1) `mod` (2 * size q)) w) (pushed request s).
Proof.
  intros [[Hreq Hresp] Hfl] Hroom He. destruct Hq as [Hs _ _].
  unfold request_rptr_offset, request_wptr_offset, response_rptr_offset, response_wptr_offset, header_len in *.
  split; [|done]. split;
    unfold request_rptr_offset, request_wptr_offset, response_rptr_offset, response_wptr_offset, header_len;
    rewrite !queue_word_upd; cbn [decide].
  - rewrite (decide_False (P := 4 = 0)), (decide_True (P := 0 = 0)) by done. cbn [requests pushed].
    eapply (ring_enqueue _ (size q) 8); [lia|done|done| |].
    + intros slot j Hslot _ Hj. by rewrite queue_word_upd, decide_False by lia.
    + rewrite <- He. apply entry_ext. intros j Hj.
      pose proof (Z.mod_pos_bound (queue_word q core w 0) (size q) ltac:(lia)).
      by rewrite queue_word_upd, decide_False by lia.
  - rewrite (decide_False (P := 1 = 0)), (decide_False (P := 5 = 0)) by done.
    eapply ring_ext; [done|]. intros k j Hk Hj.
    pose proof (Z.mod_pos_bound (queue_word q core w 1 + k) (size q) ltac:(lia)).
    by rewrite queue_word_upd, decide_False by lia.
Qed.

Lemma holds_pop w s r rs :
  holds w s → responses s = r :: rs →
  holds (upd_mem core (base_address q + 4 * 1) ((queue_word q core w 1 + 1) `mod` (2 * size q)) w)
    (MkQueues (requests s) (in_progress s) rs).
Proof.
  intros [[Hreq Hresp] Hfl] Hrs. destruct Hq as [Hs _ _]. rewrite Hrs in Hresp.
  unfold request_rptr_offset, request_wptr_offset, response_rptr_offset, response_wptr_offset, header_len in *.
  split; [|done]. split;
    unfold request_rptr_offset, request_wptr_offset, response_rptr_offset, response_wptr_offset, header_len;
    rewrite !queue_word_upd; cbn [requests responses].
  - rewrite (decide_False (P := 4 = 1)), (decide_False (P := 0 = 1)) by done.
    eapply ring_ext; [done|]. intros k j Hk Hj.
    pose proof (Z.mod_pos_bound (queue_word q core w 4 + k) (size q) ltac:(lia)).
    by rewrite queue_word_upd, decide_False by lia.
  - rewrite (decide_True (P := 1 = 1)), (decide_False (P := 5 = 1)) by done.
    eapply ring_ext; [by eapply ring_dequeue; [lia|]|]. intros k j Hk Hj.
    pose proof (Z.mod_pos_bound ((queue_word q core w 1 + 1) `mod` (2 * size q) + k) (size q) ltac:(lia)).
    by rewrite queue_word_upd, decide_False by lia.
Qed.

(** A write outside of the queue. *)
Lemma holds_outside w s a v :
  holds w s → base_address q + 4 * (8 + 16 * size q) ≤ a → holds (upd_mem core a v w) s.
Proof.
  intros [[Hreq Hresp] Hfl] Ha. destruct Hq as [Hs _ _].
  assert (∀ k, 0 ≤ k < 8 + 16 * size q → queue_word q core (upd_mem core a v w) k = queue_word q core w k) as Hk.
  { intros k Hk. unfold queue_word. cbn. rewrite decide_False; [done|]. intros [_ ?]. lia. }
  unfold request_rptr_offset, request_wptr_offset, response_rptr_offset, response_wptr_offset, header_len in *.
  split; [|done]. split;
    unfold request_rptr_offset, request_wptr_offset, response_rptr_offset, response_wptr_offset, header_len;
    rewrite !Hk by lia; (eapply ring_ext; [done|]); intros k j Hk' Hj.
  - pose proof (Z.mod_pos_bound (queue_word q core w 4 + k) (size q) ltac:(lia)). by rewrite Hk by lia.
  - pose proof (Z.mod_pos_bound (queue_word q core w 1 + k) (size q) ltac:(lia)). by rewrite Hk by lia.
Qed.

(** ** Accesses *)

Lemma read_word_spec b k (Q : result Z → World F → Prop) w s :
  holds w s → 0 ≤ k < 8 →
  (∀ s', fw_steps s s' → holds (env w) s' → host_words_kept q core w (env w) →
    Q (Ok (queue_word q core (env w) k)) (env w)) →
  wpf b (read_word env locate q k noc) Q w.
Proof.
  intros Hw Hk HQ. destruct (holds_env w s Hw) as (s' & Hsteps & Hw' & Hkept). destruct Hq.
  unfold read_word. apply (wp_bind_lift _ _ arc_core); [done|]. apply wp_read_data.
  rewrite word_address_eq by lia. by apply (HQ s').
Qed.

(** The responses only grow at their end. *)
Lemma fw_steps_responses s s' : fw_steps s s' → ∃ rs, responses s' = responses s ++ rs.
Proof.
  induction 1 as [s|s s1 s2 Hstep _ [rs IH]]; [exists []; by rewrite app_nil_r|].
  rewrite IH. destruct Hstep; cbn; [by eexists|]. rewrite <- app_assoc. by eexists.
Qed.
Lemma fw_steps_requests s s' : fw_steps s s' → vec_size (requests s') ≤ vec_size (requests s).
Proof. induction 1 as [s|s s1 s2 Hstep _ IH]; [lia|]. destruct Hstep; unfold vec_size in *; cbn in *; lia. Qed.

(** Reading the rest of the oldest response. *)
Lemma read_response_spec b n j w s r rs :
  holds w s → responses s = r :: rs → Z.of_nat (j + n) = 8 →
  wpf b (read_dwords env locate arc_core
      (word_address q (8 + 8 * (size q + queue_word q core w 1 `mod` size q)) + 4 * Z.of_nat j) n noc)
    (λ res w', res = Ok (drop j r) ∧ ∃ s', fw_steps s s' ∧ holds w' s' ∧ host_words_kept q core w w') w.
Proof.
  destruct Hq as [Hs _ _]. revert j w s rs. induction n as [|n IH]; intros j w s rs Hw Hr Hj.
  - cbn [read_dwords]. apply wp_ret. split.
    + f_equal. symmetry. apply drop_ge. destruct Hw as [[_ Hresp] _]. rewrite Hr in Hresp.
      apply ring_head in Hresp. rewrite <- Hresp. unfold entry. rewrite length_fmap, length_seqZ. lia.
    + exists s. split; [apply rtc_refl|]. split; [done|]. by intros k.
  - cbn [read_dwords]. apply wp_bind, wp_read_data. fold core.
    destruct (holds_env w s Hw) as (s1 & Hsteps & Hw1 & Hkept).
    destruct (fw_steps_responses _ _ Hsteps) as [rs1 Hr1]. rewrite Hr in Hr1. cbn in Hr1.
    assert (queue_word q core (env w) 1 = queue_word q core w 1) as Hptr.
    { apply Hkept. right; by left. }
    pose proof (Z.mod_pos_bound (queue_word q core w 1) (size q) ltac:(lia)) as Hslot.
    assert (r !! j = Some (mem (env w) core
      (word_address q (8 + 8 * (size q + queue_word q core w 1 `mod` size q)) + 4 * Z.of_nat j))) as Hword.
    { destruct Hw1 as [[_ Hresp] _]. rewrite Hr1 in Hresp. apply ring_head in Hresp. rewrite <- Hresp.
      unfold entry, response_rptr_offset, header_len. rewrite Hptr, list_lookup_fmap, lookup_seqZ_lt by lia.
      unfold fmap, option_fmap, option_map. f_equal. set (slot := queue_word q core w 1 `mod` size q) in *. unfold queue_word. rewrite word_address_eq by lia. f_equal. lia. }
    apply wp_bind.
    replace (word_address q (8 + 8 * (size q + queue_word q core w 1 `mod` size q)) + 4 * Z.of_nat j + 4)
      with (word_address q (8 + 8 * (size q + queue_word q core (env w) 1 `mod` size q)) + 4 * Z.of_nat (S j))
      by (rewrite Hptr; lia).
    eapply wp_mono; [eapply (IH (S j)); [done|done|lia]|].
    intros res w' (-> & s' & Hsteps' & Hw' & Hkept'). apply wp_ret. split.
    + f_equal. by rewrite (drop_S r _ j Hword).
    + exists s'. split; [by eapply fw_steps_trans|]. split; [done|]. by eapply kept_trans.
Qed.

(** Writing the rest of a request into the free slot. *)
Lemma write_request_spec b vs written w s request :
  holds w s → vec_size (requests s) < size q → request = written ++ vs → length request = 8%nat →
  let slot := queue_word q core w 0 `mod` size q in
  (∀ j, 0 ≤ j < Z.of_nat (length written) → request !! Z.to_nat j = Some (queue_word q core w (8 + 8 * slot + j))) →
  wpf b (write_dwords env locate arc_core (word_address q (8 + 8 * slot) + 4 * Z.of_nat (length written)) vs noc)
    (λ res w', res = Ok tt ∧ ∃ s', fw_steps s s' ∧ holds w' s' ∧ queue_word q core w' 0 = queue_word q core w 0 ∧
       entry (queue_word q core w') 8 slot = request) w.
Proof.
  destruct Hq as [Hs _ _]. revert written w s.
  induction vs as [|v vs IH]; intros written w s Hw Hroom Hreq Hlen slot Hwritten; cbn [write_dwords].
  - apply wp_ret. split; [done|]. exists s. split; [apply rtc_refl|]. split; [done|]. split; [done|].
    rewrite app_nil_r in Hreq. subst written. unfold entry. apply list_eq. intros i.
    rewrite list_lookup_fmap. destruct (decide (i < 8)%nat) as [Hi|Hi].
    + rewrite lookup_seqZ_lt by lia. unfold fmap, option_fmap, option_map. symmetry.
      pose proof (Hwritten (Z.of_nat i) ltac:(lia)) as H. rewrite Nat2Z.id in H. rewrite H.
      done.
    + rewrite lookup_seqZ_ge by lia. cbn. symmetry. apply lookup_ge_None. lia.
  - apply wp_bind, wp_write_data. fold core. destruct (holds_env w s Hw) as (s1 & Hsteps & Hw1 & Hkept).
    pose proof (fw_steps_requests _ _ Hsteps) as Hlen1.
    assert (queue_word q core (env w) 0 = queue_word q core w 0) as Hptr by (apply Hkept; by left).
    assert (Z.of_nat (length written) < 8) as Hj.
    { rewrite Hreq, length_app in Hlen. cbn in Hlen. lia. }
    pose proof (Z.mod_pos_bound (queue_word q core w 0) (size q) ltac:(lia)) as Hslot. fold slot in Hslot.
    replace (word_address q (8 + 8 * slot) + 4 * Z.of_nat (length written))
      with (base_address q + 4 * (8 + 8 * slot + Z.of_nat (length written))) by (rewrite word_address_eq by lia; lia).
    pose proof (holds_upd_free (env w) s1 (Z.of_nat (length written)) v Hw1 ltac:(lia) ltac:(lia)) as Hw2.
    rewrite Hptr in Hw2. fold slot in Hw2. set (w2 := upd_mem _ _ _ _) in Hw2 |- *.
    assert (∀ k, k ≠ 8 + 8 * slot + Z.of_nat (length written) → queue_word q core w2 k = queue_word q core (env w) k) as Hother.
    { intros k Hk. unfold w2. by rewrite queue_word_upd, decide_False by done. }
    assert (queue_word q core w2 0 = queue_word q core w 0) as Hptr2 by (by rewrite Hother by lia).
    replace (base_address q + 4 * (8 + 8 * slot + Z.of_nat (length written)) + 4)
      with (word_address q (8 + 8 * (queue_word q core w2 0 `mod` size q)) + 4 * Z.of_nat (length (written ++ [v])))
      by (rewrite Hptr2, length_app; fold slot; rewrite word_address_eq by lia; cbn; lia).
    eapply wp_mono; [eapply (IH (written ++ [v]) w2 s1)|].
    + done.
    + lia.
    + by rewrite Hreq, <- app_assoc.
    + done.
    + rewrite Hptr2. fold slot. intros j Hj'. rewrite length_app in Hj'. cbn in Hj'.
      destruct (decide (j = Z.of_nat (length written))) as [->|Hne].
      * rewrite Nat2Z.id, Hreq, list_lookup_middle by done. unfold w2. by rewrite queue_word_upd, decide_True.
      * rewrite Hother, Hwritten by lia. f_equal. symmetry. apply Hkept. right; right. unfold header_len. nia.
    + intros res w' (-> & s' & Hsteps' & Hw' & Hptr' & Hentry). split; [done|]. exists s'.
      split; [by eapply fw_steps_trans|]. split; [done|]. rewrite Hptr'. split; [done|].
      rewrite Hptr2 in Hentry. exact Hentry.
Qed.

Lemma holds_upd_bar w s a v : holds w s → holds (upd_bar a v w) s.
Proof. by intros [[? ?] ?]. Qed.

(** ** Pushing a request *)

Lemma trigger_spec b w s :
  holds w s →
  wpf b (trigger_fw_int env locate arc_route q noc) (λ r w', r = Ok tt ∧ ∃ s', fw_steps s s' ∧ holds w' s') w.
Proof.
  intros Hw. pose proof (qk_end _ Hq) as Hend.
  assert (∀ w s, holds w s → ∃ s', fw_steps s s' ∧ holds (env w) s') as Henv.
  { intros w1 s1 Hw1. destruct (holds_env w1 s1 Hw1) as (s' & ? & ? & _). by exists s'. }
  assert (∀ v s w, holds w s → ∃ s', fw_steps s s' ∧
    holds (upd_mem core (0x80000000 + ARC_FW_INT_ADDR) v (env w)) s') as Hmem.
  { intros v s1 w1 Hw1. destruct (Henv _ _ Hw1) as (s' & Hs & Hw'). exists s'. split; [done|].
    apply holds_outside; [done|]. unfold ARC_FW_INT_ADDR, ARC_RESET_UNIT_OFFSET. lia. }
  unfold trigger_fw_int. apply (wp_bind_lift _ _ arc_core); [done|]. unfold arc_apb_write.
  change (0xFFFFFFFF <? ARC_FW_INT_ADDR) with false. cbn [negb]. destruct arc_route.
  - apply wp_write_data. fold core. split; [done|]. by apply Hmem.
  - apply wp_bind. unfold wpf, is_arc_available_over_axi, get_pcie_x_coordinate, bar_read32, mbind, M_bind, mret, M_ret.
    destruct (Henv _ _ Hw) as (s1 & Hs1 & Hw1). destruct (_ =? 11); cbn.
    + split; [done|]. destruct (Henv _ _ Hw1) as (s2 & Hs2 & Hw2). exists s2.
      split; [exact (fw_steps_trans _ _ _ Hs1 Hs2)|]. by apply holds_upd_bar.
    + split; [done|]. destruct (Hmem ARC_FW_INT_VAL _ _ Hw1) as (s2 & Hs2 & Hw2). exists s2.
      split; [exact (fw_steps_trans _ _ _ Hs1 Hs2)|]. exact Hw2.
Qed.

Lemma wait_for_room_spec b fuel w s start timeout_ms :
  holds w s → (b ∨ (0 < fuel)%nat ∧ requests s = []) →
  wpf b (wait_for_room env locate now q fuel (queue_word q core w 0) start timeout_ms noc)
    (λ r w', ∃ s', fw_steps s s' ∧ holds w' s' ∧ queue_word q core w' 0 = queue_word q core w 0 ∧
       match r with
       | Ok _ => vec_size (requests s') < size q
       | Err e => e = RuntimeError timeout_message ∧ vec_size (requests s') = size q
       end) w.
Proof.
  revert w s. induction fuel as [|fuel IH]; intros w s Hw Hb; cbn [wait_for_room].
  { destruct Hb as [Hb|[? _]]; [exact Hb|lia]. }
  apply wp_bind, read_word_spec with s; [done|by vm_compute|]. intros s1 Hs1 Hw1 Hkept.
  assert (queue_word q core (env w) 0 = queue_word q core w 0) as Hptr by (apply Hkept; by left).
  pose proof (qk_size _ Hq) as Hsize.
  pose proof (request_queue_has_room_spec _ q _ _ _ _ Hsize (rep_requests _ _ _ _ _ (proj1 Hw1))) as Hroom.
  unfold request_wptr_offset in Hroom. rewrite Hptr in Hroom.
  eapply wp_bind_lift; [exact Hroom|]. case_bool_decide as Hlt.
  { apply wp_ret. exists s1. done. }
  apply wp_bind, wp_check_timeout. destruct (timed_out _ _ _).
  - exists s1. split_and!; try done. pose proof (rg_size _ _ _ _ _ _ (rep_requests _ _ _ _ _ (proj1 Hw1))). lia.
  - rewrite <- Hptr. eapply wp_mono; [apply (IH (env w) s1 Hw1)|].
    + destruct Hb as [Hb|[_ Hb]]; [by left|]. exfalso. pose proof (fw_steps_requests _ _ Hs1) as Hl.
      rewrite Hb in Hl. unfold vec_size in Hl, Hlt. cbn in Hl. lia.
    + intros r w' (s' & Hs' & Hw' & Hp & Hr). exists s'. split; [by eapply fw_steps_trans|]. done.
Qed.

Lemma urem_spec a c : c ≠ 0 → urem a c = Ok (a `mod` c).
Proof. intros Hc. unfold urem. by destruct (Z.eqb_spec c 0). Qed.

Lemma push_request_spec b fuel w s request timeout_ms :
  holds w s → length request = 8%nat → (b ∨ (0 < fuel)%nat ∧ requests s = []) →
  wpf b (push_request env locate now arc_route q fuel request timeout_ms noc)
    (λ r w',
       match r with
       | Ok _ => ∃ s1 s', fw_steps s s1 ∧ vec_size (requests s1) < size q ∧ fw_steps (pushed request s1) s' ∧ holds w' s'
       | Err e => e = RuntimeError timeout_message ∧ ∃ s', fw_steps s s' ∧ vec_size (requests s') = size q ∧ holds w' s'
       end) w.
Proof.
  intros Hw Hlen Hb. pose proof (qk_size _ Hq) as Hsize. unfold push_request.
  apply wp_bind, read_word_spec with s; [done|by vm_compute|]. intros s1 Hs1 Hw1 _.
  change request_wptr_offset with 0. apply wp_bind, wp_now. apply wp_bind.
  eapply wp_mono; [apply (wait_for_room_spec b fuel _ s1 _ _ Hw1)|].
  { destruct Hb as [Hb|[Hf Hr]]; [by left|]. right. split; [done|]. pose proof (fw_steps_requests _ _ Hs1) as Hl.
    rewrite Hr in Hl. unfold vec_size in Hl. apply nil_length_inv. cbn in Hl. lia. }
  intros r w2 (s2 & Hs2 & Hw2 & Hptr2 & Hr2). set (wptr := queue_word q core (env w) 0) in *.
  destruct r as [_|e].
  2:{ destruct Hr2 as [-> Hfull]. split; [done|]. exists s2. split; [by eapply fw_steps_trans|]. done. }
  assert (0 ≤ wptr < 2 * size q) as Hrange.
  { rewrite <- Hptr2. apply (ring_wptr_range _ _ _ _ _ _ (rep_requests _ _ _ _ _ (proj1 Hw2))). }
  eapply wp_bind_lift; [apply urem_spec; lia|].
  pose proof (Z.mod_pos_bound wptr (size q) ltac:(lia)) as Hslot.
  assert (u32 (u64 (header_len + u64 (wptr `mod` size q * entry_len))) = 8 + 8 * (queue_word q core w2 0 `mod` size q)) as ->.
  { rewrite Hptr2. unfold header_len, entry_len. rewrite (u64_small (_ * 8)) by lia. rewrite u64_small, u32_small by lia. lia. }
  apply wp_bind. unfold write_words. apply (wp_bind_lift _ _ arc_core); [done|].
  rewrite <- (Z.add_0_r (word_address _ _)).
  eapply wp_mono; [apply (write_request_spec b request [] w2 s2 request Hw2 Hr2 eq_refl Hlen)|].
  { intros j Hj. cbn in Hj. lia. }
  intros r w3 (-> & s3 & Hs3 & Hw3 & Hptr3 & Hentry). rewrite u64_small by lia.
  eapply wp_bind_lift; [apply urem_spec; lia|]. rewrite (u32_small (wptr + 1)) by lia.
  pose proof (Z.mod_pos_bound (wptr + 1) (2 * size q) ltac:(lia)) as Hnext. rewrite (u32_small (_ `mod` _)) by lia.
  apply wp_bind, (wp_bind_lift _ _ arc_core); [done|]. cbn [write_dwords]. apply wp_bind, wp_write_data, wp_ret.
  fold core. destruct (holds_env w3 s3 Hw3) as (s4 & Hs4 & Hw4 & Hkept).
  assert (queue_word q core (env w3) 0 = wptr) as Hptr4 by (rewrite Hkept by (by left); congruence).
  pose proof (fw_steps_requests _ _ Hs3). pose proof (fw_steps_requests _ _ Hs4).
  rewrite word_address_eq by lia. rewrite <- Hptr4.
  assert (holds (upd_mem core (base_address q + 4 * 0) ((queue_word q core (env w3) 0 + 1) `mod` (2 * size q)) (env w3))
    (pushed request s4)) as Hw5.
  { apply holds_push; [done|lia|]. rewrite Hptr4, <- Hentry, Hptr2. apply entry_ext. intros j Hj.
    apply Hkept. right; right. unfold header_len. lia. }
  eapply wp_mono; [by apply trigger_spec|]. intros r w' (-> & s' & Hs' & Hw').
  exists s4, s'. split; [|split; [lia|done]]. eapply fw_steps_trans; [exact Hs1|].
  eapply fw_steps_trans; [exact Hs2|]. by eapply fw_steps_trans.
Qed.

(** ** Popping a response *)

(** The firmware has published a response. *)
Definition response_ready w : Prop := queue_word q core w 1 ≠ queue_word q core w 5.

(** One of the next [fuel] polls finds a response, before the timeout. *)
Definition arrives (fuel : nat) w (start timeout_ms : Z) : Prop :=
  ∃ n, (n < fuel)%nat ∧ response_ready (Nat.iter (S n) env w) ∧
    ∀ i, (1 ≤ i ≤ n)%nat → timed_out start timeout_ms (now (firmware (Nat.iter i env w))) = false.

Lemma response_ready_spec w s : holds w s → response_ready w ↔ responses s ≠ [].
Proof.
  intros Hw. unfold response_ready.
  pose proof (ring_empty _ _ _ (proj1 (qk_size _ Hq)) _ _ _ (rep_responses _ _ _ _ _ (proj1 Hw))) as He.
  unfold response_rptr_offset, response_wptr_offset in He. tauto.
Qed.

Lemma wait_for_response_spec b timeouts fuel w s start timeout_ms :
  holds w s → ((b ∧ timeouts) ∨ arrives fuel w start timeout_ms) →
  wpf b (wait_for_response env locate now q fuel (queue_word q core w 1) start timeout_ms noc)
    (λ r w', ∃ s', fw_steps s s' ∧ holds w' s' ∧ queue_word q core w' 1 = queue_word q core w 1 ∧
       match r with
       | Ok _ => responses s' ≠ []
       | Err e => (timeouts : Prop) ∧ e = RuntimeError timeout_message ∧ responses s' = []
       end) w.
Proof.
  revert w s. induction fuel as [|fuel IH]; intros w s Hw Hb; cbn [wait_for_response].
  { destruct Hb as [[Hb _]|(n & Hn & _)]; [exact Hb|lia]. }
  apply wp_bind, read_word_spec with s; [done|by vm_compute|]. intros s1 Hs1 Hw1 Hkept.
  assert (queue_word q core (env w) 1 = queue_word q core w 1) as Hptr by (apply Hkept; right; by left).
  pose proof (response_ready_spec _ _ Hw1) as Hready. unfold response_ready in Hready. rewrite Hptr in Hready.
  change response_wptr_offset with 5.
  destruct (Z.eqb_spec (queue_word q core w 1) (queue_word q core (env w) 5)) as [E|E]; cbn [negb].
  2:{ apply wp_ret. exists s1. split_and!; try done. by apply Hready. }
  assert (responses s1 = []) as Hnil.
  { destruct (responses s1); [done|]. exfalso. by apply Hready. }
  apply wp_bind, wp_check_timeout. destruct (timed_out _ _ _) eqn:Ht.
  - destruct Hb as [[_ Hb]|(n & Hn & Hrdy & Htime)]; [by exists s1|]. exfalso.
    destruct n as [|n]; [unfold response_ready in Hrdy; cbn in Hrdy; congruence|].
    specialize (Htime 1%nat ltac:(lia)). cbn in Htime. congruence.
  - rewrite <- Hptr. eapply wp_mono; [apply (IH (env w) s1 Hw1)|].
    + destruct Hb as [Hb|(n & Hn & Hrdy & Htime)]; [by left|right].
      destruct n as [|n]; [unfold response_ready in Hrdy; cbn in Hrdy; congruence|].
      exists n. split; [lia|]. rewrite <- Nat.iter_succ_r. split; [done|].
      intros i Hi. rewrite <- Nat.iter_succ_r. apply Htime. lia.
    + intros r w' (s' & Hs' & Hw' & Hp & Hr). exists s'. split; [exact (fw_steps_trans _ _ _ Hs1 Hs')|]. done.
Qed.

Lemma pop_response_spec b timeouts fuel w s timeout_ms :
  holds w s → ((b ∧ timeouts) ∨ arrives fuel (env w) (now (firmware (env w))) timeout_ms) →
  wpf b (pop_response env locate now q fuel timeout_ms noc)
    (λ r w',
       match r with
       | Ok response => ∃ s1 rs, fw_steps s s1 ∧ responses s1 = response :: rs ∧
           holds w' (MkQueues (requests s1) (in_progress s1) rs)
       | Err e => (timeouts : Prop) ∧ e = RuntimeError timeout_message ∧
           ∃ s', fw_steps s s' ∧ responses s' = [] ∧ holds w' s'
       end) w.
Proof.
  intros Hw Hb. pose proof (qk_size _ Hq) as Hsize. unfold pop_response.
  apply wp_bind, read_word_spec with s; [done|by vm_compute|]. intros s1 Hs1 Hw1 _.
  change response_rptr_offset with 1. apply wp_bind, wp_now. apply wp_bind.
  eapply wp_mono; [apply (wait_for_response_spec b timeouts fuel _ s1 _ _ Hw1 Hb)|].
  intros r w2 (s2 & Hs2 & Hw2 & Hptr2 & Hr2). set (rptr := queue_word q core (env w) 1) in *.
  pose proof (fw_steps_trans _ _ _ Hs1 Hs2) as Hs12. destruct r as [_|e].
  2:{ destruct Hr2 as (? & -> & Hr2). split; [done|]. split; [done|]. by exists s2. }
  destruct (responses s2) as [|response rs2] eqn:Hrs2; [done|]. clear Hr2.
  assert (0 ≤ rptr < 2 * size q) as Hrange.
  { rewrite <- Hptr2. apply (rg_rptr _ _ _ _ _ _ (rep_responses _ _ _ _ _ (proj1 Hw2))). }
  eapply wp_bind_lift; [apply urem_spec; lia|].
  pose proof (Z.mod_pos_bound rptr (size q) ltac:(lia)) as Hslot.
  assert (u32 (u64 (header_len + u64 (u64 (size q + rptr `mod` size q) * entry_len)))
    = 8 + 8 * (size q + queue_word q core w2 1 `mod` size q)) as ->.
  { rewrite Hptr2. unfold header_len, entry_len. rewrite (u64_small (size q + _)), (u64_small (_ * 8)) by lia.
    rewrite u64_small, u32_small by lia. lia. }
  apply wp_bind. unfold read_words. apply (wp_bind_lift _ _ arc_core); [done|].
  rewrite <- (Z.add_0_r (word_address _ _)).
  eapply wp_mono; [apply (read_response_spec b 8 0 w2 s2 response rs2 Hw2 Hrs2); lia|].
  intros r w3 (-> & s3 & Hs3 & Hw3 & Hkept3). cbn [drop]. rewrite u64_small by lia.
  eapply wp_bind_lift; [apply urem_spec; lia|]. rewrite (u32_small (rptr + 1)) by lia.
  pose proof (Z.mod_pos_bound (rptr + 1) (2 * size q) ltac:(lia)) as Hnext. rewrite (u32_small (_ `mod` _)) by lia.
  apply wp_bind. unfold write_words. apply (wp_bind_lift _ _ arc_core); [done|]. cbn [write_dwords].
  apply wp_bind, wp_write_data, wp_ret, wp_ret. fold core.
  destruct (holds_env w3 s3 Hw3) as (s4 & Hs4 & Hw4 & Hkept4).
  assert (queue_word q core (env w3) 1 = rptr) as Hptr4.
  { rewrite Hkept4 by (right; by left). rewrite Hkept3 by (right; by left). done. }
  destruct (fw_steps_responses _ _ (fw_steps_trans _ _ _ Hs3 Hs4)) as [rs4 Hrs4]. rewrite Hrs2 in Hrs4.
  exists s4, (rs2 ++ rs4). split.
  { exact (fw_steps_trans _ _ _ Hs12 (fw_steps_trans _ _ _ Hs3 Hs4)). }
  split; [done|]. rewrite word_address_eq by lia. rewrite <- Hptr4. eapply holds_pop; [done|exact Hrs4].
Qed.
End Refinement.
