(* ===== verification/ArcQueueProperties.v ===== *)
(** * ArcQueueProperties

    The correctness of the ARC message queue: refinement of two FIFO queues,
    termination under a ticking clock, and the complete exchange of a message
    with a firmware that answers in time; and a small firmware that shows the
    interface [ArcFirmware] can be implemented. *)

From Stdlib Require Import ZArith Lia.
From stdpp Require Import base list list_numbers numbers strings relations.
From S2P Require Import Prelude CoreTypes ArchData DeviceAccess ArcQueue ArcQueueTheory.

Local Open Scope Z_scope.

(** ** Termination *)

Section Termination.
Context {F : Type} (env : World F → World F) (locate : NocId → xy_pair → xy_pair) (now : F → Z) (arc_route : Route).
Context (q : BlackholeArcMessageQueue) (noc : NocId).
(** The clock advances between two accesses of the device. *)
Context (ticks : ∀ w, now (firmware w) < now (firmware (env w))).

(** A polling loop: an access, a test that may end it, the timeout. *)
Lemma poll_returns (loop : nat → M F unit) (step : World F → option (result unit)) start timeout_ms :
  0 < timeout_ms →
  (∀ fuel w, loop (S fuel) w =
     match step (env w) with
     | Some r => Some (r, env w)
     | None => (check_timeout now start timeout_ms timeout_message;; loop fuel) (env w)
     end) →
  ∀ fuel w, now (firmware w) - start < patience timeout_ms →
    patience timeout_ms - (now (firmware w) - start) < Z.of_nat fuel → is_Some (loop fuel w).
Proof.
  intros Ht Hloop. induction fuel as [|fuel IH]; intros w Hw Hfuel; [lia|]. rewrite Hloop.
  pose proof (ticks w) as Htick.
  assert (is_Some ((check_timeout now start timeout_ms timeout_message;; loop fuel) (env w))) as Hrest.
  { unfold check_timeout, mbind, M_bind, steady_clock_now. cbn.
    destruct (timed_out _ _ _) eqn:E; [by eexists|]. cbn. apply not_timed_out in E; [|done].
    apply IH; [done|lia]. }
  destruct (step (env w)) as [r|]; [by eexists|done].
Qed.

Lemma queue_arc_core_total : ∃ arc_core, queue_arc_core q noc = Ok arc_core.
Proof. unfold queue_arc_core, get_arc_core. destruct (_ || _); by eexists. Qed.

Lemma wait_for_room_returns fuel wptr timeout_ms w :
  0 < timeout_ms → patience timeout_ms < Z.of_nat fuel →
  is_Some (wait_for_room env locate now q fuel wptr (now (firmware w)) timeout_ms noc w).
Proof.
  intros Ht Hfuel. destruct queue_arc_core_total as [c Hc].
  apply (poll_returns (λ fuel, wait_for_room env locate now q fuel wptr (now (firmware w)) timeout_ms noc)
    (λ w, match request_queue_has_room q (mem w (locate noc c) (word_address q request_rptr_offset)) wptr with
          | Ok true => Some (Ok tt) | Err e => Some (Err e) | Ok false => None end) (now (firmware w)) timeout_ms Ht);
    [|unfold patience; lia|lia].
  intros fuel' w'. cbn [wait_for_room]. unfold read_word. rewrite Hc.
  unfold lift, read_data, mbind, M_bind, mret, M_ret. by destruct (request_queue_has_room _ _ _) as [[]|].
Qed.

Lemma wait_for_response_returns fuel rptr timeout_ms w :
  0 < timeout_ms → patience timeout_ms < Z.of_nat fuel →
  is_Some (wait_for_response env locate now q fuel rptr (now (firmware w)) timeout_ms noc w).
Proof.
  intros Ht Hfuel. destruct queue_arc_core_total as [c Hc].
  apply (poll_returns (λ fuel, wait_for_response env locate now q fuel rptr (now (firmware w)) timeout_ms noc)
    (λ w, if negb (rptr =? mem w (locate noc c) (word_address q response_wptr_offset)) then Some (Ok tt) else None)
    (now (firmware w)) timeout_ms Ht);
    [|unfold patience; lia|lia].
  intros fuel' w'. cbn [wait_for_response]. unfold read_word. rewrite Hc.
  unfold lift, read_data, mbind, M_bind, mret, M_ret. by destruct (negb _).
Qed.

Lemma read_word_returns k : returns (read_word env locate q k noc).
Proof. apply returns_bind; [apply returns_lift|]. intros c w. by eexists. Qed.
Lemma read_words_returns n k : returns (read_words env locate q n k noc).
Proof. apply returns_bind; [apply returns_lift|]. intros c. apply returns_read_dwords. Qed.
Lemma write_words_returns vs k : returns (write_words env locate q vs k noc).
Proof. apply returns_bind; [apply returns_lift|]. intros c. apply returns_write_dwords. Qed.
Lemma trigger_returns : returns (trigger_fw_int env locate arc_route q noc).
Proof. apply returns_bind; [apply returns_lift|]. intros c. apply returns_arc_apb_write. Qed.

(** Reading the clock and then a loop that returns when it starts at that time. *)
Lemma returns_timed {A} (loop : Z → M F unit) (rest : M F A) :
  (∀ w, is_Some (loop (now (firmware w)) w)) → returns rest →
  returns (start ← steady_clock_now now; loop start;; rest).
Proof.
  intros Hloop Hrest w. unfold mbind, M_bind, steady_clock_now. destruct (Hloop w) as [[[[]|e] w'] ->]; [|by eexists].
  apply Hrest.
Qed.

Lemma push_request_returns fuel request timeout_ms :
  0 < timeout_ms → patience timeout_ms < Z.of_nat fuel →
  returns (push_request env locate now arc_route q fuel request timeout_ms noc).
Proof.
  intros Ht Hfuel. apply returns_bind; [apply read_word_returns|]. intros wptr.
  apply (returns_timed (λ start, wait_for_room env locate now q fuel wptr start timeout_ms noc)).
  { intros w. by apply wait_for_room_returns. }
  apply returns_bind; [apply returns_lift|]. intros slot.
  apply returns_bind; [apply write_words_returns|]. intros _.
  apply returns_bind; [apply returns_lift|]. intros next.
  apply returns_bind; [apply write_words_returns|]. intros _. apply trigger_returns.
Qed.

Lemma pop_response_returns fuel timeout_ms :
  0 < timeout_ms → patience timeout_ms < Z.of_nat fuel →
  returns (pop_response env locate now q fuel timeout_ms noc).
Proof.
  intros Ht Hfuel. apply returns_bind; [apply read_word_returns|]. intros rptr.
  apply (returns_timed (λ start, wait_for_response env locate now q fuel rptr start timeout_ms noc)).
  { intros w. by apply wait_for_response_returns. }
  apply returns_bind; [apply returns_lift|]. intros slot.
  apply returns_bind; [apply read_words_returns|]. intros response.
  apply returns_bind; [apply returns_lift|]. intros next.
  apply returns_bind; [apply write_words_returns|]. intros _. by eexists.
Qed.

(** The fuel covers the polls of a wait of [timeout_ms]. *)
Definition enough_polls (timeout_ms : Z) (fuel : nat) : Prop :=
  0 < timeout_ms ∧ patience timeout_ms < Z.of_nat fuel.

(** C31: TERMINATION. With a non-zero timeout and a clock that advances between two
    accesses of the device, [send_message] returns or throws within a number of
    polls that the timeout bounds - whatever the firmware does, and whatever
    is in the queue's memory. *)
Theorem send_message_terminates fuel message_type args timeout_ms w :
  enough_polls timeout_ms fuel →
  ∃ outcome w', send_message env locate now arc_route q fuel message_type args timeout_ms noc w = Some (outcome, w').
Proof.
  intros [Ht Hfuel].
  assert (returns (send_message env locate now arc_route q fuel message_type args timeout_ms noc)) as Hr.
  { unfold send_message. destruct (_ <? _); [apply returns_lift|].
    apply returns_bind; [by apply push_request_returns|]. intros _.
    apply returns_bind; [by apply pop_response_returns|]. intros response.
    apply returns_bind; [apply returns_lift|]. by eexists. }
  destruct (Hr w) as [[r w'] H]. by exists r, w'.
Qed.
End Termination.

(** ** Refinement *)

(** Nothing waits, nothing is in progress, nothing is unread. *)
Definition quiet : Queues := MkQueues [] [] [].

Lemma quiet_steps answers s : rtc (firmware_step answers) quiet s → s = quiet.
Proof.
  intros H. remember quiet as s0 eqn:E. induction H as [s|s s1 s2 Hstep _ IH]; [done|]. subst.
  inversion Hstep.
Qed.

(** A lone message is waiting, in progress or answered. *)
Lemma lone_message_steps answers request s0 s :
  rtc (firmware_step answers) s0 s →
  s0 = MkQueues [request] [] [] ∨ s0 = MkQueues [] [request] [] ∨ (∃ r, answers request r ∧ s0 = MkQueues [] [] [r]) →
  s = MkQueues [request] [] [] ∨ s = MkQueues [] [request] [] ∨ (∃ r, answers request r ∧ s = MkQueues [] [] [r]).
Proof.
  induction 1 as [s|s s1 s2 Hstep _ IH]; [done|]. intros Hs. apply IH. clear IH.
  destruct Hs as [-> |[-> |(r & Hr & ->)]]; inversion Hstep; subst; clear Hstep.
  - right; left. done.
  - right; right. eauto.
Qed.

Section Exchange.
Context {F : Type} (env : World F → World F) (locate : NocId → xy_pair → xy_pair) (now : F → Z) (arc_route : Route).
Context (q : BlackholeArcMessageQueue) (noc : NocId) (arc_core : xy_pair) (answers : list Z → list Z → Prop).
Context (Hcore : queue_arc_core q noc = Ok arc_core) (Hq : queue_ok q).
Let core := locate noc arc_core.
Context {fw : ArcFirmware env q core answers}.
Implicit Types (w : World F) (s : Queues).

Let holds := holds env locate q noc arc_core answers.

(** C26: REFINEMENT of two FIFO queues. From a state of the queues, and whatever
    the firmware does between any two word accesses, [push_request] waits until
    there is room and then appends the request to the waiting ones, and
    [pop_response] waits for a response and then removes the oldest one. Each throws
    only the timeout, and only after a poll that found the request ring full
    (the response ring empty); it then has changed nothing. The firmware's
    own moves, before and after, are the only other changes. *)
Theorem message_queue_refines w s fuel request timeout_ms :
  holds w s → length request = 8%nat →
  wlp (push_request env locate now arc_route q fuel request timeout_ms noc)
    (λ outcome w',
       match outcome with
       | Ok _ => ∃ s1 s2, rtc (firmware_step answers) s s1 ∧ vec_size (requests s1) < size q ∧
           rtc (firmware_step answers) (pushed request s1) s2 ∧ holds w' s2
       | Err e => e = RuntimeError timeout_message ∧
           ∃ s1, rtc (firmware_step answers) s s1 ∧ vec_size (requests s1) = size q ∧ holds w' s1
       end) w ∧
  wlp (pop_response env locate now q fuel timeout_ms noc)
    (λ outcome w',
       match outcome with
       | Ok response => ∃ s1 rest, rtc (firmware_step answers) s s1 ∧ responses s1 = response :: rest ∧
           holds w' (MkQueues (requests s1) (in_progress s1) rest)
       | Err e => e = RuntimeError timeout_message ∧
           ∃ s1, rtc (firmware_step answers) s s1 ∧ responses s1 = [] ∧ holds w' s1
       end) w.
Proof.
  intros Hw Hlen. split.
  - by apply (push_request_spec env locate now arc_route q noc arc_core answers Hcore Hq True); [| |left].
  - eapply wp_mono.
    + apply (pop_response_spec env locate now q noc arc_core answers Hcore Hq True True _ _ s); [done|by left].
    + intros [r|e] w'; [done|]. by intros [_ H].
Qed.

(** The firmware publishes a response to pending work within [N] of its moves. *)
Definition responsive (N : nat) : Prop :=
  ∀ w s, holds w s → requests s ++ in_progress s ≠ [] →
    ∃ n, (n < N)%nat ∧ response_ready locate q noc arc_core (Nat.iter (S n) env w).

(** C28: LIVENESS of a complete exchange. When the queues are empty and the firmware
    answers within [N] moves, before the timeout, then [send_message] with at most 7
    arguments returns - [N] polls suffice - and its outcome is the one that the
    firmware's answer to exactly this request stands for: the exit code with
    the return values, or the error of the status byte. The queues are empty again. *)
Theorem send_message_live w N fuel message_type args timeout_ms :
  holds w quiet → vec_size args ≤ 7 → (0 < N ≤ fuel)%nat → responsive N →
  (∀ w n, (n ≤ N)%nat → timed_out (now (firmware w)) timeout_ms (now (firmware (Nat.iter n env w))) = false) →
  ∃ outcome w', send_message env locate now arc_route q fuel message_type args timeout_ms noc w = Some (outcome, w') ∧
    holds w' quiet ∧
    ∃ response, answers (make_request message_type args) response ∧
      outcome = (exit_code ← response_status message_type response; mret (exit_code, drop 1 response)).
Proof.
  intros Hw Hargs HN Hresp Htime. apply wp_returns. unfold send_message.
  destruct (Z.ltb_spec 7 (vec_size args)) as [?|_]; [lia|]. set (request := make_request message_type args).
  assert (length request = 8%nat) as Hlen.
  { unfold request, make_request. cbn. rewrite length_app, length_replicate. unfold vec_size in Hargs. lia. }
  apply wp_bind. eapply wp_mono.
  { apply (push_request_spec env locate now arc_route q noc arc_core answers Hcore Hq False fuel w quiet request);
      [done|done|right; split; [lia|done]]. }
  intros [_|e] w1.
  2:{ intros [_ (s' & Hs' & Hfull & _)]. apply quiet_steps in Hs'. subst s'. pose proof (qk_size _ Hq).
      unfold vec_size in Hfull. cbn in Hfull. lia. }
  intros (s1 & s2 & Hs1 & _ & Hs2 & Hw1). apply quiet_steps in Hs1. subst s1.
  apply wp_bind. eapply wp_mono.
  { apply (pop_response_spec env locate now q noc arc_core answers Hcore Hq False False fuel w1 s2 timeout_ms Hw1).
    right. destruct (holds_env env locate q noc arc_core answers w1 s2 Hw1) as (s3 & Hs3 & Hw3 & _).
    assert (∃ n, (n < N)%nat ∧ response_ready locate q noc arc_core (Nat.iter (S n) env (env w1))) as (n & Hn & Hready).
    { pose proof (lone_message_steps _ request _ _ (fw_steps_trans answers _ _ _ Hs2 Hs3) (or_introl eq_refl)) as Hlone.
      destruct Hlone as [-> |[-> |(r & Hr & ->)]]; [by eapply Hresp| by eapply Hresp|].
      exists 0%nat. split; [lia|]. cbn.
      destruct (holds_env env locate q noc arc_core answers _ _ Hw3) as (s4 & Hs4 & Hw4 & _).
      apply (response_ready_spec env locate q noc arc_core answers Hq _ _ Hw4).
      apply fw_steps_responses in Hs4 as [rs ->]. done. }
    exists n. split; [lia|]. split; [done|]. intros i Hi. apply Htime. lia. }
  intros [response|e] w2; [|by intros [[] _]]. intros (s3 & rest & Hs3 & Hr3 & Hw2).
  pose proof (lone_message_steps _ request _ _ (fw_steps_trans answers _ _ _ Hs2 Hs3) (or_introl eq_refl)) as Hlone.
  destruct Hlone as [-> |[-> |(r & Hr & ->)]]; try discriminate Hr3. injection Hr3 as <- <-.
  apply wp_bind, wp_lift. destruct (response_status message_type r) as [code|e] eqn:Hstatus.
  - apply wp_ret. split; [done|]. exists r. by rewrite Hstatus.
  - split; [done|]. exists r. by rewrite Hstatus.
Qed.
End Exchange.

(** ** An echoing firmware

    A small firmware: it takes one request at a time and replies to it. It
    implements the interface [ArcFirmware], so the theorems about the message
    queue apply to it; the witnesses use it. *)

Local Open Scope Z_scope.

(** The clock, and the request in progress. *)
Record EchoState := MkEcho { echo_clock : Z; echo_work : list (list Z) }.

(** The reply to a request: exit code 0x12, the arguments plus one. *)
Definition echo_reply (request : list Z) : list Z := 0x120000 :: map (λ j, nth j request 0 + 1) (seq 1 7).
Definition echo_answers (request response : list Z) : Prop := response = echo_reply request.

Section Echo.
Context (q : BlackholeArcMessageQueue) (core : xy_pair).
Implicit Types (w : World EchoState).

Definition set_word (k v : Z) w : World EchoState := upd_mem core (base_address q + 4 * k) v w.
Definition set_entry (k : Z) (vs : list Z) w : World EchoState :=
  foldl (λ w '(j, v), set_word (k + j) v w) w (zip (seqZ 0 8) vs).
Definition set_work (work : list (list Z)) w : World EchoState :=
  MkWorld (mem w) (bar w) (MkEcho (echo_clock (firmware w) + 1) work).

Definition echo_env w : World EchoState :=
  let W := queue_word q core w in
  match echo_work (firmware w) with
  | request :: work =>
      if bool_decide ((W 5 - W 1) `mod` (2 * size q) < size q) then
        set_work work (set_word 5 ((W 5 + 1) `mod` (2 * size q))
          (set_entry (header_len + 8 * size q + 8 * (W 5 `mod` size q)) (echo_reply request) w))
      else set_work (request :: work) w
  | [] =>
      if bool_decide (W 4 = W 0) then set_work [] w
      else
        set_work [entry W header_len (W 4 `mod` size q)] (set_word 4 ((W 4 + 1) `mod` (2 * size q)) w)
  end.

Lemma set_word_spec w k v k' : queue_word q core (set_word k v w) k' = if decide (k' = k) then v else queue_word q core w k'.
Proof.
  unfold queue_word, set_word. cbn. destruct (decide (k' = k)) as [->|Hne]; [by rewrite decide_True|].
  rewrite decide_False; [done|]. intros [_ ?]. lia.
Qed.
Lemma set_work_word w work k : queue_word q core (set_work work w) k = queue_word q core w k.
Proof. done. Qed.

Lemma set_entry_other w k vs k' :
  ¬ (k ≤ k' < k + 8) → queue_word q core (set_entry k vs w) k' = queue_word q core w k'.
Proof.
  intros Hk. unfold set_entry.
  assert (Forall (λ p : Z * Z, 0 ≤ p.1 < 8) (zip (seqZ 0 8) vs)) as Hall.
  { apply list.Forall_forall. intros [j v] Hin. apply list_elem_of_lookup in Hin as [i Hi].
    rewrite lookup_zip_with in Hi. cbn. destruct (seqZ 0 8 !! i) as [j'|] eqn:Hj; [|done].
    apply lookup_seqZ in Hj as [-> Hj]. cbn in Hi. destruct (vs !! i); [|done]. injection Hi as <- <-. lia. }
  revert w. induction Hall as [|[j v] l Hj _ IH]; intros w; [done|]. cbn [foldl]. rewrite IH, set_word_spec.
  rewrite decide_False; [done|]. cbn in Hj. lia.
Qed.

Lemma set_entry_spec w k r : entry (queue_word q core (set_entry k (echo_reply r) w)) k 0 = echo_reply r.
Proof.
  unfold set_entry, echo_reply. change (seqZ 0 8) with [0; 1; 2; 3; 4; 5; 6; 7]. cbn [map seq zip zip_with foldl].
  unfold entry. change (seqZ 0 8) with [0; 1; 2; 3; 4; 5; 6; 7]. cbn [map].
  repeat match goal with
    | |- _ :: _ = _ :: _ => f_equal
    end; try done; rewrite !set_word_spec; repeat (destruct (decide _); try lia).
Qed.

Lemma work_holds (w : World EchoState) work rq rs :
  represents q core w rq rs → represents q core (set_work work w) rq rs.
Proof. by intros [? ?]. Qed.

#[export] Instance echo_firmware (Hq : queue_ok q) : ArcFirmware echo_env q core echo_answers.
Proof.
  refine {| in_flight := echo_work |}. intros w rq rs Hrep. destruct Hrep as [Hreq Hresp].
  pose proof (qk_size _ Hq) as Hsize. unfold echo_env.
  assert (∀ work, host_words_kept q core w (set_work work w)) as Hkept0 by (by intros work k _).
  destruct (echo_work (firmware w)) as [|request work] eqn:Hwork.
  - case_bool_decide as Hempty.
    { exists rq, rs. split; [apply rtc_refl|]. split; [|done]. by apply work_holds. }
    destruct rq as [|e rq].
    { exfalso. apply Hempty. by apply (ring_empty _ _ _ (proj1 Hsize) _ _ _ Hreq). }
    exists rq, rs. pose proof (ring_head _ _ _ _ _ _ _ Hreq) as Hhead.
    unfold request_rptr_offset in Hhead. rewrite Hhead. split; [|split].
    + apply rtc_once. apply firmware_takes with (fl := []).
    + apply work_holds. apply (ring_dequeue _ _ _ (proj1 Hsize)) in Hreq.
      split; unfold request_rptr_offset, request_wptr_offset, response_rptr_offset, response_wptr_offset, header_len in *;
        rewrite !set_word_spec.
      * rewrite (decide_True (P := 4 = 4)), (decide_False (P := 0 = 4)) by done.
        eapply ring_ext; [exact Hreq|]. intros k j Hk Hj. rewrite set_word_spec, decide_False; [done|].
        pose proof (Z.mod_pos_bound ((queue_word q core w 4 + 1) `mod` (2 * size q) + k) (size q) ltac:(lia)). lia.
      * rewrite (decide_False (P := 1 = 4)), (decide_False (P := 5 = 4)) by done.
        eapply ring_ext; [exact Hresp|]. intros k j Hk Hj. rewrite set_word_spec, decide_False; [done|].
        pose proof (Z.mod_pos_bound (queue_word q core w 1 + k) (size q) ltac:(lia)). lia.
    + intros k Hk. rewrite set_work_word, set_word_spec, decide_False; [done|].
      destruct Hk as [-> |[-> |Hk]]; unfold header_len in *; done || lia.
  - case_bool_decide as Hroom.
    2:{ exists rq, rs. split; [apply rtc_refl|]. split; [|done]. by apply work_holds. }
    exists rq, (rs ++ [echo_reply request]).
    pose proof (ring_wptr_range _ _ _ _ _ _ Hresp) as Hrange.
    pose proof (rg_wptr _ _ _ _ _ _ Hresp) as Hwptr.
    unfold request_rptr_offset, request_wptr_offset, response_rptr_offset, response_wptr_offset, header_len in *.
    assert (vec_size rs < size q) as Hlt.
    { rewrite Hwptr in Hroom. rewrite Zminus_mod_idemp_l in Hroom.
      replace (queue_word q core w 1 + vec_size rs - queue_word q core w 1) with (vec_size rs) in Hroom by lia.
      pose proof (rg_size _ _ _ _ _ _ Hresp). unfold vec_size in *. rewrite Z.mod_small in Hroom by lia. lia. }
    set (slot := queue_word q core w 5 `mod` size q).
    pose proof (Z.mod_pos_bound (queue_word q core w 5) (size q) ltac:(lia)) as Hslot. fold slot in Hslot.
    set (w1 := set_entry (8 + 8 * size q + 8 * slot) (echo_reply request) w).
    assert (∀ k, ¬ (8 + 8 * size q + 8 * slot ≤ k < 8 + 8 * size q + 8 * slot + 8) →
      queue_word q core w1 k = queue_word q core w k) as Hw1 by (intros; by apply set_entry_other).
    split; [|split].
    + apply rtc_once. apply firmware_answers. done.
    + apply work_holds. split; unfold request_rptr_offset, request_wptr_offset, response_rptr_offset, response_wptr_offset, header_len;
        rewrite !set_word_spec.
      * rewrite (decide_False (P := 4 = 5)), (decide_False (P := 0 = 5)) by done. rewrite !Hw1 by lia.
        eapply ring_ext; [exact Hreq|]. intros k j Hk Hj.
        pose proof (Z.mod_pos_bound (queue_word q core w 4 + k) (size q) ltac:(lia)).
        rewrite set_word_spec, decide_False by lia. apply Hw1. lia.
      * rewrite (decide_False (P := 1 = 5)), (decide_True (P := 5 = 5)) by done. rewrite Hw1 by lia.
        eapply ring_enqueue; [lia|exact Hresp|done| |].
        -- intros slot' j Hs' Hne Hj. fold slot in Hne. rewrite set_word_spec, decide_False by lia. apply Hw1. lia.
        -- fold slot. rewrite <- (set_entry_spec w (8 + 8 * size q + 8 * slot) request). fold w1.
           unfold entry. apply list_fmap_ext. intros i j Hj. apply lookup_seqZ in Hj as [-> Hi].
           rewrite set_word_spec, decide_False by lia. f_equal. lia.
    + intros k Hk. rewrite set_work_word, set_word_spec, decide_False.
      2:{ destruct Hk as [-> |[-> |Hk]]; unfold header_len in *; done || lia. }
      apply Hw1. destruct Hk as [-> |[-> |Hk]]; unfold header_len, request_wptr_offset, response_rptr_offset in *; lia.
Defined.

(** ** The firmware answers within two moves *)

Lemma echo_clock_env w : echo_clock (firmware (echo_env w)) = echo_clock (firmware w) + 1.
Proof. unfold echo_env. destruct (echo_work _); case_bool_decide; done. Qed.
Lemma echo_clock_iter w n : echo_clock (firmware (Nat.iter n echo_env w)) = echo_clock (firmware w) + Z.of_nat n.
Proof. induction n as [|n IH]; [cbn; lia|]. rewrite Nat.iter_succ, echo_clock_env, IH. lia. Qed.

(** Work in progress is answered by the next move. *)
Lemma echo_answers_next w rq :
  0 < size q → represents q core w rq [] → echo_work (firmware w) ≠ [] →
  queue_word q core (echo_env w) 1 ≠ queue_word q core (echo_env w) 5.
Proof.
  intros Hsize [_ Hresp] Hwork. pose proof (ring_empty _ _ _ Hsize _ _ _ Hresp) as He.
  pose proof (rg_rptr _ _ _ _ _ _ Hresp) as Hr. unfold response_rptr_offset, response_wptr_offset in *.
  assert (queue_word q core w 1 = queue_word q core w 5) as E by by apply He.
  unfold echo_env. destruct (echo_work (firmware w)) as [|request work]; [done|].
  rewrite bool_decide_eq_true_2 by (rewrite E, Z.sub_diag, Z.mod_0_l by lia; lia).
  pose proof (Z.mod_pos_bound (queue_word q core w 5) (size q) ltac:(lia)).
  rewrite !set_work_word, !set_word_spec, (decide_False (P := 1 = 5)), (decide_True (P := 5 = 5)) by done.
  rewrite set_entry_other by (unfold header_len; lia). rewrite E.
  intros E'. apply (slots_differ (2 * size q) (queue_word q core w 5) (queue_word q core w 5 + 1)); [lia|lia|].
  rewrite <- E', Z.mod_small by lia. done.
Qed.
End Echo.

(** ** Witnesses *)

Definition echo_queue : BlackholeArcMessageQueue := MkQueue 0x1000 4 true.
Definition echo_locate (noc : NocId) (c : xy_pair) : xy_pair := c.
Definition echo_core : xy_pair := XY 8 0.
Definition echo_world : World EchoState := MkWorld (λ _ _, 0) (λ _, 0) (MkEcho 0 []).

Lemma echo_queue_ok : queue_ok echo_queue.
Proof. split; cbn; lia. Qed.
#[export] Instance echo_firmware_here : ArcFirmware (echo_env echo_queue echo_core) echo_queue echo_core echo_answers :=
  echo_firmware echo_queue echo_core echo_queue_ok.

Lemma echo_world_quiet :
  holds (echo_env echo_queue echo_core) echo_locate echo_queue NOC0 echo_core echo_answers echo_world quiet.
Proof.
  split; [|done]. split; (split; [vm_compute; split; congruence|vm_compute; congruence|vm_compute; reflexivity|intros k e Hk; discriminate Hk]).
Qed.

Lemma echo_responsive :
  responsive (echo_env echo_queue echo_core) echo_locate echo_queue NOC0 echo_core echo_answers 2.
Proof.
  intros w s Hw Hwork. pose proof echo_queue_ok as Hq. pose proof (proj1 (qk_size _ Hq)) as Hsize.
  destruct (holds_env (echo_env echo_queue echo_core) echo_locate echo_queue NOC0 echo_core echo_answers w s Hw)
    as (s1 & Hs1 & Hw1 & _).
  destruct (responses s1) as [|r rs] eqn:Hr1.
  2:{ exists 0%nat. split; [lia|]. apply (response_ready_spec (echo_env echo_queue echo_core) _ _ _ _ _ Hq _ s1 Hw1). by rewrite Hr1. }
  assert (responses s = []) as Hr.
  { apply fw_steps_responses in Hs1 as [rs Hrs]. rewrite Hr1 in Hrs. by destruct (responses s). }
  destruct Hw as [Hrep Hfl]. rewrite Hr in Hrep. destruct (in_progress s) as [|e fl] eqn:Hip.
  - exists 1%nat. split; [lia|]. apply (echo_answers_next echo_queue echo_core _ (requests s1) Hsize).
    { destruct Hw1 as [Hrep1 _]. by rewrite Hr1 in Hrep1. }
    rewrite app_nil_r in Hwork. cbn in Hfl. cbn [Nat.iter]. unfold echo_env. rewrite <- Hfl.
    rewrite bool_decide_eq_false_2; [done|]. intros E. apply Hwork.
    by apply (ring_empty _ _ _ Hsize _ _ _ (rep_requests _ _ _ _ _ Hrep)).
  - exists 0%nat. split; [lia|]. apply (echo_answers_next echo_queue echo_core _ (requests s) Hsize Hrep).
    cbn in Hfl. by rewrite <- Hfl.
Qed.

Definition echo_send (fuel : nat) (args : list Z) (timeout_ms : Z) :=
  send_message (echo_env echo_queue echo_core) echo_locate echo_clock JTAG_route echo_queue fuel 0x90 args timeout_ms NOC0 echo_world.

(** The exchange, computed. *)
Example echo_sends : fst <$> echo_send 2 [7; 8] 1000 = Some (Ok (0x12, [8; 9; 1; 1; 1; 1; 1])).
Proof. vm_compute. reflexivity. Qed.

Lemma send_message_live_witness :
  ∃ outcome w', echo_send 2 [7; 8] 1000 = Some (outcome, w') ∧
    holds (echo_env echo_queue echo_core) echo_locate echo_queue NOC0 echo_core echo_answers w' quiet ∧
    ∃ response, echo_answers (make_request 0x90 [7; 8]) response ∧
      outcome = (exit_code ← response_status 0x90 response; mret (exit_code, drop 1 response)).
Proof.
  apply (send_message_live (echo_env echo_queue echo_core) echo_locate echo_clock JTAG_route echo_queue NOC0 echo_core
    echo_answers eq_refl echo_queue_ok echo_world 2 2 0x90 [7; 8] 1000 echo_world_quiet).
  - vm_compute. congruence.
  - lia.
  - exact echo_responsive.
  - intros w n Hn. rewrite echo_clock_iter. unfold timed_out. change (negb (1000 =? 0)) with true. cbn [andb].
    apply Z.ltb_ge. replace (echo_clock (firmware w) + Z.of_nat n - echo_clock (firmware w)) with (Z.of_nat n) by lia.
    rewrite Z.quot_small by lia. lia.
Defined.

Lemma send_message_terminates_witness :
  ∃ outcome w', echo_send (Z.to_nat 3000000) [7; 8] 1 = Some (outcome, w').
Proof.
  apply (send_message_terminates (echo_env echo_queue echo_core) echo_locate echo_clock JTAG_route echo_queue NOC0).
  - intros w. rewrite echo_clock_env. lia.
  - unfold enough_polls, patience. rewrite Z2Nat.id by lia. lia.
Defined.

Lemma message_queue_refines_witness :
  let request := make_request 0x90 [7; 8] in
  wlp (push_request (echo_env echo_queue echo_core) echo_locate echo_clock JTAG_route echo_queue 2 request 1000 NOC0)
    (λ outcome w',
       match outcome with
       | Ok _ => ∃ s1 s2, rtc (firmware_step echo_answers) quiet s1 ∧ vec_size (requests s1) < size echo_queue ∧
           rtc (firmware_step echo_answers) (pushed request s1) s2 ∧
           holds (echo_env echo_queue echo_core) echo_locate echo_queue NOC0 echo_core echo_answers w' s2
       | Err e => e = RuntimeError timeout_message ∧
           ∃ s1, rtc (firmware_step echo_answers) quiet s1 ∧ vec_size (requests s1) = size echo_queue ∧
             holds (echo_env echo_queue echo_core) echo_locate echo_queue NOC0 echo_core echo_answers w' s1
       end) echo_world.
Proof.
  intros request. apply (message_queue_refines (echo_env echo_queue echo_core) echo_locate echo_clock JTAG_route
    echo_queue NOC0 echo_core echo_answers eq_refl echo_queue_ok echo_world quiet 2 request 1000 echo_world_quiet).
  reflexivity.
Defined.
