(* ===== verification/PcieProtocol.v ===== *)
(** * PcieProtocol

    [tt_device/protocol/pcie_protocol.cpp] and the two programs of the DMA
    engine ([tt_device/protocol/pcie_dma/*.cpp]): transfers through the cached
    TLB window, and transfers of any size by the engine, which moves at most
    what fits in its staging buffer and in what is left of its TLB window.

    The host sees the engine through its registers in BAR2, which are here a log
    of writes, and through the host's own memory. What the engine does between
    two accesses is a parameter ([env]); the rounds of polling are bounded by
    fuel. *)

From Stdlib Require Import ZArith Lia.
From stdpp Require Import base list list_numbers numbers strings gmap.
From S2P Require Import Prelude CoreTypes Tlb ArchTlbs TlbWindow DeviceAccess.

Local Open Scope Z_scope.

Inductive DmaDirection := H2D | D2H.
(** [std::variant<WormholeDmaTransfer, BlackholeDmaTransfer>]. *)
Inductive DmaTransferStrategy := WormholeDmaTransfer | BlackholeDmaTransfer.

Definition create_dma_strategy (arch : ARCH) : result DmaTransferStrategy :=
  match arch with
  | WORMHOLE_B0 => Ok WormholeDmaTransfer
  | BLACKHOLE => Ok BlackholeDmaTransfer
  | _ => throw "Unsupported architecture for DMA transfer strategy."
  end.
Definition get_dma_tlb_size (arch : ARCH) : result Z :=
  match arch with
  | BLACKHOLE => Ok (2 * 1024 * 1024)
  | WORMHOLE_B0 => Ok (16 * 1024 * 1024)
  | _ => throw "Unsupported architecture for DMA TLB size."
  end.

(** [DmaBuffer]; the booleans tell that the pointers are not null. *)
Record DmaBuffer := MkDmaBuffer {
  has_buffer : bool; has_completion : bool; buffer_size : Z; buffer_pa : Z; completion_pa : Z
}.

(** ** Register accesses through BAR0 *)

Definition BAR0_OFFSET : Z := 0x1FD00000.
(** The offset in the mapping of BAR0 that [bar_read32] and [bar_write32]
    access; [what] is their error. *)
Definition bar0_address (what : string) (addr : Z) : result Z :=
  if addr <? BAR0_OFFSET then throw what else Ok (addr - BAR0_OFFSET).
Definition bar_write32_address : Z → result Z := bar0_address "Write Invalid BAR address for this device.".
Definition bar_read32_address : Z → result Z := bar0_address "Read Invalid BAR address for this device.".

(** ** Transfers through the cached window *)

Definition throw_if_not_aligned (alignment value : Z) (what : string) : result unit :=
  if value `mod` alignment =? 0 then Ok tt
  else throw (what +:+ " must be " +:+ to_string alignment +:+ "-byte aligned.").
Definition validate_register_access (addr size : Z) : result unit :=
  throw_if_not_aligned 4 addr "Register address";;
  throw_if_not_aligned 4 size "Register access size".

Section WindowTransfers.
Context {D : Type} `{NocDevice D}.

Definition write_data (mem : list Z) (core : xy_pair) (addr noc_id : Z) (w : Window D) : result (Window D) :=
  write_block_reconfigure mem core addr noc_id Strict w.
Definition read_data (core : xy_pair) (addr : Z) (size : nat) (noc_id : Z) (w : Window D) : result (list Z * Window D) :=
  read_block_reconfigure core addr size noc_id Strict w.
Definition write_ctrl (mem : list Z) (core : xy_pair) (addr noc_id : Z) (w : Window D) : result (Window D) :=
  validate_register_access addr (vec_size mem);;
  write_register_reconfigure mem core addr noc_id Strict w.
Definition read_ctrl (core : xy_pair) (addr : Z) (size : nat) (noc_id : Z) (w : Window D) : result (list Z * Window D) :=
  validate_register_access addr (Z.of_nat size);;
  read_register_reconfigure core addr size noc_id Strict w.
Definition noc_multicast_write (src : list Z) (core_start core_end : xy_pair) (addr noc_id : Z) (w : Window D) : result (Window D) :=
  noc_multicast_write_reconfigure src core_start core_end addr noc_id Strict w.
(** Always done by the hardware. *)
Definition write_to_core_range (src : list Z) (core_start core_end : xy_pair) (addr noc_id : Z) (w : Window D) : result (bool * Window D) :=
  w ← noc_multicast_write src core_start core_end addr noc_id w;
  Ok (true, w).
End WindowTransfers.

(** ** Exporting a window as a dma-buf

    The window chosen and the configuration; the rest is the driver's. *)
Definition export_dmabuf_window (rdma_port : bool) (page_size : Z) (tlbs : ArchitectureTlbs) (core : xy_pair)
    (addr size ordering noc_id : Z) : result (Z * tlb_data * Z) :=
  umd_assert rdma_port "Exporting a TLB window as a dma-buf requires an active RDMA NIC";;
  umd_assert ((ordering =? Strict) || (ordering =? Posted) || (ordering =? Relaxed))
    "Invalid ordering specified in PcieProtocol::export_dmabuf";;
  umd_assert (negb (size =? 0)) "Cannot export a dma-buf of size 0.";;
  umd_assert (addr `mod` page_size =? 0) "Address must be aligned to the host page size to be exported.";;
  umd_assert (size `mod` page_size =? 0) "Size must be a multiple of the host page size to be exported.";;
  match list_find (λ c, size ≤ sc_size c - addr `mod` sc_size c) (size_classes tlbs) with
  | None => throw "No TLB window size can cover the range."
  | Some (_, c) =>
      let window_offset := addr `mod` sc_size c in
      Ok (sc_size c,
          MkTlbData (addr - window_offset) (xy_x core) (xy_y core) 0 0 noc_id 0 ordering 0 (if use_static_vc tlbs then 1 else 0),
          window_offset)
  end.

(** ** DMA *)

(** What the transfers act on: the cached DMA window with its device behind it,
    the writes to BAR2, latest first, the host's memory by physical address, the
    clock and the engine's own state. *)
Record Pcie (D E : Type) := MkPcie {
  dma_window : Window D; cached_dma_tlb_window : bool; bar2_log : list (Z * Z); host : Z → Z; clock : Z; engine : E
}.
Arguments MkPcie {D E}.
Arguments dma_window {D E}.
Arguments cached_dma_tlb_window {D E}.
Arguments bar2_log {D E}.
Arguments host {D E}.
Arguments clock {D E}.
Arguments engine {D E}.

(** Bytes of the host's memory. *)
Definition host_write (a : Z) (bytes : list Z) (m : Z → Z) : Z → Z := λ x,
  if decide (a ≤ x < a + vec_size bytes) then nth (Z.to_nat (x - a)) bytes 0 else m x.
Definition host_read (a : Z) (n : nat) (m : Z → Z) : list Z := map m (seqZ a (Z.of_nat n)).
Definition word_bytes (v : Z) : list Z := [v `mod` 256; v `div` 256 `mod` 256; v `div` 65536 `mod` 256; v `div` 16777216 `mod` 256].
Definition word_of (l : list Z) : Z := foldr (λ b v, b + 256 * v) 0 l.

(** *** The engines' registers *)
Definition DMA_COMPLETION_VALUE : Z := 0xfaca.
Definition DMA_TIMEOUT_MS : Z := 10000.
Definition low32 (v : Z) : Z := Z.land v 0xFFFFFFFF.
Definition high32 (v : Z) : Z := Z.land (Z.shiftr v 32) 0xFFFFFFFF.
Definition XFERSIZE_OFF_RDCH_0 : Z := 0x11C.

(** The programs: registers and values, in order, the doorbell last. *)
Definition wormhole_d2h_program (completion_pa dst src size : Z) : list (Z * Z) :=
  [(0xc, 0x1); (0x54, 0); (0x200, 0x10); (0x60, low32 completion_pa); (0x64, high32 completion_pa);
   (0x70, DMA_COMPLETION_VALUE); (0x68, 0); (0x6c, 0); (0x208, u32 size); (0x20c, src); (0x210, 0);
   (0x214, low32 dst); (0x218, high32 dst); (0x10, 0)].
Definition wormhole_h2d_program (completion_pa dst src size : Z) : list (Z * Z) :=
  [(0x2c, 0x1); (0xa8, 0); (0x300, 0x10); (0xcc, low32 completion_pa); (0xd0, high32 completion_pa);
   (0xdc, DMA_COMPLETION_VALUE); (0xd4, 0); (0xd8, 0); (0x308, u32 size); (0x30c, low32 src); (0x310, high32 src);
   (0x314, dst); (0x318, 0); (0x30, 0)].
Definition blackhole_h2d_program (completion_pa dst src size : Z) : list (Z * Z) :=
  let abort_pa := u64 (completion_pa + 4) in
  [(0x188, 0x28); (0x190, low32 completion_pa); (0x194, high32 completion_pa); (0x1A0, low32 abort_pa);
   (0x1A4, high32 abort_pa); (0x1A8, 0); (0x100, 0x1); (0x120, low32 src); (0x124, high32 src); (0x128, dst); (0x12C, 0);
   (XFERSIZE_OFF_RDCH_0, u32 size); (0x104, 0x1)].

Section Dma.
Context {D E : Type} `{NocDevice D}.
Context (env : World (Pcie D E) → World (Pcie D E)) (bar2_read : Z → Pcie D E → Z).
(** [PCIDevice::allocate_tlb], whose window the driver chooses; the mapping of
    BAR2. *)
Context (arch : ARCH) (dma_buffer : DmaBuffer) (bar2_mapped : bool) (allocate_tlb : Z → result TlbHandle).
(** Fuel of the loops. *)
Context (polls : nat).

Definition get : M (Pcie D E) (Pcie D E) := λ w, Some (Ok (firmware w), w).
Definition upd (f : Pcie D E → Pcie D E) (w : World (Pcie D E)) : World (Pcie D E) := MkWorld (mem w) (bar w) (f (firmware w)).
Definition modify (f : Pcie D E → Pcie D E) : M (Pcie D E) unit := λ w, Some (Ok tt, upd f w).
Definition set_window (win : Window D) (s : Pcie D E) : Pcie D E := MkPcie win true (bar2_log s) (host s) (clock s) (engine s).
Definition set_host (m : Z → Z) (s : Pcie D E) : Pcie D E :=
  MkPcie (dma_window s) (cached_dma_tlb_window s) (bar2_log s) m (clock s) (engine s).
Definition log_write (r : Z * Z) (s : Pcie D E) : Pcie D E :=
  MkPcie (dma_window s) (cached_dma_tlb_window s) (r :: bar2_log s) (host s) (clock s) (engine s).

(** Accesses that the engine can see: it moves before each. *)
Definition moves : M (Pcie D E) unit := λ w, Some (Ok tt, env w).
Fixpoint write_regs (program : list (Z * Z)) : M (Pcie D E) unit :=
  match program with
  | [] => mret tt
  | r :: program => moves;; modify (log_write r);; write_regs program
  end.
Definition read_reg (off : Z) : M (Pcie D E) Z := moves;; s ← get; mret (bar2_read off s).
Definition read_completion : M (Pcie D E) Z := moves;; s ← get; mret (word_of (host_read (completion_pa dma_buffer) 4 (host s))).
Definition write_completion (v : Z) : M (Pcie D E) unit :=
  moves;; modify (λ s, set_host (host_write (completion_pa dma_buffer) (word_bytes v) (host s)) s).
(** [std::memcpy] to and from the staging buffer. *)
Definition copy_to_buffer (bytes : list Z) : M (Pcie D E) unit :=
  modify (λ s, set_host (host_write (buffer_pa dma_buffer) bytes (host s)) s).
Definition copy_from_buffer (n : nat) : M (Pcie D E) (list Z) := s ← get; mret (host_read (buffer_pa dma_buffer) n (host s)).

Fixpoint poll_done (fuel : nat) (is_done : M (Pcie D E) bool) (start : Z) : M (Pcie D E) unit :=
  match fuel with
  | O => λ _, None
  | S fuel =>
      d ← is_done;
      if d : bool then mret tt
      else check_timeout clock start DMA_TIMEOUT_MS "DMA timeout.";; poll_done fuel is_done start
  end.
(** A program is started, and its end awaited. *)
Definition run_program (program : list (Z * Z)) (is_done : M (Pcie D E) bool) : M (Pcie D E) unit :=
  write_regs program;;
  start ← steady_clock_now clock;
  poll_done polls is_done start.

Definition completed : M (Pcie D E) bool := v ← read_completion; mret (v =? DMA_COMPLETION_VALUE).
Definition size_is_zero : M (Pcie D E) bool := v ← read_reg XFERSIZE_OFF_RDCH_0; mret (v =? 0).
Definition d2h_transfer (strategy : DmaTransferStrategy) (dst src size : Z) : M (Pcie D E) unit :=
  match strategy with
  | WormholeDmaTransfer =>
      write_completion 0;; run_program (wormhole_d2h_program (completion_pa dma_buffer) dst src size) completed
  | BlackholeDmaTransfer => raise "D2H DMA transfer is not supported on Blackhole."
  end.
Definition h2d_transfer (strategy : DmaTransferStrategy) (dst src size : Z) : M (Pcie D E) unit :=
  match strategy with
  | WormholeDmaTransfer =>
      write_completion 0;; run_program (wormhole_h2d_program (completion_pa dma_buffer) dst src size) completed
  | BlackholeDmaTransfer => run_program (blackhole_h2d_program (completion_pa dma_buffer) dst src size) size_is_zero
  end.

Definition check_dma (device_address size : Z) (misaligned : string) : result unit :=
  umd_assert (has_completion dma_buffer && has_buffer dma_buffer) "DMA buffer is not initialized.";;
  umd_assert (device_address `mod` 4 =? 0) misaligned;;
  umd_assert (size `mod` 4 =? 0) "DMA size must be a multiple of 4.";;
  umd_assert bar2_mapped "BAR2 is not mapped.".
Definition dma_d2h_transfer (dst src size : Z) : M (Pcie D E) unit :=
  strategy ← lift (create_dma_strategy arch);
  lift (check_dma src size "DMA source address must be aligned to 4 bytes.");;
  d2h_transfer strategy dst src size.
Definition dma_h2d_transfer (dst src size : Z) : M (Pcie D E) unit :=
  strategy ← lift (create_dma_strategy arch);
  lift (check_dma dst size "DMA destination address must be aligned to 4 bytes.");;
  h2d_transfer strategy dst src size.

Definition create_dma_tlb_config (addr : Z) (core_end : xy_pair) (noc_id : Z) (core_start : option xy_pair) : result tlb_data :=
  tlbs ← get_architecture_tlbs arch;
  let svc := if use_static_vc tlbs then 1 else 0 in
  Ok match core_start with
     | None => MkTlbData addr (xy_x core_end) (xy_y core_end) 0 0 noc_id 0 Relaxed 0 svc
     | Some s => MkTlbData addr (xy_x core_end) (xy_y core_end) (xy_x s) (xy_y s) noc_id 1 Relaxed 0 svc
     end.

(** [tlb_window->configure]. The poll that confirms the register of this window
    has no effect on a register that holds what was written. *)
Definition configure_window (config : tlb_data) : M (Pcie D E) unit :=
  s ← get; win ← lift (configure config (dma_window s)); modify (set_window win).
(** A window whose first configuration throws is not cached. *)
Definition get_cached_dma_tlb_window (config : tlb_data) : M (Pcie D E) unit :=
  s ← get;
  if cached_dma_tlb_window s then configure_window config
  else
    size ← lift (get_dma_tlb_size arch);
    handle ← lift (allocate_tlb size);
    win ← lift (configure config (MkWindow handle 0 (config_space (dma_window s)) (device (dma_window s))));
    modify (set_window win).

(** The address of [addr] in the device's AXI space, through the window. *)
Definition axi_address (addr : Z) : M (Pcie D E) Z :=
  s ← get;
  let handle := tlb_handle (dma_window s) in
  tlbs ← lift (get_architecture_tlbs arch);
  conf ← lift (get_configuration tlbs (tlb_id handle));
  mret (u64 (tc_tlb_offset conf + u64 (addr - align_down addr (tlb_size handle)))).

(** One chunk of [n] bytes; the bytes read. *)
Definition dma_chunk (direction : DmaDirection) (buf : list Z) (axi n : Z) : M (Pcie D E) (list Z) :=
  match direction with
  | H2D =>
      copy_to_buffer (take (Z.to_nat n) buf);;
      dma_h2d_transfer (u32 axi) (buffer_pa dma_buffer) n;;
      mret []
  | D2H =>
      dma_d2h_transfer (buffer_pa dma_buffer) (u32 axi) n;;
      copy_from_buffer (Z.to_nat n)
  end.
(** The loop runs at most once per byte. *)
Fixpoint dma_loop (fuel : nat) (direction : DmaDirection) (size : nat) (buf : list Z) (addr : Z) (config : tlb_data) : M (Pcie D E) (list Z) :=
  match size with
  | O => mret []
  | _ =>
      match fuel with
      | O => λ _, None
      | S fuel =>
          axi ← axi_address addr;
          s ← get;
          let transfer_size := Z.min (Z.of_nat size) (Z.min (get_size (dma_window s)) (buffer_size dma_buffer)) in
          bytes ← dma_chunk direction buf axi transfer_size;
          let addr := u64 (addr + transfer_size) in
          let config := set_local_offset config addr in
          configure_window config;;
          rest ← dma_loop fuel direction (size - Z.to_nat transfer_size) (drop (Z.to_nat transfer_size) buf) addr config;
          mret (bytes ++ rest)
      end
  end.
(** [None]: no DMA buffer, [false] in the source. *)
Definition dma_transfer (direction : DmaDirection) (size : nat) (buf : list Z) (addr : Z) (config : tlb_data) : M (Pcie D E) (option (list Z)) :=
  if negb (has_buffer dma_buffer) then mret None
  else
    get_cached_dma_tlb_window config;;
    axi_address addr;;
    bytes ← dma_loop size direction size buf addr config;
    mret (Some bytes).

Definition dma_write (src : list Z) (dst_addr : Z) (core : xy_pair) (noc_id : Z) : M (Pcie D E) bool :=
  config ← lift (create_dma_tlb_config dst_addr core noc_id None);
  r ← dma_transfer H2D (length src) src dst_addr config;
  mret (bool_decide (is_Some r)).
Definition dma_read (src_addr : Z) (size : nat) (core : xy_pair) (noc_id : Z) : M (Pcie D E) (option (list Z)) :=
  config ← lift (create_dma_tlb_config src_addr core noc_id None);
  dma_transfer D2H size [] src_addr config.
Definition dma_multicast_write (src : list Z) (dst_addr : Z) (core_start core_end : xy_pair) (noc_id : Z) : M (Pcie D E) bool :=
  config ← lift (create_dma_tlb_config dst_addr core_end noc_id (Some core_start));
  r ← dma_transfer H2D (length src) src dst_addr config;
  mret (bool_decide (is_Some r)).

(** *** Without the staging buffer

    The engine accesses the memory of the caller at [iova]. *)
Fixpoint zero_copy_loop (fuel : nat) (direction : DmaDirection) (size : nat) (iova addr : Z) (config : tlb_data) : M (Pcie D E) unit :=
  match size with
  | O => mret tt
  | _ =>
      match fuel with
      | O => λ _, None
      | S fuel =>
          axi ← axi_address addr;
          s ← get;
          let transfer_size := Z.min (Z.of_nat size) (get_size (dma_window s)) in
          match direction with
          | H2D => dma_h2d_transfer (u32 axi) iova transfer_size
          | D2H => dma_d2h_transfer iova (u32 axi) transfer_size
          end;;
          let addr := u64 (addr + transfer_size) in
          let config := set_local_offset config addr in
          configure_window config;;
          zero_copy_loop fuel direction (size - Z.to_nat transfer_size) (u64 (iova + transfer_size)) addr config
      end
  end.
Definition dma_transfer_zero_copy (direction : DmaDirection) (size : nat) (iova addr : Z) (config : tlb_data) : M (Pcie D E) bool :=
  if negb (has_buffer dma_buffer) then mret false
  else
    get_cached_dma_tlb_window config;;
    axi_address addr;;
    zero_copy_loop size direction size iova addr config;;
    mret true.
Definition dma_read_zero_copy (dst_iova src_addr : Z) (size : nat) (core : xy_pair) (noc_id : Z) : M (Pcie D E) bool :=
  config ← lift (create_dma_tlb_config src_addr core noc_id None);
  dma_transfer_zero_copy D2H size dst_iova src_addr config.
Definition dma_write_zero_copy (src_iova dst_addr : Z) (size : nat) (core : xy_pair) (noc_id : Z) : M (Pcie D E) bool :=
  config ← lift (create_dma_tlb_config dst_addr core noc_id None);
  dma_transfer_zero_copy H2D size src_iova dst_addr config.
Definition dma_multicast_write_zero_copy (src_iova dst_addr : Z) (size : nat) (core_start core_end : xy_pair) (noc_id : Z) : M (Pcie D E) bool :=
  config ← lift (create_dma_tlb_config dst_addr core_end noc_id (Some core_start));
  dma_transfer_zero_copy H2D size src_iova dst_addr config.
End Dma.
