(* ===== verification/PcieDma.v ===== *)
(** * PcieDma

    DMA transfers, chunk by chunk through the staging buffer and the DMA window,
    are reads and writes of exactly the bytes asked for, or throw a timeout. The
    engine is an interface, [DmaEngine]: it runs the job that its registers hold
    when the doorbell is rung, at its own pace, and then signals. *)

From Stdlib Require Import ZArith Lia FunctionalExtensionality.
From stdpp Require Import base list list_numbers numbers strings gmap.
From S2P Require Import Prelude CoreTypes Tlb ArchTlbs TlbWindow DeviceAccess ArcQueueProperties PcieProtocol.

Local Open Scope Z_scope.

(** ** The host's memory *)

Lemma host_read_length a n m : length (host_read a n m) = n.
Proof. unfold host_read. rewrite length_map, length_seqZ. lia. Qed.
Lemma host_read_ext a n m m' : (∀ x, a ≤ x < a + Z.of_nat n → m x = m' x) → host_read a n m = host_read a n m'.
Proof.
  intros Hm. apply map_ext_in. intros x Hx. apply Hm. by apply list_elem_of_In, elem_of_seqZ in Hx.
Qed.
Lemma host_write_in a l m x : a ≤ x < a + vec_size l → host_write a l m x = nth (Z.to_nat (x - a)) l 0.
Proof. intros. unfold host_write. by rewrite decide_True. Qed.
Lemma host_write_out a l m x : ¬ (a ≤ x < a + vec_size l) → host_write a l m x = m x.
Proof. intros. unfold host_write. by rewrite decide_False. Qed.
Lemma host_read_write a l m : host_read a (length l) (host_write a l m) = l.
Proof.
  apply list_eq. intros k. unfold host_read. change (map ?f ?l) with (f <$> l). rewrite list_lookup_fmap.
  destruct (decide (k < length l)%nat) as [Hk|Hk].
  - rewrite lookup_seqZ_lt by lia. cbn. rewrite host_write_in by (unfold vec_size; lia).
    replace (Z.to_nat (a + Z.of_nat k - a)) with k by lia.
    symmetry. destruct (nth_lookup_or_length l k 0); [done|lia].
  - rewrite lookup_seqZ_ge by lia. by rewrite lookup_ge_None_2 by lia.
Qed.
Lemma low_high v : 0 ≤ v < 2 ^ 64 → low32 v + 2 ^ 32 * high32 v = v.
Proof.
  intros Hv. unfold low32, high32. change 0xFFFFFFFF with (Z.ones 32). rewrite !Z.land_ones, Z.shiftr_div_pow2 by lia.
  rewrite (Z.mod_small (v `div` 2 ^ 32)); [pose proof (Z.div_mod v (2 ^ 32)); lia|].
  split; [apply Z.div_pos; lia|apply Z.div_lt_upper_bound; lia].
Qed.

(** ** The engine *)

(** What a register holds, by the latest write. *)
Fixpoint reg (log : list (Z * Z)) (off : Z) : Z :=
  match log with [] => 0 | (o, v) :: log => if o =? off then v else reg log off end.

Record Job := MkJob {
  job_direction : DmaDirection; job_host : Z; job_axi : Z; job_size : Z; job_completion : Z; job_value : Z
}.
Definition pair64 (log : list (Z * Z)) (lo hi : Z) : Z := reg log lo + 2 ^ 32 * reg log hi.
Definition is_doorbell (strategy : DmaTransferStrategy) (off : Z) : bool :=
  match strategy with WormholeDmaTransfer => (off =? 0x10) || (off =? 0x30) | BlackholeDmaTransfer => off =? 0x104 end.
(** The job of a write to the doorbell, the latest write of the log: the
    registers of the engine's channel. *)
Definition programmed (strategy : DmaTransferStrategy) (log : list (Z * Z)) : option Job :=
  match log with
  | [] => None
  | (off, _) :: _ =>
      match strategy with
      | WormholeDmaTransfer =>
          if (off =? 0x10) && (reg log 0xc =? 1) then
            Some (MkJob D2H (pair64 log 0x214 0x218) (pair64 log 0x20c 0x210) (reg log 0x208) (pair64 log 0x60 0x64) (reg log 0x70))
          else if (off =? 0x30) && (reg log 0x2c =? 1) then
            Some (MkJob H2D (pair64 log 0x30c 0x310) (pair64 log 0x314 0x318) (reg log 0x308) (pair64 log 0xcc 0xd0) (reg log 0xdc))
          else None
      | BlackholeDmaTransfer =>
          if (off =? 0x104) && (reg log 0x100 =? 1) then
            Some (MkJob H2D (pair64 log 0x120 0x124) (pair64 log 0x128 0x12C) (reg log XFERSIZE_OFF_RDCH_0)
                    (pair64 log 0x190 0x194) (reg log 0x1A8))
          else None
      end
  end.

(** Where an address of the device's AXI space leads through a window: target,
    address and the bytes left in the window. *)
Definition axi_window {D} (win : Window D) (axi : Z) : option (tlb_data * Z * Z) :=
  match tlbs ← get_architecture_tlbs (tlb_arch (tlb_handle win)); get_configuration tlbs (tlb_id (tlb_handle win)), hw_window win with
  | Ok conf, Ok (tgt, base) =>
      let off := axi - tc_tlb_offset conf in
      if (0 <=? off) && (off <? tc_size conf) then Some (tgt, base + off, tc_size conf - off) else None
  | _, _ => None
  end.

Section Engine.
Context {D E : Type} `{NocDevice D}.
Context (env : World (Pcie D E) → World (Pcie D E)) (bar2_read : Z → Pcie D E → Z) (strategy : DmaTransferStrategy).
(** The engine has no job, by the log of writes and its state. *)
Context (idle : list (Z * Z) → E → Prop).
Implicit Types (s : Pcie D E) (w : World (Pcie D E)).

(** Nothing but the clock and the engine's state differs. *)
Definition same_visible s s' : Prop :=
  dma_window s' = dma_window s ∧ cached_dma_tlb_window s' = cached_dma_tlb_window s ∧ bar2_log s' = bar2_log s ∧ host s' = host s.
Definition in_completion (pa x : Z) : Prop := pa ≤ x < pa + 8.
(** The engine signals the end of a job. *)
Definition signalled (job : Job) s : bool :=
  match strategy with
  | WormholeDmaTransfer => word_of (host_read (job_completion job) 4 (host s)) =? job_value job
  | BlackholeDmaTransfer => bar2_read XFERSIZE_OFF_RDCH_0 s =? 0
  end.
(** A job done: the bytes moved, and nothing else changed but the words of the
    completion. *)
Definition job_done (job : Job) s s' : Prop :=
  idle (bar2_log s') (engine s') ∧ bar2_log s' = bar2_log s ∧ cached_dma_tlb_window s' = cached_dma_tlb_window s ∧
  ∀ tgt a room, axi_window (dma_window s) (job_axi job) = Some (tgt, a, room) → job_size job ≤ room →
    match job_direction job with
    | H2D =>
        dma_window s' = set_device (dma_window s)
          (dev_write tgt a (host_read (job_host job) (Z.to_nat (job_size job)) (host s)) (device (dma_window s))) ∧
        ∀ x, ¬ in_completion (job_completion job) x → host s' x = host s x
    | D2H =>
        dma_window s' = dma_window s ∧
        ∀ x, ¬ in_completion (job_completion job) x →
          host s' x = host_write (job_host job) (dev_read tgt a (Z.to_nat (job_size job)) (device (dma_window s))) (host s) x
    end.

Class DmaEngine : Prop := {
  engine_ticks w : clock (firmware w) < clock (firmware (env w));
  idle_moves w : idle (bar2_log (firmware w)) (engine (firmware w)) →
    same_visible (firmware w) (firmware (env w)) ∧ idle (bar2_log (firmware (env w))) (engine (firmware (env w)));
  idle_write log e off v : idle log e → is_doorbell strategy off = false → idle ((off, v) :: log) e;
  engine_runs w r log job k :
    bar2_log (firmware w) = r :: log → idle log (engine (firmware w)) → programmed strategy (r :: log) = Some job →
    (strategy = WormholeDmaTransfer → signalled job (firmware w) = false) →
    signalled job (firmware (Nat.iter (S k) env w)) = true → job_done job (firmware w) (firmware (Nat.iter (S k) env w))
}.

Context {engine_laws : DmaEngine}.
Context (dma_buffer : DmaBuffer) (polls : nat) (enough : enough_polls DMA_TIMEOUT_MS polls).
Abbreviation idle_at w := (idle (bar2_log (firmware w)) (engine (firmware w))).

(** Only the log differs, and the engine is idle. *)
Definition quiet s s' (log : list (Z * Z)) : Prop :=
  dma_window s' = dma_window s ∧ cached_dma_tlb_window s' = cached_dma_tlb_window s ∧ host s' = host s ∧ bar2_log s' = log.

Lemma wp_moves (Q : result unit → World (Pcie D E) → Prop) w :
  idle_at w → (∀ w', quiet (firmware w) (firmware w') (bar2_log (firmware w)) → idle_at w' → Q (Ok tt) w') → wp (moves env) Q w.
Proof using engine_laws. intros Hw HQ. destruct (idle_moves w Hw) as [(? & ? & ? & ?) ?]. by apply HQ. Qed.

Lemma program_written program w :
  idle_at w → Forall (λ r, is_doorbell strategy r.1 = false) program →
  wp (write_regs env program) (λ r w', r = Ok tt ∧ idle_at w' ∧ quiet (firmware w) (firmware w') (rev program ++ bar2_log (firmware w))) w.
Proof using engine_laws.
  revert w. induction program as [|[off v] program IH]; intros w Hw Hdb; [by apply wp_ret|].
  apply Forall_cons in Hdb as [Hoff Hdb]. cbn [write_regs]. apply wp_bind, wp_moves; [done|].
  intros w1 (H1 & H2 & H3 & H4) Hw1. apply wp_bind. unfold wpf, modify, upd. set (w2 := MkWorld _ _ _).
  assert (idle_at w2) as Hw2 by (cbn; by apply idle_write).
  eapply wp_mono; [by apply IH|]. intros r w' (-> & Hw' & Q1 & Q2 & Q3 & Q4). split; [done|]. split; [done|].
  cbn in Q1, Q2, Q3, Q4. split_and!; try congruence. rewrite Q4, H4. cbn [rev]. by rewrite <- app_assoc.
Qed.

(** The test of a poll reports the engine's signal. *)
Definition reports (is_done : M (Pcie D E) bool) (job : Job) : Prop :=
  ∀ w, is_done w = Some (Ok (signalled job (firmware (env w))), env w).

Lemma poll_done_spec is_done job w0 start :
  reports is_done job → ∀ fuel k, clock (firmware (Nat.iter k env w0)) - start < patience DMA_TIMEOUT_MS →
  patience DMA_TIMEOUT_MS - (clock (firmware (Nat.iter k env w0)) - start) < Z.of_nat fuel →
  wp (poll_done fuel is_done start)
    (λ r w', r = throw "DMA timeout." ∨ r = Ok tt ∧ ∃ n, w' = Nat.iter (S n) env w0 ∧ signalled job (firmware w') = true)
    (Nat.iter k env w0).
Proof using engine_laws.
  intros Hrep. induction fuel as [|fuel IH]; intros k Hk Hfuel; [lia|]. cbn [poll_done]. apply wp_bind.
  unfold wpf at 1. rewrite Hrep. change (env (Nat.iter k env w0)) with (Nat.iter (S k) env w0).
  destruct (signalled _ _) eqn:Es; [apply wp_ret; right; eauto|].
  apply wp_bind, wp_check_timeout. destruct (timed_out _ _ _) eqn:Et; [by left|].
  pose proof (engine_ticks (Nat.iter k env w0)) as Ht. change (env (Nat.iter k env w0)) with (Nat.iter (S k) env w0) in Ht.
  apply not_timed_out in Et; [|done]. apply IH; [done|lia].
Qed.

Lemma write_regs_app l1 l2 w : write_regs env (l1 ++ l2) w = (write_regs env l1;; write_regs env l2) w.
Proof using. revert w. induction l1 as [|r l1 IH]; intros w; [done|]. apply IH. Qed.

(** A program that ends with the doorbell runs its job. *)
Lemma run_program_spec program v off is_done job w :
  idle_at w → Forall (λ r, is_doorbell strategy r.1 = false) program →
  programmed strategy ((off, v) :: rev program ++ bar2_log (firmware w)) = Some job → reports is_done job →
  (strategy = WormholeDmaTransfer → ∀ s, host s = host (firmware w) → signalled job s = false) →
  wp (run_program env polls (program ++ [(off, v)]) is_done)
    (λ r w', r = throw "DMA timeout." ∨ r = Ok tt ∧
       ∃ s, quiet (firmware w) s (bar2_log s) ∧ job_done job s (firmware w')) w.
Proof using engine_laws enough.
  intros Hw Hdb Hjob Hrep Hnot. destruct enough as [Ht Hfuel]. unfold run_program. apply wp_bind.
  unfold wpf at 1. rewrite write_regs_app. apply wp_bind.
  eapply wp_mono; [by apply program_written|]. intros r w1 (-> & Hw1 & Q1 & Q2 & Q3 & Q4).
  cbn [write_regs]. apply wp_bind, wp_moves; [done|]. intros w2 (R1 & R2 & R3 & R4) Hw2.
  apply wp_bind. unfold wpf at 1, modify, upd. set (w3 := MkWorld _ _ _).
  apply wp_ret, wp_bind, wp_now. change w3 with (Nat.iter 0 env w3) at 2.
  eapply wp_mono; [apply poll_done_spec; [exact Hrep|cbn; unfold patience, DMA_TIMEOUT_MS in *; lia..]|].
  intros r w' [->|(-> & n & -> & Hs)]; [by left|right]. split; [done|]. exists (firmware w3). split.
  - unfold quiet; cbn. split_and!; congruence.
  - eapply engine_runs with (r := (off, v)); [cbn; by rewrite R4, Q4| |done| |done].
    + rewrite R4, Q4 in Hw2. done.
    + intros Hst. apply Hnot; [done|]. cbn. congruence.
Qed.

(** *** One transfer of the engine *)
Context (pa_range : 0 ≤ completion_pa dma_buffer < 2 ^ 64).

(** A transfer of the engine from or to memory outside the completion words. *)
Definition engine_moved (direction : DmaDirection) (host_addr axi : Z) (n : nat) s s' : Prop :=
  idle (bar2_log s') (engine s') ∧ cached_dma_tlb_window s' = cached_dma_tlb_window s ∧
  ∀ tgt a room, axi_window (dma_window s) axi = Some (tgt, a, room) → Z.of_nat n ≤ room →
    (∀ x, host_addr ≤ x < host_addr + Z.of_nat n → ¬ in_completion (completion_pa dma_buffer) x) →
    match direction with
    | H2D =>
        dma_window s' = set_device (dma_window s) (dev_write tgt a (host_read host_addr n (host s)) (device (dma_window s))) ∧
        ∀ x, ¬ in_completion (completion_pa dma_buffer) x → host s' x = host s x
    | D2H =>
        dma_window s' = dma_window s ∧
        ∀ x, ¬ in_completion (completion_pa dma_buffer) x →
          host s' x = host_write host_addr (dev_read tgt a n (device (dma_window s))) (host s) x
    end.

Lemma wp_write_completion v (Q : result unit → World (Pcie D E) → Prop) w :
  idle_at w →
  (∀ w', idle_at w' → dma_window (firmware w') = dma_window (firmware w) →
    cached_dma_tlb_window (firmware w') = cached_dma_tlb_window (firmware w) →
    host (firmware w') = host_write (completion_pa dma_buffer) (word_bytes v) (host (firmware w)) → Q (Ok tt) w') →
  wp (write_completion env dma_buffer v) Q w.
Proof using engine_laws.
  intros Hw HQ. apply wp_bind, wp_moves; [done|]. intros w1 (Q1 & Q2 & Q3 & Q4) Hw1.
  unfold wpf, modify, upd. apply HQ; cbn; [done..|by rewrite Q3].
Qed.

(** From a job done to the transfer, when the job is that of the transfer and
    started from a state that agrees outside the completion. *)
Lemma job_moved direction host_addr axi n value s0 s s' :
  job_done (MkJob direction host_addr axi (Z.of_nat n) (completion_pa dma_buffer) value) s s' →
  dma_window s = dma_window s0 → cached_dma_tlb_window s = cached_dma_tlb_window s0 →
  (∀ x, ¬ in_completion (completion_pa dma_buffer) x → host s x = host s0 x) →
  engine_moved direction host_addr axi n s0 s'.
Proof using.
  intros (Hi & _ & Hc & Hj) Hwin Hcached Hh. split; [done|]. split; [congruence|]. intros tgt a room Hax Hn Hout.
  specialize (Hj tgt a room). cbn [job_direction job_host job_axi job_size job_completion] in Hj. rewrite Hwin, Nat2Z.id in Hj.
  specialize (Hj Hax Hn). destruct direction; destruct Hj as [Hw' Hhost].
  - split; [|intros x Hx; rewrite Hhost by done; by apply Hh]. rewrite Hw'. do 2 f_equal. apply host_read_ext. intros x Hx. apply Hh, Hout, Hx.
  - split; [done|]. intros x Hx. rewrite Hhost by done. unfold host_write. case_decide; [done|by apply Hh].
Qed.

(** The two tests of the end. *)
Lemma completed_reports direction host_addr axi n :
  strategy = WormholeDmaTransfer →
  reports (completed env dma_buffer) (MkJob direction host_addr axi n (completion_pa dma_buffer) DMA_COMPLETION_VALUE).
Proof using. intros Hs w. unfold signalled. by rewrite Hs. Qed.
Lemma size_is_zero_reports job : strategy = BlackholeDmaTransfer → reports (size_is_zero env bar2_read) job.
Proof using. intros Hs w. unfold signalled. by rewrite Hs. Qed.
Lemma cleared_not_signalled direction host_addr axi n s m :
  host s = host_write (completion_pa dma_buffer) (word_bytes 0) m → strategy = WormholeDmaTransfer →
  signalled (MkJob direction host_addr axi n (completion_pa dma_buffer) DMA_COMPLETION_VALUE) s = false.
Proof using.
  intros Hh Hs. unfold signalled. rewrite Hs. cbn [job_completion job_value]. rewrite Hh.
  by rewrite (host_read_write _ (word_bytes 0)).
Qed.
Lemma clear_outside s s0 :
  host s = host_write (completion_pa dma_buffer) (word_bytes 0) (host s0) →
  ∀ x, ¬ in_completion (completion_pa dma_buffer) x → host s x = host s0 x.
Proof using. intros -> x Hx. apply host_write_out. unfold in_completion, vec_size in *. cbn [length word_bytes]. lia. Qed.

Lemma h2d_transfer_spec dst src n w :
  idle_at w → 0 ≤ dst < 2 ^ 32 → 0 ≤ src < 2 ^ 64 → Z.of_nat n < 2 ^ 32 →
  wp (h2d_transfer env bar2_read dma_buffer polls strategy dst src (Z.of_nat n))
    (λ r w', r = throw "DMA timeout." ∨ r = Ok tt ∧ engine_moved H2D src dst n (firmware w) (firmware w')) w.
Proof using engine_laws enough pa_range.
  intros Hw Hdst Hsrc Hn. unfold h2d_transfer. destruct strategy eqn:Hs.
  - apply wp_bind, wp_write_completion; [done|]. intros w1 Hw1 Q1 Q2 Q3. eapply wp_mono.
    + eapply (run_program_spec (removelast (wormhole_h2d_program (completion_pa dma_buffer) dst src (Z.of_nat n))) 0 0x30) with
        (job := MkJob H2D src dst (Z.of_nat n) (completion_pa dma_buffer) DMA_COMPLETION_VALUE); [done| | |by apply completed_reports|].
      * rewrite Hs. by repeat constructor.
      * rewrite Hs. cbn -[low32 high32 u32 Z.add Z.mul]. unfold pair64. cbn -[low32 high32 u32 Z.add Z.mul].
        rewrite !low_high, u32_small by lia. do 2 f_equal. lia.
      * intros _ s Hh. eapply cleared_not_signalled; [|done]. rewrite Hh. exact Q3.
    + intros r w' [->|(-> & s & (P1 & P2 & P3 & _) & Hj)]; [by left|right]. split; [done|].
      eapply job_moved; [exact Hj|congruence|congruence|]. apply clear_outside. congruence.
  - eapply wp_mono.
    + eapply (run_program_spec (removelast (blackhole_h2d_program (completion_pa dma_buffer) dst src (Z.of_nat n))) 1 0x104) with
        (job := MkJob H2D src dst (Z.of_nat n) (completion_pa dma_buffer) 0); [done| | |by apply size_is_zero_reports|congruence].
      * rewrite Hs. by repeat constructor.
      * rewrite Hs. cbn -[low32 high32 u32 u64 Z.add Z.mul]. unfold pair64. cbn -[low32 high32 u32 u64 Z.add Z.mul].
        rewrite !low_high, u32_small by lia. do 2 f_equal. lia.
    + intros r w' [->|(-> & s & (P1 & P2 & P3 & _) & Hj)]; [by left|right]. split; [done|].
      eapply job_moved; [exact Hj|congruence|congruence|]. intros x _. by rewrite P3.
Qed.

Lemma d2h_transfer_spec dst src n w :
  strategy = WormholeDmaTransfer → idle_at w → 0 ≤ src < 2 ^ 32 → 0 ≤ dst < 2 ^ 64 → Z.of_nat n < 2 ^ 32 →
  wp (d2h_transfer env dma_buffer polls strategy dst src (Z.of_nat n))
    (λ r w', r = throw "DMA timeout." ∨ r = Ok tt ∧ engine_moved D2H dst src n (firmware w) (firmware w')) w.
Proof using engine_laws enough pa_range.
  intros Hs Hw Hsrc Hdst Hn. unfold d2h_transfer. rewrite Hs.
  apply wp_bind, wp_write_completion; [done|]. intros w1 Hw1 Q1 Q2 Q3. eapply wp_mono.
  - eapply (run_program_spec (removelast (wormhole_d2h_program (completion_pa dma_buffer) dst src (Z.of_nat n))) 0 0x10) with
      (job := MkJob D2H dst src (Z.of_nat n) (completion_pa dma_buffer) DMA_COMPLETION_VALUE); [done| | |by apply completed_reports|].
    + rewrite Hs. by repeat constructor.
    + rewrite Hs. cbn -[low32 high32 u32 Z.add Z.mul]. unfold pair64. cbn -[low32 high32 u32 Z.add Z.mul].
      rewrite !low_high, u32_small by lia. do 2 f_equal. lia.
    + intros _ s Hh. eapply cleared_not_signalled; [|done]. rewrite Hh. exact Q3.
  - intros r w' [->|(-> & s & (P1 & P2 & P3 & _) & Hj)]; [by left|right]. split; [done|].
    eapply job_moved; [exact Hj|congruence|congruence|]. apply clear_outside. congruence.
Qed.
End Engine.

(** ** Transfers of any size *)

Section Transfers.
Context {D E : Type} `{NocDeviceLaws D}.
Context (env : World (Pcie D E) → World (Pcie D E)) (bar2_read : Z → Pcie D E → Z) (strategy : DmaTransferStrategy).
Context (idle : list (Z * Z) → E → Prop) {engine_laws : DmaEngine env bar2_read strategy idle}.
(** The DMA window: of index [i], in the class [c] of its size. *)
Context (arch : ARCH) (Harch : writes_whole_register arch) (Hstrategy : create_dma_strategy arch = Ok strategy).
Context (t : ArchitectureTlbs) (Ht : get_architecture_tlbs arch = Ok t).
Context (i : Z) (Hi : 0 ≤ i) (c : TlbSizeClass) (Hc : find_class i (size_classes t) = Some c).
Context (Hsize : get_dma_tlb_size arch = Ok (sc_size c)).
Context (allocate_tlb : Z → result TlbHandle) (old : tlb_data)
  (allocated : allocate_tlb (sc_size c) = Ok (MkTlbHandle i (sc_size c) arch old)).
Context (dma_buffer : DmaBuffer) (polls : nat) (enough : enough_polls DMA_TIMEOUT_MS polls).
Implicit Types (s : Pcie D E) (w : World (Pcie D E)).

(** A staging buffer apart from the words of the completion. *)
Record buffer_ok : Prop := {
  buffer_there : has_buffer dma_buffer = true;
  completion_there : has_completion dma_buffer = true;
  buffer_positive : 0 < buffer_size dma_buffer;
  buffer_words : (4 | buffer_size dma_buffer);
  buffer_range : 0 ≤ buffer_pa dma_buffer ∧ buffer_pa dma_buffer + buffer_size dma_buffer ≤ 2 ^ 64;
  completion_range : 0 ≤ completion_pa dma_buffer < 2 ^ 64;
  buffer_apart : buffer_pa dma_buffer + buffer_size dma_buffer ≤ completion_pa dma_buffer ∨
                 completion_pa dma_buffer + 8 ≤ buffer_pa dma_buffer
}.
Context (Hbuf : buffer_ok).

Definition dma_memory (x : Z) : Prop :=
  buffer_pa dma_buffer ≤ x < buffer_pa dma_buffer + buffer_size dma_buffer ∨ in_completion (completion_pa dma_buffer) x.

(** The window is aimed at an address of a target. *)
Definition aimed (cfg : tlb_data) (addr : Z) (win : Window D) : Prop :=
  window_of arch i c win ∧ get_size win = sc_size c - addr `mod` sc_size c ∧
  hw_window win = Ok (set_local_offset cfg 0, addr - addr `mod` sc_size c).

Lemma dma_class_offset conf :
  get_configuration t i = Ok conf →
  tc_size conf = sc_size c ∧ 0 ≤ tc_tlb_offset conf ∧ tc_tlb_offset conf + sc_size c ≤ 2 ^ 32 ∧ (4 | tc_tlb_offset conf) ∧ (4 | sc_size c).
Proof using Ht Hi Hc Hsize Harch.
  clear - Ht Hi Hc Hsize Harch. unfold get_configuration. rewrite Hc. intros [= <-]. cbn [tc_size tc_tlb_offset]. split; [done|].
  destruct (find_class_Some _ _ _ Hc) as [Hin Hcl].
  destruct Harch as [-> | ->]; injection Ht as <-; injection Hsize as Hs; apply list_elem_of_In in Hin; cbn in Hin;
    destruct_or! Hin; try done; subst c; vm_compute in Hs; try discriminate Hs;
    unfold in_class, u32 in Hcl; cbn [sc_base_index sc_count sc_size sc_bar_offset] in *;
    apply andb_true_iff in Hcl as [Hlo%Z.leb_le Hhi%Z.ltb_lt];
    change (wormhole_windows.TLB_BASE_INDEX_16M) with 166 in *; change (wormhole_windows.TLB_COUNT_16M) with 20 in *;
    change (wormhole_windows.DYNAMIC_TLB_16M_BASE) with 184549376 in *; change (blackhole_windows.TLB_BASE_INDEX_2M) with 0 in *;
    change (blackhole_windows.TLB_COUNT_2M) with 202 in *; change (blackhole_windows.DYNAMIC_TLB_2M_BASE) with 0 in *;
    change ONE_MB with 1048576 in *; cbn -[Z.sub Z.add Z.mul u64 Z.pow] in *; rewrite Z.mod_small in Hhi by lia; unfold u64.
  - rewrite !(Z.mod_small ((i - 166) * (16 * 1048576))), !Z.mod_small by lia. split_and!; [lia..| |by exists (4 * 1048576)].
    exists (46137344 + (i - 166) * (4 * 1048576)). lia.
  - rewrite Z.add_0_l, Z.mod_mod, Z.mod_small by lia. split_and!; [lia..| |by exists 524288].
    exists (i * 524288). lia.
Qed.

Lemma axi_address_spec cfg addr w :
  aimed cfg addr (dma_window (firmware w)) → 0 ≤ addr < 2 ^ 64 →
  ∃ axi, axi_address arch addr w = Some (Ok axi, w) ∧ 0 ≤ axi < 2 ^ 32 ∧ axi mod 4 = addr mod 4 ∧
    axi_window (dma_window (firmware w)) axi = Some (set_local_offset cfg 0, addr, sc_size c - addr `mod` sc_size c).
Proof using Ht Hi Hc Hsize Harch.
  intros ((Hid & Hsz & Ha) & _ & Hhw) Haddr.
  destruct (window_configuration t i c Hc) as (conf & Hconf & _).
  destruct (dma_class_offset conf Hconf) as (Hcs & Hlo & Hhi & Hg1 & Hg2).
  destruct (class_size_pow2 arch t c Ht) as (k & Hk & Hck); [by apply (find_class_Some i)|].
  assert (0 < sc_size c) as Hpos by (rewrite Hck; apply Z.pow_pos_nonneg; lia).
  pose proof (Z.mod_pos_bound addr (sc_size c) Hpos) as Hmod. pose proof (Z.div_mod addr (sc_size c) ltac:(lia)) as Hdm.
  assert (align_down addr (sc_size c) = addr `div` sc_size c * sc_size c) as Hal by (rewrite Hck; by apply align_down_spec; [lia|]).
  exists (tc_tlb_offset conf + addr `mod` sc_size c). split_and!.
  - unfold axi_address, mbind, M_bind, lift, mret, M_ret, get. rewrite Ht, Hid, Hconf, Hsz, Hal. do 3 f_equal.
    unfold u64. rewrite (Z.mod_small (addr - _)) by lia. rewrite Z.mod_small by lia. lia.
  - lia.
  - lia.
  - destruct Hg1 as [q1 ->], Hg2 as [q2 Hq2]. rewrite (Z.mod_eq addr (sc_size c)), Hq2 by lia.
    replace (q1 * 4 + (addr - q2 * 4 * (addr `div` (q2 * 4)))) with (addr + (q1 - q2 * (addr `div` (q2 * 4))) * 4) by lia.
    apply Z.mod_add. lia.
  - unfold axi_window. rewrite Ha, Ht, Hid. cbn [mbind result_bind]. rewrite Hconf, Hhw, Hcs.
    replace (tc_tlb_offset conf + addr `mod` sc_size c - tc_tlb_offset conf) with (addr `mod` sc_size c) by lia.
    rewrite (proj2 (Z.leb_le _ _)), (proj2 (Z.ltb_lt _ _)) by lia. cbn [andb]. do 2 f_equal. f_equal. lia.
Qed.

(** What a part of a transfer has moved: [buf] to the device, or [l] from it. *)
Definition moved_bytes (direction : DmaDirection) (tgt : tlb_data) (addr : Z) (n : nat) (buf l : list Z) (d d' : D) : Prop :=
  match direction with
  | H2D => d' = dev_write tgt addr buf d
  | D2H => l = dev_read tgt addr n d ∧ d' = d
  end.
Lemma moved_app direction tgt addr n m buf l l' d d' d'' :
  (n ≤ length buf)%nat ∨ direction = D2H →
  moved_bytes direction tgt addr n (take n buf) l d d' →
  moved_bytes direction tgt (addr + Z.of_nat n) m (drop n buf) l' d' d'' →
  moved_bytes direction tgt addr (n + m) buf (l ++ l') d d''.
Proof using H1.
  intros Hn. destruct direction; cbn.
  - destruct Hn as [Hn|]; [|done]. intros -> ->. rewrite <- (take_drop n buf) at 3. rewrite dev_write_app. do 2 f_equal.
    unfold vec_size. rewrite length_take. lia.
  - intros [-> ->] [-> ->]. by rewrite dev_read_app.
Qed.

(** The state after a part of a transfer. *)
Definition transferred (direction : DmaDirection) (tgt : tlb_data) (addr : Z) (n : nat) (buf l : list Z) s s' : Prop :=
  idle (bar2_log s') (engine s') ∧ cached_dma_tlb_window s' = true ∧ window_of arch i c (dma_window s') ∧
  moved_bytes direction tgt addr n buf l (device (dma_window s)) (device (dma_window s')) ∧
  same_other_registers arch t i (config_space (dma_window s)) (config_space (dma_window s')) ∧
  ∀ x, ¬ dma_memory x → host s' x = host s x.

Lemma check_dma_ok a n misaligned :
  (4 | a) → (4 | n) → check_dma dma_buffer true a n misaligned = Ok tt.
Proof using Hbuf.
  intros Ha Hn. unfold check_dma. rewrite (completion_there Hbuf), (buffer_there Hbuf).
  apply Z.mod_divide in Ha; [|done]. apply Z.mod_divide in Hn; [|done]. by rewrite Ha, Hn.
Qed.

(** What the engine's driver says to a transfer: nothing when there is nothing to move. *)
Definition misaligned (direction : DmaDirection) : string :=
  match direction with
  | H2D => "DMA destination address must be aligned to 4 bytes."
  | D2H => "DMA source address must be aligned to 4 bytes."
  end.
Definition dma_refusal (direction : DmaDirection) (addr : Z) (size : nat) : result unit :=
  if decide (size = 0%nat) then Ok tt
  else
    umd_assert (addr `mod` 4 =? 0) (misaligned direction);;
    umd_assert (Z.of_nat size `mod` 4 =? 0) "DMA size must be a multiple of 4.".
Lemma check_dma_refusal direction a addr (n : nat) : (0 < n)%nat → a `mod` 4 = addr `mod` 4 →
  check_dma dma_buffer true a (Z.of_nat n) (misaligned direction) = dma_refusal direction addr n.
Proof using Hbuf.
  intros Hn Ha. unfold check_dma, dma_refusal. rewrite (completion_there Hbuf), (buffer_there Hbuf), Ha. rewrite decide_False by lia.
  cbn [umd_assert mbind result_bind andb]. destruct (addr `mod` 4 =? 0); [|done]. cbn [umd_assert mbind result_bind].
  by destruct (Z.of_nat n `mod` 4 =? 0).
Qed.
Lemma dma_refusal_ok direction addr n : (4 | addr) → (4 | Z.of_nat n) → dma_refusal direction addr n = Ok tt.
Proof using.
  intros Ha Hn. unfold dma_refusal. apply Z.mod_divide in Ha; [|done]. apply Z.mod_divide in Hn; [|done]. rewrite Ha, Hn. by case_decide.
Qed.
Lemma dma_refusal_Ok_inv direction addr n : dma_refusal direction addr n = Ok tt → (0 < n)%nat → (4 | addr) ∧ (4 | Z.of_nat n).
Proof using.
  unfold dma_refusal. intros Hr Hn. rewrite decide_False in Hr by lia.
  destruct (Z.eqb_spec (addr `mod` 4) 0); [|discriminate]. destruct (Z.eqb_spec (Z.of_nat n `mod` 4) 0); [|discriminate].
  split; by apply Z.mod_divide.
Qed.
Lemma dma_refusal_iff direction addr n : dma_refusal direction addr n = Ok tt ↔ n = 0%nat ∨ (4 | addr) ∧ (4 | Z.of_nat n).
Proof using.
  split; [|by intros [->|[? ?]]; [done|apply dma_refusal_ok]]. intros Hr. destruct (decide (n = 0%nat)); [by left|right].
  by apply (dma_refusal_Ok_inv direction); [|lia].
Qed.
Lemma dma_refusal_when direction addr (src : list Z) :
  dma_refusal direction addr (length src) = Ok tt ↔ src = [] ∨ (4 | addr) ∧ (4 | vec_size src).
Proof using. rewrite dma_refusal_iff. unfold vec_size. by rewrite length_zero_iff_nil. Qed.
(** A part done does not change the answer. *)
Lemma dma_refusal_rest direction addr (n k : nat) : (0 < k ≤ n)%nat → (4 | addr) → (4 | Z.of_nat k) →
  dma_refusal direction (addr + Z.of_nat k) (n - k) = dma_refusal direction addr n.
Proof using.
  intros Hk Ha [q Hq]. destruct (decide (n = k)) as [->|Hne].
  - rewrite (dma_refusal_ok direction addr k); [|done|by exists q]. unfold dma_refusal. by rewrite decide_True by lia.
  - unfold dma_refusal. rewrite !decide_False by lia. rewrite Nat2Z.inj_sub, Hq, Z.mod_add by lia.
    replace (Z.of_nat n - q * 4) with (Z.of_nat n + - q * 4) by lia. by rewrite Z.mod_add by lia.
Qed.

(** A chunk that is refused: only the staging buffer may have been written. *)
Lemma dma_chunk_refused direction buf (n : nat) axi addr e w :
  (0 < n)%nat → Z.of_nat n ≤ buffer_size dma_buffer → 0 ≤ axi < 2 ^ 32 → axi `mod` 4 = addr `mod` 4 →
  dma_refusal direction addr n = Err e → idle (bar2_log (firmware w)) (engine (firmware w)) →
  cached_dma_tlb_window (firmware w) = true → window_of arch i c (dma_window (firmware w)) →
  wp (dma_chunk env bar2_read arch dma_buffer true polls direction buf axi (Z.of_nat n))
    (λ r w', r = Err e ∧ ∀ tgt l, (direction = D2H → l = []) → transferred direction tgt addr 0 [] l (firmware w) (firmware w')) w.
Proof using Hbuf Hstrategy H1.
  intros Hn Hroom Haxi Ha Hwhat Hi0 Hc0 Hw0. rewrite <- (check_dma_refusal direction axi addr n Hn Ha) in Hwhat.
  unfold dma_chunk. rewrite u32_small by done. destruct direction.
  - apply wp_bind. unfold wpf at 1, copy_to_buffer, modify, upd. rewrite Nat2Z.id. set (w1 := MkWorld _ _ _).
    apply wp_bind. unfold dma_h2d_transfer. eapply wp_bind_lift; [exact Hstrategy|].
    cbn [misaligned] in Hwhat. rewrite Hwhat. apply wp_bind, wp_lift. split; [done|]. intros tgt l _. split_and!; try done.
    { cbn. by rewrite dev_write_nil. }
    intros x Hx. cbn. apply host_write_out. unfold dma_memory in Hx. unfold vec_size. rewrite length_take. lia.
  - apply wp_bind. unfold dma_d2h_transfer. eapply wp_bind_lift; [exact Hstrategy|].
    cbn [misaligned] in Hwhat. rewrite Hwhat. apply wp_bind, wp_lift. split; [done|]. intros tgt l Hl. rewrite Hl by done. split_and!; try done.
    split; [|done]. symmetry. apply nil_length_inv, dev_read_length.
Qed.

Lemma dma_chunk_spec direction cfg addr buf n axi w :
  direction = H2D ∨ strategy = WormholeDmaTransfer →
  idle (bar2_log (firmware w)) (engine (firmware w)) → cached_dma_tlb_window (firmware w) = true →
  window_of arch i c (dma_window (firmware w)) →
  (direction = H2D → (n ≤ length buf)%nat) → Z.of_nat n ≤ buffer_size dma_buffer → (4 | Z.of_nat n) → Z.of_nat n < 2 ^ 32 →
  0 ≤ axi < 2 ^ 32 → (4 | axi) →
  (∃ room, axi_window (dma_window (firmware w)) axi = Some (set_local_offset cfg 0, addr, room) ∧ Z.of_nat n ≤ room) →
  wp (dma_chunk env bar2_read arch dma_buffer true polls direction buf axi (Z.of_nat n))
    (λ r w', r = throw "DMA timeout." ∨ ∃ l, r = Ok l ∧
       transferred direction (set_local_offset cfg 0) addr n (take n buf) l (firmware w) (firmware w') ∧
       dma_window (firmware w') = set_device (dma_window (firmware w)) (device (dma_window (firmware w')))) w.
Proof using engine_laws enough Hbuf Hstrategy H1.
  intros Hdir Hidle Hcached Hwin Hlen Hroom Hg Hn32 Haxi Hga (room & Hax & Hn). destruct (completion_range Hbuf) as [Hp1 Hp2].
  destruct (buffer_range Hbuf) as [Hb1 Hb2]. pose proof (buffer_positive Hbuf). pose proof (buffer_apart Hbuf) as Hap.
  assert (∀ x, buffer_pa dma_buffer ≤ x < buffer_pa dma_buffer + Z.of_nat n → ¬ in_completion (completion_pa dma_buffer) x) as Happ
    by (unfold in_completion; intros; lia).
  unfold dma_chunk. rewrite u32_small by done. destruct direction.
  - apply wp_bind. unfold wpf at 1, copy_to_buffer, modify, upd. rewrite Nat2Z.id. set (w1 := MkWorld _ _ _).
    apply wp_bind. unfold dma_h2d_transfer. eapply wp_bind_lift; [exact Hstrategy|].
    eapply wp_bind_lift; [by apply check_dma_ok|].
    eapply wp_mono; [eapply (h2d_transfer_spec env bar2_read strategy idle); [done..|lia|done]|].
    intros r w' [->|(-> & Hi' & Hc' & Hm)]; [by left|]. apply wp_ret. right. exists []. split; [done|].
    destruct (Hm _ _ _ Hax Hn Happ) as [Hw' Hh']. cbn [dma_window firmware w1 set_host host] in Hw', Hh'.
    assert (host_read (buffer_pa dma_buffer) n (host_write (buffer_pa dma_buffer) (take n buf) (host (firmware w))) = take n buf) as Hread.
    { specialize (Hlen eq_refl). rewrite <- (length_take_le buf n) at 1 by lia. apply host_read_write. }
    rewrite Hread in Hw'. split.
    + split; [done|]. split; [by rewrite Hc'|]. rewrite Hw'. split; [done|]. split; [done|]. split; [done|].
      intros x Hx. unfold dma_memory in Hx. rewrite Hh' by tauto. cbn. apply host_write_out. unfold vec_size. rewrite length_take. lia.
    + by rewrite Hw'.
  - destruct Hdir as [|Hs]; [done|]. apply wp_bind. unfold dma_d2h_transfer. eapply wp_bind_lift; [exact Hstrategy|].
    eapply wp_bind_lift; [by apply check_dma_ok|].
    eapply wp_mono; [eapply (d2h_transfer_spec env bar2_read strategy idle); [done..|lia|done]|].
    intros r w' [->|(-> & Hi' & Hc' & Hm)]; [by left|]. unfold copy_from_buffer. apply wp_bind. unfold wpf at 1, get. apply wp_ret.
    right. eexists. split; [done|]. destruct (Hm _ _ _ Hax Hn Happ) as [Hw' Hh']. split.
    + split; [done|]. split; [by rewrite Hc'|]. rewrite Hw'. split; [done|]. split; [|split; [done|]].
      * split; [|done]. rewrite Nat2Z.id. rewrite (host_read_ext _ _ _ (host_write (buffer_pa dma_buffer)
          (dev_read (set_local_offset cfg 0) addr n (device (dma_window (firmware w)))) (host (firmware w)))).
        2: { intros x Hx. apply Hh', Happ. lia. }
        rewrite <- (dev_read_length (set_local_offset cfg 0) addr n (device (dma_window (firmware w)))) at 1. apply host_read_write.
      * intros x Hx. unfold dma_memory in Hx. rewrite Hh' by tauto. apply host_write_out. unfold vec_size. rewrite dev_read_length. lia.
    + rewrite Hw'. by destruct (dma_window (firmware w)).
Qed.

Lemma wp_configure_window cfg addr len w (Q : result unit → World (Pcie D E) → Prop) :
  window_of arch i c (dma_window (firmware w)) → 0 < len → reachable c cfg addr len → local_offset cfg = addr →
  (∀ win, aimed cfg addr win → device win = device (dma_window (firmware w)) →
     same_other_registers arch t i (config_space (dma_window (firmware w))) (config_space win) →
     Q (Ok tt) (upd (set_window win) w)) →
  wp (configure_window cfg) Q w.
Proof using Harch Ht Hi Hc.
  intros Hw Hlen Hr Hlo HQ.
  destruct (configure_chunk arch Harch t Ht i Hi c Hc cfg _ addr len Hw Hlen Hr Hlo) as (win & Hcfg & Hconf & Hsz & _ & Hhw & _).
  unfold configure_window. apply wp_bind. unfold wpf, get. cbn beta. eapply wp_bind_lift; [exact Hcfg|]. unfold wpf, modify.
  apply HQ; [|exact (configured_device _ _ _ _ _ _ _ Hconf)|exact (configured_others _ _ _ _ _ _ _ Hconf)].
  split; [exact (configured_window _ _ _ _ _ _ _ Hconf)|done].
Qed.

(** What a transfer of [size] bytes comes to: [m] of them are moved, all unless it is refused. *)
Definition loop_outcome direction (cfg : tlb_data) (addr : Z) (size : nat) (buf : list Z) s (r : result (list Z)) s' : Prop :=
  ∃ m l, r = (dma_refusal direction addr size;; Ok l) ∧ (m ≤ size)%nat ∧ (dma_refusal direction addr size = Ok tt → m = size) ∧
    (¬ (4 | addr) → m = 0%nat) ∧ transferred direction (set_local_offset cfg 0) addr m (take m buf) l s s'.
Lemma loop_outcome_refused direction cfg addr size (k : nat) buf s s' e :
  (0 < k ≤ size)%nat → Z.of_nat k = Z.of_nat size ∨ ((4 | addr) → (4 | Z.of_nat k)) → dma_refusal direction addr k = Err e →
  (∀ tgt l, (direction = D2H → l = []) → transferred direction tgt addr 0 [] l s s') → loop_outcome direction cfg addr size buf s (Err e) s'.
Proof using.
  intros Hk Hcase He Hsame. assert (dma_refusal direction addr size = Err e) as Hs.
  { destruct Hcase as [Hcase|Hcase]; [by replace size with k by lia|]. unfold dma_refusal in *. rewrite decide_False in He by lia. rewrite decide_False by lia.
    destruct (Z.eqb_spec (addr `mod` 4) 0) as [Hm|]; [|done]. apply Z.mod_divide in Hm; [|done]. destruct (Hcase Hm) as [q Hq].
    rewrite Hq, Z.mod_mul in He by lia. discriminate. }
  exists 0%nat, []. rewrite Hs. split_and!; [done|lia|done|done|]. by apply Hsame.
Qed.

Lemma dma_loop_spec direction :
  direction = H2D ∨ strategy = WormholeDmaTransfer →
  ∀ fuel size cfg buf addr w,
    (size ≤ fuel)%nat → (direction = H2D → length buf = size) →
    idle (bar2_log (firmware w)) (engine (firmware w)) → cached_dma_tlb_window (firmware w) = true →
    aimed cfg addr (dma_window (firmware w)) → local_offset cfg = addr →
    reachable c cfg addr (Z.of_nat size + 1) →
    wp (dma_loop env bar2_read arch dma_buffer true polls fuel direction size buf addr cfg)
      (λ r w', r = throw "DMA timeout." ∨ loop_outcome direction cfg addr size buf (firmware w) r (firmware w')) w.
Proof using engine_laws enough Hbuf Hstrategy H1 Harch Ht Hi Hc Hsize.
  intros Hdir. induction fuel as [|fuel IH]; intros size cfg buf addr w Hfuel Hlen Hidle Hcached Haim Hlo Hr.
  all: destruct (decide (size = 0%nat)) as [->|Hne].
  1, 3: apply wp_ret; right; exists 0%nat, []; split_and!; [done|done|done|done|]; split_and!; [done|done|apply Haim| |done|done];
    destruct direction; cbn; [by rewrite dev_write_nil|]; split; [|done]; symmetry; apply nil_length_inv, dev_read_length.
  { lia. }
  destruct Hr as (Ha & Hub & Hfit). destruct (axi_address_spec cfg addr w Haim ltac:(lia)) as (axi & Hax & Hr32 & Hg4 & Hxw).
  destruct (class_size_facts arch t Ht i c Hc) as [Hs Hs4]. pose proof (Z.mod_pos_bound addr (sc_size c) ltac:(lia)) as Hmod.
  pose proof (buffer_positive Hbuf) as Hbp. pose proof (buffer_words Hbuf) as Hbw.
  destruct size as [|size']; [done|]. set (size := S size') in *. cbn [dma_loop]. change (match size with 0%nat => ?a | _ => ?b end) with b.
  apply wp_bind. unfold wpf at 1. rewrite Hax. apply wp_bind. unfold wpf at 1, get. cbn zeta.
  destruct Haim as (Hwin & Hgs1 & Hhw). rewrite Hgs1.
  set (n := Z.min (Z.of_nat size) (Z.min (sc_size c - addr `mod` sc_size c) (buffer_size dma_buffer))).
  assert (0 < n ≤ Z.of_nat size) as Hn by (unfold n, size; lia).
  assert (n = Z.of_nat size ∨ ((4 | addr) → (4 | n))) as Hgn.
  { destruct (decide (n = Z.of_nat size)); [by left|right]. intros Hga.
    assert (n = Z.min (sc_size c - addr `mod` sc_size c) (buffer_size dma_buffer)) as -> by lia.
    apply divide_min; [|done]. rewrite Z.mod_eq by lia. apply Z.mod_divide in Hs4; [|done].
    apply Z.divide_sub_r; [done|]. apply Z.divide_sub_r; [done|]. by apply Z.divide_mul_l. }
  destruct (Z_of_nat_complete n ltac:(lia)) as [k Hk]. rewrite Hk in *. rewrite Nat2Z.id.
  assert (sc_size c < 2 ^ 32) as Hs32.
  { clear - Hsize Harch. destruct Harch as [-> | ->]; injection Hsize as <-; lia. }
  apply wp_bind. destruct (dma_refusal direction addr k) as [[]|e] eqn:Hrk.
  2:{ eapply wp_mono; [by apply (dma_chunk_refused direction buf k axi addr e w); try done; lia|].
      intros r w1 (-> & Htr). right. by apply (loop_outcome_refused direction cfg addr size k); [lia|..]. }
  destruct (dma_refusal_Ok_inv _ _ _ Hrk ltac:(lia)) as [Hga Hgk].
  eapply wp_mono.
  { apply (dma_chunk_spec direction cfg addr buf k axi w); try done; [intros Hd; rewrite Hlen by done; lia|lia|lia| |].
    { apply Z.mod_divide; [done|]. rewrite Hg4. by apply Z.mod_divide. }
    eexists. split; [exact Hxw|lia]. }
  intros r w1 [->|(l & -> & (Hi1 & Hc1 & Hw1 & Hm1 & Ho1 & Hh1) & Hset)]; [by left|]. apply wp_bind.
  assert (u64 (addr + Z.of_nat k) = addr + Z.of_nat k) as Hu by (apply Z.mod_small; lia). rewrite Hu.
  eapply (wp_configure_window _ (addr + Z.of_nat k) (Z.of_nat size + 1 - Z.of_nat k)); [done|lia| |done|].
  { rewrite <- Hu at 1. apply (reachable_rest c cfg addr (Z.of_nat size + 1) (Z.of_nat k)); [done|lia]. }
  intros win Haim2 Hdev2 Hsame2. set (w2 := upd _ _). apply wp_bind. eapply wp_mono.
  { eapply (IH (size - k)%nat (set_local_offset cfg (addr + Z.of_nat k)) (drop k buf) (addr + Z.of_nat k) w2); try done.
    - lia.
    - intros Hd. rewrite length_drop, Hlen by done. lia.
    - rewrite <- Hu at 1. replace (Z.of_nat (size - k) + 1) with (Z.of_nat size + 1 - Z.of_nat k) by lia.
      apply (reachable_rest c cfg addr (Z.of_nat size + 1) (Z.of_nat k)); [done|lia]. }
  intros r w3 [->|(m & l' & -> & Hm & Hall & _ & Hi3 & Hc3 & Hw3 & Hm3 & Ho3 & Hh3)]; [by left|].
  rewrite (dma_refusal_rest direction addr size k) in Hall |- * by (done || lia).
  assert (loop_outcome direction cfg addr size buf (firmware w) (dma_refusal direction addr size;; Ok (l ++ l')) (firmware w3)) as Hout.
  { exists (k + m)%nat, (l ++ l'). split_and!; [done|lia|intros E'; specialize (Hall E'); lia|done|].
    rewrite set_local_offset_twice in Hm3. cbn [w2 upd set_window firmware dma_window host] in Hm3, Ho3, Hh3. rewrite Hdev2 in Hm3.
    split_and!; [done..| | |].
    - eapply moved_app; [| |].
      + destruct direction; [left; rewrite length_take, Hlen by done; lia|by right].
      + rewrite take_take, Nat.min_l by lia. exact Hm1.
      + rewrite <- take_drop_commute. exact Hm3.
    - eapply same_other_trans; [exact Ho1|]. eapply same_other_trans; [exact Hsame2|exact Ho3].
    - intros x Hx. rewrite Hh3, <- Hh1 by done. done. }
  destruct (dma_refusal direction addr size) as [[]|e]; [apply wp_ret|]; right; exact Hout.
Qed.

(** Between transfers: the engine has no job, and the window is there or will be
    allocated. *)
Definition dma_ready s : Prop :=
  idle (bar2_log s) (engine s) ∧ (cached_dma_tlb_window s = true → window_of arch i c (dma_window s)).

(** The window, cached or new. *)
Lemma get_window_spec cfg addr len w (Q : result unit → World (Pcie D E) → Prop) :
  dma_ready (firmware w) → local_offset cfg = addr → 0 < len → reachable c cfg addr len →
  (∀ win, aimed cfg addr win → device win = device (dma_window (firmware w)) →
     same_other_registers arch t i (config_space (dma_window (firmware w))) (config_space win) →
     Q (Ok tt) (upd (set_window win) w)) →
  wp (get_cached_dma_tlb_window arch allocate_tlb cfg) Q w.
Proof using Harch Ht Hi Hc Hsize allocated.
  intros [Hidle Hwin] Hlo Hlen Hr HQ. unfold get_cached_dma_tlb_window. apply wp_bind. unfold wpf at 1, get. cbn beta.
  destruct (cached_dma_tlb_window (firmware w)) eqn:Ec; [eapply wp_configure_window; eauto|].
  eapply wp_bind_lift; [exact Hsize|]. eapply wp_bind_lift; [exact allocated|].
  set (fresh := MkWindow _ _ _ _). assert (window_of arch i c fresh) as Hfresh by done.
  destruct (configure_chunk arch Harch t Ht i Hi c Hc cfg fresh addr len Hfresh Hlen Hr Hlo) as (win & Hcfg & Hconf & Hsz & _ & Hhw & _).
  eapply wp_bind_lift; [exact Hcfg|]. unfold wpf, modify.
  apply HQ; [|exact (configured_device _ _ _ _ _ _ _ Hconf)|exact (configured_others _ _ _ _ _ _ _ Hconf)].
  split; [exact (configured_window _ _ _ _ _ _ _ Hconf)|done].
Qed.

Lemma dma_transfer_spec direction cfg size buf addr w :
  direction = H2D ∨ strategy = WormholeDmaTransfer → (direction = H2D → length buf = size) →
  dma_ready (firmware w) → local_offset cfg = addr → reachable c cfg addr (Z.of_nat size + 1) →
  wp (dma_transfer env bar2_read arch dma_buffer true allocate_tlb polls direction size buf addr cfg)
    (λ r w', r = throw "DMA timeout." ∨ ∃ m l, r = (dma_refusal direction addr size;; Ok (Some l)) ∧ (m ≤ size)%nat ∧
       (dma_refusal direction addr size = Ok tt → m = size) ∧ (¬ (4 | addr) → m = 0%nat) ∧
       transferred direction (set_local_offset cfg 0) addr m (take m buf) l (firmware w) (firmware w')) w.
Proof using engine_laws enough Hbuf Hstrategy H1 Harch Ht Hi Hc Hsize allocated.
  intros Hdir Hlen Hready Hlo Hr. pose proof Hready as [Hidle _]. unfold dma_transfer. rewrite (buffer_there Hbuf). cbn [negb].
  apply wp_bind. eapply (get_window_spec cfg addr (Z.of_nat size + 1)); [done|exact Hlo|lia|exact Hr|].
  intros win Haim Hdev Hsame. set (w2 := upd _ _). pose proof Hr as (Hr0 & Hr1 & Hr2).
  destruct (axi_address_spec cfg addr w2 Haim ltac:(lia)) as (axi & Hax & _). apply wp_bind. unfold wpf at 1. rewrite Hax.
  apply wp_bind. eapply wp_mono; [eapply (dma_loop_spec direction); try done; by cbn|]. subst w2.
  intros r w' [->|(m & l & -> & Hm & Hall & Hnone & Hi' & Hc' & Hw' & Hmv & Ho & Hh)]; [by left|].
  cbn [upd set_window firmware dma_window host] in Hmv, Ho, Hh. rewrite Hdev in Hmv.
  assert (transferred direction (set_local_offset cfg 0) addr m (take m buf) l (firmware w) (firmware w')) as Htr.
  { split_and!; [done..| |done]. by eapply same_other_trans. }
  destruct (dma_refusal direction addr size) as [[]|e]; [apply wp_ret|]; right; by exists m, l.
Qed.

(** The configuration of a transfer. *)
Definition dma_config (addr : Z) (core : xy_pair) (noc_id : Z) (core_start : option xy_pair) : tlb_data :=
  let svc := if use_static_vc t then 1 else 0 in
  match core_start with
  | None => MkTlbData addr (xy_x core) (xy_y core) 0 0 noc_id 0 Relaxed 0 svc
  | Some s => MkTlbData addr (xy_x core) (xy_y core) (xy_x s) (xy_y s) noc_id 1 Relaxed 0 svc
  end.
Lemma create_dma_tlb_config_ok addr core noc_id core_start :
  create_dma_tlb_config arch addr core noc_id core_start = Ok (dma_config addr core noc_id core_start).
Proof using Ht. unfold create_dma_tlb_config. by rewrite Ht. Qed.

(** C5: DMA WRITES. Over an engine that runs the jobs its registers hold, at any
    pace, a DMA write of a source of any length to any address of a core, or to a
    range of cores, ends in one of three ways: with a timeout of the engine;
    when the address and the length are multiples of four (or there is nothing to
    move), with exactly the bytes of the source written from the address on
    to the target asked for, although they pass in chunks through the
    staging buffer and the window; and otherwise with the exception for what is
    misaligned, after no byte, or, when only the length is odd, after a beginning
    of the source was written. Unless it times out, the host's memory outside the DMA
    buffer and the other windows are untouched, and the next transfer can start.
    The bytes and the address after them must be within what a window can be
    aimed at: the loop configures the window for that address too. *)
Theorem dma_write_correct src dst_addr core start noc_id w :
  let refusal := dma_refusal H2D dst_addr (length src) in
  let written cs (r : result bool) w' :=
    r = throw "DMA timeout." ∨
    r = (refusal;; Ok true) ∧ dma_ready (firmware w') ∧
    (∃ m, (m ≤ length src)%nat ∧ (refusal = Ok tt → m = length src) ∧ (¬ (4 | dst_addr) → m = 0%nat) ∧
      device (dma_window (firmware w')) =
        dev_write (set_local_offset (dma_config dst_addr core noc_id cs) 0) dst_addr (take m src) (device (dma_window (firmware w)))) ∧
    same_other_registers arch t i (config_space (dma_window (firmware w))) (config_space (dma_window (firmware w'))) ∧
    ∀ x, ¬ dma_memory x → host (firmware w') x = host (firmware w) x in
  dma_ready (firmware w) →
  (refusal = Ok tt ↔ src = [] ∨ (4 | dst_addr) ∧ (4 | vec_size src)) ∧
  (reachable c (dma_config dst_addr core noc_id None) dst_addr (vec_size src + 1) →
   ∃ r w', dma_write env bar2_read arch dma_buffer true allocate_tlb polls src dst_addr core noc_id w = Some (r, w') ∧ written None r w') ∧
  (reachable c (dma_config dst_addr core noc_id (Some start)) dst_addr (vec_size src + 1) →
   ∃ r w', dma_multicast_write env bar2_read arch dma_buffer true allocate_tlb polls src dst_addr start core noc_id w = Some (r, w') ∧
     written (Some start) r w').
Proof using engine_laws enough Hbuf Hstrategy H1 Harch Ht Hi Hc Hsize allocated.
  intros refusal written Hw. split; [apply dma_refusal_when|].
  split; intros Hr; apply wp_returns; unfold dma_write, dma_multicast_write; (eapply wp_bind_lift; [apply create_dma_tlb_config_ok|]);
    apply wp_bind; (eapply wp_mono; [eapply (dma_transfer_spec H2D); [by left|done|done|by cbn|exact Hr]|]);
    (intros r w' [->|(m & l & -> & Hm & Hall & Hnone & Hi' & Hc' & Hw' & Hmv & Ho & Hh)]; [by left|]);
    fold refusal in Hall |- *; (destruct refusal as [[]|e]; [apply wp_ret|]; right); split_and!; try done; by exists m.
Qed.

(** C14: DMA READS. On Wormhole a DMA read of any length from any address ends: with
    a timeout of the engine; when the address and the length are multiples of four (or
    there is nothing to move), with exactly the bytes that a read of the range
    returns; and otherwise with the exception for what is misaligned. Unless it times
    out, the device and the host's memory outside the DMA buffer are untouched. As
    for writes, the bytes and the address after them are within what a window can be
    aimed at. *)
Theorem dma_read_correct src_addr size core noc_id w :
  let refusal := dma_refusal D2H src_addr size in
  strategy = WormholeDmaTransfer → dma_ready (firmware w) →
  reachable c (dma_config src_addr core noc_id None) src_addr (Z.of_nat size + 1) →
  (refusal = Ok tt ↔ size = 0%nat ∨ (4 | src_addr) ∧ (4 | Z.of_nat size)) ∧
  ∃ r w', dma_read env bar2_read arch dma_buffer true allocate_tlb polls src_addr size core noc_id w = Some (r, w') ∧
    (r = throw "DMA timeout." ∨
     r = (refusal;; Ok (Some (dev_read (set_local_offset (dma_config src_addr core noc_id None) 0) src_addr size (device (dma_window (firmware w)))))) ∧
     dma_ready (firmware w') ∧ device (dma_window (firmware w')) = device (dma_window (firmware w)) ∧
     ∀ x, ¬ dma_memory x → host (firmware w') x = host (firmware w) x).
Proof using engine_laws enough Hbuf Hstrategy H1 Harch Ht Hi Hc Hsize allocated.
  intros refusal Hs Hw Hr. split; [apply dma_refusal_iff|]. apply wp_returns. unfold dma_read. eapply wp_bind_lift; [apply create_dma_tlb_config_ok|].
  eapply wp_mono; [eapply (dma_transfer_spec D2H); [by right|done|done|by cbn|exact Hr]|].
  intros r w' [->|(m & l & -> & Hm & Hall & Hnone & Hi' & Hc' & Hw' & [-> Hd] & Ho & Hh)]; [by left|right].
  fold refusal in Hall |- *. split; [|by split_and!]. destruct refusal as [[]|e]; [|done]. by rewrite Hall.
Qed.
End Transfers.

(** ** A Wormhole engine over byte memories

    It runs the job when it first moves after the doorbell; its state is the
    number of writes it has seen when it last ran one. *)
Abbreviation DemoPcie := (Pcie ByteMemory nat).
Definition demo_run (job : Job) (s : DemoPcie) : DemoPcie :=
  let served win m := MkPcie win (cached_dma_tlb_window s) (bar2_log s) m (clock s + 1) (length (bar2_log s)) in
  let signal m := host_write (job_completion job) (word_bytes (job_value job)) m in
  match axi_window (dma_window s) (job_axi job) with
  | None => served (dma_window s) (signal (host s))
  | Some (tgt, a, _) =>
      match job_direction job with
      | H2D =>
          served (set_device (dma_window s)
                    (dev_write tgt a (host_read (job_host job) (Z.to_nat (job_size job)) (host s)) (device (dma_window s))))
            (signal (host s))
      | D2H =>
          served (dma_window s)
            (signal (host_write (job_host job) (dev_read tgt a (Z.to_nat (job_size job)) (device (dma_window s))) (host s)))
      end
  end.
Definition demo_env (w : World DemoPcie) : World DemoPcie :=
  let s := firmware w in
  MkWorld (mem w) (bar w)
    match programmed WormholeDmaTransfer (bar2_log s) with
    | Some job =>
        if (engine s <? length (bar2_log s))%nat then demo_run job s
        else MkPcie (dma_window s) (cached_dma_tlb_window s) (bar2_log s) (host s) (clock s + 1) (engine s)
    | None => MkPcie (dma_window s) (cached_dma_tlb_window s) (bar2_log s) (host s) (clock s + 1) (engine s)
    end.
Definition demo_idle (log : list (Z * Z)) (e : nat) : Prop :=
  (e ≤ length log)%nat ∧ (programmed WormholeDmaTransfer log = None ∨ e = length log).
Definition demo_bar2_read (off : Z) (s : DemoPcie) : Z := reg (bar2_log s) off.

Lemma demo_idle_moves w :
  demo_idle (bar2_log (firmware w)) (engine (firmware w)) →
  firmware (demo_env w) = MkPcie (dma_window (firmware w)) (cached_dma_tlb_window (firmware w)) (bar2_log (firmware w))
    (host (firmware w)) (clock (firmware w) + 1) (engine (firmware w)).
Proof.
  intros [Hle Hp]. unfold demo_env. cbv zeta. cbn [firmware]. destruct (programmed _ _) as [job|]; [|done].
  destruct Hp as [|He]; [done|]. by rewrite He, Nat.ltb_irrefl.
Qed.
Lemma demo_idle_stays w k :
  demo_idle (bar2_log (firmware w)) (engine (firmware w)) →
  same_visible (firmware w) (firmware (Nat.iter k demo_env w)) ∧ engine (firmware (Nat.iter k demo_env w)) = engine (firmware w).
Proof.
  intros Hw. induction k as [|k [(I1 & I2 & I3 & I4) I5]]; [done|]. rewrite Nat.iter_succ.
  set (w' := Nat.iter k demo_env w) in *. rewrite demo_idle_moves by (by rewrite I3, I5). by split_and!.
Qed.
Lemma demo_runs w r log job :
  bar2_log (firmware w) = r :: log → demo_idle log (engine (firmware w)) → programmed WormholeDmaTransfer (r :: log) = Some job →
  firmware (demo_env w) = demo_run job (firmware w).
Proof.
  intros Hlog [Hle _] Hjob. unfold demo_env. cbv zeta. cbn [firmware]. rewrite Hlog, Hjob. cbn [length].
  by rewrite (proj2 (Nat.ltb_lt _ _)) by lia.
Qed.

Lemma demo_job_done job (s : DemoPcie) : job_done demo_idle job s (demo_run job s).
Proof.
  assert (∀ m x, ¬ in_completion (job_completion job) x → host_write (job_completion job) (word_bytes (job_value job)) m x = m x) as Hsig.
  { intros m x Hx. apply host_write_out. unfold in_completion, vec_size in *. cbn [length word_bytes]. lia. }
  unfold job_done. split.
  { unfold demo_run, demo_idle. destruct (axi_window _ _) as [[[? ?] ?]|]; [destruct (job_direction job)|]; cbn; split; [lia|by right|lia|by right|lia|by right]. }
  split; [unfold demo_run; destruct (axi_window _ _) as [[[? ?] ?]|]; [destruct (job_direction job)|]; done|].
  split; [unfold demo_run; destruct (axi_window _ _) as [[[? ?] ?]|]; [destruct (job_direction job)|]; done|].
  intros tgt a room Hax _. unfold demo_run. rewrite Hax. destruct (job_direction job); cbn; by split; [|intros; apply Hsig].
Qed.

#[global] Instance demo_dma_engine : DmaEngine demo_env demo_bar2_read WormholeDmaTransfer demo_idle.
Proof.
  split.
  - intros w. unfold demo_env. cbv zeta. cbn [firmware]. destruct (programmed _ _) as [job|]; [|cbn; lia]. case_match; [|cbn; lia].
    unfold demo_run. destruct (axi_window _ _) as [[[? ?] ?]|]; [destruct (job_direction job)|]; cbn; lia.
  - intros w Hw. rewrite demo_idle_moves by done. split; [by split_and!|done].
  - intros log e off v [Hle _] Hoff. split; [cbn; lia|]. left. unfold programmed. unfold is_doorbell in Hoff.
    apply orb_false_iff in Hoff as [-> ->]. done.
  - intros w r log job k Hlog Hidle Hjob Hnot _. rewrite Nat.iter_succ_r.
    pose proof (demo_job_done job (firmware w)) as Hd. rewrite <- (demo_runs w r log job Hlog Hidle Hjob) in Hd.
    assert (demo_idle (bar2_log (firmware (demo_env w))) (engine (firmware (demo_env w)))) as Hi by apply Hd.
    destruct (demo_idle_stays (demo_env w) k Hi) as [(S1 & S2 & S3 & S4) S5].
    unfold job_done in *. by rewrite S1, S2, S3, S4, S5.
Qed.

(** Eight bytes across the end of a 16 MB window. *)
Definition demo_class : TlbSizeClass := MkSizeClass (16 * ONE_MB) 20 166 184549376 false wormhole_tlb.TLB_16M_OFFSET.
Definition demo_handle : TlbHandle := MkTlbHandle 170 (16 * ONE_MB) WORMHOLE_B0 tlb_data_default.
Definition demo_buffer : DmaBuffer := MkDmaBuffer true true 64 4096 8192.
Definition demo_pcie : World DemoPcie :=
  MkWorld (λ _ _, 0) (λ _, 0) (MkPcie (MkWindow (MkTlbHandle 0 0 WORMHOLE_B0 tlb_data_default) 0 ∅ (λ _ _, 7)) false [] (λ _, 0) 0 0%nat).
Definition demo_polls : nat := Z.to_nat (patience DMA_TIMEOUT_MS + 1).
Lemma demo_polls_enough : enough_polls DMA_TIMEOUT_MS demo_polls.
Proof. split; [done|]. unfold demo_polls. rewrite Z2Nat.id by done. unfold patience; lia. Qed.
Lemma demo_buffer_ok : buffer_ok demo_buffer.
Proof. split; try done; [by exists 16|by left]. Qed.
Lemma demo_ready : dma_ready demo_idle WORMHOLE_B0 170 demo_class (firmware demo_pcie).
Proof. split; [by split; [|left]|done]. Qed.
Lemma demo_dma_reachable start :
  match start with None => True | Some s => 0 ≤ xy_x s < 64 ∧ 0 ≤ xy_y s < 64 end →
  reachable demo_class (dma_config wormhole_windows.wormhole_tlbs (2 ^ 24 - 4) (XY 18 19) 1 start) (2 ^ 24 - 4) 9.
Proof.
  intros Hs. split; [lia|]. split; [by vm_compute|]. intros _. destruct start as [[x y]|].
  - unfold fits, field_values, field_bounds; cbn -[Z.pow Z.div]. rewrite !Forall2_cons. cbn in Hs.
    split_and!; try done; try lia; by constructor.
  - apply (bool_decide_unpack _). by vm_compute.
Qed.
Lemma dma_write_correct_witness :
  ∃ r w', dma_write demo_env demo_bar2_read WORMHOLE_B0 demo_buffer true (λ _, Ok demo_handle) demo_polls
            [1; 2; 3; 4; 5; 6; 7; 8] (2 ^ 24 - 4) (XY 18 19) 1 demo_pcie = Some (r, w') ∧
    (r = throw "DMA timeout." ∨
     r = Ok true ∧ dma_ready demo_idle WORMHOLE_B0 170 demo_class (firmware w') ∧
     device (dma_window (firmware w')) =
       dev_write (set_local_offset (dma_config wormhole_windows.wormhole_tlbs (2 ^ 24 - 4) (XY 18 19) 1 None) 0) (2 ^ 24 - 4)
         [1; 2; 3; 4; 5; 6; 7; 8] (device (dma_window (firmware demo_pcie))) ∧
     same_other_registers WORMHOLE_B0 wormhole_windows.wormhole_tlbs 170
       (config_space (dma_window (firmware demo_pcie))) (config_space (dma_window (firmware w'))) ∧
     ∀ x, ¬ dma_memory demo_buffer x → host (firmware w') x = host (firmware demo_pcie) x).
Proof.
  destruct (proj1 (proj2 (dma_write_correct demo_env demo_bar2_read WormholeDmaTransfer demo_idle WORMHOLE_B0 (or_introl eq_refl) eq_refl
    wormhole_windows.wormhole_tlbs eq_refl 170 ltac:(lia) demo_class eq_refl eq_refl (λ _, Ok demo_handle) tlb_data_default eq_refl
    demo_buffer demo_polls demo_polls_enough demo_buffer_ok [1; 2; 3; 4; 5; 6; 7; 8] (2 ^ 24 - 4) (XY 18 19) (XY 0 0) 1 demo_pcie
    demo_ready)) (demo_dma_reachable None I)) as (r & w' & E & Hr). exists r, w'. split; [exact E|].
  destruct Hr as [->|(-> & H1 & (m & _ & Hm & _ & Hd) & H2 & H3)]; [left; reflexivity|right].
  rewrite (Hm eq_refl) in Hd. exact (conj eq_refl (conj H1 (conj Hd (conj H2 H3)))).
Defined.
Lemma dma_read_correct_witness :
  ∃ r w', dma_read demo_env demo_bar2_read WORMHOLE_B0 demo_buffer true (λ _, Ok demo_handle) demo_polls
            (2 ^ 24 - 4) 8 (XY 18 19) 1 demo_pcie = Some (r, w') ∧
    (r = throw "DMA timeout." ∨
     r = Ok (Some [7; 7; 7; 7; 7; 7; 7; 7]) ∧ dma_ready demo_idle WORMHOLE_B0 170 demo_class (firmware w') ∧
     device (dma_window (firmware w')) = device (dma_window (firmware demo_pcie)) ∧
     ∀ x, ¬ dma_memory demo_buffer x → host (firmware w') x = host (firmware demo_pcie) x).
Proof.
  exact (proj2 (dma_read_correct demo_env demo_bar2_read WormholeDmaTransfer demo_idle WORMHOLE_B0 (or_introl eq_refl) eq_refl
    wormhole_windows.wormhole_tlbs eq_refl 170 ltac:(lia) demo_class eq_refl eq_refl (λ _, Ok demo_handle) tlb_data_default eq_refl
    demo_buffer demo_polls demo_polls_enough demo_buffer_ok (2 ^ 24 - 4) 8 (XY 18 19) 1 demo_pcie
    eq_refl demo_ready (demo_dma_reachable None I))).
Defined.

(** The run ends in time. *)
Example demo_dma_runs :
  match dma_write demo_env demo_bar2_read WORMHOLE_B0 demo_buffer true (λ _, Ok demo_handle) 3
          [1; 2; 3; 4; 5; 6; 7; 8] (2 ^ 24 - 4) (XY 18 19) 1 demo_pcie with
  | Some (Ok b, _) => b = true
  | _ => False
  end.
Proof. vm_compute. reflexivity. Qed.
