(* ===== verification/EthBroadcast.v ===== *)
(** * EthBroadcast

    [tt_device/ethernet_broadcast.cpp]: writes to all chips of a Wormhole
    cluster by commands to the Ethernet firmware of the chips with MMIO. A command carries
    a header of eight words: words 0 to 2 select the racks and shelves, word 3
    the chips of a shelf, word 4 excludes rows and columns. Words are C++ ints. *)

From Stdlib Require Import ZArith Lia.
From stdpp Require Import base list numbers strings gmap sets sorting.
From S2P Require Import Prelude CoreTypes ArchData BoardTypes ClusterState.

Local Open Scope Z_scope.

(** ** Ints *)

(** The result of an int operation. *)
Definition as_int (a : Z) : result Z := if bool_decide (- 2 ^ 31 ≤ a < 2 ^ 31) then Ok a else Err UndefinedBehaviour.
(** [a << n] of ints. *)
Definition int_shl (a n : Z) : result Z :=
  if bool_decide (0 ≤ n < 32 ∧ 0 ≤ a ∧ a * 2 ^ n < 2 ^ 32) then Ok (i32 (a * 2 ^ n)) else Err UndefinedBehaviour.
(** [a << n] of a uint32_t. *)
Definition uint_shl (a n : Z) : result Z :=
  if bool_decide (0 ≤ n < 32) then Ok (u32 (a * 2 ^ n)) else Err UndefinedBehaviour.

(** [v.at(i) |= bits]. *)
Definition or_at (i bits : Z) (v : list Z) : result (list Z) :=
  a ← vec_at v i; Ok (<[Z.to_nat i := i32 (Z.lor a bits)]> v).

(** ** State *)

Abbreviation Header := (list Z).
Abbreviation Headers := (gmap Z (list Header)).

Record EthernetBroadcast := MkBroadcast {
  single_remote_chip : bool;
  bc_chip_locations : gmap Z EthCoord;
  chip_to_mmio_chip : gmap Z Z;
  (** The handle of the RemoteCommunication object of a chip. *)
  mmio_remote_comms : gmap Z Z;
  bcast_header_cache : gmap (gset Z) Headers
}.

Definition new_broadcast (chip_locations : gmap Z EthCoord) (to_mmio : gmap Z Z) (comms : gmap Z Z) : EthernetBroadcast :=
  MkBroadcast false chip_locations to_mmio comms ∅.
(** [get_target_eth_coord().value()] is the optional coordinate of the target. *)
Definition new_single_broadcast (mmio_remote_comm : Z) (target : option EthCoord) : result EthernetBroadcast :=
  match target with
  | Some c => Ok (MkBroadcast true {[ 0 := c ]} {[ 0 := 0 ]} {[ 0 := mmio_remote_comm ]} ∅)
  | None => throw "bad optional access"
  end.
Definition refresh (chip_locations : gmap Z EthCoord) (to_mmio : gmap Z Z) (comms : gmap Z Z) (e : EthernetBroadcast)
  : EthernetBroadcast :=
  MkBroadcast (single_remote_chip e) chip_locations to_mmio comms ∅.

Definition set_cache (chips : gset Z) (hs : Headers) (e : EthernetBroadcast) : EthernetBroadcast :=
  MkBroadcast (single_remote_chip e) (bc_chip_locations e) (chip_to_mmio_chip e) (mmio_remote_comms e)
    (<[chips := hs]> (bcast_header_cache e)).

(** ** Headers *)

(** The masks of the target chips (by place in the shelf) of one MMIO chip. *)
Abbreviation Masks := (gmap Z Header).

Definition chip_mask (c : EthCoord) : result (Z * Z * Z) :=
  eight_x ← as_int (8 * ec_x c);
  physical_chip_id ← as_int (eight_x + ec_y c);
  let rack_word := u32 (Z.shiftr (ec_rack c) 2) in
  let rack_byte := u32 (Z.rem (ec_rack c) 4) in
  Ok (physical_chip_id, rack_word, rack_byte).

Definition first_mask (c : EthCoord) (physical_chip_id rack_word rack_byte : Z) : result Header :=
  s ← int_shl 1 (ec_shelf c);
  bits ← int_shl s rack_byte;
  m ← or_at rack_word bits (replicate 8 0);
  t ← int_shl 1 physical_chip_id;
  or_at 3 t m.
Definition further_mask (c : EthCoord) (rack_word rack_byte : Z) (m : Header) : result Header :=
  s ← int_shl 1 (ec_shelf c);
  bits ← uint_shl (u32 s) rack_byte;
  or_at rack_word bits m.

(** One target chip of the 1st level grouping. *)
Definition add_target (e : EthernetBroadcast) (chips_to_exclude : gset Z) (entry : Z * Z) (groups : gmap Z Masks)
  : result (gmap Z Masks) :=
  let '(chip, closest_mmio_chip) := entry in
  if bool_decide (chip ∈ chips_to_exclude) then Ok groups
  else
    match bc_chip_locations e !! chip with
    | None => Err OutOfRange
    | Some c =>
        '(physical_chip_id, rack_word, rack_byte) ← chip_mask c;
        let masks := default ∅ (groups !! closest_mmio_chip) in
        m ← match masks !! physical_chip_id with
            | None => first_mask c physical_chip_id rack_word rack_byte
            | Some m => further_mask c rack_word rack_byte m
            end;
        Ok (<[closest_mmio_chip := <[physical_chip_id := m]> masks]> groups)
    end.

(** The std::map of the 2nd level grouping, and its entries in key order. *)
Abbreviation Unions := (gmap (list Z) (Z * Header)).
Fixpoint lex_leb (a b : list Z) : bool :=
  match a, b with
  | [], _ => true
  | _ :: _, [] => false
  | x :: a, y :: b => (x <? y) || (x =? y) && lex_leb a b
  end.
Definition in_key_order (u : Unions) : list (list Z * (Z * Header)) :=
  merge_sort (λ p q, Is_true (lex_leb p.1 q.1)) (map_to_list u).

Definition add_union (mmio_chip : Z) (mask : Header) (u : Unions) : result Unions :=
  w0 ← vec_at mask 0; w1 ← vec_at mask 1; w2 ← vec_at mask 2;
  let header_hash := [mmio_chip; w0; w1; w2] in
  match u !! header_hash with
  | None => Ok (<[header_hash := (mmio_chip, mask)]> u)
  | Some (m, h) => w3 ← vec_at mask 3; h ← or_at 3 w3 h; Ok (<[header_hash := (m, h)]> u)
  end.

Definition push_header (entry : Z * Header) (hs : Headers) : Headers :=
  <[entry.1 := default [] (hs !! entry.1) ++ [entry.2]]> hs.

(** The first four words are inverted. *)
Definition invert_header (h : Header) : Header := map Z.lnot (take 4 h) ++ drop 4 h.

Section Headers.
Context `{Unordered}.

Definition make_headers (e : EthernetBroadcast) (chips_to_exclude : gset Z) : result Headers :=
  groups ← for_each (map_iter (chip_to_mmio_chip e)) (add_target e chips_to_exclude) ∅;
  unions ← for_each (map_iter groups)
    (λ '(mmio_chip, masks), for_each (map_iter masks) (λ '(_, mask), add_union mmio_chip mask)) ∅;
  let headers := foldl (λ hs '(_, entry), push_header entry hs) ∅ (in_key_order unions) in
  Ok (map invert_header <$> headers).

Definition get_ethernet_broadcast_headers (e : EthernetBroadcast) (chips_to_exclude : gset Z)
  : result (Headers * EthernetBroadcast) :=
  match bcast_header_cache e !! chips_to_exclude with
  | Some headers => Ok (headers, e)
  | None =>
      headers ← make_headers e chips_to_exclude;
      Ok (headers, set_cache chips_to_exclude headers e)
  end.

(** ** Writes *)

(** A call of [write_to_non_mmio] in broadcast mode. *)
Record Command := MkCommand { cmd_comm : Z; cmd_data : list Z; cmd_address : Z; cmd_header : Header }.

(** [mask |= 1 << (offset + i)] for the elements of a set. *)
Definition exclusion_mask (offset : Z) (excluded : gset Z) : result Z :=
  for_each (elements excluded) (λ i mask, b ← int_shl 1 (u32 (offset + i)); Ok (u32 (Z.lor mask b))) 0.

(** [header.at(4)] with the masks. *)
Definition set_exclusion (use_translated_coords : bool) (row_exclusion_mask col_exclusion_mask : Z) (h : Header)
  : result Header :=
  _ ← vec_at h 4;
  Ok (<[4%nat := i32 (Z.lor (Z.lor (if use_translated_coords then 0x8000 else 0) row_exclusion_mask) col_exclusion_mask)]> h).

(** The commands of one MMIO chip. The cached headers keep the exclusion masks. *)
Definition write_group (data : list Z) (address : Z) (chips_to_exclude : gset Z) (use_translated_coords : bool)
    (row_exclusion_mask col_exclusion_mask : Z) (group : Z * list Header) (st : list Command * EthernetBroadcast)
  : result (list Command * EthernetBroadcast) :=
  let '(mmio_chip, hs) := group in
  let '(sent, e) := st in
  '(sent, hs') ← for_each hs
    (λ h '(sent, hs'),
       h' ← set_exclusion use_translated_coords row_exclusion_mask col_exclusion_mask h;
       match mmio_remote_comms e !! mmio_chip with
       | None => Err OutOfRange
       | Some comm => Ok (sent ++ [MkCommand comm data address h'], hs' ++ [h'])
       end) (sent, []);
  let cached := default ∅ (bcast_header_cache e !! chips_to_exclude) in
  Ok (sent, set_cache chips_to_exclude (<[mmio_chip := hs']> cached) e).

(** Appends the commands to those that have been sent. *)
Definition ethernet_broadcast_write (data : list Z) (address : Z) (chips_to_exclude rows_to_exclude cols_to_exclude : gset Z)
    (use_translated_coords : bool) (st : list Command * EthernetBroadcast) : result (list Command * EthernetBroadcast) :=
  let '(sent, e) := st in
  '(headers, e) ← get_ethernet_broadcast_headers e chips_to_exclude;
  row_exclusion_mask ← exclusion_mask 0 rows_to_exclude;
  col_exclusion_mask ← exclusion_mask 16 cols_to_exclude;
  for_each (map_iter headers)
    (write_group data address chips_to_exclude use_translated_coords row_exclusion_mask col_exclusion_mask) (sent, e).
End Headers.

(** ** Exclusion by rows and columns *)

Definition translated_row_end : Z := wormhole.translated_coordinate_start_y + vec_size wormhole.TRANSLATED_TO_VIRTUAL_Y.
Definition translated_col_end : Z := wormhole.translated_coordinate_start_x + vec_size wormhole.TRANSLATED_TO_VIRTUAL_X.

(** The excluded rows (columns) lie in the coordinate space. *)
Definition check_space (start stop : Z) (use_translated_coords : bool) (what : string) (excluded : gset Z) : result unit :=
  for_each (elements excluded) (λ i _,
    umd_assert (if use_translated_coords then (start <=? i) && (i <? stop) else i <? start)
      (what +:+ " " +:+ to_string i +:+
       (if use_translated_coords then " must be in translated coordinate space." else " must be in NOC0 coordinate space."))) tt.

Definition to_virtual (start : Z) (table : list Z) (use_translated_coords : bool) (excluded : gset Z) : result (gset Z) :=
  for_each (elements excluded) (λ i s,
    v ← (if use_translated_coords then vec_at table (i - start) else Ok i); Ok ({[ v ]} ∪ s)) ∅.

(** Rows and columns of the virtual space. *)
Definition adjust_coordinates_for_ethernet_broadcast (rows_to_exclude columns_to_exclude : gset Z) (use_translated_coords : bool)
  : result (gset Z * gset Z) :=
  check_space wormhole.translated_coordinate_start_y translated_row_end use_translated_coords "Row" rows_to_exclude;;
  check_space wormhole.translated_coordinate_start_x translated_col_end use_translated_coords "Col" columns_to_exclude;;
  rows ← to_virtual wormhole.translated_coordinate_start_y wormhole.TRANSLATED_TO_VIRTUAL_Y use_translated_coords rows_to_exclude;
  cols ← to_virtual wormhole.translated_coordinate_start_x wormhole.TRANSLATED_TO_VIRTUAL_X use_translated_coords columns_to_exclude;
  Ok (rows, cols).

Definition tensix_or_eth_in_broadcast (cols_to_exclude : gset Z) : bool :=
  foldl (λ found col, found || bool_decide (col ∉ cols_to_exclude)) false wormhole.T6_X_LOCATIONS.

Definition valid_tensix_broadcast_grid (rows_to_exclude : gset Z) : bool :=
  let '(complete, empty) := foldl (λ '(complete, empty) row,
    (complete && bool_decide (row ∉ rows_to_exclude), empty && bool_decide (row ∈ rows_to_exclude)))
    (true, true) wormhole.T6_Y_LOCATIONS in
  complete || empty.

Definition unsafe_rows : gset Z := {[ 2; 3; 4; 8; 9; 10 ]}.

Section Broadcast.
Context `{Unordered}.

Definition broadcast_write_to_cluster (data : list Z) (address : Z) (chips_to_exclude rows_to_exclude columns_to_exclude : gset Z)
    (use_translated_coords : bool) (st : list Command * EthernetBroadcast) : result (list Command * EthernetBroadcast) :=
  umd_assert (negb (single_remote_chip st.2) || bool_decide (chips_to_exclude = ∅))
    "chips_to_exclude must be empty when EthernetBroadcast is constructed for a single remote chip.";;
  '(rows, cols) ← adjust_coordinates_for_ethernet_broadcast rows_to_exclude columns_to_exclude use_translated_coords;
  if bool_decide (0 ∉ cols) || bool_decide (5 ∉ cols) then
    umd_assert (negb (tensix_or_eth_in_broadcast cols))
      "Cannot broadcast to tensix/ethernet and DRAM simultaneously on Wormhole.";;
    st ← (if bool_decide (0 ∉ cols) then
            ethernet_broadcast_write data address chips_to_exclude (rows ∪ unsafe_rows) (cols ∪ {[ 5 ]}) false st
          else Ok st);
    if bool_decide (5 ∉ cols) then
      ethernet_broadcast_write data address chips_to_exclude rows (cols ∪ {[ 0 ]}) false st
    else Ok st
  else
    umd_assert (use_translated_coords || valid_tensix_broadcast_grid rows)
      "Must broadcast to all tensix rows when using noc0 coordinates.";;
    ethernet_broadcast_write data address chips_to_exclude rows cols use_translated_coords st.
End Broadcast.
