(* ===== verification/EthHeaders.v ===== *)
(** * EthHeaders

    The broadcast headers select exactly the rack words, bits and places of the
    chips that are not excluded: the two levels of grouping lose none and add
    none. These do not tell all coordinates apart. *)

From Stdlib Require Import ZArith Lia.
From stdpp Require Import base list numbers strings gmap sets sorting.
From S2P Require Import Prelude CoreTypes ArchData BoardTypes ClusterState EthBroadcast.

Local Open Scope Z_scope.

(** ** Words and bits *)

Definition word (h : Header) (i : nat) : Z := nth i h 0.
(** A bit of a word. *)
Definition bit (h : Header) (i : nat) (b : Z) : bool := Z.testbit (word h i) b.

Lemma i32_testbit z b : 0 ≤ b < 32 → Z.testbit (i32 z) b = Z.testbit z b.
Proof.
  intros Hb. rewrite <- (Z.mod_pow2_bits_low (i32 z) 32), <- (Z.mod_pow2_bits_low z 32) by lia. f_equal.
  unfold i32. rewrite Zminus_mod_idemp_l. f_equal. lia.
Qed.
Lemma u32_testbit z b : 0 ≤ b < 32 → Z.testbit (u32 z) b = Z.testbit z b.
Proof. intros Hb. unfold u32. by rewrite Z.mod_pow2_bits_low by lia. Qed.

Lemma int_shl_1 n : 0 ≤ n < 31 → int_shl 1 n = Ok (2 ^ n).
Proof.
  intros Hn. assert (2 ^ n ≤ 2 ^ 30) by (apply Z.pow_le_mono_r; lia). pose proof (Z.pow_pos_nonneg 2 n).
  unfold int_shl. rewrite bool_decide_eq_true_2 by lia. f_equal. unfold i32. rewrite Z.mod_small by lia. lia.
Qed.
Lemma int_shl_testbit n : 0 ≤ n < 32 → ∃ v, int_shl 1 n = Ok v ∧ ∀ b, 0 ≤ b < 32 → Z.testbit v b = bool_decide (b = n).
Proof.
  intros Hn. assert (2 ^ n ≤ 2 ^ 31) by (apply Z.pow_le_mono_r; lia). pose proof (Z.pow_pos_nonneg 2 n).
  unfold int_shl. rewrite bool_decide_eq_true_2 by lia. eexists. split; [done|]. intros b Hb.
  rewrite i32_testbit, Z.mul_1_l, Z.pow2_bits_eqb by lia. destruct (Z.eqb_spec n b); case_bool_decide; done || lia.
Qed.

Lemma or_at_spec i bits v :
  0 ≤ i < 8 → length v = 8%nat →
  ∃ v', or_at i bits v = Ok v' ∧ length v' = 8%nat ∧ (∀ j, j ≠ Z.to_nat i → word v' j = word v j) ∧
    ∀ b, 0 ≤ b < 32 → bit v' (Z.to_nat i) b = bit v (Z.to_nat i) b || Z.testbit bits b.
Proof.
  intros Hi Hv. destruct (vec_lookup v i) as [a Ha]; [unfold vec_size; lia|].
  unfold or_at. rewrite (vec_at_Some _ _ _ Ha). cbn [mbind result_bind]. eexists. split; [done|].
  split; [by rewrite length_insert|]. split.
  - intros j Hj. unfold word. rewrite !nth_lookup, list_lookup_insert_ne by done. done.
  - intros b Hb. unfold bit, word. rewrite !nth_lookup, list_lookup_insert_eq, Ha by lia. cbn.
    by rewrite i32_testbit, Z.lor_spec by lia.
Qed.

(** ** The place of a chip *)

(** Its word (the rack divided by 4), its bit in that word, its place in the shelf. *)
Definition rack_of (c : EthCoord) : Z := ec_rack c `div` 4.
Definition shelf_bit (c : EthCoord) : Z := ec_shelf c + ec_rack c `mod` 4.
Definition place_of (c : EthCoord) : Z := 8 * ec_x c + ec_y c.

(** A header does not tell all coordinates apart. *)
Definition same_coordinates (c c' : EthCoord) : Prop :=
  ec_x c = ec_x c' ∧ ec_y c = ec_y c' ∧ ec_rack c = ec_rack c' ∧ ec_shelf c = ec_shelf c'.
Definition same_bits (c c' : EthCoord) : Prop := rack_of c = rack_of c' ∧ shelf_bit c = shelf_bit c' ∧ place_of c = place_of c'.
Definition aliased (c c' : EthCoord) : Prop := same_bits c c' ∧ ¬ same_coordinates c c'.
#[export] Instance same_coordinates_dec c c' : Decision (same_coordinates c c').
Proof. unfold same_coordinates. apply _. Defined.
Lemma same_bits_cases c c' : same_bits c c' ↔ same_coordinates c c' ∨ aliased c c'.
Proof.
  unfold aliased. destruct (decide (same_coordinates c c')) as [H|H]; [|tauto]. split; [by left|]. intros _.
  destruct H as (Hx & Hy & Hr & Hs). unfold same_bits, rack_of, shelf_bit, place_of. by rewrite Hx, Hy, Hr, Hs.
Qed.
(** In one rack, on shelves of eight rows, no coordinates are taken for others. *)
Lemma one_rack_not_aliased c c' :
  ec_rack c = ec_rack c' → 0 ≤ ec_y c < 8 → 0 ≤ ec_y c' < 8 → ¬ aliased c c'.
Proof.
  intros Hr Hy Hy' [(_ & Hs & Hp) Hn]. apply Hn. unfold shelf_bit, place_of in *. rewrite Hr in Hs.
  unfold same_coordinates. split_and!; lia.
Qed.

(** The coordinates that fit a header: racks in words 0 to 2, bits of 32. *)
Definition fits (c : EthCoord) : Prop :=
  0 ≤ ec_rack c < 12 ∧ 0 ≤ ec_shelf c < 31 ∧ shelf_bit c < 32 ∧ 0 ≤ ec_x c ∧ 0 ≤ ec_y c ∧ place_of c < 32.

Lemma fits_ranges c : fits c → 0 ≤ rack_of c < 3 ∧ 0 ≤ shelf_bit c < 32 ∧ 0 ≤ place_of c < 32.
Proof.
  unfold fits, shelf_bit, rack_of, place_of. intros H. pose proof (Z.mod_pos_bound (ec_rack c) 4 ltac:(lia)).
  split; [|lia]. split; [apply Z.div_pos; lia|apply Z.div_lt_upper_bound; lia].
Qed.

(** A mask selects the words and bits [T], and one place. *)
Record mask_of (T : Z → Z → Prop) (p : Z) (m : Header) : Prop := {
  mo_length : length m = 8%nat;
  mo_racks : ∀ r b, 0 ≤ r < 3 → 0 ≤ b < 32 → bit m (Z.to_nat r) b = true ↔ T r b;
  mo_place : ∀ p', 0 ≤ p' < 32 → bit m 3 p' = true ↔ p' = p;
  mo_rest : ∀ i, (4 ≤ i < 8)%nat → word m i = 0
}.

Lemma mask_of_ext T T' p m : (∀ r b, T r b ↔ T' r b) → mask_of T p m → mask_of T' p m.
Proof. intros HT [? Hr ? ?]. split; try done. intros r b Hr' Hb. by rewrite Hr, HT. Qed.

Lemma chip_mask_ok c : fits c → chip_mask c = Ok (place_of c, rack_of c, ec_rack c `mod` 4).
Proof.
  intros Hc. pose proof (fits_ranges c Hc). unfold fits, place_of in *. unfold chip_mask, as_int.
  rewrite !bool_decide_eq_true_2 by lia. cbn [mbind result_bind]. rewrite bool_decide_eq_true_2 by lia.
  cbn [mbind result_bind]. unfold place_of, rack_of in *. rewrite Z.shiftr_div_pow2 by lia. change (2 ^ 2) with 4.
  rewrite u32_small by lia. rewrite Z.rem_mod_nonneg by lia. rewrite u32_small; [done|].
  pose proof (Z.mod_pos_bound (ec_rack c) 4). lia.
Qed.

Lemma shelf_shift c :
  fits c → int_shl 1 (ec_shelf c) = Ok (2 ^ ec_shelf c) ∧ 0 ≤ 2 ^ ec_shelf c < 2 ^ 32 ∧
    2 ^ ec_shelf c * 2 ^ (ec_rack c `mod` 4) = 2 ^ shelf_bit c ∧ 0 ≤ ec_rack c `mod` 4 < 4.
Proof.
  intros (Hr & Hs & Hb & _). pose proof (Z.mod_pos_bound (ec_rack c) 4 ltac:(lia)).
  assert (2 ^ ec_shelf c ≤ 2 ^ 30) by (apply Z.pow_le_mono_r; lia). pose proof (Z.pow_pos_nonneg 2 (ec_shelf c)).
  split; [by apply int_shl_1|]. split; [lia|]. split; [|done]. unfold shelf_bit. by rewrite Z.pow_add_r by lia.
Qed.

Lemma word_replicate i : word (replicate 8 0) i = 0.
Proof. unfold word. do 8 (destruct i as [|i]; [done|]). by destruct i. Qed.

Lemma first_mask_ok c :
  fits c → ∃ m, first_mask c (place_of c) (rack_of c) (ec_rack c `mod` 4) = Ok m ∧
    mask_of (λ r b, r = rack_of c ∧ b = shelf_bit c) (place_of c) m.
Proof.
  intros Hc. destruct (fits_ranges c Hc) as (Hr & Hb & Hp). destruct (shelf_shift c Hc) as (Hs & Hlt & Hpow & Hrb).
  unfold first_mask. rewrite Hs. cbn [mbind result_bind].
  assert (2 ^ shelf_bit c < 2 ^ 32) by (apply Z.pow_lt_mono_r; lia).
  assert (int_shl (2 ^ ec_shelf c) (ec_rack c `mod` 4) = Ok (i32 (2 ^ shelf_bit c))) as ->.
  { unfold int_shl. rewrite Hpow. by rewrite bool_decide_eq_true_2 by lia. }
  cbn [mbind result_bind].
  destruct (or_at_spec (rack_of c) (i32 (2 ^ shelf_bit c)) (replicate 8 0)) as (m1 & -> & Hl1 & Ho1 & Hb1); [lia|done|].
  cbn [mbind result_bind]. destruct (int_shl_testbit (place_of c) Hp) as (t & -> & Ht). cbn [mbind result_bind].
  destruct (or_at_spec 3 t m1) as (m & -> & Hl & Ho & Hb3); [lia|done|]. change (Z.to_nat 3) with 3%nat in *.
  exists m. split; [done|]. split; [done| | |].
  - intros r b Hr' Hb'. unfold bit. rewrite Ho by lia. destruct (decide (r = rack_of c)) as [->|Hne].
    + fold (bit m1 (Z.to_nat (rack_of c)) b). rewrite Hb1, i32_testbit by lia. unfold bit. rewrite word_replicate, Z.bits_0.
      cbn [orb]. rewrite Z.pow2_bits_eqb, Z.eqb_eq by lia. naive_solver.
    + rewrite Ho1 by lia. rewrite word_replicate, Z.bits_0. naive_solver.
  - intros p' Hp'. rewrite Hb3 by done. unfold bit. rewrite Ho1, word_replicate, Z.bits_0 by lia. cbn [orb].
    rewrite Ht by done. by rewrite bool_decide_eq_true.
  - intros i Hi. rewrite Ho, Ho1 by lia. apply word_replicate.
Qed.

Lemma further_mask_ok c T m :
  fits c → mask_of T (place_of c) m →
  ∃ m', further_mask c (rack_of c) (ec_rack c `mod` 4) m = Ok m' ∧
    mask_of (λ r b, T r b ∨ (r = rack_of c ∧ b = shelf_bit c)) (place_of c) m'.
Proof.
  intros Hc [Hl HT Hp Hrest]. destruct (fits_ranges c Hc) as (Hr & Hb & Hpl).
  destruct (shelf_shift c Hc) as (Hs & Hlt & Hpow & Hrb).
  unfold further_mask. rewrite Hs. cbn [mbind result_bind].
  unfold uint_shl. rewrite bool_decide_eq_true_2 by lia. cbn [mbind result_bind].
  rewrite (u32_small (2 ^ ec_shelf c)), Hpow by lia.
  destruct (or_at_spec (rack_of c) (u32 (2 ^ shelf_bit c)) m) as (m' & -> & Hl' & Ho & Hb'); [lia|done|].
  exists m'. split; [done|]. split; [done| | |].
  - intros r b Hr' Hbb. destruct (decide (r = rack_of c)) as [->|Hne].
    + rewrite Hb', u32_testbit, orb_true_iff, HT, Z.pow2_bits_eqb, Z.eqb_eq by lia. naive_solver.
    + unfold bit. rewrite Ho by lia. fold (bit m (Z.to_nat r) b). rewrite HT by done. naive_solver.
  - intros p' Hp'. unfold bit. rewrite Ho by lia. by apply Hp.
  - intros i Hi. rewrite Ho by lia. by apply Hrest.
Qed.

(** ** 1st level: by MMIO chip and place *)

Section Groups.
Context (e : EthernetBroadcast) (excl : gset Z).

(** A chip of the list that is a target: its MMIO chip, rack word, bit and place. *)
Definition target_in (chips : list (Z * Z)) (m r b p : Z) : Prop :=
  ∃ chip c, (chip, m) ∈ chips ∧ chip ∉ excl ∧ bc_chip_locations e !! chip = Some c ∧
    r = rack_of c ∧ b = shelf_bit c ∧ p = place_of c.

Record groups_ok (chips : list (Z * Z)) (g : gmap Z Masks) : Prop := {
  gr_masks m masks p mask : g !! m = Some masks → masks !! p = Some mask →
    0 ≤ p < 32 ∧ mask_of (λ r b, target_in chips m r b p) p mask;
  gr_complete m r b p : target_in chips m r b p → ∃ masks, g !! m = Some masks ∧ is_Some (masks !! p);
  gr_used m masks p mask : g !! m = Some masks → masks !! p = Some mask → ∃ r b, target_in chips m r b p
}.

Lemma target_in_app chips chip m m' r b p :
  target_in (chips ++ [(chip, m)]) m' r b p ↔
  target_in chips m' r b p ∨ (m' = m ∧ target_in [(chip, m)] m r b p).
Proof.
  unfold target_in. setoid_rewrite elem_of_app. setoid_rewrite list_elem_of_singleton. naive_solver.
Qed.

Lemma target_in_one chip m r b p c :
  chip ∉ excl → bc_chip_locations e !! chip = Some c →
  target_in [(chip, m)] m r b p ↔ r = rack_of c ∧ b = shelf_bit c ∧ p = place_of c.
Proof.
  intros Hx Hc. unfold target_in. setoid_rewrite list_elem_of_singleton. split.
  - intros (chip' & c' & [= ->] & _ & Hc' & ?). by simplify_eq.
  - intros (-> & -> & ->). by exists chip, c.
Qed.

Lemma add_target_ok chips chip m g :
  groups_ok chips g → (chip ∉ excl → ∃ c, bc_chip_locations e !! chip = Some c ∧ fits c) →
  ∃ g', add_target e excl (chip, m) g = Ok g' ∧ groups_ok (chips ++ [(chip, m)]) g'.
Proof.
  intros [Hm Hcompl Hused] Hfit. unfold add_target. case_bool_decide as Hx.
  { exists g. split; [done|].
    assert (∀ m' r b p, target_in (chips ++ [(chip, m)]) m' r b p ↔ target_in chips m' r b p) as Heq.
    { intros. rewrite target_in_app. split; [|by left]. intros [?|[_ (chip' & c & Hin & Hn & _)]]; [done|].
      apply list_elem_of_singleton in Hin as [= ->]. done. }
    split.
    - intros m' masks p mask Hg Hp. destruct (Hm _ _ _ _ Hg Hp) as [? ?]. split; [done|].
      eapply mask_of_ext; [|done]. intros r b. by rewrite Heq.
    - intros m' r b p Ht. apply (Hcompl m' r b). by apply Heq.
    - intros m' masks p mask Hg Hp. destruct (Hused _ _ _ _ Hg Hp) as (r & b & Ht). exists r, b. by apply Heq. }
  destruct (Hfit Hx) as (c & Hc & Hf). rewrite Hc, (chip_mask_ok c Hf). cbn [mbind result_bind].
  destruct (fits_ranges c Hf) as (_ & _ & Hpl).
  pose proof (λ r b p, target_in_one chip m r b p c Hx Hc) as Hone.
  set (masks := default ∅ (g !! m)).
  assert (∀ p mask, masks !! p = Some mask → 0 ≤ p < 32 ∧ mask_of (λ r b, target_in chips m r b p) p mask) as Hmasks.
  { intros p mask Hp. unfold masks in Hp. destruct (g !! m) as [ms|] eqn:E; cbn in Hp; [by eapply Hm|].
    by rewrite lookup_empty in Hp. }
  assert (∃ mask, match masks !! place_of c with
      | None => first_mask c (place_of c) (rack_of c) (ec_rack c `mod` 4)
      | Some m => further_mask c (rack_of c) (ec_rack c `mod` 4) m
      end = Ok mask ∧ mask_of (λ r b, target_in (chips ++ [(chip, m)]) m r b (place_of c)) (place_of c) mask)
    as (mask & -> & Hmask).
  { destruct (masks !! place_of c) as [m0|] eqn:E.
    - destruct (Hmasks _ _ E) as [_ Hm0]. destruct (further_mask_ok c _ m0 Hf Hm0) as (m' & -> & Hm').
      exists m'. split; [done|]. eapply mask_of_ext; [|done]. intros r b. rewrite target_in_app, Hone. naive_solver.
    - destruct (first_mask_ok c Hf) as (m' & -> & Hm'). exists m'. split; [done|].
      eapply mask_of_ext; [|done]. intros r b. rewrite target_in_app, Hone. split; [naive_solver|].
      intros [Ht|?]; [|naive_solver]. exfalso. destruct (Hcompl _ _ _ _ Ht) as (ms & Hg & Hs).
      unfold masks in E. rewrite Hg in E. cbn in E. rewrite E in Hs. by destruct Hs. }
  cbn [mbind result_bind]. eexists. split; [done|]. split.
  - intros m' masks' p mask'. rewrite lookup_insert. case_decide as Hmm; [subst m'|].
    + intros [= <-]. rewrite lookup_insert. case_decide as Hpp; [subst p|].
      * intros [= <-]. done.
      * intros Hp. destruct (Hmasks _ _ Hp) as [? Hok]. split; [done|]. eapply mask_of_ext; [|done].
        intros r b. rewrite target_in_app, Hone. naive_solver.
    + intros Hg Hp. destruct (Hm _ _ _ _ Hg Hp) as [? Hok]. split; [done|]. eapply mask_of_ext; [|done].
      intros r b. rewrite target_in_app. naive_solver.
  - intros m' r b p Ht. rewrite target_in_app in Ht. rewrite lookup_insert. case_decide as Hmm; [subst m'|].
    + eexists. split; [done|]. rewrite lookup_insert. case_decide as Hpp; [by eexists|].
      destruct Ht as [Ht|[_ Ht]]; [|rewrite Hone in Ht; naive_solver].
      destruct (Hcompl _ _ _ _ Ht) as (ms & Hg & Hs). unfold masks. by rewrite Hg.
    + destruct Ht as [Ht|[-> _]]; [by eapply Hcompl|done].
  - intros m' masks' p mask'. rewrite lookup_insert. case_decide as Hmm; [subst m'|].
    + intros [= <-]. rewrite lookup_insert. case_decide as Hpp; [subst p|].
      * intros _. exists (rack_of c), (shelf_bit c). rewrite target_in_app, Hone. auto.
      * intros Hp. unfold masks in Hp. destruct (g !! m) as [ms|] eqn:E; cbn in Hp; [|by rewrite lookup_empty in Hp].
        destruct (Hused _ _ _ _ E Hp) as (r & b & Ht). exists r, b. rewrite target_in_app. by left.
    + intros Hg Hp. destruct (Hused _ _ _ _ Hg Hp) as (r & b & Ht). exists r, b. rewrite target_in_app. by left.
Qed.
End Groups.

(** ** 2nd level: by racks and shelves *)

(** The words that select racks and shelves. *)
Definition racks_words (h : Header) : list Z := [word h 0; word h 1; word h 2].

(** [seen m p mask]: the masks grouped so far. *)
Record unions_ok (seen : Z → Z → Header → Prop) (u : Unions) : Prop := {
  un_entry k m h : u !! k = Some (m, h) →
    k = m :: racks_words h ∧ length h = 8%nat ∧ (∀ i, (4 ≤ i < 8)%nat → word h i = 0) ∧
    ∀ p, 0 ≤ p < 32 → bit h 3 p = true ↔ ∃ p' mask, seen m p' mask ∧ racks_words mask = racks_words h ∧ bit mask 3 p = true;
  un_complete m p mask : seen m p mask → ∃ h, u !! (m :: racks_words mask) = Some (m, h);
  un_used k m h : u !! k = Some (m, h) → ∃ p mask, seen m p mask ∧ racks_words mask = racks_words h
}.

Lemma unions_ok_ext (seen seen' : Z → Z → Header → Prop) u :
  (∀ m p mask, seen m p mask ↔ seen' m p mask) → unions_ok seen u → unions_ok seen' u.
Proof.
  intros Hs [He Hc Hu]. split.
  - intros k m h Hk. destruct (He k m h Hk) as (? & ? & ? & Hb). split_and!; try done. intros p Hp. rewrite (Hb p Hp).
    setoid_rewrite <- Hs. done.
  - intros m p mask Hm. apply (Hc m p). by apply Hs.
  - intros k m h Hk. destruct (Hu k m h Hk) as (p & mask & Hm & Hr). exists p, mask. by rewrite <- Hs.
Qed.

Lemma vec_at_word h i : length h = 8%nat → 0 ≤ i < 8 → vec_at h i = Ok (word h (Z.to_nat i)).
Proof.
  intros Hl Hi. destruct (vec_lookup h i) as [a Ha]; [unfold vec_size; lia|]. rewrite (vec_at_Some _ _ _ Ha).
  unfold word. by rewrite nth_lookup, Ha.
Qed.

Lemma add_union_ok seen m p mask u :
  unions_ok seen u → length mask = 8%nat → (∀ i, (4 ≤ i < 8)%nat → word mask i = 0) →
  ∃ u', add_union m mask u = Ok u' ∧ unions_ok (λ m' p' mask', seen m' p' mask' ∨ (m' = m ∧ p' = p ∧ mask' = mask)) u'.
Proof.
  intros [He Hc Hus] Hl Hz. unfold add_union. rewrite !vec_at_word by (done || lia). cbn [mbind result_bind].
  change [m; word mask (Z.to_nat 0); word mask (Z.to_nat 1); word mask (Z.to_nat 2)] with (m :: racks_words mask).
  destruct (u !! (m :: racks_words mask)) as [[m0 h]|] eqn:E.
  - destruct (He _ _ _ E) as (Hk & Hlh & Hzh & Hb). injection Hk as <- Hw0 Hw1 Hw2.
    destruct (or_at_spec 3 (word mask (Z.to_nat 3)) h) as (h' & -> & Hl' & Ho & Hb'); [lia|done|]. cbn [mbind result_bind].
    change (Z.to_nat 3) with 3%nat in *.
    assert (racks_words h' = racks_words h) as Hr by (unfold racks_words; by rewrite !Ho by lia).
    assert (racks_words h = racks_words mask) as Hr' by (unfold racks_words; congruence).
    eexists. split; [done|]. split.
    + intros k m' h0. rewrite lookup_insert. case_decide as Hkk.
      * subst k. intros [= <- <-]. split; [congruence|]. split; [done|]. split; [intros i Hi; rewrite Ho by lia; by apply Hzh|].
        intros p0 Hp0. rewrite Hb', orb_true_iff, Hb, Hr by done. change (Z.testbit (word mask 3) p0) with (bit mask 3 p0).
        split.
        { intros [(p' & mask' & ? & ? & ?)|Hbit]; [exists p', mask'; auto|exists p, mask; auto]. }
        intros (p' & mask' & [Hs|(_ & -> & ->)] & Hrw & Hbit); [left; eauto|by right].
      * intros Hk. destruct (He _ _ _ Hk) as (-> & ? & ? & Hb0). split_and!; try done. intros p0 Hp0. rewrite Hb0 by done.
        split; [intros (p' & mask' & ? & ? & ?); exists p', mask'; auto|].
        intros (p' & mask' & [Hs|(-> & -> & ->)] & Hrw & Hbit); [eauto|]. by rewrite Hrw in Hkk.
    + intros m' p' mask' Hs. rewrite lookup_insert. case_decide as Hkk; [by injection Hkk as ->; eauto|].
      destruct Hs as [Hs|(-> & -> & ->)]; [by eapply Hc|done].
    + intros k m' h0. rewrite lookup_insert. case_decide as Hkk.
      * intros [= <- <-]. exists p, mask. rewrite Hr, Hr'. auto.
      * intros Hk. destruct (Hus _ _ _ Hk) as (p0 & mask0 & ? & ?). exists p0, mask0. auto.
  - eexists. split; [done|]. split.
    + intros k m' h0. rewrite lookup_insert. case_decide as Hkk.
      * subst k. intros [= <- <-]. split_and!; try done. intros p0 Hp0. split.
        { intros Hbit. exists p, mask. auto. }
        intros (p' & mask' & [Hs|(_ & -> & ->)] & Hrw & Hbit); [|done].
        exfalso. destruct (Hc _ _ _ Hs) as [h Hh]. rewrite Hrw in Hh. congruence.
      * intros Hk. destruct (He _ _ _ Hk) as (-> & ? & ? & Hb0). split_and!; try done. intros p0 Hp0. rewrite Hb0 by done.
        split; [intros (p' & mask' & ? & ? & ?); exists p', mask'; auto|].
        intros (p' & mask' & [Hs|(-> & -> & ->)] & Hrw & Hbit); [eauto|]. by rewrite Hrw in Hkk.
    + intros m' p' mask' Hs. rewrite lookup_insert. case_decide as Hkk; [by injection Hkk as ->; eauto|].
      destruct Hs as [Hs|(-> & -> & ->)]; [by eapply Hc|done].
    + intros k m' h0. rewrite lookup_insert. case_decide as Hkk.
      * intros [= <- <-]. exists p, mask. auto.
      * intros Hk. destruct (Hus _ _ _ Hk) as (p0 & mask0 & ? & ?). exists p0, mask0. auto.
Qed.

(** ** The headers of an MMIO chip *)

Lemma in_key_order_perm (u : Unions) : in_key_order u ≡ₚ map_to_list u.
Proof. apply merge_sort_Permutation. Qed.

Lemma in_key_order_lookup (u : Unions) k v : (k, v) ∈ in_key_order u ↔ u !! k = Some v.
Proof. by rewrite in_key_order_perm, elem_of_map_to_list. Qed.

(** The entries of an MMIO chip, in key order. *)
Definition entries_of (m : Z) (l : list (list Z * (Z * Header))) : list (list Z * (Z * Header)) :=
  filter (λ x, x.2.1 = m) l.

Lemma push_headers_spec (l : list (list Z * (Z * Header))) hs m :
  default [] (foldl (λ hs '(_, entry), push_header entry hs) hs l !! m) =
  default [] (hs !! m) ++ map (λ x, x.2.2) (entries_of m l).
Proof.
  revert hs. induction l as [|[k [m0 h]] l IH]; intros hs; [by rewrite app_nil_r|].
  cbn [foldl]. rewrite IH. unfold entries_of, push_header. cbn [fst snd]. rewrite filter_cons, lookup_insert.
  cbn [fst snd]. destruct (decide (m0 = m)) as [->|Hne]; [|done]. cbn. by rewrite <- app_assoc.
Qed.

Lemma push_headers_nonempty (l : list (list Z * (Z * Header))) hs m :
  hs !! m ≠ Some [] → foldl (λ hs '(_, entry), push_header entry hs) hs l !! m ≠ Some [].
Proof.
  revert hs. induction l as [|[k [m0 h]] l IH]; intros hs Hm; [done|]. cbn [foldl]. apply IH.
  unfold push_header. cbn [fst snd]. rewrite lookup_insert. case_decide; [|done]. intros [= E]. by apply app_eq_nil in E as [_ ?].
Qed.

Lemma invert_word h i : length h = 8%nat → word (invert_header h) i = if (i <? 4)%nat then Z.lnot (word h i) else word h i.
Proof.
  intros Hl. do 8 (destruct h as [|? h]; [discriminate Hl|]). destruct h; [|discriminate Hl].
  unfold word, invert_header. cbn [take drop map app].
  do 8 (destruct i as [|i]; [reflexivity|]). destruct i; reflexivity.
Qed.
Lemma invert_bit h i b : length h = 8%nat → (i < 4)%nat → 0 ≤ b → bit (invert_header h) i b = negb (bit h i b).
Proof.
  intros Hl Hi Hb. unfold bit. rewrite invert_word by done. rewrite (proj2 (Nat.ltb_lt i 4)) by done. by rewrite Z.lnot_spec.
Qed.

Section Make.
Context `{UnorderedLaws} (e : EthernetBroadcast) (excl : gset Z).

(** A target chip of the cluster: not excluded, its MMIO chip and its place. *)
Definition target (m r b p : Z) : Prop :=
  ∃ chip c, chip_to_mmio_chip e !! chip = Some m ∧ chip ∉ excl ∧ bc_chip_locations e !! chip = Some c ∧
    r = rack_of c ∧ b = shelf_bit c ∧ p = place_of c.

(** A header selects the bit of a word and a place: the firmware's masks are inverted. *)
Definition selects (h : Header) (r b p : Z) : bool := negb (bit h (Z.to_nat r) b) && negb (bit h 3 p).

Record headers_ok (hs : Headers) : Prop := {
  hd_shape m h : h ∈ default [] (hs !! m) → length h = 8%nat ∧ ∀ i, (5 ≤ i < 8)%nat → word h i = 0;
  hd_select m r b p : 0 ≤ r < 3 → 0 ≤ b < 32 → 0 ≤ p < 32 →
    (∃ h, h ∈ default [] (hs !! m) ∧ selects h r b p = true) ↔ target m r b p;
  hd_once m i j h h' p : 0 ≤ p < 32 → default [] (hs !! m) !! i = Some h → default [] (hs !! m) !! j = Some h' →
    bit h 3 p = false → bit h' 3 p = false → i = j;
  hd_used m h : h ∈ default [] (hs !! m) →
    ∃ r b p, 0 ≤ r < 3 ∧ 0 ≤ b < 32 ∧ 0 ≤ p < 32 ∧ selects h r b p = true;
  hd_nonempty m : hs !! m ≠ Some []
}.

(** All targets have a location whose coordinates fit. *)
Definition targets_fit : Prop :=
  ∀ chip m, chip_to_mmio_chip e !! chip = Some m → chip ∉ excl →
    ∃ c, bc_chip_locations e !! chip = Some c ∧ fits c.

Lemma make_groups : targets_fit →
  ∃ g, for_each (map_iter (chip_to_mmio_chip e)) (add_target e excl) ∅ = Ok g ∧
    groups_ok e excl (map_iter (chip_to_mmio_chip e)) g.
Proof.
  intros Hfit. apply (for_each_inv (groups_ok e excl)).
  - split; [by intros ? ? ? ?; rewrite lookup_empty| |by intros ? ? ? ?; rewrite lookup_empty].
    intros m r b p (chip & c & Hin & _). by apply elem_of_nil in Hin.
  - intros done [chip m] rest g Hl Hg. apply add_target_ok; [exact Hg|].
    intros Hx. apply (Hfit chip m); [|exact Hx].
    apply elem_of_map_iter. rewrite Hl. apply elem_of_app. right. left.
Qed.

Lemma target_in_iter m r b p : target_in e excl (map_iter (chip_to_mmio_chip e)) m r b p ↔ target m r b p.
Proof. unfold target_in, target. by setoid_rewrite elem_of_map_iter. Qed.

Definition grouped (g : gmap Z Masks) (m p : Z) (mask : Header) : Prop :=
  ∃ masks, g !! m = Some masks ∧ masks !! p = Some mask.

Lemma make_unions chips g : groups_ok e excl chips g →
  ∃ u, for_each (map_iter g) (λ '(mmio_chip, masks), for_each (map_iter masks) (λ '(_, mask), add_union mmio_chip mask)) ∅ = Ok u ∧
    unions_ok (grouped g) u.
Proof.
  intros Hg.
  destruct (for_each_inv
    (λ done u, unions_ok (λ m p mask, ∃ masks, (m, masks) ∈ done ∧ masks !! p = Some mask) u)
    (map_iter g) (λ '(mmio_chip, masks), for_each (map_iter masks) (λ '(_, mask), add_union mmio_chip mask)) ∅) as (u & Hu & Hok).
  - split; [by intros ? ? ?; rewrite lookup_empty| |by intros ? ? ?; rewrite lookup_empty].
    intros m p mask (masks & Hin & _). by apply elem_of_nil in Hin.
  - intros done [m masks] rest u Hl Hu.
    assert (g !! m = Some masks) as Hgm.
    { apply elem_of_map_iter. rewrite Hl. apply elem_of_app. right. left. }
    destruct (for_each_inv
      (λ done' u, unions_ok (λ m' p mask, (∃ masks, (m', masks) ∈ done ∧ masks !! p = Some mask) ∨ (m' = m ∧ (p, mask) ∈ done')) u)
      (map_iter masks) (λ '(_, mask), add_union m mask) u) as (u' & Hu' & Hok').
    + eapply unions_ok_ext; [|exact Hu]. intros m' p mask. rewrite elem_of_nil. tauto.
    + intros done' [p mask] rest' u1 Hl' Hu1.
      assert (masks !! p = Some mask) as Hmp.
      { apply elem_of_map_iter. rewrite Hl'. apply elem_of_app. right. left. }
      destruct (gr_masks _ _ _ _ Hg _ _ _ _ Hgm Hmp) as [_ Hmask].
      destruct (add_union_ok _ m p mask u1 Hu1 (mo_length _ _ _ Hmask) (mo_rest _ _ _ Hmask)) as (u2 & Hu2 & Hok2).
      exists u2. split; [exact Hu2|]. eapply unions_ok_ext; [|exact Hok2]. intros m' p' mask'.
      rewrite elem_of_app, list_elem_of_singleton. split.
      * intros [[?|[? ?]]|(-> & -> & ->)]; auto.
      * intros [?|[-> [?|[= -> ->]]]]; auto.
    + exists u'. split; [exact Hu'|]. eapply unions_ok_ext; [|exact Hok']. intros m' p mask.
      setoid_rewrite elem_of_app. setoid_rewrite list_elem_of_singleton. setoid_rewrite elem_of_map_iter. naive_solver.
  - exists u. split; [exact Hu|]. eapply unions_ok_ext; [|exact Hok]. intros m p mask.
    unfold grouped. by setoid_rewrite elem_of_map_iter.
Qed.

Lemma make_headers_spec : targets_fit → ∃ hs, make_headers e excl = Ok hs ∧ headers_ok hs.
Proof.
  intros Hfit. destruct (make_groups Hfit) as (g & Hg & Hgok). destruct (make_unions _ g Hgok) as (u & Hu & Huok).
  unfold make_headers. rewrite Hg. cbn [mbind result_bind]. rewrite Hu. cbn [mbind result_bind]. eexists. split; [done|].
  set (raw := foldl _ ∅ (in_key_order u)).
  assert (∀ m, default [] ((map invert_header <$> raw) !! m) =
    map (λ x, invert_header x.2.2) (entries_of m (in_key_order u))) as Hlist.
  { intros m. rewrite lookup_fmap. pose proof (push_headers_spec (in_key_order u) ∅ m) as Hp. fold raw in Hp.
    rewrite lookup_empty in Hp. cbn [default app] in Hp. rewrite <- map_map, <- Hp. by destruct (raw !! m). }
  assert (∀ m k h, (k, (m, h)) ∈ entries_of m (in_key_order u) ↔ u !! k = Some (m, h)) as Hentries.
  { intros m k h. unfold entries_of. rewrite list_elem_of_filter, in_key_order_lookup. cbn. tauto. }
  assert (∀ m x, x ∈ entries_of m (in_key_order u) → ∃ k h, x = (k, (m, h))) as Hshape.
  { intros m [k [m' h]] Hin. apply list_elem_of_filter in Hin as [Hm _]. cbn in Hm. subst. eauto. }
  split.
  - intros m h Hin. rewrite Hlist in Hin. apply list_elem_of_fmap in Hin as (x & -> & Hin).
    destruct (Hshape _ _ Hin) as (k & h & ->). apply Hentries in Hin. destruct (un_entry _ _ Huok _ _ _ Hin) as (_ & Hl & Hz & _).
    cbn [snd]. split.
    + unfold invert_header. rewrite length_app, length_map, length_take, length_drop. lia.
    + intros i Hi. rewrite invert_word by done. rewrite (proj2 (Nat.ltb_ge i 4)) by lia. apply Hz. lia.
  - intros m r b p Hr Hb Hp. rewrite Hlist, <- target_in_iter. split.
    + intros (h0 & Hin & Hsel). apply list_elem_of_fmap in Hin as (x & -> & Hin).
      destruct (Hshape _ _ Hin) as (k & h & ->). apply Hentries in Hin. destruct (un_entry _ _ Huok _ _ _ Hin) as (_ & Hl & _ & Hpl).
      cbn [snd] in Hsel. unfold selects in Hsel. rewrite !invert_bit, !negb_involutive in Hsel by (done || lia).
      apply andb_true_iff in Hsel as [Hrb Hp3]. apply (Hpl p Hp) in Hp3 as (p' & mask & (masks & Hgm & Hmp) & Hw & Hb3).
      destruct (gr_masks _ _ _ _ Hgok _ _ _ _ Hgm Hmp) as [_ Hmask]. apply (mo_place _ _ _ Hmask p Hp) in Hb3. subst p'.
      apply (mo_racks _ _ _ Hmask r b Hr Hb). rewrite <- Hrb. unfold bit. f_equal. injection Hw as ? ? ?.
      assert (Z.to_nat r = 0 ∨ Z.to_nat r = 1 ∨ Z.to_nat r = 2)%nat as [-> |[-> | ->]] by lia; done.
    + intros Ht. destruct (gr_complete _ _ _ _ Hgok _ _ _ _ Ht) as (masks & Hgm & [mask Hmp]).
      destruct (gr_masks _ _ _ _ Hgok _ _ _ _ Hgm Hmp) as [_ Hmask].
      assert (grouped g m p mask) as Hgr by by exists masks.
      destruct (un_complete _ _ Huok _ _ _ Hgr) as (h & Hh). destruct (un_entry _ _ Huok _ _ _ Hh) as (Hk & Hl & _ & Hpl).
      exists (invert_header h). split.
      { apply list_elem_of_fmap. exists (m :: racks_words mask, (m, h)). split; [done|]. by apply Hentries. }
      unfold selects. rewrite !invert_bit, !negb_involutive by (done || lia). apply andb_true_iff. injection Hk as ? ? ?. split.
      * apply (mo_racks _ _ _ Hmask r b Hr Hb) in Ht. rewrite <- Ht. unfold bit. f_equal.
        assert (Z.to_nat r = 0 ∨ Z.to_nat r = 1 ∨ Z.to_nat r = 2)%nat as [-> |[-> | ->]] by lia; done.
      * apply (Hpl p Hp). exists p, mask. split; [done|]. split; [unfold racks_words; congruence|].
        by apply (mo_place _ _ _ Hmask).
  - intros m i j h0 h0' p Hp Hi Hj Hb Hb'. rewrite Hlist in Hi, Hj.
    rewrite list_lookup_fmap in Hi, Hj. apply fmap_Some in Hi as (x & Hi & ->). apply fmap_Some in Hj as (y & Hj & ->).
    destruct (Hshape m x) as (k & h & ->); [by eapply list_elem_of_lookup_2|].
    destruct (Hshape m y) as (k' & h' & ->); [by eapply list_elem_of_lookup_2|].
    pose proof (list_elem_of_lookup_2 _ _ _ Hi) as Hin. pose proof (list_elem_of_lookup_2 _ _ _ Hj) as Hin'.
    apply Hentries in Hin, Hin'.
    destruct (un_entry _ _ Huok _ _ _ Hin) as (-> & Hl & _ & Hpl). destruct (un_entry _ _ Huok _ _ _ Hin') as (-> & Hl' & _ & Hpl').
    cbn [snd] in Hb, Hb'. rewrite invert_bit, negb_false_iff in Hb, Hb' by (done || lia).
    apply (Hpl p Hp) in Hb as (p1 & mask1 & (ms1 & Hg1 & Hm1) & Hw1 & Hb1).
    apply (Hpl' p Hp) in Hb' as (p2 & mask2 & (ms2 & Hg2 & Hm2) & Hw2 & Hb2).
    destruct (gr_masks _ _ _ _ Hgok _ _ _ _ Hg1 Hm1) as [_ Hk1]. destruct (gr_masks _ _ _ _ Hgok _ _ _ _ Hg2 Hm2) as [_ Hk2].
    apply (mo_place _ _ _ Hk1 p Hp) in Hb1. apply (mo_place _ _ _ Hk2 p Hp) in Hb2. subst p1 p2.
    assert (mask1 = mask2) as <- by congruence.
    assert (NoDup (entries_of m (in_key_order u)).*1) as Hnd.
    { unfold entries_of. eapply sublist_NoDup; [|apply fmap_sublist, sublist_filter].
      rewrite in_key_order_perm. apply NoDup_fst_map_to_list. }
    apply (NoDup_lookup _ i j (m :: racks_words mask1) Hnd); rewrite list_lookup_fmap; [rewrite Hi|rewrite Hj]; cbn; congruence.
  - intros m h0 Hin. rewrite Hlist in Hin. apply list_elem_of_fmap in Hin as (x & -> & Hin).
    destruct (Hshape _ _ Hin) as (k & h & ->). apply Hentries in Hin. cbn [snd].
    destruct (un_entry _ _ Huok _ _ _ Hin) as (_ & Hl & _ & Hpl).
    destruct (un_used _ _ Huok _ _ _ Hin) as (p & mask & (masks & Hgm & Hmp) & Hw).
    destruct (gr_masks _ _ _ _ Hgok _ _ _ _ Hgm Hmp) as [Hp Hmask].
    destruct (gr_used _ _ _ _ Hgok _ _ _ _ Hgm Hmp) as (r & b & Ht).
    pose proof Ht as (chip & c & _ & Hx & Hc & -> & -> & ->). rewrite target_in_iter in Ht.
    destruct Ht as (chip' & c' & Hch & Hx' & Hc' & Er & Eb & Ep). destruct (Hfit _ _ Hch Hx') as (c'' & Hc'' & Hf).
    assert (c'' = c') as -> by congruence. destruct (fits_ranges _ Hf) as (Hr & Hb & _). rewrite <- Er in Hr. rewrite <- Eb in Hb.
    exists (rack_of c), (shelf_bit c), (place_of c). split_and!; try lia. unfold selects.
    rewrite !invert_bit, !negb_involutive by (done || lia). apply andb_true_iff. split.
    + assert (bit mask (Z.to_nat (rack_of c)) (shelf_bit c) = true) as Hbit.
      { apply (mo_racks _ _ _ Hmask _ _ Hr Hb). rewrite target_in_iter. exists chip', c'. auto 10. }
      rewrite <- Hbit. unfold bit. f_equal. injection Hw as ? ? ?.
      assert (Z.to_nat (rack_of c) = 0 ∨ Z.to_nat (rack_of c) = 1 ∨ Z.to_nat (rack_of c) = 2)%nat as [-> |[-> | ->]] by lia; done.
    + apply (Hpl _ Hp). exists (place_of c), mask. split; [by exists masks|]. split; [done|]. by apply (mo_place _ _ _ Hmask).
  - intros m Hm. rewrite lookup_fmap in Hm. destruct (raw !! m) as [hl|] eqn:E; [|done]. injection Hm as Hm.
    apply fmap_nil_inv in Hm. subst hl. revert E. by apply (push_headers_nonempty (in_key_order u) ∅ m).
Qed.
End Make.
