(* ===== verification/EthBroadcastProperties.v ===== *)
(** * EthBroadcastProperties

    What a broadcast over Ethernet delivers: to which chips, and to which rows
    and columns of their grids. *)

From Stdlib Require Import ZArith Lia.
From stdpp Require Import base list numbers strings gmap sets sorting.
From S2P Require Import Prelude CoreTypes ArchData BoardTypes ClusterState EthBroadcast EthHeaders.

Local Open Scope Z_scope.

(** ** The exclusion word *)

Lemma exclusion_mask_spec offset (ex : gset Z) :
  (∀ i, i ∈ ex → 0 ≤ offset + i < 32) →
  ∃ v, exclusion_mask offset ex = Ok v ∧ ∀ b, 0 ≤ b < 32 → Z.testbit v b = bool_decide (b - offset ∈ ex).
Proof.
  intros Hex.
  destruct (for_each_inv (λ done v, ∀ b, 0 ≤ b < 32 → Z.testbit v b = bool_decide (b - offset ∈ done)) (elements ex)
    (λ i mask, b ← int_shl 1 (u32 (offset + i)); Ok (u32 (Z.lor mask b))) 0) as (v & Hv & Hbits).
  - intros b Hb. rewrite Z.bits_0. case_bool_decide as Hx; [by apply elem_of_nil in Hx|done].
  - intros done i rest v Hl Hv.
    assert (0 ≤ offset + i < 32) as Hi.
    { apply Hex. apply elem_of_elements. rewrite Hl. apply elem_of_app. right. left. }
    rewrite u32_small by lia. destruct (int_shl_testbit (offset + i) Hi) as (w & -> & Hw). eexists. split; [done|].
    intros b Hb. rewrite u32_testbit, Z.lor_spec, Hv, Hw by done.
    rewrite <- bool_decide_or. apply bool_decide_ext. rewrite elem_of_app, list_elem_of_singleton.
    split; (intros [?|?]; [by left|right; lia]).
  - exists v. split; [exact Hv|]. intros b Hb. rewrite Hbits by done. apply bool_decide_ext. by rewrite elem_of_elements.
Qed.

(** The header excludes the rows and columns, and has the coordinate flag. *)
Definition excludes (rows cols : gset Z) (translated : bool) (h : Header) : Prop :=
  (∀ y, 0 ≤ y < 15 → bit h 4 y = bool_decide (y ∈ rows)) ∧
  (∀ x, 0 ≤ x < 16 → bit h 4 (16 + x) = bool_decide (x ∈ cols)) ∧
  bit h 4 15 = translated || bool_decide (15 ∈ rows).

Definition rows_fit (rows : gset Z) : Prop := ∀ y, y ∈ rows → 0 ≤ y < 16.
Definition cols_fit (cols : gset Z) : Prop := ∀ x, x ∈ cols → 0 ≤ x < 16.

Lemma set_exclusion_spec tr rows cols rmask cmask h :
  length h = 8%nat → rows_fit rows → cols_fit cols →
  (∀ b, 0 ≤ b < 32 → Z.testbit rmask b = bool_decide (b - 0 ∈ rows)) →
  (∀ b, 0 ≤ b < 32 → Z.testbit cmask b = bool_decide (b - 16 ∈ cols)) →
  ∃ h', set_exclusion tr rmask cmask h = Ok h' ∧ length h' = 8%nat ∧ (∀ j, j ≠ 4%nat → word h' j = word h j) ∧
    excludes rows cols tr h'.
Proof.
  intros Hl Hrows Hcols Hr Hc. unfold set_exclusion. destruct (vec_lookup h 4) as [a Ha]; [unfold vec_size; lia|].
  rewrite (vec_at_Some _ _ _ Ha). cbn [mbind result_bind]. eexists. split; [done|]. split; [by rewrite length_insert|].
  split.
  { intros j Hj. unfold word. by rewrite !nth_lookup, list_lookup_insert_ne by done. }
  set (W := Z.lor (Z.lor (if tr then 0x8000 else 0) rmask) cmask).
  assert (∀ b, 0 ≤ b < 32 → bit (<[4%nat:=i32 W]> h) 4 b =
    ((tr && (b =? 15)) || bool_decide (b ∈ rows)) || bool_decide (b - 16 ∈ cols)) as Hbit.
  { intros b Hb. unfold bit, word. rewrite nth_lookup, list_lookup_insert_eq by lia.
    change (default 0 (Some (i32 W))) with (i32 W).
    rewrite i32_testbit by done. unfold W. rewrite !Z.lor_spec, Hr, Hc, Z.sub_0_r by done. f_equal. f_equal.
    destruct tr; [|by rewrite Z.bits_0]. change 0x8000 with (2 ^ 15). rewrite Z.pow2_bits_eqb by lia. cbn [andb].
    by rewrite Z.eqb_sym. }
  split; [|split].
  - intros y Hy. rewrite Hbit by lia. rewrite (bool_decide_eq_false_2 (y - 16 ∈ cols)), orb_false_r by (intros ?%Hcols; lia).
    destruct (Z.eqb_spec y 15); [lia|]. by rewrite andb_false_r.
  - intros x Hx. rewrite Hbit by lia. replace (16 + x - 16) with x by lia.
    rewrite (bool_decide_eq_false_2 (16 + x ∈ rows)) by (intros ?%Hrows; lia).
    destruct (Z.eqb_spec (16 + x) 15); [lia|]. by rewrite andb_false_r.
  - rewrite Hbit by lia. rewrite (bool_decide_eq_false_2 (15 - 16 ∈ cols)) by (intros ?%Hcols; lia). by rewrite !orb_false_r, andb_true_r.
Qed.

(** ** The cache *)

Definition same_topology (e e' : EthernetBroadcast) : Prop :=
  single_remote_chip e' = single_remote_chip e ∧ bc_chip_locations e' = bc_chip_locations e ∧
  chip_to_mmio_chip e' = chip_to_mmio_chip e ∧ mmio_remote_comms e' = mmio_remote_comms e.

Lemma same_topology_refl e : same_topology e e.
Proof. done. Qed.
Lemma same_topology_trans e1 e2 e3 : same_topology e1 e2 → same_topology e2 e3 → same_topology e1 e3.
Proof. intros (? & ? & ? & ?) (? & ? & ? & ?). split_and!; congruence. Qed.
Lemma set_cache_topology chips hs e : same_topology e (set_cache chips hs e).
Proof. done. Qed.
#[export] Hint Resolve same_topology_refl set_cache_topology : umd.

Lemma target_topology e e' excl m r b p : same_topology e e' → target e' excl m r b p ↔ target e excl m r b p.
Proof. intros (_ & Hl & Hm & _). unfold target. by rewrite Hl, Hm. Qed.
Lemma targets_fit_topology e e' excl : same_topology e e' → targets_fit e excl → targets_fit e' excl.
Proof. intros (_ & Hl & Hm & _). unfold targets_fit. by rewrite Hl, Hm. Qed.
Lemma headers_ok_topology e e' excl hs : same_topology e e' → headers_ok e excl hs → headers_ok e' excl hs.
Proof.
  intros Ht [Hs Hsel Ho Hu Hn]. split; [done| |done..]. intros m r b p Hr Hb Hp. rewrite (Hsel m r b p Hr Hb Hp).
  symmetry. by apply target_topology.
Qed.

(** Cached headers are right; only their exclusion word may be anything. *)
Definition cache_ok (e : EthernetBroadcast) : Prop :=
  ∀ excl hs, bcast_header_cache e !! excl = Some hs → headers_ok e excl hs.

Lemma new_broadcast_cache_ok locations to_mmio comms : cache_ok (new_broadcast locations to_mmio comms).
Proof. intros excl hs Hh. cbn in Hh. by rewrite lookup_empty in Hh. Qed.

Lemma set_cache_ok chips hs e : cache_ok e → headers_ok e chips hs → cache_ok (set_cache chips hs e).
Proof.
  intros Hc Hh excl hs'. cbn. rewrite lookup_insert. case_decide as He.
  - intros [= <-]. subst. by apply (headers_ok_topology e).
  - intros Hl. apply (headers_ok_topology e); [done|]. by apply Hc.
Qed.

Section Deliver.
Context `{UnorderedLaws}.

Lemma get_headers_spec e excl :
  cache_ok e → targets_fit e excl →
  ∃ hs e', get_ethernet_broadcast_headers e excl = Ok (hs, e') ∧ headers_ok e excl hs ∧
    same_topology e e' ∧ bcast_header_cache e' !! excl = Some hs ∧ cache_ok e'.
Proof.
  intros Hc Hfit. unfold get_ethernet_broadcast_headers. destruct (bcast_header_cache e !! excl) as [hs|] eqn:E.
  - exists hs, e. split_and!; try done. by apply Hc.
  - destruct (make_headers_spec e excl Hfit) as (hs & -> & Hok). cbn [mbind result_bind].
    exists hs, (set_cache excl hs e). split_and!; try done; [apply lookup_insert_eq|by apply set_cache_ok].
Qed.

(** The commands for one header after the other. *)
Lemma write_headers_spec e mmio comm data address tr rmask cmask hx hl sent :
  mmio_remote_comms e !! mmio = Some comm →
  (∀ h, h ∈ hl → set_exclusion tr rmask cmask h = Ok (hx h)) →
  for_each hl (λ h '(sent, hs'), h' ← set_exclusion tr rmask cmask h;
      match mmio_remote_comms e !! mmio with
      | None => Err OutOfRange
      | Some comm => Ok (sent ++ [MkCommand comm data address h'], hs' ++ [h'])
      end) (sent, []) = Ok (sent ++ map (λ h, MkCommand comm data address (hx h)) hl, map hx hl).
Proof.
  intros Hcomm Hx.
  destruct (for_each_inv (λ done st, st = (sent ++ map (λ h, MkCommand comm data address (hx h)) done, map hx done)) hl
    (λ h '(sent, hs'), h' ← set_exclusion tr rmask cmask h;
      match mmio_remote_comms e !! mmio with
      | None => Err OutOfRange
      | Some comm => Ok (sent ++ [MkCommand comm data address h'], hs' ++ [h'])
      end) (sent, [])) as (st & Hst & ->); [by rewrite app_nil_r| |exact Hst].
  intros done h rest st Hl ->. rewrite (Hx h) by (rewrite Hl; apply elem_of_app; right; left). cbn [mbind result_bind].
  rewrite Hcomm. eexists. split; [reflexivity|]. by rewrite !map_app, app_assoc.
Qed.

(** The commands that a broadcast with these headers sends. *)
Definition commands_of (comms : gmap Z Z) (data : list Z) (address : Z) (hx : Header → Header) (l : list (Z * list Header))
  : list Command :=
  flat_map (λ '(m, hl), map (λ h, MkCommand (default 0 (comms !! m)) data address (hx h)) hl) l.

(** Every MMIO chip has a RemoteCommunication object. *)
Definition comms_ok (e : EthernetBroadcast) : Prop :=
  ∀ chip m, chip_to_mmio_chip e !! chip = Some m → is_Some (mmio_remote_comms e !! m).

Lemma headers_comms e excl hs m hl : comms_ok e → headers_ok e excl hs → hs !! m = Some hl → is_Some (mmio_remote_comms e !! m).
Proof.
  intros Hcomms Hok Hm. destruct hl as [|h hl]; [by apply (hd_nonempty _ _ _ Hok) in Hm|].
  assert (h ∈ default [] (hs !! m)) as Hin by (rewrite Hm; left).
  destruct (hd_used _ _ _ Hok _ _ Hin) as (r & b & p & Hr & Hb & Hp & Hsel).
  assert (target e excl m r b p) as (chip & c & Hch & _).
  { apply (hd_select _ _ _ Hok m r b p Hr Hb Hp). by exists h. }
  by eapply Hcomms.
Qed.

(** Changing the exclusion word keeps the selections. *)
Lemma reword_headers_ok e excl hs hx :
  headers_ok e excl hs →
  (∀ m h, h ∈ default [] (hs !! m) → length (hx h) = 8%nat ∧ ∀ j, j ≠ 4%nat → word (hx h) j = word h j) →
  headers_ok e excl (map hx <$> hs).
Proof.
  intros [Hs Hsel Ho Hu Hn] Hx.
  assert (∀ m, default [] ((map hx <$> hs) !! m) = map hx (default [] (hs !! m))) as Hmap.
  { intros m. rewrite lookup_fmap. by destruct (hs !! m). }
  assert (∀ m h r b p, h ∈ default [] (hs !! m) → 0 ≤ r < 3 → selects (hx h) r b p = selects h r b p) as Hselx.
  { intros m h r b p Hh Hr. destruct (Hx m h Hh) as [_ Hw]. unfold selects, bit. by rewrite !Hw by lia. }
  split.
  - intros m h. rewrite Hmap. intros (h0 & -> & Hh)%list_elem_of_fmap. destruct (Hx m h0 Hh) as [Hl Hw]. split; [done|].
    intros i Hi. rewrite Hw by lia. apply (Hs m h0 Hh). lia.
  - intros m r b p Hr Hb Hp. rewrite <- (Hsel m r b p Hr Hb Hp), Hmap. split.
    + intros (h & (h0 & -> & Hh)%list_elem_of_fmap & Hse). exists h0. split; [done|]. by rewrite <- (Hselx m h0 r b p).
    + intros (h & Hh & Hse). exists (hx h). split; [apply list_elem_of_fmap; by exists h|]. by rewrite (Hselx m h r b p).
  - intros m i j h h' p Hp. rewrite Hmap, !list_lookup_fmap.
    intros (h0 & Hi & ->)%fmap_Some (h1 & Hj & ->)%fmap_Some. destruct (Hx m h0) as [_ Hw0]; [by eapply list_elem_of_lookup_2|].
    destruct (Hx m h1) as [_ Hw1]; [by eapply list_elem_of_lookup_2|]. unfold bit. rewrite Hw0, Hw1 by lia. by apply (Ho m).
  - intros m h. rewrite Hmap. intros (h0 & -> & Hh)%list_elem_of_fmap. destruct (Hu m h0 Hh) as (r & b & p & Hr & Hb & Hp & Hse).
    exists r, b, p. rewrite (Hselx m h0) by done. done.
  - intros m Hm. rewrite lookup_fmap in Hm. destruct (hs !! m) as [hl|] eqn:E; [|done]. injection Hm as Hm.
    apply fmap_nil_inv in Hm. subst. by apply (Hn m).
Qed.

(** The loop over the MMIO chips. *)
Lemma write_groups_spec e excl data address tr rmask cmask hx headers sent :
  bcast_header_cache e !! excl = Some headers →
  (∀ m hl, headers !! m = Some hl → is_Some (mmio_remote_comms e !! m)) →
  (∀ m h, h ∈ default [] (headers !! m) → set_exclusion tr rmask cmask h = Ok (hx h)) →
  ∃ e', for_each (map_iter headers) (write_group data address excl tr rmask cmask) (sent, e)
    = Ok (sent ++ commands_of (mmio_remote_comms e) data address hx (map_iter headers), e') ∧
    same_topology e e' ∧ bcast_header_cache e' = <[excl := map hx <$> headers]> (bcast_header_cache e).
Proof.
  intros Hcache Hcomms Hx.
  destruct (for_each_inv (λ done st, st.1 = sent ++ commands_of (mmio_remote_comms e) data address hx done ∧
      same_topology e st.2 ∧ ∃ cur, bcast_header_cache st.2 = <[excl := cur]> (bcast_header_cache e) ∧
        ∀ m, cur !! m = if bool_decide (m ∈ done.*1) then map hx <$> headers !! m else headers !! m)
    (map_iter headers) (write_group data address excl tr rmask cmask) (sent, e)) as ([sent' e'] & Hloop & Hsent & Htop & cur & Hc & Hcur).
  - split; [by rewrite app_nil_r|]. split; [done|]. exists headers. split; [by rewrite insert_id|].
    intros m. by case_bool_decide as Hin; [apply elem_of_nil in Hin|].
  - intros done [m hl] rest [sent1 e1] Hl (Hs1 & Ht1 & cur1 & Hc1 & Hcur1). cbn [fst snd] in *. subst sent1.
    assert ((m, hl) ∈ map_iter headers) as Hin by (rewrite Hl; apply elem_of_app; right; left).
    apply elem_of_map_iter in Hin. destruct (Hcomms _ _ Hin) as [comm Hcomm].
    assert (mmio_remote_comms e1 = mmio_remote_comms e) as Hce by apply Ht1.
    cbn [write_group]. rewrite (write_headers_spec e1 m comm data address tr rmask cmask hx hl); [|congruence|].
    2:{ intros h Hh. apply (Hx m). by rewrite Hin. }
    cbn [mbind result_bind]. eexists. split; [reflexivity|]. cbn [fst snd]. split; [|split].
    + unfold commands_of. rewrite flat_map_app. cbn. rewrite app_nil_r, Hcomm. cbn. by rewrite app_assoc.
    + exact Ht1.
    + exists (<[m := map hx hl]> cur1). split.
      { cbn. rewrite Hc1, lookup_insert_eq. cbn. by rewrite insert_insert_eq. }
      intros m'. rewrite lookup_insert, fmap_app. case_decide as Hmm.
      * subst m'. rewrite bool_decide_eq_true_2 by (rewrite elem_of_app; right; left). by rewrite Hin.
      * rewrite Hcur1. erewrite bool_decide_ext; [done|]. rewrite elem_of_app. cbn. rewrite list_elem_of_singleton. naive_solver.
  - cbn [fst snd] in *. exists e'. rewrite Hloop, Hsent. split; [done|]. split; [done|]. rewrite Hc. f_equal.
    apply map_eq. intros m. rewrite Hcur, lookup_fmap. case_bool_decide as Hin; [done|].
    destruct (headers !! m) as [hl|] eqn:E; [|done]. exfalso. apply Hin. apply list_elem_of_fmap. exists (m, hl).
    split; [done|]. by apply elem_of_map_iter.
Qed.

(** The commands reach the chips of the targets, through the RemoteCommunication
    objects of their MMIO chips, with the exclusions. *)
Record commands_ok (e : EthernetBroadcast) (excl : gset Z) (data : list Z) (address : Z) (rows cols : gset Z) (tr : bool)
    (cmds : list Command) : Prop := {
  co_content cmd : cmd ∈ cmds → cmd_data cmd = data ∧ cmd_address cmd = address ∧ excludes rows cols tr (cmd_header cmd);
  co_select comm r b p : 0 ≤ r < 3 → 0 ≤ b < 32 → 0 ≤ p < 32 →
    (∃ cmd, cmd ∈ cmds ∧ cmd_comm cmd = comm ∧ selects (cmd_header cmd) r b p = true) ↔
    ∃ m, mmio_remote_comms e !! m = Some comm ∧ target e excl m r b p
}.

Lemma ethernet_broadcast_write_spec e excl rows cols tr data address sent :
  cache_ok e → targets_fit e excl → comms_ok e → rows_fit rows → cols_fit cols →
  ∃ cmds e', ethernet_broadcast_write data address excl rows cols tr (sent, e) = Ok (sent ++ cmds, e') ∧
    same_topology e e' ∧ cache_ok e' ∧ commands_ok e excl data address rows cols tr cmds.
Proof.
  intros Hc Hfit Hcomms Hrows Hcols. unfold ethernet_broadcast_write.
  destruct (get_headers_spec e excl Hc Hfit) as (hs & e1 & -> & Hhs & Htop & Hcache & Hc1). cbn [mbind result_bind].
  destruct (exclusion_mask_spec 0 rows) as (rmask & -> & Hr); [intros y Hy; specialize (Hrows y Hy); lia|].
  destruct (exclusion_mask_spec 16 cols) as (cmask & -> & Hcm); [intros x Hx; specialize (Hcols x Hx); lia|].
  cbn [mbind result_bind].
  set (hx := λ h, match set_exclusion tr rmask cmask h with Ok h' => h' | Err _ => h end).
  assert (∀ m h, h ∈ default [] (hs !! m) → set_exclusion tr rmask cmask h = Ok (hx h) ∧ length (hx h) = 8%nat ∧
    (∀ j, j ≠ 4%nat → word (hx h) j = word h j) ∧ excludes rows cols tr (hx h)) as Hx.
  { intros m h Hh. destruct (hd_shape _ _ _ Hhs m h Hh) as [Hl _].
    destruct (set_exclusion_spec tr rows cols rmask cmask h Hl Hrows Hcols Hr Hcm) as (h' & Hh' & ? & ? & ?).
    unfold hx. by rewrite Hh'. }
  pose proof (reword_headers_ok e excl hs hx Hhs) as Hre. specialize (Hre ltac:(intros m h Hh; destruct (Hx m h Hh) as (_ & ? & ? & _); done)).
  assert (mmio_remote_comms e1 = mmio_remote_comms e) as Hce by apply Htop.
  destruct (write_groups_spec e1 excl data address tr rmask cmask hx hs sent Hcache) as (e' & -> & Htop' & Hcache').
  { intros m hl Hm. rewrite Hce. exact (headers_comms e excl hs m hl Hcomms Hhs Hm). }
  { intros m h Hh. by destruct (Hx m h Hh). }
  rewrite Hce. eexists _, e'. split; [reflexivity|]. split; [exact (same_topology_trans _ _ _ Htop Htop')|]. split.
  { intros excl' hs'. rewrite Hcache', lookup_insert. case_decide as He.
    - intros [= <-]. subst. apply (headers_ok_topology e); [exact (same_topology_trans _ _ _ Htop Htop')|done].
    - intros Hl. apply (headers_ok_topology e1); [done|]. by apply Hc1. }
  assert (∀ cmd, cmd ∈ commands_of (mmio_remote_comms e) data address hx (map_iter hs) ↔
    ∃ m h comm, h ∈ default [] (hs !! m) ∧ mmio_remote_comms e !! m = Some comm ∧ cmd = MkCommand comm data address (hx h)) as Hin.
  { intros cmd. unfold commands_of. rewrite list_elem_of_In, in_flat_map. split.
    - intros ([m hl] & Hm & Hcmd). apply list_elem_of_In, elem_of_map_iter in Hm.
      apply in_map_iff in Hcmd as (h & <- & Hh). apply list_elem_of_In in Hh.
      destruct (headers_comms _ _ _ _ _ Hcomms Hhs Hm) as [comm Hcomm]. exists m, h, comm. rewrite Hm, Hcomm. done.
    - intros (m & h & comm & Hh & Hcomm & ->). destruct (hs !! m) as [hl|] eqn:E; [|by apply elem_of_nil in Hh].
      exists (m, hl). split; [by apply list_elem_of_In, elem_of_map_iter|]. apply in_map_iff. exists h. rewrite Hcomm.
      split; [done|]. by apply list_elem_of_In. }
  split.
  - intros cmd (m & h & comm & Hh & _ & ->)%Hin. destruct (Hx m h Hh) as (_ & _ & _ & ?). done.
  - intros comm r b p Hr' Hb Hp. setoid_rewrite <- (hd_select _ _ _ Hre _ r b p Hr' Hb Hp).
    assert (∀ m, default [] ((map hx <$> hs) !! m) = map hx (default [] (hs !! m))) as Hmap.
    { intros m. rewrite lookup_fmap. by destruct (hs !! m). }
    split.
    + intros (cmd & (m & h & comm' & Hh & Hcomm & ->)%Hin & <- & Hsel). exists m. split; [done|]. exists (hx h).
      rewrite Hmap. split; [apply list_elem_of_fmap; by exists h|done].
    + intros (m & Hcomm & h0 & Hh & Hsel). rewrite Hmap in Hh. apply list_elem_of_fmap in Hh as (h & -> & Hh).
      exists (MkCommand comm data address (hx h)). split; [apply Hin; by exists m, h, comm|done].
Qed.
End Deliver.

(** ** Coordinates *)

(** An index of the chosen coordinate space. *)
Definition in_space (start stop : Z) (tr : bool) (excluded : gset Z) : Prop :=
  ∀ i, i ∈ excluded → if tr then start ≤ i < stop else i < start.

(** The row or column of the virtual space is excluded. *)
Definition virtual_of (start : Z) (table : list Z) (tr : bool) (excluded : gset Z) (v : Z) : Prop :=
  if tr then ∃ i, i ∈ excluded ∧ table !! Z.to_nat (i - start) = Some v else v ∈ excluded.

Lemma check_space_spec start stop tr what ex :
  (in_space start stop tr ex ∧ check_space start stop tr what ex = Ok tt) ∨
  (¬ in_space start stop tr ex ∧ ∃ msg, check_space start stop tr what ex = throw msg).
Proof.
  set (ok := λ i, if tr then (start <=? i) && (i <? stop) else i <? start).
  assert (∀ i, ok i = true ↔ if tr then start ≤ i < stop else i < start) as Hok.
  { intros i. unfold ok. destruct tr; [rewrite andb_true_iff|]; lia. }
  assert (∀ l, (Forall (λ i, ok i = true) l ∧ for_each l (λ i _, umd_assert (ok i) (what +:+ " " +:+ to_string i +:+
       (if tr then " must be in translated coordinate space." else " must be in NOC0 coordinate space."))) tt = Ok tt) ∨
    (¬ Forall (λ i, ok i = true) l ∧ ∃ msg, for_each l (λ i _, umd_assert (ok i) (what +:+ " " +:+ to_string i +:+
       (if tr then " must be in translated coordinate space." else " must be in NOC0 coordinate space."))) tt = throw msg)) as Hl.
  { induction l as [|i l IH]; [left; by split|]. cbn [for_each]. destruct (ok i) eqn:E; cbn.
    - destruct IH as [[HF ->]|[HF [msg ->]]]; [left; split; [by constructor|done]|].
      right. split; [|by exists msg]. intros Hc. apply Forall_cons in Hc as [_ Hc]. done.
    - right. split; [|by eexists]. intros Hc. apply Forall_cons in Hc as [Hc _]. congruence. }
  unfold check_space. destruct (Hl (elements ex)) as [[HF He]|[HF He]]; [left|right]; (split; [|exact He]).
  - intros i Hi. apply Hok. rewrite list.Forall_forall in HF. apply HF. by apply elem_of_elements.
  - intros Hs. apply HF. apply list.Forall_forall. intros i Hi. apply Hok, Hs. by apply elem_of_elements.
Qed.

Lemma to_virtual_spec start table tr ex :
  in_space start (start + vec_size table) tr ex →
  ∃ s, to_virtual start table tr ex = Ok s ∧ ∀ v, v ∈ s ↔ virtual_of start table tr ex v.
Proof.
  intros Hs. unfold to_virtual.
  destruct (for_each_inv (λ done s, ∀ v, v ∈ (s : gset Z) ↔
      ∃ i, i ∈ done ∧ if tr then table !! Z.to_nat (i - start) = Some v else v = i) (elements ex)
    (λ i s, v ← (if tr then vec_at table (i - start) else Ok i); Ok ({[ v ]} ∪ s)) ∅) as (s & Hl & Hspec).
  - intros v. split; [set_solver|]. intros (i & Hi & _). by apply elem_of_nil in Hi.
  - intros done i rest s Hl Hdone.
    assert (i ∈ ex) as Hi by (apply elem_of_elements; rewrite Hl; apply elem_of_app; right; left).
    specialize (Hs i Hi). destruct tr.
    + destruct (vec_lookup table (i - start)) as [v Hv]; [lia|]. rewrite (vec_at_Some _ _ _ Hv). eexists. split; [done|].
      intros v'. rewrite elem_of_union, elem_of_singleton, Hdone. setoid_rewrite elem_of_app. setoid_rewrite list_elem_of_singleton.
      split; [intros [->|(j & ? & ?)]; eauto|]. intros (j & [Hj| ->] & Hv'); [by right; exists j|left; congruence].
    + eexists. split; [done|].
      intros v'. rewrite elem_of_union, elem_of_singleton, Hdone. setoid_rewrite elem_of_app. setoid_rewrite list_elem_of_singleton.
      split; [intros [->|(j & ? & ?)]; eauto|]. intros (j & [Hj| ->] & Hv'); [by right; exists j|by left].
  - exists s. split; [exact Hl|]. intros v. rewrite Hspec. setoid_rewrite elem_of_elements. unfold virtual_of.
    destruct tr; [done|]. split; [by intros (i & ? & ->)|eauto].
Qed.

Lemma tensix_or_eth_spec cols : tensix_or_eth_in_broadcast cols = false ↔ ∀ x, x ∈ wormhole.T6_X_LOCATIONS → x ∈ cols.
Proof.
  unfold tensix_or_eth_in_broadcast.
  assert (∀ l b, foldl (λ found col, found || bool_decide (col ∉ cols)) b l = false ↔ b = false ∧ ∀ x, x ∈ l → x ∈ cols) as Hf.
  { induction l as [|x l IH]; intros b; cbn [foldl].
    - split; [intros ->; split; [done|]; intros x Hx; by apply elem_of_nil in Hx|tauto].
    - rewrite IH, orb_false_iff, bool_decide_eq_false. setoid_rewrite elem_of_cons. split.
      + intros [[-> Hx] Hl]. split; [done|]. intros y [->|?]; [|by apply Hl]. by destruct (decide (x ∈ cols)).
      + intros [-> Hl]. split; [split; [done|]|]; [|by auto]. intros Hn. apply Hn, Hl. by left. }
  rewrite Hf. tauto.
Qed.

Lemma valid_grid_spec rows :
  valid_tensix_broadcast_grid rows = true ↔
  (∀ y, y ∈ wormhole.T6_Y_LOCATIONS → y ∉ rows) ∨ (∀ y, y ∈ wormhole.T6_Y_LOCATIONS → y ∈ rows).
Proof.
  unfold valid_tensix_broadcast_grid.
  assert (∀ l c m, foldl (λ '(complete, empty) row,
    (complete && bool_decide (row ∉ rows), empty && bool_decide (row ∈ rows))) (c, m) l =
    (c && bool_decide (Forall (λ y, y ∉ rows) l), m && bool_decide (Forall (λ y, y ∈ rows) l))) as Hf.
  { induction l as [|y l IH]; intros c m; cbn [foldl]; [by rewrite !bool_decide_eq_true_2, !andb_true_r by constructor|].
    rewrite IH, <- !andb_assoc. f_equal; f_equal; rewrite <- bool_decide_and; apply bool_decide_ext; by rewrite Forall_cons. }
  rewrite Hf. cbn [andb]. by rewrite orb_true_iff, !bool_decide_eq_true, !list.Forall_forall.
Qed.

(** ** The broadcast *)

Definition excluded_row (tr : bool) (rows : gset Z) : Z → Prop :=
  virtual_of wormhole.translated_coordinate_start_y wormhole.TRANSLATED_TO_VIRTUAL_Y tr rows.
Definition excluded_col (tr : bool) (cols : gset Z) : Z → Prop :=
  virtual_of wormhole.translated_coordinate_start_x wormhole.TRANSLATED_TO_VIRTUAL_X tr cols.

(** What a broadcast may ask for. The DRAM columns are 0 and 5. *)
Record admissible (e : EthernetBroadcast) (excl rows cols : gset Z) (tr : bool) : Prop := {
  ad_single : single_remote_chip e = true → excl = ∅;
  ad_rows : in_space wormhole.translated_coordinate_start_y translated_row_end tr rows;
  ad_cols : in_space wormhole.translated_coordinate_start_x translated_col_end tr cols;
  ad_dram : ¬ (excluded_col tr cols 0 ∧ excluded_col tr cols 5) → ∀ x, x ∈ wormhole.T6_X_LOCATIONS → excluded_col tr cols x;
  ad_grid : excluded_col tr cols 0 → excluded_col tr cols 5 → tr = true ∨
    (∀ y, y ∈ wormhole.T6_Y_LOCATIONS → ¬ excluded_row tr rows y) ∨ (∀ y, y ∈ wormhole.T6_Y_LOCATIONS → excluded_row tr rows y)
}.

(** The command writes to the core (x, y) of the chips with this word, bit and place. *)
Definition delivers (cmd : Command) (r b p x y : Z) : bool :=
  selects (cmd_header cmd) r b p && (negb (bit (cmd_header cmd) 4 (16 + x)) && negb (bit (cmd_header cmd) 4 y)).

Lemma virtual_range start table tr ex n m :
  Forall (λ v, 0 ≤ v < n) table → (tr = false → ∀ i, i ∈ ex → 0 ≤ i < m) → n ≤ m →
  ∀ v, virtual_of start table tr ex v → 0 ≤ v < m.
Proof.
  intros Ht Hex Hnm v. unfold virtual_of. destruct tr; [|by apply Hex].
  intros (i & _ & Hv). rewrite list.Forall_forall in Ht. specialize (Ht v (list_elem_of_lookup_2 _ _ _ Hv)). lia.
Qed.

Section Cluster.
Context `{UnorderedLaws}.

(** Which cores of the targets a list of commands writes to, the coordinate flag
    that all commands have. *)
Definition reaches (e : EthernetBroadcast) (excl : gset Z) (data : list Z) (address : Z) (flag : Prop) (cmds : list Command)
    (core : Z → Z → Prop) : Prop :=
  (∀ cmd, cmd ∈ cmds → cmd_data cmd = data ∧ cmd_address cmd = address ∧ (bit (cmd_header cmd) 4 15 = true ↔ flag)) ∧
  ∀ comm r b p x y, 0 ≤ r < 3 → 0 ≤ b < 32 → 0 ≤ p < 32 → 0 ≤ x < 10 → 0 ≤ y < 12 →
    (∃ cmd, cmd ∈ cmds ∧ cmd_comm cmd = comm ∧ delivers cmd r b p x y = true) ↔
    (∃ m, mmio_remote_comms e !! m = Some comm ∧ target e excl m r b p) ∧ core x y.

Lemma commands_reach e excl data address rows cols tr cmds :
  commands_ok e excl data address rows cols tr cmds →
  reaches e excl data address (tr = true ∨ 15 ∈ rows) cmds (λ x y, x ∉ cols ∧ y ∉ rows).
Proof.
  intros [Hc Hs]. split.
  { intros cmd Hcmd. destruct (Hc cmd Hcmd) as (? & ? & _ & _ & Hflag). split; [done|]. split; [done|].
    by rewrite Hflag, orb_true_iff, bool_decide_eq_true. }
  intros comm r b p x y Hr Hb Hp Hx Hy. rewrite <- (Hs comm r b p Hr Hb Hp).
  assert (∀ cmd, cmd ∈ cmds → delivers cmd r b p x y = true ↔ selects (cmd_header cmd) r b p = true ∧ x ∉ cols ∧ y ∉ rows) as Hd.
  { intros cmd Hcmd. destruct (Hc cmd Hcmd) as (_ & _ & Hrow & Hcol & _). unfold delivers.
    rewrite (Hrow y), (Hcol x) by lia. rewrite !andb_true_iff, !negb_true_iff, !bool_decide_eq_false. tauto. }
  split.
  - intros (cmd & Hcmd & Hcomm & Hdel). apply (Hd cmd Hcmd) in Hdel as (? & ? & ?). split; [by exists cmd|done].
  - intros [(cmd & Hcmd & Hcomm & Hsel) [? ?]]. exists cmd. split; [done|]. split; [done|]. by apply Hd.
Qed.

Lemma reaches_app e excl data address flag cmds1 cmds2 core1 core2 :
  reaches e excl data address flag cmds1 core1 → reaches e excl data address flag cmds2 core2 →
  reaches e excl data address flag (cmds1 ++ cmds2) (λ x y, core1 x y ∨ core2 x y).
Proof.
  intros [Hc1 H1] [Hc2 H2]. split; [intros cmd [?|?]%elem_of_app; auto|].
  intros comm r b p x y Hr Hb Hp Hx Hy.
  specialize (H1 comm r b p x y Hr Hb Hp Hx Hy). specialize (H2 comm r b p x y Hr Hb Hp Hx Hy).
  setoid_rewrite elem_of_app. split.
  - intros (cmd & [Hin|Hin] & Hcomm & Hd).
    + destruct (proj1 H1 ltac:(by exists cmd)) as [? ?]. auto.
    + destruct (proj1 H2 ltac:(by exists cmd)) as [? ?]. auto.
  - intros [Ht [Hcore|Hcore]].
    + destruct (proj2 H1 (conj Ht Hcore)) as (cmd & ? & ? & ?). exists cmd. auto.
    + destruct (proj2 H2 (conj Ht Hcore)) as (cmd & ? & ? & ?). exists cmd. auto.
Qed.

Lemma reaches_nil e excl data address flag : reaches e excl data address flag [] (λ _ _, False).
Proof.
  split; [intros cmd Hc; by apply elem_of_nil in Hc|]. intros. split; [|tauto].
  intros (cmd & Hc & _). by apply elem_of_nil in Hc.
Qed.

Lemma reaches_ext e excl data address (flag flag' : Prop) cmds (core core' : Z → Z → Prop) :
  (flag ↔ flag') → (∀ x y, 0 ≤ x < 10 → 0 ≤ y < 12 → core x y ↔ core' x y) →
  reaches e excl data address flag cmds core → reaches e excl data address flag' cmds core'.
Proof.
  intros Hf Hcc [Hc Hr]. split; [intros cmd Hcmd; rewrite <- Hf; by apply Hc|]. intros comm r b p x y ? ? ? Hx Hy. rewrite <- (Hcc x y Hx Hy). by apply Hr.
Qed.

Lemma reaches_topology e e' excl data address flag cmds core :
  same_topology e e' → reaches e' excl data address flag cmds core → reaches e excl data address flag cmds core.
Proof.
  intros Ht [Hc Hr]. split; [done|]. intros comm r b p x y ? ? ? ? ?. rewrite Hr by done.
  destruct Ht as (Hs & Hl & Hm & Hcm) eqn:E. rewrite Hcm. by setoid_rewrite (target_topology e e' excl _ r b p Ht).
Qed.

(** One call of [ethernet_broadcast_write]. *)
Lemma write_reaches e excl rows cols tr data address sent :
  cache_ok e → targets_fit e excl → comms_ok e → rows_fit rows → cols_fit cols →
  ∃ cmds e', ethernet_broadcast_write data address excl rows cols tr (sent, e) = Ok (sent ++ cmds, e') ∧
    same_topology e e' ∧ cache_ok e' ∧ reaches e excl data address (tr = true ∨ 15 ∈ rows) cmds (λ x y, x ∉ cols ∧ y ∉ rows).
Proof.
  intros Hc Hf Hcm Hr Hcl.
  destruct (ethernet_broadcast_write_spec e excl rows cols tr data address sent Hc Hf Hcm Hr Hcl) as (cmds & e' & ? & ? & ? & Hok).
  exists cmds, e'. split_and!; try done. by eapply commands_reach.
Qed.

Lemma unsafe_15 : 15 ∉ unsafe_rows.
Proof. by apply (bool_decide_unpack _). Qed.
Lemma unsafe_rows_fit : rows_fit unsafe_rows.
Proof. intros y Hy. unfold unsafe_rows in Hy. rewrite !elem_of_union, !elem_of_singleton in Hy. lia. Qed.

(** The part for the DRAM columns: one write for column 0, one for column 5. *)
Lemma dram_broadcast e excl vr vc data address sent :
  cache_ok e → targets_fit e excl → comms_ok e → rows_fit vr → cols_fit vc → (∀ x, x ∈ wormhole.T6_X_LOCATIONS → x ∈ vc) →
  ∃ cmds e',
    (st ← (if bool_decide (0 ∉ vc) then
            ethernet_broadcast_write data address excl (vr ∪ unsafe_rows) (vc ∪ {[ 5 ]}) false (sent, e)
          else Ok (sent, e));
     if bool_decide (5 ∉ vc) then ethernet_broadcast_write data address excl vr (vc ∪ {[ 0 ]}) false st else Ok st)
    = Ok (sent ++ cmds, e') ∧ same_topology e e' ∧ cache_ok e' ∧
    reaches e excl data address (15 ∈ vr) cmds (λ x y, x ∉ vc ∧ y ∉ vr ∧ ¬ (x = 0 ∧ y ∈ unsafe_rows)).
Proof.
  intros Hc Hf Hcm Hr Hcl Htensix.
  assert (rows_fit (vr ∪ unsafe_rows)) as Hr' by (intros y [?|?]%elem_of_union; [by apply Hr|by apply unsafe_rows_fit]).
  assert (∀ k, 0 ≤ k < 16 → cols_fit (vc ∪ {[ k ]})) as Hcl'.
  { intros k Hk x [?|?%elem_of_singleton]%elem_of_union; [by apply Hcl|lia]. }
  assert (∀ x, 0 ≤ x < 10 → x ∉ vc → x = 0 ∨ x = 5) as Hcol.
  { intros x Hx Hn. assert (x ∉ wormhole.T6_X_LOCATIONS) as Hnt by auto. unfold wormhole.T6_X_LOCATIONS in Hnt.
    rewrite !not_elem_of_cons in Hnt. lia. }
  assert (∃ cmds1 e1, (if bool_decide (0 ∉ vc) then
            ethernet_broadcast_write data address excl (vr ∪ unsafe_rows) (vc ∪ {[ 5 ]}) false (sent, e)
          else Ok (sent, e)) = Ok (sent ++ cmds1, e1) ∧ same_topology e e1 ∧ cache_ok e1 ∧
    reaches e excl data address (15 ∈ vr) cmds1 (λ x y, x = 0 ∧ x ∉ vc ∧ y ∉ vr ∧ y ∉ unsafe_rows)) as (cmds1 & e1 & -> & Ht1 & Hc1 & Hr1).
  { case_bool_decide as Hc0.
    - destruct (write_reaches e excl (vr ∪ unsafe_rows) (vc ∪ {[ 5 ]}) false data address sent Hc Hf Hcm Hr' (Hcl' 5 ltac:(lia)))
        as (cmds & e1 & ? & ? & ? & Hre). exists cmds, e1. split_and!; try done. eapply reaches_ext; [|.. |exact Hre].
      + rewrite elem_of_union. pose proof unsafe_15. naive_solver.
      + intros x y Hx Hy. cbn. rewrite !not_elem_of_union, not_elem_of_singleton. specialize (Hcol x Hx). naive_solver lia.
    - exists [], e. rewrite app_nil_r. split_and!; try done. eapply reaches_ext; [done| |apply reaches_nil]. naive_solver. }
  cbn [mbind result_bind].
  assert (∃ cmds2 e2, (if bool_decide (5 ∉ vc) then
            ethernet_broadcast_write data address excl vr (vc ∪ {[ 0 ]}) false (sent ++ cmds1, e1)
          else Ok (sent ++ cmds1, e1)) = Ok ((sent ++ cmds1) ++ cmds2, e2) ∧ same_topology e1 e2 ∧ cache_ok e2 ∧
    reaches e1 excl data address (15 ∈ vr) cmds2 (λ x y, x = 5 ∧ x ∉ vc ∧ y ∉ vr)) as (cmds2 & e2 & -> & Ht2 & Hc2 & Hr2).
  { case_bool_decide as Hc5.
    - assert (comms_ok e1) as Hcm1 by (destruct Ht1 as (_ & _ & Hm & Hco); unfold comms_ok; by rewrite Hm, Hco).
      destruct (write_reaches e1 excl vr (vc ∪ {[ 0 ]}) false data address (sent ++ cmds1) Hc1
        (targets_fit_topology _ _ _ Ht1 Hf) Hcm1 Hr (Hcl' 0 ltac:(lia)))
        as (cmds & e2 & ? & ? & ? & Hre). exists cmds, e2. split_and!; try done. eapply reaches_ext; [|.. |exact Hre]; [naive_solver|].
      intros x y Hx Hy. cbn. rewrite !not_elem_of_union, not_elem_of_singleton. specialize (Hcol x Hx). naive_solver lia.
    - exists [], e1. rewrite app_nil_r. split_and!; try done. eapply reaches_ext; [done| |apply reaches_nil]. naive_solver. }
  exists (cmds1 ++ cmds2), e2. rewrite app_assoc. split; [done|]. split; [exact (same_topology_trans _ _ _ Ht1 Ht2)|].
  split; [done|]. eapply reaches_ext; [done| |apply reaches_app; [exact Hr1|exact (reaches_topology _ _ _ _ _ _ _ _ Ht1 Hr2)]].
  intros x y Hx Hy. cbn. specialize (Hcol x Hx). naive_solver lia.
Qed.

(** The coordinate flag of the commands: translated coordinates without a DRAM
    column, or row 15 of NOC0 coordinates, whose bit is the same. *)
Definition says_translated (rows cols : gset Z) (tr : bool) : Prop :=
  if tr then excluded_col tr cols 0 ∧ excluded_col tr cols 5 else 15 ∈ rows.
Lemma virtual_15 tr rows : excluded_row tr rows 15 ↔ tr = false ∧ 15 ∈ rows.
Proof.
  unfold excluded_row, virtual_of. destruct tr; [|naive_solver]. split; [|by intros [? _]]. intros (i & _ & Hi%list_elem_of_lookup_2).
  unfold wormhole.TRANSLATED_TO_VIRTUAL_Y in Hi. rewrite !elem_of_cons, elem_of_nil in Hi. lia.
Qed.

(** What a broadcast does, whether it is admissible or not. *)
Lemma broadcast_write_to_cluster_spec e excl rows cols tr data address sent :
  cache_ok e → targets_fit e excl → comms_ok e →
  (∀ y, y ∈ rows → 0 ≤ y) → (∀ x, x ∈ cols → 0 ≤ x) →
  match broadcast_write_to_cluster data address excl rows cols tr (sent, e) with
  | Ok (sent', e') =>
      admissible e excl rows cols tr ∧ same_topology e e' ∧ cache_ok e' ∧
      ∃ cmds, sent' = sent ++ cmds ∧
        reaches e excl data address (says_translated rows cols tr) cmds (λ x y,
          ¬ excluded_col tr cols x ∧ ¬ excluded_row tr rows y ∧ ¬ (x = 0 ∧ y ∈ unsafe_rows))
  | Err err => ¬ admissible e excl rows cols tr ∧ ∃ what, err = RuntimeError what
  end.
Proof.
  intros Hc Hf Hcm Hrow0 Hcol0. unfold broadcast_write_to_cluster. cbn [snd].
  destruct (negb (single_remote_chip e) || bool_decide (excl = ∅)) eqn:Esingle.
  2:{ cbn. split; [|by eexists]. intros [Hs _ _ _ _]. apply orb_false_iff in Esingle as [Es Ex].
      apply negb_false_iff in Es. apply bool_decide_eq_false in Ex. auto. }
  assert (single_remote_chip e = true → excl = ∅) as Hs.
  { intros Es. rewrite Es in Esingle. by apply bool_decide_eq_true in Esingle. }
  cbn [umd_assert mbind result_bind]. unfold adjust_coordinates_for_ethernet_broadcast.
  destruct (check_space_spec wormhole.translated_coordinate_start_y translated_row_end tr "Row" rows)
    as [[Hrs ->]|[Hrs [msg ->]]]; cbn [mbind result_bind]; [|split; [by intros []|by eexists]].
  destruct (check_space_spec wormhole.translated_coordinate_start_x translated_col_end tr "Col" cols)
    as [[Hcs ->]|[Hcs [msg ->]]]; cbn [mbind result_bind]; [|split; [by intros []|by eexists]].
  destruct (to_virtual_spec _ _ tr rows Hrs) as (vr & -> & Hvr). cbn [mbind result_bind].
  destruct (to_virtual_spec _ _ tr cols Hcs) as (vc & -> & Hvc). cbn [mbind result_bind].
  fold (excluded_row tr rows) in Hvr. fold (excluded_col tr cols) in Hvc.
  assert (rows_fit vr) as Hrf.
  { intros y Hy. apply Hvr in Hy. revert y Hy. apply virtual_range with 12; [repeat constructor; lia| |lia].
    intros -> i Hi. specialize (Hrs i Hi). specialize (Hrow0 i Hi). cbn in Hrs.
    unfold wormhole.translated_coordinate_start_y in Hrs. lia. }
  assert (cols_fit vc) as Hcf.
  { intros x Hx. apply Hvc in Hx. revert x Hx. apply virtual_range with 12; [repeat constructor; lia| |lia].
    intros -> i Hi. specialize (Hcs i Hi). specialize (Hcol0 i Hi). cbn in Hcs.
    unfold wormhole.translated_coordinate_start_x in Hcs. lia. }
  destruct (bool_decide (0 ∉ vc) || bool_decide (5 ∉ vc)) eqn:Edram.
  - assert (¬ (excluded_col tr cols 0 ∧ excluded_col tr cols 5)) as Hdram.
    { rewrite <- !Hvc. apply orb_true_iff in Edram. rewrite !bool_decide_eq_true in Edram. tauto. }
    pose proof (tensix_or_eth_spec vc) as Ht. destruct (tensix_or_eth_in_broadcast vc); cbn [negb umd_assert mbind result_bind].
    { split; [|by eexists]. intros [_ _ _ Had _]. assert (true = false) by (apply Ht; intros x Hx; apply Hvc; auto). done. }
    pose proof (proj1 Ht eq_refl) as Hall.
    destruct (dram_broadcast e excl vr vc data address sent Hc Hf Hcm Hrf Hcf Hall) as (cmds & e' & Heq & Htop & Hc' & Hre).
    cbn [mbind result_bind] in Heq. rewrite Heq. split.
    { split; try done; [intros _ x Hx; by apply Hvc, Hall|tauto]. }
    split; [done|]. split; [done|]. exists cmds. split; [done|]. eapply reaches_ext; [|.. |exact Hre].
    { rewrite Hvr, virtual_15. unfold says_translated. destruct tr; naive_solver. }
    intros x y _ _. cbn. by rewrite Hvc, Hvr.
  - assert (excluded_col tr cols 0 ∧ excluded_col tr cols 5) as [Hd0 Hd5].
    { rewrite <- !Hvc. apply orb_false_iff in Edram. rewrite !bool_decide_eq_false in Edram.
      split; [destruct (decide (0 ∈ vc))|destruct (decide (5 ∈ vc))]; tauto. }
    pose proof (valid_grid_spec vr) as Hv.
    destruct (tr || valid_tensix_broadcast_grid vr) eqn:Egrid; cbn [umd_assert mbind result_bind].
    2:{ split; [|by eexists]. intros [_ _ _ _ Had]. apply orb_false_iff in Egrid as [-> Eg].
        setoid_rewrite Hvr in Hv. destruct (Had Hd0 Hd5) as [?|Hg]; [done|]. apply Hv in Hg. congruence. }
    destruct (write_reaches e excl vr vc tr data address sent Hc Hf Hcm Hrf Hcf) as (cmds & e' & -> & Htop & Hc' & Hre).
    split.
    { split; try done; [tauto|]. intros _ _. apply orb_true_iff in Egrid as [->|Eg]; [by left|right].
      setoid_rewrite Hvr in Hv. by apply Hv. }
    split; [done|]. split; [done|]. exists cmds. split; [done|]. eapply reaches_ext; [|.. |exact Hre].
    { rewrite Hvr, virtual_15. unfold says_translated. destruct tr; naive_solver. }
    intros x y _ _. cbn. rewrite Hvc, Hvr. split; [|tauto]. intros [Hx Hy]. split_and!; try done. by intros [-> _].
Qed.

(** *** Chips *)

(** The command writes to the core (x, y) of the chip at these coordinates. *)
Definition writes_chip (cmd : Command) (c : EthCoord) (x y : Z) : bool := delivers cmd (rack_of c) (shelf_bit c) (place_of c) x y.
(** The chip is reached through this RemoteCommunication, its closest MMIO chip's. *)
Definition behind (e : EthernetBroadcast) (comm chip : Z) (c : EthCoord) : Prop :=
  ∃ m, chip_to_mmio_chip e !! chip = Some m ∧ mmio_remote_comms e !! m = Some comm ∧ bc_chip_locations e !! chip = Some c.
(** No two chips that are reached the same way have coordinates that a header
    does not tell apart. *)
Definition distinguishable (e : EthernetBroadcast) : Prop :=
  ∀ comm chip chip' c c', behind e comm chip c → behind e comm chip' c' → same_bits c c' → chip = chip'.
(** Of the chips, the commands write to exactly those cores of those that are not excluded. *)
Definition reaches_chips (e : EthernetBroadcast) (excl : gset Z) (cmds : list Command) (core : Z → Z → Prop) : Prop :=
  ∀ comm chip c x y, behind e comm chip c → fits c → 0 ≤ x < 10 → 0 ≤ y < 12 →
    (∃ cmd, cmd ∈ cmds ∧ cmd_comm cmd = comm ∧ writes_chip cmd c x y = true) ↔ chip ∉ excl ∧ core x y.
Lemma reaches_distinguished e excl data address flag cmds core :
  reaches e excl data address flag cmds core → distinguishable e → reaches_chips e excl cmds core.
Proof.
  intros [_ Hr] Hd comm chip c x y Hb Hf Hx Hy. destruct (fits_ranges c Hf) as (H1 & H2 & H3).
  unfold writes_chip. rewrite (Hr comm _ _ _ x y H1 H2 H3 Hx Hy). split.
  - intros [(m & Hm & chip' & c' & Hc' & Hn & Hl & E1 & E2 & E3) Hcore]. split; [|done].
    rewrite (Hd comm chip chip' c c' Hb); [done|by exists m|by split_and!].
  - intros [Hn Hcore]. split; [|done]. destruct Hb as (m & Hm & Hco & Hl). exists m. split; [done|]. by exists chip, c.
Qed.

(** C25: the broadcast writes the data to exactly the cores of the target chips that
    are neither in an excluded column nor in an excluded row, and never to a PCIe, ARC or
    router core (rows 2-4 and 8-10 of column 0), whatever the caller asks
    for; each target is reached through the RemoteCommunication of its
    closest MMIO chip. A chip is what a header says of it: its rack word, the bit
    for its shelf and rack, its place; where these tell the chips behind each
    MMIO chip apart, as they do within a rack ([one_rack_not_aliased]), the
    broadcast writes to exactly the chips that are not excluded, and where they do
    not, also to those taken for a target ([rack_shelf_aliased]). All commands have
    the flag of translated coordinates exactly if they are used and no DRAM
    column is written, or, as its bit is that of row 15, if the caller excludes
    that row in NOC0 coordinates. A request that is not admissible - excluded
    chips for a single remote chip, indices outside of the coordinate space, DRAM
    together with Tensix columns, an incomplete grid in NOC0 coordinates -
    throws. *)
Theorem broadcast_write_to_cluster_correct e excl rows cols tr data address sent :
  cache_ok e → targets_fit e excl → comms_ok e → (∀ y, y ∈ rows → 0 ≤ y) → (∀ x, x ∈ cols → 0 ≤ x) →
  let core x y := ¬ excluded_col tr cols x ∧ ¬ excluded_row tr rows y ∧ ¬ (x = 0 ∧ y ∈ unsafe_rows) in
  match broadcast_write_to_cluster data address excl rows cols tr (sent, e) with
  | Ok (sent', e') =>
      admissible e excl rows cols tr ∧ same_topology e e' ∧ cache_ok e' ∧
      ∃ cmds, sent' = sent ++ cmds ∧ reaches e excl data address (says_translated rows cols tr) cmds core ∧
        (distinguishable e → reaches_chips e excl cmds core)
  | Err err => ¬ admissible e excl rows cols tr ∧ ∃ what, err = RuntimeError what
  end.
Proof.
  intros Hc Hf Hcm Hr Hcl core. pose proof (broadcast_write_to_cluster_spec e excl rows cols tr data address sent Hc Hf Hcm Hr Hcl) as Hs.
  destruct (broadcast_write_to_cluster _ _ _ _ _ _ _) as [[sent' e']|]; [|done]. destruct Hs as (? & ? & ? & cmds & -> & Hre).
  do 3 (split; [done|]). exists cmds. split; [done|]. split; [exact Hre|]. by eapply reaches_distinguished.
Qed.
End Cluster.

(** Two chips on one shelf and one on the next, behind one MMIO chip: a write to the Tensix grid of chips 1 and 2. *)
Definition sample_locations : gmap Z EthCoord :=
  {[ 0 := MkEthCoord 0 0 0 0 0; 1 := MkEthCoord 0 1 0 0 0; 2 := MkEthCoord 0 1 0 0 1 ]}.
Definition sample_broadcast : EthernetBroadcast :=
  new_broadcast sample_locations {[ 0 := 0; 1 := 0; 2 := 0 ]} {[ 0 := 7 ]}.

Lemma sample_fits excl : targets_fit sample_broadcast excl.
Proof.
  intros chip m Hm _. unfold sample_broadcast, new_broadcast in Hm. cbn in Hm.
  apply elem_of_map_to_list in Hm. vm_compute in Hm.
  assert (chip = 0 ∨ chip = 1 ∨ chip = 2) as [-> |[-> | ->]] by (repeat (apply elem_of_cons in Hm as [[= -> ->]|Hm]; [tauto|]); by apply elem_of_nil in Hm);
    (eexists; split; [reflexivity|]); unfold fits, shelf_bit, place_of; vm_compute; intuition congruence.
Qed.
Lemma sample_comms : comms_ok sample_broadcast.
Proof.
  intros chip m Hm. unfold sample_broadcast, new_broadcast in Hm. cbn in Hm. apply elem_of_map_to_list in Hm. vm_compute in Hm.
  repeat (apply elem_of_cons in Hm as [[= -> ->]|Hm]; [by eexists|]). by apply elem_of_nil in Hm.
Qed.
Lemma sample_distinguishable : distinguishable sample_broadcast.
Proof.
  assert (∀ comm chip c, behind sample_broadcast comm chip c → (chip, c) ∈ map_to_list sample_locations) as Hin.
  { intros comm chip c (m & _ & _ & Hl). by apply elem_of_map_to_list. }
  intros comm chip chip' c c' H1%Hin H2%Hin (_ & Hs & Hp). vm_compute in H1, H2.
  repeat (apply elem_of_cons in H1 as [[= -> ->]|H1]); try by apply elem_of_nil in H1.
  all: repeat (apply elem_of_cons in H2 as [[= -> ->]|H2]); try by apply elem_of_nil in H2.
  all: first [reflexivity|by vm_compute in Hp|by vm_compute in Hs].
Qed.

(** With row 15 among the excluded ones, and chip 0 excluded. *)
Lemma broadcast_write_to_cluster_correct_witness :
  let e := sample_broadcast in
  match @broadcast_write_to_cluster sorted_order [5] 0x1000 {[ 0 ]} {[ 0; 6; 15 ]} {[ 0; 5 ]} false ([], e) with
  | Ok (sent', e') =>
      admissible e {[ 0 ]} {[ 0; 6; 15 ]} {[ 0; 5 ]} false ∧ same_topology e e' ∧ cache_ok e' ∧
      ∃ cmds, sent' = [] ++ cmds ∧
        reaches e {[ 0 ]} [5] 0x1000 (says_translated {[ 0; 6; 15 ]} {[ 0; 5 ]} false) cmds (λ x y,
          ¬ excluded_col false {[ 0; 5 ]} x ∧ ¬ excluded_row false {[ 0; 6; 15 ]} y ∧ ¬ (x = 0 ∧ y ∈ unsafe_rows)) ∧
        (distinguishable e → reaches_chips e {[ 0 ]} cmds (λ x y,
          ¬ excluded_col false {[ 0; 5 ]} x ∧ ¬ excluded_row false {[ 0; 6; 15 ]} y ∧ ¬ (x = 0 ∧ y ∈ unsafe_rows)))
  | Err err => ¬ admissible e {[ 0 ]} {[ 0; 6; 15 ]} {[ 0; 5 ]} false ∧ ∃ what, err = RuntimeError what
  end ∧ distinguishable e.
Proof.
  split; [|exact sample_distinguishable].
  apply (@broadcast_write_to_cluster_correct sorted_order sorted_order_laws sample_broadcast {[ 0 ]} {[ 0; 6; 15 ]} {[ 0; 5 ]} false).
  - apply new_broadcast_cache_ok.
  - apply sample_fits.
  - exact sample_comms.
  - intros y Hy. rewrite !elem_of_union, !elem_of_singleton in Hy. lia.
  - intros x Hx. rewrite elem_of_union, !elem_of_singleton in Hx. lia.
Defined.

(** The commands of the sample: one header for both shelves. *)
Example sample_commands :
  match @broadcast_write_to_cluster sorted_order [5] 0x1000 {[ 0 ]} {[ 0; 6 ]} {[ 0; 5 ]} false ([], sample_broadcast) with
  | Ok (sent, _) => map cmd_header sent
  | Err _ => []
  end = [[Z.lnot 3; Z.lnot 0; Z.lnot 0; Z.lnot (2 ^ 8); 0x210041; 0; 0; 0]].
Proof. vm_compute. reflexivity. Qed.

(** Racks are shifted by single bits: rack 0, shelf 1 and rack 1, shelf 0 have
    the same bit, so a broadcast to the one also selects the other. *)
Lemma rack_shelf_aliased x y :
  let a := MkEthCoord 0 x y 0 1 in let b := MkEthCoord 0 x y 1 0 in
  a ≠ b ∧ rack_of a = rack_of b ∧ shelf_bit a = shelf_bit b ∧ place_of a = place_of b.
Proof. by split. Qed.

(** Row 15 passes the check of NOC0 coordinates and sets the flag of the translated ones. *)
Lemma row_15_sets_translated :
  set_exclusion false 0x8000 0 (replicate 8 0) = Ok [0; 0; 0; 0; 0x8000; 0; 0; 0] ∧
  exclusion_mask 0 {[ 15 ]} = Ok 0x8000 ∧ in_space wormhole.translated_coordinate_start_y translated_row_end false {[ 15 ]}.
Proof. split; [reflexivity|]. split; [reflexivity|]. intros i Hi. rewrite elem_of_singleton in Hi. subst i. cbn. unfold wormhole.translated_coordinate_start_y. lia. Qed.
