(* ===== verification/TelemetryReader.v ===== *)
(** * TelemetryReader

    The telemetry of the ARC firmware as the host reads it:
    [ArcTelemetryReader] ([arc/arc_telemetry_reader.cpp]) with its Wormhole and
    Blackhole subclasses, which parse the tag table that the firmware publishes,
    and [SmBusArcTelemetryReader] ([arc/smbus_arc_telemetry_reader.cpp]), which
    reads the flat array of older Wormhole firmware; [utils::poll_until]
    ([common/utils.hpp]). The NOC that the thread has selected
    ([get_selected_noc_id()]) is a parameter; the source's routines ignore the
    one they are given. *)

From Stdlib Require Import ZArith Lia.
From stdpp Require Import base list list_numbers numbers strings gmap relations.
From S2P Require Import Prelude CoreTypes ArchData SemVer DeviceAccess.

Local Open Scope Z_scope.

(** [TelemetryTag]. *)
Module TelemetryTag.
Definition BOARD_ID_HIGH : Z := 1.
Definition BOARD_ID_LOW : Z := 2.
Definition ASIC_ID : Z := 3.
Definition HARVESTING_STATE : Z := 4.
Definition UPDATE_TELEM_SPEED : Z := 5.
Definition VCORE : Z := 6.
Definition TDP : Z := 7.
Definition TDC : Z := 8.
Definition VDD_LIMITS : Z := 9.
Definition THM_LIMIT_SHUTDOWN : Z := 10.
Definition ASIC_TEMPERATURE : Z := 11.
Definition VREG_TEMPERATURE : Z := 12.
Definition BOARD_TEMPERATURE : Z := 13.
Definition AICLK : Z := 14.
Definition AXICLK : Z := 15.
Definition ARCCLK : Z := 16.
Definition L2CPUCLK0 : Z := 17.
Definition L2CPUCLK1 : Z := 18.
Definition L2CPUCLK2 : Z := 19.
Definition L2CPUCLK3 : Z := 20.
Definition ETH_LIVE_STATUS : Z := 21.
Definition GDDR_STATUS : Z := 22.
Definition GDDR_SPEED : Z := 23.
Definition ETH_FW_VERSION : Z := 24.
Definition GDDR_FW_VERSION : Z := 25.
Definition DM_APP_FW_VERSION : Z := 26.
Definition DM_BL_FW_VERSION : Z := 27.
Definition FLASH_BUNDLE_VERSION : Z := 28.
Definition CM_FW_VERSION : Z := 29.
Definition L2CPU_FW_VERSION : Z := 30.
Definition FAN_SPEED : Z := 31.
Definition TIMER_HEARTBEAT : Z := 32.
Definition TELEMETRY_ENUM_COUNT : Z := 33.
Definition ENABLED_TENSIX_COL : Z := 34.
Definition ENABLED_ETH : Z := 35.
Definition ENABLED_GDDR : Z := 36.
Definition ENABLED_L2CPU : Z := 37.
Definition PCIE_USAGE : Z := 38.
Definition NOC_TRANSLATION : Z := 40.
Definition FAN_RPM : Z := 41.
Definition GDDR_0_1_TEMP : Z := 42.
Definition GDDR_2_3_TEMP : Z := 43.
Definition GDDR_4_5_TEMP : Z := 44.
Definition GDDR_6_7_TEMP : Z := 45.
Definition GDDR_0_1_CORR_ERRS : Z := 46.
Definition GDDR_2_3_CORR_ERRS : Z := 47.
Definition GDDR_4_5_CORR_ERRS : Z := 48.
Definition GDDR_6_7_CORR_ERRS : Z := 49.
Definition GDDR_UNCORR_ERRS : Z := 50.
Definition MAX_GDDR_TEMP : Z := 51.
Definition ASIC_LOCATION : Z := 52.
Definition BOARD_POWER_LIMIT : Z := 53.
Definition INPUT_POWER : Z := 54.
Definition TDC_LIMIT_MAX : Z := 55.
Definition THM_LIMIT_THROTTLE : Z := 56.
Definition TT_FLASH_VERSION : Z := 58.
Definition THERM_TRIP_COUNT : Z := 60.
Definition ASIC_ID_HIGH : Z := 61.
Definition ASIC_ID_LOW : Z := 62.
Definition AICLK_LIMIT_MAX : Z := 63.
Definition TDP_LIMIT_MAX : Z := 64.
Definition AICLK_ARB_MIN : Z := 65.
Definition AICLK_ARB_MAX : Z := 66.
Definition ENABLED_MIN_ARB : Z := 67.
Definition ENABLED_MAX_ARB : Z := 68.
Definition NUMBER_OF_TAGS : Z := 69.
End TelemetryTag.

(** [wormhole::LegacyTelemetryTag]. *)
Module LegacyTelemetryTag.
Definition ENUM_VERSION : Z := 0.
Definition DEVICE_ID : Z := 1.
Definition ASIC_RO : Z := 2.
Definition ASIC_IDD : Z := 3.
Definition BOARD_ID_HIGH : Z := 4.
Definition BOARD_ID_LOW : Z := 5.
Definition ARC0_FW_VERSION : Z := 6.
Definition ARC1_FW_VERSION : Z := 7.
Definition ARC2_FW_VERSION : Z := 8.
Definition ARC3_FW_VERSION : Z := 9.
Definition SPIBOOTROM_FW_VERSION : Z := 10.
Definition ETH_FW_VERSION : Z := 11.
Definition DM_BL_FW_VERSION : Z := 12.
Definition DM_APP_FW_VERSION : Z := 13.
Definition DDR_STATUS : Z := 14.
Definition ETH_STATUS0 : Z := 15.
Definition ETH_STATUS1 : Z := 16.
Definition PCIE_STATUS : Z := 17.
Definition FAULTS : Z := 18.
Definition ARC0_HEALTH : Z := 19.
Definition ARC1_HEALTH : Z := 20.
Definition ARC2_HEALTH : Z := 21.
Definition ARC3_HEALTH : Z := 22.
Definition FAN_SPEED : Z := 23.
Definition AICLK : Z := 24.
Definition AXICLK : Z := 25.
Definition ARCCLK : Z := 26.
Definition THROTTLER : Z := 27.
Definition VCORE : Z := 28.
Definition ASIC_TEMPERATURE : Z := 29.
Definition VREG_TEMPERATURE : Z := 30.
Definition BOARD_TEMPERATURE : Z := 31.
Definition TDP : Z := 32.
Definition TDC : Z := 33.
Definition VDD_LIMITS : Z := 34.
Definition THM_LIMITS : Z := 35.
Definition WH_FW_DATE : Z := 36.
Definition ASIC_TMON0 : Z := 37.
Definition ASIC_TMON1 : Z := 38.
Definition MVDDQ_POWER : Z := 39.
Definition GDDR_TRAIN_TEMP0 : Z := 40.
Definition GDDR_TRAIN_TEMP1 : Z := 41.
Definition BOOT_DATE : Z := 42.
Definition RT_SECONDS : Z := 43.
Definition ETH_DEBUG_STATUS0 : Z := 44.
Definition ETH_DEBUG_STATUS1 : Z := 45.
Definition TT_FLASH_VERSION : Z := 46.
Definition ETH_LOOPBACK_STATUS : Z := 47.
Definition ETH_LIVE_STATUS : Z := 48.
Definition FW_BUNDLE_VERSION : Z := 49.
Definition NUMBER_OF_TAGS : Z := 50.
End LegacyTelemetryTag.

(** ** Polling *)

Section Poll.
Context {F : Type} (now : F → Z).
(** The device's evolution while the host sleeps, for a time in nanoseconds. *)
Context (sleep_for : Z → World F → World F).

Definition this_thread_sleep_for (ns : Z) : M F unit := λ w, Some (Ok tt, sleep_for ns w).

(** [poll_until] from the time [start] on, with a predicate that updates a
    state; times in nanoseconds. *)
Fixpoint poll_until_from {S} (fuel : nat) (predicate : S → M F (bool * S))
    (start timeout busy_poll_window poll_interval : Z) (s : S) : M F (bool * S) :=
  match fuel with
  | O => λ _, None
  | Datatypes.S fuel =>
      '(ready, s) ← predicate s;
      if ready : bool then mret (true, s)
      else
        time ← steady_clock_now now;
        let elapsed := time - start in
        if timeout <? elapsed then mret (false, s)
        else
          (if busy_poll_window <? elapsed then this_thread_sleep_for poll_interval else mret tt);;
          poll_until_from fuel predicate start timeout busy_poll_window poll_interval s
  end.
Definition poll_until {S} (fuel : nat) (predicate : S → M F (bool * S))
    (timeout busy_poll_window poll_interval : Z) (s : S) : M F (bool * S) :=
  start ← steady_clock_now now;
  poll_until_from fuel predicate start timeout busy_poll_window poll_interval s.
End Poll.

Definition MILLISECONDS : Z := 1000000.
Definition MICROSECONDS : Z := 1000.
Definition TELEMETRY_INIT_TIMEOUT : Z := 1000 * MILLISECONDS.

(** ** The readers *)

(** The fields of [ArcTelemetryReader] that change. *)
Record ArcTelemetryReader := MkReader {
  telemetry_table_addr : Z;
  telemetry_table_addr_reg : Z;
  entry_count : Z;
  telemetry_values_addr : Z;
  telemetry_values : gmap Z Z;
  telemetry_offset : gmap Z Z
}.
Definition new_reader : ArcTelemetryReader := MkReader 0 0 0 0 ∅ ∅.

Definition set_addresses (reg table values : Z) (r : ArcTelemetryReader) : ArcTelemetryReader :=
  MkReader table reg (entry_count r) values (telemetry_values r) (telemetry_offset r).
Definition set_entry_count (n : Z) (r : ArcTelemetryReader) : ArcTelemetryReader :=
  MkReader (telemetry_table_addr r) (telemetry_table_addr_reg r) n (telemetry_values_addr r)
    (telemetry_values r) (telemetry_offset r).
Definition set_tables (values offsets : gmap Z Z) (r : ArcTelemetryReader) : ArcTelemetryReader :=
  MkReader (telemetry_table_addr r) (telemetry_table_addr_reg r) (entry_count r) (telemetry_values_addr r)
    values offsets.

Definition FW_NEW_TELEMETRY : SemVer := MkSemVer 18 4 0 0.

(** The values that the reader keeps instead of reading them again. *)
Definition static_entries : list Z :=
  [TelemetryTag.BOARD_ID_HIGH; TelemetryTag.BOARD_ID_LOW; TelemetryTag.ASIC_ID; TelemetryTag.HARVESTING_STATE;
   TelemetryTag.UPDATE_TELEM_SPEED; TelemetryTag.ETH_FW_VERSION; TelemetryTag.GDDR_FW_VERSION;
   TelemetryTag.DM_APP_FW_VERSION; TelemetryTag.DM_BL_FW_VERSION; TelemetryTag.FLASH_BUNDLE_VERSION;
   TelemetryTag.CM_FW_VERSION; TelemetryTag.L2CPU_FW_VERSION; TelemetryTag.ENABLED_TENSIX_COL;
   TelemetryTag.ENABLED_ETH; TelemetryTag.ENABLED_GDDR; TelemetryTag.ENABLED_L2CPU; TelemetryTag.PCIE_USAGE].

Definition not_available_message (telemetry_tag : Z) : string :=
  "Telemetry entry " +:+ to_string telemetry_tag +:+
  " not available. You can use is_entry_available() to check if the entry is available.".

(** Which of the two subclasses with a tag table. *)
Inductive TableReader := WormholeTable | BlackholeTable.

Definition ARC_NOC_ADDRESS_START : Z := 0x800000000.
Definition ARC_NOC_RESET_UNIT_BASE_ADDR : Z := 0x880030000.
Definition NOC_NODEID_X_0 : Z := 0x1D0.
Definition NOC_NODEID_Y_0 : Z := 0x1D4.
Definition ARC_NOC_XBAR_ADDRESS_START : Z := 0x80000000.
Definition SCRATCH_RAM_12 : Z := 0x30000 + 0x430.
Definition SCRATCH_RAM_13 : Z := 0x30000 + 0x434.
Definition SMBUS_TELEMETRY_NOC_ADDR : Z := 0x820078d60.

Section Reader.
Context {F : Type} (env : World F → World F) (locate : NocId → xy_pair → xy_pair) (now : F → Z).
Context (sleep_for : Z → World F → World F) (arc_core_noc0 arc_core_noc1 : xy_pair) (selected_noc_id : NocId).
Implicit Types (r : ArcTelemetryReader).

Definition get_telemetry_arc_core (noc_id : NocId) : xy_pair :=
  if decide (noc_id = NOC1) then arc_core_noc1 else arc_core_noc0.
Definition read_arc_word (addr : Z) : M F Z :=
  read_data env locate (get_telemetry_arc_core selected_noc_id) addr selected_noc_id.
Definition read_arc_words (addr : Z) (n : nat) : M F (list Z) :=
  read_dwords env locate (get_telemetry_arc_core selected_noc_id) addr n selected_noc_id.

(** [WormholeArcTelemetryReader::get_telemetry_address] and Blackhole's. *)
Definition get_telemetry_address (kind : TableReader) r : M F ArcTelemetryReader :=
  match kind with
  | WormholeTable =>
      table ← read_arc_word (ARC_NOC_RESET_UNIT_BASE_ADDR + NOC_NODEID_X_0);
      values ← read_arc_word (ARC_NOC_RESET_UNIT_BASE_ADDR + NOC_NODEID_Y_0);
      mret (set_addresses table (u64 (table + ARC_NOC_ADDRESS_START)) (u64 (values + ARC_NOC_ADDRESS_START)) r)
  | BlackholeTable =>
      table ← read_arc_word (ARC_NOC_XBAR_ADDRESS_START + SCRATCH_RAM_13);
      values ← read_arc_word (ARC_NOC_XBAR_ADDRESS_START + SCRATCH_RAM_12);
      mret (set_addresses table table values r)
  end.

(** One entry of the tag table: the tag in the lower half, the index of its
    value in the upper half. The maps keep the first entry of a tag. *)
Definition add_entry (telemetry_data : list Z) (tag_offset : Z) r : result ArcTelemetryReader :=
  let tag_val := Z.land tag_offset 0xFFFF in
  let offset_val := u16 (Z.shiftr tag_offset 16) in
  value ← vec_idx telemetry_data offset_val;
  Ok (set_tables (map_insert_new tag_val value (telemetry_values r))
        (map_insert_new tag_val offset_val (telemetry_offset r)) r).

Fixpoint read_entries (telemetry_data : list Z) (indices : list Z) r : M F ArcTelemetryReader :=
  match indices with
  | [] => mret r
  | i :: indices =>
      tag_offset ← read_arc_word (u64 (telemetry_table_addr r + 8 + u32 (4 * i)));
      r ← lift (add_entry telemetry_data tag_offset r);
      read_entries telemetry_data indices r
  end.

(** The source also copies the tag table into a vector that it does not use. *)
Definition initialize_telemetry r : M F ArcTelemetryReader :=
  count ← read_arc_word (u64 (telemetry_table_addr r + 4));
  let r := set_entry_count count r in
  let tag_table_address := u64 (telemetry_table_addr r + 2 * 4) in
  _ ← read_arc_words tag_table_address (Z.to_nat count);
  telemetry_data ← read_arc_words (telemetry_values_addr r) (Z.to_nat count);
  read_entries telemetry_data (seqZ 0 count) r.

Definition is_entry_available (telemetry_tag : Z) r : bool :=
  bool_decide (is_Some (telemetry_values r !! telemetry_tag)).

(** [std::map::at]. *)
Definition value_at (m : gmap Z Z) (k : Z) : result Z :=
  match m !! k with Some v => Ok v | None => Err OutOfRange end.

Definition read_entry (telemetry_tag : Z) r : M F (Z * ArcTelemetryReader) :=
  if negb (is_entry_available telemetry_tag r) then raise (not_available_message telemetry_tag)
  else if bool_decide (telemetry_tag ∈ static_entries) then
    v ← lift (value_at (telemetry_values r) telemetry_tag); mret (v, r)
  else
    offset ← lift (value_at (telemetry_offset r) telemetry_tag);
    telemetry_val ← read_arc_word (u64 (telemetry_values_addr r + offset * 4));
    mret (telemetry_val, set_tables (<[telemetry_tag := telemetry_val]> (telemetry_values r)) (telemetry_offset r) r).

(** A table that is not published in time leaves the reader empty. *)
Definition wait_for_telemetry_initialized (fuel : nat) (kind : TableReader) (timeout : Z) r : M F ArcTelemetryReader :=
  '(initialized, r) ← poll_until now sleep_for fuel
    (λ r, r ← get_telemetry_address kind r; mret (negb (telemetry_table_addr_reg r =? 0), r))
    timeout 0 (10 * MILLISECONDS) r;
  if initialized : bool then initialize_telemetry r else mret r.

(** The constructors of the two subclasses. *)
Definition new_table_reader (fuel : nat) (kind : TableReader) : M F ArcTelemetryReader :=
  wait_for_telemetry_initialized fuel kind TELEMETRY_INIT_TIMEOUT new_reader.

(** ** The SMBus array *)

Definition smbus_is_entry_available (telemetry_tag : Z) : bool :=
  (0 <=? telemetry_tag) && (telemetry_tag <? LegacyTelemetryTag.NUMBER_OF_TAGS).
Definition smbus_read_entry (telemetry_tag : Z) : M F Z :=
  if negb (smbus_is_entry_available telemetry_tag) then raise (not_available_message telemetry_tag)
  else read_arc_word (SMBUS_TELEMETRY_NOC_ADDR + telemetry_tag * 4).

Definition smbus_wait_for_telemetry_initialized (fuel : nat) (timeout : Z) : M F unit :=
  '(initialized, _) ← poll_until now sleep_for fuel
    (λ _ : unit, v ← smbus_read_entry LegacyTelemetryTag.FW_BUNDLE_VERSION; mret (negb (v =? 0), tt))
    timeout (10 * MICROSECONDS) (10 * MILLISECONDS) tt;
  if initialized : bool then mret tt
  else raise "Timeout waiting for SMBus telemetry initialization (FW_BUNDLE_VERSION not populated).".

(** The constructor of [SmBusArcTelemetryReader]; the reader keeps no state. *)
Definition new_smbus_reader (fuel : nat) : M F unit :=
  smbus_wait_for_telemetry_initialized fuel TELEMETRY_INIT_TIMEOUT.

(** ** The choice of the reader *)

Inductive Reader := SmBusReader | TableTelemetry (r : ArcTelemetryReader).

Definition create_arc_telemetry_reader (fuel : nat) (arch : ARCH) : M F Reader :=
  match arch with
  | WORMHOLE_B0 =>
      new_smbus_reader fuel;;
      tag ← smbus_read_entry LegacyTelemetryTag.FW_BUNDLE_VERSION;
      if bundle_ltb (from_firmware_bundle_tag tag) FW_NEW_TELEMETRY then mret SmBusReader
      else r ← new_table_reader fuel WormholeTable; mret (TableTelemetry r)
  | BLACKHOLE => r ← new_table_reader fuel BlackholeTable; mret (TableTelemetry r)
  | _ => raise "Unsupported architecture for creating ArcTelemetryReader."
  end.

(** The virtual operations of the two kinds of reader. *)
Definition reader_entry_available (telemetry_tag : Z) (t : Reader) : bool :=
  match t with SmBusReader => smbus_is_entry_available telemetry_tag | TableTelemetry r => is_entry_available telemetry_tag r end.
Definition reader_read_entry (telemetry_tag : Z) (t : Reader) : M F (Z * Reader) :=
  match t with
  | SmBusReader => v ← smbus_read_entry telemetry_tag; mret (v, SmBusReader)
  | TableTelemetry r => '(v, r) ← read_entry telemetry_tag r; mret (v, TableTelemetry r)
  end.
End Reader.

(** ** Lemmas on readers

    What the telemetry readers promise to the code above them, as an interface
    ([TelemetryReaderLaws]), and that both kinds of reader keep it on a device
    whose telemetry changes while it is read. *)

Local Open Scope Z_scope.

(** ** The future of a device *)

Section Future.
Context {F : Type} (env : World F → World F) (sleep_for : Z → World F → World F).

(** The device moves before an access and while the host sleeps. *)
Inductive moves (w : World F) : World F → Prop :=
  | moves_env : moves w (env w)
  | moves_sleep ns : moves w (sleep_for ns w).
Definition future : World F → World F → Prop := rtc moves.

(** A fact about every access from now on. *)
Definition always (P : World F → Prop) (w : World F) : Prop := ∀ w', future w w' → P (env w').

Lemma always_future P w w' : future w w' → always P w → always P w'.
Proof. intros Hf HP w'' Hf'. apply HP. by transitivity w'. Qed.
Lemma future_env w : future w (env w).
Proof. apply rtc_once. constructor. Qed.
Lemma future_sleep ns w : future w (sleep_for ns w).
Proof. apply rtc_once. constructor. Qed.
Lemma always_now P w : always P w → P (env w).
Proof. intros HP. apply HP. reflexivity. Qed.
End Future.

#[export] Hint Resolve future_env future_sleep : umd.

(** ** The interface

    What telemetry shows: the tags it has, and the readings each may give. *)

Record Telemetry := MkTelemetry { published : Z → bool; reading : Z → Z → Prop }.

Class FirmwareTelemetryReader (F R : Type) := {
  tr_read_entry : Z → R → M F (Z * R);
  tr_is_entry_available : Z → R → bool
}.

Class TelemetryReaderLaws {F R} (env : World F → World F) (sleep_for : Z → World F → World F)
    `{!FirmwareTelemetryReader F R} := {
  shows : Telemetry → R → World F → Prop;
  shows_future T r w w' : shows T r w → future env sleep_for w w' → shows T r w';
  shows_available T r w tag : shows T r w → tr_is_entry_available tag r = published T tag;
  shows_read T r w tag : shows T r w → published T tag = true →
    ∃ v r' w', tr_read_entry tag r w = Some (Ok (v, r'), w') ∧ reading T tag v ∧ shows T r' w' ∧
      future env sleep_for w w'
}.

(** ** The readers keep it *)

Section Readers.
Context {F : Type} (env : World F → World F) (locate : NocId → xy_pair → xy_pair) (now : F → Z).
Context (sleep_for : Z → World F → World F) (arc_core_noc0 arc_core_noc1 : xy_pair) (noc : NocId).
Implicit Types (w : World F) (r : ArcTelemetryReader) (T : Telemetry).

(** A word of the ARC core's memory, over the selected NOC. *)
Definition arc_word w (addr : Z) : Z :=
  mem w (locate noc (get_telemetry_arc_core arc_core_noc0 arc_core_noc1 noc)) addr.

Lemma wp_read_arc_word b addr (Q : result Z → World F → Prop) w :
  Q (Ok (arc_word (env w) addr)) (env w) → wpf b (read_arc_word env locate arc_core_noc0 arc_core_noc1 noc addr) Q w.
Proof. done. Qed.

#[global] Instance arc_reader : FirmwareTelemetryReader F Reader := {|
  tr_read_entry := reader_read_entry env locate arc_core_noc0 arc_core_noc1 noc;
  tr_is_entry_available := reader_entry_available
|}.

(** A table reader: the two maps agree with what is published, the cached
    values are readings, and so is every later word at a value's address. *)
Record table_shows T r w : Prop := {
  ts_offsets : ∀ tag, is_Some (telemetry_offset r !! tag) ↔ published T tag = true;
  ts_values : ∀ tag, is_Some (telemetry_values r !! tag) ↔ published T tag = true;
  ts_cached : ∀ tag v, telemetry_values r !! tag = Some v → reading T tag v;
  ts_live : always env sleep_for (λ w, ∀ tag offset, telemetry_offset r !! tag = Some offset →
    reading T tag (arc_word w (u64 (telemetry_values_addr r + offset * 4)))) w
}.
Definition smbus_shows T w : Prop :=
  (∀ tag, published T tag = smbus_is_entry_available tag) ∧
  always env sleep_for (λ w, ∀ tag, published T tag = true →
    reading T tag (arc_word w (SMBUS_TELEMETRY_NOC_ADDR + tag * 4))) w.
Definition reader_shows T (t : Reader) w : Prop :=
  match t with SmBusReader => smbus_shows T w | TableTelemetry r => table_shows T r w end.

Lemma reader_shows_future T t w w' : reader_shows T t w → future env sleep_for w w' → reader_shows T t w'.
Proof.
  destruct t as [|r].
  - intros [? ?] Hf. split; [done|]. by eapply always_future.
  - intros [? ? ? ?] Hf. split; try done. by eapply always_future.
Qed.

Lemma table_available T r w tag : table_shows T r w → is_entry_available tag r = published T tag.
Proof.
  intros Hs. unfold is_entry_available. pose proof (ts_values _ _ _ Hs tag) as Hv.
  case_bool_decide as Hb; [symmetry; by apply Hv|].
  destruct (published T tag) eqn:E; [|done]. by destruct Hb; apply Hv.
Qed.

Lemma table_read T r w tag :
  table_shows T r w → published T tag = true →
  ∃ v r' w', read_entry env locate arc_core_noc0 arc_core_noc1 noc tag r w = Some (Ok (v, r'), w') ∧
    reading T tag v ∧ table_shows T r' w' ∧ future env sleep_for w w'.
Proof.
  intros Hs Hp.
  pose proof (proj2 (ts_values _ _ _ Hs tag) Hp) as [v Hv].
  pose proof (proj2 (ts_offsets _ _ _ Hs tag) Hp) as [k Hk].
  unfold read_entry. rewrite (table_available _ _ _ _ Hs), Hp. cbn [negb].
  unfold value_at. rewrite Hv, Hk. case_bool_decide as Hst.
  - exists v, r, w. split; [done|]. split; [by apply (ts_cached _ _ _ Hs)|]. split; [done|]. reflexivity.
  - set (v' := arc_word (env w) (u64 (telemetry_values_addr r + k * 4))).
    exists v', (set_tables (<[tag := v']> (telemetry_values r)) (telemetry_offset r) r), (env w).
    assert (reading T tag v') as Hr by (by apply (always_now _ _ _ _ (ts_live _ _ _ Hs))).
    split; [done|]. split; [done|]. split; [|apply future_env].
    destruct (reader_shows_future T (TableTelemetry r) w (env w) Hs (future_env _ _ _)) as [H1 H2 H3 H4].
    split; cbn [set_tables telemetry_values telemetry_offset telemetry_values_addr]; [done| | |done].
    + intros t. destruct (decide (t = tag)) as [->|Hne]; [|by rewrite lookup_insert_ne].
      rewrite lookup_insert_eq. split; [done|by eexists].
    + intros t x. destruct (decide (t = tag)) as [->|Hne]; [|rewrite lookup_insert_ne by done; apply H3].
      rewrite lookup_insert_eq. by intros [= <-].
Qed.

#[global, program] Instance arc_reader_laws : TelemetryReaderLaws (R:=Reader) env sleep_for := {|
  shows := reader_shows
|}.
Next Obligation. intros T r w w'. apply reader_shows_future. Qed.
Next Obligation.
  intros T [|r] w tag Hs; cbn; [by destruct Hs as [-> _]|by eapply table_available].
Qed.
Next Obligation.
  intros T [|r] w tag Hs Hp; cbn.
  - destruct Hs as [Hpub Hr]. unfold smbus_read_entry. rewrite <- Hpub, Hp. cbn [negb].
    eexists _, SmBusReader, (env w). split; [done|]. split; [by apply (always_now _ _ _ _ Hr)|].
    split; [|apply future_env]. by apply (reader_shows_future T SmBusReader w (env w) (conj Hpub Hr)), future_env.
  - destruct (table_read T r w tag Hs Hp) as (v & r' & w' & Heq & Hr & Hs' & Hf).
    exists v, (TableTelemetry r'), w'. unfold mbind at 1, M_bind. by rewrite Heq.
Qed.
End Readers.
