(* ===== verification/TelemetryProperties.v ===== *)
(** * TelemetryProperties

    Reading the tag table that the ARC firmware publishes, and the creation of
    a reader: it shows exactly the telemetry that the table describes, and it
    always returns. *)

From Stdlib Require Import ZArith Lia.
From stdpp Require Import base list list_numbers numbers strings gmap relations.
From S2P Require Import Prelude CoreTypes ArchData SemVer DeviceAccess TelemetryReader.

Local Open Scope Z_scope.

(** ** The table *)

Definition entry_tag (e : Z) : Z := Z.land e 0xFFFF.
Definition entry_offset (e : Z) : Z := u16 (Z.shiftr e 16).
(** Where the value of a tag is: the first entry counts. *)
Fixpoint first_offset (entries : list Z) (tag : Z) : option Z :=
  match entries with
  | [] => None
  | e :: entries => if entry_tag e =? tag then Some (entry_offset e) else first_offset entries tag
  end.
(** The telemetry that a table and the readings of the values describe. *)
Definition table_telemetry (entries : list Z) (data : Z → Z → Prop) : Telemetry :=
  MkTelemetry (λ tag, bool_decide (is_Some (first_offset entries tag)))
    (λ tag v, ∃ k, first_offset entries tag = Some k ∧ data k v).

Lemma first_offset_app l1 l2 tag :
  first_offset (l1 ++ l2) tag = match first_offset l1 tag with Some k => Some k | None => first_offset l2 tag end.
Proof. induction l1 as [|e l1 IH]; [done|]. cbn. by destruct (_ =? _). Qed.
Lemma first_offset_elem l tag k : first_offset l tag = Some k → ∃ e, e ∈ l ∧ entry_tag e = tag ∧ entry_offset e = k.
Proof.
  induction l as [|e l IH]; [done|]. cbn. destruct (Z.eqb_spec (entry_tag e) tag).
  - intros [= <-]. exists e. split; [by left|done].
  - intros (e' & ? & ?)%IH. exists e'. split; [by right|done].
Qed.

Section Table.
Context {F : Type} (env : World F → World F) (locate : NocId → xy_pair → xy_pair) (now : F → Z).
Context (sleep_for : Z → World F → World F) (arc_core_noc0 arc_core_noc1 : xy_pair) (noc : NocId).
Implicit Types (w : World F) (r : ArcTelemetryReader).
Let word := arc_word (F:=F) locate arc_core_noc0 arc_core_noc1 noc.
Let always := always env sleep_for.

(** The registers of the two table pointers, and the base of the addresses in
    them. *)
Definition table_register (kind : TableReader) : Z :=
  match kind with WormholeTable => 0x8800301D0 | BlackholeTable => 0x80030434 end.
Definition values_register (kind : TableReader) : Z :=
  match kind with WormholeTable => 0x8800301D4 | BlackholeTable => 0x80030430 end.
Definition address_base (kind : TableReader) : Z :=
  match kind with WormholeTable => ARC_NOC_ADDRESS_START | BlackholeTable => 0 end.

(** From now on the firmware's table is in memory: the pointers, the number of
    entries, the entries; and a value word always holds one of its readings. *)
Record publishes (kind : TableReader) (table values : Z) (entries : list Z) (data : Z → Z → Prop) w : Prop := {
  pb_table : 0 < table < 2 ^ 32;
  pb_values : 0 ≤ values < 2 ^ 32;
  pb_count : Z.of_nat (length entries) < 2 ^ 30;
  pb_offsets : ∀ e, e ∈ entries → entry_offset e < Z.of_nat (length entries);
  pb_memory : always (λ w,
    word w (table_register kind) = table ∧ word w (values_register kind) = values ∧
    word w (address_base kind + table + 4) = Z.of_nat (length entries) ∧
    (∀ i e, entries !! i = Some e → word w (address_base kind + table + 8 + 4 * Z.of_nat i) = e) ∧
    ∀ k, 0 ≤ k < Z.of_nat (length entries) → data k (word w (address_base kind + values + 4 * k))) w
}.

Lemma publishes_future kind table values entries data w w' :
  publishes kind table values entries data w → future env sleep_for w w' → publishes kind table values entries data w'.
Proof. intros [? ? ? ? ?] Hf. split; try done. by eapply always_future. Qed.

(** Reading a block while the device moves: every word is one that was there
    at its access. *)
Lemma read_words_always (P : Z → Z → Prop) n addr w :
  always (λ w, ∀ k, 0 ≤ k < Z.of_nat n → P k (word w (addr + 4 * k))) w →
  wp (read_arc_words env locate arc_core_noc0 arc_core_noc1 noc addr n)
    (λ res w', future env sleep_for w w' ∧ ∃ vs, res = Ok vs ∧ length vs = n ∧
       ∀ k v, vs !! k = Some v → P (Z.of_nat k) v) w.
Proof.
  unfold read_arc_words. revert P addr w. induction n as [|n IH]; intros P addr w HP.
  { apply wp_ret. split; [reflexivity|]. by exists []. }
  cbn [read_dwords]. apply wp_bind, wp_read_data. cbv beta iota. apply wp_bind.
  pose proof (always_now _ _ _ _ HP) as H0.
  eapply wp_mono.
  { apply (IH (λ k v, P (k + 1) v) (addr + 4)). intros w' Hf k Hk.
    replace (addr + 4 + 4 * k) with (addr + 4 * (k + 1)) by lia. apply HP; [|lia].
    etransitivity; [apply (future_env env sleep_for)|done]. }
  intros res w' (Hf & vs & -> & Hlen & Hvs). apply wp_ret.
  split; [etransitivity; [apply (future_env env sleep_for)|done]|].
  eexists. split; [done|]. split; [cbn; by rewrite Hlen|].
  intros [|k] v Hk; cbn in Hk.
  - injection Hk as <-. specialize (H0 0 ltac:(lia)). rewrite Z.mul_0_r, Z.add_0_r in H0. exact H0.
  - specialize (Hvs k v Hk). by replace (Z.of_nat (S k)) with (Z.of_nat k + 1) by lia.
Qed.

(** The reader after the entries [done] of the table. *)
Definition has_read (done : list Z) (data : Z → Z → Prop) r : Prop :=
  (∀ tag, telemetry_offset r !! tag = first_offset done tag) ∧
  (∀ tag, is_Some (telemetry_values r !! tag) ↔ is_Some (first_offset done tag)) ∧
  (∀ tag v, telemetry_values r !! tag = Some v → ∃ k, first_offset done tag = Some k ∧ data k v).

Lemma insert_new_lookup (m : gmap Z Z) (k v k' : Z) :
  map_insert_new k v m !! k' = match m !! k' with Some x => Some x | None => if k =? k' then Some v else None end.
Proof.
  unfold map_insert_new. destruct (m !! k) as [x|] eqn:E.
  - destruct (m !! k') eqn:E'; [done|]. destruct (Z.eqb_spec k k'); [|done]. subst. congruence.
  - destruct (Z.eqb_spec k k') as [->|Hne]; [by rewrite lookup_insert_eq, E|].
    rewrite lookup_insert_ne by done. by destruct (m !! k').
Qed.

Lemma add_entry_spec (done : list Z) (data : Z → Z → Prop) values e r :
  has_read done data r → entry_offset e < Z.of_nat (length values) →
  (∀ k v, values !! k = Some v → data (Z.of_nat k) v) →
  ∃ r', add_entry values e r = Ok r' ∧ has_read (done ++ [e]) data r' ∧
    telemetry_table_addr r' = telemetry_table_addr r ∧ telemetry_values_addr r' = telemetry_values_addr r.
Proof.
  intros (Ho & Hd & Hv) Hlt Hdata.
  assert (0 ≤ entry_offset e) by apply Z.mod_pos_bound, eq_refl.
  unfold add_entry, vec_idx. fold (entry_tag e) (entry_offset e).
  destruct (lookup_lt_is_Some_2 values (Z.to_nat (entry_offset e))) as [x Hx]; [lia|].
  rewrite Hx. eexists. split; [done|]. split; [|done].
  assert (data (entry_offset e) x) as Hdx.
  { rewrite <- (Z2Nat.id (entry_offset e)) by done. by apply Hdata. }
  split; [|split]; cbn [set_tables telemetry_values telemetry_offset].
  - intros tag. by rewrite insert_new_lookup, first_offset_app, Ho.
  - intros tag. rewrite insert_new_lookup, first_offset_app. specialize (Hd tag).
    destruct (telemetry_values r !! tag), (first_offset done tag); cbn; rewrite ?is_Some_alt in *; try tauto.
    by destruct (_ =? _).
  - intros tag v. rewrite insert_new_lookup. destruct (telemetry_values r !! tag) as [y|] eqn:E.
    + intros [= <-]. destruct (Hv tag y E) as (k & Hk & ?). exists k. by rewrite first_offset_app, Hk.
    + cbn. destruct (Z.eqb_spec (entry_tag e) tag); [|done]. intros [= <-]. exists (entry_offset e).
      rewrite first_offset_app. destruct (first_offset done tag) eqn:E'.
      * destruct (proj2 (Hd tag)) as [? ?]; [by eexists|congruence].
      * cbn. by rewrite (proj2 (Z.eqb_eq _ _) e0).
Qed.

Lemma read_entries_spec (values : list Z) (entries : list Z) (data : Z → Z → Prop) base rest done r w :
  entries = done ++ rest →
  telemetry_table_addr r = base → 0 ≤ base → base + 8 + 4 * Z.of_nat (length entries) ≤ 2 ^ 64 →
  Z.of_nat (length entries) < 2 ^ 30 →
  (∀ e, e ∈ entries → entry_offset e < Z.of_nat (length values)) →
  (∀ k v, values !! k = Some v → data (Z.of_nat k) v) →
  always (λ w, ∀ i e, entries !! i = Some e → word w (base + 8 + 4 * Z.of_nat i) = e) w →
  has_read done data r →
  wp (read_entries env locate arc_core_noc0 arc_core_noc1 noc values
        (seqZ (Z.of_nat (length done)) (Z.of_nat (length rest))) r)
    (λ res w', future env sleep_for w w' ∧ ∃ r', res = Ok r' ∧ has_read entries data r' ∧
       telemetry_values_addr r' = telemetry_values_addr r) w.
Proof.
  intros Hl Hr Hb Hend Hcount Hoff Hdata. revert done r w Hl Hr.
  induction rest as [|e rest IH]; intros done r w Hl Hr Hmem Hread.
  { rewrite app_nil_r in Hl. subst done. cbn. apply wp_ret. split; [reflexivity|]. by exists r. }
  assert (length entries = length done + S (length rest))%nat as Hlen by (by rewrite Hl, length_app).
  assert (entries !! length done = Some e) as He by (by rewrite Hl, list_lookup_middle).
  cbn [length]. rewrite seqZ_cons by lia. cbn [read_entries].
  apply wp_bind, wp_read_arc_word. cbv beta iota.
  assert (u64 (telemetry_table_addr r + 8 + u32 (4 * Z.of_nat (length done))) = base + 8 + 4 * Z.of_nat (length done)) as ->.
  { unfold u32. rewrite Z.mod_small by lia. rewrite Hr. apply Z.mod_small. lia. }
  pose proof (always_now _ _ _ _ Hmem _ _ He) as Hw. fold word. rewrite Hw.
  destruct (add_entry_spec done data values e r Hread) as (r1 & Hadd & Hread1 & Ht & Hv).
  { apply Hoff. by apply list_elem_of_lookup_2 in He. }
  { done. }
  eapply wp_bind_lift; [exact Hadd|].
  eapply wp_mono.
  { replace (Z.succ (Z.of_nat (length done))) with (Z.of_nat (length (done ++ [e]))) by (rewrite length_app; cbn; lia).
    replace (Z.pred (Z.of_nat (S (length rest)))) with (Z.of_nat (length rest)) by lia.
    apply (IH (done ++ [e]) r1); [by rewrite <- app_assoc|congruence| |done].
    eapply always_future; [apply future_env|done]. }
  intros res w' (Hf & r' & -> & Hr' & Hv'). split; [etransitivity; [apply (future_env env sleep_for)|done]|].
  exists r'. split; [done|]. split; [done|congruence].
Qed.

Definition addressed (kind : TableReader) (table values : Z) r : Prop :=
  telemetry_table_addr_reg r = table ∧ telemetry_table_addr r = address_base kind + table ∧
  telemetry_values_addr r = address_base kind + values ∧ telemetry_values r = ∅ ∧ telemetry_offset r = ∅.

Lemma get_telemetry_address_spec kind table values entries data r w :
  publishes kind table values entries data w → telemetry_values r = ∅ → telemetry_offset r = ∅ →
  wp (get_telemetry_address env locate arc_core_noc0 arc_core_noc1 noc kind r)
    (λ res w', future env sleep_for w w' ∧ ∃ r', res = Ok r' ∧ addressed kind table values r') w.
Proof.
  intros [Ht Hv _ _ Hm] Hr1 Hr2.
  pose proof (always_now _ _ _ _ Hm) as (Hw1 & _).
  pose proof (always_now _ _ _ _ (always_future _ _ _ _ _ (future_env env sleep_for w) Hm)) as (_ & Hw2 & _).
  assert (future env sleep_for w (env (env w))) as Hf by (etransitivity; apply future_env).
  destruct kind; cbn [get_telemetry_address]; apply wp_bind, wp_read_arc_word; cbv beta iota;
    apply wp_bind, wp_read_arc_word; cbv beta iota; apply wp_ret; (split; [done|]);
    (eexists; split; [done|]); fold word; change (ARC_NOC_RESET_UNIT_BASE_ADDR + NOC_NODEID_X_0) with (table_register WormholeTable);
    change (ARC_NOC_RESET_UNIT_BASE_ADDR + NOC_NODEID_Y_0) with (values_register WormholeTable);
    change (ARC_NOC_XBAR_ADDRESS_START + SCRATCH_RAM_13) with (table_register BlackholeTable);
    change (ARC_NOC_XBAR_ADDRESS_START + SCRATCH_RAM_12) with (values_register BlackholeTable);
    rewrite Hw1, Hw2; (split; [done|]); cbn [set_addresses telemetry_table_addr telemetry_values_addr telemetry_values telemetry_offset];
    (split; [|split; [|done]]); unfold u64, address_base, ARC_NOC_ADDRESS_START; try done; rewrite Z.mod_small; lia.
Qed.

Lemma initialize_telemetry_spec kind table values entries data r w :
  publishes kind table values entries data w → addressed kind table values r →
  wp (initialize_telemetry env locate arc_core_noc0 arc_core_noc1 noc r)
    (λ res w', future env sleep_for w w' ∧ ∃ r', res = Ok r' ∧
       table_shows env locate sleep_for arc_core_noc0 arc_core_noc1 noc (table_telemetry entries data) r' w') w.
Proof.
  intros Hp (Hreg & Hta & Hva & Hve & Hoe). pose proof Hp as [Ht Hv Hc Ho Hm].
  assert (0 ≤ address_base kind ≤ 0x800000000) as Hbase by (by destruct kind).
  unfold initialize_telemetry. apply wp_bind, wp_read_arc_word. cbv beta iota. rewrite Hta.
  assert (u64 (address_base kind + table + 4) = address_base kind + table + 4) as -> by (apply Z.mod_small; lia).
  pose proof (always_now _ _ _ _ Hm) as (_ & _ & Hw & _). fold word. rewrite Hw.
  set (n := Z.of_nat (length entries)). cbn [set_entry_count telemetry_table_addr telemetry_values_addr]. rewrite Hta, Hva.
  assert (always (λ w, ∀ k, 0 ≤ k < n → data k (word w (address_base kind + values + 4 * k))) w) as Hdata.
  { intros w' Hf. apply (Hm w' Hf). }
  assert (always (λ w, ∀ i e, entries !! i = Some e → word w (address_base kind + table + 8 + 4 * Z.of_nat i) = e) w) as Hent.
  { intros w' Hf. apply (Hm w' Hf). }
  assert (u64 (address_base kind + table + 2 * 4) = address_base kind + table + 2 * 4) as -> by (apply Z.mod_small; lia).
  apply wp_bind. eapply wp_mono.
  { apply (read_words_always (λ _ _, True)). by intros w'. }
  intros res w1 (Hf1 & tags & -> & _ & _). apply wp_bind. eapply wp_mono.
  { apply (read_words_always data (Z.to_nat n)). rewrite Z2Nat.id by lia.
    eapply always_future; [|exact Hdata]. etransitivity; [apply (future_env env sleep_for)|done]. }
  intros res w2 (Hf2 & vals & -> & Hlen & Hvals).
  assert (future env sleep_for w w2) as Hf by (etransitivity; [apply (future_env env sleep_for)|by transitivity w1]).
  eapply wp_mono.
  { eapply (read_entries_spec vals entries data (address_base kind + table) entries []); try done.
    - lia.
    - lia.
    - intros e He. rewrite Hlen, Z2Nat.id by lia. by apply Ho.
    - eapply always_future; [exact Hf|exact Hent].
    - split; [|split]; cbn [set_entry_count telemetry_offset telemetry_values]; rewrite ?Hve, ?Hoe; intros tag;
        rewrite lookup_empty; [done|cbn; by split; intros []|by intros v]. }
  intros res w3 (Hf3 & r' & -> & (H1 & H2 & H3) & H4). split; [by transitivity w2|].
  exists r'. split; [done|]. split; cbn [table_telemetry published reading].
  - intros tag. by rewrite H1, bool_decide_eq_true.
  - intros tag. by rewrite H2, bool_decide_eq_true.
  - done.
  - intros w' Hf' tag k Hk. rewrite H1 in Hk. exists k. split; [done|].
    rewrite H4. cbn [set_entry_count telemetry_values_addr]. rewrite Hva.
    destruct (first_offset_elem _ _ _ Hk) as (e & Hin & _ & <-). specialize (Ho e Hin).
    assert (0 ≤ entry_offset e) by apply Z.mod_pos_bound, eq_refl.
    assert (u64 (address_base kind + values + entry_offset e * 4) = address_base kind + values + 4 * entry_offset e) as ->
      by (rewrite (Z.mul_comm _ 4); apply Z.mod_small; lia).
    apply Hdata; [|lia]. etransitivity; [exact Hf|]. by etransitivity.
Qed.

(** A reader of the tag table, created while the firmware publishes its table, shows exactly the telemetry that
    the table describes: a tag is available if and only if some entry names it, every reading of it, now and
    later, is one of the value at the offset of the first such entry, and this holds while the device changes the
    values between any two accesses. *)
Lemma table_reader_shows_the_table kind table values entries data fuel w :
  publishes kind table values entries data w →
  ∃ r w', new_table_reader env locate now sleep_for arc_core_noc0 arc_core_noc1 noc (S fuel) kind w = Some (Ok r, w') ∧
    reader_shows env locate sleep_for arc_core_noc0 arc_core_noc1 noc
      (table_telemetry entries data) (TableTelemetry r) w'.
Proof.
  intros Hp.
  cut (wp (new_table_reader env locate now sleep_for arc_core_noc0 arc_core_noc1 noc (S fuel) kind)
    (λ res w', ∃ r, res = Ok r ∧ table_shows env locate sleep_for arc_core_noc0 arc_core_noc1 noc (table_telemetry entries data) r w') w).
  { intros (res & w' & Heq & r & -> & Hs)%wp_returns. by exists r, w'. }
  unfold new_table_reader, wait_for_telemetry_initialized, poll_until. apply wp_bind, wp_bind, wp_now. cbn [poll_until_from].
  apply wp_bind, wp_bind. eapply wp_mono; [by apply (get_telemetry_address_spec kind table values entries data)|].
  intros res w1 (Hf & r1 & -> & Ha). apply wp_ret. pose proof Ha as (Hreg & _). rewrite Hreg.
  destruct (Z.eqb_spec table 0) as [->|_]; [by destruct Hp as [[] ]|]. cbn [negb]. apply wp_ret.
  eapply wp_mono; [eapply initialize_telemetry_spec; [by eapply publishes_future|exact Ha]|].
  intros res w2 (_ & r2 & -> & Hs). by exists r2.
Qed.
End Table.

(** ** Termination *)

Section Termination.
Context {F : Type} (env : World F → World F) (locate : NocId → xy_pair → xy_pair) (now : F → Z).
Context (sleep_for : Z → World F → World F) (arc_core_noc0 arc_core_noc1 : xy_pair) (noc : NocId).
Implicit Types (w : World F) (r : ArcTelemetryReader).
(** The clock advances between two accesses and does not go back in a sleep. *)
Context (ticks : ∀ w, now (firmware w) < now (firmware (env w))).
Context (sleeps : ∀ ns w, now (firmware w) ≤ now (firmware (sleep_for ns w))).

(** A computation that returns, later than it started. *)
Definition takes_time {A} (m : M F A) : Prop := ∀ w, ∃ res w', m w = Some (res, w') ∧ now (firmware w) < now (firmware w').

Lemma takes_time_bind {A B} (m : M F A) (f : A → M F B) :
  takes_time m → (∀ a w, ∃ res w', f a w = Some (res, w') ∧ now (firmware w) ≤ now (firmware w')) → takes_time (m ≫= f).
Proof.
  intros Hm Hf w. unfold mbind, M_bind. destruct (Hm w) as ([a|e] & w' & -> & Hlt); [|by eexists _, _].
  destruct (Hf a w') as (res & w2 & -> & Hle). exists res, w2. split; [done|lia].
Qed.
Lemma takes_time_returns {A} (m : M F A) : takes_time m → returns m.
Proof. intros Hm w. destruct (Hm w) as (res & w' & -> & _). by eexists. Qed.
Lemma takes_time_read addr : takes_time (read_arc_word env locate arc_core_noc0 arc_core_noc1 noc addr).
Proof. intros w. eexists _, _. split; [done|]. apply ticks. Qed.

Lemma poll_until_from_returns {S} (predicate : S → M F (bool * S)) start timeout busy interval :
  (∀ s, takes_time (predicate s)) →
  ∀ fuel s w, (0 < fuel)%nat → timeout - (now (firmware w) - start) + 1 < Z.of_nat fuel →
    is_Some (poll_until_from now sleep_for fuel predicate start timeout busy interval s w).
Proof.
  intros Hp. induction fuel as [|fuel IH]; intros s w H0 Hfuel; [lia|]. cbn [poll_until_from].
  unfold mbind at 1, M_bind. destruct (Hp s w) as ([[ready s']|e] & w' & -> & Hlt); [|by eexists].
  destruct ready; [by eexists|]. unfold mbind at 1, M_bind, steady_clock_now.
  destruct (Z.ltb_spec timeout (now (firmware w') - start)) as [|Hle]; [by eexists|].
  unfold mbind, M_bind. destruct (_ <? _); cbn.
  - apply IH; [lia|]. pose proof (sleeps interval w'). lia.
  - apply IH; lia.
Qed.

(** The fuel that suffices for the two polls of a creation. *)
Definition init_fuel : nat := Z.to_nat (TELEMETRY_INIT_TIMEOUT + 2).

Lemma poll_until_returns {S} (predicate : S → M F (bool * S)) busy interval s :
  (∀ s, takes_time (predicate s)) →
  returns (poll_until now sleep_for init_fuel predicate TELEMETRY_INIT_TIMEOUT busy interval s).
Proof.
  intros Hp w. unfold poll_until, mbind at 1, M_bind, steady_clock_now.
  apply poll_until_from_returns; [done| |]; unfold init_fuel, TELEMETRY_INIT_TIMEOUT, MILLISECONDS; lia.
Qed.

Lemma get_telemetry_address_takes_time kind r :
  takes_time (get_telemetry_address env locate arc_core_noc0 arc_core_noc1 noc kind r).
Proof.
  destruct kind; (apply takes_time_bind; [apply takes_time_read|]); intros table w; eexists _, _; (split; [done|]);
    apply Z.lt_le_incl, ticks.
Qed.

Lemma read_entries_returns values indices r :
  returns (read_entries env locate arc_core_noc0 arc_core_noc1 noc values indices r).
Proof.
  revert r. induction indices as [|i indices IH]; intros r; [by eexists|].
  apply returns_bind; [apply takes_time_returns, takes_time_read|]. intros e.
  apply returns_bind; [apply returns_lift|]. intros r'. apply IH.
Qed.
Lemma initialize_telemetry_returns r :
  returns (initialize_telemetry env locate arc_core_noc0 arc_core_noc1 noc r).
Proof.
  apply returns_bind; [apply takes_time_returns, takes_time_read|]. intros n.
  apply returns_bind; [apply returns_read_dwords|]. intros tags.
  apply returns_bind; [apply returns_read_dwords|]. intros values. apply read_entries_returns.
Qed.
Lemma new_table_reader_returns kind :
  returns (new_table_reader env locate now sleep_for arc_core_noc0 arc_core_noc1 noc init_fuel kind).
Proof.
  apply returns_bind.
  - apply poll_until_returns. intros s. apply takes_time_bind; [apply get_telemetry_address_takes_time|].
    intros r w. eexists _, w. split; [done|lia].
  - intros [[] r]; [apply initialize_telemetry_returns|by eexists].
Qed.
Lemma smbus_read_entry_returns tag :
  returns (smbus_read_entry env locate arc_core_noc0 arc_core_noc1 noc tag).
Proof. unfold smbus_read_entry. destruct (negb _); by eexists. Qed.
Lemma new_smbus_reader_returns :
  returns (new_smbus_reader env locate now sleep_for arc_core_noc0 arc_core_noc1 noc init_fuel).
Proof.
  apply returns_bind.
  - apply poll_until_returns. intros s. apply takes_time_bind; [apply takes_time_read|].
    intros v w. eexists _, w. split; [done|lia].
  - intros [[] s]; by eexists.
Qed.

(** Creating the telemetry reader of a device always returns, with a reader or an error, whatever the device does:
    the polls for the firmware's telemetry end when their timeout of one second has passed, as long as the clock
    advances at every access and does not go back. *)
Lemma create_arc_telemetry_reader_terminates arch w :
  is_Some (create_arc_telemetry_reader env locate now sleep_for arc_core_noc0 arc_core_noc1 noc init_fuel arch w).
Proof.
  revert w. destruct arch; try by eexists.
  - apply returns_bind; [apply new_smbus_reader_returns|]. intros [].
    apply returns_bind; [apply smbus_read_entry_returns|]. intros tag.
    destruct (bundle_ltb _ _); [by eexists|]. apply returns_bind; [apply new_table_reader_returns|]. by eexists.
  - apply returns_bind; [apply new_table_reader_returns|]. by eexists.
Qed.
End Termination.

(** ** An example

    A device whose clock is also its temperature reading: the table of
    Blackhole at 0x1000 has the board id and the temperature. *)

Module TelemetryExample.
Definition entries : list Z := [0x00000001; 0x0001000B; 0x0000000B].
Definition memory (clock a : Z) : Z :=
  default 0 (list_to_map (M:=gmap Z Z)
    [(0x80030434, 0x1000); (0x80030430, 0x2000); (0x1004, 3); (0x1008, 0x00000001); (0x100C, 0x0001000B);
     (0x1010, 0x0000000B); (0x2000, 0x1234); (0x2004, clock); (0x2008, 0)] !! a).
Definition at_time (clock : Z) : World Z := MkWorld (λ _, memory clock) (λ _, 0) clock.
Definition env (w : World Z) : World Z := at_time (firmware w + 1).
Definition sleep_for (ns : Z) (w : World Z) : World Z := at_time (firmware w + Z.max 0 ns).
Definition locate (_ : NocId) (c : xy_pair) : xy_pair := c.
Definition arc : xy_pair := XY 8 0.
(** The value at offset 1 is a time from 0 on. *)
Definition data (k v : Z) : Prop := match k with 0 => v = 0x1234 | 1 => 0 ≤ v | _ => v = 0 end.

Lemma future_clock w w' : future env sleep_for w w' → firmware w ≤ firmware w'.
Proof.
  induction 1 as [|w1 w2 w3 [|ns] _ IH]; [done| |]; cbn in IH; lia.
Qed.
Lemma publishes_table :
  publishes env locate sleep_for arc arc NOC0 BlackholeTable 0x1000 0x2000 entries data (at_time 0).
Proof.
  split; [lia|lia|cbn; lia| |].
  - apply list.Forall_forall. by repeat constructor.
  - intros w' Hf%future_clock. cbn in Hf. split; [done|]. split; [done|]. split; [done|]. split.
    + intros i e Hi. destruct i as [|[|[|i]]]; cbn in Hi; [by injection Hi as <-..|done].
    + intros k Hk. cbn in Hk. assert (k = 0 ∨ k = 1 ∨ k = 2) as [->|[->| ->]] by lia; [done| |done].
      change (0 ≤ firmware w' + 1). lia.
Qed.
End TelemetryExample.

Lemma table_reader_shows_the_table_witness :
  ∃ r w', new_table_reader TelemetryExample.env TelemetryExample.locate id TelemetryExample.sleep_for
      TelemetryExample.arc TelemetryExample.arc NOC0 1 BlackholeTable (TelemetryExample.at_time 0) = Some (Ok r, w') ∧
    reader_shows TelemetryExample.env TelemetryExample.locate TelemetryExample.sleep_for
      TelemetryExample.arc TelemetryExample.arc NOC0
      (table_telemetry TelemetryExample.entries TelemetryExample.data) (TableTelemetry r) w'.
Proof.
  apply (table_reader_shows_the_table TelemetryExample.env TelemetryExample.locate id TelemetryExample.sleep_for
    TelemetryExample.arc TelemetryExample.arc NOC0 BlackholeTable 0x1000 0x2000 _ _ 0).
  apply TelemetryExample.publishes_table.
Defined.

Lemma create_arc_telemetry_reader_terminates_witness :
  is_Some (create_arc_telemetry_reader TelemetryExample.env TelemetryExample.locate id TelemetryExample.sleep_for
    TelemetryExample.arc TelemetryExample.arc NOC0 init_fuel WORMHOLE_B0 (TelemetryExample.at_time 0)).
Proof.
  apply create_arc_telemetry_reader_terminates.
  - intros w. cbn. lia.
  - intros ns w. cbn. lia.
Defined.
