(* ===== verification/FirmwareFeatures.v ===== *)
(** * FirmwareFeatures

    The tables of [FirmwareInfoProviderImplementation]
    ([firmware/firmware_info_provider_implementation.cpp],
    [firmware/firmware_telemetry_mapping.hpp]): for each architecture and
    firmware version, where the raw value of a feature comes from and how it is
    converted. A scale or offset is an exact rational: every converted value
    is a 32-bit integer times a power of two, which a double holds exactly. *)

From Stdlib Require Import ZArith QArith Lia.
From stdpp Require Import base list numbers strings gmap finite.
From S2P Require Import Prelude CoreTypes SemVer TelemetryReader.

Local Open Scope Z_scope.

Inductive FirmwareFeature :=
  | F_FIRMWARE_VERSION | F_ETH_FW_VERSION | F_GDDR_FW_VERSION | F_CM_FW_VERSION
  | F_DM_APP_FW_VERSION | F_DM_BL_FW_VERSION | F_TT_FLASH_VERSION | F_BOARD_ID_HIGH
  | F_BOARD_ID_LOW | F_ASIC_LOCATION | F_ASIC_TEMPERATURE | F_BOARD_TEMPERATURE
  | F_GDDR_0_1_TEMP | F_GDDR_2_3_TEMP | F_GDDR_4_5_TEMP | F_GDDR_6_7_TEMP
  | F_MAX_GDDR_TEMP | F_AICLK | F_AXICLK | F_ARCCLK
  | F_MAX_CLOCK_FREQ | F_DDR_SPEED | F_TDP | F_TDC
  | F_VCORE | F_TDC_LIMIT_MAX | F_TDP_LIMIT_MAX | F_BOARD_POWER_LIMIT
  | F_FAN_SPEED | F_FAN_RPM | F_THM_LIMIT_THROTTLE | F_THM_LIMIT_SHUTDOWN
  | F_DDR_STATUS | F_HEARTBEAT | F_ETH_HEARTBEAT_STATUS | F_ETH_RETRAIN_STATUS
  | F_ETH_LINK_STATUS | F_THERM_TRIP_COUNT | F_GDDR_UNCORR_ERRS | F_GDDR_0_1_CORR_ERRS
  | F_GDDR_2_3_CORR_ERRS | F_GDDR_4_5_CORR_ERRS | F_GDDR_6_7_CORR_ERRS.

Definition features : list FirmwareFeature :=
  [F_FIRMWARE_VERSION; F_ETH_FW_VERSION; F_GDDR_FW_VERSION; F_CM_FW_VERSION;
   F_DM_APP_FW_VERSION; F_DM_BL_FW_VERSION; F_TT_FLASH_VERSION; F_BOARD_ID_HIGH;
   F_BOARD_ID_LOW; F_ASIC_LOCATION; F_ASIC_TEMPERATURE; F_BOARD_TEMPERATURE;
   F_GDDR_0_1_TEMP; F_GDDR_2_3_TEMP; F_GDDR_4_5_TEMP; F_GDDR_6_7_TEMP;
   F_MAX_GDDR_TEMP; F_AICLK; F_AXICLK; F_ARCCLK;
   F_MAX_CLOCK_FREQ; F_DDR_SPEED; F_TDP; F_TDC;
   F_VCORE; F_TDC_LIMIT_MAX; F_TDP_LIMIT_MAX; F_BOARD_POWER_LIMIT;
   F_FAN_SPEED; F_FAN_RPM; F_THM_LIMIT_THROTTLE; F_THM_LIMIT_SHUTDOWN;
   F_DDR_STATUS; F_HEARTBEAT; F_ETH_HEARTBEAT_STATUS; F_ETH_RETRAIN_STATUS;
   F_ETH_LINK_STATUS; F_THERM_TRIP_COUNT; F_GDDR_UNCORR_ERRS; F_GDDR_0_1_CORR_ERRS;
   F_GDDR_2_3_CORR_ERRS; F_GDDR_4_5_CORR_ERRS; F_GDDR_6_7_CORR_ERRS].

#[global] Instance FirmwareFeature_eq_dec : EqDecision FirmwareFeature.
Proof. solve_decision. Defined.
Lemma features_NoDup : NoDup features.
Proof. by apply (bool_decide_unpack _); vm_compute. Qed.
Lemma features_complete f : f ∈ features.
Proof. apply (bool_decide_unpack (f ∈ features)). by destruct f; vm_compute. Qed.
#[global] Instance FirmwareFeature_finite : Finite FirmwareFeature :=
  {| enum := features; NoDup_enum := features_NoDup; elem_of_enum := features_complete |}.

(** [StandardTag] is [TelemetryTag], [WormholeTag] is [LegacyTelemetryTag]. *)
Inductive FeatureKey :=
  | StandardTag (tag : Z) | WormholeTag (tag : Z) | SmBusTag (tag : Z) | FixedValue (value : Z).
Inductive NumericSign := UNSIGNED | SIGNED.
#[global] Instance NumericSign_eq_dec : EqDecision NumericSign.
Proof. solve_decision. Defined.
Inductive DataConverter :=
  | LinearTransform (shift mask : Z) (scale offset : Q) (signedness : NumericSign)
  | NotAvailable.
(** [LinearTransform{}]. *)
Definition identity : DataConverter := LinearTransform 0 0xFFFFFFFF 1 0 UNSIGNED.
(** The other converters of the tables: a half of the word, the 16.16 fixed
    point format. *)
Definition low_half : DataConverter := LinearTransform 0 0xFFFF 1 0 UNSIGNED.
Definition high_half : DataConverter := LinearTransform 16 0xFFFF 1 0 UNSIGNED.
Definition fixed_16_16 (signedness : NumericSign) : DataConverter :=
  LinearTransform 0 0xFFFFFFFF (1 # 65536) 0 signedness.
Record FeatureProfile := MkProfile { key : FeatureKey; converter : DataConverter }.
Definition FirmwareFeatures := gmap FirmwareFeature FeatureProfile.

(** [blackhole::AICLK_BUSY_VAL]. *)
Definition AICLK_BUSY_VAL : Z := 1350.

(** ** The tables *)

Definition create_18_4_new_telemetry_base : FirmwareFeatures :=
  list_to_map
  [(F_ETH_FW_VERSION, MkProfile (StandardTag TelemetryTag.ETH_FW_VERSION) identity);
   (F_GDDR_FW_VERSION, MkProfile (StandardTag TelemetryTag.GDDR_FW_VERSION) identity);
   (F_CM_FW_VERSION, MkProfile (StandardTag TelemetryTag.CM_FW_VERSION) identity);
   (F_DM_APP_FW_VERSION, MkProfile (StandardTag TelemetryTag.DM_APP_FW_VERSION) identity);
   (F_DM_BL_FW_VERSION, MkProfile (StandardTag TelemetryTag.DM_BL_FW_VERSION) identity);
   (F_TT_FLASH_VERSION, MkProfile (StandardTag TelemetryTag.TT_FLASH_VERSION) identity);
   (F_BOARD_ID_HIGH, MkProfile (StandardTag TelemetryTag.BOARD_ID_HIGH) identity);
   (F_BOARD_ID_LOW, MkProfile (StandardTag TelemetryTag.BOARD_ID_LOW) identity);
   (F_ASIC_LOCATION, MkProfile (StandardTag TelemetryTag.ASIC_LOCATION) identity);
   (F_ASIC_TEMPERATURE, MkProfile (StandardTag TelemetryTag.ASIC_TEMPERATURE) (fixed_16_16 SIGNED));
   (F_BOARD_TEMPERATURE, MkProfile (StandardTag TelemetryTag.BOARD_TEMPERATURE) (fixed_16_16 SIGNED));
   (F_GDDR_0_1_TEMP, MkProfile (StandardTag TelemetryTag.GDDR_0_1_TEMP) (fixed_16_16 UNSIGNED));
   (F_GDDR_2_3_TEMP, MkProfile (StandardTag TelemetryTag.GDDR_2_3_TEMP) (fixed_16_16 UNSIGNED));
   (F_GDDR_4_5_TEMP, MkProfile (StandardTag TelemetryTag.GDDR_4_5_TEMP) (fixed_16_16 UNSIGNED));
   (F_GDDR_6_7_TEMP, MkProfile (StandardTag TelemetryTag.GDDR_6_7_TEMP) (fixed_16_16 UNSIGNED));
   (F_MAX_GDDR_TEMP, MkProfile (StandardTag TelemetryTag.MAX_GDDR_TEMP) identity);
   (F_AICLK, MkProfile (StandardTag TelemetryTag.AICLK) identity);
   (F_AXICLK, MkProfile (StandardTag TelemetryTag.AXICLK) identity);
   (F_ARCCLK, MkProfile (StandardTag TelemetryTag.ARCCLK) identity);
   (F_DDR_SPEED, MkProfile (StandardTag TelemetryTag.GDDR_SPEED) identity);
   (F_TDP, MkProfile (StandardTag TelemetryTag.TDP) identity);
   (F_TDC, MkProfile (StandardTag TelemetryTag.TDC) identity);
   (F_VCORE, MkProfile (StandardTag TelemetryTag.VCORE) identity);
   (F_TDC_LIMIT_MAX, MkProfile (StandardTag TelemetryTag.TDC_LIMIT_MAX) identity);
   (F_TDP_LIMIT_MAX, MkProfile (FixedValue 0) NotAvailable);
   (F_BOARD_POWER_LIMIT, MkProfile (StandardTag TelemetryTag.BOARD_POWER_LIMIT) identity);
   (F_FAN_SPEED, MkProfile (StandardTag TelemetryTag.FAN_SPEED) identity);
   (F_FAN_RPM, MkProfile (StandardTag TelemetryTag.FAN_RPM) identity);
   (F_THM_LIMIT_THROTTLE, MkProfile (StandardTag TelemetryTag.THM_LIMIT_THROTTLE) identity);
   (F_THM_LIMIT_SHUTDOWN, MkProfile (StandardTag TelemetryTag.THM_LIMIT_SHUTDOWN) identity);
   (F_DDR_STATUS, MkProfile (StandardTag TelemetryTag.GDDR_STATUS) identity);
   (F_HEARTBEAT, MkProfile (StandardTag TelemetryTag.TIMER_HEARTBEAT) identity);
   (F_ETH_HEARTBEAT_STATUS, MkProfile (StandardTag TelemetryTag.ETH_LIVE_STATUS) low_half);
   (F_ETH_RETRAIN_STATUS, MkProfile (StandardTag TelemetryTag.ETH_LIVE_STATUS) high_half);
   (F_ETH_LINK_STATUS, MkProfile (FixedValue 0) NotAvailable);
   (F_THERM_TRIP_COUNT, MkProfile (StandardTag TelemetryTag.THERM_TRIP_COUNT) identity);
   (F_GDDR_UNCORR_ERRS, MkProfile (StandardTag TelemetryTag.GDDR_UNCORR_ERRS) identity);
   (F_GDDR_0_1_CORR_ERRS, MkProfile (StandardTag TelemetryTag.GDDR_0_1_CORR_ERRS) identity);
   (F_GDDR_2_3_CORR_ERRS, MkProfile (StandardTag TelemetryTag.GDDR_2_3_CORR_ERRS) identity);
   (F_GDDR_4_5_CORR_ERRS, MkProfile (StandardTag TelemetryTag.GDDR_4_5_CORR_ERRS) identity);
   (F_GDDR_6_7_CORR_ERRS, MkProfile (StandardTag TelemetryTag.GDDR_6_7_CORR_ERRS) identity)].

Definition create_wormhole_18_3_base : FirmwareFeatures :=
  list_to_map
  [(F_ETH_FW_VERSION, MkProfile (WormholeTag LegacyTelemetryTag.ETH_FW_VERSION) identity);
   (F_GDDR_FW_VERSION, MkProfile (FixedValue 0) NotAvailable);
   (F_CM_FW_VERSION, MkProfile (FixedValue 0) NotAvailable);
   (F_DM_APP_FW_VERSION, MkProfile (WormholeTag LegacyTelemetryTag.DM_APP_FW_VERSION) identity);
   (F_DM_BL_FW_VERSION, MkProfile (WormholeTag LegacyTelemetryTag.DM_BL_FW_VERSION) identity);
   (F_TT_FLASH_VERSION, MkProfile (WormholeTag LegacyTelemetryTag.TT_FLASH_VERSION) identity);
   (F_BOARD_ID_HIGH, MkProfile (WormholeTag LegacyTelemetryTag.BOARD_ID_HIGH) identity);
   (F_BOARD_ID_LOW, MkProfile (WormholeTag LegacyTelemetryTag.BOARD_ID_LOW) identity);
   (F_ASIC_LOCATION, MkProfile (FixedValue 0) identity);
   (F_ASIC_TEMPERATURE, MkProfile (WormholeTag LegacyTelemetryTag.ASIC_TEMPERATURE) (LinearTransform 0 0xFFFF (1 # 16) 0 UNSIGNED));
   (F_BOARD_TEMPERATURE, MkProfile (WormholeTag LegacyTelemetryTag.BOARD_TEMPERATURE) (fixed_16_16 UNSIGNED));
   (F_GDDR_0_1_TEMP, MkProfile (FixedValue 0) NotAvailable);
   (F_GDDR_2_3_TEMP, MkProfile (FixedValue 0) NotAvailable);
   (F_GDDR_4_5_TEMP, MkProfile (FixedValue 0) NotAvailable);
   (F_GDDR_6_7_TEMP, MkProfile (FixedValue 0) NotAvailable);
   (F_MAX_GDDR_TEMP, MkProfile (FixedValue 0) NotAvailable);
   (F_AICLK, MkProfile (WormholeTag LegacyTelemetryTag.AICLK) low_half);
   (F_AXICLK, MkProfile (WormholeTag LegacyTelemetryTag.AXICLK) identity);
   (F_ARCCLK, MkProfile (WormholeTag LegacyTelemetryTag.ARCCLK) identity);
   (F_MAX_CLOCK_FREQ, MkProfile (SmBusTag LegacyTelemetryTag.AICLK) high_half);
   (F_DDR_SPEED, MkProfile (FixedValue 0) NotAvailable);
   (F_TDP, MkProfile (WormholeTag LegacyTelemetryTag.TDP) low_half);
   (F_TDC, MkProfile (WormholeTag LegacyTelemetryTag.TDC) low_half);
   (F_VCORE, MkProfile (WormholeTag LegacyTelemetryTag.VCORE) identity);
   (F_TDC_LIMIT_MAX, MkProfile (FixedValue 0) NotAvailable);
   (F_TDP_LIMIT_MAX, MkProfile (FixedValue 0) NotAvailable);
   (F_BOARD_POWER_LIMIT, MkProfile (FixedValue 0) NotAvailable);
   (F_FAN_SPEED, MkProfile (WormholeTag LegacyTelemetryTag.FAN_SPEED) identity);
   (F_FAN_RPM, MkProfile (FixedValue 0) NotAvailable);
   (F_THM_LIMIT_THROTTLE, MkProfile (FixedValue 0) NotAvailable);
   (F_THM_LIMIT_SHUTDOWN, MkProfile (FixedValue 0) NotAvailable);
   (F_DDR_STATUS, MkProfile (WormholeTag LegacyTelemetryTag.DDR_STATUS) identity);
   (F_HEARTBEAT, MkProfile (WormholeTag LegacyTelemetryTag.ARC0_HEALTH) identity);
   (F_ETH_HEARTBEAT_STATUS, MkProfile (WormholeTag LegacyTelemetryTag.ETH_LIVE_STATUS) low_half);
   (F_ETH_RETRAIN_STATUS, MkProfile (WormholeTag LegacyTelemetryTag.ETH_LIVE_STATUS) high_half);
   (F_ETH_LINK_STATUS, MkProfile (FixedValue 0) NotAvailable);
   (F_THERM_TRIP_COUNT, MkProfile (FixedValue 0) NotAvailable);
   (F_GDDR_UNCORR_ERRS, MkProfile (FixedValue 0) NotAvailable);
   (F_GDDR_0_1_CORR_ERRS, MkProfile (FixedValue 0) NotAvailable);
   (F_GDDR_2_3_CORR_ERRS, MkProfile (FixedValue 0) NotAvailable);
   (F_GDDR_4_5_CORR_ERRS, MkProfile (FixedValue 0) NotAvailable);
   (F_GDDR_6_7_CORR_ERRS, MkProfile (FixedValue 0) NotAvailable)].

Definition create_wormhole_18_4_base : FirmwareFeatures :=
  let map := create_18_4_new_telemetry_base in
  let map := <[F_MAX_CLOCK_FREQ := MkProfile (SmBusTag LegacyTelemetryTag.AICLK) high_half]> map in
  let map := <[F_TDP_LIMIT_MAX := MkProfile (StandardTag TelemetryTag.TDP_LIMIT_MAX) identity]> map in
  map.

Definition create_wormhole_18_8_base : FirmwareFeatures :=
  let map := create_wormhole_18_4_base in
  let map := <[F_MAX_CLOCK_FREQ := MkProfile (StandardTag TelemetryTag.AICLK_LIMIT_MAX) identity]> map in
  map.

Definition create_wormhole_19_9_base : FirmwareFeatures :=
  let map := create_wormhole_18_8_base in
  let map := <[F_ETH_RETRAIN_STATUS := MkProfile (FixedValue 0) NotAvailable]> map in
  let map := <[F_ETH_LINK_STATUS := MkProfile (StandardTag TelemetryTag.ETH_LIVE_STATUS) high_half]> map in
  map.

Definition create_blackhole_18_5_base : FirmwareFeatures :=
  let map := create_18_4_new_telemetry_base in
  let map := <[F_MAX_CLOCK_FREQ := MkProfile (FixedValue AICLK_BUSY_VAL) identity]> map in
  let map := <[F_ETH_FW_VERSION := MkProfile (FixedValue 0) NotAvailable]> map in
  let map := <[F_ETH_HEARTBEAT_STATUS := MkProfile (FixedValue 0) NotAvailable]> map in
  let map := <[F_ETH_RETRAIN_STATUS := MkProfile (FixedValue 0) NotAvailable]> map in
  map.

Definition create_blackhole_18_8_base : FirmwareFeatures :=
  let map := create_blackhole_18_5_base in
  let map := <[F_MAX_CLOCK_FREQ := MkProfile (StandardTag TelemetryTag.AICLK_LIMIT_MAX) identity]> map in
  map.

Definition create_blackhole_19_8_base : FirmwareFeatures :=
  let map := create_blackhole_18_8_base in
  let map := <[F_TDP_LIMIT_MAX := MkProfile (StandardTag TelemetryTag.TDP_LIMIT_MAX) identity]> map in
  map.

Definition create_blackhole_19_9_base : FirmwareFeatures :=
  let map := create_blackhole_19_8_base in
  let map := <[F_ETH_HEARTBEAT_STATUS := MkProfile (StandardTag TelemetryTag.ETH_LIVE_STATUS) low_half]> map in
  let map := <[F_ETH_LINK_STATUS := MkProfile (StandardTag TelemetryTag.ETH_LIVE_STATUS) high_half]> map in
  map.

(** ** Versions *)

(** [operator<=] and [operator>=] of firmware bundles. *)
Definition bundle_leb (v w : SemVer) : bool := negb (compare_firmware_bundle v w >? 0).
Definition bundle_geb (v w : SemVer) : bool := negb (bundle_ltb v w).
(** [FirmwareBundleVersion(major, minor, patch)]. *)
Definition bundle (major minor patch : Z) : SemVer := MkSemVer major minor patch 0.

Definition create_firmware_feature_map (arch : ARCH) (fw_version : SemVer) : result FirmwareFeatures :=
  match arch with
  | WORMHOLE_B0 =>
      if bundle_leb fw_version (bundle 18 3 0) then Ok create_wormhole_18_3_base
      else if bundle_leb fw_version (bundle 18 7 0) then Ok create_wormhole_18_4_base
      else if bundle_ltb fw_version (bundle 19 9 0) then Ok create_wormhole_18_8_base
      else Ok create_wormhole_19_9_base
  | BLACKHOLE =>
      if bundle_leb fw_version (bundle 18 7 0) then Ok create_blackhole_18_5_base
      else if bundle_ltb fw_version (bundle 19 8 0) then Ok create_blackhole_18_8_base
      else if bundle_ltb fw_version (bundle 19 9 0) then Ok create_blackhole_19_8_base
      else Ok create_blackhole_19_9_base
  | _ => throw "Unsupported architecture for telemetry feature map."
  end.
