(* ===== verification/FirmwareInfo.v ===== *)
(** * FirmwareInfo

    [FirmwareInfoProviderImplementation]
    ([firmware/firmware_info_provider_implementation.cpp]) over any telemetry
    reader, and the decoders of [firmware/firmware_utils.cpp]. A reading of
    telemetry moves the device and may update the reader, so a getter is a
    computation over both. The NOC that most getters are given is not used by
    the source and is left out; a temperature in whole degrees is a Z. *)

From Stdlib Require Import ZArith QArith Lia.
From stdpp Require Import base list list_numbers numbers strings gmap finite relations.
From S2P Require Import Prelude CoreTypes ArchData SemVer DeviceAccess TelemetryReader FirmwareFeatures.

Local Open Scope Z_scope.

(** ** Firmware versions and their encodings *)

Definition get_latest_supported_firmware_version (arch : ARCH) : SemVer := bundle 19 7 1.
Definition get_minimum_compatible_firmware_version (arch : ARCH) : result SemVer :=
  match arch with
  | WORMHOLE_B0 => Ok (bundle 18 3 0)
  | BLACKHOLE => Ok (bundle 18 5 0)
  | _ => throw "Unsupported architecture for firmware info provider."
  end.

(** Three bytes, from the highest to the lowest. *)
Definition low_bytes (d : Z) : SemVer :=
  MkSemVer (Z.land (Z.shiftr d 16) 0xFF) (Z.land (Z.shiftr d 8) 0xFF) (Z.land d 0xFF) 0.
Definition high_bytes (d : Z) : SemVer :=
  MkSemVer (Z.land (Z.shiftr d 24) 0xFF) (Z.land (Z.shiftr d 16) 0xFF) (Z.land (Z.shiftr d 8) 0xFF) 0.
Definition is_blackhole (arch : ARCH) : bool := bool_decide (arch = BLACKHOLE).

Definition get_tt_flash_version_from_telemetry (telemetry_data : Z) : SemVer := low_bytes telemetry_data.
Definition get_cm_fw_version_from_telemetry (telemetry_data : Z) (arch : ARCH) : SemVer :=
  if is_blackhole arch then high_bytes telemetry_data else low_bytes telemetry_data.
Definition get_dm_app_fw_version_from_telemetry (telemetry_data : Z) (arch : ARCH) : SemVer :=
  if is_blackhole arch then high_bytes telemetry_data else low_bytes telemetry_data.
Definition get_dm_bl_fw_version_from_telemetry (telemetry_data : Z) (arch : ARCH) : SemVer :=
  if is_blackhole arch then MkSemVer 0 0 0 0 else low_bytes telemetry_data.
Definition get_gddr_fw_version_from_telemetry (telemetry_data : Z) (arch : ARCH) : SemVer :=
  if is_blackhole arch then
    MkSemVer (Z.land (Z.shiftr telemetry_data 16) 0xFFFF) (Z.land telemetry_data 0xFFFF) 0 0
  else MkSemVer 0 0 0 0.

(** ** Conversions of a raw word *)

(** The value of a converter as a double; [None] for [NotAvailable]. *)
Definition convert (raw : Z) (c : DataConverter) : result (option Q) :=
  match c with
  | LinearTransform shift mask scale offset signedness =>
      if 32 <=? shift then Err UndefinedBehaviour
      else
        let masked := Z.land (Z.shiftr raw shift) mask in
        let value := if decide (signedness = SIGNED) then i32 masked else masked in
        Ok (Some (inject_Z value * scale + offset)%Q)
  | NotAvailable => Ok None
  end.
(** [static_cast] of a double to an unsigned type of [width] bits: the part
    before the point, undefined when it does not fit. *)
Definition to_unsigned (width : Z) (q : Q) : result Z :=
  let t := Z.quot (Qnum q) (Z.pos (Qden q)) in
  if bool_decide (0 ≤ t < 2 ^ width) then Ok t else Err UndefinedBehaviour.

(** ** DRAM training *)

(** [DramTrainingStatus]. *)
Inductive DramTrainingStatus := IN_PROGRESS | FAIL | SUCCESS.
#[global] Instance DramTrainingStatus_eq_dec : EqDecision DramTrainingStatus.
Proof. solve_decision. Defined.

(** The 4-bit status of older Wormhole firmware: none 0, fail 1, pass 2, skip 3. *)
Definition legacy_dram_status (status : Z) : DramTrainingStatus :=
  match status with 0 => IN_PROGRESS | 1 => FAIL | 2 | 3 => SUCCESS | _ => FAIL end.
(** [telemetry_data >> amount]: undefined for a shift by 32 or more. *)
Definition shift_right (telemetry_data amount : Z) : result Z :=
  if 32 <=? amount then Err UndefinedBehaviour else Ok (Z.shiftr telemetry_data amount).

Definition get_legacy_wormhole_dram_statuses (telemetry_data num_channels : Z) : result (list DramTrainingStatus) :=
  for_each (seqZ 0 num_channels) (λ channel statuses,
    shifted ← shift_right telemetry_data (channel * 4);
    Ok (statuses ++ [legacy_dram_status (Z.land shifted 0xF)])) [].

(** The error bit of the two decides. *)
Definition decode_dram_status_bits (two_bits : Z) : DramTrainingStatus :=
  match Z.land two_bits 0x3 with 1 => SUCCESS | 2 | 3 => FAIL | _ => IN_PROGRESS end.
Definition combine_statuses (training bist : DramTrainingStatus) : DramTrainingStatus :=
  if bool_decide (training = FAIL ∨ bist = FAIL) then FAIL
  else if bool_decide (training = SUCCESS ∧ bist = SUCCESS) then SUCCESS else IN_PROGRESS.

Definition get_modern_dram_statuses (telemetry_data num_channels : Z) (check_bist : bool)
  : result (list DramTrainingStatus) :=
  for_each (seqZ 0 num_channels) (λ channel statuses,
    low ← shift_right telemetry_data (channel * 2);
    let training := decode_dram_status_bits (Z.land low 0x3) in
    if negb check_bist then Ok (statuses ++ [training])
    else
      high ← shift_right telemetry_data (16 + channel * 2);
      let bist := decode_dram_status_bits (Z.land high 0x3) in
      Ok (statuses ++ [combine_statuses training bist])) [].

(** ** GDDR modules *)

(** [GddrModule], by its value 0 to 7. *)
Inductive GddrModule := GDDR_0 | GDDR_1 | GDDR_2 | GDDR_3 | GDDR_4 | GDDR_5 | GDDR_6 | GDDR_7.
#[global] Instance GddrModule_eq_dec : EqDecision GddrModule.
Proof. solve_decision. Defined.
Definition gddr_modules : list GddrModule := [GDDR_0; GDDR_1; GDDR_2; GDDR_3; GDDR_4; GDDR_5; GDDR_6; GDDR_7].
Lemma gddr_modules_NoDup : NoDup gddr_modules.
Proof. by apply (bool_decide_unpack _); vm_compute. Qed.
Lemma gddr_modules_complete m : m ∈ gddr_modules.
Proof. apply (bool_decide_unpack (m ∈ gddr_modules)). by destruct m; vm_compute. Qed.
#[global] Instance GddrModule_finite : Finite GddrModule :=
  {| enum := gddr_modules; NoDup_enum := gddr_modules_NoDup; elem_of_enum := gddr_modules_complete |}.
Definition gddr_value (m : GddrModule) : Z :=
  match m with
  | GDDR_0 => 0 | GDDR_1 => 1 | GDDR_2 => 2 | GDDR_3 => 3 | GDDR_4 => 4 | GDDR_5 => 5 | GDDR_6 => 6 | GDDR_7 => 7
  end.
Definition get_number_of_dram_modules (arch : ARCH) : result Z :=
  match arch with
  | WORMHOLE_B0 => Ok 6
  | BLACKHOLE => Ok 8
  | _ => throw "Unsupported architecture for DRAM module count."
  end.

Record GddrModuleTelemetry := MkGddr {
  dram_temperature_top : Z; dram_temperature_bottom : Z;
  corr_edc_rd_errors : Z; corr_edc_wr_errors : Z;
  uncorr_edc_rd_error : Z; uncorr_edc_wr_error : Z
}.
Definition GddrTelemetry := gmap GddrModule GddrModuleTelemetry.

Definition decode_gddr_module_telemetry (module_index temp_word corr_word uncorr_bitmask : Z) : GddrModuleTelemetry :=
  let bit_shift := if module_index `mod` 2 =? 1 then 16 else 0 in
  {| dram_temperature_bottom := Z.land (Z.shiftr temp_word bit_shift) 0xFF;
     dram_temperature_top := Z.land (Z.shiftr temp_word (bit_shift + 8)) 0xFF;
     corr_edc_rd_errors := Z.land (Z.shiftr corr_word bit_shift) 0xFF;
     corr_edc_wr_errors := Z.land (Z.shiftr corr_word (bit_shift + 8)) 0xFF;
     uncorr_edc_rd_error :=
       if negb (Z.land uncorr_bitmask (Z.shiftl 1 (module_index * 2)) =? 0) then 1 else 0;
     uncorr_edc_wr_error :=
       if negb (Z.land uncorr_bitmask (Z.shiftl 1 (module_index * 2 + 1)) =? 0) then 1 else 0 |}.

(** ** Ethernet status *)

Definition parse_eth_status_bitmask (arch : ARCH) (bitmask : Z) : result (list (CoreCoord * bool)) :=
  eth_cores_noc0 ←
    match arch with
    | WORMHOLE_B0 => Ok wormhole.ETH_CORES_NOC0
    | BLACKHOLE => Ok blackhole.ETH_CORES_NOC0
    | QUASAR => Ok grendel.ETH_CORES_NOC0
    | Invalid => throw "ETH status parsing not supported for this architecture."
    end;
  Ok (imap (λ channel core,
        (MkCoreCoord (xy_x core) (xy_y core) ETH CoreTypes.NOC0,
         negb (Z.land bitmask (Z.shiftl 1 (Z.of_nat channel)) =? 0))) eth_cores_noc0).

(** [filter_harvested_eth_status], given the harvested Ethernet cores of the
    SoC descriptor. *)
Definition filter_harvested_eth_status (harvested_cores : list CoreCoord) (statuses : list (CoreCoord * bool))
  : list (CoreCoord * bool) :=
  filter (λ entry, entry.1 ∉ harvested_cores) statuses.

(** ** The provider *)

Record FirmwareInfoProvider := MkProvider {
  arch_ : ARCH;
  firmware_version : SemVer;
  firmware_feature_map : FirmwareFeatures
}.

Definition MAX_NUMBER_OF_FANS : nat := 2.
Definition no_fans : list (option Z) := replicate MAX_NUMBER_OF_FANS None.
(** A reading of all ones means that there is no fan. *)
Definition fan_reading (all_ones v : Z) : option Z := if v =? all_ones then None else Some v.

Section Provider.
Context {F R : Type} `{!FirmwareTelemetryReader F R}.
(** [dynamic_cast<SmBusArcTelemetryReader*>(telemetry) != nullptr]. *)
Context (is_smbus_reader : R → bool).
Context (env : World F → World F) (locate : NocId → xy_pair → xy_pair) (now : F → Z).
Context (sleep_for : Z → World F → World F) (arc_core_noc0 arc_core_noc1 : xy_pair) (selected_noc_id : NocId).
Context (fuel : nat).

Definition telemetry_available (tag : Z) : H F R bool := λ r w, Some (Ok (tr_is_entry_available tag r), r, w).
Definition telemetry_read (tag : Z) : H F R Z := λ r w,
  match tr_read_entry tag r w with
  | Some (Ok (v, r'), w') => Some (Ok v, r', w')
  | Some (Err e, w') => Some (Err e, r, w')
  | None => None
  end.

(** The constructor, and [create_firmware_info_provider]. *)
Definition new_provider (version : SemVer) (arch : ARCH) : result FirmwareInfoProvider :=
  features ← create_firmware_feature_map arch version;
  Ok (MkProvider arch version features).
Definition create_firmware_info_provider (arch : ARCH) : H F R FirmwareInfoProvider := 
  version ← (λ r,
    if is_smbus_reader r then
      (tag ← telemetry_read LegacyTelemetryTag.FW_BUNDLE_VERSION; mret (from_firmware_bundle_tag tag)) r
    else
      (available ← telemetry_available TelemetryTag.FLASH_BUNDLE_VERSION;
       if available : bool then
         tag ← telemetry_read TelemetryTag.FLASH_BUNDLE_VERSION; mret (from_firmware_bundle_tag tag)
       else mret (bundle 0 0 0)) r);
  match arch with
  | WORMHOLE_B0 | BLACKHOLE => hlift (new_provider version arch)
  | _ => hraise "Unsupported architecture for FirmwareInfoProvider."
  end.

(** A fresh [SmBusArcTelemetryReader], which waits for the telemetry. *)
Definition with_smbus_reader {A} (m : M F A) : H F R A :=
  on_device (new_smbus_reader env locate now sleep_for arc_core_noc0 arc_core_noc1 selected_noc_id fuel;; m).

Definition read_raw_telemetry (k : FeatureKey) : H F R Z :=
  match k with
  | StandardTag tag | WormholeTag tag =>
      available ← telemetry_available tag;
      if available : bool then telemetry_read tag else mret 0
  | SmBusTag tag =>
      with_smbus_reader (smbus_read_entry env locate arc_core_noc0 arc_core_noc1 selected_noc_id tag)
  | FixedValue v => mret v
  end.

Context (p : FirmwareInfoProvider).

Definition is_feature_available (feature : FirmwareFeature) : H F R bool :=
  match firmware_feature_map p !! feature with
  | None => mret false
  | Some (MkProfile _ NotAvailable) => mret false
  | Some (MkProfile (StandardTag tag | WormholeTag tag) _) => telemetry_available tag
  | Some (MkProfile (SmBusTag tag) _) => with_smbus_reader (mret (smbus_is_entry_available tag))
  | Some (MkProfile (FixedValue _) _) => mret true
  end.

(** [read_scalar<double>], and [read_scalar] of an unsigned type of [width]
    bits. *)
Definition read_double (feature : FirmwareFeature) : H F R (option Q) :=
  available ← is_feature_available feature;
  if negb available then mret None
  else
    match firmware_feature_map p !! feature with
    | None => hlift (Err UndefinedBehaviour)
    | Some profile =>
        raw ← read_raw_telemetry (key profile);
        hlift (convert raw (converter profile))
    end.
Definition read_scalar (width : Z) (feature : FirmwareFeature) : H F R (option Z) :=
  value ← read_double feature;
  match value with
  | None => mret None
  | Some q => v ← hlift (to_unsigned width q); mret (Some v)
  end.

(** ** The getters *)

Definition get_firmware_version : SemVer := firmware_version p.

Definition get_board_id : H F R (option Z) :=
  high_available ← is_feature_available F_BOARD_ID_HIGH;
  available ← (if high_available : bool then is_feature_available F_BOARD_ID_LOW else mret false);
  if negb available then mret None
  else
    high ← read_scalar 32 F_BOARD_ID_HIGH;
    low ← read_scalar 32 F_BOARD_ID_LOW;
    mret (Some (Z.lor (Z.shiftl (default 0 high) 32) (default 0 low))).

Definition get_eth_fw_version : H F R (option Z) := read_scalar 32 F_ETH_FW_VERSION.
Definition get_eth_fw_version_semver : H F R (option SemVer) :=
  tag_value ← read_scalar 32 F_ETH_FW_VERSION;
  mret (match tag_value with
        | None => None
        | Some v =>
            if v =? 0 then None
            else match arch_ p with
                 | WORMHOLE_B0 => Some (from_wormhole_eth_firmware_tag v)
                 | BLACKHOLE => Some (from_blackhole_eth_firmware_tag v)
                 | _ => None
                 end
        end).
Definition get_gddr_fw_version : H F R (option SemVer) :=
  raw ← read_scalar 32 F_GDDR_FW_VERSION;
  mret ((λ raw, get_gddr_fw_version_from_telemetry raw (arch_ p)) <$> raw).
Definition get_cm_fw_version : H F R (option SemVer) :=
  raw ← read_scalar 32 F_CM_FW_VERSION;
  mret ((λ raw, get_cm_fw_version_from_telemetry raw (arch_ p)) <$> raw).
Definition get_dm_app_fw_version : H F R (option SemVer) :=
  raw ← read_scalar 32 F_DM_APP_FW_VERSION;
  mret ((λ raw, get_dm_app_fw_version_from_telemetry raw (arch_ p)) <$> raw).
Definition get_dm_bl_fw_version : H F R (option SemVer) :=
  raw ← read_scalar 32 F_DM_BL_FW_VERSION;
  mret ((λ raw, get_dm_bl_fw_version_from_telemetry raw (arch_ p)) <$> raw).
Definition get_tt_flash_version : H F R (option SemVer) :=
  raw ← read_scalar 32 F_TT_FLASH_VERSION;
  mret (get_tt_flash_version_from_telemetry <$> raw).

Definition get_asic_temperature : H F R (option Q) := read_double F_ASIC_TEMPERATURE.
Definition get_board_temperature : H F R (option Q) := read_double F_BOARD_TEMPERATURE.
Definition get_max_clock_freq : H F R (option Z) := read_scalar 32 F_MAX_CLOCK_FREQ.
Definition get_min_clock_freq : H F R (option Z) := mret None.
Definition get_aiclk : H F R (option Z) := read_scalar 32 F_AICLK.
Definition get_clock_freq : H F R (option Z) := get_aiclk.
Definition get_axiclk : H F R (option Z) := read_scalar 32 F_AXICLK.
Definition get_arcclk : H F R (option Z) := read_scalar 32 F_ARCCLK.
Definition get_tdp : H F R (option Z) := read_scalar 32 F_TDP.
Definition get_tdc : H F R (option Z) := read_scalar 32 F_TDC.
Definition get_vcore : H F R (option Z) := read_scalar 32 F_VCORE.
Definition get_asic_location : H F R (option Z) := read_scalar 8 F_ASIC_LOCATION.
Definition get_heartbeat : H F R (option Z) := read_scalar 32 F_HEARTBEAT.
Definition get_dram_speed : H F R (option Z) := read_scalar 16 F_DDR_SPEED.
Definition get_current_max_dram_temperature : H F R (option Q) := read_double F_MAX_GDDR_TEMP.
Definition get_thm_limit_shutdown : H F R (option Q) := read_double F_THM_LIMIT_SHUTDOWN.
Definition get_tdp_limit : H F R (option Z) := read_scalar 32 F_TDP_LIMIT_MAX.
Definition get_board_power_limit : H F R (option Z) := read_scalar 32 F_BOARD_POWER_LIMIT.
Definition get_thm_limit_throttle : H F R (option Q) := read_double F_THM_LIMIT_THROTTLE.
Definition get_therm_trip_count : H F R (option Z) := read_scalar 32 F_THERM_TRIP_COUNT.

(** The two fans: the first, or both since 19.10 on Wormhole. *)
Definition get_fan_speeds : H F R (list (option Z)) :=
  fan_speed ← read_scalar 32 F_FAN_SPEED;
  mret (match fan_speed with
        | None => no_fans
        | Some v => <[0%nat := fan_reading 0xFFFFFFFF v]> no_fans
        end).
Definition get_fan_rpms : H F R (list (option Z)) :=
  fan_rpm ← read_scalar 32 F_FAN_RPM;
  mret (match fan_rpm with
        | None => no_fans
        | Some v =>
            if bool_decide (arch_ p = WORMHOLE_B0) && bundle_geb (firmware_version p) (bundle 19 10 0) then
              <[1%nat := fan_reading 0xFFFF (Z.land v 0xFFFF)]>
                (<[0%nat := fan_reading 0xFFFF (Z.shiftr v 16)]> no_fans)
            else <[0%nat := fan_reading 0xFFFFFFFF v]> no_fans
        end).
Definition front (l : list (option Z)) : result (option Z) := vec_idx l 0.
Definition get_fan_speed : H F R (option Z) := speeds ← get_fan_speeds; hlift (front speeds).
Definition get_fan_rpm : H F R (option Z) := rpms ← get_fan_rpms; hlift (front rpms).

Definition get_dram_training_status (num_dram_channels : Z) : H F R (list DramTrainingStatus) :=
  telemetry_data ← read_scalar 32 F_DDR_STATUS;
  match telemetry_data with
  | None => mret []
  | Some data =>
      let is_legacy_wormhole :=
        bool_decide (arch_ p = WORMHOLE_B0) && bundle_leb (firmware_version p) (bundle 18 3 0) in
      let check_bist := bool_decide (arch_ p = BLACKHOLE) && bundle_geb (firmware_version p) (bundle 19 7 0) in
      hlift (if is_legacy_wormhole then get_legacy_wormhole_dram_statuses data num_dram_channels
             else get_modern_dram_statuses data num_dram_channels check_bist)
  end.

(** All tags from [first] on are available; the loop stops at the first that is
    not. *)
Fixpoint tags_available (tags : list Z) : H F R bool :=
  match tags with
  | [] => mret true
  | tag :: tags => available ← telemetry_available tag; if available : bool then tags_available tags else mret false
  end.
Definition gddr_telemetry_tags : list Z :=
  seqZ TelemetryTag.GDDR_0_1_TEMP (TelemetryTag.MAX_GDDR_TEMP - TelemetryTag.GDDR_0_1_TEMP + 1).
Definition gddr_telemetry_tags_available : H F R bool := tags_available gddr_telemetry_tags.

Definition get_dram_telemetry (gddr_module : GddrModule) : H F R (option GddrModuleTelemetry) :=
  let module_index := gddr_value gddr_module in
  let pair_index := Z.div module_index 2 in
  available ← tags_available [TelemetryTag.GDDR_0_1_TEMP + pair_index; TelemetryTag.GDDR_0_1_CORR_ERRS + pair_index;
                              TelemetryTag.GDDR_UNCORR_ERRS];
  if negb available then mret None
  else
    temp_word ← telemetry_read (TelemetryTag.GDDR_0_1_TEMP + pair_index);
    corr_word ← telemetry_read (TelemetryTag.GDDR_0_1_CORR_ERRS + pair_index);
    uncorr_bitmask ← telemetry_read TelemetryTag.GDDR_UNCORR_ERRS;
    mret (Some (decode_gddr_module_telemetry module_index temp_word corr_word uncorr_bitmask)).

(** The pairs of modules from the list on, the bitmask having been read. *)
Fixpoint read_gddr_pairs (uncorr_bitmask : Z) (pairs : list (GddrModule * GddrModule)) (aggregated : GddrTelemetry)
  : H F R GddrTelemetry :=
  match pairs with
  | [] => mret aggregated
  | (even_module, odd_module) :: pairs =>
      let pair := Z.div (gddr_value even_module) 2 in
      temp_word ← telemetry_read (TelemetryTag.GDDR_0_1_TEMP + pair);
      corr_word ← telemetry_read (TelemetryTag.GDDR_0_1_CORR_ERRS + pair);
      let decode m := decode_gddr_module_telemetry (gddr_value m) temp_word corr_word uncorr_bitmask in
      read_gddr_pairs uncorr_bitmask pairs
        (<[odd_module := decode odd_module]> (<[even_module := decode even_module]> aggregated))
  end.
Definition gddr_pairs : list (GddrModule * GddrModule) :=
  [(GDDR_0, GDDR_1); (GDDR_2, GDDR_3); (GDDR_4, GDDR_5); (GDDR_6, GDDR_7)].
Definition get_aggregated_dram_telemetry : H F R (option GddrTelemetry) :=
  available ← gddr_telemetry_tags_available;
  if negb available then mret None
  else
    uncorr_bitmask ← telemetry_read TelemetryTag.GDDR_UNCORR_ERRS;
    aggregated ← read_gddr_pairs uncorr_bitmask gddr_pairs ∅;
    mret (Some aggregated).

(** The Ethernet status of each core, from the mask of 16 channels. *)
Definition eth_status_per_core (feature : FirmwareFeature) : H F R (option (list (CoreCoord * bool))) :=
  data ← read_scalar 16 feature;
  match data with
  | None => mret None
  | Some data => statuses ← hlift (parse_eth_status_bitmask (arch_ p) data); mret (Some statuses)
  end.
Definition get_eth_heartbeat_status_per_core := eth_status_per_core F_ETH_HEARTBEAT_STATUS.
Definition get_eth_link_status_per_core := eth_status_per_core F_ETH_LINK_STATUS.
Definition get_eth_retrain_status_per_core := eth_status_per_core F_ETH_RETRAIN_STATUS.
Definition get_eth_heartbeat_status : H F R (option (list bool)) :=
  statuses ← get_eth_heartbeat_status_per_core; mret (map snd <$> statuses).
Definition get_eth_retrain_status : H F R (option (list bool)) :=
  statuses ← get_eth_retrain_status_per_core; mret (map snd <$> statuses).

(** The locator words of the runtime telemetry buffer. *)
Definition read_locator (wormhole_address blackhole_address : Z) (noc_id : NocId) : H F R (option Z) :=
  let arc_core := get_telemetry_arc_core arc_core_noc0 arc_core_noc1 noc_id in
  match arch_ p with
  | WORMHOLE_B0 =>
      if bundle_ltb (firmware_version p) (bundle 19 13 0) then mret None
      else v ← on_device (read_data env locate arc_core wormhole_address noc_id); mret (Some v)
  | BLACKHOLE =>
      if bundle_ltb (firmware_version p) (bundle 19 12 0) then mret None
      else v ← on_device (read_data env locate arc_core blackhole_address noc_id); mret (Some v)
  | _ => mret None
  end.
Definition ARC_CSM_NOC_XBAR_OFFSET_START : Z := 0x10000000.
Definition SCRATCH_REG_EXT_OFFSET : Z := 0x75C00.
Definition SCRATCH_RAM_22 : Z := 0x30000 + 0x458.
Definition SCRATCH_RAM_23 : Z := 0x30000 + 0x45C.
Definition get_runtime_telemetry_buffer_address : NocId → H F R (option Z) :=
  read_locator (ARC_NOC_ADDRESS_START + ARC_CSM_NOC_XBAR_OFFSET_START + SCRATCH_REG_EXT_OFFSET)
    (ARC_NOC_XBAR_ADDRESS_START + SCRATCH_RAM_22).
Definition get_runtime_telemetry_buffer_size : NocId → H F R (option Z) :=
  read_locator (ARC_NOC_ADDRESS_START + ARC_CSM_NOC_XBAR_OFFSET_START + (SCRATCH_REG_EXT_OFFSET + 4))
    (ARC_NOC_XBAR_ADDRESS_START + SCRATCH_RAM_23).

(** ** The TDP limit

    [ArcMessenger::send_message] of the device, as a parameter. *)

Context (arc_send_message : Z → list Z → M F Z).

Definition TDP_LIMIT_MIN_WATTS : Z := 50.
Definition TDP_LIMIT_MAX_WATTS : Z := 500.
Definition TDP_LIMIT_MIN_FIRMWARE_VERSION : SemVer := bundle 19 11 0.
Definition SET_TDP_LIMIT : Z := 0x22.

Definition is_tdp_limit_supported : bool :=
  is_blackhole (arch_ p) && bundle_geb (firmware_version p) TDP_LIMIT_MIN_FIRMWARE_VERSION.

Definition set_tdp_limit (tdp_limit_watts : Z) : H F R unit :=
  hlift (umd_assert ((TDP_LIMIT_MIN_WATTS <=? tdp_limit_watts) && (tdp_limit_watts <=? TDP_LIMIT_MAX_WATTS))
    "TDP limit is outside the range that firmware accepts.");;
  hlift (umd_assert is_tdp_limit_supported "Setting the TDP limit needs newer firmware on Blackhole.");;
  on_device (arc_send_message SET_TDP_LIMIT [tdp_limit_watts; 0]);;
  applied_limit ← get_tdp_limit;
  hlift (umd_assert (match applied_limit with None => true | Some v => v =? tdp_limit_watts end)
    "Firmware refused the TDP limit.").

Definition restore_default_tdp_limit : H F R unit :=
  hlift (umd_assert is_tdp_limit_supported "Restoring the TDP limit needs newer firmware on Blackhole.");;
  on_device (arc_send_message SET_TDP_LIMIT [0; 1]);;
  mret tt.
End Provider.

(** ** Lemmas on features

    Reasoning about the firmware information provider over any telemetry reader
    that keeps [TelemetryReaderLaws]: triples for its computations, what a read
    feature gives, and the shape of the feature tables. *)

Local Open Scope Z_scope.

(** ** Triples *)

Section Triples.
Context {F R : Type} {env : World F → World F} {sleep_for : Z → World F → World F}.
Context {tr : FirmwareTelemetryReader F R} {laws : TelemetryReaderLaws env sleep_for}.
Context (T : Telemetry).

(** From a reader that shows [T] the computation returns a value with [Q], and
    the reader still shows [T]. *)
Definition yields {A} (m : H F R A) (Q : A → Prop) : Prop :=
  ∀ r w, shows T r w → ∃ a r' w', m r w = Some (Ok a, r', w') ∧ Q a ∧ shows T r' w'.

Lemma yields_ret {A} (a : A) (Q : A → Prop) : Q a → yields (mret a) Q.
Proof. intros HQ r w Hs. by exists a, r, w. Qed.
Lemma yields_lift {A} (res : result A) (a : A) (Q : A → Prop) : res = Ok a → Q a → yields (hlift res) Q.
Proof. intros -> HQ r w Hs. by exists a, r, w. Qed.
Lemma yields_pure {A} (res : result A) (a : A) : res = Ok a → yields (hlift res) (λ x, x = a).
Proof. intros Hres. by apply (yields_lift res a). Qed.
Lemma yields_bind {A B} (m : H F R A) (f : A → H F R B) (P : A → Prop) (Q : B → Prop) :
  yields m P → (∀ a, P a → yields (f a) Q) → yields (m ≫= f) Q.
Proof.
  intros Hm Hf r w Hs. destruct (Hm r w Hs) as (a & r1 & w1 & Heq & HP & Hs1).
  destruct (Hf a HP r1 w1 Hs1) as (b & r2 & w2 & Heq2 & HQ & Hs2).
  exists b, r2, w2. unfold mbind, H_bind. by rewrite Heq.
Qed.
Lemma yields_mono {A} (m : H F R A) (P Q : A → Prop) : yields m P → (∀ a, P a → Q a) → yields m Q.
Proof. intros Hm HPQ r w Hs. destruct (Hm r w Hs) as (a & r' & w' & ? & ? & ?). exists a, r', w'. auto. Qed.
Lemma yields_available tag (Q : bool → Prop) : Q (published T tag) → yields (telemetry_available tag) Q.
Proof.
  intros HQ r w Hs. unfold telemetry_available. rewrite (shows_available T r w tag Hs). by exists (published T tag), r, w.
Qed.
Lemma yields_read tag : published T tag = true → yields (telemetry_read tag) (reading T tag).
Proof.
  intros Hp r w Hs. destruct (shows_read T r w tag Hs Hp) as (v & r' & w' & Heq & Hv & Hs' & _).
  exists v, r', w'. unfold telemetry_read. by rewrite Heq.
Qed.
(** The outcome of a run. *)
Lemma yields_run {A} (m : H F R A) (Q : A → Prop) r w a r' w' :
  yields m Q → shows T r w → m r w = Some (Ok a, r', w') → Q a ∧ shows T r' w'.
Proof. intros Hm Hs Heq. destruct (Hm r w Hs) as (? & ? & ? & Heq' & ? & ?). by simplify_eq. Qed.

Lemma yields_tags_available tags (Q : bool → Prop) :
  Q (forallb (published T) tags) → yields (tags_available tags) Q.
Proof.
  induction tags as [|tag tags IH]; intros HQ; [by apply yields_ret|]. cbn [tags_available forallb] in *.
  apply (yields_bind _ _ (λ b, b = published T tag)); [by apply yields_available|]. intros b ->.
  destruct (published T tag); [by apply IH|by apply yields_ret].
Qed.
End Triples.

(** ** Reading a feature *)

Definition linear (c : DataConverter) : bool := match c with LinearTransform _ _ _ _ _ => true | NotAvailable => false end.
(** A shift that is defined. *)
Definition converter_ok (c : DataConverter) : bool :=
  match c with LinearTransform shift _ _ _ _ => (0 <=? shift) && (shift <? 32) | NotAvailable => true end.
(** The tag of a key that the provider's own reader serves. *)
Definition key_tag (k : FeatureKey) : option Z :=
  match k with StandardTag tag | WormholeTag tag => Some tag | SmBusTag _ | FixedValue _ => None end.

(** The values that reading a profile may give. *)
Definition profile_value (T : Telemetry) (pf : FeatureProfile) (res : option Q) : Prop :=
  match key pf with
  | StandardTag tag | WormholeTag tag =>
      if linear (converter pf) && published T tag then
        ∃ raw, reading T tag raw ∧ convert raw (converter pf) = Ok res
      else res = None
  | FixedValue v => convert v (converter pf) = Ok res
  | SmBusTag _ => False
  end.

Section Feature.
Context {F R : Type} {env : World F → World F} {sleep_for : Z → World F → World F}.
Context {tr : FirmwareTelemetryReader F R} {laws : TelemetryReaderLaws env sleep_for}.
Context (locate : NocId → xy_pair → xy_pair) (now : F → Z) (arc0 arc1 : xy_pair) (noc : NocId) (fuel : nat).
Context (T : Telemetry) (p : FirmwareInfoProvider).
Let read_double_ := read_double (F:=F) (R:=R) env locate now sleep_for arc0 arc1 noc fuel p.
Let read_scalar_ := read_scalar (F:=F) (R:=R) env locate now sleep_for arc0 arc1 noc fuel p.
Let is_available := is_feature_available (F:=F) (R:=R) env locate now sleep_for arc0 arc1 noc fuel p.

Lemma convert_linear raw c : linear c = true → converter_ok c = true → ∃ q, convert raw c = Ok (Some q).
Proof.
  destruct c as [shift mask scale offset sign|]; [|done]. intros _ [_ Hs]%andb_prop. cbn.
  destruct (Z.leb_spec 32 shift); [|by eexists]. apply Z.ltb_lt in Hs. lia.
Qed.

Definition profile_available (pf : FeatureProfile) : bool :=
  linear (converter pf) && match key_tag (key pf) with Some tag => published T tag | None => true end.
Definition not_smbus (k : FeatureKey) : bool := match k with SmBusTag _ => false | _ => true end.

Lemma yields_feature_available f pf :
  firmware_feature_map p !! f = Some pf → not_smbus (key pf) = true →
  yields (laws:=laws) T (is_available f) (λ b, b = profile_available pf).
Proof.
  intros Hf Hk. unfold is_available, is_feature_available, profile_available. rewrite Hf.
  destruct pf as [[tag|tag|tag|v] [?????|]]; cbn in *; try done;
    by (apply yields_ret || apply yields_available).
Qed.

Lemma yields_feature f pf :
  firmware_feature_map p !! f = Some pf → not_smbus (key pf) = true → converter_ok (converter pf) = true →
  yields (laws:=laws) T (read_double_ f) (profile_value T pf).
Proof.
  intros Hf Hk Hc. unfold read_double_, read_double.
  apply (yields_bind _ _ _ (λ b, b = profile_available pf)); [by apply yields_feature_available|]. intros b ->.
  rewrite Hf. unfold profile_available, profile_value. destruct pf as [k c]. cbn [key converter] in *.
  destruct (linear c) eqn:Hl; cbn [andb].
  2: { destruct c; [done|]. apply yields_ret. by destruct k. }
  destruct k as [tag|tag|tag|v]; cbn [key_tag]; try done.
  1,2: destruct (published T tag) eqn:Ht; cbn [negb]; [|by apply yields_ret];
    apply (yields_bind _ _ _ (reading T tag)); [|intros raw Hraw;
      destruct (convert_linear raw c Hl Hc) as [q Hq]; eapply yields_lift; [exact Hq|]; by exists raw];
    cbn [read_raw_telemetry]; apply (yields_bind _ _ _ (λ b, b = true)); [by apply yields_available|]; intros b ->;
    by apply yields_read.
  cbn [negb read_raw_telemetry]. destruct (convert_linear v c Hl Hc) as [q Hq].
  apply (yields_bind _ _ _ (λ x, x = v)); [by apply yields_ret|]. intros x ->.
  by eapply yields_lift.
Qed.

(** An integer feature whose values fit. *)
Lemma yields_scalar width f pf :
  firmware_feature_map p !! f = Some pf → not_smbus (key pf) = true → converter_ok (converter pf) = true →
  (∀ q, profile_value T pf (Some q) → is_Ok (to_unsigned width q)) →
  yields (laws:=laws) T (read_scalar_ width f) (λ res, match res with
    | None => profile_value T pf None
    | Some v => ∃ q, profile_value T pf (Some q) ∧ to_unsigned width q = Ok v
    end).
Proof.
  intros Hf Hk Hc Hfit. unfold read_scalar_, read_scalar.
  eapply yields_bind; [by eapply yields_feature|]. intros [q|] Hq; [|by apply yields_ret].
  destruct (Hfit q Hq) as [v Hv].
  apply (yields_bind _ _ _ (λ x, x = v)); [by eapply yields_lift|]. intros x ->.
  apply yields_ret. by exists q.
Qed.
End Feature.
