(* ===== verification/FirmwareProperties.v ===== *)
(** * FirmwareProperties

    The correctness of the firmware information provider: which words of the
    telemetry each getter of each firmware version decodes, and how. *)

From Stdlib Require Import ZArith QArith Lia.
From stdpp Require Import base list list_numbers numbers strings gmap finite relations.
From S2P Require Import Prelude CoreTypes ArchData SemVer DeviceAccess TelemetryReader.
From S2P Require Import TelemetryProperties FirmwareFeatures FirmwareInfo.

Local Open Scope Z_scope.

(** ** The tables *)

(** The converters of the tables. *)
Definition table_converters : list DataConverter :=
  [NotAvailable; identity; low_half; high_half; fixed_16_16 SIGNED; fixed_16_16 UNSIGNED;
   LinearTransform 0 0xFFFF (1 # 16) 0 UNSIGNED].
#[global] Instance Q_eq_decision : EqDecision Q.
Proof. solve_decision. Defined.
#[global] Instance DataConverter_eq_dec : EqDecision DataConverter.
Proof. solve_decision. Defined.
Definition temperature_feature (f : FirmwareFeature) : bool :=
  bool_decide (f = F_ASIC_TEMPERATURE ∨ f = F_BOARD_TEMPERATURE).
Definition eth_feature (f : FirmwareFeature) : bool :=
  bool_decide (f = F_ETH_HEARTBEAT_STATUS ∨ f = F_ETH_RETRAIN_STATUS ∨ f = F_ETH_LINK_STATUS).
(** A profile of a table: tags and values in range, a converter of the tables,
    signed only for a temperature, half a word for an Ethernet status. *)
Definition profile_wf (f : FirmwareFeature) (pf : FeatureProfile) : bool :=
  match key pf with
  | StandardTag tag => (0 <? tag) && (tag <? TelemetryTag.NUMBER_OF_TAGS)
  | WormholeTag tag | SmBusTag tag => (0 <=? tag) && (tag <? LegacyTelemetryTag.NUMBER_OF_TAGS)
  | FixedValue v => (0 <=? v) && (v <? 2 ^ 32) && (bool_decide (f ≠ F_ASIC_LOCATION) || (v =? 0))
  end &&
  bool_decide (converter pf ∈ table_converters) &&
  (temperature_feature f || bool_decide (converter pf ≠ fixed_16_16 SIGNED)) &&
  (negb (eth_feature f) || bool_decide (converter pf ∈ [NotAvailable; low_half; high_half])) &&
  (bool_decide (f = F_MAX_CLOCK_FREQ) || not_smbus (key pf)) &&
  match key_tag (key pf) with
  | Some tag =>
      (bool_decide (f ≠ F_ASIC_LOCATION) || (tag =? TelemetryTag.ASIC_LOCATION)) &&
      (bool_decide (f ≠ F_DDR_SPEED) || (tag =? TelemetryTag.GDDR_SPEED))
  | None => bool_decide (f ≠ F_DDR_SPEED) || negb (linear (converter pf))
  end.
Definition table_wf (m : FirmwareFeatures) : bool :=
  forallb (λ f, match m !! f with
    | Some pf => profile_wf f pf
    | None => bool_decide (f = F_FIRMWARE_VERSION)
    end) features.

Lemma create_firmware_feature_map_wf arch version m :
  create_firmware_feature_map arch version = Ok m → table_wf m = true.
Proof.
  unfold create_firmware_feature_map. destruct arch; try done;
    repeat case_match; intros [= <-]; by vm_compute.
Qed.
Lemma feature_profile arch version p f :
  new_provider version arch = Ok p → f ≠ F_FIRMWARE_VERSION →
  ∃ pf, firmware_feature_map p !! f = Some pf ∧ profile_wf f pf = true.
Proof.
  unfold new_provider. destruct (create_firmware_feature_map arch version) as [m|] eqn:E; [|done].
  intros [= <-] Hf. apply create_firmware_feature_map_wf in E. cbn. unfold table_wf in E.
  rewrite forallb_forall in E. specialize (E f ltac:(apply list_elem_of_In, features_complete)).
  destruct (m !! f) as [pf|]; [by exists pf|]. by case_bool_decide.
Qed.

(** ** Conversions *)

Lemma land_16 v : Z.land v 0xFFFF = v `mod` 2 ^ 16.
Proof. by apply (Z.land_ones v 16). Qed.
Lemma land_32 v : Z.land v 0xFFFFFFFF = v `mod` 2 ^ 32.
Proof. by apply (Z.land_ones v 32). Qed.

Lemma to_unsigned_scaled width v d :
  0 ≤ v < 2 ^ width → to_unsigned width (inject_Z v * (1 # d) + 0)%Q = Ok (v `div` Z.pos d).
Proof.
  intros Hv. unfold to_unsigned.
  assert (Z.quot (Qnum (inject_Z v * (1 # d) + 0)) (Z.pos (Qden (inject_Z v * (1 # d) + 0))) = v `div` Z.pos d) as ->.
  { unfold Qplus, Qmult, inject_Z, Qnum, Qden. rewrite !Pos.mul_1_l, Pos.mul_1_r, Z.mul_0_l, Z.add_0_r, !Z.mul_1_r.
    apply Z.quot_div_nonneg; lia. }
  assert (0 ≤ v `div` Z.pos d ≤ v).
  { split; [apply Z.div_pos; lia|]. apply Z.div_le_upper_bound; nia. }
  by rewrite bool_decide_eq_true_2 by lia.
Qed.
Lemma to_unsigned_integer width v : 0 ≤ v < 2 ^ width → to_unsigned width (inject_Z v * 1 + 0)%Q = Ok v.
Proof. intros Hv. rewrite (to_unsigned_scaled width v 1 Hv). by rewrite Z.div_1_r. Qed.

(** The three integer converters of the tables. *)
Lemma convert_identity raw : 0 ≤ raw < 2 ^ 32 → convert raw identity = Ok (Some (inject_Z raw * 1 + 0)%Q).
Proof. intros Hr. cbn. rewrite Z.shiftr_0_r, land_32, Z.mod_small by done. done. Qed.
Lemma convert_low_half raw : convert raw low_half = Ok (Some (inject_Z (raw `mod` 2 ^ 16) * 1 + 0)%Q).
Proof. cbn. by rewrite Z.shiftr_0_r, land_16. Qed.
Lemma convert_high_half raw :
  0 ≤ raw < 2 ^ 32 → convert raw high_half = Ok (Some (inject_Z (raw `div` 2 ^ 16) * 1 + 0)%Q).
Proof.
  intros Hr. cbn. rewrite Z.shiftr_div_pow2, land_16 by lia. rewrite (Z.mod_small (raw `div` 2 ^ 16)); [done|].
  split; [apply Z.div_pos; lia|]. apply Z.div_lt_upper_bound; lia.
Qed.

(** Every unsigned conversion of the tables fits; the exact range of the
    integer ones. *)
Lemma convert_fits raw c q :
  0 ≤ raw < 2 ^ 32 → c ∈ table_converters → c ≠ fixed_16_16 SIGNED → convert raw c = Ok (Some q) →
  ∃ v, to_unsigned 32 q = Ok v ∧ 0 ≤ v ≤ raw ∧
    (c ∈ [NotAvailable; low_half; high_half] → to_unsigned 16 q = Ok v ∧ v < 2 ^ 16) ∧
    (∀ width, raw < 2 ^ width → to_unsigned width q = Ok v).
Proof.
  intros Hr Hc Hs Hq.
  assert (∃ w d, q = (inject_Z w * (1 # d) + 0)%Q ∧ 0 ≤ w ≤ raw ∧ (c ∈ [NotAvailable; low_half; high_half] → w < 2 ^ 16)) as
    (w & d & -> & Hw & Hhalf).
  { unfold table_converters in Hc. rewrite !elem_of_cons in Hc.
    destruct Hc as [->|[->|[->|[->|[->|[->|[->|[]%elem_of_nil]]]]]]]; try done.
    - rewrite convert_identity in Hq by done. injection Hq as <-. exists raw, 1%positive. split; [done|]. split; [lia|].
      rewrite !elem_of_cons. intros [?|[?|[?|[]%elem_of_nil]]]; done.
    - rewrite convert_low_half in Hq. injection Hq as <-. exists (raw `mod` 2 ^ 16), 1%positive.
      pose proof (Z.mod_pos_bound raw (2 ^ 16) eq_refl). pose proof (Z.mod_le raw (2 ^ 16) ltac:(lia) eq_refl).
      split; [done|]. split; [lia|]. intros _. lia.
    - rewrite convert_high_half in Hq by done. injection Hq as <-. exists (raw `div` 2 ^ 16), 1%positive.
      assert (0 ≤ raw `div` 2 ^ 16) by (apply Z.div_pos; lia).
      assert (raw `div` 2 ^ 16 < 2 ^ 16) by (apply Z.div_lt_upper_bound; lia).
      assert (raw `div` 2 ^ 16 ≤ raw) by (apply Z.div_le_upper_bound; lia). done.
    - cbn in Hq. rewrite Z.shiftr_0_r, land_32, Z.mod_small in Hq by done. injection Hq as <-.
      exists raw, 65536%positive. split; [done|]. split; [lia|].
      rewrite !elem_of_cons. intros [?|[?|[?|[]%elem_of_nil]]]; done.
    - cbn in Hq. rewrite Z.shiftr_0_r, land_16 in Hq. injection Hq as <-.
      exists (raw `mod` 2 ^ 16), 16%positive. split; [done|].
      pose proof (Z.mod_pos_bound raw (2 ^ 16) eq_refl). pose proof (Z.mod_le raw (2 ^ 16) ltac:(lia) eq_refl).
      split; [lia|]. intros _. lia. }
  assert (0 ≤ w `div` Z.pos d ≤ w).
  { split; [apply Z.div_pos; lia|]. apply Z.div_le_upper_bound; nia. }
  exists (w `div` Z.pos d). split; [apply to_unsigned_scaled; lia|]. split; [lia|]. split.
  - intros Hin. specialize (Hhalf Hin). split; [apply to_unsigned_scaled|]; lia.
  - intros width Hwidth. apply to_unsigned_scaled. lia.
Qed.

(** ** The type of a reading *)

(** The width of the type that the getter of a feature reads. *)
Definition feature_width (f : FirmwareFeature) : Z :=
  match f with
  | F_ASIC_LOCATION => 8
  | F_DDR_SPEED | F_ETH_HEARTBEAT_STATUS | F_ETH_RETRAIN_STATUS | F_ETH_LINK_STATUS => 16
  | _ => 32
  end.
Definition word_readings (T : Telemetry) : Prop := ∀ tag v, reading T tag v → 0 ≤ v < 2 ^ 32.
(** The two features whose word is narrowed without a mask. *)
Definition narrow_tag (f : FirmwareFeature) : option Z :=
  match f with F_ASIC_LOCATION => Some TelemetryTag.ASIC_LOCATION | F_DDR_SPEED => Some TelemetryTag.GDDR_SPEED | _ => None end.

Lemma profile_wf_inv f pf :
  profile_wf f pf = true →
  converter pf ∈ table_converters ∧ (temperature_feature f = false → converter pf ≠ fixed_16_16 SIGNED) ∧
  (eth_feature f = true → converter pf ∈ [NotAvailable; low_half; high_half]) ∧
  (f ≠ F_MAX_CLOCK_FREQ → not_smbus (key pf) = true) ∧
  (∀ v, key pf = FixedValue v → 0 ≤ v < 2 ^ 32 ∧ (f = F_ASIC_LOCATION → v = 0) ∧
     (f = F_DDR_SPEED → linear (converter pf) = false)) ∧
  (∀ tag, key_tag (key pf) = Some tag →
     (f = F_ASIC_LOCATION → tag = TelemetryTag.ASIC_LOCATION) ∧ (f = F_DDR_SPEED → tag = TelemetryTag.GDDR_SPEED)).
Proof.
  unfold profile_wf. rewrite !andb_true_iff. intros [[[[[Hk Hc] Ht] He] Hs] Hn].
  split; [by apply bool_decide_eq_true in Hc|].
  split; [intros E; rewrite E in Ht; by apply bool_decide_eq_true in Ht|].
  split; [intros E; rewrite E in He; by apply bool_decide_eq_true in He|].
  split; [intros E; by rewrite bool_decide_eq_false_2 in Hs|]. split.
  - intros v Hv. rewrite Hv in Hk, Hn. cbn [key_tag] in Hn. rewrite !andb_true_iff in Hk.
    destruct Hk as [[H1%Z.leb_le H2%Z.ltb_lt] H3]. split; [done|]. split.
    + intros ->. cbn in H3. by apply Z.eqb_eq.
    + intros ->. cbn in Hn. by apply negb_true_iff.
  - intros tag Htag. rewrite Htag in Hn. apply andb_prop in Hn as [H1 H2]. split; intros ->.
    + cbn in H1. by apply Z.eqb_eq.
    + cbn in H2. by apply Z.eqb_eq.
Qed.

Lemma table_converters_ok c : c ∈ table_converters → converter_ok c = true.
Proof.
  unfold table_converters. rewrite !elem_of_cons.
  by intros [->|[->|[->|[->|[->|[->|[->|[]%elem_of_nil]]]]]]].
Qed.

Lemma profile_value_convert T pf q :
  profile_value T pf (Some q) →
  ∃ raw, convert raw (converter pf) = Ok (Some q) ∧
    match key pf with
    | StandardTag tag | WormholeTag tag => reading T tag raw ∧ published T tag = true
    | FixedValue v => raw = v
    | SmBusTag _ => False
    end.
Proof.
  unfold profile_value. destruct (key pf) as [tag|tag|tag|v]; [| |done|by exists v].
  all: destruct (linear (converter pf)); [|done]; destruct (published T tag) eqn:E; [|done]; cbn;
    intros (raw & Hr & Hc); by exists raw.
Qed.

Lemma to_unsigned_cases width q :
  (∃ v, to_unsigned width q = Ok v ∧ 0 ≤ v < 2 ^ width) ∨ to_unsigned width q = Err UndefinedBehaviour.
Proof. unfold to_unsigned. case_bool_decide; [left; by eexists|by right]. Qed.
(** The cast is defined unless the feature is narrowed and its word is too large. *)
Lemma profile_value_fits T f pf q :
  profile_wf f pf = true → temperature_feature f = false → word_readings T → profile_value T pf (Some q) →
  (∃ v, to_unsigned (feature_width f) q = Ok v ∧ 0 ≤ v < 2 ^ feature_width f) ∨
  (to_unsigned (feature_width f) q = Err UndefinedBehaviour ∧
   ∃ tag raw, narrow_tag f = Some tag ∧ reading T tag raw ∧ 2 ^ feature_width f ≤ raw).
Proof.
  intros Hwf Htemp Hword Hq. destruct (profile_wf_inv _ _ Hwf) as (Hc & Hs & He & _ & Hfix & Htag).
  destruct (profile_value_convert _ _ _ Hq) as (raw & Hconv & Hraw).
  destruct (to_unsigned_cases (feature_width f) q) as [?|Hub]; [by left|right]. split; [done|].
  assert (linear (converter pf) = true) as Hlin by (destruct (converter pf); [done|by cbn in Hconv]).
  assert (0 ≤ raw < 2 ^ 32) as Hr.
  { destruct (key pf) as [tag|tag|tag|v] eqn:Ek; cbn in Hraw; try done.
    1,2: by eapply Hword, Hraw. subst raw. by destruct (Hfix v eq_refl). }
  destruct (convert_fits raw _ q Hr Hc (Hs Htemp) Hconv) as (v & H32 & Hv & Hhalf & Hw).
  destruct (decide (raw < 2 ^ feature_width f)) as [Hlt|Hge]; [by rewrite (Hw _ Hlt) in Hub|].
  assert (f = F_ASIC_LOCATION ∨ f = F_DDR_SPEED) as Hf.
  { destruct f; auto; cbn [feature_width] in *; try congruence.
    all: destruct (Hhalf (He eq_refl)); congruence. }
  destruct (key pf) as [tag|tag|tag|x] eqn:Ek; cbn in Hraw; try done.
  1,2: destruct (Htag tag eq_refl) as [H1 H2]; exists tag, raw; (split; [by destruct Hf as [->| ->]; cbn; f_equal; symmetry; auto|]);
    split; [apply Hraw|lia].
  subst raw. destruct (Hfix x eq_refl) as (_ & H0 & H1). destruct Hf as [->| ->]; [|by rewrite H1 in Hlin].
  rewrite H0 in Hge by done. by destruct Hge.
Qed.

Lemma max_clock_not_smbus version p pf :
  new_provider version BLACKHOLE = Ok p → firmware_feature_map p !! F_MAX_CLOCK_FREQ = Some pf →
  not_smbus (key pf) = true.
Proof.
  unfold new_provider, create_firmware_feature_map. repeat case_match; intros [= <-] Hpf; vm_compute in Hpf;
    by injection Hpf as <-.
Qed.

(** ** Ordering of versions *)

Lemma bundle_ltb_lex v w : bundle_ltb v w = lex_ltb (bundle_key v) (bundle_key w).
Proof.
  unfold bundle_ltb, compare_firmware_bundle. rewrite !bundle_ltb_key.
  destruct (lex_ltb (bundle_key v) (bundle_key w)); [done|]. by destruct (lex_ltb _ _).
Qed.
Lemma bundle_leb_lex v w : bundle_leb v w = negb (lex_ltb (bundle_key w) (bundle_key v)).
Proof.
  unfold bundle_leb, compare_firmware_bundle. rewrite !bundle_ltb_key.
  destruct (lex_ltb (bundle_key v) (bundle_key w)) eqn:E1, (lex_ltb (bundle_key w) (bundle_key v)) eqn:E2; try done.
  pose proof (lex_trans _ _ _ E1 E2) as Ht. by rewrite lex_irrefl in Ht.
Qed.
Lemma bundle_leb_ltb v w u : bundle_leb v w = true → bundle_ltb w u = true → bundle_ltb v u = true.
Proof.
  rewrite bundle_leb_lex, !bundle_ltb_lex. intros Hle%negb_true_iff Hlt.
  destruct (lex_trichotomy (bundle_key v) (bundle_key w) eq_refl) as [E|[E|E]]; [|by rewrite E|congruence].
  by apply (lex_trans _ _ _ E Hlt).
Qed.
Lemma bundle_ltb_trans v w u : bundle_ltb v w = true → bundle_ltb w u = true → bundle_ltb v u = true.
Proof. rewrite !bundle_ltb_lex. apply lex_trans. Qed.

(** ** Ethernet status *)

Definition eth_cores (arch : ARCH) : list xy_pair :=
  match arch with WORMHOLE_B0 => wormhole.ETH_CORES_NOC0 | BLACKHOLE => blackhole.ETH_CORES_NOC0 | _ => [] end.
(** Bit [i] of the mask is the status of the core of channel [i]. *)
Definition mask_statuses (arch : ARCH) (mask : Z) : list (CoreCoord * bool) :=
  imap (λ i core, (MkCoreCoord (xy_x core) (xy_y core) ETH CoreTypes.NOC0, Z.testbit mask (Z.of_nat i))) (eth_cores arch).

Lemma land_bit_testbit m i : 0 ≤ i < 31 → negb (Z.land m (Z.shiftl 1 i) =? 0) = Z.testbit m i.
Proof.
  intros Hi. pose proof (test_mask_spec m i Hi) as Ht. unfold test_mask in Ht.
  rewrite bool_decide_eq_true_2 in Ht by done. by injection Ht.
Qed.
Lemma parse_eth_status_bitmask_spec arch mask :
  arch = WORMHOLE_B0 ∨ arch = BLACKHOLE → parse_eth_status_bitmask arch mask = Ok (mask_statuses arch mask).
Proof.
  assert (length (eth_cores arch) ≤ 16)%nat as Hlen by (destruct arch; vm_compute; lia).
  intros Harch. assert (parse_eth_status_bitmask arch mask = Ok (imap (λ channel core,
    (MkCoreCoord (xy_x core) (xy_y core) ETH CoreTypes.NOC0,
     negb (Z.land mask (Z.shiftl 1 (Z.of_nat channel)) =? 0))) (eth_cores arch))) as -> by (by destruct Harch as [->| ->]).
  f_equal. apply imap_ext. intros i core Hi%lookup_lt_Some. f_equal. apply land_bit_testbit. lia.
Qed.

(** The tag of the word with the statuses. *)
Definition eth_live_tag (arch : ARCH) (version : SemVer) : Z :=
  if bool_decide (arch = WORMHOLE_B0) && bundle_leb version (bundle 18 3 0)
  then LegacyTelemetryTag.ETH_LIVE_STATUS else TelemetryTag.ETH_LIVE_STATUS.
(** What each version reports of the word: the lower half is the heartbeat; the
    upper half is the retrain status before 19.9 and the link status from it
    on; Blackhole reports nothing before 19.9. *)
Definition eth_heartbeat_spec (arch : ARCH) (version : SemVer) (raw : Z) : option (list (CoreCoord * bool)) :=
  if bool_decide (arch = BLACKHOLE) && bundle_ltb version (bundle 19 9 0) then None
  else Some (mask_statuses arch (raw `mod` 2 ^ 16)).
Definition eth_link_spec (arch : ARCH) (version : SemVer) (raw : Z) : option (list (CoreCoord * bool)) :=
  if bundle_ltb version (bundle 19 9 0) then None else Some (mask_statuses arch (raw `div` 2 ^ 16)).
Definition eth_retrain_spec (arch : ARCH) (version : SemVer) (raw : Z) : option (list (CoreCoord * bool)) :=
  if bool_decide (arch = WORMHOLE_B0) && bundle_ltb version (bundle 19 9 0)
  then Some (mask_statuses arch (raw `div` 2 ^ 16)) else None.

(** How a feature is read from the word of the statuses. *)
Definition reads_half (pf : option FeatureProfile) (tag : Z) (half : option DataConverter) : Prop :=
  match half with
  | None => converter <$> pf = Some NotAvailable
  | Some c => ∃ k, pf = Some (MkProfile k c) ∧ (k = StandardTag tag ∨ k = WormholeTag tag)
  end.

Lemma eth_profiles arch version p :
  new_provider version arch = Ok p →
  reads_half (firmware_feature_map p !! F_ETH_HEARTBEAT_STATUS) (eth_live_tag arch version)
    (if bool_decide (arch = BLACKHOLE) && bundle_ltb version (bundle 19 9 0) then None else Some low_half) ∧
  reads_half (firmware_feature_map p !! F_ETH_LINK_STATUS) (eth_live_tag arch version)
    (if bundle_ltb version (bundle 19 9 0) then None else Some high_half) ∧
  reads_half (firmware_feature_map p !! F_ETH_RETRAIN_STATUS) (eth_live_tag arch version)
    (if bool_decide (arch = WORMHOLE_B0) && bundle_ltb version (bundle 19 9 0) then Some high_half else None).
Proof.
  unfold new_provider, create_firmware_feature_map, eth_live_tag. destruct arch; try done.
  - destruct (bundle_leb version (bundle 18 3 0)) eqn:E1; [|destruct (bundle_leb version (bundle 18 7 0)) eqn:E2;
      [|destruct (bundle_ltb version (bundle 19 9 0)) eqn:E3]].
    1: rewrite (bundle_leb_ltb _ _ (bundle 19 9 0) E1 eq_refl).
    2: rewrite (bundle_leb_ltb _ _ (bundle 19 9 0) E2 eq_refl).
    all: intros [= <-]; cbn -[create_wormhole_18_3_base create_wormhole_18_4_base create_wormhole_18_8_base create_wormhole_19_9_base];
      split; [|split]; vm_compute; eauto.
  - destruct (bundle_leb version (bundle 18 7 0)) eqn:E1; [|destruct (bundle_ltb version (bundle 19 8 0)) eqn:E2;
      [|destruct (bundle_ltb version (bundle 19 9 0)) eqn:E3]].
    1: rewrite (bundle_leb_ltb _ _ (bundle 19 9 0) E1 eq_refl).
    2: rewrite (bundle_ltb_trans _ _ (bundle 19 9 0) E2 eq_refl).
    all: intros [= <-]; cbn -[create_blackhole_18_5_base create_blackhole_18_8_base create_blackhole_19_8_base create_blackhole_19_9_base];
      split; [|split]; vm_compute; eauto.
Qed.

(** ** The two generations of telemetry *)

(** Firmware before the new telemetry: Wormhole up to 18.3.0. *)
Definition legacy (arch : ARCH) (version : SemVer) : bool :=
  bool_decide (arch = WORMHOLE_B0) && bundle_leb version (bundle 18 3 0).
Definition new_tables : list FirmwareFeatures :=
  [create_wormhole_18_4_base; create_wormhole_18_8_base; create_wormhole_19_9_base; create_blackhole_18_5_base;
   create_blackhole_18_8_base; create_blackhole_19_8_base; create_blackhole_19_9_base].
(** A feature that changed only with the new telemetry. *)
Lemma feature_by_generation arch version p f pf_old pf_new :
  new_provider version arch = Ok p → create_wormhole_18_3_base !! f = Some pf_old →
  Forall (λ m, m !! f = Some pf_new) new_tables →
  firmware_feature_map p !! f = Some (if legacy arch version then pf_old else pf_new).
Proof.
  intros Hp Hold Hnew. unfold new_tables in Hnew. rewrite !Forall_cons in Hnew.
  destruct Hnew as (H1 & H2 & H3 & H4 & H5 & H6 & H7 & _).
  unfold new_provider, create_firmware_feature_map, legacy in *.
  destruct arch; [| |discriminate Hp|discriminate Hp].
  - destruct (bundle_leb version (bundle 18 3 0)); [injection Hp as <-; exact Hold|].
    destruct (bundle_leb version (bundle 18 7 0)); [injection Hp as <-; exact H1|].
    destruct (bundle_ltb version (bundle 19 9 0)); injection Hp as <-; [exact H2|exact H3].
  - destruct (bundle_leb version (bundle 18 7 0)); [injection Hp as <-; exact H4|].
    destruct (bundle_ltb version (bundle 19 8 0)); [injection Hp as <-; exact H5|].
    destruct (bundle_ltb version (bundle 19 9 0)); injection Hp as <-; [exact H6|exact H7].
Qed.

(** A feature that is a whole word, of one tag before the new telemetry and of
    another one since. *)
Definition word_feature (f : FirmwareFeature) (tag_old tag_new : Z) : Prop :=
  create_wormhole_18_3_base !! f = Some (MkProfile (WormholeTag tag_old) identity) ∧
  Forall (λ m, m !! f = Some (MkProfile (StandardTag tag_new) identity)) new_tables.
Ltac in_tables := split; [|repeat constructor]; vm_compute; reflexivity.
Lemma ddr_status_word : word_feature F_DDR_STATUS LegacyTelemetryTag.DDR_STATUS TelemetryTag.GDDR_STATUS.
Proof. in_tables. Qed.
Lemma board_id_high_word : word_feature F_BOARD_ID_HIGH LegacyTelemetryTag.BOARD_ID_HIGH TelemetryTag.BOARD_ID_HIGH.
Proof. in_tables. Qed.
Lemma board_id_low_word : word_feature F_BOARD_ID_LOW LegacyTelemetryTag.BOARD_ID_LOW TelemetryTag.BOARD_ID_LOW.
Proof. in_tables. Qed.

(** ** DRAM training *)

Lemma land_3_bits x : Z.land x 3 = Z.b2z (Z.testbit x 0) + 2 * Z.b2z (Z.testbit x 1).
Proof.
  change 3 with (Z.ones 2). rewrite Z.land_ones by lia. rewrite !Z.testbit_spec' by lia.
  change (2 ^ 2) with (2 * 2). rewrite Z.rem_mul_r by lia. by rewrite Z.pow_0_r, Z.div_1_r.
Qed.
Lemma decode_dram_status_bits_spec raw k :
  0 ≤ k → decode_dram_status_bits (Z.land (Z.shiftr raw k) 0x3) =
    if Z.testbit raw (k + 1) then FAIL else if Z.testbit raw k then SUCCESS else IN_PROGRESS.
Proof.
  intros Hk. unfold decode_dram_status_bits. rewrite <- Z.land_assoc. change (Z.land 3 3) with 3.
  rewrite land_3_bits, !Z.shiftr_spec by lia. rewrite Z.add_0_l, (Z.add_comm 1).
  by destruct (Z.testbit raw k), (Z.testbit raw (k + 1)).
Qed.

(** The status of a channel: failed if training, or BIST where it is reported,
    has its error bit; passed if both have completed. *)
Definition dram_status_spec (raw : Z) (check_bist : bool) (channel : Z) : DramTrainingStatus :=
  if Z.testbit raw (2 * channel + 1) || (check_bist && Z.testbit raw (16 + 2 * channel + 1)) then FAIL
  else if Z.testbit raw (2 * channel) && (negb check_bist || Z.testbit raw (16 + 2 * channel)) then SUCCESS
  else IN_PROGRESS.
(** The nibble of a channel in the legacy format. *)
Definition legacy_status_spec (raw channel : Z) : DramTrainingStatus :=
  legacy_dram_status ((raw `div` 2 ^ (4 * channel)) `mod` 16).

(** A loop over the channels that appends a status for each. *)
Lemma for_each_push (n : Z) (f : Z → list DramTrainingStatus → result (list DramTrainingStatus)) (g : Z → DramTrainingStatus) :
  0 ≤ n → (∀ i l, 0 ≤ i < n → f i l = Ok (l ++ [g i])) → for_each (seqZ 0 n) f [] = Ok (map g (seqZ 0 n)).
Proof.
  intros Hn Hf. destruct (for_each_seqZ (λ i l, l = map g (seqZ 0 i)) 0 n f [] Hn eq_refl) as (l & -> & ->); [|done].
  intros i l Hi ->. eexists. split; [by apply Hf|]. by rewrite seqZ_snoc, map_app by lia.
Qed.
Lemma shift_right_spec raw k : k < 32 → shift_right raw k = Ok (Z.shiftr raw k).
Proof. intros Hk. unfold shift_right. by rewrite (proj2 (Z.leb_gt 32 k)). Qed.

Lemma get_modern_dram_statuses_spec raw n (check_bist : bool) :
  0 ≤ n ≤ (if check_bist then 8 else 16) →
  get_modern_dram_statuses raw n check_bist = Ok (map (dram_status_spec raw check_bist) (seqZ 0 n)).
Proof.
  intros Hn. apply for_each_push; [lia|]. intros i l Hi.
  rewrite (shift_right_spec raw (i * 2)) by (destruct check_bist; lia). cbn [mbind result_bind].
  rewrite decode_dram_status_bits_spec by lia. unfold dram_status_spec. rewrite (Z.mul_comm i 2).
  destruct check_bist; cbn [negb andb orb].
  - rewrite shift_right_spec by lia. cbn [mbind result_bind]. rewrite decode_dram_status_bits_spec by lia.
    by destruct (Z.testbit raw (2 * i)), (Z.testbit raw (2 * i + 1)), (Z.testbit raw (16 + 2 * i)),
      (Z.testbit raw (16 + 2 * i + 1)).
  - by destruct (Z.testbit raw (2 * i)), (Z.testbit raw (2 * i + 1)).
Qed.
Lemma get_legacy_wormhole_dram_statuses_spec raw n :
  0 ≤ n ≤ 8 → get_legacy_wormhole_dram_statuses raw n = Ok (map (legacy_status_spec raw) (seqZ 0 n)).
Proof.
  intros Hn. apply for_each_push; [lia|]. intros i l Hi. rewrite shift_right_spec by lia. cbn [mbind result_bind].
  unfold legacy_status_spec. do 4 f_equal. rewrite Z.shiftr_div_pow2 by lia. rewrite (Z.mul_comm i 4).
  change 0xF with (Z.ones 4). by rewrite Z.land_ones by lia.
Qed.

Section Provider.
Context {F R : Type} {env : World F → World F} {sleep_for : Z → World F → World F}.
Context {tr : FirmwareTelemetryReader F R} {laws : TelemetryReaderLaws env sleep_for}.
Context (locate : NocId → xy_pair → xy_pair) (now : F → Z) (arc0 arc1 : xy_pair) (noc : NocId) (fuel : nat).
Let read_scalar_ := read_scalar (F:=F) (R:=R) env locate now sleep_for arc0 arc1 noc fuel.
Let read_double_ := read_double (F:=F) (R:=R) env locate now sleep_for arc0 arc1 noc fuel.
Implicit Types (r : R) (w : World F).

(** A feature of a provider, on a reader that does not need the SMBus. *)
Lemma yields_table_double arch version p f T :
  new_provider version arch = Ok p → f ≠ F_FIRMWARE_VERSION → (f = F_MAX_CLOCK_FREQ → arch = BLACKHOLE) →
  ∃ pf, profile_wf f pf = true ∧ yields (laws:=laws) T (read_double_ p f) (profile_value T pf).
Proof.
  intros Hp Hf Hclock. destruct (feature_profile arch version p f Hp Hf) as (pf & Hpf & Hwf).
  exists pf. split; [done|]. destruct (profile_wf_inv _ _ Hwf) as (Hc & _ & _ & Hsm & _).
  assert (not_smbus (key pf) = true) as Hns.
  { destruct (decide (f = F_MAX_CLOCK_FREQ)) as [->|]; [|auto].
    rewrite (Hclock eq_refl) in Hp. by eapply max_clock_not_smbus. }
  by apply yields_feature; [| |apply table_converters_ok].
Qed.

(** C33: Reading an integer feature is well typed, up to the two features that the
    code narrows without a mask. On every supported architecture and firmware
    version, every integer feature of the provider that its own telemetry
    serves (all but the maximal clock of a Wormhole, which is on the SMBus) reads
    without an exception, whatever 32-bit words the telemetry gives, and a
    value that is present fits the type of its getter (8, 16 or 32 bits). The cast
    is undefined behaviour for the ASIC location (8 bits) and the DRAM speed (16
    bits) only, and only when the firmware's word for it does not fit. *)
Theorem read_scalar_well_typed arch version p f T r w :
  new_provider version arch = Ok p → f ≠ F_FIRMWARE_VERSION → temperature_feature f = false →
  (f = F_MAX_CLOCK_FREQ → arch = BLACKHOLE) → word_readings T → shows T r w →
  ∃ out r' w', read_scalar env locate now sleep_for arc0 arc1 noc fuel p (feature_width f) f r w = Some (out, r', w') ∧
    match out with
    | Ok None => True
    | Ok (Some v) => 0 ≤ v < 2 ^ feature_width f
    | Err e => e = UndefinedBehaviour ∧ ∃ tag raw, narrow_tag f = Some tag ∧ reading T tag raw ∧ 2 ^ feature_width f ≤ raw
    end ∧ shows T r' w'.
Proof.
  intros Hp Hf Htemp Hclock Hword Hs. destruct (yields_table_double arch version p f T Hp Hf Hclock) as (pf & Hwf & Hy).
  destruct (Hy r w Hs) as (res & r' & w' & Heq & HQ & Hs'). unfold read_scalar, mbind, H_bind.
  unfold read_double_ in Heq. rewrite Heq. destruct res as [q|]; [|by exists (Ok None), r', w'].
  destruct (profile_value_fits T f pf q Hwf Htemp Hword HQ) as [(v & -> & Hv)|[-> Hraw]].
  - by exists (Ok (Some v)), r', w'.
  - by exists (Err UndefinedBehaviour), r', w'.
Qed.

Lemma provider_arch version arch p : new_provider version arch = Ok p → arch_ p = arch ∧ firmware_version p = version.
Proof. unfold new_provider. destruct (create_firmware_feature_map _ _); [|done]. by intros [= <-]. Qed.
Lemma provider_supported version arch p : new_provider version arch = Ok p → arch = WORMHOLE_B0 ∨ arch = BLACKHOLE.
Proof. destruct arch; try done; auto. Qed.

(** Telemetry that gives one value for a tag. *)
Definition always_reads (T : Telemetry) (tag raw : Z) : Prop :=
  published T tag = true ∧ 0 ≤ raw < 2 ^ 32 ∧ ∀ v, reading T tag v → v = raw.

Lemma if_half (b : bool) (c1 c2 : option DataConverter) (l : list (option DataConverter)) : c1 ∈ l → c2 ∈ l → (if b then c1 else c2) ∈ l.
Proof. by destruct b. Qed.

Lemma yields_half T p f tag raw half :
  always_reads T tag raw → reads_half (firmware_feature_map p !! f) tag half →
  half ∈ [None; Some low_half; Some high_half] →
  yields (laws:=laws) T (read_scalar_ p 16 f)
    (λ res, res = if decide (half = None) then None
                  else if decide (half = Some low_half) then Some (raw `mod` 2 ^ 16) else Some (raw `div` 2 ^ 16)).
Proof.
  intros (Hpub & Hraw & Hr) Hpf Hhalf. unfold read_scalar_, read_scalar.
  assert (0 ≤ raw `mod` 2 ^ 16 < 2 ^ 16) as Hlo by (apply Z.mod_pos_bound; lia).
  assert (0 ≤ raw `div` 2 ^ 16 < 2 ^ 16) as Hhi by (split; [apply Z.div_pos; lia|apply Z.div_lt_upper_bound; lia]).
  destruct half as [c|]; cbn [reads_half] in Hpf.
  - destruct Hpf as (k & Hpf & Hk). rewrite !elem_of_cons in Hhalf.
    assert (c = low_half ∨ c = high_half) as Hc
      by (destruct Hhalf as [E|[E|[E|[]%elem_of_nil]]]; [done|left; congruence|right; congruence]).
    assert (profile_value T (MkProfile k c) = λ res, ∃ x, reading T tag x ∧ convert x c = Ok res) as Hval.
    { unfold profile_value. cbn [key converter]. destruct Hk as [->| ->]; rewrite Hpub; by destruct Hc as [->| ->]. }
    eapply yields_bind.
    { eapply yields_feature; [exact Hpf|by destruct Hk as [->| ->]|by destruct Hc as [->| ->]]. }
    intros res Hres. rewrite Hval in Hres. destruct Hres as (x & Hx & Hconv). rewrite (Hr x Hx) in Hconv.
    destruct Hc as [->| ->].
    + rewrite convert_low_half in Hconv. injection Hconv as <-.
      eapply yields_bind; [by apply yields_pure, to_unsigned_integer|].
      intros v ->. by apply yields_ret.
    + rewrite convert_high_half in Hconv by done. injection Hconv as <-.
      eapply yields_bind; [by apply yields_pure, to_unsigned_integer|].
      intros v ->. by apply yields_ret.
  - destruct (firmware_feature_map p !! f) as [[k c]|] eqn:Hf; [|done]. injection Hpf as ->.
    apply (yields_bind _ _ _ (λ res, res = None)).
    + unfold read_double. apply (yields_bind _ _ _ (λ b, b = false)).
      * unfold is_feature_available. rewrite Hf. destruct k; by apply yields_ret.
      * intros b ->. by apply yields_ret.
    + intros res ->. by apply yields_ret.
Qed.

Lemma yields_eth_status T arch version p f tag raw half :
  new_provider version arch = Ok p → always_reads T tag raw →
  reads_half (firmware_feature_map p !! f) tag half → half ∈ [None; Some low_half; Some high_half] →
  yields (laws:=laws) T (eth_status_per_core env locate now sleep_for arc0 arc1 noc fuel p f)
    (λ res, res = if decide (half = None) then None
                  else if decide (half = Some low_half) then Some (mask_statuses arch (raw `mod` 2 ^ 16))
                  else Some (mask_statuses arch (raw `div` 2 ^ 16))).
Proof.
  intros Hp Hr Hpf Hhalf. unfold eth_status_per_core.
  eapply yields_bind; [by eapply yields_half|]. intros res ->.
  destruct (provider_arch _ _ _ Hp) as [-> _]. pose proof (provider_supported _ _ _ Hp) as Hsup.
  destruct (decide (half = None)); [by apply yields_ret|].
  destruct (decide (half = Some low_half)).
  all: eapply yields_bind; [by apply yields_pure, parse_eth_status_bitmask_spec|];
    intros s ->; by apply yields_ret.
Qed.

(** The Ethernet status of each version is decoded from the right half of the right word, core by core: the lower
    16 bits are the heartbeat, the upper 16 bits are the retrain status up to 19.8 and the link status from 19.9 on,
    never both; Blackhole reports none of them before 19.9; bit [i] is the status of the core of channel [i], and the
    word is the old or the new tag as the version says. *)
Lemma eth_status_by_version arch version p T raw r w :
  new_provider version arch = Ok p → always_reads T (eth_live_tag arch version) raw → shows T r w →
  (∃ r' w', get_eth_heartbeat_status_per_core env locate now sleep_for arc0 arc1 noc fuel p r w =
     Some (Ok (eth_heartbeat_spec arch version raw), r', w')) ∧
  (∃ r' w', get_eth_link_status_per_core env locate now sleep_for arc0 arc1 noc fuel p r w =
     Some (Ok (eth_link_spec arch version raw), r', w')) ∧
  (∃ r' w', get_eth_retrain_status_per_core env locate now sleep_for arc0 arc1 noc fuel p r w =
     Some (Ok (eth_retrain_spec arch version raw), r', w')).
Proof.
  intros Hp Hr Hs. destruct (eth_profiles arch version p Hp) as (Hh & Hl & Ht).
  unfold eth_heartbeat_spec, eth_link_spec, eth_retrain_spec.
  split; [|split].
  - destruct (yields_eth_status T arch version p _ _ raw _ Hp Hr Hh ltac:(apply if_half; set_solver) r w Hs)
      as (res & r' & w' & Heq & -> & _).
    exists r', w'. unfold get_eth_heartbeat_status_per_core. rewrite Heq. by destruct (_ && _).
  - destruct (yields_eth_status T arch version p _ _ raw _ Hp Hr Hl ltac:(apply if_half; set_solver) r w Hs)
      as (res & r' & w' & Heq & -> & _).
    exists r', w'. unfold get_eth_link_status_per_core. rewrite Heq. by destruct (bundle_ltb _ _).
  - destruct (yields_eth_status T arch version p _ _ raw _ Hp Hr Ht ltac:(apply if_half; set_solver) r w Hs)
      as (res & r' & w' & Heq & -> & _).
    exists r', w'. unfold get_eth_retrain_status_per_core. rewrite Heq. by destruct (bool_decide (arch = WORMHOLE_B0) && bundle_ltb version (bundle 19 9 0)).
Qed.

(** A feature that is the whole word of a tag. *)
Lemma yields_word T p f k tag raw :
  firmware_feature_map p !! f = Some (MkProfile k identity) → k = StandardTag tag ∨ k = WormholeTag tag →
  always_reads T tag raw → yields (laws:=laws) T (read_scalar_ p 32 f) (λ res, res = Some raw).
Proof.
  intros Hf Hk (Hpub & Hraw & Hr). unfold read_scalar_, read_scalar.
  eapply yields_bind; [eapply yields_feature; [exact Hf|by destruct Hk as [->| ->]|done]|].
  intros res Hres.
  assert (∃ x, reading T tag x ∧ convert x identity = Ok res) as (x & Hx & Hc)
    by (unfold profile_value in Hres; destruct Hk as [->| ->]; cbn in Hres; by rewrite Hpub in Hres).
  rewrite (Hr x Hx), convert_identity in Hc by done. injection Hc as <-.
  eapply yields_bind; [by apply yields_pure, to_unsigned_integer|].
  intros v ->. by apply yields_ret.
Qed.

(** The word of a feature that the new telemetry moved to another tag. *)
Lemma yields_generation_word arch version p f T tag_old tag_new raw :
  new_provider version arch = Ok p → word_feature f tag_old tag_new →
  always_reads T (if legacy arch version then tag_old else tag_new) raw →
  yields (laws:=laws) T (read_scalar_ p 32 f) (λ res, res = Some raw).
Proof.
  intros Hp [Hold Hnew] Hr. pose proof (feature_by_generation arch version p f _ _ Hp Hold Hnew) as Hf.
  destruct (legacy arch version); (eapply yields_word; [exact Hf| |exact Hr]); auto.
Qed.

(** The DRAM training status of every channel is decoded as the firmware of the version reports it: two bits per
    channel (complete, error), on Blackhole from 19.7 on combined with the two bits of BIST in the upper half so that
    a channel passes only when both passed and fails when either failed; four bits per channel on Wormhole up to
    18.3.0. The number of channels is one that the word has room for. *)
Lemma dram_training_status_decoded arch version p T raw n r w :
  let check_bist := bool_decide (arch = BLACKHOLE) && bundle_geb version (bundle 19 7 0) in
  new_provider version arch = Ok p →
  always_reads T (if legacy arch version then LegacyTelemetryTag.DDR_STATUS else TelemetryTag.GDDR_STATUS) raw →
  shows T r w → 0 ≤ n ≤ (if legacy arch version || check_bist then 8 else 16) →
  ∃ r' w', get_dram_training_status env locate now sleep_for arc0 arc1 noc fuel p n r w =
    Some (Ok (if legacy arch version then map (legacy_status_spec raw) (seqZ 0 n)
              else map (dram_status_spec raw check_bist) (seqZ 0 n)), r', w').
Proof.
  intros check_bist Hp Hr Hs Hn. destruct (provider_arch _ _ _ Hp) as [Ha Hv].
  assert (yields (laws:=laws) T (get_dram_training_status env locate now sleep_for arc0 arc1 noc fuel p n)
    (λ res, res = if legacy arch version then map (legacy_status_spec raw) (seqZ 0 n)
                  else map (dram_status_spec raw check_bist) (seqZ 0 n))) as Hy.
  { unfold get_dram_training_status.
    eapply yields_bind; [exact (yields_generation_word arch version p _ T _ _ raw Hp ddr_status_word Hr)|].
    intros res ->. rewrite Ha, Hv. fold (legacy arch version) check_bist.
    destruct (legacy arch version).
    - eapply yields_lift; [by apply get_legacy_wormhole_dram_statuses_spec|done].
    - eapply yields_lift; [by apply get_modern_dram_statuses_spec|done]. }
  destruct (Hy r w Hs) as (res & r' & w' & Heq & -> & _). by exists r', w'.
Qed.

(** The board id is the 64-bit number whose upper half is the word of one tag and whose lower half is the word of
    the next, from the tags of the version's telemetry. *)
Lemma board_id_composed arch version p T high low r w :
  new_provider version arch = Ok p →
  always_reads T (if legacy arch version then LegacyTelemetryTag.BOARD_ID_HIGH else TelemetryTag.BOARD_ID_HIGH) high →
  always_reads T (if legacy arch version then LegacyTelemetryTag.BOARD_ID_LOW else TelemetryTag.BOARD_ID_LOW) low →
  shows T r w →
  ∃ r' w', get_board_id env locate now sleep_for arc0 arc1 noc fuel p r w = Some (Ok (Some (high * 2 ^ 32 + low)), r', w').
Proof.
  intros Hp Hh Hl Hs.
  assert (∀ f tag_old tag_new raw, word_feature f tag_old tag_new →
    always_reads T (if legacy arch version then tag_old else tag_new) raw →
    yields (laws:=laws) T (is_feature_available env locate now sleep_for arc0 arc1 noc fuel p f) (λ b, b = true)) as Hav.
  { intros f told tnew raw [Hold Hnew] (Hpub & _). pose proof (feature_by_generation arch version p f _ _ Hp Hold Hnew) as Hf.
    unfold is_feature_available. rewrite Hf. destruct (legacy arch version); by apply yields_available. }
  assert (yields (laws:=laws) T (get_board_id env locate now sleep_for arc0 arc1 noc fuel p)
    (λ res, res = Some (high * 2 ^ 32 + low))) as Hy.
  { unfold get_board_id.
    eapply yields_bind; [exact (Hav _ _ _ high board_id_high_word Hh)|]. intros ? ->.
    eapply yields_bind; [exact (Hav _ _ _ low board_id_low_word Hl)|]. intros ? ->. cbn [negb].
    eapply yields_bind; [exact (yields_generation_word arch version p _ T _ _ high Hp board_id_high_word Hh)|]. intros ? ->.
    eapply yields_bind; [exact (yields_generation_word arch version p _ T _ _ low Hp board_id_low_word Hl)|]. intros ? ->.
    apply yields_ret. change (Some (Z.lor (Z.shiftl high 32) low) = Some (high * 2 ^ 32 + low)). f_equal. destruct Hl as (_ & Hl & _).
    rewrite Z.lor_comm, lor_above by lia. lia. }
  destruct (Hy r w Hs) as (res & r' & w' & Heq & -> & _). by exists r', w'.
Qed.
End Provider.
