(* ===== verification/FirmwareSensors.v ===== *)
(** * FirmwareSensors

    More of what the firmware information provider decodes: temperatures, the
    telemetry of the GDDR modules, the TDP limit; and which reader a feature
    table is for. *)

From Stdlib Require Import ZArith QArith Lia.
From stdpp Require Import base list list_numbers numbers strings gmap finite relations.
From S2P Require Import Prelude CoreTypes ArchData SemVer DeviceAccess TelemetryReader TelemetryProperties FirmwareFeatures FirmwareInfo FirmwareProperties.

Local Open Scope Z_scope.

Section Sensors.
Context {F R : Type} {env : World F → World F} {sleep_for : Z → World F → World F}.
Context {tr : FirmwareTelemetryReader F R} {laws : TelemetryReaderLaws env sleep_for}.
Context (locate : NocId → xy_pair → xy_pair) (now : F → Z) (arc0 arc1 : xy_pair) (noc : NocId) (fuel : nat).
Implicit Types (r : R) (w : World F).

(** ** Temperature *)

(** Degrees Celsius: sixteenths in the lower half before the new telemetry,
    signed 16.16 fixed point since. *)
Definition asic_temperature_spec (arch : ARCH) (version : SemVer) (raw : Z) : Q :=
  (if legacy arch version then inject_Z (raw `mod` 2 ^ 16) / inject_Z 16
   else inject_Z (i32 raw) / inject_Z 65536)%Q.

Lemma asic_temperature_profiles :
  create_wormhole_18_3_base !! F_ASIC_TEMPERATURE =
    Some (MkProfile (WormholeTag LegacyTelemetryTag.ASIC_TEMPERATURE) (LinearTransform 0 0xFFFF (1 # 16) 0 UNSIGNED)) ∧
  Forall (λ m, m !! F_ASIC_TEMPERATURE =
    Some (MkProfile (StandardTag TelemetryTag.ASIC_TEMPERATURE) (fixed_16_16 SIGNED))) new_tables.
Proof. in_tables. Qed.

(** The ASIC temperature of every version is the exact value of the firmware's fixed point word, negative
    temperatures included: a signed number of 1/65536 degrees in the new telemetry, sixteenths of a degree in the lower
    half of the word on Wormhole up to 18.3.0. *)
Lemma asic_temperature_decoded arch version p T raw r w :
  new_provider version arch = Ok p →
  always_reads T (if legacy arch version then LegacyTelemetryTag.ASIC_TEMPERATURE else TelemetryTag.ASIC_TEMPERATURE) raw →
  shows T r w →
  ∃ q r' w', get_asic_temperature env locate now sleep_for arc0 arc1 noc fuel p r w = Some (Ok (Some q), r', w') ∧
    (q == asic_temperature_spec arch version raw)%Q.
Proof.
  intros Hp (Hpub & Hraw & Hr) Hs. destruct asic_temperature_profiles as [Hold Hnew].
  pose proof (feature_by_generation arch version p _ _ _ Hp Hold Hnew) as Hf. unfold asic_temperature_spec.
  destruct (legacy arch version); (eapply yields_feature in Hf; [|done|done]);
    destruct (Hf r w Hs) as (res & r' & w' & Heq & Hres & _);
    unfold profile_value in Hres; cbn [key converter fixed_16_16 linear andb] in Hres; rewrite Hpub in Hres;
    destruct Hres as (x & Hx & Hc); rewrite (Hr x Hx) in Hc; cbn in Hc; rewrite Z.shiftr_0_r in Hc;
    injection Hc as <-; (eexists _, r', w'; split; [exact Heq|]).
  - rewrite land_16. unfold Qdiv. rewrite Qplus_0_r. done.
  - rewrite land_32, Z.mod_small by done. unfold Qdiv. rewrite Qplus_0_r. done.
Qed.

End Sensors.

(** ** The GDDR modules *)

(** The module's telemetry as the words encode it. *)
Definition module_telemetry (word : Z → Z) (m : GddrModule) : GddrModuleTelemetry :=
  decode_gddr_module_telemetry (gddr_value m) (word (TelemetryTag.GDDR_0_1_TEMP + gddr_value m `div` 2))
    (word (TelemetryTag.GDDR_0_1_CORR_ERRS + gddr_value m `div` 2)) (word TelemetryTag.GDDR_UNCORR_ERRS).

Section Modules.
Context {F R : Type} {env : World F → World F} {sleep_for : Z → World F → World F}.
Context {tr : FirmwareTelemetryReader F R} {laws : TelemetryReaderLaws env sleep_for}.
Implicit Types (r : R) (w : World F).
Section Words.
Context (T : Telemetry) (word : Z → Z) (Hword : ∀ tag v, reading T tag v → v = word tag).

Lemma yields_word_of tag : published T tag = true → yields (laws:=laws) T (telemetry_read tag) (λ v, v = word tag).
Proof. intros Hp. eapply yields_mono; [by apply yields_read|]. apply Hword. Qed.

Definition module_tags (m : GddrModule) : list Z :=
  [TelemetryTag.GDDR_0_1_TEMP + gddr_value m `div` 2; TelemetryTag.GDDR_0_1_CORR_ERRS + gddr_value m `div` 2;
   TelemetryTag.GDDR_UNCORR_ERRS].

Lemma yields_dram_telemetry m :
  yields (laws:=laws) T (get_dram_telemetry m)
    (λ res, res = if forallb (published T) (module_tags m) then Some (module_telemetry word m) else None).
Proof.
  unfold get_dram_telemetry. fold (module_tags m).
  eapply yields_bind; [by apply (yields_tags_available T _ (λ b, b = forallb (published T) (module_tags m)))|].
  intros b ->. destruct (forallb _ _) eqn:Hav; cbn [negb]; [|by apply yields_ret].
  cbn [module_tags forallb] in Hav. rewrite !andb_true_iff in Hav. destruct Hav as (H1 & H2 & H3 & _).
  eapply yields_bind; [by apply yields_word_of|]. intros ? ->.
  eapply yields_bind; [by apply yields_word_of|]. intros ? ->.
  eapply yields_bind; [by apply yields_word_of|]. intros ? ->. by apply yields_ret.
Qed.

Lemma yields_gddr_pairs pairs agg :
  (∀ m1 m2, (m1, m2) ∈ pairs → forallb (published T) (module_tags m1) = true ∧
     gddr_value m2 `div` 2 = gddr_value m1 `div` 2) →
  yields (laws:=laws) T (read_gddr_pairs (word TelemetryTag.GDDR_UNCORR_ERRS) pairs agg)
    (λ res, ∀ m, res !! m =
       if decide (m ∈ map fst pairs ++ map snd pairs) then Some (module_telemetry word m) else agg !! m).
Proof.
  revert agg. induction pairs as [|[m1 m2] pairs IH]; intros agg Hpairs; [by apply yields_ret|].
  destruct (Hpairs m1 m2 ltac:(by left)) as [Hav Hm2].
  cbn [module_tags forallb] in Hav. rewrite !andb_true_iff in Hav. destruct Hav as (H1 & H2 & _).
  cbn [read_gddr_pairs].
  eapply yields_bind; [by apply yields_word_of|]. intros ? ->.
  eapply yields_bind; [by apply yields_word_of|]. intros ? ->.
  eapply yields_mono; [apply IH; intros ???; apply Hpairs; by right|].
  intros res Hres m. rewrite Hres. unfold GddrTelemetry in *. cbn [map fst snd app].
  destruct (decide (m ∈ map fst pairs ++ map snd pairs)) as [Hin|Hout].
  { rewrite decide_True; [done|]. rewrite elem_of_app in Hin. rewrite elem_of_cons, elem_of_app, elem_of_cons. tauto. }
  destruct (decide (m = m2)) as [->|Hne2].
  { rewrite lookup_insert_eq, decide_True by (rewrite elem_of_cons, elem_of_app, elem_of_cons; tauto).
    unfold module_telemetry. by rewrite Hm2. }
  rewrite lookup_insert_ne by done. destruct (decide (m = m1)) as [->|Hne1].
  { rewrite lookup_insert_eq, decide_True by (rewrite elem_of_cons; tauto). done. }
  rewrite lookup_insert_ne by done. rewrite decide_False; [done|].
  rewrite elem_of_app in Hout. rewrite elem_of_cons, elem_of_app, elem_of_cons. tauto.
Qed.
End Words.

(** C34: The aggregated DRAM telemetry is the collection of what the modules report one by one: when the tags are there it
    has an entry for each of the eight modules, equal to what [get_dram_telemetry] returns for that module, as long as
    the words do not change in between; and it is absent exactly when one of the tags is. *)
Theorem aggregated_dram_telemetry_equiv T word r w :
  (∀ tag v, reading T tag v → v = word tag) → shows T r w →
  if forallb (published T) gddr_telemetry_tags then
    ∃ agg r' w', get_aggregated_dram_telemetry r w = Some (Ok (Some agg), r', w') ∧
      ∀ m, agg !! m = Some (module_telemetry word m) ∧
        ∃ r'' w'', get_dram_telemetry m r w = Some (Ok (Some (module_telemetry word m)), r'', w'')
  else ∃ r' w', get_aggregated_dram_telemetry r w = Some (Ok None, r', w').
Proof.
  intros Hword Hs.
  assert (∀ m, forallb (published T) gddr_telemetry_tags = true → forallb (published T) (module_tags m) = true) as Hsub.
  { intros m Hall. rewrite forallb_forall in *. intros tag Htag. apply Hall.
    apply list_elem_of_In. apply list_elem_of_In in Htag. revert Htag. unfold module_tags.
    rewrite !elem_of_cons. destruct m; (intros [->|[->|[->|[]%elem_of_nil]]]; by apply (bool_decide_unpack _); vm_compute). }
  destruct (forallb (published T) gddr_telemetry_tags) eqn:Hav.
  - assert (yields (laws:=laws) T get_aggregated_dram_telemetry
      (λ res, ∃ agg : GddrTelemetry, res = Some agg ∧ ∀ m, agg !! m = Some (module_telemetry word m))) as Hy.
    { unfold get_aggregated_dram_telemetry, gddr_telemetry_tags_available.
      eapply yields_bind; [by apply (yields_tags_available T _ (λ b, b = true))|]. intros b ->. cbn [negb].
      assert (published T TelemetryTag.GDDR_UNCORR_ERRS = true) as Hu.
      { specialize (Hsub GDDR_0 eq_refl). cbn in Hsub. rewrite !andb_true_iff in Hsub. tauto. }
      eapply yields_bind; [by apply (yields_word_of T word Hword)|]. intros ? ->.
      eapply yields_bind.
      { apply (yields_gddr_pairs T word Hword). intros m1 m2 Hin. split; [by apply Hsub|].
        revert Hin. unfold gddr_pairs. rewrite !elem_of_cons. by intros [[= -> ->]|[[= -> ->]|[[= -> ->]|[[= -> ->]|[]%elem_of_nil]]]]. }
      intros agg Hagg. apply yields_ret. exists agg. split; [done|]. intros m. rewrite Hagg.
      rewrite decide_True; [done|]. destruct m; by apply (bool_decide_unpack _); vm_compute. }
    destruct (Hy r w Hs) as (res & r' & w' & Heq & (agg & -> & Hagg) & _). exists agg, r', w'. split; [done|].
    intros m. destruct (yields_dram_telemetry T word Hword m r w Hs) as (res2 & r2 & w2 & Heq2 & -> & _).
    rewrite (Hsub m eq_refl) in Heq2. split; [done|]. by exists r2, w2.
  - assert (yields (laws:=laws) T get_aggregated_dram_telemetry (λ res, res = None)) as Hy.
    { unfold get_aggregated_dram_telemetry, gddr_telemetry_tags_available.
      eapply yields_bind; [by apply (yields_tags_available T _ (λ b, b = false))|]. intros b ->. by apply yields_ret. }
    destruct (Hy r w Hs) as (res & r' & w' & Heq & -> & _). by exists r', w'.
Qed.

End Modules.

(** ** The TDP limit *)

Section Limit.
Context {F R : Type} {env : World F → World F} {sleep_for : Z → World F → World F}.
Context {tr : FirmwareTelemetryReader F R} {laws : TelemetryReaderLaws env sleep_for}.
Context (locate : NocId → xy_pair → xy_pair) (now : F → Z) (arc0 arc1 : xy_pair) (noc : NocId) (fuel : nat).
Implicit Types (r : R) (w : World F).

(** A limit in range, for a device that supports it. *)
Definition limit_settable (p : FirmwareInfoProvider) (watts : Z) : Prop :=
  50 ≤ watts ≤ 500 ∧ arch_ p = BLACKHOLE ∧ bundle_geb (firmware_version p) (bundle 19 11 0) = true.

(** Setting the TDP limit is guarded and checked: a limit outside [50, 500] W, or a device that is not a Blackhole with
    firmware 19.11.0 or newer, is refused before anything is sent or read; and when the call succeeds the message was
    delivered and the limit that the firmware then reports is the requested one, or none is reported. *)
Lemma set_tdp_limit_checked p arc_send_message watts r w :
  (¬ limit_settable p watts →
   ∃ what, set_tdp_limit env locate now sleep_for arc0 arc1 noc fuel p arc_send_message watts r w =
     Some (throw what, r, w)) ∧
  (∀ r' w', set_tdp_limit env locate now sleep_for arc0 arc1 noc fuel p arc_send_message watts r w = Some (Ok tt, r', w') →
   limit_settable p watts ∧
   ∃ exit_code w1 applied, arc_send_message 0x22 [watts; 0] w = Some (Ok exit_code, w1) ∧
     get_tdp_limit env locate now sleep_for arc0 arc1 noc fuel p r w1 = Some (Ok applied, r', w') ∧
     (applied = None ∨ applied = Some watts)).
Proof.
  assert (is_tdp_limit_supported p = true ↔ arch_ p = BLACKHOLE ∧ bundle_geb (firmware_version p) (bundle 19 11 0) = true) as Hsup.
  { unfold is_tdp_limit_supported, is_blackhole, TDP_LIMIT_MIN_FIRMWARE_VERSION.
    by rewrite andb_true_iff, bool_decide_eq_true. }
  unfold limit_settable, set_tdp_limit, TDP_LIMIT_MIN_WATTS, TDP_LIMIT_MAX_WATTS, mbind, H_bind, hlift, umd_assert.
  destruct ((50 <=? watts) && (watts <=? 500)) eqn:Hrange.
  2: { split; [by eexists|done]. }
  assert (50 ≤ watts ≤ 500) as Hw by (apply andb_prop in Hrange as [?%Z.leb_le ?%Z.leb_le]; done).
  destruct (is_tdp_limit_supported p).
  2: { split; [by eexists|done]. }
  destruct (proj1 Hsup eq_refl) as [Ha Hv]. split; [intros Hn; by destruct Hn|].
  intros r' w'. unfold on_device, SET_TDP_LIMIT. destruct (arc_send_message 34 [watts; 0] w) as [[[code|e] w1]|] eqn:Hsend; try done.
  destruct (get_tdp_limit _ _ _ _ _ _ _ _ p r w1) as [[[[applied|e] r1] w2]|] eqn:Hget; try done.
  destruct applied as [v|].
  - destruct (Z.eqb_spec v watts) as [->|]; [|done]. intros [= <- <-]. split; [done|].
    exists code, w1, (Some watts). auto.
  - intros [= <- <-]. split; [done|]. exists code, w1, None. auto.
Qed.
End Limit.

(** ** The tables and the readers *)

(** The reader has the telemetry that the key is for. *)
Definition serves (t : Reader) (k : FeatureKey) : Prop :=
  match k with
  | WormholeTag _ => t = SmBusReader
  | StandardTag _ => ∃ r, t = TableTelemetry r
  | SmBusTag _ | FixedValue _ => True
  end.
(** After 18.3.0 and before the new telemetry, 18.4.0. *)
Definition between_tables (version : SemVer) : Prop :=
  bundle_leb version (bundle 18 3 0) = false ∧ bundle_ltb version FW_NEW_TELEMETRY = true.

(** The generation of a key of a Wormhole table. *)
Lemma wormhole_key_generation version p f pf :
  new_provider version WORMHOLE_B0 = Ok p → firmware_feature_map p !! f = Some pf →
  match key pf with
  | WormholeTag _ => bundle_leb version (bundle 18 3 0) = true
  | StandardTag _ => bundle_leb version (bundle 18 3 0) = false
  | _ => True
  end.
Proof.
  unfold new_provider, create_firmware_feature_map. intros Hp Hf.
  destruct (bundle_leb version (bundle 18 3 0)); [|destruct (bundle_leb version (bundle 18 7 0));
    [|destruct (bundle_ltb version (bundle 19 9 0))]]; injection Hp as <-; cbn [firmware_feature_map] in Hf;
    destruct f; vm_compute in Hf; (discriminate Hf || (injection Hf as <-; done)).
Qed.

Section Choice.
Context {F : Type} (env : World F → World F) (locate : NocId → xy_pair → xy_pair) (now : F → Z).
Context (sleep_for : Z → World F → World F) (arc0 arc1 : xy_pair) (noc : NocId) (fuel : nat).

(** C35: When [create_arc_telemetry_reader] returns a reader for a Wormhole, the firmware
    version that it has read, after it waited for the telemetry, decides
    whether the feature table of that version fits the reader: every feature of the
    table is addressed in the telemetry that the reader has (the SMBus array or
    the tag table), unless the version is after 18.3.0 and before 18.4.0; then
    the features of the tag table, and only these, are not what the reader has. *)
Theorem tables_match_readers w t w' :
  create_arc_telemetry_reader env locate now sleep_for arc0 arc1 noc fuel WORMHOLE_B0 w = Some (Ok t, w') →
  ∃ w1 tag w2, new_smbus_reader env locate now sleep_for arc0 arc1 noc fuel w = Some (Ok tt, w1) ∧
    smbus_read_entry env locate arc0 arc1 noc LegacyTelemetryTag.FW_BUNDLE_VERSION w1 = Some (Ok tag, w2) ∧
    let version := from_firmware_bundle_tag tag in
    ∀ p f pf, new_provider version WORMHOLE_B0 = Ok p → firmware_feature_map p !! f = Some pf →
      serves t (key pf) ↔ ¬ (between_tables version ∧ ∃ tag, key pf = StandardTag tag).
Proof.
  unfold create_arc_telemetry_reader. intros Ht. unfold mbind, M_bind in Ht.
  destruct (new_smbus_reader _ _ _ _ _ _ _ _ w) as [[[[]|e] w1]|] eqn:E1; [|discriminate..].
  destruct (smbus_read_entry _ _ _ _ _ _ w1) as [[[tag|e] w2]|] eqn:E2; [|discriminate..].
  exists w1, tag, w2. split; [done|]. split; [done|]. set (version := from_firmware_bundle_tag tag) in *. intros p f pf Hp Hf.
  pose proof (wormhole_key_generation version p f pf Hp Hf) as Hkey. unfold between_tables.
  destruct (bundle_ltb version FW_NEW_TELEMETRY) eqn:Hnew.
  - injection Ht as <- _. destruct (key pf) as [g|g|g|g]; cbn [serves]; rewrite ?Hkey; try naive_solver.
  - destruct (new_table_reader _ _ _ _ _ _ _ _ _ w2) as [[[r|e] w3]|]; [|discriminate..]. injection Ht as <- _.
    assert (bundle_leb version (bundle 18 3 0) = true → False) as Hle.
    { intros E. rewrite (bundle_leb_ltb _ _ FW_NEW_TELEMETRY E eq_refl) in Hnew. done. }
    destruct (key pf) as [g|g|g|g]; cbn [serves]; try naive_solver.
Qed.
End Choice.

(** In between they disagree: the SMBus reader is asked for tags of the table,
    and answers with another word. *)
Lemma tables_mismatch_18_3_1 :
  let version := bundle 18 3 1 in
  bundle_ltb version FW_NEW_TELEMETRY = true ∧
  match new_provider version WORMHOLE_B0 with
  | Ok p => key <$> firmware_feature_map p !! F_BOARD_ID_HIGH = Some (StandardTag LegacyTelemetryTag.DEVICE_ID)
  | Err _ => False
  end.
Proof. by split. Qed.

(** ** Examples

    A device with quiet telemetry, read by the reader of the tag table; the
    theorems about the firmware information provider apply to it. *)

Local Open Scope Z_scope.

Module Quiet.
(** Every tag below 70 has a value, at the offset equal to the tag. *)
Definition word (tag : Z) : Z := if tag =? TelemetryTag.ASIC_TEMPERATURE then 0xFFFF8000 else tag * 0x00030001.
Definition tags : list Z := seqZ 1 69.
Definition mem_word (a : Z) : Z := word ((a - 0x2000) `div` 4).
Definition start : World Z := MkWorld (λ _, mem_word) (λ _, 0) 0.
Definition env (w : World Z) : World Z := MkWorld (mem w) (bar w) (firmware w + 1).
Definition sleep_for (ns : Z) (w : World Z) : World Z := MkWorld (mem w) (bar w) (firmware w + ns).
Definition locate (_ : NocId) (c : xy_pair) : xy_pair := c.
Definition arc : xy_pair := XY 8 0.
Definition reader : ArcTelemetryReader :=
  MkReader 0x1000 0x1000 69 0x2000 (list_to_map (map (λ t, (t, word t)) tags)) (list_to_map (map (λ t, (t, t)) tags)).
Definition telemetry : Telemetry :=
  MkTelemetry (λ tag, bool_decide (tag ∈ tags)) (λ tag v, v = word tag).

#[global] Instance fw_reader : FirmwareTelemetryReader Z Reader := arc_reader env locate arc arc NOC0.
#[global] Instance fw_laws : TelemetryReaderLaws env sleep_for := arc_reader_laws env locate sleep_for arc arc NOC0.

Lemma future_mem w w' : future env sleep_for w w' → mem w' = mem w.
Proof. induction 1 as [|w1 w2 w3 [|ns] _ IH]; [done|by rewrite IH..]. Qed.

Lemma tags_lookup (f : Z → Z) tag v :
  (list_to_map (map (λ t, (t, f t)) tags) : gmap Z Z) !! tag = Some v ↔ tag ∈ tags ∧ v = f tag.
Proof.
  rewrite <- elem_of_list_to_map.
  - rewrite list_elem_of_fmap. split; [by intros (t & [= -> ->] & ?)|]. intros [? ->]. by exists tag.
  - rewrite <- list_fmap_compose. cbn. rewrite list_fmap_id. apply NoDup_seqZ.
Qed.
Lemma tags_is_Some (f : Z → Z) tag :
  is_Some ((list_to_map (map (λ t, (t, f t)) tags) : gmap Z Z) !! tag) ↔ published telemetry tag = true.
Proof.
  cbn. rewrite bool_decide_eq_true. split.
  - intros [v Hv%tags_lookup]. apply Hv.
  - intros Ht. exists (f tag). by apply tags_lookup.
Qed.

Lemma shows_start : shows telemetry (TableTelemetry reader) start.
Proof.
  split; cbn [reader telemetry_offset telemetry_values telemetry_values_addr reading].
  - intros tag. apply (tags_is_Some id).
  - intros tag. apply tags_is_Some.
  - intros tag v Hv%tags_lookup. apply Hv.
  - intros w Hf tag offset Ho%(tags_lookup id). destruct Ho as [Hin ->]. apply elem_of_seqZ in Hin.
    unfold arc_word. cbn [env mem]. rewrite (future_mem _ _ Hf). cbn [start mem telemetry reading]. unfold mem_word, u64, id.
    rewrite Z.mod_small by lia. f_equal. rewrite (Z.add_comm 0x2000), Z.add_simpl_r. by rewrite Z.div_mul.
Qed.

Lemma word_bound tag : tag ∈ tags → 0 ≤ word tag < 2 ^ 32.
Proof. intros Hin%elem_of_seqZ. unfold word. destruct (_ =? _); lia. Qed.
Lemma reads_word tag : tag ∈ tags → always_reads telemetry tag (word tag).
Proof. intros Hin. split; [by apply bool_decide_eq_true|]. split; [by apply word_bound|done]. Qed.

Definition provider (arch : ARCH) (version : SemVer) : FirmwareInfoProvider :=
  match new_provider version arch with Ok p => p | Err _ => MkProvider Invalid version ∅ end.
Definition bh_19_9 := provider BLACKHOLE (bundle 19 9 0).
Definition wh_18_4 := provider WORMHOLE_B0 (bundle 18 4 0).
End Quiet.

(** The readings of this device are words: outside the tags nothing is read. *)
Module QuietWords.
Definition telemetry : Telemetry :=
  MkTelemetry (λ tag, bool_decide (tag ∈ Quiet.tags)) (λ tag v, tag ∈ Quiet.tags ∧ v = Quiet.word tag).
Lemma shows_words : shows (TelemetryReaderLaws:=Quiet.fw_laws) telemetry (TableTelemetry Quiet.reader) Quiet.start.
Proof.
  pose proof Quiet.shows_start as [H1 H2 H3 H4]. split; [done|done| |].
  - intros tag v Hv. split; [|by apply H3]. apply Quiet.tags_lookup in Hv. apply Hv.
  - intros w Hf tag offset Ho. split; [|by apply (H4 w Hf tag offset Ho)].
    apply (Quiet.tags_lookup id) in Ho. apply Ho.
Qed.
Lemma words : word_readings telemetry.
Proof. intros tag v [Hin ->]. by apply Quiet.word_bound. Qed.
End QuietWords.

Lemma read_scalar_well_typed_witness :
  ∃ res r' w', read_scalar Quiet.env Quiet.locate id Quiet.sleep_for Quiet.arc Quiet.arc NOC0 0 Quiet.bh_19_9 32
      F_HEARTBEAT (TableTelemetry Quiet.reader) Quiet.start = Some (Ok res, r', w') ∧
    (∀ v, res = Some v → 0 ≤ v < 2 ^ 32) ∧ shows (TelemetryReaderLaws:=Quiet.fw_laws) QuietWords.telemetry r' w'.
Proof.
  destruct (read_scalar_well_typed Quiet.locate id Quiet.arc Quiet.arc NOC0 0 BLACKHOLE (bundle 19 9 0) Quiet.bh_19_9
    F_HEARTBEAT QuietWords.telemetry (TableTelemetry Quiet.reader) Quiet.start eq_refl ltac:(done) eq_refl ltac:(done)
    QuietWords.words QuietWords.shows_words) as ([res|e] & r' & w' & E & Hout & Hs).
  - exists res, r', w'. split; [exact E|]. split; [intros v ->; exact Hout|exact Hs].
  - by destruct Hout as (_ & tag & raw & Hn & _).
Defined.

Lemma eth_status_by_version_witness :
  (∃ r' w', get_eth_heartbeat_status_per_core Quiet.env Quiet.locate id Quiet.sleep_for Quiet.arc Quiet.arc NOC0 0
     Quiet.bh_19_9 (TableTelemetry Quiet.reader) Quiet.start =
     Some (Ok (eth_heartbeat_spec BLACKHOLE (bundle 19 9 0) (21 * 0x00030001)), r', w')) ∧
  (∃ r' w', get_eth_link_status_per_core Quiet.env Quiet.locate id Quiet.sleep_for Quiet.arc Quiet.arc NOC0 0
     Quiet.bh_19_9 (TableTelemetry Quiet.reader) Quiet.start =
     Some (Ok (eth_link_spec BLACKHOLE (bundle 19 9 0) (21 * 0x00030001)), r', w')) ∧
  (∃ r' w', get_eth_retrain_status_per_core Quiet.env Quiet.locate id Quiet.sleep_for Quiet.arc Quiet.arc NOC0 0
     Quiet.bh_19_9 (TableTelemetry Quiet.reader) Quiet.start = Some (Ok None, r', w')).
Proof.
  apply (eth_status_by_version Quiet.locate id Quiet.arc Quiet.arc NOC0 0 BLACKHOLE (bundle 19 9 0) Quiet.bh_19_9
    Quiet.telemetry (21 * 0x00030001)).
  - reflexivity.
  - apply (Quiet.reads_word 21). apply elem_of_seqZ. lia.
  - apply Quiet.shows_start.
Defined.

Lemma dram_training_status_decoded_witness :
  ∃ r' w', get_dram_training_status Quiet.env Quiet.locate id Quiet.sleep_for Quiet.arc Quiet.arc NOC0 0
    Quiet.bh_19_9 8 (TableTelemetry Quiet.reader) Quiet.start =
    Some (Ok (map (dram_status_spec (22 * 0x00030001) true) (seqZ 0 8)), r', w').
Proof.
  apply (dram_training_status_decoded Quiet.locate id Quiet.arc Quiet.arc NOC0 0 BLACKHOLE (bundle 19 9 0)
    Quiet.bh_19_9 Quiet.telemetry (22 * 0x00030001) 8).
  - reflexivity.
  - apply (Quiet.reads_word 22). apply elem_of_seqZ. lia.
  - apply Quiet.shows_start.
  - by split; vm_compute.
Defined.

Lemma board_id_composed_witness :
  ∃ r' w', get_board_id Quiet.env Quiet.locate id Quiet.sleep_for Quiet.arc Quiet.arc NOC0 0 Quiet.wh_18_4
    (TableTelemetry Quiet.reader) Quiet.start = Some (Ok (Some (0x00030001 * 2 ^ 32 + 0x00060002)), r', w').
Proof.
  apply (board_id_composed Quiet.locate id Quiet.arc Quiet.arc NOC0 0 WORMHOLE_B0 (bundle 18 4 0) Quiet.wh_18_4
    Quiet.telemetry 0x00030001 0x00060002).
  - reflexivity.
  - apply (Quiet.reads_word 1). apply elem_of_seqZ. lia.
  - apply (Quiet.reads_word 2). apply elem_of_seqZ. lia.
  - apply Quiet.shows_start.
Defined.

(** Half a degree below zero. *)
Lemma asic_temperature_decoded_witness :
  ∃ q r' w', get_asic_temperature Quiet.env Quiet.locate id Quiet.sleep_for Quiet.arc Quiet.arc NOC0 0 Quiet.wh_18_4
    (TableTelemetry Quiet.reader) Quiet.start = Some (Ok (Some q), r', w') ∧
    (q == asic_temperature_spec WORMHOLE_B0 (bundle 18 4 0) 0xFFFF8000)%Q.
Proof.
  apply (asic_temperature_decoded Quiet.locate id Quiet.arc Quiet.arc NOC0 0 WORMHOLE_B0 (bundle 18 4 0) Quiet.wh_18_4
    Quiet.telemetry 0xFFFF8000).
  - reflexivity.
  - apply (Quiet.reads_word 11). apply elem_of_seqZ. lia.
  - apply Quiet.shows_start.
Defined.
Lemma asic_temperature_below_zero : (asic_temperature_spec WORMHOLE_B0 (bundle 18 4 0) 0xFFFF8000 == - (1 # 2))%Q.
Proof. reflexivity. Qed.

Lemma aggregated_dram_telemetry_equiv_witness :
  ∃ agg r' w', get_aggregated_dram_telemetry (TableTelemetry Quiet.reader) Quiet.start = Some (Ok (Some agg), r', w') ∧
    ∀ m, agg !! m = Some (module_telemetry Quiet.word m) ∧
      ∃ r'' w'', get_dram_telemetry m (TableTelemetry Quiet.reader) Quiet.start =
        Some (Ok (Some (module_telemetry Quiet.word m)), r'', w'').
Proof.
  apply (aggregated_dram_telemetry_equiv (laws:=Quiet.fw_laws) Quiet.telemetry Quiet.word).
  - done.
  - apply Quiet.shows_start.
Defined.

(** A device with firmware 18.3.0 behind the SMBus. *)
Definition legacy_start : World Z :=
  MkWorld (λ _ a, if a =? SMBUS_TELEMETRY_NOC_ADDR + LegacyTelemetryTag.FW_BUNDLE_VERSION * 4 then 0x12030000 else 0) (λ _, 0) 0.
Lemma tables_match_readers_witness : ∃ w1 tag w2,
  new_smbus_reader Quiet.env Quiet.locate id Quiet.sleep_for Quiet.arc Quiet.arc NOC0 2 legacy_start = Some (Ok tt, w1) ∧
  smbus_read_entry Quiet.env Quiet.locate Quiet.arc Quiet.arc NOC0 LegacyTelemetryTag.FW_BUNDLE_VERSION w1 = Some (Ok tag, w2) ∧
  ∀ p f pf, new_provider (from_firmware_bundle_tag tag) WORMHOLE_B0 = Ok p → firmware_feature_map p !! f = Some pf →
    serves SmBusReader (key pf) ↔ ¬ (between_tables (from_firmware_bundle_tag tag) ∧ ∃ tag, key pf = StandardTag tag).
Proof.
  assert (∃ w', create_arc_telemetry_reader Quiet.env Quiet.locate id Quiet.sleep_for Quiet.arc Quiet.arc NOC0 2 WORMHOLE_B0 legacy_start
    = Some (Ok SmBusReader, w')) as [w' E] by (eexists; vm_compute; reflexivity).
  exact (tables_match_readers Quiet.env Quiet.locate id Quiet.sleep_for Quiet.arc Quiet.arc NOC0 2 legacy_start SmBusReader w' E).
Defined.
