(* ===== verification/RemoteQueue.v ===== *)
(** * RemoteQueue

    Access to a remote chip through the command queues of the Ethernet routing
    firmware: [RemoteCommunicationLegacyFirmware]
    ([tt_device/remote_communication_legacy_firmware.cpp]) with its base class
    ([tt_device/remote_communication.cpp]), the layout of the queues
    ([firmware/erisc_firmware.hpp]) and the helpers of
    [topology/topology_utils.hpp].

    Every queue holds four commands of 8 words; its pointers count modulo 8.
    The memory of the Ethernet cores is that of the [World]; the host memory
    that the firmware reads and writes (channel 0 of the [SysmemManager],
    [chip_helpers/sysmem_manager.cpp]) is the memory of a place of its own. The buffers of the caller are lists of
    bytes. *)

From Stdlib Require Import ZArith Lia.
From stdpp Require Import base list list_numbers numbers strings.
From S2P Require Import Prelude CoreTypes ArchData BoardTypes DeviceAccess.

Local Open Scope Z_scope.

(** ** The layout of the queues *)

Module eth_routing.
Definition ETH_ROUTING_STRUCT_ADDR : Z := 0x11000.
Definition ETH_ROUTING_DATA_BUFFER_ADDR : Z := 0x12000.
Definition CMD_BUF_SIZE : Z := 4.
Definition CMD_BUF_SIZE_MASK : Z := CMD_BUF_SIZE - 1.
Definition CMD_BUF_PTR_MASK : Z := Z.shiftl CMD_BUF_SIZE 1 - 1.
Definition CMD_SIZE_BYTES : Z := 32.
Definition REMOTE_UPDATE_PTR_SIZE_BYTES : Z := 16.
Definition CMD_COUNTERS_SIZE_BYTES : Z := 32.
Definition CMD_Q_SIZE_BYTES : Z :=
  CMD_COUNTERS_SIZE_BYTES + 2 * REMOTE_UPDATE_PTR_SIZE_BYTES + CMD_BUF_SIZE * CMD_SIZE_BYTES.
Definition REQUEST_CMD_QUEUE_BASE : Z := ETH_ROUTING_STRUCT_ADDR + 128.
Definition REQUEST_ROUTING_CMD_QUEUE_BASE : Z :=
  REQUEST_CMD_QUEUE_BASE + CMD_COUNTERS_SIZE_BYTES + 2 * REMOTE_UPDATE_PTR_SIZE_BYTES.
Definition RESPONSE_CMD_QUEUE_BASE : Z := REQUEST_CMD_QUEUE_BASE + 2 * CMD_Q_SIZE_BYTES.
Definition RESPONSE_ROUTING_CMD_QUEUE_BASE : Z :=
  RESPONSE_CMD_QUEUE_BASE + CMD_COUNTERS_SIZE_BYTES + 2 * REMOTE_UPDATE_PTR_SIZE_BYTES.
Definition CMD_WR_REQ : Z := 0x1.
Definition CMD_RD_REQ : Z := 0x4.
Definition CMD_RD_DATA : Z := 0x8.
Definition CMD_DATA_BLOCK_DRAM : Z := 0x10.
Definition CMD_DATA_BLOCK : Z := 0x40.
Definition CMD_BROADCAST : Z := 0x80.
Definition MAX_BLOCK_SIZE : Z := 0x400.
Definition ETH_RACK_COORD_WIDTH : Z := 8.
Definition ETH_ROUTING_BLOCK_SIZE : Z := 32 * 1024.
Definition ETH_ROUTING_BUFFERS_START : Z := 0x38000000.
End eth_routing.
Import eth_routing.

Definition NOC_ADDR_LOCAL_BITS : Z := 36.
Definition NOC_ADDR_NODE_ID_BITS : Z := 6.
Definition REMOTE_CMD_NOC_BIT : Z := 9.
Definition DATA_WORD_SIZE : Z := 4.
Definition BROADCAST_HEADER_SIZE : Z := 32.

Definition get_sys_addr (chip_x chip_y noc_x noc_y offset : Z) : Z :=
  let result := u64 (Z.shiftl chip_y NOC_ADDR_NODE_ID_BITS) in
  let result := u64 (Z.shiftl (Z.lor result chip_x) NOC_ADDR_NODE_ID_BITS) in
  let result := u64 (Z.shiftl (Z.lor result noc_y) NOC_ADDR_NODE_ID_BITS) in
  let result := u64 (Z.shiftl (Z.lor result noc_x) NOC_ADDR_LOCAL_BITS) in
  Z.lor result (Z.land (Z.shiftl 1 NOC_ADDR_LOCAL_BITS - 1) offset).
Definition get_sys_rack (rack_x rack_y : Z) : Z :=
  u16 (Z.lor (u32 (Z.shiftl rack_y ETH_RACK_COORD_WIDTH)) rack_x).

Definition is_non_mmio_cmd_q_full (curr_wptr curr_rptr : Z) : bool :=
  negb (curr_wptr =? curr_rptr) && (Z.land curr_wptr CMD_BUF_SIZE_MASK =? Z.land curr_rptr CMD_BUF_SIZE_MASK).

(** ** Commands *)

Record routing_cmd_t := MkCmd {
  sys_addr : Z; data : Z; flags : Z; rack : Z; src_resp_buf_index : Z; local_buf_index : Z;
  src_resp_q_id : Z; host_mem_txn_id : Z; padding : Z; src_addr_tag : Z
}.
(** The command vector starts out as zeros. *)
Definition zero_cmd : routing_cmd_t := MkCmd 0 0 0 0 0 0 0 0 0 0.
(** Its 8 words (little endian). *)
Definition cmd_words (c : routing_cmd_t) : list Z :=
  [u32 (sys_addr c); Z.shiftr (sys_addr c) 32; data c; flags c;
   Z.lor (rack c) (Z.shiftl (src_resp_buf_index c) 16); local_buf_index c;
   Z.lor (src_resp_q_id c) (Z.lor (Z.shiftl (host_mem_txn_id c) 8) (Z.shiftl (padding c) 16)); src_addr_tag c].

Definition set_cmd (addr rack_ data_ flags_ : Z) (tag : option Z) (c : routing_cmd_t) : routing_cmd_t :=
  MkCmd addr data_ flags_ rack_ (src_resp_buf_index c) (local_buf_index c) (src_resp_q_id c) (host_mem_txn_id c)
    (padding c) (default (src_addr_tag c) tag).

(** ** Buffers *)

Definition byte_of (word i : Z) : Z := Z.land (Z.shiftr word (8 * i)) 0xFF.
Definition word_bytes (word : Z) : list Z := map (byte_of word) [0; 1; 2; 3].
Definition le_word (bs : list Z) : Z :=
  foldr (λ b acc, b + 2 ^ 8 * acc) 0 bs.
(** The words of a buffer whose length is a multiple of four. *)
Fixpoint words_of (fuel : nat) (bs : list Z) : list Z :=
  match fuel, bs with
  | S fuel, _ :: _ => le_word (take 4 bs) :: words_of fuel (drop 4 bs)
  | _, _ => []
  end.
Definition to_words (bs : list Z) : list Z := words_of (length bs) bs.
Definition of_words (ws : list Z) : list Z := ws ≫= word_bytes.
(** [memcpy(dest, bytes, length bytes)]. *)
Definition overwrite (bytes dest : list Z) : list Z := bytes ++ drop (length bytes) dest.
(** [size_buffer_to_capacity] of a vector of words, as its bytes: the old
    contents stay, new words are zero. *)
Definition size_buffer_to_capacity (buf : list Z) (size_in_bytes : Z) : list Z :=
  let target_size := if 0 <? size_in_bytes then Z.div (size_in_bytes - 1) 4 + 1 else 0 in
  take (Z.to_nat (4 * target_size)) (buf ++ replicate (Z.to_nat (4 * target_size) - length buf) 0).
(** Bytes of the caller's buffer; reading outside of it is undefined. *)
Definition src_bytes (src : list Z) (offset n : Z) : result (list Z) :=
  if bool_decide (0 ≤ offset ∧ offset + n ≤ vec_size src) then Ok (take (Z.to_nat n) (drop (Z.to_nat offset) src))
  else Err UndefinedBehaviour.
Definition dest_write (dest : list Z) (offset : Z) (bytes : list Z) : result (list Z) :=
  if bool_decide (0 ≤ offset ∧ offset + vec_size bytes ≤ vec_size dest) then
    Ok (take (Z.to_nat offset) dest ++ bytes ++ drop (Z.to_nat offset + length bytes) dest)
  else Err UndefinedBehaviour.

(** ** The blocks of a transfer *)

Definition align_up_4 (n : Z) : Z := Z.land (u32 (n + 3)) (Z.lxor (2 ^ 32 - 1) 3).

(** The size of the block of a read and of a write at [offset]. *)
Definition read_block_size (core_src offset size_in_bytes max_block_size : Z) : Z :=
  if negb (Z.land (u64 (core_src + offset)) 0x1F =? 0) then DATA_WORD_SIZE
  else align_up_4 (if size_in_bytes <? u32 (offset + max_block_size) then u32 (size_in_bytes - offset) else max_block_size).
Definition write_block_size (core_dest offset size_in_bytes max_block_size : Z) (broadcast : bool) : Z :=
  let header := if broadcast then 32 else 0 in
  if negb (Z.land (u64 (core_dest + offset)) 0x1F =? 0) then DATA_WORD_SIZE
  else align_up_4 (if u32 (size_in_bytes + header) <? u32 (offset + max_block_size) then u32 (size_in_bytes - offset)
                   else u32 (max_block_size - header)).

(** ** The connection to a remote chip *)

Record RemoteCommunication := MkRemote {
  target_chip : EthCoord;
  remote_transfer_eth_cores : list xy_pair;
  active_eth_core_idx : Z;
  flush_non_mmio : bool
}.

Definition get_remote_transfer_ethernet_core (r : RemoteCommunication) : result xy_pair :=
  match remote_transfer_eth_cores r with
  | [] => throw "No remote transfer ethernet cores set."
  | cores => vec_at cores (active_eth_core_idx r)
  end.
Definition update_active_eth_core_idx (r : RemoteCommunication) : result RemoteCommunication :=
  match remote_transfer_eth_cores r with
  | [] => throw "Cannot update active Ethernet core index: no remote transfer Ethernet cores set."
  | cores => Ok (MkRemote (target_chip r) cores ((active_eth_core_idx r + 1) `mod` vec_size cores) (flush_non_mmio r))
  end.
Definition set_remote_transfer_ethernet_cores (cores : list xy_pair) (r : RemoteCommunication) : RemoteCommunication :=
  MkRemote (target_chip r) cores (active_eth_core_idx r) (flush_non_mmio r).
Definition set_flush (b : bool) (r : RemoteCommunication) : RemoteCommunication :=
  MkRemote (target_chip r) (remote_transfer_eth_cores r) (active_eth_core_idx r) b.

(** The constructor, and [create_remote_communication]: Blackhole has none. *)
Definition new_remote (arch : ARCH) (target : EthCoord) : result RemoteCommunication :=
  (assert! bool_decide (arch = WORMHOLE_B0)
    else "Legacy ETH routing firmware remote communication is supported on Wormhole only.";;
  Ok (MkRemote target [] 0 false))%umd.
Definition create_remote_communication (arch : ARCH) (target : EthCoord) : result (option RemoteCommunication) :=
  match arch with
  | WORMHOLE_B0 => r ← new_remote arch target; Ok (Some r)
  | BLACKHOLE => Ok None
  | _ => throw "Remote communication is not supported for this architecture."
  end.

(** ** The operations *)

Definition remote_timeout_message : string := "Timeout waiting for Ethernet core service remote IO request.".
Definition REQUEST_WPTR : Z := REQUEST_CMD_QUEUE_BASE + CMD_COUNTERS_SIZE_BYTES.
Definition REQUEST_RPTR : Z := REQUEST_WPTR + REMOTE_UPDATE_PTR_SIZE_BYTES.
Definition RESPONSE_WPTR : Z := RESPONSE_CMD_QUEUE_BASE + CMD_COUNTERS_SIZE_BYTES.
Definition RESPONSE_RPTR : Z := RESPONSE_WPTR + REMOTE_UPDATE_PTR_SIZE_BYTES.

(** A hugepage of host memory; [mapping] is not null. *)
Record HugepageMapping := MkMapping { mapping : bool; mapping_size : Z }.

Section Remote.
Context {F : Type} (env : World F → World F) (locate : NocId → xy_pair → xy_pair) (now : F → Z).
(** The place of the host memory and its mapping for channel 0; whether a system memory manager with a
    channel is set; the selected NOC. *)
Context (host : xy_pair) (channel0 : HugepageMapping) (system_mem_available : bool) (noc : NocId).

Abbreviation HR := (H F RemoteCommunication).

Fixpoint store_host (addr : Z) (vs : list Z) : M F unit :=
  match vs with
  | [] => mret tt
  | v :: vs => (λ w, Some (Ok tt, upd_mem host addr v (env w)));; store_host (addr + 4) vs
  end.
Fixpoint load_host (addr : Z) (n : nat) : M F (list Z) :=
  match n with
  | O => mret []
  | S n => v ← (λ w, let w := env w in Some (Ok (mem w host addr), w)); vs ← load_host (addr + 4) n; mret (v :: vs)
  end.
(** [write_to_sysmem] and [read_from_sysmem] of channel 0. *)
Definition write_to_sysmem (sysmem_dest : Z) (src : list Z) : M F unit :=
  lift (umd_assert (mapping channel0)
    "write_buffer: Hugepages are not allocated ch: 0. - Ensure sufficient number of Hugepages installed per device (1 per host mem ch, per device)");;
  lift (umd_assert (negb (mapping_size channel0 =? 0)) "Hugepage mapping size is 0 for channel 0.");;
  lift (umd_assert (4 * vec_size src <=? mapping_size channel0)
    ("write_buffer data has larger size " +:+ to_string (4 * vec_size src) +:+ " than destination buffer " +:+
     to_string (mapping_size channel0)));;
  store_host (sysmem_dest `mod` mapping_size channel0) src.
Definition read_from_sysmem (sysmem_src : Z) (n : nat) : M F (list Z) :=
  lift (umd_assert (mapping channel0)
    "read_buffer: Hugepages are not allocated ch: 0. - Ensure sufficient number of Hugepages installed per device (1 per host mem ch, per device)");;
  lift (umd_assert (negb (mapping_size channel0 =? 0)) "Hugepage mapping size is 0 for channel 0.");;
  load_host (sysmem_src `mod` mapping_size channel0) n.

(** The write and the read pointer of the request queue of a core. *)
Definition read_q_ptrs (core : xy_pair) : M F (Z * Z) :=
  erisc_q_ptrs ← read_dwords env locate core REQUEST_WPTR 8 noc;
  wptr ← lift (vec_idx erisc_q_ptrs 0);
  rptr ← lift (vec_idx erisc_q_ptrs 4);
  mret (wptr, rptr).

(** [while (full)]: the read pointer that is known after the wait. *)
Fixpoint wait_not_full (fuel : nat) (core : xy_pair) (wptr rptr : Z) (full : bool) (start timeout_ms : Z) : M F Z :=
  if full then
    match fuel with
    | O => λ _, None
    | S fuel =>
        rptr ← read_data env locate core REQUEST_RPTR noc;
        check_timeout now start timeout_ms remote_timeout_message;;
        wait_not_full fuel core wptr rptr (is_non_mmio_cmd_q_full wptr rptr) start timeout_ms
    end
  else mret rptr.

(** The flags of a command on the selected NOC. *)
Definition with_noc (req_flags : Z) : Z :=
  Z.lor req_flags (Z.shiftl (if decide (noc = NOC1) then 1 else 0) REMOTE_CMD_NOC_BIT).
(** Writing a command into its slot and advancing the write pointer. *)
Definition push_command (core : xy_pair) (wptr : Z) (cmd : routing_cmd_t) : M F Z :=
  let req_wr_ptr := Z.land wptr CMD_BUF_SIZE_MASK in
  write_dwords env locate core (REQUEST_ROUTING_CMD_QUEUE_BASE + CMD_SIZE_BYTES * req_wr_ptr) (cmd_words cmd) noc;;
  let wptr := Z.land (wptr + 1) CMD_BUF_PTR_MASK in
  write_data env locate core REQUEST_WPTR wptr noc;;
  mret wptr.

(** *** Writes *)

(** The local variables of the loop over the blocks. *)
Record Transfer := MkTransfer {
  offset : Z; core : xy_pair; q_wptr : Z; q_rptr : Z; full : bool; new_cmd : routing_cmd_t; data_block : list Z
}.

Section Write.
Context (poll_fuel : nat) (timeout_ms : Z) (target_core : xy_pair) (src : list Z) (core_dest size_in_bytes : Z).
Context (broadcast : bool) (broadcast_header : list Z).

Definition write_use_host_dram : bool := (broadcast || (256 * DATA_WORD_SIZE <? size_in_bytes)) && system_mem_available.
Definition write_max_block_size : Z := if write_use_host_dram then ETH_ROUTING_BLOCK_SIZE else MAX_BLOCK_SIZE.
Definition write_host_block (active_idx req_wr_ptr : Z) : Z :=
  u32 (ETH_ROUTING_BUFFERS_START + (active_idx * CMD_BUF_SIZE + req_wr_ptr) * write_max_block_size).

(** Copying the payload of a block to system memory or to the Ethernet core. *)
Definition write_payload (eth_core : xy_pair) (active_idx req_wr_ptr : Z) (data_block : list Z) : M F unit :=
  if write_use_host_dram then
    let host_dram_block_addr := write_host_block active_idx req_wr_ptr in
    (if broadcast then write_to_sysmem host_dram_block_addr broadcast_header else mret tt);;
    write_to_sysmem (host_dram_block_addr + (if broadcast then BROADCAST_HEADER_SIZE else 0)) (to_words data_block)
  else
    write_dwords env locate eth_core (ETH_ROUTING_DATA_BUFFER_ADDR + req_wr_ptr * write_max_block_size)
      (to_words data_block) noc.

(** The data word of a command without a block: the last one may be padded with
    what the command held before. *)
Definition single_word (off : Z) (cmd : routing_cmd_t) : result Z :=
  if u32 (size_in_bytes - off) <? 4 then
    bytes ← src_bytes src off (u32 (size_in_bytes - off));
    Ok (le_word (overwrite bytes (word_bytes (data cmd))))
  else bytes ← src_bytes src (off `div` 4 * 4) 4; Ok (le_word bytes).

(** The flags before the choice of the memory for the block. *)
Definition write_flags (block_size : Z) : Z :=
  Z.lor (if broadcast || (DATA_WORD_SIZE <? block_size) then Z.lor CMD_DATA_BLOCK CMD_WR_REQ else CMD_WR_REQ)
    (if broadcast then CMD_BROADCAST else 0).
Definition is_block (req_flags : Z) : bool := negb (Z.land req_flags CMD_DATA_BLOCK =? 0).

Definition write_next_core (s : Transfer) : HR Transfer :=
  r ← get_object;
  r ← hlift (update_active_eth_core_idx r);
  put_object r;;
  next ← hlift (get_remote_transfer_ethernet_core r);
  '(wptr, rptr) ← on_device (read_q_ptrs next);
  mret (MkTransfer (offset s) next wptr rptr (is_non_mmio_cmd_q_full wptr rptr) (new_cmd s) (data_block s)).

Definition write_one_block (s : Transfer) : HR Transfer :=
  r ← get_object;
  start ← on_device (steady_clock_now now);
  rptr ← on_device (wait_not_full poll_fuel (core s) (q_wptr s) (q_rptr s) (full s) start timeout_ms);
  let req_wr_ptr := Z.land (q_wptr s) CMD_BUF_SIZE_MASK in
  let block_size := write_block_size core_dest (offset s) size_in_bytes write_max_block_size broadcast in
  let transfer_size := Z.min block_size (u32 (size_in_bytes - offset s)) in
  let req_flags := write_flags block_size in
  block ←
    (if is_block req_flags then
       bytes ← hlift (src_bytes src (offset s) transfer_size);
       let block := overwrite bytes (size_buffer_to_capacity (data_block s) block_size) in
       on_device (write_payload (core s) (active_eth_core_idx r) req_wr_ptr block);;
       mret block
     else mret (data_block s));
  let req_flags := if is_block req_flags && write_use_host_dram then Z.lor req_flags CMD_DATA_BLOCK_DRAM else req_flags in
  hlift (umd_assert (broadcast || (req_flags =? CMD_WR_REQ) || (u64 (core_dest + offset s) `mod` 32 =? 0))
    "Block mode address must be 32-byte aligned.");;
  word ← (if is_block req_flags then mret (u32 (block_size + (if broadcast then BROADCAST_HEADER_SIZE else 0)))
          else hlift (single_word (offset s) (new_cmd s)));
  let target := target_chip r in
  let cmd := set_cmd
    (if broadcast then u64 (core_dest + offset s)
     else get_sys_addr (ec_x target) (ec_y target) (xy_x target_core) (xy_y target_core) (u64 (core_dest + offset s)))
    (if broadcast then rack (new_cmd s) else get_sys_rack (ec_rack target) (ec_shelf target))
    word (with_noc req_flags)
    (if write_use_host_dram then Some (write_host_block (active_eth_core_idx r) req_wr_ptr) else None) (new_cmd s) in
  wptr ← on_device (push_command (core s) (q_wptr s) cmd);
  let s := MkTransfer (u32 (offset s + transfer_size)) (core s) wptr rptr false cmd block in
  if is_non_mmio_cmd_q_full (Z.land wptr CMD_BUF_PTR_MASK) rptr then write_next_core s else mret s.

Fixpoint write_blocks (fuel : nat) (s : Transfer) : HR unit :=
  if offset s <? size_in_bytes then
    match fuel with
    | O => λ _ _, None
    | S fuel => s ← write_one_block s; write_blocks fuel s
    end
  else mret tt.

(** Every block transfers at least one byte, which bounds the loop. *)
Definition write_to_non_mmio : HR unit :=
  r ← get_object;
  put_object (set_flush true r);;
  hlift (umd_assert (negb broadcast || system_mem_available) "Broadcasts not available without system memory.");;
  eth_core ← hlift (get_remote_transfer_ethernet_core r);
  '(wptr, rptr) ← on_device (read_q_ptrs eth_core);
  write_blocks (S (Z.to_nat size_in_bytes))
    (MkTransfer 0 eth_core wptr rptr (is_non_mmio_cmd_q_full wptr rptr) zero_cmd []).
End Write.

(** *** Reads *)

(** The variables of the loop: the response queue's read pointer and the
    destination as well. *)
Record ReadTransfer := MkRead {
  rd_offset : Z; rd_wptr : Z; rd_rptr : Z; rd_full : bool; resp_rptr : Z; rd_cmd : routing_cmd_t; dest : list Z
}.

Section Read.
Context (poll_fuel : nat) (timeout_ms : Z) (target_core : xy_pair) (core_src size_in_bytes : Z) (eth_core : xy_pair).

Definition read_use_host_dram : bool := (256 * DATA_WORD_SIZE <? size_in_bytes) && system_mem_available.
Definition read_max_block_size : Z := if read_use_host_dram then ETH_ROUTING_BLOCK_SIZE else MAX_BLOCK_SIZE.
Definition read_host_block (resp_rd_ptr : Z) : Z := u32 (ETH_ROUTING_BUFFERS_START + resp_rd_ptr * read_max_block_size).

(** Waiting for the response queue to advance, and for the response's flags. *)
Fixpoint wait_response (fuel : nat) (resp_rptr start : Z) : M F unit :=
  match fuel with
  | O => λ _, None
  | S fuel =>
      wptr ← read_data env locate eth_core RESPONSE_WPTR noc;
      check_timeout now start timeout_ms remote_timeout_message;;
      if resp_rptr =? wptr then wait_response fuel resp_rptr start else mret tt
  end.
Fixpoint wait_response_flags (fuel : nat) (addr start : Z) : M F Z :=
  match fuel with
  | O => λ _, None
  | S fuel =>
      erisc_resp_flags ← read_data env locate eth_core addr noc;
      check_timeout now start timeout_ms remote_timeout_message;;
      if erisc_resp_flags =? 0 then wait_response_flags fuel addr start else mret erisc_resp_flags
  end.

(** The bytes of a response, cut at the end of the destination. *)
Definition response_bytes (off block_size resp_rd_ptr : Z) : M F (list Z) :=
  let rest := u32 (size_in_bytes - off) in
  if block_size =? DATA_WORD_SIZE then
    erisc_resp_data ← read_data env locate eth_core
      (RESPONSE_ROUTING_CMD_QUEUE_BASE + (8 + CMD_SIZE_BYTES * resp_rd_ptr)) noc;
    mret (take (Z.to_nat (if rest <? 4 then rest else 4)) (word_bytes erisc_resp_data))
  else
    data_block ←
      (if read_use_host_dram then read_from_sysmem (read_host_block resp_rd_ptr) (Z.to_nat (Z.div (block_size + 3) 4))
       else read_dwords env locate eth_core (ETH_ROUTING_DATA_BUFFER_ADDR + resp_rd_ptr * read_max_block_size)
              (Z.to_nat (Z.div (block_size + 3) 4)) noc);
    mret (take (Z.to_nat (Z.min block_size rest)) (of_words data_block)).

Definition read_req_flags (block_size : Z) : Z :=
  if DATA_WORD_SIZE <? block_size then
    Z.lor (Z.lor CMD_DATA_BLOCK CMD_RD_REQ) (if read_use_host_dram then CMD_DATA_BLOCK_DRAM else 0)
  else CMD_RD_REQ.
Definition read_resp_flags (block_size : Z) : Z :=
  if DATA_WORD_SIZE <? block_size then
    Z.lor (Z.lor CMD_DATA_BLOCK CMD_RD_DATA) (if read_use_host_dram then CMD_DATA_BLOCK_DRAM else 0)
  else CMD_RD_DATA.

Definition read_one_block (target : EthCoord) (s : ReadTransfer) : M F ReadTransfer :=
  start ← steady_clock_now now;
  rptr ← wait_not_full poll_fuel eth_core (rd_wptr s) (rd_rptr s) (rd_full s) start timeout_ms;
  let block_size := read_block_size core_src (rd_offset s) size_in_bytes read_max_block_size in
  let req_flags := read_req_flags block_size in
  let resp_rd_ptr := Z.land (resp_rptr s) CMD_BUF_SIZE_MASK in
  lift (umd_assert ((req_flags =? CMD_RD_REQ) || (Z.land (u64 (core_src + rd_offset s)) 0x1F =? 0))
    "Block mode offset must be 32-byte aligned.");;
  let cmd := set_cmd
    (get_sys_addr (ec_x target) (ec_y target) (xy_x target_core) (xy_y target_core) (u64 (core_src + rd_offset s)))
    (get_sys_rack (ec_rack target) (ec_shelf target)) block_size (with_noc req_flags)
    (if read_use_host_dram then Some (read_host_block resp_rd_ptr) else None) (rd_cmd s) in
  wptr ← push_command eth_core (rd_wptr s) cmd;
  '(wptr, rptr, full) ←
    (if is_non_mmio_cmd_q_full wptr rptr then
       '(wptr, rptr) ← read_q_ptrs eth_core; mret (wptr, rptr, is_non_mmio_cmd_q_full wptr rptr)
     else mret (wptr, rptr, false));
  start ← steady_clock_now now;
  wait_response poll_fuel (resp_rptr s) start;;
  start ← steady_clock_now now;
  erisc_resp_flags ← wait_response_flags poll_fuel
    (RESPONSE_ROUTING_CMD_QUEUE_BASE + (12 + CMD_SIZE_BYTES * resp_rd_ptr)) start;
  dest ← (if erisc_resp_flags =? read_resp_flags block_size then
            bytes ← response_bytes (rd_offset s) block_size resp_rd_ptr;
            lift (dest_write (dest s) (rd_offset s) bytes)
          else mret (dest s));
  let resp_rptr := Z.land (resp_rptr s + 1) CMD_BUF_PTR_MASK in
  write_data env locate eth_core RESPONSE_RPTR resp_rptr noc;;
  lift (umd_assert (erisc_resp_flags =? read_resp_flags block_size) "Unexpected ERISC Response Flags.");;
  mret (MkRead (u32 (rd_offset s + block_size)) wptr rptr full resp_rptr cmd dest).

Fixpoint read_blocks (fuel : nat) (target : EthCoord) (s : ReadTransfer) : M F (list Z) :=
  if rd_offset s <? size_in_bytes then
    match fuel with
    | O => λ _, None
    | S fuel => s ← read_one_block target s; read_blocks fuel target s
    end
  else mret (dest s).
End Read.

(** The destination with the bytes that were read. *)
Definition read_non_mmio (poll_fuel : nat) (timeout_ms : Z) (target_core : xy_pair) (dest : list Z)
    (core_src size_in_bytes : Z) : HR (list Z) :=
  r ← get_object;
  eth_core ← hlift (get_remote_transfer_ethernet_core r);
  '(wptr, rptr) ← on_device (read_q_ptrs eth_core);
  erisc_resp_q_wptr ← on_device (read_data env locate eth_core RESPONSE_WPTR noc);
  resp_rptr ← on_device (read_data env locate eth_core RESPONSE_RPTR noc);
  on_device (read_blocks poll_fuel timeout_ms target_core core_src size_in_bytes eth_core
    (S (Z.to_nat size_in_bytes)) (target_chip r)
    (MkRead 0 wptr rptr (is_non_mmio_cmd_q_full wptr rptr) resp_rptr zero_cmd dest)).

(** *** The flush *)

Definition flush_message : string := "Timeout waiting for Ethernet core service remote IO request flush.".

(** Reading pairs of words until they agree. *)
Fixpoint wait_equal (fuel : nat) (pair : M F (Z * Z)) (start timeout_ms : Z) : M F unit :=
  match fuel with
  | O => λ _, None
  | S fuel =>
      '(a, b) ← pair;
      check_timeout now start timeout_ms flush_message;;
      if a =? b then mret tt else wait_equal fuel pair start timeout_ms
  end.
Definition read_txn_counters (core : xy_pair) : M F (Z * Z) :=
  erisc_txn_counters ← read_dwords env locate core REQUEST_CMD_QUEUE_BASE 2 noc;
  a ← lift (vec_idx erisc_txn_counters 0);
  b ← lift (vec_idx erisc_txn_counters 1);
  mret (a, b).
(** Each core in turn, with its own timeout. *)
Fixpoint for_cores (cores : list xy_pair) (f : xy_pair → Z → M F unit) : M F unit :=
  match cores with
  | [] => mret tt
  | core :: cores => start ← steady_clock_now now; f core start;; for_cores cores f
  end.

Definition wait_for_non_mmio_flush (poll_fuel : nat) (timeout_ms : Z) (arch : ARCH) : HR unit :=
  r ← get_object;
  if flush_non_mmio r then
    hlift (umd_assert (negb (bool_decide (arch = BLACKHOLE))) "Non-MMIO flush not supported in Blackhole");;
    (if decide (arch = WORMHOLE_B0) then
       on_device (for_cores (remote_transfer_eth_cores r)
         (λ core start, wait_equal poll_fuel (read_q_ptrs core) start timeout_ms));;
       on_device (for_cores (remote_transfer_eth_cores r)
         (λ core start, wait_equal poll_fuel (read_txn_counters core) start timeout_ms))
     else mret tt);;
    put_object (set_flush false r)
  else mret tt.
End Remote.
