(* ===== verification/RemoteTheory.v ===== *)
(** * RemoteTheory

    The request queues of the Ethernet cores against the routing firmware: the
    firmware appears as an interface, [RoutingFirmware], that takes requests in
    order and leaves alone what the host owns. The host's side keeps every
    request that waits intact, over all interleavings of the word accesses. *)

From Stdlib Require Import ZArith Lia.
From stdpp Require Import base list list_numbers numbers strings.
From S2P Require Import Prelude CoreTypes ArchData BoardTypes DeviceAccess RemoteQueue.

Local Open Scope Z_scope.
Import eth_routing.

(** ** Requests in memory *)

Record Request := MkRequest { rq_words : list Z; rq_payload : list Z }.
Definition word_at (ws : list Z) (i : nat) : Z := nth i ws 0.
(** The words of a command that say where its payload is. *)
Definition rq_data (ws : list Z) : Z := word_at ws 2.
Definition rq_block (ws : list Z) : bool := negb (Z.land (word_at ws 3) CMD_DATA_BLOCK =? 0).
Definition rq_dram (ws : list Z) : bool := negb (Z.land (word_at ws 3) CMD_DATA_BLOCK_DRAM =? 0).
Definition rq_write (ws : list Z) : bool := negb (Z.land (word_at ws 3) CMD_WR_REQ =? 0).
Definition rq_tag (ws : list Z) : Z := word_at ws 7.

Definition host_block (j s : Z) : Z := ETH_ROUTING_BUFFERS_START + (j * 4 + s) * ETH_ROUTING_BLOCK_SIZE.
(** A block command fits its buffer and, in system memory, names its own. *)
Definition cmd_ok (j s : Z) (ws : list Z) : Prop :=
  rq_block ws = true →
  if rq_dram ws then rq_tag ws = host_block j s ∧ 0 ≤ rq_data ws ≤ ETH_ROUTING_BLOCK_SIZE
  else 0 ≤ rq_data ws ≤ MAX_BLOCK_SIZE.

Lemma mod_8_4 x : (x `mod` 8) `mod` 4 = x `mod` 4.
Proof. apply Z.mod_mod_divide. by exists 2. Qed.

Section Memory.
Context {F : Type} (env : World F → World F) (locate : NocId → xy_pair → xy_pair) (noc : NocId).
Context (host : xy_pair) (cores : list xy_pair).
Implicit Types (w : World F).

(** The tile of the core with an index. *)
Definition tile (j : Z) : xy_pair := locate noc (nth (Z.to_nat j) cores (XY 0 0)).
Definition core_index (j : Z) : Prop := 0 ≤ j < vec_size cores.

Definition read_mem w (c : xy_pair) (a n : Z) : list Z := map (λ i, mem w c (a + 4 * i)) (seqZ 0 n).
Definition CMDS : Z := REQUEST_ROUTING_CMD_QUEUE_BASE.
Definition cmd_at w (j s : Z) : list Z := read_mem w (tile j) (CMDS + 32 * s) 8.
Definition payload_at w (j s : Z) (ws : list Z) : list Z :=
  if rq_block ws then
    if rq_dram ws then read_mem w host (rq_tag ws) (rq_data ws `div` 4)
    else read_mem w (tile j) (ETH_ROUTING_DATA_BUFFER_ADDR + MAX_BLOCK_SIZE * s) (rq_data ws `div` 4)
  else [].
Definition request_at w (j s : Z) : Request := MkRequest (cmd_at w j s) (payload_at w j s (cmd_at w j s)).

Definition wptr w (j : Z) : Z := mem w (tile j) REQUEST_WPTR.
Definition rptr w (j : Z) : Z := mem w (tile j) REQUEST_RPTR.
(** The requests between the pointers. *)
Definition waiting w (j : Z) : Z := (wptr w j - rptr w j) `mod` 8.
Definition slot w (j i : Z) : Z := (rptr w j + i) `mod` 4.
Definition pending w (j : Z) : list Request := map (λ i, request_at w j (slot w j i)) (seqZ 0 (waiting w j)).

Record queue_ok w (j : Z) : Prop := {
  qo_wptr : 0 ≤ wptr w j < 8;
  qo_rptr : 0 ≤ rptr w j < 8;
  qo_waiting : waiting w j ≤ 4;
  qo_cmds : ∀ i, 0 ≤ i < waiting w j → cmd_ok j (slot w j i) (cmd_at w j (slot w j i))
}.

(** The words of a slot: its command, its buffer in the core, its block of
    system memory. *)
Definition slot_word (j s : Z) (c : xy_pair) (a : Z) : Prop :=
  (c = tile j ∧ (CMDS + 32 * s ≤ a < CMDS + 32 * s + 32 ∨
     ETH_ROUTING_DATA_BUFFER_ADDR + MAX_BLOCK_SIZE * s ≤ a < ETH_ROUTING_DATA_BUFFER_ADDR + MAX_BLOCK_SIZE * s + MAX_BLOCK_SIZE)) ∨
  (c = host ∧ host_block j s ≤ a < host_block j s + ETH_ROUTING_BLOCK_SIZE).

(** The tiles and the host memory are different places. *)
Record places_apart : Prop := {
  pa_tiles : ∀ j j', core_index j → core_index j' → tile j = tile j' → j = j';
  pa_host : ∀ j, core_index j → tile j ≠ host;
  pa_count : vec_size cores ≤ 16
}.

Lemma read_mem_ext w w' c a n :
  (∀ i, 0 ≤ i < n → mem w' c (a + 4 * i) = mem w c (a + 4 * i)) → read_mem w' c a n = read_mem w c a n.
Proof. intros He. unfold read_mem. apply map_ext_in. intros i Hi%list_elem_of_In%elem_of_seqZ. apply He. lia. Qed.

Lemma read_mem_cons w c a n : 0 ≤ n → read_mem w c a (n + 1) = mem w c a :: read_mem w c (a + 4) n.
Proof.
  intros Hn. unfold read_mem. rewrite seqZ_cons by lia. cbn [map]. rewrite Z.mul_0_r, Z.add_0_r. f_equal.
  replace (Z.pred (n + 1)) with n by lia. change (Z.succ 0) with (1 + 0). rewrite <- fmap_add_seqZ.
  change (Z.add 1 <$> seqZ 0 n) with (map (Z.add 1) (seqZ 0 n)). rewrite map_map. apply map_ext. intros i. f_equal. lia.
Qed.

(** A request depends on the words of its slot only. *)
Lemma cmd_at_ext w w' j s :
  (∀ c a, slot_word j s c a → mem w' c a = mem w c a) → cmd_at w' j s = cmd_at w j s.
Proof. intros He. apply read_mem_ext. intros i Hi. apply He. left. split; [done|]. left. lia. Qed.
Lemma request_at_ext w w' j s :
  (∀ c a, slot_word j s c a → mem w' c a = mem w c a) → cmd_ok j s (cmd_at w j s) → request_at w' j s = request_at w j s.
Proof.
  intros He Hok. unfold request_at. rewrite (cmd_at_ext w w' j s He). f_equal.
  unfold payload_at. unfold cmd_ok in Hok. destruct (rq_block _); [|done]. specialize (Hok eq_refl).
  destruct (rq_dram _).
  - destruct Hok as [-> Hd]. apply read_mem_ext. intros i Hi. apply He. right. split; [done|].
    assert (4 * (rq_data (cmd_at w j s) `div` 4) ≤ rq_data (cmd_at w j s)) by (apply Z.mul_div_le; lia). lia.
  - apply read_mem_ext. intros i Hi. apply He. left. split; [done|]. right.
    assert (4 * (rq_data (cmd_at w j s) `div` 4) ≤ rq_data (cmd_at w j s)) by (apply Z.mul_div_le; lia). lia.
Qed.

Lemma slot_bounds w j i : 0 ≤ slot w j i < 4.
Proof. by apply Z.mod_pos_bound. Qed.
Lemma waiting_bounds w j : 0 ≤ waiting w j < 8.
Proof. by apply Z.mod_pos_bound. Qed.

(** Words of different slots are different. *)
Lemma slots_apart (Hp : places_apart) j s j' s' c a :
  core_index j → core_index j' → 0 ≤ s < 4 → 0 ≤ s' < 4 →
  slot_word j s c a → slot_word j' s' c a → j = j' ∧ s = s'.
Proof.
  intros Hj Hj' Hs Hs' H1 H2. destruct Hp as [Ht Hh Hc]. unfold core_index in *.
  unfold slot_word, CMDS, REQUEST_ROUTING_CMD_QUEUE_BASE, REQUEST_CMD_QUEUE_BASE, ETH_ROUTING_STRUCT_ADDR,
    CMD_COUNTERS_SIZE_BYTES, REMOTE_UPDATE_PTR_SIZE_BYTES, ETH_ROUTING_DATA_BUFFER_ADDR, MAX_BLOCK_SIZE, host_block,
    ETH_ROUTING_BUFFERS_START, ETH_ROUTING_BLOCK_SIZE in *.
  destruct H1 as [[-> H1]|[-> H1]], H2 as [[H2 H2']|[H2 H2']].
  - assert (j = j') as -> by (by apply Ht). split; [done|]. lia.
  - by destruct (Hh j Hj).
  - by destruct (Hh j' Hj').
  - lia.
Qed.
(** The counters and the pointers of a queue are in no slot. *)
Lemma header_not_slot (Hp : places_apart) j j' s a :
  core_index j → core_index j' → 0 ≤ s < 4 → REQUEST_CMD_QUEUE_BASE ≤ a < CMDS → ¬ slot_word j' s (tile j) a.
Proof.
  intros Hj Hj' Hs Ha Hw. destruct Hp as [Ht Hh Hc].
  unfold slot_word, CMDS, REQUEST_ROUTING_CMD_QUEUE_BASE, REQUEST_CMD_QUEUE_BASE, ETH_ROUTING_STRUCT_ADDR,
    CMD_COUNTERS_SIZE_BYTES, REMOTE_UPDATE_PTR_SIZE_BYTES, ETH_ROUTING_DATA_BUFFER_ADDR, MAX_BLOCK_SIZE in *.
  destruct Hw as [[_ ?]|[E _]]; [lia|]. by apply (Hh j Hj).
Qed.
Lemma pointer_not_slot (Hp : places_apart) j j' s a :
  core_index j → core_index j' → 0 ≤ s < 4 → a = REQUEST_WPTR ∨ a = REQUEST_RPTR → ¬ slot_word j' s (tile j) a.
Proof.
  intros Hj Hj' Hs Ha. apply header_not_slot; [done..|].
  unfold CMDS, REQUEST_ROUTING_CMD_QUEUE_BASE, REQUEST_RPTR, REQUEST_WPTR, REQUEST_CMD_QUEUE_BASE, ETH_ROUTING_STRUCT_ADDR,
    CMD_COUNTERS_SIZE_BYTES, REMOTE_UPDATE_PTR_SIZE_BYTES in *. lia.
Qed.
(** ** The firmware *)

Definition all_ok w : Prop := ∀ j, core_index j → queue_ok w j.

Class RoutingFirmware := {
  (** What each core has taken from its queue so far. *)
  taken : F → Z → list Request;
  (** It takes waiting requests in order and advances the read pointer. *)
  routing_takes w j : all_ok w → core_index j →
    ∃ k, 0 ≤ k ≤ waiting w j ∧ wptr (env w) j = wptr w j ∧ rptr (env w) j = (rptr w j + k) `mod` 8 ∧
      taken (firmware (env w)) j = taken (firmware w) j ++ take (Z.to_nat k) (pending w j);
  (** It does not write commands, nor blocks. *)
  routing_keeps w j s c a : all_ok w → core_index j → 0 ≤ s < 4 → slot_word j s c a → mem (env w) c a = mem w c a
}.

Context {fw : RoutingFirmware} (Hplaces : places_apart).

(** The writes that a core has sent on, and those whose response has come back. *)
Definition wr_req w (j : Z) : Z := mem w (tile j) REQUEST_CMD_QUEUE_BASE.
Definition wr_resp w (j : Z) : Z := mem w (tile j) (REQUEST_CMD_QUEUE_BASE + 4).
Definition write_requests (rqs : list Request) : list Request := List.filter (λ rq, rq_write (rq_words rq)) rqs.
(** A request that has left its queue is only on its way: its write is executed
    when the response of the remote chip is back. The firmware counts both. *)
Class WriteResponses := {
  executed : F → Z → list Request;
  unanswered : F → Z → list Request;
  taken_writes w j : all_ok w → core_index j →
    write_requests (taken (firmware (env w)) j) ≡ₚ executed (firmware (env w)) j ++ unanswered (firmware (env w)) j;
  responses_counted w j : all_ok w → core_index j →
    wr_req (env w) j = u32 (wr_resp (env w) j + Z.of_nat (length (unanswered (firmware (env w)) j))) ∧
    Z.of_nat (length (unanswered (firmware (env w)) j)) < 2 ^ 32;
  (** A core whose queue is empty sends nothing. *)
  responses_idle w j : all_ok w → core_index j → waiting w j = 0 →
    u32 (wr_req (env w) j) = u32 (wr_req w j) ∧ unanswered (firmware (env w)) j ⊆+ unanswered (firmware w) j
}.

(** Everything a core has taken or will take, in order. *)
Definition total w (j : Z) : list Request := taken (firmware w) j ++ pending w j.
(** The queues move on without a change to what they hold. *)
Record evolved w w' : Prop := {
  ev_ok : all_ok w';
  ev_total : ∀ j, core_index j → total w' j = total w j;
  ev_wptr : ∀ j, core_index j → wptr w' j = wptr w j;
  ev_waiting : ∀ j, core_index j → waiting w' j ≤ waiting w j
}.

Lemma evolved_refl w : all_ok w → evolved w w.
Proof. by split. Qed.
Lemma evolved_trans w1 w2 w3 : evolved w1 w2 → evolved w2 w3 → evolved w1 w3.
Proof.
  intros [H1 H2 H3 H4] [K1 K2 K3 K4]. split; [done| | |]; intros j Hj; [rewrite K2, H2 by done|rewrite K3, H3 by done|]; try done.
  specialize (H4 j Hj). specialize (K4 j Hj). lia.
Qed.

Lemma waiting_take w w' j k :
  0 ≤ k ≤ waiting w j → wptr w' j = wptr w j → rptr w' j = (rptr w j + k) `mod` 8 → waiting w' j = waiting w j - k.
Proof.
  unfold waiting. intros Hk Hw Hr. rewrite Hw, Hr, Zminus_mod_idemp_r.
  replace (wptr w j - (rptr w j + k)) with (wptr w j - rptr w j - k) by lia.
  rewrite <- Zminus_mod_idemp_l. apply Z.mod_small. pose proof (Z.mod_pos_bound (wptr w j - rptr w j) 8 ltac:(lia)). lia.
Qed.
Lemma slot_take w w' j k i : rptr w' j = (rptr w j + k) `mod` 8 → slot w' j i = slot w j (k + i).
Proof.
  unfold slot. intros ->.
  rewrite <- (Zplus_mod_idemp_l _ i), mod_8_4.
  rewrite Zplus_mod_idemp_l. f_equal. lia.
Qed.

Lemma drop_map_seqZ {A} (f : Z → A) n k :
  0 ≤ k ≤ n → drop (Z.to_nat k) (map f (seqZ 0 n)) = map (λ i, f (k + i)) (seqZ 0 (n - k)).
Proof.
  intros Hk. apply list_eq. intros i. rewrite lookup_drop, !list_lookup_fmap.
  destruct (decide (Z.of_nat i < n - k)) as [Hi|Hi].
  - rewrite !lookup_seqZ_lt by lia. unfold fmap, option_fmap, option_map. f_equal. f_equal. lia.
  - by rewrite !lookup_seqZ_ge by lia.
Qed.

Lemma env_evolved w : all_ok w → evolved w (env w).
Proof.
  intros Hok.
  assert (∀ j s c a, core_index j → 0 ≤ s < 4 → slot_word j s c a → mem (env w) c a = mem w c a) as Hkeep.
  { intros j s c a Hj Hs Hc. by eapply routing_keeps. }
  assert (∀ j, core_index j → ∃ k, 0 ≤ k ≤ waiting w j ∧ wptr (env w) j = wptr w j ∧
    rptr (env w) j = (rptr w j + k) `mod` 8 ∧ taken (firmware (env w)) j = taken (firmware w) j ++ take (Z.to_nat k) (pending w j)) as Htake.
  { intros j Hj. by apply routing_takes. }
  split; intros j Hj; destruct (Htake j Hj) as (k & Hk & Hw & Hr & He); destruct (Hok j Hj) as [Hqw Hqr Hqn Hqc].
  - pose proof (waiting_take w (env w) j k Hk Hw Hr) as Hn. split.
    + rewrite Hw. exact Hqw.
    + rewrite Hr. by apply Z.mod_pos_bound.
    + lia.
    + intros i Hi. rewrite (slot_take w (env w) j k i Hr).
      erewrite cmd_at_ext; [apply Hqc; lia|].
      intros c a Hc. refine (Hkeep _ _ c a Hj _ Hc); apply Z.mod_pos_bound; lia.
  - unfold total. rewrite He, <- app_assoc. f_equal. rewrite <- (take_drop (Z.to_nat k) (pending w j)) at 2. f_equal.
    unfold pending.     rewrite drop_map_seqZ by lia. rewrite (waiting_take w (env w) j k Hk Hw Hr).
    apply map_ext_in. intros i Hi%list_elem_of_In%elem_of_seqZ. rewrite (slot_take w (env w) j k i Hr).
    apply request_at_ext; [|apply Hqc; lia].
    intros c a Hc. refine (Hkeep _ _ c a Hj _ Hc); apply Z.mod_pos_bound; lia.
  - exact Hw.
  - rewrite (waiting_take w (env w) j k Hk Hw Hr). lia.
Qed.

(** ** The host's writes *)

Lemma mem_upd w c a v c' a' : mem (upd_mem c a v w) c' a' = if decide (c' = c ∧ a' = a) then v else mem w c' a'.
Proof. done. Qed.

(** A write to a word of the free slot of a queue that has room. *)
Definition free_slot w (j : Z) : Z := wptr w j `mod` 4.
Lemma free_slot_bounds w j : 0 ≤ free_slot w j < 4.
Proof. by apply Z.mod_pos_bound. Qed.
Lemma free_slot_not_waiting w j i :
  waiting w j < 4 → 0 ≤ i < waiting w j → slot w j i ≠ free_slot w j.
Proof.
  unfold free_slot, slot, waiting. intros Hn Hi Heq.
  pose proof (Z.div_mod (wptr w j - rptr w j) 8 ltac:(lia)) as Hd.
  set (n := (wptr w j - rptr w j) `mod` 8) in *.
  pose proof (Z.div_mod (rptr w j + i) 4 ltac:(lia)). pose proof (Z.div_mod (wptr w j) 4 ltac:(lia)). lia.
Qed.

Lemma upd_slot_evolved w j c a v :
  all_ok w → core_index j → waiting w j < 4 → slot_word j (free_slot w j) c a → evolved w (upd_mem c a v w).
Proof.
  intros Hok Hj Hroom Hc. set (w' := upd_mem c a v w).
  assert (∀ j', core_index j' → wptr w' j' = wptr w j' ∧ rptr w' j' = rptr w j') as Hptr.
  { intros j' Hj'. unfold wptr, rptr, w'. rewrite !mem_upd.
    split; rewrite decide_False; try done; intros [<- <-];
      refine (pointer_not_slot Hplaces j' j _ _ Hj' Hj (free_slot_bounds w j) _ Hc); auto. }
  assert (∀ j' i, core_index j' → 0 ≤ i < waiting w j' → ∀ c' a', slot_word j' (slot w j' i) c' a' → mem w' c' a' = mem w c' a') as Hother.
  { intros j' i Hj' Hi c' a' Hc'. unfold w'. rewrite mem_upd, decide_False; [done|]. intros [-> ->].
    destruct (slots_apart Hplaces j (free_slot w j) j' (slot w j' i) c a Hj Hj') as [<- Heq];
      [apply free_slot_bounds|apply slot_bounds|done|done|].
    by apply (free_slot_not_waiting w j i Hroom Hi). }
  assert (∀ j', core_index j' → waiting w' j' = waiting w j' ∧ ∀ i, slot w' j' i = slot w j' i) as Hsame.
  { intros j' Hj'. destruct (Hptr j' Hj') as [Hw Hr]. unfold waiting, slot.
    by rewrite Hw, Hr. }
  split; intros j' Hj'; destruct (Hptr j' Hj') as [Hw Hr]; destruct (Hsame j' Hj') as [Hn Hs].
  - destruct (Hok j' Hj') as [Hqw Hqr Hqn Hqc]. split; rewrite ?Hw, ?Hr, ?Hn; try done.
    intros i Hi. rewrite Hs. erewrite cmd_at_ext; [by apply Hqc|]. by apply Hother.
  - unfold total. f_equal. unfold pending. rewrite Hn.
    apply map_ext_in. intros i Hi%list_elem_of_In%elem_of_seqZ. rewrite Hs. destruct (Hok j' Hj') as [_ _ _ Hqc].
    apply request_at_ext; [apply Hother; [done|lia]|apply Hqc; lia].
  - exact Hw.
  - lia.
Qed.

(** Advancing the write pointer: the request in the free slot joins the queue. *)
Lemma push_evolved w j :
  all_ok w → core_index j → waiting w j < 4 → cmd_ok j (free_slot w j) (cmd_at w j (free_slot w j)) →
  let w' := upd_mem (tile j) REQUEST_WPTR ((wptr w j + 1) `mod` 8) w in
  all_ok w' ∧ (∀ j', core_index j' → total w' j' = total w j' ++ if decide (j' = j) then [request_at w j (free_slot w j)] else []) ∧
  wptr w' j = (wptr w j + 1) `mod` 8 ∧ (∀ j', core_index j' → j' ≠ j → wptr w' j' = wptr w j') ∧
  (∀ j', core_index j' → waiting w' j' = waiting w j' + if decide (j' = j) then 1 else 0).
Proof.
  intros Hok Hj Hroom Hcmd w'.
  assert (wptr w' j = (wptr w j + 1) `mod` 8) as Hwj.
  { unfold wptr, w'. rewrite mem_upd. by rewrite decide_True. }
  assert (∀ j', core_index j' → j' ≠ j → wptr w' j' = wptr w j') as Hwo.
  { intros j' Hj' Hne. unfold wptr at 1, w'. rewrite mem_upd, decide_False; [done|].
    intros [E _]. apply Hne. by apply (pa_tiles Hplaces). }
  assert (∀ j', core_index j' → rptr w' j' = rptr w j') as Hr.
  { intros j' Hj'. unfold rptr, w'. rewrite mem_upd, decide_False; [done|]. intros [_ E].
    unfold REQUEST_RPTR, REMOTE_UPDATE_PTR_SIZE_BYTES in E. lia. }
  assert (∀ j' s c a, core_index j' → 0 ≤ s < 4 → slot_word j' s c a → mem w' c a = mem w c a) as Hslots.
  { intros j' s c a Hj' Hs Hc. unfold w'. rewrite mem_upd, decide_False; [done|]. intros [-> ->].
    refine (pointer_not_slot Hplaces j j' _ _ Hj Hj' Hs _ Hc); auto. }
  assert (∀ j', core_index j' → waiting w' j' = waiting w j' + if decide (j' = j) then 1 else 0) as Hn.
  { intros j' Hj'. unfold waiting. rewrite (Hr j' Hj').
    destruct (decide (j' = j)) as [->|Hne]; [|rewrite Hwo by done; lia].
    rewrite Hwj, Zminus_mod_idemp_l. replace (wptr w j + 1 - rptr w j) with (wptr w j - rptr w j + 1) by lia.
    rewrite <- Zplus_mod_idemp_l. unfold waiting in Hroom.     pose proof (Z.mod_pos_bound (wptr w j - rptr w j) 8 ltac:(lia)). apply Z.mod_small. lia. }
  assert (∀ j' i, core_index j' → slot w' j' i = slot w j' i) as Hs.
  { intros j' i Hj'. unfold slot. by rewrite (Hr j' Hj'). }
  assert (slot w j (waiting w j) = free_slot w j) as Hlast.
  { unfold slot, waiting, free_slot.     rewrite <- (Zplus_mod_idemp_r _ (rptr w j)), mod_8_4.
    rewrite Zplus_mod_idemp_r. f_equal. lia. }
  assert (∀ j', core_index j' → ∀ i, 0 ≤ i < waiting w' j' → cmd_ok j' (slot w j' i) (cmd_at w j' (slot w j' i))) as Hcmds.
  { intros j' Hj' i Hi. rewrite Hn in Hi by done. destruct (Hok j' Hj') as [_ _ _ Hqc].
    destruct (decide (j' = j)) as [->|]; [|apply Hqc; lia].
    destruct (decide (i = waiting w j)) as [->|]; [by rewrite Hlast|]. apply Hqc. lia. }
  split; [|split; [|done]].
  - intros j' Hj'. destruct (Hok j' Hj') as [Hqw Hqr Hqn _].
    split.
    + destruct (decide (j' = j)) as [->|Hne]; [rewrite Hwj; by apply Z.mod_pos_bound|by rewrite Hwo].
    + by rewrite Hr.
    + rewrite Hn by done. destruct (decide (j' = j)) as [->|]; lia.
    + intros i Hi. rewrite Hs by done. erewrite cmd_at_ext; [by apply Hcmds|].
      intros c a Hc. refine (Hslots _ _ c a Hj' _ Hc); apply Z.mod_pos_bound; lia.
  - intros j' Hj'. unfold total. rewrite <- app_assoc. f_equal. unfold pending.     assert (∀ i, 0 ≤ i < waiting w' j' → request_at w' j' (slot w' j' i) = request_at w j' (slot w j' i)) as Hreq.
    { intros i Hi. rewrite Hs by done. apply request_at_ext; [|by apply Hcmds].
      intros c a Hc. refine (Hslots _ _ c a Hj' _ Hc); apply Z.mod_pos_bound; lia. }
    rewrite (map_ext_in _ (λ i, request_at w j' (slot w j' i))).
    2: { intros i Hi%list_elem_of_In%elem_of_seqZ. apply Hreq. lia. }
    rewrite Hn by done. destruct (decide (j' = j)) as [->|]; [|by rewrite Z.add_0_r, app_nil_r].
    rewrite seqZ_snoc by apply waiting_bounds. rewrite map_app. cbn [map]. by rewrite Z.add_0_l, Hlast.
Qed.
(** ** Histories

    The requests that the host issues, with the index of their core. *)

Definition for_core (j : Z) (log : list (Z * Request)) : list Request :=
  map snd (List.filter (λ p, p.1 =? j) log).
Record grows w (log : list (Z * Request)) w' : Prop := {
  gr_ok : all_ok w';
  gr_total : ∀ j, core_index j → total w' j = total w j ++ for_core j log
}.

Lemma for_core_app j log log' : for_core j (log ++ log') = for_core j log ++ for_core j log'.
Proof. unfold for_core. by rewrite List.filter_app, map_app. Qed.
Lemma grows_trans w1 log w2 log' w3 : grows w1 log w2 → grows w2 log' w3 → grows w1 (log ++ log') w3.
Proof.
  intros [_ H1] [H2 H3]. split; [done|]. intros j Hj. by rewrite H3, H1, for_core_app, app_assoc by done.
Qed.
Lemma evolved_grows w w' : evolved w w' → grows w [] w'.
Proof. intros [H1 H2 _ _]. split; [done|]. intros j Hj. by rewrite app_nil_r, H2. Qed.
Lemma grows_evolved w1 log w2 w3 : grows w1 log w2 → evolved w2 w3 → grows w1 log w3.
Proof. intros H1 H2%evolved_grows. pose proof (grows_trans _ _ _ _ _ H1 H2) as H3. by rewrite app_nil_r in H3. Qed.
Lemma evolved_grows_l w1 log w2 w3 : evolved w1 w2 → grows w2 log w3 → grows w1 log w3.
Proof. intros H1%evolved_grows H2. exact (grows_trans _ _ _ _ _ H1 H2). Qed.

Lemma evolved_slot w w' j : evolved w w' → core_index j → free_slot w' j = free_slot w j.
Proof. intros He Hj. unfold free_slot. by rewrite (ev_wptr _ _ He j Hj). Qed.

(** ** The steps of the host *)

(** Writing words to a place. *)
Fixpoint store (place : xy_pair) (addr : Z) (vs : list Z) : M F unit :=
  match vs with
  | [] => mret tt
  | v :: vs => (λ w, Some (Ok tt, upd_mem place addr v (env w)));; store place (addr + 4) vs
  end.
Lemma store_write_dwords core addr vs w : write_dwords env locate core addr vs noc w = store (locate noc core) addr vs w.
Proof.
  revert addr w. induction vs as [|v vs IH]; intros addr w; [done|].
  cbn [write_dwords store]. unfold mbind, M_bind, write_data. apply IH.
Qed.
Lemma store_store_host addr vs w : store_host env host addr vs w = store host addr vs w.
Proof.
  revert addr w. induction vs as [|v vs IH]; intros addr w; [done|].
  cbn [store_host store]. unfold mbind, M_bind. apply IH.
Qed.

(** Words of the free slot are written, and stay as they are written. *)
Lemma wp_store b j place addr vs (Q : result unit → World F → Prop) w :
  all_ok w → core_index j → waiting w j < 4 →
  (∀ i, 0 ≤ i < vec_size vs → slot_word j (free_slot w j) place (addr + 4 * i)) →
  (∀ w', evolved w w' → read_mem w' place addr (vec_size vs) = vs →
    (∀ c a, slot_word j (free_slot w j) c a → (∀ i, 0 ≤ i < vec_size vs → ¬ (c = place ∧ a = addr + 4 * i)) →
      mem w' c a = mem w c a) → Q (Ok tt) w') →
  wpf b (store place addr vs) Q w.
Proof.
  revert addr w Q. induction vs as [|v vs IH]; intros addr w Q Hok Hj Hroom Hslot HQ.
  { apply HQ; [by apply evolved_refl|done|done]. }
  assert (vec_size (v :: vs) = vec_size vs + 1) as Hsize by (unfold vec_size; cbn [length]; lia).
  cbn [store]. apply wp_bind. unfold wpf at 1.
  pose proof (env_evolved w Hok) as Henv. pose proof (ev_ok _ _ Henv) as Hok1.
  assert (slot_word j (free_slot w j) place addr) as Hfirst.
  { rewrite <- (Z.add_0_r addr). apply (Hslot 0). unfold vec_size in *. lia. }
  assert (evolved (env w) (upd_mem place addr v (env w))) as Hupd.
  { apply (upd_slot_evolved (env w) j); [done|done| |by rewrite (evolved_slot w)].
    pose proof (ev_waiting _ _ Henv j Hj). lia. }
  set (w1 := upd_mem place addr v (env w)) in *. pose proof (evolved_trans _ _ _ Henv Hupd) as H1.
  assert (∀ c a, slot_word j (free_slot w j) c a → ¬ (c = place ∧ a = addr) → mem w1 c a = mem w c a) as Hkeep.
  { intros c a Hc Hne. unfold w1. rewrite mem_upd, decide_False by done.
    apply (routing_keeps w j (free_slot w j)); [done|done|apply free_slot_bounds|done]. }
  apply IH; [apply H1|done| | |].
  - pose proof (ev_waiting _ _ H1 j Hj). lia.
  - intros i Hi. rewrite (evolved_slot w) by done. replace (addr + 4 + 4 * i) with (addr + 4 * (i + 1)) by lia. apply Hslot. lia.
  - rewrite (evolved_slot w) by done. intros w' He Hread Hrest. apply HQ; [by eapply evolved_trans|..].
    + rewrite Hsize, read_mem_cons, Hread by (unfold vec_size; lia). f_equal. rewrite Hrest.
      * unfold w1. by rewrite mem_upd, decide_True.
      * done.
      * intros i Hi [_ ?]. lia.
    + intros c a Hc Hne. rewrite Hrest; [apply Hkeep|..]; [done| |done|].
      * intros [-> ->]. apply (Hne 0); [unfold vec_size in *; lia|]. split; [done|lia].
      * intros i Hi [-> ->]. apply (Hne (i + 1)); [lia|]. split; [done|lia].
Qed.
(** *** Reading the pointers *)

Lemma evolved_env w w' : evolved w w' → evolved w (env w').
Proof. intros He. eapply evolved_trans; [exact He|]. apply env_evolved, He. Qed.

(** What the host knows of the read pointer: requests between it and the write
    pointer may have been taken since. *)
Definition knows w (j rp : Z) : Prop := 0 ≤ rp < 8 ∧ waiting w j ≤ (wptr w j - rp) `mod` 8 ≤ 4.
Definition room w (j rp : Z) : Prop := 0 ≤ rp < 8 ∧ waiting w j ≤ (wptr w j - rp) `mod` 8 < 4.
Lemma knows_rptr w j : all_ok w → core_index j → knows w j (rptr w j).
Proof. intros Hok Hj. destruct (Hok j Hj) as [? ? ? _]. split; [done|]. by unfold waiting in *. Qed.
Lemma knows_evolved w w' j rp : evolved w w' → core_index j → knows w j rp → knows w' j rp.
Proof. intros He Hj [Hr Hk]. split; [done|]. rewrite (ev_wptr _ _ He j Hj). pose proof (ev_waiting _ _ He j Hj). lia. Qed.

Lemma room_evolved w w' j rp : evolved w w' → core_index j → room w j rp → room w' j rp.
Proof. intros He Hj [Hr Hk]. split; [done|]. rewrite (ev_wptr _ _ He j Hj). pose proof (ev_waiting _ _ He j Hj). lia. Qed.
Lemma room_push w w' j rp :
  wptr w' j = (wptr w j + 1) `mod` 8 → waiting w' j ≤ waiting w j + 1 → room w j rp → knows w' j rp.
Proof.
  intros Hw Hn [Hr Hk]. split; [done|]. rewrite Hw, Zminus_mod_idemp_l.
  replace (wptr w j + 1 - rp) with (wptr w j - rp + 1) by lia. rewrite <- Zplus_mod_idemp_l.
  pose proof (Z.mod_pos_bound (wptr w j - rp) 8 ltac:(lia)). rewrite Z.mod_small by lia. lia.
Qed.

(** The test for a full queue. *)
Lemma queue_full_spec wp rp : 0 ≤ wp < 8 → 0 ≤ rp < 8 → is_non_mmio_cmd_q_full wp rp = ((wp - rp) `mod` 8 =? 4).
Proof.
  intros Hw Hr. assert (Forall (λ wp, Forall (λ rp, is_non_mmio_cmd_q_full wp rp = ((wp - rp) `mod` 8 =? 4)) (seqZ 0 8)) (seqZ 0 8))
    as Hall by (repeat constructor).
  rewrite Forall_forall in Hall. specialize (Hall wp ltac:(apply elem_of_seqZ; lia)).
  rewrite Forall_forall in Hall. apply Hall. apply elem_of_seqZ. lia.
Qed.
Lemma knows_room w j rp :
  all_ok w → core_index j → knows w j rp → is_non_mmio_cmd_q_full (wptr w j) rp = false → room w j rp.
Proof.
  intros Hok Hj [Hr Hk] Hfull. destruct (Hok j Hj) as [Hw _ _ _]. rewrite queue_full_spec in Hfull by done.
  apply Z.eqb_neq in Hfull. split; [done|]. lia.
Qed.

(** Words that are read while the queues move on. *)
Lemma wp_read_dwords b core addr n (Q : result (list Z) → World F → Prop) w :
  all_ok w →
  (∀ vs w', evolved w w' → length vs = n →
    (∀ i : nat, (i < n)%nat → ∃ wi, evolved w wi ∧ evolved wi w' ∧
      vs !! i = Some (mem wi (locate noc core) (addr + 4 * Z.of_nat i))) →
    Q (Ok vs) w') →
  wpf b (read_dwords env locate core addr n noc) Q w.
Proof.
  revert addr w Q. induction n as [|n IH]; intros addr w Q Hok HQ; cbn [read_dwords].
  { apply HQ; [by apply evolved_refl|done|lia]. }
  apply wp_bind, wp_read_data, wp_bind. pose proof (env_evolved _ Hok) as He.
  apply IH; [apply He|]. intros vs w' He' Hl Hvs. apply wp_ret. pose proof (evolved_trans _ _ _ He He') as He2.
  apply HQ; [done|by cbn [length]; rewrite Hl|]. intros [|i] Hi.
  - exists (env w). split_and!; [done|done|]. cbn. by rewrite Z.add_0_r.
  - destruct (Hvs i ltac:(lia)) as (wi & H1 & H2 & H3). exists wi.
    split_and!; [exact (evolved_trans _ _ _ He H1)|done|]. etransitivity; [exact H3|]. do 2 f_equal. lia.
Qed.

Lemma wp_read_q_ptrs b j core (Q : result (Z * Z) → World F → Prop) w :
  all_ok w → core_index j → locate noc core = tile j →
  (∀ rp w', evolved w w' → knows w' j rp → Q (Ok (wptr w' j, rp)) w') →
  wpf b (read_q_ptrs env locate noc core) Q w.
Proof.
  intros Hok Hj Hc HQ. unfold read_q_ptrs. apply wp_bind, wp_read_dwords; [done|]. intros vs w' He Hl Hvs.
  destruct (Hvs 0%nat ltac:(lia)) as (w0 & _ & H0 & Hv0). destruct (Hvs 4%nat ltac:(lia)) as (w4 & H4' & H4 & Hv4).
  eapply wp_bind_lift; [by apply vec_idx_Some|]. eapply wp_bind_lift; [by apply vec_idx_Some|]. apply wp_ret.
  rewrite Hc, Z.add_0_r. change (mem w0 (tile j) REQUEST_WPTR) with (wptr w0 j).
  change (REQUEST_WPTR + 4 * Z.of_nat 4) with REQUEST_RPTR. change (mem w4 (tile j) REQUEST_RPTR) with (rptr w4 j).
  rewrite <- (ev_wptr _ _ H0 j Hj). apply HQ; [done|]. eapply knows_evolved; [exact H4|done|].
  apply knows_rptr; [apply H4'|done].
Qed.
(** *** Waiting for room *)

(** The clock advances between two accesses of the device. *)
Context (now : F → Z) (ticks : ∀ w, now (firmware w) < now (firmware (env w))).

Lemma wp_wait_not_full fuel j core wq rp full start timeout_ms (Q : result Z → World F → Prop) w0 w :
  evolved w0 w → core_index j → locate noc core = tile j → wptr w0 j = wq → knows w j rp →
  full = is_non_mmio_cmd_q_full wq rp → 0 < timeout_ms →
  now (firmware w) - start < patience timeout_ms < now (firmware w) - start + Z.of_nat fuel →
  (∀ rp' w', evolved w0 w' → room w' j rp' → Q (Ok rp') w') →
  (∀ w', evolved w0 w' → Q (throw remote_timeout_message) w') →
  wp (wait_not_full env locate now noc fuel core wq rp full start timeout_ms) Q w.
Proof.
  intros He Hj Hc Hwq Hk Hfull Ht. revert w rp full He Hk Hfull.
  induction fuel as [|fuel IH]; intros w rp full He Hk Hfull Htime HQ Herr; [lia|].
  cbn [wait_not_full]. destruct full eqn:E; subst full.
  - apply wp_bind, wp_read_data. pose proof (evolved_env _ _ He) as He1. rewrite Hc.
    change (mem (env w) (tile j) REQUEST_RPTR) with (rptr (env w) j).
    apply wp_bind, wp_check_timeout. destruct (timed_out _ _ _) eqn:Eto; [by apply Herr|].
    apply not_timed_out in Eto; [|done]. pose proof (ticks w) as Htick.
    apply IH; [done|apply knows_rptr; [apply He1|done]|done|lia|done|done].
  - apply wp_ret. apply HQ; [done|]. eapply knows_room; [apply He|done|done|].
    by rewrite (ev_wptr _ _ He j Hj), Hwq.
Qed.

(** *** Pushing a command *)

Lemma payload_at_ext w w' j s ws :
  (∀ c a, slot_word j s c a → ¬ (c = tile j ∧ CMDS + 32 * s ≤ a < CMDS + 32 * s + 32) → mem w' c a = mem w c a) →
  places_apart → core_index j → 0 ≤ s < 4 → cmd_ok j s ws → payload_at w' j s ws = payload_at w j s ws.
Proof.
  intros He Hp Hj Hs Hok. unfold payload_at. unfold cmd_ok in Hok. destruct (rq_block ws); [|done]. specialize (Hok eq_refl).
  destruct (rq_dram ws).
  - destruct Hok as [-> Hd]. apply read_mem_ext. intros i Hi. apply He.
    + right. split; [done|]. pose proof (Z.mul_div_le (rq_data ws) 4 ltac:(lia)). lia.
    + intros [E _]. by apply (pa_host Hp j Hj).
  - apply read_mem_ext. intros i Hi. pose proof (Z.mul_div_le (rq_data ws) 4 ltac:(lia)). apply He.
    + left. split; [done|]. right. lia.
    + intros [_ Ha]. unfold CMDS, REQUEST_ROUTING_CMD_QUEUE_BASE, REQUEST_CMD_QUEUE_BASE, ETH_ROUTING_STRUCT_ADDR,
        CMD_COUNTERS_SIZE_BYTES, REMOTE_UPDATE_PTR_SIZE_BYTES, ETH_ROUTING_DATA_BUFFER_ADDR, MAX_BLOCK_SIZE in *. lia.
Qed.

Lemma wp_push_command b j core cmd (Q : result Z → World F → Prop) w :
  all_ok w → core_index j → locate noc core = tile j → waiting w j < 4 → cmd_ok j (free_slot w j) (cmd_words cmd) →
  (∀ w', grows w [(j, MkRequest (cmd_words cmd) (payload_at w j (free_slot w j) (cmd_words cmd)))] w' →
    wptr w' j = (wptr w j + 1) `mod` 8 → waiting w' j ≤ waiting w j + 1 → Q (Ok (wptr w' j)) w') →
  wpf b (push_command env locate noc core (wptr w j) cmd) Q w.
Proof.
  intros Hok Hj Hc Hroom Hcmd HQ. unfold push_command.
  assert (Z.land (wptr w j) CMD_BUF_SIZE_MASK = free_slot w j) as ->.
  { change CMD_BUF_SIZE_MASK with (Z.ones 2). by rewrite Z.land_ones. }
  assert (Z.land (wptr w j + 1) CMD_BUF_PTR_MASK = (wptr w j + 1) `mod` 8) as ->.
  { change CMD_BUF_PTR_MASK with (Z.ones 3). by rewrite Z.land_ones. }
  apply wp_bind. unfold wpf at 1. rewrite store_write_dwords, Hc.
  fold (wpf b (store (tile j) (REQUEST_ROUTING_CMD_QUEUE_BASE + CMD_SIZE_BYTES * free_slot w j) (cmd_words cmd))
    (λ r w', match r with Ok a => wpf b (write_data env locate core REQUEST_WPTR ((wptr w j + 1) `mod` 8) noc;; mret ((wptr w j + 1) `mod` 8)) Q w' | Err e => Q (Err e) w' end) w).
  assert (vec_size (cmd_words cmd) = 8) as Hsize by done.
  apply (wp_store _ j); [done|done|done| |]; rewrite Hsize.
  { intros i Hi. left. split; [done|]. left. unfold CMDS, CMD_SIZE_BYTES. lia. }
  intros w1 H1 Hread Hrest. change (REQUEST_ROUTING_CMD_QUEUE_BASE + CMD_SIZE_BYTES * free_slot w j) with (CMDS + 32 * free_slot w j) in *.
  change (read_mem w1 (tile j) (CMDS + 32 * free_slot w j) 8) with (cmd_at w1 j (free_slot w j)) in Hread.
  apply wp_bind, wp_write_data, wp_ret. rewrite Hc.
  pose proof (evolved_env _ _ H1) as H2. set (w2 := env w1) in *.
  assert (free_slot w2 j = free_slot w j) as Hf2 by by apply evolved_slot.
  pose proof (free_slot_bounds w j) as Hfb.
  assert (∀ c a, slot_word j (free_slot w j) c a → mem w2 c a = mem w1 c a) as H12.
  { intros c a Ha. apply (routing_keeps w1 j (free_slot w j)); [apply H1|done|done|done]. }
  assert (cmd_at w2 j (free_slot w j) = cmd_words cmd) as Hcmd2 by (rewrite <- Hread; by apply cmd_at_ext).
  pose proof (ev_waiting _ _ H2 j Hj) as Hn2.
  destruct (push_evolved w2 j) as (G1 & G2 & G3 & _ & G4); [apply H2|done|lia|by rewrite Hf2, Hcmd2|].
  rewrite <- (ev_wptr _ _ H2 j Hj).
  set (w3 := upd_mem (tile j) REQUEST_WPTR ((wptr w2 j + 1) `mod` 8) w2) in *. rewrite <- G3.
  apply HQ.
  - split; [done|]. intros j' Hj'. rewrite G2, (ev_total _ _ H2 j' Hj') by done. f_equal. unfold for_core. cbn [List.filter map fst].
    rewrite Hf2. unfold request_at. rewrite Hcmd2. destruct (decide (j' = j)) as [->|Hne].
    + rewrite Z.eqb_refl. cbn [map snd]. do 2 f_equal. apply payload_at_ext; try done. intros c a Ha Hne.
      rewrite H12 by done. apply Hrest; [done|]. intros i Hi [-> ->]. apply Hne. split; [done|]. lia.
    + by rewrite (proj2 (Z.eqb_neq j j')) by done.
  - by rewrite G3, (ev_wptr _ _ H2 j Hj).
  - rewrite G4, decide_True by done. lia.
Qed.
End Memory.
