(* ===== verification/RemoteWrite.v ===== *)
(** * RemoteWrite

    What a write to a remote chip leaves in the request queues: the layout of
    its blocks, the steps of the host on a queue, one block, the loop. *)

From Stdlib Require Import ZArith Lia.
From stdpp Require Import base list list_numbers numbers strings.
From S2P Require Import Prelude CoreTypes ArchData BoardTypes DeviceAccess RemoteQueue RemoteTheory.

Local Open Scope Z_scope.
Import eth_routing.

(** ** Words and bytes *)

Definition is_byte (b : Z) : Prop := 0 ≤ b < 256.

Lemma byte_of_spec word i : 0 ≤ i → byte_of word i = (word / 2 ^ (8 * i)) `mod` 256.
Proof. intros Hi. unfold byte_of. rewrite Z.shiftr_div_pow2 by lia. change 0xFF with (Z.ones 8). by rewrite Z.land_ones. Qed.
Lemma word_bytes_byte word : Forall is_byte (word_bytes word).
Proof.
  unfold word_bytes, is_byte. cbn [map].
  repeat constructor; rewrite byte_of_spec by lia; apply Z.mod_pos_bound; lia.
Qed.
Lemma word_bytes_le_word bs : length bs = 4%nat → Forall is_byte bs → word_bytes (le_word bs) = bs.
Proof.
  destruct bs as [|b0 [|b1 [|b2 [|b3 [|]]]]]; try discriminate. intros _ Hb. unfold is_byte in Hb.
  repeat (apply Forall_cons in Hb as [? Hb]).
  unfold word_bytes, le_word. cbn [map foldr]. rewrite !byte_of_spec by lia.
  change (2 ^ (8 * 0)) with 1. change (2 ^ (8 * 1)) with 256. change (2 ^ (8 * 2)) with 65536.
  change (2 ^ (8 * 3)) with 16777216. change (2 ^ 8) with 256.
  repeat f_equal; Z.div_mod_to_equations; lia.
Qed.

Lemma of_words_cons word ws : of_words (word :: ws) = word_bytes word ++ of_words ws.
Proof. done. Qed.
(** A buffer of whole words and its words. *)
Lemma words_of_spec fuel bs n :
  length bs = (4 * n)%nat → (n ≤ fuel)%nat → Forall is_byte bs →
  of_words (words_of fuel bs) = bs ∧ length (words_of fuel bs) = n.
Proof.
  revert bs n. induction fuel as [|fuel IH]; intros bs n Hl Hn Hb.
  { destruct n; [|lia]. by destruct bs. }
  destruct n as [|n]; [by destruct bs|]. destruct bs as [|b bs']; [by cbn in Hl; lia|].
  set (bs := b :: bs') in *. change (words_of (S fuel) bs) with (le_word (take 4 bs) :: words_of fuel (drop 4 bs)).
  destruct (IH (drop 4 bs) n) as [H1 H2].
  { rewrite length_drop. lia. } { lia. } { by apply Forall_drop. }
  rewrite of_words_cons, H1, word_bytes_le_word.
  - split; [apply take_drop|]. cbn [length]. lia.
  - rewrite length_take. lia.
  - by apply Forall_take.
Qed.
Lemma to_words_spec bs n :
  length bs = (4 * n)%nat → Forall is_byte bs → of_words (to_words bs) = bs ∧ length (to_words bs) = n.
Proof. intros Hl Hb. apply words_of_spec; [done|lia|done]. Qed.

(** ** Blocks *)

Lemma align_up_4_spec n : 0 ≤ n < 2 ^ 32 - 3 → align_up_4 n = 4 * ((n + 3) / 4).
Proof.
  intros Hn. unfold align_up_4. rewrite u32_small by lia.
  replace (4 * ((n + 3) / 4)) with (Z.shiftl (Z.shiftr (n + 3) 2) 2)
    by (rewrite Z.shiftl_mul_pow2, Z.shiftr_div_pow2 by lia; change (2 ^ 2) with 4; lia).
  apply Z.bits_inj'. intros i Hi. rewrite Z.land_spec, Z.lxor_spec, Z.shiftl_spec by lia.
  change (2 ^ 32 - 1) with (Z.ones 32). change 3 with (Z.ones 2) at 2. rewrite !Z.testbit_ones_nonneg by lia.
  destruct (Z.lt_ge_cases i 2).
  - rewrite (Z.testbit_neg_r _ (i - 2)) by lia. rewrite (proj2 (Z.ltb_lt i 32)), (proj2 (Z.ltb_lt i 2)) by lia. apply andb_false_r.
  - rewrite Z.shiftr_spec by lia. replace (i - 2 + 2) with i by lia. rewrite (proj2 (Z.ltb_ge i 2)) by lia.
    destruct (Z.lt_ge_cases i 32); [rewrite (proj2 (Z.ltb_lt i 32)) by lia; apply andb_true_r|].
    assert (Z.testbit (n + 3) i = false) as ->; [|done].
    rewrite <- (Z.mod_small (n + 3) (2 ^ 32)) by lia. by apply Z.mod_pow2_bits_high.
Qed.

(** The size of a block: whole words, at most the maximum, aligned when longer
    than a word, and as long as what is left allows. *)
Lemma write_block_size_spec core_dest off size max_size :
  0 ≤ off < size → size < 2 ^ 32 - 2 ^ 16 → max_size = MAX_BLOCK_SIZE ∨ max_size = ETH_ROUTING_BLOCK_SIZE →
  ∃ k, write_block_size core_dest off size max_size false = 4 * k ∧ 0 < k ∧ 4 * k ≤ max_size ∧
    (k ≠ 1 → u64 (core_dest + off) `mod` 32 = 0) ∧ 4 * k < size - off + 4.
Proof.
  intros Ho Hs Hmax. unfold write_block_size. cbn [negb]. rewrite Z.add_0_r, (u32_small size) by lia.
  assert (1024 ≤ max_size ≤ 32768 ∧ max_size `mod` 4 = 0) as [Hm Hm4].
  { unfold MAX_BLOCK_SIZE, ETH_ROUTING_BLOCK_SIZE in Hmax. by destruct Hmax as [-> | ->]. }
  change 0x1F with (Z.ones 5). rewrite Z.land_ones by lia. change (2 ^ 5) with 32.
  destruct (Z.eqb_spec (u64 (core_dest + off) `mod` 32) 0) as [Ha|Ha]; cbn [negb].
  2: { exists 1. unfold DATA_WORD_SIZE. lia. }
  rewrite (u32_small (off + max_size)), (u32_small (size - off)), Z.sub_0_r, (u32_small max_size) by lia.
  set (n := if size <? off + max_size then size - off else max_size).
  assert (0 < n ≤ max_size ∧ n ≤ size - off) as Hn by (unfold n; destruct (Z.ltb_spec size (off + max_size)); lia).
  rewrite align_up_4_spec by lia. exists ((n + 3) / 4).
  split_and!; try done; Z.div_mod_to_equations; lia.
Qed.

(** ** What a request writes *)

(** The address, the rack and the bytes that the firmware finds in a request. *)
Definition rq_address (ws : list Z) : Z := word_at ws 0 + 2 ^ 32 * word_at ws 1.
Definition rq_rack (ws : list Z) : Z := word_at ws 4 `mod` 2 ^ 16.
Definition request_bytes (rq : Request) : list Z :=
  if rq_block (rq_words rq) then of_words (rq_payload rq) else word_bytes (rq_data (rq_words rq)).

(** A request that writes [n] bytes of the source, from an offset on; whole words
    are written, so up to three bytes follow them. *)
Record write_request (target : EthCoord) (target_core : xy_pair) (noc : NocId) (src : list Z) (core_dest off n : Z)
    (rq : Request) : Prop := {
  wr_size : 0 < n ∧ off + n ≤ vec_size src;
  wr_address : rq_address (rq_words rq) =
    get_sys_addr (ec_x target) (ec_y target) (xy_x target_core) (xy_y target_core) (u64 (core_dest + off));
  wr_rack : rq_rack (rq_words rq) = get_sys_rack (ec_rack target) (ec_shelf target);
  wr_command : Z.land (word_at (rq_words rq) 3) (Z.lor CMD_WR_REQ CMD_RD_REQ) = CMD_WR_REQ;
  wr_noc : Z.testbit (word_at (rq_words rq) 3) REMOTE_CMD_NOC_BIT = bool_decide (noc = NOC1);
  wr_aligned : rq_block (rq_words rq) = true → u64 (core_dest + off) `mod` 32 = 0;
  wr_bytes : take (Z.to_nat n) (request_bytes rq) = take (Z.to_nat n) (drop (Z.to_nat off) src);
  wr_padding : vec_size (request_bytes rq) < n + 4
}.

(** Requests that write the source from one offset to another, in order. *)
Inductive writes (target : EthCoord) (target_core : xy_pair) (noc : NocId) (src : list Z) (core_dest : Z) :
    Z → list Request → Z → Prop :=
  | writes_nil off : writes target target_core noc src core_dest off [] off
  | writes_cons off n rq rqs off' :
      write_request target target_core noc src core_dest off n rq →
      writes target target_core noc src core_dest (off + n) rqs off' →
      writes target target_core noc src core_dest off (rq :: rqs) off'.

Lemma rq_address_cmd c : rq_address (cmd_words c) = sys_addr c.
Proof.
  unfold rq_address, word_at, cmd_words. cbn [nth]. rewrite Z.shiftr_div_pow2 by lia. unfold u32.
  pose proof (Z.div_mod (sys_addr c) (2 ^ 32) ltac:(lia)). lia.
Qed.
Lemma rq_rack_cmd c rack_x rack_y :
  src_resp_buf_index c = 0 → rack c = get_sys_rack rack_x rack_y → rq_rack (cmd_words c) = get_sys_rack rack_x rack_y.
Proof.
  unfold rq_rack, word_at, cmd_words. cbn [nth]. intros -> ->. rewrite Z.shiftl_0_l, Z.lor_0_r. unfold get_sys_rack, u16.
  apply Z.mod_small. apply Z.mod_pos_bound. lia.
Qed.

Lemma vec_nonempty {A} (v : list A) i : 0 ≤ i < vec_size v → v ≠ [].
Proof. intros Hi ->. unfold vec_size in Hi. cbn in Hi. lia. Qed.
Lemma get_remote_core_spec r :
  remote_transfer_eth_cores r ≠ [] →
  get_remote_transfer_ethernet_core r = vec_at (remote_transfer_eth_cores r) (active_eth_core_idx r).
Proof. unfold get_remote_transfer_ethernet_core. by destruct (remote_transfer_eth_cores r). Qed.
Lemma update_active_spec r :
  remote_transfer_eth_cores r ≠ [] →
  update_active_eth_core_idx r = Ok (MkRemote (target_chip r) (remote_transfer_eth_cores r)
    ((active_eth_core_idx r + 1) `mod` vec_size (remote_transfer_eth_cores r)) (flush_non_mmio r)).
Proof. unfold update_active_eth_core_idx. by destruct (remote_transfer_eth_cores r). Qed.

(** The source, cut into blocks. *)
Definition src_slice (src : list Z) (off n : Z) : list Z := take (Z.to_nat n) (drop (Z.to_nat off) src).
Lemma src_bytes_slice src off n :
  0 ≤ off → off + n ≤ vec_size src → src_bytes src off n = Ok (src_slice src off n).
Proof. intros H1 H2. unfold src_bytes. by rewrite bool_decide_eq_true_2. Qed.
Lemma src_slice_length src off n : 0 ≤ off → 0 ≤ n → off + n ≤ vec_size src → length (src_slice src off n) = Z.to_nat n.
Proof. intros H1 H2 H3. unfold src_slice, vec_size in *. rewrite length_take, length_drop. lia. Qed.
Lemma src_slice_byte src off n : Forall is_byte src → Forall is_byte (src_slice src off n).
Proof. intros Hb. apply Forall_take. by apply Forall_drop. Qed.

(** The buffer of a block: whole words that start with the bytes. *)
Lemma block_buffer_spec bytes buf k :
  0 < k → vec_size bytes ≤ 4 * k → Forall is_byte bytes → Forall is_byte buf →
  let block := overwrite bytes (size_buffer_to_capacity buf (4 * k)) in
  length block = (4 * Z.to_nat k)%nat ∧ Forall is_byte block ∧ take (length bytes) block = bytes.
Proof.
  intros Hk Hl Hb Hbuf block. unfold block, overwrite, size_buffer_to_capacity, vec_size in *.
  rewrite (proj2 (Z.ltb_lt 0 (4 * k))) by lia. replace ((4 * k - 1) `div` 4 + 1) with k by (Z.div_mod_to_equations; lia).
  split_and!.
  - rewrite length_app, length_drop, length_take, length_app, length_replicate. lia.
  - apply Forall_app. split; [done|]. apply Forall_drop, Forall_take, Forall_app. split; [done|].
    apply Forall_replicate. unfold is_byte. lia.
  - apply take_app_length.
Qed.

(** The word of a command without a block. *)
Lemma single_word_spec src off cmd :
  Forall is_byte src → vec_size src < 2 ^ 32 - 2 ^ 16 → 0 ≤ off < vec_size src → off `mod` 4 = 0 →
  let n := Z.min 4 (vec_size src - off) in
  ∃ v, single_word src (vec_size src) off cmd = Ok v ∧ take (Z.to_nat n) (word_bytes v) = src_slice src off n.
Proof.
  intros Hb Hs Ho Ho4 n. unfold single_word. rewrite u32_small by lia.
  assert (Forall is_byte (src_slice src off n)) as Hslice by by apply src_slice_byte.
  assert (length (src_slice src off n) = Z.to_nat n) as Hlen by (apply src_slice_length; lia).
  destruct (Z.ltb_spec (vec_size src - off) 4).
  - replace (vec_size src - off) with n by lia. rewrite src_bytes_slice by lia. cbn [mbind result_bind].
    eexists. split; [done|]. rewrite word_bytes_le_word.
    + unfold overwrite. rewrite <- Hlen. apply take_app_length.
    + unfold overwrite. rewrite length_app, length_drop, Hlen. change (length (word_bytes (data cmd))) with 4%nat. lia.
    + unfold overwrite. apply Forall_app. split; [done|]. apply Forall_drop, word_bytes_byte.
  - replace (off `div` 4 * 4) with off by (Z.div_mod_to_equations; lia). rewrite src_bytes_slice by lia.
    cbn [mbind result_bind]. replace n with 4 in * by lia. eexists. split; [done|].
    rewrite word_bytes_le_word by (rewrite ?Hlen; done). rewrite <- Hlen. apply firstn_all.
Qed.

(** ** Writing one block *)

Section Write.
Context {F : Type} (env : World F → World F) (locate : NocId → xy_pair → xy_pair) (noc : NocId).
Context (host : xy_pair) (cores : list xy_pair) {fw : RoutingFirmware env locate noc host cores}.
Context (Hplaces : places_apart locate noc host cores).
Context (now : F → Z) (ticks : ∀ w, now (firmware w) < now (firmware (env w))).
(** With system memory, the hugepage of channel 0 holds the buffers. *)
Context (channel0 : HugepageMapping) (system_mem_available : bool).
Context (Hmapping : system_mem_available = true → mapping channel0 = true ∧ host_block 16 0 ≤ mapping_size channel0).
Context (poll_fuel : nat) (timeout_ms : Z) (Htimeout : 0 < timeout_ms) (Hpoll : patience timeout_ms < Z.of_nat poll_fuel).
Context (target : EthCoord) (target_core : xy_pair) (src : list Z) (core_dest : Z).
Context (Hsrc : Forall is_byte src) (Hsize : vec_size src < 2 ^ 32 - 2 ^ 16).
Implicit Types (w : World F) (r : RemoteCommunication).
Let size := vec_size src.
Abbreviation all_ok := (all_ok locate noc cores).
Abbreviation core_index := (core_index cores).
Abbreviation evolved := (evolved env locate noc host cores).
Abbreviation grows := (grows env locate noc host cores).
Abbreviation knows := (knows locate noc cores).
Abbreviation room := (room locate noc cores).
Abbreviation wptr := (wptr locate noc cores).
Abbreviation free_slot := (free_slot locate noc cores).
Abbreviation waiting := (waiting locate noc cores).
Abbreviation use_host_dram := (write_use_host_dram system_mem_available size false).
Abbreviation max_block_size := (write_max_block_size system_mem_available size false).
Abbreviation write_request := (write_request target target_core noc src core_dest).

Lemma max_block_cases : max_block_size = MAX_BLOCK_SIZE ∨ max_block_size = ETH_ROUTING_BLOCK_SIZE.
Proof. unfold write_max_block_size. destruct (write_use_host_dram _ _ _); auto. Qed.

Lemma max_block_range : 1024 ≤ max_block_size ≤ 32768.
Proof. destruct max_block_cases as [-> | ->]; by unfold MAX_BLOCK_SIZE, ETH_ROUTING_BLOCK_SIZE. Qed.

(** The payload of a block goes to the buffer that its command names. *)
Definition payload_place (j s : Z) : xy_pair * Z :=
  if use_host_dram then (host, host_block j s)
  else (tile locate noc cores j, ETH_ROUTING_DATA_BUFFER_ADDR + MAX_BLOCK_SIZE * s).
Lemma wp_write_payload b j core block k (Q : result unit → World F → Prop) w :
  all_ok w → core_index j → locate noc core = tile locate noc cores j → waiting w j < 4 →
  length block = (4 * k)%nat → Forall is_byte block → 4 * Z.of_nat k ≤ max_block_size →
  (∀ w', evolved w w' →
    read_mem w' (payload_place j (free_slot w j)).1 (payload_place j (free_slot w j)).2 (Z.of_nat k) = to_words block →
    Q (Ok tt) w') →
  wpf b (write_payload env locate host channel0 system_mem_available noc size false [] core j (free_slot w j) block) Q w.
Proof.
  intros Hok Hj Hc Hroom Hl Hb Hk HQ. destruct (to_words_spec block k Hl Hb) as [_ Hlen].
  assert (vec_size (to_words block) = Z.of_nat k) as Hvec by (unfold vec_size; by rewrite Hlen).
  pose proof (free_slot_bounds locate noc cores w j) as Hf. destruct Hplaces as [_ _ Hcount]. unfold RemoteTheory.core_index in Hj.
  unfold write_payload, payload_place, write_max_block_size in *. destruct use_host_dram eqn:E.
  - apply wp_bind. apply wp_ret. rewrite Z.add_0_r.
    assert (write_host_block system_mem_available size false j (free_slot w j) = host_block j (free_slot w j)) as ->.
    { unfold write_host_block, write_max_block_size. rewrite E. unfold host_block, ETH_ROUTING_BUFFERS_START, ETH_ROUTING_BLOCK_SIZE, CMD_BUF_SIZE.
      apply u32_small. lia. }
    assert (system_mem_available = true) as Hsm by (unfold write_use_host_dram in E; by apply andb_prop in E as [_ ?]).
    destruct (Hmapping Hsm) as [Hmap Hmsize].
    assert (0 ≤ host_block j (free_slot w j) ∧ host_block j (free_slot w j) + ETH_ROUTING_BLOCK_SIZE ≤ host_block 16 0) as Hbound.
    { unfold host_block, ETH_ROUTING_BUFFERS_START, ETH_ROUTING_BLOCK_SIZE. lia. }
    unfold write_to_sysmem. rewrite Hmap. eapply wp_bind_lift; [done|].
    rewrite (proj2 (Z.eqb_neq _ 0)) by (unfold ETH_ROUTING_BLOCK_SIZE in *; lia). eapply wp_bind_lift; [done|].
    rewrite Hvec, (proj2 (Z.leb_le _ _)) by (unfold ETH_ROUTING_BLOCK_SIZE in *; lia). eapply wp_bind_lift; [done|].
    rewrite Z.mod_small by (unfold ETH_ROUTING_BLOCK_SIZE in *; lia).
    unfold wpf. rewrite store_store_host. apply (wp_store env locate noc host cores Hplaces b j); try done.
    + intros i Hi. right. split; [done|]. lia.
    + rewrite Hvec. intros w' He Hr _. by apply HQ.
  - unfold wpf. rewrite store_write_dwords, Hc. rewrite (Z.mul_comm (free_slot w j)).
    apply (wp_store env locate noc host cores Hplaces b j); try done.
    + intros i Hi. left. split; [done|]. right. lia.
    + rewrite Hvec. intros w' He Hr _. by apply HQ.
Qed.
(** The state between two blocks. *)
Record transfer_ok r w (s : Transfer) : Prop := {
  t_ok : all_ok w;
  t_cores : remote_transfer_eth_cores r = cores;
  t_target : target_chip r = target;
  t_flush : flush_non_mmio r = true;
  t_idx : core_index (active_eth_core_idx r);
  t_core : locate noc (core s) = tile locate noc cores (active_eth_core_idx r);
  t_wptr : q_wptr s = wptr w (active_eth_core_idx r);
  t_known : knows w (active_eth_core_idx r) (q_rptr s);
  t_full : full s = is_non_mmio_cmd_q_full (q_wptr s) (q_rptr s);
  t_offset : 0 ≤ offset s ≤ size ∧ (offset s `mod` 4 = 0 ∨ offset s = size);
  t_cmd : src_resp_buf_index (new_cmd s) = 0;
  t_block : Forall is_byte (data_block s)
}.

Lemma vec_at_tile j : core_index j → ∃ c, vec_at cores j = Ok c ∧ locate noc c = tile locate noc cores j.
Proof.
  intros Hj. destruct (vec_lookup cores j Hj) as [c Hc]. exists c. split; [by apply vec_at_Some|].
  unfold tile. by rewrite (nth_lookup_Some _ _ _ _ Hc).
Qed.

(** Moving to the next core. *)
Lemma wp_write_next_core b r w s (Q : result Transfer → RemoteCommunication → World F → Prop) :
  all_ok w → remote_transfer_eth_cores r = cores → target_chip r = target → flush_non_mmio r = true →
  core_index (active_eth_core_idx r) →
  0 ≤ offset s ≤ size ∧ (offset s `mod` 4 = 0 ∨ offset s = size) → src_resp_buf_index (new_cmd s) = 0 →
  Forall is_byte (data_block s) →
  (∀ s' r' w', evolved w w' → offset s' = offset s → transfer_ok r' w' s' → Q (Ok s') r' w') →
  hwpf b (write_next_core env locate noc s) Q r w.
Proof.
  intros Hok Hc Ht Hfl Hj Ho Hcmd Hblk HQ. unfold write_next_core. apply hwp_bind, hwp_get, hwp_bind, hwp_lift.
  unfold RemoteTheory.core_index in Hj. rewrite update_active_spec by (rewrite Hc; by eapply vec_nonempty).
  apply hwp_bind, hwp_put. rewrite Hc. set (j' := (active_eth_core_idx r + 1) `mod` vec_size cores).
  assert (core_index j') as Hj' by (apply Z.mod_pos_bound; lia).
  destruct (vec_at_tile j' Hj') as (c & Hat & Hloc).
  apply hwp_bind, hwp_lift. rewrite get_remote_core_spec by (by eapply vec_nonempty). cbn [remote_transfer_eth_cores active_eth_core_idx].
  rewrite Hat. apply hwp_bind, hwp_device.
  apply (wp_read_q_ptrs env locate noc host cores b j'); [done|done|done|]. intros rp w' He Hk.
  apply hwp_ret. apply HQ; [done|done|]. split; try done. apply He.
Qed.

(** Pushing the command of a block, and moving on if its queue is full. *)
Lemma wp_finish_block b r w s rptr off' cmd block (Q : result Transfer → RemoteCommunication → World F → Prop) :
  transfer_ok r w s → room w (active_eth_core_idx r) rptr →
  cmd_ok (active_eth_core_idx r) (free_slot w (active_eth_core_idx r)) (cmd_words cmd) →
  src_resp_buf_index cmd = 0 → Forall is_byte block → 0 ≤ off' ≤ size ∧ (off' `mod` 4 = 0 ∨ off' = size) →
  (∀ s' r' w', grows w [(active_eth_core_idx r, MkRequest (cmd_words cmd) (payload_at locate noc host cores w
      (active_eth_core_idx r) (free_slot w (active_eth_core_idx r)) (cmd_words cmd)))] w' →
    offset s' = off' → transfer_ok r' w' s' → Q (Ok s') r' w') →
  hwpf b (wptr ← on_device (push_command env locate noc (core s) (q_wptr s) cmd);
    let s := MkTransfer off' (core s) wptr rptr false cmd block in
    if is_non_mmio_cmd_q_full (Z.land wptr CMD_BUF_PTR_MASK) rptr then write_next_core env locate noc s else mret s) Q r w.
Proof.
  intros [Hok Hc Ht Hfl Hj Hloc Hw Hk Hf Ho Hcmd Hblk] Hroom Hcok Hbuf Hbytes Ho' HQ. rewrite Hw.
  set (j := active_eth_core_idx r) in *.
  apply hwp_bind, hwp_device.
  apply (wp_push_command env locate noc host cores Hplaces b j); [done|done|done|destruct Hroom; lia|done|]. intros w' Hg Hw' Hn.
  pose proof (gr_ok _ _ _ _ _ _ _ _ Hg) as Hok'. destruct (Hok' j Hj) as [Hb' _ _ _].
  change CMD_BUF_PTR_MASK with (Z.ones 3). rewrite Z.land_ones, (Z.mod_small (wptr w' j)) by (change (2 ^ 3) with 8; lia).
  assert (knows w' j rptr) as Hk'.
  { by eapply room_push. }
  destruct (is_non_mmio_cmd_q_full (wptr w' j) rptr) eqn:Efull.
  - apply wp_write_next_core; try done. intros s' r' w'' He Hs' Hok''. apply HQ; [|done|done]. by eapply grows_evolved.
  - apply hwp_ret. apply HQ; [done|done|]. by split.
Qed.
(** The flags of the commands. *)
Definition block_flags : Z := Z.lor (Z.lor CMD_DATA_BLOCK CMD_WR_REQ) (if use_host_dram then CMD_DATA_BLOCK_DRAM else 0).
Lemma flags_of_block k :
  0 < k → write_flags false (4 * k) = if decide (k = 1) then CMD_WR_REQ else Z.lor CMD_DATA_BLOCK CMD_WR_REQ.
Proof.
  intros Hk. unfold write_flags, DATA_WORD_SIZE. destruct (decide (k = 1)) as [->|Hne]; [done|].
  by rewrite (proj2 (Z.ltb_lt 4 (4 * k))) by lia.
Qed.
Lemma flags_word : let f := with_noc noc CMD_WR_REQ in
  Z.land f (Z.lor CMD_WR_REQ CMD_RD_REQ) = CMD_WR_REQ ∧ Z.testbit f REMOTE_CMD_NOC_BIT = bool_decide (noc = NOC1) ∧
  Z.land f CMD_DATA_BLOCK = 0.
Proof. by destruct noc. Qed.
Lemma flags_block : let f := with_noc noc block_flags in
  Z.land f (Z.lor CMD_WR_REQ CMD_RD_REQ) = CMD_WR_REQ ∧ Z.testbit f REMOTE_CMD_NOC_BIT = bool_decide (noc = NOC1) ∧
  (Z.land f CMD_DATA_BLOCK =? 0) = false ∧ negb (Z.land f CMD_DATA_BLOCK_DRAM =? 0) = use_host_dram.
Proof. unfold block_flags. by destruct noc, use_host_dram. Qed.

Lemma rq_block_cmd c : rq_block (cmd_words c) = negb (Z.land (flags c) CMD_DATA_BLOCK =? 0).
Proof. done. Qed.

(** The command of a word. *)
Lemma word_request j s off cmd v tag payload :
  0 ≤ off < size → off `mod` 4 = 0 → src_resp_buf_index cmd = 0 →
  take (Z.to_nat (Z.min 4 (size - off))) (word_bytes v) = src_slice src off (Z.min 4 (size - off)) →
  let c := set_cmd
    (get_sys_addr (ec_x target) (ec_y target) (xy_x target_core) (xy_y target_core) (u64 (core_dest + off)))
    (get_sys_rack (ec_rack target) (ec_shelf target)) v (with_noc noc CMD_WR_REQ) tag cmd in
  cmd_ok j s (cmd_words c) ∧ write_request off (Z.min 4 (size - off)) (MkRequest (cmd_words c) payload).
Proof.
  intros Ho Ho4 Hcmd Hv c. destruct flags_word as (F1 & F2 & F3).
  assert (rq_block (cmd_words c) = false) as Hnb.
  { rewrite rq_block_cmd. unfold c. cbn [flags set_cmd]. by rewrite F3. }
  split; [unfold cmd_ok; by rewrite Hnb|]. split; cbn [rq_words]; try done.
  - unfold size in *. lia.
  - by rewrite rq_address_cmd.
  - by apply rq_rack_cmd.
  - by rewrite Hnb.
  - unfold request_bytes. cbn [rq_words]. rewrite Hnb. exact Hv.
  - unfold request_bytes. cbn [rq_words]. rewrite Hnb. change (vec_size (word_bytes _)) with 4. unfold size in *. lia.
Qed.

(** The command of a block. *)
Lemma block_request j s w off cmd k block :
  core_index j → 0 ≤ s < 4 → 0 ≤ off < size → 1 < k → 4 * k ≤ max_block_size → u64 (core_dest + off) `mod` 32 = 0 → 4 * k < size - off + 4 →
  src_resp_buf_index cmd = 0 → length block = (4 * Z.to_nat k)%nat → Forall is_byte block →
  take (Z.to_nat (Z.min (4 * k) (size - off))) block = src_slice src off (Z.min (4 * k) (size - off)) →
  read_mem w (payload_place j s).1 (payload_place j s).2 k = to_words block →
  let c := set_cmd
    (get_sys_addr (ec_x target) (ec_y target) (xy_x target_core) (xy_y target_core) (u64 (core_dest + off)))
    (get_sys_rack (ec_rack target) (ec_shelf target)) (4 * k) (with_noc noc block_flags)
    (if use_host_dram then Some (write_host_block system_mem_available size false j s) else None) cmd in
  cmd_ok j s (cmd_words c) ∧
  write_request off (Z.min (4 * k) (size - off)) (MkRequest (cmd_words c) (payload_at locate noc host cores w j s (cmd_words c))).
Proof.
  intros Hj Hs Ho Hk Hmax Ha Hrest Hcmd Hl Hb Hblk Hread c. destruct flags_block as (F1 & F2 & F3 & F4).
  assert (rq_block (cmd_words c) = true) as Hnb.
  { rewrite rq_block_cmd. unfold c. cbn [flags set_cmd]. by rewrite F3. }
  assert (rq_dram (cmd_words c) = use_host_dram) as Hd by exact F4.
  assert (rq_data (cmd_words c) = 4 * k) as Hdata by done.
  assert (use_host_dram = true → rq_tag (cmd_words c) = host_block j s) as Htag.
  { intros E. unfold c. rewrite E. change (rq_tag _) with (write_host_block system_mem_available size false j s).
    unfold write_host_block, write_max_block_size. rewrite E. destruct Hplaces as [_ _ Hc]. unfold RemoteTheory.core_index in Hj.
    unfold host_block, ETH_ROUTING_BUFFERS_START, ETH_ROUTING_BLOCK_SIZE, CMD_BUF_SIZE. apply u32_small. lia. }
  unfold write_max_block_size, payload_place in *.
  assert (payload_at locate noc host cores w j s (cmd_words c) = to_words block) as Hpay.
  { unfold payload_at. rewrite Hnb, Hd, Hdata, (Z.mul_comm 4 k), Z.div_mul by lia.
    destruct use_host_dram eqn:E; [rewrite Htag by done|]; exact Hread. }
  split.
  { unfold cmd_ok. intros _. rewrite Hd, Hdata. destruct use_host_dram eqn:E; [split; [by apply Htag|]|]; lia. }
  destruct (to_words_spec block (Z.to_nat k) Hl Hb) as [Hof _].
  assert (request_bytes (MkRequest (cmd_words c) (payload_at locate noc host cores w j s (cmd_words c))) = block) as Hbytes.
  { unfold request_bytes. cbn [rq_words rq_payload]. by rewrite Hnb, Hpay, Hof. }
  split; cbn [rq_words]; try done.
  - unfold size in *. lia.
  - by rewrite rq_address_cmd.
  - by apply rq_rack_cmd.
  - rewrite Hbytes. exact Hblk.
  - rewrite Hbytes. unfold vec_size. rewrite Hl. unfold size in *. lia.
Qed.
Lemma transfer_evolved r w w' s : transfer_ok r w s → evolved w w' → transfer_ok r w' s.
Proof.
  intros [Hok Hc Ht Hfl Hj Hloc Hw Hk Hf Ho Hcmd Hblk] He. split; try done; [apply He| |].
  - by rewrite (ev_wptr _ _ _ _ _ _ _ He _ Hj).
  - by eapply knows_evolved.
Qed.
Abbreviation one_block := (write_one_block env locate now host channel0 system_mem_available noc poll_fuel timeout_ms target_core
  src core_dest size false []).
Definition block_post r w (s : Transfer) (Q : result Transfer → RemoteCommunication → World F → Prop) : Prop :=
  (∀ s' r' w' rq n, grows w [(active_eth_core_idx r, rq)] w' → write_request (offset s) n rq → offset s' = offset s + n →
    transfer_ok r' w' s' → Q (Ok s') r' w') ∧
  (∀ w', evolved w w' → Q (throw remote_timeout_message) r w').

(** The end of a block, once its command is known. *)
Lemma wp_block_command b r w0 w s rptr n cmd block (Q : result Transfer → RemoteCommunication → World F → Prop) :
  evolved w0 w → transfer_ok r w s → room w (active_eth_core_idx r) rptr → Forall is_byte block →
  src_resp_buf_index cmd = 0 → (n `mod` 4 = 0 ∨ offset s + n = size) →
  cmd_ok (active_eth_core_idx r) (free_slot w (active_eth_core_idx r)) (cmd_words cmd) →
  write_request (offset s) n (MkRequest (cmd_words cmd) (payload_at locate noc host cores w
      (active_eth_core_idx r) (free_slot w (active_eth_core_idx r)) (cmd_words cmd))) →
  block_post r w0 s Q →
  hwpf b (wptr ← on_device (push_command env locate noc (core s) (q_wptr s) cmd);
    let s := MkTransfer (u32 (offset s + n)) (core s) wptr rptr false cmd block in
    if is_non_mmio_cmd_q_full (Z.land wptr CMD_BUF_PTR_MASK) rptr then write_next_core env locate noc s else mret s) Q r w.
Proof.
  intros He Hs Hroom Hb Hbuf Hn Hcmd Hwr [HQ _].
  destruct (wr_size _ _ _ _ _ _ _ _ Hwr) as [Hn0 Hn1]. destruct (t_offset _ _ _ Hs) as [Ho Ho4].
  rewrite (u32_small (offset s + n)) by (unfold size in *; lia).
  apply wp_finish_block; try done.
  - split; [unfold size in *; lia|]. destruct Hn as [Hn|Hn]; [|by right]. destruct Ho4 as [Ho4|Ho4]; [left|unfold size in *; lia].
    Z.div_mod_to_equations. lia.
  - intros s' r' w' Hg Hs' Hok'. eapply HQ; [|done|done|done]. by eapply evolved_grows_l.
Qed.

(** Waiting for room in the queue of the block. *)
Lemma wp_block_start r w s (Q : result Z → World F → Prop) :
  transfer_ok r w s →
  (∀ rp' w', evolved w w' → transfer_ok r w' s → room w' (active_eth_core_idx r) rp' → Q (Ok rp') w') →
  (∀ w', evolved w w' → Q (throw remote_timeout_message) w') →
  wp (wait_not_full env locate now noc poll_fuel (core s) (q_wptr s) (q_rptr s) (full s) (now (firmware w)) timeout_ms) Q w.
Proof.
  intros Hs HQ Herr. pose proof Hs as [Hok Hc Ht Hfl Hj Hloc Hw Hk Hf Ho Hcmd Hblk].
  apply (wp_wait_not_full env locate noc host cores now ticks poll_fuel (active_eth_core_idx r) _ _ _ _ _ _ _ w); try done.
  - unfold patience in *. lia.
  - intros rp' w' He Hroom. apply HQ; [done|by eapply transfer_evolved|done].
Qed.

Lemma block_end k off : Z.min (4 * k) (size - off) `mod` 4 = 0 ∨ off + Z.min (4 * k) (size - off) = size.
Proof.
  destruct (Z.min_spec (4 * k) (size - off)) as [[_ ->]|[_ ->]]; [left|right; lia].
  rewrite Z.mul_comm. apply Z.mod_mul. lia.
Qed.
Lemma wp_write_one_block r w s (Q : result Transfer → RemoteCommunication → World F → Prop) :
  transfer_ok r w s → offset s < size → block_post r w s Q → hwpf False (one_block s) Q r w.
Proof.
  intros Hs Hlt HQ. destruct (t_offset _ _ _ Hs) as [Ho Ho4]. assert (offset s `mod` 4 = 0) as Hal by lia.
  unfold write_one_block. apply hwp_bind, hwp_get, hwp_bind, hwp_device, wp_now, hwp_bind, hwp_device.
  apply (wp_block_start r w s); [done| |apply HQ]. intros rptr w1 H1 Hs1 Hroom. cbn beta iota zeta.
  assert (Z.land (q_wptr s) CMD_BUF_SIZE_MASK = free_slot w1 (active_eth_core_idx r)) as ->.
  { rewrite (t_wptr _ _ _ Hs1). change CMD_BUF_SIZE_MASK with (Z.ones 2). by rewrite Z.land_ones. }
  destruct (write_block_size_spec core_dest (offset s) size max_block_size) as (k & -> & Hk & Hkmax & Hka & Hkrest);
    [lia|exact Hsize|apply max_block_cases|].
  rewrite (u32_small (size - offset s)) by (unfold size in *; lia).
  rewrite flags_of_block by done. pose proof (t_idx _ _ _ Hs1) as Hj. pose proof (t_cmd _ _ _ Hs1) as Hbuf.
  destruct (decide (k = 1)) as [->|Hk1].
  - change (is_block CMD_WR_REQ) with false. cbn [andb]. apply hwp_bind, hwp_ret, hwp_bind, hwp_lift. cbn [umd_assert orb].
    change (CMD_WR_REQ =? CMD_WR_REQ) with true. cbn [umd_assert orb].
    destruct (single_word_spec src (offset s) (new_cmd s)) as (v & Hv & Hbytes); [done|done|unfold size in *; lia|done|].
    apply hwp_bind, hwp_lift. fold size in Hv. rewrite Hv. rewrite (t_target _ _ _ Hs1).
    change (4 * 1) with 4. eapply (wp_block_command _ r w w1); try done; [by apply t_block in Hs1|apply (block_end 1)| |].
    + eapply word_request; try done; lia.
    + eapply word_request; try done; lia.
  - assert (is_block (Z.lor CMD_DATA_BLOCK CMD_WR_REQ) = true) as -> by done. cbn [andb].
    set (n := Z.min (4 * k) (size - offset s)).
    assert (u64 (core_dest + offset s) `mod` 32 = 0) as Ha by by apply Hka.
    assert (vec_size (src_slice src (offset s) n) = n) as Hlen.
    { unfold vec_size. rewrite src_slice_length by (unfold size in *; lia). lia. }
    destruct (block_buffer_spec (src_slice src (offset s) n) (data_block s) k) as (B1 & B2 & B3);
      [done|lia|by apply src_slice_byte|by apply t_block in Hs1|].
    set (block := overwrite _ _) in *.
    apply hwp_bind, hwp_bind, hwp_lift. rewrite src_bytes_slice by (unfold size in *; lia).
    apply hwp_bind, hwp_device. fold block.
    apply (wp_write_payload _ _ (core s) block (Z.to_nat k));
      [apply Hs1|done|apply Hs1|destruct Hroom; lia|done|done|lia|].
    intros w2 H2 Hread. apply hwp_ret. rewrite Z2Nat.id in Hread by lia.
    pose proof (transfer_evolved _ _ _ _ Hs1 H2) as Hs2. pose proof (free_slot_bounds locate noc cores w2 (active_eth_core_idx r)).
    rewrite <- (evolved_slot env locate noc host cores w1 w2 _ H2 Hj) in *.
    apply hwp_bind, hwp_lift. rewrite Ha. rewrite Z.eqb_refl, orb_true_r. cbn [umd_assert].
    assert ((if use_host_dram then Z.lor (Z.lor CMD_DATA_BLOCK CMD_WR_REQ) CMD_DATA_BLOCK_DRAM
             else Z.lor CMD_DATA_BLOCK CMD_WR_REQ) = block_flags) as -> by (unfold block_flags; by destruct use_host_dram).
    assert (is_block block_flags = true) as -> by (unfold block_flags; by destruct use_host_dram).
    destruct max_block_range as [_ Hmax]. apply hwp_bind, hwp_ret. rewrite Z.add_0_r, (u32_small (4 * k)), (t_target _ _ _ Hs2) by lia.
    assert (take (Z.to_nat n) block = src_slice src (offset s) n) as Hblk by (rewrite <- B3; f_equal; unfold vec_size in *; lia).
    destruct (block_request (active_eth_core_idx r) (free_slot w2 (active_eth_core_idx r)) w2 (offset s) (new_cmd s) k block)
      as [Hcmd Hwr]; try done; try lia.
    eapply (wp_block_command _ r w w2); try done; [by eapply evolved_trans|by eapply room_evolved|apply block_end].
Qed.
(** ** All blocks *)

Definition chip_writes := writes target target_core noc src core_dest.
(** The outcome of a write: the requests that the queues grew by write the
    source, up to where a timeout stopped it. *)
Definition write_outcome w (off : Z) (res : result unit) (r' : RemoteCommunication) (w' : World F) : Prop :=
  ∃ log off', grows w log w' ∧ chip_writes off (map snd log) off' ∧
    remote_transfer_eth_cores r' = cores ∧ core_index (active_eth_core_idx r') ∧ flush_non_mmio r' = true ∧
    (res = Ok tt ∧ off' = size ∨ res = throw remote_timeout_message).

Lemma write_outcome_step w w1 off n j rq res r' w' :
  grows w [(j, rq)] w1 → write_request off n rq → write_outcome w1 (off + n) res r' w' → write_outcome w off res r' w'.
Proof.
  intros Hg Hwr (log & off' & Hlog & Hw & Hrest). exists ([(j, rq)] ++ log), off'.
  split; [by eapply grows_trans|]. split; [by econstructor|done].
Qed.

Lemma wp_write_blocks fuel r w s :
  transfer_ok r w s → size - offset s < Z.of_nat fuel →
  hwpf False (write_blocks env locate now host channel0 system_mem_available noc poll_fuel timeout_ms target_core src core_dest size false []
    fuel s) (write_outcome w (offset s)) r w.
Proof.
  revert r w s. induction fuel as [|fuel IH]; intros r w s Hs Hfuel.
  { destruct (t_offset _ _ _ Hs). lia. }
  cbn [write_blocks]. destruct (Z.ltb_spec (offset s) size) as [Hlt|Hge].
  - apply hwp_bind, wp_write_one_block; [done|done|]. split.
    + intros s' r' w' rq n Hg Hwr Hoff Hs'. pose proof (wr_size _ _ _ _ _ _ _ _ Hwr) as [Hn _].
      eapply hwp_mono; [apply IH; [done|lia]|]. intros res r2 w2 Hout. rewrite Hoff in Hout. by eapply write_outcome_step.
    + intros w' He. exists [], (offset s). split; [by apply evolved_grows|]. split; [constructor|].
      destruct Hs. split_and!; try done. by right.
  - destruct Hs as [Hok ? ? ? ? ? ? ? ? Ho ? ?]. apply hwp_ret. exists [], (offset s).
    split; [by apply evolved_grows, evolved_refl|]. split; [constructor|]. split_and!; try done. left. split; [done|lia].
Qed.

(** C18: REFINEMENT. A write to a remote chip, while the routing firmware works on
    the queues: the loop ends, and what it added to the queues of the Ethernet
    cores, over all interleavings, is a sequence of requests that write the bytes
    of the source, in order and without a gap, at their places of the remote core.
    No request that was already there is lost or changed, none of the new ones is
    overwritten before it is taken, and no queue overflows. If the firmware
    stops, the call throws the timeout error and the requests cover a prefix. *)
Theorem write_to_non_mmio_refines r w :
  all_ok w → remote_transfer_eth_cores r = cores → target_chip r = target → core_index (active_eth_core_idx r) →
  hwpf False (write_to_non_mmio env locate now host channel0 system_mem_available noc poll_fuel timeout_ms target_core src core_dest size false [])
    (write_outcome w 0) r w.
Proof.
  intros Hok Hc Ht Hj. unfold write_to_non_mmio. apply hwp_bind, hwp_get, hwp_bind, hwp_put, hwp_bind, hwp_lift.
  cbn [negb orb umd_assert]. apply hwp_bind, hwp_lift. rewrite get_remote_core_spec by (rewrite Hc; by eapply vec_nonempty).
  rewrite Hc. destruct (vec_at_tile _ Hj) as (c & Hat & Hloc). rewrite Hat. apply hwp_bind, hwp_device.
  apply (wp_read_q_ptrs env locate noc host cores _ (active_eth_core_idx r)); [done|done|done|]. intros rp w1 H1 Hk.
  set (s := MkTransfer _ _ _ _ _ _ _).
  assert (transfer_ok (set_flush true r) w1 s) as Hs.
  { split; try done; [apply H1|]. unfold s, size, vec_size. cbn [offset]. split; [lia|by left]. }
  eapply hwp_mono; [apply wp_write_blocks; [done|]|].
  - unfold s. cbn [offset]. unfold size, vec_size. lia.
  - intros res r' w' (log & off & Hg & Hrest). exists log, off. split; [by eapply evolved_grows_l|done].
Qed.
End Write.

(** ** The flush

    The flush of the writes to a remote chip
    ([RemoteCommunicationLegacyFirmware::wait_for_non_mmio_flush]): when it
    returns, the queues are empty and every write that was in them has been
    executed: its response is back. *)

Local Open Scope Z_scope.
Import eth_routing.

Section Flush.
Context {F : Type} (env : World F → World F) (locate : NocId → xy_pair → xy_pair) (noc : NocId).
Context (host : xy_pair) (cores : list xy_pair) {fw : RoutingFirmware env locate noc host cores}.
Context {responses : WriteResponses env locate noc host cores}.
Context (Hplaces : places_apart locate noc host cores).
Context (now : F → Z) (ticks : ∀ w, now (firmware w) < now (firmware (env w))).
Context (poll_fuel : nat) (timeout_ms : Z) (Htimeout : 0 < timeout_ms) (Hpoll : patience timeout_ms < Z.of_nat poll_fuel).
Implicit Types (w : World F).
Abbreviation all_ok := (all_ok locate noc cores).
Abbreviation core_index := (core_index cores).
Abbreviation evolved := (evolved env locate noc host cores).
Abbreviation waiting := (waiting locate noc cores).
Abbreviation tile := (tile locate noc cores).
Abbreviation taken := (taken env locate noc host cores).
Abbreviation total := (total env locate noc host cores).
Abbreviation executed := (executed env locate noc host cores).
Abbreviation unanswered := (unanswered env locate noc host cores).
Abbreviation wr_req := (wr_req locate noc cores).
Abbreviation wr_resp := (wr_resp locate noc cores).

(** The device runs, the host only looks. *)
Inductive runs w : World F → Prop :=
  | runs_refl : runs w w
  | runs_step w' : runs w w' → runs w (env w').
Lemma runs_trans w1 w2 w3 : runs w1 w2 → runs w2 w3 → runs w1 w3.
Proof. intros H1. induction 1; [done|by constructor]. Qed.
Lemma runs_stable (P : World F → Prop) w w' : (∀ w, P w → P (env w)) → runs w w' → P w → P w'.
Proof. intros HP. induction 1; auto. Qed.
Lemma runs_evolved w w' : all_ok w → runs w w' → evolved w w'.
Proof. intros Hok Hr. apply (runs_stable _ w w'); [apply evolved_env|done|by apply evolved_refl]. Qed.

(** Reading takes time. *)
Lemma read_dwords_runs core addr n w : wp (read_dwords env locate core addr n noc) (λ _ w', runs w w') w.
Proof.
  revert addr w. induction n as [|n IH]; intros addr w; [constructor|].
  apply wp_bind, wp_read_data, wp_bind. eapply wp_mono; [apply IH|]. intros r w' Hr.
  assert (runs w w') by (eapply runs_trans; [|exact Hr]; repeat constructor). by destruct r.
Qed.
Lemma runs_ticks w w' : runs w w' → now (firmware w) ≤ now (firmware w').
Proof. induction 1 as [|w' _ IH]; [lia|]. pose proof (ticks w'). lia. Qed.
Lemma read_dwords_ticks core addr n w :
  (0 < n)%nat → wp (read_dwords env locate core addr n noc) (λ _ w', now (firmware w) < now (firmware w')) w.
Proof.
  intros Hn. destruct n as [|n]; [lia|]. apply wp_bind, wp_read_data, wp_bind.
  eapply wp_mono; [apply read_dwords_runs|]. intros r w' Hr%runs_ticks. pose proof (ticks w). by destruct r; unfold wpf, mret, M_ret; try lia.
Qed.
Lemma wp_and {A} b (m : M F A) (P Q : result A → World F → Prop) w :
  wp m P w → wpf b m Q w → wpf b m (λ r w', P r w' ∧ Q r w') w.
Proof. unfold wpf. by destruct (m w) as [[r w']|]. Qed.

(** A poll of a pair of words: what holds before it, and when the words agree. *)
Definition pair_spec (pair : M F (Z * Z)) (I P : World F → Prop) : Prop :=
  ∀ w, I w → wp pair (λ r w', now (firmware w) < now (firmware w') ∧ runs w w' ∧ ∃ a b, r = Ok (a, b) ∧ (a = b → P w')) w.

Definition poll_outcome (P : World F → Prop) w (r : result unit) w' : Prop :=
  runs w w' ∧ (r = Ok tt ∧ P w' ∨ r = throw flush_message).

Lemma wp_wait_equal fuel pair (I P : World F → Prop) start w0 w :
  pair_spec pair I P → (∀ w, I w → I (env w)) → I w → runs w0 w →
  now (firmware w) - start < patience timeout_ms < now (firmware w) - start + Z.of_nat fuel →
  wp (wait_equal now fuel pair start timeout_ms) (poll_outcome P w0) w.
Proof.
  intros Hpair HI. revert w. induction fuel as [|fuel IH]; intros w Hw He Htime; [lia|]. cbn [wait_equal].
  apply wp_bind. eapply wp_mono; [by apply Hpair|]. intros r w' (Hlt & Hev & a & b & -> & Hab).
  pose proof (runs_trans _ _ _ He Hev) as He'. apply wp_bind, wp_check_timeout.
  destruct (timed_out _ _ _) eqn:E; [split; [done|by right]|]. apply not_timed_out in E; [|done].
  destruct (Z.eqb_spec a b) as [Heq|Hne]; [apply wp_ret; split; [done|left; auto]|].
  apply IH; [by apply (runs_stable I w w')|done|lia].
Qed.

(** Each core in turn: what holds after its poll stays. *)
Lemma wp_for_cores cs (pair : xy_pair → M F (Z * Z)) (I : World F → Prop) (P : xy_pair → World F → Prop) w :
  (∀ c, c ∈ cs → pair_spec (pair c) I (P c)) → (∀ w, I w → I (env w)) → (∀ c w, I w → P c w → P c (env w)) → I w →
  wp (for_cores now cs (λ c start, wait_equal now poll_fuel (pair c) start timeout_ms))
    (poll_outcome (λ w', ∀ c, c ∈ cs → P c w') w) w.
Proof.
  intros Hpair HI Hstable. revert w. induction cs as [|c cs IH]; intros w Hw; cbn [for_cores].
  { apply wp_ret. split; [constructor|]. left. split; [done|]. intros c Hc. by apply not_elem_of_nil in Hc. }
  apply wp_bind, wp_now, wp_bind. eapply wp_mono.
  { eapply (wp_wait_equal _ _ I (P c)); [apply Hpair, list_elem_of_here|done|done|constructor|unfold patience in *; lia]. }
  intros r w1 [H1 [[-> HP]| ->]]; [|split; [done|by right]]. assert (I w1) as Hw1 by by apply (runs_stable I w w1).
  eapply wp_mono; [apply IH; [intros c' Hc'; by apply Hpair, list_elem_of_further|done]|].
  intros r w2 [H2 Hr]. split; [by eapply runs_trans|]. destruct Hr as [[-> Hcs]| ->]; [left|by right].
  split; [done|]. intros c' [->|Hc']%elem_of_cons; [|by apply Hcs].
  by apply (runs_stable (λ w, I w ∧ P c w) w1 w2); [intros w' []; auto|done|].
Qed.

(** The first poll: the queue of a core is empty. *)
Definition drained (c : xy_pair) w : Prop := ∀ j, core_index j → tile j = locate noc c → waiting w j = 0.
Lemma empty_queue_env w j : all_ok w → core_index j → waiting w j = 0 → waiting (env w) j = 0.
Proof.
  intros Hok Hj H0. pose proof (ev_waiting _ _ _ _ _ _ _ (env_evolved env locate noc host cores w Hok) j Hj).
  pose proof (waiting_bounds locate noc cores (env w) j). lia.
Qed.
Lemma drained_stable c w : all_ok w → drained c w → drained c (env w).
Proof. intros Hok Hd j Hj Ht. by apply empty_queue_env, Hd. Qed.
Lemma all_ok_env w : all_ok w → all_ok (env w).
Proof. intros Hok. apply (env_evolved env locate noc host cores w Hok). Qed.
Lemma core_tile c : c ∈ cores → ∃ j, core_index j ∧ locate noc c = tile j.
Proof.
  intros Hc. apply list_elem_of_In, In_nth with (d := XY 0 0) in Hc as (n & Hn & Heq).
  exists (Z.of_nat n). unfold RemoteTheory.core_index, vec_size, RemoteTheory.tile. rewrite Nat2Z.id, Heq. split; [lia|done].
Qed.
Lemma tile_core j : core_index j → ∃ c, c ∈ cores ∧ tile j = locate noc c.
Proof.
  intros Hj. destruct (vec_lookup cores j Hj) as [c Hc]. exists c. split; [by eapply list_elem_of_lookup_2|].
  unfold RemoteTheory.tile. by rewrite (nth_lookup_Some _ _ _ _ Hc).
Qed.
Lemma read_q_ptrs_keeps c (R : World F → Prop) w :
  wp (read_dwords env locate c REQUEST_WPTR 8 noc) (λ _ w', R w') w → wp (read_q_ptrs env locate noc c) (λ _ w', R w') w.
Proof.
  intros Hr. apply wp_bind. eapply wp_mono; [exact Hr|]. intros [vs|e] w' Hw; [|done].
  unfold wpf, lift, mbind, M_bind. destruct (vec_idx vs 0); [|done]. by destruct (vec_idx vs 4).
Qed.
Lemma q_ptrs_spec c : c ∈ cores → pair_spec (read_q_ptrs env locate noc c) all_ok (drained c).
Proof.
  intros Hc w Hok. destruct (core_tile c Hc) as (j & Hj & Hloc). apply wp_and; [|apply wp_and].
  - by apply read_q_ptrs_keeps, read_dwords_ticks; lia.
  - by apply read_q_ptrs_keeps, read_dwords_runs.
  - apply (wp_read_q_ptrs env locate noc host cores _ j); [done|done|done|]. intros rp w' He [Hr Hk].
    eexists _, _. split; [done|]. intros Heq j' Hj' Ht.
    assert (j' = j) as -> by (apply (pa_tiles _ _ _ _ Hplaces); [done|done|congruence]).
    pose proof (waiting_bounds locate noc cores w' j). rewrite Heq, Z.sub_diag in Hk. change (0 `mod` 8) with 0 in Hk. lia.
Qed.

(** The second poll: the responses of all its writes are back. *)
Definition idle w : Prop := all_ok w ∧ ∀ j, core_index j → waiting w j = 0.
Lemma idle_stable w : idle w → idle (env w).
Proof. intros [Hok Hi]. split; [by apply all_ok_env|]. intros j Hj. apply empty_queue_env; auto. Qed.
Definition answered (c : xy_pair) w : Prop := ∀ j, core_index j → tile j = locate noc c →
  unanswered (firmware w) j = [] ∧ write_requests (taken (firmware w) j) ≡ₚ executed (firmware w) j.
Lemma answered_now w j :
  all_ok w → core_index j → unanswered (firmware (env w)) j = [] →
  write_requests (taken (firmware (env w)) j) ≡ₚ executed (firmware (env w)) j.
Proof. intros Hok Hj Hu. rewrite (taken_writes env locate noc host cores w j Hok Hj), Hu. by rewrite app_nil_r. Qed.
Lemma answered_stable c w : idle w → answered c w → answered c (env w).
Proof.
  intros [Hok Hi] Ha j Hj Ht. destruct (Ha j Hj Ht) as [Hu _]. destruct (responses_idle env locate noc host cores w j Hok Hj (Hi j Hj)) as [_ Hs].
  rewrite Hu in Hs. apply submseteq_nil_r in Hs. split; [done|]. by apply answered_now.
Qed.
(** The count of the writes is read first, that of the responses a moment later:
    as the core sends nothing in between, that they agree is enough. *)
Lemma counters_agree w j :
  idle w → core_index j → wr_req (env w) j = wr_resp (env (env w)) j → unanswered (firmware (env (env w))) j = [].
Proof.
  intros [Hok Hi] Hj Heq. pose proof (all_ok_env w Hok) as Hok1.
  destruct (responses_counted env locate noc host cores w j Hok Hj) as [H1 _]. destruct (responses_counted env locate noc host cores (env w) j Hok1 Hj) as [H2 Hlt].
  destruct (responses_idle env locate noc host cores (env w) j Hok1 Hj) as [Hs _]; [by apply empty_queue_env; auto|].
  apply length_zero_iff_nil. set (n := length (unanswered (firmware (env (env w))) j)) in *. rewrite <- Heq in H2.
  assert (∀ z, 0 ≤ u32 z < 2 ^ 32) as Hb by (intros z; apply Z.mod_pos_bound; lia).
  assert (0 ≤ wr_req (env w) j < 2 ^ 32) as Hr by (rewrite H1; apply Hb).
  assert (0 ≤ wr_req (env (env w)) j < 2 ^ 32) as Hr2 by (rewrite H2; apply Hb).
  rewrite !u32_small in Hs by done. rewrite Hs in H2. unfold u32 in H2.
  revert H2 Hr Hlt. generalize (wr_req (env w) j) as a. intros a H2 Hr Hlt.
  pose proof (Z.div_mod (a + Z.of_nat n) (2 ^ 32) ltac:(lia)). lia.
Qed.
Lemma txn_counters_spec c : c ∈ cores → pair_spec (read_txn_counters env locate noc c) idle (answered c).
Proof.
  intros Hc w Hw. destruct (core_tile c Hc) as (j & Hj & Hloc). unfold read_txn_counters. cbn [read_dwords].
  apply wp_bind, wp_bind, wp_read_data, wp_bind, wp_bind, wp_read_data, wp_bind. do 2 apply wp_ret. apply wp_ret.
  apply wp_bind, wp_lift. cbn. split; [pose proof (ticks w); pose proof (ticks (env w)); lia|]. split; [repeat constructor|].
  eexists _, _. split; [done|]. rewrite Hloc. intros Heq j' Hj' Ht.
  assert (j' = j) as -> by (apply (pa_tiles _ _ _ _ Hplaces); [done|done|congruence]).
  assert (unanswered (firmware (env (env w))) j = []) as Hu by by apply counters_agree.
  split; [done|]. apply answered_now; [by apply all_ok_env, Hw|done|done].
Qed.

Definition flush_outcome (r : RemoteCommunication) w (res : result unit) (r' : RemoteCommunication) w' : Prop :=
  all_ok w' ∧
  (res = Ok tt ∧ flush_non_mmio r' = false ∧
     (∀ j, core_index j → taken (firmware w') j = total w j ∧ unanswered (firmware w') j = [] ∧
        write_requests (total w j) ≡ₚ executed (firmware w') j) ∨
   res = throw flush_message ∧ r' = r).

(** C20: SAFETY. When the flush of the writes to a remote chip returns, on every
    Ethernet core the firmware has taken everything that was in its queue, in
    order, and has executed every write among it: no response of the remote chip
    is outstanding. No flush is due any more. The flush returns in any case, with
    the timeout error, and a flush still due, if the firmware stops or responses
    do not come. A request that has left its queue is not executed yet: that the
    writes are is what the counters of the firmware say, which are compared after
    the queues have been seen empty. *)
Theorem flush_executes_all r w :
  all_ok w → remote_transfer_eth_cores r = cores → flush_non_mmio r = true →
  hwpf False (wait_for_non_mmio_flush env locate now noc poll_fuel timeout_ms WORMHOLE_B0)
    (flush_outcome r w) r w.
Proof.
  intros Hok Hc Hf. unfold wait_for_non_mmio_flush. apply hwp_bind, hwp_get. rewrite Hf, Hc.
  change (negb (bool_decide (WORMHOLE_B0 = BLACKHOLE))) with true. apply hwp_bind, hwp_lift. cbn [umd_assert].
  rewrite decide_True by done. apply hwp_bind, hwp_bind, hwp_device. eapply wp_mono.
  { apply (wp_for_cores cores _ all_ok drained); [apply q_ptrs_spec|apply all_ok_env|apply drained_stable|done]. }
  intros res w1 [R1 Hres]. pose proof (runs_evolved w w1 Hok R1) as H1.
  destruct Hres as [[-> Hd]| ->]; [|split; [apply H1|by right]]. assert (idle w1) as Hidle.
  { split; [apply H1|]. intros j Hj. destruct (tile_core j Hj) as (c & Hcc & Ht). by apply (Hd c Hcc). }
  apply hwp_device. eapply wp_mono.
  { apply (wp_for_cores cores _ idle answered); [apply txn_counters_spec|apply idle_stable|apply answered_stable|done]. }
  intros res w2 [R2 Hres]. assert (idle w2) as [Hok2 Hi2] by (by apply (runs_stable idle w1 w2); [apply idle_stable|..]).
  pose proof (runs_evolved w1 w2 (proj1 Hidle) R2) as H2.
  destruct Hres as [[-> Ha]| ->]; [|split; [done|by right]]. apply hwp_put. split; [done|]. left. do 2 (split; [done|]). intros j Hj.
  assert (taken (firmware w2) j = total w j) as Ht.
  { rewrite <- (ev_total _ _ _ _ _ _ _ H1 j Hj), <- (ev_total _ _ _ _ _ _ _ H2 j Hj). unfold RemoteTheory.total, pending.
    by rewrite (Hi2 j Hj), app_nil_r. }
  destruct (tile_core j Hj) as (c & Hcc & Htc). destruct (Ha c Hcc j Hj Htc) as [Hu Hx]. split; [done|]. split; [done|]. by rewrite <- Ht.
Qed.
End Flush.
