(* ===== verification/RemoteRead.v ===== *)
(** * RemoteRead

    Reads from a remote chip ([RemoteCommunicationLegacyFirmware::read_non_mmio])
    against a device that may do anything: the loops end, and the destination is
    written inside its bounds. *)

From Stdlib Require Import ZArith Lia.
From stdpp Require Import base list list_numbers numbers strings.
From S2P Require Import Prelude CoreTypes ArchData BoardTypes DeviceAccess RemoteQueue RemoteWrite RemoteTheory.

Local Open Scope Z_scope.
Import eth_routing.

(** The size of a block of a read: whole words, not longer than a block, no more
    than the last word beyond what is left. *)
Lemma read_block_size_spec core_src off size max_size :
  0 ≤ off < size → size < 2 ^ 32 - 2 ^ 16 → max_size = MAX_BLOCK_SIZE ∨ max_size = ETH_ROUTING_BLOCK_SIZE →
  ∃ k, read_block_size core_src off size max_size = 4 * k ∧ 0 < k ∧ 4 * k ≤ max_size ∧
    (k ≠ 1 → Z.land (u64 (core_src + off)) 0x1F = 0) ∧ 4 * k < size - off + 4.
Proof.
  intros Ho Hs Hmax. unfold read_block_size.
  assert (1024 ≤ max_size ≤ 32768 ∧ max_size `mod` 4 = 0) as [Hm Hm4].
  { unfold MAX_BLOCK_SIZE, ETH_ROUTING_BLOCK_SIZE in Hmax. by destruct Hmax as [-> | ->]. }
  destruct (Z.eqb_spec (Z.land (u64 (core_src + off)) 0x1F) 0) as [Ha|Ha]; cbn [negb].
  2: { exists 1. unfold DATA_WORD_SIZE. lia. }
  rewrite (u32_small (off + max_size)), (u32_small (size - off)) by lia.
  set (n := if size <? off + max_size then size - off else max_size).
  assert (0 < n ≤ max_size ∧ n ≤ size - off) as Hn by (unfold n; destruct (Z.ltb_spec size (off + max_size)); lia).
  rewrite align_up_4_spec by lia. exists ((n + 3) / 4).
  split_and!; try done; Z.div_mod_to_equations; lia.
Qed.

Lemma dest_write_ok dest off bytes :
  0 ≤ off → off + vec_size bytes ≤ vec_size dest → ∃ d, dest_write dest off bytes = Ok d ∧ length d = length dest.
Proof.
  intros H1 H2. unfold dest_write. rewrite bool_decide_eq_true_2 by done. eexists. split; [done|].
  unfold vec_size in *. rewrite !length_app, length_take, length_drop. lia.
Qed.

Section Read.
Context {F : Type} (env : World F → World F) (locate : NocId → xy_pair → xy_pair) (noc : NocId) (host : xy_pair).
Context (now : F → Z) (ticks : ∀ w, now (firmware w) < now (firmware (env w))).
Context (channel0 : HugepageMapping) (system_mem_available : bool).
Context (Hmapping : system_mem_available = true → mapping channel0 = true ∧ mapping_size channel0 ≠ 0).
Context (poll_fuel : nat) (timeout_ms : Z) (Htimeout : 0 < timeout_ms) (Hpoll : patience timeout_ms < Z.of_nat poll_fuel).
Implicit Types (w : World F).

(** ** Polling any device *)

Definition polled {A} (P : A → Prop) (r : result A) : Prop := (∃ a, r = Ok a ∧ P a) ∨ r = throw remote_timeout_message.

Lemma wp_poll {A} (loop : nat → M F A) (step : World F → option A) (P : A → Prop) start :
  (∀ fuel w, loop (S fuel) w =
     (check_timeout now start timeout_ms remote_timeout_message;;
      match step (env w) with Some a => mret a | None => loop fuel end) (env w)) →
  (∀ w a, step w = Some a → P a) →
  ∀ fuel w, now (firmware w) - start < patience timeout_ms < now (firmware w) - start + Z.of_nat fuel →
    wp (loop fuel) (λ r _, polled P r) w.
Proof.
  intros Hloop HP. induction fuel as [|fuel IH]; intros w Htime; [lia|]. unfold wpf at 1. rewrite Hloop.
  fold (wp (check_timeout now start timeout_ms remote_timeout_message;;
      match step (env w) with Some a => mret a | None => loop fuel end) (λ r _, polled P r) (env w)).
  pose proof (ticks w). apply wp_bind, wp_check_timeout. destruct (timed_out _ _ _) eqn:E; [by right|].
  apply not_timed_out in E; [|done].
  destruct (step (env w)) as [a|] eqn:Es; [apply wp_ret; left; eauto|]. apply IH. lia.
Qed.
(** A poll that starts now. *)
Lemma poll_time w : now (firmware w) - now (firmware w) < patience timeout_ms < now (firmware w) - now (firmware w) + Z.of_nat poll_fuel.
Proof. unfold patience in *. lia. Qed.

Lemma wp_poll_room core wq rp full w :
  wp (wait_not_full env locate now noc poll_fuel core wq rp full (now (firmware w)) timeout_ms) (λ r _, polled (λ _, True) r) w.
Proof.
  destruct full; [|destruct poll_fuel; apply wp_ret; left; eauto].
  apply (wp_poll (λ fuel, wait_not_full env locate now noc fuel core wq rp true (now (firmware w)) timeout_ms)
    (λ w, let rp := mem w (locate noc core) REQUEST_RPTR in if is_non_mmio_cmd_q_full wq rp then None else Some rp)
    (λ _, True) (now (firmware w))); [|done|apply poll_time].
  intros fuel w'. cbn [wait_not_full]. unfold mbind at 1, M_bind at 1, read_data at 1.
  unfold mbind, M_bind. destruct (check_timeout _ _ _ _ _) as [[[u|e] w2]|]; try done. cbn zeta.
  destruct (is_non_mmio_cmd_q_full _ _); by destruct fuel.
Qed.
Lemma wp_poll_response core rp w :
  wp (wait_response env locate now noc timeout_ms core poll_fuel rp (now (firmware w))) (λ r _, polled (λ _, True) r) w.
Proof.
  apply (wp_poll (λ fuel, wait_response env locate now noc timeout_ms core fuel rp (now (firmware w)))
    (λ w, if rp =? mem w (locate noc core) RESPONSE_WPTR then None else Some tt)
    (λ _, True) (now (firmware w))); [|done|apply poll_time].
  intros fuel w'. cbn [wait_response]. unfold mbind at 1, M_bind at 1, read_data at 1.
  unfold mbind, M_bind. destruct (check_timeout _ _ _ _ _) as [[[u|e] w2]|]; try done. by destruct (rp =? _).
Qed.
Lemma wp_poll_flags core addr w :
  wp (wait_response_flags env locate now noc timeout_ms core poll_fuel addr (now (firmware w))) (λ r _, polled (λ _, True) r) w.
Proof.
  apply (wp_poll (λ fuel, wait_response_flags env locate now noc timeout_ms core fuel addr (now (firmware w)))
    (λ w, let f := mem w (locate noc core) addr in if f =? 0 then None else Some f)
    (λ _, True) (now (firmware w))); [|done|apply poll_time].
  intros fuel w'. cbn [wait_response_flags]. unfold mbind at 1, M_bind at 1, read_data at 1.
  unfold mbind, M_bind. destruct (check_timeout _ _ _ _ _) as [[[u|e] w2]|]; try done. cbn zeta. by destruct (_ =? 0).
Qed.
(** ** Computations that do not throw *)

Definition succeeds {A} (m : M F A) (P : A → Prop) : Prop := ∀ w, wp m (λ r _, ∃ a, r = Ok a ∧ P a) w.
Lemma succeeds_bind {A B} (m : M F A) (f : A → M F B) P (Q : result B → Prop) w :
  succeeds m P → (∀ a w', P a → wp (f a) (λ r _, Q r) w') → wp (m ≫= f) (λ r _, Q r) w.
Proof. intros Hm Hf. apply wp_bind. eapply wp_mono; [apply Hm|]. intros r w' (a & -> & Ha). by apply Hf. Qed.
Lemma succeeds_then {A B} (m : M F A) (f : A → M F B) P Q :
  succeeds m P → (∀ a, P a → succeeds (f a) Q) → succeeds (m ≫= f) Q.
Proof. intros Hm Hf w. eapply (succeeds_bind m f P (λ r, ∃ a, r = Ok a ∧ Q a)); [exact Hm|]. intros a w' Ha. by apply Hf. Qed.
Lemma succeeds_ret {A} (a : A) (P : A → Prop) : P a → succeeds (mret a) P.
Proof. intros Ha w. apply wp_ret. eauto. Qed.
Lemma succeeds_lift {A} (r : result A) a (P : A → Prop) : r = Ok a → P a → succeeds (lift r) P.
Proof. intros -> Ha w. apply wp_lift. eauto. Qed.
Lemma polled_bind {A B} (m : M F A) (f : A → M F B) (P : A → Prop) (Q : result B → Prop) w :
  wp m (λ r _, polled P r) w → Q (throw remote_timeout_message) → (∀ a w', P a → wp (f a) (λ r _, Q r) w') →
  wp (m ≫= f) (λ r _, Q r) w.
Proof.
  intros Hm HQ Hf. apply wp_bind. eapply wp_mono; [exact Hm|]. intros r w' [(a & -> & Ha)| ->]; [by apply Hf|done].
Qed.

Lemma read_data_succeeds core addr : succeeds (read_data env locate core addr noc) (λ _, True).
Proof. intros w. apply wp_read_data. eauto. Qed.
Lemma read_dwords_succeeds core addr n : succeeds (read_dwords env locate core addr n noc) (λ vs, length vs = n).
Proof.
  revert addr. induction n as [|n IH]; intros addr; [by apply succeeds_ret|]. cbn [read_dwords].
  eapply succeeds_then; [apply read_data_succeeds|]. intros v _. eapply succeeds_then; [apply IH|].
  intros vs Hl. apply succeeds_ret. cbn [length]. by rewrite Hl.
Qed.
Lemma load_host_succeeds addr n : succeeds (load_host env host addr n) (λ vs, length vs = n).
Proof.
  revert addr. induction n as [|n IH]; intros addr; [by apply succeeds_ret|]. cbn [load_host].
  eapply (succeeds_then _ _ (λ _, True)); [intros w; unfold wpf; eauto|]. intros v _. eapply succeeds_then; [apply IH|].
  intros vs Hl. apply succeeds_ret. cbn [length]. by rewrite Hl.
Qed.
Lemma read_from_sysmem_succeeds addr n :
  system_mem_available = true → succeeds (read_from_sysmem env host channel0 addr n) (λ vs, length vs = n).
Proof.
  intros Hsm. unfold read_from_sysmem. destruct (Hmapping Hsm) as [Hmap Hsize]. rewrite Hmap, (proj2 (Z.eqb_neq _ 0) Hsize).
  eapply (succeeds_then _ _ (λ _, True)); [by eapply succeeds_lift|]. intros _ _.
  eapply (succeeds_then _ _ (λ _, True)); [by eapply succeeds_lift|]. intros _ _. apply load_host_succeeds.
Qed.
Lemma write_dwords_succeeds core addr vs : succeeds (write_dwords env locate core addr vs noc) (λ _, True).
Proof.
  revert addr. induction vs as [|v vs IH]; intros addr; [by apply succeeds_ret|]. cbn [write_dwords].
  eapply (succeeds_then _ _ (λ _, True)); [intros w; apply wp_write_data; eauto|]. intros _ _. apply IH.
Qed.
Lemma read_q_ptrs_succeeds core : succeeds (read_q_ptrs env locate noc core) (λ _, True).
Proof.
  unfold read_q_ptrs. eapply succeeds_then; [apply read_dwords_succeeds|].
  intros vs Hl. do 5 (destruct vs as [|? vs]; [discriminate|]).
  eapply (succeeds_then _ _ (λ _, True)); [by eapply succeeds_lift|]. intros a _.
  eapply (succeeds_then _ _ (λ _, True)); [by eapply succeeds_lift|]. intros b _. by apply succeeds_ret.
Qed.
Lemma push_command_succeeds core wptr cmd : succeeds (push_command env locate noc core wptr cmd) (λ _, True).
Proof.
  unfold push_command. eapply succeeds_then; [apply write_dwords_succeeds|]. intros _ _.
  eapply (succeeds_then _ _ (λ _, True)); [intros w; apply wp_write_data; eauto|]. intros _ _. by apply succeeds_ret.
Qed.

(** The bytes of a response fit what is left of the destination. *)
Lemma response_bytes_succeeds size off k core resp :
  0 ≤ off < size → size < 2 ^ 32 - 2 ^ 16 → 0 < k →
  succeeds (response_bytes env locate host channel0 system_mem_available noc size core off (4 * k) resp) (λ bytes, vec_size bytes ≤ size - off).
Proof.
  intros Ho Hs Hk. unfold response_bytes. rewrite u32_small by lia. unfold vec_size.
  destruct (4 * k =? DATA_WORD_SIZE).
  - eapply succeeds_then; [apply read_data_succeeds|]. intros v _. apply succeeds_ret. rewrite length_take.
    destruct (Z.ltb_spec (size - off) 4); lia.
  - eapply (succeeds_then _ _ (λ _, True)).
    { destruct (read_use_host_dram _ _) eqn:E; intros w; eapply wp_mono;
        [apply read_from_sysmem_succeeds; by apply andb_prop in E as [_ ?]| |apply read_dwords_succeeds|];
        intros r w' (a & -> & _); eauto. }
    intros ws _. apply succeeds_ret. rewrite length_take. lia.
Qed.

(** ** The transfer *)

Definition unexpected_flags_message : string := "Unexpected ERISC Response Flags.".
(** The error messages of a read. *)
Definition read_outcome {A} (P : A → Prop) (r : result A) : Prop :=
  (∃ a, r = Ok a ∧ P a) ∨ r = throw remote_timeout_message ∨ r = throw unexpected_flags_message.

Lemma wp_read_one_block target_core core_src size core target s w :
  0 ≤ rd_offset s < size → size < 2 ^ 32 - 2 ^ 16 → vec_size (dest s) = size →
  wp (read_one_block env locate now host channel0 system_mem_available noc poll_fuel timeout_ms target_core core_src size core target s)
    (λ r _, read_outcome (λ s', rd_offset s < rd_offset s' ∧ length (dest s') = length (dest s)) r) w.
Proof.
  intros Ho Hs Hd. unfold read_one_block. apply wp_bind, wp_now.
  eapply polled_bind; [apply wp_poll_room|by right; left|]. intros rptr w1 _.
  destruct (read_block_size_spec core_src (rd_offset s) size (read_max_block_size system_mem_available size))
    as (k & -> & Hk & Hmax & Ha & Hrest); [done|done|unfold read_max_block_size; destruct (read_use_host_dram _ _); auto|].
  assert (4 * k ≤ 32768) as Hk32.
  { unfold read_max_block_size, MAX_BLOCK_SIZE, ETH_ROUTING_BLOCK_SIZE in Hmax. destruct (read_use_host_dram _ _); lia. }
  eapply (succeeds_bind _ _ (λ _, True)).
  { eapply succeeds_lift; [|done]. unfold read_req_flags. destruct (decide (k = 1)) as [->|Hne]; [done|].
    rewrite Ha by done. by rewrite orb_true_r. }
  intros _ w2 _. eapply succeeds_bind; [apply push_command_succeeds|]. intros wptr w3 _.
  eapply (succeeds_bind _ _ (λ _, True)).
  { destruct (is_non_mmio_cmd_q_full _ _); [|by apply succeeds_ret].
    eapply succeeds_then; [apply read_q_ptrs_succeeds|]. intros [a b] _. by apply succeeds_ret. }
  intros [[wptr' rptr'] full] w4 _. apply wp_bind, wp_now.
  eapply polled_bind; [apply wp_poll_response|by right; left|]. intros _ w5 _. apply wp_bind, wp_now.
  eapply polled_bind; [apply wp_poll_flags|by right; left|]. intros flags w6 _.
  eapply (succeeds_bind _ _ (λ d, length d = length (dest s))).
  { destruct (flags =? _); [|by apply succeeds_ret].
    eapply succeeds_then; [by apply response_bytes_succeeds|]. intros bytes Hb. cbn beta in Hb.
    destruct (dest_write_ok (dest s) (rd_offset s) bytes) as (d & Hdw & Hl); [lia|lia|]. by eapply succeeds_lift. }
  intros d w7 Hl. eapply (succeeds_bind _ _ (λ _, True)); [intros w0; apply wp_write_data; eauto|]. intros _ w8 _.
  destruct (flags =? _); cbn [umd_assert].
  - apply wp_bind, wp_lift, wp_ret. left. eexists. split; [done|]. cbn [rd_offset RemoteQueue.dest]. rewrite u32_small by lia. split; [lia|done].
  - apply wp_bind, wp_lift. right. by right.
Qed.

Lemma wp_read_blocks fuel target_core core_src size core target s w :
  0 ≤ rd_offset s → size - rd_offset s < Z.of_nat fuel → size < 2 ^ 32 - 2 ^ 16 → vec_size (dest s) = size →
  wp (read_blocks env locate now host channel0 system_mem_available noc poll_fuel timeout_ms target_core core_src size core fuel target s)
    (λ r _, read_outcome (λ d, length d = length (dest s)) r) w.
Proof.
  revert s w. induction fuel as [|fuel IH]; intros s w Ho Hfuel Hs Hd; cbn [read_blocks].
  { destruct (Z.ltb_spec (rd_offset s) size); [lia|]. apply wp_ret. left. eauto. }
  destruct (Z.ltb_spec (rd_offset s) size); [|apply wp_ret; left; eauto].
  apply wp_bind. eapply wp_mono; [by apply wp_read_one_block|]. intros r w' [(s' & -> & Hlt & Hl)|[-> | ->]]; [|by right; left|by right; right].
  eapply wp_mono; [apply IH; [lia|lia|done|unfold vec_size in *; by rewrite Hl]|]. intros r w2 Hr. by rewrite Hl in Hr.
Qed.

(** C27: BOUNDS. A read of [size] bytes from a remote chip into a buffer of that
    size returns whatever the device does, as long as its clock advances: the
    buffer keeps its size, no byte outside of it is touched, and no other error
    than a timeout or a response with unexpected flags is thrown. *)
Theorem read_non_mmio_in_bounds target_core dest core_src size r w :
  vec_size dest = size → size < 2 ^ 32 - 2 ^ 16 → 0 ≤ active_eth_core_idx r < vec_size (remote_transfer_eth_cores r) →
  hwpf False (read_non_mmio env locate now host channel0 system_mem_available noc poll_fuel timeout_ms target_core dest core_src size)
    (λ res r' _, r' = r ∧ read_outcome (λ d, length d = length dest) res) r w.
Proof.
  intros Hd Hs Hj. unfold read_non_mmio. apply hwp_bind, hwp_get, hwp_bind, hwp_lift.
  rewrite get_remote_core_spec by (by eapply vec_nonempty). destruct (vec_lookup _ _ Hj) as [c Hc]. rewrite (vec_at_Some _ _ _ Hc).
  apply hwp_bind, hwp_device. eapply wp_mono; [apply read_q_ptrs_succeeds|]. intros res w1 ([wptr rptr] & -> & _).
  apply hwp_bind, hwp_device, wp_read_data, hwp_bind, hwp_device, wp_read_data, hwp_device.
  eapply wp_mono; [by apply wp_read_blocks; [| | |]; cbn [rd_offset RemoteQueue.dest]; try lia; unfold vec_size in *; lia|].
  intros res w' Hres. done.
Qed.
End Read.

(** The system memory that takes the data of a long read is that of the blocks of
    writes through the first core. *)
Lemma read_block_is_write_block slot size :
  256 * DATA_WORD_SIZE < size →
  read_host_block true size slot = write_host_block true size false 0 slot.
Proof.
  intros Hs. unfold read_host_block, write_host_block, read_max_block_size, write_max_block_size, read_use_host_dram, write_use_host_dram.
  rewrite (proj2 (Z.ltb_lt _ _) Hs). done.
Qed.

(** ** Examples

    A routing firmware that takes at once whatever waits, on any number of cores,
    and has its responses back a moment later, and a write to a remote chip
    through it. *)

Local Open Scope Z_scope.
Import eth_routing.

(** What the cores have taken, which writes of it are executed, and which are
    on their way. *)
Record Drain := MkDrain { drain_clock : Z; drain_done : Z → list Request; drain_executed : Z → list Request; drain_sent : Z → list Request }.

Section Drain.
Context (locate : NocId → xy_pair → xy_pair) (noc : NocId) (host : xy_pair) (cores : list xy_pair).
Context (Hplaces : places_apart locate noc host cores).
Implicit Types (w : World Drain).

Definition new_writes w (j : Z) : list Request := write_requests (pending locate noc host cores w j).
(** The new writes of the core at a tile. *)
Definition tile_writes w (c : xy_pair) : Z :=
  match list_find (λ j, tile locate noc cores j = c) (seqZ 0 (vec_size cores)) with
  | Some (_, j) => Z.of_nat (length (new_writes w j))
  | None => 0
  end.
Definition drain_env w : World Drain :=
  MkWorld
    (λ c a, if decide (c ∈ map (locate noc) cores) then
              if decide (a = REQUEST_RPTR) then mem w c REQUEST_WPTR
              else if decide (a = REQUEST_CMD_QUEUE_BASE) then u32 (mem w c REQUEST_CMD_QUEUE_BASE + tile_writes w c)
              else if decide (a = REQUEST_CMD_QUEUE_BASE + 4) then u32 (mem w c REQUEST_CMD_QUEUE_BASE)
              else mem w c a
            else mem w c a)
    (bar w)
    (MkDrain (drain_clock (firmware w) + 1)
      (λ j, drain_done (firmware w) j ++ pending locate noc host cores w j)
      (λ j, write_requests (drain_done (firmware w) j)) (new_writes w)).

Lemma tile_elem j : core_index cores j → tile locate noc cores j ∈ map (locate noc) cores.
Proof.
  intros Hj. unfold tile. apply list_elem_of_In, in_map, nth_In. unfold core_index, vec_size in Hj. lia.
Qed.

Lemma drain_takes w j :
  all_ok locate noc cores w → core_index cores j →
  ∃ k, 0 ≤ k ≤ waiting locate noc cores w j ∧ wptr locate noc cores (drain_env w) j = wptr locate noc cores w j ∧
    rptr locate noc cores (drain_env w) j = (rptr locate noc cores w j + k) `mod` 8 ∧
    drain_done (firmware (drain_env w)) j =
      drain_done (firmware w) j ++ take (Z.to_nat k) (pending locate noc host cores w j).
Proof.
  intros Hok Hj. pose proof (waiting_bounds locate noc cores w j) as Hn. destruct (Hok j Hj) as [Hw _ _ _].
  exists (waiting locate noc cores w j). split_and!; [lia|lia| | |].
  - unfold wptr. cbn [mem drain_env]. by rewrite !(decide_False (P := REQUEST_WPTR = _)), decide_True by (done || by apply tile_elem).
  - unfold rptr. cbn [mem drain_env]. rewrite !decide_True by (done || by apply tile_elem).
    change (mem w _ REQUEST_WPTR) with (wptr locate noc cores w j). fold (rptr locate noc cores w j).
    unfold waiting. rewrite Zplus_mod_idemp_r.
    replace (rptr locate noc cores w j + (wptr locate noc cores w j - rptr locate noc cores w j))
      with (wptr locate noc cores w j) by lia.
    by rewrite Z.mod_small.
  - cbn [firmware drain_env drain_done]. f_equal. unfold pending.
    rewrite firstn_all2; [done|]. rewrite length_map, length_seqZ. lia.
Qed.
Lemma drain_keeps w j s c a :
  all_ok locate noc cores w → core_index cores j → 0 ≤ s < 4 → slot_word locate noc host cores j s c a →
  mem (drain_env w) c a = mem w c a.
Proof.
  intros _ Hj Hs Hc. cbn [mem drain_env]. destruct (decide (c ∈ _)) as [Hin|]; [|done].
  apply list_elem_of_In, In_nth with (d := locate noc (XY 0 0)) in Hin as (n & Hn & Heq).
  rewrite map_nth in Heq. rewrite length_map in Hn.
  assert (core_index cores (Z.of_nat n)) as Hi by (unfold core_index, vec_size; lia).
  assert (tile locate noc cores (Z.of_nat n) = c) as Ht by (unfold tile; by rewrite Nat2Z.id).
  rewrite <- Ht in Hc.
  assert (∀ x, REQUEST_CMD_QUEUE_BASE ≤ x < CMDS → a ≠ x) as Hne.
  { intros x Hx ->. by apply (header_not_slot locate noc host cores Hplaces (Z.of_nat n) j s x Hi Hj Hs Hx). }
  by rewrite !decide_False by by apply Hne.
Qed.

#[global] Instance drain_firmware : RoutingFirmware drain_env locate noc host cores := {
  taken := drain_done;
  routing_takes := drain_takes;
  routing_keeps := drain_keeps
}.

Lemma tile_writes_spec w j : core_index cores j → tile_writes w (tile locate noc cores j) = Z.of_nat (length (new_writes w j)).
Proof.
  intros Hj. unfold tile_writes. destruct (list_find _ _) as [[k i]|] eqn:E.
  - apply list_find_Some in E as (Hi%list_elem_of_lookup_2%elem_of_seqZ & Ht & _).
    by rewrite (pa_tiles _ _ _ _ Hplaces i j ltac:(unfold core_index; lia) Hj Ht).
  - apply list_find_None in E. rewrite Forall_forall in E. exfalso. apply (E j); [|done]. apply elem_of_seqZ. unfold core_index in Hj. lia.
Qed.
Lemma drain_counters w j :
  core_index cores j →
  wr_req locate noc cores (drain_env w) j = u32 (wr_req locate noc cores w j + Z.of_nat (length (new_writes w j))) ∧
  wr_resp locate noc cores (drain_env w) j = u32 (wr_req locate noc cores w j).
Proof.
  intros Hj. unfold wr_req, wr_resp. cbn [mem drain_env]. rewrite !(decide_True (P := _ ∈ _)) by by apply tile_elem.
  rewrite tile_writes_spec by done. split.
  - by rewrite decide_False, decide_True.
  - by rewrite (decide_False (P := _ = REQUEST_RPTR)), (decide_False (P := _ = REQUEST_CMD_QUEUE_BASE)), decide_True.
Qed.
Lemma new_writes_few w j : Z.of_nat (length (new_writes w j)) < 2 ^ 32.
Proof.
  pose proof (waiting_bounds locate noc cores w j). unfold new_writes, write_requests.
  pose proof (List.filter_length_le (λ rq, rq_write (rq_words rq)) (pending locate noc host cores w j)) as Hl.
  unfold pending in *. rewrite length_map, length_seqZ in Hl. lia.
Qed.
#[global, program] Instance drain_responses : WriteResponses drain_env locate noc host cores := {
  executed := drain_executed;
  unanswered := drain_sent
}.
Next Obligation.
  intros w j _ _. cbn [taken drain_firmware firmware drain_env drain_done drain_executed drain_sent].
  unfold new_writes, write_requests. by rewrite List.filter_app.
Qed.
Next Obligation.
  intros w j _ Hj. destruct (drain_counters w j Hj) as [-> ->]. split; [|apply new_writes_few].
  cbn [firmware drain_env drain_sent]. unfold u32. by rewrite Zplus_mod_idemp_l.
Qed.
Next Obligation.
  intros w j _ Hj H0. destruct (drain_counters w j Hj) as [-> _]. cbn [firmware drain_env drain_sent].
  assert (new_writes w j = []) as -> by (unfold new_writes, pending; by rewrite H0).
  split; [|apply submseteq_nil_l]. rewrite Z.add_0_r. unfold u32. by rewrite Zmod_mod.
Qed.
End Drain.

(** Two Ethernet cores and an empty device. *)
Definition demo_cores : list xy_pair := [XY 1 0; XY 2 0].
Definition demo_host : xy_pair := XY 100 100.
Definition demo_channel : HugepageMapping := MkMapping true (2 ^ 30).
Definition demo_locate : NocId → xy_pair → xy_pair := λ _ c, c.
Definition demo_world : World Drain := MkWorld (λ _ _, 0) (λ _, 0) (MkDrain 0 (λ _, []) (λ _, []) (λ _, [])).
Definition demo_remote : RemoteCommunication := MkRemote (MkEthCoord 0 1 2 0 0) demo_cores 0 false.
Lemma demo_apart : places_apart demo_locate NOC0 demo_host demo_cores.
Proof.
  split; [| |done].
  - intros j j' Hj Hj'. unfold core_index, vec_size in *. cbn in Hj, Hj'.
    assert (j = 0 ∨ j = 1) as [-> | ->] by lia; assert (j' = 0 ∨ j' = 1) as [-> | ->] by lia; try done.
  - intros j Hj. unfold core_index, vec_size in *. cbn in Hj. by assert (j = 0 ∨ j = 1) as [-> | ->] by lia.
Qed.

(** The addresses and the bytes of the requests of a write. *)
Definition demo_write (n : nat) (dest : Z) : H Drain RemoteCommunication unit :=
  write_to_non_mmio (drain_env demo_locate NOC0 demo_host demo_cores) demo_locate drain_clock demo_host demo_channel false NOC0 10 1
    (XY 3 4) (map Z.of_nat (seq 1 n)) dest (Z.of_nat n) false [].
Definition demo_requests (n : nat) (dest j : Z) : option (list (Z * list Z)) :=
  match demo_write n dest demo_remote demo_world with
  | Some (Ok tt, _, w) =>
      let w := drain_env demo_locate NOC0 demo_host demo_cores w in
      Some (map (λ rq, (rq_address (rq_words rq) `mod` 2 ^ 36, request_bytes rq)) (drain_done (firmware w) j))
  | _ => None
  end.
Example demo_requests_0 : demo_requests 14 0x1C 0 = Some [(0x1C, [1; 2; 3; 4]); (0x20, [5; 6; 7; 8; 9; 10; 11; 12; 13; 14; 0; 0])].
Proof. by vm_compute. Qed.

(** A last word that is not full takes bytes of the command before it. *)
Example demo_requests_padding : demo_requests 6 4 0 = Some [(4, [1; 2; 3; 4]); (8, [5; 6; 3; 4])].
Proof. by vm_compute. Qed.
(** The fifth command goes to the next core, which is done first here. *)
Example demo_requests_cores :
  demo_requests 20 4 0 = Some [(4, [1; 2; 3; 4]); (8, [5; 6; 7; 8]); (12, [9; 10; 11; 12]); (16, [13; 14; 15; 16])] ∧
  demo_requests 20 4 1 = Some [(20, [17; 18; 19; 20])].
Proof. by vm_compute. Qed.

Lemma demo_ok : all_ok demo_locate NOC0 demo_cores demo_world.
Proof.
  intros j _. split.
  - change (0 ≤ 0 < 8). lia.
  - change (0 ≤ 0 < 8). lia.
  - change (0 ≤ 4). lia.
  - intros i Hi. change (0 ≤ i < 0) in Hi. lia.
Qed.
Lemma write_to_non_mmio_refines_witness :
  hwpf False
    (write_to_non_mmio (drain_env demo_locate NOC0 demo_host demo_cores) demo_locate drain_clock demo_host demo_channel false NOC0
      (Z.to_nat 3000000) 1 (XY 3 4) [1; 2; 3; 4; 5; 6] 4 6 false [])
    (write_outcome (fw := drain_firmware demo_locate NOC0 demo_host demo_cores demo_apart)
      _ demo_locate NOC0 demo_host demo_cores (target_chip demo_remote) (XY 3 4) [1; 2; 3; 4; 5; 6] 4 demo_world 0)
    demo_remote demo_world.
Proof.
  apply (write_to_non_mmio_refines (drain_env demo_locate NOC0 demo_host demo_cores) demo_locate NOC0 demo_host demo_cores demo_apart
    drain_clock).
  - intros w. cbn [firmware drain_env drain_clock]. lia.
  - discriminate.
  - lia.
  - rewrite Z2Nat.id by lia. reflexivity.
  - repeat (constructor; [unfold is_byte; lia|]). constructor.
  - reflexivity.
  - exact demo_ok.
  - reflexivity.
  - reflexivity.
  - split; [done|reflexivity].
Defined.

(** A write waits on the first core. *)
Definition queued_world : World Drain :=
  upd_mem (XY 1 0) (CMDS + 12) CMD_WR_REQ (upd_mem (XY 1 0) REQUEST_WPTR 1 demo_world).
Lemma queued_ok : all_ok demo_locate NOC0 demo_cores queued_world.
Proof.
  intros j Hj. assert (j = 0 ∨ j = 1) as [-> | ->] by (unfold core_index, vec_size in Hj; cbn in Hj; lia).
  - split; [change (0 ≤ 1 < 8); lia|change (0 ≤ 0 < 8); lia|change (1 ≤ 4); lia|].
    intros i Hi. change (0 ≤ i < 1) in Hi. replace i with 0 by lia. by intros ?.
  - split; [change (0 ≤ 0 < 8); lia|change (0 ≤ 0 < 8); lia|change (0 ≤ 4); lia|].
    intros i Hi. change (0 ≤ i < 0) in Hi. lia.
Qed.
(** The first poll alone would not do: when the queue is seen empty, its write is
    on its way. *)
Example empty_is_not_executed :
  let w := drain_env demo_locate NOC0 demo_host demo_cores queued_world in
  (waiting demo_locate NOC0 demo_cores w 0, length (drain_done (firmware w) 0),
   length (drain_executed (firmware w) 0), length (drain_sent (firmware w) 0)) = (0, 1%nat, 0%nat, 1%nat).
Proof. by vm_compute. Qed.
Lemma flush_executes_all_witness :
  hwpf False
    (wait_for_non_mmio_flush (drain_env demo_locate NOC0 demo_host demo_cores) demo_locate drain_clock NOC0
      (Z.to_nat 3000000) 1 WORMHOLE_B0)
    (flush_outcome (fw := drain_firmware demo_locate NOC0 demo_host demo_cores demo_apart)
      (responses := drain_responses demo_locate NOC0 demo_host demo_cores demo_apart)
      _ demo_locate NOC0 demo_host demo_cores (set_flush true demo_remote) queued_world)
    (set_flush true demo_remote) queued_world.
Proof.
  apply (flush_executes_all (drain_env demo_locate NOC0 demo_host demo_cores) demo_locate NOC0 demo_host demo_cores demo_apart
    drain_clock).
  - intros w. cbn [firmware drain_env drain_clock]. lia.
  - lia.
  - rewrite Z2Nat.id by lia. reflexivity.
  - exact queued_ok.
  - reflexivity.
  - reflexivity.
Defined.

Lemma read_non_mmio_in_bounds_witness :
  hwpf False
    (read_non_mmio (drain_env demo_locate NOC0 demo_host demo_cores) demo_locate drain_clock demo_host demo_channel true NOC0
      (Z.to_nat 3000000) 1 (XY 3 4) (repeat 0 2000) 64 2000)
    (λ res r' _, r' = demo_remote ∧ read_outcome (λ d, length d = length (repeat 0 2000)) res) demo_remote demo_world.
Proof.
  apply (read_non_mmio_in_bounds (drain_env demo_locate NOC0 demo_host demo_cores) demo_locate NOC0 demo_host drain_clock).
  - intros w. cbn [firmware drain_env drain_clock]. lia.
  - intros _. by split.
  - lia.
  - rewrite Z2Nat.id by lia. reflexivity.
  - unfold vec_size. rewrite repeat_length. reflexivity.
  - reflexivity.
  - split; [done|reflexivity].
Defined.
