(* ===== verification/RemoteProtocol.v ===== *)
(** * RemoteProtocol

    [tt_device/protocol/remote_protocol.cpp]: accesses to a chip without MMIO, by
    the remote communication object, and writes to a rectangle of its Tensix
    cores by one Ethernet broadcast where the rectangle is one that a broadcast
    can name. A broadcast excludes rows and columns: those of all cores outside
    the rectangle. *)

From Stdlib Require Import ZArith Lia.
From stdpp Require Import base list numbers strings gmap sets.
From S2P Require Import Prelude CoreTypes ArchData BoardTypes ClusterState DeviceAccess RemoteQueue PcieProtocol EthBroadcast EthHeaders EthBroadcastProperties.

Local Open Scope Z_scope.

(** ** Accesses *)

Section Accesses.
Context {F : Type} (env : World F → World F) (locate : NocId → xy_pair → xy_pair) (now : F → Z) (host : xy_pair).
Context (channel0 : HugepageMapping) (system_mem_available : bool) (noc : NocId) (poll_fuel : nat) (timeout_ms : Z).

(** The NOC asked for is not used. *)
Definition write_data (mem : list Z) (core : xy_pair) (addr size : Z) (noc_id : NocId) : H F RemoteCommunication unit :=
  write_to_non_mmio env locate now host channel0 system_mem_available noc poll_fuel timeout_ms core mem addr size false [].
Definition read_data (dest : list Z) (core : xy_pair) (addr size : Z) (noc_id : NocId) : H F RemoteCommunication (list Z) :=
  read_non_mmio env locate now host channel0 system_mem_available noc poll_fuel timeout_ms core dest addr size.
Definition write_ctrl (mem : list Z) (core : xy_pair) (addr size : Z) (noc_id : NocId) : H F RemoteCommunication unit :=
  hlift (validate_register_access addr size);; write_data mem core addr size noc_id.
Definition read_ctrl (dest : list Z) (core : xy_pair) (addr size : Z) (noc_id : NocId) : H F RemoteCommunication (list Z) :=
  hlift (validate_register_access addr size);; read_data dest core addr size noc_id.
End Accesses.

(** ** Writes to a rectangle of cores *)

(** The protocol, with what it asks its remote communication object for. *)
Record RemoteProtocol := MkRemoteProtocol {
  ethernet_broadcast : option EthernetBroadcast;
  remote_communication : Z;
  has_sysmem_manager : bool;
  local_arch : ARCH;
  noc_translation_enabled : bool;
  target_eth_coord : option EthCoord
}.
Definition set_broadcast (e : EthernetBroadcast) (p : RemoteProtocol) : RemoteProtocol :=
  MkRemoteProtocol (Some e) (remote_communication p) (has_sysmem_manager p) (local_arch p) (noc_translation_enabled p) (target_eth_coord p).

(** The broadcast object is made when it is first used; the system memory comes
    later than the protocol. *)
Definition get_broadcast (p : RemoteProtocol) : result (option EthernetBroadcast) :=
  match ethernet_broadcast p with
  | Some e => Ok (Some e)
  | None =>
      if has_sysmem_manager p && bool_decide (local_arch p = WORMHOLE_B0) then
        e ← new_single_broadcast (remote_communication p) (target_eth_coord p); Ok (Some e)
      else Ok None
  end.

Definition partial_noc0_range (core_start core_end : xy_pair) : bool :=
  (1 <? xy_x core_start) || (1 <? xy_y core_start) || (xy_x core_end <? 9) || (xy_y core_end <? 11).
(** The indices of a loop over [n] from [start] that are outside of [lo, hi]. *)
Definition outside (start n lo hi : Z) : gset Z :=
  foldl (λ s i, if (i <? lo) || (hi <? i) then {[ i ]} ∪ s else s) ∅ (seqZ start n).

(** Rows and columns to exclude, [None]: the rectangle cannot be broadcast. *)
Definition exclusions (translation_enabled : bool) (core_start core_end : xy_pair) : option (gset Z * gset Z * bool) :=
  if negb (wormhole.tensix_translated_coordinate_start_x <=? xy_x core_start) then
    if partial_noc0_range core_start core_end then None else Some ({[ 0; 6 ]}, {[ 0; 5 ]}, false)
  else if negb translation_enabled then None
  else
    Some ({[ 16; 17 ]} ∪ outside wormhole.translated_coordinate_start_y (xy_y wormhole.GRID_SIZE) (xy_y core_start) (xy_y core_end),
          {[ 16; 17 ]} ∪ outside wormhole.translated_coordinate_start_x (xy_x wormhole.GRID_SIZE) (xy_x core_start) (xy_x core_end),
          true).

Section Range.
Context `{Unordered}.

(** Appends to the commands sent; [false]: nothing was written. *)
Definition write_to_core_range (mem : list Z) (core_start core_end : xy_pair) (address : Z) (st : list Command * RemoteProtocol)
  : result (bool * (list Command * RemoteProtocol)) :=
  let '(sent, p) := st in
  b ← get_broadcast p;
  match b with
  | None => Ok (false, (sent, p))
  | Some e =>
      match exclusions (noc_translation_enabled p) core_start core_end with
      | None => Ok (false, (sent, set_broadcast e p))
      | Some (rows_to_exclude, columns_to_exclude, use_translated_coords) =>
          '(sent, e) ← broadcast_write_to_cluster mem address ∅ rows_to_exclude columns_to_exclude use_translated_coords (sent, e);
          Ok (true, (sent, set_broadcast e p))
      end
  end.
End Range.

(** ** What is written *)

Lemma elem_of_outside start n lo hi i : i ∈ outside start n lo hi ↔ start ≤ i < start + n ∧ (i < lo ∨ hi < i).
Proof.
  unfold outside. assert (∀ l (s : gset Z), i ∈ foldl (λ s i, if (i <? lo) || (hi <? i) then {[ i ]} ∪ s else s) s l ↔
    i ∈ s ∨ (i ∈ l ∧ (i < lo ∨ hi < i))) as Hl.
  { induction l as [|j l IH]; intros s; cbn [foldl]; [rewrite elem_of_nil; tauto|]. rewrite IH, elem_of_cons.
    destruct ((j <? lo) || (hi <? j)) eqn:E; [rewrite elem_of_union, elem_of_singleton|].
    - apply orb_true_iff in E. rewrite !Z.ltb_lt in E. naive_solver.
    - apply orb_false_iff in E. rewrite !Z.ltb_ge in E. naive_solver lia. }
  rewrite Hl, elem_of_seqZ. set_solver.
Qed.

(** [v] is the virtual row or column of a Tensix core, of those from 18 on, in
    the range; rows and columns [start] and [start + 1] are of other cores. *)
Definition tensix_line (table : list Z) (lo hi v : Z) : Prop :=
  ∃ t, 18 ≤ t < 16 + vec_size table ∧ lo ≤ t ≤ hi ∧ table !! Z.to_nat (t - 16) = Some v.
(** The virtual coordinates of the Tensix cores of a rectangle; of all Tensix
    cores for one in NOC0 coordinates. *)
Definition tensix_in_range (core_start core_end : xy_pair) (x y : Z) : Prop :=
  if wormhole.tensix_translated_coordinate_start_x <=? xy_x core_start then
    tensix_line wormhole.TRANSLATED_TO_VIRTUAL_X (xy_x core_start) (xy_x core_end) x ∧
    tensix_line wormhole.TRANSLATED_TO_VIRTUAL_Y (xy_y core_start) (xy_y core_end) y
  else x ∈ wormhole.T6_X_LOCATIONS ∧ y ∈ wormhole.T6_Y_LOCATIONS.

Lemma line_selected table lo hi v :
  NoDup table → v ∈ table →
  ¬ virtual_of 16 table true ({[ 16; 17 ]} ∪ outside 16 (vec_size table) lo hi) v ↔ tensix_line table lo hi v.
Proof.
  intros Hnd Hv. apply list_elem_of_lookup in Hv as [k Hk]. pose proof (lookup_lt_Some _ _ _ Hk) as Hlt.
  assert (∀ t, 16 ≤ t → table !! Z.to_nat (t - 16) = Some v → t = 16 + Z.of_nat k) as Hu.
  { intros t Ht1 Ht2. pose proof (NoDup_lookup _ _ _ _ Hnd Ht2 Hk). lia. }
  assert (table !! Z.to_nat (16 + Z.of_nat k - 16) = Some v) as Hk' by (by replace (Z.to_nat (16 + Z.of_nat k - 16)) with k by lia).
  unfold virtual_of, tensix_line, vec_size. setoid_rewrite elem_of_union. setoid_rewrite elem_of_union.
  setoid_rewrite elem_of_singleton. setoid_rewrite elem_of_outside. split.
  - intros Hn. exists (16 + Z.of_nat k). split_and!; try done; try lia.
    + destruct (decide (k ≤ 1)%nat); [|lia]. destruct Hn. exists (16 + Z.of_nat k). split; [lia|done].
    + destruct (decide (lo ≤ 16 + Z.of_nat k)); [done|]. destruct Hn. exists (16 + Z.of_nat k). split; [|done]. lia.
    + destruct (decide (16 + Z.of_nat k ≤ hi)); [done|]. destruct Hn. exists (16 + Z.of_nat k). split; [|done]. lia.
  - intros (t & Ht1 & Ht2 & Ht3) (t' & Ht1' & Ht2'). apply Hu in Ht3; [|lia]. apply Hu in Ht2'; [|lia]. lia.
Qed.

(** The virtual columns and rows are those of the tables. *)
Lemma virtual_columns x : 0 ≤ x < 10 ↔ x ∈ wormhole.TRANSLATED_TO_VIRTUAL_X.
Proof. unfold wormhole.TRANSLATED_TO_VIRTUAL_X. rewrite !elem_of_cons, elem_of_nil. lia. Qed.
Lemma virtual_rows y : 0 ≤ y < 12 ↔ y ∈ wormhole.TRANSLATED_TO_VIRTUAL_Y.
Proof. unfold wormhole.TRANSLATED_TO_VIRTUAL_Y. rewrite !elem_of_cons, elem_of_nil. lia. Qed.

(** The exclusions of a rectangle leave exactly its Tensix cores. *)
Lemma exclusions_select translation core_start core_end rows cols tr x y :
  exclusions translation core_start core_end = Some (rows, cols, tr) → 0 ≤ x < 10 → 0 ≤ y < 12 →
  ¬ excluded_col tr cols x ∧ ¬ excluded_row tr rows y ∧ ¬ (x = 0 ∧ y ∈ unsafe_rows) ↔ tensix_in_range core_start core_end x y.
Proof.
  unfold exclusions, tensix_in_range. intros He Hx Hy. destruct (_ <=? _); cbn [negb] in He.
  - destruct translation; cbn [negb] in He; [|done]. injection He as <- <- <-. unfold excluded_col, excluded_row.
    pose proof (line_selected wormhole.TRANSLATED_TO_VIRTUAL_X (xy_x core_start) (xy_x core_end) x ltac:(by apply (bool_decide_unpack _)) (proj1 (virtual_columns x) Hx)) as Hc.
    pose proof (line_selected wormhole.TRANSLATED_TO_VIRTUAL_Y (xy_y core_start) (xy_y core_end) y ltac:(by apply (bool_decide_unpack _)) (proj1 (virtual_rows y) Hy)) as Hr.
    rewrite <- Hc, <- Hr. split; [by intros (? & ? & _)|]. intros [H1 H2]. split_and!; [done..|]. intros [-> _]. apply H1.
    exists 16. split; [set_solver|done].
  - destruct (partial_noc0_range _ _); [done|]. injection He as <- <- <-. unfold excluded_col, excluded_row, virtual_of.
    unfold wormhole.T6_X_LOCATIONS, wormhole.T6_Y_LOCATIONS. rewrite !elem_of_cons, !elem_of_nil, !elem_of_union, !elem_of_singleton. lia.
Qed.

Definition single_broadcast (comm : Z) (c : EthCoord) : EthernetBroadcast :=
  MkBroadcast true {[ 0 := c ]} {[ 0 := 0 ]} {[ 0 := comm ]} ∅.
(** The chip has its place [c] in the cluster; a broadcast object is the one for it. *)
Definition protocol_ok (c : EthCoord) (p : RemoteProtocol) : Prop :=
  target_eth_coord p = Some c ∧ fits c ∧
  ∀ e, ethernet_broadcast p = Some e → cache_ok e ∧ same_topology (single_broadcast (remote_communication p) c) e.
(** The rectangle can be written by a broadcast. *)
Definition broadcastable (p : RemoteProtocol) (core_start core_end : xy_pair) : bool :=
  (bool_decide (is_Some (ethernet_broadcast p)) || has_sysmem_manager p && bool_decide (local_arch p = WORMHOLE_B0)) &&
  (if wormhole.tensix_translated_coordinate_start_x <=? xy_x core_start then noc_translation_enabled p
   else negb (partial_noc0_range core_start core_end)).

Lemma exclusions_Some p core_start core_end :
  is_Some (exclusions (noc_translation_enabled p) core_start core_end) ↔
  (if wormhole.tensix_translated_coordinate_start_x <=? xy_x core_start then noc_translation_enabled p
   else negb (partial_noc0_range core_start core_end)) = true.
Proof.
  unfold exclusions. destruct (_ <=? _), (noc_translation_enabled p), (partial_noc0_range _ _); cbn; split; try done.
  all: first [by intros []|by intros; eexists].
Qed.
Lemma exclusions_admissible translation core_start core_end rows cols tr e :
  exclusions translation core_start core_end = Some (rows, cols, tr) →
  admissible e ∅ rows cols tr ∧ (∀ y, y ∈ rows → 0 ≤ y) ∧ (∀ x, x ∈ cols → 0 ≤ x) ∧
    (says_translated rows cols tr ↔ (wormhole.tensix_translated_coordinate_start_x <=? xy_x core_start) = true).
Proof.
  unfold exclusions. intros He. destruct (_ <=? _); cbn [negb] in He.
  - destruct translation; cbn [negb] in He; [|done]. injection He as <- <- <-.
    assert (∀ n lo hi i, 2 ≤ n → i ∈ {[ 16; 17 ]} ∪ outside 16 n lo hi → 16 ≤ i < 16 + n) as Hr.
    { intros n lo hi i Hn. rewrite !elem_of_union, !elem_of_singleton, elem_of_outside. lia. }
    split_and!; [split|..]; try done.
    + intros i Hi. apply Hr in Hi; [exact Hi|done].
    + intros i Hi. apply Hr in Hi; [exact Hi|done].
    + intros []. split; [exists 16|exists 17]; (split; [set_solver|done]).
    + by left.
    + intros y Hy. apply Hr in Hy; [lia|done].
    + intros y Hy. apply Hr in Hy; [lia|done].
    + split; [done|]. intros _. split; [exists 16|exists 17]; (split; [set_solver|done]).
  - destruct (partial_noc0_range _ _); [done|]. injection He as <- <- <-.
    assert (∀ a b i, i ∈ ({[ a; b ]} : gset Z) → i = a ∨ i = b) as Hi by (intros; set_solver).
    split_and!; [split|..]; try done.
    + intros i [-> | ->]%Hi; by vm_compute.
    + intros i [-> | ->]%Hi; by vm_compute.
    + intros Hn. destruct Hn. split; unfold excluded_col, virtual_of; set_solver.
    + intros _ _. right. left. intros y Hy [-> | ->]%Hi; unfold wormhole.T6_Y_LOCATIONS in Hy; rewrite !elem_of_cons, elem_of_nil in Hy; lia.
    + intros i [-> | ->]%Hi; lia.
    + intros i [-> | ->]%Hi; lia.
Qed.

Lemma single_target comm comm' c r b q :
  (∃ m, mmio_remote_comms (single_broadcast comm c) !! m = Some comm' ∧ target (single_broadcast comm c) ∅ m r b q) ↔
  comm' = comm ∧ (r, b, q) = (rack_of c, shelf_bit c, place_of c).
Proof.
  cbn. unfold target. cbn. split.
  - intros (m & [-> ->]%lookup_singleton_Some & chip & c' & [<- _]%lookup_singleton_Some & _ & [_ <-]%lookup_singleton_Some & -> & -> & ->). done.
  - intros [-> [= -> -> ->]]. exists 0. split; [done|]. by exists 0, c.
Qed.

Lemma get_broadcast_spec c p :
  protocol_ok c p →
  ∃ b, get_broadcast p = Ok b ∧
    bool_decide (is_Some b) = bool_decide (is_Some (ethernet_broadcast p)) || has_sysmem_manager p && bool_decide (local_arch p = WORMHOLE_B0) ∧
    ∀ e, b = Some e → cache_ok e ∧ same_topology (single_broadcast (remote_communication p) c) e.
Proof.
  intros (Hc & Hfit & Hb). unfold get_broadcast. destruct (ethernet_broadcast p) as [e|].
  - exists (Some e). split_and!; [done..|]. intros e' [= <-]. auto.
  - destruct (_ && _) eqn:E.
    + rewrite Hc. eexists. split; [done|]. split; [done|]. intros e [= <-]. split; [|done].
      intros excl hs. cbn. by rewrite lookup_empty.
    + exists None. by split_and!.
Qed.

Section RangeCorrect.
Context `{UnorderedLaws}.

(** C15: REMOTE CORE RANGES. A write to a rectangle of cores of a remote chip never
    throws. It is done by a broadcast exactly when the system memory is there on
    Wormhole and the rectangle is either in translated coordinates on a chip that
    translates, or the whole grid in NOC0 coordinates; otherwise nothing is
    written and the result is [false]. A broadcast writes the data, through the
    remote communication object of this chip and with the flag of its
    coordinates, to exactly the Tensix cores of the rectangle, of the chip at
    this chip's coordinates - whatever broadcasts were done before - and of
    those whose coordinates the header of a broadcast does not tell from its:
    none in the same rack ([one_rack_not_aliased]), but possibly one of another
    rack ([rack_shelf_aliased]). *)
Theorem write_to_core_range_correct c p mem core_start core_end address sent :
  protocol_ok c p →
  ∃ cmds p', write_to_core_range mem core_start core_end address (sent, p) =
      Ok (broadcastable p core_start core_end, (sent ++ cmds, p')) ∧
    protocol_ok c p' ∧
    if broadcastable p core_start core_end then
      (∀ cmd, cmd ∈ cmds → cmd_data cmd = mem ∧ cmd_address cmd = address ∧
        bit (cmd_header cmd) 4 15 = (wormhole.tensix_translated_coordinate_start_x <=? xy_x core_start)) ∧
      ∀ comm c' x y, fits c' → 0 ≤ x < 10 → 0 ≤ y < 12 →
        (∃ cmd, cmd ∈ cmds ∧ cmd_comm cmd = comm ∧ writes_chip cmd c' x y = true) ↔
        comm = remote_communication p ∧ (same_coordinates c' c ∨ aliased c' c) ∧ tensix_in_range core_start core_end x y
    else cmds = [].
Proof.
  intros Hp. destruct (get_broadcast_spec c p Hp) as (b & Hb & Hbb & He). destruct Hp as (Hc & Hfit & Hp).
  unfold write_to_core_range. rewrite Hb. cbn [mbind result_bind]. unfold broadcastable. rewrite <- Hbb.
  destruct b as [e|]; cbn; [|exists [], p; rewrite app_nil_r; by split_and!].
  destruct (He e eq_refl) as [Hcache Htop].
  pose proof (exclusions_Some p core_start core_end) as Hs. destruct (exclusions _ _ _) as [[[rows cols] tr]|] eqn:Ex.
  2:{ destruct (if _ <=? _ then _ else _); [by destruct (proj2 Hs eq_refl)|].
      exists [], (set_broadcast e p). rewrite app_nil_r. split; [done|]. split; [|done]. split; [done|]. split; [done|]. by intros ? [= <-]. }
  rewrite (proj1 Hs ltac:(by eexists)).
  destruct (exclusions_admissible _ _ _ _ _ _ e Ex) as (Had & Hr0 & Hc0 & Hflag).
  assert (targets_fit e ∅ ∧ comms_ok e) as [Htf Hco].
  { apply (targets_fit_topology _ _ ∅) in Htop as Htf; [|].
    - split; [exact Htf|]. destruct Htop as (_ & _ & Hm & Hcm). unfold comms_ok. rewrite Hm, Hcm.
      intros chip m. cbn. intros [_ <-]%lookup_singleton_Some. by eexists.
    - intros chip m. cbn. intros [<- _]%lookup_singleton_Some _. by exists c. }
  pose proof (broadcast_write_to_cluster_spec e ∅ rows cols tr mem address sent Hcache Htf Hco Hr0 Hc0) as Hbw.
  destruct (broadcast_write_to_cluster _ _ _ _ _ _ _) as [[sent' e']|err]; [|by destruct Hbw].
  destruct Hbw as (_ & Htop' & Hcache' & cmds & -> & Hre). cbn [mbind result_bind].
  exists cmds, (set_broadcast e' p). split; [done|]. split.
  { split; [done|]. split; [done|]. intros e0 [= <-]. split; [done|]. exact (same_topology_trans _ _ _ Htop Htop'). }
  apply (reaches_topology _ _ _ _ _ _ _ _ Htop) in Hre as [Hd Hre]. split.
  { intros cmd Hcmd. destruct (Hd cmd Hcmd) as (? & ? & Hbit). split; [done|]. split; [done|]. apply eq_true_iff_eq. by rewrite Hbit. }
  intros comm c' x y Hf Hx Hy. destruct (fits_ranges c' Hf) as (H1' & H2' & H3'). unfold writes_chip.
  rewrite (Hre comm _ _ _ x y H1' H2' H3' Hx Hy), single_target, (exclusions_select _ _ _ _ _ _ x y Ex Hx Hy), <- same_bits_cases.
  unfold same_bits. split; [intros [[-> [= -> -> ->]] ?]; by split_and!|]. intros (-> & (-> & -> & ->) & ?). by split_and!.
Qed.
End RangeCorrect.

(** A chip in the second rack, and a rectangle of two by three cores. *)
Definition remote_chip : RemoteProtocol := MkRemoteProtocol None 7 true WORMHOLE_B0 true (Some (MkEthCoord 0 1 2 1 0)).
Lemma remote_chip_ok : protocol_ok (MkEthCoord 0 1 2 1 0) remote_chip.
Proof. split; [done|]. split; [|done]. by vm_compute; intuition congruence. Qed.

Lemma write_to_core_range_correct_witness :
  ∃ cmds p', @write_to_core_range sorted_order [5] (XY 20 20) (XY 21 22) 0x1000 ([], remote_chip) = Ok (true, ([] ++ cmds, p')) ∧
    (∃ cmd, cmd ∈ cmds ∧ cmd_comm cmd = 7 ∧ writes_chip cmd (MkEthCoord 0 1 2 1 0) 3 4 = true) ∧
    ¬ (∃ cmd, cmd ∈ cmds ∧ cmd_comm cmd = 7 ∧ writes_chip cmd (MkEthCoord 0 1 2 1 0) 1 4 = true) ∧
    ¬ (∃ cmd, cmd ∈ cmds ∧ cmd_comm cmd = 7 ∧ writes_chip cmd (MkEthCoord 0 1 3 1 0) 3 4 = true).
Proof.
  destruct (@write_to_core_range_correct sorted_order sorted_order_laws (MkEthCoord 0 1 2 1 0) remote_chip [5] (XY 20 20) (XY 21 22) 0x1000 []
    remote_chip_ok) as (cmds & p' & Hrun & _ & _ & Hreach).
  assert (∀ y, y = 2 ∨ y = 3 → fits (MkEthCoord 0 1 y 1 0)) as Hfits by (intros y [-> | ->]; vm_compute; intuition congruence).
  exists cmds, p'. split; [exact Hrun|]. split; [|split].
  - apply Hreach; [apply Hfits; by left|lia..|]. split; [done|]. split; [by left|].
    split; [exists 20|exists 21]; (split; [by vm_compute|]); (split; [by vm_compute|reflexivity]).
  - intros H. apply Hreach in H as (_ & _ & (t & Ht1 & Ht2 & Ht3) & _); [|apply Hfits; by left|lia..].
    assert (t = 20 ∨ t = 21) as [-> | ->] by (cbn in Ht2; lia); by vm_compute in Ht3.
  - intros H. apply Hreach in H as (_ & [(_ & Hy & _)|[(_ & _ & Hp) _]] & _); [done|by vm_compute in Hp|apply Hfits; by right|lia..].
Defined.
