(* ===== verification/SocArch.v ===== *)
(** * SocArch

    The static description of an architecture: [SocArchDescriptor]
    ([soc_arch_descriptor.cpp]), filled from the constants of the architecture
    or from a YAML file, with the data derived from it. Files are a parameter:
    the parsed document of a path, if the file can be opened. *)

From Stdlib Require Import ZArith Lia.
From Stdlib Require Import Ascii.
From stdpp Require Import base gmap list strings numbers.
From S2P Require Import Prelude CoreTypes ArchData SemVer TextUtils.

Local Open Scope Z_scope.

Record CoreDescriptor := MkCoreDescriptor { coord : xy_pair; type : CoreType; l1_size : Z }.

Record SocArchDescriptor := MkArch {
  arch_ : ARCH;
  grid_size_ : xy_pair;
  tensix_cores_ : list xy_pair;
  dram_cores_ : list (list xy_pair);
  eth_cores_ : list xy_pair;
  firmware_cores_ : list xy_pair;
  pcie_cores_ : list xy_pair;
  router_cores_ : list xy_pair;
  security_cores_ : list xy_pair;
  l2cpu_cores_ : list xy_pair;
  dispatch_cores_ : list xy_pair;
  worker_l1_size_ : Z;
  eth_l1_size_ : Z;
  dram_bank_size_ : Z;
  noc0_x_to_noc1_x_ : list Z;
  noc0_y_to_noc1_y_ : list Z;
  overlay_version_ : Z;
  unpacker_version_ : Z;
  dst_size_alignment_ : Z;
  packer_version_ : Z;
  trisc_sizes_ : list Z;
  device_descriptor_file_path_ : string;
  cores_ : gmap xy_pair CoreDescriptor;
  worker_grid_size_ : xy_pair;
  dram_core_channel_map_ : gmap xy_pair (Z * Z);
  ethernet_core_channel_map_ : gmap xy_pair Z
}.

(** The members' initial values, with a file path. *)
Definition initial_arch (arch : ARCH) (path : string) : SocArchDescriptor :=
  MkArch arch (XY 0 0) [] [] [] [] [] [] [] [] [] 0 0 0 [] [] 0 0 0 0 [] path ∅ (XY 0 0) ∅ ∅.

(** ** Derived data *)

Definition count_distinct (zs : list Z) : Z := vec_size (remove_dups zs).
Definition calculate_grid_size (cores : list xy_pair) : xy_pair :=
  XY (count_distinct (map xy_x cores)) (count_distinct (map xy_y cores)).

(** [cores_.insert]: a core that is there already stays. *)
Definition insert_core (t : CoreType) (l1 : Z) (core : xy_pair) (m : gmap xy_pair CoreDescriptor) : gmap xy_pair CoreDescriptor :=
  map_insert_new core (MkCoreDescriptor core t l1) m.
Definition insert_cores (t : CoreType) (l1 : Z) (cores : list xy_pair) (m : gmap xy_pair CoreDescriptor) : gmap xy_pair CoreDescriptor :=
  foldl (λ m core, insert_core t l1 core m) m cores.
(** The index of each core, the last of equal cores. *)
Definition index_cores {A} (f : Z → A) (cores : list xy_pair) (m : gmap xy_pair A) : gmap xy_pair A :=
  (foldl (λ s core, (<[core := f s.2]> s.1, s.2 + 1)) (m, 0) cores).1.
Definition dram_channel_map (channels : list (list xy_pair)) : gmap xy_pair (Z * Z) :=
  (foldl (λ s channel, (index_cores (λ i, (s.2, i)) channel s.1, s.2 + 1)) (∅, 0) channels).1.

Definition build_derived_data (d : SocArchDescriptor) : SocArchDescriptor :=
  let cores := insert_cores ARC 0 (firmware_cores_ d) ∅ in
  let cores := insert_cores PCIE 0 (pcie_cores_ d) cores in
  let cores := foldl (λ m channel, insert_cores DRAM 0 channel m) cores (dram_cores_ d) in
  let cores := insert_cores ETH (eth_l1_size_ d) (eth_cores_ d) cores in
  let cores := insert_cores WORKER (worker_l1_size_ d) (tensix_cores_ d) cores in
  let cores := insert_cores ROUTER_ONLY 0 (router_cores_ d) cores in
  let cores := insert_cores SECURITY 0 (security_cores_ d) cores in
  let cores := insert_cores L2CPU 0 (l2cpu_cores_ d) cores in
  let cores := insert_cores DISPATCH 0 (dispatch_cores_ d) cores in
  MkArch (arch_ d) (grid_size_ d) (tensix_cores_ d) (dram_cores_ d) (eth_cores_ d) (firmware_cores_ d) (pcie_cores_ d)
    (router_cores_ d) (security_cores_ d) (l2cpu_cores_ d) (dispatch_cores_ d) (worker_l1_size_ d) (eth_l1_size_ d)
    (dram_bank_size_ d) (noc0_x_to_noc1_x_ d) (noc0_y_to_noc1_y_ d) (overlay_version_ d) (unpacker_version_ d)
    (dst_size_alignment_ d) (packer_version_ d) (trisc_sizes_ d) (device_descriptor_file_path_ d)
    cores
    (XY (count_distinct (map (λ c, i32 (xy_x c)) (tensix_cores_ d))) (count_distinct (map (λ c, i32 (xy_y c)) (tensix_cores_ d))))
    (dram_channel_map (dram_cores_ d))
    (index_cores (λ i, i) (eth_cores_ d) ∅).

(** ** Parsing *)

(** [std::atoi]: a value outside of [int] is undefined. *)
Definition atoi (s : string) : result Z :=
  let '(negative, digits) := signed_text s in
  let n := default 0 (read_digits None digits) in
  let z := if negative : bool then - n else n in
  if (- 2 ^ 31 <=? z) && (z <? 2 ^ 31) then Ok z else Err UndefinedBehaviour.

Definition dash : ascii := "-".
(** The text before and after the first dash. *)
Fixpoint split_dash (s : string) : option (string * string) :=
  match s with
  | EmptyString => None
  | String c s =>
      if Ascii.eqb c dash then Some (EmptyString, s)
      else match split_dash s with Some (a, b) => Some (String c a, b) | None => None end
  end.
Definition format_node (str : string) : result xy_pair :=
  match split_dash str with
  | Some (String _ _, String _ _ as rest) => x ← atoi str; y ← atoi rest; Ok (XY (u64 x) (u64 y))
  | _ => throw ("Could not parse core coordinate: " +:+ str)
  end.

(** [ltrim(rtrim(s))] with the white space of the "C" locale. *)
Fixpoint rtrim (s : string) : string :=
  match s with
  | EmptyString => EmptyString
  | String c s =>
      match rtrim s with
      | EmptyString => if is_space c then EmptyString else String c EmptyString
      | s' => String c s'
      end
  end.
Definition trim_ws (s : string) : string := skip_spaces (rtrim s).

Section Yaml.
Context `{YAML}.

Definition convert_to_tt_xy_pair (core_strings : list string) : result (list xy_pair) :=
  for_each core_strings (λ s acc, p ← format_node s; Ok (acc ++ [p])) [].
Definition cores_of_node (n : Node) : result (list xy_pair) := s ← as_strings n; convert_to_tt_xy_pair s.
Definition convert_dram_cores_from_yaml (yaml : Node) : result (list (list xy_pair)) :=
  for_each (y_items (y_get yaml "dram")) (λ channel acc, cs ← cores_of_node channel; Ok (acc ++ [cs])) [].
(** An optional node, with the member's present value. *)
Definition optional {A} (n : Node) (f : Node → result A) (present : A) : result A :=
  if IsDefined n then f n else Ok present.
(** [features[name][field]], when the features, the feature and its field are
    defined. *)
Definition feature (yaml : Node) (name field : string) (present : Z) : result Z :=
  let features := y_get yaml "features" in
  if IsDefined features && IsDefined (y_get features name) && IsDefined (y_get (y_get features name) field)
  then as_int (y_get (y_get features name) field) else Ok present.
Definition grid_of_yaml (yaml : Node) : result xy_pair :=
  x ← as_int (y_get (y_get yaml "grid") "x_size");
  y ← as_int (y_get (y_get yaml "grid") "y_size");
  Ok (XY (u64 x) (u64 y)).

Definition load_from_yaml (yaml : Node) (d : SocArchDescriptor) : result SocArchDescriptor :=
  grid ← grid_of_yaml yaml;
  arch_name_value ← as_string (y_get yaml "arch_name");
  tensix ← cores_of_node (y_get yaml "functional_workers");
  dram ← convert_dram_cores_from_yaml yaml;
  pcie ← cores_of_node (y_get yaml "pcie");
  eth ← cores_of_node (y_get yaml "eth");
  firmware ← cores_of_node (y_get yaml "arc");
  router ← cores_of_node (y_get yaml "router_only");
  l2cpu ← optional (y_get yaml "l2cpu") cores_of_node (l2cpu_cores_ d);
  security ← optional (y_get yaml "security") cores_of_node (security_cores_ d);
  dispatch ← optional (y_get yaml "dispatch") cores_of_node (dispatch_cores_ d);
  '(noc1_x, noc1_y) ←
    (if IsDefined (y_get yaml "noc0_x_to_noc1_x") then
       x ← as_u32s (y_get yaml "noc0_x_to_noc1_x");
       y ← as_u32s (y_get yaml "noc0_y_to_noc1_y");
       Ok (x, y)
     else Ok (noc0_x_to_noc1_x_ d, noc0_y_to_noc1_y_ d));
  worker_l1 ← as_u32 (y_get yaml "worker_l1_size");
  eth_l1 ← as_u32 (y_get yaml "eth_l1_size");
  dram_bank ← as_u64 (y_get yaml "dram_bank_size");
  overlay ← feature yaml "overlay" "version" (overlay_version_ d);
  unpacker ← feature yaml "unpacker" "version" (unpacker_version_ d);
  alignment ← feature yaml "math" "dst_size_alignment" (dst_size_alignment_ d);
  packer ← feature yaml "packer" "version" (packer_version_ d);
  Ok (MkArch (arch_from_str (trim_ws arch_name_value)) grid tensix dram eth firmware pcie router security l2cpu dispatch
    worker_l1 eth_l1 dram_bank noc1_x noc1_y overlay unpacker alignment packer (trisc_sizes_ d)
    (device_descriptor_file_path_ d) (cores_ d) (worker_grid_size_ d) (dram_core_channel_map_ d)
    (ethernet_core_channel_map_ d)).

Definition get_arch_from_path (files : string → result Node) (path : string) : result ARCH :=
  yaml ← files path; name ← as_string (y_get yaml "arch_name"); Ok (arch_from_str name).
Definition get_grid_size_from_path (files : string → result Node) (path : string) : result xy_pair :=
  yaml ← files path; grid_of_yaml yaml.

(** ** Construction *)

(** The constants of an architecture, over the members that are there. *)
Definition load_from_arch (d : SocArchDescriptor) : result SocArchDescriptor :=
  let constants grid tensix dram eth arc pcie router security l2cpu dispatch l1 eth_l1 bank noc1_x noc1_y :=
    Ok (MkArch (arch_ d) grid tensix dram eth arc pcie router security l2cpu dispatch l1 eth_l1 bank noc1_x noc1_y
      (overlay_version_ d) (unpacker_version_ d) (dst_size_alignment_ d) (packer_version_ d) (trisc_sizes_ d)
      (device_descriptor_file_path_ d) (cores_ d) (worker_grid_size_ d) (dram_core_channel_map_ d)
      (ethernet_core_channel_map_ d)) in
  match arch_ d with
  | WORMHOLE_B0 =>
      constants wormhole.GRID_SIZE wormhole.TENSIX_CORES_NOC0 wormhole.DRAM_CORES_NOC0 wormhole.ETH_CORES_NOC0
        wormhole.ARC_CORES_NOC0 wormhole.PCIE_CORES_NOC0 wormhole.ROUTER_CORES_NOC0 wormhole.SECURITY_CORES_NOC0
        wormhole.L2CPU_CORES_NOC0 (dispatch_cores_ d) wormhole.TENSIX_L1_SIZE wormhole.ETH_L1_SIZE wormhole.DRAM_BANK_SIZE
        wormhole.NOC0_X_TO_NOC1_X wormhole.NOC0_Y_TO_NOC1_Y
  | BLACKHOLE =>
      constants blackhole.GRID_SIZE blackhole.TENSIX_CORES_NOC0 blackhole.DRAM_CORES_NOC0 blackhole.ETH_CORES_NOC0
        blackhole.ARC_CORES_NOC0 blackhole.PCIE_CORES_NOC0 blackhole.ROUTER_CORES_NOC0 blackhole.SECURITY_CORES_NOC0
        blackhole.L2CPU_CORES_NOC0 (dispatch_cores_ d) blackhole.TENSIX_L1_SIZE blackhole.ETH_L1_SIZE blackhole.DRAM_BANK_SIZE
        blackhole.NOC0_X_TO_NOC1_X blackhole.NOC0_Y_TO_NOC1_Y
  | QUASAR =>
      constants grendel.GRID_SIZE grendel.TENSIX_CORES_NOC0 grendel.DRAM_CORES_NOC0 grendel.ETH_CORES_NOC0
        grendel.ARC_CORES_NOC0 grendel.PCIE_CORES_NOC0 grendel.ROUTER_CORES_NOC0 grendel.SECURITY_CORES_NOC0
        grendel.L2CPU_CORES_NOC0 grendel.DISPATCH_CORES_NOC0 grendel.TENSIX_L1_SIZE grendel.ETH_L1_SIZE grendel.DRAM_BANK_SIZE
        grendel.NOC0_X_TO_NOC1_X grendel.NOC0_Y_TO_NOC1_Y
  | Invalid => throw "Invalid architecture for creating SocArchDescriptor."
  end.

(** [init()]: the file is opened before it is parsed. *)
Definition init (can_open : string → bool) (files : string → result Node) (d : SocArchDescriptor) : result SocArchDescriptor :=
  let path := device_descriptor_file_path_ d in
  match path with
  | EmptyString => d ← load_from_arch d; Ok (build_derived_data d)
  | _ =>
      if can_open path then
        yaml ← files path;
        d ← load_from_yaml yaml d;
        Ok (build_derived_data d)
      else throw ("SoC descriptor file does not exist at path: " +:+ path)
  end.
(** The two constructors. The second leaves the architecture uninitialised before
    the file is read, so an empty path reads an indeterminate value. *)
Definition SocArchDescriptor_of_arch (arch : ARCH) : result SocArchDescriptor :=
  d ← load_from_arch (initial_arch arch EmptyString); Ok (build_derived_data d).
Definition SocArchDescriptor_of_path (can_open : string → bool) (files : string → result Node) (path : string)
    : result SocArchDescriptor :=
  match path with
  | EmptyString => Err UndefinedBehaviour
  | _ => init can_open files (initial_arch Invalid path)
  end.
End Yaml.
