(* ===== verification/SocDescriptor.v ===== *)
(** * SocDescriptor

    The description of a chip: [SocDescriptor] ([soc_descriptor.cpp]), which puts
    the coordinate manager of the chip on top of the static description of its
    architecture. A std::unordered_set is passed as the list of its elements;
    the YAML document that [serialize] emits is a [document]. *)

From Stdlib Require Import ZArith Lia.
From stdpp Require Import base gmap list list_numbers strings numbers.
From S2P Require Import DeviceAccess.
From S2P Require Import Prelude CoreTypes ArchData Harvesting CoordinateManager Managers.
From S2P Require Import BoardTypes TextUtils SocArch.

Local Open Scope Z_scope.

Record ChipInfo := MkChipInfo {
  ci_noc_translation_enabled : bool;
  ci_harvesting_masks : HarvestingMasks;
  ci_board_type : BoardType;
  ci_board_id : Z;
  ci_asic_location : Z
}.

(** Over the NOC1, the translated coordinates of the routers of Blackhole. *)
Definition ROUTER_NOC1_TO_TRANSLATED_BLACKHOLE : gmap xy_pair xy_pair :=
  list_to_map
    [(XY 15 11, XY 15 0); (XY 13 11, XY 13 0); (XY 12 11, XY 12 0); (XY 11 11, XY 11 0); (XY 10 11, XY 10 0);
     (XY 9 11, XY 9 0); (XY 6 11, XY 6 0); (XY 4 11, XY 4 0); (XY 3 11, XY 3 0); (XY 2 11, XY 2 0);
     (XY 1 11, XY 1 0); (XY 0 11, XY 0 0); (XY 8 10, XY 8 1); (XY 8 1, XY 8 10); (XY 8 3, XY 8 8);
     (XY 8 5, XY 8 6); (XY 8 7, XY 8 4); (XY 8 0, XY 8 11)].

Module Soc.
Record SocDescriptor := MkSoc {
  arch_desc : SocArchDescriptor;
  arch : ARCH;
  grid_size : xy_pair;
  trisc_sizes : list Z;
  device_descriptor_file_path : string;
  overlay_version : Z;
  unpacker_version : Z;
  dst_size_alignment : Z;
  packer_version : Z;
  worker_l1_size : Z;
  eth_l1_size : Z;
  dram_bank_size : Z;
  noc_translation : bool;
  masks : HarvestingMasks;
  coordinate_manager : Manager
}.

(** ** Construction *)

(** The layout that the coordinate manager is created with. *)
Definition layout_of (d : SocArchDescriptor) : Layout := {|
  tensix_grid_size := worker_grid_size_ d;
  tensix_cores := tensix_cores_ d;
  dram_grid_size := XY (vec_size (dram_cores_ d)) (match dram_cores_ d with [] => 0 | c :: _ => vec_size c end);
  dram_cores := concat (dram_cores_ d);
  eth_cores := eth_cores_ d;
  arc_grid_size := calculate_grid_size (firmware_cores_ d);
  arc_cores := firmware_cores_ d;
  pcie_grid_size := calculate_grid_size (pcie_cores_ d);
  pcie_cores := pcie_cores_ d;
  router_cores := router_cores_ d;
  security_cores := security_cores_ d;
  l2cpu_cores := l2cpu_cores_ d;
  dispatch_cores := dispatch_cores_ d;
  noc0_x_to_noc1_x := noc0_x_to_noc1_x_ d;
  noc0_y_to_noc1_y := noc0_y_to_noc1_y_ d
|}.
Definition create_coordinate_manager (d : SocArchDescriptor) (noc_translation : bool) (masks : HarvestingMasks)
    (board_type : BoardType) (asic_location : Z) : result Manager :=
  let pcie := pcie_harvesting_mask masks in
  if bool_decide (board_type = P150) && negb (pcie =? 0x2) then
    throw "P150 card should always have PCIe core (11, 0) harvested."
  else if bool_decide (board_type = P300) && (asic_location =? 0) && negb (pcie =? 0x2) then
    throw "P300 card left chip should always have PCIe core (11, 0) harvested."
  else if bool_decide (board_type = P300) && (asic_location =? 1) && negb (pcie =? 0x1) then
    throw "P300 card right chip should always have PCIe core (2, 0) harvested."
  else create_coordinate_manager_layout (arch_ d) noc_translation masks (layout_of d).

(** The constructor and [init_from_arch_descriptor]; [int] members take the
    [uint32_t] sizes. *)
Definition SocDescriptor_new (arch_desc : option SocArchDescriptor) (info : ChipInfo) : result SocDescriptor :=
  match arch_desc with
  | None => Err InvalidArgument
  | Some d =>
      cm ← create_coordinate_manager d (ci_noc_translation_enabled info) (ci_harvesting_masks info) (ci_board_type info)
             (ci_asic_location info);
      Ok (MkSoc d (arch_ d) (grid_size_ d) (trisc_sizes_ d) (device_descriptor_file_path_ d) (overlay_version_ d)
        (unpacker_version_ d) (dst_size_alignment_ d) (packer_version_ d) (i32 (worker_l1_size_ d)) (i32 (eth_l1_size_ d))
        (dram_bank_size_ d) (ci_noc_translation_enabled info) (ci_harvesting_masks info) cm)
  end.

(** ** Coordinates *)

Section Coordinates.
Context (soc : SocDescriptor).
Let cm : CoordinateManager := manager (coordinate_manager soc).
Let V : VirtualOps := virtual_ops (manager_class (coordinate_manager soc)).

Definition translate_coord_to (core : CoreCoord) (s : CoordSystem) : result CoreCoord :=
  CoordinateManager.translate_coord_to cm core s.
Definition get_coord_at (core : xy_pair) (s : CoordSystem) : result CoreCoord := CoordinateManager.get_coord_at cm core s.
Definition translate_pair_to (core : xy_pair) (from to : CoordSystem) : result CoreCoord :=
  CoordinateManager.translate_pair_to cm core from to.
(** Translating one core after the other. *)
Definition translate_coordinates (noc0_cores : list CoreCoord) (s : CoordSystem) : result (list CoreCoord) :=
  for_each noc0_cores (λ core acc, c ← translate_coord_to core s; Ok (acc ++ [c])) [].
Definition translate_coords_to (cores : list CoreCoord) (s : CoordSystem) : result (gset CoreCoord) :=
  cs ← translate_coordinates cores s; Ok (list_to_set cs).
Definition translate_coords_to_xy_pair (cores : list CoreCoord) (s : CoordSystem) : result (gset xy_pair) :=
  cs ← translate_coordinates cores s; Ok (list_to_set (map to_pair cs)).

(** ** Cores *)

Definition get_grid_size (t : CoreType) : result xy_pair := CoordinateManager.get_grid_size V cm t.
Definition get_harvested_grid_size (t : CoreType) : result xy_pair := CoordinateManager.get_harvested_grid_size V cm t.
Definition get_num_dram_channels : result Z := g ← get_grid_size DRAM; Ok (i32 (xy_x g)).

(** The filter of [get_cores] by channel. *)
Definition filter_by_channel (t : CoreType) (cores : list CoreCoord) (channel : Z) : result (list CoreCoord) :=
  _ ← umd_assert (bool_decide (t = DRAM)) "Core type must be DRAM when setting channel.";
  n ← get_num_dram_channels;
  _ ← umd_assert (channel <? u32 n) "Channel value exceeds number of DRAM channels.";
  for_each cores (λ core acc,
    logical_core ← translate_coord_to core LOGICAL;
    Ok (if cc_y logical_core =? channel then acc ++ [core] else acc)) [].
Definition get_cores (t : CoreType) (s : CoordSystem) (channel : option Z) : result (list CoreCoord) :=
  cores ← CoordinateManager.get_cores V cm t;
  cores ← match channel with Some c => filter_by_channel t cores c | None => Ok cores end;
  if decide (s = NOC0) then Ok cores else translate_coordinates cores s.
Definition get_harvested_cores (t : CoreType) (s : CoordSystem) : result (list CoreCoord) :=
  if decide (s = LOGICAL) then throw "Harvested cores are not supported for logical coordinates."
  else
    cores ← CoordinateManager.get_harvested_cores V cm t;
    if decide (s = NOC0) then Ok cores else translate_coordinates cores s.
Definition is_core_of_type (core : xy_pair) (t : CoreType) (s : CoordSystem) : result bool :=
  cores ← get_cores t s None;
  Ok (existsb (λ c, (cc_x c =? xy_x core) && (cc_y c =? xy_y core)) cores).

(** The types of [get_all_cores], in its order. *)
Definition queried_types : list CoreType := [TENSIX; DRAM; ETH; ARC; PCIE; ROUTER_ONLY; SECURITY; L2CPU; DISPATCH].
Definition get_all_cores (s : CoordSystem) : result (list CoreCoord) :=
  for_each queried_types (λ t acc, cores ← get_cores t s None; Ok (acc ++ cores)) [].
Definition get_all_harvested_cores (s : CoordSystem) : result (list CoreCoord) :=
  for_each queried_types (λ t acc, cores ← get_harvested_cores t s; Ok (acc ++ cores)) [].

Definition get_dram_cores : result (list (list CoreCoord)) :=
  dram_cores ← CoordinateManager.get_cores V cm DRAM;
  grid ← get_grid_size DRAM;
  for_each (seqZ 0 (xy_x grid)) (λ bank acc,
    row ← for_each (seqZ 0 (xy_y grid)) (λ noc_port row,
      core ← vec_idx dram_cores (u64 (bank * xy_y grid + noc_port)); Ok (row ++ [core])) [];
    Ok (acc ++ [row])) [].

(** ** Channels *)

Definition get_dram_core_for_channel (dram_chan subchannel : Z) (s : CoordSystem) : result CoreCoord :=
  translate_coord_to (MkCoreCoord (u64 dram_chan) (u64 subchannel) DRAM LOGICAL) s.
Definition get_dram_channel_for_core (core : CoreCoord) : result (Z * Z) :=
  c ← translate_coord_to core LOGICAL; Ok (i32 (cc_x c), i32 (cc_y c)).
Definition get_eth_core_for_channel (eth_chan : Z) (s : CoordSystem) : result CoreCoord :=
  translate_coord_to (MkCoreCoord 0 eth_chan ETH LOGICAL) s.
Definition get_eth_channel_for_core (core : CoreCoord) : result Z :=
  c ← translate_coord_to core LOGICAL; Ok (u32 (cc_y c)).
Definition eth_cores_of_channels (channels : list Z) (s : CoordSystem) : result (list CoreCoord) :=
  for_each channels (λ channel acc, c ← get_eth_core_for_channel channel s; Ok (acc ++ [c])) [].
Definition get_eth_cores_for_channels (channels : list Z) (s : CoordSystem) : result (gset CoreCoord) :=
  cs ← eth_cores_of_channels channels s; Ok (list_to_set cs).
Definition get_eth_xy_pairs_for_channels (channels : list Z) (s : CoordSystem) : result (gset xy_pair) :=
  cs ← eth_cores_of_channels channels s; Ok (list_to_set (map to_pair cs)).
Definition get_num_eth_channels : Z := CoordinateManager.get_num_eth_channels cm.
Definition get_num_harvested_eth_channels : Z := CoordinateManager.get_num_harvested_eth_channels cm.

(** ** Coordinates for an access over a NOC *)

Definition noc_system (noc_id : NocId) : CoordSystem := if decide (noc_id = DeviceAccess.NOC1) then NOC1 else NOC0.
Definition translate_chip_coord_to_translated_coord (core : CoreCoord) (noc_id : NocId) : result CoreCoord :=
  if decide (coord_system core = LITERAL) then Ok (CoreCoord_literal (to_pair core))
  else if negb (noc_translation soc) then translate_coord_to core (noc_system noc_id)
  else
    let translated : result CoreCoord :=
      if bool_decide (arch soc = WORMHOLE_B0) &&
         bool_decide (core_type core = DRAM ∨ core_type core = ARC ∨ core_type core = PCIE)
      then translate_coord_to core (noc_system noc_id)
      else translate_coord_to core TRANSLATED in
    if bool_decide (arch soc = BLACKHOLE) && bool_decide (noc_id = DeviceAccess.NOC1) then
      if decide (core_type core = ROUTER_ONLY) then
        noc1_core ← translate_coord_to core NOC1;
        match ROUTER_NOC1_TO_TRANSLATED_BLACKHOLE !! to_pair noc1_core with
        | Some p => Ok (CoreCoord_of_pair p ROUTER_ONLY TRANSLATED)
        | None => Err OutOfRange
        end
      else if decide (core_type core = ETH) then
        noc0_core ← translate_coord_to core NOC0;
        harvested_eth ← get_harvested_cores ETH NOC0;
        if bool_decide (noc0_core ∈ harvested_eth) then
          Ok (MkCoreCoord (u64 (xy_x (grid_size soc) - 1 - cc_x noc0_core)) (cc_y noc0_core) ETH TRANSLATED)
        else translated
      else translated
    else translated.
Definition translate_chip_coord_to_translated (core : CoreCoord) (noc_id : NocId) : result xy_pair :=
  c ← translate_chip_coord_to_translated_coord core noc_id; Ok (to_pair c).

(** ** The bounding rectangle *)

Definition before (a b : CoreCoord) : bool := (cc_x a <? cc_x b) || ((cc_x a =? cc_x b) && (cc_y a <? cc_y b)).
Definition get_bounding_rectangle (s : CoordSystem) (t : CoreType) : result (CoreCoord * CoreCoord) :=
  cores ← get_cores t s None;
  match cores with
  | [] => throw ("Cannot compute bounding rectangle: no cores of type " +:+ CoreType_to_str t +:+ " found.")
  | front :: _ =>
      Ok (foldl (λ '(upper_left, lower_right) core,
        (if before core upper_left then core else upper_left,
         if before lower_right core then core else lower_right)) (front, front) cores)
  end.

(** ** Serialization *)

Definition in_grid (core : CoreCoord) : bool := (cc_x core <? xy_x (grid_size soc)) && (cc_y core <? xy_y (grid_size soc)).
Definition write_coords (core : CoreCoord) (out : list document) : result (list document) :=
  if in_grid core then
    coords ← translate_coord_to core NOC0;
    Ok (out ++ [DText (to_string (cc_x coords) +:+ "-" +:+ to_string (cc_y coords))])
  else Ok out.
Definition write_core_locations (t : CoreType) : result document :=
  cores ← get_cores t NOC0 None; out ← for_each cores write_coords []; Ok (DSequence out).
(** Every bank has the number of ports of the first one: it is one sequence. *)
Definition serialize_dram_cores (cores : list (list CoreCoord)) : result document :=
  out ← for_each cores (λ bank out,
    if forallb in_grid bank then
      match bank with
      | [] => Ok out
      | _ => row ← for_each bank write_coords []; Ok (out ++ [DSequence row])
      end
    else Ok out) [];
  Ok (DSequence out).
Definition key (k : string) (v : document) : document * document := (DText k, v).
Definition serialize : result document :=
  arc ← write_core_locations ARC;
  pcie ← write_core_locations PCIE;
  banks ← get_dram_cores;
  dram ← serialize_dram_cores banks;
  eth ← write_core_locations ETH;
  workers ← write_core_locations TENSIX;
  router ← write_core_locations ROUTER_ONLY;
  security ← write_core_locations SECURITY;
  l2cpu ← write_core_locations L2CPU;
  dispatch ← write_core_locations DISPATCH;
  Ok (DMap
    [key "grid" (DMap [key "x_size" (DInt (xy_x (grid_size soc))); key "y_size" (DInt (xy_y (grid_size soc)))]);
     key "arc" arc; key "pcie" pcie; key "dram" dram; key "eth" eth; key "functional_workers" workers;
     key "router_only" router; key "security" security; key "l2cpu" l2cpu; key "dispatch" dispatch;
     key "worker_l1_size" (DInt (worker_l1_size soc)); key "dram_bank_size" (DInt (dram_bank_size soc));
     key "eth_l1_size" (DInt (eth_l1_size soc)); key "arch_name" (DText (arch_to_str (arch soc)));
     key "features" (DMap
       [key "noc" (DMap [key "translation_id_enabled" (DBool true)]);
        key "unpacker" (DMap [key "version" (DInt (unpacker_version soc));
          key "inline_srca_trans_without_srca_trans_instr" (DBool true)]);
        key "math" (DMap [key "dst_size_alignment" (DInt (dst_size_alignment soc))]);
        key "packer" (DMap [key "version" (DInt (packer_version soc))]);
        key "overlay" (DMap [key "version" (DInt (overlay_version soc))])])]).
End Coordinates.
End Soc.
