(* ===== verification/SocAddresses.v ===== *)
(** * SocAddresses

    The coordinates for accesses over a NOC
    ([SocDescriptor::translate_chip_coord_to_translated]): every core gets one,
    and two cores never get the same. *)

From Stdlib Require Import ZArith Lia.
From stdpp Require Import base gmap list list_numbers strings numbers.
From S2P Require Import DeviceAccess Prelude CoreTypes ArchData Harvesting CoordinateManager Managers CoordTheory CoordTable RowCoords WormholeCoords BlackholeCoords CoordProperties CoreQueries.
From S2P Require Import BoardTypes TextUtils SocArch SocDescriptor RowHarvestManagers.


(** ** Lemmas on descriptions

    A SoC descriptor of a supported configuration and the coordinate table that
    its manager implements; the coordinates it gives out for accesses. *)

Local Open Scope Z_scope.

(** The board checks of the constructor. *)
Definition board_ok (info : ChipInfo) : Prop :=
  let pcie := pcie_harvesting_mask (ci_harvesting_masks info) in
  (ci_board_type info = P150 → pcie = 2) ∧
  (ci_board_type info = P300 → (ci_asic_location info = 0 → pcie = 2) ∧ (ci_asic_location info = 1 → pcie = 1)).

(** A descriptor whose manager implements the table of its configuration. *)
Record soc_ok (arch : ARCH) (L : Layout) (M : HarvestingMasks) (b : bool) (soc : Soc.SocDescriptor) : Prop := {
  so_supported : supported arch L M b;
  so_arch : Soc.arch soc = arch;
  so_translation : Soc.noc_translation soc = b;
  so_class : manager_class (Soc.coordinate_manager soc) = class_of arch;
  so_manager : implements (coordinate_table arch L M b) L (masks_in_use arch L M) b (manager (Soc.coordinate_manager soc))
}.

Lemma create_board_ok d info :
  board_ok info →
  Soc.create_coordinate_manager d (ci_noc_translation_enabled info) (ci_harvesting_masks info) (ci_board_type info)
    (ci_asic_location info) =
  create_coordinate_manager_layout (arch_ d) (ci_noc_translation_enabled info) (ci_harvesting_masks info) (Soc.layout_of d).
Proof.
  intros [H150 H300]. unfold Soc.create_coordinate_manager.
  destruct (bool_decide_reflect (ci_board_type info = P150)) as [E|_]; [rewrite (H150 E), E|]; cbn [andb]; [done|].
  destruct (bool_decide_reflect (ci_board_type info = P300)) as [E|_]; [|done]. destruct (H300 E) as [H0 H1].
  destruct (Z.eqb_spec (ci_asic_location info) 0) as [E0|_]; [rewrite (H0 E0)|].
  - rewrite E0. done.
  - destruct (Z.eqb_spec (ci_asic_location info) 1) as [E1|_]; [by rewrite (H1 E1)|done].
Qed.

Lemma soc_new_ok d info :
  supported (arch_ d) (Soc.layout_of d) (ci_harvesting_masks info) (ci_noc_translation_enabled info) → board_ok info →
  ∃ soc, Soc.SocDescriptor_new (Some d) info = Ok soc ∧ Soc.arch_desc soc = d ∧ Soc.grid_size soc = grid_size_ d ∧
    soc_ok (arch_ d) (Soc.layout_of d) (ci_harvesting_masks info) (ci_noc_translation_enabled info) soc.
Proof.
  intros Hs Hb. unfold Soc.SocDescriptor_new. rewrite create_board_ok by done.
  destruct (create_implements _ _ _ _ Hs) as (cm & -> & Hcm). cbn [mbind result_bind]. eexists. split; [done|].
  split; [done|]. split; [done|]. by split.
Qed.

Section Soc.
Context (arch : ARCH) (L : Layout) (M : HarvestingMasks) (b : bool) (soc : Soc.SocDescriptor).
Context (Hsoc : soc_ok arch L M b soc).
Abbreviation T := (coordinate_table arch L M b).

Lemma soc_table_laws : TableLaws T.
Proof. pose proof (supported_naming _ _ _ _ (so_supported _ _ _ _ _ Hsoc)). apply _. Qed.
Lemma soc_translate c s c' :
  Soc.translate_coord_to soc c s = Ok c' ↔ ∃ p, T c p ∧ T c' p ∧ coord_system c' = s.
Proof.
  pose proof soc_table_laws. apply (translate_coord_to_spec T L (masks_in_use arch L M) b); [apply (so_manager _ _ _ _ _ Hsoc)|].
  apply coordinate_table_not_literal.
Qed.
Lemma soc_translate_exists c p c' : T c p → T c' p → Soc.translate_coord_to soc c (coord_system c') = Ok c'.
Proof. intros Hc Hc'. apply soc_translate. by exists p. Qed.
(** A translation names a core the table has, and that core only. *)
Lemma soc_translate_of c p s c' : T c p → Soc.translate_coord_to soc c s = Ok c' → T c' p ∧ coord_system c' = s.
Proof.
  intros Hc (p' & Hp' & Hc' & Hs)%soc_translate. pose proof soc_table_laws.
  by rewrite (table_functional c p p' Hc Hp').
Qed.
Lemma table_noc0 t p : p ∈ cores_of L t → T (CoreCoord_of_pair p t NOC0) p.
Proof. intros Hp. split; [done|]. by destruct p. Qed.
Lemma soc_noc0 c p : T c p → Soc.translate_coord_to soc c NOC0 = Ok (CoreCoord_of_pair p (core_type c) NOC0).
Proof. intros Hc. apply soc_translate. exists p. split; [done|]. destruct Hc. split; [by apply table_noc0|done]. Qed.

(** ** The cores *)

Lemma soc_harvested t g :
  unit_grids arch L M t = Some g → 0 ≤ ug_mask g < 2 ^ 64 → (arch, t) ≠ (BLACKHOLE, L2CPU) →
  ∃ harvested, Soc.get_harvested_cores soc t NOC0 = Ok harvested ∧ unit_cores g t (cores_of L t) (Z.testbit (ug_mask g)) harvested.
Proof.
  intros Hg Hm Hne. destruct (implemented_queries_split arch L M b _ t g (so_supported _ _ _ _ _ Hsoc) (so_manager _ _ _ _ _ Hsoc) Hg Hm Hne)
    as (used & harvested & _ & Hh & _ & Hspec). exists harvested.
  unfold Soc.get_harvested_cores. rewrite decide_False by done. rewrite (so_class _ _ _ _ _ Hsoc), Hh. cbn [mbind result_bind].
  rewrite decide_True by done. split; [done|]. by rewrite (impl_layout _ _ _ _ _ (so_manager _ _ _ _ _ Hsoc)) in Hspec.
Qed.
Lemma soc_used t g :
  unit_grids arch L M t = Some g → 0 ≤ ug_mask g < 2 ^ 64 → (arch, t) ≠ (BLACKHOLE, L2CPU) →
  ∃ used, Soc.get_cores soc t NOC0 None = Ok used ∧ unit_cores g t (cores_of L t) (kept (ug_mask g)) used.
Proof.
  intros Hg Hm Hne. destruct (implemented_queries_split arch L M b _ t g (so_supported _ _ _ _ _ Hsoc) (so_manager _ _ _ _ _ Hsoc) Hg Hm Hne)
    as (used & harvested & Hu & _ & Hspec & _). exists used.
  unfold Soc.get_cores. rewrite (so_class _ _ _ _ _ Hsoc), Hu. cbn [mbind result_bind].
  rewrite decide_True by done. split; [done|]. by rewrite (impl_layout _ _ _ _ _ (so_manager _ _ _ _ _ Hsoc)) in Hspec.
Qed.
End Soc.
Local Open Scope Z_scope.

(** ** The cores of a chip, by coordinate system *)

Section Cores.
Context (arch : ARCH) (L : Layout) (M : HarvestingMasks) (b : bool) (soc : Soc.SocDescriptor).
Context (Hsoc : soc_ok arch L M b soc).
Abbreviation T := (coordinate_table arch L M b).

(** A core in use of this type, at this coordinate. *)
Definition working (t : CoreType) (g : UnitGrid) (s : CoordSystem) (c : CoreCoord) : Prop :=
  core_type c = t ∧ coord_system c = s ∧ ∃ i j p, unit_core g (cores_of L t) i j p ∧ kept (ug_mask g) i = true ∧ T c p.

Lemma table_type c p t : T c p → p ∈ cores_of L t → core_type c = t.
Proof. intros [HT _] Hp. destruct (so_supported _ _ _ _ _ Hsoc) as [Hwf _]. by eapply wf_type. Qed.

Lemma translate_all used s : (∀ c, c ∈ used → ∃ c', Soc.translate_coord_to soc c s = Ok c') →
  ∃ cs, Soc.translate_coordinates soc used s = Ok cs ∧ ∀ c', c' ∈ cs ↔ ∃ c, c ∈ used ∧ Soc.translate_coord_to soc c s = Ok c'.
Proof.
  intros Hok. unfold Soc.translate_coordinates.
  apply (for_each_inv (λ seen acc, ∀ c', c' ∈ acc ↔ ∃ c, c ∈ seen ∧ Soc.translate_coord_to soc c s = Ok c')).
  - intros c'. split; [by intros ?%elem_of_nil|by intros (c & ?%elem_of_nil & _)].
  - intros seen core rest acc Hl IH. destruct (Hok core) as (c1 & Hc1); [rewrite Hl; apply elem_of_app; right; left|].
    rewrite Hc1. cbn [mbind result_bind]. exists (acc ++ [c1]). split; [done|]. intros c'. rewrite elem_of_app, IH, list_elem_of_singleton.
    setoid_rewrite elem_of_app. setoid_rewrite list_elem_of_singleton. split.
    + intros [(c & Hc & Ht)| ->]; [exists c; auto|exists core; auto].
    + intros (c & [Hc| ->] & Ht); [left; by exists c|right; congruence].
Qed.

Lemma cores_spec t g s :
  unit_grids arch L M t = Some g → 0 ≤ ug_mask g < 2 ^ 64 → (arch, t) ≠ (BLACKHOLE, L2CPU) → s = CoreTypes.NOC0 ∨ s = TRANSLATED →
  ∃ cores, Soc.get_cores soc t s None = Ok cores ∧ ∀ c, c ∈ cores ↔ working t g s c.
Proof.
  intros Hg Hm Hne Hs. destruct (soc_used _ _ _ _ _ Hsoc t g Hg Hm Hne) as (used & Hu & Hspec).
  assert (∀ c, c ∈ used ↔ working t g CoreTypes.NOC0 c) as Hused.
  { intros c. rewrite (Hspec c). split.
    - intros (i & j & p & Hcore & Hk & ->). split; [done|]. split; [done|]. exists i, j, p. split; [done|]. split; [done|].
      apply table_noc0. destruct Hcore as (_ & _ & Hp). by eapply list_elem_of_lookup_2.
    - intros (Ht & Hsys & i & j & p & Hcore & Hk & HT). exists i, j, p. split; [done|]. split; [done|].
      apply CoreCoord_ext; [|by rewrite Ht|by rewrite Hsys]. destruct HT as [_ HT]. rewrite Hsys in HT. rewrite HT. by destruct p. }
  destruct Hs as [->| ->]; [by exists used|].
  assert (∀ c, c ∈ used → ∃ c', Soc.translate_coord_to soc c TRANSLATED = Ok c') as Hex.
  { intros c (i & j & p & Hcore & Hk & ->)%Hspec. assert (p ∈ cores_of L t) as Hp.
    { destruct Hcore as (_ & _ & Hp). by eapply list_elem_of_lookup_2. }
    destruct (translated_total arch L M b t p (so_supported _ _ _ _ _ Hsoc) Hp) as (q & Hq).
    exists (CoreCoord_of_pair q t TRANSLATED).
    refine (soc_translate_exists _ _ _ _ _ Hsoc _ p (CoreCoord_of_pair q t TRANSLATED) (table_noc0 arch L M b t p Hp) _). split; [done|]. by destruct q. }
  destruct (translate_all used TRANSLATED Hex) as (cores & Hc & Hin).
  exists cores. split.
  { unfold Soc.get_cores in Hu |- *. destruct (CoordinateManager.get_cores _ _ t) as [l|]; [|discriminate]. cbn [mbind result_bind] in Hu |- *.
    rewrite decide_True in Hu by done. injection Hu as ->. by rewrite decide_False. }
  intros c. rewrite Hin. split.
  - intros (c0 & (i & j & p & Hcore & Hk & ->)%Hspec & Ht). assert (p ∈ cores_of L t) as Hp.
    { destruct Hcore as (_ & _ & Hp). by eapply list_elem_of_lookup_2. }
    destruct (soc_translate_of _ _ _ _ _ Hsoc _ p _ _ (table_noc0 arch L M b t p Hp) Ht) as [HT Hsys].
    split; [by eapply table_type|]. split; [done|]. by exists i, j, p.
  - intros (Ht & Hsys & i & j & p & Hcore & Hk & HT). assert (p ∈ cores_of L t) as Hp.
    { destruct Hcore as (_ & _ & Hp). by eapply list_elem_of_lookup_2. }
    exists (noc0_core t p). split; [apply Hspec; by exists i, j, p|]. rewrite <- Hsys.
    apply (soc_translate_exists _ _ _ _ _ Hsoc _ p); [by apply table_noc0|done].
Qed.
End Cores.

(** The types whose cores Wormhole reaches by their place in the NOC. *)
Definition noc_placed (arch : ARCH) (t : CoreType) : bool :=
  bool_decide (arch = WORMHOLE_B0) && bool_decide (t = DRAM ∨ t = ARC ∨ t = PCIE).
Definition noc_place (L : Layout) (noc : NocId) (p : xy_pair) : option xy_pair :=
  if decide (noc = DeviceAccess.NOC1) then noc1_of L p else Some p.

(** Where an access to the core at a NOC0 place goes. *)
Definition access_place (arch : ARCH) (L : Layout) (M : HarvestingMasks) (b : bool) (noc : NocId) (width : Z)
    (t : CoreType) (p q : xy_pair) : Prop :=
  if negb b || noc_placed arch t then noc_place L noc p = Some q
  else if bool_decide (arch = BLACKHOLE) && bool_decide (noc = DeviceAccess.NOC1) && bool_decide (t = ROUTER_ONLY) then
    ∃ n, noc1_of L p = Some n ∧ ROUTER_NOC1_TO_TRANSLATED_BLACKHOLE !! n = Some q
  else if bool_decide (arch = BLACKHOLE) && bool_decide (noc = DeviceAccess.NOC1) && bool_decide (t = ETH) then
    ∃ i, unit_core (channel_grid (eth_harvesting_mask (masks_in_use arch L M)) (vec_size (eth_cores L))) (eth_cores L) i 0 p ∧
      if kept (eth_harvesting_mask (masks_in_use arch L M)) i then translated_names arch L M b ETH q p
      else q = XY (u64 (width - 1 - xy_x p)) (xy_y p)
  else translated_names arch L M b t q p.

Section Access.
Context (arch : ARCH) (L : Layout) (M : HarvestingMasks) (b : bool) (soc : Soc.SocDescriptor).
Context (Hsoc : soc_ok arch L M b soc).
Abbreviation T := (coordinate_table arch L M b).

Lemma translate_noc c p noc c' :
  T c p → Soc.translate_coord_to soc c (Soc.noc_system noc) = Ok c' → noc_place L noc p = Some (to_pair c').
Proof.
  intros Hc Htr. destruct (soc_translate_of _ _ _ _ _ Hsoc _ _ _ _ Hc Htr) as [[_ HT] Hs].
  unfold Soc.noc_system, noc_place in *. destruct (decide (noc = DeviceAccess.NOC1)); rewrite Hs in HT; [done|by rewrite HT].
Qed.
Lemma translate_translated c p c' :
  T c p → Soc.translate_coord_to soc c TRANSLATED = Ok c' → translated_names arch L M b (core_type c) (to_pair c') p.
Proof.
  intros Hc Htr. destruct (soc_translate_of _ _ _ _ _ Hsoc _ _ _ _ Hc Htr) as [[Hin HT] Hs]. rewrite Hs in HT.
  destruct Hc as [Hin' _]. pose proof (so_supported _ _ _ _ _ Hsoc) as [Hwf _].
  by rewrite (wf_type _ Hwf _ _ _ Hin' Hin).
Qed.
(** The harvested Ethernet cores of Blackhole. *)
Context (Heth : arch = BLACKHOLE → 0 ≤ eth_harvesting_mask (masks_in_use arch L M) < 2 ^ 64).
Lemma harvested_eth p i :
  arch = BLACKHOLE →
  unit_core (channel_grid (eth_harvesting_mask (masks_in_use arch L M)) (vec_size (eth_cores L))) (eth_cores L) i 0 p →
  ∃ harvested, Soc.get_harvested_cores soc ETH NOC0 = Ok harvested ∧
    bool_decide (CoreCoord_of_pair p ETH NOC0 ∈ harvested) = negb (kept (eth_harvesting_mask (masks_in_use arch L M)) i).
Proof.
  intros HB Hu. pose proof (so_supported _ _ _ _ _ Hsoc) as Hsup.
  assert (unit_grids arch L M ETH = Some (channel_grid (eth_harvesting_mask (masks_in_use arch L M)) (vec_size (eth_cores L)))) as Hg.
  { rewrite HB. done. }
  destruct (soc_harvested arch L M b soc Hsoc ETH _ Hg) as (harvested & Hh & Hspec);
    [by apply Heth|by rewrite HB|]. exists harvested. split; [done|].
  pose proof (supported_naming _ _ _ _ Hsup) as HN. pose proof (naming_grid (L:=L) _ _ Hg) as Hok.
  unfold kept. rewrite negb_involutive. destruct (Z.testbit _ i) eqn:E.
  - apply bool_decide_eq_true_2. apply Hspec. by exists i, 0, p.
  - apply bool_decide_eq_false_2. intros (i' & j & p' & Hu' & Hbit & Heq)%Hspec. assert (p' = p) as ->.
    { destruct p, p'. unfold noc0_core, CoreCoord_of_pair in Heq. cbn in Heq. congruence. }
    destruct (unit_core_inj _ _ Hok _ _ _ _ _ Hu Hu') as [<- _]. cbn [ug_mask channel_grid] in Hbit. congruence.
Qed.

Lemma translate_by_place c p s :
  T c p → s ≠ LITERAL → Soc.translate_coord_to soc c s =
    match from_noc0_map (maps (manager (Soc.coordinate_manager soc))) !! (p, s) with
    | Some c' => Ok c' | None => throw "No core coordinate found for system" end.
Proof.
  intros Hc Hs. unfold Soc.translate_coord_to, CoordinateManager.translate_coord_to.
  rewrite decide_False by (by eapply coordinate_table_not_literal). rewrite decide_False by done.
  apply (impl_table _ _ _ _ _ (so_manager _ _ _ _ _ Hsoc)) in Hc. unfold has in Hc. rewrite Hc. by destruct (_ !! _).
Qed.
(** The place of an access depends on the core only. *)
Lemma access_same_core c c' p noc :
  T c p → T c' p →
  Soc.translate_chip_coord_to_translated soc c noc = Soc.translate_chip_coord_to_translated soc c' noc.
Proof.
  intros Hc Hc'. pose proof (so_supported _ _ _ _ _ Hsoc) as [Hwf _].
  assert (core_type c = core_type c') as Ht by (destruct Hc, Hc'; by eapply wf_type).
  assert (∀ s, s ≠ LITERAL → Soc.translate_coord_to soc c s = Soc.translate_coord_to soc c' s) as Hs.
  { intros s Hs. by rewrite !(translate_by_place _ p). }
  unfold Soc.translate_chip_coord_to_translated, Soc.translate_chip_coord_to_translated_coord.
  rewrite (decide_False (P := coord_system c = LITERAL)) by (by eapply coordinate_table_not_literal).
  rewrite (decide_False (P := coord_system c' = LITERAL)) by (by eapply coordinate_table_not_literal). rewrite Ht.
  assert (Soc.noc_system noc ≠ LITERAL) as Hn by (unfold Soc.noc_system; by destruct (decide _)).
  by rewrite (Hs NOC0), (Hs NOC1), (Hs TRANSLATED), (Hs (Soc.noc_system noc)).
Qed.

(** Every core has a NOC1 name, and every router an entry in the table. *)
Context (Hnoc1 : ∀ t p, p ∈ cores_of L t → is_Some (noc1_of L p)).
Context (Hrouter : arch = BLACKHOLE → ∀ p n, p ∈ cores_of L ROUTER_ONLY → noc1_of L p = Some n →
  is_Some (ROUTER_NOC1_TO_TRANSLATED_BLACKHOLE !! n)).

Lemma translate_noc_exists c p noc :
  T c p → ∃ c', Soc.translate_coord_to soc c (Soc.noc_system noc) = Ok c' ∧ noc_place L noc p = Some (to_pair c').
Proof.
  intros Hc. assert (∃ c', Soc.translate_coord_to soc c (Soc.noc_system noc) = Ok c') as [c' Hc'].
  { destruct (Hnoc1 _ _ (proj1 Hc)) as [n Hn]. destruct Hc as [Hin Hc].
    exists (CoreCoord_of_pair (if decide (noc = DeviceAccess.NOC1) then n else p) (core_type c) (Soc.noc_system noc)).
    apply (soc_translate _ _ _ _ _ Hsoc). exists p. split; [done|]. split; [|done]. split; [done|]. unfold Soc.noc_system.
    destruct (decide _); cbn [coord_system CoreCoord_of_pair]; [by destruct n|by destruct p]. }
  exists c'. split; [done|]. by eapply translate_noc.
Qed.
Lemma translate_translated_exists c p :
  T c p → ∃ c', Soc.translate_coord_to soc c TRANSLATED = Ok c' ∧ translated_names arch L M b (core_type c) (to_pair c') p.
Proof.
  intros Hc. assert (∃ c', Soc.translate_coord_to soc c TRANSLATED = Ok c') as [c' Hc'].
  { destruct (translated_total _ _ _ _ _ _ (so_supported _ _ _ _ _ Hsoc) (proj1 Hc)) as [q Hq]. destruct Hc as [Hin Hc].
    exists (CoreCoord_of_pair q (core_type c) TRANSLATED).
    apply (soc_translate _ _ _ _ _ Hsoc). exists p. split; [done|]. split; [|done]. split; [done|]. by destruct q. }
  exists c'. split; [done|]. by eapply translate_translated.
Qed.

Lemma access_spec c p noc :
  T c p → ∃ q, Soc.translate_chip_coord_to_translated soc c noc = Ok q ∧
    access_place arch L M b noc (xy_x (Soc.grid_size soc)) (core_type c) p q.
Proof.
  intros Hc. destruct (translate_noc_exists c p noc Hc) as (cn & Hn1 & Hn2).
  destruct (translate_translated_exists c p Hc) as (ct & Ht1 & Ht2).
  unfold Soc.translate_chip_coord_to_translated, Soc.translate_chip_coord_to_translated_coord, access_place.
  rewrite (decide_False (P := coord_system c = LITERAL)) by (by eapply coordinate_table_not_literal).
  rewrite (so_translation _ _ _ _ _ Hsoc), (so_arch _ _ _ _ _ Hsoc). destruct (negb b); cbn [orb].
  { rewrite Hn1. by exists (to_pair cn). }
  fold (noc_placed arch (core_type c)). destruct (noc_placed arch (core_type c)) eqn:EW.
  { destruct (bool_decide_reflect (arch = BLACKHOLE)) as [EB|_]; [by rewrite EB in EW|]. cbn [andb]. rewrite Hn1.
    by exists (to_pair cn). }
  destruct (bool_decide_reflect (arch = BLACKHOLE)) as [EB|_]; cbn [andb]; [|rewrite Ht1; by exists (to_pair ct)].
  destruct (bool_decide_reflect (noc = DeviceAccess.NOC1)) as [EN|_]; cbn [andb]; [|rewrite Ht1; by exists (to_pair ct)].
  subst noc. change (noc_place L DeviceAccess.NOC1 p) with (noc1_of L p) in Hn2. change (Soc.noc_system DeviceAccess.NOC1) with NOC1 in Hn1.
  destruct (decide (core_type c = ROUTER_ONLY)) as [ER|HR].
  { rewrite Hn1, (bool_decide_eq_true_2 _ ER). cbn [mbind result_bind andb].
    destruct (Hrouter EB p (to_pair cn)) as [q Hq]; [rewrite <- ER; apply Hc|done|]. rewrite Hq.
    exists q. split; [by destruct q|]. eauto. }
  rewrite (bool_decide_eq_false_2 _ HR).
  destruct (decide (core_type c = ETH)) as [EE|HE]; [|rewrite bool_decide_eq_false_2 by done; rewrite Ht1; by exists (to_pair ct)].
  rewrite (bool_decide_eq_true_2 _ EE). rewrite (soc_noc0 _ _ _ _ _ Hsoc c p Hc), EE. cbn [mbind result_bind].
  pose proof (supported_naming _ _ _ _ (so_supported _ _ _ _ _ Hsoc)) as HN.
  assert (unit_grids arch L M ETH = Some (channel_grid (eth_harvesting_mask (masks_in_use arch L M)) (vec_size (eth_cores L)))) as Hg.
  { rewrite EB. done. }
  pose proof (naming_grid (L:=L) _ _ Hg) as Hok. destruct Hc as [Hin Hc]. rewrite EE in Hin.
  destruct (unit_core_of _ _ Hok p Hin) as (i & j & Hu). pose proof Hu as (_ & Hj & _). cbn in Hj.
  assert (j = 0) as -> by lia. destruct (harvested_eth p i EB Hu) as (harvested & -> & Hmem). cbn [mbind result_bind].
  rewrite Hmem. destruct (kept _ i) eqn:Ek; cbn [negb].
  - rewrite Ht1. exists (to_pair ct). split; [done|]. exists i. rewrite Ek, <- EE. done.
  - eexists. split; [done|]. exists i. rewrite Ek. done.
Qed.
End Access.

(** ** Distinct cores have distinct places *)

Lemma NoDup_map_inj {A B} (f : A → B) l a a' : NoDup (map f l) → a ∈ l → a' ∈ l → f a = f a' → a = a'.
Proof.
  intros Hnd (i & Hi)%list_elem_of_lookup (i' & Hi')%list_elem_of_lookup Hf.
  assert (i = i') as <-; [|congruence]. eapply (NoDup_lookup (map f l)); [done|by apply list_lookup_fmap_Some_2|].
  rewrite Hf. by apply list_lookup_fmap_Some_2.
Qed.
Lemma noc_place_inj L noc t t' p p' q :
  wf_layout L → p ∈ cores_of L t → p' ∈ cores_of L t' → noc_place L noc p = Some q → noc_place L noc p' = Some q → p = p'.
Proof. unfold noc_place. intros Hwf. destruct (decide _); [by apply (noc1_of_inj L Hwf)|congruence]. Qed.

(** The types that Blackhole identifies with NOC0. *)
Definition fixed_cores (L : Layout) : list xy_pair :=
  arc_cores L ++ security_cores L ++ l2cpu_cores L ++ dispatch_cores L.

(** *** Wormhole *)

Section Wormhole.
Context (M : HarvestingMasks).
Abbreviation L := wormhole_layout.

Definition placed_cores : list xy_pair := dram_cores L ++ arc_cores L ++ pcie_cores L.
Definition placed_apart (noc : NocId) : bool :=
  forallb (λ p, match noc_place L noc p with
                | Some q => (xy_x q <? 16) && (xy_y q <? 16) &&
                    bool_decide (q ∉ router_cores L ++ security_cores L ++ l2cpu_cores L ++ dispatch_cores L)
                | None => false end) placed_cores.
Lemma placed_apart_noc noc : placed_apart noc = true.
Proof. destruct noc; vm_compute; reflexivity. Qed.
Lemma eth_translated_far : Forall (λ p, 16 ≤ xy_y (to_pair (RowHarvestManagers.Wormhole.eth_translated_coord p))) (eth_cores L).
Proof. apply (bool_decide_unpack _). vm_compute. exact I. Qed.

Lemma wormhole_mixed noc t t' p p' q :
  noc_placed WORMHOLE_B0 t = true → noc_placed WORMHOLE_B0 t' = false → p ∈ cores_of L t → p' ∈ cores_of L t' →
  noc_place L noc p = Some q → wormhole_translated L M true t' q p' → False.
Proof.
  intros Ht Ht' Hp Hp' Hq HT.
  assert (p ∈ placed_cores) as Hin.
  { unfold placed_cores. destruct t; try discriminate Ht; cbn [cores_of] in Hp; rewrite !elem_of_app; auto. }
  pose proof (proj1 (forallb_forall _ _) (placed_apart_noc noc) p (proj1 (list_elem_of_In _ _) Hin)) as Hap.
  cbv beta in Hap. rewrite Hq, !andb_true_iff, !Z.ltb_lt in Hap.
  destruct Hap as [[Hx Hy] Hnot%bool_decide_eq_true]. rewrite !not_elem_of_app in Hnot. destruct Hnot as (Hn1 & Hn2 & Hn3 & Hn4).
  destruct t'; try discriminate Ht'; try (by apply not_elem_of_nil in Hp'); cbn [cores_of wormhole_translated] in *; subst; try done.
  - destruct HT as (y & x & (_ & Hx0 & _) & ->). cbn [xy_x] in Hx. cbn in Hx0.
    unfold wormhole.tensix_translated_coordinate_start_x in Hx. lia.
  - pose proof (proj1 (list.Forall_forall _ _) eth_translated_far p' Hp'). cbv beta in *. lia.
Qed.
End Wormhole.

Section WormholePlaces.
Context (M : HarvestingMasks) (b : bool) (Hs : supported WORMHOLE_B0 wormhole_layout M b).
Abbreviation L := wormhole_layout.

Lemma wormhole_places noc width t t' p p' q :
  p ∈ cores_of L t → p' ∈ cores_of L t' →
  access_place WORMHOLE_B0 L M b noc width t p q → access_place WORMHOLE_B0 L M b noc width t' p' q → p = p'.
Proof.
  intros Hp Hp' Ha Ha'. pose proof Hs as [Hwf _]. pose proof (supported_naming _ _ _ _ Hs) as HN.
  unfold access_place in *. cbn [bool_decide andb decide decide_rel] in *.
  change (bool_decide (WORMHOLE_B0 = BLACKHOLE)) with false in *. cbn [andb] in *.
  destruct b; cbn [negb orb] in *; [|by eapply noc_place_inj].
  destruct (noc_placed WORMHOLE_B0 t) eqn:Et, (noc_placed WORMHOLE_B0 t') eqn:Et'.
  - by eapply noc_place_inj.
  - by destruct (wormhole_mixed _ _ _ _ _ _ _ Et Et' Hp Hp' Ha Ha').
  - by destruct (wormhole_mixed _ _ _ _ _ _ _ Et' Et Hp' Hp Ha' Ha).
  - by eapply (translated_place (L:=L)).
Qed.
End WormholePlaces.

(** *** Blackhole *)

(** A PCIE core without a translated coordinate of its own. *)
Definition unplaced (arch : ARCH) (L : Layout) (M : HarvestingMasks) (b : bool) (t : CoreType) (p : xy_pair) : Prop :=
  arch = BLACKHOLE ∧ b = true ∧ t = PCIE ∧ translated_names arch L M b PCIE p p.

Section BlackholePlaces.
Context (M : HarvestingMasks) (Hs : supported BLACKHOLE blackhole_layout M true).
Abbreviation L := blackhole_layout.
Abbreviation width := 17.

Definition router_place (p : xy_pair) : option xy_pair := n ← noc1_of L p; ROUTER_NOC1_TO_TRANSLATED_BLACKHOLE !! n.
Definition flip (p : xy_pair) : xy_pair := XY (u64 (width - 1 - xy_x p)) (xy_y p).
(** The places in the NOC grid, by type. *)
Definition grid_places (t : CoreType) : list xy_pair :=
  match t with
  | ROUTER_ONLY => omap router_place (router_cores L)
  | ETH => map flip (eth_cores L)
  | DRAM | PCIE => []
  | t => cores_of L t
  end.
Lemma router_places : NoDup (map router_place (router_cores L)).
Proof. apply (bool_decide_unpack _). vm_compute. exact I. Qed.
Lemma eth_flips : NoDup (map flip (eth_cores L)).
Proof. apply (bool_decide_unpack _). vm_compute. exact I. Qed.
Lemma grid_places_apart : NoDup (concat (map grid_places all_core_types)).
Proof. apply (bool_decide_unpack _). vm_compute. exact I. Qed.
Lemma grid_places_low : Forall (λ q, xy_y q < 12) (concat (map grid_places all_core_types)).
Proof. apply (bool_decide_unpack _). vm_compute. exact I. Qed.
Lemma grid_places_types t q : q ∈ grid_places t → t ∈ all_core_types.
Proof. destruct t; intros Hq; try (by apply not_elem_of_nil in Hq); apply list_elem_of_In; cbn; tauto. Qed.
Lemma grid_places_type t t' q : q ∈ grid_places t → q ∈ grid_places t' → t = t'.
Proof.
  intros Hq Hq'. pose proof (NoDup_concat_map _ _ grid_places_apart) as [_ H].
  apply (H t t' q); [by eapply grid_places_types|by eapply grid_places_types|done|done].
Qed.
Lemma grid_places_y t q : q ∈ grid_places t → xy_y q < 12.
Proof.
  intros Hq. apply (proj1 (list.Forall_forall _ _) grid_places_low). apply elem_of_concat_map. exists t.
  split; [by eapply grid_places_types|done].
Qed.

(** Over the NOC1, the zone of each type. *)
Abbreviation place := (access_place BLACKHOLE L M true DeviceAccess.NOC1 width).
Abbreviation eth_mask := (eth_harvesting_mask (masks_in_use BLACKHOLE L M)).
Lemma place_router p q : place ROUTER_ONLY p q ↔ router_place p = Some q.
Proof.
  unfold router_place. change (place ROUTER_ONLY p q) with
    (∃ n, noc1_of L p = Some n ∧ ROUTER_NOC1_TO_TRANSLATED_BLACKHOLE !! n = Some q). by rewrite bind_Some.
Qed.
Lemma place_other t p q : t ≠ ROUTER_ONLY → t ≠ ETH → place t p q ↔ translated_names BLACKHOLE L M true t q p.
Proof. by destruct t. Qed.
Lemma place_eth p q : place ETH p q ↔ ∃ i,
  unit_core (channel_grid eth_mask (vec_size (eth_cores L))) (eth_cores L) i 0 p ∧
  if kept eth_mask i then translated_names BLACKHOLE L M true ETH q p else q = flip p.
Proof. done. Qed.

Definition zone (t : CoreType) (q : xy_pair) : Prop :=
  q ∈ grid_places t ∨ (t = DRAM ∧ 12 ≤ xy_y q < 24) ∨ (t = PCIE ∧ xy_y q = 24) ∨ (t = ETH ∧ xy_y q = 25).
Lemma zone_type t t' q : zone t q → zone t' q → t = t'.
Proof.
  intros [Hq|[[-> ?]|[[-> ?]|[-> ?]]]] [Hq'|[[-> ?]|[[-> ?]|[-> ?]]]]; try done; try (by eapply grid_places_type);
    try (apply grid_places_y in Hq); try (apply grid_places_y in Hq'); lia.
Qed.
Lemma place_zone t p q : p ∈ cores_of L t → place t p q → ¬ unplaced BLACKHOLE L M true t p → zone t q.
Proof.
  intros Hp Hq Hun. destruct Hs as (Hwf & Hbh & _ & _ & Hd & _). unfold zone.
  assert (dram_mask_ok (dram_harvesting_mask (masks_in_use BLACKHOLE L M))) as Hd'.
  { cbn [masks_in_use]. unfold effective_masks. by destruct (_ <? _). }
  destruct (decide (t = ROUTER_ONLY)) as [->|HR].
  { apply place_router in Hq. left. apply list_elem_of_omap. by exists p. }
  destruct (decide (t = ETH)) as [->|HE].
  { apply place_eth in Hq as (i & Hu & Hq). destruct (kept eth_mask i) eqn:Ek.
    - destruct Hq as (i' & Hu' & ->). right; right; right. split; [done|].
      assert (i' = i) as ->; [|by rewrite Ek].
      by destruct (unit_core_inj _ _ (blackhole_grids_ok L (masks_in_use BLACKHOLE L M) ETH _ Hwf eq_refl) _ _ _ _ _ Hu' Hu).
    - subst q. left. apply list_elem_of_fmap. by exists p. }
  apply place_other in Hq; [|done..].
  destruct (decide (t = DRAM)) as [->|HD].
  { right; left. split; [done|]. by apply (blackhole_dram_region L (masks_in_use BLACKHOLE L M) Hbh Hd' q p). }
  destruct (blackhole_region L (masks_in_use BLACKHOLE L M) Hbh Hd' _ _ _ Hp Hq) as [Hin|[[-> _]|[[-> Hy]|[-> _]]]]; try done.
  - destruct (decide (t = PCIE)) as [->|HP]; [|left; by destruct t]. exfalso. apply Hun. split; [done|]. split; [done|].
    split; [done|]. enough (q = p) as <- by done. destruct Hq as (i & _ & ->). destruct (kept _ i && _); [|done].
    apply (wf_bounds _ Hwf) in Hin as [_ Hy]. cbn [xy_y] in Hy.
    unfold blackhole.pcie_translated_coordinate_start_y in Hy. lia.
  - tauto.
Qed.

Lemma place_same_type t p p' q : p ∈ cores_of L t → p' ∈ cores_of L t → place t p q → place t p' q → p = p'.
Proof.
  intros Hp Hp' Hq Hq'. pose proof (supported_naming _ _ _ _ Hs) as HN.
  destruct (decide (t = ROUTER_ONLY)) as [->|HR].
  { apply place_router in Hq, Hq'. apply (NoDup_map_inj router_place (router_cores L) p p' router_places); [done..|congruence]. }
  destruct (decide (t = ETH)) as [->|HE]; [|apply place_other in Hq, Hq'; [|done..]; by eapply (translated_place (L:=L))].
  assert (∀ p q, p ∈ cores_of L ETH → q = flip p → xy_y q = 25 → False) as Hflip.
  { intros p0 q0 Hin -> Hy. enough (xy_y (flip p0) < 12) by lia. apply (grid_places_y ETH), list_elem_of_fmap. by exists p0. }
  pose proof (blackhole_grids_ok L (masks_in_use BLACKHOLE L M) ETH _ (proj1 Hs) eq_refl) as Hok.
  assert (∀ p i, unit_core (channel_grid eth_mask (vec_size (eth_cores L))) (eth_cores L) i 0 p → kept eth_mask i = true →
    ∀ q, translated_names BLACKHOLE L M true ETH q p → xy_y q = 25) as Hkept.
  { intros p0 i Hu Hk q0 (i' & Hu' & ->). destruct (unit_core_inj _ _ Hok _ _ _ _ _ Hu' Hu) as [-> _]. by rewrite Hk. }
  apply place_eth in Hq as (i & Hu & Hq), Hq' as (i' & Hu' & Hq').
  destruct (kept eth_mask i) eqn:Ek, (kept eth_mask i') eqn:Ek'.
  - by eapply (translated_place (L:=L)).
  - exfalso. eauto.
  - exfalso. eauto.
  - apply (NoDup_map_inj flip (eth_cores L) p p' eth_flips); [done..|exact (eq_trans (eq_sym Hq) Hq')].
Qed.

Lemma place_noc0 noc t p q :
  noc ≠ DeviceAccess.NOC1 → access_place BLACKHOLE L M true noc width t p q = translated_names BLACKHOLE L M true t q p.
Proof. intros Hn. unfold access_place. by rewrite (bool_decide_eq_false_2 _ Hn). Qed.
Lemma blackhole_places noc t t' p p' q :
  p ∈ cores_of L t → p' ∈ cores_of L t' →
  access_place BLACKHOLE L M true noc width t p q → access_place BLACKHOLE L M true noc width t' p' q →
  (noc = DeviceAccess.NOC1 → ¬ unplaced BLACKHOLE L M true t p ∧ ¬ unplaced BLACKHOLE L M true t' p') → p = p'.
Proof.
  intros Hp Hp' Hq Hq' Hun. pose proof (supported_naming _ _ _ _ Hs) as HN.
  destruct (decide (noc = DeviceAccess.NOC1)) as [->|Hn].
  - destruct (Hun eq_refl). assert (t = t') as <-; [|by eapply place_same_type].
    apply (zone_type t t' q); by eapply place_zone.
  - rewrite place_noc0 in Hq, Hq' by done. by eapply (translated_place (L:=L)).
Qed.
End BlackholePlaces.

(** ** Coordinates of accesses

    What a SoC descriptor promises: the layout taken from an architecture's
    constants, the coordinates of accesses over a NOC, the channel queries, the
    bounding rectangle. *)

Local Open Scope Z_scope.

(** ** The static descriptions *)

Definition standard_layout (arch : ARCH) : Layout :=
  match arch with BLACKHOLE => blackhole_layout | QUASAR => quasar_layout | _ => wormhole_layout end.

Definition describes (arch : ARCH) (d : SocArchDescriptor) : Prop :=
  arch_ d = arch ∧ Soc.layout_of d = standard_layout arch ∧ xy_x (grid_size_ d) = (if bool_decide (arch = BLACKHOLE) then 17 else xy_x (grid_size_ d)).
Lemma arch_descriptor_describes arch d : SocArchDescriptor_of_arch arch = Ok d → describes arch d.
Proof.
  intros Hd. assert (match SocArchDescriptor_of_arch arch with Ok d => describes arch d | Err _ => True end) as H.
  { destruct arch; vm_compute; auto. }
  by rewrite Hd in H.
Qed.
Lemma arch_descriptor_layout arch d :
  SocArchDescriptor_of_arch arch = Ok d → arch_ d = arch ∧ Soc.layout_of d = standard_layout arch.
Proof. intros (Ha & HL & _)%arch_descriptor_describes. by split. Qed.
Lemma blackhole_descriptor_width d : SocArchDescriptor_of_arch BLACKHOLE = Ok d → xy_x (grid_size_ d) = 17.
Proof. by intros (_ & _ & Hw)%arch_descriptor_describes. Qed.

(** ** Accesses over a NOC *)

(** A PCIE core of Blackhole that has no translated coordinate of its own and
    is accessed over the NOC1. *)
Definition shared_place (arch : ARCH) (L : Layout) (M : HarvestingMasks) (b : bool) (noc : NocId) (t : CoreType) (p : xy_pair) : Prop :=
  noc = DeviceAccess.NOC1 ∧ unplaced arch L M b t p.

Lemma standard_noc1 arch t p : arch = WORMHOLE_B0 ∨ arch = BLACKHOLE → p ∈ cores_of (standard_layout arch) t →
  is_Some (noc1_of (standard_layout arch) p).
Proof.
  assert (forallb (λ p, bool_decide (is_Some (noc1_of wormhole_layout p))) (all_cores wormhole_layout) = true) as HW by by vm_compute.
  assert (forallb (λ p, bool_decide (is_Some (noc1_of blackhole_layout p))) (all_cores blackhole_layout) = true) as HB by by vm_compute.
  rewrite forallb_forall in HW, HB.
  intros Ha Hp%all_cores_of%list_elem_of_In. apply (bool_decide_unpack _), Is_true_eq_left. destruct Ha as [-> | ->]; auto.
Qed.
Lemma standard_router p n : p ∈ cores_of blackhole_layout ROUTER_ONLY → noc1_of blackhole_layout p = Some n →
  is_Some (ROUTER_NOC1_TO_TRANSLATED_BLACKHOLE !! n).
Proof.
  assert (forallb (λ p, match noc1_of blackhole_layout p with
    | Some n => bool_decide (is_Some (ROUTER_NOC1_TO_TRANSLATED_BLACKHOLE !! n)) | None => true end) (router_cores blackhole_layout) = true)
    as H by by vm_compute.
  rewrite forallb_forall in H. intros Hp%list_elem_of_In Hn. specialize (H p Hp). rewrite Hn in H. by apply bool_decide_eq_true in H.
Qed.
Lemma standard_eth_mask M b :
  supported BLACKHOLE blackhole_layout M b → 0 ≤ eth_harvesting_mask (masks_in_use BLACKHOLE blackhole_layout M) < 2 ^ 64.
Proof.
  intros (_ & _ & _ & [Hnil|[Hm _]] & _); [by exfalso|]. cbn [masks_in_use]. unfold effective_masks.
  assert (2 ^ vec_size (eth_cores blackhole_layout) = 2 ^ 14) as HE by done.
  destruct (_ <? _); cbn [eth_harvesting_mask]; lia.
Qed.
Lemma standard_places arch M b noc t t' p p' q :
  arch = WORMHOLE_B0 ∨ arch = BLACKHOLE →
  let L := standard_layout arch in
  supported arch L M b → p ∈ cores_of L t → p' ∈ cores_of L t' →
  access_place arch L M b noc 17 t p q → access_place arch L M b noc 17 t' p' q →
  ¬ shared_place arch L M b noc t p → ¬ shared_place arch L M b noc t' p' → p = p'.
Proof.
  intros Ha L Hs Hp Hp' Hq Hq' Hn Hn'. destruct Ha as [-> | ->]; [by eapply (wormhole_places M b Hs)|].
  destruct b.
  - eapply (blackhole_places M Hs); [done..|]. intros Hnoc. split; intros Hu; [apply Hn|apply Hn']; by split.
  - destruct Hs as [Hwf _]. by apply (noc_place_inj L noc t t' p p' q).
Qed.

(** C21: the coordinates the chip-level accesses use. For every supported
    configuration of a standard Wormhole or Blackhole the constructor returns a
    descriptor, and whatever coordinate of a core is given, over whatever NOC,
    [translate_chip_coord_to_translated] returns one place for the core: the
    same for all its coordinates, and never the place of another core - except
    for a Blackhole PCIE core without a translated coordinate of its own, over
    the NOC1. *)
Theorem chip_coords_distinct arch info d :
  arch = WORMHOLE_B0 ∨ arch = BLACKHOLE →
  SocArchDescriptor_of_arch arch = Ok d →
  let L := standard_layout arch in
  let M := ci_harvesting_masks info in
  let b := ci_noc_translation_enabled info in
  supported arch L M b → board_ok info →
  ∃ soc, Soc.SocDescriptor_new (Some d) info = Ok soc ∧
    ∀ noc c c' p p', coordinate_table arch L M b c p → coordinate_table arch L M b c' p' →
      ∃ q q', Soc.translate_chip_coord_to_translated soc c noc = Ok q ∧
        Soc.translate_chip_coord_to_translated soc c' noc = Ok q' ∧
        (p = p' → q = q') ∧
        (¬ shared_place arch L M b noc (core_type c) p → ¬ shared_place arch L M b noc (core_type c') p' → q = q' → p = p').
Proof.
  intros Ha Hd L M b Hs Hb. destruct (arch_descriptor_layout _ _ Hd) as [Harch HL].
  destruct (soc_new_ok d info) as (soc & Hnew & Hdesc & Hgrid & Hok); [by rewrite Harch, HL|done|].
  rewrite Harch, HL in Hok. fold L M b in Hok. exists soc. split; [done|]. intros noc c c' p p' Hc Hc'.
  assert (arch = BLACKHOLE → xy_x (Soc.grid_size soc) = 17) as Hw.
  { intros ->. rewrite Hgrid. by apply blackhole_descriptor_width. }
  assert (∀ c p, coordinate_table arch L M b c p → ∃ q, Soc.translate_chip_coord_to_translated soc c noc = Ok q ∧
    access_place arch L M b noc (xy_x (Soc.grid_size soc)) (core_type c) p q) as Hspec.
  { intros c0 p0. apply (access_spec _ _ _ _ _ Hok).
    - intros ->. by eapply standard_eth_mask.
    - intros t p1. by apply standard_noc1.
    - intros -> p1 n1. apply standard_router. }
  destruct (Hspec _ _ Hc) as (q & Hq & Hpq), (Hspec _ _ Hc') as (q' & Hq' & Hpq'). exists q, q'.
  split; [done|]. split; [done|]. split.
  - intros <-. rewrite (access_same_core _ _ _ _ _ Hok c c' p noc Hc Hc') in Hq. congruence.
  - intros Hn Hn' <-.
    assert (access_place arch L M b noc 17 (core_type c) p q ∧ access_place arch L M b noc 17 (core_type c') p' q) as [H1 H2].
    { destruct Ha as [-> | ->]; [by split|]. by rewrite !Hw in * by done. }
    eapply standard_places; [done|done|apply Hc|apply Hc'|exact H1|exact H2|done|done].
Qed.
