(* ===== verification/SocChannels.v ===== *)
(** * SocChannels

    The DRAM channels of a SoC descriptor: the cores a query lists bank by bank
    are those that the channel and subchannel name. *)

From Stdlib Require Import ZArith Lia.
From stdpp Require Import base gmap list list_numbers strings numbers.
From S2P Require Import Prelude CoreTypes ArchData Harvesting CoordinateManager Managers.
From S2P Require Import CoordTheory CoordTable RowCoords WormholeCoords BlackholeCoords CoordProperties CoreQueries.
From S2P Require Import BoardTypes TextUtils SocArch SocDescriptor SocAddresses.
From S2P Require BlackholeManager.

Local Open Scope Z_scope.

(** ** Rows of equal length *)

Definition dram_bank (cores : list xy_pair) (ports i : Z) : list CoreCoord :=
  map (λ j, noc0_core DRAM (core_or_origin cores (i * ports + j))) (seqZ 0 ports).
Definition dram_rows (cores : list xy_pair) (ports : Z) (units : list Z) : list (list CoreCoord) :=
  map (dram_bank cores ports) units.

Lemma map_lookup {A B} (f : A → B) l i : map f l !! i = match l !! i with Some a => Some (f a) | None => None end.
Proof. revert i. induction l as [|a l IH]; intros [|i]; [done..|]. apply IH. Qed.
Lemma concat_map_singleton {A B} (f : A → B) l : concat (map (λ a, [f a]) l) = map f l.
Proof. induction l as [|a l IH]; [done|]. cbn. by rewrite IH. Qed.
Lemma map_of_lookups {B} (f : Z → B) (l : list Z) :
  concat (map (λ k, [f (default 0 (l !! Z.to_nat k))]) (seqZ 0 (vec_size l))) = map f l.
Proof.
  induction l as [|a l IH] using rev_ind; [done|]. rewrite vec_size_app, map_app, <- IH. cbn [vec_size length].
  rewrite seqZ_snoc by (unfold vec_size; lia). rewrite map_app, concat_app. f_equal.
  - f_equal. apply map_ext_in. intros k Hk%list_elem_of_In%elem_of_seqZ. unfold vec_size in Hk. by rewrite lookup_app_l by lia.
  - cbn. unfold vec_size. rewrite Z.add_0_l, Nat2Z.id, lookup_app_r, Nat.sub_diag by done. done.
Qed.
Lemma dram_bank_size cores ports i : 0 ≤ ports → vec_size (dram_bank cores ports i) = ports.
Proof. intros. unfold dram_bank, vec_size. rewrite length_map, length_seqZ. lia. Qed.
Lemma lookup_seqZ_range m n j : 0 ≤ j < n → seqZ m n !! Z.to_nat j = Some (m + j).
Proof. intros Hj. rewrite lookup_seqZ_lt by lia. f_equal. lia. Qed.
Lemma dram_bank_lookup cores ports i j :
  0 ≤ j < ports → dram_bank cores ports i !! Z.to_nat j = Some (noc0_core DRAM (core_or_origin cores (i * ports + j))).
Proof.
  intros Hj. unfold dram_bank. by rewrite map_lookup, lookup_seqZ_range.
Qed.

Lemma concat_rows_lookup {A} (rows : list (list A)) m k j :
  0 ≤ j < m → 0 ≤ k → (∀ row, row ∈ rows → vec_size row = m) →
  concat rows !! Z.to_nat (k * m + j) = rows !! Z.to_nat k ≫= (.!! Z.to_nat j).
Proof.
  intros Hj Hk. revert k Hk. induction rows as [|row rows IH]; intros k Hk Hrows; [done|].
  cbn [concat]. assert (vec_size row = m) as Hrow by (apply Hrows; by left). unfold vec_size in Hrow.
  destruct (decide (k = 0)) as [->|Hne].
  - rewrite lookup_app_l by lia. by rewrite Z.mul_0_l, Z.add_0_l.
  - rewrite lookup_app_r by nia. replace (Z.to_nat (k * m + j) - length row)%nat with (Z.to_nat ((k - 1) * m + j)) by nia.
    rewrite IH; [|lia|intros; apply Hrows; by right]. replace (Z.to_nat k) with (S (Z.to_nat (k - 1))) by lia. done.
Qed.
Lemma concat_rows_size {A} (rows : list (list A)) m :
  (∀ row, row ∈ rows → vec_size row = m) → vec_size (concat rows) = vec_size rows * m.
Proof.
  induction rows as [|row rows IH]; intros Hrows; [done|]. cbn [concat]. rewrite vec_size_app, IH.
  - rewrite (Hrows row) by (by left). unfold vec_size. cbn [length]. lia.
  - intros. apply Hrows. by right.
Qed.

Lemma filter_seqZ_lookup sel n k i :
  0 ≤ n → 0 ≤ k → List.filter sel (seqZ 0 n) !! Z.to_nat k = Some i ↔ 0 ≤ i < n ∧ sel i = true ∧ rank sel i = k.
Proof.
  intros Hn Hk. revert n Hn. apply Z_range_ind.
  - split; [done|lia].
  - intros n Hn IH. rewrite seqZ_snoc, List.filter_app, Z.add_0_l by done. pose proof (rank_fold sel n) as Hr. unfold vec_size in Hr.
    destruct (decide (k < rank sel n)) as [Hlt|Hge].
    + rewrite lookup_app_l by lia. rewrite IH. split; intros (Hi & Hs & <-); [split; [lia|done]|].
      split; [|done]. enough (i ≠ n) by lia. intros ->. lia.
    + rewrite lookup_app_r by lia. cbn. destruct (sel n) eqn:Es.
      * split.
        -- intros [Hz <-]%list_lookup_singleton_Some. split; [lia|]. split; [done|lia].
        -- intros (Hi & Hs & Hrk). assert (i = n) as ->.
           { destruct (decide (i = n)); [done|]. pose proof (rank_lt sel i n ltac:(lia) Hs). lia. }
           apply list_lookup_singleton_Some. split; [lia|done].
      * split; [done|]. intros (Hi & Hs & Hrk). assert (i ≠ n) by congruence. pose proof (rank_lt sel i n ltac:(lia) Hs). lia.
Qed.

(** ** The banks in use *)

Section Soc.
Context (arch : ARCH) (L : Layout) (M : HarvestingMasks) (b : bool) (soc : Soc.SocDescriptor).
Context (Hsoc : soc_ok arch L M b soc).
Abbreviation T := (coordinate_table arch L M b).
Abbreviation cm := (manager (Soc.coordinate_manager soc)).
Abbreviation ports := (xy_y (dram_grid_size L)).
Abbreviation banks := (xy_x (dram_grid_size L)).

(** The mask that DRAM channels are harvested with. *)
Definition dram_mask : Z := match arch with BLACKHOLE => dram_harvesting_mask M | _ => 0 end.
Abbreviation units := (List.filter (kept dram_mask) (seqZ 0 banks)).

Lemma dram_grids : unit_grids arch L M DRAM = Some (bank_grid dram_mask (dram_grid_size L)).
Proof. unfold dram_mask, unit_grids. destruct arch; try done. cbn. unfold effective_masks. by destruct (_ <? _). Qed.
Lemma dram_grid_ok : unit_grid_ok (bank_grid dram_mask (dram_grid_size L)) (dram_cores L).
Proof.
  pose proof (so_supported _ _ _ _ _ Hsoc) as Hs. pose proof (supported_naming _ _ _ _ Hs).
  exact (naming_grid (L:=L) _ _ dram_grids).
Qed.
Lemma dram_mask_range : 0 ≤ dram_mask < 2 ^ 64.
Proof.
  unfold dram_mask. pose proof (so_supported _ _ _ _ _ Hsoc) as [_ Hs]. destruct arch; try lia.
  destruct Hs as (_ & _ & _ & [Hm _] & _). lia.
Qed.
Lemma dram_grid_bounds : 0 ≤ banks ≤ 31 ∧ 0 ≤ ports ≤ 31.
Proof. pose proof dram_grid_ok as Hok. split; [exact (ugo_outer _ _ Hok)|exact (ugo_inner _ _ Hok)]. Qed.

Lemma dram_rows_sizes row : row ∈ dram_rows (dram_cores L) ports units → vec_size row = ports.
Proof.
  unfold dram_rows. intros (i & <- & _)%list_elem_of_In%in_map_iff. apply dram_bank_size. pose proof dram_grid_bounds. lia.
Qed.

Lemma dram_cores_as_rows : map (noc0_core DRAM) (dram_cores L) = concat (dram_rows (dram_cores L) ports (seqZ 0 banks)).
Proof.
  pose proof (so_supported _ _ _ _ _ Hsoc) as [Hwf _]. destruct Hwf as (_ & _ & _ & _ & (Hb & Hp & Hs) & _).
  assert (∀ row, row ∈ dram_rows (dram_cores L) ports (seqZ 0 banks) → vec_size row = ports) as Hrows.
  { intros row (i & <- & _)%list_elem_of_In%in_map_iff. apply dram_bank_size. lia. }
  apply list_eq. intros n. destruct (decide (Z.of_nat n < vec_size (dram_cores L))) as [Hn|Hn].
  - destruct (row_major_surj banks ports (Z.of_nat n)) as (i & j & Hi & Hj & E); [lia..|].
    replace n with (Z.to_nat (i * ports + j)) by lia. rewrite (concat_rows_lookup _ ports) by (done || lia).
    unfold dram_rows. rewrite !map_lookup, lookup_seqZ_range by done. cbn [mbind option_bind].
    rewrite dram_bank_lookup by done.
    destruct (vec_lookup (dram_cores L) (i * ports + j)) as [p Hcore]; [lia|]. unfold core_or_origin. by rewrite Z.add_0_l, Hcore.
  - rewrite !lookup_ge_None_2; [done|..].
    + pose proof (concat_rows_size _ ports Hrows) as Hc. unfold dram_rows, vec_size in *. rewrite length_map, length_seqZ in Hc. nia.
    + rewrite length_map. unfold vec_size in Hn. lia.
Qed.

Lemma dram_num_harvested : arch = BLACKHOLE → get_num_harvested dram_mask = rank (Z.testbit dram_mask) banks.
Proof.
  intros Ha. pose proof dram_grid_bounds as [Hb _]. pose proof (so_supported _ _ _ _ _ Hsoc) as [_ Hs]. unfold dram_mask.
  rewrite Ha in *. destruct Hs as (_ & _ & _ & [Hm _] & H0 & _). apply get_num_harvested_rank; [lia|].
  destruct (decide (banks = 8)) as [->|Hne]; [lia|]. rewrite H0 by by right. lia.
Qed.

(** The query lists the cores of the banks in use, bank by bank. *)
Lemma dram_query :
  CoordinateManager.get_cores (virtual_ops (class_of arch)) cm DRAM = Ok (concat (dram_rows (dram_cores L) ports units)) ∧
  CoordinateManager.get_grid_size (virtual_ops (class_of arch)) cm DRAM = Ok (XY (rank (kept dram_mask) banks) ports).
Proof.
  pose proof (impl_layout _ _ _ _ _ (so_manager _ _ _ _ _ Hsoc)) as EL. pose proof (impl_masks _ _ _ _ _ (so_manager _ _ _ _ _ Hsoc)) as EM.
  pose proof dram_grid_ok as Hok. pose proof dram_mask_range as Hm. pose proof dram_grid_bounds as [Hb Hp].
  pose proof dram_num_harvested as Hnum.
  assert (arch ≠ BLACKHOLE →
    CoordinateManager.get_cores (virtual_ops (class_of arch)) cm DRAM = Ok (map (noc0_core DRAM) (dram_cores L)) ∧
    CoordinateManager.get_grid_size (virtual_ops (class_of arch)) cm DRAM = Ok (dram_grid_size L)) as Hrow.
  { intros Ha. rewrite <- EL. by destruct arch. }
  destruct (decide (arch = BLACKHOLE)) as [Ha|Ha].
  - clear Hrow. assert (dram_mask = dram_harvesting_mask (harvesting_masks cm)) as Hmask.
    { rewrite EM, Ha. unfold dram_mask. rewrite Ha. cbn. unfold effective_masks. by destruct (_ <? _). }
    rewrite Ha in *. cbn [class_of virtual_ops]. split.
    + change (BlackholeManager.dram_banks cm (λ x, bool_decide (x ∉ get_harvested_indices (dram_harvesting_mask (harvesting_masks cm))))
        = Ok (concat (dram_rows (dram_cores L) ports units))).
      unfold BlackholeManager.dram_banks. rewrite EL, <- Hmask.
      rewrite (collect_loop _ _ (λ i, if kept dram_mask i then dram_bank (dram_cores L) ports i else [])).
      * cbn [app]. f_equal. generalize (seqZ 0 banks). intros l. induction l as [|i l IH]; [done|]. cbn.
        destruct (kept dram_mask i); cbn; by rewrite IH.
      * intros i acc Hi%elem_of_seqZ. rewrite kept_sel by done. destruct (kept dram_mask i); [|by rewrite app_nil_r].
        rewrite (collect_loop _ _ (λ j, [noc0_core DRAM (core_or_origin (dram_cores L) (i * ports + j))])).
        -- by rewrite concat_map_singleton.
        -- intros j acc' Hj%elem_of_seqZ. destruct (core_at _ (dram_cores L) Hok i j) as [Hat _]; [cbn; lia..|].
           cbn [ug_index bank_grid] in Hat. by rewrite Hat.
    + change (Ok (XY (u64 (xy_x (dram_grid_size (layout cm)) - get_num_harvested (dram_harvesting_mask (harvesting_masks cm))))
        (xy_y (dram_grid_size (layout cm)))) = Ok (XY (rank (kept dram_mask) banks) ports)).
      rewrite EL, <- Hmask, Hnum, rank_kept by (done || lia). pose proof (rank_bounds (Z.testbit dram_mask) banks ltac:(lia)).
      by rewrite u64_small by lia.
  - destruct (Hrow Ha) as [-> ->]. assert (dram_mask = 0) as E0 by (unfold dram_mask; by destruct arch). split.
    + rewrite dram_cores_as_rows. f_equal. f_equal. f_equal. rewrite E0. generalize (seqZ 0 banks). intros l.
      induction l as [|i l IH]; [done|]. cbn [List.filter]. rewrite no_harvesting_kept. by rewrite <- IH.
    + f_equal. rewrite E0, rank_all by (lia || (intros; apply no_harvesting_kept)). by destruct (dram_grid_size L).
Qed.

(** ** Channels *)

Lemma i32_small z : - 2 ^ 31 ≤ z < 2 ^ 31 → i32 z = z.
Proof. intros. unfold i32. rewrite Z.mod_small by lia. lia. Qed.

(** Element [(k, j)] of the banks in use. *)
Lemma dram_rows_lookup k j c :
  0 ≤ k → 0 ≤ j < ports →
  dram_rows (dram_cores L) ports units !! Z.to_nat k ≫= (.!! Z.to_nat j) = Some c ↔
  ∃ i p, unit_core (bank_grid dram_mask (dram_grid_size L)) (dram_cores L) i j p ∧ kept dram_mask i = true ∧
    rank (kept dram_mask) i = k ∧ c = noc0_core DRAM p.
Proof.
  intros Hk Hj. pose proof dram_grid_bounds as [Hb Hp]. unfold dram_rows. rewrite map_lookup.
  pose proof (filter_seqZ_lookup (kept dram_mask) banks k) as Hf. split.
  - destruct (units !! Z.to_nat k) as [i|] eqn:E; [|done]. cbn [mbind option_bind]. rewrite dram_bank_lookup by done. intros [= <-].
    destruct (proj1 (Hf i ltac:(lia) Hk) eq_refl) as (Hi & Hs & Hr). exists i, (core_or_origin (dram_cores L) (i * ports + j)).
    destruct (core_at _ (dram_cores L) dram_grid_ok i j Hi Hj) as [_ Hu]. done.
  - intros (i & p & (Hi & _ & Hcore) & Hs & Hr & ->). rewrite (proj2 (Hf i ltac:(lia) Hk)) by done. cbn [mbind option_bind].
    rewrite dram_bank_lookup by done. cbn [ug_index bank_grid] in Hcore. unfold core_or_origin. by rewrite Hcore.
Qed.

Lemma soc_dram_cores :
  Soc.get_dram_cores soc = Ok (dram_rows (dram_cores L) ports units) ∧
  Soc.get_num_dram_channels soc = Ok (rank (kept dram_mask) banks).
Proof.
  destruct dram_query as [Hq Hg]. pose proof dram_grid_bounds as [Hb Hp].
  pose proof (rank_bounds (kept dram_mask) banks ltac:(lia)) as Hr.
  unfold Soc.get_dram_cores, Soc.get_num_dram_channels, Soc.get_grid_size. rewrite (so_class _ _ _ _ _ Hsoc), Hg, Hq.
  cbn [mbind result_bind xy_x xy_y]. split; [|by rewrite i32_small by lia].
  rewrite (collect_loop _ _ (λ k, [dram_bank (dram_cores L) ports (default 0 (units !! Z.to_nat k))])).
  - f_equal. cbn [app]. rewrite <- (rank_fold _ banks). unfold dram_rows. apply map_of_lookups.
  - intros k acc Hk%elem_of_seqZ. assert (∃ i, units !! Z.to_nat k = Some i) as [i Hi].
    { destruct (rank_surj (kept dram_mask) banks k) as (i & Hi); [lia..|]. exists i. apply filter_seqZ_lookup; [lia..|]. done. }
    rewrite Hi. cbn [default from_option id].
    rewrite (collect_loop _ _ (λ j, [noc0_core DRAM (core_or_origin (dram_cores L) (i * ports + j))])).
    + by rewrite concat_map_singleton.
    + intros j acc' Hj%elem_of_seqZ. rewrite u64_small by nia.
      rewrite (vec_idx_Some _ _ (noc0_core DRAM (core_or_origin (dram_cores L) (i * ports + j)))); [done|].
      rewrite (concat_rows_lookup _ ports) by (lia || apply dram_rows_sizes).
      unfold dram_rows. rewrite map_lookup, Hi. cbn [mbind option_bind]. apply dram_bank_lookup. lia.
Qed.

Lemma noc0_core_table t p : p ∈ cores_of L t → T (noc0_core t p) p.
Proof. intros Hp. split; [done|]. by destruct p. Qed.
Lemma channel_name ch sub p :
  T (MkCoreCoord ch sub DRAM LOGICAL) p ↔ grid_naming (bank_grid dram_mask (dram_grid_size L)) (dram_cores L) (XY ch sub) p.
Proof.
  unfold coordinate_table, table, logical_names. cbn [core_type coord_system to_pair cc_x cc_y]. rewrite dram_grids. split.
  - by intros [_ HT].
  - intros Hn. split; [|done]. destruct Hn as (i & j & Hu & _). by eapply unit_core_elem.
Qed.
Lemma dram_channel_core ch sub c :
  0 ≤ ch < 2 ^ 31 → 0 ≤ sub < 2 ^ 31 →
  Soc.get_dram_core_for_channel soc ch sub NOC0 = Ok c ↔
  ∃ i p, unit_core (bank_grid dram_mask (dram_grid_size L)) (dram_cores L) i sub p ∧ kept dram_mask i = true ∧
    rank (kept dram_mask) i = ch ∧ c = noc0_core DRAM p.
Proof.
  intros Hch Hsub. unfold Soc.get_dram_core_for_channel. rewrite !u64_small by lia.
  rewrite (soc_translate _ _ _ _ _ Hsoc). split.
  - intros (p & Hn%channel_name & Hc & Hs). destruct Hn as (i & j & Hu & Hk & [= -> ->]).
    exists i, p. split; [done|]. split; [done|]. split; [done|]. destruct Hc as [Hin HT]. rewrite Hs in HT. subst p.
    pose proof (so_supported _ _ _ _ _ Hsoc) as [Hwf _].
    pose proof (wf_type _ Hwf _ DRAM _ Hin (unit_core_elem _ _ _ _ _ Hu)) as Ht.
    destruct c. cbn in *. by subst.
  - intros (i & p & Hu & Hk & <- & ->). exists p. split; [|split; [|done]].
    + apply channel_name. by exists i, sub.
    + apply noc0_core_table. by eapply unit_core_elem.
Qed.
(** A core of the banks in use and its logical coordinate. *)
Lemma dram_row_core c :
  c ∈ concat (dram_rows (dram_cores L) ports units) →
  ∃ i j p, unit_core (bank_grid dram_mask (dram_grid_size L)) (dram_cores L) i j p ∧ kept dram_mask i = true ∧
    c = noc0_core DRAM p ∧ Soc.translate_coord_to soc c LOGICAL = Ok (MkCoreCoord (rank (kept dram_mask) i) j DRAM LOGICAL).
Proof.
  intros (row & Hrow & Hc)%list_elem_of_In%in_concat. apply in_map_iff in Hrow as (i & <- & [Hi%list_elem_of_In Hk]%List.filter_In).
  apply in_map_iff in Hc as (j & <- & Hj%list_elem_of_In). apply elem_of_seqZ in Hi, Hj.
  destruct (core_at _ (dram_cores L) dram_grid_ok i j) as [_ Hu]; [cbn; lia..|].
  exists i, j, (core_or_origin (dram_cores L) (i * ports + j)). split; [done|]. split; [done|]. split; [done|].
  apply (soc_translate _ _ _ _ _ Hsoc). eexists. split; [|split; [|done]].
  - apply noc0_core_table. by eapply unit_core_elem.
  - apply channel_name. by exists i, j.
Qed.
Lemma channel_of_dram_core c p ch sub :
  T c p → T (MkCoreCoord ch sub DRAM LOGICAL) p → 0 ≤ ch < 2 ^ 31 → 0 ≤ sub < 2 ^ 31 →
  Soc.get_dram_channel_for_core soc c = Ok (ch, sub).
Proof.
  intros Hc Hl Hch Hsub. unfold Soc.get_dram_channel_for_core.
  rewrite (soc_translate_exists _ _ _ _ _ Hsoc c p _ Hc Hl : Soc.translate_coord_to soc c LOGICAL = _).
  cbn [mbind result_bind cc_x cc_y]. by rewrite !i32_small by lia.
Qed.
End Soc.

(** The rows list the cores by channel and subchannel: each place has the core
    of its two numbers, which lead back from any of the core's coordinates. *)
Definition lists_channels (soc : Soc.SocDescriptor) (banks : list (list CoreCoord)) : Prop :=
  ∀ ch sub, 0 ≤ ch < 2 ^ 31 → 0 ≤ sub < 2 ^ 31 →
    (∀ c, Soc.get_dram_core_for_channel soc ch sub NOC0 = Ok c ↔ banks !! Z.to_nat ch ≫= (.!! Z.to_nat sub) = Some c) ∧
    (∀ s c, Soc.get_dram_core_for_channel soc ch sub s = Ok c → Soc.get_dram_channel_for_core soc c = Ok (ch, sub)).

(** C23: the DRAM channels of a SoC descriptor. [get_dram_cores] returns a row
    for each channel in use and the core at place [(ch, sub)] is the one
    [get_dram_core_for_channel] gives for the channel and subchannel, which it
    gives for no others; the coordinate of that core in any system leads
    [get_dram_channel_for_core] back to the two numbers. *)
Theorem dram_channels_roundtrip d info :
  supported (arch_ d) (Soc.layout_of d) (ci_harvesting_masks info) (ci_noc_translation_enabled info) → board_ok info →
  ∃ soc banks n, Soc.SocDescriptor_new (Some d) info = Ok soc ∧ Soc.get_dram_cores soc = Ok banks ∧
    Soc.get_num_dram_channels soc = Ok n ∧ vec_size banks = n ∧ lists_channels soc banks.
Proof.
  intros Hs Hb. destruct (soc_new_ok d info Hs Hb) as (soc & Hnew & _ & _ & Hok).
  destruct (soc_dram_cores _ _ _ _ _ Hok) as [Hbanks Hn]. eexists soc, _, _. split; [done|]. split; [done|]. split; [done|].
  split. { unfold dram_rows, vec_size. rewrite length_map. exact (rank_fold _ _). }
  intros ch sub Hch Hsub. split.
  - intros c. rewrite (dram_channel_core _ _ _ _ _ Hok) by done.
    destruct (decide (sub < xy_y (dram_grid_size (Soc.layout_of d)))) as [Hlt|Hge].
    + by rewrite (dram_rows_lookup _ _ _ _ _ Hok) by lia.
    + split; [intros (i & p & (_ & Hj & _) & _); by destruct (Hge (proj2 Hj))|].
      intros (row & Hrow & Hc)%bind_Some. exfalso. apply Hge.
      pose proof (dram_rows_sizes _ _ _ _ _ Hok row (list_elem_of_lookup_2 _ _ _ Hrow)) as Hsize.
      pose proof (lookup_lt_Some _ _ _ Hc). unfold vec_size in Hsize. lia.
  - intros s c Hc. unfold Soc.get_dram_core_for_channel in Hc. rewrite !u64_small in Hc by lia.
    apply (soc_translate _ _ _ _ _ Hok) in Hc as (p & Hl & Hc & _). by eapply channel_of_dram_core.
Qed.

(** The optional channel of [get_cores] does not select a channel: it is
    compared with the subchannel. *)
Lemma get_cores_channel_is_subchannel arch L M b soc n ch :
  soc_ok arch L M b soc → Soc.get_num_dram_channels soc = Ok n → 0 ≤ ch < n →
  ∃ cores, Soc.get_cores soc DRAM NOC0 (Some ch) = Ok cores ∧
    ∀ c, c ∈ cores ↔ ∃ k, 0 ≤ k < 2 ^ 31 ∧ Soc.get_dram_core_for_channel soc k ch NOC0 = Ok c.
Proof.
  intros Hok Hn Hch. pose proof (dram_query _ _ _ _ _ Hok) as [Hq _]. pose proof (dram_grid_bounds _ _ _ _ _ Hok) as [Hb Hp].
  pose proof (soc_dram_cores _ _ _ _ _ Hok) as [_ Hn']. rewrite Hn in Hn'. injection Hn' as ->.
  pose proof (rank_bounds (kept (dram_mask arch M)) (xy_x (dram_grid_size L)) ltac:(lia)) as Hr.
  set (rows := concat _) in Hq. pose proof (dram_row_core _ _ _ _ _ Hok) as Hrows. fold rows in Hrows.
  unfold Soc.get_cores, Soc.filter_by_channel. rewrite (so_class _ _ _ _ _ Hok), Hq. cbn [mbind result_bind].
  rewrite Hn. cbn [mbind result_bind]. change (umd_assert (bool_decide (DRAM = DRAM)) _) with (Ok tt). cbn [mbind result_bind].
  rewrite u32_small, (proj2 (Z.ltb_lt _ _)) by lia. cbn [umd_assert mbind result_bind].
  set (keep c := match Soc.translate_coord_to soc c LOGICAL with Ok l => if cc_y l =? ch then [c] else [] | Err _ => [] end).
  rewrite (collect_loop _ _ keep); cycle 1.
  { intros c acc (i & j & p & _ & _ & _ & Ht)%Hrows. unfold keep. rewrite Ht. cbn [mbind result_bind cc_y].
    destruct (_ =? _); [done|by rewrite app_nil_r]. }
  cbn [mbind result_bind app]. rewrite decide_True by done. eexists. split; [done|]. intros c. rewrite elem_of_concat_map. split.
  - intros (c' & Hc' & Hin). destruct (Hrows _ Hc') as (i & j & p & Hu & Hk & E & Ht). unfold keep in Hin. rewrite Ht in Hin.
    cbn [cc_y] in Hin. destruct (Z.eqb_spec j ch) as [Ej|]; [rewrite Ej in Hu|by apply not_elem_of_nil in Hin].
    apply list_elem_of_singleton in Hin. subst c'. subst c. pose proof Hu as (Hi & _).
    pose proof (rank_lt _ _ _ Hi Hk). pose proof (rank_bounds (kept (dram_mask arch M)) i ltac:(lia)).
    exists (rank (kept (dram_mask arch M)) i). split; [cbn in *; lia|].
    apply (dram_channel_core _ _ _ _ _ Hok); [cbn in *; lia..|]. by exists i, p.
  - intros (k & Hk & Hc). apply (dram_channel_core _ _ _ _ _ Hok) in Hc as (i & p & Hu & Hkept & <- & ->); [|lia..].
    exists (noc0_core DRAM p). assert (noc0_core DRAM p ∈ rows) as Hin.
    { pose proof (dram_rows_lookup _ _ _ _ _ Hok (rank (kept (dram_mask arch M)) i) ch (noc0_core DRAM p)) as Hl.
      pose proof Hu as (_ & Hj & _). destruct Hl as [_ Hl]; [lia|exact Hj|].
      apply bind_Some in Hl as (row & Hrow & Hc); [|by exists i, p]. unfold rows. apply list_elem_of_In, in_concat.
      exists row. by split; apply list_elem_of_In; eapply list_elem_of_lookup_2. }
    split; [done|]. unfold keep.
    assert (Soc.translate_coord_to soc (noc0_core DRAM p) LOGICAL =
      Ok (MkCoreCoord (rank (kept (dram_mask arch M)) i) ch DRAM LOGICAL)) as ->; [|cbn [cc_y]; rewrite Z.eqb_refl; by left].
    apply (soc_translate _ _ _ _ _ Hok). exists p. split; [|split; [|done]].
    + apply noc0_core_table. by eapply unit_core_elem.
    + apply (channel_name _ _ _ _ _ Hok). by exists i, ch.
Qed.
