(* ===== verification/SocSerialize.v ===== *)
(** * SocSerialize

    The YAML document a SoC descriptor writes, read back by
    [SocArchDescriptor::load_from_yaml]. *)

From Stdlib Require Import ZArith Lia.
From Stdlib Require Import Ascii.
From stdpp Require Import base gmap list list_numbers strings numbers.
From S2P Require Import Prelude CoreTypes ArchData Harvesting CoordinateManager Managers SemVer TextUtils.
From S2P Require Import CoordTheory CoordTable RowCoords WormholeCoords BlackholeCoords CoordProperties CoreQueries.
From S2P Require Import BoardTypes SocArch SocDescriptor SocAddresses SocChannels.
From S2P Require BlackholeManager.

Local Open Scope Z_scope.

(** ** Core coordinates as text *)

(** A text that starts with a digit has no sign and no leading space. *)
Lemma signed_text_digit c s : is_digit c = true → signed_text (String c s) = (false, String c s).
Proof.
  intros Hc. destruct (digit_not_special c Hc) as (Hsp & _). unfold signed_text. cbn [skip_spaces]. rewrite Hsp.
  destruct c as [[] [] [] [] [] [] [] []]; try done; by cbv in Hc.
Qed.
(** Reading stops at the first character that is no digit. *)
Lemma read_digits_app acc a c r :
  all_chars is_digit a = true → is_digit c = false → read_digits acc (a +:+ String c r) = read_digits acc a.
Proof.
  revert acc. induction a as [|d a IH]; intros acc Ha Hc; [change (EmptyString +:+ String c r) with (String c r); cbn; by rewrite Hc|].
  change (String d a +:+ String c r) with (String d (a +:+ String c r)). simpl in Ha. apply andb_true_iff in Ha as [Hd Ha].
  cbn [read_digits]. rewrite Hd. by apply IH.
Qed.
Lemma atoi_digits z s :
  0 ≤ z < 2 ^ 31 → signed_text s = (false, s) → read_digits None s = Some z → atoi s = Ok z.
Proof.
  intros Hz Hs Hr. unfold atoi. rewrite Hs, Hr. cbn [default from_option id].
  rewrite (proj2 (Z.leb_le _ _)), (proj2 (Z.ltb_lt _ _)) by lia. done.
Qed.
Lemma signed_to_string z r : signed_text (to_string z +:+ r) = (false, to_string z +:+ r).
Proof.
  pose proof (to_string_digits z) as Hd. pose proof (to_string_nonempty z). destruct (to_string z) as [|c s]; [done|].
  simpl in Hd. apply andb_true_iff in Hd as [Hc _]. change (String c s +:+ r) with (String c (s +:+ r)). by apply signed_text_digit.
Qed.
Lemma append_nil_r s : s +:+ EmptyString = s.
Proof. induction s as [|c s IH]; [done|]. change (String c (s +:+ EmptyString) = String c s). by rewrite IH. Qed.
Lemma atoi_to_string z : 0 ≤ z < 2 ^ 31 → atoi (to_string z) = Ok z.
Proof.
  intros Hz. apply atoi_digits; [done| |by apply read_to_string; lia].
  pose proof (signed_to_string z EmptyString) as H. by rewrite !append_nil_r in H.
Qed.
Lemma atoi_before_dash z r : 0 ≤ z < 2 ^ 31 → atoi (to_string z +:+ "-" +:+ r) = Ok z.
Proof.
  intros Hz. apply atoi_digits; [done|apply signed_to_string|]. change ("-" +:+ r) with (String "-" r).
  rewrite read_digits_app; [by apply read_to_string; lia|apply to_string_digits|done].
Qed.
Lemma split_dash_token a r : all_chars is_digit a = true → split_dash (a +:+ "-" +:+ r) = Some (a, r).
Proof.
  induction a as [|c a IH]; intros Ha; [done|]. simpl in Ha. apply andb_true_iff in Ha as [Hc Ha].
  change (split_dash (String c a +:+ "-" +:+ r)) with
    (if Ascii.eqb c "-" then Some (EmptyString, a +:+ "-" +:+ r)
     else match split_dash (a +:+ "-" +:+ r) with Some (x, y) => Some (String c x, y) | None => None end).
  destruct (digit_not_special c Hc) as (_ & -> & _). by rewrite (IH Ha).
Qed.
Lemma format_to_string x y : 0 ≤ x < 2 ^ 31 → 0 ≤ y < 2 ^ 31 → format_node (to_string x +:+ "-" +:+ to_string y) = Ok (XY x y).
Proof.
  intros Hx Hy. unfold format_node. rewrite split_dash_token by apply to_string_digits.
  rewrite (atoi_before_dash x _ Hx). pose proof (atoi_to_string y Hy) as Ay.
  pose proof (to_string_nonempty x). pose proof (to_string_nonempty y).
  destruct (to_string x); [done|]. destruct (to_string y); [done|]. cbn [mbind result_bind]. rewrite Ay. cbn [mbind result_bind].
  by rewrite !u64_small by lia.
Qed.

(** ** Writing and reading back *)

Definition core_text (c : CoreCoord) : document := DText (to_string (cc_x c) +:+ "-" +:+ to_string (cc_y c)).

(** The loops that append one element a time. *)
Lemma append_loop {A B} (l : list A) (f : A → list B → result (list B)) (g : A → B) acc :
  (∀ a acc, a ∈ l → f a acc = Ok (acc ++ [g a])) → for_each l f acc = Ok (acc ++ map g l).
Proof. intros Hf. rewrite (collect_loop l f (λ a, [g a])) by done. by rewrite concat_map_singleton. Qed.

Lemma doc_strings_map (f : CoreCoord → string) cs :
  doc_seq (λ n, match n with DText s => Ok s | _ => bad_conversion end) (DSequence (map (λ c, DText (f c)) cs)) = Ok (map f cs).
Proof.
  unfold doc_seq. induction cs as [|c cs IH]; [done|]. cbn [map foldr]. rewrite IH. done.
Qed.
Lemma cores_of_texts cs :
  (∀ c, c ∈ cs → 0 ≤ cc_x c < 2 ^ 31 ∧ 0 ≤ cc_y c < 2 ^ 31) →
  cores_of_node (DSequence (map core_text cs) : @Node doc_yaml) = Ok (map to_pair cs).
Proof.
  intros Hcs. unfold cores_of_node. change (@as_strings doc_yaml) with
    (doc_seq (λ n, match n with DText s => Ok s | _ => bad_conversion end)).
  unfold core_text. rewrite doc_strings_map. cbn [mbind result_bind]. unfold convert_to_tt_xy_pair.
  enough (∀ acc, for_each (map (λ c, to_string (cc_x c) +:+ "-" +:+ to_string (cc_y c)) cs)
    (λ s acc, p ← format_node s; Ok (acc ++ [p])) acc = Ok (acc ++ map to_pair cs)) as H by apply H.
  induction cs as [|c cs IH]; intros acc; [by rewrite app_nil_r|]. cbn [map for_each].
  destruct (Hcs c) as [Hx Hy]; [by left|]. rewrite format_to_string by done. cbn [mbind result_bind].
  rewrite IH by (intros; apply Hcs; by right). by rewrite <- app_assoc.
Qed.

Section Document.
Context (soc : Soc.SocDescriptor).

(** A core that is written, with the coordinate it has. *)
Definition writable (c : CoreCoord) : Prop :=
  Soc.in_grid soc c = true ∧ Soc.translate_coord_to soc c NOC0 = Ok c ∧ 0 ≤ cc_x c < 2 ^ 31 ∧ 0 ≤ cc_y c < 2 ^ 31.

Lemma write_coords_writable c out : writable c → Soc.write_coords soc c out = Ok (out ++ [core_text c]).
Proof. intros (Hin & Ht & _). unfold Soc.write_coords. by rewrite Hin, Ht. Qed.
Lemma write_locations t cs :
  Soc.get_cores soc t NOC0 None = Ok cs → Forall writable cs →
  Soc.write_core_locations soc t = Ok (DSequence (map core_text cs)).
Proof.
  intros Hcs Hw. unfold Soc.write_core_locations. rewrite Hcs. cbn [mbind result_bind].
  rewrite (append_loop cs _ core_text); [done|]. intros c acc Hc. apply write_coords_writable. by apply (proj1 (list.Forall_forall _ _) Hw).
Qed.
Lemma write_banks banks :
  Forall (λ bank, bank ≠ [] ∧ Forall writable bank) banks →
  Soc.serialize_dram_cores soc banks = Ok (DSequence (map (λ bank, DSequence (map core_text bank)) banks)).
Proof.
  intros Hb. unfold Soc.serialize_dram_cores. rewrite (append_loop banks _ (λ bank, DSequence (map core_text bank))); [done|].
  intros bank acc [Hne Hw]%(proj1 (list.Forall_forall _ _) Hb). pose proof (proj1 (list.Forall_forall _ _) Hw) as Hin.
  rewrite (proj2 (forallb_forall _ _)) by (intros c Hc%list_elem_of_In; by apply Hin).
  destruct bank as [|c0 bank]; [done|]. rewrite (append_loop _ _ core_text); [done|].
  intros c acc' Hc. by apply write_coords_writable, Hin.
Qed.
End Document.

(** ** The whole document *)

(** The sizes and versions are within the types they are read back with. *)
Definition sizes_ok (soc : Soc.SocDescriptor) : Prop :=
  (0 ≤ xy_x (Soc.grid_size soc) < 2 ^ 31 ∧ 0 ≤ xy_y (Soc.grid_size soc) < 2 ^ 31) ∧
  (0 ≤ Soc.worker_l1_size soc < 2 ^ 32 ∧ 0 ≤ Soc.eth_l1_size soc < 2 ^ 32 ∧ 0 ≤ Soc.dram_bank_size soc < 2 ^ 64) ∧
  (is_int (Soc.overlay_version soc) ∧ is_int (Soc.unpacker_version soc) ∧ is_int (Soc.dst_size_alignment soc) ∧
   is_int (Soc.packer_version soc)).

(** The same of a static description. *)
Definition description_sizes_ok (d : SocArchDescriptor) : Prop :=
  (0 ≤ xy_x (grid_size_ d) < 2 ^ 31 ∧ 0 ≤ xy_y (grid_size_ d) < 2 ^ 31) ∧
  (0 ≤ worker_l1_size_ d < 2 ^ 31 ∧ 0 ≤ eth_l1_size_ d < 2 ^ 31 ∧ 0 ≤ dram_bank_size_ d < 2 ^ 64) ∧
  (is_int (overlay_version_ d) ∧ is_int (unpacker_version_ d) ∧ is_int (dst_size_alignment_ d) ∧ is_int (packer_version_ d)).
Lemma new_sizes_ok d info soc :
  Soc.SocDescriptor_new (Some d) info = Ok soc → description_sizes_ok d → sizes_ok soc.
Proof.
  unfold Soc.SocDescriptor_new. destruct (Soc.create_coordinate_manager _ _ _ _ _) as [cm|]; [|done].
  intros [= <-] (Hg & (Hw & He & Hd) & Hv). unfold sizes_ok. cbn [Soc.grid_size Soc.worker_l1_size Soc.eth_l1_size Soc.dram_bank_size
    Soc.overlay_version Soc.unpacker_version Soc.dst_size_alignment Soc.packer_version].
  rewrite !i32_small by lia. split; [done|]. split; [lia|done].
Qed.

Lemma doc_int_in lo hi z : lo ≤ z < hi → doc_int lo hi (DInt z) = Ok z.
Proof. intros Hz. unfold doc_int. by rewrite (proj2 (Z.leb_le _ _)), (proj2 (Z.ltb_lt _ _)) by lia. Qed.

(** What is read back: the cores in use, no NOC1 tables. *)
Definition reloaded (soc : Soc.SocDescriptor) (cs : CoreType → list CoreCoord) (banks : list (list CoreCoord)) (path : string)
    : SocArchDescriptor :=
  MkArch (Soc.arch soc) (Soc.grid_size soc) (map to_pair (cs TENSIX)) (map (map to_pair) banks) (map to_pair (cs ETH))
    (map to_pair (cs ARC)) (map to_pair (cs PCIE)) (map to_pair (cs ROUTER_ONLY)) (map to_pair (cs SECURITY))
    (map to_pair (cs L2CPU)) (map to_pair (cs DISPATCH)) (Soc.worker_l1_size soc) (Soc.eth_l1_size soc)
    (Soc.dram_bank_size soc) [] [] (Soc.overlay_version soc) (Soc.unpacker_version soc) (Soc.dst_size_alignment soc)
    (Soc.packer_version soc) [] path ∅ (XY 0 0) ∅ ∅.

Lemma arch_name_read a : arch_from_str (trim_ws (arch_to_str a)) = a.
Proof. by destruct a. Qed.

Lemma read_banks banks :
  Forall (λ bank, Forall (λ c, 0 ≤ cc_x c < 2 ^ 31 ∧ 0 ≤ cc_y c < 2 ^ 31) bank) banks →
  for_each (map (λ bank, DSequence (map core_text bank)) banks)
    (λ channel acc, cs ← cores_of_node (channel : @Node doc_yaml); Ok (acc ++ [cs])) [] = Ok (map (map to_pair) banks).
Proof.
  intros Hb. enough (∀ acc, for_each (map (λ bank, DSequence (map core_text bank)) banks)
    (λ channel acc, cs ← cores_of_node (channel : @Node doc_yaml); Ok (acc ++ [cs])) acc = Ok (acc ++ map (map to_pair) banks)) as H by apply H.
  induction Hb as [|bank banks Hbank Hb IH]; intros acc; [by rewrite app_nil_r|]. cbn [map for_each].
  rewrite cores_of_texts by (intros c; by apply (proj1 (list.Forall_forall _ _) Hbank)). cbn [mbind result_bind].
  rewrite IH. by rewrite <- app_assoc.
Qed.

Section Roundtrip.
Context (soc : Soc.SocDescriptor) (cs : CoreType → list CoreCoord) (banks : list (list CoreCoord)).
Context (Hcs : ∀ t, t ∈ Soc.queried_types → Soc.get_cores soc t NOC0 None = Ok (cs t) ∧ Forall (writable soc) (cs t)).
Context (Hbanks : Soc.get_dram_cores soc = Ok banks).
Context (Hbank : Forall (λ bank, bank ≠ [] ∧ Forall (writable soc) bank) banks).
Context (Hsizes : sizes_ok soc).

Definition document_of : document :=
  DMap
    [Soc.key "grid" (DMap [Soc.key "x_size" (DInt (xy_x (Soc.grid_size soc))); Soc.key "y_size" (DInt (xy_y (Soc.grid_size soc)))]);
     Soc.key "arc" (DSequence (map core_text (cs ARC))); Soc.key "pcie" (DSequence (map core_text (cs PCIE)));
     Soc.key "dram" (DSequence (map (λ bank, DSequence (map core_text bank)) banks));
     Soc.key "eth" (DSequence (map core_text (cs ETH))); Soc.key "functional_workers" (DSequence (map core_text (cs TENSIX)));
     Soc.key "router_only" (DSequence (map core_text (cs ROUTER_ONLY))); Soc.key "security" (DSequence (map core_text (cs SECURITY)));
     Soc.key "l2cpu" (DSequence (map core_text (cs L2CPU))); Soc.key "dispatch" (DSequence (map core_text (cs DISPATCH)));
     Soc.key "worker_l1_size" (DInt (Soc.worker_l1_size soc)); Soc.key "dram_bank_size" (DInt (Soc.dram_bank_size soc));
     Soc.key "eth_l1_size" (DInt (Soc.eth_l1_size soc)); Soc.key "arch_name" (DText (arch_to_str (Soc.arch soc)));
     Soc.key "features" (DMap
       [Soc.key "noc" (DMap [Soc.key "translation_id_enabled" (DBool true)]);
        Soc.key "unpacker" (DMap [Soc.key "version" (DInt (Soc.unpacker_version soc));
          Soc.key "inline_srca_trans_without_srca_trans_instr" (DBool true)]);
        Soc.key "math" (DMap [Soc.key "dst_size_alignment" (DInt (Soc.dst_size_alignment soc))]);
        Soc.key "packer" (DMap [Soc.key "version" (DInt (Soc.packer_version soc))]);
        Soc.key "overlay" (DMap [Soc.key "version" (DInt (Soc.overlay_version soc))])])].

Lemma serialize_document : Soc.serialize soc = Ok document_of.
Proof.
  assert (∀ t, t ∈ Soc.queried_types → Soc.write_core_locations soc t = Ok (DSequence (map core_text (cs t)))) as Hw.
  { intros t Ht. destruct (Hcs t Ht). by apply write_locations. }
  unfold Soc.serialize. rewrite Hbanks, !Hw by (apply list_elem_of_In; cbn; tauto). cbn [mbind result_bind].
  by rewrite write_banks.
Qed.

Lemma writable_bounds t c : t ∈ Soc.queried_types → c ∈ cs t → 0 ≤ cc_x c < 2 ^ 31 ∧ 0 ≤ cc_y c < 2 ^ 31.
Proof. intros Ht Hc. destruct (Hcs t Ht) as [_ Hw]. by apply (proj1 (list.Forall_forall _ _) Hw) in Hc as (_ & _ & ?). Qed.

Lemma load_document path :
  load_from_yaml (document_of : @Node doc_yaml) (initial_arch Invalid path) = Ok (reloaded soc cs banks path).
Proof.
  destruct Hsizes as ((Hx & Hy) & (Hw & He & Hd) & Ho & Hu & Ha & Hp). unfold is_int in *.
  assert (∀ t, t ∈ Soc.queried_types →
    cores_of_node (DSequence (map core_text (cs t)) : @Node doc_yaml) = Ok (map to_pair (cs t))) as Hread.
  { intros t Ht. apply cores_of_texts. intros c. by apply writable_bounds. }
  unfold load_from_yaml.
  assert (grid_of_yaml (document_of : @Node doc_yaml) = Ok (Soc.grid_size soc)) as ->.
  { change (grid_of_yaml _) with (x ← doc_int (- 2 ^ 31) (2 ^ 31) (DInt (xy_x (Soc.grid_size soc)));
      y ← doc_int (- 2 ^ 31) (2 ^ 31) (DInt (xy_y (Soc.grid_size soc))); Ok (XY (u64 x) (u64 y))).
    rewrite !doc_int_in by lia. cbn [mbind result_bind]. rewrite !u64_small by lia. by destruct (Soc.grid_size soc). }
  assert (convert_dram_cores_from_yaml (document_of : @Node doc_yaml) = Ok (map (map to_pair) banks)) as ->.
  { apply read_banks. eapply list.Forall_impl; [exact Hbank|]. intros bank [_ Hbk]. eapply list.Forall_impl; [exact Hbk|].
    by intros c (_ & _ & ?). }
  change (as_string (y_get (document_of : @Node doc_yaml) "arch_name")) with (Ok (arch_to_str (Soc.arch soc))).
  cbn [mbind result_bind].
  assert (∀ k t, doc_get document_of k = DSequence (map core_text (cs t)) → t ∈ Soc.queried_types →
    cores_of_node (y_get (document_of : @Node doc_yaml) k) = Ok (map to_pair (cs t)) ∧
    ∀ p, optional (y_get (document_of : @Node doc_yaml) k) cores_of_node p = Ok (map to_pair (cs t))) as Hloc.
  { intros k t Hk Ht. change (@y_get doc_yaml) with doc_get. rewrite Hk. split; [by apply Hread|]. intros p. by apply Hread. }
  assert (∀ k t, doc_get document_of k = DSequence (map core_text (cs t)) → t ∈ Soc.queried_types →
    cores_of_node (y_get (document_of : @Node doc_yaml) k) = Ok (map to_pair (cs t))) as Hnode by (intros; by apply Hloc).
  rewrite (Hnode "functional_workers" TENSIX), (Hnode "pcie" PCIE), (Hnode "eth" ETH), (Hnode "arc" ARC), (Hnode "router_only" ROUTER_ONLY)
    by (done || (apply list_elem_of_In; cbn; tauto)). cbn [mbind result_bind].
  rewrite (proj2 (Hloc "l2cpu" L2CPU eq_refl ltac:(apply list_elem_of_In; cbn; tauto))),
    (proj2 (Hloc "security" SECURITY eq_refl ltac:(apply list_elem_of_In; cbn; tauto))),
    (proj2 (Hloc "dispatch" DISPATCH eq_refl ltac:(apply list_elem_of_In; cbn; tauto))). cbn [mbind result_bind].
  change (IsDefined (y_get (document_of : @Node doc_yaml) "noc0_x_to_noc1_x")) with false. cbn [mbind result_bind].
  change (as_u32 (y_get (document_of : @Node doc_yaml) "worker_l1_size")) with (doc_int 0 (2 ^ 32) (DInt (Soc.worker_l1_size soc))).
  change (as_u32 (y_get (document_of : @Node doc_yaml) "eth_l1_size")) with (doc_int 0 (2 ^ 32) (DInt (Soc.eth_l1_size soc))).
  change (as_u64 (y_get (document_of : @Node doc_yaml) "dram_bank_size")) with (doc_int 0 (2 ^ 64) (DInt (Soc.dram_bank_size soc))).
  rewrite !doc_int_in by done. cbn [mbind result_bind].
  change (feature (document_of : @Node doc_yaml) "overlay" "version" _) with (doc_int (- 2 ^ 31) (2 ^ 31) (DInt (Soc.overlay_version soc))).
  change (feature (document_of : @Node doc_yaml) "unpacker" "version" _) with (doc_int (- 2 ^ 31) (2 ^ 31) (DInt (Soc.unpacker_version soc))).
  change (feature (document_of : @Node doc_yaml) "math" "dst_size_alignment" _) with (doc_int (- 2 ^ 31) (2 ^ 31) (DInt (Soc.dst_size_alignment soc))).
  change (feature (document_of : @Node doc_yaml) "packer" "version" _) with (doc_int (- 2 ^ 31) (2 ^ 31) (DInt (Soc.packer_version soc))).
  rewrite !doc_int_in by done. cbn [mbind result_bind]. by rewrite arch_name_read.
Qed.
End Roundtrip.

(** ** Any descriptor of a supported configuration *)

Section Any.
Context (arch : ARCH) (L : Layout) (M : HarvestingMasks) (b : bool) (soc : Soc.SocDescriptor).
Context (Hsoc : soc_ok arch L M b soc).
Context (Hmasks : ∀ t g, unit_grids arch L M t = Some g → 0 ≤ ug_mask g < 2 ^ 64).
Abbreviation cm := (manager (Soc.coordinate_manager soc)).

Lemma get_cores_noc0 t cs :
  CoordinateManager.get_cores (virtual_ops (class_of arch)) cm t = Ok cs → Soc.get_cores soc t NOC0 None = Ok cs.
Proof. intros Hq. unfold Soc.get_cores. rewrite (so_class _ _ _ _ _ Hsoc), Hq. cbn [mbind result_bind]. by rewrite decide_True. Qed.

(** Every query returns NOC0 coordinates of cores of the type. *)
Lemma query_returns t :
  t ∈ Soc.queried_types → ∃ cs, Soc.get_cores soc t NOC0 None = Ok cs ∧ ∀ c, c ∈ cs → ∃ p, p ∈ cores_of L t ∧ c = noc0_core t p.
Proof.
  intros Ht. pose proof (impl_layout _ _ _ _ _ (so_manager _ _ _ _ _ Hsoc)) as EL. pose proof (so_supported _ _ _ _ _ Hsoc) as [Hwf Hs].
  destruct (decide ((arch, t) = (BLACKHOLE, L2CPU))) as [[= Ea ->]|Hne].
  - assert (wf_layout (layout cm)) as Hwf' by by rewrite EL.
    destruct (blackhole_l2cpu_query cm Hwf') as (used & harv & Hu & _ & _ & Hsu & _). exists used. split.
    { apply get_cores_noc0. rewrite Ea. exact Hu. }
    intros c (i & j & p & Hc & _ & ->)%Hsu. exists p. split; [|done]. rewrite <- EL. by eapply unit_core_elem.
  - destruct (unit_grids arch L M t) as [g|] eqn:Hg.
    + destruct (soc_used _ _ _ _ _ Hsoc t g Hg (Hmasks _ _ Hg) Hne) as (used & Hu & Hsu). exists used. split; [done|].
      intros c (i & j & p & Hc & _ & ->)%Hsu. exists p. split; [by eapply unit_core_elem|done].
    + exists (map (noc0_core t) (cores_of L t)). split.
      * apply get_cores_noc0. rewrite <- EL. unfold Soc.queried_types in Ht. rewrite !elem_of_cons in Ht. clear Hs.
        destruct arch; destruct_or! Ht; try subst t; try done; by apply not_elem_of_nil in Ht.
      * intros c (p & <- & Hp)%list_elem_of_In%in_map_iff. exists p. split; [by apply list_elem_of_In|done].
Qed.

Context (Hgrid : Forall (λ p, xy_x p < xy_x (Soc.grid_size soc) ∧ xy_y p < xy_y (Soc.grid_size soc)) (all_cores L)).
Context (Hports : 0 < xy_y (dram_grid_size L)).

Lemma noc0_core_writable t p : p ∈ cores_of L t → writable soc (noc0_core t p).
Proof.
  intros Hp. pose proof (so_supported _ _ _ _ _ Hsoc) as [Hwf _]. pose proof (wf_bounds _ Hwf _ _ Hp).
  destruct (proj1 (list.Forall_forall _ _) Hgrid p (all_cores_of _ _ _ Hp)) as [Hx Hy]. split; [|split].
  - unfold Soc.in_grid. cbn [cc_x cc_y noc0_core CoreCoord_of_pair]. by rewrite !(proj2 (Z.ltb_lt _ _)).
  - apply (soc_noc0 _ _ _ _ _ Hsoc). by apply noc0_core_table.
  - cbn [cc_x cc_y noc0_core CoreCoord_of_pair]. lia.
Qed.

Lemma banks_writable banks :
  Soc.get_dram_cores soc = Ok banks → Forall (λ bank, bank ≠ [] ∧ Forall (writable soc) bank) banks.
Proof.
  destruct (soc_dram_cores _ _ _ _ _ Hsoc) as [-> _]. intros [= <-]. apply list.Forall_forall. intros bank Hb.
  pose proof (dram_rows_sizes _ _ _ _ _ Hsoc bank Hb) as Hsize. split; [intros ->; unfold vec_size in Hsize; cbn [length] in Hsize; lia|].
  apply list.Forall_forall. intros c Hc.
  destruct (dram_row_core _ _ _ _ _ Hsoc c) as (i & j & p & Hu & _ & -> & _).
  { apply list_elem_of_In, in_concat. exists bank. by split; apply list_elem_of_In. }
  apply noc0_core_writable. by eapply unit_core_elem.
Qed.
End Any.

(** C22: writing a SoC descriptor and reading the document back. For every
    supported configuration of a description whose cores lie in its grid and
    whose sizes fit their types, [serialize] returns a document, and
    [load_from_yaml] builds from it a description of the cores in use, listed
    as the queries list them, with the same grid, sizes and versions - but with
    no NOC1 tables. *)
Theorem serialize_load_roundtrip d info path :
  let L := Soc.layout_of d in
  supported (arch_ d) L (ci_harvesting_masks info) (ci_noc_translation_enabled info) → board_ok info →
  (∀ t g, unit_grids (arch_ d) L (ci_harvesting_masks info) t = Some g → 0 ≤ ug_mask g < 2 ^ 64) →
  Forall (λ p, xy_x p < xy_x (grid_size_ d) ∧ xy_y p < xy_y (grid_size_ d)) (all_cores L) → 0 < xy_y (dram_grid_size L) →
  description_sizes_ok d →
  ∃ soc doc cs banks, Soc.SocDescriptor_new (Some d) info = Ok soc ∧ Soc.serialize soc = Ok doc ∧
    Soc.get_dram_cores soc = Ok banks ∧
    (∀ t, t ∈ Soc.queried_types → Soc.get_cores soc t NOC0 None = Ok (cs t)) ∧
    load_from_yaml (doc : @Node doc_yaml) (initial_arch Invalid path) = Ok (reloaded soc cs banks path).
Proof.
  intros L Hs Hb Hm Hgrid Hports Hd. destruct (soc_new_ok d info Hs Hb) as (soc & Hnew & _ & Hg & Hok).
  pose proof (new_sizes_ok _ _ _ Hnew Hd) as Hsz. rewrite <- Hg in Hgrid. destruct (soc_dram_cores _ _ _ _ _ Hok) as [Hbanks _].
  set (cs t := match Soc.get_cores soc t NOC0 None with Ok l => l | Err _ => [] end).
  assert (∀ t, t ∈ Soc.queried_types → Soc.get_cores soc t NOC0 None = Ok (cs t) ∧ Forall (writable soc) (cs t)) as Hcs.
  { intros t Ht. destruct (query_returns _ _ _ _ _ Hok Hm t Ht) as (l & Hl & Hel). unfold cs. rewrite Hl. split; [done|].
    apply list.Forall_forall. intros c (p & Hp & ->)%Hel. by eapply (noc0_core_writable _ _ _ _ _ Hok). }
  pose proof (banks_writable _ _ _ _ _ Hok Hgrid Hports _ Hbanks) as Hbw.
  eexists soc, _, cs, _. split; [done|]. split; [by apply serialize_document|]. split; [exact Hbanks|]. split; [by intros t [? _]%Hcs|].
  by apply load_document.
Qed.
