(* ===== verification/SocExamples.v ===== *)
(** * SocExamples

    A Blackhole P150 with two Tensix columns, a DRAM bank, two Ethernet
    channels, a PCIE core and an L2CPU core harvested: the hypotheses of the
    properties of SoC descriptors hold of it. *)

From Stdlib Require Import ZArith Lia.
From stdpp Require Import base gmap list list_numbers strings numbers.
From S2P Require Import DeviceAccess.
From S2P Require Import Prelude CoreTypes ArchData Harvesting CoordinateManager Managers.
From S2P Require Import CoordTheory CoordTable RowCoords BlackholeCoords CoordProperties.
From S2P Require Import BoardTypes TextUtils SocArch SocDescriptor SocAddresses SocChannels SocSerialize.

Local Open Scope Z_scope.

Definition p150_info : ChipInfo := MkChipInfo true blackhole_example_masks P150 0 0.

Lemma p150_description : ∃ d, SocArchDescriptor_of_arch BLACKHOLE = Ok d.
Proof. eexists. reflexivity. Qed.
Lemma p150_board_ok : board_ok p150_info.
Proof. by split. Qed.
Lemma p150_supported d :
  SocArchDescriptor_of_arch BLACKHOLE = Ok d → supported (arch_ d) (Soc.layout_of d) (ci_harvesting_masks p150_info) true.
Proof. intros [-> ->]%arch_descriptor_layout. exact supported_blackhole. Qed.
Lemma p150_masks d t g :
  SocArchDescriptor_of_arch BLACKHOLE = Ok d →
  unit_grids (arch_ d) (Soc.layout_of d) (ci_harvesting_masks p150_info) t = Some g → 0 ≤ ug_mask g < 2 ^ 64.
Proof. intros [-> ->]%arch_descriptor_layout. destruct t; intros [= <-]; by vm_compute. Qed.
Lemma p150_shape d :
  SocArchDescriptor_of_arch BLACKHOLE = Ok d →
  Forall (λ p, xy_x p < xy_x (grid_size_ d) ∧ xy_y p < xy_y (grid_size_ d)) (all_cores (Soc.layout_of d)) ∧
  0 < xy_y (dram_grid_size (Soc.layout_of d)) ∧ description_sizes_ok d.
Proof.
  intros Hd. pose (ok d := forallb (λ p, (xy_x p <? xy_x (grid_size_ d)) && (xy_y p <? xy_y (grid_size_ d))) (all_cores (Soc.layout_of d)) &&
    (0 <? xy_y (dram_grid_size (Soc.layout_of d)))).
  assert (match SocArchDescriptor_of_arch BLACKHOLE with Ok d => ok d = true ∧ description_sizes_ok d | Err _ => True end) as H.
  { vm_compute. repeat split; discriminate. }
  rewrite Hd in H. destruct H as [Hok Hsz]. apply andb_true_iff in Hok as [Hg Hp%Z.ltb_lt]. split; [|done].
  apply list.Forall_forall. intros p Hin%list_elem_of_In. apply (proj1 (forallb_forall _ _) Hg) in Hin.
  apply andb_true_iff in Hin as [Hx%Z.ltb_lt Hy%Z.ltb_lt]. done.
Qed.

Lemma chip_coords_distinct_witness :
  ∃ d soc q q', SocArchDescriptor_of_arch BLACKHOLE = Ok d ∧ Soc.SocDescriptor_new (Some d) p150_info = Ok soc ∧
    Soc.translate_chip_coord_to_translated soc (noc0_core TENSIX (XY 1 2)) DeviceAccess.NOC1 = Ok q ∧
    Soc.translate_chip_coord_to_translated soc (noc0_core TENSIX (XY 2 2)) DeviceAccess.NOC1 = Ok q' ∧ q ≠ q'.
Proof.
  destruct p150_description as [d Hd]. exists d.
  destruct (chip_coords_distinct BLACKHOLE p150_info d (or_intror eq_refl) Hd supported_blackhole p150_board_ok) as (soc & Hnew & Hall).
  destruct (Hall DeviceAccess.NOC1 (noc0_core TENSIX (XY 1 2)) (noc0_core TENSIX (XY 2 2)) (XY 1 2) (XY 2 2)) as (q & q' & Hq & Hq' & _ & Hne).
  - split; [apply (bool_decide_unpack _); vm_compute; exact I|reflexivity].
  - split; [apply (bool_decide_unpack _); vm_compute; exact I|reflexivity].
  - exists soc, q, q'. split; [exact Hd|]. split; [exact Hnew|]. split; [exact Hq|]. split; [exact Hq'|].
    intros E. discriminate Hne; [intros (_ & _ & _ & ? & _); discriminate|intros (_ & _ & _ & ? & _); discriminate|exact E].
Defined.

Lemma dram_channels_roundtrip_witness :
  ∃ d soc banks, SocArchDescriptor_of_arch BLACKHOLE = Ok d ∧ Soc.SocDescriptor_new (Some d) p150_info = Ok soc ∧
    Soc.get_dram_cores soc = Ok banks.
Proof.
  destruct p150_description as [d Hd]. exists d.
  destruct (dram_channels_roundtrip d p150_info (p150_supported d Hd) p150_board_ok) as (soc & banks & n & Hnew & Hb & _).
  exists soc, banks. exact (conj Hd (conj Hnew Hb)).
Defined.

Lemma serialize_load_roundtrip_witness :
  ∃ d soc doc d', SocArchDescriptor_of_arch BLACKHOLE = Ok d ∧ Soc.SocDescriptor_new (Some d) p150_info = Ok soc ∧
    Soc.serialize soc = Ok doc ∧ load_from_yaml (doc : @Node doc_yaml) (initial_arch Invalid "p150.yaml") = Ok d' ∧
    noc0_x_to_noc1_x_ d' = [].
Proof.
  destruct p150_description as [d Hd]. destruct (p150_shape d Hd) as (Hg & Hp & Hz). exists d.
  destruct (serialize_load_roundtrip d p150_info "p150.yaml" (p150_supported d Hd) p150_board_ok (λ t g, p150_masks d t g Hd) Hg Hp Hz)
    as (soc & doc & cs & banks & Hnew & Hdoc & _ & _ & Hload).
  exists soc, doc, (reloaded soc cs banks "p150.yaml"). exact (conj Hd (conj Hnew (conj Hdoc (conj Hload eq_refl)))).
Defined.

(** Over the NOC1 the harvested PCIE core (11, 0) of the P150 has the place of
    the router (5, 0): the exception of [chip_coords_distinct] occurs. *)
Lemma harvested_pcie_shares_router :
  (d ← SocArchDescriptor_of_arch BLACKHOLE;
   soc ← Soc.SocDescriptor_new (Some d) p150_info;
   pcie ← Soc.translate_chip_coord_to_translated soc (noc0_core PCIE (XY 11 0)) DeviceAccess.NOC1;
   router ← Soc.translate_chip_coord_to_translated soc (noc0_core ROUTER_ONLY (XY 5 0)) DeviceAccess.NOC1;
   Ok (pcie, router)) = Ok (XY 11 0, XY 11 0).
Proof. vm_compute. reflexivity. Qed.

(** [get_cores] with channel 1 returns the second core of every bank. *)
Lemma channel_1_is_subchannel_1 :
  (d ← SocArchDescriptor_of_arch BLACKHOLE;
   soc ← Soc.SocDescriptor_new (Some d) p150_info;
   cores ← Soc.get_cores soc DRAM NOC0 (Some 1);
   banks ← Soc.get_dram_cores soc;
   Ok (bool_decide (cores = omap (.!! 1%nat) banks), length cores)) = Ok (true, 7%nat).
Proof. vm_compute. reflexivity. Qed.
