(* ===== verification/ArchRegisters.v ===== *)
(** * ArchRegisters

    The registers that mean the same on every architecture
    ([arch/architecture_registers.cpp]) and, read through them, the hang
    detectors ([tt_device/hang_detection/*.cpp]): a read of all ones is how a
    hung bus or NOC shows. *)

From Stdlib Require Import ZArith Lia.
From stdpp Require Import base list numbers strings.
From S2P Require Import Prelude CoreTypes ArchData BoardTypes DeviceAccess.

Local Open Scope Z_scope.

Definition PCIE_CORES_TYPE2_NOC0 : list xy_pair := [XY 2 0].
Definition HANG_READ_VALUE : Z := 0xFFFFFFFF.

(** ** Control registers *)

(** The base addresses of the NOC control registers by type of core. *)
Module control.
Definition wormhole_noc0 : list (CoreType * Z) :=
  [(TENSIX, 0xFFB20000); (ETH, 0xFFB20000); (DRAM, 0x100080000); (PCIE, 0xFFFB20000); (ARC, 0xFFFB20000);
   (ROUTER_ONLY, 0xFFB20000)].
Definition wormhole_noc1 : list (CoreType * Z) :=
  [(TENSIX, 0xFFB30000); (ETH, 0xFFB30000); (DRAM, 0x100088000); (PCIE, 0xFFFB20000); (ARC, 0xFFFB20000);
   (ROUTER_ONLY, 0xFFB20000)].
Definition wormhole_dram_noc0 : list Z := [0x100080000; 0x100090000; 0x1000A0000].
Definition wormhole_dram_noc1 : list Z := [0x100088000; 0x100098000; 0x1000A8000].
Definition blackhole_noc0 : list (CoreType * Z) :=
  [(TENSIX, 0xFFB20000); (ETH, 0xFFB20000); (DRAM, 0xFFB20000); (PCIE, 0xFFFFFFFFFF000000); (ARC, 0xFFFFFFFFFF000000);
   (SECURITY, 0xFFFFFFFFFF000000); (L2CPU, 0xFFFFFFFFFF000000); (ROUTER_ONLY, 0xFF000000)].
Definition blackhole_noc1 : list (CoreType * Z) :=
  [(TENSIX, 0xFFB30000); (ETH, 0xFFB30000); (DRAM, 0xFFB30000); (PCIE, 0xFFFFFFFFFF000000); (ARC, 0xFFFFFFFFFF000000);
   (SECURITY, 0xFFFFFFFFFF000000); (L2CPU, 0xFFFFFFFFFF000000); (ROUTER_ONLY, 0xFF000000)].
Definition grendel_noc0 : list (CoreType * Z) :=
  [(TENSIX, 0xFFB20000); (ETH, 0xFFB20000); (DRAM, 0xFFB20000); (PCIE, 0xFFFFFFFFFF000000); (ARC, 0xFFFFFFFFFF000000);
   (SECURITY, 0xFFFFFFFFFF000000); (L2CPU, 0xFFFFFFFFFF000000); (DISPATCH, 0xFFB20000); (ROUTER_ONLY, 0xFF000000)].
Definition grendel_noc1 : list (CoreType * Z) :=
  [(TENSIX, 0xFFB30000); (ETH, 0xFFB30000); (DRAM, 0xFFB30000); (PCIE, 0xFFFFFFFFFF000000); (ARC, 0xFFFFFFFFFF000000);
   (SECURITY, 0xFFFFFFFFFF000000); (L2CPU, 0xFFFFFFFFFF000000); (DISPATCH, 0xFFB30000); (ROUTER_ONLY, 0xFF000000)].

Definition invalid_core : string := "Invalid core type for getting NOC register addr base.".
Definition invalid_noc (noc : Z) : string := "Invalid NOC: " +:+ to_string noc +:+ " for getting NOC register addr base.".

(** The first entry of a core type. *)
Definition base_of (table : list (CoreType * Z)) (core_type : CoreType) : result Z :=
  match assoc core_type table with Some a => Ok a | None => throw invalid_core end.
(** [noc_reg_base]; DRAM cores of Wormhole have a base per port. *)
Definition wormhole_noc_reg_base (core_type : CoreType) (noc noc_port : Z) : result Z :=
  if noc =? 0 then
    if decide (core_type = DRAM) then vec_idx wormhole_dram_noc0 noc_port else base_of wormhole_noc0 core_type
  else if noc =? 1 then
    if decide (core_type = DRAM) then vec_idx wormhole_dram_noc1 noc_port else base_of wormhole_noc1 core_type
  else throw (invalid_noc noc).
Definition blackhole_noc_reg_base (core_type : CoreType) (noc noc_port : Z) : result Z :=
  if noc =? 0 then base_of blackhole_noc0 core_type
  else if noc =? 1 then base_of blackhole_noc1 core_type
  else throw (invalid_noc noc).
Definition grendel_noc_reg_base (core_type : CoreType) (noc noc_port : Z) : result Z :=
  if noc =? 0 then base_of grendel_noc0 core_type
  else if noc =? 1 then base_of grendel_noc1 core_type
  else throw (invalid_noc noc).

Definition noc_reg_base (arch : ARCH) : CoreType → Z → Z → result Z :=
  match arch with
  | WORMHOLE_B0 => wormhole_noc_reg_base
  | BLACKHOLE => blackhole_noc_reg_base
  | _ => grendel_noc_reg_base
  end.
Definition WORMHOLE_NOC_NODE_ID_OFFSET : Z := 0x2C.
Definition WORMHOLE_NOC_ID_TRANSLATED_OFFSET : Z := 0x138.
Definition BLACKHOLE_NOC_NODE_ID_OFFSET : Z := 0x44.
Definition BLACKHOLE_NOC_ID_TRANSLATED_OFFSET : Z := 0x148.
End control.

(** [noc_node_id_reg_addr] and [noc_translated_id_reg_addr] of the three
    architectures. *)
Definition noc_node_id_reg_addr (arch : ARCH) (core_type : CoreType) (noc noc_port : Z) : result Z :=
  base ← control.noc_reg_base arch core_type noc noc_port;
  Ok (u64 (base + match arch with WORMHOLE_B0 => control.WORMHOLE_NOC_NODE_ID_OFFSET | _ => control.BLACKHOLE_NOC_NODE_ID_OFFSET end)).
Definition noc_translated_id_reg_addr (arch : ARCH) (core_type : CoreType) (noc noc_port : Z) : result Z :=
  base ← control.noc_reg_base arch core_type noc noc_port;
  Ok (u64 (base + match arch with WORMHOLE_B0 => control.WORMHOLE_NOC_ID_TRANSLATED_OFFSET
                  | _ => control.BLACKHOLE_NOC_ID_TRANSLATED_OFFSET end)).

Record ArchitectureRegisters := MkRegisters {
  arc_apb_bar0_offset : Z;
  arc_csm_bar0_mailbox_offset : Z;
  arc_reset_scratch_offset : Z;
  arc_reset_scratch_2_offset : Z;
  arc_apb_noc_base_address : Z;
  noc_node_id_bar_offset : Z;
  riscv_debug_bus_cntl_reg : Z;
  get_noc_node_id_reg_addr : CoreType → Z → Z → result Z;
  get_noc_translated_id_reg_addr : CoreType → Z → Z → result Z
}.

Definition get_architecture_registers (arch : ARCH) : result ArchitectureRegisters :=
  match arch with
  | WORMHOLE_B0 =>
      Ok (MkRegisters 0x1FF00000 (0x1FE80000 + 0x783C4) (0x30000 + 0x60) (0x30000 + 0x60 + 0x8) (0x800000000 + 0x80000000)
            (0x1FF00000 + 0x50000 + control.WORMHOLE_NOC_NODE_ID_OFFSET) (0xFFB12000 + 0x54)
            (noc_node_id_reg_addr WORMHOLE_B0) (noc_translated_id_reg_addr WORMHOLE_B0))
  | BLACKHOLE =>
      Ok (MkRegisters 0x1FF00000 (0x1FE80000 + 0x783C4) (0x30000 + 0x60) (0x30000 + 0x60 + 0x8) 0x80000000
            (0x1FD04000 + control.BLACKHOLE_NOC_NODE_ID_OFFSET) (0xFFB12000 + 0x54)
            (noc_node_id_reg_addr BLACKHOLE) (noc_translated_id_reg_addr BLACKHOLE))
  | QUASAR =>
      Ok (MkRegisters 0x1FF00000 (0x1FE80000 + 0x783C4) (0x30000 + 0x60) (0x30000 + 0x60 + 0x8) 0x80000000
            0x1FD04044 (0xFFB12000 + 0x54)
            (noc_node_id_reg_addr QUASAR) (noc_translated_id_reg_addr QUASAR))
  | _ => throw ("No registers defined for " +:+ arch_to_str arch +:+ " architecture.")
  end.

(** ** Hang detection *)

Section HangDetector.
Context {F : Type} (env : World F → World F) (locate : NocId → xy_pair → xy_pair).
(** The protocol is a [PcieInterface]; it is a [RemoteInterface]. *)
Context (is_pcie remote : bool).
(** The reader of a NOC register, which [set_noc_reg_reader] replaces. *)
Context (noc_reg_reader : xy_pair → Z → NocId → M F Z).
(** The subclass: Wormhole, or Blackhole with or without NOC translation. *)
Inductive Detector := WormholeHangDetector | BlackholeHangDetector (noc_translation_enabled : bool).
Context (detector : Detector).

(** The reader of the constructor. *)
Definition default_noc_reg_reader (core : xy_pair) (addr : Z) (noc : NocId) : M F Z := read_data env locate core addr noc.

Definition detector_arch : ARCH := match detector with WormholeHangDetector => WORMHOLE_B0 | BlackholeHangDetector _ => BLACKHOLE end.
Definition read_hang_check_reg_via_bar : M F Z :=
  registers ← lift (get_architecture_registers detector_arch);
  bar_read32 env (noc_node_id_bar_offset registers).

Definition get_hang_check_core (noc : NocId) : result xy_pair :=
  match detector with
  | WormholeHangDetector =>
      arc ← vec_idx wormhole.ARC_CORES_NOC0 0;
      if decide (noc = DeviceAccess.NOC1) then
        x ← vec_idx wormhole.NOC0_X_TO_NOC1_X (xy_x arc);
        y ← vec_idx wormhole.NOC0_Y_TO_NOC1_Y (xy_y arc);
        Ok (XY x y)
      else Ok arc
  | BlackholeHangDetector noc_translation_enabled =>
      pcie ← vec_idx PCIE_CORES_TYPE2_NOC0 0;
      if decide (noc = DeviceAccess.NOC1) then
        x ← vec_idx blackhole.NOC0_X_TO_NOC1_X (xy_x pcie);
        y ← (if noc_translation_enabled then Ok 0 else vec_idx blackhole.NOC0_Y_TO_NOC1_Y (xy_y pcie));
        Ok (XY x y)
      else Ok pcie
  end.

Definition noc_number (noc : NocId) : Z := match noc with DeviceAccess.NOC0 => 0 | DeviceAccess.NOC1 => 1 | SYSTEM_NOC => 2 end.
Definition read_hang_check_reg_via_noc (noc : NocId) : M F Z :=
  core ← lift (get_hang_check_core noc);
  registers ← lift (get_architecture_registers detector_arch);
  addr ← lift (get_noc_node_id_reg_addr registers
                 (match detector with WormholeHangDetector => ARC | BlackholeHangDetector _ => PCIE end) (noc_number noc) 0);
  noc_reg_reader core addr noc.

(** [None]: the check is not available. *)
Definition is_bus_hung (data_read : Z) : M F (option bool) :=
  if negb (data_read =? HANG_READ_VALUE) then mret (Some false)
  else if negb is_pcie then mret None
  else v ← read_hang_check_reg_via_bar; mret (Some (v =? HANG_READ_VALUE)).
Definition is_noc_hung (noc : NocId) : M F (option bool) :=
  if remote then mret None
  else v ← read_hang_check_reg_via_noc noc; mret (Some (v =? HANG_READ_VALUE)).
End HangDetector.

(** ** The register addresses *)

(** Every type of core of an architecture has a node id register over both NOCs. *)
Definition cores_with_registers (arch : ARCH) : list CoreType :=
  map fst match arch with WORMHOLE_B0 => control.wormhole_noc0 | BLACKHOLE => control.blackhole_noc0 | _ => control.grendel_noc0 end.

(** The register of a core that the detectors read exists over NOC 0 and NOC 1. *)
Lemma hang_check_register_exists detector noc :
  noc ≠ SYSTEM_NOC →
  ∃ core addr, get_hang_check_core detector noc = Ok core ∧
    noc_node_id_reg_addr (detector_arch detector)
      (match detector with WormholeHangDetector => ARC | BlackholeHangDetector _ => PCIE end) (noc_number noc) 0 = Ok addr.
Proof. destruct detector as [|[]], noc; try done; intros _; eexists _, _; (split; [|reflexivity]); reflexivity. Qed.

(** An address wraps at 64 bits for no core. *)
Lemma node_id_addr_in_range :
  Forall (λ '(arch, t, noc), is_Ok (noc_node_id_reg_addr arch t noc 0) ∧ is_Ok (noc_translated_id_reg_addr arch t noc 0))
    (arch ← [WORMHOLE_B0; BLACKHOLE; QUASAR]; t ← cores_with_registers arch; [(arch, t, 0); (arch, t, 1)]).
Proof. repeat first [apply Forall_cons; split; [split; by eexists|]|apply Forall_nil; done]. Qed.
