(* ===== verification/WormholeFirmware.v ===== *)
(** * WormholeFirmware

    The Wormhole's ARC firmware as the host drives it:
    [tt_device/firmware/wormhole_arc_window.cpp] (the two windows to the ARC's
    registers and memory, over three routes),
    [tt_device/firmware/wormhole_device_firmware.cpp] (start-up, the mailbox,
    link and DRAM training, clocks) and [arc/wormhole_arc_messenger.cpp].

    The locks that serialize the mailbox are the subject of [RobustMutex];
    here a routine is alone with the firmware. *)

From Stdlib Require Import ZArith Lia QArith.
From stdpp Require Import base list list_numbers numbers strings.
From S2P Require Import Prelude CoreTypes DeviceAccess ArcQueueProperties FirmwareInfo ArchData Harvesting BoardTypes TelemetryReader FirmwareFeatures SocDescriptor ArchRegisters.


(** ** DRAM training

    The wait for the training of a DRAM channel, which the firmware components
    ([tt_device/firmware/blackhole_device_firmware.cpp],
    [wormhole_device_firmware.cpp]) and [TTDevice::wait_dram_channel_training]
    ([tt_device/tt_device.cpp]) share: the channel's status is polled, a failed
    channel is retrained a bounded number of times, and a timeout bounds the
    whole. *)

Local Open Scope Z_scope.

Section Training.
Context {F R : Type} (now : F → Z).
(** [get_dram_training_status] of all channels; the retrain command with the
    sleep after it. *)
Context (statuses : H F R (list DramTrainingStatus)) (retrain : M F unit) (failed_message : string).

(** [true] if the channel is trained, [false] if there is no status. *)
Fixpoint wait_dram_loop (fuel num_retrain_dram_core : nat) (dram_channel start timeout_ms : Z) : H F R bool :=
  match fuel with
  | O => λ _ _, None
  | S fuel =>
      dram_training_status ← statuses;
      match dram_training_status with
      | [] => mret false
      | _ =>
          status ← hlift (vec_at dram_training_status dram_channel);
          num_retrain_dram_core ←
            match status, num_retrain_dram_core with
            | FAIL, O => hraise failed_message
            | FAIL, S n => on_device retrain;; mret n
            | _, n => mret n
            end;
          match status with
          | SUCCESS => mret true
          | _ =>
              on_device (check_timeout now start timeout_ms "DRAM training timed out");;
              wait_dram_loop fuel num_retrain_dram_core dram_channel start timeout_ms
          end
      end
  end.

Definition invalid_channel (dram_channel : Z) : string := "Invalid DRAM channel index " +:+ to_string dram_channel.

Definition wait_dram_training (fuel max_retrain_attempts : nat) (num_dram_channels dram_channel timeout_ms : Z) : H F R bool :=
  if num_dram_channels <=? dram_channel then hraise (invalid_channel dram_channel)
  else
    start ← on_device (steady_clock_now now);
    wait_dram_loop fuel max_retrain_attempts dram_channel start timeout_ms.

(** ** How the wait ends *)

(** A device that counts its retrains; reading the status takes time; the
    message of giving up is this loop's own. *)
Context (retrains : F → nat).
Class DramDevice : Prop := {
  statuses_end r w : ∃ res r' w', statuses r w = Some (res, r', w') ∧
    now (firmware w) < now (firmware w') ∧ retrains (firmware w') = retrains (firmware w) ∧ res ≠ throw failed_message;
  retrain_ends w : ∃ res w', retrain w = Some (res, w') ∧
    now (firmware w) ≤ now (firmware w') ∧ retrains (firmware w') = S (retrains (firmware w)) ∧ res ≠ throw failed_message;
  failed_distinct : failed_message ≠ "DRAM training timed out"%string
}.
Context `{!DramDevice}.

(** From [w] on, with [n] retrains left. *)
Definition training_post (n : nat) (dram_channel : Z) (w : World F) (res : result bool) (r' : R) (w' : World F) : Prop :=
  (retrains (firmware w) ≤ retrains (firmware w') ≤ retrains (firmware w) + n)%nat ∧
  (res = Ok true → ∃ r1 w1 l, statuses r1 w1 = Some (Ok l, r', w') ∧ vec_at l dram_channel = Ok SUCCESS) ∧
  (res = throw failed_message → retrains (firmware w') = (retrains (firmware w) + n)%nat).

Lemma wait_dram_loop_spec dram_channel start timeout_ms :
  0 < timeout_ms →
  ∀ fuel n r w, now (firmware w) - start < patience timeout_ms →
    patience timeout_ms - (now (firmware w) - start) < Z.of_nat fuel →
    hwpf False (wait_dram_loop fuel n dram_channel start timeout_ms) (training_post n dram_channel w) r w.
Proof.
  intros Ht. induction fuel as [|fuel IH]; intros n r w Hw Hfuel; [lia|]. cbn [wait_dram_loop].
  apply hwp_bind. destruct (statuses_end r w) as (res & r1 & w1 & E & Hlt & Hn & Hne). unfold hwpf at 1. rewrite E.
  destruct res as [l|e]; [|by split; [lia|]; split; [done|]; intros [= ->]].
  assert (∀ res, (res = Ok true → vec_at l dram_channel = Ok SUCCESS) → res ≠ throw failed_message →
    training_post n dram_channel w res r1 w1) as Hend.
  { intros res Hres Hne2. split; [lia|]. split; [|done]. intros Hok. exists r, w, l. auto. }
  destruct l as [|s l]; [by apply hwp_ret, Hend|]. set (all := s :: l) in *. clearbody all.
  apply hwp_bind, hwp_lift. destruct (vec_at all dram_channel) as [status|e] eqn:Es.
  2: { apply Hend; [done|]. intros [= ->]. unfold vec_at in Es. by destruct (all !! _). }
  (* After the retrain, if any: the timeout, and the rest of the loop. *)
  assert (∀ n' k w2, status ≠ SUCCESS → (k + n' = n)%nat → now (firmware w1) ≤ now (firmware w2) →
    retrains (firmware w2) = (retrains (firmware w) + k)%nat →
    hwpf False (on_device (check_timeout now start timeout_ms "DRAM training timed out");;
                wait_dram_loop fuel n' dram_channel start timeout_ms) (training_post n dram_channel w) r1 w2) as Hrest.
  { intros n' k w2 _ Hk Hle Hret. apply hwp_bind, hwp_device, wp_check_timeout. destruct (timed_out _ _ _) eqn:Eto.
    - split; [lia|]. split; [done|]. intros [= ?]. by destruct failed_distinct.
    - apply not_timed_out in Eto; [|done]. eapply hwp_mono; [apply (IH n' r1 w2); [done|lia]|].
      intros res r3 w3 (Hb & Hok & Hfail). split; [lia|]. split; [done|]. intros Hres.
      rewrite (Hfail Hres), Hret. lia. }
  destruct status; cbn match.
  - apply hwp_bind, hwp_ret. apply (Hrest n 0%nat); [done|lia|lia|lia].
  - destruct n as [|n]; [by split; [lia|]; split; [done|]; intros; lia|].
    apply hwp_bind, hwp_bind, hwp_device. destruct (retrain_ends w1) as (res & w2 & E2 & Hle & Hn2 & Hne2).
    unfold wpf. rewrite E2. destruct res as [[]|e].
    + apply hwp_ret. apply (Hrest n 1%nat); [done|lia|lia|lia].
    + split; [lia|]. split; [done|]. by intros [= ->].
  - apply hwp_bind, hwp_ret, hwp_ret, Hend; done.
Qed.

(** C12: BOUNDED RETRAINING. With a timeout and a clock that advances, waiting for a
    DRAM channel ends; on the way the channel is retrained at most as often as
    allowed. [true] means that the last status read says the channel is trained;
    giving up on a channel means that all attempts were spent on it. *)
Theorem wait_dram_training_bounded fuel attempts num_channels dram_channel timeout_ms r w :
  enough_polls timeout_ms fuel →
  ∃ res r' w', wait_dram_training fuel attempts num_channels dram_channel timeout_ms r w = Some (res, r', w') ∧
    (num_channels ≤ dram_channel → res = throw (invalid_channel dram_channel) ∧ w' = w) ∧
    (dram_channel < num_channels → training_post attempts dram_channel w res r' w').
Proof.
  intros [Ht Hfuel]. unfold wait_dram_training. destruct (Z.leb_spec num_channels dram_channel) as [Hc|Hc].
  - eexists _, r, w. split; [done|]. split; [done|lia].
  - pose proof (wait_dram_loop_spec dram_channel (now (firmware w)) timeout_ms Ht fuel attempts r w) as Hl.
    unfold mbind, H_bind, on_device, steady_clock_now. unfold hwpf in Hl.
    destruct (wait_dram_loop fuel attempts dram_channel (now (firmware w)) timeout_ms r w) as [[[res r'] w']|].
    + exists res, r', w'. split; [done|]. split; [lia|]. intros _. apply Hl; unfold patience in *; lia.
    + exfalso. apply Hl; unfold patience in *; lia.
Qed.
End Training.

(** ** A channel that trains at the third attempt *)

Record DemoDram := MkDemoDram { dram_clock : Z; dram_retrains : nat }.
Definition demo_statuses : H DemoDram unit (list DramTrainingStatus) := λ r w,
  let f := firmware w in
  Some (Ok [SUCCESS; if (dram_retrains f <? 2)%nat then FAIL else SUCCESS], r,
    MkWorld (mem w) (bar w) (MkDemoDram (dram_clock f + 1) (dram_retrains f))).
Definition demo_retrain : M DemoDram unit := λ w,
  let f := firmware w in Some (Ok tt, MkWorld (mem w) (bar w) (MkDemoDram (dram_clock f + 10) (S (dram_retrains f)))).
Definition demo_dram : World DemoDram := MkWorld (λ _ _, 0) (λ _, 0) (MkDemoDram 0 0).
Definition demo_training (attempts : nat) : option (result bool * nat) :=
  match wait_dram_training dram_clock demo_statuses demo_retrain "failed" 9 attempts 2 1 1 tt demo_dram with
  | Some (res, _, w) => Some (res, dram_retrains (firmware w))
  | None => None
  end.

(** With three attempts it trains after two; with one it is given up. *)
Example demo_trains : demo_training 3 = Some (Ok true, 2%nat) ∧ demo_training 1 = Some (throw "failed", 1%nat).
Proof. split; reflexivity. Qed.

#[global] Instance demo_dram_device : DramDevice dram_clock demo_statuses demo_retrain "failed" dram_retrains.
Proof.
  split.
  - intros r w. eexists _, _, _. split; [done|]. cbn. split; [lia|]. split; done.
  - intros w. eexists _, _. split; [done|]. cbn. split; [lia|]. split; done.
  - done.
Qed.

Lemma wait_dram_training_bounded_witness :
  ∃ res r' w', wait_dram_training dram_clock demo_statuses demo_retrain "failed" (Z.to_nat (patience 1 + 1)) 3 2 1 1 tt demo_dram
      = Some (res, r', w') ∧
    (2 ≤ 1 → res = throw (invalid_channel 1) ∧ w' = demo_dram) ∧
    (1 < 2 → training_post demo_statuses "failed" dram_retrains 3 1 demo_dram res r' w').
Proof.
  apply (wait_dram_training_bounded dram_clock demo_statuses demo_retrain "failed" dram_retrains).
  unfold enough_polls, patience. lia.
Defined.
Local Open Scope Z_scope.

(** ** What both architectures share *)

Definition ARC_MESSAGE_TIMEOUT : Z := 1000.
Definition ARC_TRIGGER_CLEAR_TIMEOUT : Z := 5.
Definition AICLK_TIMEOUT : Z := 200.

(** [EthTrainingStatus] is an enumeration over [int]: a register's word is cast
    to it as it is. *)
Definition ETH_IN_PROGRESS : Z := 0.
Definition ETH_SUCCESS : Z := 1.
Definition ETH_FAIL : Z := 2.
Definition ETH_NOT_CONNECTED : Z := 3.

(** [is_within_percentage] of two 32-bit values: the doubles are exact, and the
    rounding of the product does not move it across an integer. *)
Definition is_within_percentage (value reference percentage : Z) : bool :=
  100 * Z.abs (value - reference) <=? percentage * Z.abs reference.

Inductive ClockState := CLOCK_BUSY | CLOCK_IDLE.

Record DeviceCommandResult := MkCommandResult { exit_code : Z; return_values : list Z }.

(** What the firmware components use of a [FirmwareInfoProvider]. *)
Class FirmwareInfoOps (F R : Type) := {
  info_board_id : H F R (option Z);
  info_asic_location : H F R (option Z);
  info_max_clock_freq : H F R (option Z);
  info_dram_training_status : Z → H F R (list DramTrainingStatus)
}.

(** The provider of [FirmwareInfo] is one. *)
Definition provider_info {F R} `{!FirmwareTelemetryReader F R} (is_smbus_reader : R → bool)
    (env : World F → World F) (locate : NocId → xy_pair → xy_pair) (now : F → Z) (sleep_for : Z → World F → World F)
    (arc_core_noc0 arc_core_noc1 : xy_pair) (selected_noc_id : NocId) (fuel : nat) (p : FirmwareInfoProvider)
    : FirmwareInfoOps F R := {|
  info_board_id := get_board_id env locate now sleep_for arc_core_noc0 arc_core_noc1 selected_noc_id fuel p;
  info_asic_location := get_asic_location env locate now sleep_for arc_core_noc0 arc_core_noc1 selected_noc_id fuel p;
  info_max_clock_freq := get_max_clock_freq env locate now sleep_for arc_core_noc0 arc_core_noc1 selected_noc_id fuel p;
  info_dram_training_status :=
    get_dram_training_status env locate now sleep_for arc_core_noc0 arc_core_noc1 selected_noc_id fuel p
|}.

(** An attempt again and again, with [utils::check_timeout] in between. *)
Fixpoint await {F A} (now : F → Z) (fuel : nat) (attempt : M F (option A)) (start timeout : Z) (msg : string) : M F A :=
  match fuel with
  | O => λ _, None
  | S fuel =>
      r ← attempt;
      match r with
      | Some a => mret a
      | None => check_timeout now start timeout msg;; await now fuel attempt start timeout msg
      end
  end.

(** ** The windows *)

Inductive Content := REGISTERS | MEMORY.
Record Config := MkConfig {
  window_name : string; noc_base_address : Z; bar0_offset_start : Z; size_bytes : Z; content : Content
}.

Definition ARC_APB_NOC_BASE_ADDRESS : Z := 0x800000000 + 0x80000000.
Definition ARC_APB_BAR0_XBAR_OFFSET_START : Z := 0x1FF00000.
Definition ARC_APB_ADDRESS_RANGE : Z := 0x800FFFFF - 0x80000000.
Definition ARC_CSM_NOC_BASE_ADDRESS : Z := 0x800000000 + 0x10000000.
Definition ARC_CSM_BAR0_XBAR_OFFSET_START : Z := 0x1FE80000.
Definition ARC_CSM_ADDRESS_RANGE : Z := 0x1007FFFF - 0x10000000.

Definition arc_apb : Config :=
  MkConfig "ARC APB" ARC_APB_NOC_BASE_ADDRESS ARC_APB_BAR0_XBAR_OFFSET_START (ARC_APB_ADDRESS_RANGE + 1) REGISTERS.
Definition arc_csm : Config :=
  MkConfig "ARC CSM" ARC_CSM_NOC_BASE_ADDRESS ARC_CSM_BAR0_XBAR_OFFSET_START (ARC_CSM_ADDRESS_RANGE + 1) MEMORY.

(** Which interfaces a component is given. *)
Record Interfaces := MkInterfaces {
  device_protocol : bool; pcie_interface : bool; jtag_interface : bool; remote_interface : bool
}.

(** The constructor of [WormholeArcWindow]. *)
Definition new_window (i : Interfaces) (config : Config) : result unit :=
  umd_assert (device_protocol i) ("The " +:+ window_name config +:+ " window requires a DeviceProtocol.") ≫= λ _,
  let transports := Z.b2z (pcie_interface i) + Z.b2z (jtag_interface i) + Z.b2z (remote_interface i) in
  umd_assert (transports =? 1) ("The " +:+ window_name config +:+ " window requires exactly one interface.").

Definition check_access (i : Interfaces) (config : Config) (arc_addr_offset size : Z) : result unit :=
  umd_assert (negb (size =? 0)) ("Zero-length " +:+ window_name config +:+ " access.") ≫= λ _,
  umd_assert (remote_interface i || (size =? 4)) (window_name config +:+ " access over JTAG or the PCIe BAR must be 4 bytes.") ≫= λ _,
  umd_assert ((size <=? size_bytes config) && (arc_addr_offset <=? size_bytes config - size))
    (window_name config +:+ " access does not fit in the window.").

(** Message codes, registers and clocks of [namespace wormhole]. *)
Definition ARC_MSG_COMMON_PREFIX : Z := 0xAA00.
Definition ARC_RESET_SCRATCH_OFFSET : Z := 0x30000 + 0x60.
Definition ARC_RESET_SCRATCH_RES0_OFFSET : Z := ARC_RESET_SCRATCH_OFFSET + 0xC.
Definition ARC_RESET_SCRATCH_RES1_OFFSET : Z := ARC_RESET_SCRATCH_OFFSET + 0x10.
Definition ARC_RESET_SCRATCH_STATUS_OFFSET : Z := ARC_RESET_SCRATCH_OFFSET + 0x14.
Definition ARC_RESET_ARC_MISC_CNTL_OFFSET : Z := 0x30000 + 0x100.
Definition ARC_CSM_ARC_PCIE_DMA_REQUEST : Z := 0x784D4.
Definition GET_AICLK : Z := 0x34.
Definition ARC_GO_BUSY : Z := 0x52.
Definition ARC_GO_LONG_IDLE : Z := 0x54.
Definition ARC_GET_HARVESTING : Z := 0x57.
Definition AICLK_IDLE_VAL : Z := 500.
Definition ETH_TRAIN_STATUS_ADDR : Z := 0x1104.
Definition ETH_RETRAIN_ADDR : Z := 0x1EFC.
Definition ETH_LINK_ERR_STATUS_ADDR : Z := 0x1440.
Definition ETH_TRIGGER_RETRAIN_VAL : Z := 1.
Definition ETH_LINK_UNUSED_ERROR_CODE_RANGE_START : Z := 11.

(** ** The start of the firmware *)

(** The test of a poll of [init_firmware]: the status register, the post code
    and the DMA request word. It throws, or says whether the firmware has started,
    with the id of the message that it is busy with. *)
Definition started (status post_code dma_request message_id : Z) : result (bool * Z) :=
  let is_queued := Z.land status 0xFFFFFF00 =? 0x0000AA00 in
  let is_handling := Z.land status 0xFF00FFFF =? 0xAA000000 in
  let is_complete := 1 <? Z.land status 0x0000FFFF in
  if (status =? 0xFFFFFFFF) || (status =? 0xDEADC0DE) then throw "Firmware startup error"
  else if (status =? 1) || (status =? 0xFFFFDEAD) then Ok (true, message_id)
  else if (status =? 0) &&
          ((post_code =? 0xC0DE0001) || ((0xC0DE003F <=? post_code) && (post_code <=? 0xC0DE007F)))
       then Ok (true, message_id)
  else if is_queued then Ok (false, Z.land status 0xFF)
  else if is_handling then Ok (false, Z.land (Z.shiftr status 16) 0xFF)
  else Ok (is_complete && (dma_request =? 0), message_id).

(** The argument word of a message: two 16-bit halves, all ones if not given. *)
Definition pack_args (args : list Z) : result Z :=
  if 2 <? vec_size args then throw "Wormhole ARC messages are limited to 2 arguments."
  else
    arg0 ← match args with [] => Ok 0xFFFF | a :: _ => if 0xFFFF <? a then throw "Argument 0 exceeds uint16_t maximum." else Ok a end;
    arg1 ← match args with _ :: a :: _ => if 0xFFFF <? a then throw "Argument 1 exceeds uint16_t maximum." else Ok a | _ => Ok 0xFFFF end;
    Ok (Z.lor arg0 (Z.shiftl arg1 16)).

Definition trigger_message (device_id : Z) : string :=
  "Timed out after waiting 5 ms for ARC to clear trigger bit on device " +:+ to_string device_id.
Definition respond_message : string := "Timed out waiting for ARC to respond.".

(** ** The mailbox

    Written once for its two clients, [WormholeDeviceFirmware::send_device_command]
    and [WormholeArcMessenger::send_message], over the register accesses of each
    and over [wait_for_non_mmio_flush]. *)
Section Mailbox.
Context {F : Type} (now : F → Z).
Context (read_from_arc_apb : Z → M F Z) (write_to_arc_apb : Z → Z → M F unit) (flush : M F unit).

Definition trigger_clear : M F (option Z) :=
  misc ← read_from_arc_apb ARC_RESET_ARC_MISC_CNTL_OFFSET;
  mret (if Z.testbit misc 16 then None else Some misc).

(** [wanted]: how many of the result registers the caller has room for. *)
Definition poll_response (msg_code : Z) (wanted : nat) : M F (option DeviceCommandResult) :=
  status ← read_from_arc_apb ARC_RESET_SCRATCH_STATUS_OFFSET;
  if Z.land status 0xffff =? Z.land msg_code 0xff then
    res0 ← (if (1 <=? wanted)%nat then read_from_arc_apb ARC_RESET_SCRATCH_RES0_OFFSET else mret 0);
    res1 ← (if (2 <=? wanted)%nat then read_from_arc_apb ARC_RESET_SCRATCH_RES1_OFFSET else mret 0);
    mret (Some (MkCommandResult (Z.shiftr (Z.land status 0xffff0000) 16) (take wanted [res0; res1])))
  else if status =? HANG_READ_VALUE then
    mret (Some (MkCommandResult HANG_READ_VALUE (take wanted [0; 0])))
  else mret None.

Definition exchange (fuel : nat) (device_id msg_code : Z) (args : list Z) (timeout : Z) (wanted : nat) : M F DeviceCommandResult :=
  fw_arg ← lift (pack_args args);
  write_to_arc_apb ARC_RESET_SCRATCH_RES0_OFFSET fw_arg;;
  write_to_arc_apb ARC_RESET_SCRATCH_STATUS_OFFSET msg_code;;
  flush;;
  trigger_start ← steady_clock_now now;
  misc ← await now fuel trigger_clear trigger_start ARC_TRIGGER_CLEAR_TIMEOUT (trigger_message device_id);
  write_to_arc_apb ARC_RESET_ARC_MISC_CNTL_OFFSET (Z.lor misc (Z.shiftl 1 16));;
  start ← steady_clock_now now;
  await now fuel (poll_response msg_code wanted) start timeout respond_message.

(** [WormholeArcMessenger::send_message]: [return_values] has the size the
    caller gave it and keeps its other elements. [is_pcie_hung] is the
    device's, and its result is dropped. *)
Definition messenger_send_message (fuel : nat) (is_pcie_hung : M F bool) (device_id msg_code : Z) (return_values0 args : list Z)
    (timeout : Z) : M F (Z * list Z) :=
  let wanted := Nat.min (length return_values0) 2 in
  r ← exchange fuel device_id msg_code args timeout wanted;
  _ ← is_pcie_hung;
  mret (exit_code r,
        if exit_code r =? HANG_READ_VALUE then return_values0 else return_values r ++ drop wanted return_values0).
End Mailbox.

(** ** WormholeDeviceFirmware *)
Section WormholeDeviceFirmware.
Context {F : Type} (env : World F → World F) (locate : NocId → xy_pair → xy_pair) (now : F → Z).
Context (sleep_for : Z → World F → World F) (i : Interfaces) (device_id : Z).
(** [remote_interface_->wait_for_non_mmio_flush()]. *)
Context (wait_for_non_mmio_flush : M F unit).

(** [WormholeArcWindow::read] and [write] of [sizeof(uint32_t)] bytes, the size
    of all callers. *)
Definition window_read (config : Config) (arc_addr_offset : Z) (arc_core : xy_pair) (noc_id : NocId) : M F Z :=
  lift (check_access i config arc_addr_offset 4);;
  let noc_address := noc_base_address config + arc_addr_offset in
  if remote_interface i then read_data env locate arc_core noc_address noc_id
  else if jtag_interface i then read_data env locate arc_core noc_address noc_id
  else bar_read32 env (bar0_offset_start config + arc_addr_offset).
Definition window_write (config : Config) (v arc_addr_offset : Z) (arc_core : xy_pair) (noc_id : NocId) : M F unit :=
  lift (check_access i config arc_addr_offset 4);;
  let noc_address := noc_base_address config + arc_addr_offset in
  if remote_interface i then write_data env locate arc_core noc_address v noc_id
  else if jtag_interface i then write_data env locate arc_core noc_address v noc_id
  else bar_write32 env (bar0_offset_start config + arc_addr_offset) v.

(** The constructor: the windows and the ARC core's two coordinates. *)
Definition new_wormhole_firmware : result (xy_pair * xy_pair) :=
  new_window i arc_apb ≫= λ _, new_window i arc_csm ≫= λ _,
  arc ← vec_idx wormhole.ARC_CORES_NOC0 0;
  x ← vec_idx wormhole.NOC0_X_TO_NOC1_X (xy_x arc);
  y ← vec_idx wormhole.NOC0_Y_TO_NOC1_Y (xy_y arc);
  Ok (arc, XY x y).

Context (arc_core_noc0_ arc_core_noc1_ : xy_pair).

Definition get_firmware_noc_coord (noc_id : NocId) : xy_pair :=
  if decide (noc_id = NOC1) then arc_core_noc1_ else arc_core_noc0_.
Definition read_from_arc_apb (off : Z) (noc_id : NocId) : M F Z :=
  window_read arc_apb off (get_firmware_noc_coord noc_id) noc_id.
Definition write_to_arc_apb (v off : Z) (noc_id : NocId) : M F unit :=
  window_write arc_apb v off (get_firmware_noc_coord noc_id) noc_id.
Definition read_from_arc_csm (off : Z) (noc_id : NocId) : M F Z :=
  window_read arc_csm off (get_firmware_noc_coord noc_id) noc_id.

(** The status, the post code and the message id as the polls leave them. *)
Record StartupState := MkStartup { scratch_status : Z; post_code : Z; message_id : Z }.

Definition poll_started (noc_id : NocId) (s : StartupState) : M F (bool * StartupState) :=
  status ← read_from_arc_apb ARC_RESET_SCRATCH_STATUS_OFFSET noc_id;
  post ← read_from_arc_apb ARC_RESET_SCRATCH_OFFSET noc_id;
  dma ← read_from_arc_csm ARC_CSM_ARC_PCIE_DMA_REQUEST noc_id;
  '(ready, m) ← lift (started status post dma (message_id s));
  mret (ready : bool, MkStartup status post m).

Definition init_firmware (fuel : nat) (timeout_ms : Z) (noc_id : NocId) : M F unit :=
  '(arc_core_started, s) ←
    poll_until now sleep_for fuel (poll_started noc_id) (timeout_ms * MILLISECONDS) (1000 * MICROSECONDS) (10 * MICROSECONDS)
      (MkStartup 0 0 0);
  if arc_core_started : bool then mret tt
  else raise "Firmware startup error (Timed out)".

Definition send_device_command (fuel : nat) (msg_code : Z) (args : list Z) (timeout : Z) (noc_id : NocId) : M F DeviceCommandResult :=
  exchange now (λ off, read_from_arc_apb off noc_id) (λ off v, write_to_arc_apb v off noc_id)
    (if remote_interface i then wait_for_non_mmio_flush else mret tt) fuel device_id msg_code args timeout 2.

Definition get_noc_translation_enabled (noc_id : NocId) : M F bool :=
  niu_cfg ← read_from_arc_apb (0x50000 + 0x100) noc_id;
  mret (negb (Z.land niu_cfg (Z.shiftl 1 14) =? 0)).

Definition get_eth_core_training_status (eth_core : xy_pair) (noc_id : NocId) : M F Z :=
  retrain_status ← read_data env locate eth_core ETH_RETRAIN_ADDR noc_id;
  if retrain_status =? ETH_TRIGGER_RETRAIN_VAL then mret ETH_IN_PROGRESS
  else
    training_status ← read_data env locate eth_core ETH_TRAIN_STATUS_ADDR noc_id;
    if training_status =? ETH_FAIL then
      link_err_status ← read_data env locate eth_core ETH_LINK_ERR_STATUS_ADDR noc_id;
      mret (if ETH_LINK_UNUSED_ERROR_CODE_RANGE_START <=? link_err_status then ETH_NOT_CONNECTED else training_status)
    else mret training_status.

(** ** With a provider of the firmware's information

    [None] is a null pointer. *)
Context {R : Type} (provider : option (FirmwareInfoOps F R)).

(** A pointer that is used without a test. *)
Definition deref {A} (f : FirmwareInfoOps F R → H F R A) : H F R A :=
  match provider with Some p => f p | None => hlift (Err UndefinedBehaviour) end.

(** Whether the board is a UBB; [false] without a provider. *)
Definition on_ubb : H F R bool :=
  match provider with
  | None => mret false
  | Some p =>
      id ← info_board_id (FirmwareInfoOps:=p);
      t ← hlift (get_board_type_from_board_id (default 0 id));
      mret (bool_decide (t = UBB))
  end.

(** The test of the timeout of a wait is [duration > timeout_ms], so that a
    timeout of zero does end the wait. *)
Fixpoint wait_eth_loop (fuel : nat) (eth_core : xy_pair) (start timeout_ms : Z) (noc_id : NocId) : H F R bool :=
  match fuel with
  | O => λ _ _, None
  | S fuel =>
      status ← on_device (get_eth_core_training_status eth_core noc_id);
      if negb (status =? ETH_IN_PROGRESS) then mret true
      else
        time ← on_device (steady_clock_now now);
        if timeout_ms <? (time - start) ÷ 1000000 then
          ubb ← on_ubb;
          if ubb : bool then mret false else hraise "ETH training timed out"
        else wait_eth_loop fuel eth_core start timeout_ms noc_id
  end.
Definition wait_eth_core_training (fuel : nat) (eth_core : xy_pair) (timeout_ms : Z) (noc_id : NocId) : H F R bool :=
  start ← on_device (steady_clock_now now);
  wait_eth_loop fuel eth_core start timeout_ms noc_id.

(** Wormhole cannot retrain a channel. *)
Definition wait_dram_channel_training (fuel : nat) (dram_channel timeout_ms : Z) : H F R bool :=
  wait_dram_training now (deref (λ p, info_dram_training_status (FirmwareInfoOps:=p) wormhole.NUM_DRAM_BANKS))
    (raise "DRAM training failed; Wormhole cannot retrain it.") "DRAM training failed; Wormhole cannot retrain it."
    fuel 0 wormhole.NUM_DRAM_BANKS dram_channel timeout_ms.

Definition get_dram_channel_training_status (dram_channel : Z) : H F R DramTrainingStatus :=
  if wormhole.NUM_DRAM_BANKS <=? dram_channel then hraise (invalid_channel dram_channel)
  else
    statuses ← deref (λ p, info_dram_training_status (FirmwareInfoOps:=p) wormhole.NUM_DRAM_BANKS);
    match statuses with
    | [] => hraise "DRAM training status is not available."
    | _ => hlift (vec_at statuses dram_channel)
    end.

Definition get_chip_info (fuel : nat) (noc_id : NocId) : H F R ChipInfo :=
  match provider with
  | None => hraise "Chip info is unavailable without a FirmwareInfoProvider."
  | Some p =>
      translation ← on_device (get_noc_translation_enabled noc_id);
      id ← info_board_id (FirmwareInfoOps:=p);
      let id := default 0 id in
      type ← hlift (get_board_type_from_board_id id);
      location ← info_asic_location (FirmwareInfoOps:=p);
      r ← on_device (send_device_command fuel (Z.lor ARC_MSG_COMMON_PREFIX ARC_GET_HARVESTING) [0; 0] ARC_MESSAGE_TIMEOUT noc_id);
      if negb (exit_code r =? 0) then hraise "Failed to get harvesting masks"
      else
        mask ← hlift (vec_at (return_values r) 0);
        tensix ← hlift (shuffle_tensix_harvesting_mask WORMHOLE_B0 mask);
        mret (MkChipInfo translation (MkMasks tensix 0 0 0 0) type id (default 0 location))
  end.

(** One poll of [wait_for_aiclk_value]; the state is the last AICLK read. *)
Definition poll_aiclk (fuel : nat) (target_aiclk : Z) (noc_id : NocId) (_ : Z) : M F (bool * Z) :=
  r ← send_device_command fuel (Z.lor ARC_MSG_COMMON_PREFIX GET_AICLK) [0; 0] ARC_MESSAGE_TIMEOUT noc_id;
  aiclk ← lift (vec_at (return_values r) 0);
  mret (is_within_percentage aiclk target_aiclk 5, aiclk).
(** An AICLK that is late or not exact is only logged. *)
Definition wait_for_aiclk_value (fuel : nat) (target_aiclk : Z) (noc_id : NocId) (timeout_ms : Z) : M F unit :=
  _ ← poll_until now sleep_for fuel (poll_aiclk fuel target_aiclk noc_id) (timeout_ms * MILLISECONDS)
        (500 * MICROSECONDS) (100 * MICROSECONDS) 0;
  mret tt.

Definition set_clock_state (fuel : nat) (state : ClockState) (noc_id : NocId) : H F R unit :=
  '(msg_code, target_aiclk) ←
    match state with
    | CLOCK_BUSY =>
        target ← deref (λ p, info_max_clock_freq (FirmwareInfoOps:=p));
        mret (Z.lor ARC_MSG_COMMON_PREFIX ARC_GO_BUSY, default 0 target)
    | CLOCK_IDLE => mret (Z.lor ARC_MSG_COMMON_PREFIX ARC_GO_LONG_IDLE, AICLK_IDLE_VAL)
    end;
  r ← on_device (send_device_command fuel msg_code [0; 0] ARC_MESSAGE_TIMEOUT noc_id);
  hlift (umd_assert (exit_code r =? 0) "Failed to set clock state");;
  on_device (wait_for_aiclk_value fuel target_aiclk noc_id AICLK_TIMEOUT).

(** [set_power_state]: only over PCIe. *)
Definition set_power_state {P} (pcie_set_power_state : P → M F unit) (state : P) : M F unit :=
  if negb (pcie_interface i) then mret tt else pcie_set_power_state state.
End WormholeDeviceFirmware.
