(* ===== verification/WormholeMailbox.v ===== *)
(** * WormholeMailbox

    The mailbox between the host and the Wormhole's ARC firmware: what the
    firmware may do with it ([mailbox_step]), and that an exchange of
    [WormholeFirmware] hands the firmware exactly its message and returns the
    answer to it, over every interleaving of the two. *)

From Stdlib Require Import ZArith Lia.
From stdpp Require Import base list numbers strings relations.
From S2P Require Import Prelude CoreTypes DeviceAccess ArcQueueProperties TelemetryReader ArchRegisters WormholeFirmware.

Local Open Scope Z_scope.

(** ** The firmware's side *)

(** The registers of the mailbox with the trigger bit, the message that is
    being worked on, and all that were taken and answered. *)
Record Mailbox := MkMailbox {
  mb_status : Z; mb_res0 : Z; mb_res1 : Z; trigger : bool;
  working : option (Z * Z); handled : list (Z * Z)
}.

(** A message as the firmware marks it while it works on it: not what the host
    polls for. *)
Definition busy_with (msg status : Z) : Prop := Z.land status 0xffff ≠ Z.land msg 0xff ∧ status ≠ HANG_READ_VALUE.
(** The status that goes with an answer. *)
Definition answer_status (msg exit : Z) : Z := Z.lor (Z.shiftl exit 16) (Z.land msg 0xff).

(** The firmware takes the message when the trigger bit is set, clears the bit,
    and answers once; [answers] maps a message with its argument word to the exit
    code and the two results, or to nothing if it is not recognized. *)
Inductive mailbox_step (answers : Z → Z → option (Z * Z * Z)) : Mailbox → Mailbox → Prop :=
  | take_message status res0 res1 status' res0' res1' h :
      busy_with status status' →
      mailbox_step answers (MkMailbox status res0 res1 true None h)
        (MkMailbox status' res0' res1' false (Some (status, res0)) h)
  | answer_message status res0 res1 msg arg exit r0 r1 h :
      answers msg arg = Some (exit, r0, r1) →
      mailbox_step answers (MkMailbox status res0 res1 false (Some (msg, arg)) h)
        (MkMailbox (answer_status msg exit) r0 r1 false None (h ++ [(msg, arg)]))
  | reject_message status res0 res1 msg arg h :
      answers msg arg = None →
      mailbox_step answers (MkMailbox status res0 res1 false (Some (msg, arg)) h)
        (MkMailbox HANG_READ_VALUE res0 res1 false None (h ++ [(msg, arg)])).

(** Exit codes have 16 bits. *)
Definition answers_wf (answers : Z → Z → option (Z * Z * Z)) : Prop :=
  ∀ msg arg exit r0 r1, answers msg arg = Some (exit, r0, r1) → 0 ≤ exit < 2 ^ 16.

Definition idle (m : Mailbox) : Prop := trigger m = false ∧ working m = None.

Lemma idle_steps answers m m' : rtc (mailbox_step answers) m m' → idle m → m' = m.
Proof. intros H. induction H as [m|m m1 m2 Hs _ IH]; [done|]. intros [Ht Hw]. destruct Hs; done. Qed.

(** A message from the moment its trigger bit is set: it waits, is worked on,
    or has been answered. *)
Inductive in_service (answers : Z → Z → option (Z * Z * Z)) (msg arg : Z) (h : list (Z * Z)) : Mailbox → Prop :=
  | is_waiting res1 : in_service answers msg arg h (MkMailbox msg arg res1 true None h)
  | is_worked_on status res0 res1 :
      busy_with msg status → in_service answers msg arg h (MkMailbox status res0 res1 false (Some (msg, arg)) h)
  | is_answered exit r0 r1 :
      answers msg arg = Some (exit, r0, r1) →
      in_service answers msg arg h (MkMailbox (answer_status msg exit) r0 r1 false None (h ++ [(msg, arg)]))
  | is_rejected res0 res1 :
      answers msg arg = None →
      in_service answers msg arg h (MkMailbox HANG_READ_VALUE res0 res1 false None (h ++ [(msg, arg)])).

Lemma in_service_steps answers msg arg h m m' :
  rtc (mailbox_step answers) m m' → in_service answers msg arg h m → in_service answers msg arg h m'.
Proof.
  intros H. induction H as [|m m1 m2 Hs _ IH]; [done|]. intros Hm. apply IH. clear IH.
  destruct Hs; inversion Hm; subst; by constructor.
Qed.

(** What the host reads in the status register. *)
Lemma answer_status_low msg exit : 0 ≤ exit < 2 ^ 16 → Z.land (answer_status msg exit) 0xffff = Z.land msg 0xff.
Proof.
  intros He. unfold answer_status. apply Z.bits_inj'. intros k Hk.
  rewrite !Z.land_spec, Z.lor_spec, Z.land_spec, Z.shiftl_spec by done.
  change 0xffff with (Z.ones 16). change 0xff with (Z.ones 8). rewrite !Z.testbit_ones_nonneg by lia.
  destruct (Z.ltb_spec k 16).
  - rewrite (Z.testbit_neg_r exit) by lia. cbn. by rewrite andb_true_r.
  - destruct (Z.ltb_spec k 8); [lia|]. by rewrite !andb_false_r.
Qed.
Lemma answer_status_exit msg exit : 0 ≤ exit < 2 ^ 16 → Z.shiftr (Z.land (answer_status msg exit) 0xffff0000) 16 = exit.
Proof.
  intros He. unfold answer_status. apply Z.bits_inj'. intros k Hk.
  rewrite Z.shiftr_spec, Z.land_spec, Z.lor_spec, Z.land_spec, Z.shiftl_spec by lia.
  replace (k + 16 - 16) with k by lia. change 0xff with (Z.ones 8).
  change 0xffff0000 with (Z.shiftl (Z.ones 16) 16). rewrite Z.shiftl_spec, !Z.testbit_ones_nonneg by lia.
  replace (k + 16 - 16) with k by lia. destruct (Z.ltb_spec (k + 16) 8); [lia|]. rewrite andb_false_r, orb_false_r.
  destruct (Z.ltb_spec k 16); [by rewrite andb_true_r|]. rewrite andb_false_r. symmetry.
  destruct (Z.eq_dec exit 0) as [->|]; [apply Z.bits_0|]. apply Z.bits_above_log2; [lia|].
  enough (Z.log2 exit < 16) by lia. apply Z.log2_lt_pow2; lia.
Qed.

(** ** Access to the mailbox *)

Definition mailbox_register (off : Z) : Prop :=
  off ∈ [ARC_RESET_SCRATCH_RES0_OFFSET; ARC_RESET_SCRATCH_RES1_OFFSET; ARC_RESET_SCRATCH_STATUS_OFFSET;
         ARC_RESET_ARC_MISC_CNTL_OFFSET].

(** Routines that read and write the registers in which a world holds the
    mailbox: the interface between the exchange and the routes to the device. *)
Class ApbAccess {F} (env : World F → World F) (register : Z → World F → Z)
    (read : Z → M F Z) (write : Z → Z → M F unit) : Prop := {
  apb_read off w : mailbox_register off → read off w = Some (Ok (register off (env w)), env w);
  apb_write off v w : mailbox_register off → ∃ w', write off v w = Some (Ok tt, w') ∧
    firmware w' = firmware (env w) ∧
    ∀ off', mailbox_register off' → register off' w' = if decide (off' = off) then v else register off' (env w)
}.

(** ** Waiting *)

Section Await.
Context {F : Type} (now : F → Z).

(** An invariant of the attempts, which take time. *)
Lemma wp_await {A} (attempt : M F (option A)) start timeout msg (I : World F → Prop) (Q : result A → World F → Prop) :
  0 < timeout →
  (∀ w, I w → wp attempt (λ r w', match r with
     | Ok None => I w' ∧ now (firmware w) < now (firmware w')
     | Ok (Some a) => Q (Ok a) w'
     | Err e => Q (Err e) w' end) w) →
  (∀ w, I w → Q (throw msg) w) →
  ∀ fuel w, I w → now (firmware w) - start < patience timeout →
    patience timeout - (now (firmware w) - start) < Z.of_nat fuel → wp (await now fuel attempt start timeout msg) Q w.
Proof.
  intros Ht Hattempt Hthrow. induction fuel as [|fuel IH]; intros w HI Hw Hfuel; [lia|]. cbn [await].
  apply wp_bind. eapply wp_mono; [by apply Hattempt|]. intros [[a|]|e] w' HQ; [done| |done].
  destruct HQ as [HI' Hlt]. apply wp_bind, wp_check_timeout. destruct (timed_out _ _ _) eqn:E; [by apply Hthrow|].
  apply not_timed_out in E; [|done]. apply IH; [done|done|lia].
Qed.

(** The first attempt succeeds. *)
Lemma wp_await_once {A} (attempt : M F (option A)) start timeout msg (Q : result A → World F → Prop) fuel w :
  (0 < fuel)%nat →
  wp attempt (λ r w', match r with Ok (Some a) => Q (Ok a) w' | Ok None => False | Err e => Q (Err e) w' end) w →
  wp (await now fuel attempt start timeout msg) Q w.
Proof.
  intros Hfuel Hwp. destruct fuel as [|fuel]; [lia|]. cbn [await]. apply wp_bind. eapply wp_mono; [exact Hwp|].
  by intros [[a|]|e] w' HQ.
Qed.

End Await.

(** ** The exchange *)

Section Exchange.
Context {F : Type} (env : World F → World F) (now : F → Z) (register : Z → World F → Z).
Context (read : Z → M F Z) (write : Z → Z → M F unit) (flush : M F unit).
Context `{!ApbAccess env register read write}.
(** What the firmware is working on, and what it has done. *)
Context (fw_working : F → option (Z * Z)) (fw_handled : F → list (Z * Z)).
Context (answers : Z → Z → option (Z * Z * Z)).
Implicit Types (w : World F).

Definition mailbox_of (w : World F) : Mailbox :=
  MkMailbox (register ARC_RESET_SCRATCH_STATUS_OFFSET w) (register ARC_RESET_SCRATCH_RES0_OFFSET w)
    (register ARC_RESET_SCRATCH_RES1_OFFSET w) (Z.testbit (register ARC_RESET_ARC_MISC_CNTL_OFFSET w) 16)
    (fw_working (firmware w)) (fw_handled (firmware w)).

(** The device obeys the protocol of the mailbox, its clock advances, and a
    flush takes no part in the protocol. *)
Class MailboxDevice : Prop := {
  env_steps w : rtc (mailbox_step answers) (mailbox_of w) (mailbox_of (env w));
  env_ticks w : now (firmware w) < now (firmware (env w));
  flush_steps w : ∃ r w', flush w = Some (r, w') ∧ rtc (mailbox_step answers) (mailbox_of w) (mailbox_of w')
}.
Context `{!MailboxDevice} (Hwf : answers_wf answers).

Lemma registers_listed :
  mailbox_register ARC_RESET_SCRATCH_RES0_OFFSET ∧ mailbox_register ARC_RESET_SCRATCH_RES1_OFFSET ∧
  mailbox_register ARC_RESET_SCRATCH_STATUS_OFFSET ∧ mailbox_register ARC_RESET_ARC_MISC_CNTL_OFFSET.
Proof. unfold mailbox_register. repeat split; set_solver. Qed.

Lemma wp_register off (Q : result Z → World F → Prop) w :
  mailbox_register off → Q (Ok (register off (env w))) (env w) → wp (read off) Q w.
Proof. intros Hoff HQ. unfold wpf. by rewrite (apb_read off w Hoff). Qed.

(** A write by the host, as the mailbox sees it. *)
Lemma wp_write_status v (Q : result unit → World F → Prop) w :
  (∀ w', mailbox_of w' = MkMailbox v (mb_res0 (mailbox_of (env w))) (mb_res1 (mailbox_of (env w)))
     (trigger (mailbox_of (env w))) (working (mailbox_of (env w))) (handled (mailbox_of (env w))) → Q (Ok tt) w') →
  wp (write ARC_RESET_SCRATCH_STATUS_OFFSET v) Q w.
Proof.
  intros HQ. destruct registers_listed as (L0 & L1 & L2 & L3). unfold wpf.
  destruct (apb_write ARC_RESET_SCRATCH_STATUS_OFFSET v w L2) as (w' & -> & Hf & Hr). apply HQ. unfold mailbox_of.
  by rewrite Hf, !Hr.
Qed.
Lemma wp_write_res0 v (Q : result unit → World F → Prop) w :
  (∀ w', mailbox_of w' = MkMailbox (mb_status (mailbox_of (env w))) v (mb_res1 (mailbox_of (env w)))
     (trigger (mailbox_of (env w))) (working (mailbox_of (env w))) (handled (mailbox_of (env w))) → Q (Ok tt) w') →
  wp (write ARC_RESET_SCRATCH_RES0_OFFSET v) Q w.
Proof.
  intros HQ. destruct registers_listed as (L0 & L1 & L2 & L3). unfold wpf.
  destruct (apb_write ARC_RESET_SCRATCH_RES0_OFFSET v w L0) as (w' & -> & Hf & Hr). apply HQ. unfold mailbox_of.
  by rewrite Hf, !Hr.
Qed.
Lemma wp_write_misc v (Q : result unit → World F → Prop) w :
  (∀ w', mailbox_of w' = MkMailbox (mb_status (mailbox_of (env w))) (mb_res0 (mailbox_of (env w))) (mb_res1 (mailbox_of (env w)))
     (Z.testbit v 16) (working (mailbox_of (env w))) (handled (mailbox_of (env w))) → Q (Ok tt) w') →
  wp (write ARC_RESET_ARC_MISC_CNTL_OFFSET v) Q w.
Proof.
  intros HQ. destruct registers_listed as (L0 & L1 & L2 & L3). unfold wpf.
  destruct (apb_write ARC_RESET_ARC_MISC_CNTL_OFFSET v w L3) as (w' & -> & Hf & Hr). apply HQ. unfold mailbox_of.
  by rewrite Hf, !Hr.
Qed.

Lemma idle_env w : idle (mailbox_of w) → mailbox_of (env w) = mailbox_of w.
Proof. apply idle_steps with answers, env_steps. Qed.

(** The reply to a message: the exit code and as many results as wanted. *)
Definition reply_of (msg arg : Z) (wanted : nat) : DeviceCommandResult :=
  match answers msg arg with
  | Some (exit, r0, r1) => MkCommandResult exit (take wanted [r0; r1])
  | None => MkCommandResult HANG_READ_VALUE (take wanted [0; 0])
  end.

Definition prefixed (msg : Z) : Prop := Z.land msg 0xff00 = ARC_MSG_COMMON_PREFIX.
Lemma prefixed_busy msg : prefixed msg → busy_with msg msg.
Proof.
  unfold prefixed, ARC_MSG_COMMON_PREFIX, busy_with. intros Hp. split.
  - intros E. assert (Z.testbit (Z.land msg 0xff00) 15 = true) as Hb by (rewrite Hp; reflexivity).
    rewrite Z.land_spec in Hb. apply andb_true_iff in Hb as [Hb _].
    assert (Z.testbit (Z.land msg 0xffff) 15 = true) as Hc by (rewrite Z.land_spec, Hb; reflexivity).
    rewrite E, Z.land_spec in Hc. apply andb_true_iff in Hc as [_ Hc]. discriminate.
  - intros ->. discriminate.
Qed.

(** One poll for the response. *)
Lemma poll_response_spec msg arg h wanted (Q : result (option DeviceCommandResult) → World F → Prop) w :
  prefixed msg → in_service answers msg arg h (mailbox_of w) →
  (∀ w', in_service answers msg arg h (mailbox_of w') → now (firmware w) < now (firmware w') → Q (Ok None) w') →
  (∀ w', idle (mailbox_of w') → handled (mailbox_of w') = h ++ [(msg, arg)] → Q (Ok (Some (reply_of msg arg wanted))) w') →
  wp (poll_response read msg wanted) Q w.
Proof.
  intros Hp Hs HNone HSome. destruct registers_listed as (L0 & L1 & L2 & L3).
  apply wp_bind, wp_register; [done|]. pose proof (env_ticks w) as Htick. pose proof (env_steps w) as Hsteps.
  pose proof (in_service_steps _ _ _ _ _ _ Hsteps Hs) as Hs1. set (w1 := env w) in *. clearbody w1.
  change (register ARC_RESET_SCRATCH_STATUS_OFFSET w1) with (mb_status (mailbox_of w1)).
  remember (mailbox_of w1) as m1 eqn:E1. symmetry in E1. destruct Hs1 as [res1|status res0 res1 Hb|exit r0 r1 Ha|res0 res1 Ha].
  - cbn [mb_status]. destruct (prefixed_busy msg Hp) as [Hb1 Hb2].
    apply Z.eqb_neq in Hb1 as ->. apply Z.eqb_neq in Hb2 as ->. apply wp_ret, HNone; [rewrite E1; constructor|done].
  - cbn [mb_status]. pose proof Hb as [Hb1 Hb2]. apply Z.eqb_neq in Hb1 as ->. apply Z.eqb_neq in Hb2 as ->. apply wp_ret, HNone; [|done].
    rewrite E1. by constructor.
  - cbn [mb_status]. rewrite answer_status_low, answer_status_exit by (by eapply Hwf).
    rewrite Z.eqb_refl.
    assert (∀ w', mailbox_of w' = mailbox_of w1 → Q (Ok (Some (reply_of msg arg wanted))) w') as Hdone.
    { intros w' E. apply HSome; rewrite E, E1; done. }
    assert (∀ w', mailbox_of w' = mailbox_of w1 → mailbox_of (env w') = mailbox_of w1) as Hstay.
    { intros w' E. rewrite <- E. apply idle_env. rewrite E, E1. done. }
    assert (∀ w', mailbox_of w' = mailbox_of w1 → register ARC_RESET_SCRATCH_RES0_OFFSET w' = r0) as Hr0.
    { intros w' E. change (mb_res0 (mailbox_of w') = r0). by rewrite E, E1. }
    assert (∀ w', mailbox_of w' = mailbox_of w1 → register ARC_RESET_SCRATCH_RES1_OFFSET w' = r1) as Hr1.
    { intros w' E. change (mb_res1 (mailbox_of w') = r1). by rewrite E, E1. }
    apply wp_bind. destruct wanted as [|[|wanted]]; cbn [Nat.leb].
    + apply wp_ret, wp_bind, wp_ret, wp_ret. pose proof (Hdone w1 eq_refl) as HD. unfold reply_of in HD. by rewrite Ha in HD.
    + apply wp_register; [done|]. rewrite Hr0 by auto. apply wp_bind, wp_ret, wp_ret.
      pose proof (Hdone (env w1) (Hstay w1 eq_refl)) as HD. unfold reply_of in HD. by rewrite Ha in HD.
    + apply wp_register; [done|]. rewrite Hr0 by auto. apply wp_bind, wp_register; [done|]. rewrite Hr1 by auto. apply wp_ret.
      pose proof (Hdone (env (env w1)) (Hstay _ (Hstay w1 eq_refl))) as HD. unfold reply_of in HD. by rewrite Ha in HD.
  - cbn [mb_status]. assert ((Z.land HANG_READ_VALUE 0xffff =? Z.land msg 0xff) = false) as ->.
    { apply Z.eqb_neq. change (Z.land HANG_READ_VALUE 0xffff) with 0xffff. intros E.
      pose proof (Z.land_ones msg 8 ltac:(lia)) as Hl. change (Z.ones 8) with 0xff in Hl.
      pose proof (Z.mod_pos_bound msg (2 ^ 8) ltac:(lia)). lia. }
    rewrite Z.eqb_refl. apply wp_ret.
    pose proof (HSome w1) as HD. unfold reply_of in HD. rewrite Ha, E1 in HD. by apply HD.
Qed.

(** How an exchange of [msg] ends, from [w] to [w']. *)
Definition exchange_post (msg : Z) (args : list Z) (wanted : nat) (w : World F) (r : result DeviceCommandResult) (w' : World F) : Prop :=
  match r with
  | Ok reply => ∃ arg, pack_args args = Ok arg ∧ reply = reply_of msg arg wanted ∧ idle (mailbox_of w') ∧
      handled (mailbox_of w') = handled (mailbox_of w) ++ [(msg, arg)]
  | Err e =>
      (pack_args args = Err e ∧ w' = w) ∨
      (∃ w0 w1, flush w0 = Some (Err e, w1)) ∨
      (e = RuntimeError respond_message ∧ ∃ arg, in_service answers msg arg (handled (mailbox_of w)) (mailbox_of w'))
  end.

Lemma exchange_spec fuel device_id msg args timeout wanted w :
  prefixed msg → enough_polls timeout fuel → idle (mailbox_of w) →
  wp (exchange now read write flush fuel device_id msg args timeout wanted) (exchange_post msg args wanted w) w.
Proof.
  intros Hp Hfuel Hidle. destruct registers_listed as (L0 & L1 & L2 & L3). unfold exchange.
  apply wp_bind, wp_lift. destruct (pack_args args) as [arg|e] eqn:Hargs; [|by left].
  apply wp_bind, wp_write_res0. intros w1 E1. rewrite idle_env in E1 by done.
  assert (idle (mailbox_of w1)) as Hi1 by (rewrite E1; done).
  apply wp_bind, wp_write_status. intros w2 E2. rewrite idle_env in E2 by done. rewrite E1 in E2. cbn [mb_status mb_res0 mb_res1 trigger working handled] in E2.
  assert (idle (mailbox_of w2)) as Hi2 by (rewrite E2; done).
  apply wp_bind. destruct (flush_steps w2) as (r & w3 & Hflush & Hs3). unfold wpf at 1. rewrite Hflush.
  apply idle_steps in Hs3; [|done]. destruct r as [[]|e]; [|right; left; eauto].
  (* The trigger bit is clear already. *)
  assert (idle (mailbox_of w3)) as Hi3 by (rewrite Hs3; done). pose proof (idle_env w3 Hi3) as E4. set (w4 := env w3) in *.
  apply wp_bind, wp_now, wp_bind, wp_await_once; [destruct Hfuel; unfold patience in *; lia|].
  apply wp_bind, wp_register; [done|]. fold w4.
  assert (Z.testbit (register ARC_RESET_ARC_MISC_CNTL_OFFSET w4) 16 = false) as ->.
  { change (trigger (mailbox_of w4) = false). rewrite E4. apply Hi3. }
  assert (idle (mailbox_of w4)) as Hi4 by (rewrite E4; done). apply wp_ret, wp_bind, wp_write_misc.
  intros w5 E5. rewrite idle_env in E5 by done. rewrite E4, Hs3, E2 in E5. cbn [mb_status mb_res0 mb_res1 trigger working handled] in E5.
  rewrite Z.lor_spec, orb_true_r in E5. rewrite (proj2 Hidle) in E5. clearbody w4.
  apply (wp_bind _ _ _ _ w5), wp_now.
  destruct Hfuel as [Ht Hfuel].
  apply (wp_await now _ _ timeout _ (λ w', in_service answers msg arg (handled (mailbox_of w)) (mailbox_of w')));
    [done| | |by rewrite E5; constructor|unfold patience; lia|lia].
  - intros w6 Hs. eapply poll_response_spec; [done|exact Hs|done|]. intros w7 Hi7 Hh7. exists arg. by split_and!.
  - intros w6 Hs. right. right. split; [done|]. by exists arg.
Qed.
End Exchange.

(** ** The routes to the device *)

(** A register of the ARC's APB window, where the route finds it. *)
Definition apb_register {F} (locate : NocId → xy_pair → xy_pair) (i : Interfaces) (arc_core : xy_pair) (noc : NocId)
    (off : Z) (w : World F) : Z :=
  if remote_interface i || jtag_interface i then mem w (locate noc arc_core) (noc_base_address arc_apb + off)
  else bar w (bar0_offset_start arc_apb + off).

Lemma mailbox_register_allowed i off : mailbox_register off → check_access i arc_apb off 4 = Ok tt.
Proof.
  unfold mailbox_register, check_access. intros Hoff.
  rewrite !elem_of_cons, elem_of_nil in Hoff. by destruct Hoff as [->|[->|[->|[->|[]]]]], (remote_interface i).
Qed.

#[global] Instance window_access {F} (env : World F → World F) locate i core0 core1 noc :
  ApbAccess env (apb_register locate i (get_firmware_noc_coord core0 core1 noc) noc)
    (λ off, read_from_arc_apb env locate i core0 core1 off noc)
    (λ off v, write_to_arc_apb env locate i core0 core1 v off noc).
Proof.
  split.
  - intros off w Hoff. unfold read_from_arc_apb, window_read, lift, mbind, M_bind.
    rewrite mailbox_register_allowed by done. unfold apb_register. destruct (remote_interface i); [done|].
    by destruct (jtag_interface i).
  - intros off v w Hoff. unfold write_to_arc_apb, window_write, lift, mbind, M_bind.
    rewrite mailbox_register_allowed by done. unfold apb_register.
    destruct (remote_interface i); [|destruct (jtag_interface i)]; (eexists; split; [done|]; split; [done|]);
      intros off' _; cbn; repeat case_decide; done || (exfalso; intuition lia).
Qed.

(** C7: EXCHANGE. From an idle mailbox, over PCIe, JTAG or a remote route and over
    every interleaving with a firmware that obeys the mailbox's protocol,
    [send_device_command] ends; when it returns, the firmware has taken exactly this
    message with exactly these arguments, once, and the result is the firmware's
    answer to it; when it throws, the arguments were bad and nothing was touched,
    or the flush threw, or the firmware is late and has the message still. *)
Theorem send_device_command_exchange {F} (env : World F → World F) locate (now : F → Z) i device_id flush core0 core1
    fw_working fw_handled answers fuel msg args timeout noc w :
  MailboxDevice env now (apb_register locate i (get_firmware_noc_coord core0 core1 noc) noc)
    (if remote_interface i then flush else mret tt) fw_working fw_handled answers →
  answers_wf answers → prefixed msg → enough_polls timeout fuel →
  idle (mailbox_of (apb_register locate i (get_firmware_noc_coord core0 core1 noc) noc) fw_working fw_handled w) →
  ∃ r w', send_device_command env locate now i device_id flush core0 core1 fuel msg args timeout noc w = Some (r, w') ∧
    exchange_post (apb_register locate i (get_firmware_noc_coord core0 core1 noc) noc)
      (if remote_interface i then flush else mret tt) fw_working fw_handled answers msg args 2 w r w'.
Proof.
  intros Hdev Hwf Hp Hfuel Hidle. apply wp_returns. unfold send_device_command. by eapply (exchange_spec env now _ _ _ _ fw_working fw_handled answers).
Qed.

(** ** A firmware *)

(** It adds one to the argument of a message; odd message codes are not known. *)
Record DemoFirmware := MkDemo { demo_clock : Z; demo_working : option (Z * Z); demo_handled : list (Z * Z) }.
Definition demo_answers (msg arg : Z) : option (Z * Z * Z) := if Z.odd msg then None else Some (0, arg + 1, 5).
Definition demo_at (off : Z) : Z := bar0_offset_start arc_apb + off.
Definition demo_env (w : World DemoFirmware) : World DemoFirmware :=
  let f := firmware w in
  let status := bar w (demo_at ARC_RESET_SCRATCH_STATUS_OFFSET) in
  let misc := bar w (demo_at ARC_RESET_ARC_MISC_CNTL_OFFSET) in
  let set off v b := λ a, if decide (a = demo_at off) then v else b a in
  match demo_working f with
  | Some (msg, arg) =>
      let f' := MkDemo (demo_clock f + 1) None (demo_handled f ++ [(msg, arg)]) in
      if Z.testbit misc 16 then MkWorld (mem w) (bar w) (MkDemo (demo_clock f + 1) (demo_working f) (demo_handled f))
      else if Z.odd msg then MkWorld (mem w) (set ARC_RESET_SCRATCH_STATUS_OFFSET HANG_READ_VALUE (bar w)) f'
      else MkWorld (mem w) (set ARC_RESET_SCRATCH_STATUS_OFFSET (answer_status msg 0)
             (set ARC_RESET_SCRATCH_RES0_OFFSET (arg + 1) (set ARC_RESET_SCRATCH_RES1_OFFSET 5 (bar w)))) f'
  | None =>
      if Z.testbit misc 16 then
        MkWorld (mem w) (set ARC_RESET_SCRATCH_STATUS_OFFSET (if Z.land status 0xff =? 0 then 1 else 0)
          (set ARC_RESET_ARC_MISC_CNTL_OFFSET (Z.clearbit misc 16) (bar w)))
          (MkDemo (demo_clock f + 1) (Some (status, bar w (demo_at ARC_RESET_SCRATCH_RES0_OFFSET))) (demo_handled f))
      else MkWorld (mem w) (bar w) (MkDemo (demo_clock f + 1) None (demo_handled f))
  end.
Definition demo_interfaces : Interfaces := MkInterfaces true true false false.
Definition demo_locate (_ : NocId) (c : xy_pair) : xy_pair := c.
Definition demo_core : xy_pair := XY 0 10.

#[global] Instance demo_device :
  MailboxDevice demo_env demo_clock (apb_register demo_locate demo_interfaces (get_firmware_noc_coord demo_core demo_core NOC0) NOC0)
    (mret tt) demo_working demo_handled demo_answers.
Proof.
  split.
  - intros [m b [c k h]]. unfold demo_env, mailbox_of, apb_register. cbn [firmware demo_working demo_clock demo_handled bar mem].
    change (remote_interface demo_interfaces || jtag_interface demo_interfaces) with false. cbn match.
    fold (demo_at ARC_RESET_SCRATCH_STATUS_OFFSET) (demo_at ARC_RESET_SCRATCH_RES0_OFFSET)
      (demo_at ARC_RESET_SCRATCH_RES1_OFFSET) (demo_at ARC_RESET_ARC_MISC_CNTL_OFFSET).
    destruct k as [[msg arg]|]; cbn [firmware demo_working demo_clock demo_handled bar mem].
    + destruct (Z.testbit (b (demo_at ARC_RESET_ARC_MISC_CNTL_OFFSET)) 16) eqn:Et;
        [cbn [firmware demo_working demo_clock demo_handled bar mem]; by rewrite Et|].
      apply rtc_once. destruct (Z.odd msg) eqn:Eo; cbn [firmware demo_working demo_clock demo_handled bar mem];
        repeat first [rewrite decide_True by done|rewrite decide_False by discriminate]; rewrite Et.
      * apply reject_message. unfold demo_answers. by rewrite Eo.
      * apply answer_message. unfold demo_answers. by rewrite Eo.
    + destruct (Z.testbit (b (demo_at ARC_RESET_ARC_MISC_CNTL_OFFSET)) 16) eqn:Et;
        [|cbn [firmware demo_working demo_clock demo_handled bar mem]; by rewrite Et].
      apply rtc_once. cbn [firmware demo_working demo_clock demo_handled bar mem].
      repeat first [rewrite decide_True by done|rewrite decide_False by discriminate].
      rewrite Z.clearbit_eq by done. apply take_message. unfold busy_with, HANG_READ_VALUE.
      destruct (Z.eqb_spec (Z.land (b (demo_at ARC_RESET_SCRATCH_STATUS_OFFSET)) 255) 0) as [E|E]; [rewrite E|];
        (split; [|done]); [done|exact (not_eq_sym E)].
  - intros [m b [c k h]]. unfold demo_env. cbn. destruct k as [[msg arg]|]; repeat case_match; cbn; lia.
  - intros w. eexists _, w. split; [done|done].
Qed.

Definition demo_start : World DemoFirmware := MkWorld (λ _ _, 0) (λ _, 0) (MkDemo 0 None []).
(** The arguments 3 and 1 of message 0xAA34 arrive as [0x10003]. *)
Definition demo_outcome : option (result DeviceCommandResult * list (Z * Z)) :=
  match send_device_command demo_env demo_locate demo_clock demo_interfaces 0 (mret tt) demo_core demo_core
          (Pos.to_nat 20) 0xAA34 [3; 1] 1000 NOC0 demo_start with
  | Some (r, w) => Some (r, demo_handled (firmware w))
  | None => None
  end.
Example demo_exchange : demo_outcome = Some (Ok (MkCommandResult 0 [0x10004; 5]), [(0xAA34, 0x10003)]).
Proof. vm_compute. reflexivity. Qed.

Lemma send_device_command_exchange_witness :
  ∃ r w', send_device_command demo_env demo_locate demo_clock demo_interfaces 0 (mret tt) demo_core demo_core
      (Z.to_nat (patience 1000 + 1)) 0xAA34 [3; 1] 1000 NOC0 demo_start = Some (r, w') ∧
    exchange_post (apb_register demo_locate demo_interfaces (get_firmware_noc_coord demo_core demo_core NOC0) NOC0)
      (mret tt) demo_working demo_handled demo_answers 0xAA34 [3; 1] 2 demo_start r w'.
Proof.
  apply (send_device_command_exchange demo_env demo_locate demo_clock demo_interfaces 0 (mret tt) demo_core demo_core
    demo_working demo_handled demo_answers).
  - exact demo_device.
  - intros msg arg exit r0 r1. unfold demo_answers. destruct (Z.odd msg); [discriminate|]. intros [= <- _ _]. lia.
  - reflexivity.
  - unfold enough_polls, patience. lia.
  - split; reflexivity.
Defined.
