(* ===== verification/BlackholeFirmware.v ===== *)
(** * BlackholeFirmware

    The Blackhole's ARC firmware as the host drives it
    ([tt_device/firmware/blackhole_device_firmware.cpp]): start-up and the
    message queue that it publishes, commands, chip information from telemetry,
    link training, DRAM training with its retrains, clocks; and
    [arc/blackhole_arc_messenger.cpp]. The messages travel by [ArcQueue]. *)

From Stdlib Require Import ZArith Lia QArith.
From stdpp Require Import base list list_numbers numbers strings.
From S2P Require Import Prelude CoreTypes ArchData Harvesting BoardTypes DeviceAccess ArcQueue TelemetryReader FirmwareFeatures FirmwareInfo SocDescriptor ArchRegisters WormholeFirmware.

Local Open Scope Z_scope.

Definition SCRATCH_RAM_2 : Z := 0x30000 + 0x408.
Definition SCRATCH_RAM_4 : Z := 0x30000 + 0x410.
Definition NIU_CFG_NOC0_BAR_PCIE_ADDR : Z := 0x1FD04000.
Definition NIU_CFG_NOC0_ARC_ADDR : Z := 0x80050100.
Definition PORT_STATUS_ADDR : Z := 0x7CC04.
Definition BlackholeArcMessageQueueIndex_APPLICATION : Z := 3.
Definition TOGGLE_GDDR_RESET : Z := 0xB6.
Definition AICLK_GO_BUSY : Z := 0x52.
Definition AICLK_GO_LONG_IDLE : Z := 0x54.
Definition BH_AICLK_IDLE_VAL : Z := 800.
Definition MAX_DRAM_RETRAIN_ATTEMPTS : nat := 3.

(** The object: the queue, once the firmware has started, and the ARC core's two
    coordinates. *)
Record BlackholeDeviceFirmware := MkBlackholeFirmware {
  arc_msg_queue_ : option BlackholeArcMessageQueue; bh_arc_core_noc0_ : xy_pair; bh_arc_core_noc1_ : xy_pair
}.

Module BH.
Section BlackholeDeviceFirmware.
Context {F R : Type} `{!FirmwareTelemetryReader F R}.
Context (env : World F → World F) (locate : NocId → xy_pair → xy_pair) (now : F → Z).
Context (sleep_for : Z → World F → World F) (arc_route : Route).
(** [jtag_interface->mmio_read32]. *)
Context (mmio_read32 : Z → M F Z).

Definition get_noc_translation_enabled : M F bool :=
  niu_cfg ← match arc_route with
            | JTAG_route => mmio_read32 NIU_CFG_NOC0_ARC_ADDR
            | PCIE_route => bar_read32 env (NIU_CFG_NOC0_BAR_PCIE_ADDR + 0x100)
            end;
  mret (negb (Z.land (Z.shiftr niu_cfg 14) 1 =? 0)).

(** The constructor; the interfaces are given as [arc_route]. *)
Definition new_blackhole_firmware : M F BlackholeDeviceFirmware :=
  translation ← get_noc_translation_enabled;
  c0 ← lift (get_arc_core translation false);
  c1 ← lift (get_arc_core translation true);
  mret (MkBlackholeFirmware None c0 c1).

Context (fw : BlackholeDeviceFirmware).

Definition get_firmware_noc_coord (noc_id : NocId) : xy_pair :=
  if decide (noc_id = DeviceAccess.NOC1) then bh_arc_core_noc1_ fw else bh_arc_core_noc0_ fw.
Definition read_from_arc_apb (off : Z) (noc_id : NocId) : M F Z :=
  arc_apb_read env locate arc_route off (get_firmware_noc_coord noc_id) noc_id.
Definition write_to_arc_apb (v off : Z) (noc_id : NocId) : M F unit :=
  arc_apb_write env locate arc_route v off (get_firmware_noc_coord noc_id) noc_id.

(** A poll for the boot status; the state is the status and the post code. *)
Definition poll_boot (noc_id : NocId) (_ : Z * Z) : M F (bool * (Z * Z)) :=
  arc_boot_status ← read_from_arc_apb SCRATCH_RAM_2 noc_id;
  arc_postcode ← read_from_arc_apb ARC_RESET_SCRATCH_OFFSET noc_id;
  mret (Z.land arc_boot_status 0x7 =? 0x5, (arc_boot_status, arc_postcode)).

(** The object with its queue. *)
Definition init_firmware (fuel : nat) (timeout_ms : Z) (noc_id : NocId) : M F BlackholeDeviceFirmware :=
  _ ← read_from_arc_apb ARC_RESET_SCRATCH_OFFSET noc_id;
  '(arc_core_started, _) ←
    poll_until now sleep_for fuel (poll_boot noc_id) (timeout_ms * MILLISECONDS) (1000 * MICROSECONDS) (10 * MICROSECONDS) (0, 0);
  if arc_core_started : bool then
    translation ← get_noc_translation_enabled;
    q ← get_blackhole_arc_message_queue env locate arc_route mmio_read32 translation
          BlackholeArcMessageQueueIndex_APPLICATION noc_id;
    mret (MkBlackholeFirmware (Some q) (bh_arc_core_noc0_ fw) (bh_arc_core_noc1_ fw))
  else
    _ ← read_from_arc_apb SCRATCH_RAM_4 noc_id;
    raise "Firmware startup error (Timed out)".

(** The message type is an 8-bit enumeration. *)
Definition send_device_command (fuel : nat) (msg_code : Z) (args : list Z) (timeout : Z) (noc_id : NocId) : M F DeviceCommandResult :=
  match arc_msg_queue_ fw with
  | None => raise "ARC message queue is unavailable because init_firmware() has not been run."
  | Some q =>
      '(code, values) ← send_message env locate now arc_route q fuel (u8 msg_code) args timeout noc_id;
      mret (MkCommandResult code values)
  end.

(** [BlackholeArcMessenger::send_message], over the queue of the messenger. *)
Definition messenger_send_message (fuel : nat) (blackhole_arc_msg_queue : BlackholeArcMessageQueue) (msg_code : Z) (args : list Z)
    (timeout_ms : Z) (selected_noc_id : NocId) : M F (Z * list Z) :=
  send_message env locate now arc_route blackhole_arc_msg_queue fuel (u8 msg_code) args timeout_ms selected_noc_id.

Definition get_eth_core_training_status (eth_core : xy_pair) (noc_id : NocId) : M F Z :=
  read_data env locate eth_core PORT_STATUS_ADDR noc_id.

Fixpoint wait_eth_loop (fuel : nat) (eth_core : xy_pair) (start timeout_ms : Z) (noc_id : NocId) : M F bool :=
  match fuel with
  | O => λ _, None
  | S fuel =>
      status ← get_eth_core_training_status eth_core noc_id;
      if negb (status =? ETH_IN_PROGRESS) then mret true
      else
        time ← steady_clock_now now;
        if timeout_ms <? (time - start) ÷ 1000000 then mret false
        else wait_eth_loop fuel eth_core start timeout_ms noc_id
  end.
Definition wait_eth_core_training (fuel : nat) (eth_core : xy_pair) (timeout_ms : Z) (noc_id : NocId) : M F bool :=
  start ← steady_clock_now now;
  wait_eth_loop fuel eth_core start timeout_ms noc_id.

Definition retrain_dram_core (fuel : nat) (dram_channel : Z) (noc_id : NocId) : M F unit :=
  r ← send_device_command fuel TOGGLE_GDDR_RESET [dram_channel] ARC_MESSAGE_TIMEOUT noc_id;
  if negb (exit_code r =? 0) then raise "Failed to retrain DRAM core" else mret tt.

(** ** With a provider and a telemetry reader *)
Context (provider : option (FirmwareInfoOps F R)) (has_telemetry_reader : bool).

(** [is_entry_available(tag) ? f(read_entry(tag)) : 0]. *)
Definition entry_or_zero (tag : Z) (f : Z → result Z) : H F R Z := λ r w,
  if tr_is_entry_available tag r then
    match tr_read_entry tag r w with
    | Some (Ok (v, r'), w') => Some (f v, r', w')
    | Some (Err e, w') => Some (Err e, r, w')
    | None => None
    end
  else Some (Ok 0, r, w).

(** PCIE cores that are not endpoints. *)
Definition pcie_harvested (pcie_usage : Z) : Z :=
  let pcie0_usage := Z.land pcie_usage 0x3 in
  let pcie1_usage := Z.land (Z.shiftr pcie_usage 2) 0x3 in
  Z.lor (if negb (pcie0_usage =? 1) then 1 else 0) (if negb (pcie1_usage =? 1) then Z.shiftl 1 1 else 0).

(** The shuffle of the Tensix mask is applied to zero too. *)
Definition tensix_mask : H F R Z :=
  mask ← entry_or_zero TelemetryTag.ENABLED_TENSIX_COL (λ v, Ok (Z.land (Z.lnot v) 0x3FFF));
  hlift (shuffle_tensix_harvesting_mask BLACKHOLE mask).

Definition get_chip_info (noc_id : NocId) : H F R ChipInfo :=
  match provider with
  | Some p =>
      if negb has_telemetry_reader then hraise "Chip info is unavailable without a FirmwareInfoProvider and a FirmwareTelemetryReader."
      else
        translation ← on_device get_noc_translation_enabled;
        id ← info_board_id (FirmwareInfoOps:=p);
        let id := default 0 id in
        type ← hlift (get_board_type_from_board_id id);
        location ← info_asic_location (FirmwareInfoOps:=p);
        tensix ← tensix_mask;
        dram ← entry_or_zero TelemetryTag.ENABLED_GDDR (λ v, Ok (Z.land (Z.lnot v) 0xFF));
        eth ← entry_or_zero TelemetryTag.ENABLED_ETH (λ v, Ok (Z.land (Z.lnot v) 0x3FFF));
        pcie ← entry_or_zero TelemetryTag.PCIE_USAGE (λ v, Ok (pcie_harvested v));
        l2cpu ← entry_or_zero TelemetryTag.ENABLED_L2CPU (shuffle_l2cpu_harvesting_mask BLACKHOLE);
        mret (MkChipInfo translation (MkMasks tensix dram eth pcie l2cpu) type id (default 0 location))
  | None => hraise "Chip info is unavailable without a FirmwareInfoProvider and a FirmwareTelemetryReader."
  end.

Definition retrain_and_wait (fuel : nat) (dram_channel : Z) (noc_id : NocId) : M F unit :=
  retrain_dram_core fuel dram_channel noc_id;;
  this_thread_sleep_for sleep_for (1000 * MILLISECONDS).

(** [command_fuel] is that of each retrain command. *)
Definition wait_dram_channel_training (fuel command_fuel : nat) (dram_channel timeout_ms : Z) (noc_id : NocId) : H F R bool :=
  wait_dram_training now (deref provider (λ p, info_dram_training_status (FirmwareInfoOps:=p) blackhole.NUM_DRAM_BANKS))
    (retrain_and_wait command_fuel dram_channel noc_id) "DRAM training failed after 3 retrain attempts."
    fuel MAX_DRAM_RETRAIN_ATTEMPTS blackhole.NUM_DRAM_BANKS dram_channel timeout_ms.

Definition get_dram_channel_training_status (dram_channel : Z) : H F R DramTrainingStatus :=
  if blackhole.NUM_DRAM_BANKS <=? dram_channel then hraise (invalid_channel dram_channel)
  else
    statuses ← deref provider (λ p, info_dram_training_status (FirmwareInfoOps:=p) blackhole.NUM_DRAM_BANKS);
    match statuses with
    | [] => hraise "DRAM training status is not available."
    | _ => hlift (vec_at statuses dram_channel)
    end.

(** The polls read the AICLK from the telemetry reader, which they may update. *)
Definition poll_aiclk (target_aiclk : Z) (r : R) : M F (bool * R) :=
  '(aiclk, r) ← tr_read_entry TelemetryTag.AICLK r;
  mret (is_within_percentage aiclk target_aiclk 5, r).
Definition wait_for_aiclk_value (fuel : nat) (target_aiclk : Z) (timeout_ms : Z) : H F R unit := λ r w,
  match poll_until now sleep_for fuel (poll_aiclk target_aiclk) (timeout_ms * MILLISECONDS)
          (500 * MICROSECONDS) (100 * MICROSECONDS) r w with
  | Some (Ok (_, r'), w') => Some (Ok tt, r', w')
  | Some (Err e, w') => Some (Err e, r, w')
  | None => None
  end.

Definition set_clock_state (fuel : nat) (state : ClockState) (noc_id : NocId) : H F R unit :=
  '(msg_code, target_aiclk) ←
    match state with
    | CLOCK_BUSY =>
        target ← deref provider (λ p, info_max_clock_freq (FirmwareInfoOps:=p));
        mret (AICLK_GO_BUSY, default 0 target)
    | CLOCK_IDLE => mret (AICLK_GO_LONG_IDLE, BH_AICLK_IDLE_VAL)
    end;
  r ← on_device (send_device_command fuel msg_code [] ARC_MESSAGE_TIMEOUT noc_id);
  hlift (umd_assert (exit_code r =? 0) "Failed to set clock state");;
  wait_for_aiclk_value fuel target_aiclk AICLK_TIMEOUT.
End BlackholeDeviceFirmware.
End BH.
