(* ===== verification/TTDevice.v ===== *)
(** * TTDevice

    [tt_device/tt_device.cpp]: the device that the rest of the driver works
    with, over the interfaces it is built on ([DeviceProtocol], [DmaInterface],
    the transports). Coordinates are resolved by the SoC descriptor, writes to a
    range of cores fall back to one write per core, DMA falls back to plain
    accesses, and the resets of RISC cores are read-modify-write accesses to one register. *)

From Stdlib Require Import ZArith Lia QArith.
From stdpp Require Import base list list_numbers numbers strings.
From S2P Require Import Prelude CoreTypes ArchData Harvesting BoardTypes RiscType SemVer RemoteQueue SocDescriptor DeviceAccess ArchRegisters TelemetryReader FirmwareInfo WormholeFirmware.

Local Open Scope Z_scope.

(** ** The interfaces ([tt_device/protocol/*.hpp]) *)

Class DeviceProtocol (F : Type) := {
  protocol_read_data : xy_pair → Z → nat → NocId → M F (list Z);
  protocol_write_data : list Z → xy_pair → Z → NocId → M F unit;
  protocol_read_ctrl : xy_pair → Z → nat → NocId → M F (list Z);
  protocol_write_ctrl : list Z → xy_pair → Z → NocId → M F unit;
  (** [false]: not supported for this range, and nothing was written. *)
  write_to_core_range : list Z → xy_pair → xy_pair → Z → NocId → M F bool
}.

(** Transfers that may be unavailable: no bytes, or [false]. *)
Class DmaInterface (F : Type) := {
  protocol_dma_read : Z → nat → xy_pair → NocId → M F (option (list Z));
  protocol_dma_write : list Z → Z → xy_pair → NocId → M F bool;
  protocol_dma_multicast_write : list Z → Z → xy_pair → xy_pair → NocId → M F bool;
  protocol_dma_read_zero_copy : Z → Z → nat → xy_pair → NocId → M F bool;
  protocol_dma_write_zero_copy : Z → Z → nat → xy_pair → NocId → M F bool
}.

Inductive IODeviceKind := PCIe_device | JTAG_device | UNDEFINED_device.

Definition DEFAULT_NOC : NocId := DeviceAccess.NOC0.

(** ** Constants of the architectures *)

Definition get_tensix_soft_reset_addr (arch : ARCH) : Z := match arch with QUASAR => 0x030179B0 | _ => 0xFFB121B0 end.
Definition get_soft_reset_staggered_start (arch : ARCH) : Z := match arch with QUASAR => 0 | _ => 2 ^ 31 end.
Definition get_soft_reset_reg_value (arch : ARCH) (risc_type : Z) : result Z :=
  match arch with
  | WORMHOLE_B0 => wormhole_reset.get_soft_reset_reg_value risc_type
  | BLACKHOLE => blackhole_reset.get_soft_reset_reg_value risc_type
  | QUASAR => grendel_reset.get_soft_reset_reg_value risc_type
  | Invalid => Err UndefinedBehaviour
  end.
Definition ARC_RESET_REFCLK_LOW_OFFSET : Z := 0x30000 + 0xE0.
Definition ARC_RESET_REFCLK_HIGH_OFFSET : Z := 0x30000 + 0xE4.

(** ** Which transport a device has *)

(** [get_communication_device_type]; [local_kind] is that of the local device
    that a remote one is reached through. *)
Definition get_communication_device_type (i : Interfaces) (local_kind : IODeviceKind) : IODeviceKind :=
  if pcie_interface i then PCIe_device
  else if jtag_interface i then JTAG_device
  else if remote_interface i then local_kind
  else UNDEFINED_device.
Definition is_remote (i : Interfaces) : bool := remote_interface i.
(** [get_pcie_interface] and the like: an interface that is missing throws. *)
Definition get_interface (present : bool) (name : string) : result unit :=
  umd_assert present (name +:+ " interface is not available for this device.").

(** The architectures that a device can be created for, by transport. *)
Definition create_supported (arch : ARCH) (remote : bool) : result unit :=
  match arch with
  | WORMHOLE_B0 => Ok tt
  | BLACKHOLE => if remote then throw "Remote TTDevice creation is not supported for blackhole architecture." else Ok tt
  | _ => throw ("Creating TTDevice is not supported for " +:+ arch_to_str arch +:+ " architecture.")
  end.
Definition check_safe_api (use_safe_api : bool) (kind : IODeviceKind) : result unit :=
  umd_assert (negb use_safe_api || match kind with PCIe_device => true | _ => false end)
    "Safe I/O API is not supported for non-PCIe device types.".

Section TTDevice.
Context {F : Type} `{!DeviceProtocol F} `{!DmaInterface F} (now : F → Z).
Context (sleep_for : Z → World F → World F) (arch : ARCH) (i : Interfaces).
(** Once the device is initialised. *)
Context (soc_descriptor_ : option Soc.SocDescriptor).

Definition get_soc_descriptor : result Soc.SocDescriptor :=
  match soc_descriptor_ with Some soc => Ok soc | None => throw "UninitializedDeviceError" end.
Definition resolve_coordinate (core : CoreCoord) (noc_id : NocId) : result xy_pair :=
  if decide (coord_system core = LITERAL) then Ok (to_pair core)
  else match soc_descriptor_ with
       | None => throw "UnresolvableCoordinateError"
       | Some soc => Soc.translate_chip_coord_to_translated soc core noc_id
       end.

(** ** Accesses *)

Definition read_from_device (core : CoreCoord) (addr : Z) (size : nat) (noc_id : NocId) : M F (list Z) :=
  c ← lift (resolve_coordinate core noc_id); protocol_read_data c addr size noc_id.
Definition write_to_device (src : list Z) (core : CoreCoord) (addr : Z) (noc_id : NocId) : M F unit :=
  c ← lift (resolve_coordinate core noc_id); protocol_write_data src c addr noc_id.
Definition read_from_device_reg (core : CoreCoord) (addr : Z) (size : nat) (noc_id : NocId) : M F (list Z) :=
  c ← lift (resolve_coordinate core noc_id); protocol_read_ctrl c addr size noc_id.
Definition write_to_device_reg (src : list Z) (core : CoreCoord) (addr : Z) (noc_id : NocId) : M F unit :=
  c ← lift (resolve_coordinate core noc_id); protocol_write_ctrl src c addr noc_id.

(** ** Resets of RISC cores *)

Definition get_risc_reset_state (core : CoreCoord) : M F Z :=
  bytes ← read_from_device_reg core (get_tensix_soft_reset_addr arch) 4 DEFAULT_NOC;
  mret (le_word bytes).
Definition set_risc_reset_state (core : CoreCoord) (risc_flags : Z) : M F unit :=
  write_to_device_reg (word_bytes risc_flags) core (get_tensix_soft_reset_addr arch) DEFAULT_NOC.
Definition assert_risc_reset (core : CoreCoord) (selected_riscs : Z) : M F unit :=
  soft_reset_current_state ← get_risc_reset_state core;
  soft_reset_update ← lift (get_soft_reset_reg_value arch selected_riscs);
  set_risc_reset_state core (Z.lor soft_reset_current_state soft_reset_update).
Definition deassert_risc_reset (core : CoreCoord) (selected_riscs : Z) (staggered_start : bool) : M F unit :=
  soft_reset_current_state ← get_risc_reset_state core;
  soft_reset_update ← lift (get_soft_reset_reg_value arch selected_riscs);
  let soft_reset_new := Z.ldiff soft_reset_current_state soft_reset_update in
  set_risc_reset_state core
    (Z.lor soft_reset_new (if staggered_start then get_soft_reset_staggered_start arch else 0)).

(** ** Writes to a range of cores *)

(** [remote_communication->wait_for_non_mmio_flush()]. *)
Context (remote_flush : M F unit).
Definition wait_for_non_mmio_flush : M F unit := if is_remote i then remote_flush else mret tt.

Fixpoint write_cores (src : list Z) (cores : list CoreCoord) (x_min x_max y_min y_max addr : Z) (noc_id : NocId) : M F unit :=
  match cores with
  | [] => mret tt
  | core :: cores =>
      (if (x_min <=? cc_x core) && (cc_x core <=? x_max) && (y_min <=? cc_y core) && (cc_y core <=? y_max)
       then write_to_device src core addr noc_id else mret tt);;
      write_cores src cores x_min x_max y_min y_max addr noc_id
  end.
Definition multicast_write_via_unicast (src : list Z) (core_start core_end : CoreCoord) (addr : Z) (noc_id : NocId) : M F unit :=
  translated_start ← lift (resolve_coordinate core_start noc_id);
  translated_end ← lift (resolve_coordinate core_end noc_id);
  soc_descriptor ← lift get_soc_descriptor;
  cores ← lift (Soc.get_cores soc_descriptor TENSIX TRANSLATED None);
  write_cores src cores (Z.min (xy_x translated_start) (xy_x translated_end)) (Z.max (xy_x translated_start) (xy_x translated_end))
    (Z.min (xy_y translated_start) (xy_y translated_end)) (Z.max (xy_y translated_start) (xy_y translated_end)) addr noc_id.

Definition assert_translation : result unit :=
  soc ← get_soc_descriptor;
  umd_assert (Soc.noc_translation soc) "Multicast not implemented for devices without NOC translation enabled.".
Definition noc_multicast_write (src : list Z) (core_start core_end : CoreCoord) (addr : Z) (noc_id : NocId) : M F unit :=
  lift assert_translation;;
  translated_start ← lift (resolve_coordinate core_start noc_id);
  translated_end ← lift (resolve_coordinate core_end noc_id);
  multicast_success ← write_to_core_range src translated_start translated_end addr noc_id;
  if multicast_success : bool then wait_for_non_mmio_flush
  else
    multicast_write_via_unicast src core_start core_end addr noc_id;;
    wait_for_non_mmio_flush.
(** The overload without a range. *)
Definition noc_multicast_write_all (src : list Z) (addr : Z) (noc_id : NocId) : M F unit :=
  lift assert_translation;;
  soc ← lift get_soc_descriptor;
  '(start, finish) ← lift (Soc.get_bounding_rectangle soc
     (if decide (noc_id = DeviceAccess.NOC0) then CoreTypes.NOC0 else CoreTypes.NOC1) TENSIX);
  noc_multicast_write src start finish addr noc_id.

(** ** DMA *)

(** [acquire_mutex(PCIE_DMA, ...)] and its release; the lock is released when the
    transfer throws as well. *)
Context (dma_lock dma_unlock : M F unit).
Definition under_dma_lock {A} (m : M F A) : M F A := λ w,
  match dma_lock w with
  | Some (Ok _, w1) =>
      match m w1 with
      | Some (r, w2) => match dma_unlock w2 with Some (_, w3) => Some (r, w3) | None => None end
      | None => None
      end
  | Some (Err e, w1) => Some (Err e, w1)
  | None => None
  end.
Definition refuse_remote (what : string) : M F unit :=
  if is_remote i then raise (what +:+ " not supported for remote device.") else mret tt.
Context (dma_available : bool).
Definition get_dma_interface : result unit := get_interface dma_available "DMA".

Definition dma_write (src : list Z) (dst_addr : Z) (core : CoreCoord) (noc_id : NocId) : M F unit :=
  refuse_remote "DMA write";;
  dma_success ← under_dma_lock (
    lift get_dma_interface;; c ← lift (resolve_coordinate core noc_id); protocol_dma_write src dst_addr c noc_id);
  if dma_success : bool then mret tt else write_to_device src core dst_addr noc_id.
Definition dma_read (src_addr : Z) (size : nat) (core : CoreCoord) (noc_id : NocId) : M F (list Z) :=
  refuse_remote "DMA read from device";;
  bytes ← under_dma_lock (
    lift get_dma_interface;; c ← lift (resolve_coordinate core noc_id); protocol_dma_read src_addr size c noc_id);
  match bytes with Some bytes => mret bytes | None => read_from_device core src_addr size noc_id end.
Definition dma_write_to_core_range (src : list Z) (dst_addr : Z) (core_start core_end : CoreCoord) (noc_id : NocId) : M F unit :=
  refuse_remote "DMA write to core range";;
  dma_success ← under_dma_lock (
    lift get_dma_interface;;
    c0 ← lift (resolve_coordinate core_start noc_id);
    c1 ← lift (resolve_coordinate core_end noc_id);
    protocol_dma_multicast_write src dst_addr c0 c1 noc_id);
  if dma_success : bool then mret tt else noc_multicast_write src core_start core_end dst_addr noc_id.
Definition dma_read_zero_copy (dst_iova src_addr : Z) (size : nat) (core : CoreCoord) (noc_id : NocId) : M F unit :=
  refuse_remote "DMA zero-copy read";;
  under_dma_lock (
    lift get_dma_interface;;
    c ← lift (resolve_coordinate core noc_id);
    dma_success ← protocol_dma_read_zero_copy dst_iova src_addr size c noc_id;
    lift (umd_assert dma_success "DMA zero-copy read failed: no DMA buffer allocated for this device.")).
Definition dma_write_zero_copy (src_iova dst_addr : Z) (size : nat) (core : CoreCoord) (noc_id : NocId) : M F unit :=
  refuse_remote "DMA zero-copy write";;
  under_dma_lock (
    lift get_dma_interface;;
    c ← lift (resolve_coordinate core noc_id);
    dma_success ← protocol_dma_write_zero_copy src_iova dst_addr size c noc_id;
    lift (umd_assert dma_success "DMA zero-copy write failed: no DMA buffer allocated for this device.")).

(** ** The virtual functions of the architecture

    [read_from_arc_apb] of a word, [get_clock], [retrain_dram_core]; the hang
    detector's answers. *)
Context (read_from_arc_apb : Z → M F Z).

(** The source reads the upper half into [high1_addr] twice and [high2_addr]
    not at all. *)
Definition get_refclk_counter : M F Z :=
  high1_addr ← read_from_arc_apb ARC_RESET_REFCLK_HIGH_OFFSET;
  low_addr ← read_from_arc_apb ARC_RESET_REFCLK_LOW_OFFSET;
  high1_addr ← read_from_arc_apb ARC_RESET_REFCLK_HIGH_OFFSET;
  let high2_addr := 0 in
  low_addr ← (if high1_addr <? high2_addr then read_from_arc_apb ARC_RESET_REFCLK_LOW_OFFSET else mret low_addr);
  mret (Z.lor (u64 (Z.shiftl high2_addr 32)) low_addr).

Inductive HangAction := HANG_THROW | HANG_RETURN.
(** [is_pcie_hung] and [is_noc_hung], over the detector's answer; [None]
    is a device without a detector. *)
Definition hung_result (detector : option (M F (option bool))) (action : HangAction) (what : string) : M F bool :=
  match detector with
  | None => raise "HangDetector is not available for this device."
  | Some check =>
      result ← check;
      match result with
      | None => mret false
      | Some hung =>
          if hung : bool then match action with HANG_THROW => raise what | HANG_RETURN => mret true end else mret false
      end
  end.
Definition is_pcie_hung (bus_hung : option (Z → M F (option bool))) (data_read : Z) (action : HangAction) : M F bool :=
  hung_result (option_map (λ check, check data_read) bus_hung) action "PcieHangError".
Definition is_noc_hung (noc_hung : option (NocId → M F (option bool))) (noc : NocId) (action : HangAction) : M F bool :=
  hung_result (option_map (λ check, check noc) noc_hung) action
    ("NOC" +:+ to_string (noc_number noc) +:+ " appears hung: you should reset the board.").

(** [wait_for_aiclk_value]; [get_clock] may throw. *)
Definition poll_clock (get_clock : M F Z) (target_aiclk : Z) (_ : Z) : M F (bool * Z) :=
  aiclk ← get_clock; mret (is_within_percentage aiclk target_aiclk 5, aiclk).
(** The warning of a timeout reads the clock once more; the temperature and the
    telemetry that it prints are left out. *)
Definition wait_for_aiclk_value (fuel : nat) (get_clock : M F Z) (target_aiclk timeout_ms : Z) : M F unit :=
  '(settled, _) ← poll_until now sleep_for fuel (poll_clock get_clock target_aiclk) (timeout_ms * MILLISECONDS)
        (500 * MICROSECONDS) (100 * MICROSECONDS) 0;
  if settled : bool then mret tt else _ ← get_clock; mret tt.

(** [wait_dram_channel_training]. *)
Definition wait_dram_channel_training {R} (fuel max_retrain_attempts : nat) (statuses : H F R (list DramTrainingStatus)) (retrain : M F unit)
    (num_dram_channels dram_channel timeout_ms : Z) : H F R unit :=
  _ ← wait_dram_training now statuses (retrain;; this_thread_sleep_for sleep_for (1000 * MILLISECONDS))
        "DRAM training failed" fuel max_retrain_attempts num_dram_channels dram_channel timeout_ms;
  mret tt.

(** ** Initialisation *)

(** The steps of [init_tt_device] that make the parts of the device, in their
    order; each may throw, and leaves the later ones undone. *)
Definition init_tt_device {P T I} (bus_check : M F bool) (noc_hung : M F (option bool)) (probe_arc : M F unit)
    (wait_arc_core_start : M F unit) (create_arc_messenger : M F P) (create_telemetry_reader : M F T)
    (create_firmware_info_provider : T → M F I) (get_chip_info : P → I → M F ChipInfo)
    (soc_arch_descriptor : option SocArch.SocArchDescriptor) : M F (P * T * I * Soc.SocDescriptor) :=
  _ ← (if pcie_interface i then bus_check else mret false);
  hung ← noc_hung;
  if default false hung then raise "NocHangError"
  else
    probe_arc;;
    wait_arc_core_start;;
    messenger ← create_arc_messenger;
    telemetry ← create_telemetry_reader;
    provider ← create_firmware_info_provider telemetry;
    chip_info ← get_chip_info messenger provider;
    arch_descriptor ← match soc_arch_descriptor with
                      | Some d => mret d
                      | None => lift (SocArch.SocArchDescriptor_of_arch arch)
                      end;
    soc ← lift (Soc.SocDescriptor_new (Some arch_descriptor) chip_info);
    mret (messenger, telemetry, provider, soc).
End TTDevice.

(** [set_soc_descriptor]: once. *)
Definition set_soc_descriptor (soc_descriptor : Soc.SocDescriptor) (soc_descriptor_ : option Soc.SocDescriptor)
    : result (option Soc.SocDescriptor) :=
  match soc_descriptor_ with
  | Some _ => throw "SocDescriptor cannot be re-assgined to TTDevice."
  | None => Ok (Some soc_descriptor)
  end.
