(* ===== verification/TlbManager.v ===== *)
(** * TlbManager

    [chip_helpers/tlb_manager.cpp] and the accesses of [chip/local_chip.cpp]: the
    static TLB windows that a user has asked for, kept by core, the two windows
    that a local chip keeps for all other accesses, and the reads and writes
    that go through one or the other.

    All windows share the registers and the device behind them, so a window is
    kept here without them ([ChipWindow]) and is put in front of the device for
    each access. Windows are given out by the kernel driver, a parameter; the
    device moves by [tick] before each access. An operation of a window that
    throws leaves the state it started in: what it had already done is not
    tracked. *)

From Stdlib Require Import ZArith Lia.
From stdpp Require Import base list list_numbers numbers strings gmap.
From S2P Require Import Prelude CoreTypes Tlb ArchTlbs TlbWindow DeviceAccess SocDescriptor ArchRegisters TTDevice.

Local Open Scope Z_scope.

Inductive TlbMapping := UC | WC.

(** ** The state of a local chip's accesses *)

Record ChipWindow := MkChipWindow { cw_handle : TlbHandle; cw_offset : Z }.
Record TLBManager := MkTLBManager {
  tlb_config_map_ : gmap Z Z; map_core_to_tlb_ : gmap xy_pair Z; tlb_windows_ : gmap Z ChipWindow
}.
Definition empty_manager : TLBManager := MkTLBManager ∅ ∅ ∅.
Definition cw_id (cw : ChipWindow) : Z := tlb_id (cw_handle cw).

(** [A] is the state of the driver. *)
Record LocalIo (D A : Type) := MkIo {
  tlb_manager : TLBManager; cached_wc_tlb_window : option ChipWindow; cached_uc_tlb_window : option ChipWindow;
  space : ConfigSpace; dev : D; driver : A; clock : Z
}.
Arguments MkIo {D A}.
Arguments tlb_manager {D A}.
Arguments cached_wc_tlb_window {D A}.
Arguments cached_uc_tlb_window {D A}.
Arguments space {D A}.
Arguments dev {D A}.
Arguments driver {D A}.
Arguments clock {D A}.

Section State.
Context {D A : Type}.
Implicit Types (s : LocalIo D A) (m : TLBManager).

(** A window with the device behind it, and what an access leaves. *)
Definition open_window (cw : ChipWindow) s : Window D := MkWindow (cw_handle cw) (cw_offset cw) (space s) (dev s).
Definition kept_window (w : Window D) : ChipWindow := MkChipWindow (tlb_handle w) (offset_from_aligned_addr w).
Definition set_behind (w : Window D) s : LocalIo D A :=
  MkIo (tlb_manager s) (cached_wc_tlb_window s) (cached_uc_tlb_window s) (config_space w) (device w) (driver s) (clock s).
Definition set_manager m s : LocalIo D A :=
  MkIo m (cached_wc_tlb_window s) (cached_uc_tlb_window s) (space s) (dev s) (driver s) (clock s).
Definition set_driver (a : A) s : LocalIo D A :=
  MkIo (tlb_manager s) (cached_wc_tlb_window s) (cached_uc_tlb_window s) (space s) (dev s) a (clock s).
Definition set_cached (mapping : TlbMapping) (cw : ChipWindow) s : LocalIo D A :=
  match mapping with
  | WC => MkIo (tlb_manager s) (Some cw) (cached_uc_tlb_window s) (space s) (dev s) (driver s) (clock s)
  | UC => MkIo (tlb_manager s) (cached_wc_tlb_window s) (Some cw) (space s) (dev s) (driver s) (clock s)
  end.
Definition cached (mapping : TlbMapping) s : option ChipWindow :=
  match mapping with WC => cached_wc_tlb_window s | UC => cached_uc_tlb_window s end.
End State.

(** ** TLBManager *)

Definition cw_base_address (cw : ChipWindow) : Z := u64 (local_offset (tlb_config (cw_handle cw)) + cw_offset cw).
Definition cw_size (cw : ChipWindow) : Z := u64 (tlb_size (cw_handle cw) - cw_offset cw).

Definition is_tlb_mapped (core : xy_pair) (m : TLBManager) : bool := bool_decide (is_Some (map_core_to_tlb_ m !! core)).
Definition get_tlb_window (core : xy_pair) (m : TLBManager) : result ChipWindow :=
  match map_core_to_tlb_ m !! core with
  | Some i => match tlb_windows_ m !! i with Some cw => Ok cw | None => Err OutOfRange end
  | None => throw ("TLB window for core (" +:+ to_string (xy_x core) +:+ ", " +:+ to_string (xy_y core) +:+ ") not found.")
  end.
(** [size_in_bytes] is a [uint32_t]; the callers pass a [size_t]. *)
Definition is_range_mapped (core : xy_pair) (address size_in_bytes : Z) (m : TLBManager) : result bool :=
  if is_tlb_mapped core m then
    cw ← get_tlb_window core m;
    Ok ((cw_base_address cw <=? address) &&
        (u64 (address + u32 size_in_bytes) <=? u64 (cw_base_address cw + cw_size cw)))
  else Ok false.
Definition get_tlb_configuration (arch : ARCH) (core : xy_pair) (m : TLBManager) : result tlb_configuration :=
  umd_assert (is_tlb_mapped core m) "TLB not mapped for core";;
  match map_core_to_tlb_ m !! core with
  | Some tlb_index => tlbs ← get_architecture_tlbs arch; get_configuration tlbs tlb_index
  | None => Err OutOfRange
  end.
(** What [configure_tlb] keeps of a new window. *)
Definition record_window (core : xy_pair) (address : Z) (cw : ChipWindow) (m : TLBManager) : TLBManager :=
  let window_size := tlb_size (cw_handle cw) in
  MkTLBManager (map_insert_new (cw_id cw) (address `div` window_size * window_size) (tlb_config_map_ m))
    (map_insert_new core (cw_id cw) (map_core_to_tlb_ m)) (map_insert_new (cw_id cw) cw (tlb_windows_ m)).
(** The configuration of a window for a core, [configure_tlb] and the register
    accesses of [LocalChip]. *)
Definition window_config (tlbs : ArchitectureTlbs) (core : xy_pair) (address ordering : Z) (noc : NocId) : tlb_data :=
  MkTlbData address (xy_x core) (xy_y core) 0 0 (if decide (noc = DeviceAccess.NOC1) then 1 else 0) 0 ordering 0
    (if use_static_vc tlbs then 1 else 0).

Section Io.
Context {D A : Type} `{NocDevice D} (tick : D * Z → D * Z).
(** [PCIDevice::allocate_tlb] and the release of a window by the driver. *)
Context (allocate_tlb : Z → TlbMapping → A → result TlbHandle * A) (free_tlb : Z → A → A).
Context (arch : ARCH).
Abbreviation IO := (M (LocalIo D A)).

Definition get_io : IO (LocalIo D A) := λ w, Some (Ok (firmware w), w).
Definition upd_io (f : LocalIo D A → LocalIo D A) (w : World (LocalIo D A)) : World (LocalIo D A) :=
  MkWorld (mem w) (bar w) (f (firmware w)).
Definition modify_io (f : LocalIo D A → LocalIo D A) : IO unit := λ w, Some (Ok tt, upd_io f w).
(** The device moves. *)
Definition move (s : LocalIo D A) : LocalIo D A :=
  let '(d, c) := tick (dev s, clock s) in
  MkIo (tlb_manager s) (cached_wc_tlb_window s) (cached_uc_tlb_window s) (space s) d (driver s) c.

(** [std::make_unique<SiliconTlbWindow>(allocate_tlb(size, mapping), config)]: a
    window whose configuration throws is released. *)
Definition new_window (size : Z) (mapping : TlbMapping) (config : tlb_data) : IO ChipWindow :=
  s ← get_io;
  let '(h, a) := allocate_tlb size mapping (driver s) in
  modify_io (set_driver a);;
  handle ← lift h;
  s ← get_io;
  match configure config (open_window (MkChipWindow handle 0) s) with
  | Ok w => modify_io (set_behind w);; mret (kept_window w)
  | Err e => modify_io (set_driver (free_tlb (tlb_id handle) (driver s)));; lift (Err e)
  end.
(** [catch (const std::exception&)]. *)
Definition try_or {B} (m otherwise : IO B) : IO B := λ w,
  match m w with
  | Some (Ok b, w') => Some (Ok b, w')
  | Some (Err _, w') => otherwise w'
  | None => None
  end.
Fixpoint first_size (mapping : TlbMapping) (config : tlb_data) (classes : list TlbSizeClass) : IO ChipWindow :=
  match classes with
  | [] => raise "Failed to allocate TLB window."
  | c :: classes => try_or (new_window (sc_size c) mapping config) (first_size mapping config classes)
  end.
(** [TTDevice::get_io_window] of a PCIe device; [allocate_tlb_window]. *)
Definition get_io_window (config : tlb_data) (mapping : TlbMapping) (size : Z) : IO ChipWindow :=
  if size =? 0 then tlbs ← lift (get_architecture_tlbs arch); first_size mapping config (size_classes tlbs)
  else new_window size mapping config.

(** The window is released when its index is taken already. *)
Definition configure_tlb (core : xy_pair) (tlb_size address ordering : Z) (noc : NocId) : IO unit :=
  lift (umd_assert ((ordering =? Strict) || (ordering =? Posted) || (ordering =? Relaxed))
    "Invalid ordering specified in Cluster::configure_tlb");;
  tlbs ← lift (get_architecture_tlbs arch);
  cw ← get_io_window (window_config tlbs core address ordering noc) WC tlb_size;
  s ← get_io;
  let m := tlb_manager s in
  modify_io (set_manager (record_window core address cw m));;
  match tlb_windows_ m !! cw_id cw with
  | Some _ => modify_io (set_driver (free_tlb (cw_id cw) (driver s)))
  | None => mret tt
  end.
Definition clear_mapped_tlbs : IO unit :=
  modify_io (λ s, set_manager empty_manager
    (set_driver (foldr free_tlb (driver s) (map_to_list (tlb_windows_ (tlb_manager s))).*1) s)).

(** ** The windows that the chip keeps *)

Definition get_cached_tlb_window (mapping : TlbMapping) : IO ChipWindow :=
  s ← get_io;
  match cached mapping s with
  | Some cw => mret cw
  | None =>
      tlbs ← lift (get_architecture_tlbs arch);
      cw ← new_window (cached_window_size tlbs) mapping tlb_data_default;
      modify_io (set_cached mapping cw);;
      mret cw
  end.
Definition get_cached_wc_tlb_window : IO ChipWindow := get_cached_tlb_window WC.
Definition get_cached_uc_tlb_window : IO ChipWindow := get_cached_tlb_window UC.

(** An operation of a window: what it writes is kept. *)
Definition use_window {B} (op : Window D → result (B * Window D)) (cw : ChipWindow) : IO (B * ChipWindow) :=
  modify_io move;;
  s ← get_io;
  '(b, w) ← lift (op (open_window cw s));
  modify_io (set_behind w);;
  mret (b, kept_window w).
Definition writing (op : Window D → result (Window D)) (w : Window D) : result (unit * Window D) := w ← op w; Ok (tt, w).
Definition reading {B} (op : Window D → result B) (w : Window D) : result (B * Window D) := b ← op w; Ok (b, w).

(** ** Accesses ([LocalChip])

    [noc] is [get_selected_noc_id()]. *)
Context `{!DeviceProtocol (LocalIo D A)} (kind : IODeviceKind) (soc : Soc.SocDescriptor) (noc : NocId).

Definition pcie_write (core : xy_pair) (src : list Z) (l1_dest : Z) : IO unit :=
  s ← get_io;
  let m := tlb_manager s in
  mapped ← lift (is_range_mapped core l1_dest (vec_size src) m);
  if mapped : bool then
    cw ← lift (get_tlb_window core m);
    _ ← use_window (writing (write_block (u64 (l1_dest - cw_base_address cw)) src)) cw;
    mret tt
  else
    cw ← get_cached_wc_tlb_window;
    '(_, cw) ← use_window (writing (write_block_reconfigure src core l1_dest (noc_number noc) Relaxed)) cw;
    modify_io (set_cached WC cw).
Definition pcie_read (core : xy_pair) (l1_src : Z) (size : nat) : IO (list Z) :=
  s ← get_io;
  let m := tlb_manager s in
  mapped ← lift (is_range_mapped core l1_src (Z.of_nat size) m);
  if mapped : bool then
    cw ← lift (get_tlb_window core m);
    '(bytes, _) ← use_window (reading (read_block (u64 (l1_src - cw_base_address cw)) size)) cw;
    mret bytes
  else
    cw ← get_cached_wc_tlb_window;
    '(bytes, cw) ← use_window (read_block_reconfigure core l1_src size (noc_number noc) Relaxed) cw;
    modify_io (set_cached WC cw);;
    mret bytes.
(** Over another transport, the device's own access. *)
Definition write_to_device (core : CoreCoord) (src : list Z) (l1_dest : Z) : IO unit :=
  translated_core ← lift (Soc.translate_chip_coord_to_translated soc core noc);
  match kind with
  | PCIe_device => pcie_write translated_core src l1_dest
  | _ => TTDevice.write_to_device (Some soc) src (CoreCoord_literal translated_core) l1_dest noc
  end.
Definition read_from_device (core : CoreCoord) (l1_src : Z) (size : nat) : IO (list Z) :=
  translated_core ← lift (Soc.translate_chip_coord_to_translated soc core noc);
  match kind with
  | PCIe_device => pcie_read translated_core l1_src size
  | _ => TTDevice.read_from_device (Some soc) (CoreCoord_literal translated_core) l1_src size noc
  end.

Definition check_register (size addr : Z) : result unit :=
  umd_assert (size `mod` 4 =? 0) "Size must be a multiple of 4 bytes.";;
  umd_assert (addr `mod` 4 =? 0) "Register address must be 4-byte aligned.".
(** [configure], then one access at its address. *)
Definition register_window {B} (op : Z → Window D → result (B * Window D)) (config : tlb_data) (addr : Z) (w : Window D)
    : result (B * Window D) :=
  w ← configure config w;
  op (u64 (addr - TlbWindow.get_base_address w)) w.
Definition pcie_register {B} (op : Z → Window D → result (B * Window D)) (core : xy_pair) (addr : Z) : IO B :=
  tlbs ← lift (get_architecture_tlbs arch);
  cw ← get_cached_uc_tlb_window;
  '(b, cw) ← use_window (register_window op (window_config tlbs core addr Strict noc) addr) cw;
  modify_io (set_cached UC cw);;
  mret b.
Definition write_to_device_reg (core : CoreCoord) (src : list Z) (reg_dest : Z) : IO unit :=
  lift (check_register (vec_size src) reg_dest);;
  match kind with
  | PCIe_device =>
      translated_core ← lift (Soc.translate_chip_coord_to_translated soc core noc);
      pcie_register (λ o, writing (write_register o src)) translated_core reg_dest
  | _ => TTDevice.write_to_device (Some soc) src core reg_dest noc
  end.
Definition read_from_device_reg (core : CoreCoord) (reg_src : Z) (size : nat) : IO (list Z) :=
  lift (check_register (Z.of_nat size) reg_src);;
  translated_core ← lift (Soc.translate_chip_coord_to_translated soc core noc);
  match kind with
  | PCIe_device => pcie_register (λ o, reading (read_register o size)) translated_core reg_src
  | _ => TTDevice.read_from_device (Some soc) (CoreCoord_literal translated_core) reg_src size noc
  end.
End Io.

(** ** Windows keep to their registers *)

Section Windows.
Context {D : Type} `{NocDevice D} (arch : ARCH) (Harch : writes_whole_register arch).
Context (t : ArchitectureTlbs) (Ht : get_architecture_tlbs arch = Ok t).

(** [configure], whatever the configuration, changes the register of its own
    window only. *)
Lemma configure_frame i c cfg (w w' : Window D) :
  0 ≤ i → find_class i (size_classes t) = Some c → window_of arch i c w → configure cfg w = Ok w' →
  moved arch t i c w w' (device w).
Proof using Harch Ht.
  intros Hi Hc (Hid & Hsz & Ha) Hcfg. unfold configure, handle_configure in Hcfg.
  rewrite Hsz, Ha, Hid in Hcfg. destruct (sc_size c =? 0); [done|].
  destruct (ArchTlbs.configure_tlb _ _ _ _) as [m|e] eqn:Hm; [|done]. injection Hcfg as <-.
  unfold moved, window_of; cbn. split_and!; [done..|].
  unfold ArchTlbs.configure_tlb in Hm. rewrite Ht in Hm; cbn in Hm.
  destruct (get_configuration t i) as [conf|] eqn:Hconf; [|done]. cbn in Hm.
  destruct (apply_offset _ _) as [[lower upper]|]; [|done]. injection Hm as <-.
  intros j Hj Hji. unfold ArchTlbs.read_register. f_equal.
  apply (register_words_other _ (num_config_words arch)); [rewrite length_take; lia|].
  pose proof (window_index arch t Ht i Hi c Hc). change (u64 (i * cfg_reg_size_bytes t)) with (register_addr t i).
  rewrite !(register_addr_eq arch) by done.
  assert (4 * Z.of_nat (num_config_words arch) ≤ cfg_reg_size_bytes t).
  { destruct Harch as [-> | ->]; injection Ht as <-; by vm_compute. }
  pose proof (get_architecture_tlbs_wf _ _ Ht) as (_ & _ & _ & _ & Hb). nia.
Qed.

(** A configuration that [configure] accepts fits the register. *)
Lemma configure_accepts i c cfg (w w' : Window D) :
  0 ≤ i → find_class i (size_classes t) = Some c → window_of arch i c w → tlb_data_u64 cfg → configure cfg w = Ok w' →
  configured arch t i c cfg w w'.
Proof using Harch Ht.
  intros Hi Hc Hw Hu Hcfg. assert (0 ≤ local_offset cfg < 2 ^ 64) as Hlo by (by inversion Hu).
  destruct (class_size_pow2 arch t c Ht) as (k & Hk & Hck); [by apply (find_class_Some i)|].
  assert (0 < sc_size c < 2 ^ 64) as Hs.
  { rewrite Hck. split; [apply Z.pow_pos_nonneg; lia|apply Z.pow_lt_mono_r; lia]. }
  destruct (decide (fits (set_local_offset cfg (local_offset cfg `div` sc_size c)) (sc_register_layout c))) as [Hf|Hf].
  - destruct (configure_spec arch Harch t Ht i Hi c Hc cfg w Hw Hlo Hf) as (w1 & Hcfg1 & Hok).
    rewrite Hcfg in Hcfg1. injection Hcfg1 as ->. exact Hok.
  - exfalso. destruct Hw as (Hid & Hsz & Ha). unfold configure, handle_configure in Hcfg. rewrite Hsz, Ha, Hid in Hcfg.
    rewrite (proj2 (Z.eqb_neq _ _)) in Hcfg by lia.
    assert (align_down (local_offset cfg) (sc_size c) = local_offset cfg `div` sc_size c * sc_size c) as Hal.
    { rewrite Hck. apply align_down_spec; lia. }
    rewrite Hal in Hcfg. cbn [local_offset set_local_offset] in Hcfg. rewrite Z.div_mul in Hcfg by lia.
    unfold ArchTlbs.configure_tlb in Hcfg. rewrite Ht in Hcfg; cbn [mbind result_bind] in Hcfg.
    unfold get_configuration in Hcfg. rewrite Hc in Hcfg; cbn [mbind result_bind tc_offset] in Hcfg.
    pose proof (get_architecture_tlbs_wf _ _ Ht) as (Hwf & _). rewrite list.Forall_forall in Hwf.
    rewrite apply_offset_throws in Hcfg; [done|by apply Hwf, (find_class_Some i)| |done].
    inversion Hu as [|? ? ? Hrest]. constructor; [|exact Hrest].
    split; [by apply Z.div_pos; lia|]. apply Z.div_lt_upper_bound; nia.
Qed.

(** The address that is kept is that of the window. *)
Lemma configure_base i c cfg (w w' : Window D) :
  find_class i (size_classes t) = Some c → window_of arch i c w → 0 ≤ local_offset cfg < 2 ^ 64 → configure cfg w = Ok w' →
  local_offset (tlb_config (tlb_handle w')) = local_offset cfg `div` sc_size c * sc_size c.
Proof using Ht.
  intros Hc (Hid & Hsz & Ha) Hlo Hcfg. destruct (class_size_pow2 arch t c Ht) as (k & Hk & Hck); [by apply (find_class_Some i)|].
  unfold configure, handle_configure in Hcfg. rewrite Hsz, Ha, Hid in Hcfg. destruct (sc_size c =? 0); [done|].
  destruct (ArchTlbs.configure_tlb _ _ _ _); [|done]. injection Hcfg as <-. cbn. rewrite Hck. apply align_down_spec; lia.
Qed.
End Windows.

(** ** The windows of a chip keep what they were configured for *)

Section Invariant.
Context {D A : Type} `{NocDevice D} (tick : D * Z → D * Z).
Context (allocate_tlb : Z → TlbMapping → A → result TlbHandle * A) (free_tlb : Z → A → A) (in_use : A → gset Z).
Context (arch : ARCH) (Harch : writes_whole_register arch).
Context (t : ArchitectureTlbs) (Ht : get_architecture_tlbs arch = Ok t).
Implicit Types (s : LocalIo D A) (cw : ChipWindow) (w : World (LocalIo D A)).

(** What the kernel driver promises: it gives out a window of the size asked for
    that nobody has. *)
Definition driver_gives : Prop := ∀ size mapping a,
  match allocate_tlb size mapping a with
  | (Ok h, a') =>
      tlb_id h ∉ in_use a ∧ in_use a' = {[tlb_id h]} ∪ in_use a ∧ 0 ≤ tlb_id h ∧ tlb_arch h = arch ∧ tlb_size h = size ∧
      ∃ c, find_class (tlb_id h) (size_classes t) = Some c ∧ sc_size c = size
  | (Err _, a') => in_use a' = in_use a
  end.
Definition driver_takes : Prop := ∀ i a, in_use (free_tlb i a) = in_use a ∖ {[i]}.
Context (gives : driver_gives) (takes : driver_takes).
(** For which cores, with which NOC selected, a static window was asked for. *)
Context (asked : xy_pair → NocId → Prop).

Definition good_window cw : Prop :=
  0 ≤ cw_id cw ∧ ∃ c, find_class (cw_id cw) (size_classes t) = Some c ∧
    tlb_size (cw_handle cw) = sc_size c ∧ tlb_arch (cw_handle cw) = arch.
(** The register of the window, and what the driver's user keeps of it, are those
    of a configuration. *)
Definition holds_config cw (cfg : tlb_data) s : Prop :=
  let size := tlb_size (cw_handle cw) in
  let base := local_offset cfg `div` size * size in
  0 ≤ local_offset cfg < 2 ^ 64 ∧ hw_window (open_window cw s) = Ok (set_local_offset cfg 0, base) ∧
  local_offset (tlb_config (cw_handle cw)) = base ∧ cw_offset cw = local_offset cfg `mod` size.

Inductive live s cw : Prop :=
  | live_static i : tlb_windows_ (tlb_manager s) !! i = Some cw → live s cw
  | live_cached mapping : cached mapping s = Some cw → live s cw.

Record io_ok s : Prop := {
  ok_good cw : live s cw → good_window cw ∧ cw_id cw ∈ in_use (driver s);
  ok_key i cw : tlb_windows_ (tlb_manager s) !! i = Some cw → cw_id cw = i;
  ok_cached mapping cw : cached mapping s = Some cw →
    tlb_windows_ (tlb_manager s) !! cw_id cw = None ∧ tlb_size (cw_handle cw) = cached_window_size t;
  ok_apart cw cw' : cached WC s = Some cw → cached UC s = Some cw' → cw_id cw ≠ cw_id cw';
  ok_bases i : tlb_config_map_ (tlb_manager s) !! i =
    (λ cw, local_offset (tlb_config (cw_handle cw))) <$> tlb_windows_ (tlb_manager s) !! i;
  ok_static core i : map_core_to_tlb_ (tlb_manager s) !! core = Some i → ∃ cw address ordering noc, asked core noc ∧
    tlb_windows_ (tlb_manager s) !! i = Some cw ∧ holds_config cw (window_config t core address ordering noc) s
}.

(** *** The pieces of the operations *)

Lemma hw_window_frame i cw s s' :
  good_window cw → cw_id cw ≠ i → same_other_registers arch t i (space s) (space s') →
  hw_window (open_window cw s') = hw_window (open_window cw s).
Proof using Ht.
  intros (Hp & c & Hc & Hsz & Ha) Hne Hsame. unfold hw_window, open_window; cbn. rewrite Ha, Ht; cbn.
  change (tlb_id (cw_handle cw)) with (cw_id cw). rewrite Hsame; [done| |done].
  by apply (window_index arch t Ht _ Hp c).
Qed.

(** The windows themselves are those of another state. *)
Definition same_windows s s' : Prop :=
  tlb_manager s' = tlb_manager s ∧ cached_wc_tlb_window s' = cached_wc_tlb_window s ∧
  cached_uc_tlb_window s' = cached_uc_tlb_window s.
Lemma same_cached mapping s s' : same_windows s s' → cached mapping s' = cached mapping s.
Proof using. by intros (_ & ? & ?); destruct mapping. Qed.
Lemma same_live s s' cw : same_windows s s' → live s' cw → live s cw.
Proof using.
  intros Hs [i Hi|mapping Hm]; [|rewrite (same_cached _ s) in Hm by done; by eapply live_cached].
  apply (live_static _ _ i). by destruct Hs as (<- & _).
Qed.

(** A state with the same windows, of which the driver keeps no fewer, whose
    registers differ for no window of the manager. *)
Lemma ok_same s s' :
  same_windows s s' → in_use (driver s) ⊆ in_use (driver s') →
  (∀ i cw, tlb_windows_ (tlb_manager s) !! i = Some cw → hw_window (open_window cw s') = hw_window (open_window cw s)) →
  io_ok s → io_ok s'.
Proof using.
  intros Hs Hd Hhw []. pose proof Hs as (Hm & _). split.
  - intros cw Hl. apply (same_live s) in Hl; [|done]. destruct (ok_good0 cw Hl). split; [done|by apply Hd].
  - rewrite Hm. done.
  - intros mapping cw Hc. rewrite (same_cached _ s) in Hc by done. rewrite Hm. by apply (ok_cached0 mapping).
  - intros cw cw' Hc Hc'. rewrite (same_cached WC s) in Hc by done. rewrite (same_cached UC s) in Hc' by done. by apply ok_apart0.
  - intros i. rewrite Hm. apply ok_bases0.
  - intros core i Hi. rewrite Hm in Hi |- *. destruct (ok_static0 core i Hi) as (cw & a & o & n & Hn & Hw & Hr & Hh & Hb).
    exists cw, a, o, n. split; [done|]. split; [done|]. split; [done|]. split; [|done]. rewrite (Hhw i cw Hw). exact Hh.
Qed.
Lemma ok_behind i (win : Window D) s :
  tlb_windows_ (tlb_manager s) !! i = None → same_other_registers arch t i (space s) (config_space win) →
  io_ok s → io_ok (set_behind win s).
Proof using Ht.
  intros Hn Hsame Hok. eapply (ok_same s); [by split_and!|done| |done]. intros j cw Hj.
  apply (hw_window_frame i); [by apply (ok_good _ Hok), (live_static _ _ j)| |done].
  rewrite (ok_key _ Hok j cw Hj). by intros ->; simplify_eq.
Qed.
Lemma ok_move s : io_ok s → io_ok (move tick s).
Proof using.
  unfold move. destruct (tick _) as [d k]. apply (ok_same s); [by split_and!|done|done].
Qed.
Lemma ok_driver a s : in_use (driver s) ⊆ in_use a → io_ok s → io_ok (set_driver a s).
Proof using. intros Ha. apply (ok_same s); [by split_and!|done|done]. Qed.
Lemma ok_keep mapping cw s :
  good_window cw → cw_id cw ∈ in_use (driver s) →
  tlb_windows_ (tlb_manager s) !! cw_id cw = None ∧ tlb_size (cw_handle cw) = cached_window_size t →
  (∀ mapping' cw', mapping' ≠ mapping → cached mapping' s = Some cw' → cw_id cw' ≠ cw_id cw) →
  io_ok s → io_ok (set_cached mapping cw s).
Proof using.
  intros Hg Hu Hn Ha [].
  assert (tlb_manager (set_cached mapping cw s) = tlb_manager s) as Hm by (by destruct mapping).
  assert (∀ m cw', cached m (set_cached mapping cw s) = Some cw' → m = mapping ∧ cw' = cw ∨ m ≠ mapping ∧ cached m s = Some cw') as Hc.
  { intros [] cw'; destruct mapping; cbn; intros [= ->]; auto. }
  assert (in_use (driver (set_cached mapping cw s)) = in_use (driver s)) as Hd by (by destruct mapping).
  split; rewrite ?Hm, ?Hd.
  - intros cw' [i Hi|m Hc'].
    + rewrite Hm in Hi. eapply ok_good0, live_static, Hi.
    + destruct (Hc _ _ Hc') as [[-> ->]|[_ Hc1]]; [done|]. eapply ok_good0, live_cached, Hc1.
  - done.
  - intros m cw' Hc'. destruct (Hc _ _ Hc') as [[-> ->]|[_ Hc1]]; [done|]. by apply (ok_cached0 m).
  - intros cw1 cw2 H1 H2.
    destruct (Hc _ _ H1) as [[<- ->]|[Hn1 Hc1]], (Hc _ _ H2) as [[He ->]|[Hn2 Hc2]]; [done|..].
    + intros He. by apply (Ha UC cw2 Hn2 Hc2).
    + subst. by apply (Ha WC cw1).
    + by apply ok_apart0.
  - done.
  - intros core i Hi. destruct (ok_static0 core i Hi) as (cw' & a & o & n & Hk & Hw & Hh). exists cw', a, o, n.
    split; [done|]. split; [done|]. destruct mapping; exact Hh.
Qed.

(** A window that the driver has just given out, in no map yet. *)
Record new_window_for (size : Z) (config : tlb_data) cw s : Prop := {
  nw_good : good_window cw;
  nw_size : tlb_size (cw_handle cw) = size;
  nw_in_use : cw_id cw ∈ in_use (driver s);
  nw_fresh cw' : live s cw' → cw_id cw' ≠ cw_id cw;
  nw_config : tlb_data_u64 config → holds_config cw config s
}.

Lemma ok_record core address ordering noc size cw s :
  new_window_for size (window_config t core address ordering noc) cw s →
  tlb_data_u64 (window_config t core address ordering noc) → asked core noc → io_ok s →
  tlb_windows_ (tlb_manager s) !! cw_id cw = None ∧ io_ok (set_manager (record_window core address cw (tlb_manager s)) s).
Proof using.
  intros [Hg _ Hu Hf Hc] H64 Hasked Hok. specialize (Hc H64). pose proof Hok as [].
  assert (tlb_windows_ (tlb_manager s) !! cw_id cw = None) as Hn.
  { destruct (_ !! _) as [cw'|] eqn:E; [|done]. exfalso. apply (Hf cw'); [by eapply live_static|by apply ok_key0]. }
  assert (tlb_config_map_ (tlb_manager s) !! cw_id cw = None) as Hb by (by rewrite ok_bases0, Hn).
  assert (∀ i cw', tlb_windows_ (record_window core address cw (tlb_manager s)) !! i = Some cw' →
    tlb_windows_ (tlb_manager s) !! i = Some cw' ∨ (i = cw_id cw ∧ cw' = cw)) as Hw.
  { intros i cw'. cbn. rewrite map_insert_new_lookup. destruct (_ !! i); [auto|]. case_decide; [|done]. intros [= ->]. auto. }
  split; [done|]. split.
  - intros cw' [i Hi|m Hm].
    + destruct (Hw i cw' Hi) as [Hi'|[-> ->]]; [|done]. eapply ok_good0, live_static, Hi'.
    + apply ok_good0. apply (live_cached _ _ m). by destruct m.
  - intros i cw' Hi. destruct (Hw i cw' Hi) as [Hi'|[-> ->]]; [by apply ok_key0|done].
  - intros m cw' Hm. assert (cached m s = Some cw') as Hm' by (by destruct m). cbn. rewrite map_insert_new_lookup.
    destruct (ok_cached0 m cw' Hm') as [-> Hcs]. split; [|done]. rewrite decide_False; [done|]. intros He. apply (Hf cw'); [|done]. by eapply live_cached.
  - done.
  - intros i. cbn. rewrite !map_insert_new_lookup, ok_bases0. destruct (_ !! i) as [cw'|]; [done|]. cbn.
    case_decide; [|done]. cbn. f_equal. by destruct Hc as (_ & _ & -> & _).
  - intros core' i. cbn. rewrite map_insert_new_lookup. destruct (map_core_to_tlb_ _ !! core') as [i'|] eqn:E.
    + intros [= ->]. destruct (ok_static0 core' i E) as (cw' & a & o & n & Hk & Hw' & Hh). exists cw', a, o, n.
      split; [done|]. split; [|done]. by rewrite map_insert_new_lookup, Hw'.
    + case_decide as Hco; [|done]. subst core'. intros [= <-]. exists cw, address, ordering, noc.
      split; [done|]. split; [|done]. rewrite map_insert_new_lookup, Hn. by rewrite decide_True.
Qed.

Lemma free_others cws a i : i ∈ in_use a → i ∉ cws → i ∈ in_use (foldr free_tlb a cws).
Proof using takes.
  clear -takes. intros Hi Hn. induction cws as [|j cws IH]; [done|]. cbn. rewrite takes. apply not_elem_of_cons in Hn as [Hij Hn].
  specialize (IH Hn). set_solver.
Qed.
Lemma ok_clear s : io_ok s →
  io_ok (set_manager empty_manager (set_driver (foldr free_tlb (driver s) (map_to_list (tlb_windows_ (tlb_manager s))).*1) s)).
Proof using takes.
  intros []. split.
  - intros cw [i Hi|m Hm]; [done|]. assert (cached m s = Some cw) as Hm' by (by destruct m).
    destruct (ok_good0 cw) as [Hg Hu]; [by eapply live_cached|]. split; [done|]. apply free_others; [done|].
    intros Hin. apply list_elem_of_fmap in Hin as ([i cw'] & Hid & Hin%elem_of_map_to_list). cbn in Hid.
    subst i. destruct (ok_cached0 m cw Hm') as [Hcn _]. by rewrite Hcn in Hin.
  - done.
  - intros m cw Hm. split; [done|]. apply (ok_cached0 m). by destruct m.
  - intros cw cw'. apply ok_apart0.
  - done.
  - done.
Qed.

(** *** The operations *)

Lemma wp_get_io b (Q : result (LocalIo D A) → World (LocalIo D A) → Prop) w : Q (Ok (firmware w)) w → wpf b get_io Q w.
Proof using. done. Qed.
Lemma wp_modify_io b f (Q : result unit → World (LocalIo D A) → Prop) w : Q (Ok tt) (upd_io f w) → wpf b (modify_io f) Q w.
Proof using. done. Qed.

(** Why there is no window: the driver has none, or its register cannot hold the
    configuration. *)
Definition refused size mapping config e s : Prop :=
  fst (allocate_tlb size mapping (driver s)) = Err e ∨
  ∃ c, c ∈ size_classes t ∧ sc_size c = size ∧
    (0 ≤ local_offset config < 2 ^ 64 → ¬ fits (set_local_offset config (local_offset config `div` size)) (sc_register_layout c)).

Lemma new_window_spec b size mapping config (Q : result ChipWindow → World (LocalIo D A) → Prop) w :
  io_ok (firmware w) →
  (∀ e w', io_ok (firmware w') → same_windows (firmware w) (firmware w') → dev (firmware w') = dev (firmware w) →
    clock (firmware w') = clock (firmware w) → refused size mapping config e (firmware w) → Q (Err e) w') →
  (∀ cw w', io_ok (firmware w') → same_windows (firmware w) (firmware w') → dev (firmware w') = dev (firmware w) →
    clock (firmware w') = clock (firmware w) → new_window_for size config cw (firmware w') → Q (Ok cw) w') →
  wpf b (new_window allocate_tlb free_tlb size mapping config) Q w.
Proof using gives takes Harch Ht.
  intros Hok HE HQ. apply wp_bind, wp_get_io. pose proof (gives size mapping (driver (firmware w))) as Hg.
  unfold refused in HE. destruct (allocate_tlb _ _ _) as [[h|e] a]; cbn [fst] in HE.
  2:{ apply wp_bind, wp_modify_io, wp_bind, wp_lift. apply HE; [|by split_and!|done..|by left].
      apply ok_driver; [|done]. by rewrite Hg. }
  destruct Hg as (Hnew & Hin & Hp & Ha & Hsz & c & Hc & Hcs).
  apply wp_bind, wp_modify_io, wp_bind, wp_lift, wp_bind, wp_get_io.
  set (cw0 := MkChipWindow h 0). set (w1 := upd_io (set_driver a) w).
  assert (io_ok (firmware w1)) as Hok1 by (apply ok_driver; [rewrite Hin; set_solver|done]).
  assert (∀ cw', live (firmware w1) cw' → cw_id cw' ≠ tlb_id h) as Hfresh.
  { intros cw' Hl He. apply Hnew. rewrite <- He. apply (ok_good _ Hok). by apply (same_live _ (firmware w1)). }
  assert (window_of arch (tlb_id h) c (open_window cw0 (firmware w1))) as Hwin by (split_and!; cbn; congruence).
  destruct (configure config _) as [win|e] eqn:Hcfg.
  - destruct (configure_frame arch Harch t Ht (tlb_id h) c _ _ _ Hp Hc Hwin Hcfg) as ((Hid & Hs & Har) & Hdev & Hsame).
    apply wp_bind, wp_modify_io, wp_ret. apply HQ; cbn.
    + apply (ok_behind (tlb_id h)); [|done|done].
      destruct (_ !! _) as [cw'|] eqn:E; [|done]. exfalso. apply (Hfresh cw'); [by eapply live_static|by apply (ok_key _ Hok1)].
    + by split_and!.
    + done.
    + done.
    + split; unfold cw_id; cbn; rewrite ?Hid, ?Hs.
      * split; [unfold cw_id; cbn; lia|]. exists c. unfold cw_id; cbn. by rewrite Hid.
      * done.
      * rewrite Hin. set_solver.
      * intros cw' Hl. apply Hfresh. by apply (same_live _ (set_behind win (firmware w1))).
      * intros H64. destruct (configure_accepts arch Harch t Ht (tlb_id h) c _ _ _ Hp Hc Hwin H64 Hcfg) as [_ _ Hoff Hhw _].
        split; cbn; rewrite ?Hs; [by inversion H64|]. split; [exact Hhw|]. split; [|done].
        apply (configure_base arch t Ht (tlb_id h) c _ _ _ Hc Hwin); [by inversion H64|done].
  - apply wp_bind, wp_modify_io, wp_lift. apply HE; cbn.
    + eapply (ok_same (firmware w)); [by split_and!| |done|done]. cbn. rewrite takes, Hin. set_solver.
    + by split_and!.
    + done.
    + done.
    + right. exists c. split; [by apply (find_class_Some (tlb_id h))|]. split; [done|]. intros Hlo Hf. rewrite <- Hcs in Hf.
      destruct (configure_spec arch Harch t Ht (tlb_id h) Hp c Hc config _ Hwin Hlo Hf) as (? & He & _). congruence.
Qed.

Lemma wp_try {B} b (m otherwise : M (LocalIo D A) B) Q w :
  wpf b m (λ r w', match r with Ok _ => Q r w' | Err _ => wpf b otherwise Q w' end) w → wpf b (try_or m otherwise) Q w.
Proof using. unfold wpf, try_or. by destruct (m w) as [[[x|e] w']|]. Qed.

Lemma same_windows_trans s1 s2 s3 : same_windows s1 s2 → same_windows s2 s3 → same_windows s1 s3.
Proof using. clear tick. unfold same_windows. intros (-> & -> & ->) (-> & -> & ->). done. Qed.

Lemma get_io_window_spec b config mapping size (Q : result ChipWindow → World (LocalIo D A) → Prop) w :
  io_ok (firmware w) →
  (∀ e w', io_ok (firmware w') → Q (Err e) w') →
  (∀ cw w', io_ok (firmware w') → same_windows (firmware w) (firmware w') →
    new_window_for (tlb_size (cw_handle cw)) config cw (firmware w') → Q (Ok cw) w') →
  wpf b (get_io_window allocate_tlb free_tlb arch config mapping size) Q w.
Proof using gives takes Harch Ht.
  intros Hok HE HQ. unfold get_io_window. destruct (size =? 0).
  2:{ apply new_window_spec; [done|auto|]. intros cw w' Hok' Hs _ _ Hn. apply HQ; [done..|]. by rewrite (nw_size _ _ _ _ Hn). }
  eapply wp_bind_lift; [exact Ht|].
  assert (∀ cs w1, io_ok (firmware w1) → same_windows (firmware w) (firmware w1) →
    wpf b (first_size allocate_tlb free_tlb mapping config cs) Q w1) as Hcs; [|by apply Hcs; [|split_and!]].
  induction cs as [|c cs IH]; intros w1 Hok1 Hs; [by apply wp_lift, HE|].
  apply wp_try, new_window_spec; [done| |].
  - intros e w' Hok' Hs' _ _ _. apply IH; [done|]. by eapply same_windows_trans.
  - intros cw w' Hok' Hs' _ _ Hn. apply HQ; [done|by eapply same_windows_trans|]. by rewrite (nw_size _ _ _ _ Hn).
Qed.

(** A core and an address are 64-bit words. *)
Definition in_u64 (core : xy_pair) (address : Z) : Prop :=
  0 ≤ address < 2 ^ 64 ∧ 0 ≤ xy_x core < 2 ^ 64 ∧ 0 ≤ xy_y core < 2 ^ 64.
Lemma window_config_u64 core address ordering noc :
  in_u64 core address → 0 ≤ ordering ≤ 2 → tlb_data_u64 (window_config t core address ordering noc).
Proof using.
  intros (Ha & Hx & Hy) Ho. unfold tlb_data_u64, field_values, window_config; cbn.
  repeat constructor; try lia; destruct (use_static_vc t), (decide (noc = DeviceAccess.NOC1)); lia.
Qed.

Lemma configure_tlb_ok b core size address ordering noc w :
  in_u64 core address → asked core noc → io_ok (firmware w) →
  wpf b (configure_tlb allocate_tlb free_tlb arch core size address ordering noc) (λ _ w', io_ok (firmware w')) w.
Proof using gives takes Harch Ht.
  intros H64 Hask Hok. apply wp_bind, wp_lift. unfold umd_assert.
  destruct ((ordering =? Strict) || (ordering =? Posted) || (ordering =? Relaxed)) eqn:Ho; [|done].
  eapply wp_bind_lift; [exact Ht|]. apply wp_bind, get_io_window_spec; [done|done|].
  intros cw w' Hok' Hs Hn. apply wp_bind, wp_get_io, wp_bind, wp_modify_io.
  destruct (ok_record core address ordering noc _ cw _ Hn) as [Hnone Hrec]; [|done|done|].
  { apply window_config_u64; [done|]. unfold Strict, Posted, Relaxed in Ho. lia. }
  rewrite Hnone. by apply wp_ret.
Qed.

(** *** Operations of the kept windows *)

(** An operation leaves its window to its index and class, and the registers of
    the others alone. *)
Definition frames {B} (op : Window D → result (B * Window D)) : Prop := ∀ i c win x win',
  0 ≤ i → find_class i (size_classes t) = Some c → window_of arch i c win → op win = Ok (x, win') →
  window_of arch i c win' ∧ same_other_registers arch t i (config_space win) (config_space win').
Definition behind_only (op : Window D → result (Window D)) : Prop := ∀ win win', op win = Ok win' → ∃ d, win' = set_device win d.
Lemma write_block_behind o data : behind_only (write_block o data).
Proof using.
  intros win win' Ho. unfold write_block in Ho. destruct (validate _ _ _); [|done]. cbn in Ho.
  destruct (hw_window win) as [[tgt base]|]; [|done]. injection Ho as <-. by eexists.
Qed.
Lemma write_register_behind o data : behind_only (write_register o data).
Proof using.
  intros win win' Ho. unfold write_register in Ho. destruct (validate _ _ _); [|done]. cbn in Ho.
  destruct (hw_window win) as [[tgt base]|]; [|done]. injection Ho as <-. by eexists.
Qed.

Lemma frames_transfer_out fuel op : (∀ data, behind_only (op data)) → ∀ cfg buffer, frames (writing (transfer_out fuel op cfg buffer)).
Proof using Harch Ht.
  intros Hop cfg buffer i c win x win' Hi Hc Hw Ho. unfold writing in Ho.
  destruct (transfer_out _ _ _ _ _) as [win1|] eqn:Ht1; [|done]. injection Ho as _ <-.
  revert cfg buffer win Hw Ht1. induction fuel as [|fuel IH]; intros cfg buffer win Hw Ht1.
  { destruct buffer; [|done]. by injection Ht1 as <-. }
  destruct buffer as [|v vs]; [by injection Ht1 as <-|]. cbn [transfer_out] in Ht1.
  destruct (configure cfg win) as [w1|] eqn:Hcfg; [|done]. cbn in Ht1.
  destruct (configure_frame arch Harch t Ht i c _ _ _ Hi Hc Hw Hcfg) as (Hw1 & _ & Hs1).
  destruct (op _ w1) as [w2|] eqn:Hop2; [|done]. cbn in Ht1. apply Hop in Hop2 as [d ->].
  destruct (IH _ _ (set_device w1 d) Hw1 Ht1) as [Hw2 Hs2]. split; [done|]. by eapply same_other_trans.
Qed.
Lemma frames_transfer_in fuel op : ∀ cfg size, frames (transfer_in fuel op cfg size).
Proof using Harch Ht.
  intros cfg size i c win x win' Hi Hc. revert cfg size win x.
  induction fuel as [|fuel IH]; intros cfg size win x Hw Ht1.
  { destruct size; [|done]. by injection Ht1 as _ <-. }
  destruct size as [|n]; [by injection Ht1 as _ <-|]. cbn [transfer_in] in Ht1.
  destruct (configure cfg win) as [w1|] eqn:Hcfg; [|done]. cbn [mbind result_bind] in Ht1.
  destruct (configure_frame arch Harch t Ht i c _ _ _ Hi Hc Hw Hcfg) as (Hw1 & _ & Hs1).
  destruct (op _ w1) as [bytes|]; [|done]. cbn [mbind result_bind] in Ht1.
  destruct (transfer_in _ _ _ _ w1) as [[rest w2]|] eqn:Hrest; [|done]. injection Ht1 as _ <-.
  destruct (IH _ _ _ _ Hw1 Hrest) as [Hw2 Hs2]. split; [done|]. by eapply same_other_trans.
Qed.
Lemma frames_write_block core src addr noc ord : frames (writing (write_block_reconfigure src core addr noc ord)).
Proof using Harch Ht.
  intros i c win x win' Hi Hc Hw Ho. unfold writing, write_block_reconfigure in Ho.
  eapply (frames_transfer_out _ (write_block 0)); [intros data; apply write_block_behind|done..].
Qed.
Lemma frames_read_block core addr size noc ord : frames (read_block_reconfigure core addr size noc ord).
Proof using Harch Ht. intros i c win x win' Hi Hc Hw Ho. unfold read_block_reconfigure in Ho. by eapply frames_transfer_in. Qed.
Lemma frames_register_window {B} (op : Z → Window D → result (B * Window D)) cfg addr :
  (∀ o, frames (op o)) → frames (register_window op cfg addr).
Proof using Harch Ht.
  intros Hop i c win x win' Hi Hc Hw Ho. unfold register_window in Ho.
  destruct (configure cfg win) as [w1|] eqn:Hcfg; [|done]. cbn in Ho.
  destruct (configure_frame arch Harch t Ht i c _ _ _ Hi Hc Hw Hcfg) as (Hw1 & _ & Hs1).
  destruct (Hop _ i c w1 x win' Hi Hc Hw1 Ho) as [Hw2 Hs2]. split; [done|]. by eapply same_other_trans.
Qed.
Lemma frames_writing op : behind_only op → frames (writing op).
Proof using.
  intros Hop i c win x win' _ _ Hw Ho. unfold writing in Ho. destruct (op win) as [w1|] eqn:E; [|done].
  injection Ho as _ <-. by apply Hop in E as [d ->].
Qed.
Lemma frames_reading {B} (op : Window D → result B) : frames (reading op).
Proof using. intros i c win x win' _ _ Hw Ho. unfold reading in Ho. destruct (op win); [|done]. by injection Ho as _ <-. Qed.

Lemma good_window_of cw s : good_window cw → ∃ c, find_class (cw_id cw) (size_classes t) = Some c ∧
  c ∈ size_classes t ∧ sc_size c = tlb_size (cw_handle cw) ∧ window_of arch (cw_id cw) c (open_window cw s).
Proof using.
  intros (Hp & c & Hc & Hsz & Ha). exists c. split; [done|]. split; [by apply (find_class_Some (cw_id cw))|]. by split_and!.
Qed.

(** A kept window is used, and kept. *)
Lemma use_cached_spec {B} b mapping (op : Window D → result (B * Window D)) cw (Q : result (B * ChipWindow) → World (LocalIo D A) → Prop) w :
  frames op → io_ok (firmware w) → cached mapping (firmware w) = Some cw →
  (∀ e w', io_ok (firmware w') → op (open_window cw (move tick (firmware w))) = Err e → Q (Err e) w') →
  (∀ x win w', op (open_window cw (move tick (firmware w))) = Ok (x, win) → dev (firmware w') = device win →
    io_ok (set_cached mapping (kept_window win) (firmware w')) → Q (Ok (x, kept_window win)) w') →
  wpf b (use_window tick op cw) Q w.
Proof using Ht.
  intros Hf Hok Hc HE HQ. apply wp_bind, wp_modify_io, wp_bind, wp_get_io, wp_bind, wp_lift.
  pose proof (ok_move _ Hok) as Hok1. set (w1 := upd_io (move tick) w) in *. change (firmware w1) with (move tick (firmware w)).
  assert (same_windows (firmware w) (move tick (firmware w))) as Hs by (unfold move; destruct (tick _); by split_and!).
  assert (live (move tick (firmware w)) cw) as Hl by (apply (live_cached _ _ mapping); by rewrite (same_cached _ (firmware w))).
  destruct (ok_good _ Hok1 cw Hl) as [Hg Hu].
  destruct (op _) as [[x win]|e] eqn:Hop; [|by apply HE]. apply wp_bind, wp_modify_io, wp_ret. apply HQ; [done|done|].
  destruct (good_window_of cw (move tick (firmware w)) Hg) as (c & Hfc & _ & _ & Hwin).
  destruct (Hf _ _ _ _ _ (proj1 Hg) Hfc Hwin Hop) as [(Hid & Hsz & Ha) Hsame].
  assert (tlb_windows_ (tlb_manager (move tick (firmware w))) !! cw_id cw = None ∧
    tlb_size (cw_handle cw) = cached_window_size t) as [Hn Hcs].
  { apply (ok_cached _ Hok1 mapping). by rewrite (same_cached _ (firmware w)). }
  apply ok_keep; unfold cw_id; cbn [upd_io firmware kept_window cw_handle]; rewrite ?Hid; [|done| | |by apply (ok_behind (cw_id cw))].
  - split; unfold cw_id; cbn; rewrite Hid; [apply Hg|]. by exists c.
  - split; [done|]. destruct Hwin as (_ & Hz & _). cbn in Hz. congruence.
  - intros m' cw' Hm' Hc'. assert (cached m' (firmware w) = Some cw') as Hc1.
    { rewrite <- (same_cached _ _ (move tick (firmware w))) by done. by destruct m'. }
    intros He. destruct m', mapping; try done; [by apply (ok_apart _ Hok cw cw')|by apply (ok_apart _ Hok cw' cw)].
Qed.

Lemma get_cached_spec b mapping (Q : result ChipWindow → World (LocalIo D A) → Prop) w :
  io_ok (firmware w) →
  (∀ e w', io_ok (firmware w') → cached mapping (firmware w) = None →
    refused (cached_window_size t) mapping tlb_data_default e (firmware w) → Q (Err e) w') →
  (∀ cw w', io_ok (firmware w') → cached mapping (firmware w') = Some cw → tlb_manager (firmware w') = tlb_manager (firmware w) →
    dev (firmware w') = dev (firmware w) → clock (firmware w') = clock (firmware w) → Q (Ok cw) w') →
  wpf b (get_cached_tlb_window allocate_tlb free_tlb arch mapping) Q w.
Proof using gives takes Harch Ht.
  intros Hok HE HQ. apply wp_bind, wp_get_io. destruct (cached mapping (firmware w)) as [cw|] eqn:Hc.
  { by apply wp_ret, HQ. }
  eapply wp_bind_lift; [exact Ht|]. apply wp_bind, new_window_spec; [done| |].
  - intros e w' Hok' _ _ _ Hr. by apply HE.
  - intros cw w' Hok' Hs Hd Hcl [Hg Hsz Hu Hf _]. apply wp_bind, wp_modify_io, wp_ret. apply HQ; [|by destruct mapping|..].
    + apply ok_keep; [done|done|split; [|done]| |done].
      * destruct (_ !! _) as [cw'|] eqn:E; [|done]. exfalso. apply (Hf cw'); [by eapply live_static|by apply (ok_key _ Hok')].
      * intros m' cw' _ Hm'. apply Hf. by eapply live_cached.
    + destruct Hs as (Hm & _). by destruct mapping.
    + by destruct mapping.
    + by destruct mapping.
Qed.

(** An access through the kept window of a mapping. *)
Lemma cached_access_ok {B C} b mapping (op : Window D → result (B * Window D)) (k : B → C) w :
  frames op → io_ok (firmware w) →
  wpf b (cw ← get_cached_tlb_window allocate_tlb free_tlb arch mapping;
         '(x, cw) ← use_window tick op cw;
         modify_io (set_cached mapping cw);;
         mret (k x)) (λ _ w', io_ok (firmware w')) w.
Proof using gives takes Harch Ht.
  intros Hf Hok. apply wp_bind, get_cached_spec; [done|done|]. intros cw w1 Hok1 Hc _ _ _.
  apply wp_bind, (use_cached_spec b mapping); [done..|]. intros x win w2 _ _ Hok2.
  by apply wp_bind, wp_modify_io, wp_ret.
Qed.

(** An access through a static window leaves its register and those of the
    others alone. *)
Lemma use_static_ok {B} b (op : Window D → result (B * Window D)) cw w :
  (∀ win x win', op win = Ok (x, win') → ∃ d, win' = set_device win d) → io_ok (firmware w) →
  wpf b (use_window tick op cw) (λ _ w', io_ok (firmware w')) w.
Proof using.
  intros Hop Hok. apply wp_bind, wp_modify_io, wp_bind, wp_get_io, wp_bind, wp_lift.
  pose proof (ok_move _ Hok) as Hok1. destruct (op _) as [[x win]|e] eqn:E; [|done].
  apply wp_bind, wp_modify_io, wp_ret. apply Hop in E as [d ->]. eapply (ok_same (move tick (firmware w))); [by split_and!|done|done|done].
Qed.

Lemma pcie_write_ok b core src addr noc w : io_ok (firmware w) →
  wpf b (pcie_write tick allocate_tlb free_tlb arch noc core src addr) (λ _ w', io_ok (firmware w')) w.
Proof using gives takes Harch Ht.
  intros Hok. apply wp_bind, wp_get_io, wp_bind, wp_lift. destruct (is_range_mapped _ _ _ _) as [[]|]; [| |done].
  - apply wp_bind, wp_lift. destruct (get_tlb_window _ _) as [cw|]; [|done]. apply wp_bind.
    eapply wp_mono; [apply use_static_ok; [|done]|by intros []].
    intros win x win' Ho. unfold writing in Ho. destruct (write_block _ _ _) eqn:E; [|done]. injection Ho as _ <-. by apply write_block_behind in E.
  - unfold get_cached_wc_tlb_window. apply wp_bind, get_cached_spec; [done|done|]. intros cw w1 Hok1 Hc _ _ _.
    apply wp_bind, (use_cached_spec b WC); [|done|done|done|].
    + apply frames_write_block.
    + intros x win w2 _ _ Hok2. by apply wp_modify_io.
Qed.
Lemma pcie_read_ok b core addr size noc w : io_ok (firmware w) →
  wpf b (pcie_read tick allocate_tlb free_tlb arch noc core addr size) (λ _ w', io_ok (firmware w')) w.
Proof using gives takes Harch Ht.
  intros Hok. apply wp_bind, wp_get_io, wp_bind, wp_lift. destruct (is_range_mapped _ _ _ _) as [[]|]; [| |done].
  - apply wp_bind, wp_lift. destruct (get_tlb_window _ _) as [cw|]; [|done]. apply wp_bind.
    eapply wp_mono; [apply use_static_ok; [|done]|by intros [[]|]].
    intros win x win' Ho. unfold reading in Ho. destruct (read_block _ _ _); [|done]. injection Ho as _ <-. exists (device win). by destruct win.
  - apply (cached_access_ok b WC _ (λ x, x)); [|done]. apply frames_read_block.
Qed.
Lemma pcie_register_ok {B} b (op : Z → Window D → result (B * Window D)) core addr noc w :
  (∀ o, frames (op o)) → io_ok (firmware w) →
  wpf b (pcie_register tick allocate_tlb free_tlb arch noc op core addr) (λ _ w', io_ok (firmware w')) w.
Proof using gives takes Harch Ht.
  intros Hf Hok. eapply wp_bind_lift; [exact Ht|]. apply (cached_access_ok b UC _ (λ x, x)); [|done]. by apply frames_register_window.
Qed.

(** *** A chip's history *)

Inductive Request :=
  | Configure (core : xy_pair) (size address ordering : Z)
  | Clear
  | Write (core : xy_pair) (src : list Z) (addr : Z)
  | Read (core : xy_pair) (addr : Z) (size : nat)
  | WriteReg (core : xy_pair) (src : list Z) (addr : Z)
  | ReadReg (core : xy_pair) (addr : Z) (size : nat).
(** A request, with a NOC selected, at translated coordinates. *)
Definition request (noc : NocId) (r : Request) : M (LocalIo D A) unit :=
  match r with
  | Configure core size address ordering => configure_tlb allocate_tlb free_tlb arch core size address ordering noc
  | Clear => clear_mapped_tlbs free_tlb
  | Write core src addr => pcie_write tick allocate_tlb free_tlb arch noc core src addr
  | Read core addr size => _ ← pcie_read tick allocate_tlb free_tlb arch noc core addr size; mret tt
  | WriteReg core src addr =>
      pcie_register tick allocate_tlb free_tlb arch noc (λ o, writing (write_register o src)) core addr
  | ReadReg core addr size =>
      _ ← pcie_register tick allocate_tlb free_tlb arch noc (λ o, reading (read_register o size)) core addr; mret tt
  end.
(** Requests in order; one that throws does not keep the others from being made. *)
Fixpoint requests (rs : list (NocId * Request)) w : World (LocalIo D A) :=
  match rs with
  | [] => w
  | (noc, r) :: rs => requests rs (match request noc r w with Some (_, w') => w' | None => w end)
  end.
(** Static windows are asked for with 64-bit words. *)
Definition asks_for (r : NocId * Request) (core : xy_pair) (noc : NocId) : Prop :=
  r.1 = noc ∧ match r.2 with Configure core' _ address _ => core' = core ∧ in_u64 core address | _ => False end.
Definition well_typed (r : NocId * Request) : Prop :=
  match r.2 with Configure core _ address _ => in_u64 core address | _ => True end.

Lemma request_ok b noc r w :
  (∀ core, asks_for (noc, r) core noc → asked core noc) → well_typed (noc, r) → io_ok (firmware w) →
  wpf b (request noc r) (λ _ w', io_ok (firmware w')) w.
Proof using gives takes Harch Ht.
  intros Hask Hty Hok. destruct r as [core size address ordering| |core src addr|core addr size|core src addr|core addr size]; cbn [request].
  - by apply configure_tlb_ok; [|apply Hask|].
  - apply wp_modify_io. by apply ok_clear.
  - by apply pcie_write_ok.
  - apply wp_bind. eapply wp_mono; [by apply pcie_read_ok|]. by intros [].
  - apply pcie_register_ok; [|done]. intros o. apply frames_writing, write_register_behind.
  - apply wp_bind. eapply wp_mono; [apply pcie_register_ok; [|done]; intros o; apply frames_reading|]. by intros [].
Qed.

Lemma requests_ok rs w :
  (∀ r core noc, r ∈ rs → asks_for r core noc → asked core noc) → Forall well_typed rs → io_ok (firmware w) →
  io_ok (firmware (requests rs w)).
Proof using gives takes Harch Ht.
  revert w. induction rs as [|[noc r] rs IH]; intros w Hask Hty Hok; [done|]. inversion Hty; subst. cbn [requests]. apply IH; [|done|].
  - intros r' core noc' Hr'. apply Hask. by right.
  - assert (wpf True (request noc r) (λ _ w', io_ok (firmware w')) w) as Hr.
    { apply request_ok; [|done|done]. intros core. apply Hask. by left. }
    unfold wpf in Hr. by destruct (request noc r w) as [[]|].
Qed.

(** *** What an access moves *)

Context `{!NocDeviceLaws D} `{!PlainMemory D}.

(** A window's configuration leads to a core over a NOC. *)
Definition targets (core : xy_pair) (noc : NocId) (tgt : tlb_data) : Prop :=
  x_end tgt = xy_x core ∧ y_end tgt = xy_y core ∧ noc_sel tgt = noc_number noc ∧ mcast tgt = 0 ∧ local_offset tgt = 0.
(** A kept window reaches all addresses. *)
Definition in_reach (core : xy_pair) (noc : NocId) (ord addr len : Z) : Prop := ∀ c, c ∈ size_classes t →
  sc_size c = cached_window_size t → reachable c (make_tlb_config arch addr core (noc_number noc) ord None) addr len.
Definition available (mapping : TlbMapping) s : Prop :=
  is_Some (cached mapping s) ∨ ∃ h a, allocate_tlb (cached_window_size t) mapping (driver s) = (Ok h, a).

Lemma default_fits c : c ∈ size_classes t → fits (set_local_offset tlb_data_default (local_offset tlb_data_default `div` sc_size c)) (sc_register_layout c).
Proof using Harch Ht.
  destruct arch; simpl in Ht; try done; injection Ht as <-; intros Hin; apply list_elem_of_In in Hin; simpl in Hin;
    destruct_or! Hin; try done; subst c; apply (bool_decide_unpack _); by vm_compute.
Qed.
Lemma get_cached_available mapping (Q : result ChipWindow → World (LocalIo D A) → Prop) w :
  io_ok (firmware w) → available mapping (firmware w) →
  (∀ cw w', io_ok (firmware w') → cached mapping (firmware w') = Some cw → tlb_manager (firmware w') = tlb_manager (firmware w) →
    dev (firmware w') = dev (firmware w) → clock (firmware w') = clock (firmware w) → Q (Ok cw) w') →
  wp (get_cached_tlb_window allocate_tlb free_tlb arch mapping) Q w.
Proof using gives takes Harch Ht.
  intros Hok Hav HQ. apply get_cached_spec; [done| |done]. intros e w' _ Hn Hr. exfalso.
  destruct Hav as [[cw Hcw]|(h & a & Ha)]; [congruence|]. pose proof (gives (cached_window_size t) mapping (driver (firmware w))) as Hg.
  unfold refused in Hr. rewrite Ha in Hr. destruct Hr as [Hr|(c & Hc & <- & Hr)]; [done|].
  apply Hr; [done|]. by apply default_fits.
Qed.

(** *** Static windows *)

Lemma static_range cw cfg s addr len :
  good_window cw → holds_config cw cfg s → 0 ≤ addr → addr + len < 2 ^ 64 → 0 ≤ len < 2 ^ 32 →
  (cw_base_address cw <=? addr) && (u64 (addr + u32 len) <=? u64 (cw_base_address cw + cw_size cw)) = true →
  ∃ base, hw_window (open_window cw s) = Ok (set_local_offset cfg 0, base) ∧ base ≤ addr ∧
    validate (u64 (addr - cw_base_address cw)) len (open_window cw s) = Ok tt ∧
    get_total_offset (open_window cw s) (u64 (addr - cw_base_address cw)) = addr - base.
Proof using Ht.
  intros (Hp & c & Hc & Hsz & Ha) (Hlo & Hhw & Hl & Ho) Haddr Hend Hlen Hin.
  destruct (class_size_facts arch t Ht (cw_id cw) c Hc) as [Hs _]. rewrite Hsz in *.
  pose proof (Z.mod_pos_bound (local_offset cfg) (sc_size c) ltac:(lia)) as Hm.
  assert (local_offset cfg = local_offset cfg `div` sc_size c * sc_size c + local_offset cfg `mod` sc_size c) as Hdm.
  { rewrite (Z.div_mod (local_offset cfg) (sc_size c)) at 1 by lia. lia. }
  assert (0 ≤ local_offset cfg `div` sc_size c * sc_size c) as Hb0 by (apply Z.mul_nonneg_nonneg; [apply Z.div_pos|]; lia).
  revert Hdm Hm Hb0 Hl Ho Hhw. generalize (local_offset cfg `div` sc_size c * sc_size c) as base. generalize (local_offset cfg `mod` sc_size c) as off.
  intros off base Hdm Hm Hb0 Hl Ho Hhw.
  assert (cw_base_address cw = local_offset cfg) as Hb by (unfold cw_base_address; rewrite Hl, Ho, u64_small; lia).
  assert (cw_size cw = sc_size c - off) as Hz by (unfold cw_size; rewrite Hsz, Ho, u64_small; lia).
  rewrite Hb, Hz in Hin. apply andb_true_iff in Hin as [H1%Z.leb_le H2%Z.leb_le].
  rewrite (u32_small len), (u64_small (addr + len)) in H2 by lia.
  assert (u64 (local_offset cfg + (sc_size c - off)) ≤ base + sc_size c) as Hle.
  { replace (local_offset cfg + _) with (base + sc_size c) by lia. apply Z.mod_le; lia. }
  exists base. split; [done|]. split; [lia|]. rewrite Hb, u64_small by lia. unfold validate, get_total_offset, get_size, open_window; cbn.
  rewrite Hsz, Ho, !u64_small by lia. split; [|lia]. by rewrite (proj2 (Z.ltb_ge _ _)) by lia.
Qed.
(** The NOC that a static window asked for with a NOC selected goes over. *)
Definition window_noc (noc : NocId) : NocId := if decide (noc = DeviceAccess.NOC1) then DeviceAccess.NOC1 else DeviceAccess.NOC0.
Lemma window_targets core address ordering noc :
  targets core (window_noc noc) (set_local_offset (window_config t core address ordering noc) 0).
Proof using. clear -t. by destruct noc. Qed.
(** The NOC an access goes over: that of a static window for the core when one
    covers the range, the one selected otherwise. *)
Definition goes_over (core : xy_pair) (noc : NocId) (mapped : bool) (noc' : NocId) : Prop :=
  if mapped then ∃ n, asked core n ∧ noc' = window_noc n else noc' = noc.

Lemma mapped_static core addr len s :
  io_ok s → 0 ≤ addr → addr + len < 2 ^ 64 → 0 ≤ len < 2 ^ 32 →
  is_range_mapped core addr len (tlb_manager s) = Ok true →
  ∃ cw noc tgt base, get_tlb_window core (tlb_manager s) = Ok cw ∧ good_window cw ∧ asked core noc ∧ targets core (window_noc noc) tgt ∧
    hw_window (open_window cw (move tick s)) = Ok (tgt, base) ∧ base ≤ addr ∧
    validate (u64 (addr - cw_base_address cw)) len (open_window cw (move tick s)) = Ok tt ∧
    get_total_offset (open_window cw (move tick s)) (u64 (addr - cw_base_address cw)) = addr - base.
Proof using Ht.
  intros Hok Ha He Hl Hm. unfold is_range_mapped, is_tlb_mapped in Hm.
  destruct (map_core_to_tlb_ (tlb_manager s) !! core) as [i|] eqn:Hi; [|done]. rewrite bool_decide_true in Hm by done.
  destruct (ok_static _ Hok core i Hi) as (cw & address & ordering & noc & Hk & Hw & Hh).
  unfold get_tlb_window in *. rewrite Hi in *. rewrite Hw in *. cbn [mbind result_bind] in Hm. injection Hm as Hm.
  assert (good_window cw) as Hg by (by apply (ok_good _ Hok), (live_static _ _ i)).
  assert (∀ s', space s' = space s → holds_config cw (window_config t core address ordering noc) s') as Hh'.
  { intros s' Hs. unfold holds_config, hw_window, open_window in *. cbn in *. by rewrite Hs. }
  destruct (static_range cw _ (move tick s) addr len Hg (Hh' (move tick s) ltac:(unfold move; by destruct (tick _))) Ha He Hl Hm)
    as (base & Hhw & Hb & Hv & Ho).
  exists cw, noc, (set_local_offset (window_config t core address ordering noc) 0), base. split_and!; try done.
  all: destruct (window_targets core address ordering noc) as (?&?&?&?&?); done.
Qed.

Lemma is_range_mapped_ok core addr len s : io_ok s → ∃ mapped, is_range_mapped core addr len (tlb_manager s) = Ok mapped.
Proof using.
  intros Hok. unfold is_range_mapped, is_tlb_mapped, get_tlb_window. destruct (_ !! core) as [i|] eqn:Hi; [|by eexists].
  rewrite bool_decide_true by done. destruct (ok_static _ Hok core i Hi) as (cw & _ & _ & _ & _ & -> & _). by eexists.
Qed.

(** The device's memory, after its move, at the core. *)
Definition moved_dev s : D := dev (move tick s).

Lemma pcie_write_correct core src addr noc w :
  io_ok (firmware w) → 0 ≤ addr → addr + vec_size src < 2 ^ 64 → vec_size src < 2 ^ 32 →
  in_reach core noc Relaxed addr (vec_size src) → available WC (firmware w) →
  wp (pcie_write tick allocate_tlb free_tlb arch noc core src addr) (λ r w', r = Ok tt ∧ ∃ mapped noc' tgt,
    is_range_mapped core addr (vec_size src) (tlb_manager (firmware w)) = Ok mapped ∧ goes_over core noc mapped noc' ∧
    targets core noc' tgt ∧ dev (firmware w') = dev_write tgt addr src (moved_dev (firmware w))) w.
Proof using gives takes Harch Ht NocDeviceLaws0 PlainMemory0.
  intros Hok Ha He Hl Hr Hav. assert (0 ≤ vec_size src) as Hl0 by (unfold vec_size; lia).
  apply wp_bind, wp_get_io. destruct (is_range_mapped_ok core addr (vec_size src) _ Hok) as [mapped Hm].
  eapply wp_bind_lift; [exact Hm|]. destruct mapped.
  - destruct (mapped_static core addr (vec_size src) _ Hok) as (cw & noc' & tgt & base & Hg & Hgood & Hk & Htgt & Hhw & Hb & Hv & Ho); [done..|].
    eapply wp_bind_lift; [exact Hg|]. apply wp_bind, wp_bind, wp_modify_io, wp_bind, wp_get_io.
    unfold writing, write_block. cbn [upd_io firmware]. rewrite Hv; cbn [mbind result_bind]. rewrite Hhw; cbn [mbind result_bind].
    apply wp_bind, wp_lift, wp_bind, wp_modify_io, wp_ret, wp_ret. split; [done|].
    exists true, (window_noc noc'), tgt. split; [done|]. split; [by exists noc'|]. split; [done|]. cbn.
    destruct (tlb_arch (cw_handle cw)); rewrite ?memcpy_to_device_correct by lia; rewrite ?Ho; f_equal; lia.
  - unfold get_cached_wc_tlb_window. apply wp_bind, get_cached_available; [done..|]. intros cw w1 Hok1 Hc _ Hd Hcl.
    assert (good_window cw) as Hg by (by apply (ok_good _ Hok1), (live_cached _ _ WC)).
    destruct (good_window_of cw (move tick (firmware w1)) Hg) as (c & Hfc & Hin & Hsz & Hwin).
    assert (sc_size c = cached_window_size t) as Hcs by (rewrite Hsz; by apply (ok_cached _ Hok1 WC)).
    destruct (write_block_reconfigure_correct arch Harch t Ht (cw_id cw) (proj1 Hg) c Hfc _ src core (XY 0 0) addr (noc_number noc) Relaxed Hwin)
      as [Hw _]. destruct (Hw (Hr c Hin Hcs)) as (win & Hwr & _ & Hdev & _).
    apply wp_bind, (use_cached_spec False WC); [apply frames_write_block|done|done| |].
    + intros e w' _ Hbad. unfold writing in Hbad. by rewrite Hwr in Hbad.
    + intros x win' w' Hop Hd' _. unfold writing in Hop. rewrite Hwr in Hop. injection Hop as _ <-.
      apply wp_modify_io. split; [done|]. eexists false, noc, _.
      split; [done|]. split; [done|]. split; [|cbn; rewrite Hd', Hdev; f_equal].
      * by split_and!.
      * unfold moved_dev, move, open_window. rewrite Hd, Hcl. by destruct (tick _).
Qed.

Lemma pcie_read_correct core addr n noc w :
  io_ok (firmware w) → 0 ≤ addr → addr + Z.of_nat n < 2 ^ 64 → Z.of_nat n < 2 ^ 32 →
  in_reach core noc Relaxed addr (Z.of_nat n) → available WC (firmware w) →
  wp (pcie_read tick allocate_tlb free_tlb arch noc core addr n) (λ r w', ∃ mapped noc' tgt,
    is_range_mapped core addr (Z.of_nat n) (tlb_manager (firmware w)) = Ok mapped ∧ goes_over core noc mapped noc' ∧
    targets core noc' tgt ∧ r = Ok (dev_read tgt addr n (moved_dev (firmware w))) ∧ dev (firmware w') = moved_dev (firmware w)) w.
Proof using gives takes Harch Ht NocDeviceLaws0 PlainMemory0.
  intros Hok Ha He Hl Hr Hav.
  apply wp_bind, wp_get_io. destruct (is_range_mapped_ok core addr (Z.of_nat n) _ Hok) as [mapped Hm].
  eapply wp_bind_lift; [exact Hm|]. destruct mapped.
  - destruct (mapped_static core addr (Z.of_nat n) _ Hok) as (cw & noc' & tgt & base & Hg & Hgood & Hk & Htgt & Hhw & Hb & Hv & Ho); [lia..|done|].
    eapply wp_bind_lift; [exact Hg|]. apply wp_bind, wp_bind, wp_modify_io, wp_bind, wp_get_io.
    unfold reading, read_block. cbn [upd_io firmware]. rewrite Hv; cbn [mbind result_bind]. rewrite Hhw; cbn [mbind result_bind].
    apply wp_bind, wp_lift, wp_bind, wp_modify_io, wp_ret, wp_ret. 
    exists true, (window_noc noc'), tgt. split; [done|]. split; [by exists noc'|]. split; [done|]. cbn. split; [|done]. f_equal.
    destruct (tlb_arch (cw_handle cw)); rewrite ?memcpy_from_device_spec by lia; rewrite ?Ho; f_equal; lia.
  - unfold get_cached_wc_tlb_window. apply wp_bind, get_cached_available; [done..|]. intros cw w1 Hok1 Hc _ Hd Hcl.
    assert (good_window cw) as Hg by (by apply (ok_good _ Hok1), (live_cached _ _ WC)).
    destruct (good_window_of cw (move tick (firmware w1)) Hg) as (c & Hfc & Hin & Hsz & Hwin).
    assert (sc_size c = cached_window_size t) as Hcs by (rewrite Hsz; by apply (ok_cached _ Hok1 WC)).
    destruct (read_block_reconfigure_correct arch Harch t Ht (cw_id cw) (proj1 Hg) c Hfc _ core addr n (noc_number noc) Relaxed Hwin (Hr c Hin Hcs))
      as (win & Hrd & _ & Hdev & _).
    assert (device (open_window cw (move tick (firmware w1))) = moved_dev (firmware w)) as Hmd.
    { unfold moved_dev, move, open_window. rewrite Hd, Hcl. by destruct (tick _). }
    apply wp_bind, (use_cached_spec False WC); [apply frames_read_block|done|done| |].
    + intros e w' _ Hbad. congruence.
    + intros x win' w' Hop Hd' _. rewrite Hrd in Hop. injection Hop as <- <-.
      apply wp_bind, wp_modify_io, wp_ret.
      exists false, noc, (set_local_offset (make_tlb_config arch addr core (noc_number noc) Relaxed None) 0).
      split; [done|]. split; [done|]. split; [|split; [|cbn; by rewrite Hd', Hdev]].
      * by split_and!.
      * by rewrite <- Hmd.
Qed.
End Invariant.

Section History.
Context {D A : Type} `{NocDeviceLaws D} `{!PlainMemory D} (tick : D * Z → D * Z).
Context (allocate_tlb : Z → TlbMapping → A → result TlbHandle * A) (free_tlb : Z → A → A) (in_use : A → gset Z).
Context (arch : ARCH) (Harch : writes_whole_register arch).
Context (t : ArchitectureTlbs) (Ht : get_architecture_tlbs arch = Ok t).

Definition fresh (s : LocalIo D A) : Prop :=
  tlb_manager s = empty_manager ∧ cached_wc_tlb_window s = None ∧ cached_uc_tlb_window s = None.
Lemma fresh_ok asked s : fresh s → io_ok in_use arch t asked s.
Proof using.
  intros (Hm & Hw & Hu). split; rewrite ?Hm; try done.
  - intros cw [i Hi|[] Hc]; [by rewrite Hm in Hi|cbn in Hc; congruence..].
  - intros [] cw Hc; cbn in Hc; congruence.
  - intros cw cw' Hc. cbn in Hc. congruence.
Qed.

(** A static window for a core was asked for, with a NOC selected. *)
Definition configured (rs : list (NocId * Request)) (core : xy_pair) (noc : NocId) : Prop :=
  ∃ size address ordering, (noc, Configure core size address ordering) ∈ rs.

(** C9: A local chip's accesses reach the core they are for, whatever has been done
    with its windows before: after any sequence of static window requests,
    clearings, block and register accesses, in any order and with any NOCs
    selected, of which some may have thrown, a write of a block below 4 GiB
    writes exactly its bytes to the core, at the addresses from [addr] on, and a
    read returns the bytes that are there, whether a static window covers the
    range or the window that the chip keeps is moved over it. The NOC is the one
    selected for the access when no static window covers the range; a static
    window that covers it is used as it was configured, so that the access goes
    over the NOC that was selected when a static window for the core was asked
    for - the same one in a program that selects one NOC, possibly another one
    otherwise ([window_of_another_noc]). The driver has a window for the chip to
    keep, which reaches the range. *)
Theorem accesses_reach_core rs w core noc :
  driver_gives allocate_tlb in_use arch t → driver_takes free_tlb in_use → fresh (firmware w) → Forall well_typed rs →
  let w1 := requests tick allocate_tlb free_tlb arch rs w in
  available allocate_tlb t WC (firmware w1) →
  (∀ src addr, 0 ≤ addr → addr + vec_size src < 2 ^ 64 → vec_size src < 2 ^ 32 → in_reach arch t core noc Relaxed addr (vec_size src) →
   wp (pcie_write tick allocate_tlb free_tlb arch noc core src addr) (λ r w', r = Ok tt ∧ ∃ mapped noc' tgt,
     is_range_mapped core addr (vec_size src) (tlb_manager (firmware w1)) = Ok mapped ∧ goes_over (configured rs) core noc mapped noc' ∧
     targets core noc' tgt ∧ dev (firmware w') = dev_write tgt addr src (moved_dev tick (firmware w1))) w1) ∧
  (∀ addr n, 0 ≤ addr → addr + Z.of_nat n < 2 ^ 64 → Z.of_nat n < 2 ^ 32 → in_reach arch t core noc Relaxed addr (Z.of_nat n) →
   wp (pcie_read tick allocate_tlb free_tlb arch noc core addr n) (λ r w', ∃ mapped noc' tgt,
     is_range_mapped core addr (Z.of_nat n) (tlb_manager (firmware w1)) = Ok mapped ∧ goes_over (configured rs) core noc mapped noc' ∧
     targets core noc' tgt ∧ r = Ok (dev_read tgt addr n (moved_dev tick (firmware w1))) ∧
     dev (firmware w') = moved_dev tick (firmware w1)) w1).
Proof using Harch Ht H1 PlainMemory0.
  intros Hg Hk Hf Hty w1 Hav.
  assert (io_ok in_use arch t (configured rs) (firmware w1)) as Hok.
  { eapply requests_ok; [done..| |done|by apply fresh_ok]. intros [n r] c noc' Hr (Hn & Ha). cbn in Hn, Ha. subst n.
    destruct r; try done. destruct Ha as [-> _]. by do 3 eexists. }
  split; intros; [by eapply pcie_write_correct|by eapply pcie_read_correct].
Qed.
End History.

(** ** Examples *)

(** A driver that has the 1 MB windows of Wormhole. *)
Definition example_driver (size : Z) (_ : TlbMapping) (taken : gset Z) : result TlbHandle * gset Z :=
  match list_find (λ i, i ∉ taken) (seqZ 0 156) with
  | Some (_, i) =>
      if size =? ONE_MB then (Ok (MkTlbHandle i ONE_MB WORMHOLE_B0 tlb_data_default), {[i]} ∪ taken)
      else (throw "tt_tlb_alloc failed", taken)
  | None => (throw "tt_tlb_alloc failed", taken)
  end.
Definition example_free (i : Z) (taken : gset Z) : gset Z := taken ∖ {[i]}.
Lemma example_gives : driver_gives example_driver (λ taken, taken) WORMHOLE_B0 wormhole_windows.wormhole_tlbs.
Proof.
  intros size mapping taken. unfold example_driver. destruct (list_find _ _) as [[k i]|] eqn:E; [|done].
  destruct (Z.eqb_spec size ONE_MB) as [->|]; [|done]. apply list_find_Some in E as (Hl & Hi & _).
  apply list_elem_of_lookup_2, elem_of_seqZ in Hl. cbn [tlb_id tlb_arch TlbWindow.tlb_size]. split_and!; try done; [lia|].
  exists example_class. split; [|done]. cbn. unfold in_class. cbn [sc_base_index sc_count].
  rewrite (proj2 (Z.leb_le _ _)), (proj2 (Z.ltb_lt _ _)); [done| |]; [change (u32 _) with 156|unfold wormhole_windows.TLB_BASE_INDEX_1M]; lia.
Qed.

Definition example_io : LocalIo ByteMemory (gset Z) := MkIo empty_manager None None ∅ (λ _ _, 0) ∅ 0.
Definition example_world : World (LocalIo ByteMemory (gset Z)) := MkWorld (λ _ _, 0) (λ _, 0) example_io.
Definition still (dc : ByteMemory * Z) : ByteMemory * Z := dc.
(** A static window for a part of a core, an access elsewhere, a window for
    another core over the other NOC, a request that throws. *)
Definition example_requests : list (NocId * Request) :=
  [(DeviceAccess.NOC0, Configure (XY 18 18) 0 4096 Relaxed); (DeviceAccess.NOC0, Write (XY 18 18) [1; 2; 3] (2 ^ 20));
   (DeviceAccess.NOC1, Configure (XY 19 18) ONE_MB 0 Strict); (DeviceAccess.NOC0, Configure (XY 18 18) 5 0 Relaxed);
   (DeviceAccess.NOC1, ReadReg (XY 20 18) 64 4)].

Lemma accesses_reach_core_witness :
  let w1 := requests still example_driver example_free WORMHOLE_B0 example_requests example_world in
  wp (pcie_write still example_driver example_free WORMHOLE_B0 DeviceAccess.NOC1 (XY 18 18) [7; 8] 8192)
    (λ r w', r = Ok tt ∧ ∃ mapped noc' tgt,
      is_range_mapped (XY 18 18) 8192 2 (tlb_manager (firmware w1)) = Ok mapped ∧
      goes_over (configured example_requests) (XY 18 18) DeviceAccess.NOC1 mapped noc' ∧ targets (XY 18 18) noc' tgt ∧
      dev (firmware w') = dev_write tgt 8192 [7; 8] (moved_dev still (firmware w1))) w1.
Proof.
  refine (proj1 (accesses_reach_core (D:=ByteMemory) still example_driver example_free (λ taken, taken) WORMHOLE_B0 (or_introl eq_refl)
    wormhole_windows.wormhole_tlbs eq_refl example_requests example_world (XY 18 18) DeviceAccess.NOC1 example_gives _ _ _ _)
    [7; 8] 8192 _ _ _ _).
  - by intros i a.
  - by split_and!.
  - repeat constructor; cbn; lia.
  - left. vm_compute. by eexists.
  - lia.
  - by vm_compute.
  - by vm_compute.
  - intros c Hc Hsz. apply list_elem_of_In in Hc. cbn in Hc. destruct_or! Hc; try done; subst c; try by vm_compute in Hsz.
    split; [lia|]. split; [by vm_compute|]. intros _. apply (bool_decide_unpack _). by vm_compute.
Defined.

(** With another NOC selected than when the window was asked for, an access can
    go through the window of another core: without NOC translation, what is
    (1, 1) on NOC 0 is a core whose coordinates on NOC 1 are (8, 10), and the
    access to the core that has (1, 1) on NOC 1 goes to the one of NOC 0. *)
Example window_of_another_noc :
  let w1 := requests still example_driver example_free WORMHOLE_B0
    [(DeviceAccess.NOC0, Configure (XY 1 1) ONE_MB 0 Relaxed)] example_world in
  match pcie_write still example_driver example_free WORMHOLE_B0 DeviceAccess.NOC1 (XY 1 1) [7] 0 w1 with
  | Some (Ok _, w2) => dev (firmware w2) (set_local_offset (window_config wormhole_windows.wormhole_tlbs (XY 1 1) 0 Relaxed DeviceAccess.NOC0) 0) 0 = 7
  | _ => False
  end.
Proof. by vm_compute. Qed.

(** The range check takes 32 bits of the size: 4 GiB are said to be in a window
    of 1 MiB, which then throws instead of the transfer in parts. *)
Example four_gigabytes_are_mapped :
  let s := firmware (requests still example_driver example_free WORMHOLE_B0
    [(DeviceAccess.NOC0, Configure (XY 18 18) ONE_MB 0 Relaxed)] example_world) in
  is_range_mapped (XY 18 18) 0 (2 ^ 32) (tlb_manager s) = Ok true ∧
  (cw ← get_tlb_window (XY 18 18) (tlb_manager s); validate 0 (2 ^ 32) (open_window cw s)) = Err OutOfRange.
Proof. split; by vm_compute. Qed.
