(* ===== verification/TTDeviceProperties.v ===== *)
(** * TTDeviceProperties

    What [TTDevice] promises over any protocol: a write to a range of cores is one
    hardware write or, when the protocol does not support it, one write to each
    working Tensix core of the range; and, over a reset register that keeps what
    is written to it, the resets of RISC cores touch the selected bits only. *)

From Stdlib Require Import ZArith Lia.
From stdpp Require Import base list list_numbers numbers strings.
From S2P Require Import DeviceAccess.
From S2P Require Import Prelude CoreTypes ArchData Harvesting CoordinateManager Managers CoordTheory CoordTable RowCoords BlackholeCoords CoordProperties.
From S2P Require Import BoardTypes RiscType RemoteQueue RemoteWrite TextUtils SocArch SocDescriptor SocAddresses WormholeFirmware TTDevice SocExamples.

Local Open Scope Z_scope.

(** A pure step that does not throw. *)
Lemma lift_bind {F A B} (r : result A) a (f : A → M F B) w : r = Ok a → (lift r ≫= f) w = f a w.
Proof. by intros ->. Qed.

(** ** Writes to a range of cores *)

(** A coordinate in the rectangle of two corners. *)
Definition in_rectangle (s e c : xy_pair) : bool :=
  (Z.min (xy_x s) (xy_x e) <=? xy_x c) && (xy_x c <=? Z.max (xy_x s) (xy_x e)) &&
  (Z.min (xy_y s) (xy_y e) <=? xy_y c) && (xy_y c <=? Z.max (xy_y s) (xy_y e)).

Section Range.
Context {F : Type} `{!DeviceProtocol F} `{!DmaInterface F}.
Context (flush lock unlock : M F unit) (i : Interfaces).
Context (arch : ARCH) (L : Layout) (MM : HarvestingMasks) (soc : Soc.SocDescriptor).
Context (Hsoc : soc_ok arch L MM true soc) (g : UnitGrid).
Context (Hg : unit_grids arch L MM TENSIX = Some g) (Hmask : 0 ≤ ug_mask g < 2 ^ 64).

(** A Tensix core in use at its translated coordinate. *)
Definition working_tensix (c : CoreCoord) : Prop := working arch L MM true TENSIX g TRANSLATED c.
(** Accesses to it go to that coordinate. *)
Lemma tensix_core_in_place c noc : working_tensix c → resolve_coordinate (Some soc) c noc = Ok (to_pair c).
Proof.
  intros (Htype & Hsys & _ & _ & p & _ & _ & HT). unfold resolve_coordinate.
  rewrite decide_False by (by rewrite Hsys). unfold Soc.translate_chip_coord_to_translated, Soc.translate_chip_coord_to_translated_coord.
  rewrite decide_False by (by rewrite Hsys). rewrite (so_translation _ _ _ _ _ Hsoc). cbn [negb].
  assert (Soc.translate_coord_to soc c TRANSLATED = Ok c) as Hself.
  { pose proof (soc_translate_exists _ _ _ _ _ Hsoc c p c HT HT) as He. by rewrite Hsys in He. }
  rewrite !Htype. rewrite (bool_decide_eq_false_2 (TENSIX = DRAM ∨ TENSIX = ARC ∨ TENSIX = PCIE)) by (by intros [?|[?|?]]).
  rewrite andb_false_r, !decide_False by done. rewrite Hself. by destruct (_ && _).
Qed.

(** The same bytes to one place after the other. *)
Fixpoint write_each (src : list Z) (places : list xy_pair) (addr : Z) (noc : NocId) : M F unit :=
  match places with
  | [] => mret tt
  | p :: places => protocol_write_data src p addr noc;; write_each src places addr noc
  end.
(** The places of the working Tensix cores in a rectangle, and no other. *)
Definition range_places (s e : xy_pair) (places : list xy_pair) : Prop :=
  ∀ p, p ∈ places ↔ in_rectangle s e p = true ∧ ∃ c, working_tensix c ∧ p = to_pair c.

Lemma write_cores_each src s e addr noc cores w :
  (∀ c, c ∈ cores → working_tensix c) →
  write_cores (Some soc) src cores (Z.min (xy_x s) (xy_x e)) (Z.max (xy_x s) (xy_x e)) (Z.min (xy_y s) (xy_y e)) (Z.max (xy_y s) (xy_y e)) addr noc w
  = write_each src (List.filter (in_rectangle s e) (map to_pair cores)) addr noc w.
Proof.
  revert w. induction cores as [|c cores IH]; intros w Hin; [done|]. cbn [write_cores map List.filter].
  change ((_ <=? cc_x c) && _ && _ && _) with (in_rectangle s e (to_pair c)).
  assert (∀ w, write_cores (Some soc) src cores (Z.min (xy_x s) (xy_x e)) (Z.max (xy_x s) (xy_x e)) (Z.min (xy_y s) (xy_y e)) (Z.max (xy_y s) (xy_y e)) addr noc w
    = write_each src (List.filter (in_rectangle s e) (map to_pair cores)) addr noc w) as IH'.
  { intros w'. apply IH. intros c' Hc'. apply Hin. by right. }
  destruct (in_rectangle s e (to_pair c)); [|apply IH']. cbn [write_each]. unfold write_to_device.
  unfold mbind at 1, M_bind at 1. rewrite (lift_bind _ _ _ _ (tensix_core_in_place c noc (Hin c ltac:(by left)))).
  unfold mbind, M_bind. destruct (protocol_write_data _ _ _ _ w) as [[[]]|]; [apply IH'|done..].
Qed.

Lemma M_bind_assoc {A B C} (m : M F A) (f : A → M F B) (k : B → M F C) w : ((m ≫= f) ≫= k) w = (m ≫= (λ a, f a ≫= k)) w.
Proof. unfold mbind, M_bind. by destruct (m w) as [[[]]|]. Qed.
Lemma M_bind_ext {A B} (m : M F A) (f k : A → M F B) w : (∀ a w, f a w = k a w) → (m ≫= f) w = (m ≫= k) w.
Proof. intros Hf. unfold mbind, M_bind. destruct (m w) as [[[]]|]; [apply Hf|done..]. Qed.

(** A write to the range: by the hardware if the protocol takes it, else to each
    of the places; on a remote chip, a flush. *)
Definition write_range (src : list Z) (s e : xy_pair) (places : list xy_pair) (addr : Z) (noc : NocId) : M F unit :=
  taken ← write_to_core_range src s e addr noc;
  (if taken : bool then mret tt else write_each src places addr noc);;
  if is_remote i then flush else mret tt.

(** C8: RANGE WRITES, over any protocol. A multicast to the range of two cores asks
    the protocol once for a hardware write to the range; when the protocol does
    not support it, the bytes are written, by one access each, to exactly the
    working Tensix cores whose translated coordinates lie in the rectangle of
    the two - no harvested core, no core of another type, whichever corners the
    two are. A remote chip is flushed afterwards. A DMA write to a range, which
    remote chips refuse, asks the protocol once for a DMA transfer, under the lock,
    and is the multicast when that is not supported. Errors of the protocol end
    the call at that point. *)
Theorem range_writes_reach src core_start core_end s e addr noc :
  resolve_coordinate (Some soc) core_start noc = Ok s → resolve_coordinate (Some soc) core_end noc = Ok e →
  ∃ places, range_places s e places ∧ ∀ w,
    noc_multicast_write i (Some soc) flush src core_start core_end addr noc w = write_range src s e places addr noc w ∧
    dma_write_to_core_range i (Some soc) flush lock unlock true src addr core_start core_end noc w =
      if is_remote i then Some (throw "DMA write to core range not supported for remote device.", w)
      else (taken ← under_dma_lock lock unlock (protocol_dma_multicast_write src addr s e noc);
            if taken : bool then mret tt else write_range src s e places addr noc) w.
Proof.
  intros Hs He. destruct (cores_spec arch L MM true soc Hsoc TENSIX g TRANSLATED Hg Hmask) as (cores & Hcores & Hin); [done|by right|].
  exists (List.filter (in_rectangle s e) (map to_pair cores)). split.
  { intros p. rewrite list_elem_of_In, filter_In, <- list_elem_of_In, list_elem_of_fmap. split.
    - intros [(c & -> & Hc%Hin) Hr]. split; [done|by exists c].
    - intros [Hr (c & Hc%Hin & ->)]. split; [by exists c|done]. }
  assert (∀ w, noc_multicast_write i (Some soc) flush src core_start core_end addr noc w
    = write_range src s e (List.filter (in_rectangle s e) (map to_pair cores)) addr noc w) as Hmulticast.
  { intros w. unfold noc_multicast_write.
    assert (assert_translation (Some soc) = Ok tt) as Ht.
    { unfold assert_translation. cbn. by rewrite (so_translation _ _ _ _ _ Hsoc). }
    rewrite (lift_bind _ _ _ _ Ht), (lift_bind _ _ _ _ Hs), (lift_bind _ _ _ _ He). apply M_bind_ext. intros [] w1; [done|].
    unfold mbind, M_bind at 1. unfold multicast_write_via_unicast.
    rewrite (lift_bind _ _ _ _ Hs), (lift_bind _ _ _ _ He), (lift_bind _ soc _ _ eq_refl), (lift_bind _ _ _ _ Hcores).
    rewrite write_cores_each by (intros c; apply Hin). done. }
  intros w. split; [apply Hmulticast|]. unfold dma_write_to_core_range, refuse_remote. destruct (is_remote i); [done|].
  unfold mbind at 1, M_bind at 1. cbn [mret M_ret].
  assert (∀ w, under_dma_lock lock unlock (lift (get_dma_interface true);; c0 ← lift (resolve_coordinate (Some soc) core_start noc);
    c1 ← lift (resolve_coordinate (Some soc) core_end noc); protocol_dma_multicast_write src addr c0 c1 noc) w
    = under_dma_lock lock unlock (protocol_dma_multicast_write src addr s e noc) w) as Hdma.
  { intros w'. unfold under_dma_lock. destruct (lock w') as [[[] w1]|]; [|done..].
    by rewrite (lift_bind _ tt _ _ eq_refl), (lift_bind _ _ _ _ Hs), (lift_bind _ _ _ _ He). }
  unfold mret at 1, M_ret at 1. unfold mbind, M_bind. rewrite Hdma. destruct (under_dma_lock _ _ _ w) as [[[[]|] w1]|]; [done|apply Hmulticast|done..].
Qed.
End Range.

(** ** The resets of RISC cores *)

Section Resets.
Context {F : Type} `{!DeviceProtocol F} (soc : option Soc.SocDescriptor).
Context (arch : ARCH) (core : CoreCoord) (place : xy_pair) (Hplace : resolve_coordinate soc core DEFAULT_NOC = Ok place).
(** The soft reset register of the core, which holds what is written to it. *)
Context (reset_register : World F → Z).
Class ResetRegister : Prop := {
  reset_read w : ∃ w', protocol_read_ctrl place (get_tensix_soft_reset_addr arch) 4 DEFAULT_NOC w
    = Some (Ok (word_bytes (reset_register w)), w') ∧ reset_register w' = reset_register w;
  reset_write v w : 0 ≤ v < 2 ^ 32 → ∃ w', protocol_write_ctrl (word_bytes v) place (get_tensix_soft_reset_addr arch) DEFAULT_NOC w
    = Some (Ok tt, w') ∧ reset_register w' = v;
  reset_range w : 0 ≤ reset_register w < 2 ^ 32
}.
Context `{!ResetRegister}.

Lemma le_word_bytes v : 0 ≤ v < 2 ^ 32 → le_word (word_bytes v) = v.
Proof.
  intros Hv. unfold word_bytes, le_word. cbn [map foldr]. rewrite !byte_of_spec by lia.
  change (2 ^ (8 * 0)) with 1. change (2 ^ (8 * 1)) with 256. change (2 ^ (8 * 2)) with 65536.
  change (2 ^ (8 * 3)) with 16777216. change (2 ^ 8) with 256. Z.div_mod_to_equations; lia.
Qed.

Lemma get_state_spec w : ∃ w', get_risc_reset_state arch soc core w = Some (Ok (reset_register w), w') ∧ reset_register w' = reset_register w.
Proof.
  destruct (reset_read w) as (w' & E & Hr). exists w'. split; [|done]. unfold get_risc_reset_state, read_from_device_reg.
  unfold mbind at 1, M_bind at 1. rewrite (lift_bind _ _ _ _ Hplace), E, le_word_bytes by apply reset_range. done.
Qed.
Lemma set_state_spec v w : 0 ≤ v < 2 ^ 32 →
  ∃ w', set_risc_reset_state arch soc core v w = Some (Ok tt, w') ∧ reset_register w' = v.
Proof.
  intros Hv. destruct (reset_write v w Hv) as (w' & E & Hr). exists w'. split; [|done].
  unfold set_risc_reset_state, write_to_device_reg. by rewrite (lift_bind _ _ _ _ Hplace).
Qed.

Lemma lor_range a b : 0 ≤ a < 2 ^ 32 → 0 ≤ b < 2 ^ 32 → 0 ≤ Z.lor a b < 2 ^ 32.
Proof.
  intros Ha Hb. assert (Z.lor a b = Z.land (Z.lor a b) (Z.ones 32)) as ->.
  { rewrite Z.land_lor_distr_l, !Z.land_ones, !Z.mod_small by lia. done. }
  rewrite Z.land_ones by lia. apply Z.mod_pos_bound. lia.
Qed.
Lemma ldiff_range a b : 0 ≤ a < 2 ^ 32 → 0 ≤ Z.ldiff a b < 2 ^ 32.
Proof.
  intros Ha. assert (Z.ldiff a b = Z.land (Z.ldiff a b) (Z.ones 32)) as ->.
  { apply Z.bits_inj'. intros n Hn. rewrite Z.land_spec, !Z.ldiff_spec, Z.testbit_ones_nonneg by lia.
    destruct (Z.ltb_spec n 32); [by rewrite andb_true_r|]. rewrite andb_false_r.
    destruct (Z.eq_dec a 0) as [->|]; [by rewrite Z.bits_0|].
    rewrite (Z.bits_above_log2 a n); [done|lia|]. assert (Z.log2 a < 32) by (apply Z.log2_lt_pow2; lia). lia. }
  rewrite Z.land_ones by lia. apply Z.mod_pos_bound. lia.
Qed.

(** Asserting the reset of some RISC cores sets their bits, deasserting it
    clears them (and sets the bit for a staggered start), and every other bit of
    the register keeps its value. *)
Lemma risc_resets_selected riscs mask staggered w :
  get_soft_reset_reg_value arch riscs = Ok mask → 0 ≤ mask < 2 ^ 32 →
  (∃ w', assert_risc_reset arch soc core riscs w = Some (Ok tt, w') ∧
     ∀ n, 0 ≤ n → Z.testbit (reset_register w') n = Z.testbit (reset_register w) n || Z.testbit mask n) ∧
  (∃ w', deassert_risc_reset arch soc core riscs staggered w = Some (Ok tt, w') ∧
     ∀ n, 0 ≤ n → n ≠ 31 → Z.testbit (reset_register w') n = Z.testbit (reset_register w) n && negb (Z.testbit mask n)).
Proof.
  intros Hm Hr. destruct (get_state_spec w) as (w1 & E1 & H1). pose proof (reset_range w) as Hw. split.
  - destruct (set_state_spec (Z.lor (reset_register w) mask) w1) as (w2 & E2 & H2); [by apply lor_range|].
    exists w2. split; [|intros n Hn; by rewrite H2, Z.lor_spec].
    unfold assert_risc_reset, mbind at 1, M_bind at 1. by rewrite E1, (lift_bind _ _ _ _ Hm).
  - set (bit31 := if staggered then get_soft_reset_staggered_start arch else 0).
    assert (0 ≤ bit31 < 2 ^ 32 ∧ ∀ n, n ≠ 31 → 0 ≤ n → Z.testbit bit31 n = false) as [Hb Hb31].
    { unfold bit31, get_soft_reset_staggered_start. destruct staggered; [destruct arch|]; (split; [lia|]); intros n Hn Hn0;
        rewrite ?Z.bits_0, ?Z.pow2_bits_false by lia; done. }
    destruct (set_state_spec (Z.lor (Z.ldiff (reset_register w) mask) bit31) w1) as (w2 & E2 & H2);
      [by apply lor_range; [by apply ldiff_range|]|].
    exists w2. split.
    + unfold deassert_risc_reset, mbind at 1, M_bind at 1. by rewrite E1, (lift_bind _ _ _ _ Hm).
    + intros n Hn Hn31. by rewrite H2, Z.lor_spec, Z.ldiff_spec, Hb31, orb_false_r.
Qed.
End Resets.

(** ** The reference clock *)

(** The upper half of the counter is never in the result. *)
Lemma refclk_counter_truncated {F} (read_from_arc_apb : Z → M F Z) w v w' :
  (∀ off w v w', read_from_arc_apb off w = Some (Ok v, w') → 0 ≤ v < 2 ^ 32) →
  get_refclk_counter read_from_arc_apb w = Some (Ok v, w') → 0 ≤ v < 2 ^ 32.
Proof.
  intros Hread. unfold get_refclk_counter, mbind, M_bind.
  destruct (read_from_arc_apb ARC_RESET_REFCLK_HIGH_OFFSET w) as [[[h|] w1]|] eqn:E1; try discriminate.
  destruct (read_from_arc_apb ARC_RESET_REFCLK_LOW_OFFSET w1) as [[[l|] w2]|] eqn:E2; try discriminate.
  destruct (read_from_arc_apb ARC_RESET_REFCLK_HIGH_OFFSET w2) as [[[h'|] w3]|] eqn:E3; try discriminate.
  pose proof (Hread _ _ _ _ E3). destruct (Z.ltb_spec h' 0); [lia|]. unfold mret, M_ret. intros [= <- <-].
  by apply (Hread _ _ _ _ E2).
Qed.

(** ** A P150 over plain memory *)

Inductive PlainMemory := MkPlain.
Definition upd_bytes (src : list Z) (reached : xy_pair → bool) (addr : Z) (w : World PlainMemory) : World PlainMemory :=
  MkWorld (λ c a, if reached c && bool_decide (addr ≤ a < addr + Z.of_nat (length src))
                  then nth (Z.to_nat (a - addr)) src 0 else mem w c a) (bar w) (firmware w).
(** Multicast is taken on NOC 0 only, DMA is not. *)
#[global] Instance plain_protocol : DeviceProtocol PlainMemory := {|
  protocol_read_data c addr n _ := λ w, Some (Ok (map (λ k, mem w c (addr + Z.of_nat k)) (seq 0 n)), w);
  protocol_write_data src c addr _ := λ w, Some (Ok tt, upd_bytes src (λ c', bool_decide (c' = c)) addr w);
  protocol_read_ctrl c addr n _ := λ w, Some (Ok (map (λ k, mem w c (addr + Z.of_nat k)) (seq 0 n)), w);
  protocol_write_ctrl src c addr _ := λ w, Some (Ok tt, upd_bytes src (λ c', bool_decide (c' = c)) addr w);
  write_to_core_range src s e addr noc := λ w,
    if decide (noc = DeviceAccess.NOC0) then Some (Ok true, upd_bytes src (in_rectangle s e) addr w) else Some (Ok false, w)
|}.
#[global] Instance plain_dma : DmaInterface PlainMemory := {|
  protocol_dma_read _ _ _ _ := λ w, Some (Ok None, w);
  protocol_dma_write _ _ _ _ := λ w, Some (Ok false, w);
  protocol_dma_multicast_write _ _ _ _ _ := λ w, Some (Ok false, w);
  protocol_dma_read_zero_copy _ _ _ _ _ := λ w, Some (Ok false, w);
  protocol_dma_write_zero_copy _ _ _ _ _ := λ w, Some (Ok false, w)
|}.
Definition plain_interfaces : Interfaces := MkInterfaces true true false false.
Definition plain_world : World PlainMemory := MkWorld (λ _ _, 0) (λ _, 0) MkPlain.

(** The corners of the range may be any two. *)
Lemma range_writes_reach_witness :
  ∃ d soc g, SocArchDescriptor_of_arch BLACKHOLE = Ok d ∧ Soc.SocDescriptor_new (Some d) p150_info = Ok soc ∧
  ∃ places, range_places (arch_ d) (Soc.layout_of d) (ci_harvesting_masks p150_info) g (XY 3 2) (XY 1 4) places ∧ ∀ w,
    noc_multicast_write plain_interfaces (Some soc) (mret tt) [7; 8] (CoreCoord_literal (XY 3 2)) (CoreCoord_literal (XY 1 4))
      64 DeviceAccess.NOC1 w = write_range (mret tt) plain_interfaces [7; 8] (XY 3 2) (XY 1 4) places 64 DeviceAccess.NOC1 w ∧
    dma_write_to_core_range plain_interfaces (Some soc) (mret tt) (mret tt) (mret tt) true [7; 8] 64
      (CoreCoord_literal (XY 3 2)) (CoreCoord_literal (XY 1 4)) DeviceAccess.NOC1 w
    = (taken ← under_dma_lock (mret tt) (mret tt) (protocol_dma_multicast_write [7; 8] 64 (XY 3 2) (XY 1 4) DeviceAccess.NOC1);
       if taken : bool then mret tt
       else write_range (mret tt) plain_interfaces [7; 8] (XY 3 2) (XY 1 4) places 64 DeviceAccess.NOC1) w.
Proof.
  destruct p150_description as [d Hd].
  destruct (soc_new_ok d p150_info (p150_supported d Hd) p150_board_ok) as (soc & Hnew & _ & _ & Hok).
  assert (∃ g, unit_grids (arch_ d) (Soc.layout_of d) (ci_harvesting_masks p150_info) TENSIX = Some g) as [g Hg].
  { destruct (arch_descriptor_layout _ _ Hd) as [-> ->]. eexists. reflexivity. }
  exists d, soc, g. split; [exact Hd|]. split; [exact Hnew|].
  exact (range_writes_reach (mret tt) (mret tt) (mret tt) plain_interfaces
    (arch_ d) (Soc.layout_of d) (ci_harvesting_masks p150_info) soc Hok g Hg (p150_masks d TENSIX g Hd Hg)
    [7; 8] (CoreCoord_literal (XY 3 2)) (CoreCoord_literal (XY 1 4)) (XY 3 2) (XY 1 4) 64 DeviceAccess.NOC1 eq_refl eq_refl).
Defined.

(** On NOC 1 the cores are written one by one: on a P150 without harvesting, the
    Tensix cores at (1, 2) to (3, 4), the corners included, and not their neighbours. *)
Example p150_unicast :
  match (d ← SocArchDescriptor_of_arch BLACKHOLE; Soc.SocDescriptor_new (Some d) p150_info) with
  | Ok soc =>
      match noc_multicast_write plain_interfaces (Some soc) (mret tt) [7; 8] (CoreCoord_literal (XY 3 2)) (CoreCoord_literal (XY 1 4))
              64 DeviceAccess.NOC1 plain_world with
      | Some (Ok tt, w) => map (λ c, mem w c 65) [XY 1 2; XY 2 3; XY 3 4; XY 4 4; XY 3 5] = [8; 8; 8; 0; 0]
      | _ => False
      end
  | Err _ => False
  end.
Proof. vm_compute. reflexivity. Qed.
