(* ===== verification/ArchDevices.v ===== *)
(** * ArchDevices

    The two devices of silicon: [tt_device/wormhole_tt_device.cpp] and
    [tt_device/blackhole_tt_device.cpp], the virtual functions behind
    [TTDevice]: access to the ARC, clocks, Ethernet training, chip information
    and the iATU regions that map host memory. *)

From Stdlib Require Import ZArith Lia QArith.
From stdpp Require Import base list list_numbers numbers strings gmap sets.
From S2P Require Import Prelude CoreTypes ArchData Harvesting BoardTypes SocDescriptor DeviceAccess ArcQueue ArcQueueProperties ArchRegisters TelemetryReader FirmwareInfo.
From S2P Require Import WormholeFirmware WormholeMailbox BlackholeFirmware TTDevice.

Local Open Scope Z_scope.

Inductive PowerState := POWER_BUSY | POWER_IDLE.

(** A device's wait for an Ethernet core, which returns the milliseconds
    waited; [on_timeout] throws, or ends the wait. *)
Fixpoint eth_training_loop {F R} (now : F → Z) (fuel : nat) (status : M F Z) (on_timeout : H F R unit) (start timeout_ms duration : Z) : H F R Z :=
  match fuel with
  | O => λ _ _, None
  | S fuel =>
      s ← on_device status;
      if negb (s =? ETH_IN_PROGRESS) then mret duration
      else
        time ← on_device (steady_clock_now now);
        let duration := (time - start) ÷ 1000000 in
        if timeout_ms <? duration then on_timeout;; mret duration
        else eth_training_loop now fuel status on_timeout start timeout_ms duration
  end.

(** ** Wormhole *)
Module WH.
Definition ARC_CSM_BAR0_MAILBOX_OFFSET : Z := ARC_CSM_BAR0_XBAR_OFFSET_START + 0x783C4.
Definition SETUP_IATU_FOR_PEER_TO_PEER : Z := 0x97.

Section WormholeTTDevice.
Context {F : Type} (env : World F → World F) (locate : NocId → xy_pair → xy_pair) (now : F → Z).
Context (sleep_for : Z → World F → World F) (i : Interfaces) (device_id : Z) (selected_noc_id : NocId).
Context (arc_core_noc0 arc_core_noc1 : xy_pair).

(** [TTDevice::get_arc_core()]. *)
Definition get_arc_core : xy_pair := if decide (selected_noc_id = NOC1) then arc_core_noc1 else arc_core_noc0.

(** Accesses of a word. A remote access goes over the selected NOC, whatever
    NOC it is given ([RemoteProtocol]). *)
Definition arc_word_at (noc_base bar0_start : Z) (off : Z) : M F Z :=
  if is_remote i then read_data env locate get_arc_core (noc_base + off) selected_noc_id
  else if jtag_interface i then read_data env locate (XY 0 10) (noc_base + off) DEFAULT_NOC
  else bar_read32 env (bar0_start + off).
Definition set_arc_word_at (noc_base bar0_start : Z) (v off : Z) : M F unit :=
  if is_remote i then write_data env locate get_arc_core (noc_base + off) v selected_noc_id
  else if jtag_interface i then write_data env locate (XY 0 10) (noc_base + off) v DEFAULT_NOC
  else bar_write32 env (bar0_start + off) v.
Definition read_from_arc_apb (off : Z) : M F Z :=
  if ARC_APB_ADDRESS_RANGE <? off then raise "Address is out of ARC APB address range."
  else arc_word_at ARC_APB_NOC_BASE_ADDRESS ARC_APB_BAR0_XBAR_OFFSET_START off.
Definition write_to_arc_apb (v off : Z) : M F unit :=
  if ARC_APB_ADDRESS_RANGE <? off then raise "Address is out of ARC APB address range."
  else set_arc_word_at ARC_APB_NOC_BASE_ADDRESS ARC_APB_BAR0_XBAR_OFFSET_START v off.
Definition read_from_arc_csm (off : Z) : M F Z :=
  if ARC_CSM_ADDRESS_RANGE <? off then raise "Address is out of ARC CSM address range."
  else arc_word_at ARC_CSM_NOC_BASE_ADDRESS ARC_CSM_BAR0_XBAR_OFFSET_START off.
Definition write_to_arc_csm (v off : Z) : M F unit :=
  if ARC_CSM_ADDRESS_RANGE <? off then raise "Address is out of ARC CSM address range."
  else set_arc_word_at ARC_CSM_NOC_BASE_ADDRESS ARC_CSM_BAR0_XBAR_OFFSET_START v off.

Definition get_noc_translation_enabled : M F bool :=
  niu_cfg ← read_from_arc_apb (0x50000 + 0x100); mret (negb (Z.land niu_cfg (Z.shiftl 1 14) =? 0)).

(** [get_arc_messenger()->send_message], with room for [wanted] results.
    [bus_check] is [is_pcie_hung]. *)
Context (fuel : nat) (flush : M F unit) (bus_check : M F bool).
Definition send_message (msg_code : Z) (return_values args : list Z) : M F (Z * list Z) :=
  messenger_send_message now read_from_arc_apb (λ off v, write_to_arc_apb v off) flush fuel bus_check device_id msg_code return_values args
    ARC_MESSAGE_TIMEOUT.

Definition harvesting_mask : M F Z :=
  '(ret_code, values) ← send_message (Z.lor ARC_MSG_COMMON_PREFIX ARC_GET_HARVESTING) [0] [0; 0];
  if negb (ret_code =? 0) then raise "Failed to get harvesting masks"
  else
    v ← lift (vec_idx values 0);
    lift (shuffle_tensix_harvesting_mask WORMHOLE_B0 v).
(** The base class's information, with the Tensix mask. *)
Definition get_chip_info (base : M F ChipInfo) : M F ChipInfo :=
  info ← base;
  mask ← harvesting_mask;
  let masks := ci_harvesting_masks info in
  mret (MkChipInfo (ci_noc_translation_enabled info)
          (MkMasks mask (dram_harvesting_mask masks) (eth_harvesting_mask masks) (pcie_harvesting_mask masks) (l2cpu_harvesting_mask masks))
          (ci_board_type info) (ci_board_id info) (ci_asic_location info)).

Definition get_clock : M F Z :=
  '(exit_code, values) ← send_message (Z.lor ARC_MSG_COMMON_PREFIX GET_AICLK) [0] [0xFFFF; 0xFFFF];
  if negb (exit_code =? 0) then raise "Failed to get AICLK value" else lift (vec_idx values 0).

Definition get_power_state_arc_msg (state : PowerState) : Z :=
  Z.lor ARC_MSG_COMMON_PREFIX (match state with POWER_BUSY => ARC_GO_BUSY | POWER_IDLE => ARC_GO_LONG_IDLE end).
(** [target_aiclk] is [wait_for_aiclk_value]'s: the maximum or minimum clock. *)
Definition set_clock_state (state : PowerState) (target_aiclk : Z) : M F unit :=
  '(exit_code, _) ← send_message (get_power_state_arc_msg state) [] [0; 0];
  lift (umd_assert (exit_code =? 0) "Failed to set clock state");;
  wait_for_aiclk_value now sleep_for fuel get_clock target_aiclk AICLK_TIMEOUT.

(** Channel 3 uses region 4. *)
Definition configure_iatu_region (region target region_size : Z) : M F unit :=
  let region_id_to_use := if region =? 3 then 4 else u32 region in
  if jtag_interface i then raise "configure_iatu_region is redundant for JTAG communication type."
  else
    bar_write32 env (ARC_CSM_BAR0_MAILBOX_OFFSET + 0 * 4) region_id_to_use;;
    bar_write32 env (ARC_CSM_BAR0_MAILBOX_OFFSET + 1 * 4) (Z.land target 0xffffffff);;
    bar_write32 env (ARC_CSM_BAR0_MAILBOX_OFFSET + 2 * 4) (Z.land (Z.shiftr target 32) 0xffffffff);;
    bar_write32 env (ARC_CSM_BAR0_MAILBOX_OFFSET + 3 * 4) (u32 region_size);;
    _ ← send_message (Z.lor ARC_MSG_COMMON_PREFIX SETUP_IATU_FOR_PEER_TO_PEER) [] [0; 0];
    mret tt.

(** The status of an Ethernet core at the coordinate that accesses take. *)
Definition read_eth_core_training_status (eth_core : xy_pair) : M F Z :=
  get_eth_core_training_status env locate eth_core DEFAULT_NOC.
(** [get_board_type] may throw. *)
Definition wait_eth_core_training {R} (get_board_type : H F R BoardType) (eth_core : xy_pair) (timeout_ms : Z) : H F R Z :=
  start ← on_device (steady_clock_now now);
  eth_training_loop now fuel (read_eth_core_training_status eth_core)
    (board_type ← get_board_type; if decide (board_type = UBB) then mret tt else hraise "ETH training timed out")
    start timeout_ms 0.

Definition probe_arc : M F unit := _ ← read_from_arc_apb ARC_RESET_SCRATCH_OFFSET; mret tt.

Definition poll_core_started (s : StartupState) : M F (bool * StartupState) :=
  status ← read_from_arc_apb ARC_RESET_SCRATCH_STATUS_OFFSET;
  post ← read_from_arc_apb ARC_RESET_SCRATCH_OFFSET;
  dma ← read_from_arc_csm ARC_CSM_ARC_PCIE_DMA_REQUEST;
  '(ready, m) ← lift (started status post dma (message_id s));
  mret (ready : bool, MkStartup status post m).
Definition wait_arc_core_start (timeout_ms : Z) : M F unit :=
  '(arc_core_started, _) ←
    poll_until now sleep_for fuel poll_core_started (timeout_ms * MILLISECONDS) (1000 * MICROSECONDS) (10 * MICROSECONDS) (MkStartup 0 0 0);
  if arc_core_started : bool then mret tt else raise "ArcStartupError (Timed out)".

Definition retrain_dram_core (_ : Z) : M F unit := raise "DRAM retraining is not supported on WormholeTTDevice.".
End WormholeTTDevice.
End WH.

(** ** Blackhole *)
Module BHDevice.
Definition ATU_OFFSET_IN_BH_BAR2 : Z := 0x1000.

Section BlackholeTTDevice.
Context {F R : Type} `{!FirmwareTelemetryReader F R}.
Context (env : World F → World F) (locate : NocId → xy_pair → xy_pair) (now : F → Z).
Context (sleep_for : Z → World F → World F) (arc_route : Route) (mmio_read32 : Z → M F Z) (selected_noc_id : NocId).
Context (arc_core_noc0 arc_core_noc1 : xy_pair) (fuel : nat).

Definition get_arc_core : xy_pair := if decide (selected_noc_id = NOC1) then arc_core_noc1 else arc_core_noc0.

Definition get_noc_translation_enabled : M F bool :=
  niu_cfg ← match arc_route with
            | JTAG_route => mmio_read32 NIU_CFG_NOC0_ARC_ADDR
            | PCIE_route => bar_read32 env (NIU_CFG_NOC0_BAR_PCIE_ADDR + 0x100)
            end;
  mret (negb (Z.land (Z.shiftr niu_cfg 14) 1 =? 0)).
(** The cores of the ARC over the NOC0 and the NOC1. *)
Definition set_arc_coordinate : M F (xy_pair * xy_pair) :=
  translation0 ← get_noc_translation_enabled;
  core0 ← lift (DeviceAccess.get_arc_core translation0 false);
  translation1 ← get_noc_translation_enabled;
  core1 ← lift (DeviceAccess.get_arc_core translation1 true);
  mret (core0, core1).

(** Over the NOC, the coordinate is that of the selected NOC, and the
    access takes the default one. *)
Definition read_from_arc_apb (off : Z) : M F Z :=
  if 0xFFFFFFFF <? off then raise "Address is out of ARC XBAR address range."
  else
    match arc_route with
    | JTAG_route => read_data env locate (XY 8 0) (0x80000000 + off) DEFAULT_NOC
    | PCIE_route =>
        axi ← is_arc_available_over_axi env;
        if axi : bool then bar_read32 env (0x1FF00000 + off)
        else read_data env locate get_arc_core (0x80000000 + off) DEFAULT_NOC
    end.
Definition write_to_arc_apb (v off : Z) : M F unit :=
  if 0xFFFFFFFF <? off then raise "Address is out of ARC XBAR address range."
  else
    match arc_route with
    | JTAG_route => write_data env locate (XY 8 0) (0x80000000 + off) v DEFAULT_NOC
    | PCIE_route =>
        axi ← is_arc_available_over_axi env;
        if axi : bool then bar_write32 env (0x1FF00000 + off) v
        else write_data env locate get_arc_core (0x80000000 + off) v DEFAULT_NOC
    end.
Definition read_from_arc_csm (_ : Z) : M F Z := raise "CSM read not supported for Blackhole.".
Definition write_to_arc_csm (_ _ : Z) : M F unit := raise "CSM write not supported for Blackhole.".

Definition probe_arc : M F unit := _ ← read_from_arc_apb ARC_RESET_SCRATCH_OFFSET; mret tt.
Definition poll_core_started (_ : Z * Z) : M F (bool * (Z * Z)) :=
  arc_boot_status ← read_from_arc_apb SCRATCH_RAM_2;
  arc_postcode ← read_from_arc_apb ARC_RESET_SCRATCH_OFFSET;
  mret (Z.land arc_boot_status 0x7 =? 0x5, (arc_boot_status, arc_postcode)).
Definition wait_arc_core_start (timeout_ms : Z) : M F unit :=
  '(arc_core_started, _) ←
    poll_until now sleep_for fuel poll_core_started (timeout_ms * MILLISECONDS) (1000 * MICROSECONDS) (10 * MICROSECONDS) (0, 0);
  if arc_core_started : bool then mret tt
  else _ ← read_from_arc_apb SCRATCH_RAM_4; raise "ArcStartupError (Timed out)".

(** The base class's information, with all masks from telemetry. *)
Definition get_chip_info (base : H F R ChipInfo) : H F R ChipInfo :=
  info ← base;
  tensix ← BH.tensix_mask;
  dram ← BH.entry_or_zero TelemetryTag.ENABLED_GDDR (λ v, Ok (Z.land (Z.lnot v) 0xFF));
  eth ← BH.entry_or_zero TelemetryTag.ENABLED_ETH (λ v, Ok (Z.land (Z.lnot v) 0x3FFF));
  pcie ← BH.entry_or_zero TelemetryTag.PCIE_USAGE (λ v, Ok (BH.pcie_harvested v));
  l2cpu ← BH.entry_or_zero TelemetryTag.ENABLED_L2CPU (shuffle_l2cpu_harvesting_mask BLACKHOLE);
  mret (MkChipInfo (ci_noc_translation_enabled info) (MkMasks tensix dram eth pcie l2cpu) (ci_board_type info) (ci_board_id info)
          (ci_asic_location info)).

Definition get_clock : H F R Z := λ r w,
  if tr_is_entry_available TelemetryTag.AICLK r then
    match tr_read_entry TelemetryTag.AICLK r w with
    | Some (Ok (v, r'), w') => Some (Ok v, r', w')
    | Some (Err e, w') => Some (Err e, r, w')
    | None => None
    end
  else Some (throw "AICLK telemetry not available for Blackhole device.", r, w).

(** [send_message] of the device's messenger. *)
Context (arc_send_message : Z → list Z → M F (Z * list Z)).
Definition set_clock_message (state : PowerState) : M F unit :=
  '(exit_code, _) ← arc_send_message (match state with POWER_BUSY => AICLK_GO_BUSY | POWER_IDLE => AICLK_GO_LONG_IDLE end) [];
  lift (umd_assert (exit_code =? 0) "Failed to set clock state").
Definition retrain_dram_core (dram_channel : Z) : M F unit :=
  '(ret_code, _) ← arc_send_message TOGGLE_GDDR_RESET [dram_channel];
  if negb (ret_code =? 0) then raise "Failed to retrain DRAM core" else mret tt.

Definition read_eth_core_training_status (eth_core : xy_pair) : M F Z := read_data env locate eth_core PORT_STATUS_ADDR DEFAULT_NOC.
(** The time that the loop measures is another variable than the one returned. *)
Definition wait_eth_core_training (eth_core : xy_pair) (timeout_ms : Z) : H F R Z :=
  start ← on_device (steady_clock_now now);
  _ ← eth_training_loop now fuel (read_eth_core_training_status eth_core) (mret tt) start timeout_ms 0;
  mret 0.
End BlackholeTTDevice.

(** *** iATU regions

    The registers in BAR2 by offset, and the regions programmed. *)
Record Iatu := MkIatu { bar2 : Z → Z; iatu_regions_ : gset Z }.
Definition write_iatu_reg (offset value : Z) (s : Iatu) : Iatu :=
  MkIatu (λ a, if decide (a = offset) then value else bar2 s a) (iatu_regions_ s).
Definition iatu_base (region : Z) : Z := ATU_OFFSET_IN_BH_BAR2 + region * 0x200.

(** [bar2_mapped]: BAR2 is mapped. *)
Definition configure_iatu_region (bar2_mapped : bool) (region target region_size : Z) (s : Iatu) : result Iatu :=
  let base := u64 (region * region_size) in
  umd_assert ((region_size `mod` 2 ^ 30 =? 0) && (region_size <=? 2 ^ 32))
    "Failed constraint: region_size % (1ULL << 30) == 0; region_size <= (1ULL <<32).";;
  umd_assert bar2_mapped "BAR2 not mapped.";;
  let limit := Z.land (u64 (base + u64 (region_size - 1))) 0xffffffff in
  let s := foldl (λ s '(offset, value), write_iatu_reg (iatu_base region + offset) value s) s
    [(0x00, 0); (0x04, 2 ^ 31); (0x08, Z.land base 0xffffffff); (0x0c, Z.land (Z.shiftr base 0x20) 0xffffffff); (0x10, limit);
     (0x14, Z.land target 0xffffffff); (0x18, Z.land (Z.shiftr target 0x20) 0xffffffff); (0x1c, 0); (0x20, 0)] in
  Ok (MkIatu (bar2 s) ({[ region ]} ∪ iatu_regions_ s)).

(** The destructor turns the regions off. *)
Definition disable_iatu_regions (pcie bar2_mapped : bool) (s : Iatu) : Iatu :=
  if pcie && bar2_mapped then
    foldl (λ s region, write_iatu_reg (iatu_base region + 0x04) 0 s) s (elements (iatu_regions_ s))
  else s.
End BHDevice.

(** ** The messenger over the device *)

(** The device's accesses to the APB window are those of the mailbox. *)
#[global] Instance wormhole_device_access {F} (env : World F → World F) locate i selected core0 core1 :
  jtag_interface i = false →
  ApbAccess env (apb_register locate i (WH.get_arc_core selected core0 core1) selected)
    (WH.read_from_arc_apb env locate i selected core0 core1)
    (λ off v, WH.write_to_arc_apb env locate i selected core0 core1 v off).
Proof.
  intros Hj. assert (∀ off, mailbox_register off → (ARC_APB_ADDRESS_RANGE <? off) = false) as Hrange.
  { unfold mailbox_register. intros off Hoff. rewrite !elem_of_cons, elem_of_nil in Hoff. by destruct Hoff as [->|[->|[->|[->|[]]]]]. }
  split.
  - intros off w Hoff. unfold WH.read_from_arc_apb, WH.arc_word_at. rewrite Hrange by done. unfold apb_register, is_remote. rewrite Hj, orb_false_r.
    by destruct (remote_interface i).
  - intros off v w Hoff. unfold WH.write_to_arc_apb, WH.set_arc_word_at. rewrite Hrange by done. unfold apb_register, is_remote. rewrite Hj, orb_false_r.
    destruct (remote_interface i); (eexists; split; [done|]; split; [done|]);
      intros off' _; cbn; repeat case_decide; done || (exfalso; intuition lia).
Qed.

(** The coordinate of the ARC core over the NOC1 without translation is another
    than over the NOC0, which the access takes. *)
Lemma arc_core_of_other_noc :
  DeviceAccess.get_arc_core false true = Ok (XY 8 11) ∧ DeviceAccess.get_arc_core false false = Ok (XY 8 0).
Proof. split; reflexivity. Qed.

(** [wait_eth_core_training] of Blackhole reports that it has not waited. *)
Lemma blackhole_eth_wait_is_zero {F R} (env : World F → World F) locate now fuel eth_core timeout_ms (r : R) w v r' w' :
  BHDevice.wait_eth_core_training env locate now fuel eth_core timeout_ms r w = Some (Ok v, r', w') → v = 0.
Proof.
  unfold BHDevice.wait_eth_core_training, mbind, H_bind, on_device, steady_clock_now.
  destruct (eth_training_loop _ _ _ _ _ _ _ _ _) as [[[[|] ?] ?]|]; try discriminate. unfold mret, H_ret. congruence.
Qed.

(** A region that was turned on is off after the destructor. *)
Lemma regions_off_stay regions s region :
  region ∈ regions ∨ BHDevice.bar2 s (BHDevice.iatu_base region + 0x04) = 0 →
  BHDevice.bar2 (foldl (λ s region, BHDevice.write_iatu_reg (BHDevice.iatu_base region + 0x04) 0 s) s regions)
    (BHDevice.iatu_base region + 0x04) = 0.
Proof.
  revert s. induction regions as [|r regions IH]; intros s; cbn [foldl].
  - rewrite elem_of_nil. intuition.
  - intros Hr. apply IH. rewrite elem_of_cons in Hr. cbn. case_decide; [by right|].
    destruct Hr as [[->|Hr]|Hr]; [done|by left|by right].
Qed.
Lemma iatu_disabled s region :
  region ∈ BHDevice.iatu_regions_ s →
  BHDevice.bar2 (BHDevice.disable_iatu_regions true true s) (BHDevice.iatu_base region + 0x04) = 0.
Proof. intros Hr. apply regions_off_stay. left. by apply elem_of_elements. Qed.
