(* ===== verification/Topology.v ===== *)
(** * Topology

    [TopologyDiscovery] ([topology/topology_discovery.cpp]): finding the chips
    of a system, the ones behind Ethernet links included, and the cluster
    descriptor made of them. The devices are an interface, [Devices]: what the
    discovery asks of a [TTDevice], each question answered by the [Bus], the
    state of everything attached, which it may change. The virtual methods of
    the class are the interface [TopologyArch]; Wormhole's and Blackhole's
    are in [TopologyArchs]. [None] means that the fuel of a loop did not
    suffice. An owner of a TTDevice is the device; the null pointer is [None]
    where the code can hold it. *)

From Stdlib Require Import ZArith Lia.
From stdpp Require Import base gmap list list_numbers sorting strings numbers sets.
From S2P Require Import DeviceAccess.
From S2P Require Import Prelude CoreTypes ArchData Harvesting SemVer RiscType BoardTypes.
From S2P Require Import Managers SocArch SocDescriptor FirmwareFeatures FirmwareInfo.
From S2P Require Import ClusterState ClusterBoards EthConnections TextUtils LoadChips DescriptorCreate.

Local Open Scope Z_scope.

(** ** Options and problems *)

Inductive Action := THROW | IGNORE.
#[global] Instance Action_eq_dec : EqDecision Action.
Proof. solve_decision. Defined.
#[global] Instance IODeviceType_eq_dec : EqDecision IODeviceType.
Proof. solve_decision. Defined.

Record TopologyDiscoveryOptions := MkOptions {
  cmfw_mismatch_action : Action;
  cmfw_unsupported_action : Action;
  eth_fw_mismatch_action : Action;
  unexpected_routing_firmware_config : Action;
  eth_fw_heartbeat_failure : Action;
  device_init_failure_action : Action;
  opt_discover_remote_devices : bool;
  wait_on_ethernet_link_training : bool;
  perform_6u_eth_retrain : bool;
  low_power : bool;
  use_safe_api : bool
}.

(** [ClusterDescriptor::DeviceHealthError], with the data of each error but the
    device and the ASIC id. *)
Inductive DeviceHealthError :=
  | ArcStartupError | NocHangError | PcieHangError
  | UnsupportedCMFWError (found minimum : SemVer)
  | CMFWMismatchError (expected found : SemVer)
  | UnexpectedRoutingFirmwareConfigError (expected found : bool) (core : CoreCoord)
  | EthFirmwareMismatchError (expected found : SemVer) (core : CoreCoord)
  | EthFirmwareHeartbeatError (heartbeat_value : Z) (core : CoreCoord).
(** The exception that carries the error. *)
Definition error_name (e : DeviceHealthError) : string :=
  match e with
  | ArcStartupError => "ArcStartupError" | NocHangError => "NocHangError" | PcieHangError => "PcieHangError"
  | UnsupportedCMFWError _ _ => "UnsupportedCMFWError" | CMFWMismatchError _ _ => "CMFWMismatchError"
  | UnexpectedRoutingFirmwareConfigError _ _ _ => "UnexpectedRoutingFirmwareConfigError"
  | EthFirmwareMismatchError _ _ _ => "EthFirmwareMismatchError"
  | EthFirmwareHeartbeatError _ _ => "EthFirmwareHeartbeatError"
  end.

(** How [init_tt_device] ends: with an exception of the driver's own hierarchy,
    or with another one. *)
Inductive UmdException := ArcStartup | NocHang | PcieHang | OtherUmd (what : string).
Inductive init_outcome := InitDone | InitFailed (e : UmdException) | InitThrew (e : error).
Definition determine_device_init_error (err : UmdException) : option DeviceHealthError :=
  match err with
  | ArcStartup => Some ArcStartupError | NocHang => Some NocHangError | PcieHang => Some PcieHangError | OtherUmd _ => None
  end.
Definition exception_name (err : UmdException) : string :=
  match err with
  | ArcStartup => "ArcStartupError" | NocHang => "NocHangError" | PcieHang => "PcieHangError" | OtherUmd what => what
  end.

(** ** The devices *)

Definition PciInfo : Type := string * Z.

Class Devices := {
  TTDevice : Type;
  Bus : Type;
  clock : Bus → Z;
  sleep_for : Z → Bus → Bus;
  (** The ids of the devices of a kind, opening one, and opening a remote one
      through a gateway, its Ethernet cores and a coordinate. *)
  enumerate : IODeviceType → Bus → result (list Z) * Bus;
  create_device : IODeviceType → Z → bool → Bus → result TTDevice * Bus;
  create_remote : TTDevice → EthCoord → gset xy_pair → Bus → result TTDevice * Bus;
  set_power_busy : TTDevice → Bus → result unit * Bus;
  init_tt_device : TTDevice → Z → Bus → init_outcome * Bus;
  (** What a device is; the NOC of the thread. *)
  dev_arch : TTDevice → ARCH;
  is_remote : TTDevice → bool;
  pci_device : TTDevice → option PciInfo;
  communication_id : TTDevice → Z;
  selected_noc : NocId;
  (** What it knows of itself once it is initialised. *)
  get_soc_descriptor : TTDevice → Bus → result Soc.SocDescriptor * Bus;
  get_chip_info : TTDevice → Bus → result ChipInfo * Bus;
  dev_board_id : TTDevice → Bus → result Z * Bus;
  dev_board_type : TTDevice → Bus → result BoardType * Bus;
  (** What is read from it: little-endian numbers of some bytes. *)
  read_from_device : TTDevice → CoreCoord → Z → Z → Bus → result Z * Bus;
  write_to_device_reg : TTDevice → xy_pair → Z → Z → Bus → result unit * Bus;
  get_risc_reset_state : TTDevice → CoreCoord → Bus → result Z * Bus;
  read_eth_core_training_status : TTDevice → CoreCoord → Bus → result Z * Bus;
  wait_eth_core_training : TTDevice → xy_pair → Z → Bus → result Z * Bus;
  get_firmware_version : TTDevice → Bus → result SemVer * Bus;
  get_eth_fw_version_semver : TTDevice → Bus → result (option SemVer) * Bus;
  read_telemetry : TTDevice → Z → Bus → result Z * Bus
}.

(** [EthTrainingStatus] *)
Definition TRAINING_SUCCESS : Z := 1.
Definition TRAINING_FAIL : Z := 2.
Definition TRAINING_NOT_CONNECTED : Z := 3.

(** ** The state *)

Definition EthEnd : Type := Z * Z.

Section State.
Context `{Devices}.

Record TopologyDiscovery := MkTopology {
  devices_to_discover : gmap Z TTDevice;
  devices : gmap Z TTDevice;
  asic_id_to_chip_id : gmap Z Z;
  eth_coords : gmap Z EthCoord;
  eth_links : list (EthEnd * EthEnd);
  eth_links_to_remote : list (EthEnd * EthEnd);
  board_ids : gset Z;
  active_eth_channels_per_device : gmap Z (gset Z);
  remote_asic_id_to_mmio_device_id : gmap Z Z;
  health_errors : gmap Z (list DeviceHealthError);
  is_running_on_6u : bool;
  expected_eth_fw_version : option SemVer;
  first_fw_bundle_version : option SemVer;
  next_chip_id : Z
}.
Definition new_topology : TopologyDiscovery := MkTopology ∅ ∅ ∅ ∅ [] [] ∅ ∅ ∅ ∅ false None None 0.

Definition upd_devices (todo done : gmap Z TTDevice) (t : TopologyDiscovery) : TopologyDiscovery :=
  MkTopology todo done (asic_id_to_chip_id t) (eth_coords t) (eth_links t) (eth_links_to_remote t) (board_ids t)
    (active_eth_channels_per_device t) (remote_asic_id_to_mmio_device_id t) (health_errors t) (is_running_on_6u t)
    (expected_eth_fw_version t) (first_fw_bundle_version t) (next_chip_id t).
Definition upd_chip_ids (ids : gmap Z Z) (next : Z) (t : TopologyDiscovery) : TopologyDiscovery :=
  MkTopology (devices_to_discover t) (devices t) ids (eth_coords t) (eth_links t) (eth_links_to_remote t) (board_ids t)
    (active_eth_channels_per_device t) (remote_asic_id_to_mmio_device_id t) (health_errors t) (is_running_on_6u t)
    (expected_eth_fw_version t) (first_fw_bundle_version t) next.
Definition upd_links (coords : gmap Z EthCoord) (links remote : list (EthEnd * EthEnd)) (t : TopologyDiscovery) : TopologyDiscovery :=
  MkTopology (devices_to_discover t) (devices t) (asic_id_to_chip_id t) coords links remote (board_ids t)
    (active_eth_channels_per_device t) (remote_asic_id_to_mmio_device_id t) (health_errors t) (is_running_on_6u t)
    (expected_eth_fw_version t) (first_fw_bundle_version t) (next_chip_id t).
Definition upd_boards (boards : gset Z) (on_6u : bool) (t : TopologyDiscovery) : TopologyDiscovery :=
  MkTopology (devices_to_discover t) (devices t) (asic_id_to_chip_id t) (eth_coords t) (eth_links t) (eth_links_to_remote t) boards
    (active_eth_channels_per_device t) (remote_asic_id_to_mmio_device_id t) (health_errors t) on_6u
    (expected_eth_fw_version t) (first_fw_bundle_version t) (next_chip_id t).
Definition upd_routes (active : gmap Z (gset Z)) (gateways : gmap Z Z) (t : TopologyDiscovery) : TopologyDiscovery :=
  MkTopology (devices_to_discover t) (devices t) (asic_id_to_chip_id t) (eth_coords t) (eth_links t) (eth_links_to_remote t) (board_ids t)
    active gateways (health_errors t) (is_running_on_6u t) (expected_eth_fw_version t) (first_fw_bundle_version t) (next_chip_id t).
Definition upd_health (errors : gmap Z (list DeviceHealthError)) (t : TopologyDiscovery) : TopologyDiscovery :=
  MkTopology (devices_to_discover t) (devices t) (asic_id_to_chip_id t) (eth_coords t) (eth_links t) (eth_links_to_remote t) (board_ids t)
    (active_eth_channels_per_device t) (remote_asic_id_to_mmio_device_id t) errors (is_running_on_6u t)
    (expected_eth_fw_version t) (first_fw_bundle_version t) (next_chip_id t).
Definition upd_versions (eth fw : option SemVer) (t : TopologyDiscovery) : TopologyDiscovery :=
  MkTopology (devices_to_discover t) (devices t) (asic_id_to_chip_id t) (eth_coords t) (eth_links t) (eth_links_to_remote t) (board_ids t)
    (active_eth_channels_per_device t) (remote_asic_id_to_mmio_device_id t) (health_errors t) (is_running_on_6u t)
    eth fw (next_chip_id t).

(** ** Computations: the object and the bus are threaded, errors are thrown *)

Definition T (A : Type) : Type := TopologyDiscovery → Bus → option (result A * TopologyDiscovery * Bus).
#[global] Instance T_ret : MRet T := λ A a t b, Some (Ok a, t, b).
#[global] Instance T_bind : MBind T := λ A B f m t b,
  match m t b with
  | Some (Ok a, t', b') => f a t' b'
  | Some (Err e, t', b') => Some (Err e, t', b')
  | None => None
  end.
Definition tlift {A} (r : result A) : T A := λ t b, Some (r, t, b).
Definition ask {A} (m : Bus → result A * Bus) : T A := λ t b, let '(r, b') := m b in Some (r, t, b').
Definition get : T TopologyDiscovery := λ t b, Some (Ok t, t, b).
Definition modify (f : TopologyDiscovery → TopologyDiscovery) : T unit := λ t b, Some (Ok tt, f t, b).
Definition read_clock : T Z := λ t b, Some (Ok (clock b), t, b).
Definition sleep (ns : Z) : T unit := λ t b, Some (Ok tt, t, sleep_for ns b).
Fixpoint each {A} (l : list A) (f : A → T unit) : T unit :=
  match l with [] => mret tt | a :: l => f a;; each l f end.
(** [UMD_THROW_OR_RETURN] of a health error. *)
Definition throw_or_return (a : Action) (e : DeviceHealthError) : T DeviceHealthError :=
  if decide (a = THROW) then tlift (throw (error_name e)) else mret e.
(** [health_errors[asic_id].push_back(err)]. *)
Definition push_health (asic_id : Z) (e : DeviceHealthError) : T unit :=
  modify (λ t, upd_health (<[asic_id := default [] (health_errors t !! asic_id) ++ [e]]> (health_errors t)) t).
(** [m.at(k)]. *)
Definition at_key {V} (k : Z) (m : gmap Z V) : T V := tlift (map_at k m).

(** The first entry of a std::map. *)
Definition key_le {V} (a b : Z * V) : Prop := a.1 ≤ b.1.
#[global] Instance key_le_dec {V} (a b : Z * V) : Decision (key_le a b).
Proof. unfold key_le. apply _. Defined.
Definition in_order {V} (m : gmap Z V) : list (Z * V) := merge_sort key_le (map_to_list m).
Definition begin {V} (m : gmap Z V) : option (Z * V) := head (in_order m).

(** ** What the methods share *)

Definition UNHEALTHY_ASIC_ID_PREFIX : Z := 0xDEADDEAD.
Definition generate_unhealthy_asic_id (chip_id : Z) : Z := Z.lor (u64 chip_id) (u64 (Z.shiftl UNHEALTHY_ASIC_ID_PREFIX 32)).
Definition is_marked_unhealthy (asic_id : Z) : bool := Z.shiftr asic_id 32 =? UNHEALTHY_ASIC_ID_PREFIX.

(** [get_next_chip_id]; [int] numbers. *)
Definition get_next_chip_id : T Z :=
  t ← get; modify (λ t, upd_chip_ids (asic_id_to_chip_id t) (next_chip_id t + 1) t);; mret (next_chip_id t).

Definition get_tt_device (asic_id : Z) : T TTDevice :=
  t ← get;
  match devices_to_discover t !! asic_id with Some d => mret d | None => at_key asic_id (devices t) end.

(** [soc_desc.get_cores(CoreType::ETH)]. *)
Definition eth_cores_of (tt_device : TTDevice) : T (list CoreCoord) :=
  soc ← ask (get_soc_descriptor tt_device); tlift (Soc.get_cores soc ETH NOC0 None).

Definition ETH_TRAINING_TIMEOUT : Z := 900000.
Fixpoint wait_cores (tt_device : TTDevice) (soc : Soc.SocDescriptor) (cores : list CoreCoord) (timeout_left : Z) : T unit :=
  match cores with
  | [] => mret tt
  | eth_core :: cores =>
      actual_eth_core ← tlift (Soc.translate_chip_coord_to_translated soc eth_core selected_noc);
      taken ← ask (wait_eth_core_training tt_device actual_eth_core timeout_left);
      wait_cores tt_device soc cores (timeout_left - taken)
  end.
Definition wait_eth_cores_training (tt_device : TTDevice) : T unit :=
  soc ← ask (get_soc_descriptor tt_device);
  cores ← tlift (Soc.get_cores soc ETH NOC0 None);
  wait_cores tt_device soc cores ETH_TRAINING_TIMEOUT.

Definition is_eth_trained (tt_device : TTDevice) (eth_core : CoreCoord) : T bool :=
  status ← ask (read_eth_core_training_status tt_device eth_core); mret (status =? TRAINING_SUCCESS).

(** [get_eth_fw_version] of [firmware/firmware_utils.cpp]. *)
Definition ETH_FW_VERSION_ADDR : Z := 0x210.
Definition ETH_FW_MAJOR_ADDR : Z := 0x7CFBE.
Definition ETH_FW_MINOR_ADDR : Z := 0x7CFBD.
Definition ETH_FW_PATCH_ADDR : Z := 0x7CFBC.
Definition get_eth_fw_version (tt_device : TTDevice) (eth_core : CoreCoord) : T SemVer :=
  match dev_arch tt_device with
  | WORMHOLE_B0 =>
      eth_fw_version_read ← ask (read_from_device tt_device eth_core ETH_FW_VERSION_ADDR 4);
      mret (from_wormhole_eth_firmware_tag eth_fw_version_read)
  | BLACKHOLE =>
      major ← ask (read_from_device tt_device eth_core ETH_FW_MAJOR_ADDR 1);
      minor ← ask (read_from_device tt_device eth_core ETH_FW_MINOR_ADDR 1);
      patch ← ask (read_from_device tt_device eth_core ETH_FW_PATCH_ADDR 1);
      mret (MkSemVer major minor patch 0)
  | _ => tlift (throw "Getting ETH FW version is not supported for this device.")
  end.
End State.

(** ** The virtual methods *)

Class TopologyArch `{Devices} := {
  get_topology_arch : ARCH;
  get_remote_board_id : TTDevice → CoreCoord → T Z;
  get_local_board_id : TTDevice → CoreCoord → T Z;
  get_local_asic_id : TTDevice → CoreCoord → T Z;
  get_remote_asic_id : TTDevice → CoreCoord → T Z;
  get_unconnected_device_id : TTDevice → T Z;
  get_local_eth_coord : TTDevice → CoreCoord → T (option EthCoord);
  get_remote_eth_coord : TTDevice → CoreCoord → T (option EthCoord);
  get_remote_eth_channel : TTDevice → CoreCoord → T Z;
  get_logical_remote_eth_channel : TTDevice → CoreCoord → T Z;
  is_using_eth_coords : T bool;
  create_remote_device : option EthCoord → TTDevice → gset Z → T (option TTDevice);
  init_first_device : TTDevice → T unit;
  verify_routing_firmware_state : TTDevice → Z → CoreCoord → T unit;
  is_eth_port_disabled : TTDevice → CoreCoord → T bool;
  get_eth_heartbeat : TTDevice → CoreCoord → T Z;
  get_eth_postcode : TTDevice → CoreCoord → T Z;
  patch_eth_connections : T unit;
  retrain_eth_cores : T unit
}.

(** ** The discovery *)

Section Discovery.
Context `{TopologyArch}.
Context (options : TopologyDiscoveryOptions) (io_device_type : IODeviceType).

Definition ARC_LONG_POST_RESET_TIMEOUT : Z := 300000.
Definition ARC_STARTUP_TIMEOUT : Z := 300000.

Definition init_device (tt_device : TTDevice) (chip_id timeout : Z) : T bool :=
  outcome ← ask (λ b, let '(o, b) := init_tt_device tt_device timeout b in (Ok o, b));
  match outcome with
  | InitDone => mret true
  | InitThrew e => tlift (Err e)
  | InitFailed err =>
      if decide (device_init_failure_action options = THROW) then tlift (throw (exception_name err))
      else
        (match determine_device_init_error err with
         | Some health_error => push_health (generate_unhealthy_asic_id chip_id) health_error
         | None => mret tt
         end);;
        mret false
  end.

Definition is_board_id_included (board_id : Z) : T bool := t ← get; mret (bool_decide (board_id ∈ board_ids t)).

(** The first Ethernet core with a board id. *)
Fixpoint insert_board_id (tt_device : TTDevice) (eth_cores : list CoreCoord) : T unit :=
  match eth_cores with
  | [] => mret tt
  | eth_core :: eth_cores =>
      board_id ← get_local_board_id tt_device eth_core;
      if negb (board_id =? 0) then modify (λ t, upd_boards ({[board_id]} ∪ board_ids t) (is_running_on_6u t) t)
      else insert_board_id tt_device eth_cores
  end.
(** The ASIC id of the first trained core. *)
Fixpoint first_trained_asic_id (tt_device : TTDevice) (eth_cores : list CoreCoord) : T Z :=
  match eth_cores with
  | [] => get_unconnected_device_id tt_device
  | eth_core :: eth_cores =>
      trained ← is_eth_trained tt_device eth_core;
      if negb trained then first_trained_asic_id tt_device eth_cores else get_local_asic_id tt_device eth_core
  end.
Definition get_asic_id (tt_device : TTDevice) : T Z := cores ← eth_cores_of tt_device; first_trained_asic_id tt_device cores.

(** [devices_to_discover.emplace], [asic_id_to_chip_id.emplace]. *)
Definition enqueue (asic_id : Z) (tt_device : TTDevice) : T unit :=
  modify (λ t, upd_devices (map_insert_new asic_id tt_device (devices_to_discover t)) (devices t) t).
Definition emplace_chip_id (asic_id chip_id : Z) : T unit :=
  modify (λ t, upd_chip_ids (map_insert_new asic_id chip_id (asic_id_to_chip_id t)) (next_chip_id t) t).

(** One locally connected device. *)
Definition connect_device (device_id : Z) : T unit :=
  tt_device ← ask (create_device io_device_type device_id (use_safe_api options));
  (if low_power options then mret tt else ask (set_power_busy tt_device));;
  if negb (bool_decide (dev_arch tt_device = get_topology_arch)) then mret tt
  else
    chip_id ← get_next_chip_id;
    healthy ← init_device tt_device chip_id ARC_LONG_POST_RESET_TIMEOUT;
    if negb healthy then
      let asic_id := generate_unhealthy_asic_id chip_id in
      enqueue asic_id tt_device;; emplace_chip_id asic_id chip_id
    else
      t ← get;
      (if bool_decide (devices_to_discover t = ∅) then init_first_device tt_device else mret tt);;
      (if wait_on_ethernet_link_training options then wait_eth_cores_training tt_device else mret tt);;
      eth_cores ← eth_cores_of tt_device;
      insert_board_id tt_device eth_cores;;
      asic_id ← get_asic_id tt_device;
      enqueue asic_id tt_device;; emplace_chip_id asic_id chip_id.
Definition get_connected_devices : T unit :=
  local_device_ids ←
    (match io_device_type with
     | PCIe | JTAG => ask (enumerate io_device_type)
     | _ => tlift (throw "Unsupported device type.")
     end);
  each local_device_ids connect_device.

(** ** Checks *)

Definition set_versions (eth fw : option SemVer) : T unit := modify (upd_versions eth fw).

Definition verify_fw_bundle_version (tt_device : TTDevice) (asic_id : Z) : T unit :=
  fw_bundle_version ← ask (get_firmware_version tt_device);
  t ← get;
  match first_fw_bundle_version t with
  | Some first =>
      if negb (bundle_eqb fw_bundle_version first) then
        err ← throw_or_return (cmfw_mismatch_action options) (CMFWMismatchError first fw_bundle_version);
        push_health asic_id err
      else mret tt
  | None =>
      set_versions (expected_eth_fw_version t) (Some fw_bundle_version);;
      minimum ← tlift (get_minimum_compatible_firmware_version (dev_arch tt_device));
      if bundle_ltb fw_bundle_version minimum then
        err ← throw_or_return (cmfw_unsupported_action options) (UnsupportedCMFWError fw_bundle_version minimum);
        push_health asic_id err
      else mret tt
  end.

Definition BH_MIN_ERISC_FW_SUPPORTED_VERSION : SemVer := MkSemVer 1 4 1 0.
Definition WH_MIN_ERISC_FW_SUPPORTED_VERSION : SemVer := MkSemVer 6 14 0 0.

Definition verify_eth_core_fw_version (tt_device : TTDevice) (asic_id : Z) (eth_core : CoreCoord) : T bool :=
  eth_fw_version ← get_eth_fw_version tt_device eth_core;
  t ← get;
  '(expected, too_old) ←
    (match expected_eth_fw_version t with
     | Some expected => mret (expected, false)
     | None =>
         telemetry ← ask (get_eth_fw_version_semver tt_device);
         let expected := default eth_fw_version telemetry in
         set_versions (Some expected) (first_fw_bundle_version t);;
         let minimum_supported :=
           if decide (get_topology_arch = BLACKHOLE) then BH_MIN_ERISC_FW_SUPPORTED_VERSION else WH_MIN_ERISC_FW_SUPPORTED_VERSION in
         mret (expected, semver_ltb expected minimum_supported)
     end);
  let mismatch := negb (semver_eqb eth_fw_version expected) in
  (if mismatch then push_health asic_id (EthFirmwareMismatchError expected eth_fw_version eth_core) else mret tt);;
  mret (bool_decide (eth_fw_mismatch_action options = IGNORE) || negb (too_old || mismatch)).

Definition ETH_STARTUP_TIMEOUT : Z := 10000.
Definition ETH_HEARTBEAT_TIMEOUT : Z := 50.
Definition BASE_FW_HEARTBEAT_SIGNATURE : Z := 0xABCD.
Definition FABRIC_HEARTBEAT_SIGNATURE : Z := 0xAABB.

Definition heartbeat_failed (asic_id value : Z) (eth_core : CoreCoord) : T unit :=
  err ← throw_or_return (eth_fw_heartbeat_failure options) (EthFirmwareHeartbeatError value eth_core);
  push_health asic_id err.
(** Until the heartbeat leaves zero; [None] when it does not. *)
Fixpoint await_start (fuel : nat) (tt_device : TTDevice) (asic_id : Z) (eth_core : CoreCoord) (start : Z) : T (option Z) :=
  match fuel with
  | O => λ _ _, None
  | S fuel =>
      current_reading ← get_eth_heartbeat tt_device eth_core;
      if negb (current_reading =? 0) then mret (Some current_reading)
      else
        time ← read_clock;
        if timed_out start ETH_STARTUP_TIMEOUT time then heartbeat_failed asic_id current_reading eth_core;; mret None
        else sleep (10 * 1000);; await_start fuel tt_device asic_id eth_core start
  end.
Fixpoint await_change (fuel : nat) (tt_device : TTDevice) (asic_id : Z) (eth_core : CoreCoord) (previous_reading start : Z) : T bool :=
  match fuel with
  | O => λ _ _, None
  | S fuel =>
      current_reading ← get_eth_heartbeat tt_device eth_core;
      let signature := Z.shiftr current_reading 16 in
      if negb (signature =? BASE_FW_HEARTBEAT_SIGNATURE) && negb (signature =? FABRIC_HEARTBEAT_SIGNATURE) then mret false
      else if negb (previous_reading =? current_reading) then mret true
      else
        time ← read_clock;
        if timed_out start ETH_HEARTBEAT_TIMEOUT time then heartbeat_failed asic_id current_reading eth_core;; mret false
        else sleep (10 * 1000);; await_change fuel tt_device asic_id eth_core previous_reading start
  end.
Definition eth_heartbeat_running (fuel : nat) (tt_device : TTDevice) (asic_id : Z) (eth_core : CoreCoord) : T bool :=
  start ← read_clock;
  reading ← await_start fuel tt_device asic_id eth_core start;
  match reading with
  | None => mret false
  | Some previous_reading =>
      second_start ← read_clock;
      await_change fuel tt_device asic_id eth_core previous_reading second_start
  end.

Definition ERISC0 : Z := bit 3.
(** [get_architecture_implementation()->get_soft_reset_risc_type]. *)
Definition soft_reset_risc_type (arch : ARCH) (reg : Z) : result Z :=
  match arch with
  | WORMHOLE_B0 => Ok (wormhole_reset.get_soft_reset_risc_type reg)
  | BLACKHOLE => Ok (blackhole_reset.get_soft_reset_risc_type reg)
  | QUASAR => Ok (grendel_reset.get_soft_reset_risc_type reg)
  | Invalid => Err UndefinedBehaviour
  end.

End Discovery.
