(* ===== verification/Discover.v ===== *)
(** * Discover

    [discover_remote_devices] and [fill_cluster_descriptor_info] of
    [topology/topology_discovery.cpp]: the walk over the Ethernet links, from
    the chips with MMIO to the ones behind them, and the cluster descriptor
    made of what it found. The unhealthy chips and the health errors, which
    [ClusterState.ClusterDescriptor] does not have, are returned beside the
    descriptor. [beats] bounds the polls of one heartbeat loop, [fuel] the
    chips visited. *)

From Stdlib Require Import ZArith Lia.
From stdpp Require Import base gmap list list_numbers sorting strings numbers sets.
From S2P Require Import DeviceAccess.
From S2P Require Import Prelude CoreTypes ArchData Harvesting SemVer RiscType BoardTypes.
From S2P Require Import Managers SocArch SocDescriptor FirmwareFeatures FirmwareInfo.
From S2P Require Import ClusterState ClusterBoards EthConnections TextUtils LoadChips DescriptorCreate Topology.

Local Open Scope Z_scope.

Section Discovery.
Context `{TopologyArch}.
Context (options : TopologyDiscoveryOptions) (io_device_type : IODeviceType).

(** ** One Ethernet core *)

(** [(risc_reset_state & RiscType::ERISC0) != RiscType::NONE]. *)
Definition erisc0_in_reset (tt_device : TTDevice) (eth_core : CoreCoord) : T bool :=
  register ← ask (get_risc_reset_state tt_device eth_core);
  risc_reset_state ← tlift (soft_reset_risc_type (dev_arch tt_device) register);
  mret (negb (Z.land risc_reset_state ERISC0 =? 0)).

(** The heartbeat, not asked of Blackhole: whether to go on with the core. *)
Definition heartbeat_passed (beats : nat) (tt_device : TTDevice) (asic_id : Z) (eth_core : CoreCoord) : T bool :=
  if decide (dev_arch tt_device = BLACKHOLE) then mret true
  else
    running ← eth_heartbeat_running options beats tt_device asic_id eth_core;
    if (running : bool) then mret true
    else
      get_eth_postcode tt_device eth_core;;
      (if decide (eth_fw_heartbeat_failure options = THROW) then tlift (throw "ETH core heartbeat check failed") else mret tt);;
      mret false.

(** The coordinate of the chip, from the first core that tells it. *)
Definition note_eth_coord (tt_device : TTDevice) (asic_id : Z) (eth_core : CoreCoord) : T unit :=
  uses ← is_using_eth_coords;
  t ← get;
  if (uses : bool) && bool_decide (eth_coords t !! asic_id = None) then
    local_eth_coord ← get_local_eth_coord tt_device eth_core;
    match local_eth_coord with
    | Some c => modify (λ t, upd_links (<[asic_id := c]> (eth_coords t)) (eth_links t) (eth_links_to_remote t) t)
    | None => mret tt
    end
  else mret tt.

(** The checks on a core, up to the state of its routing firmware: whether its
    link is used. *)
Definition link_usable (beats : nat) (tt_device : TTDevice) (asic_id : Z) (eth_core : CoreCoord) : T bool :=
  disabled ← is_eth_port_disabled tt_device eth_core;
  if (disabled : bool) then mret false
  else
    in_reset ← erisc0_in_reset tt_device eth_core;
    if (in_reset : bool) then mret false
    else
      alive ← heartbeat_passed beats tt_device asic_id eth_core;
      if negb alive then mret false
      else
        good_fw ← verify_eth_core_fw_version options tt_device asic_id eth_core;
        if negb good_fw then mret false
        else
          note_eth_coord tt_device asic_id eth_core;;
          trained ← is_eth_trained tt_device eth_core;
          if negb trained then mret false
          else verify_routing_firmware_state tt_device asic_id eth_core;; mret true.

(** A chip seen for the first time, through the gateway of the one it was seen
    from. The call on the null pointer is undefined. *)
Definition open_remote (tt_device : TTDevice) (asic_id remote_asic_id : Z) (eth_core : CoreCoord) : T unit :=
  t ← get;
  gateway_device_id ← at_key asic_id (remote_asic_id_to_mmio_device_id t);
  eth_coord ← get_remote_eth_coord tt_device eth_core;
  t ← get;
  gateway_device ← at_key gateway_device_id (devices t);
  gateway_eth_channels ← at_key gateway_device_id (active_eth_channels_per_device t);
  remote_device ← create_remote_device eth_coord gateway_device gateway_eth_channels;
  chip_id ← get_next_chip_id;
  match remote_device with
  | None => tlift (Err UndefinedBehaviour)
  | Some remote_device =>
      healthy ← init_device options remote_device chip_id ARC_STARTUP_TIMEOUT;
      (if (healthy : bool) then
         (if wait_on_ethernet_link_training options then wait_eth_cores_training remote_device else mret tt);;
         enqueue remote_asic_id remote_device
       else
         let mock_asic_id := generate_unhealthy_asic_id chip_id in
         enqueue mock_asic_id remote_device;; emplace_chip_id mock_asic_id chip_id);;
      emplace_chip_id remote_asic_id chip_id;;
      modify (λ t, upd_routes (map_insert_new remote_asic_id ∅ (active_eth_channels_per_device t))
                     (map_insert_new remote_asic_id gateway_device_id (remote_asic_id_to_mmio_device_id t)) t)
  end.

Definition record_active (asic_id channel : Z) : T unit :=
  t ← get;
  active ← at_key asic_id (active_eth_channels_per_device t);
  modify (λ t, upd_routes (<[asic_id := {[channel]} ∪ active]> (active_eth_channels_per_device t))
                 (remote_asic_id_to_mmio_device_id t) t).
Definition push_link (l : EthEnd * EthEnd) : T unit :=
  modify (λ t, upd_links (eth_coords t) (eth_links t ++ [l]) (eth_links_to_remote t) t).
Definition push_remote_link (l : EthEnd * EthEnd) : T unit :=
  modify (λ t, upd_links (eth_coords t) (eth_links t) (eth_links_to_remote t ++ [l]) t).

(** A link that is used: to a chip outside, to a new one, or to a known one.
    The result is [discovered_devices]. *)
Definition follow_link (tt_device : TTDevice) (asic_id : Z) (eth_core : CoreCoord) (channel : Z) (discovered : gset Z) : T (gset Z) :=
  record_active asic_id channel;;
  remote_asic_id ← get_remote_asic_id tt_device eth_core;
  remote_board_id ← get_remote_board_id tt_device eth_core;
  included ← is_board_id_included remote_board_id;
  if negb included || bool_decide (dev_arch tt_device = BLACKHOLE) && bool_decide (remote_asic_id ∉ discovered) then
    remote_channel ← get_logical_remote_eth_channel tt_device eth_core;
    push_remote_link ((asic_id, channel), (remote_asic_id, remote_channel));;
    mret discovered
  else if bool_decide (remote_asic_id ∉ discovered) then
    open_remote tt_device asic_id remote_asic_id eth_core;;
    mret ({[remote_asic_id]} ∪ discovered)
  else
    remote_channel ← get_remote_eth_channel tt_device eth_core;
    push_link ((asic_id, channel), (remote_asic_id, remote_channel));;
    mret discovered.

Definition probe (beats : nat) (tt_device : TTDevice) (asic_id : Z) (soc : Soc.SocDescriptor) (eth_core : CoreCoord)
    (discovered : gset Z) : T (gset Z) :=
  channel ← tlift (Soc.get_eth_channel_for_core soc eth_core);
  usable ← link_usable beats tt_device asic_id eth_core;
  if (usable : bool) then follow_link tt_device asic_id eth_core channel discovered else mret discovered.
Fixpoint probe_all (beats : nat) (tt_device : TTDevice) (asic_id : Z) (soc : Soc.SocDescriptor) (eth_cores : list CoreCoord)
    (discovered : gset Z) : T (gset Z) :=
  match eth_cores with
  | [] => mret discovered
  | eth_core :: eth_cores =>
      discovered ← probe beats tt_device asic_id soc eth_core discovered;
      probe_all beats tt_device asic_id soc eth_cores discovered
  end.

(** ** The walk *)

Definition visit (beats : nat) (asic_id : Z) (discovered : gset Z) : T (gset Z) :=
  if is_marked_unhealthy asic_id then mret discovered
  else
    t ← get;
    tt_device ← at_key asic_id (devices t);
    verify_fw_bundle_version options tt_device asic_id;;
    if negb (opt_discover_remote_devices options) then mret discovered
    else
      soc ← ask (get_soc_descriptor tt_device);
      eth_cores ← tlift (Soc.get_cores soc ETH NOC0 None);
      probe_all beats tt_device asic_id soc eth_cores discovered.

(** The first chip of the queue becomes a device of the topology. *)
Definition dequeue (asic_id : Z) (tt_device : TTDevice) : T unit :=
  modify (λ t, upd_devices (delete asic_id (devices_to_discover t)) (map_insert_new asic_id tt_device (devices t)) t).
Fixpoint discover_loop (fuel beats : nat) (discovered : gset Z) : T (gset Z) :=
  match fuel with
  | O => λ _ _, None
  | S fuel =>
      t ← get;
      match begin (devices_to_discover t) with
      | None => mret discovered
      | Some (asic_id, tt_device) =>
          dequeue asic_id tt_device;;
          discovered ← visit beats asic_id discovered;
          discover_loop fuel beats discovered
      end
  end.
(** The chips with MMIO are their own gateways. *)
Definition set_gateways : T (gset Z) :=
  t ← get;
  let ids := (in_order (devices_to_discover t)).*1 in
  modify (λ t, upd_routes (foldl (λ m i, map_insert_new i ∅ m) (active_eth_channels_per_device t) ids)
                 (foldl (λ m i, map_insert_new i i m) (remote_asic_id_to_mmio_device_id t) ids) t);;
  mret (list_to_set ids).
Definition discover_remote_devices (fuel beats : nat) : T unit :=
  discovered ← set_gateways;
  discover_loop fuel beats discovered;;
  patch_eth_connections.

(** ** The descriptor *)

Context `{Unordered}.

(** A loop that changes the descriptor being built. *)
Fixpoint accumulate {A S} (l : list A) (f : A → S → T S) (s : S) : T S :=
  match l with [] => mret s | a :: l => s ← f a s; accumulate l f s end.

(** [asic_id_to_chip_id[asic_id]]: a new entry is 0. *)
Definition chip_id_entry (asic_id : Z) : T Z :=
  t ← get;
  match asic_id_to_chip_id t !! asic_id with
  | Some chip_id => mret chip_id
  | None => emplace_chip_id asic_id 0;; mret 0
  end.
Definition chip_id_at (asic_id : Z) : T Z := t ← get; at_key asic_id (asic_id_to_chip_id t).

(** The ids of a device, its PCI address, the MMIO chip it is reached by. *)
Definition fill_bdf (chip_id : Z) (tt_device : TTDevice) (d : ClusterDescriptor) : T ClusterDescriptor :=
  if bool_decide (io_device_type = PCIe) && negb (is_remote tt_device) then
    match pci_device tt_device with
    | Some (pci_bdf, _) => mret (set_tables (set_bdfs (map_insert_new chip_id pci_bdf (chip_pci_bdfs (tables d))) (tables d)) d)
    | None => tlift (Err UndefinedBehaviour)
    end
  else mret d.
Definition fill_closest (asic_id chip_id : Z) (d : ClusterDescriptor) : T ClusterDescriptor :=
  t ← get;
  if bool_decide (eth_coords t = ∅) then
    mmio_device_id ← at_key asic_id (remote_asic_id_to_mmio_device_id t);
    closest ← at_key mmio_device_id (asic_id_to_chip_id t);
    mret (set_cache (<[chip_id := closest]> (closest_mmio_chip_cache d)) d)
  else mret d.
Definition fill_ids (entry : Z * TTDevice) (acc : list Z * ClusterDescriptor) : T (list Z * ClusterDescriptor) :=
  let '(unhealthy_devices, d) := acc in
  let '(asic_id, tt_device) := entry in
  chip_id ← chip_id_entry asic_id;
  if is_marked_unhealthy asic_id then mret (unhealthy_devices ++ [chip_id], d)
  else
    let d := set_tables (set_unique_ids (map_insert_new chip_id asic_id (chip_unique_ids (tables d))) true (tables d)) d in
    d ← fill_bdf chip_id tt_device d;
    d ← fill_closest asic_id chip_id d;
    mret (unhealthy_devices, d).

Definition fill_location (asic_id chip_id : Z) (d : ClusterDescriptor) : T ClusterDescriptor :=
  uses ← is_using_eth_coords;
  t ← get;
  if (uses : bool) && negb (bool_decide (eth_coords t = ∅)) then
    eth_coord ← at_key asic_id (eth_coords t);
    mret (set_placement (MkPlacement (map_insert_new chip_id eth_coord (chip_locations (placement d)))
            (<[(ec_rack eth_coord, ec_shelf eth_coord, ec_y eth_coord, ec_x eth_coord) := chip_id]> (coords_to_chip_ids (placement d)))) d)
  else mret d.

(** What the chip is; [get_chip_info] is called for each of its fields. *)
Definition fill_chip (entry : Z * TTDevice) (acc : gmap Z (list DeviceHealthError) * ClusterDescriptor)
  : T (gmap Z (list DeviceHealthError) * ClusterDescriptor) :=
  let '(errors, d) := acc in
  let '(asic_id, tt_device) := entry in
  chip_id ← chip_id_at asic_id;
  t ← get;
  let errors := map_insert_new chip_id (default [] (health_errors t !! asic_id)) errors in
  modify (λ t, upd_health (<[asic_id := []]> (health_errors t)) t);;
  if is_marked_unhealthy asic_id then mret (errors, d)
  else
    let d := set_tables (set_chip_arch (map_insert_new chip_id (dev_arch tt_device) (chip_arch (tables d))) (tables d))
               (set_chips ({[chip_id]} ∪ all_chips d) d) in
    let d := if is_remote tt_device then d
             else set_mmio (map_insert_new chip_id (communication_id tt_device) (chips_with_mmio d)) d in
    info ← ask (get_chip_info tt_device);
    let d := set_boards (MkBoards (chip_to_board_id (boards d)) (board_to_chips (boards d))
                           (map_insert_new chip_id (ci_board_type info) (chip_board_type (boards d)))) d in
    info ← ask (get_chip_info tt_device);
    let enabled := map_insert_new chip_id (ci_noc_translation_enabled info) (noc_translation_enabled (tables d)) in
    info ← ask (get_chip_info tt_device);
    let masks := map_insert_new chip_id (ci_harvesting_masks info) (harvesting_masks_map (tables d)) in
    let d := set_tables (set_harvesting enabled masks (tables d)) d in
    info ← ask (get_chip_info tt_device);
    let d := set_tables (set_asic_locations (map_insert_new chip_id (ci_asic_location info) (asic_locations (tables d))) (tables d)) d in
    let d := match pci_device tt_device with
             | Some (_, pci_bus) => set_tables (set_bus_ids (map_insert_new chip_id pci_bus (chip_to_bus_id (tables d))) (tables d)) d
             | None => d
             end in
    d ← fill_location asic_id chip_id d;
    info ← ask (get_chip_info tt_device);
    b ← tlift (add_chip_to_board chip_id (ci_board_id info) (boards d));
    mret (errors, set_boards b d).

(** [m[chip][channel] = end]; the channels are [int] keys. *)
Definition set_end (chip channel : Z) (other : Z * Z) (m : gmap Z ChannelLinks) : gmap Z ChannelLinks :=
  <[chip := <[i32 channel := other]> (default ∅ (m !! chip))]> m.
Definition fill_link (link : EthEnd * EthEnd) (m : gmap Z ChannelLinks) : T (gmap Z ChannelLinks) :=
  let '(local, remote) := link in
  local_chip_id ← chip_id_at local.1;
  remote_chip_id ← chip_id_at remote.1;
  mret (set_end remote_chip_id remote.2 (local_chip_id, i32 local.2)
         (set_end local_chip_id local.2 (remote_chip_id, i32 remote.2) m)).
Definition fill_remote_link (link : EthEnd * EthEnd) (m : gmap Z ChannelLinks) : T (gmap Z ChannelLinks) :=
  let '(local, remote) := link in
  local_chip_id ← chip_id_at local.1;
  mret (set_end local_chip_id local.2 (remote.1, i32 remote.2) m).

(** The idle channels are those of the chip that are not active. *)
Definition fill_channels (entry : Z * gset Z) (l : EthLinks) : T EthLinks :=
  let '(asic_id, active_channels) := entry in
  if is_marked_unhealthy asic_id then mret l
  else
    t ← get;
    tt_device ← at_key asic_id (devices t);
    soc ← ask (get_soc_descriptor tt_device);
    eth_cores ← tlift (Soc.get_cores soc ETH NOC0 None);
    chip_id ← chip_id_at asic_id;
    let l := foldl (λ l i, set_idle (map_set_insert chip_id i (idle_eth_channels l)) l) l (seqZ 0 (vec_size eth_cores)) in
    mret (foldl (λ l channel,
                   MkLinks (ethernet_connections l) (ethernet_connections_to_remote_devices l)
                     (map_set_insert chip_id channel (active_eth_channels l))
                     (map_set_erase chip_id channel (idle_eth_channels l))) l (merge_sort Z.le (elements active_channels))).

(** [unhealthy_devices] and [health_errors] of the descriptor. *)
Definition Report : Type := list Z * gmap Z (list DeviceHealthError).

Definition fill_cluster_descriptor_info : T (ClusterDescriptor * Report) :=
  t ← get;
  let in_topology := in_order (devices t) in
  '(unhealthy_devices, d) ← accumulate in_topology fill_ids ([], empty_descriptor);
  '(errors, d) ← accumulate in_topology fill_chip (∅, d);
  t ← get;
  connections ← accumulate (eth_links t) fill_link ∅;
  remote_connections ← accumulate (eth_links_to_remote t) fill_remote_link ∅;
  l ← accumulate (map_iter (active_eth_channels_per_device t)) fill_channels
        (MkLinks connections remote_connections ∅ ∅);
  t ← get;
  let d := MkDesc (all_chips d) (chips_with_mmio d) (tables d) (placement d) (boards d) l (closest_mmio_chip_cache d)
             (chips_grouped_by_closest_mmio d) io_device_type (first_fw_bundle_version t) (expected_eth_fw_version t) in
  d ← tlift (match merge_cluster_ids d with Some d => Ok d | None => Err UndefinedBehaviour end);
  d ← tlift (fill_chips_grouped_by_closest_mmio d);
  tlift (verify_cluster_descriptor_info (opt_discover_remote_devices options) d);;
  mret (d, (unhealthy_devices, errors)).

Definition create_ethernet_map (fuel beats : nat) : T (ClusterDescriptor * Report) :=
  get_connected_devices options io_device_type;;
  retrain_eth_cores;;
  discover_remote_devices fuel beats;;
  fill_cluster_descriptor_info.

(** [discover]: the devices by chip id instead of ASIC id. *)
Definition rekey (found : list (Z * TTDevice)) : T (gmap Z TTDevice) :=
  accumulate found (λ '(unique_id, device) m, chip_id ← chip_id_entry unique_id; mret (<[chip_id := device]> m)) ∅.
Definition discover (fuel beats : nat) : T ((ClusterDescriptor * Report) * gmap Z TTDevice) :=
  cluster_desc ← create_ethernet_map fuel beats;
  t ← get;
  found ← rekey (in_order (devices t));
  mret (cluster_desc, found).
End Discovery.
