(* ===== verification/TopologyArchs.v ===== *)
(** * TopologyArchs

    [TopologyDiscoveryWormhole] ([topology/topology_discovery_wormhole.cpp])
    and [TopologyDiscoveryBlackhole] ([topology_discovery_blackhole.cpp]): what
    their Ethernet firmware says of a link, as instances of [TopologyArch]. *)

From Stdlib Require Import ZArith Lia.
From stdpp Require Import base gmap list list_numbers sorting strings numbers sets.
From S2P Require Import DeviceAccess.
From S2P Require Import Prelude CoreTypes ArchData Harvesting SemVer RiscType BoardTypes.
From S2P Require Import Managers SocArch SocDescriptor TelemetryReader FirmwareFeatures FirmwareInfo.
From S2P Require Import ClusterState Topology.

Local Open Scope Z_scope.

(** Two words read one after the other, the low or the high one first. *)
Definition read_lo_hi `{Devices} (tt_device : TTDevice) (eth_core : CoreCoord) (lo hi : Z) : T Z :=
  id_lo ← ask (read_from_device tt_device eth_core lo 4);
  id_hi ← ask (read_from_device tt_device eth_core hi 4);
  mret (Z.lor (Z.shiftl id_hi 32) id_lo).
Definition read_hi_lo `{Devices} (tt_device : TTDevice) (eth_core : CoreCoord) (hi lo : Z) : T Z :=
  id_hi ← ask (read_from_device tt_device eth_core hi 4);
  id_lo ← ask (read_from_device tt_device eth_core lo 4);
  mret (Z.lor (Z.shiftl id_hi 32) id_lo).
Definition running_on_6u `{Devices} : T bool := t ← get; mret (is_running_on_6u t).

(** ** Wormhole *)

Module Wormhole.
Section Wormhole.
Context `{Devices}.
Context (options : TopologyDiscoveryOptions).

(** [EthAddresses] *)
Definition ROUTING_FIRMWARE_STATE : Z := 0x104c.
Definition NODE_INFO : Z := 0x1100.
Definition RESULTS_BUF : Z := 0x1ec0.
Definition ERISC_LOCAL_BOARD_ID_LO_OFFSET : Z := 64.
Definition ERISC_REMOTE_BOARD_ID_LO_OFFSET : Z := 72.
Definition ERISC_REMOTE_ETH_ID_OFFSET : Z := 76.
(** [types/wormhole_eth.hpp] *)
Definition ETH_RETRAIN_ADDR : Z := 0x1EFC.
Definition ETH_TRIGGER_RETRAIN_VAL : Z := 1.
Definition MIN_ETH_FW_VERSION_FOR_RETRAIN : SemVer := MkSemVer 7 2 0 0.
Definition ETH_POSTCODE_ADDR : Z := 0xFFB3010C.
Definition ETH_HEARTBEAT_ADDR : Z := 0x1C.
Definition ETH_BOOT_PARAMS_PORT_DISABLE_ADDR : Z := 0x1008.
Definition ETH_RETRAIN_ATTEMPT_COUNT : nat := 3.
Definition RETRAIN_UNCONNECTED : bool := true.

Definition wormhole_local_asic_id (tt_device : TTDevice) (eth_core : CoreCoord) : T Z :=
  read_lo_hi tt_device eth_core (RESULTS_BUF + 4 * ERISC_LOCAL_BOARD_ID_LO_OFFSET)
    (RESULTS_BUF + 4 * (ERISC_LOCAL_BOARD_ID_LO_OFFSET + 1)).
Definition wormhole_remote_asic_id (tt_device : TTDevice) (eth_core : CoreCoord) : T Z :=
  read_lo_hi tt_device eth_core (RESULTS_BUF + 4 * ERISC_REMOTE_BOARD_ID_LO_OFFSET)
    (RESULTS_BUF + 4 * (ERISC_REMOTE_BOARD_ID_LO_OFFSET + 1)).
(** Of a 6U the ASIC id stands for the board. *)
Definition wormhole_remote_board_id (tt_device : TTDevice) (eth_core : CoreCoord) : T Z :=
  on_6u ← running_on_6u;
  if (on_6u : bool) then wormhole_remote_asic_id tt_device eth_core
  else ask (read_from_device tt_device eth_core (RESULTS_BUF + 4 * ERISC_REMOTE_BOARD_ID_LO_OFFSET) 4).
Definition wormhole_local_board_id (tt_device : TTDevice) (eth_core : CoreCoord) : T Z :=
  on_6u ← running_on_6u;
  if (on_6u : bool) then wormhole_local_asic_id tt_device eth_core
  else
    board_id ← ask (dev_board_id tt_device);
    mret (Z.lor (Z.land (Z.shiftr board_id 4) 0xF0000000) (Z.land board_id 0x0FFFFFFF)).

Definition wormhole_local_eth_coord (tt_device : TTDevice) (eth_core : CoreCoord) : T (option EthCoord) :=
  info ← ask (read_from_device tt_device eth_core (NODE_INFO + 8) 4);
  mret (Some (MkEthCoord 0 (Z.land (Z.shiftr info 16) 0xFF) (Z.land (Z.shiftr info 24) 0xFF)
                (Z.land info 0xFF) (Z.land (Z.shiftr info 8) 0xFF))).
Definition wormhole_remote_eth_coord (tt_device : TTDevice) (eth_core : CoreCoord) : T (option EthCoord) :=
  remote_id ← ask (read_from_device tt_device eth_core (NODE_INFO + 4 * 10) 4);
  let rack := Z.land remote_id 0xFF in
  let shelf := Z.land (Z.shiftr remote_id 8) 0xFF in
  remote_id ← ask (read_from_device tt_device eth_core (NODE_INFO + 4 * 9) 4);
  mret (Some (MkEthCoord 0 (Z.land (Z.shiftr remote_id 16) 0x3F) (Z.land (Z.shiftr remote_id 22) 0x3F) rack shelf)).

Definition wormhole_create_remote (eth_coord : option EthCoord) (gateway_device : TTDevice) (gateway_eth_channels : gset Z)
  : T (option TTDevice) :=
  on_6u ← running_on_6u;
  if (on_6u : bool) then mret None
  else
    let remote_device_eth_coord := default (MkEthCoord 0 0 0 0 0) eth_coord in
    soc ← ask (get_soc_descriptor gateway_device);
    cores ← tlift (Soc.get_eth_xy_pairs_for_channels soc (merge_sort Z.le (elements gateway_eth_channels)) TRANSLATED);
    d ← ask (create_remote gateway_device remote_device_eth_coord cores);
    mret (Some d).

Definition wormhole_remote_eth_channel (tt_device : TTDevice) (local_eth_core : CoreCoord) : T Z :=
  ask (read_from_device tt_device local_eth_core (RESULTS_BUF + 4 * ERISC_REMOTE_ETH_ID_OFFSET) 4).
Definition wormhole_using_eth_coords : T bool := on_6u ← running_on_6u; mret (negb on_6u).
Definition wormhole_init_first (tt_device : TTDevice) : T unit :=
  board_type ← ask (dev_board_type tt_device);
  modify (λ t, upd_boards (board_ids t) (bool_decide (board_type = UBB)) t).

(** The routing firmware is off on a 6U, and on elsewhere. *)
Definition wormhole_verify_routing (tt_device : TTDevice) (asic_id : Z) (eth_core : CoreCoord) : T unit :=
  routing_firmware_disabled ← ask (read_from_device tt_device eth_core ROUTING_FIRMWARE_STATE 4);
  on_6u ← running_on_6u;
  if on_6u && (routing_firmware_disabled =? 0) || negb on_6u && (routing_firmware_disabled =? 1) then
    err ← throw_or_return (unexpected_routing_firmware_config options)
            (UnexpectedRoutingFirmwareConfigError (negb on_6u) (routing_firmware_disabled =? 0) eth_core);
    push_health asic_id err
  else mret tt.

(** Bit [channel] of the 32-bit mask. *)
Definition wormhole_port_disabled (tt_device : TTDevice) (eth_core : CoreCoord) : T bool :=
  port_disable_mask ← ask (read_from_device tt_device eth_core ETH_BOOT_PARAMS_PORT_DISABLE_ADDR 4);
  soc ← ask (get_soc_descriptor tt_device);
  channel ← tlift (Soc.get_eth_channel_for_core soc eth_core);
  if channel <? 32 then mret (Z.testbit port_disable_mask channel) else tlift (Err UndefinedBehaviour).
Definition wormhole_heartbeat (tt_device : TTDevice) (eth_core : CoreCoord) : T Z :=
  ask (read_from_device tt_device eth_core ETH_HEARTBEAT_ADDR 4).
Definition wormhole_postcode (tt_device : TTDevice) (eth_core : CoreCoord) : T Z :=
  ask (read_from_device tt_device eth_core ETH_POSTCODE_ADDR 4).

(** One core of an attempt: whether the retraining goes on ([None]: the
    firmware is too old), with [all_eth_cores_trained]. *)
Fixpoint retrain_cores (tt_device : TTDevice) (eth_cores : list CoreCoord) (all_trained : bool) : T (option bool) :=
  match eth_cores with
  | [] => mret (Some all_trained)
  | eth_core :: eth_cores =>
      soc ← ask (get_soc_descriptor tt_device);
      translated ← tlift (Soc.translate_chip_coord_to_translated soc eth_core selected_noc);
      status ← ask (read_eth_core_training_status tt_device (MkCoreCoord (xy_x translated) (xy_y translated) UNSPECIFIED LITERAL));
      if negb ((status =? TRAINING_FAIL) || RETRAIN_UNCONNECTED && (status =? TRAINING_NOT_CONNECTED))
      then retrain_cores tt_device eth_cores all_trained
      else
        eth_fw_version ← get_eth_fw_version tt_device eth_core;
        if semver_ltb eth_fw_version MIN_ETH_FW_VERSION_FOR_RETRAIN then mret None
        else
          ask (write_to_device_reg tt_device translated ETH_RETRAIN_ADDR ETH_TRIGGER_RETRAIN_VAL);;
          retrain_cores tt_device eth_cores false
  end.
Fixpoint retrain_devices (found : list (Z * TTDevice)) (all_trained : bool) : T (option bool) :=
  match found with
  | [] => mret (Some all_trained)
  | (_, tt_device) :: found =>
      cores ← eth_cores_of tt_device;
      trained ← retrain_cores tt_device cores all_trained;
      match trained with None => mret None | Some all_trained => retrain_devices found all_trained end
  end.
Fixpoint retrain_attempts (attempts : nat) : T unit :=
  match attempts with
  | O => mret tt
  | S attempts =>
      t ← get;
      trained ← retrain_devices (in_order (devices_to_discover t)) true;
      match trained with
      | None | Some true => mret tt
      | Some false =>
          t ← get;
          each (in_order (devices_to_discover t)) (λ e, wait_eth_cores_training e.2);;
          retrain_attempts attempts
      end
  end.
Definition wormhole_retrain : T unit :=
  on_6u ← running_on_6u;
  if negb on_6u || negb (perform_6u_eth_retrain options) then mret tt else retrain_attempts ETH_RETRAIN_ATTEMPT_COUNT.

Definition TopologyDiscoveryWormhole : TopologyArch := {|
  get_topology_arch := WORMHOLE_B0;
  get_remote_board_id := wormhole_remote_board_id;
  get_local_board_id := wormhole_local_board_id;
  get_local_asic_id := wormhole_local_asic_id;
  get_remote_asic_id := wormhole_remote_asic_id;
  get_unconnected_device_id := λ d, ask (dev_board_id d);
  get_local_eth_coord := wormhole_local_eth_coord;
  get_remote_eth_coord := wormhole_remote_eth_coord;
  get_remote_eth_channel := wormhole_remote_eth_channel;
  get_logical_remote_eth_channel := wormhole_remote_eth_channel;
  is_using_eth_coords := wormhole_using_eth_coords;
  create_remote_device := wormhole_create_remote;
  init_first_device := wormhole_init_first;
  verify_routing_firmware_state := wormhole_verify_routing;
  is_eth_port_disabled := wormhole_port_disabled;
  get_eth_heartbeat := wormhole_heartbeat;
  get_eth_postcode := wormhole_postcode;
  patch_eth_connections := mret tt;
  retrain_eth_cores := wormhole_retrain
|}.
End Wormhole.
End Wormhole.

(** ** Blackhole *)

Module Blackhole.
Section Blackhole.
Context `{Devices}.

Definition mangle_asic_id (board_id asic_location : Z) : Z :=
  Z.lor (u64 (Z.shiftl board_id 5)) (Z.land asic_location 0x1F).

(** The ids of a core's own board and ASIC, and of those at the other end. Of
    the two routines of an end each calls the other: the ASIC id of a 6U stands
    for the board, elsewhere it is made of the board id. *)
Definition blackhole_local_asic_id (tt_device : TTDevice) (eth_core : CoreCoord) : T Z :=
  on_6u ← running_on_6u;
  if (on_6u : bool) then read_hi_lo tt_device eth_core 0x7CFD4 0x7CFD8
  else
    board_id ← read_lo_hi tt_device eth_core 0x7CFC8 0x7CFC4;
    asic_location ← ask (read_from_device tt_device eth_core 0x7CFC1 1);
    mret (mangle_asic_id board_id asic_location).
Definition blackhole_remote_asic_id (tt_device : TTDevice) (eth_core : CoreCoord) : T Z :=
  on_6u ← running_on_6u;
  if (on_6u : bool) then read_hi_lo tt_device eth_core 0x7CFF4 0x7CFF8
  else
    board_id ← read_lo_hi tt_device eth_core 0x7CFE8 0x7CFE4;
    asic_location ← ask (read_from_device tt_device eth_core 0x7CFE1 1);
    mret (mangle_asic_id board_id asic_location).
Definition blackhole_local_board_id (tt_device : TTDevice) (eth_core : CoreCoord) : T Z :=
  on_6u ← running_on_6u;
  if (on_6u : bool) then blackhole_local_asic_id tt_device eth_core else read_lo_hi tt_device eth_core 0x7CFC8 0x7CFC4.
Definition blackhole_remote_board_id (tt_device : TTDevice) (eth_core : CoreCoord) : T Z :=
  on_6u ← running_on_6u;
  if (on_6u : bool) then blackhole_remote_asic_id tt_device eth_core else read_lo_hi tt_device eth_core 0x7CFE8 0x7CFE4.

Definition blackhole_remote_eth_channel (tt_device : TTDevice) (local_eth_core : CoreCoord) : T Z :=
  ask (read_from_device tt_device local_eth_core 0x7CFE2 1).
Definition blackhole_logical_remote_eth_channel (tt_device : TTDevice) (local_eth_core : CoreCoord) : T Z :=
  remote_logical_eth_id ← ask (read_from_device tt_device local_eth_core 0x7CFE3 1);
  t ← get;
  let knows_logical := match first_fw_bundle_version t with Some v => negb (bundle_ltb v (MkSemVer 18 12 0 0)) | None => false end in
  if knows_logical then mret remote_logical_eth_id
  else
    info ← ask (get_chip_info tt_device);
    if negb (bool_decide (ci_board_type info = P150)) then
      tlift (throw "Querying Logical Eth Channels on a Remote Host is only supported for P150 Board Types.")
    else mret (remote_logical_eth_id + 4).

Definition blackhole_init_first (tt_device : TTDevice) : T unit :=
  board_type ← ask (dev_board_type tt_device);
  modify (λ t, upd_boards (board_ids t) (bool_decide (board_type = UBB_BLACKHOLE)) t).
Definition blackhole_unconnected_device_id (tt_device : TTDevice) : T Z :=
  asic_id_lo ← ask (read_telemetry tt_device TelemetryTag.ASIC_ID_LOW);
  asic_id_hi ← ask (read_telemetry tt_device TelemetryTag.ASIC_ID_HIGH);
  mret (Z.lor (Z.shiftl asic_id_hi 32) asic_id_lo).
(** [BOOT_RESULTS_ADDR] and the offsets of [eth_status_t]. *)
Definition BOOT_RESULTS_ADDR : Z := 0x7CC00.
Definition HEARTBEAT_OFFSET : Z := 0x70.
Definition POSTCODE_OFFSET : Z := 0.
Definition blackhole_heartbeat (tt_device : TTDevice) (eth_core : CoreCoord) : T Z :=
  ask (read_from_device tt_device eth_core (BOOT_RESULTS_ADDR + HEARTBEAT_OFFSET) 4).
Definition blackhole_postcode (tt_device : TTDevice) (eth_core : CoreCoord) : T Z :=
  ask (read_from_device tt_device eth_core (BOOT_RESULTS_ADDR + POSTCODE_OFFSET) 4).

(** The order of a std::set of links. *)
Definition end_le (a b : EthEnd) : bool := (a.1 <? b.1) || (a.1 =? b.1) && (a.2 <=? b.2).
Definition link_le (a b : EthEnd * EthEnd) : Prop :=
  (if decide (a.1 = b.1) then end_le a.2 b.2 else end_le a.1 b.1) = true.
#[global] Instance link_le_dec (a b : EthEnd * EthEnd) : Decision (link_le a b).
Proof. unfold link_le. apply _. Defined.

(** The far channel of a link in logical coordinates of the far chip. *)
Definition patch_link (link : EthEnd * EthEnd) : T (EthEnd * EthEnd) :=
  let '(local, (remote_device, remote_channel)) := link in
  remote_device_ptr ← get_tt_device remote_device;
  eth_core_noc0 ← tlift (vec_idx blackhole.ETH_CORES_NOC0 remote_channel);
  soc ← ask (get_soc_descriptor remote_device_ptr);
  logical_coord ← tlift (Soc.translate_coord_to soc (MkCoreCoord (xy_x eth_core_noc0) (xy_y eth_core_noc0) ETH NOC0) LOGICAL);
  mret (local, (remote_device, u32 (cc_y logical_coord))).
Fixpoint patch_links (links : list (EthEnd * EthEnd)) (fixed : gset (EthEnd * EthEnd)) : T (gset (EthEnd * EthEnd)) :=
  match links with
  | [] => mret fixed
  | link :: links => link ← patch_link link; patch_links links ({[link]} ∪ fixed)
  end.
Definition blackhole_patch : T unit :=
  t ← get;
  fixed ← patch_links (eth_links t) ∅;
  modify (λ t, upd_links (eth_coords t) (merge_sort link_le (elements fixed)) (eth_links_to_remote t) t).

Definition TopologyDiscoveryBlackhole : TopologyArch := {|
  get_topology_arch := BLACKHOLE;
  get_remote_board_id := blackhole_remote_board_id;
  get_local_board_id := blackhole_local_board_id;
  get_local_asic_id := blackhole_local_asic_id;
  get_remote_asic_id := blackhole_remote_asic_id;
  get_unconnected_device_id := blackhole_unconnected_device_id;
  get_local_eth_coord := λ _ _, mret None;
  get_remote_eth_coord := λ _ _, mret None;
  get_remote_eth_channel := blackhole_remote_eth_channel;
  get_logical_remote_eth_channel := blackhole_logical_remote_eth_channel;
  is_using_eth_coords := mret false;
  create_remote_device := λ _ _ _, mret None;
  init_first_device := blackhole_init_first;
  verify_routing_firmware_state := λ _ _ _, mret tt;
  is_eth_port_disabled := λ _ _, mret false;
  get_eth_heartbeat := blackhole_heartbeat;
  get_eth_postcode := blackhole_postcode;
  patch_eth_connections := blackhole_patch;
  retrain_eth_cores := mret tt
|}.
End Blackhole.
End Blackhole.
