(* ===== verification/TopologyTheory.v ===== *)
(** * TopologyTheory

    A program logic for the computations of [Topology], what the discovery
    relies on in the devices ([DevicesLaws]) and in the virtual methods
    ([TopologyLaws]), and what the parts of the walk do under these laws. The
    laws are relative to a set of errors: those that a device may throw. *)

From Stdlib Require Import ZArith Lia.
From stdpp Require Import base gmap list list_numbers sorting strings numbers sets.
From S2P Require Import DeviceAccess.
From S2P Require Import Prelude CoreTypes ArchData Harvesting SemVer RiscType BoardTypes.
From S2P Require Import Managers SocArch SocDescriptor FirmwareFeatures FirmwareInfo.
From S2P Require Import ClusterState Topology Discover.

Local Open Scope Z_scope.

(** ** Weakest preconditions *)

Section wp.
Context `{Devices}.

Definition Post (A : Type) : Type := result A → TopologyDiscovery → Bus → Prop.
Definition wp {A} (m : T A) (Q : Post A) (t : TopologyDiscovery) (b : Bus) : Prop :=
  match m t b with Some (r, t', b') => Q r t' b' | None => False end.

Lemma walk_wp_mono {A} (m : T A) (Q Q' : Post A) t b : wp m Q t b → (∀ r t' b', Q r t' b' → Q' r t' b') → wp m Q' t b.
Proof. unfold wp. destruct (m t b) as [[[r t'] b']|]; auto. Qed.
Lemma walk_wp_and {A} (m : T A) (Q Q' : Post A) t b : wp m Q t b → wp m Q' t b → wp m (λ r t' b', Q r t' b' ∧ Q' r t' b') t b.
Proof. unfold wp. destruct (m t b) as [[[r t'] b']|]; auto. Qed.
Lemma walk_wp_ret {A} (a : A) (Q : Post A) t b : Q (Ok a) t b → wp (mret a) Q t b.
Proof. done. Qed.
Lemma walk_wp_bind {A B} (m : T A) (f : A → T B) (Q : Post B) t b :
  wp m (λ r t' b', match r with Ok a => wp (f a) Q t' b' | Err e => Q (Err e) t' b' end) t b → wp (m ≫= f) Q t b.
Proof. unfold wp, mbind, T_bind. destruct (m t b) as [[[[a|e] t'] b']|]; done. Qed.
Lemma wp_get (Q : Post TopologyDiscovery) t b : Q (Ok t) t b → wp get Q t b.
Proof. done. Qed.
Lemma wp_modify f (Q : Post unit) t b : Q (Ok tt) (f t) b → wp (modify f) Q t b.
Proof. done. Qed.
Lemma wp_tlift {A} (r : result A) (Q : Post A) t b : Q r t b → wp (tlift r) Q t b.
Proof. done. Qed.
Lemma wp_ask {A} (m : Bus → result A * Bus) (Q : Post A) t b : Q (m b).1 t (m b).2 → wp (ask m) Q t b.
Proof. unfold wp, ask. by destruct (m b). Qed.
Lemma wp_at_key {V} k (m : gmap Z V) (Q : Post V) v t b : m !! k = Some v → Q (Ok v) t b → wp (at_key k m) Q t b.
Proof. intros Hk HQ. apply wp_tlift. unfold map_at. by rewrite Hk. Qed.
(** A [get] before the rest. *)
Lemma wp_get_bind {B} (f : TopologyDiscovery → T B) (Q : Post B) t b : wp (f t) Q t b → wp (get ≫= f) Q t b.
Proof. done. Qed.
Lemma wp_clock_bind {B} (f : Z → T B) (Q : Post B) t b : wp (f (clock b)) Q t b → wp (read_clock ≫= f) Q t b.
Proof. done. Qed.
Lemma wp_modify_bind {B} g (f : unit → T B) (Q : Post B) t b : wp (f tt) Q (g t) b → wp (modify g ≫= f) Q t b.
Proof. done. Qed.
End wp.

(** ** Computations that leave the walk alone *)

(** The parts of the state that the walk is made of. *)
Record same `{Devices} (t t' : TopologyDiscovery) : Prop := {
  same_todo : devices_to_discover t' = devices_to_discover t;
  same_devices : devices t' = devices t;
  same_chip_ids : asic_id_to_chip_id t' = asic_id_to_chip_id t;
  same_links : eth_links t' = eth_links t;
  same_remote : eth_links_to_remote t' = eth_links_to_remote t;
  same_boards : board_ids t' = board_ids t;
  same_active : active_eth_channels_per_device t' = active_eth_channels_per_device t;
  same_gateways : remote_asic_id_to_mmio_device_id t' = remote_asic_id_to_mmio_device_id t;
  same_6u : is_running_on_6u t' = is_running_on_6u t;
  same_next : next_chip_id t' = next_chip_id t
}.

#[global] Instance same_preorder `{Devices} : PreOrder same.
Proof.
  split; [by intros t|]. intros t t1 t2 [] []. split; congruence.
Qed.

Section calm.
Context `{Devices} (E : error → Prop).

Definition thrown_ok {A} (r : result A) : Prop := ∀ e, r = Err e → E e.
Lemma thrown_Ok {A} (a : A) : thrown_ok (Ok a).
Proof. by intros e. Qed.
Lemma thrown_Err {A} e : E e → thrown_ok (A:=A) (Err e).
Proof. by intros He e' [= <-]. Qed.
Lemma thrown_cast {A B} e : thrown_ok (A:=A) (Err e) → thrown_ok (A:=B) (Err e).
Proof. intros He. by apply thrown_Err, He. Qed.

(** It ends, leaves the walk alone, does not turn the clock back, and throws
    only errors of the set. *)
Definition calm {A} (m : T A) : Prop :=
  ∀ t b, wp m (λ r t' b', same t t' ∧ thrown_ok r ∧ clock b ≤ clock b') t b.

Lemma calm_wp {A} (m : T A) (Q : Post A) t b :
  calm m → (∀ r t' b', same t t' → thrown_ok r → clock b ≤ clock b' → Q r t' b') → wp m Q t b.
Proof. intros Hm HQ. eapply walk_wp_mono; [apply Hm|]. cbn. intros r t' b' (? & ? & ?). auto. Qed.
Lemma calm_ret {A} (a : A) : calm (mret a).
Proof. intros t b. apply walk_wp_ret. split_and!; [done|apply thrown_Ok|lia]. Qed.
Lemma calm_bind {A B} (m : T A) (f : A → T B) : calm m → (∀ a, calm (f a)) → calm (m ≫= f).
Proof.
  intros Hm Hf t b. apply walk_wp_bind. eapply calm_wp; [done|]. intros [a|e] t1 b1 Hs He Hc.
  - eapply calm_wp; [apply Hf|]. intros r t2 b2 ? ? ?. split_and!; [by etrans|done|lia].
  - split_and!; [done|by eapply thrown_cast|done].
Qed.
Lemma calm_get {B} (f : TopologyDiscovery → T B) : (∀ t, calm (f t)) → calm (get ≫= f).
Proof. intros Hf t b. apply wp_get_bind, Hf. Qed.
Lemma calm_tlift {A} (r : result A) : thrown_ok r → calm (tlift r).
Proof. intros Hr t b. apply wp_tlift. split_and!; [done|done|lia]. Qed.
Lemma calm_err {A} e : E e → calm (A:=A) (tlift (Err e)).
Proof. intros He. by apply calm_tlift, thrown_Err. Qed.
Lemma calm_modify f : (∀ t, same t (f t)) → calm (modify f).
Proof. intros Hf t b. apply wp_modify. split_and!; [done|apply thrown_Ok|lia]. Qed.
Lemma calm_push_health asic_id e : calm (push_health asic_id e).
Proof. apply calm_modify. by intros []. Qed.
Lemma calm_set_versions eth fw : calm (set_versions eth fw).
Proof. apply calm_modify. by intros []. Qed.
Lemma calm_clock {B} (f : Z → T B) : (∀ n, calm (f n)) → calm (read_clock ≫= f).
Proof. intros Hf t b. apply Hf. Qed.

(** A question to a device is answered, with an error of the set if any. *)
Definition answers {A} (m : Bus → result A * Bus) : Prop := ∀ b, thrown_ok (m b).1 ∧ clock b ≤ clock (m b).2.
Lemma calm_ask {A} (m : Bus → result A * Bus) : answers m → calm (ask m).
Proof. intros Hm t b. apply wp_ask. destruct (Hm b). done. Qed.

(** The SoC descriptors that the devices answer with. *)
Record soc_answers (soc : Soc.SocDescriptor) : Prop := {
  sa_cores : thrown_ok (Soc.get_cores soc ETH NOC0 None);
  sa_channel : ∀ core, thrown_ok (Soc.get_eth_channel_for_core soc core);
  sa_channel_bound : ∀ core n, Soc.get_eth_channel_for_core soc core = Ok n → 0 ≤ n < 32;
  sa_pairs : ∀ channels, thrown_ok (Soc.get_eth_xy_pairs_for_channels soc channels TRANSLATED);
  sa_translated : ∀ core, thrown_ok (Soc.translate_chip_coord_to_translated soc core selected_noc);
  sa_coord : ∀ core s, thrown_ok (Soc.translate_coord_to soc core s)
}.

Class DevicesLaws : Prop := {
  law_runtime : ∀ what, E (RuntimeError what);
  law_arch : ∀ d, dev_arch d = WORMHOLE_B0 ∨ dev_arch d = BLACKHOLE;
  law_sleep : ∀ n b, clock b + n ≤ clock (sleep_for n b);
  law_enumerate : ∀ t, answers (enumerate t);
  law_create : ∀ t n safe, answers (create_device t n safe);
  law_create_remote : ∀ d c cores, answers (create_remote d c cores);
  law_power : ∀ d, answers (set_power_busy d);
  law_init : ∀ d n b, (∀ e, (init_tt_device d n b).1 = InitThrew e → E e) ∧ clock b ≤ clock (init_tt_device d n b).2;
  law_soc : ∀ d, answers (get_soc_descriptor d);
  law_soc_sound : ∀ d b soc, (get_soc_descriptor d b).1 = Ok soc → soc_answers soc;
  law_info : ∀ d, answers (get_chip_info d);
  law_board_id : ∀ d, answers (dev_board_id d);
  law_board_type : ∀ d, answers (dev_board_type d);
  law_read : ∀ d c a n, answers (read_from_device d c a n);
  law_write_reg : ∀ d p a v, answers (write_to_device_reg d p a v);
  law_reset : ∀ d c, answers (get_risc_reset_state d c);
  law_training : ∀ d c, answers (read_eth_core_training_status d c);
  law_wait : ∀ d p n, answers (wait_eth_core_training d p n);
  law_fw : ∀ d, answers (get_firmware_version d);
  law_eth_fw : ∀ d, answers (get_eth_fw_version_semver d);
  law_telemetry : ∀ d n, answers (read_telemetry d n)
}.
End calm.

Create HintDb calm.
#[export] Hint Resolve calm_ret calm_push_health calm_set_versions thrown_Ok thrown_Err
  law_enumerate law_create law_create_remote law_power law_soc law_info law_board_id law_board_type law_read law_write_reg
  law_reset law_training law_wait law_fw law_eth_fw law_telemetry : calm.
(** Follows the structure of a computation that is calm. *)
Ltac calm_step :=
  match goal with
  | |- calm _ (get ≫= _) => apply calm_get; intros ?
  | |- calm _ (read_clock ≫= _) => apply calm_clock; intros ?
  | |- calm _ (_ ≫= _) => apply calm_bind; [|intros ?]
  | |- calm _ (ask _) => apply calm_ask
  | |- calm _ (tlift (throw _)) => apply calm_err
  | |- calm _ (tlift (Err _)) => apply calm_err
  | |- _ (RuntimeError _) => apply law_runtime
  | |- calm _ (if ?b then _ else _) => destruct b
  | |- calm _ (match ?x with _ => _ end) => destruct x
  | |- calm _ (let '(_, _) := ?x in _) => destruct x
  | |- calm _ _ => fast_done
  end.
Ltac calm_tac := repeat calm_step; eauto with calm.

(** ** What the walk relies on in the virtual methods *)

Section laws.
Context `{TopologyArch} (E : error → Prop) (U : gset Z).

(** The links lead to the chips of the set [U]; a remote device can be opened
    unless on a 6U, and nothing is opened on Blackhole. *)
Class TopologyLaws : Prop := {
  calm_remote_board_id : ∀ d c, calm E (get_remote_board_id d c);
  calm_local_board_id : ∀ d c, calm E (get_local_board_id d c);
  calm_local_asic_id : ∀ d c, calm E (get_local_asic_id d c);
  calm_remote_asic_id : ∀ d c, calm E (get_remote_asic_id d c);
  calm_unconnected : ∀ d, calm E (get_unconnected_device_id d);
  calm_local_coord : ∀ d c, calm E (get_local_eth_coord d c);
  calm_remote_coord : ∀ d c, calm E (get_remote_eth_coord d c);
  calm_remote_channel : ∀ d c, calm E (get_remote_eth_channel d c);
  calm_logical_channel : ∀ d c, calm E (get_logical_remote_eth_channel d c);
  calm_using_coords : calm E is_using_eth_coords;
  calm_create : ∀ c d channels, calm E (create_remote_device c d channels);
  calm_routing : ∀ d id c, calm E (verify_routing_firmware_state d id c);
  calm_port : ∀ d c, calm E (is_eth_port_disabled d c);
  calm_heartbeat : ∀ d c, calm E (get_eth_heartbeat d c);
  calm_postcode : ∀ d c, calm E (get_eth_postcode d c);
  calm_retrain : calm E retrain_eth_cores;
  remote_asic_in : ∀ d c t b, wp (get_remote_asic_id d c) (λ r _ _, ∀ id, r = Ok id → id ∈ U) t b;
  local_asic_in : ∀ d c t b, wp (get_local_asic_id d c) (λ r _ _, ∀ id, r = Ok id → id ∈ U) t b;
  unconnected_in : ∀ d t b, wp (get_unconnected_device_id d) (λ r _ _, ∀ id, r = Ok id → id ∈ U) t b;
  create_some : ∀ c d channels t b, get_topology_arch ≠ BLACKHOLE → is_running_on_6u t = false →
    wp (create_remote_device c d channels) (λ r _ _, r ≠ Ok None) t b;
  first_law : ∀ d t b,
    wp (init_first_device d) (λ r t' b', (∃ on_6u, same (upd_boards (board_ids t) on_6u t) t') ∧ thrown_ok E r ∧ clock b ≤ clock b') t b;
  patch_law : ∀ t b, (get_topology_arch = BLACKHOLE → ∀ l, l ∈ eth_links t → is_Some (devices t !! l.2.1)) →
    wp patch_eth_connections
      (λ r t' b', same (upd_links (eth_coords t) (eth_links t') (eth_links_to_remote t) t) t' ∧ thrown_ok E r
                  ∧ (get_topology_arch ≠ BLACKHOLE → eth_links t' = eth_links t)) t b
}.
End laws.
#[export] Hint Resolve calm_remote_board_id calm_local_board_id calm_local_asic_id calm_remote_asic_id calm_unconnected
  calm_local_coord calm_remote_coord calm_remote_channel calm_logical_channel calm_using_coords calm_create calm_routing
  calm_port calm_heartbeat calm_postcode calm_retrain : calm.

(** ** The parts of the walk that are calm *)

Section parts.
Context `{TopologyArch} (E : error → Prop) (U : gset Z) `{!DevicesLaws E} `{!TopologyLaws E U}.
Context (options : TopologyDiscoveryOptions).

Lemma calm_throw_or_return a e : calm E (throw_or_return a e).
Proof. unfold throw_or_return. calm_tac. Qed.
Lemma calm_eth_cores d : calm E (eth_cores_of d).
Proof.
  intros t b. unfold eth_cores_of. apply walk_wp_bind, wp_ask. destruct (law_soc E d b) as [He Hc].
  destruct ((get_soc_descriptor d b).1) as [soc|e] eqn:Hs.
  - apply wp_tlift. split_and!; [done| |done]. by eapply sa_cores, law_soc_sound.
  - split_and!; [done|by eapply thrown_cast|done].
Qed.
Lemma calm_soc {A} d (f : Soc.SocDescriptor → T A) : (∀ soc, soc_answers E soc → calm E (f soc)) →
  calm E (ask (get_soc_descriptor d) ≫= f).
Proof.
  intros Hf t b. apply walk_wp_bind, wp_ask. destruct (law_soc E d b) as [He Hc].
  destruct ((get_soc_descriptor d b).1) as [soc|e] eqn:Hs.
  - eapply calm_wp; [apply Hf; by eapply law_soc_sound|]. intros r t' b' ? ? ?. split_and!; [done|done|lia].
  - split_and!; [done|by eapply thrown_cast|done].
Qed.
Lemma calm_wait_cores d soc cores left : soc_answers E soc → calm E (wait_cores d soc cores left).
Proof.
  intros Hsoc. revert left. induction cores as [|c cores IH]; intros left; cbn [wait_cores]; [calm_tac|].
  apply calm_bind; [by apply calm_tlift, sa_translated|]. intros p. apply calm_bind; [calm_tac|]. auto.
Qed.
Lemma calm_wait_training d : calm E (wait_eth_cores_training d).
Proof.
  apply calm_soc. intros soc Hsoc. apply calm_bind; [by apply calm_tlift, sa_cores|].
  intros cores. by apply calm_wait_cores.
Qed.
Lemma calm_trained d c : calm E (is_eth_trained d c).
Proof. unfold is_eth_trained. calm_tac. Qed.
Lemma calm_eth_fw_version d c : calm E (get_eth_fw_version d c).
Proof. unfold get_eth_fw_version. destruct (law_arch E d) as [-> | ->]; calm_tac. Qed.
Lemma calm_erisc0 d c : calm E (erisc0_in_reset d c).
Proof.
  unfold erisc0_in_reset. apply calm_bind; [calm_tac|]. intros register.
  apply calm_bind; [|calm_tac]. apply calm_tlift.
  unfold soft_reset_risc_type. destruct (law_arch E d) as [-> | ->]; apply thrown_Ok.
Qed.

#[local] Hint Resolve calm_throw_or_return calm_eth_cores calm_wait_training calm_trained calm_eth_fw_version calm_erisc0 : calm.

(** The polls of a loop with a timeout in milliseconds, ten microseconds apart. *)
Definition polls (timeout : Z) : nat := Z.to_nat (patience timeout / 10000) + 3.
Definition enough_beats : nat := polls ETH_STARTUP_TIMEOUT + polls ETH_HEARTBEAT_TIMEOUT.
(** What is left of them suffices. *)
Definition budget (timeout start time : Z) (fuel : nat) : Prop :=
  (1 ≤ fuel)%nat ∧ patience timeout - (time - start) < 10000 * (Z.of_nat fuel - 1).

Lemma budget_start timeout start fuel : (polls timeout ≤ fuel)%nat → budget timeout start start fuel.
Proof.
  unfold budget, polls. intros Hf. pose proof (Z.div_mod (patience timeout) 10000 ltac:(lia)).
  pose proof (Z.mod_pos_bound (patience timeout) 10000 ltac:(lia)). lia.
Qed.
Lemma budget_sleep timeout start time time' fuel :
  0 < timeout → budget timeout start time (S fuel) → timed_out start timeout time = false → time + 10 * 1000 ≤ time' →
  budget timeout start time' fuel.
Proof. unfold budget. intros Ht [_ Hb] Hn%not_timed_out Hs; [lia|done]. Qed.
Lemma budget_later timeout start time time' fuel : time ≤ time' → budget timeout start time fuel → budget timeout start time' fuel.
Proof. unfold budget. lia. Qed.

(** The loop after a sleep. *)
Lemma calm_poll_again {A} (m : T A) (ok : Z → Prop) t b :
  (∀ t b, ok (clock b) → wp m (λ r t' b', same t t' ∧ thrown_ok E r ∧ clock b ≤ clock b') t b) →
  ok (clock (sleep_for (10 * 1000) b)) →
  wp (sleep (10 * 1000);; m) (λ r t' b', same t t' ∧ thrown_ok E r ∧ clock b ≤ clock b') t b.
Proof.
  intros Hm Hok. pose proof (law_sleep E (10 * 1000) b). apply walk_wp_bind. cbn.
  eapply walk_wp_mono; [apply Hm, Hok|]. cbn. intros r t' b' (? & ? & ?). split_and!; [done|done|lia].
Qed.

Lemma calm_heartbeat_failed id v c : calm E (heartbeat_failed options id v c).
Proof. unfold heartbeat_failed. calm_tac. Qed.

(** One poll: a calm reading, then the rest at a state and a time like those of the start. *)
Lemma calm_reading {A B} (m : T A) (f : A → T B) (P : Z → Prop) t b :
  calm E m → (∀ time time', time ≤ time' → P time → P time') → P (clock b) →
  (∀ a t' b', P (clock b') → wp (f a) (λ r t2 b2, same t' t2 ∧ thrown_ok E r ∧ clock b' ≤ clock b2) t' b') →
  wp (m ≫= f) (λ r t' b', same t t' ∧ thrown_ok E r ∧ clock b ≤ clock b') t b.
Proof.
  intros Hm Hmono HP Hf. apply walk_wp_bind. eapply calm_wp; [done|]. intros [a|e] t' b' Hs He Hc.
  - eapply walk_wp_mono; [apply Hf; by eapply Hmono|]. cbn. intros r t2 b2 (? & ? & ?). split_and!; [by etrans|done|lia].
  - split_and!; [done|by eapply thrown_cast|done].
Qed.

Lemma await_start_calm fuel d id c start t b :
  budget ETH_STARTUP_TIMEOUT start (clock b) fuel →
  wp (await_start options fuel d id c start) (λ r t' b', same t t' ∧ thrown_ok E r ∧ clock b ≤ clock b') t b.
Proof.
  revert t b. induction fuel as [|fuel IH]; intros t b Hb; [by destruct Hb; lia|]. cbn [await_start].
  eapply (calm_reading _ _ (λ time, budget ETH_STARTUP_TIMEOUT start time (S fuel))); [calm_tac| |done|].
  { intros ??. by apply budget_later. }
  intros current t' b' Hb'. destruct (negb _); [by apply calm_ret|].
  apply wp_clock_bind. destruct (timed_out start _ (clock b')) eqn:Ht.
  - apply calm_bind; [apply calm_heartbeat_failed|]. calm_tac.
  - pose proof (law_sleep E (10 * 1000) b') as Hsleep.
    apply (calm_poll_again _ (λ time, budget ETH_STARTUP_TIMEOUT start time fuel)).
    + intros t2 b2 H2. by apply IH.
    + by eapply budget_sleep.
Qed.
Lemma await_change_calm fuel d id c previous start t b :
  budget ETH_HEARTBEAT_TIMEOUT start (clock b) fuel →
  wp (await_change options fuel d id c previous start) (λ r t' b', same t t' ∧ thrown_ok E r ∧ clock b ≤ clock b') t b.
Proof.
  revert t b. induction fuel as [|fuel IH]; intros t b Hb; [by destruct Hb; lia|]. cbn [await_change].
  eapply (calm_reading _ _ (λ time, budget ETH_HEARTBEAT_TIMEOUT start time (S fuel))); [calm_tac| |done|].
  { intros ??. by apply budget_later. }
  intros current t' b' Hb'. cbn zeta. destruct (_ && _); [by apply calm_ret|]. destruct (negb _); [by apply calm_ret|].
  apply wp_clock_bind. destruct (timed_out start _ (clock b')) eqn:Ht.
  - apply calm_bind; [apply calm_heartbeat_failed|]. calm_tac.
  - pose proof (law_sleep E (10 * 1000) b') as Hsleep.
    apply (calm_poll_again _ (λ time, budget ETH_HEARTBEAT_TIMEOUT start time fuel)).
    + intros t2 b2 H2. by apply IH.
    + by eapply budget_sleep.
Qed.
Lemma calm_heartbeat_running beats d id c :
  (enough_beats ≤ beats)%nat → calm E (eth_heartbeat_running options beats d id c).
Proof.
  unfold enough_beats. intros Hb t b. unfold eth_heartbeat_running. apply wp_clock_bind.
  apply walk_wp_bind. eapply walk_wp_mono; [apply await_start_calm, budget_start; lia|]. cbn beta.
  intros [[reading|]|e] t1 b1 (Hs & He & Hc).
  - apply wp_clock_bind. eapply walk_wp_mono; [apply await_change_calm, budget_start; lia|]. cbn beta.
    intros r t2 b2 (? & ? & ?). split_and!; [by etrans|done|lia].
  - split_and!; [done|apply thrown_Ok|done].
  - split_and!; [done|by eapply thrown_cast|done].
Qed.

Lemma calm_heartbeat_passed beats d id c : (enough_beats ≤ beats)%nat → calm E (heartbeat_passed options beats d id c).
Proof.
  intros Hb. unfold heartbeat_passed. pose proof (calm_heartbeat_running beats d id c Hb). calm_tac.
Qed.
Lemma calm_verify_bundle d id : calm E (verify_fw_bundle_version options d id).
Proof.
  unfold verify_fw_bundle_version. apply calm_bind; [calm_tac|]. intros v. apply calm_get. intros t.
  destruct (first_fw_bundle_version t); [calm_tac|]. apply calm_bind; [calm_tac|]. intros _.
  destruct (law_arch E d) as [-> | ->]; cbn [get_minimum_compatible_firmware_version]; (apply calm_bind; [apply calm_tlift; apply thrown_Ok|]); intros; calm_tac.
Qed.
Lemma calm_verify_eth_core d id c : calm E (verify_eth_core_fw_version options d id c).
Proof. unfold verify_eth_core_fw_version. calm_tac. Qed.
Lemma calm_note_coord d id c : calm E (note_eth_coord d id c).
Proof.
  unfold note_eth_coord. apply calm_bind; [calm_tac|]. intros uses. apply calm_get. intros t. destruct (_ && _); [|calm_tac].
  apply calm_bind; [calm_tac|]. intros [coord|]; [|calm_tac]. apply calm_modify. by intros [].
Qed.
Lemma calm_link_usable beats d id c : (enough_beats ≤ beats)%nat → calm E (link_usable options beats d id c).
Proof.
  intros Hb. unfold link_usable. pose proof (calm_heartbeat_passed beats d id c Hb).
  pose proof (calm_verify_eth_core d id c). pose proof (calm_note_coord d id c). calm_tac.
Qed.
Lemma calm_init_device d chip timeout : calm E (init_device options d chip timeout).
Proof.
  intros t b. unfold init_device. apply walk_wp_bind, wp_ask. destruct (law_init E d timeout b) as [He Hc].
  destruct (init_tt_device d timeout b) as [[|err|e] b']; cbn [fst snd] in He, Hc |- *.
  - apply walk_wp_ret. split_and!; [done|apply thrown_Ok|done].
  - eapply (calm_wp E).
    + case_decide; [calm_tac|]. apply calm_bind; [|calm_tac]. destruct (determine_device_init_error err); calm_tac.
    + intros r t' b'' ? ? ?. split_and!; [done|done|lia].
  - apply wp_tlift. split_and!; [done|apply thrown_Err; auto|done].
Qed.
End parts.
#[export] Hint Resolve calm_throw_or_return calm_eth_cores calm_wait_training calm_trained calm_eth_fw_version calm_erisc0
  calm_verify_bundle calm_init_device calm_link_usable : calm.
