(* ===== verification/TopologyWalk.v ===== *)
(** * TopologyWalk

    The walk of [discover_remote_devices] under the laws of [TopologyTheory]:
    its invariant, that every lookup it makes succeeds, that it ends, and, in a
    network whose chips answer alike each time they are asked, which chips and
    links it finds. *)

From Stdlib Require Import ZArith Lia.
From stdpp Require Import base gmap list list_numbers sorting strings numbers sets.
From S2P Require Import DeviceAccess.
From S2P Require Import Prelude CoreTypes ArchData Harvesting SemVer RiscType BoardTypes.
From S2P Require Import Managers SocArch SocDescriptor FirmwareFeatures FirmwareInfo.
From S2P Require Import ClusterState EthConnections Topology Discover TopologyTheory.

Local Open Scope Z_scope.

(** ** Mocked ids *)

Lemma generate_unhealthy_asic_id_eq c : 0 ≤ c < 2 ^ 32 → generate_unhealthy_asic_id c = c + 0xDEADDEAD * 2 ^ 32.
Proof.
  intros Hc. unfold generate_unhealthy_asic_id, UNHEALTHY_ASIC_ID_PREFIX.
  unfold u64 at 1. rewrite Z.mod_small by lia.
  change (u64 (Z.shiftl 0xDEADDEAD 32)) with (Z.shiftl 0xDEADDEAD 32).
  rewrite Z.shiftl_mul_pow2 by lia. symmetry. apply Z.add_nocarry_lor.
  apply Z.bits_inj'. intros n Hn. rewrite Z.land_spec, Z.bits_0. destruct (Z.lt_ge_cases n 32).
  - rewrite (Z.mul_pow2_bits_low 0xDEADDEAD 32 n) by lia. apply andb_false_r.
  - rewrite (Z.bits_above_log2 c n); [done|lia|]. destruct (Z.eq_dec c 0) as [->|]; [cbn; lia|].
    assert (Z.log2 c < 32) by (apply Z.log2_lt_pow2; lia). lia.
Qed.
Lemma mock_marked c : 0 ≤ c < 2 ^ 32 → is_marked_unhealthy (generate_unhealthy_asic_id c) = true.
Proof.
  intros Hc. rewrite generate_unhealthy_asic_id_eq by done. unfold is_marked_unhealthy, UNHEALTHY_ASIC_ID_PREFIX.
  rewrite Z.shiftr_div_pow2 by lia. rewrite Z.div_add by lia. by rewrite Z.div_small by lia.
Qed.
Lemma mock_inj c c' : 0 ≤ c < 2 ^ 32 → 0 ≤ c' < 2 ^ 32 → generate_unhealthy_asic_id c = generate_unhealthy_asic_id c' → c = c'.
Proof. intros ??. rewrite !generate_unhealthy_asic_id_eq by done. lia. Qed.

(** ** Maps *)

Lemma map_insert_new_fresh {V} (k : Z) (v : V) (m : gmap Z V) : m !! k = None → map_insert_new k v m = <[k := v]> m.
Proof. unfold map_insert_new. by intros ->. Qed.
Lemma dom_map_insert_new {V} (k : Z) (v : V) (m : gmap Z V) : dom (map_insert_new k v m) = {[k]} ∪ dom m.
Proof.
  unfold map_insert_new. destruct (m !! k) eqn:Hk; [|apply dom_insert_L].
  apply elem_of_dom_2 in Hk. set_solver.
Qed.
Lemma size_dom_delete {V} (m : gmap Z V) i : is_Some (m !! i) → size (dom m) = S (size (dom (delete i m))).
Proof.
  intros [v Hv]. rewrite !size_dom. rewrite <- (insert_delete_id m i v) at 1 by done.
  apply map_size_insert_None, lookup_delete_eq.
Qed.
Lemma begin_Some {V} (m : gmap Z V) k v : begin m = Some (k, v) → m !! k = Some v.
Proof.
  unfold begin, in_order. intros Hb. apply elem_of_map_to_list. rewrite <- (merge_sort_Permutation key_le).
  destruct (merge_sort key_le _); [done|]. injection Hb as ->. by left.
Qed.
Lemma begin_None {V} (m : gmap Z V) : begin m = None → m = ∅.
Proof.
  unfold begin, in_order. intros Hb. apply map_to_list_empty_iff. apply Permutation_nil_r.
  rewrite <- (merge_sort_Permutation key_le). by destruct (merge_sort key_le _).
Qed.

(** ** The invariant *)

Section walk.
Context `{TopologyArch} (E : error → Prop) (U : gset Z) `{!DevicesLaws E} `{!TopologyLaws E U}.
Context (options : TopologyDiscoveryOptions).
(** The chips that were connected, and the boards they are on. *)
Context (I B : gset Z).

Definition placed (t : TopologyDiscovery) (k : Z) : Prop := is_Some (devices_to_discover t !! k) ∨ is_Some (devices t !! k).
Definition is_device (t : TopologyDiscovery) (k : Z) (d : TTDevice) : Prop :=
  devices_to_discover t !! k = Some d ∨ devices t !! k = Some d.

Record walking (D : gset Z) (t : TopologyDiscovery) : Prop := {
  w_initial : I ⊆ D;
  w_gateways : dom (remote_asic_id_to_mmio_device_id t) = D;
  w_active : dom (active_eth_channels_per_device t) = D;
  w_gateway : ∀ k g, remote_asic_id_to_mmio_device_id t !! k = Some g → g ∈ I ∧ (g = k ∨ is_Some (devices t !! g));
  w_seen : ∀ k, placed t k → is_marked_unhealthy k = false → k ∈ D;
  w_kept : ∀ k, k ∈ I → placed t k;
  w_disjoint : ∀ k, is_Some (devices_to_discover t !! k) → devices t !! k = None;
  w_chips : ∀ k, k ∈ D ∨ placed t k → is_Some (asic_id_to_chip_id t !! k);
  w_below : ∀ k c, asic_id_to_chip_id t !! k = Some c → 0 ≤ c < next_chip_id t;
  w_marked : ∀ k, is_Some (asic_id_to_chip_id t !! k) → is_marked_unhealthy k = true →
    ∃ c, 0 ≤ c < next_chip_id t ∧ k = generate_unhealthy_asic_id c;
  w_genuine : ∀ k, is_Some (asic_id_to_chip_id t !! k) → is_marked_unhealthy k = false → k ∈ D;
  w_injective : ∀ k k' c, placed t k → placed t k' →
    asic_id_to_chip_id t !! k = Some c → asic_id_to_chip_id t !! k' = Some c → k = k';
  w_next : 0 ≤ next_chip_id t ∧ next_chip_id t + Z.of_nat (size (U ∖ D)) < 2 ^ 31;
  w_arch : ∀ k d, is_device t k d → get_topology_arch = BLACKHOLE → dev_arch d = BLACKHOLE;
  w_links : ∀ l, l ∈ eth_links t → l.1.1 ∈ D ∧ l.2.1 ∈ D;
  w_remote_links : ∀ l, l ∈ eth_links_to_remote t → l.1.1 ∈ D;
  w_opened : get_topology_arch = BLACKHOLE → D = I;
  w_6u : get_topology_arch ≠ BLACKHOLE → is_running_on_6u t = false;
  w_boards : board_ids t = B
}.

(** The chips left to visit, and to see. *)
Definition measure (D : gset Z) (t : TopologyDiscovery) : nat := size (dom (devices_to_discover t)) + size (U ∖ D).

Lemma placed_same t t' k : same t t' → placed t' k ↔ placed t k.
Proof. intros Hs. unfold placed. by rewrite (same_todo _ _ Hs), (same_devices _ _ Hs). Qed.
Lemma is_device_same t t' k d : same t t' → is_device t' k d ↔ is_device t k d.
Proof. intros Hs. unfold is_device. by rewrite (same_todo _ _ Hs), (same_devices _ _ Hs). Qed.

Lemma walking_same D t t' : walking D t → same t t' → walking D t'.
Proof.
  intros [] [Et Ed Ec El Er Eb Ea Eg E6 En].
  split; unfold placed, is_device in *; rewrite ?Et, ?Ed, ?Ec, ?El, ?Er, ?Eb, ?Ea, ?Eg, ?E6, ?En; done.
Qed.
Lemma measure_same D t t' : same t t' → measure D t' = measure D t.
Proof. intros Hs. unfold measure. by rewrite (same_todo _ _ Hs). Qed.

(** ** Steps that keep it *)

Lemma walking_routes D t active :
  walking D t → dom active = D → walking D (upd_routes active (remote_asic_id_to_mmio_device_id t) t).
Proof. intros [] Ha. by split. Qed.
Lemma walking_push D t links remote :
  walking D t → (∀ l, l ∈ links → l.1.1 ∈ D ∧ l.2.1 ∈ D) → (∀ l, l ∈ remote → l.1.1 ∈ D) →
  walking D (upd_links (eth_coords t) links remote t).
Proof. intros [] Hl Hr. by split. Qed.

(** Moving the first chip of the queue. *)
Definition dequeued (asic_id : Z) (d : TTDevice) (t : TopologyDiscovery) : TopologyDiscovery :=
  upd_devices (delete asic_id (devices_to_discover t)) (map_insert_new asic_id d (devices t)) t.
Lemma dequeued_device asic_id d t k d' :
  devices_to_discover t !! asic_id = Some d → devices t !! asic_id = None →
  is_device (dequeued asic_id d t) k d' ↔ is_device t k d'.
Proof.
  intros Ht Hd. unfold is_device, dequeued. cbn. rewrite map_insert_new_fresh by done.
  destruct (decide (asic_id = k)) as [<-|Hne].
  - rewrite lookup_delete_eq, lookup_insert_eq, Ht, Hd. naive_solver.
  - by rewrite lookup_delete_ne, lookup_insert_ne by done.
Qed.
Lemma placed_device t k : placed t k ↔ ∃ d, is_device t k d.
Proof. unfold placed, is_device, is_Some. naive_solver. Qed.

Lemma walking_dequeued D t asic_id d :
  walking D t → devices_to_discover t !! asic_id = Some d → walking D (dequeued asic_id d t).
Proof.
  intros Hw Ht. assert (devices t !! asic_id = None) as Hd by (apply (w_disjoint _ _ Hw); by eexists).
  assert (∀ k d', is_device (dequeued asic_id d t) k d' ↔ is_device t k d') as His by (intros; by apply dequeued_device).
  assert (∀ k, placed (dequeued asic_id d t) k ↔ placed t k) as Hp by (intros k; rewrite !placed_device; by setoid_rewrite His).
  assert (∀ k, is_Some (devices t !! k) → is_Some (devices (dequeued asic_id d t) !! k)) as Hmono.
  { intros k. unfold dequeued. cbn. rewrite map_insert_new_fresh by done. intros [v Hv].
    destruct (decide (asic_id = k)) as [<-|]; [congruence|]. rewrite lookup_insert_ne by done. by eexists. }
  destruct Hw. split; try done.
  - intros k g Hg. destruct (w_gateway0 k g Hg) as [? [?|?]]; auto.
  - intros k. rewrite Hp. auto.
  - intros k. rewrite Hp. auto.
  - intros k. unfold dequeued. cbn. rewrite map_insert_new_fresh by done. destruct (decide (asic_id = k)) as [<-|].
    + rewrite lookup_delete_eq. by intros [].
    + rewrite lookup_delete_ne, lookup_insert_ne by done. auto.
  - intros k. rewrite Hp. auto.
  - intros k k' c. rewrite !Hp. apply w_injective0.
  - intros k d'. rewrite His. apply w_arch0.
Qed.

(** A chip opened: kept under its own id, or under the mocked one. *)
Record opened (remote gateway key : Z) (d : TTDevice) (t t' : TopologyDiscovery) : Prop := {
  o_todo : devices_to_discover t' = <[key := d]> (devices_to_discover t);
  o_devices : devices t' = devices t;
  o_chips : asic_id_to_chip_id t' = <[remote := next_chip_id t]> (<[key := next_chip_id t]> (asic_id_to_chip_id t));
  o_next : next_chip_id t' = next_chip_id t + 1;
  o_active : active_eth_channels_per_device t' = <[remote := ∅]> (active_eth_channels_per_device t);
  o_gateways : remote_asic_id_to_mmio_device_id t' = <[remote := gateway]> (remote_asic_id_to_mmio_device_id t);
  o_links : eth_links t' = eth_links t;
  o_remote : eth_links_to_remote t' = eth_links_to_remote t;
  o_boards : board_ids t' = board_ids t;
  o_6u : is_running_on_6u t' = is_running_on_6u t;
  o_key : key = remote ∨ key = generate_unhealthy_asic_id (next_chip_id t)
}.
Context (U_genuine : ∀ u, u ∈ U → is_marked_unhealthy u = false).

Lemma unseen_chip_id D t k : walking D t → is_marked_unhealthy k = false → k ∉ D → asic_id_to_chip_id t !! k = None.
Proof.
  intros Hw Hk Hn. destruct (asic_id_to_chip_id t !! k) as [c|] eqn:Hc; [|done]. exfalso. apply Hn.
  apply (w_genuine _ _ Hw); [by eexists|done].
Qed.
Lemma next_mock D t : walking D t → asic_id_to_chip_id t !! generate_unhealthy_asic_id (next_chip_id t) = None.
Proof.
  intros Hw. destruct (asic_id_to_chip_id t !! _) as [c|] eqn:Hc; [|done]. exfalso.
  pose proof (w_next _ _ Hw). destruct (w_marked _ _ Hw _ (mk_is_Some _ _ Hc)) as (c' & Hc' & Heq); [apply mock_marked; lia|].
  apply mock_inj in Heq; lia.
Qed.
Lemma not_placed D t k : walking D t → asic_id_to_chip_id t !! k = None → devices_to_discover t !! k = None ∧ devices t !! k = None.
Proof.
  intros Hw Hk. assert (¬ placed t k) as Hp.
  { intros Hp. destruct (w_chips _ _ Hw k (or_intror Hp)). congruence. }
  unfold placed in Hp. split; apply eq_None_not_Some; tauto.
Qed.
Lemma key_fresh D t remote key :
  walking D t → remote ∈ U → remote ∉ D → key = remote ∨ key = generate_unhealthy_asic_id (next_chip_id t) →
  asic_id_to_chip_id t !! key = None.
Proof. intros Hw Hu Hn [->| ->]; [eapply unseen_chip_id; eauto|by eapply next_mock]. Qed.

Lemma opened_device D t t' remote gateway key d k d' :
  walking D t → asic_id_to_chip_id t !! key = None → opened remote gateway key d t t' →
  is_device t' k d' ↔ (k = key ∧ d' = d) ∨ is_device t k d'.
Proof.
  intros Hw Hk Ho. unfold is_device. rewrite (o_todo _ _ _ _ _ _ Ho), (o_devices _ _ _ _ _ _ Ho).
  destruct (not_placed D t key Hw Hk) as [Ht Hd]. destruct (decide (key = k)) as [<-|Hne].
  - rewrite lookup_insert_eq, Ht, Hd. naive_solver.
  - rewrite lookup_insert_ne by done. naive_solver.
Qed.

Lemma walking_opened D t t' remote gateway key d :
  walking D t → get_topology_arch ≠ BLACKHOLE → remote ∈ U → remote ∉ D →
  gateway ∈ I → is_Some (devices t !! gateway) → opened remote gateway key d t t' →
  walking ({[remote]} ∪ D) t' ∧ (measure ({[remote]} ∪ D) t' ≤ measure D t)%nat.
Proof.
  intros Hw Ha Hu Hn Hg Hgd Ho. pose proof (key_fresh D t remote key Hw Hu Hn (o_key _ _ _ _ _ _ Ho)) as Hkey.
  pose proof (unseen_chip_id D t remote Hw (U_genuine _ Hu) Hn) as Hremote.
  pose proof (λ k d', opened_device D t t' remote gateway key d k d' Hw Hkey Ho) as His.
  assert (∀ k, placed t' k ↔ k = key ∨ placed t k) as Hp.
  { intros k. rewrite !placed_device. setoid_rewrite His. naive_solver. }
  destruct (not_placed D t key Hw Hkey) as [Htk Hdk].
  assert (U ∖ D = {[remote]} ∪ U ∖ ({[remote]} ∪ D)) as HU.
  { apply set_eq. intros x. rewrite elem_of_union, !elem_of_difference, elem_of_union, elem_of_singleton.
    destruct (decide (x = remote)) as [->|]; naive_solver. }
  assert (size (U ∖ D) = S (size (U ∖ ({[remote]} ∪ D)))) as Hsize.
  { rewrite HU, size_union, size_singleton; [lia|set_solver]. }
  pose proof (w_next _ _ Hw) as Hnext.
  assert (∀ k c, asic_id_to_chip_id t' !! k = Some c →
    ((k = remote ∨ k = key) ∧ c = next_chip_id t) ∨ (k ≠ remote ∧ k ≠ key ∧ asic_id_to_chip_id t !! k = Some c)) as Hids.
  { intros k c. rewrite (o_chips _ _ _ _ _ _ Ho). destruct (decide (remote = k)) as [<-|].
    - rewrite lookup_insert_eq. naive_solver.
    - rewrite lookup_insert_ne by done. destruct (decide (key = k)) as [<-|].
      + rewrite lookup_insert_eq. naive_solver.
      + rewrite lookup_insert_ne by done. naive_solver. }
  split.
  2: { unfold measure. rewrite (o_todo _ _ _ _ _ _ Ho), dom_insert_L, Hsize, size_union, size_singleton; [lia|].
       apply disjoint_singleton_l, not_elem_of_dom, Htk. }
  destruct Ho as [Et Ed Ec En Eact Eg El Er Eb E6 Hk]. destruct Hw. split; rewrite ?Eact, ?Eg, ?El, ?Er, ?Eb, ?E6, ?En.
  - set_solver.
  - rewrite dom_insert_L. congruence.
  - rewrite dom_insert_L. congruence.
  - intros k g. rewrite Ed. destruct (decide (remote = k)) as [<-|].
    + rewrite lookup_insert_eq. intros [= <-]. auto.
    + rewrite lookup_insert_ne by done. apply w_gateway0.
  - intros k [->|Hk']%Hp Hm.
    + destruct Hk as [->| ->]; [set_solver|]. rewrite mock_marked in Hm by lia. done.
    + apply elem_of_union_r. auto.
  - intros k Hk'. apply Hp. auto.
  - intros k. rewrite Et, Ed. destruct (decide (key = k)) as [<-|]; [done|]. rewrite lookup_insert_ne by done. auto.
  - intros k Hor. rewrite Ec. destruct (decide (remote = k)) as [<-|]; [rewrite lookup_insert_eq; by eexists|].
    rewrite lookup_insert_ne by done. destruct (decide (key = k)) as [<-|]; [rewrite lookup_insert_eq; by eexists|].
    rewrite lookup_insert_ne by done. apply w_chips0. rewrite Hp in Hor. set_solver.
  - intros k c Hc%Hids. destruct Hc as [[_ ->]|(_ & _ & Hc)]; [lia|]. specialize (w_below0 k c Hc). lia.
  - intros k [c Hc%Hids] Hm. destruct Hc as [[[->| ->] ->]|(_ & _ & Hc)].
    + rewrite U_genuine in Hm by done. done.
    + destruct Hk as [->| ->]; [rewrite U_genuine in Hm by done; done|]. exists (next_chip_id t). split; [lia|done].
    + destruct (w_marked0 k (mk_is_Some _ _ Hc) Hm) as (c' & ? & ->). exists c'. split; [lia|done].
  - intros k [c Hc%Hids] Hm. destruct Hc as [[[->| ->] ->]|(_ & _ & Hc)].
    + set_solver.
    + destruct Hk as [->| ->]; [set_solver|]. rewrite mock_marked in Hm by lia. done.
    + apply elem_of_union_r. eapply w_genuine0; [by eexists|done].
  - assert (∀ k c, placed t k → asic_id_to_chip_id t' !! k = Some c → k ≠ key ∧ asic_id_to_chip_id t !! k = Some c) as Hold.
    { intros k c Hpk Hc%Hids. destruct (w_chips0 k (or_intror Hpk)) as [c' Hc'].
      destruct Hc as [[[->| ->] ->]|(_ & ? & Hc)]; [congruence|congruence|done]. }
    assert (∀ c, asic_id_to_chip_id t' !! key = Some c → c = next_chip_id t) as Hnew.
    { intros c Hc%Hids. naive_solver. }
    intros k k' c [->|Hpk]%Hp [->|Hpk']%Hp Hc Hc'; [done| | |].
    + apply Hnew in Hc as ->. destruct (Hold _ _ Hpk' Hc') as [_ Hb%w_below0]. lia.
    + apply Hnew in Hc' as ->. destruct (Hold _ _ Hpk Hc) as [_ Hb%w_below0]. lia.
    + destruct (Hold _ _ Hpk Hc), (Hold _ _ Hpk' Hc'). by eapply w_injective0.
  - lia.
  - done.
  - intros l Hl. destruct (w_links0 l Hl). set_solver.
  - intros l Hl. specialize (w_remote_links0 l Hl). set_solver.
  - done.
  - done.
  - done.
Qed.

(** ** Networks *)

(** What the chips tell of themselves and of the other ends of their links. *)
Record Network := {
  is_chip : TTDevice → Z → Prop;
  chip_cores : Z → list CoreCoord;
  chip_channel : Z → CoreCoord → Z;
  usable : Z → CoreCoord → bool;
  peer : Z → CoreCoord → Z;
  far_board : Z → CoreCoord → Z;
  far_channel : Z → CoreCoord → Z;
  far_coord : Z → CoreCoord → option EthCoord
}.
(** The result, if there is one, is this. *)
Definition tells_at {A} (m : T A) (v : A) (t : TopologyDiscovery) (b : Bus) : Prop :=
  match m t b with Some (Ok a, _, _) => a = v | _ => True end.
Definition tells {A} (m : T A) (v : A) : Prop := ∀ t b, tells_at m v t b.

Context (beats : nat) (Hbeats : (enough_beats ≤ beats)%nat).

(** The chips answer so, whenever they are asked; none of them is a Blackhole,
    which opens no remote chips, and those that are opened can be initialised. *)
Record honest (N : Network) : Prop := {
  h_topology : get_topology_arch ≠ BLACKHOLE;
  h_arch : ∀ d i, is_chip N d i → dev_arch d ≠ BLACKHOLE;
  h_soc : ∀ d i b soc cores, is_chip N d i → (get_soc_descriptor d b).1 = Ok soc →
    Soc.get_cores soc ETH NOC0 None = Ok cores → cores = chip_cores N i;
  h_channel : ∀ d i b soc c n, is_chip N d i → (get_soc_descriptor d b).1 = Ok soc → c ∈ chip_cores N i →
    Soc.get_eth_channel_for_core soc c = Ok n → n = chip_channel N i c;
  h_usable : ∀ d i c, is_chip N d i → c ∈ chip_cores N i → tells (link_usable options beats d i c) (usable N i c);
  h_peer : ∀ d i c, is_chip N d i → c ∈ chip_cores N i → usable N i c = true → tells (get_remote_asic_id d c) (peer N i c);
  h_board : ∀ d i c t b, is_chip N d i → c ∈ chip_cores N i → usable N i c = true → is_running_on_6u t = false →
    tells_at (get_remote_board_id d c) (far_board N i c) t b;
  h_far : ∀ d i c, is_chip N d i → c ∈ chip_cores N i → usable N i c = true → tells (get_remote_eth_channel d c) (far_channel N i c);
  h_coord : ∀ d i c, is_chip N d i → c ∈ chip_cores N i → usable N i c = true → tells (get_remote_eth_coord d c) (far_coord N i c);
  h_create : ∀ i c gateway channels t b, c ∈ chip_cores N i → usable N i c = true →
    match create_remote_device (far_coord N i c) gateway channels t b with
    | Some (Ok (Some d), _, _) => is_chip N d (peer N i c) | _ => True end;
  h_init : ∀ d i chip_id, is_chip N d i → tells (init_device options d chip_id ARC_STARTUP_TIMEOUT) true;
  h_leads : ∀ i c, c ∈ chip_cores N i → usable N i c = true → peer N i c ∈ U
}.

(** A link that is followed, and the entry it makes. *)
Definition followed (N : Network) (i : Z) (c : CoreCoord) : Prop :=
  c ∈ chip_cores N i ∧ usable N i c = true ∧ far_board N i c ∈ B.
Definition link_of (N : Network) (i : Z) (c : CoreCoord) : EthEnd * EthEnd :=
  ((i, chip_channel N i c), (peer N i c, far_channel N i c)).
(** The chips connected, and those behind the links of healthy ones. *)
Inductive reachable (N : Network) : Z → Prop :=
  | reach_initial i : i ∈ I → reachable N i
  | reach_link i c : reachable N i → is_marked_unhealthy i = false → followed N i c → reachable N (peer N i c).

Record mapped (N : Network) (D : gset Z) (t : TopologyDiscovery) : Prop := {
  m_chip : ∀ k d, is_device t k d → is_marked_unhealthy k = false → is_chip N d k;
  m_placed : ∀ k, placed t k ↔ k ∈ D;
  m_reach : ∀ k, k ∈ D → reachable N k;
  m_links : ∀ l, l ∈ eth_links t → ∃ i c, followed N i c ∧ l = link_of N i c
}.

Lemma mapped_same N D t t' : mapped N D t → same t t' → mapped N D t'.
Proof.
  intros [] Hs. split.
  - intros k d. rewrite (is_device_same t t') by done. auto.
  - intros k. by rewrite (placed_same t t').
  - done.
  - by rewrite (same_links _ _ Hs).
Qed.

(** A calm computation, with what it tells under a condition. *)
Lemma told {A} (P : Prop) (m : T A) v (Q : Post A) t b :
  calm E m → (P → tells_at m v t b) →
  (∀ a t' b', same t t' → (P → a = v) → Q (Ok a) t' b') → (∀ e t' b', E e → Q (Err e) t' b') → wp m Q t b.
Proof.
  intros Hm Ht HQ HE. specialize (Hm t b). unfold wp in *. unfold tells_at in Ht.
  destruct (m t b) as [[[[a|e] t'] b']|]; [|apply HE|done].
  - apply HQ; [apply Hm|exact Ht].
  - apply (proj1 (proj2 Hm)). done.
Qed.
(** The same without what it tells. *)
Lemma calm_cases {A} (m : T A) (Q : Post A) t b :
  calm E m → (∀ a t' b', same t t' → Q (Ok a) t' b') → (∀ e t' b', E e → Q (Err e) t' b') → wp m Q t b.
Proof.
  intros Hm HQ HE. eapply calm_wp; [done|]. intros [a|e] t' b' Hs He Hc; [by apply HQ|by apply HE, He].
Qed.

Lemma create_wp N c i gateway channels coord (P : Prop) (Q : Post (option TTDevice)) t b :
  get_topology_arch ≠ BLACKHOLE → is_running_on_6u t = false → (P → honest N) →
  (P → c ∈ chip_cores N i ∧ usable N i c = true ∧ coord = far_coord N i c) →
  (∀ d t' b', same t t' → (P → is_chip N d (peer N i c)) → Q (Ok (Some d)) t' b') → (∀ e t' b', E e → Q (Err e) t' b') →
  wp (create_remote_device coord gateway channels) Q t b.
Proof.
  intros Ha H6 HN HP HQ HE. pose proof (calm_create E U coord gateway channels t b) as Hm.
  pose proof (create_some E U coord gateway channels t b Ha H6) as Hsome. unfold wp in *.
  assert (P → match create_remote_device coord gateway channels t b with
    | Some (Ok (Some d), _, _) => is_chip N d (peer N i c) | _ => True end) as Hc.
  { intros p. destruct (HP p) as (? & ? & ->). by apply (h_create N (HN p)). }
  destruct (create_remote_device coord gateway channels t b) as [[[[[d|]|e] t'] b']|]; try done.
  - apply HQ; [apply Hm|done].
  - apply HE, (proj1 (proj2 Hm)). done.
Qed.

(** After [get_next_chip_id]. *)
Definition took_id (t : TopologyDiscovery) : TopologyDiscovery := upd_chip_ids (asic_id_to_chip_id t) (next_chip_id t + 1) t.
Lemma took_id_same t t' : same t t' → same (took_id t) (took_id t').
Proof. intros []. split; cbn; congruence. Qed.

(** The bookkeeping of a chip that was opened with the next chip id. *)
Lemma opened_intro D t t' remote gateway key d :
  walking D t → remote ∈ U → remote ∉ D → key = remote ∨ key = generate_unhealthy_asic_id (next_chip_id t) →
  same (took_id t) t' →
  let chip := next_chip_id t in
  let enqueued := upd_devices (map_insert_new key d (devices_to_discover t')) (devices t') t' in
  let ids := map_insert_new remote chip (if decide (key = remote) then asic_id_to_chip_id enqueued
                                         else map_insert_new key chip (asic_id_to_chip_id enqueued)) in
  let numbered := upd_chip_ids ids (next_chip_id enqueued) enqueued in
  opened remote gateway key d t
    (upd_routes (map_insert_new remote ∅ (active_eth_channels_per_device numbered))
       (map_insert_new remote gateway (remote_asic_id_to_mmio_device_id numbered)) numbered).
Proof.
  intros Hw Hu Hn Hkey [Et Ed Ec El Er Eb Ea Eg E6 En]. cbn in Et, Ed, Ec, El, Er, Eb, Ea, Eg, E6, En. cbn zeta.
  assert (asic_id_to_chip_id t !! remote = None) as Hremote by (eapply unseen_chip_id; eauto).
  assert (asic_id_to_chip_id t !! key = None) as Hk by (by eapply key_fresh).
  destruct (not_placed D t key Hw Hk) as [Htk Hdk].
  assert (active_eth_channels_per_device t !! remote = None) as Hact.
  { apply not_elem_of_dom. by rewrite (w_active _ _ Hw). }
  assert (remote_asic_id_to_mmio_device_id t !! remote = None) as Hgw.
  { apply not_elem_of_dom. by rewrite (w_gateways _ _ Hw). }
  split; cbn; rewrite ?Et, ?Ed, ?Ec, ?Ea, ?Eg; auto using map_insert_new_fresh.
  case_decide as Hcase.
  - subst key. rewrite map_insert_new_fresh by done. by rewrite insert_insert_eq.
  - rewrite (map_insert_new_fresh key) by done. apply map_insert_new_fresh. by rewrite lookup_insert_ne.
Qed.

Lemma open_remote_wp N (P : Prop) D d i c t b :
  walking D t → get_topology_arch ≠ BLACKHOLE → is_Some (devices t !! i) → i ∈ D → (P → honest N) →
  (P → is_chip N d i ∧ c ∈ chip_cores N i ∧ usable N i c = true) → ∀ remote, remote ∈ U → remote ∉ D → (P → remote = peer N i c) →
  wp (open_remote options d i remote c) (λ r t' _, match r with Err e => E e | Ok _ =>
    ∃ key gateway d', opened remote gateway key d' t t' ∧ gateway ∈ I ∧ is_Some (devices t !! gateway)
                      ∧ (P → key = remote ∧ is_chip N d' remote) end) t b.
Proof.
  intros Hw Ha Hdi Hi HN HP remote Hu Hn Hpeer. unfold open_remote. apply wp_get_bind.
  assert (is_Some (remote_asic_id_to_mmio_device_id t !! i)) as [g Hg] by (apply elem_of_dom; by rewrite (w_gateways _ _ Hw)).
  destruct (w_gateway _ _ Hw i g Hg) as [HgI Hgd].
  assert (is_Some (devices t !! g)) as [gd Hgd'] by (destruct Hgd as [->|]; done).
  assert (is_Some (active_eth_channels_per_device t !! g)) as [ch Hch].
  { apply elem_of_dom. rewrite (w_active _ _ Hw). by apply (w_initial _ _ Hw). }
  apply walk_wp_bind. eapply wp_at_key; [done|]. apply walk_wp_bind.
  eapply (told P _ (far_coord N i c)); [apply (calm_remote_coord E U)| | |done].
  { intros p. destruct (HP p) as (? & ? & ?). by eapply (h_coord N (HN p)). }
  intros coord t1 b1 Hs1 Hcoord. apply wp_get_bind. apply walk_wp_bind. eapply wp_at_key; [by rewrite (same_devices _ _ Hs1)|].
  apply walk_wp_bind. eapply wp_at_key; [by rewrite (same_active _ _ Hs1)|]. apply walk_wp_bind.
  eapply (create_wp N c i _ _ _ P); [done| |done| | |done].
  { rewrite (same_6u _ _ Hs1). by apply (w_6u _ _ Hw). }
  { intros p. destruct (HP p) as (? & ? & ?). auto. }
  intros d' t2 b2 Hs2 Hchip. apply walk_wp_bind. unfold get_next_chip_id. apply wp_get_bind, wp_modify_bind, walk_wp_ret.
  set (chip := next_chip_id t2).
  assert (chip = next_chip_id t) as Hnext by (unfold chip; rewrite (same_next _ _ Hs2), (same_next _ _ Hs1); done).
  apply walk_wp_bind. eapply (told P _ true); [eapply calm_init_device; done| | |done].
  { intros p. eapply (h_init N (HN p)). by apply Hchip. }
  assert (same t t2) as Hs by (by etrans).
  intros healthy t3 b3 Hs3 Hhealthy. cbn beta iota. rewrite Hnext.
  assert (same (took_id t) t3) as Hs23 by (etrans; [by apply took_id_same|done]).
  pose proof (mock_marked (next_chip_id t)) as Hmk. pose proof (w_next _ _ Hw) as Hbound.
  apply walk_wp_bind. destruct healthy.
  - apply walk_wp_bind. eapply calm_cases; [|intros _ t4 b4 Hs4|done].
    { destruct (wait_on_ethernet_link_training options); [by eapply calm_wait_training|by apply calm_ret]. }
    apply wp_modify. unfold emplace_chip_id. apply wp_modify_bind, wp_modify. exists remote, g, d'.
    split; [|split; [done|split; [by eexists|]]].
    + pose proof (opened_intro D t t4 remote g remote d' Hw Hu Hn (or_introl eq_refl)) as Ho. cbn zeta in Ho.
      rewrite decide_True in Ho by done. apply Ho. by etrans.
    + intros p. rewrite (Hpeer p). auto.
  - unfold enqueue at 1, emplace_chip_id at 1. apply wp_modify_bind, wp_modify. cbn beta.
    unfold emplace_chip_id. apply wp_modify_bind, wp_modify. exists (generate_unhealthy_asic_id (next_chip_id t)), g, d'.
    split; [|split; [done|split; [by eexists|]]].
    + pose proof (opened_intro D t t3 remote g (generate_unhealthy_asic_id (next_chip_id t)) d' Hw Hu Hn (or_intror eq_refl) Hs23) as Ho.
      cbn zeta in Ho. rewrite decide_False in Ho; [exact Ho|]. intros <-. rewrite U_genuine in Hmk by done. lia.
    + intros p. by specialize (Hhealthy p).
Qed.

(** ** One core *)

(** [d] is chip [i] of an honest network, and the link of core [c] is used. *)
Record at_link (N : Network) (d : TTDevice) (i : Z) (c : CoreCoord) (channel : Z) : Prop := {
  al_honest : honest N;
  al_chip : is_chip N d i;
  al_core : c ∈ chip_cores N i;
  al_usable : usable N i c = true;
  al_genuine : is_marked_unhealthy i = false;
  al_channel : channel = chip_channel N i c
}.

(** What one or several links do: in a mapped network the map grows, and
    [P D D' t'] holds. *)
Definition grown (N : Network) (A : Prop) (P : gset Z → TopologyDiscovery → Prop) (D : gset Z) (t : TopologyDiscovery)
    (r : result (gset Z)) (t' : TopologyDiscovery) : Prop :=
  match r with
  | Err e => E e
  | Ok D' =>
      walking D' t' ∧ (measure D' t' ≤ measure D t)%nat ∧ devices t' = devices t ∧ D ⊆ D' ∧
      (A → mapped N D t → mapped N D' t' ∧ (∀ l, l ∈ eth_links t → l ∈ eth_links t') ∧ P D' t')
  end.
(** The link is on the map, or its chip is now seen for the first time. *)
Definition on_map (N : Network) (i : Z) (c : CoreCoord) (D D' : gset Z) (t' : TopologyDiscovery) : Prop :=
  followed N i c → peer N i c ∈ D' ∧ (peer N i c ∈ D → link_of N i c ∈ eth_links t').

Lemma grown_same N A P D t t1 r t' : same t t1 → grown N A P D t1 r t' → grown N A P D t r t'.
Proof.
  intros Hs Hg. destruct r as [D'|e]; [|done]. destruct Hg as (? & ? & Hd & ? & Hp). split_and!; try done.
  - by rewrite <- (measure_same D t t1).
  - by rewrite Hd, (same_devices _ _ Hs).
  - intros a Hm. destruct (Hp a) as (? & Hl & ?); [by eapply mapped_same|]. split_and!; try done.
    intros l. rewrite <- (same_links _ _ Hs). auto.
Qed.

Lemma mapped_routes N D t active gateways : mapped N D t → mapped N D (upd_routes active gateways t).
Proof. intros []. by split. Qed.
Lemma mapped_remote_links N D t remote : mapped N D t → mapped N D (upd_links (eth_coords t) (eth_links t) remote t).
Proof. intros []. by split. Qed.

(** A link to a chip outside. *)
Lemma push_remote_grown N A D t i channel far c :
  walking D t → i ∈ D → (A → far_board N i c ∉ B) →
  grown N A (on_map N i c D) D t (Ok D) (upd_links (eth_coords t) (eth_links t) (eth_links_to_remote t ++ [((i, channel), far)]) t).
Proof.
  intros Hw Hi Hb. split_and!; try done.
  - apply walking_push; [done|by apply w_links|]. intros l. rewrite elem_of_app, list_elem_of_singleton.
    intros [Hl| ->]; [by eapply w_remote_links|done].
  - intros a Hm. split_and!; [by apply mapped_remote_links|done|]. intros (_ & _ & Hf). by specialize (Hb a).
Qed.
(** A link to a chip seen before. *)
Lemma push_link_grown N A D t d i c channel far :
  walking D t → i ∈ D → (A → at_link N d i c channel ∧ far = (peer N i c, far_channel N i c)) → far.1 ∈ D →
  (A → far_board N i c ∈ B) →
  grown N A (on_map N i c D) D t (Ok D) (upd_links (eth_coords t) (eth_links t ++ [((i, channel), far)]) (eth_links_to_remote t) t).
Proof.
  intros Hw Hi Ha Hf Hb. split_and!; try done.
  - apply walking_push; [done| |by apply w_remote_links]. intros l. rewrite elem_of_app, list_elem_of_singleton.
    intros [Hl| ->]; [by eapply w_links|done].
  - intros a Hm. destruct (Ha a) as [Hal ->]. assert (((i, channel), (peer N i c, far_channel N i c)) = link_of N i c) as Heq.
    { unfold link_of. by rewrite (al_channel _ _ _ _ _ Hal). }
    rewrite Heq. split_and!.
    + destruct Hm. split; try done. cbn. intros l. rewrite elem_of_app, list_elem_of_singleton. intros [?| ->]; [auto|].
      exists i, c. split; [|done]. split_and!; [by eapply al_core|by eapply al_usable|auto].
    + intros l ?. apply elem_of_app. by left.
    + intros _. split; [done|]. intros _. apply elem_of_app. right. by apply list_elem_of_singleton.
Qed.
(** A link to a new chip. *)
Lemma opened_grown N A D t t' d i c channel remote gateway key d' :
  walking D t → get_topology_arch ≠ BLACKHOLE → i ∈ D → remote ∈ U → remote ∉ D → gateway ∈ I → is_Some (devices t !! gateway) →
  opened remote gateway key d' t t' →
  (A → at_link N d i c channel ∧ remote = peer N i c ∧ far_board N i c ∈ B ∧ key = remote ∧ is_chip N d' remote) →
  grown N A (on_map N i c D) D t (Ok ({[remote]} ∪ D)) t'.
Proof.
  intros Hw Harch Hi Hu Hn Hg Hgd Ho Ha. destruct (walking_opened D t t' remote gateway key d') as [Hw' Hmeas]; [done..|].
  pose proof (key_fresh D t remote key Hw Hu Hn (o_key _ _ _ _ _ _ Ho)) as Hkey.
  split_and!; [done|done|by eapply o_devices|set_solver|]. intros a Hm. destruct (Ha a) as (Hal & -> & Hb & -> & Hd').
  assert (followed N i c) as Hf by (split_and!; [by eapply al_core|by eapply al_usable|done]).
  pose proof (λ k d0, opened_device D t t' _ gateway _ d' k d0 Hw Hkey Ho) as His.
  split_and!.
  - destruct Hm. split.
    + intros k d0 [[-> ->]|?]%His; auto.
    + intros k. rewrite placed_device. setoid_rewrite His. setoid_rewrite placed_device in m_placed0.
      rewrite elem_of_union, elem_of_singleton, <- m_placed0. naive_solver.
    + intros k [->%elem_of_singleton|?]%elem_of_union; [|auto].
      apply reach_link; [by apply m_reach0|by eapply al_genuine|done].
    + rewrite (o_links _ _ _ _ _ _ Ho). done.
  - intros l. by rewrite (o_links _ _ _ _ _ _ Ho).
  - intros _. split; [set_solver|done].
Qed.

Lemma remote_asic_wp N (A : Prop) d i c channel (Q : Post Z) t b :
  (A → at_link N d i c channel) →
  (∀ remote t' b', same t t' → remote ∈ U → (A → remote = peer N i c) → Q (Ok remote) t' b') → (∀ e t' b', E e → Q (Err e) t' b') →
  wp (get_remote_asic_id d c) Q t b.
Proof.
  intros Ha HQ HE. pose proof (remote_asic_in E U d c t b) as Hin.
  assert (wp (get_remote_asic_id d c) (λ r t' b', match r with Ok a => same t t' ∧ (A → a = peer N i c) | Err e => E e end) t b) as Hw.
  { eapply (told A _ (peer N i c)); [apply (calm_remote_asic_id E U)| |by auto|by auto]. intros a. destruct (Ha a). by eapply h_peer. }
  eapply walk_wp_mono; [exact (walk_wp_and _ _ _ _ _ Hin Hw)|]. cbn beta. intros [remote|e] t' b' [Hr Hr']; [|by apply HE]. destruct Hr' as [Hs Hp].
  apply HQ; [done|by apply Hr|done].
Qed.
Lemma board_included_wp {B'} N (A : Prop) d i c channel (f : bool → T B') (Q : Post B') D t b :
  walking D t → (A → at_link N d i c channel) →
  (∀ included t' b', same t t' → (A → included = bool_decide (far_board N i c ∈ B)) → wp (f included) Q t' b') →
  (∀ e t' b', E e → Q (Err e) t' b') →
  wp (remote_board_id ← get_remote_board_id d c; included ← is_board_id_included remote_board_id; f included) Q t b.
Proof.
  intros Hw Ha HQ HE. apply walk_wp_bind. eapply (told A _ (far_board N i c)); [apply (calm_remote_board_id E U)| | |done].
  { intros a. destruct (Ha a) as [Hh ????]. eapply (h_board N Hh); [done..|]. apply (w_6u _ _ Hw), (h_topology N Hh). }
  intros board t1 b1 Hs Hb. apply walk_wp_bind. unfold is_board_id_included. apply wp_get_bind, walk_wp_ret. apply HQ; [done|].
  intros a. rewrite (Hb a), (same_boards _ _ Hs). by rewrite (w_boards _ _ Hw).
Qed.
Lemma record_active_wp D i channel (Q : Post unit) t b :
  walking D t → i ∈ D →
  (∀ active, let t' := upd_routes active (remote_asic_id_to_mmio_device_id t) t in walking D t' → Q (Ok tt) t' b) →
  wp (record_active i channel) Q t b.
Proof.
  intros Hw Hi HQ. unfold record_active. apply wp_get_bind, walk_wp_bind.
  assert (is_Some (active_eth_channels_per_device t !! i)) as [active Hact] by (apply elem_of_dom; by rewrite (w_active _ _ Hw)).
  eapply wp_at_key; [done|]. apply wp_modify. apply HQ, walking_routes; [done|].
  rewrite dom_insert_L, (w_active _ _ Hw). set_solver.
Qed.

Lemma follow_link_wp N A D d i c channel t b :
  walking D t → is_device t i d → is_Some (devices t !! i) → is_marked_unhealthy i = false → (A → at_link N d i c channel) →
  wp (follow_link options d i c channel D) (λ r t' _, grown N A (on_map N i c D) D t r t') t b.
Proof.
  intros Hw Hdev Hdi Hgen Ha. assert (i ∈ D) as Hi by (apply (w_seen _ _ Hw); [by right|done]).
  unfold follow_link. apply walk_wp_bind. eapply record_active_wp; [done..|]. intros active t0 Hw0.
  assert (∀ r t', grown N A (on_map N i c D) D t0 r t' → grown N A (on_map N i c D) D t r t') as Hback.
  { intros [D'|e] t'; [|done]. intros (? & ? & ? & ? & Hp). split_and!; [done..|]. intros a Hm. apply (Hp a). by apply mapped_routes. }
  assert (dev_arch d = BLACKHOLE → A → False) as HA by (intros Hd a; destruct (Ha a) as [Hh ?]; by eapply (h_arch N Hh)).
  assert (get_topology_arch = BLACKHOLE → dev_arch d = BLACKHOLE) as Harch by (eapply w_arch; done).
  assert (is_Some (devices t0 !! i)) as Hdi0 by done. clearbody t0. clear Hw Hdev Hdi.
  cbn beta iota. apply walk_wp_bind. eapply (remote_asic_wp N A); [done| |intros; by apply Hback].
  intros remote t1 b1 Hs1 Hremote Hpeer. eapply board_included_wp; [by eapply walking_same|done| |intros; by apply Hback].
  intros included t2 b2 Hs2 Hincl. cbn beta. assert (same t0 t2) as Hs by (by etrans). clear Hs1 Hs2.
  assert (walking D t2) as Hw2 by (by eapply walking_same).
  destruct (negb included || _) eqn:Hout.
  { apply walk_wp_bind. eapply calm_cases; [apply (calm_logical_channel E U)| |intros; by apply Hback].
    intros far t3 b3 Hs3. apply wp_modify_bind, walk_wp_ret, Hback. eapply grown_same; [by etrans|].
    apply push_remote_grown; [by eapply walking_same|done|]. intros a. apply orb_true_iff in Hout as [Hn|Hbh].
    - rewrite (Hincl a) in Hn. apply negb_true_iff, bool_decide_eq_false in Hn. done.
    - apply andb_true_iff in Hbh as [Hbh%bool_decide_eq_true _]. by destruct (HA Hbh a). }
  apply orb_false_iff in Hout as [Hinc Hbh]. apply negb_false_iff in Hinc.
  assert (A → far_board N i c ∈ B) as HB.
  { intros a. specialize (Hincl a). rewrite Hinc in Hincl. by apply eq_sym, bool_decide_eq_true in Hincl. }
  destruct (bool_decide (remote ∉ D)) eqn:Hnew; [apply bool_decide_eq_true in Hnew|apply bool_decide_eq_false in Hnew].
  - apply walk_wp_bind. eapply walk_wp_mono.
    { eapply (open_remote_wp N A D d i c); try done.
      - intros Hb%Harch. rewrite bool_decide_eq_true_2 in Hbh by done. done.
      - rewrite (same_devices _ _ Hs). done.
      - intros a. by destruct (Ha a).
      - intros a. by destruct (Ha a). }
    cbn beta. intros [[]|e] t3 b3; [|intros He; by apply Hback]. intros (key & g & d' & Ho & Hg & Hgd & Hk).
    apply walk_wp_ret, Hback. eapply grown_same; [done|]. eapply opened_grown; try done.
    + intros Hb%Harch. rewrite bool_decide_eq_true_2 in Hbh by done. done.
    + intros a. destruct (Hk a). auto.
  - apply walk_wp_bind. eapply (told A _ (far_channel N i c)); [apply (calm_remote_channel E U)| | |intros; by apply Hback].
    { intros a. destruct (Ha a). by eapply h_far. }
    intros far t3 b3 Hs3 Hfar. apply wp_modify_bind, walk_wp_ret, Hback. eapply grown_same; [by etrans|].
    eapply push_link_grown; [by eapply walking_same|done| |by apply dec_stable|done].
    intros a. split; [auto|]. by rewrite (Hpeer a), (Hfar a).
Qed.

(** ** One chip *)

Lemma probe_wp N (A : Prop) D d i soc c t b :
  walking D t → is_device t i d → is_Some (devices t !! i) → is_marked_unhealthy i = false → soc_answers E soc →
  (A → honest N ∧ is_chip N d i ∧ c ∈ chip_cores N i ∧
       ∀ n, Soc.get_eth_channel_for_core soc c = Ok n → n = chip_channel N i c) →
  wp (probe options beats d i soc c D) (λ r t' _, grown N A (on_map N i c D) D t r t') t b.
Proof.
  intros Hw Hdev Hdi Hgen Hsoc Ha. unfold probe. apply walk_wp_bind, wp_tlift.
  pose proof (sa_channel E soc Hsoc c) as He. destruct (Soc.get_eth_channel_for_core soc c) as [n|e]; [|by apply He].
  apply walk_wp_bind. eapply (told A _ (usable N i c)); [by eapply calm_link_usable| |intros us t1 b1 Hs Hus|done].
  { intros a. destruct (Ha a) as (Hh & ? & ? & _). by apply (h_usable N Hh). }
  destruct us.
  - eapply walk_wp_mono; [eapply follow_link_wp|intros r t' b'; by apply grown_same]; try done.
    + by eapply walking_same.
    + by rewrite (is_device_same t t1).
    + by rewrite (same_devices _ _ Hs).
    + intros a. destruct (Ha a) as (? & ? & ? & Hn). specialize (Hus a). split; auto.
  - apply walk_wp_ret. eapply grown_same; [done|]. split_and!; [by eapply walking_same|done..|].
    intros a Hm. split_and!; [done..|]. intros (_ & Hu & _). by rewrite <- (Hus a) in Hu.
Qed.

Lemma grown_trans N A (P Q : gset Z → TopologyDiscovery → Prop) D t D1 t1 r t2 :
  grown N A P D t (Ok D1) t1 → grown N A Q D1 t1 r t2 →
  grown N A (λ D2 t2, P D1 t1 ∧ Q D2 t2 ∧ D ⊆ D1 ∧ D1 ⊆ D2 ∧ ∀ l, l ∈ eth_links t1 → l ∈ eth_links t2) D t r t2.
Proof.
  intros (? & ? & Hd1 & ? & Hp1) Hg. destruct r as [D2|e]; [|done]. destruct Hg as (? & ? & Hd2 & ? & Hp2).
  split_and!; [done|lia|congruence|set_solver|]. intros a Hm. destruct (Hp1 a Hm) as (Hm1 & ? & ?).
  destruct (Hp2 a Hm1) as (? & ? & ?). split_and!; auto.
Qed.
Lemma grown_mono N A (P Q : gset Z → TopologyDiscovery → Prop) D t r t' :
  grown N A P D t r t' → (∀ D', P D' t' → Q D' t') → grown N A Q D t r t'.
Proof.
  intros Hg HPQ. destruct r as [D'|e]; [|done]. destruct Hg as (? & ? & ? & ? & Hp). split_and!; [done..|].
  intros a Hm. destruct (Hp a Hm) as (? & ? & ?). auto.
Qed.
Lemma grown_ret N (A : Prop) P D t : walking D t → (A → P D t) → grown N A P D t (Ok D) t.
Proof. intros. split_and!; auto. Qed.

Lemma probe_all_wp N (A : Prop) D d i soc cores t b :
  walking D t → is_device t i d → is_Some (devices t !! i) → is_marked_unhealthy i = false → soc_answers E soc →
  (∀ c, c ∈ cores → A → honest N ∧ is_chip N d i ∧ c ∈ chip_cores N i ∧
       ∀ n, Soc.get_eth_channel_for_core soc c = Ok n → n = chip_channel N i c) →
  wp (probe_all options beats d i soc cores D)
    (λ r t' _, grown N A (λ D' t', ∀ c, c ∈ cores → on_map N i c D D' t') D t r t') t b.
Proof.
  intros Hw Hdev Hdi Hgen Hsoc. revert D t b Hw Hdev Hdi.
  induction cores as [|c cores IH]; intros D t b Hw Hdev Hdi Ha; cbn [probe_all].
  { apply walk_wp_ret, grown_ret; [done|]. intros _ c Hc. by apply elem_of_nil in Hc. }
  apply walk_wp_bind. eapply walk_wp_mono; [eapply (probe_wp N A); try done; by apply Ha; left|].
  cbn beta. intros [D1|e] t1 b1 Hg; [|done]. pose proof Hg as (Hw1 & _ & Hd1 & _).
  eapply walk_wp_mono; [apply IH; try done|].
  - right. rewrite Hd1. destruct Hdev as [Hdev|Hdev]; [|done]. exfalso. destruct Hdi as [d0 Hdi].
    rewrite (w_disjoint _ _ Hw i) in Hdi; [done|by eexists].
  - by rewrite Hd1.
  - intros c' Hc'. apply Ha. by right.
  - cbn beta. intros r t2 b2 Hg2. eapply grown_mono; [by eapply grown_trans|].
    intros D2 (Hc1 & Hc2 & ? & ? & Hl) c' [->|Hc']%elem_of_cons Hf.
    + destruct (Hc1 Hf). auto.
    + destruct (Hc2 c' Hc' Hf). auto.
Qed.

Lemma visit_wp N (A : Prop) D i d t b :
  walking D t → devices t !! i = Some d → (A → honest N ∧ opt_discover_remote_devices options = true ∧ mapped N D t) →
  wp (visit options beats i D)
    (λ r t' _, grown N A (λ D' t', is_marked_unhealthy i = false → ∀ c, on_map N i c D D' t') D t r t') t b.
Proof.
  intros Hw Hd Ha. unfold visit. destruct (is_marked_unhealthy i) eqn:Hgen; [by apply walk_wp_ret, grown_ret|].
  apply wp_get_bind, walk_wp_bind. eapply wp_at_key; [done|]. apply walk_wp_bind.
  eapply calm_cases; [by eapply calm_verify_bundle| |done]. intros _ t1 b1 Hs1.
  assert (walking D t1) as Hw1 by (by eapply walking_same).
  destruct (negb _) eqn:Hopt.
  { apply walk_wp_ret. eapply grown_same; [done|]. apply grown_ret; [done|]. intros a. destruct (Ha a) as (_ & Ho & _). by rewrite Ho in Hopt. }
  apply walk_wp_bind, wp_ask. destruct (law_soc E d b1) as [He _]. destruct ((get_soc_descriptor d b1).1) as [soc|e] eqn:Hsoc; [|by apply He].
  pose proof (law_soc_sound E d b1 soc Hsoc) as Hsound. apply walk_wp_bind, wp_tlift. pose proof (sa_cores E soc Hsound) as He'.
  destruct (Soc.get_cores soc ETH NOC0 None) as [cores|e] eqn:Hcores; [|by apply He'].
  assert (A → is_chip N d i ∧ cores = chip_cores N i) as Hchip.
  { intros a. destruct (Ha a) as (Hh & _ & Hm). assert (is_chip N d i) by (eapply m_chip; [done|by right|done]).
    split; [done|]. by eapply (h_soc N Hh). }
  eapply walk_wp_mono; [eapply (probe_all_wp N A); try done|].
  - right. by rewrite (same_devices _ _ Hs1).
  - rewrite (same_devices _ _ Hs1). by eexists.
  - intros c Hc a. destruct (Ha a) as (Hh & _ & _). destruct (Hchip a) as [? ->]. split_and!; [done..|].
    intros n Hn. by eapply (h_channel N Hh).
  - cbn beta. intros r t2 b2 Hg. eapply grown_same; [done|].
    destruct r as [D'|e]; [|done]. destruct Hg as (? & ? & ? & ? & Hp). split_and!; [done..|].
    intros a Hm. destruct (Hp a Hm) as (? & ? & Hon). destruct (Hchip a) as [_ ->]. split_and!; [done..|].
    intros _ c Hf. apply Hon; [apply Hf|done].
Qed.

(** ** The loop *)

(** Each link that is used joins two chips that tell it alike. *)
Definition symmetric (N : Network) : Prop :=
  ∀ i c, followed N i c → ∃ c', followed N (peer N i c) c' ∧ link_of N (peer N i c) c' = ((link_of N i c).2, (link_of N i c).1).

(** The links of the chips visited lead to chips seen; those between them are
    on the map. *)
Definition complete (N : Network) (D : gset Z) (t : TopologyDiscovery) : Prop :=
  ∀ i c, is_Some (devices t !! i) → is_marked_unhealthy i = false → followed N i c →
    peer N i c ∈ D ∧ (is_Some (devices t !! peer N i c) →
                      link_of N i c ∈ eth_links t ∨ ((link_of N i c).2, (link_of N i c).1) ∈ eth_links t).

Lemma complete_visit N D t D' t' i :
  complete N D t → symmetric N → honest N → D ⊆ D' → i ∈ D → (∀ k, is_Some (devices t !! k) → k ∈ D) →
  (∀ k, is_Some (devices t' !! k) ↔ k = i ∨ is_Some (devices t !! k)) →
  (∀ l, l ∈ eth_links t → l ∈ eth_links t') → (is_marked_unhealthy i = false → ∀ c, on_map N i c D D' t') →
  complete N D' t'.
Proof.
  intros Hc Hsym Hh HD Hi Hdev Hdev' Hl Hon j c Hj%Hdev' Hgen Hf.
  assert (peer N j c ∈ D → (j = i ∨ peer N j c = i) → j ∈ D →
    link_of N j c ∈ eth_links t' ∨ ((link_of N j c).2, (link_of N j c).1) ∈ eth_links t') as Hnew.
  { intros Hp Hor HjD. assert (is_marked_unhealthy (peer N j c) = false) as Hpg.
    { destruct Hf as (? & ? & _). apply U_genuine. by eapply h_leads. }
    destruct Hor as [->|Hpi].
    - left. by apply (Hon Hgen c Hf).
    - right. destruct (Hsym j c Hf) as (c' & Hf' & Heq). rewrite <- Heq. rewrite Hpi in Hf', Hpg |- *.
      assert (peer N i c' = j) as Hback by (by rewrite Hpi in Heq; injection Heq). apply (Hon Hpg c' Hf'). by rewrite Hback. }
  destruct (decide (j = i)) as [->|Hne].
  - destruct (Hon Hgen c Hf) as [Hp _]. split; [done|]. intros Hpd%Hdev'. apply Hnew; [|by left|done].
    destruct Hpd as [->|Hpd]; [done|by apply Hdev].
  - destruct Hj as [?|Hj]; [done|]. destruct (Hc j c Hj Hgen Hf) as [Hp Hlink]. split; [set_solver|].
    intros [Hpi|Hpd]%Hdev'; [apply Hnew; auto|]. destruct (Hlink Hpd); auto.
Qed.

Lemma mapped_dequeued N D t i d :
  mapped N D t → devices_to_discover t !! i = Some d → devices t !! i = None → mapped N D (dequeued i d t).
Proof.
  intros [] Ht Hd. split.
  - intros k d'. rewrite dequeued_device by done. auto.
  - intros k. rewrite placed_device. setoid_rewrite (dequeued_device i d t k); [|done..]. by rewrite <- placed_device.
  - done.
  - done.
Qed.

Lemma discover_loop_wp N (A : Prop) fuel D t b :
  walking D t → (measure D t < fuel)%nat →
  (A → honest N ∧ symmetric N ∧ opt_discover_remote_devices options = true ∧ mapped N D t ∧ complete N D t) →
  wp (discover_loop options fuel beats D)
    (λ r t' _, match r with Err e => E e | Ok D' =>
       walking D' t' ∧ devices_to_discover t' = ∅ ∧ (A → mapped N D' t' ∧ complete N D' t') end) t b.
Proof.
  revert D t b. induction fuel as [|fuel IH]; intros D t b Hw Hfuel Ha; [lia|]. cbn [discover_loop].
  apply wp_get_bind. destruct (begin (devices_to_discover t)) as [[i d]|] eqn:Hb.
  2: { apply walk_wp_ret. split_and!; [done|by apply begin_None|]. intros a. by destruct (Ha a) as (_ & _ & _ & ?). }
  apply begin_Some in Hb. assert (devices t !! i = None) as Hd by (apply (w_disjoint _ _ Hw); by eexists).
  pose proof (walking_dequeued D t i d Hw Hb) as Hw0.
  assert (devices (dequeued i d t) = <[i := d]> (devices t)) as Hdev by (cbn; by rewrite map_insert_new_fresh).
  assert (measure D t = S (measure D (dequeued i d t))) as Hm.
  { unfold measure. cbn. rewrite (size_dom_delete _ i) by (by eexists). lia. }
  unfold dequeue. apply wp_modify_bind. fold (dequeued i d t). apply walk_wp_bind.
  eapply walk_wp_mono; [eapply (visit_wp N A D i d); [done|by rewrite Hdev, lookup_insert_eq|]|].
  { intros a. destruct (Ha a) as (? & _ & ? & ? & _). split_and!; [done..|]. by apply mapped_dequeued. }
  cbn beta. intros [D'|e] t' b' Hg; [|done]. destruct Hg as (Hw' & Hm' & Hd' & HD & Hp).
  apply IH; [done|lia|]. intros a. destruct (Ha a) as (Hh & Hsym & Ho & Hmap & Hc). destruct (Hp a) as (Hmap' & Hl & Hon); [by apply mapped_dequeued|].
  split_and!; [done..|]. eapply (complete_visit N D t D' t' i); try done.
  - apply (m_placed N D t Hmap). left. by eexists.
  - intros k Hk. apply (m_placed N D t Hmap). by right.
  - intros k. rewrite Hd', Hdev. destruct (decide (i = k)) as [<-|].
    + rewrite lookup_insert_eq. split; [by left|by eexists].
    + rewrite lookup_insert_ne by done. naive_solver.
Qed.

(** ** From the connected chips *)

(** The state that [get_connected_devices] leaves. *)
Record connected (t : TopologyDiscovery) : Prop := {
  c_todo : dom (devices_to_discover t) = I;
  c_devices : devices t = ∅;
  c_gateways : remote_asic_id_to_mmio_device_id t = ∅;
  c_active : active_eth_channels_per_device t = ∅;
  c_links : eth_links t = [];
  c_remote : eth_links_to_remote t = [];
  c_boards : board_ids t = B;
  c_chips : dom (asic_id_to_chip_id t) = I;
  c_below : ∀ k c, asic_id_to_chip_id t !! k = Some c → 0 ≤ c < next_chip_id t;
  c_marked : ∀ k, k ∈ I → is_marked_unhealthy k = true → ∃ c, 0 ≤ c < next_chip_id t ∧ k = generate_unhealthy_asic_id c;
  c_injective : ∀ k k' c, asic_id_to_chip_id t !! k = Some c → asic_id_to_chip_id t !! k' = Some c → k = k';
  c_next : 0 ≤ next_chip_id t ∧ next_chip_id t + Z.of_nat (size U) < 2 ^ 31;
  c_arch : ∀ k d, devices_to_discover t !! k = Some d → get_topology_arch = BLACKHOLE → dev_arch d = BLACKHOLE;
  c_6u : get_topology_arch ≠ BLACKHOLE → is_running_on_6u t = false
}.

Lemma in_order_keys {V} (m : gmap Z V) : list_to_set (in_order m).*1 = dom m.
Proof.
  apply set_eq. intros k. rewrite elem_of_list_to_set, list_elem_of_fmap, elem_of_dom. split.
  - intros ([k' v] & -> & Hin). unfold in_order in Hin. rewrite merge_sort_Permutation in Hin.
    apply elem_of_map_to_list in Hin. by eexists.
  - intros [v Hv]. exists (k, v). split; [done|]. unfold in_order. rewrite merge_sort_Permutation. by apply elem_of_map_to_list.
Qed.
Lemma foldl_new_keys {V} (f : Z → V) ids (m : gmap Z V) :
  dom (foldl (λ m i, map_insert_new i (f i) m) m ids) = dom m ∪ list_to_set ids ∧
  ((∀ k v, m !! k = Some v → v = f k) → ∀ k v, foldl (λ m i, map_insert_new i (f i) m) m ids !! k = Some v → v = f k).
Proof.
  revert m. induction ids as [|i ids IH]; intros m; cbn; [split; [set_solver|done]|].
  destruct (IH (map_insert_new i (f i) m)) as [Hdom Hval]. split.
  - rewrite Hdom, dom_map_insert_new. set_solver.
  - intros Hm. apply Hval. unfold map_insert_new. intros k v. destruct (m !! i) eqn:Hi; [apply Hm|].
    destruct (decide (i = k)) as [<-|]; [rewrite lookup_insert_eq; by intros [= <-]|]. rewrite lookup_insert_ne by done. apply Hm.
Qed.

Lemma set_gateways_wp t b :
  connected t → wp set_gateways (λ r t' _, r = Ok I ∧ walking I t' ∧ devices_to_discover t' = devices_to_discover t
                                           ∧ devices t' = ∅ ∧ eth_links t' = []) t b.
Proof.
  intros []. unfold set_gateways. apply wp_get_bind, wp_modify_bind, walk_wp_ret. rewrite in_order_keys.
  set (ids := (in_order (devices_to_discover t)).*1).
  assert (list_to_set ids = I) as Hids by (unfold ids; by rewrite in_order_keys).
  destruct (foldl_new_keys (λ _, ∅ : gset Z) ids ∅) as [Hact _].
  destruct (foldl_new_keys (λ i, i) ids ∅) as [Hgw Hval].
  assert (∀ k, placed t k ↔ k ∈ I) as Hp.
  { intros k. unfold placed. rewrite c_devices0, lookup_empty, <- c_todo0, elem_of_dom. split; [|by left]. by intros [?|[]]. }
  assert (∀ k g, foldl (λ m i, map_insert_new i i m) ∅ ids !! k = Some g → g = k ∧ k ∈ I) as Hg.
  { intros k g Hk. split; [by apply Hval in Hk; [|intros ??; by rewrite lookup_empty]|].
    apply elem_of_dom_2 in Hk. rewrite Hgw, Hids in Hk. set_solver. }
  split; [by rewrite c_todo0|]. split; [|by cbn; rewrite c_devices0, c_links0].
  rewrite c_active0, c_gateways0. split; cbn; unfold placed in Hp |- *; cbn.
  - done.
  - rewrite Hgw, Hids. set_solver.
  - rewrite Hact, Hids. set_solver.
  - intros k g Hk. destruct (Hg k g Hk) as [-> ?]. auto.
  - intros k Hk _. by apply Hp.
  - intros k Hk. by apply Hp.
  - intros k _. by rewrite c_devices0, lookup_empty.
  - intros k Hor. apply elem_of_dom. rewrite c_chips0. rewrite Hp in Hor. by destruct Hor.
  - done.
  - intros k [c Hc]. apply c_marked0. rewrite <- c_chips0. by eapply elem_of_dom_2.
  - intros k [c Hc] _. rewrite <- c_chips0. by eapply elem_of_dom_2.
  - intros k k' c _ _. apply c_injective0.
  - assert (size (U ∖ I) ≤ size U)%nat by (apply subseteq_size; set_solver). lia.
  - intros k d [Hd|Hd]; [by eapply c_arch0|]. cbn in Hd. by rewrite c_devices0, lookup_empty in Hd.
  - rewrite c_links0. intros l Hl. by apply elem_of_nil in Hl.
  - rewrite c_remote0. intros l Hl. by apply elem_of_nil in Hl.
  - done.
  - done.
  - done.
Qed.

(** What is found: the queue is empty, the connected chips are kept, chips
    have chip ids of their own, and a gateway among the connected ones. *)
Record found (t : TopologyDiscovery) : Prop := {
  f_todo : devices_to_discover t = ∅;
  f_kept : ∀ k, k ∈ I → is_Some (devices t !! k);
  f_chip_id : ∀ k, is_Some (devices t !! k) → is_Some (asic_id_to_chip_id t !! k);
  f_injective : ∀ k k' c, is_Some (devices t !! k) → is_Some (devices t !! k') →
    asic_id_to_chip_id t !! k = Some c → asic_id_to_chip_id t !! k' = Some c → k = k';
  f_gateway : ∀ k, is_Some (devices t !! k) → is_marked_unhealthy k = false →
    ∃ g, remote_asic_id_to_mmio_device_id t !! k = Some g ∧ g ∈ I ∧ is_Some (asic_id_to_chip_id t !! g)
}.
(** The chips found are the reachable ones, and their links are on the map. *)
Record found_network (N : Network) (t : TopologyDiscovery) : Prop := {
  n_devices : ∀ k, is_Some (devices t !! k) ↔ reachable N k;
  n_links : ∀ i c, reachable N i → is_marked_unhealthy i = false → followed N i c →
    ends (eth_links t) (i, chip_channel N i c) (peer N i c, far_channel N i c);
  n_sound : ∀ l, l ∈ eth_links t → ∃ i c, reachable N i ∧ followed N i c ∧ l = link_of N i c
}.

Lemma walking_found D t : walking D t → devices_to_discover t = ∅ → found t.
Proof.
  intros Hw Ht. assert (∀ k, placed t k ↔ is_Some (devices t !! k)) as Hp.
  { intros k. unfold placed. rewrite Ht, lookup_empty. split; [by intros [[]|]|by right]. }
  split; [done|..].
  - intros k Hk. by apply Hp, (w_kept _ _ Hw).
  - intros k Hk. apply (w_chips _ _ Hw). right. by apply Hp.
  - intros k k' c Hk Hk'. apply (w_injective _ _ Hw); by apply Hp.
  - intros k Hk Hgen. assert (k ∈ D) as HkD by (apply (w_seen _ _ Hw); [by apply Hp|done]).
    rewrite <- (w_gateways _ _ Hw) in HkD. apply elem_of_dom in HkD as [g Hg]. exists g. split; [done|].
    destruct (w_gateway _ _ Hw k g Hg) as [HgI _]. split; [done|]. apply (w_chips _ _ Hw). left. by apply (w_initial _ _ Hw).
Qed.
Lemma mapped_found N D t :
  walking D t → devices_to_discover t = ∅ → mapped N D t → complete N D t → found_network N t.
Proof.
  intros Hw Ht Hm Hc. assert (∀ k, is_Some (devices t !! k) ↔ k ∈ D) as Hp.
  { intros k. rewrite <- (m_placed _ _ _ Hm). unfold placed. rewrite Ht, lookup_empty. split; [by right|by intros [[]|]]. }
  assert (∀ k, is_Some (devices t !! k) ↔ reachable N k) as Hr.
  { intros k. split; [intros Hk%Hp; by eapply m_reach|]. induction 1 as [i Hi|i c Hi IH Hgen Hf].
    - by apply Hp, (w_initial _ _ Hw).
    - apply Hp. by apply (Hc i c IH Hgen Hf). }
  split; [done|..].
  - intros i c Hi Hgen Hf. destruct (Hc i c) as [Hpe Hl]; [by apply Hr|done..|]. apply Hl. by apply Hp.
  - intros l Hl. destruct (m_links _ _ _ Hm l Hl) as (i & c & Hf & ->). exists i, c. split; [|done].
    eapply m_reach; [done|]. destruct (w_links _ _ Hw _ Hl). done.
Qed.

Lemma discover_remote_devices_wp N (A : Prop) fuel t b :
  connected t → (size I + size U < fuel)%nat →
  (A → honest N ∧ symmetric N ∧ opt_discover_remote_devices options = true ∧
       ∀ k d, devices_to_discover t !! k = Some d → is_marked_unhealthy k = false → is_chip N d k) →
  wp (discover_remote_devices options fuel beats)
    (λ r t' _, match r with Err e => E e | Ok _ => found t' ∧ (A → found_network N t') end) t b.
Proof.
  intros Hc Hfuel Ha. unfold discover_remote_devices. apply walk_wp_bind. eapply walk_wp_mono; [by apply set_gateways_wp|]. cbn beta.
  intros r t0 b0 (-> & Hw0 & Ht0 & Hd0 & Hl0). apply walk_wp_bind. eapply walk_wp_mono; [eapply (discover_loop_wp N A); [done|..]|].
  - unfold measure. rewrite Ht0, (c_todo t Hc). assert (size (U ∖ I) ≤ size U)%nat by (apply subseteq_size; set_solver). lia.
  - intros a. destruct (Ha a) as (Hh & Hsym & Hopt & Hchip). split_and!; [done..| |].
    + split.
      * intros k d [Hd|Hd]; [rewrite Ht0 in Hd; auto|by rewrite Hd0, lookup_empty in Hd].
      * intros k. unfold placed. rewrite Ht0, Hd0, lookup_empty, <- (c_todo t Hc), elem_of_dom. split; [|by left]. by intros [?|[]].
      * intros k Hk. by apply reach_initial.
      * rewrite Hl0. intros l Hl. by apply elem_of_nil in Hl.
    + intros i c Hi. rewrite Hd0, lookup_empty in Hi. by destruct Hi.
  - cbn beta. intros [D'|e] t1 b1; [|done]. intros (Hw1 & Ht1 & Hm).
    eapply walk_wp_mono; [apply (patch_law E U)|].
    + intros Harch l Hl. destruct (w_links _ _ Hw1 l Hl) as [_ Hfar]. rewrite (w_opened _ _ Hw1 Harch) in Hfar.
      destruct (w_kept _ _ Hw1 _ Hfar) as [Hp|Hp]; [|done]. rewrite Ht1, lookup_empty in Hp. by destruct Hp.
    + cbn beta. intros [[]|e] t2 b2 (Hs & He & Hlinks); [|by apply He].
      assert (walking D' t1 → found t2) as Hfound.
      { intros _. destruct (walking_found D' t1 Hw1 Ht1). destruct Hs as [Et Ed Ec ???? Eg ??]. cbn in Et, Ed, Ec, Eg.
        by split; rewrite ?Et, ?Ed, ?Ec, ?Eg. }
      split; [auto|]. intros a. destruct (Ha a) as (Hh & _). pose proof (h_topology N Hh) as Harch. destruct (Hm a) as [Hmap Hcom].
      destruct (mapped_found N D' t1 Hw1 Ht1 Hmap Hcom) as [Hn1 Hn2 Hn3]. specialize (Hlinks Harch).
      assert (devices t2 = devices t1) as Hdev by (by destruct Hs). by split; rewrite ?Hdev, ?Hlinks.
Qed.
End walk.
