(* ===== verification/TopologyProperties.v ===== *)
(** * TopologyProperties

    What topology discovery promises: connecting the local chips, walking to
    the remote ones and keying the devices by chip id neither loses a device
    nor fails at a lookup of its own, and in a stable network the walk finds
    the chips and links that there are. *)

From Stdlib Require Import ZArith Lia.
From stdpp Require Import base gmap list list_numbers sorting strings numbers sets.
From S2P Require Import DeviceAccess Prelude CoreTypes ArchData Harvesting SemVer RiscType BoardTypes Managers SocArch SocDescriptor FirmwareFeatures FirmwareInfo ClusterState.
From S2P Require Import Topology Discover TopologyArchs TopologyTheory EthConnections TopologyWalk.


(** ** The laws of the two architectures

    Wormhole and Blackhole satisfy the laws of [TopologyTheory], for devices
    that do. *)

Local Open Scope Z_scope.

Section laws.
Context `{Devices} (E : error → Prop) (U : gset Z) `{!DevicesLaws E}.

Lemma calm_read_lo_hi d c lo hi : calm E (read_lo_hi d c lo hi).
Proof. unfold read_lo_hi. calm_tac. Qed.
Lemma calm_read_hi_lo d c hi lo : calm E (read_hi_lo d c hi lo).
Proof. unfold read_hi_lo. calm_tac. Qed.
Lemma calm_running_on_6u : calm E running_on_6u.
Proof. unfold running_on_6u. calm_tac. Qed.
#[local] Hint Resolve calm_read_lo_hi calm_read_hi_lo calm_running_on_6u : calm.
Lemma calm_throw a e : calm E (throw_or_return a e).
Proof. unfold throw_or_return. calm_tac. Qed.
Lemma calm_each {A} (l : list A) f : (∀ a, calm E (f a)) → calm E (each l f).
Proof. intros Hf. induction l as [|a l IH]; cbn [each]; [calm_tac|]. apply calm_bind; auto. Qed.
#[local] Hint Resolve calm_throw : calm.

(** A first device only tells whether the system is a 6U. *)
Lemma first_law_of d board t b :
  wp (board_type ← ask (dev_board_type d); modify (λ t, upd_boards (board_ids t) (bool_decide (board_type = board)) t))
    (λ r t' b', (∃ on_6u, same (upd_boards (board_ids t) on_6u t) t') ∧ thrown_ok E r ∧ clock b ≤ clock b') t b.
Proof.
  apply walk_wp_bind, wp_ask. destruct (law_board_type E d b) as [He Hc]. destruct ((dev_board_type d b).1) as [bt|e].
  - apply wp_modify. split_and!; [by eexists|apply thrown_Ok|done].
  - split_and!; [|by eapply thrown_cast|done]. exists (is_running_on_6u t). by destruct t.
Qed.

(** ** Wormhole *)

Section wormhole.
Context (options : TopologyDiscoveryOptions).
Import Wormhole.

Lemma calm_remote_channel_wormhole d c : calm E (wormhole_remote_eth_channel d c).
Proof. unfold wormhole_remote_eth_channel. calm_tac. Qed.
Lemma calm_port_disabled d c : calm E (wormhole_port_disabled d c).
Proof.
  unfold wormhole_port_disabled. apply calm_bind; [calm_tac|]. intros mask. apply calm_soc; [done|].
  intros soc Hsoc t b. apply walk_wp_bind, wp_tlift. pose proof (sa_channel E soc Hsoc c) as He.
  pose proof (sa_channel_bound E soc Hsoc c) as Hb.
  destruct (Soc.get_eth_channel_for_core soc c) as [n|e].
  - specialize (Hb n eq_refl). rewrite (proj2 (Z.ltb_lt n 32)) by lia. by apply calm_ret.
  - split_and!; [done|by eapply thrown_cast|lia].
Qed.
Lemma calm_create_wormhole coord d channels : calm E (wormhole_create_remote coord d channels).
Proof.
  unfold wormhole_create_remote. apply calm_bind; [calm_tac|]. intros [|]; [calm_tac|].
  apply calm_soc; [done|]. intros soc Hsoc. apply calm_bind; [by apply calm_tlift, sa_pairs|]. intros cores. calm_tac.
Qed.
Lemma create_some_wormhole coord d channels t b :
  is_running_on_6u t = false → wp (wormhole_create_remote coord d channels) (λ r _ _, r ≠ Ok None) t b.
Proof.
  intros H6. unfold wormhole_create_remote, running_on_6u. apply walk_wp_bind, wp_get_bind, walk_wp_ret. rewrite H6.
  apply walk_wp_bind, wp_ask. destruct ((get_soc_descriptor d b).1) as [soc|e]; [|done]. apply walk_wp_bind, wp_tlift.
  destruct (Soc.get_eth_xy_pairs_for_channels _ _ _) as [cores|e]; [|done]. apply walk_wp_bind, wp_ask.
  by destruct ((create_remote _ _ _ _).1).
Qed.

Lemma calm_retrain_cores d cores all_trained : calm E (retrain_cores d cores all_trained).
Proof.
  revert all_trained. induction cores as [|c cores IH]; intros all_trained; cbn [retrain_cores]; [calm_tac|].
  apply calm_soc; [done|]. intros soc Hsoc. apply calm_bind; [by apply calm_tlift, sa_translated|]. intros p.
  apply calm_bind; [calm_tac|]. intros status. destruct (negb _); [done|].
  apply calm_bind; [by apply calm_eth_fw_version|]. intros v. destruct (semver_ltb _ _); [calm_tac|].
  apply calm_bind; [calm_tac|]. done.
Qed.
Lemma calm_retrain_devices devs all_trained : calm E (retrain_devices devs all_trained).
Proof.
  revert all_trained. induction devs as [|[k d] devs IH]; intros all_trained; cbn [retrain_devices]; [calm_tac|].
  apply calm_bind; [by apply calm_eth_cores|]. intros cores. apply calm_bind; [apply calm_retrain_cores|].
  intros [?|]; [done|calm_tac].
Qed.
Lemma calm_wormhole_retrain : calm E (wormhole_retrain options).
Proof.
  assert (∀ attempts, calm E (retrain_attempts attempts)) as Ha.
  { induction attempts as [|attempts IH]; cbn [retrain_attempts]; [calm_tac|]. apply calm_get. intros t.
    apply calm_bind; [apply calm_retrain_devices|]. intros [[|]|]; [calm_tac| |calm_tac].
    apply calm_get. intros t'. apply calm_bind; [|done]. apply calm_each. intros e. by apply calm_wait_training. }
  unfold wormhole_retrain. apply calm_bind; [calm_tac|]. intros on_6u. destruct (_ || _); [calm_tac|apply Ha].
Qed.

(** [U]: the ASIC ids that the firmware tells. *)
Lemma wormhole_laws :
  (∀ d c t b, wp (wormhole_remote_asic_id d c) (λ r _ _, ∀ id, r = Ok id → id ∈ U) t b) →
  (∀ d c t b, wp (wormhole_local_asic_id d c) (λ r _ _, ∀ id, r = Ok id → id ∈ U) t b) →
  (∀ d b id, (dev_board_id d b).1 = Ok id → id ∈ U) →
  @TopologyLaws _ (TopologyDiscoveryWormhole options) E U.
Proof.
  intros Hr Hl Hu. split; cbn.
  - intros d c. unfold wormhole_remote_board_id, wormhole_remote_asic_id. calm_tac.
  - intros d c. unfold wormhole_local_board_id, wormhole_local_asic_id. calm_tac.
  - intros d c. unfold wormhole_local_asic_id. calm_tac.
  - intros d c. unfold wormhole_remote_asic_id. calm_tac.
  - intros d. calm_tac.
  - intros d c. unfold wormhole_local_eth_coord. calm_tac.
  - intros d c. unfold wormhole_remote_eth_coord. calm_tac.
  - apply calm_remote_channel_wormhole.
  - apply calm_remote_channel_wormhole.
  - unfold wormhole_using_eth_coords. calm_tac.
  - apply calm_create_wormhole.
  - intros d id c. unfold wormhole_verify_routing. calm_tac.
  - intros d c. apply calm_port_disabled.
  - intros d c. unfold wormhole_heartbeat. calm_tac.
  - intros d c. unfold wormhole_postcode. calm_tac.
  - apply calm_wormhole_retrain.
  - done.
  - done.
  - intros d t b. apply wp_ask. apply Hu.
  - intros c d channels t b _. apply create_some_wormhole.
  - intros d t b. apply first_law_of.
  - intros t b _. refine (conj _ (conj (thrown_Ok E tt) (λ _, eq_refl))). by destruct t.
Qed.
End wormhole.

(** ** Blackhole *)

Section blackhole.
Import Blackhole.

Lemma patch_links_wp links fixed t b :
  E UndefinedBehaviour → (∀ l, l ∈ links → is_Some (devices t !! l.2.1)) →
  wp (patch_links links fixed) (λ r t' b', same t t' ∧ thrown_ok E r) t b.
Proof.
  intros Hub. revert fixed b. induction links as [|[l [far n]] links IH]; intros fixed b Hl; cbn [patch_links].
  { apply walk_wp_ret. split; [done|apply thrown_Ok]. }
  destruct (Hl (l, (far, n)) ltac:(left)) as [fd Hfd]. cbn in Hfd. apply walk_wp_bind. unfold patch_link. apply walk_wp_bind.
  assert (∃ d', wp (get_tt_device far) (λ r t' b', r = Ok d' ∧ t' = t ∧ b' = b) t b) as [d' Hd'].
  { destruct (devices_to_discover t !! far) as [d0|] eqn:Ht.
    - exists d0. unfold get_tt_device. apply wp_get_bind. rewrite Ht. by apply walk_wp_ret.
    - exists fd. unfold get_tt_device. apply wp_get_bind. rewrite Ht. by eapply wp_at_key. }
  eapply walk_wp_mono; [exact Hd'|]. cbn beta. intros r t' b' (-> & -> & ->). apply walk_wp_bind, wp_tlift. unfold vec_idx.
  destruct (_ !! Z.to_nat n) as [core|]; [|by split; [done|apply thrown_Err]].
  apply walk_wp_bind, wp_ask. destruct (law_soc E d' b) as [He _]. destruct ((get_soc_descriptor d' b).1) as [soc|e] eqn:Hsoc.
  - apply walk_wp_bind, wp_tlift. pose proof (sa_coord E soc (law_soc_sound E d' b soc Hsoc)
      (MkCoreCoord (xy_x core) (xy_y core) ETH NOC0) LOGICAL) as He'.
    destruct (Soc.translate_coord_to _ _ _) as [logical|e].
    + apply walk_wp_ret. apply IH. intros l' Hl'. apply Hl. by right.
    + split; [done|]. by eapply thrown_cast.
  - split; [done|]. by eapply thrown_cast.
Qed.

(** The channel that the far end tells indexes a table unchecked. *)
Lemma blackhole_laws :
  E UndefinedBehaviour →
  (∀ d c t b, wp (blackhole_remote_asic_id d c) (λ r _ _, ∀ id, r = Ok id → id ∈ U) t b) →
  (∀ d c t b, wp (blackhole_local_asic_id d c) (λ r _ _, ∀ id, r = Ok id → id ∈ U) t b) →
  (∀ d t b, wp (blackhole_unconnected_device_id d) (λ r _ _, ∀ id, r = Ok id → id ∈ U) t b) →
  @TopologyLaws _ TopologyDiscoveryBlackhole E U.
Proof.
  intros Hub Hr Hl Hu.
  assert (∀ d c, calm E (blackhole_remote_asic_id d c)) as Hra by (intros; unfold blackhole_remote_asic_id; calm_tac).
  assert (∀ d c, calm E (blackhole_local_asic_id d c)) as Hla by (intros; unfold blackhole_local_asic_id; calm_tac).
  split; cbn;
    try (intros; unfold blackhole_remote_board_id, blackhole_local_board_id, blackhole_unconnected_device_id,
           blackhole_remote_eth_channel, blackhole_logical_remote_eth_channel, blackhole_heartbeat, blackhole_postcode;
         calm_tac; fail).
  - intros d t b. apply first_law_of.
  - intros t b Hdev. unfold blackhole_patch. apply wp_get_bind, walk_wp_bind.
    eapply walk_wp_mono; [by apply patch_links_wp; [done|apply Hdev]|]. cbn beta. intros [fixed|e] t' b' [Hs He].
    + apply wp_modify. split_and!; [|apply thrown_Ok|done]. destruct Hs. split; cbn; done.
    + split_and!; [|by eapply thrown_cast|done]. destruct Hs. split; cbn; done.
Qed.
End blackhole.
End laws.
Local Open Scope Z_scope.

(** ** Connecting the local chips *)

Section connecting.
Context `{TopologyArch} (E : error → Prop) (U : gset Z) `{!DevicesLaws E} `{!TopologyLaws E U}.
Context (options : TopologyDiscoveryOptions) (io_device_type : IODeviceType).
Context (U_genuine : ∀ u, u ∈ U → is_marked_unhealthy u = false).

(** After [n] chips at most. *)
Record connecting (n : Z) (t : TopologyDiscovery) : Prop := {
  k_devices : devices t = ∅;
  k_gateways : remote_asic_id_to_mmio_device_id t = ∅;
  k_active : active_eth_channels_per_device t = ∅;
  k_links : eth_links t = [];
  k_remote : eth_links_to_remote t = [];
  k_chips : dom (asic_id_to_chip_id t) = dom (devices_to_discover t);
  k_below : ∀ k c, asic_id_to_chip_id t !! k = Some c → 0 ≤ c < next_chip_id t;
  k_marked : ∀ k, k ∈ dom (devices_to_discover t) → is_marked_unhealthy k = true →
    ∃ c, 0 ≤ c < next_chip_id t ∧ k = generate_unhealthy_asic_id c;
  k_injective : ∀ k k' c, asic_id_to_chip_id t !! k = Some c → asic_id_to_chip_id t !! k' = Some c → k = k';
  k_next : 0 ≤ next_chip_id t ≤ n;
  k_size : Z.of_nat (size (dom (devices_to_discover t))) ≤ next_chip_id t;
  k_arch : ∀ k d, devices_to_discover t !! k = Some d → dev_arch d = get_topology_arch
}.

Lemma connecting_new : connecting 0 new_topology.
Proof. split; cbn; try done; try (intros *; by rewrite ?lookup_empty, ?dom_empty_L); rewrite ?dom_empty_L; try done; set_solver. Qed.
Lemma connecting_same n t t' : connecting n t → same t t' → connecting n t'.
Proof. intros [] [Et Ed Ec El Er Eb Ea Eg E6 En]. split; rewrite ?Et, ?Ed, ?Ec, ?El, ?Er, ?Ea, ?Eg, ?En; done. Qed.
Lemma connecting_le n n' t : connecting n t → n ≤ n' → connecting n' t.
Proof. intros [] Hn. split; try done. lia. Qed.
Lemma connecting_boards n t boards on_6u : connecting n t → connecting n (upd_boards boards on_6u t).
Proof. intros []. by split. Qed.
Lemma connecting_took n t : connecting n t → connecting (n + 1) (took_id t).
Proof.
  intros []. split; cbn; try done; try lia.
  - intros k c Hc%k_below0. lia.
  - intros k Hk Hm. destruct (k_marked0 k Hk Hm) as (c & ? & ->). exists c. split; [lia|done].
Qed.

(** A chip queued under an id, with the chip id that was just taken. *)
Definition queued (asic_id chip_id : Z) (d : TTDevice) (t : TopologyDiscovery) : TopologyDiscovery :=
  let t := upd_devices (map_insert_new asic_id d (devices_to_discover t)) (devices t) t in
  upd_chip_ids (map_insert_new asic_id chip_id (asic_id_to_chip_id t)) (next_chip_id t) t.

Lemma connecting_queued n t chip_id asic_id d :
  connecting n t → next_chip_id t = chip_id + 1 → 0 ≤ chip_id →
  (∀ k c, asic_id_to_chip_id t !! k = Some c → c < chip_id) → Z.of_nat (size (dom (devices_to_discover t))) ≤ chip_id →
  (is_marked_unhealthy asic_id = true → asic_id = generate_unhealthy_asic_id chip_id) → dev_arch d = get_topology_arch →
  connecting n (queued asic_id chip_id d t).
Proof.
  intros [] Hn Hc Hnew Hsize Hm Ha. unfold queued.
  assert (devices_to_discover t !! asic_id = None ↔ asic_id_to_chip_id t !! asic_id = None) as Hnone.
  { by rewrite <- !not_elem_of_dom, k_chips0. }
  split; cbn; try done.
  - by rewrite !dom_map_insert_new, k_chips0.
  - intros k c. unfold map_insert_new. destruct (asic_id_to_chip_id t !! asic_id); [apply k_below0|].
    destruct (decide (asic_id = k)) as [<-|]; [rewrite lookup_insert_eq; intros [= <-]; lia|].
    rewrite lookup_insert_ne by done. apply k_below0.
  - intros k. rewrite dom_map_insert_new, elem_of_union, elem_of_singleton. intros [->|Hk] Hmk; [|auto].
    exists chip_id. split; [lia|auto].
  - intros k k' c. unfold map_insert_new. destruct (asic_id_to_chip_id t !! asic_id) eqn:Hk0; [apply k_injective0|].
    destruct (decide (asic_id = k)) as [<-|], (decide (asic_id = k')) as [<-|]; rewrite ?lookup_insert_eq, ?lookup_insert_ne by done; try done.
    + intros [= <-] Hk'%Hnew. lia.
    + intros Hk'%Hnew [= <-]. lia.
    + apply k_injective0.
  - rewrite dom_map_insert_new. assert (size ({[asic_id]} ∪ dom (devices_to_discover t)) ≤ 1 + size (dom (devices_to_discover t)))%nat.
    { rewrite size_union_alt, size_singleton. pose proof (subseteq_size (dom (devices_to_discover t) ∖ {[asic_id]}) (dom (devices_to_discover t)) ltac:(set_solver)). lia. }
    lia.
  - intros k d0. unfold map_insert_new. destruct (devices_to_discover t !! asic_id); [apply k_arch0|].
    destruct (decide (asic_id = k)) as [<-|]; [rewrite lookup_insert_eq; by intros [= <-]|].
    rewrite lookup_insert_ne by done. apply k_arch0.
Qed.

(** The state between taking a chip id and queueing its chip. *)
Record ready (n chip_id : Z) (t : TopologyDiscovery) : Prop := {
  r_connecting : connecting (n + 1) t;
  r_chip : next_chip_id t = chip_id + 1 ∧ 0 ≤ chip_id;
  r_new : ∀ k c, asic_id_to_chip_id t !! k = Some c → c < chip_id;
  r_size : Z.of_nat (size (dom (devices_to_discover t))) ≤ chip_id
}.
Lemma ready_took n t : connecting n t → ready n (next_chip_id t) (took_id t).
Proof.
  intros Hk. split; [by apply connecting_took|cbn|cbn|cbn].
  - destruct (k_next _ _ Hk). lia.
  - intros k c Hc. by apply (k_below _ _ Hk) in Hc as [_ ?].
  - by apply (k_size _ _ Hk).
Qed.
Lemma ready_same n chip_id t t' : ready n chip_id t → same t t' → ready n chip_id t'.
Proof.
  intros [Hk ???] Hs. pose proof (connecting_same _ _ _ Hk Hs). destruct Hs as [Et _ Ec _ _ _ _ _ _ En].
  by split; rewrite ?Et, ?Ec, ?En.
Qed.
Lemma ready_boards n chip_id t boards on_6u : ready n chip_id t → ready n chip_id (upd_boards boards on_6u t).
Proof. intros [Hk ???]. split; [by apply connecting_boards|done..]. Qed.
Lemma ready_queued n chip_id t asic_id d :
  ready n chip_id t → (is_marked_unhealthy asic_id = true → asic_id = generate_unhealthy_asic_id chip_id) →
  dev_arch d = get_topology_arch → connecting (n + 1) (queued asic_id chip_id d t).
Proof. intros [Hk [] ??] ??. by apply connecting_queued. Qed.

Lemma queue_wp asic_id chip_id d (Q : Post unit) t b :
  Q (Ok tt) (queued asic_id chip_id d t) b → wp (enqueue asic_id d;; emplace_chip_id asic_id chip_id) Q t b.
Proof. intros HQ. apply wp_modify_bind, wp_modify, HQ. Qed.

(** An error of the set, or a state that satisfies [P]. *)
Definition ends_in {A} (P : A → TopologyDiscovery → Prop) : Post A := λ r t' _, match r with Err e => E e | Ok a => P a t' end.

Lemma insert_board_id_wp n chip_id d cores t b :
  ready n chip_id t → wp (insert_board_id d cores) (ends_in (λ _, ready n chip_id)) t b.
Proof.
  revert t b. induction cores as [|c cores IH]; intros t b Hr; cbn [insert_board_id]; [by apply walk_wp_ret|].
  apply walk_wp_bind. eapply calm_cases; [apply (calm_local_board_id E U)| |done].
  intros board t1 b1 Hs. assert (ready n chip_id t1) by (by eapply ready_same). destruct (negb _); [|by apply IH].
  by apply wp_modify, ready_boards.
Qed.
Lemma get_asic_id_wp n chip_id d t b :
  ready n chip_id t → wp (get_asic_id d) (ends_in (λ id t', id ∈ U ∧ ready n chip_id t')) t b.
Proof.
  intros Hr. unfold get_asic_id. apply walk_wp_bind. eapply calm_cases; [by apply calm_eth_cores| |done].
  intros cores t0 b0 Hs0. assert (ready n chip_id t0) as Hr0 by (by eapply ready_same). clear Hr Hs0. revert t0 b0 Hr0.
  assert (∀ (m : T Z) t b, calm E m → wp m (λ r _ _, ∀ id, r = Ok id → id ∈ U) t b → ready n chip_id t →
    wp m (ends_in (λ id t', id ∈ U ∧ ready n chip_id t')) t b) as Hleaf.
  { intros m t1 b1 Hm Hin Hr. eapply walk_wp_mono; [exact (walk_wp_and _ _ _ _ _ (Hm t1 b1) Hin)|].
    intros [id|e] t2 b2 [(Hs & He & _) Hid]; [|by apply He]. split; [by apply Hid|by eapply ready_same]. }
  induction cores as [|c cores IH]; intros t0 b0 Hr0; cbn [first_trained_asic_id].
  - apply Hleaf; [apply (calm_unconnected E U)|apply (unconnected_in E U)|done].
  - apply walk_wp_bind. eapply calm_cases; [by apply calm_trained| |done]. intros trained t1 b1 Hs.
    assert (ready n chip_id t1) by (by eapply ready_same). destruct (negb trained); [by apply IH|].
    apply Hleaf; [apply (calm_local_asic_id E U)|apply (local_asic_in E U)|done].
Qed.

Lemma connect_healthy_wp n chip_id d t b :
  ready n chip_id t → dev_arch d = get_topology_arch →
  wp (t ← get;
      (if bool_decide (devices_to_discover t = ∅) then init_first_device d else mret tt);;
      (if wait_on_ethernet_link_training options then wait_eth_cores_training d else mret tt);;
      eth_cores ← eth_cores_of d;
      insert_board_id d eth_cores;;
      asic_id ← get_asic_id d;
      enqueue asic_id d;; emplace_chip_id asic_id chip_id) (ends_in (λ _, connecting (n + 1))) t b.
Proof.
  intros Hr Ha. apply wp_get_bind, walk_wp_bind. eapply (walk_wp_mono _ (ends_in (λ _, ready n chip_id))).
  { case_bool_decide; [|by apply walk_wp_ret]. eapply walk_wp_mono; [apply (first_law E U)|].
    intros [[]|e] t1 b1 ([on_6u Hs] & He & _); [|by apply He]. eapply ready_same; [|done]. by apply ready_boards. }
  intros [[]|e] t1 b1 Hr1; [|done]. cbn in Hr1. apply walk_wp_bind. eapply calm_cases; [| |done].
  { destruct (wait_on_ethernet_link_training options); [by eapply calm_wait_training|by apply calm_ret]. }
  intros _ t2 b2 Hs2. apply walk_wp_bind. eapply calm_cases; [by apply calm_eth_cores| |done]. intros cores t3 b3 Hs3.
  apply walk_wp_bind. eapply walk_wp_mono; [apply (insert_board_id_wp n chip_id)|].
  { eapply ready_same; [done|]. by etrans. }
  intros [[]|e] t4 b4 Hr4; [|done]. cbn in Hr4. apply walk_wp_bind. eapply walk_wp_mono; [by apply get_asic_id_wp|].
  intros [id|e] t5 b5 Hr5; [|done]. destruct Hr5 as [Hid Hr5]. apply queue_wp. apply ready_queued; [done| |done].
  intros Hm. by rewrite U_genuine in Hm.
Qed.

Lemma connect_device_wp n device_id t b :
  connecting n t → n + 1 < 2 ^ 32 → wp (connect_device options io_device_type device_id) (ends_in (λ _, connecting (n + 1))) t b.
Proof.
  intros Hk Hn. unfold connect_device. apply walk_wp_bind. eapply calm_cases; [apply calm_ask, law_create; done| |done].
  intros d t1 b1 Hs1. apply walk_wp_bind. eapply calm_cases; [| |done].
  { destruct (low_power options); [by apply calm_ret|by apply calm_ask, law_power]. }
  intros _ t2 b2 Hs2. assert (connecting n t2) as Hk2 by (eapply connecting_same; [done|by etrans]).
  destruct (bool_decide (dev_arch d = get_topology_arch)) eqn:Ha; cbn [negb].
  2: { apply walk_wp_ret. eapply connecting_le; [done|lia]. }
  apply bool_decide_eq_true in Ha. apply walk_wp_bind. unfold get_next_chip_id. apply wp_get_bind, wp_modify_bind, walk_wp_ret.
  pose proof (ready_took n t2 Hk2) as Hr. fold (took_id t2). apply walk_wp_bind.
  eapply calm_cases; [by eapply calm_init_device| |done]. intros healthy t3 b3 Hs3.
  assert (ready n (next_chip_id t2) t3) as Hr3 by (by eapply ready_same).
  destruct healthy; cbn [negb].
  - by apply connect_healthy_wp.
  - apply queue_wp. by apply ready_queued.
Qed.

Lemma get_connected_devices_wp n t b :
  connecting 0 t → Z.of_nat n < 2 ^ 32 → (∀ b ids, (enumerate io_device_type b).1 = Ok ids → (length ids ≤ n)%nat) →
  wp (get_connected_devices options io_device_type) (ends_in (λ _, connecting (Z.of_nat n))) t b.
Proof.
  intros Hk Hn Hlen. unfold get_connected_devices. apply walk_wp_bind.
  eapply (walk_wp_mono _ (λ r t' _, match r with Err e => E e | Ok ids => same t t' ∧ (length ids ≤ n)%nat end)).
  { assert (wp (ask (enumerate io_device_type)) (λ r t' _, match r with Err e => E e | Ok ids => same t t' ∧ (length ids ≤ n)%nat end) t b) as Hask.
    { apply wp_ask. destruct (law_enumerate E io_device_type b) as [He _].
      destruct ((enumerate io_device_type b).1) as [ids|e] eqn:Hids; [|by apply He]. split; [done|by eapply Hlen]. }
    clear Hlen. destruct io_device_type; [done|done|]. by apply (law_runtime E). }
  cbn beta. intros [ids|e] t0 b0; [|done]. intros [Hs Hl]. assert (connecting 0 t0) as Hk0 by (by eapply connecting_same).
  assert (∀ l m t b, connecting m t → m + Z.of_nat (length l) < 2 ^ 32 →
    wp (each l (connect_device options io_device_type)) (ends_in (λ _, connecting (m + Z.of_nat (length l)))) t b) as Heach.
  { intros l. induction l as [|x l IH]; intros m t1 b1 Hk1 Hm; cbn [each length] in *.
    - apply walk_wp_ret. eapply connecting_le; [done|lia].
    - apply walk_wp_bind. eapply walk_wp_mono; [apply connect_device_wp; [done|lia]|]. intros [[]|e] t2 b2 Hk2; [|done].
      cbn in Hk2. eapply walk_wp_mono; [apply (IH (m + 1)); [done|lia]|]. intros [[]|e] t3 b3 H3; [|done].
      eapply connecting_le; [done|lia]. }
  eapply walk_wp_mono; [apply (Heach ids 0); [done|lia]|]. intros [[]|e] t1 b1 Hk1; [|done]. eapply connecting_le; [done|lia].
Qed.

Lemma connecting_connected n t :
  connecting n t → n + Z.of_nat (size U) < 2 ^ 31 → is_running_on_6u t = false ∨ get_topology_arch = BLACKHOLE →
  connected U (dom (devices_to_discover t)) (board_ids t) t.
Proof.
  intros [] Hn H6. split; try done.
  - lia.
  - intros k d Hd Harch. by rewrite (k_arch0 k d Hd).
  - intros Harch. by destruct H6.
Qed.
End connecting.

(** ** The promises *)

(** The network is stable: it answers honestly and alike from both ends of a
    link, and the chips that are connected are the ones they say. *)
Record stable `{TopologyArch} (U : gset Z) (options : TopologyDiscoveryOptions) (beats : nat) (N : Network) (t : TopologyDiscovery) : Prop := {
  st_honest : honest U options beats N;
  st_symmetric : symmetric (board_ids t) N;
  st_chips : ∀ k d, devices_to_discover t !! k = Some d → is_marked_unhealthy k = false → is_chip N d k
}.

(** The local part of [create_ethernet_map]. *)
Definition connect_and_retrain `{TopologyArch} (options : TopologyDiscoveryOptions) (io_device_type : IODeviceType) : T unit :=
  get_connected_devices options io_device_type;; retrain_eth_cores.

Section promises.
Context `{TopologyArch} (E : error → Prop) (U : gset Z) `{!DevicesLaws E} `{!TopologyLaws E U}.
Context (options : TopologyDiscoveryOptions) (io_device_type : IODeviceType).

Lemma connect_and_retrain_wp (n : nat) (b : Bus) :
  (∀ u, u ∈ U → is_marked_unhealthy u = false) →
  (∀ b ids, (enumerate io_device_type b).1 = Ok ids → (length ids ≤ n)%nat) → Z.of_nat n < 2 ^ 32 →
  wp (connect_and_retrain options io_device_type) (ends_in E (λ _, connecting (Z.of_nat n))) new_topology b.
Proof.
  intros HU Hlen Hn. unfold connect_and_retrain. apply walk_wp_bind.
  eapply walk_wp_mono; [apply (get_connected_devices_wp E U options io_device_type HU n); [apply connecting_new|lia|done]|].
  intros [[]|e] t1 b1 Hk; [|done]. eapply (calm_cases E); [apply (calm_retrain E U)| |done].
  intros [] t2 b2 Hs. by eapply connecting_same.
Qed.

(** C17: Topology discovery ends and does not fail on its own. If the links only lead to chips of a set [U] of genuine ids
    and at most [n] devices are connected, then connecting them and retraining ends, and, unless the system turns out to be a
    Wormhole 6U Galaxy, walking to the remote chips with fuel above [n + |U|] ends; an exception it ends with is one that a
    device or the firmware raised, never a missing entry of one of its own maps; and otherwise every device that is found has
    a chip id of its own, and, if it does not have an id made up for an unhealthy device, a gateway among the connected
    chips. What the walk does on a 6U Galaxy, where all chips are connected locally, is not stated here. *)
Theorem discovery_ends_safely (n fuel beats : nat) (b : Bus) :
  (∀ u, u ∈ U → is_marked_unhealthy u = false) →
  (∀ b ids, (enumerate io_device_type b).1 = Ok ids → (length ids ≤ n)%nat) →
  Z.of_nat n + Z.of_nat (size U) < 2 ^ 31 → (n + size U < fuel)%nat → (enough_beats ≤ beats)%nat →
  match connect_and_retrain options io_device_type new_topology b with
  | Some (Ok _, t, b') =>
      is_running_on_6u t = false ∨ get_topology_arch = BLACKHOLE →
      match discover_remote_devices options fuel beats t b' with
      | Some (Ok _, t', _) => found (dom (devices_to_discover t)) t'
      | Some (Err e, _, _) => E e
      | None => False
      end
  | Some (Err e, _, _) => E e
  | None => False
  end.
Proof.
  intros HU Hlen Hn Hfuel Hbeats. pose proof (connect_and_retrain_wp n b HU Hlen ltac:(lia)) as Hc.
  unfold wp in Hc. destruct (connect_and_retrain options io_device_type new_topology b) as [[[[[]|e] t1] b1]|]; [|done..]. intros H6.
  pose proof (connecting_connected U (Z.of_nat n) t1 Hc Hn H6) as Hcon.
  assert (size (dom (devices_to_discover t1)) ≤ n)%nat as Hsize.
  { pose proof (k_next _ _ Hc). pose proof (k_size _ _ Hc). lia. }
  set (nothing := {| is_chip := λ _ _, False; chip_cores := λ _, []; chip_channel := λ _ _, 0; usable := λ _ _, false;
                     peer := λ _ _, 0; far_board := λ _ _, 0; far_channel := λ _ _, 0; far_coord := λ _ _, None |}).
  pose proof (discover_remote_devices_wp E U options _ _ HU beats Hbeats nothing False fuel t1 b1 Hcon ltac:(lia) ltac:(done)) as Hd.
  unfold wp in Hd. destruct (discover_remote_devices options fuel beats t1 b1) as [[[[[]|e] t2] b2]|]; [by destruct Hd|done..].
Qed.

(** C3: In a stable network of Wormholes the walk finds what is there. The network has no Blackhole, which opens no remote
    chips, and is not a 6U Galaxy, whose chips are all connected locally; nothing is claimed of these two. If the chips answer alike whenever they are asked, name the other ends of their links
    correctly ([honest]) and agree on them ([symmetric]), then the devices of a walk that returns are exactly the chips that
    can be reached from the connected ones over usable links to included boards, and every such link is recorded, from one
    of its two ends; nothing else is. The walk returns, or throws what a device raised. *)
Theorem discovery_finds_network (N : Network) (fuel beats : nat) (t : TopologyDiscovery) (b : Bus) :
  let connected_ids := dom (devices_to_discover t) in
  (∀ u, u ∈ U → is_marked_unhealthy u = false) → connected U connected_ids (board_ids t) t →
  (size connected_ids + size U < fuel)%nat → (enough_beats ≤ beats)%nat →
  opt_discover_remote_devices options = true → stable U options beats N t →
  ∃ r t' b', discover_remote_devices options fuel beats t b = Some (r, t', b') ∧
    match r with Err e => E e | Ok _ => found_network connected_ids (board_ids t) N t' end.
Proof.
  intros ids HU Hcon Hfuel Hbeats Hopt [Hh Hsym Hchip].
  pose proof (discover_remote_devices_wp E U options _ _ HU beats Hbeats N True fuel t b Hcon Hfuel ltac:(done)) as Hd.
  unfold wp in Hd. destruct (discover_remote_devices options fuel beats t b) as [[[r t2] b2]|]; [|done].
  exists r, t2, b2. split; [done|]. destruct r as [[]|e]; [|done]. by apply (proj2 Hd).
Qed.
End promises.

Section rekeyed.
Context `{TopologyArch}.

Lemma rekey_fold (entries : list (Z * TTDevice)) t b (m : gmap Z TTDevice) :
  (∀ k d, (k, d) ∈ entries → is_Some (asic_id_to_chip_id t !! k)) →
  accumulate entries (λ '(unique_id, device) m, chip_id ← chip_id_entry unique_id; mret (<[chip_id := device]> m)) m t b =
  Some (Ok (foldl (λ m '(k, d), <[default 0 (asic_id_to_chip_id t !! k) := d]> m) m entries), t, b).
Proof.
  revert m. induction entries as [|[k d] entries IH]; intros m Hk; [done|]. cbn [accumulate foldl].
  destruct (Hk k d ltac:(left)) as [c Hc].
  unfold mbind at 1, T_bind at 1. unfold mbind at 1, T_bind at 1. unfold chip_id_entry at 1.
  unfold mbind at 1, T_bind at 1, get at 1. rewrite Hc. cbn. apply IH. intros k' d' ?. apply (Hk k' d'). by right.
Qed.

(** Inserting entries of different keys at different places loses none. *)
Lemma fold_insert_keyed (f : Z → Z) (l : list (Z * TTDevice)) c d :
  NoDup l.*1 →
  (∀ k d k' d', (k, d) ∈ l → (k', d') ∈ l → f k = f k' → k = k') →
  foldl (λ m '(k, d), <[f k := d]> m) (∅ : gmap Z TTDevice) l !! c = Some d ↔ ∃ k, (k, d) ∈ l ∧ f k = c.
Proof.
  induction l as [|[k0 d0] l IH] using rev_ind; intros Hnd Hinj.
  { cbn. rewrite lookup_empty. split; [done|]. intros (? & Hn & _). by apply elem_of_nil in Hn. }
  rewrite foldl_app. cbn [foldl]. rewrite fmap_app in Hnd. apply NoDup_app in Hnd as (Hnd & Hnot & _).
  assert (∀ x, x ∈ l → x ∈ l ++ [(k0, d0)]) as Hl by (intros x ?; apply elem_of_app; by left).
  specialize (IH Hnd (λ k d k' d' Hk Hk', Hinj k d k' d' (Hl _ Hk) (Hl _ Hk'))).
  assert ((k0, d0) ∈ l ++ [(k0, d0)]) as Hlast by (apply elem_of_app; right; by apply list_elem_of_singleton).
  destruct (decide (f k0 = c)) as [Heq|Hne].
  - rewrite Heq, lookup_insert_eq. split; [intros [= <-]; by exists k0|]. intros (k & Hk & Hkc).
    assert (k = k0) as -> by (eapply Hinj; [done..|congruence]).
    apply elem_of_app in Hk as [Hk|Hk%list_elem_of_singleton]; [|congruence].
    exfalso. eapply (Hnot k0); [apply list_elem_of_fmap; by exists (k0, d)|cbn; by left].
  - rewrite lookup_insert_ne, IH by done. split; intros (k & Hk & Hkc).
    + exists k. split; [by apply Hl|done].
    + exists k. split; [|done]. apply elem_of_app in Hk as [?|Hk%list_elem_of_singleton]; [done|]. by injection Hk as -> ->.
Qed.

(** The device at a chip id is the one whose ASIC id has that chip id. *)
Definition keyed (t : TopologyDiscovery) (m : gmap Z TTDevice) : Prop :=
  ∀ c d, m !! c = Some d ↔ ∃ asic_id, asic_id_to_chip_id t !! asic_id = Some c ∧ devices t !! asic_id = Some d.

(** Keying the devices by chip id, the last step of [discover], loses none: after a walk (whose devices have chip ids
    of their own) the device at a chip id is the one whose ASIC id has that chip id. *)
Lemma rekey_keeps_devices (I : gset Z) (t : TopologyDiscovery) (b : Bus) :
  found I t →
  ∃ m, rekey (in_order (devices t)) t b = Some (Ok m, t, b) ∧ keyed t m.
Proof.
  intros Hf. assert (∀ k d, (k, d) ∈ in_order (devices t) ↔ devices t !! k = Some d) as Hin.
  { intros k d. unfold in_order. rewrite merge_sort_Permutation. apply elem_of_map_to_list. }
  assert (NoDup (in_order (devices t)).*1) as Hnd.
  { unfold in_order. rewrite merge_sort_Permutation. apply NoDup_fst_map_to_list. }
  eexists. split.
  { apply rekey_fold. intros k d Hk%Hin. eapply f_chip_id; [done|by eexists]. }
  assert (∀ k d c, (k, d) ∈ in_order (devices t) → default 0 (asic_id_to_chip_id t !! k) = c ↔ asic_id_to_chip_id t !! k = Some c) as Hid.
  { intros k d c Hk%Hin. destruct (f_chip_id _ _ Hf k (mk_is_Some _ _ Hk)) as [c' ->]. cbn. naive_solver. }
  assert (∀ k d k' d', (k, d) ∈ in_order (devices t) → (k', d') ∈ in_order (devices t) →
    default 0 (asic_id_to_chip_id t !! k) = default 0 (asic_id_to_chip_id t !! k') → k = k') as Hinj.
  { intros k d k' d' Hk Hk' Heq. pose proof (proj1 (Hid k d _ Hk) Heq) as Hc.
    pose proof (proj1 (Hid k' d' _ Hk') eq_refl) as Hc'. apply Hin in Hk, Hk'.
    eapply (f_injective _ _ Hf); [by eexists|by eexists|done|done]. }
  intros c d. transitivity (∃ k, (k, d) ∈ in_order (devices t) ∧ default 0 (asic_id_to_chip_id t !! k) = c).
  2: { split; intros (k & Hc & Hk).
    - exists k. split; [by eapply Hid|by apply Hin].
    - apply Hin in Hk. exists k. split; [done|]. by eapply Hid. }
  exact (fold_insert_keyed (λ k, default 0 (asic_id_to_chip_id t !! k)) _ c d Hnd Hinj).
Qed.
End rekeyed.
