(* ===== verification/TopologyExamples.v ===== *)
(** * TopologyExamples

    An N300: a Wormhole chip on PCIe and one behind two of its Ethernet links.
    The hypotheses of the properties of topology discovery hold of it; a run,
    and what happens when the remote chip or the links are out of order. *)

From Stdlib Require Import ZArith Lia.
From stdpp Require Import base gmap list list_numbers sorting strings numbers sets.
From S2P Require Import DeviceAccess.
From S2P Require Import Prelude CoreTypes ArchData Harvesting CoordinateManager SemVer RiscType BoardTypes.
From S2P Require Import Managers SocArch SocDescriptor FirmwareFeatures FirmwareInfo.
From S2P Require Import ClusterState EthConnections Topology Discover TopologyArchs TopologyTheory TopologyWalk TopologyProperties.

Local Open Scope Z_scope.

Definition n300_board_id : Z := 0x14 * 2 ^ 36 + 5.
Definition n300_info : ChipInfo := MkChipInfo true (MkMasks 0 0 0 0 0) N300 n300_board_id 0.
Definition n300_soc : result Soc.SocDescriptor :=
  d ← SocArchDescriptor_of_arch WORMHOLE_B0; Soc.SocDescriptor_new (Some d) n300_info.

(** The chips are 0 and 1; their ASIC ids share the board's word. *)
Definition board_word : Z := 5.
Definition asic_of (k : Z) : Z := k * 2 ^ 32 + board_word.
(** Links: channels 8 and 9 of chip 0 to 0 and 1 of chip 1. *)
Definition far_end (k channel : Z) : option (Z * Z) :=
  if k =? 0 then if channel =? 8 then Some (1, 0) else if channel =? 9 then Some (1, 1) else None
  else if channel =? 0 then Some (0, 8) else if channel =? 1 then Some (0, 9) else None.
(** The position of a core among the Ethernet cores. *)
Definition channel_of (c : CoreCoord) : Z :=
  match list_find (λ p, p = XY (cc_x c) (cc_y c)) wormhole.ETH_CORES_NOC0 with Some (n, _) => Z.of_nat n | None => 99 end.

(** The firmware's memory; the heartbeat counts the reads. *)
Definition firmware_word (k : Z) (c : CoreCoord) (addr beat : Z) : Z :=
  let far := far_end k (channel_of c) in
  let far_chip := match far with Some (p, _) => p | None => 0 end in
  if addr =? Wormhole.ETH_HEARTBEAT_ADDR then 0xABCD0000 + beat mod 65536
  else if addr =? Wormhole.RESULTS_BUF + 4 * 64 then board_word
  else if addr =? Wormhole.RESULTS_BUF + 4 * 65 then k
  else if addr =? Wormhole.RESULTS_BUF + 4 * 72 then board_word
  else if addr =? Wormhole.RESULTS_BUF + 4 * 73 then far_chip
  else if addr =? Wormhole.RESULTS_BUF + 4 * 76 then match far with Some (_, n) => n | None => 0 end
  else if addr =? Wormhole.NODE_INFO + 8 then k * 2 ^ 16
  else if addr =? Wormhole.NODE_INFO + 4 * 9 then far_chip * 2 ^ 16
  else 0.

(** A device is chip 1 or not; the bus has a clock and the count.
    [init_ok] tells which chips start, [heard] which have a firmware that runs. *)
Definition number (d : bool) : Z := if d then 1 else 0.
Section n300.
Context (init_ok heard : bool → bool).

#[local] Instance n300 : Devices := {|
  TTDevice := bool;
  Bus := Z * Z;
  clock := fst;
  sleep_for := λ n b, (b.1 + n, b.2);
  enumerate := λ _ b, (Ok [0], b);
  create_device := λ _ n _ b, (Ok (n =? 1), b);
  create_remote := λ _ coord _ b, (Ok (ec_x coord =? 1), b);
  set_power_busy := λ _ b, (Ok tt, b);
  init_tt_device := λ d _ b, (if init_ok d then InitDone else InitFailed ArcStartup, b);
  dev_arch := λ _, WORMHOLE_B0;
  is_remote := λ d, d;
  pci_device := λ d, if d then None else Some ("0000:01:00.0"%string, 1);
  communication_id := number;
  selected_noc := DeviceAccess.NOC0;
  get_soc_descriptor := λ _ b, (n300_soc, b);
  get_chip_info := λ _ b, (Ok n300_info, b);
  dev_board_id := λ d b, (Ok n300_board_id, b);
  dev_board_type := λ d b, (Ok N300, b);
  read_from_device := λ d c addr n b, (Ok (firmware_word (number d) c addr b.2), (b.1, b.2 + 1));
  write_to_device_reg := λ _ _ _ _ b, (Ok tt, b);
  get_risc_reset_state := λ d _ b, (Ok (if heard d then 0 else 2 ^ 11), b);
  read_eth_core_training_status := λ d c b, (Ok (match far_end (number d) (channel_of c) with Some _ => 1 | None => 3 end), b);
  wait_eth_core_training := λ _ _ _ b, (Ok 0, b);
  get_firmware_version := λ _ b, (Ok (MkSemVer 18 9 0 0), b);
  get_eth_fw_version_semver := λ _ b, (Ok (Some (MkSemVer 0 0 0 0)), b);
  read_telemetry := λ _ _ b, (Ok 0, b)
|}.
Definition lenient (remote : bool) : TopologyDiscoveryOptions :=
  MkOptions IGNORE IGNORE IGNORE IGNORE IGNORE IGNORE remote true false false false.
#[local] Instance n300_arch : TopologyArch := Wormhole.TopologyDiscoveryWormhole (lenient true).

(** What a run of [create_ethernet_map] returns. *)
Definition n300_run : option (result (ClusterDescriptor * Report)) :=
  match create_ethernet_map (H1:=n300_arch) (lenient true) PCIe (H2:=sorted_order) 5 5 new_topology (0, 0) with
  | Some (r, _, _) => Some r
  | None => None
  end.

(** ** The laws hold *)

Definition runtime (e : error) : Prop := ∃ what, e = RuntimeError what.
Lemma thrown_runtime {A} what : thrown_ok runtime (throw (A:=A) what).
Proof. intros e [= <-]. by eexists. Qed.
Lemma thrown_bind {A B} (m : result A) (f : A → result B) :
  thrown_ok runtime m → (∀ a, thrown_ok runtime (f a)) → thrown_ok runtime (m ≫= f).
Proof. intros Hm Hf. destruct m as [a|e]; [apply Hf|]. intros e' [= <-]. by apply Hm. Qed.

Lemma translate_runtime soc core s : thrown_ok runtime (Soc.translate_coord_to soc core s).
Proof.
  unfold Soc.translate_coord_to, translate_coord_to. repeat (case_decide; [apply thrown_runtime|]).
  destruct (_ !! core); [|apply thrown_runtime]. destruct (_ !! _); [apply thrown_Ok|apply thrown_runtime].
Qed.

Definition soc_checks (soc : Soc.SocDescriptor) : bool :=
  bool_decide (Soc.arch soc = WORMHOLE_B0) &&
  match Soc.get_cores soc ETH NOC0 None with Ok _ => true | Err _ => false end &&
  bool_decide (map_Forall (λ _ c, 0 ≤ cc_y c < 32) (from_noc0_map (maps (manager (Soc.coordinate_manager soc))))).
Lemma n300_soc_checks : match n300_soc with Ok soc => soc_checks soc = true | Err _ => False end.
Proof. vm_compute. reflexivity. Qed.

Lemma channel_bound soc core n :
  soc_checks soc = true → Soc.get_eth_channel_for_core soc core = Ok n → 0 ≤ n < 32.
Proof.
  intros [_ Hf%bool_decide_eq_true]%andb_true_iff. unfold Soc.get_eth_channel_for_core, Soc.translate_coord_to, translate_coord_to.
  repeat (case_decide; [done|]). destruct (_ !! core) as [p|]; [|done]. destruct (_ !! (p, LOGICAL)) as [c|] eqn:Hc; [|done].
  intros [= <-]. apply Hf in Hc. unfold u32. rewrite Z.mod_small by lia. done.
Qed.
Lemma soc_runtime soc : soc_checks soc = true → soc_answers runtime soc.
Proof.
  intros Hs. pose proof (channel_bound soc) as Hb. pose proof Hs as [[Ha%bool_decide_eq_true Hc]%andb_true_iff _]%andb_true_iff. split.
  - by destruct (Soc.get_cores soc ETH NOC0 None); [apply thrown_Ok|].
  - intros core. apply thrown_bind; [apply translate_runtime|]. intros c. apply thrown_Ok.
  - intros core n. by apply Hb.
  - intros channels. unfold Soc.get_eth_xy_pairs_for_channels. apply thrown_bind; [|intros cs; apply thrown_Ok].
    unfold Soc.eth_cores_of_channels.
    assert (∀ acc, thrown_ok runtime (for_each channels
      (λ channel acc, c ← Soc.get_eth_core_for_channel soc channel TRANSLATED; Ok (acc ++ [c])) acc)) as Hall; [|apply Hall].
    induction channels as [|n channels IH]; intros acc; [apply thrown_Ok|]. cbn [for_each].
    apply thrown_bind; [|apply IH]. apply thrown_bind; [apply translate_runtime|]. intros c. apply thrown_Ok.
  - intros core. unfold Soc.translate_chip_coord_to_translated. apply thrown_bind; [|intros c; apply thrown_Ok].
    unfold Soc.translate_chip_coord_to_translated_coord. rewrite Ha.
    case_decide; [apply thrown_Ok|]. destruct (negb _); [apply translate_runtime|]. cbn zeta.
    rewrite (bool_decide_eq_false_2 (WORMHOLE_B0 = BLACKHOLE)) by done. cbn [andb].
    destruct (_ && _); apply translate_runtime.
  - intros core s. apply translate_runtime.
Qed.

(** The Ethernet cores are numbered as in [channel_of]. *)
Definition core_of (channel : Z) : CoreCoord :=
  match wormhole.ETH_CORES_NOC0 !! Z.to_nat channel with Some p => CoreCoord_of_pair p ETH NOC0 | None => CoreCoord_of_pair (XY 0 0) ETH NOC0 end.
Definition n300_cores : list CoreCoord := map core_of (seqZ 0 16).
Definition cores_check (soc : Soc.SocDescriptor) : bool :=
  bool_decide (Soc.get_cores soc ETH NOC0 None = Ok n300_cores) &&
  forallb (λ c, bool_decide (Soc.get_eth_channel_for_core soc c = Ok (channel_of c)) && bool_decide (core_of (channel_of c) = c)) n300_cores.
Lemma n300_cores_checks : match n300_soc with Ok soc => cores_check soc = true | Err _ => False end.
Proof. vm_compute. reflexivity. Qed.
#[local] Opaque n300_soc.
Lemma n300_laws : @DevicesLaws n300 runtime.
Proof.
  split; cbn; try (unfold answers; intros; split; [apply thrown_Ok|cbn; lia]).
  - intros what. by exists what.
  - intros _. by left.
  - intros n b. lia.
  - intros d n b. split; [|lia]. by destruct (init_ok d).
  - intros d b. cbn. split; [|lia]. pose proof n300_soc_checks as Hs. destruct n300_soc; [apply thrown_Ok|done].
  - intros d b soc Hsoc. cbn in Hsoc. pose proof n300_soc_checks as Hs. rewrite Hsoc in Hs. by apply soc_runtime.
Qed.

(** The ids told. *)
Definition n300_ids : gset Z := {[asic_of 0; asic_of 1; n300_board_id]}.
Lemma n300_genuine u : u ∈ n300_ids → is_marked_unhealthy u = false.
Proof.
  unfold n300_ids. rewrite !elem_of_union, !elem_of_singleton. by intros [[->| ->]| ->].
Qed.

Lemma far_chip_cases k c : match far_end k (channel_of c) with Some (p, _) => p | None => 0 end = 0 ∨
  match far_end k (channel_of c) with Some (p, _) => p | None => 0 end = 1.
Proof. unfold far_end. repeat (destruct (_ =? _)); auto. Qed.
Lemma asic_in k : k = 0 ∨ k = 1 → Z.lor (Z.shiftl k 32) board_word ∈ n300_ids.
Proof. unfold n300_ids. rewrite !elem_of_union, !elem_of_singleton. intros [->| ->]; vm_compute; auto. Qed.
Lemma n300_arch_laws : @TopologyLaws n300 n300_arch runtime n300_ids.
Proof.
  apply wormhole_laws; [apply n300_laws|..].
  - intros d c t b id [= <-]. apply asic_in. apply (far_chip_cases (number d) c).
  - intros d c t b id [= <-]. apply asic_in. destruct d; auto.
  - intros d b id [= <-]. unfold n300_ids. set_solver.
Qed.

(** ** The network is honest *)

Lemma tells_bind {A B} (m : T A) (f : A → T B) v w : tells m v → tells (f v) w → tells (m ≫= f) w.
Proof.
  intros Hm Hf t b. specialize (Hm t b). unfold tells_at, mbind, T_bind in *. destruct (m t b) as [[[[a|e] t'] b']|]; [|done..].
  subst a. apply Hf.
Qed.
Lemma tells_any {A B} (m : T A) (f : A → T B) w : (∀ a, tells (f a) w) → tells (m ≫= f) w.
Proof. intros Hf t b. unfold tells_at, mbind, T_bind. destruct (m t b) as [[[[a|e] t'] b']|]; [apply Hf|done..]. Qed.
Lemma tells_ret {A} (a : A) : tells (mret a) a.
Proof. by intros t b. Qed.

Definition chip_of (i : Z) : Z := if i =? asic_of 0 then 0 else 1.
Definition far_chip (i : Z) (c : CoreCoord) : Z := match far_end (chip_of i) (channel_of c) with Some (p, _) => p | None => 0 end.
Definition n300_network : Network := {|
  is_chip := λ d i, i = asic_of (number d);
  chip_cores := λ _, match n300_soc with
                     | Ok soc => match Soc.get_cores soc ETH NOC0 None with Ok l => l | Err _ => [] end | Err _ => [] end;
  chip_channel := λ _ c, match n300_soc with
                         | Ok soc => match Soc.get_eth_channel_for_core soc c with Ok n => n | Err _ => 0 end | Err _ => 0 end;
  usable := λ i c, ((i =? asic_of 0) || (i =? asic_of 1)) &&
                   match far_end (chip_of i) (channel_of c) with Some _ => true | None => false end;
  peer := λ i c, asic_of (far_chip i c);
  far_board := λ _ _, board_word;
  far_channel := λ i c, match far_end (chip_of i) (channel_of c) with Some (_, n) => n | None => 0 end;
  far_coord := λ i c, Some (MkEthCoord 0 (far_chip i c) 0 0 0)
|}.
Lemma chip_of_asic d : chip_of (asic_of (number d)) = number d.
Proof. by destruct d. Qed.

Definition beat_word (beat : Z) : Z := 0xABCD0000 + beat mod 65536.
Lemma beat_word_facts beat :
  (beat_word beat =? 0) = false ∧ Z.shiftr (beat_word beat) 16 = BASE_FW_HEARTBEAT_SIGNATURE ∧
  (beat_word beat =? beat_word (beat + 1)) = false.
Proof.
  unfold beat_word. pose proof (Z.mod_pos_bound beat 65536 ltac:(lia)). split_and!.
  - apply Z.eqb_neq. lia.
  - rewrite Z.shiftr_div_pow2 by lia. symmetry. apply (Z.div_unique_pos _ _ _ (beat mod 65536)); [lia|].
    unfold BASE_FW_HEARTBEAT_SIGNATURE. lia.
  - apply Z.eqb_neq. intros Heq. assert (beat mod 65536 = (beat + 1) mod 65536) as Hm by lia.
    pose proof (Z.div_mod beat 65536 ltac:(lia)). pose proof (Z.div_mod (beat + 1) 65536 ltac:(lia)). lia.
Qed.
Lemma heartbeat_tells beats d i c : (0 < beats)%nat → tells (eth_heartbeat_running (H1:=n300_arch) (lenient true) beats d i c) true.
Proof.
  destruct beats as [|beats]; [lia|]. intros _ t b. unfold tells_at, eth_heartbeat_running, read_clock, mbind, T_bind. cbn [await_start].
  unfold mbind, T_bind.
  assert (∀ b, get_eth_heartbeat (TopologyArch:=n300_arch) d c t b = Some (Ok (beat_word b.2), t, (b.1, b.2 + 1))) as Hread by done.
  rewrite Hread. destruct (beat_word_facts b.2) as (Hnz & _ & Hne). rewrite Hnz. cbn [negb await_change].
  unfold mret, T_ret, mbind, T_bind. rewrite Hread. cbn [fst snd]. destruct (beat_word_facts (b.2 + 1)) as (_ & Hsig & _).
  rewrite Hsig, Hne. done.
Qed.

Lemma port_tells d c : tells (Wormhole.wormhole_port_disabled d c) false.
Proof.
  unfold Wormhole.wormhole_port_disabled. apply (tells_bind _ _ 0); [by intros t b|].
  apply tells_any. intros soc. apply tells_any. intros n.
  destruct (n <? 32); [|by intros t b]. rewrite Z.bits_0. apply tells_ret.
Qed.
Lemma reset_tells d c : heard d = true → tells (erisc0_in_reset d c) false.
Proof.
  intros Hd. unfold erisc0_in_reset. apply (tells_bind _ _ 0); [intros t b; cbn; by rewrite Hd|].
  apply (tells_bind _ _ 0); [|apply tells_ret]. by intros t b.
Qed.
Lemma verify_tells d i c : tells (verify_eth_core_fw_version (H1:=n300_arch) (lenient true) d i c) true.
Proof.
  unfold verify_eth_core_fw_version. apply tells_any. intros v. apply tells_any. intros t.
  apply tells_any. intros [expected too_old]. apply tells_any. intros _. by intros t' b.
Qed.
Lemma trained_tells d c :
  tells (is_eth_trained d c) (match far_end (number d) (channel_of c) with Some _ => true | None => false end).
Proof. intros t b. unfold tells_at, is_eth_trained, ask, mbind, T_bind. cbn. by destruct (far_end _ _). Qed.

Lemma link_tells beats d i c :
  (0 < beats)%nat → heard d = true → i = asic_of (number d) →
  tells (link_usable (H1:=n300_arch) (lenient true) beats d i c) (usable n300_network i c).
Proof.
  intros Hb Hd ->. unfold link_usable. apply (tells_bind _ _ false); [apply port_tells|].
  apply (tells_bind _ _ false); [by apply reset_tells|]. apply (tells_bind _ _ true).
  { unfold heartbeat_passed. apply (tells_bind _ _ true); [by apply heartbeat_tells|apply tells_ret]. }
  apply (tells_bind _ _ true); [apply verify_tells|]. apply tells_any. intros _.
  cbn [negb usable n300_network]. rewrite chip_of_asic.
  assert (((asic_of (number d) =? asic_of 0) || (asic_of (number d) =? asic_of 1)) = true) as -> by (by destruct d). cbn [andb]. eapply tells_bind; [apply trained_tells|].
  destruct (far_end _ _); [|apply tells_ret]. apply tells_any. intros _. apply tells_ret.
Qed.

Lemma far_chip_of d c :
  far_chip (asic_of (number d)) c = match far_end (number d) (channel_of c) with Some (p, _) => p | None => 0 end.
Proof. unfold far_chip. by rewrite chip_of_asic. Qed.
Lemma peer_in i c : asic_of (far_chip i c) ∈ n300_ids.
Proof.
  unfold n300_ids, far_chip. rewrite !elem_of_union, !elem_of_singleton.
  destruct (far_chip_cases (chip_of i) c) as [-> | ->]; auto.
Qed.
Lemma asic_words d c : Z.lor (Z.shiftl (far_chip (asic_of (number d)) c) 32) board_word = asic_of (far_chip (asic_of (number d)) c).
Proof. rewrite far_chip_of. by destruct (far_chip_cases (number d) c) as [-> | ->]. Qed.
Lemma coord_words d c :
  MkEthCoord 0 (Z.land (Z.shiftr (far_chip (asic_of (number d)) c * 2 ^ 16) 16) 63)
    (Z.land (Z.shiftr (far_chip (asic_of (number d)) c * 2 ^ 16) 22) 63) 0 0 = MkEthCoord 0 (far_chip (asic_of (number d)) c) 0 0 0.
Proof. rewrite far_chip_of. by destruct (far_chip_cases (number d) c) as [-> | ->]. Qed.

Lemma remote_asic_tells d c : tells (Wormhole.wormhole_remote_asic_id d c) (peer n300_network (asic_of (number d)) c).
Proof. intros t b. cbn [peer n300_network]. rewrite <- asic_words, far_chip_of. reflexivity. Qed.
Lemma board_tells d c t b : is_running_on_6u t = false → tells_at (Wormhole.wormhole_remote_board_id d c) board_word t b.
Proof.
  intros H6. unfold tells_at, Wormhole.wormhole_remote_board_id, running_on_6u, mbind, T_bind, get, mret, T_ret.
  by rewrite H6.
Qed.
Lemma remote_coord_tells d c : tells (Wormhole.wormhole_remote_eth_coord d c) (far_coord n300_network (asic_of (number d)) c).
Proof. intros t b. cbn [far_coord n300_network]. rewrite <- coord_words, far_chip_of. reflexivity. Qed.
Lemma create_tells i c gateway channels t b :
  match Wormhole.wormhole_create_remote (far_coord n300_network i c) gateway channels t b with
  | Some (Ok (Some d), _, _) => is_chip n300_network d (peer n300_network i c) | _ => True end.
Proof.
  unfold Wormhole.wormhole_create_remote, running_on_6u, mbind, T_bind, get, mret, T_ret. destruct (is_running_on_6u t); [done|].
  unfold ask, tlift. cbn -[asic_of]. destruct n300_soc as [soc|]; [|done].
  destruct (Soc.get_eth_xy_pairs_for_channels _ _ _); [|done]. cbn -[asic_of far_chip].
  unfold far_chip. by destruct (far_chip_cases (chip_of i) c) as [-> | ->].
Qed.

Lemma n300_honest beats :
  (0 < beats)%nat → (∀ d, heard d = true) → (∀ d, init_ok d = true) →
  honest (H1:=n300_arch) n300_ids (lenient true) beats n300_network.
Proof.
  intros Hb Hh Hi. split.
  - done.
  - done.
  - intros d i b soc cores _ Hsoc Hcores. cbn in Hsoc. unfold chip_cores, n300_network. by rewrite Hsoc, Hcores.
  - intros d i b soc c n _ Hsoc _ Hn. cbn in Hsoc. unfold chip_channel, n300_network. by rewrite Hsoc, Hn.
  - intros d i c Hd _. by apply link_tells.
  - intros d i c -> _ _. apply remote_asic_tells.
  - intros d i c t b -> _ _. apply board_tells.
  - intros d i c -> _ _ t b. cbn [far_channel n300_network]. by rewrite chip_of_asic.
  - intros d i c -> _ _. apply remote_coord_tells.
  - intros i c gateway channels t b _ _. apply create_tells.
  - intros d i chip_id _ t b. unfold tells_at, init_device, ask, mbind, T_bind. cbn. by rewrite Hi.
  - intros i c _ _. apply peer_in.
Qed.

Lemma network_cores i c :
  c ∈ chip_cores n300_network i ↔ c ∈ n300_cores.
Proof.
  cbn [chip_cores n300_network]. pose proof n300_cores_checks as Hc. destruct n300_soc as [soc|]; [|done].
  apply andb_true_iff in Hc as [Hc%bool_decide_eq_true _]. by rewrite Hc.
Qed.
Lemma network_channel i c : c ∈ n300_cores → chip_channel n300_network i c = channel_of c ∧ core_of (channel_of c) = c.
Proof.
  intros Hin. cbn [chip_channel n300_network]. pose proof n300_cores_checks as Hc. destruct n300_soc as [soc|]; [|done].
  apply andb_true_iff in Hc as [_ Hall]. apply list_elem_of_In in Hin. apply (proj1 (forallb_forall _ _) Hall) in Hin.
  apply andb_true_iff in Hin as [Hn%bool_decide_eq_true Hcore%bool_decide_eq_true]. by rewrite Hn.
Qed.
(** The ends of the two links. *)
Definition n300_ends : list ((Z * Z) * (Z * Z)) := [((0, 8), (1, 0)); ((0, 9), (1, 1)); ((1, 0), (0, 8)); ((1, 1), (0, 9))].
Lemma network_link k n k' n' :
  ((k, n), (k', n')) ∈ n300_ends →
  core_of n ∈ n300_cores ∧ usable n300_network (asic_of k) (core_of n) = true ∧
  link_of n300_network (asic_of k) (core_of n) = ((asic_of k, n), (asic_of k', n')).
Proof.
  intros He. assert (core_of n ∈ n300_cores ∧ channel_of (core_of n) = n) as [Hin Hn].
  { unfold n300_ends in He. repeat (apply elem_of_cons in He as [[= -> -> -> ->]|He]; [split; [apply (bool_decide_unpack _); vm_compute; exact I|reflexivity]|]).
    by apply elem_of_nil in He. }
  split; [done|]. destruct (network_channel (asic_of k) _ Hin) as [Hch _]. unfold link_of. rewrite Hch, Hn.
  cbn [usable peer far_channel n300_network]. unfold far_chip. rewrite Hn.
  unfold n300_ends in He. repeat (apply elem_of_cons in He as [[= -> -> -> ->]|He]; [split; vm_compute; reflexivity|]). apply elem_of_nil in He; destruct He.
Qed.
Lemma network_followed i c : c ∈ n300_cores → usable n300_network i c = true →
  ∃ k n k' n', i = asic_of k ∧ c = core_of n ∧ ((k, n), (k', n')) ∈ n300_ends.
Proof.
  intros Hin Hus. cbn [usable n300_network] in Hus. apply andb_true_iff in Hus as [Hi Hend].
  destruct (network_channel i c Hin) as [_ Hcore].
  assert (∃ k, (k = 0 ∨ k = 1) ∧ i = asic_of k ∧ chip_of i = k) as (k & Hk & -> & Hchip).
  { apply orb_true_iff in Hi as [Hi%Z.eqb_eq|Hi%Z.eqb_eq]; subst i; [exists 0|exists 1]; auto. }
  rewrite Hchip in Hend. destruct (far_end k (channel_of c)) as [[k' n']|] eqn:Hf; [|done].
  exists k, (channel_of c), k', n'. split_and!; [done|done|]. unfold far_end in Hf.
  destruct Hk as [->| ->]; cbn [Z.eqb] in Hf; revert Hf;
    repeat (match goal with |- context [channel_of c =? ?x] => destruct (Z.eqb_spec (channel_of c) x) as [->|] end; [intros [= <- <-]; unfold n300_ends; rewrite !elem_of_cons; tauto|]); done.
Qed.
Lemma n300_symmetric (B : gset Z) : symmetric B n300_network.
Proof.
  intros i c (Hin%network_cores & Hus & Hb). destruct (network_followed i c Hin Hus) as (k & n & k' & n' & -> & -> & He).
  destruct (network_link k n k' n' He) as (_ & _ & Hl).
  assert (((k', n'), (k, n)) ∈ n300_ends) as He'.
  { unfold n300_ends in *. repeat (apply elem_of_cons in He as [[= -> -> -> ->]|He]; [rewrite !elem_of_cons; tauto|]).
    apply elem_of_nil in He. destruct He. }
  destruct (network_link k' n' k n He') as (Hin' & Hus' & Hl').
  assert (peer n300_network (asic_of k) (core_of n) = asic_of k') as Hp by exact (f_equal (λ l, l.2.1) Hl).
  exists (core_of n'). rewrite Hp, Hl, Hl'. split; [|reflexivity]. split; [by apply network_cores|]. split; [exact Hus'|exact Hb].
Qed.
End n300.

(** ** The hypotheses hold *)

Definition good : bool → bool := λ _, true.
Definition n300_start : option (result unit * @TopologyDiscovery (n300 good good) * (Z * Z)) :=
  connect_and_retrain (H1:=n300_arch good good) (lenient true) PCIe new_topology (0, 0).
Lemma n300_started :
  match n300_start with
  | Some (Ok _, t, _) => is_running_on_6u t = false ∧ map_to_list (devices_to_discover t) = [(asic_of 0, false)]
  | _ => False end.
Proof. vm_compute. auto. Qed.
Lemma n300_bounds : Z.of_nat 1 + Z.of_nat (size n300_ids) < 2 ^ 31 ∧ (1 + size n300_ids < 5)%nat.
Proof. vm_compute. split; [reflexivity|lia]. Qed.

Lemma discovery_ends_safely_witness :
  match n300_start with
  | Some (Ok _, t, b) =>
      match discover_remote_devices (H1:=n300_arch good good) (lenient true) 5 enough_beats t b with
      | Some (Ok _, t', _) => found (dom (devices_to_discover t)) t'
      | Some (Err e, _, _) => runtime e
      | None => False
      end
  | _ => False
  end.
Proof.
  destruct n300_bounds as [Hn Hfuel].
  pose proof (@discovery_ends_safely (n300 good good) (n300_arch good good) runtime n300_ids (n300_laws good good)
    (n300_arch_laws good good) (lenient true) PCIe 1 5 enough_beats (0, 0) n300_genuine
    (λ b ids Hids, ltac:(injection Hids as <-; cbn; lia)) Hn Hfuel (le_n _)) as H.
  pose proof n300_started as Hs. fold n300_start in H.
  destruct n300_start as [[[[u|e] t] b]|]; [|destruct Hs..]. apply H. left. apply Hs.
Defined.

Lemma discovery_finds_network_witness :
  match n300_start with
  | Some (Ok _, t, b) =>
      ∃ r t' b', discover_remote_devices (H1:=n300_arch good good) (lenient true) 5 enough_beats t b = Some (r, t', b') ∧
        match r with Err e => runtime e | Ok _ => found_network (dom (devices_to_discover t)) (board_ids t) (n300_network good good) t' end
  | _ => False
  end.
Proof.
  destruct n300_bounds as [Hn Hfuel].
  pose proof (@connect_and_retrain_wp (n300 good good) (n300_arch good good) runtime n300_ids (n300_laws good good)
    (n300_arch_laws good good) (lenient true) PCIe 1 (0, 0) n300_genuine
    (λ b ids Hids, ltac:(injection Hids as <-; cbn; lia)) ltac:(lia)) as Hc.
  unfold wp in Hc. fold n300_start in Hc. pose proof n300_started as Hs.
  destruct n300_start as [[[[u|e] t] b]|]; [|destruct Hs..]. destruct Hs as [H6 Htodo]. cbn in Hc.
  pose proof (connecting_connected n300_ids _ t Hc Hn (or_introl H6)) as Hcon.
  apply (@discovery_finds_network (n300 good good) (n300_arch good good) runtime n300_ids (n300_laws good good)
    (n300_arch_laws good good) (lenient true) (n300_network good good) 5 enough_beats t b).
  - apply n300_genuine.
  - exact Hcon.
  - assert (size (dom (devices_to_discover t)) ≤ 1)%nat by (pose proof (k_size _ _ Hc); pose proof (k_next _ _ Hc); lia). lia.
  - apply le_n.
  - reflexivity.
  - split; [apply n300_honest; [unfold enough_beats, polls; lia|reflexivity|reflexivity]|apply n300_symmetric|].
    intros k d Hd _. apply elem_of_map_to_list in Hd. pose proof (eq_ind _ (λ l, (k, d) ∈ l) Hd _ Htodo) as Hin.
    apply list_elem_of_singleton in Hin as [= -> ->]. reflexivity.
Defined.

(** A topology of the two chips. *)
Definition two_chips : @TopologyDiscovery (n300 good good) :=
  @MkTopology (n300 good good) ∅ {[asic_of 0 := false; asic_of 1 := true]} {[asic_of 0 := 0; asic_of 1 := 1]} ∅ [] [] ∅ ∅
    {[asic_of 0 := asic_of 0; asic_of 1 := asic_of 0]} ∅ false None None 2.
Lemma two_chips_found : @found (n300 good good) {[asic_of 0]} two_chips.
Proof.
  assert (∀ {V} (x y : V) k v, ({[asic_of 0 := x; asic_of 1 := y]} : gmap Z V) !! k = Some v → (k = asic_of 0 ∧ v = x) ∨ (k = asic_of 1 ∧ v = y)) as Hcase.
  { intros V x y k v [[<- <-]|[_ [<- <-]%lookup_singleton_Some]]%lookup_insert_Some; auto. }
  split.
  - reflexivity.
  - intros k ->%elem_of_singleton. by exists false.
  - intros k [d [[-> _]|[-> _]]%Hcase]; by eexists.
  - intros k k' c [d [[-> _]|[-> _]]%Hcase] [d' [[-> _]|[-> _]]%Hcase]; vm_compute; congruence.
  - intros k [d [[-> _]|[-> _]]%Hcase] _; exists (asic_of 0); (split; [reflexivity|]); (split; [set_solver|by exists 0]).
Qed.
Lemma rekey_keeps_devices_witness :
  ∃ m, @rekey (n300 good good) (in_order (devices two_chips)) two_chips (0, 0) = Some (Ok m, two_chips, (0, 0)) ∧ m !! 1 = Some true.
Proof.
  destruct (@rekey_keeps_devices (n300 good good) {[asic_of 0]} two_chips (0, 0) two_chips_found) as (m & Hm & Hall).
  exists m. split; [exact Hm|]. apply Hall. exists (asic_of 1). split; reflexivity.
Defined.

(** ** Runs *)

(** Both chips, the links between them, the gateway. *)
Example n300_found :
  match n300_run good good with
  | Some (Ok (d, (unhealthy, _))) =>
      all_chips d = {[0; 1]} ∧ map_to_list (chips_with_mmio d) = [(0, 0)] ∧ map_to_list (closest_mmio_chip_cache d) = [(1, 0)] ∧
      connection (ethernet_connections (links d)) (0, 8) = Some (1, 0) ∧ unhealthy = []
  | _ => False
  end.
Proof. vm_compute. auto. Qed.

(** A remote chip that does not start, which the option [IGNORE] is to let pass:
    its ASIC id has active channels but no device, and [devices.at] throws. *)
Example failed_remote_not_reported : n300_run (λ d, negb d) good = Some (Err OutOfRange).
Proof. vm_compute. reflexivity. Qed.
(** A chip without a core that runs its firmware has no coordinate, and
    [eth_coords.at] throws. *)
Example silent_chip_not_placed : n300_run good (λ d, negb d) = Some (Err OutOfRange).
Proof. vm_compute. reflexivity. Qed.
