(* ===== verification/LocalChip.v ===== *)
(** * LocalChip

    [chip/chip.cpp], [chip/local_chip.cpp], [chip/remote_chip.cpp]: what a chip of
    the cluster does with its device. A chip on this host has memory barriers
    (a flag is written to every core and read back until it has arrived) and
    system memory; a remote one is reached through its gateway and only waits
    for what is in flight.

    The accesses of a local chip are those of [TlbManager], here parameters; the
    device's own operations are those of [TTDevice] over the [DeviceProtocol].
    What an architecture implements (clock, ARC messages, training) is a
    parameter of the section. *)

From Stdlib Require Import ZArith Lia.
From stdpp Require Import base list list_numbers numbers strings gmap sets.
From S2P Require Import Prelude CoreTypes ArchData Harvesting RiscType RemoteQueue RemoteWrite SocDescriptor DeviceAccess TTDevice TTDeviceProperties ArchDevices.
From S2P Require Topology.

Local Open Scope Z_scope.

(** Loops over a container. *)
Fixpoint for_M {F X} (l : list X) (f : X → M F unit) : M F unit :=
  match l with
  | [] => mret tt
  | x :: l => f x;; for_M l f
  end.

(** ** Constants *)

Definition MemBarFlag_SET : Z := 0xaa.
Definition MemBarFlag_RESET : Z := 0xbb.
Definition MEMBAR_SYNC_TIMEOUT : Z := 1000.
Definition ETH_TRAINING_TIMEOUT : Z := 900000.
Definition DRAM_TRAINING_TIMEOUT : Z := 300000.

(** [DeviceL1AddressParams] with [DeviceDramAddressParams]. *)
Record BarrierParams := MkBarrierParams { tensix_l1_barrier_base : Z; eth_l1_barrier_base : Z; DRAM_BARRIER_BASE : Z }.
(** [set_default_params]; Blackhole's and Quasar's addresses are the same. *)
Definition L1_BARRIER_BASE : Z := 0x16dfc0.
Definition ERISC_BARRIER_BASE : Z := 0x11fe0.
Definition set_default_params : BarrierParams := MkBarrierParams L1_BARRIER_BASE ERISC_BARRIER_BASE 0.
Definition set_barrier_address_params (tensix_base eth_base dram_base : Z) (_ : BarrierParams) : BarrierParams :=
  MkBarrierParams tensix_base eth_base dram_base.

Definition get_dram_banks_number (arch : ARCH) : result Z :=
  match arch with
  | WORMHOLE_B0 => Ok wormhole.NUM_DRAM_BANKS
  | BLACKHOLE => Ok blackhole.NUM_DRAM_BANKS
  | QUASAR => Ok grendel.NUM_DRAM_BANKS
  | Invalid => Err UndefinedBehaviour
  end.
Definition get_min_clock_freq (arch : ARCH) : result Z :=
  match arch with WORMHOLE_B0 => Ok 500 | BLACKHOLE | QUASAR => Ok 800 | Invalid => Err UndefinedBehaviour end.
Inductive DevicePowerState := BUSY | SHORT_IDLE | LONG_IDLE.

(** ** Chip *)

Section Chip.
Context {F : Type} `{!DeviceProtocol F} (arch : ARCH) (soc : Soc.SocDescriptor).

Definition get_risc_reset_state (core : CoreCoord) : M F Z :=
  soft_reset_current_state ← TTDevice.get_risc_reset_state arch (Some soc) core;
  lift (Topology.soft_reset_risc_type arch soft_reset_current_state).
Definition assert_risc_reset (core : CoreCoord) (selected_riscs : Z) : M F unit :=
  TTDevice.assert_risc_reset arch (Some soc) core selected_riscs.
Definition deassert_risc_reset (core : CoreCoord) (selected_riscs : Z) (staggered_start : bool) : M F unit :=
  TTDevice.deassert_risc_reset arch (Some soc) core selected_riscs staggered_start.
(** The overloads for all Tensix cores. *)
Definition assert_risc_reset_all (selected_riscs : Z) : M F unit :=
  cores ← lift (Soc.get_cores soc TENSIX CoreTypes.NOC0 None); for_M cores (λ core, assert_risc_reset core selected_riscs).
Definition deassert_risc_reset_all (selected_riscs : Z) (staggered_start : bool) : M F unit :=
  cores ← lift (Soc.get_cores soc TENSIX CoreTypes.NOC0 None); for_M cores (λ core, deassert_risc_reset core selected_riscs staggered_start).

(** [wait_chip_to_be_ready]; the device's waits take the time left and return
    the time taken. *)
Context (wait_eth_core_training : CoreCoord → Z → M F Z) (wait_dram_channel_training : Z → M F unit).
Fixpoint wait_eth_cores (cores : list CoreCoord) (timeout_left : Z) : M F unit :=
  match cores with
  | [] => mret tt
  | eth_core :: cores => taken ← wait_eth_core_training eth_core timeout_left; wait_eth_cores cores (timeout_left - taken)
  end.
Definition wait_eth_cores_training (timeout_ms : Z) : M F unit :=
  eth_cores ← lift (Soc.get_cores soc ETH CoreTypes.NOC0 None); wait_eth_cores eth_cores timeout_ms.
Definition wait_dram_cores_training : M F unit :=
  let dram_harvesting_mask := dram_harvesting_mask (Soc.masks soc) in
  banks ← lift (get_dram_banks_number arch);
  dram_cores ← lift (Soc.get_dram_cores soc);
  for_M (seqZ 0 (u32 (Z.min banks (vec_size dram_cores)))) (λ dram_channel,
    harvested ← lift (test_mask dram_harvesting_mask dram_channel);
    if harvested : bool then mret tt else wait_dram_channel_training dram_channel).
Definition wait_chip_to_be_ready : M F unit := wait_eth_cores_training ETH_TRAINING_TIMEOUT;; wait_dram_cores_training.

(** [arc_msg]; the booleans tell that [return_3] and [return_4] are not null.
    Returns the exit code and what is stored in the two. *)
Context (send_message : Z → list Z → list Z → Z → M F (Z * list Z)).
Definition optional_value (wanted : bool) (values : list Z) (k : Z) : result (option Z) :=
  if wanted then v ← vec_idx values k; Ok (Some v) else Ok None.
Definition arc_msg (msg_code : Z) (args : list Z) (timeout_ms : Z) (return_3 return_4 : bool) : M F (Z * option Z * option Z) :=
  '(exit_code, values) ← send_message msg_code ((if return_3 then [0] else []) ++ if return_4 then [0] else []) args timeout_ms;
  v3 ← lift (optional_value return_3 values 0);
  v4 ← lift (optional_value return_4 values 1);
  mret (i32 exit_code, v3, v4).

Context (tt_set_clock_state : PowerState → M F unit).
Definition set_clock_state (state : DevicePowerState) : M F unit :=
  tt_set_clock_state (match state with BUSY => POWER_BUSY | _ => POWER_IDLE end).
End Chip.

(** ** Memory barriers *)

Section Membar.
Context {F : Type} (now : F → Z) (soc : Soc.SocDescriptor) (params : BarrierParams).
(** [write_to_device] and [read_from_device] of the chip. *)
Context (io_write : CoreCoord → list Z → Z → M F unit) (io_read : CoreCoord → Z → nat → M F (list Z)).
(** Fuel for the rounds of polling. *)
Context (rounds : nat).

Definition write_flags (cores : list CoreCoord) (barrier_value barrier_addr : Z) : M F unit :=
  for_M cores (λ core, io_write core (word_bytes barrier_value) barrier_addr).
(** One pass over the cores: those that have the flag are added. *)
Fixpoint sync_round (cores : list CoreCoord) (barrier_value barrier_addr start : Z) (cores_synced : gset CoreCoord) : M F (gset CoreCoord) :=
  match cores with
  | [] => mret cores_synced
  | core :: cores =>
      if bool_decide (core ∈ cores_synced) then sync_round cores barrier_value barrier_addr start cores_synced
      else
        bytes ← io_read core barrier_addr 4;
        if le_word bytes =? barrier_value
        then sync_round cores barrier_value barrier_addr start ({[core]} ∪ cores_synced)
        else
          time ← steady_clock_now now;
          if timed_out start MEMBAR_SYNC_TIMEOUT time then raise "Memory barrier timed out"
          else sync_round cores barrier_value barrier_addr start cores_synced
  end.
Fixpoint sync_loop (fuel : nat) (cores : list CoreCoord) (barrier_value barrier_addr start : Z) (cores_synced : gset CoreCoord) : M F unit :=
  if bool_decide (size cores_synced = length cores) then mret tt
  else match fuel with
       | O => λ _, None
       | S fuel =>
           cores_synced ← sync_round cores barrier_value barrier_addr start cores_synced;
           sync_loop fuel cores barrier_value barrier_addr start cores_synced
       end.
Definition set_membar_flag (cores : list CoreCoord) (barrier_value barrier_addr : Z) : M F unit :=
  write_flags cores barrier_value barrier_addr;;
  start ← steady_clock_now now;
  sync_loop rounds cores barrier_value barrier_addr start ∅.

(** Under the MEM_BARRIER mutex of the device, which is released in any case. *)
Context (membar_lock membar_unlock : M F unit).
Definition insert_host_to_device_barrier (cores : list CoreCoord) (barrier_addr : Z) : M F unit :=
  TTDevice.under_dma_lock membar_lock membar_unlock (
    set_membar_flag cores MemBarFlag_SET barrier_addr;;
    set_membar_flag cores MemBarFlag_RESET barrier_addr).

(** Which barrier the cores of [l1_membar] take part in. *)
Definition include_dram_in_l1_membar : bool := bool_decide (Soc.arch soc = BLACKHOLE).
Definition sort_core (core : CoreCoord) (acc : list CoreCoord * list CoreCoord * list CoreCoord)
    : result (list CoreCoord * list CoreCoord * list CoreCoord) :=
  let '(workers, eth, dram) := acc in
  core_from_soc ← Soc.get_coord_at soc (to_pair core) (coord_system core);
  if decide (core_type core_from_soc = TENSIX) then Ok (workers ++ [core], eth, dram)
  else if decide (core_type core_from_soc = ETH) then Ok (workers, eth ++ [core], dram)
  else if include_dram_in_l1_membar && bool_decide (core_type core_from_soc = DRAM) then Ok (workers, eth, dram ++ [core])
  else throw "Can only insert an L1 Memory barrier on Tensix or Ethernet cores.".
Definition l1_barriers (workers eth dram : list CoreCoord) : M F unit :=
  insert_host_to_device_barrier workers (tensix_l1_barrier_base params);;
  insert_host_to_device_barrier eth (eth_l1_barrier_base params);;
  if include_dram_in_l1_membar then insert_host_to_device_barrier dram (DRAM_BARRIER_BASE params) else mret tt.
(** [cores] in the order the container has them. The list of cores of one type is
    made when it is used. *)
Definition l1_membar (cores : list CoreCoord) : M F unit :=
  match cores with
  | [] =>
      workers ← lift (Soc.get_cores soc TENSIX TRANSLATED None);
      insert_host_to_device_barrier workers (tensix_l1_barrier_base params);;
      eth ← lift (Soc.get_cores soc ETH TRANSLATED None);
      insert_host_to_device_barrier eth (eth_l1_barrier_base params);;
      if include_dram_in_l1_membar then
        dram ← lift (Soc.get_cores soc DRAM TRANSLATED None);
        insert_host_to_device_barrier dram (DRAM_BARRIER_BASE params)
      else mret tt
  | _ =>
      '(workers, eth, dram) ← lift (for_each cores sort_core ([], [], []));
      l1_barriers workers eth dram
  end.

(** One core of every channel. *)
Definition dram_channel_cores (subchannel : Z) : result (list CoreCoord) :=
  n ← Soc.get_num_dram_channels soc;
  for_each (seqZ 0 (u32 n)) (λ dram_idx acc, c ← Soc.get_dram_core_for_channel soc dram_idx subchannel TRANSLATED; Ok (acc ++ [c])) [].
Definition check_dram (core : CoreCoord) (_ : unit) : result unit :=
  c ← Soc.get_coord_at soc (to_pair core) (coord_system core);
  umd_assert (bool_decide (core_type c = DRAM)) "Can only insert a DRAM Memory barrier on DRAM cores.".
Definition dram_membar (cores : list CoreCoord) : M F unit :=
  match cores with
  | [] => cores ← lift (dram_channel_cores 0); insert_host_to_device_barrier cores (DRAM_BARRIER_BASE params)
  | _ => lift (for_each cores check_dram tt);; insert_host_to_device_barrier cores (DRAM_BARRIER_BASE params)
  end.
(** The overload by channels; the cores are a set. *)
Definition dram_channels_membar (channels : list Z) (subchannel : Z) : M F unit :=
  cores ← lift (for_each channels (λ chan acc, c ← Soc.get_dram_core_for_channel soc chan subchannel TRANSLATED; Ok ({[c]} ∪ acc)) (∅ : gset CoreCoord));
  dram_membar (elements cores).

Definition initialize_membars (dram_subchannel : Z) : M F unit :=
  workers ← lift (Soc.get_cores soc TENSIX TRANSLATED None);
  set_membar_flag workers MemBarFlag_RESET (tensix_l1_barrier_base params);;
  eth ← lift (Soc.get_cores soc ETH TRANSLATED None);
  set_membar_flag eth MemBarFlag_RESET (eth_l1_barrier_base params);;
  dram ← lift (dram_channel_cores dram_subchannel);
  set_membar_flag dram MemBarFlag_RESET (DRAM_BARRIER_BASE params).

(** ** Opening and closing a local chip *)

Context (kind : IODeviceKind) (arch : ARCH).
(** The CHIP_IN_USE mutex; [pin_or_map_sysmem_to_device] and
    [unpin_or_unmap_sysmem]; [clear_mapped_tlbs]; the clock and the power state. *)
Context (in_use_lock in_use_unlock pin_or_map_sysmem unpin_or_unmap_sysmem clear_mapped_tlbs : M F unit).
Context (get_clock : M F Z) (set_clock_state : DevicePowerState → M F unit) (assert_risc_reset_all : Z → M F unit).

Definition start_device (dram_membar_subchannel : Z) : M F unit :=
  match kind with
  | JTAG_device => mret tt
  | _ => in_use_lock;; pin_or_map_sysmem;; initialize_membars dram_membar_subchannel
  end.
(** A chip at its lowest clock is left alone. System memory and static windows
    there are only over PCIe. *)
Definition close_device : M F unit :=
  clock ← get_clock;
  min_clock ← lift (get_min_clock_freq arch);
  (if u32 clock =? min_clock then mret tt
   else
     set_clock_state LONG_IDLE;;
     assert_risc_reset_all RISC_ALL;;
     match kind with PCIe_device => unpin_or_unmap_sysmem;; clear_mapped_tlbs | _ => mret tt end);;
  in_use_unlock.

(** ** Host channels

    The sizes of the mapped host channels; [None] without a sysmem manager. *)
Definition get_num_host_channels (sysmem : option (list Z)) : Z := match sysmem with None => 0 | Some sizes => i32 (vec_size sizes) end.
Definition get_host_channel_size (sysmem : option (list Z)) (channel : Z) : result Z :=
  match sysmem with
  | None => Ok 0
  | Some sizes =>
      umd_assert (channel <? u32 (get_num_host_channels sysmem)) "Querying size for a host channel that does not exist.";;
      let mapping_size := nth (Z.to_nat channel) sizes 0 in
      umd_assert (negb (mapping_size =? 0)) "Host channel size can only be queried after the device has been started.";;
      Ok (i32 mapping_size)
  end.

(** [deassert_risc_resets] of a local chip: an ARC message on all but Blackhole. *)
Context (arc_msg : Z → list Z → M F unit).
Definition DEASSERT_RISCV_RESET : Z := 0xba.
Definition deassert_risc_resets : M F unit :=
  if decide (Soc.arch soc = BLACKHOLE) then mret tt else arc_msg (Z.lor 0xaa00 DEASSERT_RISCV_RESET) [0; 0].
End Membar.

(** ** RemoteChip *)

Section Remote.
Context {F : Type} (is_simulation : bool) (arch local_arch : ARCH).
Context (get_clock local_get_clock : M F Z) (set_clock_state : DevicePowerState → M F unit) (assert_risc_reset_all : Z → M F unit).
Context (remote_flush local_deassert_risc_resets : M F unit).

Definition remote_close_device : M F unit :=
  if is_simulation then mret tt
  else
    local_clock ← local_get_clock;
    local_min ← lift (get_min_clock_freq local_arch);
    if u32 local_clock =? local_min then mret tt
    else
      clock ← get_clock;
      min ← lift (get_min_clock_freq arch);
      if u32 clock =? min then mret tt else set_clock_state LONG_IDLE;; assert_risc_reset_all RISC_ALL.
(** Barriers of a remote chip wait for what is in flight. *)
Definition remote_wait_for_non_mmio_flush : M F unit := remote_flush.
Definition remote_membar : M F unit := remote_wait_for_non_mmio_flush.
Definition remote_deassert_risc_resets : M F unit := if is_simulation then mret tt else local_deassert_risc_resets.
Definition remote_unavailable {A} (what : string) : M F A := raise what.
Definition remote_dma : M F unit := remote_unavailable "DMA operations are not available on remote chips.".
(** [set_remote_transfer_ethernet_cores]: the gateway's coordinates. *)
Definition remote_transfer_cores (local_soc : Soc.SocDescriptor) (cores : list CoreCoord) : result (gset xy_pair) :=
  Soc.translate_coords_to_xy_pair local_soc cores TRANSLATED.
Definition remote_transfer_channels (local_soc : Soc.SocDescriptor) (channels : list Z) : result (gset xy_pair) :=
  Soc.get_eth_xy_pairs_for_channels local_soc channels TRANSLATED.
End Remote.

(** ** A barrier has arrived when it returns *)

Section MembarSpec.
Context {F : Type} (now : F → Z) (io_write : CoreCoord → list Z → Z → M F unit) (io_read : CoreCoord → Z → nat → M F (list Z)).
Context (rounds : nat) (cores : list CoreCoord) (addr : Z).
Implicit Types (w : World F) (c : CoreCoord).

(** What the accesses to the flags do: [flag] is the word at the address of the
    barrier, as a read of the core shows it, and [quiet v] says that whatever is still on
    its way to the flags of these cores carries [v]: no flag that has it
    changes. A read takes [step] nanoseconds at least. *)
Context (flag : CoreCoord → World F → Z) (quiet : Z → World F → Prop) (step : Z).
Record flag_laws : Prop := {
  fl_step : 0 < step;
  fl_write v c w : c ∈ cores → quiet v w → 
    ∃ w', io_write c (word_bytes v) addr w = Some (Ok tt, w') ∧ quiet v w' ∧ now (firmware w) ≤ now (firmware w');
  fl_read v c w : c ∈ cores → quiet v w → ∃ w',
    io_read c addr 4 w = Some (Ok (word_bytes (flag c w')), w') ∧ 0 ≤ flag c w' < 2 ^ 32 ∧ quiet v w' ∧
    now (firmware w) + step ≤ now (firmware w') ∧ ∀ c', c' ∈ cores → flag c' w = v → flag c' w' = v
}.
Context (laws : flag_laws) (Hnd : NoDup cores).

Definition flags_hold (v : Z) w : Prop := ∀ c, c ∈ cores → flag c w = v.
Definition enough_rounds : Prop := patience MEMBAR_SYNC_TIMEOUT ≤ step * (Z.of_nat rounds - 1).

Lemma write_flags_spec v l (Q : result unit → World F → Prop) w :
  quiet v w → (∀ c, c ∈ l → c ∈ cores) →
  (∀ w', quiet v w' → now (firmware w) ≤ now (firmware w') → Q (Ok tt) w') → wp (write_flags io_write l v addr) Q w.
Proof using laws.
  revert w. induction l as [|c l IH]; intros w Hq Hl HQ; [by apply wp_ret, HQ|].
  destruct (fl_write laws v c w) as (w1 & Hw & Hq1 & Ht); [apply Hl; left|done|].
  apply wp_bind. unfold wpf. rewrite Hw. apply IH; [done|intros c' Hc'; apply Hl; by right|].
  intros w' Hq' Ht'. apply HQ; [done|lia].
Qed.

(** What a round leaves. *)
Record round_done (v start : Z) (l : list CoreCoord) (synced synced' : gset CoreCoord) (w w' : World F) : Prop := {
  rd_quiet : quiet v w';
  rd_time : now (firmware w) ≤ now (firmware w');
  rd_more : synced ⊆ synced';
  rd_cores : synced' ⊆ list_to_set cores;
  rd_flags : ∀ c, c ∈ synced' → flag c w' = v;
  rd_rest : (∀ c, c ∈ l → c ∈ synced') ∨
    ∃ time, now (firmware w) + step ≤ time ≤ now (firmware w') ∧ timed_out start MEMBAR_SYNC_TIMEOUT time = false
}.
Definition round_failed {A} (v start : Z) (r : result A) w : Prop :=
  r = throw "Memory barrier timed out" ∧ timed_out start MEMBAR_SYNC_TIMEOUT (now (firmware w)) = true ∧
  ∃ c, c ∈ cores ∧ flag c w ≠ v.

Lemma round_later v start c l synced synced1 synced' w w1 w' :
  synced ⊆ synced1 → now (firmware w) ≤ now (firmware w1) → 
  (c ∈ synced1 ∨ ∃ time, now (firmware w) + step ≤ time ≤ now (firmware w1) ∧ timed_out start MEMBAR_SYNC_TIMEOUT time = false) →
  round_done v start l synced1 synced' w1 w' → round_done v start (c :: l) synced synced' w w'.
Proof using.
  intros Hs Ht Hc [Hq Ht' Hm Hco Hf Hr]. split; try done; [lia|by etrans|].
  destruct Hc as [Hc|(time & Htime & Hto)]; [|right; exists time; split; [lia|done]].
  destruct Hr as [Hr|(time & Htime & Hto)]; [left|right; exists time; split; [lia|done]].
  intros c' [->|Hc']%elem_of_cons; [by apply Hm|by apply Hr].
Qed.

Lemma sync_round_spec v start l synced w :
  quiet v w → (∀ c, c ∈ l → c ∈ cores) → synced ⊆ list_to_set cores → (∀ c, c ∈ synced → flag c w = v) →
  wp (sync_round now io_read l v addr start synced)
    (λ r w', match r with Ok synced' => round_done v start l synced synced' w w' | Err e => round_failed v start r w' end) w.
Proof using laws.
  revert synced w. induction l as [|c l IH]; intros synced w Hq Hl Hs Hf; cbn [sync_round].
  { apply wp_ret. split; try done. left. intros c Hc. by apply elem_of_nil in Hc. }
  assert (∀ c', c' ∈ l → c' ∈ cores) as Hl' by (intros c' Hc'; apply Hl; by right).
  case_bool_decide as Hc.
  { eapply wp_mono; [by apply IH|]. intros [synced'|e] w'; [|done]. apply round_later; [done|lia|by left]. }
  destruct (fl_read laws v c w) as (w1 & Hrd & Hrange & Hq1 & Ht & Hkeep); [apply Hl; left|done|].
  assert (∀ c', c' ∈ synced → flag c' w1 = v) as Hf1.
  { intros c' Hc'. apply Hkeep; [|by apply Hf]. apply Hs in Hc'. by apply elem_of_list_to_set in Hc'. }
  pose proof (fl_step laws). apply wp_bind. unfold wpf at 1. rewrite Hrd. rewrite le_word_bytes by done.
  destruct (Z.eqb_spec (flag c w1) v) as [Hv|Hv].
  - eapply wp_mono; [apply IH; [done|done| |]|].
    + intros c' [->%elem_of_singleton|Hc']%elem_of_union; [apply elem_of_list_to_set, Hl; left|by apply Hs].
    + intros c' [->%elem_of_singleton|Hc']%elem_of_union; [done|by apply Hf1].
    + intros [synced'|e] w'; [|done]. apply round_later; [apply union_subseteq_r|lia|left; by apply elem_of_union_l, elem_of_singleton].
  - apply wp_bind, wp_now. destruct (timed_out _ _ _) eqn:Hto.
    + apply wp_lift. split_and!; [done..|]. exists c. split; [apply Hl; left|done].
    + eapply wp_mono; [by apply IH|]. intros [synced'|e] w'; [|done]. apply round_later; [done|lia|right].
      exists (now (firmware w1)). split; [lia|done].
Qed.

Lemma all_synced (synced : gset CoreCoord) : synced ⊆ list_to_set cores → (∀ c, c ∈ cores → c ∈ synced) → size synced = length cores.
Proof using Hnd.
  intros Hs Ha. rewrite <- (size_list_to_set (C:=gset CoreCoord) cores) by done. f_equiv. apply leibniz_equiv.
  intros c. split; [apply Hs|]. intros Hc%elem_of_list_to_set. by apply Ha.
Qed.
Lemma synced_all (synced : gset CoreCoord) : synced ⊆ list_to_set cores → size synced = length cores → ∀ c, c ∈ cores → c ∈ synced.
Proof using Hnd.
  intros Hs Hz c Hc. rewrite <- (size_list_to_set (C:=gset CoreCoord) cores) in Hz by done.
  assert (synced ≡ list_to_set cores) as ->; [|by apply elem_of_list_to_set]. apply set_subseteq_size_equiv; [done|lia].
Qed.

Definition barrier_outcome (v start : Z) (r : result unit) w : Prop :=
  (r = Ok tt ∧ flags_hold v w ∧ quiet v w) ∨ round_failed v start r w.

Lemma sync_loop_spec fuel v start synced w :
  quiet v w → synced ⊆ list_to_set cores → (∀ c, c ∈ synced → flag c w = v) →
  (∀ c, c ∈ cores → c ∈ synced) ∨
  (1 ≤ fuel)%nat ∧ start + patience MEMBAR_SYNC_TIMEOUT - now (firmware w) ≤ step * (Z.of_nat fuel - 1) →
  wp (sync_loop now io_read fuel cores v addr start synced) (barrier_outcome v start) w.
Proof using laws Hnd.
  revert synced w. induction fuel as [|fuel IH]; intros synced w Hq Hs Hf Hfuel; cbn [sync_loop];
    case_bool_decide as Hz;
    try (apply wp_ret; left; split_and!; [done|intros c Hc; by apply Hf, (synced_all synced)|done]);
    (destruct Hfuel as [Hd|[Hpos Hfuel]]; [by destruct Hz; apply all_synced|]); [lia|].
  apply wp_bind. eapply wp_mono; [by apply sync_round_spec|]. intros [synced'|e] w1;
    [|intros (He & Hx); right; split; [by injection He as ->|done]].
  intros [Hq1 Ht1 Hm1 Hc1 Hf1 Hr1]. pose proof (fl_step laws). apply IH; [done..|].
  destruct Hr1 as [Hr|(time & Htime & Hto)]; [by left|right].
  apply not_timed_out in Hto; [|done]. destruct fuel as [|fuel]; [cbn in Hfuel; lia|]. split; [lia|].
  rewrite Nat2Z.inj_succ in Hfuel. nia.
Qed.

Lemma set_membar_flag_spec v w : enough_rounds → quiet v w →
  wp (set_membar_flag now io_write io_read rounds cores v addr)
    (λ r w', ∃ start, now (firmware w) ≤ start ∧ barrier_outcome v start r w') w.
Proof using laws Hnd.
  intros Hr Hq. apply wp_bind, write_flags_spec; [done|done|]. intros w1 Hq1 Ht1.
  apply wp_bind, wp_now. pose proof (fl_step laws). assert (0 < patience MEMBAR_SYNC_TIMEOUT) by done.
  eapply wp_mono; [apply sync_loop_spec; [done|set_solver|by intros c Hc%elem_of_empty|right; unfold enough_rounds in Hr; split; [|lia]; nia]|].
  intros r w' Ho. by exists (now (firmware w1)).
Qed.

Context (membar_lock membar_unlock : M F unit).
(** Whoever holds the mutex is alone with the flags; when all of them have SET,
    nothing is on its way to them any more. *)
Record lock_laws : Prop := {
  ll_lock w : ∃ w', membar_lock w = Some (Ok tt, w') ∧ quiet MemBarFlag_SET w';
  ll_unlock w : ∃ w', membar_unlock w = Some (Ok tt, w');
  ll_switch w : flags_hold MemBarFlag_SET w → quiet MemBarFlag_SET w → quiet MemBarFlag_RESET w
}.

(** All flags were seen with SET, at a point between, and after that with RESET. *)
Definition barrier_passed w w1 : Prop :=
  ∃ w0 ws, membar_lock w = Some (Ok tt, w0) ∧
    set_membar_flag now io_write io_read rounds cores MemBarFlag_SET addr w0 = Some (Ok tt, ws) ∧ flags_hold MemBarFlag_SET ws ∧
    set_membar_flag now io_write io_read rounds cores MemBarFlag_RESET addr ws = Some (Ok tt, w1) ∧ flags_hold MemBarFlag_RESET w1.

(** C11: A memory barrier means what it says. [insert_host_to_device_barrier] on any
    list of different cores returns - the polling ends, whatever the device
    does - and it returns normally only when there was a point, after the mutex
    was taken, at which the flag of every single core was SET, and after that
    point it has been written again and is RESET everywhere in the end, so that all writes
    before it have arrived; it throws only a timeout, after more than a second of
    waiting for some core whose flag is still another one. In both cases the mutex of
    the barrier is released, and nothing happens after that. *)
Theorem host_to_device_barrier_correct w :
  lock_laws → enough_rounds →
  wp (insert_host_to_device_barrier now io_write io_read rounds membar_lock membar_unlock cores addr)
    (λ r w', ∃ w1, membar_unlock w1 = Some (Ok tt, w') ∧
      ((r = Ok tt ∧ barrier_passed w w1) ∨
       ∃ v start, (v = MemBarFlag_SET ∨ v = MemBarFlag_RESET) ∧ round_failed v start r w1)) w.
Proof using laws Hnd.
  intros [Hlock Hunlock Hswitch] Hr. destruct (Hlock w) as (w0 & Hl & Hq).
  unfold insert_host_to_device_barrier, wpf, TTDevice.under_dma_lock. rewrite Hl.
  pose proof (set_membar_flag_spec MemBarFlag_SET w0 Hr Hq) as Hset. unfold wpf in Hset. unfold mbind, M_bind.
  destruct (set_membar_flag _ _ _ _ _ MemBarFlag_SET addr w0) as [[rs ws]|] eqn:Eset; [|done]. destruct Hset as (start & _ & Hset).
  destruct rs as [[]|e].
  2:{ destruct Hset as [(? & _)|Hf]; [done|]. destruct (Hunlock ws) as (w2 & Hu). rewrite Hu. exists ws. split; [done|]. right. exists MemBarFlag_SET, start. auto. }
  destruct Hset as [(_ & Hh & Hq1)|[? _]]; [|done].
  pose proof (set_membar_flag_spec MemBarFlag_RESET ws Hr (Hswitch _ Hh Hq1)) as Hreset. unfold wpf in Hreset.
  destruct (set_membar_flag _ _ _ _ _ MemBarFlag_RESET addr ws) as [[rr w1]|] eqn:Er; [|done]. destruct Hreset as (start' & _ & Hreset).
  destruct (Hunlock w1) as (w2 & Hu). rewrite Hu. exists w1. split; [done|]. destruct Hreset as [(-> & Hh' & _)|Hf].
  - left. split; [done|]. by exists w0, ws.
  - right. exists MemBarFlag_RESET, start'. auto.
Qed.
End MembarSpec.

(** A device whose writes arrive at once and whose accesses take a millisecond. *)
Definition barrier_pass (w : World Z) : World Z := MkWorld (mem w) (bar w) (firmware w + 1000000).
Definition barrier_write (core : CoreCoord) (src : list Z) (a : Z) : M Z unit := λ w,
  Some (Ok tt, upd_mem (to_pair core) a (le_word src) (barrier_pass w)).
Definition barrier_read (core : CoreCoord) (a : Z) (_ : nat) : M Z (list Z) := λ w,
  Some (Ok (word_bytes (u32 (mem w (to_pair core) a))), barrier_pass w).
Definition barrier_flag (core : CoreCoord) (w : World Z) : Z := u32 (mem w (to_pair core) 0).
Definition barrier_world : World Z := MkWorld (λ _ _, 0) (λ _, 0) 0.
Definition barrier_cores : list CoreCoord := [MkCoreCoord 18 18 TENSIX TRANSLATED; MkCoreCoord 18 18 TENSIX LITERAL].
Definition barrier_done : M Z unit := mret tt.

Lemma host_to_device_barrier_correct_witness :
  wp (insert_host_to_device_barrier (λ t, t) barrier_write barrier_read 1003 barrier_done barrier_done barrier_cores 0)
    (λ r w', ∃ w1, barrier_done w1 = Some (Ok tt, w') ∧
      ((r = Ok tt ∧ barrier_passed (λ t, t) barrier_write barrier_read 1003 barrier_cores 0 barrier_flag barrier_done barrier_world w1) ∨
       ∃ v start, (v = MemBarFlag_SET ∨ v = MemBarFlag_RESET) ∧ round_failed (λ t, t) barrier_cores barrier_flag v start r w1)) barrier_world.
Proof.
  apply (host_to_device_barrier_correct (λ t, t) barrier_write barrier_read 1003 barrier_cores 0 barrier_flag (λ _ _, True) 1000000).
  - split; [done| |].
    + intros v c w _ _. eexists. split; [reflexivity|]. split; [done|]. cbn. lia.
    + intros v c w _ _. exists (barrier_pass w). split; [reflexivity|]. split; [apply Z.mod_pos_bound; lia|]. split; [done|]. split; [cbn; lia|intros c' _ Hf; exact Hf].
  - apply (bool_decide_unpack _). by vm_compute.
  - split; [intros w; by exists w|intros w; by exists w|done].
  - unfold enough_rounds. by vm_compute.
Defined.

(** Here the barrier does pass. *)
Example barrier_passes :
  match insert_host_to_device_barrier (λ t, t) barrier_write barrier_read 1003 barrier_done barrier_done barrier_cores 0 barrier_world with
  | Some (r, w') => r = Ok tt ∧ map (λ c, barrier_flag c w') barrier_cores = [MemBarFlag_RESET; MemBarFlag_RESET]
  | None => False
  end.
Proof. by vm_compute. Qed.

(** ** The cores of an L1 barrier *)

Section Sorting.
Context {F : Type} (now : F → Z) (soc : Soc.SocDescriptor) (params : BarrierParams).
Context (io_write : CoreCoord → list Z → Z → M F unit) (io_read : CoreCoord → Z → nat → M F (list Z)) (rounds : nat).
Context (membar_lock membar_unlock : M F unit).

(** The type of the core that the chip has at these coordinates. *)
Definition is_of_type (t : CoreType) (core : CoreCoord) : Prop :=
  ∃ c, Soc.get_coord_at soc (to_pair core) (coord_system core) = Ok c ∧ core_type c = t.
Definition takes_barrier (core : CoreCoord) : Prop :=
  is_of_type TENSIX core ∨ is_of_type ETH core ∨ (Soc.arch soc = BLACKHOLE ∧ is_of_type DRAM core).

Lemma sort_cores cores : ∀ workers eth dram,
  match for_each cores (sort_core soc) (workers, eth, dram) with
  | Ok (workers', eth', dram') => ∃ ws es ds, workers' = workers ++ ws ∧ eth' = eth ++ es ∧ dram' = dram ++ ds ∧
      cores ≡ₚ ws ++ es ++ ds ∧ Forall (is_of_type TENSIX) ws ∧ Forall (is_of_type ETH) es ∧ Forall (is_of_type DRAM) ds ∧
      (Soc.arch soc ≠ BLACKHOLE → ds = [])
  | Err _ => Exists (λ core, ¬ takes_barrier core) cores
  end.
Proof using.
  induction cores as [|core cores IH]; intros workers eth dram; cbn [for_each].
  { exists [], [], []. by rewrite !app_nil_r. }
  unfold sort_core at 2. destruct (Soc.get_coord_at soc (to_pair core) (coord_system core)) as [c|e] eqn:Hc; cbn [mbind result_bind].
  2:{ left. intros [(c' & Hc' & _)|[(c' & Hc' & _)|[_ (c' & Hc' & _)]]]; by rewrite Hc in Hc'. }
  assert (∀ t, core_type c = t → is_of_type t core) as Ht by (intros t Ht; by exists c).
  destruct (decide (core_type c = TENSIX)) as [H1|H1]; [|destruct (decide (core_type c = ETH)) as [H2|H2];
    [|destruct (include_dram_in_l1_membar soc && bool_decide (core_type c = DRAM)) eqn:H3]]; cbn [mbind result_bind].
  - specialize (IH (workers ++ [core]) eth dram). destruct (for_each _ _ _) as [[[w' e'] d']|]; [|by right].
    destruct IH as (ws & es & ds & -> & -> & -> & Hp & Hw & He & Hd & Hb). exists (core :: ws), es, ds.
    rewrite <- app_assoc. split_and!; try done; [by rewrite Hp|by constructor; [apply Ht|]].
  - specialize (IH workers (eth ++ [core]) dram). destruct (for_each _ _ _) as [[[w' e'] d']|]; [|by right].
    destruct IH as (ws & es & ds & -> & -> & -> & Hp & Hw & He & Hd & Hb). exists ws, (core :: es), ds.
    rewrite <- app_assoc. split_and!; try done; [rewrite Hp; cbn [app]; by rewrite Permutation_middle|by constructor; [apply Ht|]].
  - apply andb_true_iff in H3 as [Hbh%bool_decide_eq_true H3%bool_decide_eq_true].
    specialize (IH workers eth (dram ++ [core])). destruct (for_each _ _ _) as [[[w' e'] d']|]; [|by right].
    destruct IH as (ws & es & ds & -> & -> & -> & Hp & Hw & He & Hd & Hb). exists ws, es, (core :: ds).
    rewrite <- app_assoc. split_and!; try done; [by rewrite Hp, !app_assoc, <- Permutation_middle|by constructor; [apply Ht|]].
  - left. apply andb_false_iff in H3. unfold include_dram_in_l1_membar in H3. rewrite !bool_decide_eq_false in H3.
    intros [(c' & Hc' & Ht')|[(c' & Hc' & Ht')|[Hbh (c' & Hc' & Ht')]]];
      rewrite Hc in Hc'; injection Hc' as <-; [done|done|by destruct H3].
Qed.

(** An L1 barrier on given cores does every one of them once, each at the
    address for its type: [l1_membar] splits the cores by the type that the chip
    has at their coordinates, and makes the barrier of the Tensix cores, that of
    the Ethernet cores and, on Blackhole only, that of the DRAM cores; when some
    core is not on the chip or has no L1, it throws before it has accessed
    any core. *)
Lemma l1_membar_by_type cores w :
  let membar := l1_membar now soc params io_write io_read rounds membar_lock membar_unlock in
  let barriers := l1_barriers now soc params io_write io_read rounds membar_lock membar_unlock in
  match cores with
  | [] => True
  | _ =>
      (∃ workers eth dram, membar cores w = barriers workers eth dram w ∧ cores ≡ₚ workers ++ eth ++ dram ∧
         Forall (is_of_type TENSIX) workers ∧ Forall (is_of_type ETH) eth ∧ Forall (is_of_type DRAM) dram ∧
         (Soc.arch soc ≠ BLACKHOLE → dram = [])) ∨
      (∃ e, membar cores w = Some (Err e, w) ∧ Exists (λ core, ¬ takes_barrier core) cores)
  end.
Proof using.
  destruct cores as [|core cores]; [done|]. pose proof (sort_cores (core :: cores) [] [] []) as Hs.
  cbn [l1_membar]. unfold mbind at 1, M_bind, lift at 1. destruct (for_each (core :: cores) _ _) as [[[ws es] ds]|e].
  - left. destruct Hs as (ws' & es' & ds' & -> & -> & -> & Hs). exists ws', es', ds'. by split.
  - right. by exists e.
Qed.
End Sorting.
