(* ===== verification/Cluster.v ===== *)
(** * Cluster

    [cluster.cpp]: the facade of the driver. A cluster owns the chips that the
    descriptor lists, the [RemoteCommunication] objects of the gateways and,
    on Wormhole with remote chips, the Ethernet broadcast; every call is handed to
    the chip it is for, and the calls for all chips are loops over them.

    A chip is what the cluster keeps of it ([Chip]); what a chip on silicon does
    with its device is the interface [SiliconChips], implemented by [TlbManager],
    [LocalChip] and [RemoteProtocol]; a mock chip does nothing. The discovery of
    the devices ([Discover]) and the file of a custom SoC description are
    parameters. The build is the one without the optional simulators. *)

From Stdlib Require Import ZArith Lia.
From stdpp Require Import base list list_numbers sorting numbers strings gmap sets.
From S2P Require Import DeviceAccess.
From S2P Require Import Prelude CoreTypes ArchData Harvesting BoardTypes SemVer RiscType SocArch SocDescriptor.
From S2P Require Import ClusterState ClusterBoards ConstrainedDescriptor MockCluster EthBroadcast RemoteQueue TTDevice LocalChip.
From S2P Require Topology.

Local Open Scope Z_scope.

(** Loops over a container, of a method. *)
Fixpoint for_H {F R X} (l : list X) (f : X → H F R unit) : H F R unit :=
  match l with
  | [] => mret tt
  | x :: l => f x;; for_H l f
  end.
(** The order of a [std::set]. *)
Definition ascending (s : gset Z) : list Z := merge_sort Z.le (elements s).

(** ** Data *)

Inductive ChipType := SILICON | SIMULATION | MOCK | SWEMULE.
#[global] Instance ChipType_eq_dec : EqDecision ChipType.
Proof. solve_decision. Defined.

Record ClusterOptions := MkClusterOptions {
  chip_type : ChipType; num_host_mem_ch_per_mmio_device : option Z; sdesc_path : string; target_devices : gset Z;
  cluster_descriptor : option ClusterDescriptor; io_type : IODeviceType;
  topology_discovery_options : Topology.TopologyDiscoveryOptions
}.

(** The classes of chips; a remote one knows its gateway. *)
Inductive ChipClass := MockChip | ALocalChip | ARemoteChip (local_chip : Z).
Record Chip (TT : Type) := MkChip {
  chip_class : ChipClass; chip_soc : Soc.SocDescriptor; tt_device : option TT;
  (** The number of host channels of the system memory manager, if there is one. *)
  sysmem_channels : option Z; barrier_params : BarrierParams
}.
Arguments MkChip {TT}.
Arguments chip_class {TT}.
Arguments chip_soc {TT}.
Arguments tt_device {TT}.
Arguments sysmem_channels {TT}.
Arguments barrier_params {TT}.

(** What devices and chips on silicon do. The handle of a [RemoteCommunication]
    is a number, as in [EthBroadcast]. *)
Class SiliconChips (F TT : Type) := {
  device_soc : TT → Soc.SocDescriptor;
  device_kind : TT → IODeviceKind;
  get_remote_communication : TT → option Z;
  set_power_state_busy : TT → M F unit;
  wait_device_ready : TT → M F unit;
  initialize_default_chip_mutexes : TT → M F unit;
  open_sysmem : TT → Z → M F Z;
  create_remote_communication : TT → EthCoord → bool → M F Z;
  set_sysmem_manager : Z → option Z → M F unit;
  set_transfer_cores : Z → gset xy_pair → M F unit;
  flush_communication : Z → M F unit;
  send_broadcast : Command → M F unit;
  silicon_write : Chip TT → CoreCoord → list Z → Z → M F unit;
  silicon_read : Chip TT → CoreCoord → Z → nat → M F (list Z);
  silicon_write_reg : Chip TT → CoreCoord → list Z → Z → M F unit;
  silicon_read_reg : Chip TT → CoreCoord → Z → nat → M F (list Z);
  silicon_flush : Chip TT → M F unit;
  silicon_risc_state : Chip TT → CoreCoord → M F Z;
  silicon_assert_core : Chip TT → CoreCoord → Z → M F unit;
  silicon_deassert_core : Chip TT → CoreCoord → Z → bool → M F unit;
  silicon_assert_all : Chip TT → Z → M F unit;
  silicon_deassert_all : Chip TT → Z → bool → M F unit;
  silicon_deassert_risc_resets : Chip TT → M F unit;
  silicon_set_clock_state : Chip TT → DevicePowerState → M F unit;
  silicon_start : Chip TT → Z → M F unit;
  silicon_close : Chip TT → M F unit;
  silicon_l1_membar : Chip TT → list CoreCoord → M F unit;
  silicon_dram_membar : Chip TT → list CoreCoord → M F unit;
  silicon_dram_channels_membar : Chip TT → list Z → Z → M F unit;
  silicon_clock : Chip TT → M F Z
}.

Record Cluster (TT : Type) := MkCluster {
  all_chip_ids_ : gset Z; remote_chip_ids_ : gset Z; local_chip_ids_ : gset Z;
  chips_ : gmap Z (Chip TT); remote_communications_ : gmap Z Z; ethernet_broadcast_ : option EthernetBroadcast;
  arch_name : ARCH; cluster_desc : ClusterDescriptor; options_ : ClusterOptions;
  use_translated_coords_for_eth_broadcast : bool; eth_fw_version_ : option SemVer
}.
Arguments MkCluster {TT}.
Arguments all_chip_ids_ {TT}.
Arguments remote_chip_ids_ {TT}.
Arguments local_chip_ids_ {TT}.
Arguments chips_ {TT}.
Arguments remote_communications_ {TT}.
Arguments ethernet_broadcast_ {TT}.
Arguments arch_name {TT}.
Arguments cluster_desc {TT}.
Arguments options_ {TT}.
Arguments use_translated_coords_for_eth_broadcast {TT}.
Arguments eth_fw_version_ {TT}.

Section Fields.
Context {TT : Type}.
Implicit Types (c : Cluster TT).
Definition new_cluster (o : ClusterOptions) (d : ClusterDescriptor) : Cluster TT :=
  MkCluster ∅ ∅ ∅ ∅ ∅ None Invalid d o false None.
Definition set_chips (f : gmap Z (Chip TT) → gmap Z (Chip TT)) c : Cluster TT :=
  MkCluster (all_chip_ids_ c) (remote_chip_ids_ c) (local_chip_ids_ c) (f (chips_ c)) (remote_communications_ c)
    (ethernet_broadcast_ c) (arch_name c) (cluster_desc c) (options_ c) (use_translated_coords_for_eth_broadcast c) (eth_fw_version_ c).
Definition set_communications (m : gmap Z Z) c : Cluster TT :=
  MkCluster (all_chip_ids_ c) (remote_chip_ids_ c) (local_chip_ids_ c) (chips_ c) m
    (ethernet_broadcast_ c) (arch_name c) (cluster_desc c) (options_ c) (use_translated_coords_for_eth_broadcast c) (eth_fw_version_ c).
Definition set_broadcast (e : option EthernetBroadcast) c : Cluster TT :=
  MkCluster (all_chip_ids_ c) (remote_chip_ids_ c) (local_chip_ids_ c) (chips_ c) (remote_communications_ c)
    e (arch_name c) (cluster_desc c) (options_ c) (use_translated_coords_for_eth_broadcast c) (eth_fw_version_ c).
Definition set_desc (d : ClusterDescriptor) c : Cluster TT :=
  MkCluster (all_chip_ids_ c) (remote_chip_ids_ c) (local_chip_ids_ c) (chips_ c) (remote_communications_ c)
    (ethernet_broadcast_ c) (arch_name c) d (options_ c) (use_translated_coords_for_eth_broadcast c) (eth_fw_version_ c).
Definition set_summary (arch : ARCH) (fw : option SemVer) (translated : bool) c : Cluster TT :=
  MkCluster (all_chip_ids_ c) (remote_chip_ids_ c) (local_chip_ids_ c) (chips_ c) (remote_communications_ c)
    (ethernet_broadcast_ c) arch (cluster_desc c) (options_ c) translated fw.
Definition set_options (o : ClusterOptions) c : Cluster TT :=
  MkCluster (all_chip_ids_ c) (remote_chip_ids_ c) (local_chip_ids_ c) (chips_ c) (remote_communications_ c)
    (ethernet_broadcast_ c) (arch_name c) (cluster_desc c) o (use_translated_coords_for_eth_broadcast c) (eth_fw_version_ c).
End Fields.

Section Cluster.
Context {F TT : Type} `{!SiliconChips F TT} `{Unordered}.
Abbreviation C := (H F (Cluster TT)).

Definition modify_cluster (f : Cluster TT → Cluster TT) : C unit := c ← get_object; put_object (f c).

(** ** Finding chips *)

Definition get_chip (device_id : Z) : C (Chip TT) :=
  c ← get_object;
  match chips_ c !! device_id with
  | Some chip => mret chip
  | None => hraise "Device id not found in cluster."
  end.
(** [chips_.at(id)]. *)
Definition chip_at (device_id : Z) : C (Chip TT) := c ← get_object; hlift (map_at device_id (chips_ c)).
(** The result of the [dynamic_cast]: [None] when the chip is of another class. *)
Definition get_local_chip (device_id : Z) : C (option (Chip TT)) :=
  c ← get_object;
  hlift (umd_assert (bool_decide (device_id ∈ local_chip_ids_ c)) "Device id is not a local chip.");;
  chip ← get_chip device_id;
  mret (match chip_class chip with ALocalChip => Some chip | _ => None end).
Definition get_remote_chip (device_id : Z) : C (option (Chip TT)) :=
  c ← get_object;
  hlift (umd_assert (bool_decide (device_id ∈ remote_chip_ids_ c)) "Device id is not a remote chip.");;
  chip ← get_chip device_id;
  mret (match chip_class chip with ARemoteChip _ => Some chip | _ => None end).
(** A call through the result of a cast. *)
Definition dereference {A} (p : option A) : C A :=
  match p with Some a => mret a | None => hlift (Err UndefinedBehaviour) end.
Definition get_soc_descriptor (chip_id : Z) : C Soc.SocDescriptor := chip ← get_chip chip_id; mret (chip_soc chip).
(** [cluster_desc->get_closest_mmio_capable_chip]. *)
Definition closest_mmio_chip (chip_id : Z) : C Z :=
  c ← get_object;
  '(closest, d) ← hlift (get_closest_mmio_capable_chip chip_id (cluster_desc c));
  modify_cluster (set_desc d);;
  mret closest.

(** ** Making chips *)

(** [LocalChip::create]; over PCIe there are system memory and TLB managers. *)
Definition LocalChip_create (tt_device : option TT) (num_host_mem_channels : Z) : M F (Chip TT) :=
  match tt_device with
  | None => raise "Cannot create LocalChip without a TTDevice."
  | Some dev =>
      sysmem ← match device_kind dev with
               | PCIe_device => n ← open_sysmem dev num_host_mem_channels; mret (Some n)
               | _ => mret None
               end;
      set_power_state_busy dev;;
      wait_device_ready dev;;
      (match device_kind dev with PCIe_device => initialize_default_chip_mutexes dev | _ => mret tt end);;
      mret (MkChip ALocalChip (device_soc dev) (Some dev) sysmem set_default_params)
  end.
(** [RemoteChip::create]; the gateway is given as its id and the chip that is there. *)
Definition RemoteChip_create (tt_device : option TT) (gateway_id : Z) (local_chip : option (Chip TT)) : M F (Chip TT) :=
  match tt_device with
  | None => raise "RemoteTTDevice passed to RemoteChip must not be null."
  | Some dev =>
      match local_chip with
      | None => raise "Local chip passed to RemoteChip must not be null."
      | Some _ =>
          wait_device_ready dev;;
          mret (MkChip (ARemoteChip gateway_id) (device_soc dev) (Some dev) None set_default_params)
      end
  end.
(** A system memory manager without host channels is not used for transfers. *)
Definition has_host_channels (chip : Chip TT) : bool :=
  match sysmem_channels chip with Some n => negb (n =? 0) | None => false end.

(** The channels of a chip that has an Ethernet link, as coordinates. *)
Definition transfer_cores (soc : Soc.SocDescriptor) (channels : gset Z) : result (gset xy_pair) :=
  Soc.get_eth_xy_pairs_for_channels soc (ascending channels) TRANSLATED.

Definition construct_local_chip (chip_id : Z) (num_host_mem_channels : Z) (tt_device : option TT) : C (Chip TT) :=
  chip ← on_device (LocalChip_create tt_device num_host_mem_channels);
  c ← get_object;
  arch ← hlift (get_arch_of (cluster_desc c) chip_id);
  (if decide (arch = WORMHOLE_B0) then
     dev ← dereference tt_device;
     rc ← on_device (create_remote_communication dev (MkEthCoord 0 0 0 0 0) (has_host_channels chip));
     modify_cluster (λ c, set_communications (<[chip_id := rc]> (remote_communications_ c)) c);;
     cores ← hlift (transfer_cores (chip_soc chip) (get_active_eth_channels (cluster_desc c) chip_id));
     on_device (set_transfer_cores rc cores)
   else mret tt);;
  mret chip.
Definition construct_remote_chip (chip_id : Z) (tt_device : option TT) : C (Chip TT) :=
  gateway_id ← closest_mmio_chip chip_id;
  gateway_chip ← get_local_chip gateway_id;
  (match tt_device ≫= get_remote_communication with
   | Some remote_communication =>
       gateway ← dereference gateway_chip;
       on_device (set_sysmem_manager remote_communication (if has_host_channels gateway then Some gateway_id else None))
   | None => mret tt
   end);;
  on_device (RemoteChip_create tt_device gateway_id gateway_chip).
Definition construct_chip_from_cluster (chip_id : Z) (type : ChipType) (soc_desc : Soc.SocDescriptor)
    (num_host_mem_channels : Z) (tt_device : option TT) : C (Chip TT) :=
  match type with
  | MOCK => mret (MkChip MockChip soc_desc None None set_default_params)
  | SWEMULE => hraise "SWEMULE device is not supported in this build."
  | SIMULATION => hraise "Simulation device is not supported in this build."
  | SILICON =>
      c ← get_object;
      if is_chip_mmio_capable (cluster_desc c) chip_id
      then construct_local_chip chip_id num_host_mem_channels tt_device
      else construct_remote_chip chip_id tt_device
  end.

(** The SoC description of a chip from the cluster's descriptor. *)
Context (SocArchDescriptor_of_path : string → result SocArchDescriptor).
Definition chip_info_of (d : ClusterDescriptor) (chip_id : Z) : result ChipInfo :=
  translation ← map_at chip_id (noc_translation_enabled (tables d));
  board ← get_board_type d chip_id;
  Ok (MkChipInfo translation (get_harvesting_masks d chip_id) board 0 (get_asic_location d chip_id)).
Definition default_chip_info : ChipInfo := MkChipInfo false (MkMasks 0 0 0 0 0) UNKNOWN 0 0.
Definition construct_soc_descriptor (soc_desc_path : string) (chip_id : Z) (type : ChipType) (d : ClusterDescriptor)
    : result Soc.SocDescriptor :=
  let in_descriptor := bool_decide (chip_id ∈ all_chips d) in
  umd_assert (negb (bool_decide (type = SILICON) && negb in_descriptor)) "Chip not found in cluster descriptor. Cannot create device.";;
  chip_info ← (if in_descriptor then chip_info_of d chip_id else Ok default_chip_info);
  if decide (soc_desc_path = EmptyString) then
    arch ← (if in_descriptor then get_arch_of d chip_id else Ok WORMHOLE_B0);
    desc ← SocArchDescriptor_of_arch arch;
    Soc.SocDescriptor_new (Some desc) chip_info
  else
    desc ← SocArchDescriptor_of_path soc_desc_path;
    soc ← Soc.SocDescriptor_new (Some desc) chip_info;
    (if in_descriptor then
       arch ← get_arch_of d chip_id;
       umd_assert (bool_decide (Soc.arch soc = arch)) "Passed SOC descriptor has another architecture."
     else Ok tt);;
    Ok soc.

Definition add_chip (chip_id : Z) (type : ChipType) (chip : Chip TT) : C unit :=
  c ← get_object;
  hlift (umd_assert (bool_decide (chips_ c !! chip_id = None)) "Chip already exists in cluster.");;
  let is_local := bool_decide (type = SWEMULE) || is_chip_mmio_capable (cluster_desc c) chip_id in
  put_object (MkCluster ({[chip_id]} ∪ all_chip_ids_ c)
    (if is_local then remote_chip_ids_ c else {[chip_id]} ∪ remote_chip_ids_ c)
    (if is_local then {[chip_id]} ∪ local_chip_ids_ c else local_chip_ids_ c)
    (<[chip_id := chip]> (chips_ c)) (remote_communications_ c) (ethernet_broadcast_ c) (arch_name c) (cluster_desc c)
    (options_ c) (use_translated_coords_for_eth_broadcast c) (eth_fw_version_ c)).

(** ** Construction *)

(** [TopologyDiscovery::discover], and what TT_VISIBLE_DEVICES says. *)
Context (discover : Topology.TopologyDiscoveryOptions → IODeviceType → string → M F (ClusterDescriptor * gmap Z TT)).
Context (visible_devices : option string).

Definition MAX_HOST_MEM_CHANNELS : Z := 4.
(** As many channels as the largest group of chips behind one gateway, up to four. *)
Definition host_channels (o : ClusterOptions) (d : ClusterDescriptor) : Z :=
  match num_host_mem_ch_per_mmio_device o with
  | Some n => n
  | None => Z.min MAX_HOST_MEM_CHANNELS
      (foldl (λ max_chips_per_mmio '(_, chips), Z.max max_chips_per_mmio (Z.of_nat (size (chips : gset Z)))) 0
         (map_iter (chips_grouped_by_closest_mmio d)))
  end.
(** The descriptor of a cluster without devices. *)
Definition mock_descriptor (o : ClusterOptions) : result ClusterDescriptor :=
  match cluster_descriptor o with
  | Some d => create_constrained_cluster_descriptor d (target_devices o) visible_devices
  | None =>
      full ← create_mock_cluster (target_devices o) WORMHOLE_B0 (bool_decide (chip_type o = MOCK ∨ chip_type o = SWEMULE));
      create_constrained_cluster_descriptor full (target_devices o) visible_devices
  end.
(** The descriptor and the devices; only silicon has some. *)
Definition choose_descriptor (o : ClusterOptions) : M F (ClusterDescriptor * gmap Z TT) :=
  match chip_type o with
  | SILICON =>
      match cluster_descriptor o with
      | Some _ => raise "Cannot pass a custom ClusterDescriptor for SILICON chip type."
      | None => discover (topology_discovery_options o) (io_type o) (sdesc_path o)
      end
  | _ => d ← lift (mock_descriptor o); mret (d, ∅)
  end.

(** Over which gateway the broadcasts of a chip are sent. *)
Definition broadcast_gateway (first_mmio_chip chip : Z) : C Z :=
  c ← get_object;
  eth_coords ← hlift (map_at chip (chip_locations (placement (cluster_desc c))));
  if (ec_rack eth_coords =? 0) && (ec_shelf eth_coords =? 0) then closest_mmio_chip chip else mret first_mmio_chip.
Fixpoint broadcast_gateways (first_mmio_chip : Z) (chips : list Z) (m : gmap Z Z) : C (gmap Z Z) :=
  match chips with
  | [] => mret m
  | chip :: chips =>
      gateway ← broadcast_gateway first_mmio_chip chip;
      broadcast_gateways first_mmio_chip chips (<[chip := gateway]> m)
  end.
(** [*local_chip_ids_.begin()]. *)
Definition first_local_chip : C Z :=
  c ← get_object;
  match ascending (local_chip_ids_ c) with [] => hlift (Err UndefinedBehaviour) | chip :: _ => mret chip end.

(** [IODeviceType] of the summary in the log. *)
Definition log_device_summary : C unit :=
  c ← get_object;
  match io_device_type (cluster_desc c) with
  | UNDEFINED => hraise "Unknown device type for logging."
  | _ => mret tt
  end.
Definition use_ethernet_broadcast (c : Cluster TT) (num_host_mem_ch : Z) (type : ChipType) : bool :=
  bool_decide (type = SILICON) && bool_decide (arch_name c = WORMHOLE_B0) && negb (bool_decide (remote_chip_ids_ c = ∅)) &&
  (0 <? num_host_mem_ch).
Definition construct_cluster (num_host_mem_ch : Z) (type : ChipType) : C unit :=
  c ← get_object;
  let arch := match map_iter (chips_ c) with [] => Invalid | (_, chip) :: _ => Soc.arch (chip_soc chip) end in
  (if decide (type = SILICON) then
     for_H (ascending (local_chip_ids_ c)) (λ chip_id, _ ← hlift (map_at chip_id (chips_with_mmio (cluster_desc c))); mret tt);;
     log_device_summary
   else mret tt);;
  socs ← hlift (for_each (ascending (all_chip_ids_ c)) (λ chip_id socs,
           match chips_ c !! chip_id with
           | Some chip => Ok (socs ++ [chip_soc chip])
           | None => throw "Device id not found in cluster."
           end) []);
  modify_cluster (set_summary arch (ClusterState.eth_fw_version (cluster_desc c)) (forallb Soc.noc_translation socs));;
  c ← get_object;
  if use_ethernet_broadcast c num_host_mem_ch type then
    first_mmio_chip ← first_local_chip;
    chip_to_mmio_chip ← broadcast_gateways first_mmio_chip (ascending (all_chip_ids_ c)) ∅;
    modify_cluster (λ c, set_broadcast (Some (new_broadcast (chip_locations (placement (cluster_desc c))) chip_to_mmio_chip
                           (remote_communications_ c))) c)
  else mret tt.

(** The loop of the constructor. *)
Fixpoint construct_chips (o : ClusterOptions) (num_host_mem_ch : Z) (devices : gmap Z TT) (chip_ids : list Z) : C unit :=
  match chip_ids with
  | [] => mret tt
  | chip_id :: chip_ids =>
      c ← get_object;
      soc_desc ← hlift (construct_soc_descriptor (sdesc_path o) chip_id (chip_type o) (cluster_desc c));
      chip ← construct_chip_from_cluster chip_id (chip_type o) soc_desc num_host_mem_ch (devices !! chip_id);
      add_chip chip_id (chip_type o) chip;;
      construct_chips o num_host_mem_ch (delete chip_id devices) chip_ids
  end.
(** [Cluster::Cluster], on the cluster that [new_cluster] is. *)
Definition Cluster_construct (o : ClusterOptions) : C unit :=
  '(d, devices) ← on_device (choose_descriptor o);
  put_object (new_cluster o d);;
  let num_host_mem_ch := host_channels o d in
  chip_ids ← hlift (get_chips_local_first d (all_chips d));
  construct_chips o num_host_mem_ch devices chip_ids;;
  construct_cluster num_host_mem_ch (chip_type o);;
  modify_cluster (set_options (MkClusterOptions (chip_type o) (Some num_host_mem_ch) (sdesc_path o) (target_devices o)
    (cluster_descriptor o) (io_type o) (topology_discovery_options o))).

(** ** Transfer cores *)

(** [set_remote_transfer_ethernet_cores] of a remote chip; the cores are those of its gateway. *)
Definition set_chip_transfer_cores (chip : Chip TT) (cores_of : Soc.SocDescriptor → result (gset xy_pair)) : C unit :=
  match chip_class chip with
  | ARemoteChip gateway_id =>
      gateway ← chip_at gateway_id;
      cores ← hlift (cores_of (chip_soc gateway));
      match tt_device chip ≫= get_remote_communication with
      | Some rc => on_device (set_transfer_cores rc cores)
      | None => hlift (Err UndefinedBehaviour)
      end
  | _ => mret tt
  end.
Definition set_gateway_transfer_cores (mmio_chip : Z) (cores_of : Soc.SocDescriptor → result (gset xy_pair)) : C unit :=
  c ← get_object;
  for_H (ascending (remote_chip_ids_ c)) (λ remote_chip_id,
    closest ← closest_mmio_chip remote_chip_id;
    if closest =? mmio_chip then
      remote ← get_remote_chip remote_chip_id;
      chip ← dereference remote;
      set_chip_transfer_cores chip cores_of
    else mret tt).

Definition configure_active_ethernet_cores_for_mmio_device (mmio_chip : Z) (active_eth_cores_per_chip : list CoreCoord) : C unit :=
  c ← get_object;
  match remote_communications_ c !! mmio_chip with
  | None => mret tt
  | Some rc =>
      let cores_of soc := Soc.translate_coords_to_xy_pair soc active_eth_cores_per_chip TRANSLATED in
      set_gateway_transfer_cores mmio_chip cores_of;;
      local ← get_local_chip mmio_chip;
      chip ← dereference local;
      cores ← hlift (cores_of (chip_soc chip));
      on_device (set_transfer_cores rc cores)
  end.

(** ** The descriptor is made anew *)

Definition create_cluster_descriptor (path : string) (device_type : IODeviceType) (o : Topology.TopologyDiscoveryOptions)
    : M F (ClusterDescriptor * gmap Z TT) :=
  discover (Topology.MkOptions (Topology.cmfw_mismatch_action o) (Topology.cmfw_unsupported_action o) (Topology.eth_fw_mismatch_action o)
    (Topology.unexpected_routing_firmware_config o) (Topology.eth_fw_heartbeat_failure o) Topology.THROW
    (Topology.opt_discover_remote_devices o) (Topology.wait_on_ethernet_link_training o) (Topology.perform_6u_eth_retrain o)
    (Topology.low_power o) (Topology.use_safe_api o)) device_type path.

(** The new descriptor must have the same chips under the same ids. *)
Definition ids_by_unique_id (old_unique_ids : gmap Z Z) : gmap Z Z :=
  foldl (λ m '(chip_id, uid), <[uid := chip_id]> m) ∅ (map_iter old_unique_ids).
Definition check_same_chips (old_unique_ids new_unique_ids : gmap Z Z) : result unit :=
  let unique_id_to_old_chip_id := ids_by_unique_id old_unique_ids in
  umd_assert (bool_decide (size new_unique_ids = size old_unique_ids)) "refresh_cluster_description: chip count changed.";;
  for_each (map_iter new_unique_ids) (λ '(new_chip_id, uid) _,
    match unique_id_to_old_chip_id !! uid with
    | None => throw "refresh_cluster_description: chip is present in the new cluster descriptor but not in the old one."
    | Some old_chip_id => umd_assert (old_chip_id =? new_chip_id) "refresh_cluster_description: chip ID changed."
    end) tt.
Definition refresh_supported (o : ClusterOptions) : result unit :=
  umd_assert (bool_decide (chip_type o = SILICON)) "refresh_cluster_description() is only supported for SILICON chip type.";;
  umd_assert (match cluster_descriptor o with None => true | Some _ => false end)
    "refresh_cluster_description() is not supported when a custom cluster descriptor was provided.";;
  umd_assert (bool_decide (target_devices o = ∅)) "refresh_cluster_description() is not supported when target_devices is non-empty.".

Definition refresh_broadcast : C unit :=
  c ← get_object;
  match ethernet_broadcast_ c with
  | None => mret tt
  | Some e =>
      first_mmio_chip ← first_local_chip;
      chip_to_mmio_chip ← broadcast_gateways first_mmio_chip (ascending (all_chip_ids_ c)) ∅;
      modify_cluster (λ c, set_broadcast (Some (refresh (chip_locations (placement (cluster_desc c))) chip_to_mmio_chip
                             (remote_communications_ c) e)) c)
  end.
Definition refresh_transfer_cores (chip_id : Z) : C unit :=
  c ← get_object;
  arch ← hlift (get_arch_of (cluster_desc c) chip_id);
  if decide (arch = WORMHOLE_B0) then
    let active_channels := get_active_eth_channels (cluster_desc c) chip_id in
    rc ← hlift (map_at chip_id (remote_communications_ c));
    local ← get_local_chip chip_id;
    chip ← dereference local;
    cores ← hlift (transfer_cores (chip_soc chip) active_channels);
    on_device (set_transfer_cores rc cores);;
    set_gateway_transfer_cores chip_id (λ soc, transfer_cores soc active_channels)
  else mret tt.
Definition refresh_cluster_description : C unit :=
  c ← get_object;
  hlift (refresh_supported (options_ c));;
  '(new_cluster_desc, _) ← on_device (create_cluster_descriptor (sdesc_path (options_ c)) (io_type (options_ c))
                                        (topology_discovery_options (options_ c)));
  hlift (check_same_chips (chip_unique_ids (tables (cluster_desc c))) (chip_unique_ids (tables new_cluster_desc)));;
  modify_cluster (λ c, set_summary (arch_name c) (ClusterState.eth_fw_version new_cluster_desc) (use_translated_coords_for_eth_broadcast c)
                         (set_desc new_cluster_desc c));;
  refresh_broadcast;;
  c ← get_object;
  for_H (ascending (local_chip_ids_ c)) refresh_transfer_cores.

(** ** Calls for one chip

    [mock] is what a mock chip returns. *)

Definition on_chip {A} (mock : A) (f : Chip TT → M F A) (chip : Chip TT) : C A :=
  on_device (match chip_class chip with MockChip => mret mock | _ => f chip end).
Definition call_chip {A} (chip_id : Z) (mock : A) (f : Chip TT → M F A) : C A := chip ← get_chip chip_id; on_chip mock f chip.

Definition write_to_device (src : list Z) (chip : Z) (core : CoreCoord) (addr : Z) : C unit :=
  call_chip chip tt (λ c, silicon_write c core src addr).
(** [dest] is what is in the buffer before. *)
Definition read_from_device (dest : list Z) (chip : Z) (core : CoreCoord) (addr : Z) : C (list Z) :=
  call_chip chip dest (λ c, silicon_read c core addr (length dest)).
Definition write_to_device_reg (src : list Z) (chip : Z) (core : CoreCoord) (addr : Z) : C unit :=
  call_chip chip tt (λ c, silicon_write_reg c core src addr).
Definition read_from_device_reg (dest : list Z) (chip : Z) (core : CoreCoord) (addr : Z) : C (list Z) :=
  call_chip chip dest (λ c, silicon_read_reg c core addr (length dest)).
Definition get_risc_reset_state (chip : Z) (core : CoreCoord) : C Z := call_chip chip RISC_NONE (λ c, silicon_risc_state c core).
Definition assert_core_reset (chip : Z) (core : CoreCoord) (risc_type : Z) : C unit :=
  call_chip chip tt (λ c, silicon_assert_core c core risc_type).
Definition deassert_core_reset (chip : Z) (core : CoreCoord) (risc_type : Z) (staggered_start : bool) : C unit :=
  call_chip chip tt (λ c, silicon_deassert_core c core risc_type staggered_start).
Definition l1_membar (chip : Z) (cores : list CoreCoord) : C unit := call_chip chip tt (λ c, silicon_l1_membar c cores).
Definition dram_membar (chip : Z) (cores : list CoreCoord) : C unit := call_chip chip tt (λ c, silicon_dram_membar c cores).
Definition dram_channels_membar (chip : Z) (channels : list Z) (subchannel : Z) : C unit :=
  call_chip chip tt (λ c, silicon_dram_channels_membar c channels subchannel).
Definition flush_chip (chip : Z) : C unit := call_chip chip tt silicon_flush.

(** ** Calls for all chips *)

Definition wait_for_non_mmio_flush : C unit :=
  c ← get_object;
  for_H (map_iter (chips_ c)) (λ '(_, chip), on_chip tt silicon_flush chip);;
  for_H (map_iter (remote_communications_ c)) (λ '(_, remote_comm), on_device (flush_communication remote_comm)).

(** The broadcast in software: the columns to exclude are the caller's set, which
    the loop adds to on Wormhole. *)
Definition widen_columns (arch : ARCH) (use_translated_coords : bool) (columns_to_exclude : gset Z) : gset Z :=
  if use_translated_coords && bool_decide (arch = WORMHOLE_B0) then
    let columns_to_exclude := if decide (16 ∈ columns_to_exclude) then {[0]} ∪ columns_to_exclude else columns_to_exclude in
    if decide (17 ∈ columns_to_exclude) then {[5]} ∪ columns_to_exclude else columns_to_exclude
  else columns_to_exclude.
Definition not_excluded (rows_to_exclude columns_to_exclude : gset Z) (core : CoreCoord) : bool :=
  bool_decide (cc_x core ∉ columns_to_exclude) && bool_decide (cc_y core ∉ rows_to_exclude).
Definition broadcast_to_cores (data : list Z) (address : Z) (rows columns : gset Z) (use_translated_coords : bool)
    (chip : Z) (t : CoreType) : C unit :=
  soc ← get_soc_descriptor chip;
  cores ← hlift (Soc.get_cores soc t (if use_translated_coords then TRANSLATED else CoreTypes.NOC0) None);
  for_H cores (λ core, if not_excluded rows columns core then write_to_device data chip core address else mret tt).
Fixpoint software_broadcast (data : list Z) (address : Z) (chips_to_exclude rows columns : gset Z) (use_translated_coords : bool)
    (chips : list Z) : C (gset Z) :=
  match chips with
  | [] => mret columns
  | chip :: chips =>
      if decide (chip ∈ chips_to_exclude)
      then software_broadcast data address chips_to_exclude rows columns use_translated_coords chips
      else
        c ← get_object;
        let columns := widen_columns (arch_name c) use_translated_coords columns in
        for_H [TENSIX; DRAM] (broadcast_to_cores data address rows columns use_translated_coords chip);;
        software_broadcast data address chips_to_exclude rows columns use_translated_coords chips
  end.
(** Returns the columns that the caller's set has afterwards. *)
Definition broadcast_write_to_cluster (data : list Z) (address : Z) (chips_to_exclude rows_to_exclude columns_to_exclude : gset Z)
    (use_translated_coords : bool) : C (gset Z) :=
  c ← get_object;
  match ethernet_broadcast_ c with
  | None => software_broadcast data address chips_to_exclude rows_to_exclude columns_to_exclude use_translated_coords (ascending (all_chip_ids_ c))
  | Some e =>
      '(commands, e) ← hlift (EthBroadcast.broadcast_write_to_cluster data address chips_to_exclude rows_to_exclude columns_to_exclude
                                use_translated_coords ([], e));
      modify_cluster (set_broadcast (Some e));;
      for_H commands (λ cmd, on_device (send_broadcast cmd));;
      mret columns_to_exclude
  end.

Definition reset_rows (arch : ARCH) (translated : bool) : gset Z :=
  match arch with
  | BLACKHOLE => if translated then {[24; 25]} else {[0; 1]}
  | WORMHOLE_B0 => if translated then {[16; 17]} else {[0; 6]}
  | _ => ∅
  end.
Definition reset_columns (arch : ARCH) (translated : bool) : gset Z :=
  match arch with
  | BLACKHOLE => if translated then {[17; 18]} else {[0; 8; 9]}
  | WORMHOLE_B0 => if translated then {[16; 17]} else {[0; 5]}
  | _ => ∅
  end.
Definition RESET_ADDRESS : Z := 0xFFB121B0.
Definition broadcast_tensix_risc_reset_to_cluster (reg_value : Z) : C unit :=
  c ← get_object;
  if decide (chips_ c = ∅) then mret tt
  else
    let translated := use_translated_coords_for_eth_broadcast c in
    _ ← broadcast_write_to_cluster (word_bytes reg_value) RESET_ADDRESS ∅ (reset_rows (arch_name c) translated)
          (reset_columns (arch_name c) translated) translated;
    wait_for_non_mmio_flush.

Definition assert_risc_reset : C unit :=
  c ← get_object;
  if decide (chip_type (options_ c) = SWEMULE) then mret tt
  else if decide (arch_name c = QUASAR) then
    for_H (ascending (all_chip_ids_ c)) (λ chip, call_chip chip tt (λ c, silicon_assert_all c RISC_ALL))
  else
    reset_reg_value ← hlift (get_soft_reset_reg_value (arch_name c) ALL_TENSIX);
    broadcast_tensix_risc_reset_to_cluster reset_reg_value.
Definition deassert_risc_reset : C unit :=
  c ← get_object;
  if decide (chip_type (options_ c) = SWEMULE) then mret tt
  else if decide (arch_name c = QUASAR) then
    for_H (ascending (all_chip_ids_ c)) (λ chip, call_chip chip tt (λ c, silicon_deassert_all c RISC_ALL false))
  else
    reset_reg_value ← hlift (get_soft_reset_reg_value (arch_name c) (Z.land ALL_TENSIX (risc_not BRISC)));
    broadcast_tensix_risc_reset_to_cluster (Z.lor reset_reg_value (get_soft_reset_staggered_start (arch_name c))).

Definition is_mmio_capable (chip : Chip TT) : bool := match chip_class chip with ALocalChip => true | _ => false end.
Definition set_clock_state (device_state : DevicePowerState) : C unit :=
  c ← get_object;
  for_H (map_iter (chips_ c)) (λ '(_, chip),
    if bool_decide (chip_type (options_ c) = SIMULATION) && negb (is_mmio_capable chip) then mret tt
    else on_chip tt (λ chip, silicon_set_clock_state chip device_state) chip).
Definition deassert_resets_and_set_clock_state : C unit :=
  assert_risc_reset;;
  c ← get_object;
  for_H (map_iter (chips_ c)) (λ '(_, chip), on_chip tt silicon_deassert_risc_resets chip);;
  set_clock_state BUSY.
Definition start_device (init_device : bool) (dram_membar_subchannel : Z) : C unit :=
  if init_device then
    c ← get_object;
    for_H (ascending (all_chip_ids_ c)) (λ chip_id, call_chip chip_id tt (λ chip, silicon_start chip dram_membar_subchannel));;
    deassert_resets_and_set_clock_state
  else mret tt.
(** Remote chips first: their resets need the gateways. *)
Definition close_device : C unit :=
  c ← get_object;
  for_H (ascending (remote_chip_ids_ c)) (λ chip_id, call_chip chip_id tt silicon_close);;
  for_H (ascending (local_chip_ids_ c)) (λ chip_id, call_chip chip_id tt silicon_close).

(** ** Queries *)

Definition get_clocks : C (list (Z * Z)) :=
  c ← get_object;
  (fix clocks chip_ids :=
     match chip_ids with
     | [] => mret []
     | chip_id :: chip_ids =>
         chip ← chip_at chip_id;
         clock ← on_chip 0 silicon_clock chip;
         rest ← clocks chip_ids;
         mret ((chip_id, clock) :: rest)
     end) (ascending (local_chip_ids_ c)).
Definition get_num_host_channels (device_id : Z) : C Z :=
  chip ← chip_at device_id; mret (u32 (match sysmem_channels chip with Some n => n | None => 0 end)).
Definition get_pcie_base_addr_from_device (chip_id : Z) : C Z :=
  soc ← get_soc_descriptor chip_id;
  mret (match Soc.arch soc with WORMHOLE_B0 => 0x800000000 | BLACKHOLE => 2 ^ 60 | _ => 0 end).
Definition set_barrier_address_params (tensix_base eth_base dram_base : Z) : C unit :=
  modify_cluster (set_chips (fmap (λ chip, MkChip (chip_class chip) (chip_soc chip) (tt_device chip) (sysmem_channels chip)
    (LocalChip.set_barrier_address_params tensix_base eth_base dram_base (barrier_params chip))))).
End Cluster.
