(* ===== verification/ClusterProperties.v ===== *)
(** * ClusterProperties

    What the operations of a cluster on all its chips do: the reset broadcast
    reaches the working Tensix cores whichever way it is sent, the constructor
    builds the chips of the descriptor with their gateways, and a new
    descriptor is taken only for the same chips. *)

From Stdlib Require Import ZArith Lia.
From stdpp Require Import base list list_numbers sorting numbers strings gmap sets.
From S2P Require Import DeviceAccess.
From S2P Require Import Prelude CoreTypes ArchData Harvesting CoordinateManager RowHarvestManagers BlackholeManager Managers CoordTheory CoordTable RowCoords BlackholeCoords BoardTypes CoordProperties CoreQueries.
From S2P Require Import SocArch SocDescriptor SocAddresses SocChannels ClusterState ClusterBoards EthBroadcast RemoteQueue TTDevice LocalChip Cluster.
From S2P Require EthHeaders EthBroadcastProperties.

Local Open Scope Z_scope.

Lemma elem_of_ascending s x : x ∈ ascending s ↔ x ∈ s.
Proof. unfold ascending. by rewrite merge_sort_Permutation, elem_of_elements. Qed.
Lemma NoDup_ascending s : NoDup (ascending s).
Proof. unfold ascending. rewrite merge_sort_Permutation. apply NoDup_elements. Qed.

(** ** Loops of methods *)

Section Loops.
Context {F R : Type}.
Implicit Types (r : R) (w : World F).

Lemma for_H_app {X} (l k : list X) (f : X → H F R unit) r w :
  for_H (l ++ k) f r w = (for_H l f;; for_H k f) r w.
Proof.
  revert r w. induction l as [|x l IH]; intros r w; [done|]. cbn [app for_H]. unfold mbind, H_bind.
  destruct (f x r w) as [[[[[]|e] r'] w']|]; [|done..]. apply IH.
Qed.
Lemma for_H_map {X Y} (g : X → Y) (l : list X) (f : Y → H F R unit) r w :
  for_H (map g l) f r w = for_H l (λ x, f (g x)) r w.
Proof. revert r w. induction l as [|x l IH]; intros r w; [done|]. cbn [map for_H]. unfold mbind, H_bind. by destruct (f (g x) r w) as [[[[[]|e] r'] w']|]. Qed.
Lemma for_H_ext {X} (l : list X) (f g : X → H F R unit) :
  (∀ x r w, x ∈ l → f x r w = g x r w) → ∀ r w, for_H l f r w = for_H l g r w.
Proof.
  induction l as [|x l IH]; intros Hfg r w; [done|]. cbn [for_H]. unfold mbind, H_bind. rewrite Hfg by (left; done).
  destruct (g x r w) as [[[[[]|e] r'] w']|]; [|done..]. apply IH. intros y r1 w1 Hy. apply Hfg. by right.
Qed.
(** A method that leaves its object alone. *)
Definition keeps {A} (m : H F R A) : Prop := ∀ r w, match m r w with Some (_, r', _) => r' = r | None => True end.
Lemma keeps_ret {A} (a : A) : keeps (mret a).
Proof. done. Qed.
Lemma keeps_lift {A} (a : result A) : keeps (hlift a).
Proof. done. Qed.
Lemma keeps_get : keeps get_object.
Proof. done. Qed.
Lemma keeps_device {A} (m : M F A) : keeps (on_device m).
Proof. intros r w. unfold on_device. by destruct (m w) as [[a w']|]. Qed.
Lemma keeps_bind {A B} (m : H F R A) (f : A → H F R B) : keeps m → (∀ a, keeps (f a)) → keeps (m ≫= f).
Proof.
  intros Hm Hf r w. unfold mbind, H_bind. specialize (Hm r w). destruct (m r w) as [[[[a|e] r'] w']|]; [|done..].
  subst r'. apply Hf.
Qed.
Lemma keeps_for {X} (l : list X) (f : X → H F R unit) : (∀ x, keeps (f x)) → keeps (for_H l f).
Proof. intros Hf. induction l as [|x l IH]; [done|]. apply keeps_bind; [apply Hf|done]. Qed.
(** A bind after a part that returns without a change. *)
Lemma hbind_ok {A B} (m : H F R A) (f : A → H F R B) r w a r' w' : m r w = Some (Ok a, r', w') → (m ≫= f) r w = f a r' w'.
Proof. intros E. unfold mbind, H_bind. by rewrite E. Qed.
End Loops.

(** ** Rows and columns that a reset leaves out *)

Definition broadcast_system (tr : bool) : CoordSystem := if tr then TRANSLATED else CoreTypes.NOC0.
Definition spared_columns (arch : ARCH) (tr : bool) : gset Z := widen_columns arch tr (reset_columns arch tr).
Definition spares (arch : ARCH) (tr : bool) (q : xy_pair) : bool := bool_decide (xy_x q ∉ spared_columns arch tr) && bool_decide (xy_y q ∉ reset_rows arch tr).
Lemma forallb_value {A} (f : A → bool) (v : bool) l : forallb (λ a, Bool.eqb (f a) v) l = true → Forall (λ a, f a = v) l.
Proof. intros Hl. rewrite List.forallb_forall in Hl. apply list.Forall_forall. intros a Ha%list_elem_of_In. by apply Bool.eqb_prop, Hl. Qed.

Section Spares.
Context (arch : ARCH) (Harch : arch = WORMHOLE_B0 ∨ arch = BLACKHOLE) (tr : bool).
Abbreviation L := (standard_layout arch).

Lemma spared_columns_wide : widen_columns arch tr (spared_columns arch tr) = spared_columns arch tr.
Proof using Harch. destruct Harch as [->| ->], tr; apply (bool_decide_unpack _); by vm_compute. Qed.

(** In the NOC0 space, and for what has the NOC0 place as its name. *)
Lemma tensix_spared : (arch = WORMHOLE_B0 ∧ tr = true) ∨ Forall (λ q, spares arch tr q = true) (cores_of L TENSIX).
Proof using Harch. destruct Harch as [->| ->], tr; [by left|right..]; apply (forallb_value (spares _ _)); vm_compute; reflexivity. Qed.
Lemma dram_left_out : (arch = BLACKHOLE ∧ tr = true) ∨ Forall (λ q, spares arch tr q = false) (cores_of L DRAM).
Proof using Harch. destruct Harch as [->| ->], tr; [right| right| by left| right]; apply (forallb_value (spares _ _)); vm_compute; reflexivity. Qed.

Lemma unit_core_in g cores i j p : unit_core g cores i j p → p ∈ cores.
Proof using. intros (_ & _ & Hp). by eapply list_elem_of_lookup_2. Qed.
Lemma spares_core c : not_excluded (reset_rows arch tr) (spared_columns arch tr) c = spares arch tr (to_pair c).
Proof using. done. Qed.

End Spares.

Section Reset.
Context (arch : ARCH) (Harch : arch = WORMHOLE_B0 ∨ arch = BLACKHOLE) (tr : bool).
Abbreviation L := (standard_layout arch).
Context (M : HarvestingMasks) (b : bool) (soc : Soc.SocDescriptor) (Hsoc : soc_ok arch L M b soc) (Htr : tr = true → b = true).
Lemma reset_spares_tensix g c : working arch L M b TENSIX g (broadcast_system tr) c →
  not_excluded (reset_rows arch tr) (spared_columns arch tr) c = true.
Proof using Harch Htr Hsoc.
  intros (Ht & Hs & i & j & p & Hp%unit_core_in & _ & [_ HT]). rewrite spares_core. rewrite Hs, Ht in HT.
  pose proof (tensix_spared arch Harch tr) as Hall. destruct tr.
  2:{ destruct Hall as [[_ ?]|Hall]; [done|]. rewrite list.Forall_forall in Hall. rewrite HT. by apply Hall. }
  rewrite (Htr eq_refl) in HT. destruct Harch as [->| ->].
  - clear Hall. destruct HT as (y & x & (Hy & Hx & _) & ->). cbn in Hx, Hy.
    pose proof (unit_position_bounds (tensix_harvesting_mask (masks_in_use WORMHOLE_B0 wormhole_layout M)) _ y Hy) as Hpos.
    unfold spares. cbn [xy_x xy_y].
    assert (∀ z, z ∈ spared_columns WORMHOLE_B0 true → z < 18) as Hcol.
    { intros z. assert (spared_columns WORMHOLE_B0 true = {[0; 5; 16; 17]}) as -> by (apply (bool_decide_unpack _); by vm_compute).
      rewrite !elem_of_union, !elem_of_singleton. lia. }
    assert (∀ z, z ∈ reset_rows WORMHOLE_B0 true → z < 18) as Hrow.
    { intros z. cbn. rewrite !elem_of_union, !elem_of_singleton. lia. }
    rewrite !bool_decide_eq_true_2; [done|intros ?%Hrow|intros ?%Hcol];
      unfold wormhole.tensix_translated_coordinate_start_x, wormhole.tensix_translated_coordinate_start_y in *;
      change (xy_y (tensix_grid_size (standard_layout WORMHOLE_B0))) with 10 in *; change (standard_layout WORMHOLE_B0) with wormhole_layout in *; lia.
  - destruct Hall as [[? _]|Hall]; [done|]. rewrite list.Forall_forall in Hall. apply Hall. exact (blackhole_tensix_elem _ _ _ _ HT).
Qed.

Lemma reset_leaves_dram g c : working arch L M b DRAM g (broadcast_system tr) c →
  not_excluded (reset_rows arch tr) (spared_columns arch tr) c = false.
Proof using Harch Htr Hsoc.
  intros (Ht & Hs & i & j & p & Hp%unit_core_in & _ & [_ HT]). rewrite spares_core. rewrite Hs, Ht in HT.
  pose proof (dram_left_out arch Harch tr) as Hall. destruct tr.
  2:{ destruct Hall as [[_ ?]|Hall]; [done|]. rewrite list.Forall_forall in Hall. rewrite HT. by apply Hall. }
  rewrite (Htr eq_refl) in HT, Hsoc. destruct Harch as [->| ->].
  { destruct Hall as [[? _]|Hall]; [done|]. rewrite list.Forall_forall in Hall. rewrite HT. by apply Hall. }
  clear Hall. destruct HT as (i' & j' & (Hi & _) & ->).
  destruct (so_supported _ _ _ _ _ Hsoc) as (_ & _ & _ & _ & Hd & _).
  assert (dram_mask_ok (dram_harvesting_mask (masks_in_use BLACKHOLE blackhole_layout M))) as Hd'.
  { cbn [masks_in_use]. unfold effective_masks. by destruct (_ <? _). }
  destruct (bank_slot_range _ i' Hd' Hi) as [Hslot _]. unfold spares.
  rewrite (bool_decide_eq_false_2 (_ ∉ _)); [done|]. intros Hn. apply Hn.
  unfold dram_place, blackhole.dram_translated_coordinate_start_x. cbn [xy_x].
  change (spared_columns BLACKHOLE true) with ({[17; 18]} : gset Z). rewrite elem_of_union, !elem_of_singleton.
  change (standard_layout BLACKHOLE) with blackhole_layout. lia.
Qed.

Lemma tensix_grid : ∃ g, unit_grids arch L M TENSIX = Some g ∧ 0 ≤ ug_mask g < 2 ^ 64.
Proof using Harch Hsoc.
  destruct (so_supported _ _ _ _ _ Hsoc) as [_ Hs]. destruct Harch as [->| ->].
  - eexists. split; [reflexivity|]. destruct Hs as (_ & _ & _ & Hm). cbn in Hm |- *. lia.
  - eexists. split; [reflexivity|]. destruct Hs as (_ & Hm & _). cbn in Hm |- *. lia.
Qed.
End Reset.

(** ** The reset broadcast *)

Section Broadcast.
Context {F TT : Type} `{!SiliconChips F TT} `{UnorderedLaws}.
Implicit Types (c : Cluster TT) (w : World F).

(** All working Tensix cores of the cluster, chip by chip. *)
Definition chip_targets c (id : Z) : list (Z * CoreCoord) :=
  match chips_ c !! id with
  | Some chip =>
      match Soc.get_cores (chip_soc chip) TENSIX (broadcast_system (use_translated_coords_for_eth_broadcast c)) None with
      | Ok cores => map (pair id) cores
      | Err _ => []
      end
  | None => []
  end.
Definition reset_targets c : list (Z * CoreCoord) := concat (map (chip_targets c) (ascending (all_chip_ids_ c))).
Definition write_target (data : list Z) (target : Z * CoreCoord) : H F (Cluster TT) unit :=
  write_to_device data target.1 target.2 RESET_ADDRESS.

(** A cluster of one architecture, whose chips are described by its standard
    tables; the coordinates of broadcasts are translated only if all chips translate. *)
Definition described (arch : ARCH) (tr : bool) (chip : Chip TT) (M : HarvestingMasks) (b : bool) : Prop :=
  soc_ok arch (standard_layout arch) M b (chip_soc chip) ∧ (tr = true → b = true).
Record cluster_ready c : Prop := {
  cr_arch : arch_name c = WORMHOLE_B0 ∨ arch_name c = BLACKHOLE;
  cr_some : chips_ c ≠ ∅;
  cr_ids : ∀ id, id ∈ all_chip_ids_ c ↔ is_Some (chips_ c !! id);
  cr_chips : ∀ id chip, chips_ c !! id = Some chip →
    ∃ M b, described (arch_name c) (use_translated_coords_for_eth_broadcast c) chip M b;
  cr_broadcast : ∀ e, ethernet_broadcast_ c = Some e → arch_name c = WORMHOLE_B0 ∧ single_remote_chip e = false ∧
    EthBroadcastProperties.cache_ok e ∧ EthBroadcastProperties.comms_ok e ∧ EthHeaders.targets_fit e ∅ ∧
    ∀ id, id ∈ all_chip_ids_ c → is_Some (chip_to_mmio_chip e !! id)
}.

Lemma get_chip_ok c id chip w : chips_ c !! id = Some chip → get_chip (F:=F) id c w = Some (Ok chip, c, w).
Proof using. intros Hid. unfold get_chip, mbind, H_bind, get_object. by rewrite Hid. Qed.
Lemma get_soc_ok c id chip w : chips_ c !! id = Some chip → get_soc_descriptor (F:=F) id c w = Some (Ok (chip_soc chip), c, w).
Proof using. intros Hid. unfold get_soc_descriptor. by rewrite (hbind_ok _ _ _ _ _ _ _ (get_chip_ok c id chip w Hid)). Qed.
Lemma keeps_write data id core addr : keeps (write_to_device (F:=F) (TT:=TT) data id core addr).
Proof using.
  apply keeps_bind; [apply keeps_bind; [apply keeps_get|]|intros chip; apply keeps_device].
  intros c. destruct (chips_ c !! id); [apply keeps_ret|apply keeps_lift].
Qed.
Lemma keeps_write_target data x : keeps (write_target data x).
Proof using. apply keeps_write. Qed.

Section OneChip.
Context (c : Cluster TT) (Hc : cluster_ready c).
Abbreviation arch := (arch_name c).
Abbreviation tr := (use_translated_coords_for_eth_broadcast c).
Abbreviation rows := (reset_rows arch tr).
Abbreviation cols := (spared_columns arch tr).

Lemma tensix_written data id chip w : chips_ c !! id = Some chip →
  broadcast_to_cores data RESET_ADDRESS rows cols tr id TENSIX c w = for_H (chip_targets c id) (write_target data) c w.
Proof using Hc.
  intros Hid. destruct (cr_chips c Hc id chip Hid) as (M & b & Hsoc & Htr).
  destruct (tensix_grid arch (cr_arch c Hc) M b _ Hsoc) as (g & Hg & Hm).
  destruct (cores_spec arch _ M b _ Hsoc TENSIX g (broadcast_system tr) Hg Hm) as (cores & Hget & Hin); [done|destruct tr; auto|].
  unfold chip_targets. rewrite Hid, Hget, for_H_map. unfold broadcast_to_cores. rewrite (hbind_ok _ _ _ _ _ _ _ (get_soc_ok c id chip w Hid)).
  change (if tr then TRANSLATED else CoreTypes.NOC0) with (broadcast_system tr). rewrite Hget.
  erewrite hbind_ok by reflexivity. apply for_H_ext. intros core r w' Hcore%Hin.
  by rewrite (reset_spares_tensix arch (cr_arch c Hc) tr M b _ Hsoc Htr g core Hcore).
Qed.
Lemma dram_left_alone data id chip w : chips_ c !! id = Some chip →
  broadcast_to_cores data RESET_ADDRESS rows cols tr id DRAM c w = Some (Ok tt, c, w).
Proof using Hc.
  intros Hid. destruct (cr_chips c Hc id chip Hid) as (M & b & Hsoc & Htr).
  destruct (cores_spec arch _ M b _ Hsoc DRAM _ (broadcast_system tr) (dram_grids _ _ _ _ _ Hsoc) (dram_mask_range _ _ _ _ _ Hsoc)) as (cores & Hget & Hin);
    [done|destruct tr; auto|].
  unfold broadcast_to_cores. rewrite (hbind_ok _ _ _ _ _ _ _ (get_soc_ok c id chip w Hid)).
  change (if tr then TRANSLATED else CoreTypes.NOC0) with (broadcast_system tr). rewrite Hget.
  erewrite hbind_ok by reflexivity. rewrite (for_H_ext _ _ (λ _, mret tt)); [clear; by induction cores|].
  intros core r w' Hcore%Hin. by rewrite (reset_leaves_dram arch (cr_arch c Hc) tr M b _ Hsoc Htr _ core Hcore).
Qed.

Lemma chip_broadcast data id chip w : chips_ c !! id = Some chip →
  for_H [TENSIX; DRAM] (broadcast_to_cores data RESET_ADDRESS rows cols tr id) c w = for_H (chip_targets c id) (write_target data) c w.
Proof using Hc.
  intros Hid. cbn [for_H]. unfold mbind, H_bind. rewrite (tensix_written data id chip w Hid).
  pose proof (keeps_for (chip_targets c id) (write_target data) (keeps_write_target data) c w) as Hk.
  destruct (for_H _ _ c w) as [[[[[]|e] c'] w']|]; [|done..]. subst c'. by rewrite (dram_left_alone data id chip w' Hid).
Qed.

Lemma software_broadcast_spec data chips columns w :
  (∀ id, id ∈ chips → is_Some (chips_ c !! id)) → widen_columns arch tr columns = cols →
  ∃ columns', software_broadcast data RESET_ADDRESS ∅ rows columns tr chips c w
    = (for_H (concat (map (chip_targets c) chips)) (write_target data);; mret columns') c w.
Proof using Hc.
  intros Hchips Hcols. assert (∀ cs, (cs = columns ∨ cs = cols) → widen_columns arch tr cs = cols) as Hwide.
  { intros cs [->| ->]; [done|]. by apply spared_columns_wide, (cr_arch c Hc). }
  exists (match chips with [] => columns | _ => cols end).
  assert (∀ cs, cs = columns ∨ cs = cols → software_broadcast data RESET_ADDRESS ∅ rows cs tr chips c w
    = (for_H (concat (map (chip_targets c) chips)) (write_target data);; mret (match chips with [] => cs | _ => cols end)) c w) as Hall;
    [|apply Hall; by left].
  revert w. induction chips as [|id chips IH]; intros w cs Hcs; [done|]. cbn [software_broadcast map concat].
  destruct (decide _) as [[]%elem_of_empty|_]. unfold mbind at 1, H_bind at 1. cbn [get_object]. rewrite Hwide by done.
  destruct (Hchips id) as (chip & Hid); [left|]. unfold mbind at 1, H_bind at 1. rewrite (chip_broadcast data id chip w Hid).
  unfold mbind at 1, H_bind at 1. rewrite for_H_app. unfold mbind at 1, H_bind at 1.
  pose proof (keeps_for (chip_targets c id) (write_target data) (keeps_write_target data) c w) as Hk.
  destruct (for_H _ _ c w) as [[[[[]|e] c'] w']|]; [|done..]. subst c'.
  rewrite IH; [|by intros id' Hid'; apply Hchips; right|by right]. unfold mbind, H_bind. by destruct chips.
Qed.
End OneChip.
End Broadcast.

(** *** Over Ethernet *)

Lemma tensix_places x y : 0 ≤ x < 10 → 0 ≤ y < 12 → (x ≠ 0 ∧ x ≠ 5 ∧ y ≠ 0 ∧ y ≠ 6) ↔ XY x y ∈ cores_of wormhole_layout TENSIX.
Proof.
  intros Hx Hy. assert (Forall (λ x, Forall (λ y, bool_decide (x ≠ 0 ∧ x ≠ 5 ∧ y ≠ 0 ∧ y ≠ 6)
    = bool_decide (XY x y ∈ cores_of wormhole_layout TENSIX)) (seqZ 0 12)) (seqZ 0 10)) as Hall.
  { apply (bool_decide_unpack _). vm_compute. reflexivity. }
  rewrite list.Forall_forall in Hall. specialize (Hall x (proj2 (elem_of_seqZ 0 10 x) ltac:(lia))).
  rewrite list.Forall_forall in Hall. specialize (Hall y (proj2 (elem_of_seqZ 0 12 y) ltac:(lia))).
  split; intros Hp; apply (bool_decide_unpack _); [rewrite <- Hall|rewrite Hall]; by apply bool_decide_pack.
Qed.

Section Ethernet.
Context `{UnorderedLaws} (tr : bool).
Abbreviation rows := (reset_rows WORMHOLE_B0 tr).
Abbreviation cols := (reset_columns WORMHOLE_B0 tr).
Lemma reset_excludes_columns x : EthBroadcastProperties.excluded_col tr cols x ↔ x = 0 ∨ x = 5.
Proof using.
  unfold EthBroadcastProperties.excluded_col, EthBroadcastProperties.virtual_of. destruct tr; cbn [reset_columns].
  - setoid_rewrite elem_of_union. setoid_rewrite elem_of_singleton. split.
    + intros (i & [->| ->] & Hv); vm_compute in Hv; injection Hv as <-; auto.
    + intros [->| ->]; [exists 16|exists 17]; (split; [auto|reflexivity]).
  - by rewrite elem_of_union, !elem_of_singleton.
Qed.
Lemma reset_excludes_rows y : EthBroadcastProperties.excluded_row tr rows y ↔ y = 0 ∨ y = 6.
Proof using.
  unfold EthBroadcastProperties.excluded_row, EthBroadcastProperties.virtual_of. destruct tr; cbn [reset_rows].
  - setoid_rewrite elem_of_union. setoid_rewrite elem_of_singleton. split.
    + intros (i & [->| ->] & Hv); vm_compute in Hv; injection Hv as <-; auto.
    + intros [->| ->]; [exists 16|exists 17]; (split; [auto|reflexivity]).
  - by rewrite elem_of_union, !elem_of_singleton.
Qed.
Lemma reset_admissible e : single_remote_chip e = false → EthBroadcastProperties.admissible e ∅ rows cols tr.
Proof using.
  intros Hs. split; [by rewrite Hs| | | |].
  - intros i. cbn [reset_rows]. destruct tr; rewrite elem_of_union, !elem_of_singleton; unfold translated_row_end; intros [->| ->]; vm_compute; auto; split; (reflexivity || discriminate).
  - intros i. cbn [reset_columns]. destruct tr; rewrite elem_of_union, !elem_of_singleton; unfold translated_col_end; intros [->| ->]; vm_compute; auto; split; (reflexivity || discriminate).
  - intros Hn. destruct Hn. rewrite !reset_excludes_columns. auto.
  - intros _ _. right. left. intros y Hy. rewrite reset_excludes_rows. 
    assert (Forall (λ y, y ≠ 0 ∧ y ≠ 6) wormhole.T6_Y_LOCATIONS) as Hall by (apply (bool_decide_unpack _); by vm_compute).
    rewrite list.Forall_forall in Hall. destruct (Hall y Hy). by intros [|].
Qed.

Lemma ethernet_reset data e :
  EthBroadcastProperties.cache_ok e → EthHeaders.targets_fit e ∅ → EthBroadcastProperties.comms_ok e → single_remote_chip e = false →
  ∃ cmds e', EthBroadcast.broadcast_write_to_cluster data RESET_ADDRESS ∅ rows cols tr ([], e) = Ok (cmds, e') ∧
    EthBroadcastProperties.same_topology e e' ∧ EthBroadcastProperties.cache_ok e' ∧
    EthBroadcastProperties.reaches e ∅ data RESET_ADDRESS (tr = true) cmds (λ x y, XY x y ∈ cores_of wormhole_layout TENSIX).
Proof using All.
  intros Hc Hf Hm Hs.
  assert (∀ y, y ∈ rows → 0 ≤ y) as Hr0 by (intros y; cbn [reset_rows]; destruct tr; rewrite elem_of_union, !elem_of_singleton; lia).
  assert (∀ x, x ∈ cols → 0 ≤ x) as Hc0 by (intros x; cbn [reset_columns]; destruct tr; rewrite elem_of_union, !elem_of_singleton; lia).
  assert (EthBroadcastProperties.says_translated rows cols tr ↔ tr = true) as Hflag.
  { unfold EthBroadcastProperties.says_translated. pose proof (reset_excludes_columns 0). pose proof (reset_excludes_columns 5).
    destruct tr; [naive_solver|]. cbn [reset_rows]. rewrite elem_of_union, !elem_of_singleton. split; [lia|done]. }
  pose proof (EthBroadcastProperties.broadcast_write_to_cluster_spec e ∅ rows cols tr data RESET_ADDRESS [] Hc Hf Hm Hr0 Hc0) as Hspec.
  destruct (EthBroadcast.broadcast_write_to_cluster data RESET_ADDRESS ∅ rows cols tr ([], e)) as [[sent e']|err].
  - destruct Hspec as (_ & Ht & Hc' & cmds & -> & Hreach). exists cmds, e'. split; [done|]. split; [done|]. split; [done|].
    eapply EthBroadcastProperties.reaches_ext; [exact Hflag| |exact Hreach]. intros x y Hx Hy. cbn beta.
    rewrite reset_excludes_columns, reset_excludes_rows, <- tensix_places by done. tauto.
  - destruct Hspec as [Hn _]. by destruct Hn; apply reset_admissible.
Qed.
End Ethernet.

Section ResetBroadcast.
Context {F TT : Type} `{!SiliconChips F TT} `{UnorderedLaws}.
Implicit Types (c : Cluster TT) (w : World F).

Lemma hbind_cong {A B} (m m' : H F (Cluster TT) A) (f : A → H F (Cluster TT) B) c w : m c w = m' c w → (m ≫= f) c w = (m' ≫= f) c w.
Proof using. unfold mbind, H_bind. by intros ->. Qed.
Lemma reset_by_broadcast v c w : chips_ c ≠ ∅ →
  let tr := use_translated_coords_for_eth_broadcast c in let rows := reset_rows (arch_name c) tr in let cols := reset_columns (arch_name c) tr in
  broadcast_tensix_risc_reset_to_cluster v c w =
    (_ ← match ethernet_broadcast_ c with
         | None => software_broadcast (word_bytes v) RESET_ADDRESS ∅ rows cols tr (ascending (all_chip_ids_ c))
         | Some e =>
             '(commands, e) ← hlift (EthBroadcast.broadcast_write_to_cluster (word_bytes v) RESET_ADDRESS ∅ rows cols tr ([], e));
             modify_cluster (set_broadcast (Some e));;
             for_H commands (λ cmd, on_device (send_broadcast cmd));;
             mret cols
         end;
     wait_for_non_mmio_flush) c w.
Proof using.
  intros Hne tr rows cols. unfold broadcast_tensix_risc_reset_to_cluster. rewrite (hbind_ok _ _ c w _ _ _ eq_refl).
  rewrite decide_False by done. apply hbind_cong. unfold broadcast_write_to_cluster. by rewrite (hbind_ok _ _ c w _ _ _ eq_refl).
Qed.

(** The chip is the broadcast's, behind one of its objects. *)
Lemma chip_behind c e id : cluster_ready c → ethernet_broadcast_ c = Some e → is_Some (chips_ c !! id) →
  ∃ comm at_, EthBroadcastProperties.behind e comm id at_ ∧ EthHeaders.fits at_.
Proof using.
  intros Hc He Hid. destruct (cr_broadcast c Hc e He) as (_ & _ & _ & Hco & Hf & Hall).
  destruct (Hall id) as (m & Hm); [by apply (cr_ids c Hc)|]. destruct (Hf id m Hm ltac:(by intros ?%elem_of_empty)) as (at_ & Hat & Hfit).
  destruct (Hco id m Hm) as (comm & Hcomm). exists comm, at_. split; [by exists m|done].
Qed.

(** C10: A reset of all Tensix cores reaches all of them. Without an Ethernet broadcast,
    [broadcast_tensix_risc_reset_to_cluster] writes the value to the reset
    register of exactly the working Tensix cores of every chip, one after the
    other, and to no other core - no DRAM core is among them, whichever
    coordinates are used and whatever is harvested. With it, the commands write
    to exactly the Tensix positions of the grid, the harvested ones included, of
    the chips that the headers select; every chip of the cluster is one of
    these, reached through an object of the broadcast. In both cases it then
    waits until everything has arrived. *)
Theorem reset_reaches_tensix c v w :
  cluster_ready c →
  let tr := use_translated_coords_for_eth_broadcast c in
  match ethernet_broadcast_ c with
  | None =>
      broadcast_tensix_risc_reset_to_cluster v c w
      = (for_H (reset_targets c) (write_target (word_bytes v));; wait_for_non_mmio_flush) c w ∧
      ∀ id chip M b g core, chips_ c !! id = Some chip → described (arch_name c) tr chip M b →
        unit_grids (arch_name c) (standard_layout (arch_name c)) M TENSIX = Some g →
        (id, core) ∈ reset_targets c ↔ working (arch_name c) (standard_layout (arch_name c)) M b TENSIX g (broadcast_system tr) core
  | Some e =>
      ∃ cmds e', broadcast_tensix_risc_reset_to_cluster v c w
      = (modify_cluster (set_broadcast (Some e'));; for_H cmds (λ cmd, on_device (send_broadcast cmd));; wait_for_non_mmio_flush) c w ∧
      EthBroadcastProperties.same_topology e e' ∧ EthBroadcastProperties.cache_ok e' ∧
      EthBroadcastProperties.reaches e ∅ (word_bytes v) RESET_ADDRESS (tr = true) cmds (λ x y, XY x y ∈ cores_of wormhole_layout TENSIX) ∧
      ∀ id, is_Some (chips_ c !! id) → ∃ comm at_, EthBroadcastProperties.behind e comm id at_ ∧
        ∀ x y, 0 ≤ x < 10 → 0 ≤ y < 12 →
          (∃ cmd, cmd ∈ cmds ∧ cmd_comm cmd = comm ∧ EthBroadcastProperties.writes_chip cmd at_ x y = true) ↔
          XY x y ∈ cores_of wormhole_layout TENSIX
  end.
Proof using H1.
  intros Hc tr. rewrite reset_by_broadcast by apply (cr_some c Hc). fold tr.
  destruct (ethernet_broadcast_ c) as [e|] eqn:He.
  - destruct (cr_broadcast c Hc e He) as (Ha & Hs & Hca & Hco & Hf & _). rewrite Ha.
    destruct (ethernet_reset tr (word_bytes v) e Hca Hf Hco Hs) as (cmds & e' & -> & Ht & Hc' & Hr). exists cmds, e'. split; [|split_and!; [done..|]].
    2:{ intros id Hid. destruct (chip_behind c e id Hc He Hid) as (comm & at_ & Hb & Hfit). exists comm, at_. split; [done|]. intros x y Hx Hy.
        destruct (EthHeaders.fits_ranges at_ Hfit) as (H1' & H2' & H3'). destruct Hr as [_ Hr]. unfold EthBroadcastProperties.writes_chip.
        rewrite (Hr comm _ _ _ x y H1' H2' H3' Hx Hy). split; [by intros [_ ?]|]. intros Hcore. split; [|done].
        destruct Hb as (m & Hm & Hcomm & Hl). exists m. split; [done|]. exists id, at_. split_and!; done. }
    unfold hlift, mbind, H_bind. cbn. destruct (modify_cluster _ c w) as [[[[[]|err] c1] w1]|]; [|done..].
    by destruct (for_H _ _ c1 w1) as [[[[[]|err] c2] w2]|].
  - destruct (software_broadcast_spec c Hc (word_bytes v) (ascending (all_chip_ids_ c)) (reset_columns (arch_name c) (use_translated_coords_for_eth_broadcast c)) w) as (cs & Hw).
    { intros id Hid%elem_of_ascending. by apply (cr_ids c Hc). }
    { done. }
    split.
    + rewrite (hbind_cong _ _ _ c w Hw). unfold mbind, H_bind, reset_targets. by destruct (for_H _ _ c w) as [[[[[]|err] c'] w']|].
    + intros id chip M b g core Hid [Hsoc Htr] Hg. unfold reset_targets. rewrite elem_of_concat_map.
      destruct (tensix_grid _ (cr_arch c Hc) M b _ Hsoc) as (g' & Hg' & Hm). rewrite Hg in Hg'. injection Hg' as <-.
      destruct (cores_spec _ _ M b _ Hsoc TENSIX g (broadcast_system tr) Hg Hm) as (cores & Hget & Hin); [done|destruct tr; auto|].
      rewrite <- Hin. split.
      * intros (id' & Hid' & Hx). unfold chip_targets in Hx. destruct (chips_ c !! id') as [chip'|] eqn:E; [|by apply elem_of_nil in Hx].
        destruct (Soc.get_cores (chip_soc chip') TENSIX (broadcast_system (use_translated_coords_for_eth_broadcast c)) None) as [cores'|] eqn:E'; [|by apply elem_of_nil in Hx].
        apply list_elem_of_fmap in Hx as (core' & [= -> ->] & Hx). rewrite Hid in E. injection E as <-. fold tr in E'. congruence.
      * intros Hcore. exists id. split; [apply elem_of_ascending, (cr_ids c Hc); by exists chip|].
        unfold chip_targets. rewrite Hid. fold tr. rewrite Hget. by apply list_elem_of_fmap_2.
Qed.
End ResetBroadcast.

(** ** What only the cache of the descriptor changes *)

Section Grown.
Context {F TT : Type} `{!SiliconChips F TT} `{UnorderedLaws}.
Implicit Types (c : Cluster TT) (w : World F).

Lemma cache_extended_refl d : cache_extended d d.
Proof using. split; [by destruct d|done]. Qed.
Lemma cache_extended_trans d1 d2 d3 : cache_extended d1 d2 → cache_extended d2 d3 → cache_extended d1 d3.
Proof using. intros [E1 S1] [E2 S2]. split; [by rewrite E2, E1|by etrans]. Qed.

(** [c'] is [c] with more answers in the descriptor's cache of gateways. *)
Definition grown c c' : Prop := cache_extended (cluster_desc c) (cluster_desc c') ∧ c' = set_desc (cluster_desc c') c.
Lemma grown_refl c : grown c c.
Proof using. split; [apply cache_extended_refl|by destruct c]. Qed.
Lemma cluster_grown_trans c1 c2 c3 : grown c1 c2 → grown c2 c3 → grown c1 c3.
Proof using. intros [E1 S1] [E2 S2]. split; [by eapply cache_extended_trans|]. rewrite S2. by rewrite S1. Qed.

Definition grows {A} (m : H F (Cluster TT) A) : Prop := ∀ c w, cache_ok (cluster_desc c) →
  match m c w with Some (_, c', _) => grown c c' ∧ cache_ok (cluster_desc c') | None => True end.
Lemma grows_keeps {A} (m : H F (Cluster TT) A) : keeps m → grows m.
Proof using. intros Hk c w Hc. specialize (Hk c w). destruct (m c w) as [[[a c'] w']|]; [|done]. subst c'. split; [apply grown_refl|done]. Qed.
Lemma grows_bind {A B} (m : H F (Cluster TT) A) (f : A → H F (Cluster TT) B) : grows m → (∀ a, grows (f a)) → grows (m ≫= f).
Proof using.
  intros Hm Hf c w Hc. unfold mbind, H_bind. specialize (Hm c w Hc). destruct (m c w) as [[[[a|e] c1] w1]|]; [|done..].
  destruct Hm as [Hg Hc1]. specialize (Hf a c1 w1 Hc1). destruct (f a c1 w1) as [[[r c2] w2]|]; [|done].
  destruct Hf as [Hg2 Hc2]. split; [by eapply cluster_grown_trans|done].
Qed.
Lemma grows_for {X} (l : list X) (f : X → H F (Cluster TT) unit) : (∀ x, grows (f x)) → grows (for_H l f).
Proof using. intros Hf. induction l as [|x l IH]; [apply grows_keeps, keeps_ret|]. apply grows_bind; [apply Hf|done]. Qed.

(** Asking for the gateway of a chip. *)
Lemma closest_spec c w id : cache_ok (cluster_desc c) →
  match get_closest_mmio_capable_chip id (cluster_desc c) with
  | Ok (g, d') => closest_mmio_chip (F:=F) id c w = Some (Ok g, set_desc d' c, w) ∧ cache_ok d' ∧ cache_extended (cluster_desc c) d' ∧
      if is_chip_mmio_capable (cluster_desc c) id then g = id
      else mmio_on_board (cluster_desc c) id g ∧ closest_mmio_chip_cache d' !! id = Some g
  | Err e => closest_mmio_chip (F:=F) id c w = Some (Err e, c, w) ∧ is_chip_mmio_capable (cluster_desc c) id = false ∧
      ¬ ∃ m, mmio_on_board (cluster_desc c) id m
  end.
Proof using All.
  intros Hc. pose proof (get_closest_spec (cluster_desc c) id Hc) as Hs. unfold closest_mmio_chip. rewrite (hbind_ok _ _ c w _ _ _ eq_refl).
  destruct (get_closest_mmio_capable_chip id (cluster_desc c)) as [[g d']|e].
  - destruct Hs as (Hg & Hc' & He). split; [done|]. split; [done|]. split; [done|].
    destruct (is_chip_mmio_capable (cluster_desc c) id); [by destruct Hg|done].
  - split; [done|]. done.
Qed.
Lemma grows_closest id : grows (closest_mmio_chip id).
Proof using All.
  intros c w Hc. pose proof (closest_spec c w id Hc) as Hs. destruct (get_closest_mmio_capable_chip id (cluster_desc c)) as [[g d']|e].
  - destruct Hs as (-> & Hc' & He & _). split; [by split|done].
  - destruct Hs as (-> & _). split; [apply grown_refl|done].
Qed.

Lemma keeps_get_chip id : keeps (get_chip (F:=F) (TT:=TT) id).
Proof using. apply keeps_bind; [apply keeps_get|]. intros c. destruct (chips_ c !! id); [apply keeps_ret|apply keeps_lift]. Qed.
Lemma keeps_local_chip id : keeps (get_local_chip (F:=F) (TT:=TT) id).
Proof using.
  apply keeps_bind; [apply keeps_get|]. intros c. apply keeps_bind; [apply keeps_lift|]. intros _.
  apply keeps_bind; [apply keeps_get_chip|]. intros chip. apply keeps_ret.
Qed.
Lemma keeps_remote_chip id : keeps (get_remote_chip (F:=F) (TT:=TT) id).
Proof using.
  apply keeps_bind; [apply keeps_get|]. intros c. apply keeps_bind; [apply keeps_lift|]. intros _.
  apply keeps_bind; [apply keeps_get_chip|]. intros chip. apply keeps_ret.
Qed.
Lemma keeps_dereference {A} (p : option A) : keeps (dereference (F:=F) (TT:=TT) p).
Proof using. destruct p; [apply keeps_ret|apply keeps_lift]. Qed.
Lemma keeps_chip_transfer chip cores_of : keeps (set_chip_transfer_cores (F:=F) (TT:=TT) chip cores_of).
Proof using.
  unfold set_chip_transfer_cores. destruct (chip_class chip); [apply keeps_ret..|].
  apply keeps_bind; [apply keeps_bind; [apply keeps_get|intros c; apply keeps_lift]|]. intros gateway. apply keeps_bind; [apply keeps_lift|]. intros cores.
  destruct (_ ≫= _); [apply keeps_device|apply keeps_lift].
Qed.
Lemma grows_gateway_transfer id cores_of : grows (set_gateway_transfer_cores id cores_of).
Proof using All.
  apply grows_bind; [apply grows_keeps, keeps_get|]. intros c. apply grows_for. intros r. apply grows_bind; [apply grows_closest|]. intros g.
  destruct (g =? id); [|apply grows_keeps, keeps_ret]. apply grows_bind; [apply grows_keeps, keeps_remote_chip|]. intros remote.
  apply grows_bind; [apply grows_keeps, keeps_dereference|]. intros chip. apply grows_keeps, keeps_chip_transfer.
Qed.
Lemma grows_transfer_cores id : grows (refresh_transfer_cores id).
Proof using All.
  apply grows_bind; [apply grows_keeps, keeps_get|]. intros c. apply grows_bind; [apply grows_keeps, keeps_lift|]. intros arch.
  destruct (decide _); [|apply grows_keeps, keeps_ret]. apply grows_bind; [apply grows_keeps, keeps_lift|]. intros rc.
  apply grows_bind; [apply grows_keeps, keeps_local_chip|]. intros local. apply grows_bind; [apply grows_keeps, keeps_dereference|]. intros chip.
  apply grows_bind; [apply grows_keeps, keeps_lift|]. intros cores. apply grows_bind; [apply grows_keeps, keeps_device|]. intros _.
  apply grows_gateway_transfer.
Qed.

(** *** The gateways of broadcasts *)

(** The gateway of a chip's broadcasts: its closest one on the shelf 0 of rack 0, else the first. *)
Definition gateway_of (d : ClusterDescriptor) (first_mmio_chip chip g : Z) : Prop :=
  ∃ at_, chip_locations (placement d) !! chip = Some at_ ∧
    if (ec_rack at_ =? 0) && (ec_shelf at_ =? 0)
    then is_chip_mmio_capable d g = true ∧ (g = chip ∨ mmio_on_board d chip g)
    else g = first_mmio_chip.
Lemma gateway_of_extended d d' first_mmio_chip chip g : cache_extended d d' → gateway_of d' first_mmio_chip chip g ↔ gateway_of d first_mmio_chip chip g.
Proof using. intros [-> _]. done. Qed.

Lemma broadcast_gateway_spec first_mmio_chip chip c w : cache_ok (cluster_desc c) →
  match broadcast_gateway first_mmio_chip chip c w with
  | Some (r, c', _) => grown c c' ∧ cache_ok (cluster_desc c') ∧ match r with Ok g => gateway_of (cluster_desc c) first_mmio_chip chip g | Err _ => True end
  | None => True
  end.
Proof using All.
  intros Hc. unfold broadcast_gateway. rewrite (hbind_ok _ _ c w _ _ _ eq_refl). unfold mbind, H_bind, hlift, map_at.
  destruct (chip_locations (placement (cluster_desc c)) !! chip) as [at_|] eqn:Hat; [|split; [apply grown_refl|done]].
  destruct ((ec_rack at_ =? 0) && (ec_shelf at_ =? 0)) eqn:Hrs.
  2:{ split; [apply grown_refl|]. split; [done|]. exists at_. by rewrite Hrs. }
  pose proof (closest_spec c w chip Hc) as Hs. pose proof (get_closest_spec (cluster_desc c) chip Hc) as Hg.
  destruct (get_closest_mmio_capable_chip chip (cluster_desc c)) as [[g d']|e].
  - destruct Hs as (-> & Hc' & He & Hcase). split; [by split|]. split; [done|]. exists at_. split; [done|]. rewrite Hrs.
    destruct (is_chip_mmio_capable (cluster_desc c) chip) eqn:Hm; [subst g; auto|]. destruct Hcase as [Hb _]. split; [apply Hb|by right].
  - destruct Hs as (-> & _). split; [apply grown_refl|done].
Qed.

Lemma broadcast_gateways_spec first_mmio_chip chips : ∀ m c w, cache_ok (cluster_desc c) →
  match broadcast_gateways first_mmio_chip chips m c w with
  | Some (r, c', _) => grown c c' ∧ cache_ok (cluster_desc c') ∧
      match r with
      | Ok m' => ∀ chip, (chip ∈ chips → ∃ g, m' !! chip = Some g ∧ gateway_of (cluster_desc c) first_mmio_chip chip g) ∧
                   (chip ∉ chips → m' !! chip = m !! chip)
      | Err _ => True
      end
  | None => True
  end.
Proof using All.
  induction chips as [|id chips IH]; intros m c w Hc.
  { cbn. split; [apply grown_refl|]. split; [done|]. intros chip. split; [by intros ?%elem_of_nil|done]. }
  cbn [broadcast_gateways]. unfold mbind, H_bind. pose proof (broadcast_gateway_spec first_mmio_chip id c w Hc) as Hs.
  destruct (broadcast_gateway first_mmio_chip id c w) as [[[[g|e] c1] w1]|]; [|by destruct Hs as (? & ? & _)|done].
  destruct Hs as (Hg1 & Hc1 & Hid). specialize (IH (<[id := g]> m) c1 w1 Hc1).
  destruct (broadcast_gateways first_mmio_chip chips _ c1 w1) as [[[[m'|e] c2] w2]|]; [| |done].
  2:{ destruct IH as (Hg2 & Hc2 & _). split; [exact (cluster_grown_trans _ _ _ Hg1 Hg2)|done]. }
  destruct IH as (Hg2 & Hc2 & Hm). split; [exact (cluster_grown_trans _ _ _ Hg1 Hg2)|]. split; [done|]. intros chip. destruct (Hm chip) as [Hin Hout]. split.
  - intros [->|Hchip]%elem_of_cons.
    + destruct (decide (id ∈ chips)) as [Hi|Hi]; [destruct (Hin Hi) as (g' & Hg' & Hgw)|exists g; split; [rewrite Hout by done; apply lookup_insert_eq|done]].
      exists g'. split; [done|]. exact (proj1 (gateway_of_extended _ _ _ _ _ (proj1 Hg1)) Hgw).
    + destruct (Hin Hchip) as (g' & Hg' & Hgw). exists g'. split; [done|]. exact (proj1 (gateway_of_extended _ _ _ _ _ (proj1 Hg1)) Hgw).
  - intros [Hne Hchip]%not_elem_of_cons. rewrite Hout by done. by apply lookup_insert_ne.
Qed.
End Grown.

(** ** A new descriptor for the same chips *)

Lemma map_subset_full {V} (m1 m2 : gmap Z V) : m1 ⊆ m2 → size m1 = size m2 → m1 = m2.
Proof. intros Hs Hz. apply map_subseteq_size_eq; [done|lia]. Qed.

Section SameChips.
Context `{UnorderedLaws}.

Lemma ids_fold (l : list (Z * Z)) (m : gmap Z Z) uid id : NoDup l.*2 →
  foldl (λ m '(chip_id, uid), <[uid := chip_id]> m) m l !! uid = Some id ↔ (id, uid) ∈ l ∨ (uid ∉ l.*2 ∧ m !! uid = Some id).
Proof using.
  revert m. induction l as [|[k v] l IH]; intros m; cbn [foldl fmap list_fmap snd].
  { intros _. split; [right; split; [by intros ?%elem_of_nil|done]|by intros [?%elem_of_nil|[_ ?]]]. }
  intros [Hv Hnd]%NoDup_cons. rewrite IH by done. rewrite !elem_of_cons. split.
  - intros [?|[Hu Hl]]; [by left; right|]. destruct (decide (v = uid)) as [->|Hne].
    + rewrite lookup_insert_eq in Hl. injection Hl as ->. by left; left.
    + rewrite lookup_insert_ne in Hl by done. right. split; [|done]. intros [->|?]; done.
  - intros [[[= -> ->]|?]|[Hu Hl]].
    + right. split; [done|apply lookup_insert_eq].
    + by left.
    + right. split; [tauto|]. rewrite lookup_insert_ne; [done|]. intros ->. tauto.
Qed.
Lemma NoDup_values (old : gmap Z Z) (Hinj : ∀ id id' uid, old !! id = Some uid → old !! id' = Some uid → id = id') : NoDup (map_iter old).*2.
Proof using All.
  pose proof (NoDup_map_iter old) as Hnd. assert (∀ k v, (k, v) ∈ map_iter old → old !! k = Some v) as Hin by (intros k v; by rewrite elem_of_map_iter).
  induction (map_iter old) as [|[k v] l IH]; cbn; [constructor|]. cbn in Hnd. apply NoDup_cons in Hnd as [Hk Hnd]. constructor.
  - intros ([k' v'] & -> & Hl)%list_elem_of_fmap. cbn in Hin. pose proof (Hin k v' ltac:(left)) as E1. pose proof (Hin k' v' ltac:(by right)) as E2.
    rewrite (Hinj k k' v' E1 E2) in Hk. apply Hk. by apply (list_elem_of_fmap_2 fst l (k', v')).
  - apply IH; [done|]. intros k' v' Hl. apply Hin. by right.
Qed.
Lemma ids_by_unique_id_spec old uid id (Hinj : ∀ id id' uid, old !! id = Some uid → old !! id' = Some uid → id = id') :
  ids_by_unique_id old !! uid = Some id ↔ old !! id = Some uid.
Proof using All.
  unfold ids_by_unique_id. rewrite ids_fold by by apply NoDup_values. rewrite elem_of_map_iter, lookup_empty. split; [by intros [?|[_ ?]]|auto].
Qed.

(** The check accepts exactly the same numbering of the same chips. *)
Lemma check_same_chips_spec old new (Hinj : ∀ id id' uid, old !! id = Some uid → old !! id' = Some uid → id = id') :
  if decide (new = old) then check_same_chips old new = Ok tt else ∃ what, check_same_chips old new = throw what.
Proof using All.
  assert (∀ l, (∀ id uid, (id, uid) ∈ l → old !! id = Some uid) →
    for_each l (λ '(new_chip_id, uid) _, match ids_by_unique_id old !! uid with
      | None => throw "refresh_cluster_description: chip is present in the new cluster descriptor but not in the old one."
      | Some old_chip_id => umd_assert (old_chip_id =? new_chip_id) "refresh_cluster_description: chip ID changed."
      end) tt = Ok tt) as Hall.
  { induction l as [|[id uid] l IH]; intros Hl; [done|]. cbn [for_each].
    rewrite (proj2 (ids_by_unique_id_spec old uid id Hinj) (Hl id uid ltac:(left))), Z.eqb_refl. apply IH. intros id' uid' Hin. apply Hl. by right. }
  assert (∀ l, (∃ id uid, (id, uid) ∈ l ∧ old !! id ≠ Some uid) →
    ∃ what, for_each l (λ '(new_chip_id, uid) _, match ids_by_unique_id old !! uid with
      | None => throw "refresh_cluster_description: chip is present in the new cluster descriptor but not in the old one."
      | Some old_chip_id => umd_assert (old_chip_id =? new_chip_id) "refresh_cluster_description: chip ID changed."
      end) tt = throw what) as Hsome.
  { induction l as [|[id uid] l IH]; intros (id' & uid' & Hin & Hne); [by apply elem_of_nil in Hin|]. cbn [for_each].
    destruct (ids_by_unique_id old !! uid) as [old_id|] eqn:E; [|by eexists].
    destruct (Z.eqb_spec old_id id) as [->|]; [|by eexists]. apply (ids_by_unique_id_spec old uid id Hinj) in E.
    apply IH. exists id', uid'. split; [|done]. apply elem_of_cons in Hin as [[= -> ->]|]; done. }
  unfold check_same_chips. destruct (decide (new = old)) as [->|Hne].
  - rewrite bool_decide_eq_true_2 by done. apply Hall. intros id uid. by rewrite elem_of_map_iter.
  - case_bool_decide as Hsz; [|by eexists]. cbn [umd_assert mbind result_bind]. apply Hsome.
    destruct (decide (Exists (λ kv, old !! kv.1 ≠ Some kv.2) (map_iter new))) as [Hex|Hno].
    + apply Exists_exists in Hex as ([id uid] & Hin & Hn). by exists id, uid.
    + destruct Hne. apply map_subset_full; [|done]. apply map_subseteq_spec. intros id uid Hin.
      apply elem_of_map_iter in Hin. rewrite <- Forall_Exists_neg in Hno. rewrite list.Forall_forall in Hno.
      destruct (decide (old !! id = Some uid)) as [|Hn]; [done|]. by destruct (Hno (id, uid) Hin).
Qed.
End SameChips.

Section Gateways.
Context {F TT : Type} `{!SiliconChips F TT} `{UnorderedLaws}.
Implicit Types (c : Cluster TT) (w : World F).

(** The gateways that the broadcasts of a cluster are sent over. *)
Definition broadcast_for c (e : EthernetBroadcast) : Prop :=
  bc_chip_locations e = chip_locations (placement (cluster_desc c)) ∧ mmio_remote_comms e = remote_communications_ c ∧
  ∃ first_mmio_chip, head (ascending (local_chip_ids_ c)) = Some first_mmio_chip ∧
    ∀ chip, match chip_to_mmio_chip e !! chip with
            | Some g => chip ∈ all_chip_ids_ c ∧ gateway_of (cluster_desc c) first_mmio_chip chip g
            | None => chip ∉ all_chip_ids_ c
            end.

Lemma keeps_first_local : keeps (first_local_chip (F:=F) (TT:=TT)).
Proof using. apply keeps_bind; [apply keeps_get|]. intros c. destruct (ascending _); [apply keeps_lift|apply keeps_ret]. Qed.

Lemma gateways_for_all c w : cache_ok (cluster_desc c) →
  match (first_mmio_chip ← first_local_chip; broadcast_gateways first_mmio_chip (ascending (all_chip_ids_ c)) ∅) c w with
  | Some (Ok m, c', _) => grown c c' ∧ cache_ok (cluster_desc c') ∧
      ∀ e, bc_chip_locations e = chip_locations (placement (cluster_desc c)) → mmio_remote_comms e = remote_communications_ c →
        chip_to_mmio_chip e = m → broadcast_for c e
  | Some (Err _, c', _) => grown c c' ∧ cache_ok (cluster_desc c')
  | None => True
  end.
Proof using SiliconChips0 H1.
  intros Hc. unfold first_local_chip. unfold mbind at 1, H_bind at 1. rewrite (hbind_ok _ _ c w _ _ _ eq_refl).
  destruct (ascending (local_chip_ids_ c)) as [|first_mmio_chip rest] eqn:Hl; [split; [apply grown_refl|done]|]. cbn [hlift mret H_ret].
  pose proof (broadcast_gateways_spec first_mmio_chip (ascending (all_chip_ids_ c)) ∅ c w Hc) as Hs. unfold mret, H_ret.
  destruct (broadcast_gateways first_mmio_chip _ ∅ c w) as [[[[m|e] c'] w']|]; [|by destruct Hs as (? & ? & _)|done].
  destruct Hs as (Hg & Hc' & Hm). split; [done|]. split; [done|]. intros e Hloc Hcomm <-. split; [done|]. split; [done|].
  exists first_mmio_chip. rewrite Hl. split; [done|]. intros chip. destruct (Hm chip) as [Hin Hout].
  destruct (decide (chip ∈ all_chip_ids_ c)) as [Hi|Hi].
  - destruct Hin as (g & -> & Hgw); [by apply elem_of_ascending|]. done.
  - rewrite Hout, lookup_empty; [done|]. by rewrite elem_of_ascending.
Qed.
End Gateways.

Section Refreshed.
Context {F TT : Type} `{!SiliconChips F TT} `{UnorderedLaws}.
Context (discover : Topology.TopologyDiscoveryOptions → IODeviceType → string → M F (ClusterDescriptor * gmap Z TT)).
Implicit Types (c : Cluster TT) (w : World F).

(** [c'] is [c] with the descriptor [d], its version and perhaps another broadcast. *)
Definition redescribed (d : ClusterDescriptor) c c' : Prop :=
  cache_extended d (cluster_desc c') ∧
  c' = set_broadcast (ethernet_broadcast_ c') (set_summary (arch_name c) (ClusterState.eth_fw_version d)
         (use_translated_coords_for_eth_broadcast c) (set_desc (cluster_desc c') c)).
Lemma redescribed_grown d c c1 c2 : redescribed d c c1 → grown c1 c2 → redescribed d c c2.
Proof using.
  intros [He E] [He2 E2]. split; [exact (cache_extended_trans _ _ _ He He2)|]. unfold set_broadcast, set_summary, set_desc in *.
  clear He He2. destruct c1, c2, c. cbn in *. clear -E E2. congruence.
Qed.

Lemma redescribed_broadcast d c c' e : redescribed d c c' → redescribed d c (set_broadcast e c').
Proof using. intros [He E]. split; [done|]. unfold set_broadcast, set_summary, set_desc in *. clear He. destruct c', c. cbn in *. clear -E. congruence. Qed.

Lemma refresh_broadcast_spec d c0 c w : redescribed d c0 c → cache_ok (cluster_desc c) →
  match refresh_broadcast (F:=F) c w with
  | Some (r, c', _) => redescribed d c0 c' ∧ cache_ok (cluster_desc c') ∧
      (r = Ok tt → match ethernet_broadcast_ c with
                   | None => ethernet_broadcast_ c' = None
                   | Some _ => ∃ e', ethernet_broadcast_ c' = Some e' ∧ broadcast_for c' e' ∧ bcast_header_cache e' = ∅
                   end)
  | None => True
  end.
Proof using SiliconChips0 H1.
  intros Hr Hc. unfold refresh_broadcast. rewrite (hbind_ok _ _ c w _ _ _ eq_refl).
  destruct (ethernet_broadcast_ c) as [e|] eqn:He; [|by split_and!].
  pose proof (gateways_for_all c w Hc) as Hg. unfold mbind, H_bind in Hg |- *. 
  destruct (first_local_chip c w) as [[[[first|err] c1] w1]|] eqn:Hf; [| |done].
  2:{ destruct Hg as [Hg Hc1]. split; [by eapply redescribed_grown|]. by split. }
  assert (c1 = c) as ->. { pose proof (keeps_first_local (F:=F) c w) as Hk. by rewrite Hf in Hk. }
  destruct (broadcast_gateways first _ ∅ c w1) as [[[[m|err] c2] w2]|]; [| |done].
  2:{ destruct Hg as [Hg Hc2]. split; [by eapply redescribed_grown|]. by split. }
  destruct Hg as (Hg & Hc2 & Hb). cbn. pose proof (redescribed_grown _ _ _ _ Hr Hg) as Hr2. split.
  { by apply redescribed_broadcast. }
  split; [done|]. intros _. eexists. split; [done|]. destruct Hg as [[Hcd _] Hg]. split; [|done].
  destruct (Hb (refresh (chip_locations (placement (cluster_desc c2))) m (remote_communications_ c2) e)) as (Hl & Hm & first' & Hfirst & Hgw);
    [by rewrite Hcd|by rewrite Hg|done|].
  split; [done|]. split; [done|]. exists first'. rewrite Hg. split; [done|]. intros chip. specialize (Hgw chip).
  destruct (chip_to_mmio_chip _ !! chip); [|done]. destruct Hgw as [Hin Hgw]. split; [done|]. cbn. by rewrite Hcd.
Qed.

(** C19: [refresh_cluster_description] never puts a descriptor of other chips under the
    chips that are open. Rediscovery gives a descriptor [d']: when its chips are
    not the same physical chips under the same ids (compared by their unique
    ids), it throws and the cluster is as before; otherwise whatever happens
    later, the cluster has [d'], its Ethernet firmware version, and the same
    chips, ids, options and communications as before; and when it returns,
    the broadcast, if there is one, goes over the gateways that [d'] says, with
    no header kept from before. *)
Theorem refresh_cluster_description_same_chips c w d' devices w1 :
  let old_unique_ids := chip_unique_ids (tables (cluster_desc c)) in
  refresh_supported (options_ c) = Ok tt →
  (∀ id id' uid, old_unique_ids !! id = Some uid → old_unique_ids !! id' = Some uid → id = id') →
  create_cluster_descriptor discover (sdesc_path (options_ c)) (io_type (options_ c)) (topology_discovery_options (options_ c)) w
    = Some (Ok (d', devices), w1) → cache_ok d' →
  if decide (chip_unique_ids (tables d') = old_unique_ids) then
    match refresh_cluster_description discover c w with
    | Some (r, c', _) => redescribed d' c c' ∧
        (r = Ok tt → match ethernet_broadcast_ c with
                     | None => ethernet_broadcast_ c' = None
                     | Some _ => ∃ e', ethernet_broadcast_ c' = Some e' ∧ broadcast_for c' e' ∧ bcast_header_cache e' = ∅
                     end)
    | None => True
    end
  else ∃ what, refresh_cluster_description discover c w = Some (Err (RuntimeError what), c, w1).
Proof using SiliconChips0 H1.
  intros old Hopt Hinj Hdisc Hc. unfold refresh_cluster_description. rewrite (hbind_ok _ _ c w _ _ _ eq_refl).
  rewrite Hopt, (hbind_ok _ _ c w _ _ _ eq_refl). rewrite (hbind_ok _ _ c w (d', devices) c w1); [|by unfold on_device; rewrite Hdisc].
  pose proof (check_same_chips_spec old (chip_unique_ids (tables d')) Hinj) as Hs. fold old. destruct (decide _) as [Heq|Hne].
  2:{ destruct Hs as (what & ->). by exists what. }
  rewrite Hs, (hbind_ok _ _ c w1 _ _ _ eq_refl).
  rewrite (hbind_ok _ _ c w1 tt (set_summary (arch_name c) (ClusterState.eth_fw_version d') (use_translated_coords_for_eth_broadcast c) (set_desc d' c)) w1) by done.
  set (c1 := set_summary _ _ _ _). assert (redescribed d' c c1) as Hr1 by (split; [apply cache_extended_refl|done]).
  pose proof (refresh_broadcast_spec d' c c1 w1 Hr1 Hc) as Hb. unfold mbind at 1, H_bind at 1.
  destruct (refresh_broadcast c1 w1) as [[[[[]|e] c2] w2]|]; [|by destruct Hb as (? & _ & _)|done]. destruct Hb as (Hr2 & Hc2 & Hb).
  rewrite (hbind_ok _ _ c2 w2 _ _ _ eq_refl).
  pose proof (grows_for (ascending (local_chip_ids_ c2)) refresh_transfer_cores grows_transfer_cores c2 w2 Hc2) as Hg.
  destruct (for_H _ _ c2 w2) as [[[r c3] w3]|]; [|done]. destruct Hg as [Hg _]. split; [by eapply redescribed_grown|]. intros ->.
  specialize (Hb eq_refl). change (ethernet_broadcast_ c1) with (ethernet_broadcast_ c) in Hb. destruct Hg as [[Hcd _] Hg].
  destruct (ethernet_broadcast_ c); [|by rewrite Hg]. destruct Hb as (e' & He' & (Hl & Hm & first & Hfirst & Hgw) & Hh).
  exists e'. split; [by rewrite Hg|]. split; [|done]. split; [by rewrite Hcd|]. split; [by rewrite Hg|]. exists first. rewrite Hg.
  split; [done|]. intros chip. specialize (Hgw chip). destruct (chip_to_mmio_chip e' !! chip); [|done]. destruct Hgw as [Hi Hgw].
  split; [done|]. cbn. by rewrite Hcd.
Qed.
End Refreshed.

(** ** Construction *)

Section Construction.
Context {F TT : Type} `{!SiliconChips F TT} `{UnorderedLaws}.
Context (soc_arch_of_path : string → result SocArchDescriptor).
Implicit Types (c : Cluster TT) (w : World F) (d : ClusterDescriptor).

(** What is asked of a device while the cluster is built works. *)
Record silicon_works : Prop := {
  sw_sysmem dev n w : ∃ k w', open_sysmem (F:=F) (TT:=TT) dev n w = Some (Ok k, w');
  sw_power dev w : ∃ w', set_power_state_busy (F:=F) (TT:=TT) dev w = Some (Ok tt, w');
  sw_ready dev w : ∃ w', wait_device_ready (F:=F) (TT:=TT) dev w = Some (Ok tt, w');
  sw_mutexes dev w : ∃ w', initialize_default_chip_mutexes (F:=F) (TT:=TT) dev w = Some (Ok tt, w');
  sw_communication dev at_ has w : ∃ rc w', create_remote_communication (F:=F) (TT:=TT) dev at_ has w = Some (Ok rc, w');
  sw_set_sysmem rc gateway w : ∃ w', set_sysmem_manager (F:=F) (TT:=TT) rc gateway w = Some (Ok tt, w');
  sw_cores rc cores w : ∃ w', set_transfer_cores (F:=F) (TT:=TT) rc cores w = Some (Ok tt, w')
}.
Context (Hworks : silicon_works).

(** What a descriptor and the devices found with it must be for a cluster on silicon. *)
Record buildable (o : ClusterOptions) d (devices : gmap Z TT) : Prop := {
  bd_silicon : chip_type o = SILICON;
  bd_mmio id : is_chip_mmio_capable d id = true → id ∈ all_chips d;
  bd_cache : cache_ok d;
  bd_reach : all_reachable d;
  bd_soc id : id ∈ all_chips d → is_Ok (construct_soc_descriptor soc_arch_of_path (sdesc_path o) id SILICON d);
  bd_device id : id ∈ all_chips d → is_Some (devices !! id);
  bd_arch id : id ∈ all_chips d → is_Ok (get_arch_of d id);
  bd_ports id dev : devices !! id = Some dev → is_Ok (transfer_cores (device_soc dev) (get_active_eth_channels d id));
  bd_log : io_device_type d ≠ UNDEFINED;
  (** Places are known where broadcasts are made: on Wormhole, with remote chips. *)
  bd_places id dev remote : devices !! id = Some dev → Soc.arch (device_soc dev) = WORMHOLE_B0 →
    remote ∈ all_chips d → is_chip_mmio_capable d remote = false →
    ∀ id', id' ∈ all_chips d → is_Some (chip_locations (placement d) !! id')
}.

(** The chip that a cluster has for an id; a remote one is behind a gateway on its board. *)
Definition built d (devices : gmap Z TT) (cache : gmap Z Z) (id : Z) (chip : Chip TT) : Prop :=
  ∃ dev, devices !! id = Some dev ∧ chip_soc chip = device_soc dev ∧ tt_device chip = Some dev ∧
    if is_chip_mmio_capable d id then chip_class chip = ALocalChip
    else ∃ g, chip_class chip = ARemoteChip g ∧ mmio_on_board d id g ∧ cache !! id = Some g.
Record cluster_of d (devices : gmap Z TT) (seen : list Z) c : Prop := {
  co_desc : cache_extended d (cluster_desc c);
  co_cache : cache_ok (cluster_desc c);
  co_all id : id ∈ all_chip_ids_ c ↔ id ∈ seen;
  co_local id : id ∈ local_chip_ids_ c ↔ id ∈ seen ∧ is_chip_mmio_capable d id = true;
  co_remote id : id ∈ remote_chip_ids_ c ↔ id ∈ seen ∧ is_chip_mmio_capable d id = false;
  co_dom id : is_Some (chips_ c !! id) ↔ id ∈ seen;
  co_chips id chip : chips_ c !! id = Some chip → built d devices (closest_mmio_chip_cache (cluster_desc c)) id chip;
  co_comms id : is_Some (remote_communications_ c !! id) ↔
    id ∈ seen ∧ is_chip_mmio_capable d id = true ∧ get_arch_of d id = Ok WORMHOLE_B0
}.
Lemma built_later d devices cache cache' id chip : cache ⊆ cache' → built d devices cache id chip → built d devices cache' id chip.
Proof using.
  intros Hs (dev & Hd & Hsoc & Htt & Hcl). exists dev. split; [done|]. split; [done|]. split; [done|].
  destruct (is_chip_mmio_capable d id); [done|]. destruct Hcl as (g & ? & ? & ?). exists g. split; [done|]. split; [done|]. by eapply lookup_weaken.
Qed.

Lemma LocalChip_create_ok dev n w : ∃ sys w',
  LocalChip_create (F:=F) (Some dev) n w = Some (Ok (MkChip ALocalChip (device_soc dev) (Some dev) sys set_default_params), w').
Proof using Hworks.
  unfold LocalChip_create. destruct (device_kind dev).
  - destruct (sw_sysmem Hworks dev n w) as (k & w1 & E1). destruct (sw_power Hworks dev w1) as (w2 & E2).
    destruct (sw_ready Hworks dev w2) as (w3 & E3). destruct (sw_mutexes Hworks dev w3) as (w4 & E4).
    exists (Some k), w4. unfold mbind, M_bind. rewrite E1. cbn. by rewrite E2, E3, E4.
  - destruct (sw_power Hworks dev w) as (w2 & E2). destruct (sw_ready Hworks dev w2) as (w3 & E3).
    exists None, w3. unfold mbind, M_bind. cbn. by rewrite E2, E3.
  - destruct (sw_power Hworks dev w) as (w2 & E2). destruct (sw_ready Hworks dev w2) as (w3 & E3).
    exists None, w3. unfold mbind, M_bind. cbn. by rewrite E2, E3.
Qed.

Lemma hbind_device {A B} (m : M F A) (f : A → H F (Cluster TT) B) a c w w' : m w = Some (Ok a, w') → (on_device m ≫= f) c w = f a c w'.
Proof using. intros E. apply hbind_ok. unfold on_device. by rewrite E. Qed.

Lemma modify_ok (f : Cluster TT → Cluster TT) c w : modify_cluster (F:=F) f c w = Some (Ok tt, f c, w).
Proof using. done. Qed.

(** A local chip, with the object that broadcasts are sent over. *)
Lemma construct_local_ok id n dev arch c w :
  get_arch_of (cluster_desc c) id = Ok arch → is_Ok (transfer_cores (device_soc dev) (get_active_eth_channels (cluster_desc c) id)) →
  ∃ sys rc w', construct_local_chip (F:=F) id n (Some dev) c w =
    Some (Ok (MkChip ALocalChip (device_soc dev) (Some dev) sys set_default_params),
          (if decide (arch = WORMHOLE_B0) then set_communications (<[id := rc]> (remote_communications_ c)) c else c), w').
Proof using Hworks.
  intros Ha (cores & Hcores). destruct (LocalChip_create_ok dev n w) as (sys & w1 & E1). unfold construct_local_chip.
  rewrite (hbind_device _ _ _ _ _ _ E1), (hbind_ok _ _ c w1 _ _ _ eq_refl), Ha, (hbind_ok _ _ c w1 _ _ _ eq_refl).
  destruct (decide (arch = WORMHOLE_B0)); [|exists sys, 0, w1; done].
  set (chip := MkChip _ _ _ _ _). destruct (sw_communication Hworks dev (MkEthCoord 0 0 0 0 0) (has_host_channels chip) w1) as (rc & w2 & E2).
  destruct (sw_cores Hworks rc cores w2) as (w3 & E3). exists sys, rc, w3.
  unfold mbind, H_bind. cbn. unfold on_device at 1. rewrite E2. cbn. rewrite Hcores. cbn.
  rewrite modify_ok. unfold on_device. by rewrite E3.
Qed.

(** A remote chip, with the gateway that is there. *)
Lemma construct_remote_ok id dev gateway c w g d' :
  cache_ok (cluster_desc c) → is_chip_mmio_capable (cluster_desc c) id = false →
  get_closest_mmio_capable_chip id (cluster_desc c) = Ok (g, d') → g ∈ local_chip_ids_ c →
  chips_ c !! g = Some gateway → chip_class gateway = ALocalChip →
  ∃ w', construct_remote_chip (F:=F) id (Some dev) c w =
    Some (Ok (MkChip (ARemoteChip g) (device_soc dev) (Some dev) None set_default_params), set_desc d' c, w').
Proof using Hworks H1.
  intros Hc Hm Hg Hl Hch Hcl. pose proof (closest_spec c w id Hc) as Hs. rewrite Hg in Hs. destruct Hs as (Hclo & _).
  unfold construct_remote_chip. rewrite (hbind_ok _ _ c w _ _ _ Hclo). set (c1 := set_desc d' c).
  assert (get_local_chip (F:=F) g c1 w = Some (Ok (Some gateway), c1, w)) as El.
  { unfold get_local_chip. rewrite (hbind_ok _ _ c1 w _ _ _ eq_refl). rewrite bool_decide_eq_true_2 by done.
    rewrite (hbind_ok _ _ c1 w _ _ _ eq_refl), (hbind_ok _ _ c1 w _ _ _ (get_chip_ok c1 g gateway w Hch)). by rewrite Hcl. }
  rewrite (hbind_ok _ _ c1 w _ _ _ El). cbn [mbind option_bind].
  destruct (get_remote_communication dev) as [rc|].
  - destruct (sw_set_sysmem Hworks rc (if has_host_channels gateway then Some g else None) w) as (w1 & E1).
    destruct (sw_ready Hworks dev w1) as (w2 & E2). exists w2.
    unfold mbind, H_bind, M_bind, on_device. cbn. rewrite E1. cbn. unfold mbind, M_bind. by rewrite E2.
  - destruct (sw_ready Hworks dev w) as (w2 & E2). exists w2. unfold mbind, H_bind, M_bind, on_device. cbn. unfold mbind, M_bind. by rewrite E2.
Qed.

(** *** The loop *)

Lemma extended_mmio d d' id : cache_extended d d' → is_chip_mmio_capable d' id = is_chip_mmio_capable d id.
Proof using. intros [E _]. by rewrite E. Qed.
Lemma extended_board d d' id g : cache_extended d d' → mmio_on_board d' id g ↔ mmio_on_board d id g.
Proof using. intros [E _]. by rewrite E. Qed.
Lemma extended_arch d d' id : cache_extended d d' → get_arch_of d' id = get_arch_of d id.
Proof using. intros [E _]. by rewrite E. Qed.
Lemma extended_channels d d' id : cache_extended d d' → get_active_eth_channels d' id = get_active_eth_channels d id.
Proof using. intros [E _]. by rewrite E. Qed.
Lemma extended_soc path id type d d' : cache_extended d d' →
  construct_soc_descriptor soc_arch_of_path path id type d' = construct_soc_descriptor soc_arch_of_path path id type d.
Proof using. intros [E _]. by rewrite E. Qed.

(** [add_chip] of a chip that is not there yet. *)
Definition with_chip (id : Z) (chip : Chip TT) c : Cluster TT :=
  let is_local := is_chip_mmio_capable (cluster_desc c) id in
  MkCluster ({[id]} ∪ all_chip_ids_ c) (if is_local then remote_chip_ids_ c else {[id]} ∪ remote_chip_ids_ c)
    (if is_local then {[id]} ∪ local_chip_ids_ c else local_chip_ids_ c) (<[id := chip]> (chips_ c)) (remote_communications_ c)
    (ethernet_broadcast_ c) (arch_name c) (cluster_desc c) (options_ c) (use_translated_coords_for_eth_broadcast c) (eth_fw_version_ c).
Lemma add_chip_ok id chip c w : chips_ c !! id = None → add_chip (F:=F) id SILICON chip c w = Some (Ok tt, with_chip id chip c, w).
Proof using.
  intros Hn. unfold add_chip. rewrite (hbind_ok _ _ c w _ _ _ eq_refl). rewrite (bool_decide_eq_true_2 _ Hn).
  unfold mbind, H_bind. cbn. reflexivity.
Qed.

(** One more chip. *)
Lemma cluster_of_more d devices seen id chip c c1 :
  cluster_of d devices seen c → id ∉ seen → cache_extended (cluster_desc c) (cluster_desc c1) → cache_ok (cluster_desc c1) →
  all_chip_ids_ c1 = all_chip_ids_ c → local_chip_ids_ c1 = local_chip_ids_ c → remote_chip_ids_ c1 = remote_chip_ids_ c → chips_ c1 = chips_ c →
  (∀ x, is_Some (remote_communications_ c1 !! x) ↔
    is_Some (remote_communications_ c !! x) ∨ (x = id ∧ is_chip_mmio_capable d id = true ∧ get_arch_of d id = Ok WORMHOLE_B0)) →
  built d devices (closest_mmio_chip_cache (cluster_desc c1)) id chip →
  cluster_of d devices (seen ++ [id]) (with_chip id chip c1).
Proof using.
  intros [Hd Hca Hal Hlo Hre Hdo Hch Hco] Hid He Hc1 Ea El Er Ec Ecomm Hb.
  pose proof (cache_extended_trans _ _ _ Hd He) as Hd1.
  assert (∀ x, x ∈ seen ++ [id] ↔ x ∈ seen ∨ x = id) as Hin by (intros x; by rewrite elem_of_app, list_elem_of_singleton).
  split; cbn; rewrite ?(extended_mmio d _ id Hd1), ?Ea, ?El, ?Er, ?Ec; [done|done| | | | | |]; intros x; rewrite ?Hin.
  - rewrite elem_of_union, elem_of_singleton, Hal. tauto.
  - destruct (is_chip_mmio_capable d id) eqn:Hm; rewrite ?elem_of_union, ?elem_of_singleton, Hlo; [|intuition congruence].
    split; [intros [->|[? ?]]; auto|]. intros [[?| ->] ?]; auto.
  - destruct (is_chip_mmio_capable d id) eqn:Hm; rewrite ?elem_of_union, ?elem_of_singleton, Hre; [intuition congruence|].
    split; [intros [->|[? ?]]; auto|]. intros [[?| ->] ?]; auto.
  - rewrite lookup_insert. case_decide as Hx; [subst; split; [auto|by eexists]|]. rewrite Hdo. split; [auto|]. intros [?|?]; [done|by destruct Hx].
  - intros chip'. rewrite lookup_insert. case_decide as Hx; [intros [= <-]; by subst|]. intros Hl.
    eapply built_later; [apply He|]. by apply Hch.
  - rewrite Ecomm, Hco. split; [intros [(? & ? & ?)|(-> & ? & ?)]; auto|]. intros ([?| ->] & ? & ?); auto.
Qed.

Lemma construct_chip_step o n d devices seen id soc c w :
  buildable o d devices → cluster_of d devices seen c → id ∈ all_chips d → id ∉ seen →
  (is_chip_mmio_capable d id = false → ∀ g, is_chip_mmio_capable d g = true → g ∈ seen) →
  ∃ chip c1 w1, construct_chip_from_cluster (F:=F) id SILICON soc n (devices !! id) c w = Some (Ok chip, c1, w1) ∧
    chips_ c1 = chips_ c ∧ ethernet_broadcast_ c1 = ethernet_broadcast_ c ∧ cluster_of d devices (seen ++ [id]) (with_chip id chip c1).
Proof using Hworks H1.
  intros Hbd Hco Hid Hnew Hlocals. pose proof (co_desc _ _ _ _ Hco) as Hd. pose proof (co_cache _ _ _ _ Hco) as Hca.
  destruct (bd_device _ _ _ Hbd id Hid) as (dev & Hdev). destruct (bd_arch _ _ _ Hbd id Hid) as (arch & Harch).
  unfold construct_chip_from_cluster. rewrite (hbind_ok _ _ c w _ _ _ eq_refl), (extended_mmio d _ id Hd), Hdev.
  destruct (is_chip_mmio_capable d id) eqn:Hm.
  - destruct (construct_local_ok id n dev arch c w) as (sys & rc & w1 & E1).
    { by rewrite (extended_arch d). }
    { rewrite (extended_channels d) by done. by apply (bd_ports _ _ _ Hbd). }
    eexists _, _, w1. split; [exact E1|]. split; [by destruct (decide _)|]. split; [by destruct (decide _)|].
    apply (cluster_of_more d devices seen id _ c); try (by destruct (decide (arch = WORMHOLE_B0))); try done.
    + destruct (decide (arch = WORMHOLE_B0)); apply cache_extended_refl.
    + intros x. destruct (decide (arch = WORMHOLE_B0)) as [->|Ha]; cbn.
      * rewrite lookup_insert. case_decide as Hx; [subst; split; [by right|by eexists]|]. split; [by left|]. intros [?|[-> _]]; [done|by destruct Hx].
      * split; [by left|]. intros [?|(_ & _ & Hw)]; [done|]. rewrite Harch in Hw. by injection Hw as ->.
    + exists dev. split; [done|]. split; [done|]. split; [done|]. by rewrite Hm.
  - destruct (bd_reach _ _ _ Hbd id Hid Hm) as (m & Hmb). pose proof (closest_spec c w id Hca) as Hs.
    destruct (get_closest_mmio_capable_chip id (cluster_desc c)) as [[g d']|e] eqn:Hg.
    2:{ destruct Hs as (_ & _ & Hn). destruct Hn. exists m. by apply (extended_board d). }
    destruct Hs as (_ & Hc' & He & Hcase). rewrite (extended_mmio d _ id Hd), Hm in Hcase. destruct Hcase as [Hgb Hcache].
    apply (extended_board d) in Hgb; [|done]. pose proof (Hlocals eq_refl g (proj1 Hgb)) as Hgs.
    destruct (proj2 (co_dom _ _ _ _ Hco g) Hgs) as (gateway & Hgw). destruct (co_chips _ _ _ _ Hco g gateway Hgw) as (gdev & _ & _ & _ & Hcl).
    rewrite (proj1 Hgb) in Hcl.
    destruct (construct_remote_ok id dev gateway c w g d') as (w1 & E1); [done|by rewrite (extended_mmio d)|done| |done|done|].
    { apply (co_local _ _ _ _ Hco). split; [done|apply Hgb]. }
    eexists _, _, w1. split; [exact E1|]. split; [done|]. split; [done|].
    apply (cluster_of_more d devices seen id _ c); try done.
    + intros x. cbn. split; [by left|]. intros [?|(_ & Hx & _)]; [done|congruence].
    + exists dev. split; [done|]. split; [done|]. split; [done|]. rewrite Hm. by exists g.
Qed.

Definition local_first d (seen l : list Z) : Prop := ∀ l1 id l2, l = l1 ++ id :: l2 → is_chip_mmio_capable d id = false →
  ∀ g, is_chip_mmio_capable d g = true → g ∈ seen ∨ g ∈ l1.
Lemma construct_chips_ok o n d devices : buildable o d devices → ∀ l devs seen c w,
  cluster_of d devices seen c → ethernet_broadcast_ c = None → NoDup l → (∀ id, id ∈ l → id ∈ all_chips d ∧ id ∉ seen ∧ devs !! id = devices !! id) →
  local_first d seen l →
  ∃ c' w', construct_chips (F:=F) soc_arch_of_path o n devs l c w = Some (Ok tt, c', w') ∧ cluster_of d devices (seen ++ l) c' ∧
    ethernet_broadcast_ c' = None.
Proof using Hworks H1.
  intros Hbd l. induction l as [|id l IH]; intros devs seen c w Hco Hbr Hnd Hl Hlf.
  { exists c, w. by rewrite app_nil_r. }
  apply NoDup_cons in Hnd as [Hidl Hnd]. destruct (Hl id ltac:(left)) as (Hid & Hnew & Hdev). cbn [construct_chips].
  rewrite (hbind_ok _ _ c w _ _ _ eq_refl). rewrite (bd_silicon _ _ _ Hbd).
  destruct (bd_soc _ _ _ Hbd id Hid) as (soc & Hsoc). rewrite (extended_soc _ _ _ _ _ (co_desc _ _ _ _ Hco)), Hsoc.
  rewrite (hbind_ok _ _ c w _ _ _ eq_refl), Hdev.
  destruct (construct_chip_step o n d devices seen id soc c w Hbd Hco Hid Hnew) as (chip & c1 & w1 & E1 & Hchips & Hb1 & Hco1).
  { intros Hm g Hg. destruct (Hlf [] id l eq_refl Hm g Hg) as [?|?%elem_of_nil]; done. }
  assert (chips_ c1 !! id = None) as Hnone by (rewrite Hchips; apply eq_None_not_Some; by rewrite (co_dom _ _ _ _ Hco)).
  rewrite (hbind_ok _ _ c w _ _ _ E1), (hbind_ok _ _ c1 w1 _ _ _ (add_chip_ok id chip c1 w1 Hnone)).
  destruct (IH (delete id devs) (seen ++ [id]) (with_chip id chip c1) w1 Hco1) as (c' & w' & E & Hc' & Hb').
  - cbn. by rewrite Hb1.
  - done.
  - intros x Hx. destruct (Hl x ltac:(by right)) as (Hxa & Hxs & Hxd). split; [done|]. rewrite elem_of_app, list_elem_of_singleton.
    assert (x ≠ id) by (by intros ->). split; [tauto|]. by rewrite lookup_delete_ne.
  - intros l1 x l2 -> Hx g Hg. destruct (Hlf (id :: l1) x l2 eq_refl Hx g Hg) as [?|[->|?]%elem_of_cons]; rewrite elem_of_app, list_elem_of_singleton; tauto.
  - exists c', w'. split; [exact E|]. by rewrite <- app_assoc in Hc'.
Qed.

Lemma local_first_order d ids : get_chips_local_first d (all_chips d) = Ok ids →
  (∀ id, is_chip_mmio_capable d id = true → id ∈ all_chips d) → NoDup ids ∧ (∀ id, id ∈ ids ↔ id ∈ all_chips d) ∧ local_first d [] ids.
Proof using H1.
  unfold get_chips_local_first. destruct (forallb _ _); [|discriminate]. intros [= <-] Hmm.
  assert (∀ id, id ∈ filter (λ chip, Is_true (is_chip_mmio_capable d chip)) (set_iter (all_chips d)) ↔ is_chip_mmio_capable d id = true) as Hloc.
  { intros id. rewrite list_elem_of_filter, elem_of_set_iter, Is_true_true. split; [by intros [? _]|auto]. }
  assert (∀ id, id ∈ filter (λ chip, Is_true (is_chip_remote d chip)) (set_iter (all_chips d)) ↔
    is_chip_mmio_capable d id = false ∧ id ∈ all_chips d) as Hrem.
  { intros id. rewrite list_elem_of_filter, elem_of_set_iter, Is_true_true. unfold is_chip_remote. by rewrite negb_true_iff. }
  split_and!.
  - apply NoDup_app. split_and!; try apply NoDup_filter, NoDup_set_iter. intros id Hl [Hr _]%Hrem. apply Hloc in Hl. congruence.
  - intros id. rewrite elem_of_app, Hloc, Hrem. specialize (Hmm id). destruct (is_chip_mmio_capable d id); intuition congruence.
  - intros l1 id l2 Heq Hid g Hg. right. apply Hloc in Hg. apply app_eq_inv in Heq as [(k & E & E2)|(k & -> & _)].
    + destruct k as [|y k]; [by rewrite app_nil_r in E; rewrite E in Hg|]. cbn in E2. injection E2 as <- _.
     assert (id ∈ filter (λ chip, Is_true (is_chip_mmio_capable d chip)) (set_iter (all_chips d))) as Hy.
      { rewrite E. apply elem_of_app. right. left. }
      apply Hloc in Hy. congruence.
    + apply elem_of_app. by left.
Qed.

Lemma cluster_of_ext d devices seen c c' :
  cluster_of d devices seen c → cache_extended (cluster_desc c) (cluster_desc c') → cache_ok (cluster_desc c') →
  all_chip_ids_ c' = all_chip_ids_ c → local_chip_ids_ c' = local_chip_ids_ c → remote_chip_ids_ c' = remote_chip_ids_ c → chips_ c' = chips_ c →
  remote_communications_ c' = remote_communications_ c → cluster_of d devices seen c'.
Proof using.
  intros [Hd Hca Hal Hlo Hre Hdo Hch Hco] He Hc' Ea El Er Ec Em. split; rewrite ?Ea, ?El, ?Er, ?Ec, ?Em; try done.
  - exact (cache_extended_trans _ _ _ Hd He).
  - intros id chip Hid. eapply built_later; [apply He|by apply Hch].
Qed.
Lemma cluster_of_grown d devices seen c c' : cluster_of d devices seen c → grown c c' → cache_ok (cluster_desc c') → cluster_of d devices seen c'.
Proof using. intros Hco [He E] Hc'. apply (cluster_of_ext d devices seen c); [done|done|done|by rewrite E..]. Qed.

(** The gateways of the broadcasts are found when every chip has a place and a way to it. *)
Lemma broadcast_gateways_ok first_mmio_chip chips : ∀ m c w, cache_ok (cluster_desc c) →
  (∀ id, id ∈ chips → is_Some (chip_locations (placement (cluster_desc c)) !! id) ∧
    (is_chip_mmio_capable (cluster_desc c) id = false → ∃ g, mmio_on_board (cluster_desc c) id g)) →
  ∃ m' c' w', broadcast_gateways (F:=F) (TT:=TT) first_mmio_chip chips m c w = Some (Ok m', c', w').
Proof using SiliconChips0 H1.
  induction chips as [|id chips IH]; intros m c w Hc Hall; [by exists m, c, w|]. cbn [broadcast_gateways].
  destruct (Hall id ltac:(left)) as [(at_ & Hat) Hreach]. pose proof (broadcast_gateway_spec first_mmio_chip id c w Hc) as Hspec.
  assert (∃ g c1, broadcast_gateway (F:=F) first_mmio_chip id c w = Some (Ok g, c1, w)) as (g & c1 & E).
  { unfold broadcast_gateway. rewrite (hbind_ok _ _ c w _ _ _ eq_refl). unfold map_at. rewrite Hat. rewrite (hbind_ok _ _ c w _ _ _ eq_refl).
    destruct (_ && _); [|by exists first_mmio_chip, c]. pose proof (closest_spec c w id Hc) as Hs.
    destruct (get_closest_mmio_capable_chip id (cluster_desc c)) as [[g d']|e]; destruct Hs as [-> Hs]; [by exists g, (set_desc d' c)|].
    destruct Hs as [Hm Hn]. by destruct Hn; apply Hreach. }
  rewrite E in Hspec. destruct Hspec as (Hg & Hc1 & _). rewrite (hbind_ok _ _ c w _ _ _ E). apply IH; [done|].
  intros x Hx. destruct Hg as [[Ed _] _]. rewrite Ed. by apply (Hall x); right.
Qed.

(** The end of the constructor. *)
Definition broadcast_wanted (n : Z) c : Prop := arch_name c = WORMHOLE_B0 ∧ remote_chip_ids_ c ≠ ∅ ∧ 0 < n.
Lemma for_H_nothing {X} (l : list X) (f : X → H F (Cluster TT) unit) c w : (∀ x, x ∈ l → f x c w = Some (Ok tt, c, w)) → for_H l f c w = Some (Ok tt, c, w).
Proof using.
  induction l as [|x l IH]; intros Hf; [done|]. cbn [for_H]. rewrite (hbind_ok _ _ c w _ _ _ (Hf x ltac:(left))). apply IH. intros y Hy. apply Hf. by right.
Qed.

(** What the whole cluster is said to be, and the broadcast it has. *)
Record summarised d (n : Z) c : Prop := {
  sm_arch : chips_ c ≠ ∅ → ∃ id chip, chips_ c !! id = Some chip ∧ arch_name c = Soc.arch (chip_soc chip);
  sm_translated : use_translated_coords_for_eth_broadcast c = true ↔
    ∀ id chip, chips_ c !! id = Some chip → Soc.noc_translation (chip_soc chip) = true;
  sm_firmware : eth_fw_version_ c = ClusterState.eth_fw_version d;
  sm_broadcast : match ethernet_broadcast_ c with
                 | Some e => broadcast_wanted n c ∧ broadcast_for c e
                 | None => ¬ broadcast_wanted n c
                 end
}.

Lemma use_broadcast_wanted n c : use_ethernet_broadcast c n SILICON = true ↔ broadcast_wanted n c.
Proof using.
  unfold use_ethernet_broadcast, broadcast_wanted. rewrite !andb_true_iff, negb_true_iff, !bool_decide_eq_true, bool_decide_eq_false, Z.ltb_lt. tauto.
Qed.

Lemma cluster_socs d devices seen c : cluster_of d devices seen c →
  ∃ socs, for_each (ascending (all_chip_ids_ c)) (λ chip_id socs,
      match chips_ c !! chip_id with
      | Some chip => Ok (socs ++ [chip_soc chip])
      | None => throw "Device id not found in cluster."
      end) [] = Ok socs ∧ ∀ soc, soc ∈ socs ↔ ∃ id chip, chips_ c !! id = Some chip ∧ chip_soc chip = soc.
Proof using.
  intros Hco. destruct (for_each_inv (λ (seen : list Z) (socs : list Soc.SocDescriptor), ∀ soc, soc ∈ socs ↔ ∃ id chip, id ∈ seen ∧ chips_ c !! id = Some chip ∧ chip_soc chip = soc)
    (ascending (all_chip_ids_ c)) (λ chip_id socs, match chips_ c !! chip_id with
      | Some chip => Ok (socs ++ [chip_soc chip]) | None => throw "Device id not found in cluster." end) []) as (socs & E & Hs).
  - intros soc. split; [by intros ?%elem_of_nil|by intros (? & ? & ?%elem_of_nil & _)].
  - intros old id rest socs Hl IH. assert (id ∈ all_chip_ids_ c) as Hid.
    { apply elem_of_ascending. rewrite Hl. apply elem_of_app. right. left. }
    apply (co_all _ _ _ _ Hco), (co_dom _ _ _ _ Hco) in Hid as (chip & Hchip). rewrite Hchip. eexists. split; [done|]. intros soc.
    rewrite elem_of_app, IH, list_elem_of_singleton. setoid_rewrite elem_of_app. setoid_rewrite list_elem_of_singleton. split.
    + intros [(x & k & ? & ? & ?)| ->]; [exists x, k; auto|exists id, chip; auto].
    + intros (x & k & [?| ->] & Hk & <-); [left; by exists x, k|]. rewrite Hchip in Hk. injection Hk as <-. by right.
  - exists socs. split; [exact E|]. intros soc. rewrite Hs. split.
    + intros (id & chip & _ & ? & ?). by exists id, chip.
    + intros (id & chip & Hid & Hsoc). exists id, chip. split; [|done]. apply elem_of_ascending, (co_all _ _ _ _ Hco), (co_dom _ _ _ _ Hco). by exists chip.
Qed.

Lemma cluster_first d devices seen c o : buildable o d devices → cluster_of d devices seen c → (∀ id, id ∈ seen ↔ id ∈ all_chips d) →
  remote_chip_ids_ c ≠ ∅ → ∃ first, ∀ w, first_local_chip (F:=F) c w = Some (Ok first, c, w).
Proof using.
  intros Hbd Hco Hseen Hne. apply set_choose_L in Hne as (id & Hid). apply (co_remote _ _ _ _ Hco) in Hid as [Hs Hm].
  destruct (bd_reach _ _ _ Hbd id (proj1 (Hseen id) Hs) Hm) as (g & Hg & _).
  assert (g ∈ ascending (local_chip_ids_ c)) as Hin.
  { apply elem_of_ascending, (co_local _ _ _ _ Hco). split; [|done]. by apply Hseen, (bd_mmio _ _ _ Hbd). }
  unfold first_local_chip. destruct (ascending (local_chip_ids_ c)) as [|first rest] eqn:El; [by apply elem_of_nil in Hin|].
  exists first. intros w. rewrite (hbind_ok _ _ c w _ _ _ eq_refl). by rewrite El.
Qed.

Lemma construct_cluster_ok o n d devices seen c w :
  buildable o d devices → cluster_of d devices seen c → (∀ id, id ∈ seen ↔ id ∈ all_chips d) → ethernet_broadcast_ c = None →
  ∃ c' w', construct_cluster (F:=F) n SILICON c w = Some (Ok tt, c', w') ∧ cluster_of d devices seen c' ∧ summarised d n c'.
Proof using Hworks H1.
  intros Hbd Hco Hseen Hnone. pose proof (co_desc _ _ _ _ Hco) as Hd. unfold construct_cluster. rewrite (hbind_ok _ _ c w _ _ _ eq_refl).
  rewrite decide_True by done. set (arch := match map_iter (chips_ c) with [] => _ | _ => _ end).
  assert (for_H (F:=F) (ascending (local_chip_ids_ c)) (λ chip_id, _ ← hlift (map_at chip_id (chips_with_mmio (cluster_desc c))); mret tt) c w = Some (Ok tt, c, w)) as Elog.
  { apply for_H_nothing. intros id Hid%elem_of_ascending%(co_local _ _ _ _ Hco). destruct Hid as [_ Hm].
    rewrite <- (extended_mmio d _ id Hd) in Hm. unfold is_chip_mmio_capable in Hm. apply bool_decide_eq_true in Hm as (v & Hv).
    unfold map_at. by rewrite Hv. }
  assert ((for_H (F:=F) (ascending (local_chip_ids_ c)) (λ chip_id, _ ← hlift (map_at chip_id (chips_with_mmio (cluster_desc c))); mret tt);;
     log_device_summary) c w = Some (Ok tt, c, w)) as Elog2.
  { rewrite (hbind_ok _ _ c w _ _ _ Elog). unfold log_device_summary. rewrite (hbind_ok _ _ c w _ _ _ eq_refl).
    pose proof (bd_log _ _ _ Hbd) as Hlog. destruct Hd as [Hd _]. rewrite Hd. cbn. by destruct (io_device_type d). }
  rewrite (hbind_ok _ _ c w _ _ _ Elog2). destruct (cluster_socs d devices seen c Hco) as (socs & Es & Hsocs).
  rewrite (hbind_ok _ _ c w socs c w); [|by rewrite Es]. rewrite (hbind_ok _ _ c w _ _ _ (modify_ok _ c w)). set (c1 := set_summary _ _ _ c).
  assert (cluster_of d devices seen c1) as Hco1 by (apply (cluster_of_ext d devices seen c); try done; [apply cache_extended_refl|apply (co_cache _ _ _ _ Hco)]).
  assert (chips_ c1 ≠ ∅ → ∃ id chip, chips_ c1 !! id = Some chip ∧ arch_name c1 = Soc.arch (chip_soc chip)) as Harch.
  { intros Hne. change (chips_ c ≠ ∅) in Hne. unfold c1, arch. cbn. destruct (map_iter (chips_ c)) as [|[id chip] rest] eqn:Em.
    - destruct Hne. apply map_empty. intros id. destruct (chips_ c !! id) as [chip|] eqn:Hid; [|done].
      apply elem_of_map_iter in Hid. rewrite Em in Hid. by apply elem_of_nil in Hid.
    - exists id, chip. split; [|done]. apply elem_of_map_iter. rewrite Em. left. }
  assert (use_translated_coords_for_eth_broadcast c1 = true ↔ ∀ id chip, chips_ c1 !! id = Some chip → Soc.noc_translation (chip_soc chip) = true) as Htr.
  { unfold c1. cbn. rewrite List.forallb_forall. setoid_rewrite <- list_elem_of_In. setoid_rewrite Hsocs. naive_solver. }
  assert (eth_fw_version_ c1 = ClusterState.eth_fw_version d) as Hfw by (unfold c1; cbn; destruct Hd as [-> _]; done).
  rewrite (hbind_ok _ _ c1 w _ _ _ eq_refl). destruct (use_ethernet_broadcast c1 n SILICON) eqn:Hu.
  2:{ exists c1, w. split; [done|]. split; [done|]. split; try done. change (ethernet_broadcast_ c1) with (ethernet_broadcast_ c). rewrite Hnone.
      rewrite <- use_broadcast_wanted. by rewrite Hu. }
  apply use_broadcast_wanted in Hu. destruct (cluster_first d devices seen c1 o Hbd Hco1 Hseen (proj1 (proj2 Hu))) as (first & Hfirst).
  assert (∀ id, id ∈ all_chips d → is_Some (chip_locations (placement d) !! id)) as Hplaces.
  { destruct Hu as (Hwh & (remote & Hremote)%set_choose_L & _). apply (co_remote _ _ _ _ Hco1) in Hremote as [Hrs Hrm].
    destruct (proj2 (co_dom _ _ _ _ Hco1 remote) Hrs) as (chip & Hchip).
    destruct Harch as (id & chip' & Hid & Ha); [intros E; by rewrite E, lookup_empty in Hchip|].
    destruct (co_chips _ _ _ _ Hco1 id chip' Hid) as (dev & Hdev & Hsoc & _). rewrite Hwh, Hsoc in Ha.
    intros id' Hid'. eapply (bd_places _ _ _ Hbd id dev remote); [done|done|by apply Hseen|done|done]. }
  pose proof (gateways_for_all c1 w (co_cache _ _ _ _ Hco1)) as Hg.
  destruct (broadcast_gateways_ok first (ascending (all_chip_ids_ c1)) ∅ c1 w (co_cache _ _ _ _ Hco1)) as (m & c2 & w2 & E2).
  { intros id Hid%elem_of_ascending%(co_all _ _ _ _ Hco1)%Hseen. destruct (co_desc _ _ _ _ Hco1) as [Hd1 _]. rewrite Hd1.
    split; [|apply (bd_reach _ _ _ Hbd id Hid)]. by apply Hplaces. }
  specialize (Hfirst w). rewrite (hbind_ok _ _ c1 w _ _ _ Hfirst), E2 in Hg. destruct Hg as (Hg & Hc2 & Hb).
  rewrite (hbind_ok _ _ c1 w _ _ _ Hfirst), (hbind_ok _ _ c1 w _ _ _ E2), modify_ok. eexists _, w2. split; [done|].
  pose proof (cluster_of_grown d devices seen c1 c2 Hco1 Hg Hc2) as Hco2. split.
  { apply (cluster_of_ext d devices seen c2); try done. apply cache_extended_refl. }
  destruct Hg as [[Hcd _] Hg].
  split; cbn; [by rewrite Hg|by rewrite Hg|by rewrite Hg|]. split; [by rewrite Hg; apply Hu|].
  destruct (Hb (new_broadcast (chip_locations (placement (cluster_desc c2))) m (remote_communications_ c2))) as (Hl & Hm & first' & Hf' & Hgw);
    [by rewrite Hcd|by rewrite Hg|done|].
  split; [done|]. split; [done|]. exists first'. split; [cbn; by rewrite Hg|]. intros id. specialize (Hgw id). cbn in Hgw |- *.
  destruct (m !! id); [|by rewrite Hg]. destruct Hgw as [Hin Hgw]. split; [by rewrite Hg|by rewrite Hcd].
Qed.

Lemma cluster_of_seen d devices seen seen' c : (∀ id, id ∈ seen ↔ id ∈ seen') → cluster_of d devices seen c → cluster_of d devices seen' c.
Proof using. intros Hs [Hd Hca Hal Hlo Hre Hdo Hch Hco]. split; try done; intros id; rewrite <- Hs; auto. Qed.
Lemma cluster_of_new o d devices : cache_ok d → cluster_of d devices [] (new_cluster o d).
Proof using.
  intros Hc. split; cbn; [apply cache_extended_refl|done| | | | | |]; intros id; rewrite ?elem_of_empty, ?elem_of_nil, ?lookup_empty; try tauto.
  - split; [by intros (? & ?)|done].
  - done.
  - split; [by intros (? & ?)|tauto].
Qed.
Lemma order_exists d : ∃ ids, get_chips_local_first d (all_chips d) = Ok ids.
Proof using H1.
  unfold get_chips_local_first. replace (forallb _ _) with true; [by eexists|]. symmetry. apply List.forallb_forall.
  intros id Hid%list_elem_of_In%elem_of_set_iter. by apply bool_decide_eq_true.
Qed.

Context (discover : Topology.TopologyDiscoveryOptions → IODeviceType → string → M F (ClusterDescriptor * gmap Z TT)) (visible_devices : option string).

(** C4: the constructor on silicon builds exactly the cluster that was discovered.
    When every chip of the descriptor has a device, a SoC description and,
    unless it is on the host's bus itself, a chip on its board that is, when, on
    Wormhole with remote chips, the places of the chips are known (clusters of
    Blackholes, and of chips that are all on the bus, need none), and the
    devices answer, construction succeeds: the chips are those of the descriptor,
    each on its own device, split into local and remote ones; every remote chip
    is behind a local gateway on its board that the descriptor remembers; a
    local Wormhole chip, and no other, has an object to communicate over;
    coordinates of broadcasts are translated if all chips translate them;
    and there is an Ethernet broadcast, over the gateways that serve the chips,
    exactly on Wormhole with remote chips and host channels. *)
Theorem Cluster_construct_correct o d devices c0 w w1 :
  cluster_descriptor o = None →
  discover (topology_discovery_options o) (io_type o) (sdesc_path o) w = Some (Ok (d, devices), w1) →
  buildable o d devices →
  ∃ c w', Cluster_construct soc_arch_of_path discover visible_devices o c0 w = Some (Ok tt, c, w') ∧
    cluster_of d devices (elements (all_chips d)) c ∧ summarised d (host_channels o d) c ∧
    num_host_mem_ch_per_mmio_device (options_ c) = Some (host_channels o d).
Proof using Hworks H1.
  intros Hnone Hdisc Hbd. unfold Cluster_construct.
  rewrite (hbind_device (choose_descriptor discover visible_devices o) _ (d, devices) c0 w w1).
  2:{ unfold choose_descriptor. by rewrite (bd_silicon _ _ _ Hbd), Hnone. }
  rewrite (hbind_ok _ _ c0 w1 _ _ _ eq_refl). set (n := host_channels o d). destruct (order_exists d) as (ids & Hids).
  destruct (local_first_order d ids Hids (bd_mmio _ _ _ Hbd)) as (Hnd & Hin & Hlf).
  rewrite Hids, (hbind_ok _ _ (new_cluster o d) w1 _ _ _ eq_refl).
  destruct (construct_chips_ok o n d devices Hbd ids devices [] (new_cluster o d) w1) as (c1 & w2 & E1 & Hco1 & Hb1); try done.
  { apply cluster_of_new, (bd_cache _ _ _ Hbd). }
  { intros id Hid. split; [by apply Hin|]. by split; [apply not_elem_of_nil|]. }
  rewrite (hbind_ok _ _ _ w1 _ _ _ E1), (bd_silicon _ _ _ Hbd).
  destruct (construct_cluster_ok o n d devices ids c1 w2 Hbd Hco1 Hin Hb1) as (c2 & w3 & E2 & Hco2 & Hsum).
  rewrite (hbind_ok _ _ c1 w2 _ _ _ E2), modify_ok. eexists _, w3. split; [done|]. split_and!; [|by destruct Hsum|done].
  apply (cluster_of_seen d devices ids); [intros id; by rewrite elem_of_elements|].
  apply (cluster_of_ext d devices ids c2); try done; [apply cache_extended_refl|apply (co_cache _ _ _ _ Hco2)].
Qed.
End Construction.

(** ** Examples: an N300 whose devices answer *)

(** A device is its description. *)
Definition quiet_chips : SiliconChips unit Soc.SocDescriptor := {|
  device_soc := id; device_kind _ := PCIe_device; get_remote_communication _ := Some 7; set_power_state_busy _ := mret tt;
  wait_device_ready _ := mret tt; initialize_default_chip_mutexes _ := mret tt; open_sysmem _ n := mret n;
  create_remote_communication _ _ _ := mret 3; set_sysmem_manager _ _ := mret tt; set_transfer_cores _ _ := mret tt;
  flush_communication _ := mret tt; send_broadcast _ := mret tt; silicon_write _ _ _ _ := mret tt; silicon_read _ _ _ n := mret (replicate n 0);
  silicon_write_reg _ _ _ _ := mret tt; silicon_read_reg _ _ _ n := mret (replicate n 0); silicon_flush _ := mret tt;
  silicon_risc_state _ _ := mret 0; silicon_assert_core _ _ _ := mret tt; silicon_deassert_core _ _ _ _ := mret tt;
  silicon_assert_all _ _ := mret tt; silicon_deassert_all _ _ _ := mret tt; silicon_deassert_risc_resets _ := mret tt;
  silicon_set_clock_state _ _ := mret tt; silicon_start _ _ := mret tt; silicon_close _ := mret tt; silicon_l1_membar _ _ := mret tt;
  silicon_dram_membar _ _ := mret tt; silicon_dram_channels_membar _ _ _ := mret tt; silicon_clock _ := mret 1000
|}.
Lemma quiet_works : @silicon_works unit Soc.SocDescriptor quiet_chips.
Proof. split; intros; repeat eexists. Qed.
Definition quiet_world : World unit := MkWorld (λ _ _, 0) (λ _, 0) tt.

Definition n300_cluster : ClusterDescriptor :=
  MkDesc {[0; 1]} {[0 := 0]}
    (MkTables {[0 := WORMHOLE_B0; 1 := WORMHOLE_B0]} {[0 := 100; 1 := 101]} true {[0 := true; 1 := true]} ∅ ∅
      {[0 := wormhole_example_masks; 1 := wormhole_example_masks]} ∅)
    (MkPlacement {[0 := MkEthCoord 0 0 0 0 0; 1 := MkEthCoord 0 1 0 0 0]} ∅)
    (MkBoards {[0 := 9; 1 := 9]} {[9 := {[0; 1]}]} {[0 := N300; 1 := N300]}) empty_links ∅ ∅ PCIe None None.
Definition n300_info : ChipInfo := MkChipInfo true wormhole_example_masks N300 0 0.
Definition n300_options : ClusterOptions :=
  MkClusterOptions SILICON (Some 1) EmptyString ∅ None PCIe
    (Topology.MkOptions Topology.IGNORE Topology.IGNORE Topology.IGNORE Topology.IGNORE Topology.IGNORE Topology.IGNORE true true false false false).
Definition no_soc_file (path : string) : result SocArchDescriptor := throw "no such file".

Lemma n300_soc : ∃ desc soc, SocArchDescriptor_of_arch WORMHOLE_B0 = Ok desc ∧ Soc.SocDescriptor_new (Some desc) n300_info = Ok soc ∧
  soc_ok WORMHOLE_B0 (standard_layout WORMHOLE_B0) wormhole_example_masks true soc.
Proof.
  assert (∃ desc, SocArchDescriptor_of_arch WORMHOLE_B0 = Ok desc) as [desc Hd] by (eexists; reflexivity).
  destruct (arch_descriptor_layout _ _ Hd) as [Ha HL]. destruct (soc_new_ok desc n300_info) as (soc & Hnew & _ & _ & Hok).
  { rewrite Ha, HL. apply supported_wormhole. }
  { by split. }
  exists desc, soc. split; [done|]. split; [done|]. by rewrite Ha, HL in Hok.
Qed.
Lemma n300_chips id : id ∈ all_chips n300_cluster → id = 0 ∨ id = 1.
Proof. cbn. rewrite elem_of_union, !elem_of_singleton. done. Qed.
Lemma n300_buildable desc soc :
  SocArchDescriptor_of_arch WORMHOLE_B0 = Ok desc → Soc.SocDescriptor_new (Some desc) n300_info = Ok soc →
  @buildable unit Soc.SocDescriptor quiet_chips no_soc_file n300_options n300_cluster {[0 := soc; 1 := soc]}.
Proof.
  intros Hd Hs. split.
  - done.
  - intros id Hm. unfold is_chip_mmio_capable in Hm. apply bool_decide_eq_true in Hm as (v & Hv).
    change (({[0 := 0]} : gmap Z Z) !! id = Some v) in Hv. apply lookup_singleton_Some in Hv as [<- _]. cbn. set_solver.
  - by apply cache_ok_empty.
  - intros id [->| ->]%n300_chips Hm; [by vm_compute in Hm|]. exists 0. split; [by vm_compute|]. exists 9.
    split; [by vm_compute|apply (bool_decide_unpack _); by vm_compute].
  - intros id Hid. exists soc. assert (chip_info_of n300_cluster id = Ok n300_info ∧ get_arch_of n300_cluster id = Ok WORMHOLE_B0) as [Hi Ha].
    { destruct (n300_chips id Hid) as [->| ->]; split; by vm_compute. }
    unfold construct_soc_descriptor. rewrite (bool_decide_eq_true_2 _ Hid).
    rewrite andb_false_r. cbn [negb umd_assert mbind result_bind]. rewrite Hi, Ha. cbn [mbind result_bind].
    rewrite decide_True by done. rewrite Hd. exact Hs.
  - intros id [->| ->]%n300_chips; by exists soc.
  - intros id [->| ->]%n300_chips; by eexists.
  - intros id dev _. exists ∅. change (get_active_eth_channels n300_cluster id) with (set_at id (∅ : gmap Z (gset Z))). unfold set_at. by rewrite lookup_empty.
  - done.
  - intros _ _ _ _ _ _ _ id [->| ->]%n300_chips; by eexists.
Qed.

Lemma Cluster_construct_correct_witness : ∃ soc c w',
  @Cluster_construct unit Soc.SocDescriptor quiet_chips sorted_order no_soc_file
    (λ _ _ _, mret (n300_cluster, {[0 := soc; 1 := soc]})) None n300_options (new_cluster n300_options empty_descriptor) quiet_world
  = Some (Ok tt, c, w') ∧ @cluster_of unit Soc.SocDescriptor quiet_chips n300_cluster {[0 := soc; 1 := soc]} (elements (all_chips n300_cluster)) c.
Proof.
  destruct n300_soc as (desc & soc & Hd & Hs & _).
  destruct (@Cluster_construct_correct unit Soc.SocDescriptor quiet_chips sorted_order sorted_order_laws no_soc_file quiet_works
    (λ _ _ _, mret (n300_cluster, {[0 := soc; 1 := soc]})) None n300_options n300_cluster {[0 := soc; 1 := soc]}
    (new_cluster n300_options empty_descriptor) quiet_world quiet_world eq_refl eq_refl (n300_buildable desc soc Hd Hs)) as (c & w' & E & Hco & _).
  exists soc, c, w'. exact (conj E Hco).
Defined.

(** Two P150, both on the bus and without places: nothing is asked of these. *)
Definition p150_cluster : ClusterDescriptor :=
  MkDesc {[0; 1]} {[0 := 0; 1 := 1]}
    (MkTables {[0 := BLACKHOLE; 1 := BLACKHOLE]} {[0 := 100; 1 := 101]} true {[0 := true; 1 := true]} ∅ ∅
      {[0 := blackhole_example_masks; 1 := blackhole_example_masks]} ∅)
    (MkPlacement ∅ ∅) (MkBoards {[0 := 9; 1 := 10]} {[9 := {[0]}; 10 := {[1]}]} {[0 := P150; 1 := P150]}) empty_links ∅ ∅ PCIe None None.
Lemma p150_buildable desc soc :
  SocArchDescriptor_of_arch BLACKHOLE = Ok desc → Soc.SocDescriptor_new (Some desc) (MkChipInfo true blackhole_example_masks P150 0 0) = Ok soc →
  @buildable unit Soc.SocDescriptor quiet_chips no_soc_file n300_options p150_cluster {[0 := soc; 1 := soc]}.
Proof.
  intros Hd Hs. assert (∀ id, id ∈ all_chips p150_cluster → id = 0 ∨ id = 1) as Hchips by (intros id; cbn; set_solver).
  assert (∀ id, id ∈ all_chips p150_cluster → is_chip_mmio_capable p150_cluster id = true) as Hmmio.
  { intros id [->| ->]%Hchips; by vm_compute. }
  split.
  - done.
  - intros id Hm. unfold is_chip_mmio_capable in Hm. apply bool_decide_eq_true in Hm as (v & Hv).
    assert ((id, v) ∈ map_to_list (chips_with_mmio p150_cluster)) as Hin by by apply elem_of_map_to_list.
    vm_compute in Hin. repeat (apply elem_of_cons in Hin as [[= -> ->]|Hin]; [cbn; set_solver|]). by apply elem_of_nil in Hin.
  - by apply cache_ok_empty.
  - intros id Hid Hm. by rewrite Hmmio in Hm.
  - intros id Hid. exists soc. assert (chip_info_of p150_cluster id = Ok (MkChipInfo true blackhole_example_masks P150 0 0) ∧ get_arch_of p150_cluster id = Ok BLACKHOLE) as [Hi Ha].
    { destruct (Hchips id Hid) as [->| ->]; split; by vm_compute. }
    unfold construct_soc_descriptor. rewrite (bool_decide_eq_true_2 _ Hid).
    rewrite andb_false_r. cbn [negb umd_assert mbind result_bind]. rewrite Hi, Ha. cbn [mbind result_bind].
    rewrite decide_True by done. rewrite Hd. exact Hs.
  - intros id [->| ->]%Hchips; by exists soc.
  - intros id [->| ->]%Hchips; by eexists.
  - intros id dev _. exists ∅. change (get_active_eth_channels p150_cluster id) with (set_at id (∅ : gmap Z (gset Z))). unfold set_at. by rewrite lookup_empty.
  - done.
  - intros _ _ remote _ _ Hr Hm. by rewrite Hmmio in Hm.
Qed.

(** Two chips that a reset is broadcast to in software, or over Ethernet. *)
Definition n300_broadcast : EthernetBroadcast :=
  new_broadcast {[0 := MkEthCoord 0 0 0 0 0; 1 := MkEthCoord 0 1 0 0 0]} {[0 := 0; 1 := 0]} {[0 := 3]}.
Definition n300_pair (soc : Soc.SocDescriptor) (broadcast : option EthernetBroadcast) : Cluster Soc.SocDescriptor :=
  let chip := MkChip MockChip soc (Some soc) None set_default_params in
  MkCluster {[0; 1]} ∅ {[0; 1]} {[0 := chip; 1 := chip]} ∅ broadcast WORMHOLE_B0 n300_cluster n300_options true None.
Lemma n300_broadcast_chips chip m : chip_to_mmio_chip n300_broadcast !! chip = Some m → (chip = 0 ∨ chip = 1) ∧ m = 0.
Proof. cbn. rewrite lookup_insert_Some, lookup_singleton_Some. lia. Qed.
Lemma n300_pair_ready soc broadcast :
  soc_ok WORMHOLE_B0 (standard_layout WORMHOLE_B0) wormhole_example_masks true soc → broadcast = None ∨ broadcast = Some n300_broadcast →
  @cluster_ready Soc.SocDescriptor (n300_pair soc broadcast).
Proof.
  intros Hok Hb. split.
  - by left.
  - intros Hn. apply (f_equal (lookup 0)) in Hn. by vm_compute in Hn.
  - intros id. cbn. rewrite elem_of_union, !elem_of_singleton, lookup_insert_is_Some, lookup_singleton_is_Some. naive_solver lia.
  - intros id k Hk. cbn in Hk. apply lookup_insert_Some in Hk as [[_ <-]|[_ [_ <-]%lookup_singleton_Some]]; exists wormhole_example_masks, true; by split.
  - intros e He. cbn in He. destruct Hb as [->| ->]; [done|]. injection He as <-. split_and!; try done.
    + intros chip m [_ ->]%n300_broadcast_chips. by exists 3.
    + intros chip m [[->| ->] _]%n300_broadcast_chips _; (eexists; split; [reflexivity|]);
        unfold EthHeaders.fits, EthHeaders.shelf_bit, EthHeaders.place_of; vm_compute; intuition congruence.
    + intros id. cbn. rewrite elem_of_union, !elem_of_singleton. intros [->| ->]; by eexists.
Qed.
Lemma reset_reaches_tensix_witness : ∃ soc,
  (let c := n300_pair soc None in
   @broadcast_tensix_risc_reset_to_cluster unit _ quiet_chips sorted_order 5 c quiet_world
   = (for_H (reset_targets c) (@write_target unit _ quiet_chips (word_bytes 5));; @wait_for_non_mmio_flush unit _ quiet_chips sorted_order) c quiet_world) ∧
  (let c := n300_pair soc (Some n300_broadcast) in
   ∃ cmds e', @broadcast_tensix_risc_reset_to_cluster unit _ quiet_chips sorted_order 5 c quiet_world
   = (modify_cluster (set_broadcast (Some e'));; for_H cmds (λ cmd, on_device (@send_broadcast unit _ quiet_chips cmd));;
      @wait_for_non_mmio_flush unit _ quiet_chips sorted_order) c quiet_world ∧
   ∃ comm at_, EthBroadcastProperties.behind n300_broadcast comm 1 at_ ∧
     ∃ cmd, cmd ∈ cmds ∧ cmd_comm cmd = comm ∧ EthBroadcastProperties.writes_chip cmd at_ 1 1 = true).
Proof.
  destruct n300_soc as (desc & soc & _ & _ & Hok). exists soc. split; intros c.
  - apply (@reset_reaches_tensix unit Soc.SocDescriptor quiet_chips sorted_order sorted_order_laws c 5 quiet_world).
    apply n300_pair_ready; [exact Hok|by left].
  - destruct (@reset_reaches_tensix unit Soc.SocDescriptor quiet_chips sorted_order sorted_order_laws c 5 quiet_world)
      as (cmds & e' & E & _ & _ & _ & Hall); [apply n300_pair_ready; [exact Hok|by right]|].
    exists cmds, e'. split; [exact E|]. destruct (Hall 1) as (comm & at_ & Hb & Hw); [by eexists|]. exists comm, at_. split; [exact Hb|].
    apply Hw; [lia|lia|]. apply (bool_decide_unpack _). by vm_compute.
Defined.

(** Another numbering of the two chips is refused. *)
Definition renumbered_cluster : ClusterDescriptor :=
  MkDesc {[0; 1]} {[0 := 0]} (MkTables ∅ {[0 := 101; 1 := 100]} true ∅ ∅ ∅ ∅ ∅) empty_placement empty_boards empty_links ∅ ∅ PCIe None None.
Lemma refresh_cluster_description_same_chips_witness : ∃ what,
  let c := new_cluster n300_options n300_cluster in
  @refresh_cluster_description unit Soc.SocDescriptor quiet_chips sorted_order (λ _ _ _, mret (renumbered_cluster, ∅)) c quiet_world
  = Some (Err (RuntimeError what), c, quiet_world).
Proof.
  pose proof (@refresh_cluster_description_same_chips unit Soc.SocDescriptor quiet_chips sorted_order sorted_order_laws
    (λ _ _ _, mret (renumbered_cluster, ∅)) (new_cluster n300_options n300_cluster) quiet_world renumbered_cluster ∅ quiet_world
    eq_refl) as H.
  cbv zeta in H. rewrite decide_False in H by (intros Hn; apply (f_equal (lookup 0)) in Hn; by vm_compute in Hn).
  apply H; [|done|by apply cache_ok_empty].
  intros id id' uid. cbn. rewrite !lookup_insert_Some, !lookup_singleton_Some. lia.
Defined.

(** An empty cluster: [assert_risc_reset] goes through the null implementation
    that [ArchitectureImplementation::create] has for no architecture. *)
Example empty_cluster_reset w :
  @assert_risc_reset unit Soc.SocDescriptor quiet_chips sorted_order (new_cluster n300_options empty_descriptor) w
  = Some (Err UndefinedBehaviour, new_cluster n300_options empty_descriptor, w).
Proof. reflexivity. Qed.
